(* ===== verification/_CoqProject ===== *)
-Q . S2P
Prelude.v
Fifo.v
SensorEventQueue.v
MultiHal.v
MultiHalThreads.v
CString.v
PmQos.v
TimeoutPoker.v
PowerHal.v
ShieldPower.v
Neon.v
ColorConv.v
Demosaic.v
Float32.v
Float64.v
PipelineImage.v
Pipeline.v
InFlightTracker.v
CameraHal.v
AudioRouting.v
AudioRoutes.v
AudioParse.v
AudioParser.v
AudioTyped.v
AudioHal.v
AudioHandles.v
AudioCalls.v
AudioSafety.v
AudioAsync.v
Resampler.v
CameraParams.v
CameraParams2.v
ThermalParse.v
ThermalHal.v
ThermalSafe.v
MetadataLib.v
CameraMetadata.v
StaticMetadata.v
CameraWrapper.v
CameraWrapperSpec.v
Camera3Wrapper.v
V4l2Device.v
V4l2Hal.v
Log2Kernel.v
VendorTags.v
Binder.v
CameraBinder.v
CameraClient.v
CameraProxy.v
CameraService.v
CameraObject.v
PthreadCond.v
HidlServices.v
JpegEncoder.v
SoftGateKeeper.v
TinyRing.v
TinyPcm.v
TinyMixer.v
Light.v
