(* ===== verification/Prelude.v ===== *)
(** * Verification library for the Xiaomi MiPad (mocha) device tree

    The repository is an Android device tree; its own program code is a set of
    hardware-abstraction modules that run as separate services: the sensors multi-HAL
    ([sensors/]), the NVIDIA power and thermal HALs ([hardware/nvidia/]), the camera HAL
    with its image processing and the wrappers of the vendor's camera library
    ([camera/]), the audio HAL with its configuration manager ([audio/], [configmgr/]),
    the light, vibrator and power services ([hidl/]), the software gatekeeper
    ([gatekeeper/]), the sound library ([tinyalsa/]), and code the old vendor libraries
    link against: framework classes ([libmocha/camera/]), condition variables
    ([libmocha/bionic/]) and a logarithm ([libshims/]).  They share no state; each talks to the kernel through
    files, ioctls and mappings.  This development models the core of each and proves what
    makes it correct.

    ** Layers

    - [Prelude]: tactics ([breflect], [case_tests], [decide_tests], [mod_cases]), the
      hint databases [mocha] and [mocha_simp], machine integers with their wrap-around
      ([wrap_s32], [wrap_u32], ...), lists indexed by C integers.
    - [CString]: C strings and the libc functions the sources apply to them.
    - [Neon]: byte buffers, counted [for] loops with an invariant rule
      ([for_loop_inv]), and the NEON intrinsics on lists of lanes.
    - [Float32], [Float64]: IEEE single and double precision, executable.
    - [MetadataLib]: libcamera_metadata as the class [MetadataLib] with the laws
      [MetadataLaws], the instance [RefMetadata], and the memory its buffers live in, with
      the rules [mdwp].

    ** Sensors multi-HAL ([sensors/SensorEventQueue.cpp], [sensors/multihal.cpp])

    - [Fifo]: the class [FifoSpec] the poll loop is proved against.
    - [SensorEventQueue]: the ring buffer ([queue] is the class).  Its abstraction is
      [contents], its invariant [wf].  [getWritableRegion_correct]: the region is free,
      contiguous and maximal; [publish_after_dequeues]: the class refines a FIFO even
      when the reader dequeues while a region is being filled.
    - [MultiHal]: the handle maps, the merged sensor list, the entry points that
      dispatch on a handle, and one scan of [poll].  The list and the maps agree
      ([get_sensors_list_correct]), dispatch reaches the right device
      ([dispatch_correct]) and an unknown handle dereferences null
      ([dispatch_unknown_handle]); a scan terminates and takes a prefix of each queue
      ([poll_round_correct]).
    - [MultiHalThreads]: the writer threads and the framework's thread as a step
      relation [mstep] whose steps are critical sections; theorems hold in every
      reachable state: no lost wake-up, no lost, duplicated or reordered event, no race
      on the unlocked array, progress of [poll].  The reader's critical section is computed by
      the loop of [poll], and what it takes by [round_log] along that loop.

    ** Power HAL ([hardware/nvidia/power/])

    - [PmQos]: the requests written to the kernel's PM QoS nodes and the size of the
      command buffer ([constraint_command_fits]).
    - [TimeoutPoker] ([timeoutpoker.cpp]): clients, looper thread and kernel as the
      step relation [pk_step] with an explicit clock; every message finds its event,
      timed requests are not released early, no node stays open without an owner.
    - [PowerHal] ([nvpowerhal.cpp], [powerhal_utils.cpp]): a state-and-log monad over
      [struct powerhal_info].  Over any sequence of operations ([run_ops]) descriptors are
      closed once and only when held, but for standard input, which two camera operations
      take for theirs ([power_fd_discipline]), and no command is truncated ([power_commands_complete]); hints are rate-limited; the frequency
      tables are read back exactly.  Two theorems show defects: an uninitialised
      descriptor that closes standard input, and an array one element too short.
    - [ShieldPower] ([power.cpp]): the HAL entry points over [PowerHal]: the brick
      whitelist, the power levels, the GPU gating sequences and their time bounds.

    ** Thermal HAL ([hardware/nvidia/thermal/])

    - [ThermalParse] ([parse_thermal.c]): the XML nodes and what [processNode] makes of
      them; of a file without nested devices and with positive numbers of cores, what is
      read is well-formed wherever reading stops ([thermal_config_typed]), and every core
      name fits its buffer ([core_names_fit]).
    - [ThermalHal] ([thermal.c]): the three calls over any file system; [ThermalSafe]:
      temperatures stay within the announced number ([temperatures_counted]), come from
      the first zone with the sensor's label, and the load of the processors is what the
      kernel printed ([cpu_usages_read]); a list of fans that is too long is read past the
      end of an array.

    ** Camera HAL ([camera/isp/], [camera/CameraPipeline.cpp], [camera/MochaCameraHAL.cpp])

    - [ColorConv], [Demosaic]: the vector routines with their scalar edges and
      remainders, compared with per-pixel specifications.  The conversions are exact;
      the demosaicer computes [frame_pixel], whose vector batches agree with the scalar
      interpolation in the cases [batch_agrees] lists and differ in those
      [batch_disagrees] shows ([demosaic_frame]); on even widths there are two columns it
      never computes ([even_width_stale_columns]).
    - [PipelineImage]: exposure and white-balance estimation, gains, gamma, contrast.
    - [Pipeline]: the [CameraPipeline] object in a state-and-log monad.  [quiet] marks
      the operations that leave device and buffers alone; [pipeline_inv] relates the
      object to the descriptors and mappings live according to the log, and every
      operation preserves it ([run_op_inv]), which gives [pipeline_resources], unless the
      driver grants more buffers than the four there is room for ([overflow],
      [five_buffers_overflow]).
      [af_scan_locks_best] and [capture_requeues] describe the autofocus scan and a
      capture on all their paths.
    - [InFlightTracker], [CameraHal]: the HAL3 device over [Pipeline].  Any sequence of
      calls leaves the device's descriptors and mappings balanced, with the same exception
      ([camera_hal_resources]); every request is answered once ([request_accounting]);
      after a flush no capture succeeds ([flush_ends_capture]).
    - [StaticMetadata]: the tables of the static characteristics and the request
      templates, added to buffers of their capacities: the first table fits
      ([static_characteristics_complete]), the second does not
      ([default_settings_truncated]).
    - [V4l2Device], [V4l2Hal] ([camera/v4l2/]): the second camera HAL and the device
      class beside it, over drivers that may answer anything.  The state holds what is
      open and mapped: nothing is released twice or kept ([v4l2_resources],
      [sensor_hal_resources]), waiting for a frame is bounded ([dequeue_bounded]), and a
      configured sensor runs at the size of the largest stream ([resolution_chosen]);
      [sensor_table_halved] and [sensor_settings] say what this HAL announces.

    - [JpegEncoder] ([camera/JpegEncoder.cpp]): the loop over the rows ends
      ([encode_ends]) and hands every row to libjpeg ([encode_rows]); a buffer that fills
      up early ends the process ([full_buffer_exits]).

    ** Camera metadata and the vendor wrappers ([libmocha/camera/], [camera/*Wrapper.cpp])

    - [CameraMetadata]: the class [CameraMetadata] over [MetadataLib].  It refines a
      finite map with a lock as long as no allocation fails ([metadata_refines_map]), and a
      parcel is read back as it was written ([parcel_roundtrip]).
    - [CameraWrapper], [CameraWrapperSpec] ([CameraWrapper.cpp]): the edits of the vendor's
      characteristics; each is a function on maps ([jpeg_spec], [streams_spec], ...,
      [mend_spec]), and [get_camera_info] announces one mended copy per camera
      ([wrapper_characteristics]); [stream_configurations_offered] says when synthesized
      configurations are valid.
    - [Camera3Wrapper] ([Camera3Wrapper.cpp]): results and templates lose the entries the
      framework cannot read, from copies that live as long as the call
      ([results_sanitized], [templates_sanitized]); the data space of BLOB streams is
      hidden from the vendor and restored ([dataspace_restored]); a device returns what it
      took ([device_returns_everything]).
    - [VendorTags] ([VendorTagDescriptor.cpp]): the table of the vendor's tags is built,
      written to a parcel and read back unchanged ([vendor_tags_transported]), and an
      accepted table is safe to query whatever the parcel held
      ([accepted_descriptor_safe]); unpacking itself reads outside a vector only where
      the check of the number of sections is not enough, for an index of 2^32-1 or a
      repeated section name.
    - [Binder]: a parcel is the class [BinderParcel], with the laws of what is read of what
      was written; [writes] and [reads] compose, and [stub] is what each [onTransact] does
      around its cases.
    - [CameraBinder] ([ICameraDeviceUser.cpp], [ICameraDeviceCallbacks.cpp],
      [CaptureRequest.cpp], [OutputConfiguration.cpp], [CaptureResult.cpp]): over any
      implementation a call of the camera device through the proxy and the stub acts as the
      call itself ([remote_is_local]), callbacks arrive in order ([callbacks_delivered]),
      and results are read as written ([capture_result_roundtrip]).
    - [CameraClient], [CameraProxy], [CameraService] ([ICameraClient.cpp], [ICamera.cpp],
      [ICameraService.cpp], ...): the same for the older interface
      ([client_callbacks_delivered], [camera_remote_is_local]) and for the service, two of
      whose calls never answer ([service_remote_is_local]).
    - [CameraObject] ([CameraBase.cpp], [Camera.cpp]): the object an application holds.  It
      is told of no death but that of the camera it holds, and of that one, once, where
      [linkToDeath] did not fail, which the code does not check ([connected_is_watched],
      [unnoticed_death]); each recording frame goes to one place ([frames_routed]).
    - [CameraParams], [CameraParams2] ([CameraParameters.cpp], [CameraParameters2.cpp]): the
      two parameter maps and their text forms; the typed accessors are written once,
      against the class [ParamStore].

    ** Audio ([configmgr/audio_config.c], [audio/audio_hw.c])

    - [AudioRouting], [AudioRoutes]: devices, mixer paths and use counts of the
      configuration manager, over a mixer that may answer anything; [routing_balanced]: a
      device as the shipped file has them is switched on once and for all, and where each
      device has a bit of its own and both switches, the last switch applied tells whether
      some stream uses it; an input that shares the bit of an output is missed
      ([reroute_misses_input]).
    - [AudioParse], [AudioParser], [AudioTyped]: the XML handlers; no sequence of elements
      overflows the stack or follows a null pointer ([parser_safe]), and what is built is
      well-typed and has nothing in use ([parsed_config_typed]).
    - [AudioHal], [AudioHandles], [AudioCalls], [AudioSafety]: the audio device and its
      streams over [AudioRouting].  [AudioHandles.hal_inv] relates streams, handles and
      reference counts; every call keeps it ([AudioCalls.wp_run_call]), so handles are
      opened and closed in turn ([audio_hal_handles]), as long as each capture is in
      standby when it is closed ([compress_capture_closed_twice]), and references count
      their users ([audio_hal_refs]), but for offload streams and for a trigger with a
      stream of its own ([trigger_leaks]).
    - [AudioAsync]: the callback thread of an offload stream as a step relation with
      spurious wake-ups: what is accepted is called back at most once and in order ([async_mailbox]), but a
      wake-up can be lost, and with it the call ([async_lost_wakeup]).
    - [Resampler]: the pieces a capture's resampler is fed ([resampler_mono_exact]).

    The library the audio HAL plays through ([tinyalsa/src/]; in the models of the HAL
    itself it is a parameter that may answer anything):

    - [TinyRing] ([pcm.c]): the ring shared with the driver.  The wrapped pointers give
      the true number of frames ([current_avail_spec]); a transfer stays in its buffers
      and puts the frames where they belong ([transfer_in_ring]), over any driver, starts
      and waits ([mmap_transfer_safe]), and ends in one round where there is room
      ([transfer_with_room]).
    - [TinyPcm] ([pcm.c]): formats, hardware parameters, configuration
      ([set_config_sizes] establishes the sizes [TinyRing] relies on), opening and closing
      ([open_close_releases]), writes and reads by ioctl ([writei_ends], [readi_ends]).
    - [TinyMixer] ([mixer.c]): the controls of a card, over the class [Card] for what the
      kernel keeps: values ([set_value_correct]), percentages ([percent_set_and_read]),
      arrays ([array_roundtrip]), enumerations ([set_enum_correct]), lookup
      ([lookup_by_name_correct]) and scanning ([add_controls_correct]).

    ** Services ([hidl/], [gatekeeper/])

    - [Light]: the LED shared by three lights ([led_shows_priority], [led_program]) and
      the scaled backlights ([backlight_scaled]).
    - [HidlServices]: the vibrator, whose streams fail for good
      ([enable_fails_for_good]) and whose amplitude is scaled exactly
      ([intensity_correct]), and the power service.
    - [SoftGateKeeper]: what the software gatekeeper adds to the platform's class.  A
      password that is accepted was accepted by the slow verification for its user
      ([DoVerify_sound]), but perhaps for an older handle ([stale_password_accepted]);
      opened and closed in turn the module is safe ([gatekeeper_module_safe]).

    ** Compatibility ([libmocha/bionic/], [libshims/log2_kernel.c])

    - [PthreadCond]: waits and pulses over a futex as the step relation [cond_step]; no
      wake-up is lost ([no_lost_wakeup]) until 2^30 pulses meet one waiter
      ([wakeup_lost_after_wrap]).
    - [Log2Kernel]: the table is never read inside its bounds ([kernel_log2_outside]).

    ** Conventions

    System calls, sub-HAL devices, the vendor library and the platform's constants are
    not in the repository: they are records or functions the definitions take as
    arguments ([env], [kernel], ...), which may answer anything their laws allow
    ([kernel_ok] asks for fresh descriptors and addresses).  [powf] and [pow] are arguments too.  Undefined behaviour
    (a null dereference, a write past an array) is an explicit outcome where the code
    can reach it, and the theorems say when it cannot.  Platform constants whose values
    matter only as names are given by a function from names ([cst]).

    Loops whose bound is in the source are [for_loop]s whose fuel is that bound divided
    by the step, enough for every iteration (the premise of [for_loop_inv]); retry loops
    recurse on the number of tries left; the scan of [poll] has fuel [poll_fuel], one
    pass over the queues for each queued event and one more, and [poll_round_correct]
    proves it returns.  The parsers recurse on the list of elements; the loop over
    redirected files has as fuel the number of files read.  The size-list parser has the
    length of the text as fuel ([parseSizesList_terminates]).  In [TinyRing] a chunk of a
    transfer moves at least a frame, so the number of frames is enough fuel for it, and the
    loop for the boundary has 31 rounds ([boundary_found]); the loop that waits for the
    driver takes any fuel.  A write by ioctl has fuel 2 ([writei_ends]).

    Image offsets are mathematical integers: the frames the HAL configures are far below
    2^31 bytes.  Sums that could overflow an [int] have their bound stated.

    ** Not modelled

    Within the modelled files: [dlopen] of sub-HALs and [close] of the multi-HAL, the
    regular-hints thread and [set_camera_fps] of the power HAL, which no live code
    reaches, printf and strtof of a [float] in the camera parameters, calls of the
    wrappers that only forward, log messages, and failures of [new]; of [tinyalsa] its error
    texts, its command-line programs and the calls that pass one ioctl on.  Other parts of
    the repository: the OMX plugin and symbol shims, which resolve and forward; the SATA
    power service, which this device does not build; configuration, policy and resources.
    In the camera client locks are not modelled: a call is one step.

    ** Plan

    What is left of [audio_hw.c] (the getters and the calls that only set a field), the
    memory of the audio configuration, and the rest of the parameter string tables. *)

From stdpp Require Export base gmap list strings sorting.
From Stdlib Require Export ZArith Lia.

#[global] Open Scope Z_scope.

(** ** Hint databases

    [mocha] holds the lemmas that discharge routine side conditions of the
    components (bounds, lengths, invariants); [mocha_simp] the rewrite rules
    that normalise lengths and lookups. *)
Create HintDb mocha discriminated.
#[global] Hint Constants Opaque : mocha.
#[global] Hint Variables Opaque : mocha.
Create Rewrite HintDb mocha_simp.

(** ** Tactics *)

(** Turns the boolean comparisons of the code into propositions. *)
Ltac breflect :=
  repeat match goal with
  | H : negb _ = true |- _ => apply negb_true_iff in H
  | H : negb _ = false |- _ => apply negb_false_iff in H
  | H : (_ && _)%bool = true |- _ => apply andb_true_iff in H as [??]
  | H : (_ || _)%bool = false |- _ => apply orb_false_iff in H as [??]
  | H : (_ =? _) = true |- _ => apply Z.eqb_eq in H
  | H : (_ =? _) = false |- _ => apply Z.eqb_neq in H
  | H : (_ <? _) = true |- _ => apply Z.ltb_lt in H
  | H : (_ <? _) = false |- _ => apply Z.ltb_ge in H
  | H : (_ <=? _) = true |- _ => apply Z.leb_le in H
  | H : (_ <=? _) = false |- _ => apply Z.leb_gt in H
  end.

(** Case analysis on the innermost test of a conditional in the goal. *)
Ltac case_test :=
  match goal with
  | |- context [if ?b then _ else _] =>
      lazymatch b with
      | context [if _ then _ else _] => fail
      | _ => let E := fresh "E" in destruct b eqn:E; breflect
      end
  end.

Ltac case_tests := repeat case_test.

(** The same on a hypothesis. *)
Ltac case_test_in H :=
  match type of H with
  | context [if ?b then _ else _] =>
      let E := fresh "E" in destruct b eqn:E; breflect
  end.

(** Decides the integer tests of the goal that arithmetic settles. *)
Ltac decide_tests :=
  repeat match goal with
  | |- context [?a =? ?b] =>
      first [rewrite (proj2 (Z.eqb_neq a b)) by lia | rewrite (proj2 (Z.eqb_eq a b)) by lia]
  | |- context [?a <? ?b] =>
      first [rewrite (proj2 (Z.ltb_lt a b)) by lia | rewrite (proj2 (Z.ltb_ge a b)) by lia]
  | |- context [?a <=? ?b] =>
      first [rewrite (proj2 (Z.leb_le a b)) by lia | rewrite (proj2 (Z.leb_gt a b)) by lia]
  end; cbn [andb orb negb].

(** ** Machine integers *)

(** Two's-complement reduction to a signed 32-bit [int]. *)
Definition wrap_s32 (z : Z) : Z := (z + 2 ^ 31) mod 2 ^ 32 - 2 ^ 31.
(** Reduction to an unsigned 32- or 64-bit integer. *)
Definition wrap_u32 (z : Z) : Z := z mod 2 ^ 32.
Definition wrap_u64 (z : Z) : Z := z mod 2 ^ 64.

Definition INT_MAX : Z := 2 ^ 31 - 1.
Definition INT_MIN : Z := - 2 ^ 31.
Definition is_int (z : Z) : Prop := INT_MIN <= z <= INT_MAX.

Lemma wrap_s32_id z : is_int z -> wrap_s32 z = z.
Proof.
  unfold is_int, INT_MIN, INT_MAX, wrap_s32; intros.
  rewrite Z.mod_small; lia.
Qed.

Lemma wrap_s32_range z : is_int (wrap_s32 z).
Proof.
  unfold is_int, INT_MIN, INT_MAX, wrap_s32.
  pose proof (Z.mod_pos_bound (z + 2 ^ 31) (2 ^ 32)). lia.
Qed.

Lemma wrap_u64_id z : 0 <= z < 2 ^ 64 -> wrap_u64 z = z.
Proof. intros; unfold wrap_u64; apply Z.mod_small; lia. Qed.

Lemma wrap_u32_id z : 0 <= z < 2 ^ 32 -> wrap_u32 z = z.
Proof. intros; unfold wrap_u32; apply Z.mod_small; lia. Qed.

#[export] Hint Resolve wrap_s32_range : mocha.

(** ** Lists indexed by C integers *)

(** Reading [l[i]] for a C index: a negative index is out of range. *)
Definition zlookup {A} (l : list A) (i : Z) : option A :=
  if i <? 0 then None else l !! Z.to_nat i.

(** Writing a run of elements from index [off] on. *)
Definition zwrite {A} (off : Z) (xs l : list A) : list A :=
  list_inserts (Z.to_nat off) xs l.

Definition zlen {A} (l : list A) : Z := Z.of_nat (length l).

Lemma zlen_nonneg {A} (l : list A) : 0 <= zlen l.
Proof. unfold zlen; lia. Qed.

Lemma zlen_app {A} (l k : list A) : zlen (l ++ k) = zlen l + zlen k.
Proof. unfold zlen; rewrite length_app; lia. Qed.

Lemma zlen_cons {A} (x : A) l : zlen (x :: l) = zlen l + 1.
Proof. unfold zlen; simpl; lia. Qed.

Lemma zlen_nil {A} : zlen (@nil A) = 0.
Proof. reflexivity. Qed.

Lemma zlen_0_nil {A} (l : list A) : zlen l = 0 -> l = [].
Proof. destruct l; [done | rewrite zlen_cons]. pose proof (zlen_nonneg l). lia. Qed.

Lemma length_zwrite {A} off (xs l : list A) : length (zwrite off xs l) = length l.
Proof. apply length_inserts. Qed.

Lemma zwrite_lookup_in {A} off (xs l : list A) i :
  0 <= off -> off <= i < off + zlen xs -> off + zlen xs <= zlen l ->
  zwrite off xs l !! Z.to_nat i = xs !! Z.to_nat (i - off).
Proof.
  unfold zlen, zwrite; intros.
  rewrite list_lookup_inserts by lia.
  f_equal; lia.
Qed.

Lemma zwrite_lookup_out {A} off (xs l : list A) i :
  0 <= off -> 0 <= i -> i < off \/ off + zlen xs <= i ->
  zwrite off xs l !! Z.to_nat i = l !! Z.to_nat i.
Proof.
  unfold zlen, zwrite; intros ?? [?|?].
  - apply list_lookup_inserts_lt; lia.
  - apply list_lookup_inserts_ge; lia.
Qed.

(** [alter] at a present index is an insertion. *)
Lemma list_alter_insert' {A} (f : A -> A) (l : list A) i x :
  l !! i = Some x -> alter f i l = <[i := f x]> l.
Proof.
  revert i; induction l as [|y l IH]; intros [|i] Hi; simplify_eq/=; [done|].
  f_equal. by apply IH.
Qed.

#[export] Hint Resolve zlen_nonneg : mocha.
#[export] Hint Rewrite @zlen_app @zlen_cons @zlen_nil @length_zwrite : mocha_simp.

(** ** Remainder of non-negative operands

    C's [%] truncates; on the non-negative operands of the ring-buffer code it
    is the mathematical remainder. *)
Definition c_rem (a b : Z) : Z := Z.rem a b.
Definition c_div (a b : Z) : Z := Z.quot a b.

Lemma c_rem_mod a b : 0 <= a -> 0 < b -> c_rem a b = a mod b.
Proof. intros; unfold c_rem; apply Z.rem_mod_nonneg; lia. Qed.

Lemma c_div_div a b : 0 <= a -> 0 < b -> c_div a b = a / b.
Proof. intros; unfold c_div; apply Z.quot_div_nonneg; lia. Qed.

Lemma mod_wrap_once a b : 0 < b -> b <= a < 2 * b -> a mod b = a - b.
Proof.
  intros. rewrite <- (Z.mod_small (a - b) b) by lia.
  rewrite <- (Z.mod_add (a - b) 1 b) by lia. f_equal; lia.
Qed.

Lemma mod_once a b : 0 < b -> 0 <= a < 2 * b ->
  (a < b /\ a mod b = a) \/ (b <= a /\ a mod b = a - b).
Proof.
  intros. destruct (Z_lt_le_dec a b).
  - left; split; [done | apply Z.mod_small; lia].
  - right; split; [done | apply mod_wrap_once; lia].
Qed.

(** Replaces every [_ mod c] whose argument is below [2 * c] by its two cases. *)
Ltac mod_cases :=
  repeat match goal with
  | |- context [?a mod ?b] =>
      let H := fresh in
      destruct (mod_once a b) as [[? H]|[? H]]; [lia | lia | rewrite H in * | rewrite H in *]
  end.

(** Removing a present index splits the list around it. *)
Lemma delete_split {A} (l : list A) i x :
  l !! i = Some x -> exists l1 l2, l = l1 ++ x :: l2 /\ delete i l = l1 ++ l2.
Proof.
  intros Hi. exists (take i l), (drop (S i) l).
  by rewrite take_drop_middle, <- delete_take_drop.
Qed.

(** ** Lists related element by element *)

Lemma Forall2_weaken {A B} (P Q : A -> B -> Prop) l k :
  Forall2 P l k -> (forall x y, x ∈ l -> P x y -> Q x y) -> Forall2 Q l k.
Proof.
  induction 1 as [|x y l k Hxy Hlk IH]; intros HPQ; constructor.
  - apply HPQ; [by left|done].
  - apply IH. intros ????. apply HPQ; [by right|done].
Qed.

Lemma concat_imap_nil {A B} (f : nat -> A -> list B) l :
  (forall k x, l !! k = Some x -> f k x = []) -> concat (imap f l) = [].
Proof.
  revert f; induction l as [|x l IH]; intros f Hf; [done|]. rewrite imap_cons. cbn.
  rewrite (Hf 0%nat x eq_refl). apply IH. intros k y Hk. by apply (Hf (S k)).
Qed.

Lemma imap_ext_lookup {A B} (f g : nat -> A -> B) l :
  (forall k x, l !! k = Some x -> f k x = g k x) -> imap f l = imap g l.
Proof.
  revert f g; induction l as [|x l IH]; intros f g Hfg; [done|]. rewrite !imap_cons. f_equal.
  - by apply Hfg.
  - apply IH. intros k y Hk. by apply (Hfg (S k)).
Qed.

(** ** Integers in memory *)

(** Little-endian integers of [n] bytes. *)
Fixpoint le_bytes (n : nat) (z : Z) : list Z :=
  match n with O => [] | S n => z mod 256 :: le_bytes n (z / 256) end.

Fixpoint le_int (l : list Z) : Z :=
  match l with [] => 0 | b :: l => b + 256 * le_int l end.

Lemma length_le_bytes n z : length (le_bytes n z) = n.
Proof. revert z. induction n as [|n IH]; intros z; cbn; [done|]. by rewrite IH. Qed.

Lemma le_int_bytes n z : le_int (le_bytes n z) = z mod 2 ^ (8 * Z.of_nat n).
Proof.
  revert z. induction n as [|n IH]; intros z; cbn [le_bytes le_int]; [by rewrite Z.mod_1_r|].
  rewrite IH. replace (8 * Z.of_nat (S n)) with (8 + 8 * Z.of_nat n) by lia.
  rewrite Z.pow_add_r by lia. change (2 ^ 8) with 256.
  rewrite Z.rem_mul_r by (try apply Z.pow_pos_nonneg; lia). done.
Qed.

(** The bytes of an unsigned integer determine it. *)
Lemma le_bytes_inj n y z : 0 <= y < 2 ^ (8 * Z.of_nat n) -> 0 <= z < 2 ^ (8 * Z.of_nat n) -> le_bytes n y = le_bytes n z -> y = z.
Proof.
  intros Hy Hz He. apply (f_equal le_int) in He. rewrite !le_int_bytes, !Z.mod_small in He; lia.
Qed.
