(* ===== verification/Fifo.v ===== *)
(** * Interface: a FIFO the poll loop reads from

    What [sensors_poll_context_t::poll] (sensors/multihal.cpp) relies on about
    [SensorEventQueue]: the head can be looked at, popping removes exactly the
    head, and popping a full queue signals the writers waiting for space. *)

From S2P Require Import Prelude.

(** The operations the reader calls, with the pointer returned by [peek] already
    dereferenced; [fifo_pop] also returns whether waiting writers are signalled. *)
Class FifoOps (Q E : Type) := {
  fifo_head : Q -> option E;
  fifo_pop : Q -> Q * bool;
}.

Class FifoSpec (Q E : Type) `{FifoOps Q E} := {
  fifo_ok : Q -> Prop;
  fifo_full : Q -> bool;
  fifo_contents : Q -> list E;
  fifo_head_spec q : fifo_ok q -> fifo_head q = head (fifo_contents q);
  fifo_pop_ok q : fifo_ok q -> fifo_ok (fifo_pop q).1;
  fifo_pop_contents q : fifo_ok q -> fifo_contents (fifo_pop q).1 = tail (fifo_contents q);
  fifo_pop_signal q :
    fifo_ok q -> fifo_full q = true -> fifo_contents q <> [] -> (fifo_pop q).2 = true;
}.
#[global] Hint Mode FifoOps ! - : typeclass_instances.
#[global] Hint Mode FifoSpec ! - - : typeclass_instances.
