(* ===== verification/SensorEventQueue.v ===== *)
(** * The fixed-capacity event queue of the sensors multi-HAL

    Models [sensors/SensorEventQueue.{h,cpp}].  [queue] is the class: [mCapacity],
    [mStart], [mSize] and the array [mData].  A pointer into [mData] is the index
    it points at.  The contract of the class is a bounded FIFO ([contents]); the
    theorems show every operation implements it and that a region handed to the
    writer stays writable while the reader dequeues behind its back. *)

From S2P Require Import Prelude.
From S2P Require Import Fifo.

Section Queue.
Context {E : Type}.
Implicit Types (evs : list E).

Record queue := mk_queue {
  mCapacity : Z;
  mStart : Z;
  mSize : Z;
  mData : list E;
}.

(** [SensorEventQueue(capacity)]: [mem] is the indeterminate initial contents of
    [new sensors_event_t[mCapacity]]. *)
Definition new_queue (capacity : Z) (mem : list E) : queue :=
  mk_queue capacity 0 0 mem.

(** The pair (written to [*out], returned length); [None] is [NULL]. *)
Definition getWritableRegion (q : queue) (requestedLength : Z) : option Z * Z :=
  if (mSize q =? mCapacity q) || (requestedLength <=? 0) then (None, 0)
  else
    let firstWritable := c_rem (mStart q + mSize q) (mCapacity q) in
    let lastWritable := firstWritable + requestedLength - 1 in
    let lastWritable :=
      if mCapacity q - 1 <? lastWritable then mCapacity q - 1 else lastWritable in
    let lastWritable :=
      if (firstWritable <? mStart q) && (mStart q <=? lastWritable)
      then mStart q - 1 else lastWritable in
    (Some firstWritable, lastWritable - firstWritable + 1).

Definition markAsWritten (q : queue) (count : Z) : queue :=
  mk_queue (mCapacity q) (mStart q) (mSize q + count) (mData q).

Definition getSize (q : queue) : Z := mSize q.

(** The index of the first readable record, [None] for [NULL]. *)
Definition peek (q : queue) : option Z :=
  if mSize q =? 0 then None else Some (mStart q).

(** The new queue, and whether [mSpaceAvailableCondition] is broadcast. *)
Definition dequeue (q : queue) : queue * bool :=
  if mSize q =? 0 then (q, false)
  else
    (mk_queue (mCapacity q) (c_rem (mStart q + 1) (mCapacity q)) (mSize q - 1) (mData q),
     mSize q =? mCapacity q).

(** The test of the loop in [waitForSpace]: the caller blocks while it holds. *)
Definition waitForSpace_blocks (q : queue) : bool := mSize q =? mCapacity q.

(** What a writer does to the array through the pointer it got. *)
Definition write_region (q : queue) (off : Z) evs : queue :=
  mk_queue (mCapacity q) (mStart q) (mSize q) (zwrite off evs (mData q)).

(** What a reader sees through the pointer [peek] returned. *)
Definition read_slot (q : queue) (i : Z) : option E := zlookup (mData q) i.

(** ** Invariant and abstraction *)

Record wf (q : queue) : Prop := {
  wf_cap : 0 < mCapacity q;
  wf_start : 0 <= mStart q < mCapacity q;
  wf_size : 0 <= mSize q <= mCapacity q;
  wf_len : zlen (mData q) = mCapacity q;
}.

(** The physical index of the [i]-th readable record. *)
Definition slot (q : queue) (i : Z) : Z := (mStart q + i) mod mCapacity q.

(** The readable records, oldest first. *)
Definition contents (q : queue) : list E :=
  omap (fun i => mData q !! Z.to_nat (slot q i)) (seqZ 0 (mSize q)).

Lemma slot_range q i : wf q -> 0 <= slot q i < mCapacity q.
Proof. intros []. apply Z.mod_pos_bound; lia. Qed.

Lemma slot_is_Some q i : wf q -> is_Some (mData q !! Z.to_nat (slot q i)).
Proof.
  intros Hq. pose proof (slot_range q i Hq). destruct Hq.
  apply lookup_lt_is_Some. unfold zlen in *. lia.
Qed.

(** [omap] over positions that are all present behaves like [map]. *)
Lemma omap_total_lookup (f : Z -> option E) (l : list Z) (n : nat) :
  (forall i, i ∈ l -> is_Some (f i)) -> omap f l !! n = l !! n ≫= f.
Proof.
  revert n; induction l as [|x l IH]; intros n Hf; [by destruct n|].
  destruct (Hf x) as [y Hy]; [set_solver|].
  simpl; rewrite Hy. destruct n; simpl; [by rewrite Hy|].
  apply IH. set_solver.
Qed.

Lemma contents_lookup q i :
  wf q -> 0 <= i < mSize q ->
  contents q !! Z.to_nat i = mData q !! Z.to_nat (slot q i).
Proof.
  intros Hq Hi. unfold contents.
  rewrite omap_total_lookup by (intros; by apply slot_is_Some).
  rewrite lookup_seqZ_lt by lia. simpl. do 3 f_equal. lia.
Qed.

Lemma omap_total_length (f : Z -> option E) (l : list Z) :
  (forall i, i ∈ l -> is_Some (f i)) -> length (omap f l) = length l.
Proof.
  induction l as [|x l IH]; intros Hf; [done|].
  destruct (Hf x) as [y Hy]; [set_solver|].
  simpl; rewrite Hy; simpl. f_equal. apply IH. set_solver.
Qed.

Lemma contents_length q : wf q -> zlen (contents q) = mSize q.
Proof.
  intros Hq. unfold contents, zlen.
  rewrite omap_total_length by (intros; by apply slot_is_Some).
  rewrite length_seqZ. destruct Hq; lia.
Qed.

(** Two lists with the same lookups at the C indices below their length. *)
Lemma zlist_eq (l k : list E) (n : Z) :
  zlen l = n -> zlen k = n ->
  (forall i, 0 <= i < n -> l !! Z.to_nat i = k !! Z.to_nat i) -> l = k.
Proof.
  unfold zlen; intros Hl Hk Hi.
  apply list_eq_same_length with (n := length l); [lia | done |].
  intros i x y Hlt Hx Hy. specialize (Hi (Z.of_nat i)).
  rewrite !Nat2Z.id in Hi. rewrite Hi in Hx by lia. congruence.
Qed.
End Queue.
Arguments queue : clear implicits.

Section QueueFacts.
Context {E : Type}.
Implicit Types (q : queue E) (evs : list E).

(** ** The region a writer owns

    [writable q off n]: the [n] slots from index [off] follow the last readable
    record without wrapping and none of them is readable.  The writer keeps this
    outside the lock, so it has to survive every [dequeue]. *)
Record writable q (off n : Z) : Prop := {
  wr_off : off = slot q (mSize q);
  wr_len : 0 <= n;
  wr_end : off + n <= mCapacity q;
  wr_free : n <= mCapacity q - mSize q;
}.

Lemma writable_dequeue q off n :
  wf q -> writable q off n -> writable (dequeue q).1 off n.
Proof.
  intros Hq Hw. unfold dequeue. case_tests; [done|].
  destruct Hq, Hw. constructor; simpl; try lia.
  unfold slot in *; simpl. rewrite c_rem_mod by lia.
  rewrite Zplus_mod_idemp_l. subst off. f_equal. lia.
Qed.

Lemma dequeue_wf q : wf q -> wf (dequeue q).1.
Proof.
  intros Hq. unfold dequeue. case_tests; [done|].
  destruct Hq. constructor; simpl; try lia.
  rewrite c_rem_mod by lia. apply Z.mod_pos_bound; lia.
Qed.

Lemma write_region_wf q off evs : wf q -> wf (write_region q off evs).
Proof.
  intros []. constructor; simpl; try done.
  unfold zlen in *. by rewrite length_zwrite.
Qed.

Lemma markAsWritten_wf q count :
  wf q -> 0 <= count <= mCapacity q - mSize q -> wf (markAsWritten q count).
Proof. intros [] ?. constructor; simpl; lia || done. Qed.

Lemma new_queue_wf capacity (mem : list E) :
  0 < capacity -> zlen mem = capacity -> wf (new_queue capacity mem).
Proof. constructor; simpl; lia || done. Qed.

Lemma contents_new capacity (mem : list E) : contents (new_queue capacity mem) = [].
Proof. reflexivity. Qed.

(** Slots of distinct logical positions are distinct. *)
Lemma slot_inj q i j :
  wf q -> 0 <= i < mCapacity q -> 0 <= j < mCapacity q -> slot q i = slot q j -> i = j.
Proof.
  intros [] Hi Hj. unfold slot.
  destruct (mod_once (mStart q + i) (mCapacity q)) as [[? ->]|[? ->]]; [lia|lia| |];
  destruct (mod_once (mStart q + j) (mCapacity q)) as [[? ->]|[? ->]]; lia.
Qed.

(** The slot of the [k]-th record after the readable ones, inside a writable region. *)
Lemma writable_slot q off n k :
  wf q -> writable q off n -> 0 <= k < n -> slot q (mSize q + k) = off + k.
Proof.
  intros Hq [] Hk. subst off. unfold slot in *.
  rewrite Z.add_assoc, <- Zplus_mod_idemp_l. apply Z.mod_small.
  pose proof (Z.mod_pos_bound (mStart q + mSize q) (mCapacity q)). destruct Hq. lia.
Qed.

(** A readable slot is outside a writable region. *)
Lemma writable_disjoint q off n i :
  wf q -> writable q off n -> 0 <= i < mSize q ->
  slot q i < off \/ off + n <= slot q i.
Proof.
  intros Hq Hw Hi.
  destruct (Z_lt_le_dec (slot q i) off) as [|Hge]; [by left|].
  destruct (Z_lt_le_dec (slot q i) (off + n)) as [Hlt|]; [exfalso|by right].
  assert (Hs : slot q i = slot q (mSize q + (slot q i - off))).
  { rewrite (writable_slot q off n) by (done || lia). lia. }
  apply slot_inj in Hs; [|done| |]; destruct Hq, Hw; lia.
Qed.

Lemma getWritableRegion_writable q req off n :
  wf q -> getWritableRegion q req = (Some off, n) -> writable q off n /\ 1 <= n.
Proof.
  intros Hq. unfold getWritableRegion. pose proof Hq as [].
  destruct (_ || _) eqn:Ht; [done|]. breflect.
  rewrite c_rem_mod by lia.
  pose proof (slot_range q (mSize q) Hq) as Hr. unfold slot in Hr.
  assert (Hx : (mStart q + mSize q) mod mCapacity q < mStart q ->
    (mStart q + mSize q) mod mCapacity q = mStart q + mSize q - mCapacity q).
  { intros. destruct (mod_once (mStart q + mSize q) (mCapacity q)); lia. }
  assert (Hy : mStart q <= (mStart q + mSize q) mod mCapacity q ->
    (mStart q + mSize q) mod mCapacity q = mStart q + mSize q).
  { intros. destruct (mod_once (mStart q + mSize q) (mCapacity q)); lia. }
  set (f := (mStart q + mSize q) mod mCapacity q) in *.
  destruct (mCapacity q - 1 <? _) eqn:E1;
  destruct ((f <? mStart q) && _) eqn:E2; breflect;
    try (apply andb_false_iff in E2 as [E2|E2]; breflect);
    intros [= <- <-]; split; try lia; constructor; unfold slot; fold f; lia.
Qed.

(** The exact length of the region, for every state and request. *)
Definition region_length (q : queue E) (req : Z) : Z :=
  let off := slot q (mSize q) in
  Z.min req (if off <? mStart q then mStart q - off else mCapacity q - off).

Lemma getWritableRegion_exact q req :
  wf q ->
  getWritableRegion q req =
    if (mSize q =? mCapacity q) || (req <=? 0) then (None, 0)
    else (Some (slot q (mSize q)), region_length q req).
Proof.
  intros Hq. unfold getWritableRegion, region_length. destruct (_ || _); [done|].
  pose proof (slot_range q (mSize q) Hq) as Hr. pose proof Hq as [].
  rewrite c_rem_mod by lia. unfold slot in *. f_equal.
  set (f := (mStart q + mSize q) mod mCapacity q) in *.
  destruct (mCapacity q - 1 <? _) eqn:E1;
  destruct (f <? mStart q) eqn:E2; simpl; breflect; case_tests; lia.
Qed.

Lemma contents_write_region q off n evs :
  wf q -> writable q off n -> zlen evs <= n ->
  contents (write_region q off evs) = contents q.
Proof.
  intros Hq Hw Hn. apply zlist_eq with (n := mSize q).
  - apply (contents_length _ (write_region_wf q off evs Hq)).
  - by apply contents_length.
  - intros i Hi. rewrite !contents_lookup by (done || by apply write_region_wf).
    simpl. pose proof (slot_range q i Hq).
    apply zwrite_lookup_out; [destruct Hw; pose proof (slot_range q (mSize q) Hq); lia | lia |].
    destruct (writable_disjoint q off n i Hq Hw Hi); lia.
Qed.

Lemma publish_contents q off n evs :
  wf q -> writable q off n -> zlen evs <= n ->
  let q' := markAsWritten (write_region q off evs) (zlen evs) in
  wf q' /\ contents q' = contents q ++ evs.
Proof.
  intros Hq Hw Hn q'. pose proof (zlen_nonneg evs).
  pose proof (slot_range q (mSize q) Hq) as Hso.
  assert (Hwf : wf q').
  { apply markAsWritten_wf; [by apply write_region_wf | destruct Hw; simpl; lia]. }
  split; [done|].
  apply zlist_eq with (n := mSize q + zlen evs).
  - by rewrite contents_length.
  - rewrite zlen_app, contents_length; done.
  - intros i Hi. rewrite contents_lookup by done.
    change (slot q' i) with (slot q i). simpl.
    pose proof Hw as [Hoff _ Hend _]. pose proof (contents_length q Hq) as Hcl.
    unfold zlen in Hcl.
    destruct (Z_lt_le_dec i (mSize q)).
    + rewrite lookup_app_l by lia.
      rewrite contents_lookup by (done || lia). pose proof (slot_range q i Hq).
      apply zwrite_lookup_out; [lia | lia |].
      destruct (writable_disjoint q off n i Hq Hw); lia.
    + rewrite lookup_app_r by lia.
      replace i with (mSize q + (i - mSize q)) at 1 by lia.
      rewrite (writable_slot q off n) by (done || lia).
      rewrite zwrite_lookup_in; [f_equal; lia | lia | lia | destruct Hq; lia].
Qed.

(** The records a writer left in [count] slots from [off] on. *)
Definition region_data (q : queue E) (off count : Z) : list E :=
  take (Z.to_nat count) (drop (Z.to_nat off) (mData q)).

Lemma zwrite_self (l : list E) (off k : nat) :
  (off + k <= length l)%nat -> list_inserts off (take k (drop off l)) l = l.
Proof.
  intros Hle. apply list_eq. intros i.
  destruct (decide (off <= i < off + k)%nat).
  - rewrite list_lookup_inserts by (rewrite ?length_take, ?length_drop; lia).
    rewrite lookup_take by lia. case_decide; [|lia]. rewrite lookup_drop. f_equal; lia.
  - destruct (decide (i < off)%nat); [by apply list_lookup_inserts_lt|].
    apply list_lookup_inserts_ge. rewrite length_take, length_drop. lia.
Qed.

Lemma mark_contents q off n count :
  wf q -> writable q off n -> 0 <= count <= n ->
  wf (markAsWritten q count) /\
  contents (markAsWritten q count) = contents q ++ region_data q off count.
Proof.
  intros Hq Hw Hc. pose proof (slot_range q (mSize q) Hq).
  assert (Hlen : (Z.to_nat off + Z.to_nat count <= length (mData q))%nat).
  { destruct Hq, Hw. unfold zlen in *. lia. }
  assert (Hz : zlen (region_data q off count) = count).
  { unfold zlen, region_data. rewrite length_take, length_drop. lia. }
  pose proof (publish_contents q off n (region_data q off count) Hq Hw ltac:(lia)) as Hp.
  assert (Hid : write_region q off (region_data q off count) = q).
  { unfold write_region, zwrite, region_data. rewrite zwrite_self by done. by destruct q. }
  by rewrite Hid, Hz in Hp.
Qed.

Lemma dequeue_contents q x l :
  wf q -> contents q = x :: l -> contents (dequeue q).1 = l.
Proof.
  intros Hq Hc. pose proof (contents_length q Hq) as Hl.
  rewrite Hc, zlen_cons in Hl. pose proof (zlen_nonneg l).
  pose proof (dequeue_wf q Hq) as Hq'.
  apply zlist_eq with (n := zlen l); [|done|].
  - rewrite contents_length by done. unfold dequeue. case_tests; simpl; lia.
  - intros i Hi.
    rewrite contents_lookup; [|done|unfold dequeue; case_tests; simpl; lia].
    replace (l !! Z.to_nat i) with (contents q !! Z.to_nat (i + 1)).
    2: { rewrite Hc. replace (Z.to_nat (i + 1)) with (S (Z.to_nat i)) by lia. done. }
    rewrite contents_lookup by (done || lia).
    unfold dequeue; case_tests; [lia|]. simpl. unfold slot; simpl.
    destruct Hq. rewrite c_rem_mod, Zplus_mod_idemp_l by lia.
    do 3 f_equal. lia.
Qed.

(** The record the reader sees through [peek]. *)
Definition peek_value (q : queue E) : option E := i ← peek q; read_slot q i.

Lemma peek_value_head q : wf q -> peek_value q = head (contents q).
Proof.
  intros Hq. unfold peek_value, peek, read_slot, zlookup.
  pose proof (contents_length q Hq) as Hl. case_tests; simpl.
  - by rewrite (zlen_0_nil (contents q)) by lia.
  - destruct Hq. case_tests; [lia|].
    rewrite head_lookup. change 0%nat with (Z.to_nat 0).
    rewrite contents_lookup by (done || lia). unfold slot.
    rewrite Z.add_0_r, Z.mod_small by lia. done.
Qed.
End QueueFacts.

#[export] Hint Resolve dequeue_wf write_region_wf slot_range : mocha.

(** ** The queue implements the reader's interface *)

Lemma dequeue_tail {E} (q : queue E) :
  wf q -> contents (dequeue q).1 = tail (contents q).
Proof.
  intros Hq. destruct (contents q) as [|x l] eqn:Hc; [|by apply dequeue_contents with x].
  pose proof (contents_length q Hq) as Hl. rewrite Hc, zlen_nil in Hl.
  unfold dequeue. case_tests; [done | lia].
Qed.

Lemma dequeue_full_signals {E} (q : queue E) :
  waitForSpace_blocks q = true -> contents q <> [] -> (dequeue q).2 = true.
Proof.
  unfold waitForSpace_blocks, dequeue. intros Hf Hne. case_tests; [|by apply Z.eqb_eq].
  exfalso; apply Hne. unfold contents. by rewrite E0.
Qed.

#[export] Instance queue_fifo_ops E : FifoOps (queue E) E :=
  {| fifo_head := peek_value; fifo_pop := dequeue |}.

#[export] Instance queue_fifo_spec E : FifoSpec (queue E) E :=
  {| fifo_ok := wf; fifo_full := waitForSpace_blocks; fifo_contents := contents;
     fifo_head_spec := peek_value_head; fifo_pop_ok := dequeue_wf;
     fifo_pop_contents := dequeue_tail;
     fifo_pop_signal q _ := dequeue_full_signals q |}.

(** ** Properties *)

(** [k] reads by the consumer. *)
Definition dequeues {E} (k : nat) (q : queue E) : queue E := Nat.iter k (fun q => (dequeue q).1) q.

Lemma dequeues_wf {E} k (q : queue E) : wf q -> wf (dequeues k q).
Proof. intros; induction k; simpl; auto with mocha. Qed.

Lemma dequeues_writable {E} k (q : queue E) off n :
  wf q -> writable q off n -> writable (dequeues k q) off n.
Proof.
  intros Hq Hw; induction k; [done|]. apply writable_dequeue; [by apply dequeues_wf | done].
Qed.

Lemma dequeues_contents {E} k (q : queue E) :
  wf q -> contents (dequeues k q) = drop k (contents q).
Proof.
  intros Hq; induction k as [|k IH]; [done|]. simpl.
  rewrite dequeue_tail by (by apply dequeues_wf).
  fold (dequeues k q). rewrite IH. clear IH.
  generalize (contents q) as l; induction k as [|k IH]; intros [|x l]; try done.
  simpl. by rewrite IH.
Qed.

(** [getWritableRegion] on a queue with space returns a non-empty region of at
    most the requested length that lies inside the array, contains no readable
    record, and is exactly as long as the array end and the readable region allow;
    on a full queue or a non-positive request it returns [NULL] and 0. *)
Theorem getWritableRegion_correct {E} (q : queue E) (req : Z) (Hq : wf q) :
  if waitForSpace_blocks q || (req <=? 0) then getWritableRegion q req = (None, 0)
  else exists off n, getWritableRegion q req = (Some off, n) /\
    1 <= n <= Z.min req (mCapacity q - mSize q) /\ 0 <= off /\ off + n <= mCapacity q /\
    (forall i, 0 <= i < mSize q -> slot q i < off \/ off + n <= slot q i) /\
    n = region_length q req.
Proof.
  unfold waitForSpace_blocks. pose proof (getWritableRegion_exact q req Hq) as He.
  destruct ((mSize q =? mCapacity q) || (req <=? 0)) eqn:Ht; [done|].
  exists (slot q (mSize q)), (region_length q req). split; [done|].
  destruct (getWritableRegion_writable q req _ _ Hq He) as [Hw H1].
  pose proof (slot_range q (mSize q) Hq). pose proof Hw as [].
  unfold region_length in *. split_and!; try lia.
  intros i Hi. by apply writable_disjoint.
Qed.

Example sample_queue : queue nat := mk_queue 4 3 2 [7; 8; 9; 6]%nat.

Example sample_queue_wf : wf sample_queue.
Proof. constructor; simpl; unfold zlen; simpl; lia. Defined.

Lemma getWritableRegion_correct_witness :
  contents sample_queue = [6; 7]%nat /\ getWritableRegion sample_queue 36 = (Some 1, 2) /\
  (if waitForSpace_blocks sample_queue || (36 <=? 0)
   then getWritableRegion sample_queue 36 = (None, 0)
   else exists off n, getWritableRegion sample_queue 36 = (Some off, n) /\
     1 <= n <= Z.min 36 (mCapacity sample_queue - mSize sample_queue) /\ 0 <= off /\
     off + n <= mCapacity sample_queue /\
     (forall i, 0 <= i < mSize sample_queue ->
        slot sample_queue i < off \/ off + n <= slot sample_queue i) /\
     n = region_length sample_queue 36).
Proof.
  split; [reflexivity|]. split; [reflexivity|].
  exact (getWritableRegion_correct sample_queue 36 sample_queue_wf).
Defined.

(** C2. A writer that got a region, filled it outside the lock while the reader
    dequeued any number [k] of records, and then marked what it wrote, appends
    exactly the written records behind the remaining ones: nothing is lost,
    overwritten or reordered. *)
Theorem publish_after_dequeues {E} (q : queue E) req off n (k : nat) (evs : list E)
    (Hq : wf q) (Hr : getWritableRegion q req = (Some off, n)) (Hn : zlen evs <= n) :
  let q' := markAsWritten (write_region (dequeues k q) off evs) (zlen evs) in
  wf q' /\ contents q' = drop k (contents q) ++ evs.
Proof.
  intros q'. rewrite <- dequeues_contents by done.
  apply publish_contents with n; [by apply dequeues_wf | | done].
  apply dequeues_writable; [done|]. by apply getWritableRegion_writable in Hr as [? _].
Qed.

Lemma publish_after_dequeues_witness :
  contents (markAsWritten (write_region (dequeues 1 sample_queue) 1 [4; 5]%nat) 2) = [7; 4; 5]%nat /\
  (let q' := markAsWritten (write_region (dequeues 1 sample_queue) 1 [4; 5]%nat)
               (zlen [4; 5]%nat) in
   wf q' /\ contents q' = drop 1 (contents sample_queue) ++ [4; 5]%nat).
Proof.
  split; [reflexivity|].
  exact (publish_after_dequeues sample_queue 36 1 2 1 [4; 5]%nat sample_queue_wf eq_refl
           ltac:(unfold zlen; simpl; lia)).
Defined.
