(* ===== verification/MultiHal.v ===== *)
(** * The sensors multi-HAL: handles, sensor list, dispatch and the poll scan

    Models [sensors/multihal.cpp] except its threads (see [MultiHalThreads]).
    The two [std::map]s of handles are [gmap]s; a null dereference or an
    out-of-bounds array write is an explicit outcome.  The constants of
    [hardware/sensors.h] and the sub-HAL devices are parameters. *)

From S2P Require Import Prelude.
From S2P Require Import Fifo.
From S2P Require Import SensorEventQueue.
From Stdlib Require Import QArith.
#[local] Open Scope Z_scope.

(** ** Handles *)

Record FullHandle := mk_full { moduleIndex : Z; localHandle : Z }.

#[export] Instance FullHandle_eq_dec : EqDecision FullHandle.
Proof. solve_decision. Defined.

#[export] Instance FullHandle_countable : Countable FullHandle.
Proof.
  refine (inj_countable' (fun f => (moduleIndex f, localHandle f))
            (fun p => mk_full p.1 p.2) _). by intros [].
Defined.

(** [FullHandle::operator<] and [operator==]. *)
Definition full_lt (this that : FullHandle) : bool :=
  if moduleIndex this <? moduleIndex that then true
  else if moduleIndex that <? moduleIndex this then false
  else localHandle this <? localHandle that.

Definition full_eq (this that : FullHandle) : bool :=
  (moduleIndex this =? moduleIndex that) && (localHandle this =? localHandle that).

Record handles := mk_handles {
  global_to_full : gmap Z FullHandle;
  full_to_global : gmap FullHandle Z;
  next_global_handle : Z;
}.

Definition handles_init : handles := mk_handles ∅ ∅ 1.

Definition assign_global_handle (h : handles) (module_index local_handle : Z)
  : handles * Z :=
  let global_handle := next_global_handle h in
  let full_handle := mk_full module_index local_handle in
  (mk_handles (<[global_handle := full_handle]> (global_to_full h))
              (<[full_handle := global_handle]> (full_to_global h))
              (next_global_handle h + 1),
   global_handle).

Definition get_local_handle (h : handles) (global_handle : Z) : Z :=
  match global_to_full h !! global_handle with
  | None => -1
  | Some f => localHandle f
  end.

Definition get_module_index (h : handles) (global_handle : Z) : Z :=
  match global_to_full h !! global_handle with
  | None => -1
  | Some f => moduleIndex f
  end.

Definition get_global_handle (h : handles) (full_handle : FullHandle) : Z :=
  match full_to_global h !! full_handle with
  | Some g => g
  | None => -1
  end.

(** ** Dispatch to the sub-HAL devices *)

Definition EINVAL : Z := 22.

(** A call either dereferences a null device or reaches [dev] with arguments
    and returns what the device returned. *)
Inductive outcome (D : Type) :=
| NullDeref
| Called (dev : D) (args : list Z) (ret : Z).
Arguments NullDeref {D}.
Arguments Called {D} dev args ret.

Section Dispatch.
Context {D : Type}.
(** The sub-HAL entry points: device, local handle, further arguments. *)
Variable dev_activate : D -> Z -> Z -> Z.
Variable dev_setDelay : D -> Z -> Z -> Z.
Variable dev_batch : D -> Z -> Z -> Z -> Z -> Z.
Variable dev_flush : D -> Z -> Z.
Variable dev_version : D -> Z.
Variable h : handles.

(** Both accessors compute the same pointer, cast to a different struct. *)
Definition get_v0_device_by_handle (sub_hw_devices : list D) (global_handle : Z) : option D :=
  let sub_index := get_module_index h global_handle in
  if (sub_index <? 0) || (zlen sub_hw_devices <=? sub_index) then None
  else zlookup sub_hw_devices sub_index.

Definition get_v1_device_by_handle (sub_hw_devices : list D) (global_handle : Z) : option D :=
  let sub_index := get_module_index h global_handle in
  if (sub_index <? 0) || (zlen sub_hw_devices <=? sub_index) then None
  else zlookup sub_hw_devices sub_index.

Definition get_device_version_by_handle (devs : list D) (handle : Z) : Z :=
  match get_v0_device_by_handle devs handle with
  | Some v0 => dev_version v0
  | None => -1
  end.

Definition activate (devs : list D) (handle enabled : Z) : outcome D :=
  let local_handle := get_local_handle h handle in
  match get_v0_device_by_handle devs handle with
  | None => NullDeref
  | Some v0 => Called v0 [local_handle; enabled] (dev_activate v0 local_handle enabled)
  end.

Definition setDelay (devs : list D) (handle ns : Z) : outcome D :=
  let local_handle := get_local_handle h handle in
  match get_v0_device_by_handle devs handle with
  | None => NullDeref
  | Some v0 => Called v0 [local_handle; ns] (dev_setDelay v0 local_handle ns)
  end.

Definition batch (devs : list D) (handle flags period_ns timeout : Z) : outcome D :=
  let local_handle := get_local_handle h handle in
  match get_v1_device_by_handle devs handle with
  | None => NullDeref
  | Some v1 => Called v1 [local_handle; flags; period_ns; timeout]
                 (dev_batch v1 local_handle flags period_ns timeout)
  end.

Definition flush (devs : list D) (handle : Z) : outcome D :=
  let local_handle := get_local_handle h handle in
  match get_v1_device_by_handle devs handle with
  | None => NullDeref
  | Some v1 => Called v1 [local_handle] (dev_flush v1 local_handle)
  end.

(** The proxy's [batch] only sets the delay and reports success. *)
Definition device__batch (devs : list D) (handle flags period_ns timeout : Z) : outcome D :=
  match setDelay devs handle period_ns with
  | NullDeref => NullDeref
  | Called d args _ => Called d args 0
  end.

Definition device__flush (devs : list D) (handle : Z) : Z := - EINVAL.

(** [open_sensors]: [opened] is, per sub-module, the device its [open] produced
    ([None] when it returned an error); failed modules are skipped. *)
Definition open_sub_devices (opened : list (option D)) : list D :=
  fold_left (fun devs o => match o with Some d => devs ++ [d] | None => devs end) opened [].
End Dispatch.

(** ** The global sensor list *)

Section SensorList.
Variables (SENSOR_TYPE_TILT_DETECTOR SENSOR_TYPE_PROXIMITY : Z).
Variables (SENSOR_FLAG_WAKE_UP SENSOR_FLAG_ON_CHANGE_MODE : Z).

Record sensor_t := mk_sensor {
  s_handle : Z;
  s_type : Z;
  s_fifoReservedEventCount : Z;
  s_fifoMaxEventCount : Z;
  s_flags : Z;
  s_maxRange : Q;
}.

Definition set_handle (s : sensor_t) (g : Z) : sensor_t :=
  mk_sensor g (s_type s) (s_fifoReservedEventCount s) (s_fifoMaxEventCount s)
    (s_flags s) (s_maxRange s).

Definition fix_sensor_fields (s : sensor_t) : sensor_t :=
  let flags := if s_type s =? SENSOR_TYPE_TILT_DETECTOR
               then Z.lor SENSOR_FLAG_WAKE_UP SENSOR_FLAG_ON_CHANGE_MODE
               else s_flags s in
  let maxRange := if s_type s =? SENSOR_TYPE_TILT_DETECTOR then s_maxRange s
                  else if s_type s =? SENSOR_TYPE_PROXIMITY then 5%Q else s_maxRange s in
  mk_sensor (s_handle s) (s_type s) 0 0 flags maxRange.

(** The static state: the handle maps and the published list
    ([None]: [global_sensors_list == NULL]). *)
Record sensors_state := mk_sensors_state {
  ss_handles : handles;
  ss_list : option (list sensor_t);
  ss_count : Z;
}.

Definition sensors_init : sensors_state := mk_sensors_state handles_init None (-1).

(** The inner loop: copies one module's sensors behind [filled]; [None] is a
    write past the [cap] elements allocated by the counting pass. *)
Fixpoint copy_module (cap : Z) (module_index : Z) (sensors : list sensor_t)
    (h : handles) (filled : list sensor_t) : option (handles * list sensor_t) :=
  match sensors with
  | [] => Some (h, filled)
  | local_sensor :: rest =>
      if zlen filled <? cap then
        let '(h', g) := assign_global_handle h module_index (s_handle local_sensor) in
        copy_module cap module_index rest h'
          (filled ++ [fix_sensor_fields (set_handle local_sensor g)])
      else None
  end.

Fixpoint copy_modules (cap : Z) (module_index : Z) (mods : list (list sensor_t))
    (h : handles) (filled : list sensor_t) : option (handles * list sensor_t) :=
  match mods with
  | [] => Some (h, filled)
  | m :: rest =>
      '(h', filled') ← copy_module cap module_index m h filled;
      copy_modules cap (module_index + 1) rest h' filled'
  end.

Definition count_sensors (mods : list (list sensor_t)) : Z :=
  fold_left (fun n m => n + zlen m) mods 0.

(** [first] and [second] are what the sub-modules answer to the two rounds of
    [get_sensors_list] calls. *)
Definition lazy_init_sensors_list (first second : list (list sensor_t))
    (s : sensors_state) : option sensors_state :=
  match ss_list s with
  | Some _ => Some s
  | None =>
      let count := count_sensors first in
      '(h, l) ← copy_modules count 0 second (ss_handles s) [];
      Some (mk_sensors_state h (Some l) count)
  end.

Definition module__get_sensors_list (first second : list (list sensor_t))
    (s : sensors_state) : option (sensors_state * option (list sensor_t) * Z) :=
  s' ← lazy_init_sensors_list first second s; Some (s', ss_list s', ss_count s').
End SensorList.

(** ** Polling *)

Section Poll.
Variable SENSOR_TYPE_META_DATA : Z.

Record sensors_event_t := mk_event {
  ev_type : Z;
  ev_sensor : Z;
  ev_meta_sensor : Z;   (* [meta_data.sensor] *)
  ev_payload : list Z;
}.

Definition copy_event_remap_handle (h : handles) (src : sensors_event_t) (sub_index : Z)
  : sensors_event_t :=
  if ev_type src =? SENSOR_TYPE_META_DATA then
    mk_event (ev_type src) (ev_sensor src)
      (get_global_handle h (mk_full sub_index (ev_meta_sensor src))) (ev_payload src)
  else
    mk_event (ev_type src) (get_global_handle h (mk_full sub_index (ev_sensor src)))
      (ev_meta_sensor src) (ev_payload src).

Context {Q : Type} `{FO : FifoOps Q sensors_event_t}.

(** The locals of [poll] and the part of the context it updates.  [data] is the
    caller's buffer up to [eventsRead]; [signals] the queues whose
    [mSpaceAvailableCondition] was broadcast. *)
Record poll_state := mk_poll {
  queues : list Q;
  nextReadIndex : Z;
  empties : Z;
  data : list sensors_event_t;
  signals : list Z;
}.

Definition eventsRead (p : poll_state) : Z := zlen (data p).

(** One iteration of the inner loop; [None]: [queues.at] throws. *)
Definition poll_iter (h : handles) (p : poll_state) : option poll_state :=
  let queueCount := zlen (queues p) in
  queue ← zlookup (queues p) (nextReadIndex p);
  let next := c_rem (nextReadIndex p + 1) queueCount in
  match fifo_head queue with
  | None => Some (mk_poll (queues p) next (empties p + 1) (data p) (signals p))
  | Some event =>
      let copied := copy_event_remap_handle h event (nextReadIndex p) in
      let data' := if ev_sensor copied =? -1 then data p else data p ++ [copied] in
      let '(queue', signalled) := fifo_pop queue in
      Some (mk_poll (<[Z.to_nat (nextReadIndex p) := queue']> (queues p)) next 0 data'
              (if signalled : bool then signals p ++ [nextReadIndex p] else signals p))
  end.

(** The inner [while], with fuel. *)
Fixpoint poll_scan (fuel : nat) (h : handles) (maxReads : Z) (p : poll_state)
  : option poll_state :=
  if (empties p <? zlen (queues p)) && (eventsRead p <? maxReads) then
    match fuel with
    | O => None
    | S fuel' => p' ← poll_iter h p; poll_scan fuel' h maxReads p'
    end
  else Some p.

(** One round of the outer [while] between two blocking points: it always starts
    with [empties = 0] and [eventsRead = 0]. *)
Definition poll_round (fuel : nat) (h : handles) (maxReads : Z) (qs : list Q) (idx : Z)
  : option poll_state :=
  poll_scan fuel h maxReads (mk_poll qs idx 0 [] []).

(** The records such a round takes from the queues, each with the index of its queue: the
    heads the iterations of [poll_scan] find. *)
Definition read_record (p : poll_state) : list (Z * sensors_event_t) :=
  match zlookup (queues p) (nextReadIndex p) ≫= fifo_head with
  | Some event => [(nextReadIndex p, event)]
  | None => []
  end.

Fixpoint scan_log (fuel : nat) (h : handles) (maxReads : Z) (p : poll_state) : list (Z * sensors_event_t) :=
  if (empties p <? zlen (queues p)) && (eventsRead p <? maxReads) then
    match fuel, poll_iter h p with
    | S fuel', Some p' => read_record p ++ scan_log fuel' h maxReads p'
    | _, _ => []
    end
  else [].

Definition round_log (fuel : nat) (h : handles) (maxReads : Z) (qs : list Q) (idx : Z) : list (Z * sensors_event_t) :=
  scan_log fuel h maxReads (mk_poll qs idx 0 [] []).

(** [poll] returns after a round iff it read something; otherwise it waits. *)
Definition poll_returns (p : poll_state) : bool := negb (eventsRead p =? 0).
End Poll.
Arguments poll_state : clear implicits.

(** ** Facts: handles *)

(** The two maps stay inverse of each other and every handle was handed out. *)
Record handles_wf (h : handles) : Prop := {
  hw_next : 1 <= next_global_handle h;
  hw_range g f : global_to_full h !! g = Some f -> 1 <= g < next_global_handle h;
  hw_back f g : full_to_global h !! f = Some g -> global_to_full h !! g = Some f;
  hw_forth g f : global_to_full h !! g = Some f -> is_Some (full_to_global h !! f);
}.

Lemma handles_init_wf : handles_wf handles_init.
Proof. constructor; simpl; intros *; rewrite ?lookup_empty; done || lia. Qed.

Lemma assign_global_handle_wf h m l :
  handles_wf h -> handles_wf (assign_global_handle h m l).1.
Proof.
  intros [Hn Hr Hb Hf]. constructor; simpl; [lia | | |].
  - intros g f. rewrite lookup_insert. case_decide; [lia|]. intros ?%Hr. lia.
  - intros f g. rewrite !lookup_insert. case_decide as Hd.
    + intros [= <-]. rewrite decide_True by done. congruence.
    + intros Hg. rewrite decide_False; [by apply Hb|].
      apply Hb, Hr in Hg. lia.
  - intros g f. rewrite !lookup_insert. case_decide; [|case_decide; eauto].
    intros [= <-]. rewrite decide_True by done. eauto.
Qed.
#[export] Hint Resolve handles_init_wf assign_global_handle_wf : mocha.

Lemma full_to_global_round h f :
  handles_wf h -> get_global_handle h f <> -1 ->
  get_module_index h (get_global_handle h f) = moduleIndex f /\
  get_local_handle h (get_global_handle h f) = localHandle f.
Proof.
  intros [_ _ Hb _]. unfold get_global_handle, get_module_index, get_local_handle.
  destruct (full_to_global h !! f) as [g|] eqn:Hg; [|done]. by rewrite (Hb _ _ Hg).
Qed.

(** [assign_all] is the effect of the copying loops on the handle maps. *)
Definition assign_all (h : handles) (flat : list (Z * Z)) : handles :=
  fold_left (fun h x => (assign_global_handle h x.1 x.2).1) flat h.

Lemma assign_all_wf flat h : handles_wf h -> handles_wf (assign_all h flat).
Proof.
  revert h; induction flat as [|x flat IH]; intros h Hh; [done|].
  apply IH. auto with mocha.
Qed.

Lemma assign_all_app a b h : assign_all h (a ++ b) = assign_all (assign_all h a) b.
Proof. apply fold_left_app. Qed.

Lemma assign_all_next flat h :
  next_global_handle (assign_all h flat) = next_global_handle h + zlen flat.
Proof.
  revert h; induction flat as [|x flat IH]; intros h; simpl; [rewrite zlen_nil; lia|].
  rewrite IH, zlen_cons. simpl. lia.
Qed.

Lemma assign_all_old flat h g :
  g < next_global_handle h ->
  global_to_full (assign_all h flat) !! g = global_to_full h !! g.
Proof.
  revert h; induction flat as [|x flat IH]; intros h Hg; [done|].
  simpl. rewrite IH by (simpl; lia). simpl. by rewrite lookup_insert_ne by lia.
Qed.

Lemma assign_all_lookup flat h k m l :
  flat !! k = Some (m, l) ->
  global_to_full (assign_all h flat) !! (next_global_handle h + Z.of_nat k) = Some (mk_full m l).
Proof.
  revert h k; induction flat as [|x flat IH]; intros h k Hk; [done|].
  destruct k as [|k]; simpl in *; simplify_eq.
  - rewrite assign_all_old by (simpl; lia). simpl.
    by rewrite Z.add_0_r, lookup_insert_eq.
  - rewrite <- (IH (assign_global_handle h x.1 x.2).1 k Hk). simpl. f_equal. lia.
Qed.

(** [mods] with every sensor tagged by its module index, in copy order. *)
Fixpoint flatten (mi : Z) (mods : list (list sensor_t)) : list (Z * sensor_t) :=
  match mods with
  | [] => []
  | m :: rest => (pair mi <$> m) ++ flatten (mi + 1) rest
  end.

Section SensorListFacts.
Variables (TILT PROX WAKE CHANGE : Z).
#[local] Abbreviation fix_fields := (fix_sensor_fields TILT PROX WAKE CHANGE).
#[local] Abbreviation copy1 := (copy_module TILT PROX WAKE CHANGE).
#[local] Abbreviation copy := (copy_modules TILT PROX WAKE CHANGE).

(** What the list holds once handles [n], [n + 1], ... were assigned to [flat]. *)
Fixpoint publish_from (n : Z) (flat : list (Z * sensor_t)) : list sensor_t :=
  match flat with
  | [] => []
  | (_, s) :: rest => fix_fields (set_handle s n) :: publish_from (n + 1) rest
  end.

Definition full_ids (flat : list (Z * sensor_t)) : list (Z * Z) :=
  (fun x => (x.1, s_handle x.2)) <$> flat.

Lemma publish_from_app n a b :
  publish_from n (a ++ b) = publish_from n a ++ publish_from (n + zlen a) b.
Proof.
  revert n; induction a as [|[m s] a IH]; intros n; simpl.
  - rewrite zlen_nil. f_equal; lia.
  - rewrite IH, zlen_cons. do 3 f_equal; lia.
Qed.

Lemma publish_from_lookup n flat k m s :
  flat !! k = Some (m, s) ->
  publish_from n flat !! k = Some (fix_fields (set_handle s (n + Z.of_nat k))).
Proof.
  revert n k; induction flat as [|[m' s'] flat IH]; intros n [|k] Hk; simpl in *; simplify_eq.
  - by rewrite Z.add_0_r.
  - rewrite (IH (n + 1) k) by done. do 3 f_equal; lia.
Qed.

Lemma zlen_publish_from n flat : zlen (publish_from n flat) = zlen flat.
Proof.
  revert n; induction flat as [|[m s] flat IH]; intros n; [done|].
  simpl. rewrite !zlen_cons, IH. done.
Qed.

Lemma copy_module_spec cap mi m h filled :
  zlen filled + zlen m <= cap ->
  copy1 cap mi m h filled =
    Some (assign_all h (full_ids (pair mi <$> m)),
          filled ++ publish_from (next_global_handle h) (pair mi <$> m)).
Proof.
  revert h filled; induction m as [|s m IH]; intros h filled Hcap; simpl.
  - by rewrite app_nil_r.
  - rewrite zlen_cons in Hcap. pose proof (zlen_nonneg m). case_tests; [|lia].
    rewrite IH by (rewrite zlen_app, zlen_cons, zlen_nil; lia).
    simpl. by rewrite <- app_assoc.
Qed.

Lemma zlen_fmap {A B} (f : A -> B) (l : list A) : zlen (f <$> l) = zlen l.
Proof. unfold zlen. by rewrite length_fmap. Qed.

Lemma copy_modules_spec cap mi mods h filled :
  zlen filled + zlen (flatten mi mods) <= cap ->
  copy cap mi mods h filled =
    Some (assign_all h (full_ids (flatten mi mods)),
          filled ++ publish_from (next_global_handle h) (flatten mi mods)).
Proof.
  revert mi h filled; induction mods as [|m mods IH]; intros mi h filled Hcap; simpl in *.
  - by rewrite app_nil_r.
  - rewrite zlen_app, zlen_fmap in Hcap. pose proof (zlen_nonneg (flatten (mi + 1) mods)).
    rewrite copy_module_spec by lia. simpl.
    rewrite IH by (rewrite zlen_app, zlen_publish_from, zlen_fmap; lia).
    unfold full_ids. rewrite fmap_app, assign_all_app, publish_from_app, <- app_assoc.
    by rewrite assign_all_next, !zlen_fmap.
Qed.

Lemma count_sensors_flatten mods mi n :
  fold_left (fun n m => n + zlen m) mods n = n + zlen (flatten mi mods).
Proof.
  revert mi n; induction mods as [|m mods IH]; intros mi n; simpl.
  - rewrite zlen_nil; lia.
  - rewrite (IH (mi + 1)), zlen_app, zlen_fmap. lia.
Qed.

Lemma lazy_init_first mods :
  lazy_init_sensors_list TILT PROX WAKE CHANGE mods mods sensors_init =
    Some (mk_sensors_state (assign_all handles_init (full_ids (flatten 0 mods)))
            (Some (publish_from 1 (flatten 0 mods))) (zlen (flatten 0 mods))).
Proof.
  unfold lazy_init_sensors_list, count_sensors. simpl.
  rewrite (count_sensors_flatten mods 0), copy_modules_spec by (rewrite zlen_nil; lia).
  done.
Qed.
End SensorListFacts.

(** ** Facts: the poll scan *)

Lemma sum_list_with_insert {A} (f : A -> nat) (l : list A) i x y :
  l !! i = Some x -> (sum_list_with f (<[i := y]> l) + f x = sum_list_with f l + f y)%nat.
Proof.
  revert i; induction l as [|z l IH]; intros [|i] Hi; simpl in *; simplify_eq; [lia|].
  specialize (IH i Hi). lia.
Qed.

Section PollFacts.
Variable META : Z.
Context {Q : Type} `{FS : FifoSpec Q sensors_event_t}.
Implicit Types (qs : list Q) (p : poll_state Q) (log : list (Z * sensors_event_t)).

(** What the caller receives for a record taken from queue [x.1]. *)
Definition deliver (h : handles) (x : Z * sensors_event_t) : option sensors_event_t :=
  let copied := copy_event_remap_handle META h x.2 x.1 in
  if ev_sensor copied =? -1 then None else Some copied.

(** The records taken from queue [i], in order. *)
Definition taken (i : Z) log : list sensors_event_t :=
  snd <$> filter (fun x => x.1 = i) log.

(** [scanned h qs0 log p]: starting from the queues [qs0], taking the records of
    [log] leads to the state [p]. *)
Record scanned (h : handles) (qs0 : list Q) log p : Prop := {
  sc_len : length (queues p) = length qs0;
  sc_ok : Forall fifo_ok (queues p);
  sc_fifo i q0 q : qs0 !! i = Some q0 -> queues p !! i = Some q ->
    fifo_contents q0 = taken (Z.of_nat i) log ++ fifo_contents q;
  sc_same i : taken (Z.of_nat i) log = [] -> queues p !! i = qs0 !! i;
  sc_signal i q0 : qs0 !! i = Some q0 -> fifo_full q0 = true ->
    taken (Z.of_nat i) log <> [] -> Z.of_nat i ∈ signals p;
  sc_data : data p = omap (deliver h) log;
  sc_pops i q0 q : qs0 !! i = Some q0 -> queues p !! i = Some q ->
    exists k, q = Nat.iter k (fun q => (fifo_pop q).1) q0;
}.

(** The [empties] queues visited last are empty. *)
Record cursor_ok p : Prop := {
  cu_idx : 0 <= nextReadIndex p < zlen (queues p);
  cu_empties : 0 <= empties p <= zlen (queues p);
  cu_empty j q : 1 <= j <= empties p ->
    queues p !! Z.to_nat ((nextReadIndex p - j) mod zlen (queues p)) = Some q ->
    fifo_contents q = [];
}.

Lemma taken_snoc i j e log :
  taken i (log ++ [(j, e)]) = taken i log ++ (if decide (j = i) then [e] else []).
Proof.
  unfold taken. rewrite filter_app, fmap_app. f_equal.
  destruct (decide (j = i)).
  - by rewrite filter_cons_True.
  - by rewrite filter_cons_False.
Qed.

Lemma taken_app i log log' : taken i (log ++ log') = taken i log ++ taken i log'.
Proof. unfold taken. by rewrite filter_app, fmap_app. Qed.

Definition backlog (qs : list Q) : nat := sum_list_with (fun q => length (fifo_contents q)) qs.

(** Iterations the inner loop still needs. *)
Definition poll_measure p : Z :=
  Z.of_nat (backlog (queues p)) * (zlen (queues p) + 1) + (zlen (queues p) - empties p).

Lemma poll_iter_empty h p q :
  queues p !! Z.to_nat (nextReadIndex p) = Some q ->
  cursor_ok p -> fifo_head q = None ->
  poll_iter META h p =
    Some (mk_poll (queues p) ((nextReadIndex p + 1) mod zlen (queues p))
            (empties p + 1) (data p) (signals p)).
Proof.
  intros Hq [] Hh. unfold poll_iter, zlookup. case_tests; [lia|].
  rewrite Hq. simpl. rewrite Hh, c_rem_mod by lia. done.
Qed.

Lemma mod_pred_succ a j n : 0 < n -> (((a + 1) mod n) - j) mod n = (a + 1 - j) mod n.
Proof. intros. by rewrite Zminus_mod_idemp_l. Qed.

Lemma cursor_advance_empty p q :
  cursor_ok p -> empties p < zlen (queues p) ->
  queues p !! Z.to_nat (nextReadIndex p) = Some q -> fifo_contents q = [] ->
  cursor_ok (mk_poll (queues p) ((nextReadIndex p + 1) mod zlen (queues p))
               (empties p + 1) (data p) (signals p)).
Proof.
  intros [Hi He Hp] Hlt Hq Hc. constructor; simpl; [apply Z.mod_pos_bound; lia | lia |].
  intros j q' Hj. rewrite mod_pred_succ by lia.
  destruct (decide (j = 1)) as [->|].
  - rewrite Z.add_simpl_r, Z.mod_small by lia. congruence.
  - replace (nextReadIndex p + 1 - j) with (nextReadIndex p - (j - 1)) by lia.
    apply Hp. lia.
Qed.

(** The state after taking record [e] from queue [q], at index [nextReadIndex p],
    which leaves [q']. *)
Definition take_state h p e q' (sg : bool) : poll_state Q :=
  mk_poll (<[Z.to_nat (nextReadIndex p) := q']> (queues p))
    (c_rem (nextReadIndex p + 1) (zlen (queues p))) 0
    (data p ++ option_list (deliver h (nextReadIndex p, e)))
    (if sg then signals p ++ [nextReadIndex p] else signals p).

Lemma poll_iter_take h p q q' sg e :
  queues p !! Z.to_nat (nextReadIndex p) = Some q -> 0 <= nextReadIndex p ->
  fifo_head q = Some e -> fifo_pop q = (q', sg) ->
  poll_iter META h p = Some (take_state h p e q' sg).
Proof.
  intros Hq Hi Hh Hp. unfold poll_iter, zlookup. case_tests; [lia|].
  rewrite Hq; simpl. rewrite Hh, Hp. unfold take_state, deliver; simpl.
  by destruct (_ =? -1); rewrite ?app_nil_r.
Qed.

Lemma cursor_take h p e q' sg : cursor_ok p -> cursor_ok (take_state h p e q' sg).
Proof.
  intros [Hi He _]. constructor; simpl; unfold zlen in *; rewrite ?length_insert;
    rewrite ?c_rem_mod by lia; [apply Z.mod_pos_bound; lia | lia | intros; lia].
Qed.

Lemma measure_take h p e q q' sg x :
  queues p !! Z.to_nat (nextReadIndex p) = Some q -> empties p <= zlen (queues p) ->
  fifo_contents q = x :: fifo_contents q' ->
  poll_measure (take_state h p e q' sg) < poll_measure p.
Proof.
  intros Hq He Hc. unfold poll_measure, take_state, zlen in *; simpl.
  rewrite length_insert.
  assert (backlog (<[Z.to_nat (nextReadIndex p):=q']> (queues p)) + 1
          = backlog (queues p))%nat as <-.
  { unfold backlog.
    pose proof (sum_list_with_insert (fun q => length (fifo_contents q)) _ _ _ q' Hq) as Hs.
    simpl in Hs. rewrite Hc in Hs. simpl in Hs. lia. }
  lia.
Qed.

Lemma scanned_signal_take h qs0 log p q q' sg e :
  scanned h qs0 log p -> queues p !! Z.to_nat (nextReadIndex p) = Some q ->
  0 <= nextReadIndex p -> fifo_pop q = (q', sg) -> fifo_contents q <> [] ->
  forall i q0, qs0 !! i = Some q0 -> fifo_full q0 = true ->
  taken (Z.of_nat i) (log ++ [(nextReadIndex p, e)]) <> [] ->
  Z.of_nat i ∈ signals (take_state h p e q' sg).
Proof.
  intros [_ Hok _ Hsame Hsig _ _] Hq Hi Hpop Hne i q0 Hi0 Hfull. rewrite taken_snoc.
  pose proof (Forall_lookup_1 _ _ _ _ Hok Hq) as Hqok. simpl.
  destruct (decide (taken (Z.of_nat i) log = [])) as [Hnil|Hnn].
  2: { intros _. specialize (Hsig i q0 Hi0 Hfull Hnn). destruct sg; set_solver. }
  case_decide as Hd; [|by rewrite Hnil]. intros _.
  assert (q0 = q) as ->.
  { specialize (Hsame i Hnil). rewrite Hd, Nat2Z.id in Hq. congruence. }
  pose proof (fifo_pop_signal q Hqok Hfull Hne) as Hs. rewrite Hpop in Hs. simpl in Hs.
  subst sg. rewrite Hd. set_solver.
Qed.

Lemma scanned_take h qs0 log p q q' sg e :
  scanned h qs0 log p -> queues p !! Z.to_nat (nextReadIndex p) = Some q ->
  0 <= nextReadIndex p -> fifo_pop q = (q', sg) ->
  fifo_contents q = e :: fifo_contents q' ->
  scanned h qs0 (log ++ [(nextReadIndex p, e)]) (take_state h p e q' sg).
Proof.
  intros Hs Hq Hi Hpop Hc. pose proof Hs as [Hl Hok Hf Hsame Hsig Hd Hpops].
  pose proof (Forall_lookup_1 _ _ _ _ Hok Hq) as Hqok.
  pose proof (lookup_lt_Some _ _ _ Hq) as Hlt.
  constructor; simpl.
  - by rewrite length_insert.
  - apply Forall_insert; [done|]. pose proof (fifo_pop_ok q Hqok) as H'.
    by rewrite Hpop in H'.
  - intros k q0 qk Hk0. rewrite taken_snoc, list_lookup_insert.
    case_decide as Hd1.
    + destruct Hd1 as [<- ?]. intros [= <-]. rewrite decide_True by lia.
      by rewrite (Hf _ _ _ Hk0 Hq), Hc, <- app_assoc.
    + intros Hk. rewrite decide_False, app_nil_r; [by apply Hf|].
      intros Hx. apply Hd1. lia.
  - intros k. rewrite taken_snoc. case_decide as Hd1; [by destruct (taken _ log)|].
    rewrite app_nil_r, list_lookup_insert_ne by lia. apply Hsame.
  - eapply scanned_signal_take; try done. by rewrite Hc.
  - rewrite omap_app, <- Hd. simpl. by destruct (deliver _ _).
  - intros k q0 qk Hk0. rewrite list_lookup_insert. case_decide as Hd1; [|by apply Hpops].
    destruct Hd1 as [<- ?]. intros [= <-]. destruct (Hpops _ _ _ Hk0 Hq) as [n ->].
    exists (S n). simpl. by rewrite Hpop.
Qed.

Lemma poll_iter_spec h qs0 log p :
  scanned h qs0 log p -> cursor_ok p -> empties p < zlen (queues p) ->
  exists p', poll_iter META h p = Some p' /\ scanned h qs0 (log ++ read_record p) p' /\ cursor_ok p' /\
    poll_measure p' < poll_measure p /\ eventsRead p' <= eventsRead p + 1.
Proof.
  intros Hs Hc Hlt. pose proof Hc as [Hi He _]. pose proof Hs as [Hl Hok _ _ _ _ _].
  destruct (lookup_lt_is_Some_2 (queues p) (Z.to_nat (nextReadIndex p))) as [q Hq];
    [unfold zlen in *; lia|].
  pose proof (Forall_lookup_1 _ _ _ _ Hok Hq) as Hqok.
  assert (read_record p = match fifo_head q with Some e => [(nextReadIndex p, e)] | None => [] end) as ->.
  { unfold read_record, zlookup. case_tests; [lia|]. by rewrite Hq. }
  destruct (fifo_head q) as [e|] eqn:Hh; pose proof Hh as Hh';
  rewrite fifo_head_spec in Hh' by done;
  destruct (fifo_contents q) as [|e' l] eqn:Hcq; simplify_eq/=.
  - destruct (fifo_pop q) as [q' sg] eqn:Hpop.
    assert (Hc' : fifo_contents q = e :: fifo_contents q').
    { pose proof (fifo_pop_contents q Hqok) as H'. rewrite Hpop, Hcq in H'. simpl in H'.
      by rewrite H'. }
    exists (take_state h p e q' sg).
    split; [apply poll_iter_take with q; done || lia|].
    split; [apply scanned_take with q; done || lia|].
    split; [by apply cursor_take|].
    split; [eapply measure_take; [done|lia|done]|].
    unfold eventsRead; simpl. rewrite zlen_app. destruct (deliver _ _); simpl.
    + rewrite zlen_cons, zlen_nil. lia.
    + rewrite zlen_nil. lia.
  - eexists; split; [by eapply poll_iter_empty|].
    split; [rewrite app_nil_r; by destruct Hs; constructor|].
    split; [by eapply cursor_advance_empty|].
    unfold poll_measure, eventsRead; simpl. lia.
Qed.

Lemma poll_scan_spec fuel h maxReads qs0 log p :
  scanned h qs0 log p -> cursor_ok p -> poll_measure p <= Z.of_nat fuel ->
  eventsRead p <= Z.max 0 maxReads ->
  exists p', poll_scan META fuel h maxReads p = Some p' /\
    scanned h qs0 (log ++ scan_log META fuel h maxReads p) p' /\ cursor_ok p' /\ eventsRead p' <= Z.max 0 maxReads /\
    (zlen (queues p') <= empties p' \/ maxReads <= eventsRead p').
Proof.
  revert log p; induction fuel as [|fuel IH]; intros log p Hs Hc Hm Hr; simpl;
    destruct ((empties p <? zlen (queues p)) && _) eqn:Ht.
  2, 4: exists p; rewrite app_nil_r; split_and!; [done..|]; apply andb_false_iff in Ht as [?|?]; breflect; lia.
  - exfalso. breflect. unfold poll_measure in Hm. pose proof (zlen_nonneg (queues p)).
    pose proof (Z.mul_nonneg_nonneg (Z.of_nat (backlog (queues p))) (zlen (queues p) + 1)). lia.
  - breflect. destruct (poll_iter_spec h qs0 log p) as (p' & -> & Hs' & Hc' & ? & ?);
      [done..|lia|].
    simpl. rewrite app_assoc. apply IH; [done|done|lia|lia].
Qed.

(** When every queue was visited empty in a row, all of them are empty. *)
Lemma cursor_all_empty p :
  cursor_ok p -> zlen (queues p) <= empties p ->
  Forall (fun q => fifo_contents q = []) (queues p).
Proof.
  intros [Hi He Hp] Hn. apply Forall_lookup. intros i q Hq.
  pose proof (lookup_lt_Some _ _ _ Hq) as Hlt. unfold zlen in *.
  set (n := Z.of_nat (length (queues p))) in *. set (c := nextReadIndex p) in *.
  assert (Hx : exists j, 1 <= j <= n /\ (c - j) mod n = Z.of_nat i).
  { destruct (Z_lt_le_dec (Z.of_nat i) c).
    - exists (c - Z.of_nat i). split; [lia|]. rewrite Z.mod_small; lia.
    - exists (c - Z.of_nat i + n). split; [lia|].
      rewrite <- (Z.mod_add _ 1) by lia. rewrite Z.mod_small; lia. }
  destruct Hx as (j & Hj & Hm). apply (Hp j q); [lia|]. rewrite Hm, Nat2Z.id. done.
Qed.

Definition poll_fuel qs : nat := (backlog qs * (length qs + 1) + length qs)%nat.

Lemma scanned_start h qs idx :
  Forall fifo_ok qs -> scanned h qs [] (mk_poll qs idx 0 [] []).
Proof.
  intros Hok. constructor; simpl; try done; intros i q0 q Ha Hb; simplify_eq; [done|].
  by exists 0%nat.
Qed.

Lemma cursor_start qs idx :
  0 <= idx < zlen qs -> cursor_ok (mk_poll qs idx 0 [] []).
Proof. intros. constructor; simpl; [done | lia | intros; lia]. Qed.

Lemma poll_round_spec h maxReads qs idx :
  Forall fifo_ok qs -> 0 <= idx < zlen qs ->
  exists p, poll_round META (poll_fuel qs) h maxReads qs idx = Some p /\
    scanned h qs (round_log META (poll_fuel qs) h maxReads qs idx) p /\ 0 <= nextReadIndex p < zlen qs /\
    eventsRead p <= Z.max 0 maxReads /\
    (eventsRead p < maxReads -> Forall (fun q => fifo_contents q = []) (queues p)).
Proof.
  intros Hok Hi. unfold poll_round.
  destruct (poll_scan_spec (poll_fuel qs) h maxReads qs [] (mk_poll qs idx 0 [] []))
    as (p & Hp & Hs & Hc & Hr & He).
  - by apply scanned_start.
  - by apply cursor_start.
  - unfold poll_measure, poll_fuel, zlen; simpl. lia.
  - unfold eventsRead; simpl. rewrite zlen_nil. lia.
  - exists p. pose proof (cu_idx _ Hc) as Hidx.
    assert (zlen (queues p) = zlen qs) as Hz by (unfold zlen; by rewrite (sc_len _ _ _ _ Hs)).
    split_and!; [done | done | lia | lia | done |].
    intros Hlt. apply cursor_all_empty; [done|]. destruct He; lia.
Qed.
End PollFacts.

(** ** Properties *)

Lemma assign_all_global flat k m l :
  NoDup flat -> flat !! k = Some (m, l) ->
  full_to_global (assign_all handles_init flat) !! mk_full m l = Some (1 + Z.of_nat k).
Proof.
  intros Hnd Hk. pose proof (assign_all_wf flat _ handles_init_wf) as [_ Hr Hb Hf].
  pose proof (assign_all_lookup flat handles_init k m l Hk) as Hg.
  destruct (Hf _ _ Hg) as [g Hfg]. rewrite Hfg. f_equal.
  pose proof (Hb _ _ Hfg) as Hgf. pose proof (Hr _ _ Hgf) as Hrange.
  rewrite assign_all_next in Hrange. simpl in *.
  destruct (lookup_lt_is_Some_2 flat (Z.to_nat (g - 1))) as [[m' l'] Hx];
    [unfold zlen in *; lia|].
  pose proof (assign_all_lookup flat handles_init _ _ _ Hx) as Hg'. simpl in Hg'.
  replace (1 + Z.of_nat (Z.to_nat (g - 1))) with g in Hg' by lia.
  rewrite Hgf in Hg'. simplify_eq.
  pose proof (NoDup_lookup _ _ _ _ Hnd Hk Hx). lia.
Qed.

Section SensorProperties.
Variables (TILT PROX WAKE CHANGE : Z).
#[local] Abbreviation get_list := (module__get_sensors_list TILT PROX WAKE CHANGE).
#[local] Abbreviation fix_fields := (fix_sensor_fields TILT PROX WAKE CHANGE).

(** C31. The first [get_sensors_list] publishes every sensor of every sub-module,
    in order, under the handle 1 + its position, with no write past the allocated
    array; the handle maps translate each handle to its module and local handle
    and back (for modules without duplicate handles); and a second call returns
    the same list and changes nothing. *)
Theorem get_sensors_list_correct (mods other : list (list sensor_t))
    (Hnd : NoDup (full_ids (flatten 0 mods))) :
  exists s l, get_list mods mods sensors_init = Some (s, Some l, zlen l) /\
    zlen l = zlen (flatten 0 mods) /\
    get_list other other s = Some (s, Some l, zlen l) /\
    forall k m x, flatten 0 mods !! k = Some (m, x) ->
      let g := 1 + Z.of_nat k in
      l !! k = Some (fix_fields (set_handle x g)) /\
      get_module_index (ss_handles s) g = m /\
      get_local_handle (ss_handles s) g = s_handle x /\
      get_global_handle (ss_handles s) (mk_full m (s_handle x)) = g.
Proof.
  unfold module__get_sensors_list. rewrite lazy_init_first. simpl.
  set (flat := flatten 0 mods) in *.
  exists (mk_sensors_state (assign_all handles_init (full_ids flat))
            (Some (publish_from TILT PROX WAKE CHANGE 1 flat)) (zlen flat)).
  eexists. simpl. rewrite zlen_publish_from. split_and!; [done..|].
  intros k m x Hk.
  assert (Hid : full_ids flat !! k = Some (m, s_handle x)).
  { unfold full_ids. by rewrite list_lookup_fmap, Hk. }
  pose proof (assign_all_lookup (full_ids flat) handles_init k _ _ Hid) as Hg. simpl in Hg.
  unfold get_module_index, get_local_handle, get_global_handle.
  rewrite Hg, (assign_all_global _ k m (s_handle x)) by done.
  split; [|done]. by apply publish_from_lookup with m.
Qed.

End SensorProperties.

Definition sample_sensor (handle : Z) : sensor_t := mk_sensor handle 1 300 3000 0 10%Q.

Lemma get_sensors_list_correct_witness :
  let mods := [[sample_sensor 7]; [sample_sensor 7; sample_sensor 9]] in
  NoDup (full_ids (flatten 0 mods)) /\
  exists s l, module__get_sensors_list 22 8 16 2 mods mods sensors_init = Some (s, Some l, zlen l) /\
    zlen l = zlen (flatten 0 mods) /\
    module__get_sensors_list 22 8 16 2 [] [] s = Some (s, Some l, zlen l) /\
    forall k m x, flatten 0 mods !! k = Some (m, x) ->
      let g := 1 + Z.of_nat k in
      l !! k = Some (fix_sensor_fields 22 8 16 2 (set_handle x g)) /\
      get_module_index (ss_handles s) g = m /\
      get_local_handle (ss_handles s) g = s_handle x /\
      get_global_handle (ss_handles s) (mk_full m (s_handle x)) = g.
Proof.
  intros mods. assert (Hnd : NoDup (full_ids (flatten 0 mods))).
  { refine (bool_decide_unpack _ _). vm_compute. exact I. }
  split; [exact Hnd|]. exact (get_sensors_list_correct 22 8 16 2 mods [] Hnd).
Defined.

Section DispatchProperties.
Context {D : Type}.
Variable (dev_activate dev_setDelay : D -> Z -> Z -> Z).
Variable dev_batch : D -> Z -> Z -> Z -> Z -> Z.
Variable dev_flush : D -> Z -> Z.

Lemma open_sub_devices_app (opened : list (option D)) acc :
  fold_left (fun devs o => match o with Some d => devs ++ [d] | None => devs end) opened acc =
  acc ++ omap id opened.
Proof.
  revert acc; induction opened as [|[d|] opened IH]; intros acc; simpl.
  - by rewrite app_nil_r.
  - by rewrite IH, <- app_assoc.
  - by rewrite IH.
Qed.

Lemma open_sub_devices_all (devs : list D) : open_sub_devices (Some <$> devs) = devs.
Proof.
  unfold open_sub_devices. rewrite open_sub_devices_app. simpl.
  induction devs; simpl; by f_equal.
Qed.

Lemma get_device_valid h (devs : list D) g m d :
  get_module_index h g = Z.of_nat m -> devs !! m = Some d ->
  get_v0_device_by_handle h devs g = Some d /\ get_v1_device_by_handle h devs g = Some d.
Proof.
  intros Hm Hd. unfold get_v0_device_by_handle, get_v1_device_by_handle, zlookup, zlen.
  rewrite Hm, Nat2Z.id. pose proof (lookup_lt_Some _ _ _ Hd). case_tests; [|lia|done].
  apply orb_true_iff in E as [?|?]; breflect; lia.
Qed.

(** When every sub-module opened, each handle of the published list reaches
    the device of the module that owns the sensor, with that module's local
    handle: [activate], [setDelay], [batch] and [flush] pass it the caller's
    arguments and return its answer, and the proxy's [batch] forwards the period
    to [setDelay] and reports success. *)
Theorem dispatch_correct (ids : list (Z * Z)) (devs : list D) k (m : nat) l d
    (Hk : ids !! k = Some (Z.of_nat m, l)) (Hd : devs !! m = Some d) a b c :
  let h := assign_all handles_init ids in
  let g := 1 + Z.of_nat k in
  let subs := open_sub_devices (Some <$> devs) in
  activate dev_activate h subs g a = Called d [l; a] (dev_activate d l a) /\
  setDelay dev_setDelay h subs g a = Called d [l; a] (dev_setDelay d l a) /\
  batch dev_batch h subs g a b c = Called d [l; a; b; c] (dev_batch d l a b c) /\
  flush dev_flush h subs g = Called d [l] (dev_flush d l) /\
  device__batch dev_setDelay h subs g a b c = Called d [l; b] 0.
Proof.
  intros h g subs. pose proof (assign_all_lookup ids handles_init k _ _ Hk) as Hg.
  change (next_global_handle handles_init + Z.of_nat k) with g in Hg. fold h in Hg.
  assert (Hl : get_local_handle h g = l) by (unfold get_local_handle; by rewrite Hg).
  assert (Hm : get_module_index h g = Z.of_nat m) by (unfold get_module_index; by rewrite Hg).
  unfold subs. rewrite open_sub_devices_all.
  destruct (get_device_valid h devs g m d Hm Hd) as [H0 H1].
  unfold device__batch, activate, setDelay, batch, flush. by rewrite H0, H1, Hl.
Qed.

(** A handle that was never published, however, is not rejected: the device
    pointer is null and every entry point dereferences it. *)
Theorem dispatch_unknown_handle (ids : list (Z * Z)) (devs : list D) g a b c
    (Hg : g < 1 \/ zlen ids < g) :
  let h := assign_all handles_init ids in
  get_local_handle h g = -1 /\
  activate dev_activate h devs g a = NullDeref /\
  setDelay dev_setDelay h devs g a = NullDeref /\
  batch dev_batch h devs g a b c = NullDeref /\
  flush dev_flush h devs g = NullDeref /\
  device__batch dev_setDelay h devs g a b c = NullDeref.
Proof.
  intros h. pose proof (assign_all_wf ids _ handles_init_wf) as Hw. fold h in Hw.
  assert (Hn : global_to_full h !! g = None).
  { destruct (global_to_full h !! g) eqn:Hx; [|done]. apply (hw_range _ Hw) in Hx.
    unfold h in Hx. rewrite assign_all_next in Hx. simpl in Hx. lia. }
  unfold device__batch, activate, setDelay, batch, flush, get_v0_device_by_handle,
    get_v1_device_by_handle, get_module_index, get_local_handle.
  by rewrite Hn.
Qed.
End DispatchProperties.

Lemma dispatch_correct_witness :
  let h := assign_all handles_init [(0, 7); (1, 7); (1, 9)] in
  let subs := open_sub_devices (Some <$> [10; 20]) in
  activate (fun d l e => d + l + e) h subs 3 1 = Called 20 [9; 1] 30 /\
  setDelay (fun d l e => d + l + e) h subs 3 1 = Called 20 [9; 1] 30 /\
  batch (fun d l e f i => d + l) h subs 3 1 2 3 = Called 20 [9; 1; 2; 3] 29 /\
  flush (fun d l => d) h subs 3 = Called 20 [9] 20 /\
  device__batch (fun d l e => d + l + e) h subs 3 1 2 3 = Called 20 [9; 2] 0.
Proof.
  exact (dispatch_correct (fun d l e => d + l + e) (fun d l e => d + l + e)
           (fun d l e f i => d + l) (fun d l => d)
           [(0, 7); (1, 7); (1, 9)] [10; 20] 2 1 9 20 eq_refl eq_refl 1 2 3).
Defined.

Lemma dispatch_unknown_handle_witness :
  let h := assign_all handles_init [(0, 7)] in
  get_local_handle h 2 = -1 /\
  activate (fun _ _ _ => 0) h [10] 2 1 = NullDeref /\
  setDelay (fun _ _ _ => 0) h [10] 2 1 = NullDeref /\
  batch (fun _ _ _ _ _ => 0) h [10] 2 1 2 3 = NullDeref /\
  flush (fun _ _ => 0) h [10] 2 = NullDeref /\
  device__batch (fun _ _ _ => 0) h [10] 2 1 2 3 = NullDeref.
Proof.
  exact (dispatch_unknown_handle (fun _ _ _ => 0) (fun _ _ _ => 0) (fun _ _ _ _ _ => 0)
           (fun _ _ => 0) [(0, 7)] [10] 2 1 2 3 (or_intror (eq_refl : 1 < 2))).
Defined.

(** When a sub-module fails to open, the device vector is no longer parallel to
    the module vector: handles of later modules reach the wrong device or none. *)
Lemma failed_open_misroutes :
  let h := assign_all handles_init [(0, 7); (1, 8)] in
  let subs := open_sub_devices [None; Some 20] in
  activate (fun _ _ _ => 0) h subs 1 1 = Called 20 [7; 1] 0 /\
  activate (fun _ _ _ => 0) h subs 2 1 = NullDeref.
Proof. vm_compute. done. Qed.

(** [FullHandle::operator<] is a strict total order whose equivalence is
    [operator==], which [std::map] requires. *)
Lemma full_lt_strict_total :
  (forall a, full_lt a a = false) /\
  (forall a b c, full_lt a b = true -> full_lt b c = true -> full_lt a c = true) /\
  (forall a b, full_lt a b = true \/ a = b \/ full_lt b a = true) /\
  (forall a b, full_eq a b = true <-> full_lt a b = false /\ full_lt b a = false).
Proof.
  unfold full_lt, full_eq. split_and!.
  - intros a. case_tests; done || lia.
  - intros a b c. case_tests; done || lia.
  - intros a b. destruct a as [m l], b as [m' l']; simpl. case_tests; auto.
    destruct (Z.ltb_spec l l'); [auto|]. destruct (Z.ltb_spec l' l); [auto|].
    right; left. f_equal; lia.
  - intros a b. case_tests; rewrite ?andb_true_iff, ?Z.eqb_eq, ?Z.ltb_ge; intuition lia || done.
Qed.

(** One scan of [poll] over the event queues, between two blocking points:
    it terminates without leaving the queue vector, reads at most [maxReads]
    events, and there is a sequence of records taken from the queues such that
    every queue lost exactly its share, oldest first; the caller's buffer holds
    that sequence with local handles replaced by global ones, less the events of
    unknown sensors; and a scan that read fewer than asked drained all queues. *)
Theorem poll_round_correct (META : Z) (h : handles) (maxReads : Z)
    (qs : list (queue sensors_event_t)) (idx : Z)
    (Hok : Forall wf qs) (Hi : 0 <= idx < zlen qs) :
  exists log p, poll_round META (poll_fuel qs) h maxReads qs idx = Some p /\
    eventsRead p <= Z.max 0 maxReads /\
    data p = omap (deliver META h) log /\
    Forall (fun e => ev_sensor e <> -1) (data p) /\
    length (queues p) = length qs /\ Forall wf (queues p) /\
    (forall i q0 q, qs !! i = Some q0 -> queues p !! i = Some q ->
       contents q0 = taken (Z.of_nat i) log ++ contents q) /\
    0 <= nextReadIndex p < zlen qs /\
    (eventsRead p < maxReads -> Forall (fun q => contents q = []) (queues p)).
Proof.
  destruct (poll_round_spec META (FS := queue_fifo_spec _) h maxReads qs idx Hok Hi)
    as (p & Hp & [Hlen Hwf Hfifo _ _ Hd _] & Hn & Hr & Hdr).
  exists (round_log META (poll_fuel qs) h maxReads qs idx), p. split_and!; try done; [|lia..].
  rewrite Hd. apply Forall_forall. intros e He.
  apply list_elem_of_omap in He as ([i x] & _ & Hx). unfold deliver in Hx.
  by case_test_in Hx; simplify_eq.
Qed.

Example sample_queues : list (queue sensors_event_t) :=
  [mk_queue 2 1 2 [mk_event 1 9 0 [20]; mk_event 1 9 0 [10]];
   mk_queue 2 0 1 [mk_event 1 5 0 [30]; mk_event 0 0 0 []]].

Lemma poll_round_correct_witness :
  let h := assign_all handles_init [(0, 9); (1, 4)] in
  Forall wf sample_queues /\
  (data <$> poll_round 0 (poll_fuel sample_queues) h 8 sample_queues 0) =
    Some [mk_event 1 1 0 [10]; mk_event 1 1 0 [20]] /\
  exists log p, poll_round 0 (poll_fuel sample_queues) h 8 sample_queues 0 = Some p /\
    eventsRead p <= Z.max 0 8 /\
    data p = omap (deliver 0 h) log /\
    Forall (fun e => ev_sensor e <> -1) (data p) /\
    length (queues p) = length sample_queues /\ Forall wf (queues p) /\
    (forall i q0 q, sample_queues !! i = Some q0 -> queues p !! i = Some q ->
       contents q0 = taken (Z.of_nat i) log ++ contents q) /\
    0 <= nextReadIndex p < zlen sample_queues /\
    (eventsRead p < 8 -> Forall (fun q => contents q = []) (queues p)).
Proof.
  intros h. assert (Hw : Forall wf sample_queues).
  { repeat constructor; unfold zlen; simpl; lia. }
  split; [exact Hw|]. split; [vm_compute; reflexivity|].
  exact (poll_round_correct 0 h 8 sample_queues 0 Hw ltac:(unfold zlen; simpl; lia)).
Defined.

(** A meta-data event whose nested sensor is unknown is not recognised as bad: the
    drop test looks at the outer [sensor] field only, so it is delivered with -1
    as the nested handle. *)
Lemma bad_meta_event_delivered META h e i :
  ev_type e = META -> ev_sensor e <> -1 ->
  full_to_global h !! mk_full i (ev_meta_sensor e) = None ->
  deliver META h (i, e) = Some (mk_event (ev_type e) (ev_sensor e) (-1) (ev_payload e)).
Proof.
  intros Ht Hs Hn. unfold deliver, copy_event_remap_handle; simpl.
  case_tests; simpl; try lia; simpl in *; try lia.
  unfold get_global_handle. by rewrite Hn.
Qed.
