(* ===== verification/MultiHalThreads.v ===== *)
(** * The threads of the sensors multi-HAL

    One writer thread per sub-HAL ([writerTask]) and the framework's thread in
    [poll] (both in [sensors/multihal.cpp]) share the queues, the flag
    [waiting_for_data] and two kinds of condition variables, all protected by
    [queue_mutex].  A critical section is one step; the sub-HAL's [poll] runs
    outside the lock and writes into the queue's array while the reader dequeues.
    Condition waits may wake up spuriously. *)

From S2P Require Import Prelude.
From S2P Require Import Fifo.
From S2P Require Import SensorEventQueue.
From S2P Require Import MultiHal.

Definition SENSOR_EVENT_QUEUE_CAPACITY : Z := 36.

#[local] Abbreviation event := sensors_event_t.

(** Where a [writerTask] is: about to take the lock, blocked in [waitForSpace],
    inside [device->poll] on a region, or about to mark what it polled. *)
Inductive writer_pc :=
| WReady
| WBlocked
| WPolling (off n : Z)
| WMark (off count : Z).

(** Where the framework's thread is; [maxReads] is the argument of its [poll]. *)
Inductive reader_pc :=
| RIdle
| RReady (maxReads : Z)
| RWaiting (maxReads : Z)
| RWoken (maxReads : Z).

(** [ms_produced], [ms_log] and [ms_delivered] are history: what each writer
    marked, what the reader took, what [poll] returned to the framework. *)
Record mstate := mk_mstate {
  ms_queues : list (queue event);
  ms_writers : list writer_pc;
  ms_reader : reader_pc;
  waiting_for_data : bool;
  ms_next : Z;
  ms_produced : list (list event);
  ms_log : list (Z * event);
  ms_delivered : list event;
}.

Definition with_writer (st : mstate) (i : nat) (w : writer_pc) : mstate :=
  mk_mstate (ms_queues st) (<[i := w]> (ms_writers st)) (ms_reader st)
    (waiting_for_data st) (ms_next st) (ms_produced st) (ms_log st) (ms_delivered st).

Definition with_queue (st : mstate) (i : nat) (q : queue event) : mstate :=
  mk_mstate (<[i := q]> (ms_queues st)) (ms_writers st) (ms_reader st)
    (waiting_for_data st) (ms_next st) (ms_produced st) (ms_log st) (ms_delivered st).

Definition with_reader (st : mstate) (r : reader_pc) (waiting : bool) : mstate :=
  mk_mstate (ms_queues st) (ms_writers st) r waiting (ms_next st)
    (ms_produced st) (ms_log st) (ms_delivered st).

(** First critical section of the loop body of [writerTask]. *)
Definition writer_lock (st : mstate) (i : nat) (q : queue event) : mstate :=
  if waitForSpace_blocks q then with_writer st i WBlocked
  else match getWritableRegion q SENSOR_EVENT_QUEUE_CAPACITY with
       | (Some off, n) => with_writer st i (WPolling off n)
       | (None, _) => with_writer st i (WPolling 0 0)
       end.

(** [device->poll] returned [eventsPolled]. *)
Definition writer_return (st : mstate) (i : nat) (off eventsPolled : Z) : mstate :=
  if eventsPolled <=? 0 then with_writer st i WReady
  else with_writer st i (WMark off eventsPolled).

(** Second critical section: mark, and wake the reader if it waits. *)
Definition writer_mark (st : mstate) (i : nat) (q : queue event) (off count : Z) : mstate :=
  let reader' :=
    if waiting_for_data st then
      match ms_reader st with RWaiting m => RWoken m | r => r end
    else ms_reader st in
  mk_mstate (<[i := markAsWritten q count]> (ms_queues st)) (<[i := WReady]> (ms_writers st))
    reader' (waiting_for_data st) (ms_next st)
    (alter (fun p => p ++ region_data q off count) i (ms_produced st))
    (ms_log st) (ms_delivered st).

(** [pthread_cond_broadcast] on the space condition of the queues in [sig]. *)
Definition wake_writers (sig : list Z) (ws : list writer_pc) : list writer_pc :=
  imap (fun i w => match w with
                   | WBlocked => if bool_decide (Z.of_nat i ∈ sig) then WReady else WBlocked
                   | _ => w
                   end) ws.

Section Threads.
Variable META : Z.
Variable h : handles.

(** One critical section of [poll]: a scan, then return or wait.  [log] is the
    sequence of records the scan took. *)
Definition reader_round (st : mstate) (maxReads : Z) (log : list (Z * event))
    (p : poll_state (queue event)) : mstate :=
  mk_mstate (queues p) (wake_writers (signals p) (ms_writers st))
    (if poll_returns p then RIdle else RWaiting maxReads)
    (negb (poll_returns p)) (nextReadIndex p) (ms_produced st)
    (ms_log st ++ log) (ms_delivered st ++ data p).

(** The records that section takes, computed along its loop. *)
Definition log_of (st : mstate) (maxReads : Z) : list (Z * event) :=
  round_log META (poll_fuel (ms_queues st)) h maxReads (ms_queues st) (ms_next st).

Inductive mstep : mstate -> mstate -> Prop :=
| step_writer_lock st i q :
    ms_queues st !! i = Some q -> ms_writers st !! i = Some WReady ->
    mstep st (writer_lock st i q)
| step_writer_spurious st i :
    ms_writers st !! i = Some WBlocked -> mstep st (with_writer st i WReady)
| step_device_write st i q off n evs :
    (* the sub-HAL writes at most [n] events at the pointer it was given *)
    ms_queues st !! i = Some q -> ms_writers st !! i = Some (WPolling off n) ->
    zlen evs <= n ->
    mstep st (with_queue st i (write_region q off evs))
| step_device_return st i off n eventsPolled :
    ms_writers st !! i = Some (WPolling off n) -> eventsPolled <= n ->
    mstep st (writer_return st i off eventsPolled)
| step_writer_mark st i q off count :
    ms_queues st !! i = Some q -> ms_writers st !! i = Some (WMark off count) ->
    mstep st (writer_mark st i q off count)
| step_poll_call st maxReads :
    ms_reader st = RIdle -> mstep st (with_reader st (RReady maxReads) (waiting_for_data st))
| step_poll_round st maxReads p :
    ms_reader st = RReady maxReads \/ ms_reader st = RWoken maxReads ->
    poll_round META (poll_fuel (ms_queues st)) h maxReads (ms_queues st) (ms_next st) = Some p ->
    mstep st (reader_round st maxReads (log_of st maxReads) p)
| step_reader_spurious st maxReads :
    ms_reader st = RWaiting maxReads ->
    mstep st (with_reader st (RWoken maxReads) (waiting_for_data st)).

Inductive reachable (st0 : mstate) : mstate -> Prop :=
| reach_refl : reachable st0 st0
| reach_step st st' : reachable st0 st -> mstep st st' -> reachable st0 st'.

(** [addSubHwDevice] for each array in [mems], then the threads start. *)
Definition start (mems : list (list event)) : mstate :=
  mk_mstate (new_queue SENSOR_EVENT_QUEUE_CAPACITY <$> mems) (const WReady <$> mems)
    RIdle false 0 (const [] <$> mems) [] [].

(** ** Invariant *)

Definition writer_ok (q : queue event) (w : writer_pc) : Prop :=
  match w with
  | WReady => True
  | WBlocked => waitForSpace_blocks q = true
  | WPolling off n => writable q off n /\ 1 <= n
  | WMark off count => writable q off count /\ 1 <= count
  end.

Record queue_ok (log : list (Z * event)) (i : nat) (q : queue event) (w : writer_pc)
    (produced : list event) : Prop := {
  qo_wf : wf q;
  qo_writer : writer_ok q w;
  qo_fifo : produced = taken (Z.of_nat i) log ++ contents q;
}.

Definition reader_ok (st : mstate) : Prop :=
  match ms_reader st with
  | RIdle | RReady _ => waiting_for_data st = false
  | RWoken _ => waiting_for_data st = true
  | RWaiting maxReads =>
      waiting_for_data st = true /\
      (0 < maxReads -> Forall (fun q => contents q = []) (ms_queues st))
  end.

Record inv (st : mstate) : Prop := {
  in_writers : length (ms_writers st) = length (ms_queues st);
  in_produced : length (ms_produced st) = length (ms_queues st);
  in_next : 0 <= ms_next st < zlen (ms_queues st);
  in_queue i q w pr : ms_queues st !! i = Some q -> ms_writers st !! i = Some w ->
    ms_produced st !! i = Some pr -> queue_ok (ms_log st) i q w pr;
  in_reader : reader_ok st;
  in_delivered : ms_delivered st = omap (deliver META h) (ms_log st);
}.

Lemma start_inv mems :
  mems <> [] -> Forall (fun m => zlen m = SENSOR_EVENT_QUEUE_CAPACITY) mems ->
  inv (start mems).
Proof.
  intros Hne Hm. constructor; simpl; try done.
  - by rewrite !length_fmap.
  - by rewrite !length_fmap.
  - rewrite zlen_fmap. destruct mems; [done|]. rewrite zlen_cons.
    pose proof (zlen_nonneg mems). lia.
  - intros i q w pr. rewrite !list_lookup_fmap.
    destruct (mems !! i) as [m|] eqn:Hi; [|done]. simpl. intros [= <-] [= <-] [= <-].
    constructor; [|done|done].
    apply new_queue_wf; [unfold SENSOR_EVENT_QUEUE_CAPACITY; lia|].
    by eapply Forall_lookup_1 in Hm.
Qed.

(** The writer's side of a state, replaced at index [i]. *)
Definition set_slot (st : mstate) (i : nat) q w pr r b : mstate :=
  mk_mstate (<[i := q]> (ms_queues st)) (<[i := w]> (ms_writers st)) r b (ms_next st)
    (<[i := pr]> (ms_produced st)) (ms_log st) (ms_delivered st).

Lemma inv_set_slot st i q w pr r b :
  inv st -> queue_ok (ms_log st) i q w pr ->
  reader_ok (set_slot st i q w pr r b) -> inv (set_slot st i q w pr r b).
Proof.
  intros [Hw Hp Hn Hq Hr Hd] Hok Hro. constructor; simpl; rewrite ?length_insert; try done.
  - unfold zlen in *. by rewrite length_insert.
  - intros j q' w' pr'. rewrite !list_lookup_insert.
    repeat case_decide; destruct_and?; subst; try lia.
    + intros [= <-] [= <-] [= <-]. done.
    + apply Hq.
Qed.

Lemma inv_lookup st i q :
  inv st -> ms_queues st !! i = Some q ->
  exists w pr, ms_writers st !! i = Some w /\ ms_produced st !! i = Some pr /\
    queue_ok (ms_log st) i q w pr.
Proof.
  intros [Hw Hp _ Hq _ _] Hi. pose proof (lookup_lt_Some _ _ _ Hi).
  destruct (lookup_lt_is_Some_2 (ms_writers st) i) as [w Hwi]; [lia|].
  destruct (lookup_lt_is_Some_2 (ms_produced st) i) as [pr Hpi]; [lia|]. eauto 10.
Qed.

Lemma writer_has_queue st i w :
  inv st -> ms_writers st !! i = Some w -> exists q, ms_queues st !! i = Some q.
Proof.
  intros [Hw _ _ _ _ _] Hi%lookup_lt_Some. apply lookup_lt_is_Some. lia.
Qed.

Lemma with_writer_inv st i q w :
  inv st -> ms_queues st !! i = Some q -> (forall w0, writer_ok q w0 -> writer_ok q w) ->
  inv (with_writer st i w).
Proof.
  intros Hinv Hq Hw. destruct (inv_lookup st i q Hinv Hq) as (w0 & pr & Hw0 & Hpr & [Hwf Hwo Hf]).
  replace (with_writer st i w)
    with (set_slot st i q w pr (ms_reader st) (waiting_for_data st)).
  - apply inv_set_slot; [done | constructor; eauto |].
    unfold reader_ok, set_slot; simpl. rewrite list_insert_id by done. apply (in_reader _ Hinv).
  - unfold set_slot, with_writer. by rewrite (list_insert_id (ms_queues st)),
      (list_insert_id (ms_produced st)).
Qed.

Lemma writer_lock_inv st i q :
  inv st -> ms_queues st !! i = Some q -> inv (writer_lock st i q).
Proof.
  intros Hinv Hq. destruct (inv_lookup st i q Hinv Hq) as (w0 & pr & _ & _ & [Hwf _ _]).
  unfold writer_lock. destruct (waitForSpace_blocks q) eqn:Hb.
  - by apply with_writer_inv with q.
  - pose proof (getWritableRegion_correct q SENSOR_EVENT_QUEUE_CAPACITY Hwf) as Hg.
    rewrite Hb in Hg. simpl in Hg.
    destruct Hg as (off & n & Hg & _). rewrite Hg.
    apply getWritableRegion_writable in Hg; [|done].
    by apply with_writer_inv with q.
Qed.

Lemma device_write_inv st i q off n evs :
  inv st -> ms_queues st !! i = Some q -> ms_writers st !! i = Some (WPolling off n) ->
  zlen evs <= n -> inv (with_queue st i (write_region q off evs)).
Proof.
  intros Hinv Hq Hw Hn. destruct (inv_lookup st i q Hinv Hq) as (w0 & pr & Hw0 & Hpr & [Hwf Hwo Hf]).
  assert (w0 = WPolling off n) as -> by congruence. destruct Hwo as [Hwr H1].
  replace (with_queue st i (write_region q off evs))
    with (set_slot st i (write_region q off evs) (WPolling off n) pr
            (ms_reader st) (waiting_for_data st)).
  2: { unfold set_slot, with_queue. by rewrite (list_insert_id (ms_writers st)),
         (list_insert_id (ms_produced st)). }
  apply inv_set_slot; [done| |].
  - constructor; [by apply write_region_wf | split; [by destruct Hwr|done] |].
    by rewrite contents_write_region with (n := n).
  - pose proof (in_reader _ Hinv) as Hr. unfold reader_ok in *; simpl in *.
    destruct (ms_reader st); try done. destruct Hr as [? He]. split; [done|].
    intros Hm. specialize (He Hm). apply Forall_insert; [done|].
    rewrite contents_write_region with (n := n) by done. by eapply Forall_lookup_1 in He.
Qed.

Lemma writer_mark_inv st i q off count :
  inv st -> ms_queues st !! i = Some q -> ms_writers st !! i = Some (WMark off count) ->
  inv (writer_mark st i q off count).
Proof.
  intros Hinv Hq Hw. destruct (inv_lookup st i q Hinv Hq) as (w0 & pr & Hw0 & Hpr & [Hwf Hwo Hf]).
  assert (w0 = WMark off count) as -> by congruence. destruct Hwo as [Hwr H1].
  destruct (mark_contents q off count count) as [Hwf' Hc]; [done..|lia|].
  unfold writer_mark. rewrite (list_alter_insert' _ _ _ _ Hpr).
  apply (inv_set_slot st i); [done| |].
  - constructor; [done|done|]. by rewrite Hc, app_assoc, <- Hf.
  - pose proof (in_reader _ Hinv) as Hr. unfold reader_ok in *; simpl in *.
    destruct (ms_reader st), (waiting_for_data st); simpl in *; intuition congruence.
Qed.

Lemma writer_ok_dequeues k q w :
  wf q -> w <> WBlocked -> writer_ok q w -> writer_ok (dequeues k q) w.
Proof.
  intros Hq Hw. destruct w; simpl; try done;
    (intros [? ?]; split; [by apply dequeues_writable|done]).
Qed.

Lemma wake_writers_lookup sig ws i w' :
  wake_writers sig ws !! i = Some w' ->
  exists w, ws !! i = Some w /\
    ((w <> WBlocked /\ w' = w) \/ (w = WBlocked /\ w' = WReady) \/
     (w = WBlocked /\ w' = WBlocked /\ Z.of_nat i ∉ sig)).
Proof.
  unfold wake_writers. rewrite list_lookup_imap.
  destruct (ws !! i) as [w|]; [|done]. simpl. intros [= <-]. exists w. split; [done|].
  destruct w; try (by left). case_bool_decide; auto.
Qed.

Lemma round_queue_ok st log p i q' w' pr :
  inv st -> scanned META h (ms_queues st) log p ->
  queues p !! i = Some q' -> wake_writers (signals p) (ms_writers st) !! i = Some w' ->
  ms_produced st !! i = Some pr -> queue_ok (ms_log st ++ log) i q' w' pr.
Proof.
  intros Hinv [Hlen Hok Hf Hsame Hsig _ Hpops] Hq' Hw' Hpr.
  destruct (lookup_lt_is_Some_2 (ms_queues st) i) as [q Hq].
  { apply lookup_lt_Some in Hq'. lia. }
  destruct (inv_lookup st i q Hinv Hq) as (w & pr' & Hw & Hpr' & [Hwf Hwo Hfifo]).
  assert (pr' = pr) as -> by congruence.
  destruct (Hpops i q q' Hq Hq') as [k Hk].
  constructor; [by eapply Forall_lookup_1 in Hok | |].
  2: { pose proof (Hf i q q' Hq Hq') as Hx. simpl in Hx.
       by rewrite Hfifo, taken_app, Hx, app_assoc. }
  destruct (wake_writers_lookup _ _ _ _ Hw') as (w0 & Hw0 & Hcase).
  assert (w0 = w) as -> by congruence.
  destruct Hcase as [[Hne ->]|[[-> ->]|(-> & -> & Hni)]]; [ | done | ].
  - subst q'. by apply (writer_ok_dequeues k).
  - simpl in *. destruct (decide (taken (Z.of_nat i) log = [])) as [Ht|Ht].
    + rewrite (Hsame i Ht), Hq in Hq'. congruence.
    + destruct Hni. by apply (Hsig i q).
Qed.

Lemma inv_wf st : inv st -> Forall wf (ms_queues st).
Proof.
  intros Hinv. apply Forall_lookup. intros i q Hq.
  by destruct (inv_lookup st i q Hinv Hq) as (? & ? & _ & _ & []).
Qed.

(** The reader's section always runs to its end. *)
Lemma round_runs st maxReads : inv st ->
  exists p, poll_round META (poll_fuel (ms_queues st)) h maxReads (ms_queues st) (ms_next st) = Some p /\
    scanned META h (ms_queues st) (log_of st maxReads) p /\ 0 <= nextReadIndex p < zlen (ms_queues st) /\
    eventsRead p <= Z.max 0 maxReads /\
    (eventsRead p < maxReads -> Forall (fun q => contents q = []) (queues p)).
Proof.
  intros Hinv.
  apply (poll_round_spec META (FS := queue_fifo_spec _)); [by apply inv_wf|apply Hinv].
Qed.

Lemma reader_round_inv st maxReads p :
  inv st ->
  poll_round META (poll_fuel (ms_queues st)) h maxReads (ms_queues st) (ms_next st) = Some p ->
  inv (reader_round st maxReads (log_of st maxReads) p).
Proof.
  intros Hinv Hp. destruct (round_runs st maxReads Hinv) as (p' & Hp' & Hs & Hidx & _ & Hdrain).
  pose proof Hinv as [Hw Hpr Hn _ _ Hd]. pose proof Hs as [Hlen _ _ _ _ Hdata _].
  simplify_eq.
  constructor; simpl.
  - unfold wake_writers. rewrite length_imap. lia.
  - lia.
  - unfold zlen in *. lia.
  - intros i q w pr. by apply round_queue_ok.
  - unfold reader_ok, reader_round, poll_returns; simpl.
    destruct (eventsRead p =? 0) eqn:He; simpl; [|done].
    split; [done|]. intros Hm. apply Hdrain. breflect. lia.
  - by rewrite omap_app, Hd, Hdata.
Qed.

Lemma mstep_inv st st' : inv st -> mstep st st' -> inv st'.
Proof.
  intros Hinv Hstep.
  destruct Hstep as [st i q Hq Hw|st i Hw|st i q off n evs Hq Hw Hn|st i off n k Hw Hk
    |st i q off k Hq Hw|st m Hr|st m p Hr Hp|st m Hr].
  - by apply writer_lock_inv.
  - destruct (writer_has_queue st i _ Hinv Hw) as [q Hq]. by apply with_writer_inv with q.
  - by eapply device_write_inv.
  - destruct (writer_has_queue st i _ Hinv Hw) as [q Hq]. unfold writer_return.
    destruct (k <=? 0) eqn:Hk0; [by apply with_writer_inv with q|]. breflect.
    destruct (inv_lookup st i q Hinv Hq) as (w & pr & Hw' & Hpr & [Hwf Hwo Hf]).
    assert (w = WPolling off n) as -> by congruence. destruct Hwo as [[] ?].
    apply with_writer_inv with q; [done..|]. intros _ _. split; [constructor; lia | lia].
  - by apply writer_mark_inv.
  - destruct Hinv as [? ? ? ? Hro ?]. constructor; try done.
    unfold reader_ok in *; simpl. by rewrite Hr in Hro.
  - by apply reader_round_inv.
  - destruct Hinv as [? ? ? ? Hro ?]. constructor; try done.
    unfold reader_ok in *; simpl. rewrite Hr in Hro. by destruct Hro.
Qed.

Lemma reachable_inv st0 st : inv st0 -> reachable st0 st -> inv st.
Proof. intros H0 Hr. induction Hr; [done|]. by eapply mstep_inv. Qed.

(** ** Properties *)

(** The arrays allocated by [addSubHwDevice], one per opened sub-HAL. *)
Definition good_mems (mems : list (list event)) : Prop :=
  mems <> [] /\ Forall (fun m => zlen m = SENSOR_EVENT_QUEUE_CAPACITY) mems.

Lemma reachable_start_inv mems st : good_mems mems -> reachable (start mems) st -> inv st.
Proof. intros [Hne Hm] Hr. eapply reachable_inv; [by apply start_inv | done]. Qed.

(** C29. In every interleaving, what a sub-HAL produced is what the reader already
    took from its queue followed by what the queue still holds, in production
    order and without loss or duplication; and what [poll] returned is the
    sequence taken, remapped, less events of unknown sensors.  The records taken are
    those the loop of [poll] finds at the heads of the queues, and the loop always
    comes to its end. *)
Theorem multihal_fifo mems st i q pr (Hm : good_mems mems) (Hr : reachable (start mems) st)
    (Hq : ms_queues st !! i = Some q) (Hp : ms_produced st !! i = Some pr) :
  pr = taken (Z.of_nat i) (ms_log st) ++ contents q /\
  ms_delivered st = omap (deliver META h) (ms_log st) /\
  forall maxReads, exists p,
    poll_round META (poll_fuel (ms_queues st)) h maxReads (ms_queues st) (ms_next st) = Some p.
Proof.
  pose proof (reachable_start_inv mems st Hm Hr) as Hinv. split_and!; [|apply Hinv|].
  - destruct (inv_lookup st i q Hinv Hq) as (w & pr' & _ & Hpr & [_ _ Hf]). congruence.
  - intros m. destruct (round_runs st m Hinv) as (p & Hp' & _). by exists p.
Qed.

(** C1. No wake-up is lost: while [poll] waits for data all queues are empty and
    the flag that makes writers broadcast is set, and while a writer waits for
    space its queue is full; so the two kinds of waiting never coincide. *)
Theorem multihal_no_lost_wakeup mems st (Hm : good_mems mems) (Hr : reachable (start mems) st) :
  (forall m, ms_reader st = RWaiting m -> 0 < m ->
     waiting_for_data st = true /\ Forall (fun q => contents q = []) (ms_queues st) /\
     Forall (fun w => w <> WBlocked) (ms_writers st)) /\
  (forall i q, ms_writers st !! i = Some WBlocked -> ms_queues st !! i = Some q ->
     mSize q = mCapacity q /\ contents q <> []).
Proof.
  pose proof (reachable_start_inv mems st Hm Hr) as Hinv.
  assert (Hfull : forall i q, ms_writers st !! i = Some WBlocked -> ms_queues st !! i = Some q ->
     mSize q = mCapacity q /\ contents q <> []).
  { intros i q Hw Hq. destruct (inv_lookup st i q Hinv Hq) as (w & pr & Hw' & _ & [Hwf Hwo _]).
    assert (w = WBlocked) as -> by congruence. apply Z.eqb_eq in Hwo. split; [done|].
    intros Hc. pose proof (contents_length q Hwf) as Hl. rewrite Hc, zlen_nil in Hl.
    destruct Hwf. lia. }
  split; [|done]. intros m Hrd Hpos. pose proof (in_reader _ Hinv) as Hro.
  unfold reader_ok in Hro. rewrite Hrd in Hro. destruct Hro as [Hb He].
  specialize (He Hpos). split_and!; [done..|].
  apply Forall_lookup. intros i w Hw ->.
  destruct (writer_has_queue st i _ Hinv Hw) as [q Hq].
  destruct (Hfull i q Hw Hq) as [_ []]. by eapply Forall_lookup_1 in He.
Qed.

(** The sub-HAL's unlocked writes are free of races: the region a polling
    writer holds lies inside its array and contains no readable record, whatever
    the reader did since the region was handed out. *)
Theorem multihal_race_free mems st i q off n (Hm : good_mems mems)
    (Hr : reachable (start mems) st)
    (Hq : ms_queues st !! i = Some q) (Hw : ms_writers st !! i = Some (WPolling off n)) :
  0 <= off /\ 1 <= n /\ off + n <= zlen (mData q) /\
  forall k, 0 <= k < mSize q -> slot q k < off \/ off + n <= slot q k.
Proof.
  pose proof (reachable_start_inv mems st Hm Hr) as Hinv.
  destruct (inv_lookup st i q Hinv Hq) as (w & pr & Hw' & _ & [Hwf Hwo _]).
  assert (w = WPolling off n) as -> by congruence. destruct Hwo as [Hwr Hn].
  pose proof (slot_range q (mSize q) Hwf). pose proof Hwr as [].
  pose proof (wf_len _ Hwf).
  split_and!; [lia..|]. intros k Hk. by apply writable_disjoint.
Qed.

(** C35. [poll] makes progress: once it holds the lock, if some queue holds an
    event of a known sensor, its next critical section ends the call with at
    least one event and at most [maxReads]. *)
Theorem multihal_poll_progress mems st m q e i (Hm : good_mems mems)
    (Hr : reachable (start mems) st)
    (Hrd : ms_reader st = RReady m \/ ms_reader st = RWoken m) (Hpos : 0 < m)
    (Hq : ms_queues st !! i = Some q) (He : e ∈ contents q)
    (Hd : deliver META h (Z.of_nat i, e) <> None) :
  exists st' new, mstep st st' /\ ms_reader st' = RIdle /\
    ms_delivered st' = ms_delivered st ++ new /\ 1 <= zlen new <= m.
Proof.
  pose proof (reachable_start_inv mems st Hm Hr) as Hinv.
  destruct (round_runs st m Hinv) as (p & Hp & Hs & _ & Hle & Hdrain).
  exists (reader_round st m (log_of st m) p), (data p).
  split; [by eapply step_poll_round|]. simpl.
  assert (Hne : eventsRead p <> 0).
  { intros H0. specialize (Hdrain ltac:(lia)).
    pose proof Hs as [Hlen _ Hf _ _ Hdata _].
    destruct (lookup_lt_is_Some_2 (queues p) i) as [q' Hq'].
    { apply lookup_lt_Some in Hq. lia. }
    pose proof (Hf i q q' Hq Hq') as Hx. simpl in Hx.
    rewrite (Forall_lookup_1 _ _ _ _ Hdrain Hq'), app_nil_r in Hx. rewrite Hx in He. unfold taken in He.
    apply list_elem_of_fmap in He as ([j e'] & -> & He).
    apply list_elem_of_filter in He as [Hj He]. simpl in *. subst j.
    destruct (deliver META h (Z.of_nat i, e')) as [d|] eqn:Hde; [|done].
    assert (Hin : d ∈ data p) by (rewrite Hdata; apply list_elem_of_omap; eauto).
    unfold eventsRead in H0. apply zlen_0_nil in H0. rewrite H0 in Hin. by apply elem_of_nil in Hin. }
  unfold poll_returns. destruct (eventsRead p =? 0) eqn:H0; breflect; [done|]. simpl.
  split_and!; [done..| |]; unfold eventsRead in *; [|lia].
  pose proof (zlen_nonneg (data p)). lia.
Qed.
End Threads.

(** ** A concrete run: one sub-HAL polls one event, marks it, and the framework calls [poll] *)

Definition run_handles : handles := assign_all handles_init [(0, 9)].
Definition run_event : event := mk_event 1 9 0 [42].
Definition run_mems : list (list event) := [replicate 36 (mk_event 1 0 0 [])].
Definition queue_at (st : mstate) (i : nat) : queue event :=
  default (new_queue 0 []) (ms_queues st !! i).

Definition run0 : mstate := start run_mems.
Definition run1 : mstate := writer_lock run0 0 (queue_at run0 0).
Definition run2 : mstate := with_queue run1 0 (write_region (queue_at run1 0) 0 [run_event]).
Definition run3 : mstate := writer_return run2 0 0 1.
Definition run4 : mstate := writer_mark run3 0 (queue_at run3 0) 0 1.
Definition run5 : mstate := with_reader run4 (RReady 8) (waiting_for_data run4).
Definition run6 : mstate := writer_lock run5 0 (queue_at run5 0).

Lemma run_good : good_mems run_mems.
Proof. split; [done|]. repeat constructor. Qed.

Lemma run_reachable : reachable 0 run_handles (start run_mems) run6.
Proof.
  apply reach_step with run5; [|by apply step_writer_lock].
  apply reach_step with run4; [|by apply step_poll_call].
  apply reach_step with run3; [|by apply step_writer_mark].
  apply reach_step with run2; [|by apply (step_device_return _ _ run2 0%nat 0 36 1)].
  apply reach_step with run1; [|by apply (step_device_write _ _ run1 0%nat _ 0 36)].
  apply reach_step with run0; [|by apply step_writer_lock].
  apply reach_refl.
Qed.

(** After a second critical section of each thread the event is with the framework. *)
Definition run7 : mstate := reader_round run6 8 (log_of 0 run_handles run6 8)
  (default (mk_poll [] 0 0 [] []) (poll_round 0 (poll_fuel (ms_queues run6)) run_handles 8 (ms_queues run6) (ms_next run6))).

Lemma run7_reachable : reachable 0 run_handles (start run_mems) run7.
Proof.
  apply reach_step with run6; [exact run_reachable|].
  apply step_poll_round; [by left|]. vm_compute. reflexivity.
Qed.

Lemma multihal_fifo_witness :
  ms_delivered run7 = [mk_event 1 1 0 [42]] /\
  [run_event] = taken 0 (ms_log run7) ++ contents (queue_at run7 0) /\
  ms_delivered run7 = omap (deliver 0 run_handles) (ms_log run7) /\
  forall maxReads, exists p,
    poll_round 0 (poll_fuel (ms_queues run7)) run_handles maxReads (ms_queues run7) (ms_next run7) = Some p.
Proof.
  split; [vm_compute; reflexivity|].
  exact (multihal_fifo 0 run_handles run_mems run7 0 _ _ run_good run7_reachable eq_refl eq_refl).
Defined.

Lemma multihal_no_lost_wakeup_witness :
  (forall m, ms_reader run6 = RWaiting m -> 0 < m ->
     waiting_for_data run6 = true /\ Forall (fun q => contents q = []) (ms_queues run6) /\
     Forall (fun w => w <> WBlocked) (ms_writers run6)) /\
  (forall i q, ms_writers run6 !! i = Some WBlocked -> ms_queues run6 !! i = Some q ->
     mSize q = mCapacity q /\ contents q <> []).
Proof.
  exact (multihal_no_lost_wakeup 0 run_handles run_mems run6 run_good run_reachable).
Defined.

Lemma multihal_race_free_witness :
  ms_writers run6 = [WPolling 1 35] /\
  0 <= 1 /\ 1 <= 35 /\ 1 + 35 <= zlen (mData (queue_at run6 0)) /\
  forall k, 0 <= k < mSize (queue_at run6 0) ->
    slot (queue_at run6 0) k < 1 \/ 1 + 35 <= slot (queue_at run6 0) k.
Proof.
  split; [reflexivity|].
  exact (multihal_race_free 0 run_handles run_mems run6 0 _ 1 35 run_good run_reachable
           eq_refl eq_refl).
Defined.

Lemma multihal_poll_progress_witness :
  exists st' new, mstep 0 run_handles run6 st' /\ ms_reader st' = RIdle /\
    ms_delivered st' = ms_delivered run6 ++ new /\ 1 <= zlen new <= 8.
Proof.
  refine (multihal_poll_progress 0 run_handles run_mems run6 8 (queue_at run6 0) run_event 0
            run_good run_reachable (or_introl eq_refl) eq_refl eq_refl _ _).
  - vm_compute. left.
  - vm_compute. discriminate.
Defined.
