(* ===== verification/CString.v ===== *)
(** * C strings as lists of characters

    The functions of the C library the sources call on text: [strtok], [atoi],
    [strtol], [strncmp], [snprintf] of decimals, and reading into a buffer that
    keeps its old tail.  A buffer is a [list ascii] of its full size; its string
    value is the part before the first NUL. *)

From stdpp Require Import pretty.
From S2P Require Import Prelude.
From Stdlib Require Import Ascii.

Abbreviation bytes := (list ascii).

Definition NUL : ascii := "000"%char.
Definition lit (s : string) : bytes := String.list_ascii_of_string s.

(** The string a buffer holds. *)
Fixpoint cstr (b : bytes) : bytes :=
  match b with
  | [] => []
  | c :: r => if Ascii.eqb c NUL then [] else c :: cstr r
  end.

(** [read(fd, buf, size)] of a file: the bytes behind those read are kept. *)
Definition read_into (content buf : bytes) : bytes :=
  let n := Nat.min (length content) (length buf) in
  take n content ++ drop n buf.

(** ** Tokens *)

Definition flush_token (cur : bytes) : list bytes := if decide (cur = []) then [] else [cur].

(** The tokens successive [strtok] calls return, [cur] being the current one. *)
Fixpoint tokens_from (delim : ascii) (cur : bytes) (s : bytes) : list bytes :=
  match s with
  | [] => flush_token cur
  | c :: r => if Ascii.eqb c delim then flush_token cur ++ tokens_from delim [] r
              else tokens_from delim (cur ++ [c]) r
  end.

Definition strtok_tokens (delim : ascii) (buf : bytes) : list bytes :=
  tokens_from delim [] (cstr buf).

(** What is left in the buffer: every token's terminating delimiter is NUL. *)
Fixpoint strtok_buffer (delim : ascii) (in_token : bool) (buf : bytes) : bytes :=
  match buf with
  | [] => []
  | c :: r =>
      if Ascii.eqb c NUL then buf
      else if Ascii.eqb c delim then (if in_token then NUL else c) :: strtok_buffer delim false r
      else c :: strtok_buffer delim true r
  end.

(** ** Decimal numbers *)

Definition is_space (c : ascii) : bool :=
  let n := nat_of_ascii c in bool_decide (n = 32 \/ 9 <= n <= 13)%nat.

Definition digit_value (c : ascii) : option Z :=
  let n := Z.of_nat (nat_of_ascii c) in
  if (48 <=? n) && (n <=? 57) then Some (n - 48) else None.

Fixpoint skip_space (s : bytes) : bytes :=
  match s with
  | c :: r => if is_space c then skip_space r else s
  | [] => []
  end.

Fixpoint read_digits (acc : Z) (s : bytes) : Z :=
  match s with
  | c :: r => match digit_value c with
              | Some d => read_digits (acc * 10 + d) r
              | None => acc
              end
  | [] => acc
  end.

Definition read_signed (s : bytes) : Z :=
  match s with
  | c :: r => if Ascii.eqb c "-" then - read_digits 0 r
              else if Ascii.eqb c "+" then read_digits 0 r else read_digits 0 s
  | [] => 0
  end.

(** [atoi] (and [atol], [strtol(..., NULL, 10)] away from overflow). *)
Definition atoi (buf : bytes) : Z := read_signed (skip_space (cstr buf)).

Fixpoint digits_end (s : bytes) : bytes :=
  match s with
  | c :: r => match digit_value c with Some _ => digits_end r | None => s end
  | [] => []
  end.

Definition starts_digit (s : bytes) : bool :=
  match s with c :: _ => bool_decide (is_Some (digit_value c)) | [] => false end.

(** The subject of [strtol] in base 10: its sign and the text behind it. *)
Definition strtol_sign (s : bytes) : bool * bytes :=
  match s with
  | c :: r => if Ascii.eqb c "-" then (true, r) else if Ascii.eqb c "+" then (false, r) else (false, s)
  | [] => (false, [])
  end.

(** [strtol(s, &end, 10)] on a string without NUL, for a 32-bit [long]: the value,
    saturated, and the text left. *)
Definition strtol10 (s : bytes) : Z * bytes :=
  let '(neg, r) := strtol_sign (skip_space s) in
  if starts_digit r then
    let v := read_digits 0 r in
    (Z.max INT_MIN (Z.min INT_MAX (if neg then - v else v)), digits_end r)
  else (0, s).

(** ** Numbers in base 0

    [strtol] and [strtoul] with base 0: hexadecimal behind [0x], octal behind [0],
    decimal otherwise. *)

Definition digit_in (base : Z) (c : ascii) : option Z :=
  let n := Z.of_nat (nat_of_ascii c) in
  let d := if (48 <=? n) && (n <=? 57) then n - 48
           else if (65 <=? n) && (n <=? 90) then n - 55
           else if (97 <=? n) && (n <=? 122) then n - 87 else base in
  if d <? base then Some d else None.

Fixpoint read_base (base acc : Z) (s : bytes) : Z :=
  match s with
  | c :: r => match digit_in base c with Some d => read_base base (acc * base + d) r | None => acc end
  | [] => acc
  end.

Fixpoint base_end (base : Z) (s : bytes) : bytes :=
  match s with
  | c :: r => match digit_in base c with Some _ => base_end base r | None => s end
  | [] => []
  end.

(** The base behind the sign, and the digits in it. *)
Definition auto_base (s : bytes) : Z * bytes :=
  match s with
  | "0"%char :: x :: c :: r =>
      if (Ascii.eqb x "x" || Ascii.eqb x "X") && bool_decide (is_Some (digit_in 16 c))
      then (16, c :: r) else (8, s)
  | "0"%char :: _ => (8, s)
  | _ => (10, s)
  end.

Definition read_auto (s : bytes) : Z := let '(base, r) := auto_base s in read_base base 0 r.

(** [strtol(s, 0, 0)] for a 32-bit [long]. *)
Definition strtol_auto (s : bytes) : Z :=
  let '(neg, r) := strtol_sign (skip_space s) in
  let v := read_auto r in
  Z.max INT_MIN (Z.min INT_MAX (if neg then - v else v)).

(** [strtoul(s, &end, 0)] for a 32-bit [unsigned long]: the value (saturated, negated
    modulo 2^32 behind a minus sign) and the text left, all of it when there is no
    number. *)
Definition strtoul_auto (s : bytes) : Z * bytes :=
  let '(neg, r) := strtol_sign (skip_space s) in
  let '(base, r) := auto_base r in
  match r with
  | c :: _ =>
      if bool_decide (is_Some (digit_in base c)) then
        let v := read_base base 0 r in
        (if 2 ^ 32 <=? v then 2 ^ 32 - 1 else if neg then wrap_u32 (- v) else v, base_end base r)
      else (0, s)
  | [] => (0, s)
  end.

(** [strchr(s, c)]: the text before and after the first [c]. *)
Fixpoint strchr (c : ascii) (s : bytes) : option (bytes * bytes) :=
  match s with
  | [] => None
  | x :: r => if Ascii.eqb x c then Some ([], r)
              else match strchr c r with Some (b, a) => Some (x :: b, a) | None => None end
  end.

(** ** Comparison *)

(** [strncmp(a, b, n) == 0] on NUL-terminated strings. *)
Definition strncmp_eq (a b : bytes) (n : nat) : bool :=
  bool_decide (take n (cstr a) = take n (cstr b)).

Definition strlen (b : bytes) : Z := zlen (cstr b).

(** ** Printing *)

(** ["%d"]. *)
Definition print_int (z : Z) : string := pretty z.

(** [sprintf] into an array of [size] bytes; [None] when it writes past the end. *)
Definition sprintf (size : nat) (full : bytes) : option bytes :=
  if bool_decide (length full < size)%nat then Some full else None.

(** The string [snprintf(buf, size, ...)] leaves of its full output. *)
Definition snprintf_result (size : nat) (full : string) : string :=
  String.substring 0 (size - 1) full.

(** ** Lemmas *)

Lemma substring_all (s : string) (n : nat) :
  (String.length s <= n)%nat -> String.substring 0 n s = s.
Proof.
  revert n; induction s as [|c s IH]; intros [|n] Hn; simpl in *; try done; [lia|].
  by rewrite IH by lia.
Qed.

Lemma snprintf_fits size full :
  (String.length full < size)%nat -> snprintf_result size full = full.
Proof. intros. unfold snprintf_result. apply substring_all. lia. Qed.

Lemma length_append (a b : string) :
  String.length (a +:+ b) = (String.length a + String.length b)%nat.
Proof. induction a; simpl; [done|]. by rewrite IHa. Qed.

Lemma length_pretty_N_go (k : nat) (x : N) (s : string) :
  (x < 10 ^ N.of_nat k)%N ->
  (String.length (pretty_N_go x s) <= k + String.length s)%nat.
Proof.
  revert x s; induction k as [|k IH]; intros x s Hx.
  - simpl in Hx. assert (x = 0%N) as -> by lia. rewrite pretty_N_go_0. lia.
  - destruct (decide (x = 0%N)) as [->|]; [rewrite pretty_N_go_0; lia|].
    rewrite pretty_N_go_step by lia.
    etrans; [apply IH|simpl; lia].
    apply N.Div0.div_lt_upper_bound.
    rewrite Nat2N.inj_succ, N.pow_succ_r' in Hx. lia.
Qed.

(** A decimal below [10 ^ k] has at most [k] digits, plus the sign. *)
Lemma length_print_int (k : nat) (z : Z) :
  (0 < k)%nat -> Z.abs z < 10 ^ Z.of_nat k ->
  (String.length (print_int z) <= k + (if (z <? 0)%Z then 1 else 0))%nat.
Proof.
  intros Hk Hz. unfold print_int.
  assert (Hp : forall p, Z.pos p < 10 ^ Z.of_nat k ->
    (String.length (pretty (N.pos p)) <= k)%nat).
  { intros p Hp. unfold pretty, pretty_N. case_decide; [done|].
    etrans; [apply (length_pretty_N_go k) | by rewrite Nat.add_0_r].
    apply N2Z.inj_lt. by rewrite N2Z.inj_pow, nat_N_Z. }
  destruct z as [|p|p].
  - simpl; lia.
  - change (pretty (Z.pos p)) with (pretty (N.pos p)). simpl in *. specialize (Hp p). lia.
  - change (pretty (Z.neg p)) with ("-" +:+ pretty (N.pos p))%string.
    specialize (Hp p ltac:(simpl in *; lia)). rewrite length_append. simpl. lia.
Qed.

(** ** Round trips *)

Definition is_digit (c : ascii) : Prop := exists d, digit_value c = Some d.

Lemma lit_app a b : lit (a +:+ b) = lit a ++ lit b.
Proof. induction a as [|c a IH]; simpl; [done|]. by f_equal. Qed.

Lemma pretty_N_char_value (n : N) : (n < 10)%N -> digit_value (pretty_N_char n) = Some (Z.of_N n).
Proof.
  intros Hn. assert (Hc : n = 0%N \/ n = 1%N \/ n = 2%N \/ n = 3%N \/ n = 4%N \/ n = 5%N \/
    n = 6%N \/ n = 7%N \/ n = 8%N \/ n = 9%N) by lia.
  by repeat destruct Hc as [->|Hc]; [..|subst n].
Qed.

Lemma pretty_N_go_digits x s :
  Forall is_digit (lit s) -> Forall is_digit (lit (pretty_N_go x s)).
Proof.
  revert s. induction (N.lt_wf_0 x) as [x _ IH]; intros s Hs.
  destruct (decide (x = 0%N)) as [->|]; [by rewrite pretty_N_go_0|].
  rewrite pretty_N_go_step by lia. apply IH; [apply N.div_lt; lia|].
  simpl. constructor; [|done]. eexists. apply pretty_N_char_value, N.mod_lt. lia.
Qed.

Lemma pretty_N_go_read x s :
  read_digits 0 (lit (pretty_N_go x s)) = read_digits (Z.of_N x) (lit s).
Proof.
  revert s. induction (N.lt_wf_0 x) as [x _ IH]; intros s.
  destruct (decide (x = 0%N)) as [->|]; [by rewrite pretty_N_go_0|].
  rewrite pretty_N_go_step by lia. rewrite IH by (apply N.div_lt; lia).
  simpl. rewrite pretty_N_char_value by (apply N.mod_lt; lia). f_equal.
  rewrite N2Z.inj_div, N2Z.inj_mod. pose proof (Z.div_mod (Z.of_N x) 10 ltac:(lia)). lia.
Qed.

Lemma print_nonneg z : 0 <= z ->
  Forall is_digit (lit (print_int z)) /\ lit (print_int z) <> [] /\
  read_digits 0 (lit (print_int z)) = z.
Proof.
  intros Hz. unfold print_int. destruct z as [|p|p]; [|change (pretty (Z.pos p)) with (pretty (N.pos p))|lia].
  - split_and!; [|done|done]. repeat constructor. by exists 0.
  - unfold pretty, pretty_N. case_decide; [done|]. split_and!.
    + by apply pretty_N_go_digits.
    + rewrite pretty_N_go_step by lia. intros Hnil.
      assert (Hz' : forall y s, lit s <> [] -> lit (pretty_N_go y s) <> []).
      { intros y. induction (N.lt_wf_0 y) as [y _ IH]; intros s Hs.
        destruct (decide (y = 0%N)) as [->|]; [by rewrite pretty_N_go_0|].
        rewrite pretty_N_go_step by lia. apply IH; [apply N.div_lt; lia|done]. }
      by eapply Hz'; [|exact Hnil].
    + by rewrite pretty_N_go_read.
Qed.

Lemma digit_char c : is_digit c ->
  Ascii.eqb c NUL = false /\ Ascii.eqb c " " = false /\ Ascii.eqb c "-" = false /\
  Ascii.eqb c "+" = false /\ is_space c = false.
Proof.
  intros [d Hd]. destruct c as [b0 b1 b2 b3 b4 b5 b6 b7].
  destruct b0, b1, b2, b3, b4, b5, b6, b7; vm_compute in Hd; try discriminate Hd;
    vm_compute; done.
Qed.

Lemma digit_value_bounds c d : digit_value c = Some d -> 0 <= d <= 9.
Proof. unfold digit_value. case_tests; intros; simplify_eq. breflect. lia. Qed.

Lemma read_digits_bound s acc :
  0 <= acc -> 0 <= read_digits acc s < (acc + 1) * 10 ^ zlen s.
Proof.
  revert acc; induction s as [|c s IH]; intros acc Ha; simpl.
  - unfold zlen. simpl. lia.
  - rewrite zlen_cons, Z.pow_add_r by (try lia; apply zlen_nonneg).
    pose proof (Z.pow_pos_nonneg 10 (zlen s) ltac:(lia) (zlen_nonneg s)).
    destruct (digit_value c) as [d|] eqn:E.
    + apply digit_value_bounds in E. specialize (IH (acc * 10 + d) ltac:(lia)). nia.
    + nia.
Qed.

Lemma read_digits_stop acc w c r :
  Forall is_digit w -> digit_value c = None ->
  read_digits acc (w ++ c :: r) = read_digits acc w.
Proof.
  intros Hw Hc. revert acc; induction Hw as [|x w [d Hd] Hw IH]; intros acc; simpl.
  - by rewrite Hc.
  - rewrite Hd. apply IH.
Qed.

Lemma cstr_app w r : Forall (fun c => Ascii.eqb c NUL = false) w -> cstr (w ++ r) = w ++ cstr r.
Proof. induction 1 as [|c w Hc Hw IH]; simpl; [done|]. by rewrite Hc, IH. Qed.

Lemma digits_not_nul w : Forall is_digit w -> Forall (fun c => Ascii.eqb c NUL = false) w.
Proof. intros H. eapply Forall_impl; [exact H|]. intros c Hc. by apply digit_char. Qed.

(** [atoi] of a printed number, alone or followed by other text. *)
Lemma atoi_print z r :
  0 <= z -> match r with [] => True | c :: _ => digit_value c = None end ->
  atoi (lit (print_int z) ++ r) = z.
Proof.
  intros Hz Hr. destruct (print_nonneg z Hz) as (Hd & Hne & Hread).
  unfold atoi. rewrite cstr_app by by apply digits_not_nul.
  assert (Hs : match cstr r with [] => True | c :: _ => digit_value c = None end).
  { destruct r as [|c r]; simpl; [done|]. by case_test. }
  destruct (lit (print_int z)) as [|c w] eqn:Hw; [done|].
  pose proof Hd as Hd'. apply Forall_cons in Hd' as [Hc Hw'].
  destruct (digit_char c Hc) as (_ & _ & Hm & Hp & Hsp).
  simpl. rewrite Hsp. unfold read_signed. rewrite Hm, Hp.
  change (c :: w ++ cstr r) with ((c :: w) ++ cstr r).
  destruct (cstr r) as [|c' r']; [by rewrite app_nil_r|]. by rewrite read_digits_stop.
Qed.

(** ** Tokenising *)

Lemma tokens_word delim cur w r :
  Forall (fun c => Ascii.eqb c delim = false) w ->
  tokens_from delim cur (w ++ delim :: r) = flush_token (cur ++ w) ++ tokens_from delim [] r.
Proof.
  intros Hw. revert cur; induction Hw as [|c w Hc Hw IH]; intros cur; simpl.
  - by rewrite Ascii.eqb_refl, app_nil_r.
  - rewrite Hc, IH. by rewrite <- app_assoc.
Qed.

Lemma strtok_buffer_prefix delim b w r :
  Forall (fun c => Ascii.eqb c NUL = false) w ->
  exists w', strtok_buffer delim b (w ++ NUL :: r) = w' ++ NUL :: r /\ length w' = length w.
Proof.
  intros Hw. revert b; induction Hw as [|c w Hc Hw IH]; intros b; simpl; [by exists []|].
  rewrite Hc. destruct (Ascii.eqb c delim).
  - destruct (IH false) as (w' & -> & Hl). eexists (_ :: w'). simpl. by rewrite Hl.
  - destruct (IH true) as (w' & -> & Hl). exists (c :: w'). simpl. by rewrite Hl.
Qed.

Lemma read_into_exact content old rest :
  length old = length content -> read_into content (old ++ rest) = content ++ rest.
Proof.
  intros Hl. unfold read_into. rewrite length_app.
  rewrite Nat.min_l by lia. rewrite firstn_all. by rewrite <- Hl, drop_app_length.
Qed.

(** ** [strtol] and [strchr] *)

Lemma read_digits_app_stop w r :
  Forall is_digit w -> starts_digit r = false ->
  read_digits 0 (w ++ r) = read_digits 0 w /\ digits_end (w ++ r) = r.
Proof.
  intros Hw Hr. split.
  - destruct r as [|c r]; [by rewrite app_nil_r|]. apply read_digits_stop; [done|].
    simpl in Hr. by destruct (digit_value c).
  - induction Hw as [|c w [d Hd] Hw IH]; simpl; [|by rewrite Hd].
    destruct r as [|c r]; simpl in *; [done|]. by destruct (digit_value c).
Qed.

Lemma digits_end_suffix s : digits_end s `suffix_of` s.
Proof.
  induction s as [|c s IH]; simpl; [done|]. destruct (digit_value c); [|done].
  by apply suffix_cons_r.
Qed.

Lemma skip_space_suffix s : skip_space s `suffix_of` s.
Proof. induction s as [|c s IH]; simpl; [done|]. case_test; [by apply suffix_cons_r | done]. Qed.

Lemma strtol10_suffix s : (strtol10 s).2 `suffix_of` s.
Proof.
  unfold strtol10. pose proof (skip_space_suffix s) as Hs.
  assert (Hr : (strtol_sign (skip_space s)).2 `suffix_of` skip_space s).
  { destruct (skip_space s) as [|c r]; [done|]. simpl. repeat case_match; simpl; try done;
      by apply suffix_cons_r. }
  destruct (strtol_sign (skip_space s)) as [neg r]. simpl in Hr. case_test; [|done].
  simpl. etrans; [apply digits_end_suffix|]. by etrans.
Qed.

(** [strtol] reads back a printed [int] and stops behind it. *)
Lemma strtol10_print z r :
  is_int z -> starts_digit r = false -> strtol10 (lit (print_int z) ++ r) = (z, r).
Proof.
  intros Hz Hr. unfold is_int in Hz.
  assert (Hpos : forall y, 0 <= y -> exists c w, lit (print_int y) = c :: w /\ is_digit c /\
    starts_digit (lit (print_int y) ++ r) = true /\ read_digits 0 (lit (print_int y) ++ r) = y /\
    digits_end (lit (print_int y) ++ r) = r).
  { intros y Hy. destruct (print_nonneg y Hy) as (Hd & Hne & Hread).
    destruct (read_digits_app_stop _ r Hd Hr) as [Hv He]. rewrite Hv, He, Hread.
    destruct (lit (print_int y)) as [|c w]; [done|]. exists c, w.
    apply Forall_cons in Hd as [[d Hc] _]. split_and!; [done|by exists d| |done|done].
    simpl. apply bool_decide_eq_true. by exists d. }
  unfold strtol10. destruct (Z_lt_le_dec z 0) as [Hneg|Hge].
  - destruct (Hpos (- z)) as (c & w & Hw & Hc & Hst & Hv & He); [lia|].
    assert (lit (print_int z) = "-"%char :: lit (print_int (- z))) as ->.
    { unfold print_int. destruct z as [|p|p]; [lia|lia|]. done. }
    simpl. rewrite Hst, Hv, He. f_equal. lia.
  - destruct (Hpos z) as (c & w & Hw & Hc & Hst & Hv & He); [lia|].
    destruct (digit_char c Hc) as (_ & _ & Hm & Hp & Hsp).
    assert (skip_space (lit (print_int z) ++ r) = lit (print_int z) ++ r) as ->.
    { rewrite Hw. simpl. by rewrite Hsp. }
    assert (strtol_sign (lit (print_int z) ++ r) = (false, lit (print_int z) ++ r)) as ->.
    { rewrite Hw. simpl. by rewrite Hm, Hp. }
    rewrite Hst, Hv, He. f_equal. lia.
Qed.

(** What [strchr] finds. *)
Lemma strchr_app c b a :
  Forall (fun x => Ascii.eqb x c = false) b -> strchr c (b ++ c :: a) = Some (b, a).
Proof.
  induction 1 as [|x b Hx Hb IH]; simpl; [by rewrite Ascii.eqb_refl|]. by rewrite Hx, IH.
Qed.

Lemma strchr_none c s : Forall (fun x => Ascii.eqb x c = false) s <-> strchr c s = None.
Proof.
  induction s as [|x s IH]; simpl; [done|]. rewrite Forall_cons, IH.
  destruct (Ascii.eqb x c); [naive_solver|]. destruct (strchr c s) as [[]|]; naive_solver.
Qed.

Lemma strchr_some c s b a :
  strchr c s = Some (b, a) -> s = b ++ c :: a /\ Forall (fun x => Ascii.eqb x c = false) b.
Proof.
  revert b; induction s as [|x s IH]; intros b Hs; simplify_eq/=.
  destruct (Ascii.eqb x c) eqn:Hx; simplify_eq/=.
  - apply Ascii.eqb_eq in Hx as ->. split; constructor.
  - destruct (strchr c s) as [[b' a']|]; simplify_eq/=. destruct (IH b') as [-> Hb]; [done|].
    split; [done|by constructor].
Qed.

Lemma sprintf_fits size full : (length full < size)%nat -> sprintf size full = Some full.
Proof. intros H. unfold sprintf. by rewrite bool_decide_eq_true_2. Qed.

Lemma length_lit s : length (lit s) = String.length s.
Proof. induction s; simpl; by f_equal. Qed.

(** A printed [int] has at most eleven characters, none of them a delimiter. *)
Lemma length_print_is_int z : is_int z -> (length (lit (print_int z)) <= 11)%nat.
Proof.
  unfold is_int, INT_MIN, INT_MAX. intros Hz. rewrite length_lit.
  pose proof (length_print_int 10 z ltac:(lia) ltac:(lia)). destruct (z <? 0)%Z; lia.
Qed.

Lemma print_int_chars z : Forall (fun c => is_digit c \/ c = "-"%char) (lit (print_int z)).
Proof.
  destruct (Z_lt_le_dec z 0) as [Hneg|Hge].
  - assert (lit (print_int z) = "-"%char :: lit (print_int (- z))) as ->.
    { unfold print_int. destruct z as [|p|p]; [lia|lia|]. done. }
    constructor; [by right|]. eapply Forall_impl; [apply print_nonneg; lia|]. by left.
  - eapply Forall_impl; [by apply print_nonneg|]. by left.
Qed.

(** No printed [int] holds one of the separators [=], [;], [,] and [x]. *)
Lemma print_int_no z c :
  digit_value c = None -> c <> "-"%char ->
  Forall (fun x => Ascii.eqb x c = false) (lit (print_int z)).
Proof.
  intros Hc Hm. eapply Forall_impl; [apply print_int_chars|]. intros x Hx.
  apply Ascii.eqb_neq. intros ->. destruct Hx as [[d Hd]|]; congruence.
Qed.

(** A printed positive number does not begin with [0]. *)
Lemma pretty_N_go_head x s :
  (0 < x)%N -> exists c w, lit (pretty_N_go x s) = c :: w /\ is_digit c /\ c <> "0"%char.
Proof.
  revert s. induction (N.lt_wf_0 x) as [x _ IH]; intros s Hx.
  rewrite pretty_N_go_step by lia. destruct (decide (x / 10 = 0)%N) as [Hz|Hz].
  - rewrite Hz, pretty_N_go_0. apply N.div_small_iff in Hz; [|lia].
    assert (Hd : (x mod 10 = x)%N) by (by apply N.mod_small). rewrite Hd.
    eexists _, _. split; [done|]. split; [eexists; by apply pretty_N_char_value|].
    intros Hc. pose proof (pretty_N_char_value x Hz) as Hv. rewrite Hc in Hv.
    change (digit_value "0") with (Some 0) in Hv. injection Hv as Hv. lia.
  - apply IH; [apply N.div_lt; lia|by apply N.neq_0_lt_0].
Qed.

Lemma print_int_head z :
  0 < z -> exists c w, lit (print_int z) = c :: w /\ is_digit c /\ c <> "0"%char.
Proof.
  intros Hz. destruct z as [|p|p]; [lia| |lia]. unfold print_int.
  change (pretty (Z.pos p)) with (pretty (N.pos p)). unfold pretty, pretty_N.
  case_decide; [done|]. apply pretty_N_go_head. lia.
Qed.

Lemma digit_in_decimal c d : digit_value c = Some d -> digit_in 10 c = Some d.
Proof.
  unfold digit_value, digit_in. intros Hd. case_test_in Hd; [|done]. simplify_eq.
  by decide_tests.
Qed.

Lemma read_base_decimal acc w : Forall is_digit w -> read_base 10 acc w = read_digits acc w.
Proof.
  intros Hw. revert acc. induction Hw as [|c w [d Hd] Hw IH]; intros acc; simpl; [done|].
  by rewrite (digit_in_decimal c d), Hd.
Qed.

Lemma read_auto_print z : 0 <= z -> read_auto (lit (print_int z)) = z.
Proof.
  intros Hz. destruct (decide (z = 0)) as [->|Hne]; [done|].
  destruct (print_int_head z) as (c & w & Hw & Hc & H0); [lia|].
  destruct (print_nonneg z Hz) as (Hd & _ & Hv).
  assert (Hr : forall s, lit (print_int z) = s -> read_base 10 0 s = z).
  { intros s <-. by rewrite read_base_decimal. }
  rewrite Hw in *. specialize (Hr _ eq_refl). unfold read_auto, auto_base.
  destruct c as [[] [] [] [] [] [] [] []]; try done; by destruct H0.
Qed.

(** [strtol] with base 0 reads back a printed [int]. *)
Lemma strtol_auto_print z : is_int z -> strtol_auto (lit (print_int z)) = z.
Proof.
  unfold is_int. intros Hz. unfold strtol_auto. destruct (Z_lt_le_dec z 0) as [Hneg|Hge].
  - assert (lit (print_int z) = "-"%char :: lit (print_int (- z))) as ->.
    { unfold print_int. destruct z as [|p|p]; [lia|lia|]. done. }
    cbn [skip_space strtol_sign is_space]. simpl. rewrite read_auto_print by lia. lia.
  - destruct (print_nonneg z Hge) as (Hd & Hne & _).
    pose proof (read_auto_print z Hge) as Hr.
    destruct (lit (print_int z)) as [|c w]; [done|]. apply Forall_cons in Hd as [Hc _].
    destruct (digit_char c Hc) as (_ & _ & Hm & Hp & Hsp).
    cbn [skip_space strtol_sign]. rewrite Hsp. cbn [strtol_sign]. rewrite Hm, Hp, Hr. lia.
Qed.
