(* ===== verification/PmQos.v ===== *)
(** * Kernel PM QoS requests

    The two kinds of request [hardware/nvidia/power/timeoutpoker.{h,cpp}] writes to
    the kernel's PM QoS nodes, and the text command of a constraint. *)

From S2P Require Import Prelude.
From S2P Require Import CString.

(** A request without priority (an [int] written as is) or with one. *)
Inductive pm_request :=
| ReqVal (val : Z)
| ReqConstraint (priority max min : Z).

(** What [write] is given. *)
Inductive wdata :=
| WInt (v : Z)
| WStr (s : string).

Definition COMMAND_SIZE : nat := 20.

Definition constraint_text (priority max min : Z) : string :=
  print_int max +:+ " " +:+ print_int min +:+ " " +:+ print_int priority +:+ " 0".

(** The command left in the caller's buffer and the [strlen] returned. *)
Definition createConstraintCommand (size : nat) (priority max min : Z) : string * Z :=
  let command := snprintf_result size (constraint_text priority max min) in
  (command, Z.of_nat (String.length command)).

(** [write(fd, &val, sizeof(val))] or [write(fd, command, size)]. *)
Definition request_data (r : pm_request) : wdata :=
  match r with
  | ReqVal v => WInt v
  | ReqConstraint priority max min =>
      let '(command, size) := createConstraintCommand COMMAND_SIZE priority max min in
      WStr (String.substring 0 (Z.to_nat size) command)
  end.

Definition PM_QOS_DEFAULT_VALUE : Z := -1.

(** A request leaves one of its two bounds at the kernel default. *)
Definition one_sided (max min : Z) : Prop :=
  max = PM_QOS_DEFAULT_VALUE \/ min = PM_QOS_DEFAULT_VALUE.

Lemma length_print_s32 z : is_int z -> (String.length (print_int z) <= 11)%nat.
Proof.
  intros Hz. unfold is_int, INT_MIN, INT_MAX in Hz.
  pose proof (length_print_int 10 z ltac:(lia) ltac:(lia)) as H.
  case_test_in H; lia.
Qed.

Lemma constraint_text_length priority max min :
  0 <= priority <= 99 -> is_int max -> is_int min -> one_sided max min ->
  (String.length (constraint_text priority max min) <= 19)%nat.
Proof.
  intros Hp Hmax Hmin Hone. unfold constraint_text. rewrite !length_append.
  pose proof (length_print_int 2 priority ltac:(lia) ltac:(lia)) as Hlp.
  pose proof (length_print_s32 max Hmax). pose proof (length_print_s32 min Hmin).
  assert (Hd : String.length (print_int PM_QOS_DEFAULT_VALUE) = 2%nat) by reflexivity.
  case_test_in Hlp; [lia|].
  destruct Hone as [->| ->]; rewrite Hd; simpl; lia.
Qed.

Lemma request_data_exact priority max min :
  0 <= priority <= 99 -> is_int max -> is_int min -> one_sided max min ->
  request_data (ReqConstraint priority max min) = WStr (constraint_text priority max min).
Proof.
  intros Hp Hmax Hmin Hone. pose proof (constraint_text_length priority max min Hp Hmax Hmin Hone).
  unfold request_data, createConstraintCommand.
  rewrite snprintf_fits by (unfold COMMAND_SIZE; lia).
  by rewrite Nat2Z.id, substring_all.
Qed.

(** ** Properties *)

(** The 20-byte command buffer is exactly large enough: for every pair of
    [int] bounds of which one is the kernel default, and every two-digit
    priority, the command handed to the kernel is the complete text
    "max min priority 0", its length is the number of bytes written, and a
    buffer one byte shorter would truncate one of these commands. *)
Theorem constraint_command_fits priority max min
    (Hp : 0 <= priority <= 99) (Hmax : is_int max) (Hmin : is_int min)
    (Hone : one_sided max min) :
  createConstraintCommand COMMAND_SIZE priority max min =
    (constraint_text priority max min,
     Z.of_nat (String.length (constraint_text priority max min))) /\
  request_data (ReqConstraint priority max min) = WStr (constraint_text priority max min) /\
  createConstraintCommand (COMMAND_SIZE - 1) 35 (-1) INT_MIN = ("-1 -2147483648 35 ", 18).
Proof.
  split; [|split; [by apply request_data_exact | reflexivity]].
  pose proof (constraint_text_length priority max min Hp Hmax Hmin Hone).
  unfold createConstraintCommand. by rewrite snprintf_fits by (unfold COMMAND_SIZE; lia).
Qed.

Lemma constraint_command_fits_witness :
  constraint_text 35 (-1) INT_MAX = "-1 2147483647 35 0" /\
  createConstraintCommand COMMAND_SIZE 35 (-1) INT_MAX =
    (constraint_text 35 (-1) INT_MAX,
     Z.of_nat (String.length (constraint_text 35 (-1) INT_MAX))) /\
  request_data (ReqConstraint 35 (-1) INT_MAX) = WStr (constraint_text 35 (-1) INT_MAX) /\
  createConstraintCommand (COMMAND_SIZE - 1) 35 (-1) INT_MIN = ("-1 -2147483648 35 ", 18).
Proof.
  split; [reflexivity|].
  apply (constraint_command_fits 35 (-1) INT_MAX); unfold is_int, INT_MIN, INT_MAX, one_sided,
    PM_QOS_DEFAULT_VALUE; lia.
Defined.

(** Two seven-digit bounds with a two-digit priority do not fit: the trailing
    field is cut off. *)
Lemma two_sided_command_truncated :
  createConstraintCommand COMMAND_SIZE 50 2116500 2116500 = ("2116500 2116500 50 ", 19).
Proof. reflexivity. Qed.
