(* ===== verification/TimeoutPoker.v ===== *)
(** * The timeout poker of the power HAL

    Models [hardware/nvidia/power/timeoutpoker.{h,cpp}]: PM QoS requests are
    queued as events for a looper thread, which opens and writes the kernel node
    and either closes it after a timeout or when the client closes a pipe.  The
    looper delivers a message at or after its due time; callbacks on a pipe run
    after the other end was closed.  The kernel's answers are arguments of the
    steps. *)

From S2P Require Import Prelude.
From S2P Require Import CString.
From S2P Require Import PmQos.

(** [PmQosOpenTimedEvent], [PmQosOpenHandleEvent] ([reply] identifies the
    caller's [outFd]/[done] pair) and [TimeoutEvent]. *)
Inductive queued_event :=
| PmQosOpenTimedEvent (node : string) (req : pm_request) (timeout : Z)
| PmQosOpenHandleEvent (node : string) (req : pm_request) (reply : nat)
| TimeoutEvent (pmQosFd : Z).

(** What a descriptor of the process refers to. *)
Inductive fdesc :=
| FdNode (path : string)
| FdServer
| FdClient.

(** [pk_replies], [pk_written], [pk_deadline], [pk_released] and [pk_orphans] are
    history: answers to [createPmQosHandle], writes, the descriptors of timed
    requests with their deadline, those released with deadline and time, and
    those whose pipe could not be watched. *)
Record poker := mk_poker {
  pk_now : Z;
  mKey : Z;
  mQueuedEvents : gmap Z queued_event;
  pk_msgs : list (Z * Z);
  pk_cbs : list (Z * Z);
  pk_fds : gmap Z fdesc;
  pk_replies : list (nat * Z);
  pk_written : list (Z * wdata);
  pk_deadline : gmap Z Z;
  pk_released : list (Z * Z * Z);
  pk_orphans : list Z;
}.

(** The kernel's and the looper's answers while one event runs. *)
Record answers := mk_answers {
  an_open : Z;
  an_pipe : option (Z * Z);   (* (pipefd[CLIENT_FD], pipefd[SERVER_FD]) *)
  an_add : bool;              (* [addFd] returned 1 *)
}.

Definition set_fds (st : poker) fds : poker :=
  mk_poker (pk_now st) (mKey st) (mQueuedEvents st) (pk_msgs st) (pk_cbs st) fds
    (pk_replies st) (pk_written st) (pk_deadline st) (pk_released st) (pk_orphans st).

Definition close_fd (st : poker) (fd : Z) : poker := set_fds st (delete fd (pk_fds st)).

Definition sendEventDelayed (st : poker) (delay : Z) (ev : queued_event) : poker :=
  let key := mKey st in
  mk_poker (pk_now st) (mKey st + 1) (<[wrap_u32 key := ev]> (mQueuedEvents st))
    (pk_msgs st ++ [(pk_now st + delay, key)]) (pk_cbs st) (pk_fds st) (pk_replies st)
    (pk_written st) (pk_deadline st) (pk_released st) (pk_orphans st).

Definition pushEvent (st : poker) (ev : queued_event) : poker := sendEventDelayed st 0 ev.

(** [requestPmQosTimed] and [createPmQosHandle] as far as the caller's thread. *)
Definition requestPmQosTimed (st : poker) filename (req : pm_request) (timeout : Z) : poker :=
  pushEvent st (PmQosOpenTimedEvent filename req timeout).

Definition createPmQosHandle (st : poker) filename (req : pm_request) (reply : nat) : poker :=
  pushEvent st (PmQosOpenHandleEvent filename req reply).

(** [None]: [valueFor] aborts on a missing key. *)
Definition removeEventByKey (st : poker) (what : Z) : option (poker * queued_event) :=
  e ← mQueuedEvents st !! wrap_u32 what;
  Some (mk_poker (pk_now st) (mKey st) (delete (wrap_u32 what) (mQueuedEvents st)) (pk_msgs st)
          (pk_cbs st) (pk_fds st) (pk_replies st) (pk_written st) (pk_deadline st)
          (pk_released st) (pk_orphans st), e).

Definition openPmQosNode (st : poker) filename (req : pm_request) (opened : Z) : poker * Z :=
  if opened <? 0 then (st, -1)
  else
    (mk_poker (pk_now st) (mKey st) (mQueuedEvents st) (pk_msgs st) (pk_cbs st)
       (<[opened := FdNode filename]> (pk_fds st)) (pk_replies st)
       (pk_written st ++ [(opened, request_data req)]) (pk_deadline st) (pk_released st)
       (pk_orphans st), opened).

(** [addFd]; its result is negated and then dropped by the caller. *)
Definition listenForHandleToCloseFd (st : poker) (handle fd : Z) (added : bool) : poker :=
  mk_poker (pk_now st) (mKey st) (mQueuedEvents st) (pk_msgs st)
    (if added then pk_cbs st ++ [(handle, fd)] else pk_cbs st) (pk_fds st) (pk_replies st)
    (pk_written st) (pk_deadline st) (pk_released st)
    (if added then pk_orphans st else pk_orphans st ++ [fd]).

Definition createHandleForFd (st : poker) (fd : Z) (ans : answers) : poker * Z :=
  match an_pipe ans with
  | None => (close_fd st fd, -1)
  | Some (client, server) =>
      let st := set_fds st (<[client := FdClient]> (<[server := FdServer]> (pk_fds st))) in
      (listenForHandleToCloseFd st server fd (an_add ans), client)
  end.

Definition createHandleForPmQosRequest (st : poker) filename req (ans : answers) : poker * Z :=
  let '(st, fd) := openPmQosNode st filename req (an_open ans) in
  if fd <? 0 then (st, -1) else createHandleForFd st fd ans.

Definition openPmQosTimed (st : poker) filename req (timeout : Z) (ans : answers) : poker :=
  let '(st, fd) := openPmQosNode st filename req (an_open ans) in
  if fd <? 0 then st
  else
    let st := sendEventDelayed st timeout (TimeoutEvent fd) in
    mk_poker (pk_now st) (mKey st) (mQueuedEvents st) (pk_msgs st) (pk_cbs st) (pk_fds st)
      (pk_replies st) (pk_written st) (<[fd := pk_now st + timeout]> (pk_deadline st))
      (pk_released st) (pk_orphans st).

Definition timeoutRequest (st : poker) (fd : Z) : poker :=
  let st := close_fd st fd in
  mk_poker (pk_now st) (mKey st) (mQueuedEvents st) (pk_msgs st) (pk_cbs st) (pk_fds st)
    (pk_replies st) (pk_written st) (delete fd (pk_deadline st))
    (pk_released st ++ option_list ((fun d => (fd, d, pk_now st)) <$> pk_deadline st !! fd))
    (pk_orphans st).

(** [QueuedEvent::run]; a handle event stores its result and opens the barrier. *)
Definition run_event (st : poker) (ev : queued_event) (ans : answers) : poker :=
  match ev with
  | PmQosOpenTimedEvent node req timeout => openPmQosTimed st node req timeout ans
  | PmQosOpenHandleEvent node req reply =>
      let '(st, out) := createHandleForPmQosRequest st node req ans in
      mk_poker (pk_now st) (mKey st) (mQueuedEvents st) (pk_msgs st) (pk_cbs st) (pk_fds st)
        (pk_replies st ++ [(reply, out)]) (pk_written st) (pk_deadline st) (pk_released st)
        (pk_orphans st)
  | TimeoutEvent fd => timeoutRequest st fd
  end.

Definition handleMessage (st : poker) (what : Z) (ans : answers) : option poker :=
  '(st, e) ← removeEventByKey st what; Some (run_event st e ans).

(** The looper takes message [i] and dispatches it. *)
Definition deliver_message (st : poker) (i : nat) (ans : answers) : option poker :=
  '(_, what) ← pk_msgs st !! i;
  handleMessage
    (mk_poker (pk_now st) (mKey st) (mQueuedEvents st) (delete i (pk_msgs st)) (pk_cbs st)
       (pk_fds st) (pk_replies st) (pk_written st) (pk_deadline st) (pk_released st)
       (pk_orphans st)) what ans.

(** The looper calls [pipeCloseCb] for callback [i]; [hup]: error or hang-up. *)
Definition pipeCloseCb (st : poker) (i : nat) (hup : bool) : option poker :=
  '(handle, fd) ← pk_cbs st !! i;
  if hup then
    let st := close_fd (close_fd st handle) fd in
    Some (mk_poker (pk_now st) (mKey st) (mQueuedEvents st) (pk_msgs st) (delete i (pk_cbs st))
            (pk_fds st) (pk_replies st) (pk_written st) (pk_deadline st) (pk_released st)
            (pk_orphans st))
  else Some st.

Definition tick (st : poker) (now : Z) : poker :=
  mk_poker now (mKey st) (mQueuedEvents st) (pk_msgs st) (pk_cbs st) (pk_fds st)
    (pk_replies st) (pk_written st) (pk_deadline st) (pk_released st) (pk_orphans st).

(** Descriptors the kernel hands out are new and distinct. *)
Definition answers_ok (st : poker) (ans : answers) : Prop :=
  (an_open ans < 0 \/ pk_fds st !! an_open ans = None) /\
  match an_pipe ans with
  | None => True
  | Some (c, s) => c <> s /\ 0 <= c /\ 0 <= s /\ pk_fds st !! c = None /\ pk_fds st !! s = None /\
                   c <> an_open ans /\ s <> an_open ans
  end.

Inductive pk_step : poker -> poker -> Prop :=
| pk_tick st now : pk_now st <= now -> pk_step st (tick st now)
| pk_request st filename req timeout :
    pk_step st (requestPmQosTimed st filename req timeout)
| pk_create st filename req reply :
    pk_step st (createPmQosHandle st filename req reply)
| pk_deliver st i due what ans st' :
    pk_msgs st !! i = Some (due, what) -> due <= pk_now st -> answers_ok st ans ->
    deliver_message st i ans = Some st' -> pk_step st st'
| pk_client_close st fd :
    pk_fds st !! fd = Some FdClient -> pk_step st (close_fd st fd)
| pk_callback st i hup st' :
    pipeCloseCb st i hup = Some st' -> pk_step st st'.

Inductive pk_reachable : poker -> Prop :=
| pk_start now : pk_reachable (mk_poker now 0 ∅ [] [] ∅ [] [] ∅ [] [])
| pk_next st st' : pk_reachable st -> pk_step st st' -> pk_reachable st'.

(** ** Invariant *)

Definition is_timeout (e : queued_event) : Prop := match e with TimeoutEvent _ => True | _ => False end.
Definition is_node (st : poker) (fd : Z) : Prop := exists path, pk_fds st !! fd = Some (FdNode path).

(** The message queue and the event table agree. *)
Record queue_inv (st : poker) : Prop := {
  qi_key : 0 <= mKey st;
  qi_range due k : (due, k) ∈ pk_msgs st -> 0 <= k < mKey st;
  qi_nodup : NoDup (snd <$> pk_msgs st);
  qi_event due k : (due, k) ∈ pk_msgs st -> is_Some (mQueuedEvents st !! k);
  qi_msg k e : mQueuedEvents st !! k = Some e -> exists due, (due, k) ∈ pk_msgs st;
}.

(** Every descriptor of a node is waiting for its timeout, watched, or lost. *)
Record fd_inv (st : poker) : Prop := {
  fi_timeout k fd : mQueuedEvents st !! k = Some (TimeoutEvent fd) ->
    exists d, pk_deadline st !! fd = Some d /\ (d, k) ∈ pk_msgs st;
  fi_uniq k k' fd : mQueuedEvents st !! k = Some (TimeoutEvent fd) ->
    mQueuedEvents st !! k' = Some (TimeoutEvent fd) -> k = k';
  fi_deadline fd d : pk_deadline st !! fd = Some d ->
    is_node st fd /\ exists k, mQueuedEvents st !! k = Some (TimeoutEvent fd);
  fi_cb s fd : (s, fd) ∈ pk_cbs st ->
    pk_fds st !! s = Some FdServer /\ is_node st fd /\ pk_deadline st !! fd = None;
  fi_cb_nodup : NoDup (fst <$> pk_cbs st) /\ NoDup (snd <$> pk_cbs st);
  fi_account fd : is_node st fd ->
    is_Some (pk_deadline st !! fd) \/ fd ∈ (snd <$> pk_cbs st) \/ fd ∈ pk_orphans st;
  fi_released fd d t : (fd, d, t) ∈ pk_released st -> d <= t;
}.

Record pk_inv (st : poker) : Prop := { pi_queue : queue_inv st; pi_fd : fd_inv st }.

Lemma key_id k : 0 <= k <= INT_MAX -> wrap_u32 k = k.
Proof. unfold INT_MAX; intros. apply wrap_u32_id. lia. Qed.

Lemma fresh_key st : queue_inv st -> mQueuedEvents st !! mKey st = None.
Proof.
  intros [_ Hr _ _ Hm]. destruct (_ !! _) eqn:He; [|done].
  apply Hm in He as [due He]. apply Hr in He. lia.
Qed.

(** Pushing an event keeps queue and messages in step. *)
Lemma push_queue_inv st st' due ev :
  queue_inv st -> mKey st' = mKey st + 1 ->
  mQueuedEvents st' = <[mKey st := ev]> (mQueuedEvents st) ->
  pk_msgs st' = pk_msgs st ++ [(due, mKey st)] -> queue_inv st'.
Proof.
  intros Hq Hk He Hm. pose proof (fresh_key st Hq) as Hf. destruct Hq as [H0 Hr Hn Hev Hms].
  constructor; rewrite ?Hk, ?He, ?Hm.
  - lia.
  - intros d k [Hin|Hin]%elem_of_app; [apply Hr in Hin; lia|].
    apply list_elem_of_singleton in Hin. simplify_eq. lia.
  - rewrite fmap_app. apply NoDup_app. split_and!; [done| |apply NoDup_singleton].
    intros k Hin ->%list_elem_of_singleton. simpl in *.
    apply list_elem_of_fmap in Hin as ([d k] & Heq & Hin). apply Hr in Hin. simpl in *. lia.
  - intros d k [Hin|Hin]%elem_of_app; rewrite lookup_insert; case_decide; eauto.
    apply list_elem_of_singleton in Hin. by simplify_eq.
  - intros k e. rewrite lookup_insert. case_decide; [intros _; exists due; set_solver|].
    intros [d Hd]%Hms. exists d. set_solver.
Qed.

Lemma push_inv st ev delay :
  pk_inv st -> mKey st <= INT_MAX -> ~ is_timeout ev -> pk_inv (sendEventDelayed st delay ev).
Proof.
  intros [Hq Hf] Hb Hnt. pose proof (qi_key _ Hq). pose proof (fresh_key st Hq) as Hfr.
  split.
  - eapply push_queue_inv; [done|done| |done]. simpl. by rewrite key_id by lia.
  - destruct Hf. constructor; simpl; rewrite ?key_id by lia; try done.
    + intros k fd. rewrite lookup_insert. case_decide; [intros; simplify_eq; done|].
      intros (d & Hd & Hin)%fi_timeout0. exists d. set_solver.
    + intros k k' fd. rewrite !lookup_insert.
      repeat case_decide; intros; simplify_eq; try done. by eapply fi_uniq0.
    + intros fd d Hd. apply fi_deadline0 in Hd as [? [k Hk]]. split; [done|].
      exists k. rewrite lookup_insert_ne; [done|congruence].
Qed.

(** Removing a delivered message and its event. *)
Definition popped (st : poker) (i : nat) (k : Z) : poker :=
  mk_poker (pk_now st) (mKey st) (delete k (mQueuedEvents st)) (delete i (pk_msgs st)) (pk_cbs st)
    (pk_fds st) (pk_replies st) (pk_written st) (pk_deadline st) (pk_released st) (pk_orphans st).

Lemma popped_msgs st i due k d k' :
  queue_inv st -> pk_msgs st !! i = Some (due, k) ->
  (d, k') ∈ delete i (pk_msgs st) <-> (d, k') ∈ pk_msgs st /\ k' <> k.
Proof.
  intros Hq Hi. pose proof (qi_nodup _ Hq) as Hn.
  destruct (delete_split _ _ _ Hi) as (l1 & l2 & Hl & ->). rewrite Hl in *.
  rewrite fmap_app, fmap_cons in Hn. apply NoDup_app in Hn as (_ & Hd & Hn).
  apply NoDup_cons in Hn as [Hn _]. simpl in *.
  rewrite !elem_of_app, elem_of_cons. split.
  - intros [Hin|Hin].
    + split; [by left|]. intros ->. apply (Hd k); [|by left].
      apply list_elem_of_fmap. by exists (d, k).
    + split; [by right; right|]. intros ->. apply Hn. apply list_elem_of_fmap. by exists (d, k).
  - intros [[?|[?|?]] ?]; simplify_eq; auto.
Qed.

Lemma popped_queue_inv st i due k :
  queue_inv st -> pk_msgs st !! i = Some (due, k) -> queue_inv (popped st i k).
Proof.
  intros Hq Hi. pose proof (popped_msgs st i due k) as Hp.
  destruct Hq as [H0 Hr Hn Hev Hms]. constructor; simpl; [done| | | |].
  - intros d k' Hin. apply Hp in Hin as [? ?]; [by eapply Hr|done|done].
  - destruct (delete_split _ _ _ Hi) as (l1 & l2 & Hl & ->). rewrite Hl in Hn.
    rewrite fmap_app, fmap_cons in Hn. rewrite fmap_app. simpl in Hn.
    apply NoDup_app in Hn as (Hn1 & Hd & Hn2). apply NoDup_cons in Hn2 as [_ Hn2].
    apply NoDup_app. split_and!; [done| |done]. intros x Hx Hx2. apply (Hd x Hx). by right.
  - intros d k' Hin. apply Hp in Hin as [? ?]; [|done|done].
    rewrite lookup_delete_ne by done. by eapply Hev.
  - intros k' e. rewrite lookup_delete. case_decide; [done|]. intros He.
    destruct (Hms _ _ He) as [d Hd]. exists d. apply Hp; done || (split; done).
Qed.

Lemma popped_inv st i due k e :
  pk_inv st -> pk_msgs st !! i = Some (due, k) ->
  mQueuedEvents st !! k = Some e -> ~ is_timeout e -> pk_inv (popped st i k).
Proof.
  intros [Hq Hf] Hi He Hnt. split; [by eapply popped_queue_inv|].
  pose proof (popped_msgs st i due k) as Hp.
  destruct Hf. constructor; simpl; try done.
  - intros k' fd. rewrite lookup_delete. case_decide; [done|].
    intros (d & Hd & Hin)%fi_timeout0. exists d. split; [done|]. by apply Hp.
  - intros k1 k2 fd. rewrite !lookup_delete. repeat case_decide; try done. apply fi_uniq0.
  - intros fd d Hd. apply fi_deadline0 in Hd as [? [k' Hk]]. split; [done|].
    exists k'. rewrite lookup_delete_ne; [done|]. intros ->.
    rewrite He in Hk. simplify_eq. by apply Hnt.
Qed.

(** A descriptor the kernel just handed out is unknown to the invariant. *)
Lemma fresh_fd st a :
  pk_inv st -> pk_fds st !! a = None ->
  pk_deadline st !! a = None /\ (forall k, mQueuedEvents st !! k <> Some (TimeoutEvent a)) /\
  (forall s fd, (s, fd) ∈ pk_cbs st -> s <> a /\ fd <> a).
Proof.
  intros [_ Hf] Ha.
  assert (Hd : pk_deadline st !! a = None).
  { destruct (pk_deadline st !! a) eqn:Hd; [|done].
    apply (fi_deadline _ Hf) in Hd as [[p Hp] _]. congruence. }
  split_and!; [done| |].
  - intros k (d & Hd' & _)%(fi_timeout _ Hf). congruence.
  - intros s fd (Hs & [p Hp] & _)%(fi_cb _ Hf). split; congruence.
Qed.

Lemma openPmQosTimed_inv st filename req timeout ans :
  pk_inv st -> mKey st <= INT_MAX -> an_open ans < 0 \/ pk_fds st !! an_open ans = None ->
  pk_inv (openPmQosTimed st filename req timeout ans).
Proof.
  intros Hinv Hb Ha. unfold openPmQosTimed, openPmQosNode. set (a := an_open ans) in *.
  destruct (a <? 0) eqn:E; breflect; [done|]. rewrite (proj2 (Z.ltb_ge a 0)) by lia.
  destruct Ha as [?|Ha]; [lia|].
  destruct (fresh_fd st a Hinv Ha) as (Hd & Hnt & Hcb). destruct Hinv as [Hq Hf].
  pose proof (qi_key _ Hq). pose proof (fresh_key st Hq) as Hfk. split.
  - eapply push_queue_inv; [done|done| |done]. simpl. by rewrite key_id by lia.
  - destruct Hf. constructor; simpl; rewrite ?key_id by lia; try done.
    + intros k fd. rewrite lookup_insert. case_decide.
      * intros [= <-]. rewrite lookup_insert_eq. subst k. eexists; split; [done|]. set_solver.
      * intros Hk. destruct (fi_timeout0 _ _ Hk) as (d & Hd' & Hin). exists d.
        rewrite lookup_insert_ne by (intros ->; by apply (Hnt k)). split; [done|]. set_solver.
    + intros k k' fd. rewrite !lookup_insert.
      repeat case_decide; intros; simplify_eq; try done; [by destruct (Hnt k')|by destruct (Hnt k)|].
      by eapply fi_uniq0.
    + intros fd d. unfold is_node; simpl. rewrite !lookup_insert. case_decide.
      * subst fd. intros _. split; [by eexists|]. exists (mKey st). by rewrite lookup_insert_eq.
      * intros Hfd. apply fi_deadline0 in Hfd as [? [k Hk]]. split; [done|].
        exists k. rewrite lookup_insert_ne; [done|congruence].
    + intros s fd Hin. destruct (Hcb s fd Hin). unfold is_node; simpl.
      rewrite !lookup_insert_ne by congruence. by apply fi_cb0.
    + intros fd. unfold is_node; simpl. rewrite !lookup_insert. case_decide; [by eauto|].
      intros Hn. by apply fi_account0.
Qed.

(** Replies and writes are irrelevant to the invariant. *)
Lemma history_inv st replies written :
  pk_inv st ->
  pk_inv (mk_poker (pk_now st) (mKey st) (mQueuedEvents st) (pk_msgs st) (pk_cbs st) (pk_fds st)
            replies written (pk_deadline st) (pk_released st) (pk_orphans st)).
Proof. intros [[] []]. split; constructor; done. Qed.

(** A new watched (or lost) node with its pipe. *)
Lemma handle_inv st a c s filename written added :
  pk_inv st -> pk_fds st !! a = None -> pk_fds st !! c = None -> pk_fds st !! s = None ->
  c <> s -> c <> a -> s <> a ->
  pk_inv (mk_poker (pk_now st) (mKey st) (mQueuedEvents st) (pk_msgs st)
    (if added : bool then pk_cbs st ++ [(s, a)] else pk_cbs st)
    (<[c := FdClient]> (<[s := FdServer]> (<[a := FdNode filename]> (pk_fds st))))
    (pk_replies st) written (pk_deadline st) (pk_released st)
    (if added then pk_orphans st else pk_orphans st ++ [a])).
Proof.
  intros Hinv Ha Hc Hs Hcs Hca Hsa.
  destruct (fresh_fd st a Hinv Ha) as (Hda & _ & Hcba).
  destruct (fresh_fd st c Hinv Hc) as (Hdc & _ & Hcbc).
  destruct (fresh_fd st s Hinv Hs) as (Hds & _ & Hcbs).
  destruct Hinv as [[] []]. split; constructor; simpl; try done.
  - intros fd d Hd. unfold is_node; simpl.
    rewrite !lookup_insert_ne by (intros ->; congruence). by eapply fi_deadline0.
  - intros s' fd Hin. unfold is_node; simpl.
    assert ((s', fd) = (s, a) \/ (s', fd) ∈ pk_cbs st) as [Heq|Hold].
    { destruct added; [|by right]. apply elem_of_app in Hin as [?|Hin%list_elem_of_singleton]; auto. }
    + simplify_eq. rewrite (lookup_insert_ne _ c s), lookup_insert_eq by done.
      rewrite (lookup_insert_ne _ c a), (lookup_insert_ne _ s a), lookup_insert_eq by done.
      eauto.
    + destruct (Hcba _ _ Hold), (Hcbc _ _ Hold), (Hcbs _ _ Hold).
      rewrite !lookup_insert_ne by congruence. by apply fi_cb0.
  - destruct fi_cb_nodup0 as [N1 N2]. destruct added; [|done].
    rewrite !fmap_app. split; apply NoDup_app; (split_and!; [done| |apply NoDup_singleton]);
      intros x Hin ->%list_elem_of_singleton; apply list_elem_of_fmap in Hin as ([s' fd'] & Heq & Hin);
      simpl in Heq; subst.
    + by destruct (Hcbs _ _ Hin).
    + by destruct (Hcba _ _ Hin).
  - intros fd. unfold is_node; simpl. rewrite !lookup_insert. repeat case_decide; intros [p Hp]; simplify_eq.
    + right. destruct added; [left; rewrite fmap_app | right]; set_solver.
    + destruct (fi_account0 fd) as [?|[?|?]]; [by eexists|auto|right|right];
        destruct added; rewrite ?fmap_app; set_solver.
Qed.

Lemma createHandleForPmQosRequest_inv st filename req ans :
  pk_inv st -> answers_ok st ans ->
  pk_inv (createHandleForPmQosRequest st filename req ans).1.
Proof.
  intros Hinv [Ha Hp]. unfold createHandleForPmQosRequest, openPmQosNode.
  set (a := an_open ans) in *.
  destruct (a <? 0) eqn:E; breflect; [done|]. rewrite (proj2 (Z.ltb_ge a 0)) by lia.
  destruct Ha as [?|Ha]; [lia|]. unfold createHandleForFd.
  destruct (an_pipe ans) as [[c s]|].
  - destruct Hp as (? & ? & ? & ? & ? & ? & ?). unfold listenForHandleToCloseFd; simpl.
    by apply handle_inv.
  - simpl. unfold close_fd, set_fds; simpl. rewrite delete_insert_id by done.
    by apply history_inv.
Qed.

(** Delivering a timeout closes exactly its descriptor. *)
Lemma timeout_inv st i due k fd :
  pk_inv st -> pk_msgs st !! i = Some (due, k) -> due <= pk_now st ->
  mQueuedEvents st !! k = Some (TimeoutEvent fd) ->
  pk_inv (timeoutRequest (popped st i k) fd).
Proof.
  intros [Hq Hf] Hi Hdue He. pose proof (popped_queue_inv st i due k Hq Hi) as Hq'.
  pose proof (popped_msgs st i due k) as Hp.
  split; [by destruct Hq'; constructor|]. destruct Hf.
  destruct (fi_timeout0 _ _ He) as (d & Hd & Hin).
  assert (d = due) as ->.
  { assert (Hin' : (due, k) ∈ pk_msgs st) by by eapply list_elem_of_lookup_2.
    pose proof (qi_nodup _ Hq) as Hn. apply list_elem_of_lookup in Hin as [j Hj].
    assert (i = j) as ->; [|congruence].
    eapply (NoDup_lookup _ _ _ k Hn); rewrite list_lookup_fmap; [by rewrite Hi|by rewrite Hj]. }
  constructor; simpl; rewrite ?Hd.
  - intros k' fd'. rewrite lookup_delete. case_decide; [done|]. intros Hk'.
    destruct (fi_timeout0 _ _ Hk') as (d & Hd' & Hin').
    rewrite lookup_delete_ne by (intros ->; by assert (k' = k) by by eapply fi_uniq0).
    exists d. split; [done|]. by apply Hp.
  - intros k1 k2 fd'. rewrite !lookup_delete. repeat case_decide; try done. apply fi_uniq0.
  - intros fd' d. unfold is_node; simpl. rewrite !lookup_delete. case_decide; [done|].
    intros Hd'. destruct (fi_deadline0 _ _ Hd') as [? [k' Hk']]. split; [done|].
    exists k'. rewrite lookup_delete_ne; [done|]. intros ->. rewrite He in Hk'. congruence.
  - intros s fd' Hin'. destruct (fi_cb0 _ _ Hin') as (Hs & [p Hp'] & Hn). unfold is_node; simpl.
    destruct (fi_deadline0 _ _ Hd) as [[p' Hnode] _].
    rewrite !lookup_delete_ne by congruence. eauto.
  - done.
  - intros fd'. unfold is_node; simpl. rewrite !lookup_delete. case_decide; [by intros []|]. apply fi_account0.
  - intros fd' d t. intros [Hin'|Hin']%elem_of_app; [by eapply fi_released0|].
    simpl in Hin'. apply list_elem_of_singleton in Hin'. by simplify_eq.
Qed.

Lemma hup_inv st i handle fd :
  pk_inv st -> pk_cbs st !! i = Some (handle, fd) ->
  pk_inv (mk_poker (pk_now st) (mKey st) (mQueuedEvents st) (pk_msgs st) (delete i (pk_cbs st))
            (delete fd (delete handle (pk_fds st))) (pk_replies st) (pk_written st)
            (pk_deadline st) (pk_released st) (pk_orphans st)).
Proof.
  intros [[] Hf] Hi. pose proof Hf as [].
  assert (Hin : (handle, fd) ∈ pk_cbs st) by by eapply list_elem_of_lookup_2.
  destruct (fi_cb0 _ _ Hin) as (Hs & [p Hn] & Hd).
  destruct (delete_split _ _ _ Hi) as (l1 & l2 & Hl & Hdel).
  destruct fi_cb_nodup0 as [N1 N2].
  rewrite Hl, fmap_app, fmap_cons in N1, N2. simpl in *.
  apply NoDup_app in N1 as (N1a & N1b & N1c), N2 as (N2a & N2b & N2c).
  apply NoDup_cons in N1c as [N1c N1d], N2c as [N2c N2d].
  assert (Hother : forall s' f', (s', f') ∈ l1 ++ l2 ->
            (s', f') ∈ pk_cbs st /\ s' <> handle /\ f' <> fd).
  { intros s' f' Ho. rewrite Hl. apply elem_of_app in Ho as [Ho|Ho].
    - pose proof (list_elem_of_fmap_2 fst _ _ Ho) as H1.
      pose proof (list_elem_of_fmap_2 snd _ _ Ho) as H2. simpl in *.
      split_and!; [apply elem_of_app; by left| |]; intros ->;
        [apply (N1b handle)|apply (N2b fd)]; auto; by left.
    - pose proof (list_elem_of_fmap_2 fst _ _ Ho) as H1.
      pose proof (list_elem_of_fmap_2 snd _ _ Ho) as H2. simpl in *.
      split_and!; [apply elem_of_app; right; by right| |]; by intros ->. }
  split; constructor; simpl; rewrite ?Hdel; try done.
  - intros fd' d Hd'. destruct (fi_deadline0 _ _ Hd') as [[p' Hp'] ?]. split; [|done].
    exists p'; simpl. rewrite !lookup_delete_ne by congruence. done.
  - intros s' f' Ho. destruct (Hother _ _ Ho) as (Hin' & Hsne & Hfne).
    destruct (fi_cb0 _ _ Hin') as (Hs' & [p' Hn'] & Hd'). unfold is_node; simpl.
    rewrite !lookup_delete_ne by congruence. eauto.
  - rewrite !fmap_app. split; apply NoDup_app; split_and!; try done; intros x Hx Hx2;
      [apply (N1b x Hx)|apply (N2b x Hx)]; by right.
  - intros fd'. unfold is_node; simpl. rewrite !lookup_delete.
    repeat case_decide; try by intros [].
    intros [p' Hp']. destruct (fi_account0 fd') as [?|[Hx|?]]; [by eexists|auto| |auto].
    right; left. rewrite Hl, fmap_app, fmap_cons in Hx. rewrite fmap_app.
    rewrite elem_of_app, elem_of_cons in Hx. rewrite elem_of_app. simpl in Hx. naive_solver.
Qed.

Lemma client_close_inv st fd :
  pk_inv st -> pk_fds st !! fd = Some FdClient -> pk_inv (close_fd st fd).
Proof.
  intros [[] []] Hc. split; constructor; simpl; try done.
  - intros fd' d Hd. destruct (fi_deadline0 _ _ Hd) as [[p Hp] ?]. split; [|done].
    exists p; simpl. rewrite lookup_delete_ne by congruence. done.
  - intros s f Hin. destruct (fi_cb0 _ _ Hin) as (Hs & [p Hp] & ?). unfold is_node; simpl.
    rewrite !lookup_delete_ne by congruence. eauto.
  - intros fd'. unfold is_node; simpl. rewrite lookup_delete. case_decide; [by intros []|].
    apply fi_account0.
Qed.

Lemma openPmQosNode_key st f r o : mKey (openPmQosNode st f r o).1 = mKey st.
Proof. unfold openPmQosNode. by case_test. Qed.

Lemma run_event_key st e ans : mKey st <= mKey (run_event st e ans).
Proof.
  destruct e; simpl; [|unfold createHandleForPmQosRequest|lia].
  - unfold openPmQosTimed, openPmQosNode. destruct (an_open ans <? 0); simpl; [lia|].
    case_tests; simpl; lia.
  - pose proof (openPmQosNode_key st node req (an_open ans)) as Hk.
    destruct (openPmQosNode _ _ _ _) as [st1 fd]. simpl in *.
    destruct (fd <? 0); simpl; [lia|]. unfold createHandleForFd.
    destruct (an_pipe ans) as [[c s]|]; simpl; lia.
Qed.

Lemma handleMessage_key st what ans st' : handleMessage st what ans = Some st' -> mKey st <= mKey st'.
Proof.
  unfold handleMessage, removeEventByKey. intros Hs.
  destruct (mQueuedEvents st !! wrap_u32 what) as [e|]; simplify_eq/=.
  match goal with |- _ <= mKey (run_event ?s ?e ?a) => pose proof (run_event_key s e a) end. done.
Qed.

Lemma pk_step_key st st' : pk_step st st' -> mKey st <= mKey st'.
Proof.
  intros Hs. destruct Hs as [| | |st i due what ans st' Hi _ _ Hd| |st i hup st' Hc]; simpl; try lia.
  - unfold deliver_message in Hd. rewrite Hi in Hd. simpl in Hd. by apply handleMessage_key in Hd.
  - unfold pipeCloseCb in Hc. destruct (pk_cbs st !! i) as [[h f]|]; simplify_eq/=.
    destruct hup; simplify_eq/=; lia.
Qed.

Lemma pk_step_inv st st' : pk_inv st -> mKey st <= INT_MAX -> pk_step st st' -> pk_inv st'.
Proof.
  intros Hinv Hb Hs.
  destruct Hs as [st now Hn|st f r t|st f r rp|st i due what ans st' Hi Hdue Hans Hd|st fd Hc
    |st i hup st' Hc].
  - destruct Hinv as [[] []]. split; constructor; done.
  - apply push_inv; [done|done|intros []].
  - apply push_inv; [done|done|intros []].
  - unfold deliver_message in Hd. rewrite Hi in Hd. simpl in Hd.
    assert (Hin : (due, what) ∈ pk_msgs st) by by eapply list_elem_of_lookup_2.
    pose proof (qi_range _ (pi_queue _ Hinv) _ _ Hin).
    unfold handleMessage, removeEventByKey in Hd. simpl in Hd. rewrite key_id in Hd by lia.
    destruct (mQueuedEvents st !! what) as [e|] eqn:He; simplify_eq/=.
    fold (popped st i what).
    assert (Hp : ~ is_timeout e -> pk_inv (popped st i what)).
    { intros. by apply popped_inv with due e. }
    destruct e as [f r t|f r rp|fd]; simpl.
    + apply openPmQosTimed_inv; [auto|done|]. by destruct Hans.
    + specialize (Hp (fun x => x)).
      pose proof (createHandleForPmQosRequest_inv _ f r ans Hp Hans) as Hh.
      destruct (createHandleForPmQosRequest _ _ _ _) as [st1 out]. by apply history_inv.
    + by apply timeout_inv with due.
  - by apply client_close_inv.
  - unfold pipeCloseCb in Hc. destruct (pk_cbs st !! i) as [[h f]|] eqn:Hi; simplify_eq/=.
    destruct hup; simplify_eq/=; [|done]. by apply hup_inv.
Qed.

Lemma pk_reachable_inv st : pk_reachable st -> mKey st <= INT_MAX -> pk_inv st.
Proof.
  intros Hr. induction Hr as [now|st st' Hr IH Hs]; intros Hb.
  - split; constructor; unfold is_node; simpl; try lia; try (split; apply NoDup_nil_2);
      try apply NoDup_nil_2; intros *; rewrite ?lookup_empty; try done;
      try (by intros []); intros Hx; by apply elem_of_nil in Hx.
  - pose proof (pk_step_key _ _ Hs). apply pk_step_inv with st; [apply IH; lia|lia|done].
Qed.

(** ** Properties *)

(** As long as the [int] key counter has not overflowed, the looper never
    asks for an event that is not queued: handling any pending message succeeds,
    consumes that message and that event and nothing else, so every event runs
    exactly once. *)
Theorem poker_message_has_event st i due what ans
    (Hr : pk_reachable st) (Hb : mKey st <= INT_MAX) (Hi : pk_msgs st !! i = Some (due, what)) :
  exists e, mQueuedEvents st !! what = Some e /\
    deliver_message st i ans = Some (run_event (popped st i what) e ans) /\
    queue_inv (popped st i what) /\
    (forall d k, (d, k) ∈ pk_msgs (popped st i what) <-> (d, k) ∈ pk_msgs st /\ k <> what).
Proof.
  destruct (pk_reachable_inv st Hr Hb) as [Hq _].
  assert (Hin : (due, what) ∈ pk_msgs st) by by eapply list_elem_of_lookup_2.
  pose proof (qi_range _ Hq _ _ Hin). destruct (qi_event _ Hq _ _ Hin) as [e He].
  exists e. split_and!; [done| |by eapply popped_queue_inv|].
  - unfold deliver_message. rewrite Hi. simpl. unfold handleMessage, removeEventByKey; simpl.
    rewrite key_id by lia. by rewrite He.
  - intros d k. by apply (popped_msgs st i due).
Qed.

(** Timed requests: the node is never closed before its deadline, a node
    whose deadline is pending is still open, and once the looper has handled
    every message that is due, no timed constraint outlives its deadline. *)
Theorem poker_timed_release st (Hr : pk_reachable st) (Hb : mKey st <= INT_MAX) :
  (forall fd d t, (fd, d, t) ∈ pk_released st -> d <= t) /\
  (forall fd d, pk_deadline st !! fd = Some d ->
     is_node st fd /\ exists k, (d, k) ∈ pk_msgs st /\ mQueuedEvents st !! k = Some (TimeoutEvent fd)) /\
  (Forall (fun m => pk_now st < m.1) (pk_msgs st) ->
     forall fd d, pk_deadline st !! fd = Some d -> pk_now st < d).
Proof.
  destruct (pk_reachable_inv st Hr Hb) as [Hq Hf].
  assert (H2 : forall fd d, pk_deadline st !! fd = Some d ->
     is_node st fd /\ exists k, (d, k) ∈ pk_msgs st /\ mQueuedEvents st !! k = Some (TimeoutEvent fd)).
  { intros fd d Hd. destruct (fi_deadline _ Hf _ _ Hd) as [Hn [k Hk]]. split; [done|].
    destruct (fi_timeout _ Hf _ _ Hk) as (d' & Hd' & Hin). exists k. split; [congruence|done]. }
  split_and!; [apply Hf|done|]. intros Hall fd d Hd. destruct (H2 _ _ Hd) as [_ (k & Hin & _)].
  rewrite Forall_forall in Hall. by apply (Hall (d, k)).
Qed.

(** C19. No node leaks, up to failures of [addFd]: every open PM QoS node waits
    for its timeout or is watched through a pipe whose server end is open;
    a hang-up on that pipe closes both. *)
Theorem poker_no_leak st (Hr : pk_reachable st) (Hb : mKey st <= INT_MAX)
    (Ho : pk_orphans st = []) :
  forall fd, is_node st fd ->
    (exists d k, (d, k) ∈ pk_msgs st /\ mQueuedEvents st !! k = Some (TimeoutEvent fd)) \/
    (exists i s st', pk_cbs st !! i = Some (s, fd) /\ pk_fds st !! s = Some FdServer /\
       pipeCloseCb st i true = Some st' /\ pk_fds st' = delete fd (delete s (pk_fds st))).
Proof.
  destruct (pk_reachable_inv st Hr Hb) as [Hq Hf]. intros fd Hn.
  destruct (fi_account _ Hf fd Hn) as [[d Hd]|[Hc|Hx]]; [left|right|].
  - destruct (fi_deadline _ Hf _ _ Hd) as [_ [k Hk]].
    destruct (fi_timeout _ Hf _ _ Hk) as (d' & _ & Hin). eauto.
  - apply list_elem_of_fmap in Hc as ([s fd'] & -> & Hc).
    apply list_elem_of_lookup in Hc as [i Hi]. exists i, s. eexists. split_and!; [done| | |].
    + apply (fi_cb _ Hf s fd'). by eapply list_elem_of_lookup_2.
    + unfold pipeCloseCb. by rewrite Hi.
    + done.
  - rewrite Ho in Hx. by apply elem_of_nil in Hx.
Qed.

(** A failed [addFd] is not noticed: the node stays open, unwatched, although the
    client got a handle. *)
Lemma failed_listen_leaks st fd c s :
  let ans := mk_answers fd (Some (c, s)) false in
  (createHandleForFd st fd ans).2 = c /\
  pk_cbs (createHandleForFd st fd ans).1 = pk_cbs st /\
  pk_orphans (createHandleForFd st fd ans).1 = pk_orphans st ++ [fd].
Proof. done. Qed.

(** ** A concrete run: a timed boost, a watched handle, and the boost's timeout *)

Definition sample_req : pm_request := ReqConstraint 35 (-1) INT_MAX.
Definition prun0 : poker := mk_poker 0 0 ∅ [] [] ∅ [] [] ∅ [] [].
Definition prun1 : poker := requestPmQosTimed prun0 "/dev/constraint_cpu_freq" sample_req 1500.
Definition prun2 : poker := default prun1 (deliver_message prun1 0 (mk_answers 5 None true)).
Definition prun3 : poker := createPmQosHandle prun2 "/dev/cpu_freq_min" (ReqVal 700) 0.
Definition prun4 : poker := default prun3 (deliver_message prun3 1 (mk_answers 6 (Some (7, 8)) true)).
Definition prun5 : poker := tick prun4 1600.
Definition prun6 : poker := default prun5 (deliver_message prun5 0 (mk_answers (-1) None true)).

Example prun6_state :
  pk_released prun6 = [(5, 1500, 1600)] /\ pk_cbs prun6 = [(8, 6)] /\ pk_replies prun6 = [(0%nat, 7)] /\
  pk_written prun6 = [(5, WStr "-1 2147483647 35 0"); (6, WInt 700)].
Proof. vm_compute. done. Qed.

Lemma prun4_reachable : pk_reachable prun4.
Proof.
  apply pk_next with prun3.
  2: { eapply (pk_deliver prun3 1 0 2 (mk_answers 6 (Some (7, 8)) true)); [done|done| |done].
       split; [by right|]. vm_compute. done. }
  apply pk_next with prun2; [|by apply pk_create].
  apply pk_next with prun1.
  2: { eapply (pk_deliver prun1 0 0 0 (mk_answers 5 None true)); [done|done| |done].
       split; [by right|done]. }
  apply pk_next with prun0; [apply pk_start | by apply pk_request].
Qed.

Lemma prun6_reachable : pk_reachable prun6.
Proof.
  apply pk_next with prun5.
  2: { eapply (pk_deliver prun5 0 1500 1 (mk_answers (-1) None true)); [done|done| |done].
       split; [by left|done]. }
  apply pk_next with prun4; [apply prun4_reachable | by apply pk_tick].
Qed.

Lemma poker_message_has_event_witness :
  exists e, mQueuedEvents prun4 !! 1 = Some e /\
    deliver_message prun4 0 (mk_answers (-1) None true) =
      Some (run_event (popped prun4 0 1) e (mk_answers (-1) None true)) /\
    queue_inv (popped prun4 0 1) /\
    (forall d k, (d, k) ∈ pk_msgs (popped prun4 0 1) <-> (d, k) ∈ pk_msgs prun4 /\ k <> 1).
Proof.
  apply (poker_message_has_event prun4 0 1500 1 (mk_answers (-1) None true) prun4_reachable).
  - vm_compute. discriminate.
  - reflexivity.
Defined.

Lemma poker_timed_release_witness :
  (forall fd d t, (fd, d, t) ∈ pk_released prun4 -> d <= t) /\
  (forall fd d, pk_deadline prun4 !! fd = Some d ->
     is_node prun4 fd /\
     exists k, (d, k) ∈ pk_msgs prun4 /\ mQueuedEvents prun4 !! k = Some (TimeoutEvent fd)) /\
  (Forall (fun m => pk_now prun4 < m.1) (pk_msgs prun4) ->
     forall fd d, pk_deadline prun4 !! fd = Some d -> pk_now prun4 < d).
Proof.
  apply (poker_timed_release prun4 prun4_reachable). vm_compute. discriminate.
Defined.

Lemma poker_no_leak_witness :
  (exists d k, (d, k) ∈ pk_msgs prun6 /\ mQueuedEvents prun6 !! k = Some (TimeoutEvent 6)) \/
  (exists i s st', pk_cbs prun6 !! i = Some (s, 6) /\ pk_fds prun6 !! s = Some FdServer /\
     pipeCloseCb prun6 i true = Some st' /\ pk_fds st' = delete 6 (delete s (pk_fds prun6))).
Proof.
  apply (poker_no_leak prun6 prun6_reachable); [vm_compute; discriminate | reflexivity |].
  by exists "/dev/cpu_freq_min".
Defined.
