(* ===== verification/PowerHal.v ===== *)
(** * The common NVIDIA power HAL

    Models [hardware/nvidia/power/nvpowerhal.cpp] and the helpers of
    [powerhal_utils.cpp] it calls, in the configuration built for this device
    ([TARGET_TEGRA_VERSION] t124: neither [POWER_MODE_SET_INTERACTIVE] nor
    [POWER_MODE_LEGACY]).  [hal] is [struct powerhal_info]; system calls are
    recorded in a log and answered by [env], which may look at the whole log. *)

From S2P Require Import Prelude.
From S2P Require Import CString.
From S2P Require Import PmQos.
From Stdlib Require Import Ascii.

(** ** State *)

(** The descriptors of [pInfo->fds] and [pInfo->camera_power]. *)
Inductive fd_name :=
| app_min_freq | app_max_freq | app_max_online_cpus | app_min_online_cpus
| app_max_gpu | app_min_gpu | vsync_min_cpu
| fd_gpu | fd_cpu_freq_min | fd_cpu_freq_max | fd_min_online_cpus | fd_max_online_cpus.

#[export] Instance fd_name_eq_dec : EqDecision fd_name.
Proof. solve_decision. Defined.

Record camera_cap_t := mk_camera_cap {
  cc_min_online_cpus : Z; cc_max_online_cpus : Z; cc_freq : Z; cc_minFreq : Z;
  minCpuHint : Z; maxCpuHint : Z; minGpuHint : Z; maxGpuHint : Z; fpsHint : Z;
}.

Record freq_info := mk_freq {
  available_frequencies : list Z;
  num_available_frequencies : Z;
  lp_max_frequency : Z;
  interaction_boost_frequency : Z;
  animation_boost_frequency : Z;
  cpu0_max_frequency : Z;
}.

(** [wait_cond_word] is the part of [wait_cond] that follows [hint_interval] in
    the structure. *)
Record hint_info := mk_hints {
  hint_time : list Z;
  hint_interval : list Z;
  wait_cond_word : Z;
}.

Record config := mk_config {
  input_cnt : Z;
  input_devs : option (list (Z * bytes));
  def_min_freq : Z; def_max_freq : Z; def_core_cap : Z; def_gpu_cap : Z;
  def_fan_cap : Z; def_power_cap : Z;
  features_fan : bool;
  ftrace_enable : bool;
  switch_cpu_emc_limit_enabled : bool;
  NvVaSendThroughputHints : bool;
  NvCancelThroughputHints : bool;
}.

Record camera_info := mk_camera {
  target_fps : Z;
  cam_cap : list camera_cap_t;
  usecase_index : Z;
}.

Record hal := mk_hal {
  h_fds : fd_name -> Z;
  h_freq : freq_info;
  h_hints : hint_info;
  h_config : config;
  h_camera : camera_info;
}.

(** ** Effects *)

Inductive effect :=
| EOpen (path : string) (fd : Z)
| EWrite (fd : Z) (d : wdata)
| EClose (fd : Z)
| ETimed (path : string) (r : pm_request) (timeout : Z)
| ESysfs (path : string) (value : string)
| EProp (key : string) (value : string)
| EHint (usecase hint value timeout : Z)
| ECancel (usecase tag : Z).

(** The answers of the system: [open(path, O_RDWR)] given the log so far, the
    buffer text [sysfs_read] produces (file contents or error text), readability,
    [access], properties and the result of sending a hint. *)
Record env := mk_env {
  kopen : list effect -> string -> Z;
  sysfs_text : string -> bytes;
  readable : string -> bool;
  accessible : string -> bool;
  prop : string -> option bytes;
}.

Definition M (A : Type) : Type := hal -> list effect -> A * (hal * list effect).

#[export] Instance M_ret : MRet M := fun A a h l => (a, (h, l)).
#[export] Instance M_bind : MBind M :=
  fun A B f m h l => let '(a, (h', l')) := m h l in f a h' l'.

Definition get : M hal := fun h l => (h, (h, l)).
Definition modify (f : hal -> hal) : M unit := fun h l => (tt, (f h, l)).
Definition emit (e : effect) : M unit := fun h l => (tt, (h, l ++ [e])).
Definition skip : M unit := mret tt.

Definition get_fd (n : fd_name) : M Z := h ← get; mret (h_fds h n).
Definition fd_upd (f : fd_name -> Z) (n : fd_name) (v : Z) : fd_name -> Z :=
  fun m => if decide (m = n) then v else f m.
Definition set_fd (n : fd_name) (v : Z) : M unit :=
  modify (fun h => mk_hal (fd_upd (h_fds h) n v) (h_freq h) (h_hints h) (h_config h) (h_camera h)).
Definition set_hints (x : hint_info) : M unit :=
  modify (fun h => mk_hal (h_fds h) (h_freq h) x (h_config h) (h_camera h)).
Definition set_camera (x : camera_info) : M unit :=
  modify (fun h => mk_hal (h_fds h) (h_freq h) (h_hints h) (h_config h) x).

Definition close_fd (fd : Z) : M unit := emit (EClose fd).

(** ** powerhal_utils.cpp *)

Definition sysfs_write (path value : string) : M unit := emit (ESysfs path value).
Definition sysfs_write_int (path : string) (value : Z) : M unit := sysfs_write path (print_int value).
Definition set_property_int (key : string) (value : Z) : M unit := emit (EProp key (print_int value)).

Definition lower (c : ascii) : ascii :=
  let n := nat_of_ascii c in if bool_decide (65 <= n <= 90)%nat then ascii_of_nat (n + 32) else c.

(** [property_get(key, value, NULL) > 0] fails for an unset or empty property. *)
Definition get_property_bool (e : env) (key : string) (default_value : bool) : bool :=
  match prop e key with
  | None | Some [] => default_value
  | Some value =>
      if bool_decide (value = lit "1") || bool_decide (lower <$> value = lit "on")
         || bool_decide (lower <$> value = lit "true") then true
      else if bool_decide (value = lit "0") || bool_decide (lower <$> value = lit "off")
         || bool_decide (lower <$> value = lit "false") then false
      else default_value
  end.

Definition PMQOS_CONSTRAINT_CPU_FREQ : string := "/dev/constraint_cpu_freq".
Definition PMQOS_CONSTRAINT_GPU_FREQ : string := "/dev/constraint_gpu_freq".
Definition PMQOS_CONSTRAINT_ONLINE_CPUS : string := "/dev/constraint_online_cpus".
Definition PM_QOS_BOOST_PRIORITY : Z := 35.
Definition PM_QOS_APP_PROFILE_PRIORITY : Z := 40.
Definition VSyncActiveBoostFreq : Z := 300000.
Definition PRISM_CONTROL_PROP : string := "persist.sys.didim.enable".
Definition POWER_CAP_PROP : string := "persist.sys.NV_PBC_PWR_LIMIT".
Definition CPU_EMC_RATIO_SRC_NODE : string := "/sys/kernel/tegra_cpu_emc/table_src".
Definition SLEEP_INTERVAL_SECS : Z := 1.

Section Hal.
Variable e : env.

(** [TimeoutPoker::requestPmQos] (timeoutpoker.cpp), run in the caller's thread. *)
Definition requestPmQos (path : string) (r : pm_request) : M Z := fun h l =>
  let fd := kopen e l path in
  if fd <? 0 then (-1, (h, l ++ [EOpen path (-1)]))
  else (fd, (h, l ++ [EOpen path fd; EWrite fd (request_data r)])).

(** ** Constraints held through a descriptor *)

Definition set_vsync_min_cpu_freq (enabled : Z) : M unit :=
  fd ← get_fd vsync_min_cpu;
  if negb (enabled =? 0) && (fd =? -1) then
    fd' ← requestPmQos PMQOS_CONSTRAINT_CPU_FREQ
            (ReqConstraint PM_QOS_BOOST_PRIORITY PM_QOS_DEFAULT_VALUE VSyncActiveBoostFreq);
    set_fd vsync_min_cpu fd'
  else if (enabled =? 0) && (0 <=? fd) then
    close_fd fd;; set_fd vsync_min_cpu (-1)
  else skip.

(** The block every [set_app_profile_*] shares: drop the old constraint, place the new one. *)
Definition replace_constraint (n : fd_name) (path : string) (max min : Z) : M unit :=
  fd ← get_fd n;
  (if 0 <=? fd then close_fd fd;; set_fd n (-1) else skip);;
  fd' ← requestPmQos path (ReqConstraint PM_QOS_APP_PROFILE_PRIORITY max min);
  set_fd n fd'.

Definition set_app_profile_min_cpu_freq (value : Z) : M unit :=
  h ← get;
  let value := if value <? 0 then def_min_freq (h_config h) else value in
  replace_constraint app_min_freq PMQOS_CONSTRAINT_CPU_FREQ PM_QOS_DEFAULT_VALUE value.

Definition set_app_profile_max_cpu_freq (value : Z) : M unit :=
  h ← get;
  let value := if value <=? 0 then def_max_freq (h_config h) else value in
  replace_constraint app_max_freq PMQOS_CONSTRAINT_CPU_FREQ value PM_QOS_DEFAULT_VALUE.

(** The product is an [int] product. *)
Definition percent_target (cpu0_max percent : Z) : Z :=
  let percent := if percent =? PM_QOS_DEFAULT_VALUE then 100 else percent in
  if (0 <? percent) && (percent <=? 100) then
    if 0 <=? cpu0_max then c_div (wrap_s32 (percent * cpu0_max)) 100 else cpu0_max
  else cpu0_max.

Definition set_app_profile_max_cpu_freq_percent (percent : Z) : M unit :=
  h ← get;
  set_app_profile_max_cpu_freq (percent_target (cpu0_max_frequency (h_freq h)) percent).

Definition set_app_profile_max_online_cpus (value : Z) : M unit :=
  h ← get;
  let value := if value <=? 0 then def_core_cap (h_config h) else value in
  replace_constraint app_max_online_cpus PMQOS_CONSTRAINT_ONLINE_CPUS value PM_QOS_DEFAULT_VALUE.

Definition set_app_profile_min_online_cpus (value : Z) : M unit :=
  replace_constraint app_min_online_cpus PMQOS_CONSTRAINT_ONLINE_CPUS PM_QOS_DEFAULT_VALUE value.

Definition set_app_profile_min_gpu_freq (value : Z) : M unit :=
  replace_constraint app_min_gpu PMQOS_CONSTRAINT_GPU_FREQ PM_QOS_DEFAULT_VALUE
    (if value =? 0 then INT_MAX else 0).

Definition set_app_profile_max_gpu_freq (value : Z) : M unit :=
  h ← get;
  let value := if value <=? 0 then def_gpu_cap (h_config h) else value in
  replace_constraint app_max_gpu PMQOS_CONSTRAINT_GPU_FREQ value PM_QOS_DEFAULT_VALUE.

Definition set_prism_control_enable (value : Z) : M unit :=
  set_property_int PRISM_CONTROL_PROP (if value =? 0 then 0 else 1).

Definition set_pbc_power (value : Z) : M unit :=
  h ← get;
  set_property_int POWER_CAP_PROP (if value <? 0 then def_power_cap (h_config h) else value).

Definition set_fan_cap (value : Z) : M unit :=
  h ← get;
  if negb (features_fan (h_config h)) then skip
  else sysfs_write_int "/sys/devices/platform/pwm-fan/pwm_cap"
         (if value <? 0 then def_fan_cap (h_config h) else value).

(** The camera setters close whatever is not -1 and do not reset the field. *)
Definition replace_camera (n : fd_name) (path : string) (value : Z) : M unit :=
  fd ← get_fd n;
  (if negb (fd =? -1) then close_fd fd else skip);;
  fd' ← requestPmQos path (ReqVal value);
  set_fd n fd'.

Definition set_camera_cpu_freq_min (value : Z) : M unit :=
  if 0 <? value then replace_camera fd_cpu_freq_min "/dev/cpu_freq_min" value else skip.
Definition set_camera_cpu_freq_max (value : Z) : M unit :=
  if 0 <? value then replace_camera fd_cpu_freq_max "/dev/cpu_freq_max" value else skip.
Definition set_camera_min_online_cpus (value : Z) : M unit :=
  replace_camera fd_min_online_cpus "/dev/min_online_cpus" value.
Definition set_camera_max_online_cpus (value : Z) : M unit :=
  if 0 <? value then replace_camera fd_max_online_cpus "/dev/max_online_cpus" value else skip.

Definition NvUsecase_camera : Z := 4.
Definition NvHintType_MinCPU : Z := 2.
Definition NvHintType_MaxCPU : Z := 3.
Definition NvHintType_MinGPU : Z := 4.
Definition NvHintType_MaxGPU : Z := 5.
Definition NVHINT_DEFAULT_TAG : Z := 0.

Definition set_camera_single_phs_hint (hintType value : Z) : M unit :=
  h ← get;
  if negb (NvVaSendThroughputHints (h_config h)) then skip
  else emit (EHint NvUsecase_camera hintType (wrap_u32 value) (SLEEP_INTERVAL_SECS * 1000)).

Definition when (b : bool) (m : M unit) : M unit := if b then m else skip.

Definition set_camera_phs_hints (cap : camera_cap_t) : M unit :=
  when (negb (minCpuHint cap =? 0)) (set_camera_single_phs_hint NvHintType_MinCPU (minCpuHint cap));;
  when (negb (maxCpuHint cap =? 0)) (set_camera_single_phs_hint NvHintType_MaxCPU (maxCpuHint cap));;
  when (negb (minGpuHint cap =? 0)) (set_camera_single_phs_hint NvHintType_MinGPU (minGpuHint cap));;
  when (negb (maxGpuHint cap =? 0)) (set_camera_single_phs_hint NvHintType_MaxGPU (maxGpuHint cap));;
  when (negb (fpsHint cap =? 0))
    (h ← get; set_camera (mk_camera (fpsHint cap) (cam_cap (h_camera h)) (usecase_index (h_camera h)))).

Definition drop_camera_fd (n : fd_name) : M unit :=
  fd ← get_fd n; when (negb (fd =? -1)) (close_fd fd;; set_fd n (-1)).

Definition reset_camera_hint : M unit :=
  fd ← get_fd fd_gpu;
  when (negb (fd =? -1)) (set_fd fd_gpu (-1));;
  h ← get;
  set_camera (mk_camera 0 (cam_cap (h_camera h)) (usecase_index (h_camera h)));;
  drop_camera_fd fd_cpu_freq_min;;
  drop_camera_fd fd_cpu_freq_max;;
  fda ← get_fd app_min_freq;
  when (0 <=? fda) (close_fd fda;; set_fd app_min_freq (-1));;
  drop_camera_fd fd_min_online_cpus;;
  drop_camera_fd fd_max_online_cpus;;
  h ← get;
  when (negb (usecase_index (h_camera h) =? -1))
    (set_camera (mk_camera (target_fps (h_camera h)) (cam_cap (h_camera h)) (-1));;
     when (NvCancelThroughputHints (h_config h)) (emit (ECancel NvUsecase_camera NVHINT_DEFAULT_TAG))).
End Hal.

(** ** Hints *)

(** The enumerators of [power_hint_t] ([hardware/power.h]). *)
Record hint_codes := mk_codes {
  POWER_HINT_VSYNC : Z;
  POWER_HINT_INTERACTION : Z;
  POWER_HINT_LAUNCH : Z;
  POWER_HINT_SET_PROFILE : Z;
  POWER_HINT_VIDEO_ENCODE : Z;
  POWER_HINT_VIDEO_DECODE : Z;
  POWER_HINT_LOW_POWER : Z;
}.

Definition MAX_POWER_HINT_COUNT (k : hint_codes) : Z := POWER_HINT_SET_PROFILE k.

Section Hints.
Variable e : env.
Variable k : hint_codes.
(** The width of [long] (32 on the ARMv7 build), and the unit conversions of
    [utils/Timers.h]. *)
Variable LONG_BITS : Z.
Variables s2ns ms2ns : Z -> Z.

Definition wrap_long (z : Z) : Z :=
  (z + 2 ^ (LONG_BITS - 1)) mod 2 ^ LONG_BITS - 2 ^ (LONG_BITS - 1).

(** [ts.tv_sec * 1000000 + ts.tv_nsec / 1000] is a [long], then converted to
    [uint64_t]. *)
Definition time_us (tv_sec tv_nsec : Z) : Z :=
  wrap_u64 (wrap_long (wrap_long (tv_sec * 1000000) + c_div tv_nsec 1000)).

(** [None] stands for the return value -1; otherwise the time stored in [*t]. *)
Definition check_hint (x : hint_info) (hint tv_sec tv_nsec : Z) : option Z :=
  if MAX_POWER_HINT_COUNT k <=? hint then None
  else
    let time := time_us tv_sec tv_nsec in
    let last := default 0 (zlookup (hint_time x) hint) in
    let interval := default 0 (zlookup (hint_interval x) hint) in
    if negb (last =? 0) && negb (interval =? 0) && (wrap_u64 (time - last) <? interval)
    then None else Some time.

Definition requestPmQosTimed (path : string) (r : pm_request) (timeout : Z) : M unit :=
  emit (ETimed path r timeout).

Definition boost (path : string) (min timeout : Z) : M unit :=
  requestPmQosTimed path (ReqConstraint PM_QOS_BOOST_PRIORITY PM_QOS_DEFAULT_VALUE min) timeout.

(** The [switch] of [common_power_hint]; [data] is the dereferenced argument. *)
Definition hint_actions (hint : Z) (data : option Z) : M unit :=
  if hint =? POWER_HINT_VSYNC k then
    match data with Some v => set_vsync_min_cpu_freq e v | None => skip end
  else if hint =? POWER_HINT_INTERACTION k then skip
  else if hint =? POWER_HINT_LAUNCH k then
    boost PMQOS_CONSTRAINT_CPU_FREQ INT_MAX (ms2ns 1500);;
    boost PMQOS_CONSTRAINT_ONLINE_CPUS 2 (ms2ns 1500);;
    boost PMQOS_CONSTRAINT_GPU_FREQ 180000 (ms2ns 1500);;
    requestPmQosTimed "/dev/emc_freq_min" (ReqVal 792000) (ms2ns 1500)
  else if hint =? POWER_HINT_SET_PROFILE k then skip
  else if hint =? POWER_HINT_VIDEO_ENCODE k then
    boost PMQOS_CONSTRAINT_ONLINE_CPUS 2 (s2ns 1);;
    boost PMQOS_CONSTRAINT_CPU_FREQ 816000 (s2ns 1)
  else if hint =? POWER_HINT_VIDEO_DECODE k then
    boost PMQOS_CONSTRAINT_ONLINE_CPUS 1 (s2ns 1);;
    boost PMQOS_CONSTRAINT_CPU_FREQ 710000 (s2ns 1)
  else skip.

Definition common_power_hint (hint : Z) (data : option Z) (tv_sec tv_nsec : Z) : M unit :=
  h ← get;
  match check_hint (h_hints h) hint tv_sec tv_nsec with
  | None => skip
  | Some t =>
      hint_actions hint data;;
      h ← get;
      set_hints (mk_hints (<[Z.to_nat hint := t]> (hint_time (h_hints h)))
                   (hint_interval (h_hints h)) (wait_cond_word (h_hints h)))
  end.

(** ** Initialisation *)

Definition input_path (i : Z) (suffix : string) : string :=
  "/sys/class/input/input" +:+ print_int i +:+ suffix.

Fixpoint get_input_count_from (fuel : nat) (i : Z) : option Z :=
  if accessible e (input_path i "/name") then
    match fuel with
    | O => None
    | S fuel' => get_input_count_from fuel' (i + 1)
    end
  else Some i.

Definition get_input_count (fuel : nat) : option Z := get_input_count_from fuel 0.

Definition MAX_CHARS : nat := 32.

(** One pass of the inner loop over the wanted devices. *)
Definition match_devices (i : Z) (name : bytes) (devs : list (Z * bytes)) (count : Z)
  : list (Z * bytes) * Z :=
  fold_left (fun acc d =>
    let '(out, count) := acc in
    if (fst d =? -1) && strncmp_eq name (snd d) MAX_CHARS
    then (out ++ [(i, snd d)], count + 1) else (out ++ [d], count)) devs ([], count).

Fixpoint find_input_device_ids_from (fuel : nat) (cnt i : Z) (devs : list (Z * bytes)) (count : Z)
  : option (list (Z * bytes)) :=
  if accessible e (input_path i "/name") then
    match fuel with
    | O => None
    | S fuel' =>
        let name := read_into (sysfs_text e (input_path i "/name")) (replicate MAX_CHARS NUL) in
        let '(devs', count') := match_devices i name devs count in
        if count' =? cnt then Some devs'
        else find_input_device_ids_from fuel' cnt (i + 1) devs' count'
    end
  else Some devs.

Definition find_input_device_ids (fuel : nat) (cnt : Z) (devs : list (Z * bytes)) : option (list (Z * bytes)) :=
  find_input_device_ids_from fuel cnt 0 devs 0.

Definition SPACE : ascii := " "%char.

Definition FREQ_NODE : string := "/sys/devices/system/cpu/cpu0/cpufreq/scaling_available_frequencies".
Definition LP_NODE : string := "/sys/devices/system/cpu/cpuquiet/tegra_cpuquiet/idle_top_freq".
Definition SYS_NODE_CPU0_MAX_FREQ : string := "/sys/devices/system/cpu/cpu0/cpufreq/cpuinfo_max_freq".

(** The first frequency of the table that is at least [floor]. *)
Definition first_at_least (floor : Z) (freqs : list Z) (fallback : Z) : Z :=
  match filter (fun f => floor <= f) freqs with
  | f :: _ => f
  | [] => fallback
  end.

(** The buffer is read, tokenised to count, read again over the tokenised bytes,
    tokenised to convert, and reused for the two scalar nodes. *)
Definition read_frequencies (size : nat) : freq_info :=
  let buf := read_into (sysfs_text e FREQ_NODE) (replicate size NUL) in
  let num := zlen (strtok_tokens SPACE buf) - 1 in
  let buf := strtok_buffer SPACE false buf in
  let buf := read_into (sysfs_text e FREQ_NODE) buf in
  let freqs := atoi <$> take (Z.to_nat num) (strtok_tokens SPACE buf) in
  let buf := strtok_buffer SPACE false buf in
  let buf := read_into (sysfs_text e LP_NODE) buf in
  let lp := atoi buf in
  let buf := read_into (sysfs_text e SYS_NODE_CPU0_MAX_FREQ) buf in
  mk_freq freqs num lp (first_at_least 1326000 freqs lp) (first_at_least 1024000 freqs lp)
    (atoi buf).

(** [hint_interval[i] = v], where index [MAX_POWER_HINT_COUNT] is the word behind
    the array; [None]: further out. *)
Definition set_interval (x : hint_info) (i v : Z) : option hint_info :=
  if (0 <=? i) && (i <? MAX_POWER_HINT_COUNT k) then
    Some (mk_hints (hint_time x) (<[Z.to_nat i := v]> (hint_interval x)) (wait_cond_word x))
  else if i =? MAX_POWER_HINT_COUNT k then
    Some (mk_hints (hint_time x) (hint_interval x) v)
  else None.

Definition init_intervals (x : hint_info) : option hint_info :=
  x ← set_interval x (POWER_HINT_VSYNC k) 0;
  x ← set_interval x (POWER_HINT_INTERACTION k) 90000;
  x ← set_interval x (POWER_HINT_SET_PROFILE k) 200000;
  x ← set_interval x (POWER_HINT_LAUNCH k) 1500000;
  x ← set_interval x (POWER_HINT_VIDEO_DECODE k) 500000;
  x ← set_interval x (POWER_HINT_VIDEO_ENCODE k) 500000;
  set_interval x (POWER_HINT_LOW_POWER k) 0.

Definition init_fds (f : fd_name -> Z) : fd_name -> Z :=
  fun n => match n with
           | app_min_freq | app_max_freq | app_max_online_cpus | app_min_online_cpus
           | app_max_gpu | app_min_gpu | vsync_min_cpu => -1
           | _ => f n
           end.

(** [libphs]: [dlopen] and both [dlsym]s succeeded. *)
Definition common_power_open (fuel : nat) (libphs : bool) (h : hal) : option hal :=
  let c := h_config h in
  '(cnt, devs) ←
    (match input_devs c with
     | Some devs =>
         if input_cnt c =? 0 then n ← get_input_count fuel; Some (n, input_devs c)
         else devs' ← find_input_device_ids fuel (input_cnt c) devs; Some (input_cnt c, Some devs')
     | None => n ← get_input_count fuel; Some (n, None)
     end);
  hints ← init_intervals (h_hints h);
  Some (mk_hal (init_fds (h_fds h)) (read_frequencies 256) hints
    (mk_config cnt devs 0 PM_QOS_DEFAULT_VALUE PM_QOS_DEFAULT_VALUE PM_QOS_DEFAULT_VALUE 70 0
       (readable e "/sys/devices/platform/pwm-fan/pwm_cap") (ftrace_enable c)
       (switch_cpu_emc_limit_enabled c) libphs libphs)
    (h_camera h)).

Definition common_power_camera_init (cap : list camera_cap_t) (h : hal) : hal :=
  mk_hal (fun n => match n with
                   | fd_gpu | fd_cpu_freq_min | fd_cpu_freq_max | fd_min_online_cpus => -1
                   | fd_max_online_cpus => 0   (* left by the memset *)
                   | _ => h_fds h n
                   end)
    (h_freq h) (h_hints h) (h_config h) (mk_camera 0 cap (-1)).

(** [None]: the frequency table is indexed out of range. *)
Definition common_power_init (fuel : nat) (libphs : bool) (h : hal) (l : list effect)
  : option (hal * list effect) :=
  h ← common_power_open fuel libphs h;
  let c := h_config h in
  top ← zlookup (available_frequencies (h_freq h)) (num_available_frequencies (h_freq h) - 1);
  let '(_, (h, l)) := boost PMQOS_CONSTRAINT_CPU_FREQ top (s2ns 15) h l in
  Some (mk_hal (h_fds h) (h_freq h) (h_hints h)
    (mk_config (input_cnt c) (input_devs c) (def_min_freq c) (def_max_freq c) (def_core_cap c)
       (def_gpu_cap c) (def_fan_cap c) (def_power_cap c) (features_fan c)
       (get_property_bool e "nvidia.hwc.ftrace_enable" false)
       (readable e CPU_EMC_RATIO_SRC_NODE) (NvVaSendThroughputHints c) (NvCancelThroughputHints c))
    (h_camera h), l).

(** ** Interactive state *)

(** The device switched at position [i], if any. *)
Definition interactive_device (c : config) (i : Z) : option Z :=
  match input_devs c with
  | None => Some i
  | Some devs => '(id, _) ← zlookup devs i; if id =? -1 then None else Some id
  end.

Definition switch_input (state : string) (c : config) (i : Z) : M unit :=
  match interactive_device c i with
  | None => skip
  | Some dev_id =>
      let path := input_path dev_id "/enabled" in
      if accessible e path then sysfs_write path state else skip
  end.

Definition cpufreq_node (name : string) : string :=
  "/sys/devices/system/cpu/cpufreq/interactive/" +:+ name.

Definition common_power_set_interactive (on : Z) : M unit :=
  h ← get;
  let state := if on =? 0 then "0" else "1" in
  sysfs_write "/sys/devices/platform/host1x/nvavp/boost_sclk" state;;
  fold_left (fun m i => m;; switch_input state (h_config h) i)
    (seqZ 0 (input_cnt (h_config h))) skip;;
  (if switch_cpu_emc_limit_enabled (h_config h)
   then sysfs_write_int CPU_EMC_RATIO_SRC_NODE on else skip);;
  sysfs_write (cpufreq_node "hispeed_freq") (if on =? 0 then "420000" else "624000");;
  sysfs_write (cpufreq_node "target_loads")
    (if on =? 0 then "45 312000:75 564000:85" else "65 228000:75 624000:85");;
  sysfs_write (cpufreq_node "above_hispeed_delay") (if on =? 0 then "80000" else "19000");;
  sysfs_write (cpufreq_node "timer_rate") (if on =? 0 then "300000" else "20000");;
  sysfs_write (cpufreq_node "boost_factor") (if on =? 0 then "2" else "0").
End Hints.

(** ** Descriptor discipline *)

(** The descriptors open after a log, and whether every close hit an open one and
    every open returned a new one. *)
Definition fd_effect (acc : gset Z * bool) (x : effect) : gset Z * bool :=
  let '(s, ok) := acc in
  match x with
  | EOpen _ fd => if fd <? 0 then (s, ok) else ({[fd]} ∪ s, ok && bool_decide (fd ∉ s))
  | EClose fd => (s ∖ {[fd]}, ok && bool_decide (fd ∈ s))
  | _ => (s, ok)
  end.

Definition log_fds (l : list effect) : gset Z * bool := fold_left fd_effect l (∅, true).

Lemma log_fds_app l k : log_fds (l ++ k) = fold_left fd_effect k (log_fds l).
Proof. apply fold_left_app. Qed.

Definition kernel_ok (e : env) : Prop :=
  forall l path, kopen e l path < 0 \/ kopen e l path ∉ (log_fds l).1.

(** Each tracked field is -1 or holds an open descriptor of its own, and nothing
    else is open. *)
Record hal_inv (T : fd_name -> Prop) (h : hal) (l : list effect) : Prop := {
  hi_ok : (log_fds l).2 = true;
  hi_open n : T n -> h_fds h n = -1 \/ (0 <= h_fds h n /\ h_fds h n ∈ (log_fds l).1);
  hi_inj n m : T n -> T m -> h_fds h n = h_fds h m -> h_fds h n <> -1 -> n = m;
  hi_held fd : fd ∈ (log_fds l).1 -> 0 <= fd /\ exists n, T n /\ h_fds h n = fd;
}.

Definition preserves (T : fd_name -> Prop) (m : M unit) : Prop :=
  forall h l, hal_inv T h l -> hal_inv T (m h l).2.1 (m h l).2.2.

Lemma fd_upd_eq f n v : fd_upd f n v n = v.
Proof. unfold fd_upd. by rewrite decide_True. Qed.
Lemma fd_upd_ne f n v m : m <> n -> fd_upd f n v m = f m.
Proof. intros. unfold fd_upd. by rewrite decide_False. Qed.

Section Discipline.
Variable e : env.
Variable T : fd_name -> Prop.
Hypothesis Hk : kernel_ok e.

Lemma hal_inv_ext h h' l :
  (forall n, h_fds h' n = h_fds h n) -> hal_inv T h l -> hal_inv T h' l.
Proof.
  intros Heq []. constructor; [done| | |].
  - intros n. rewrite Heq. auto.
  - intros n m. rewrite !Heq. auto.
  - intros fd Hfd. destruct (hi_held0 fd Hfd) as [? (n & ? & ?)].
    split; [done|]. exists n. by rewrite Heq.
Qed.

Lemma hal_inv_log h l k :
  (forall acc, fold_left fd_effect k acc = acc) -> hal_inv T h l -> hal_inv T h (l ++ k).
Proof. intros Hk0 []. constructor; rewrite ?log_fds_app, ?Hk0; done. Qed.

(** Closing a held descriptor and clearing its field. *)
Lemma release_inv h l n f :
  T n -> 0 <= h_fds h n -> (forall m, f m = fd_upd (h_fds h) n (-1) m) ->
  hal_inv T h l ->
  hal_inv T (mk_hal f (h_freq h) (h_hints h) (h_config h) (h_camera h)) (l ++ [EClose (h_fds h n)]).
Proof.
  intros Tn Hn Hf [Hok Ho Hi Hh].
  assert (Hin : h_fds h n ∈ (log_fds l).1) by (destruct (Ho n Tn); [lia|tauto]).
  destruct (log_fds l) as [s ok] eqn:Hl. simpl in *. subst ok.
  constructor; rewrite ?log_fds_app, ?Hl; simpl.
  - by rewrite bool_decide_true.
  - intros m Tm. rewrite Hf. destruct (decide (m = n)) as [->|Hne].
    + rewrite fd_upd_eq. by left.
    + rewrite fd_upd_ne by done. destruct (Ho m Tm) as [?|[? Hm]]; [by left|right].
      split; [done|]. apply elem_of_difference. split; [done|].
      intros Heq%elem_of_singleton. apply Hne. apply Hi; try done; lia.
  - intros m1 m2 T1 T2. rewrite !Hf.
    destruct (decide (m1 = n)) as [->|H1]; [rewrite fd_upd_eq; done|].
    destruct (decide (m2 = n)) as [->|H2].
    + rewrite fd_upd_eq. intros Heq. rewrite Heq. done.
    + rewrite !fd_upd_ne by done. by apply Hi.
  - intros fd [Hfd Hne]%elem_of_difference. destruct (Hh fd Hfd) as [? (m & Tm & Hm)].
    split; [done|]. exists m. split; [done|]. rewrite Hf, fd_upd_ne; [done|].
    intros ->. apply Hne. by apply elem_of_singleton.
Qed.

(** Storing a fresh request in a cleared field. *)
Lemma acquire_inv h l n path r f :
  T n -> h_fds h n = -1 ->
  (forall m, f m = fd_upd (h_fds h) n (requestPmQos e path r h l).1 m) ->
  hal_inv T h l ->
  hal_inv T (mk_hal f (h_freq h) (h_hints h) (h_config h) (h_camera h))
    (requestPmQos e path r h l).2.2.
Proof.
  intros Tn Hn Hf Hinv. unfold requestPmQos in *.
  destruct (kopen e l path <? 0) eqn:E; simpl in *; breflect.
  - apply hal_inv_log; [by intros []|]. apply hal_inv_ext with h; [|done].
    intros m. simpl. rewrite Hf. unfold fd_upd. case_decide; congruence.
  - set (fd := kopen e l path) in *. destruct Hinv as [Hok Ho Hi Hh].
    destruct (Hk l path) as [?|Hfresh]; [lia|]. fold fd in Hfresh.
    destruct (log_fds l) as [s ok] eqn:Hl. simpl in *. subst ok.
    constructor; rewrite ?log_fds_app, ?Hl; simpl; rewrite ?(proj2 (Z.ltb_ge fd 0)) by lia; simpl.
    + by rewrite bool_decide_true.
    + intros m Tm. rewrite Hf. destruct (decide (m = n)) as [->|Hne].
      * rewrite fd_upd_eq. right. split; [lia|set_solver].
      * rewrite fd_upd_ne by done. destruct (Ho m Tm) as [?|[? ?]]; [by left|right; set_solver].
    + intros m1 m2 T1 T2. rewrite !Hf.
      assert (Hnot : forall m, T m -> h_fds h m <> fd).
      { intros m Tm Heq. destruct (Ho m Tm) as [?|[? ?]]; [lia|congruence]. }
      destruct (decide (m1 = n)) as [->|H1], (decide (m2 = n)) as [->|H2]; [done| | |];
        rewrite ?fd_upd_eq, ?fd_upd_ne by done; intros Heq.
      * by destruct (Hnot m2 T2).
      * by destruct (Hnot m1 T1).
      * by apply Hi.
    + intros fd' [->%elem_of_singleton|Hfd]%elem_of_union.
      * split; [lia|]. exists n. by rewrite Hf, fd_upd_eq.
      * destruct (Hh fd' Hfd) as [? (m & Tm & Hm)]. split; [done|]. exists m. split; [done|].
        rewrite Hf, fd_upd_ne; [done|]. intros ->. lia.
Qed.

Lemma preserves_seq m1 m2 : preserves T m1 -> preserves T m2 -> preserves T (m1;; m2).
Proof.
  intros H1 H2 h l Hinv. specialize (H1 h l Hinv). unfold mbind, M_bind.
  destruct (m1 h l) as [[] [h' l']]. simpl in *. apply H2. exact H1.
Qed.

Lemma preserves_get f : (forall x, preserves T (f x)) -> preserves T (x ← get; f x).
Proof. intros Hf h l Hinv. by apply Hf. Qed.

Lemma preserves_skip : preserves T skip.
Proof. intros h l Hinv. exact Hinv. Qed.

Lemma preserves_when b m : preserves T m -> preserves T (when b m).
Proof. destruct b; [done|]. intros _. apply preserves_skip. Qed.

Lemma preserves_emit x : (forall acc, fd_effect acc x = acc) -> preserves T (emit x).
Proof. intros Hx h l Hinv. simpl. apply hal_inv_log; [|done]. intros acc. apply Hx. Qed.

Lemma preserves_modify f :
  (forall h n, h_fds (f h) n = h_fds h n) -> preserves T (modify f).
Proof. intros Hf h l Hinv. simpl. apply hal_inv_ext with h; [|done]. apply Hf. Qed.

Lemma request_hal path r h l : (requestPmQos e path r h l).2.1 = h.
Proof. unfold requestPmQos. by case_test. Qed.

(** Requesting and storing in [n], the field being cleared in the mind ([h0]). *)
Lemma request_store n path r h0 h l :
  T n -> h_fds h0 n = -1 -> (forall m, m <> n -> h_fds h m = h_fds h0 m) ->
  hal_inv T h0 l ->
  let x := (fd ← requestPmQos e path r; set_fd n fd) h l in hal_inv T x.2.1 x.2.2.
Proof.
  intros Tn Hn Hne Hinv. unfold mbind, M_bind.
  assert (Hsame : (requestPmQos e path r h l).1 = (requestPmQos e path r h0 l).1 /\
                  (requestPmQos e path r h l).2.2 = (requestPmQos e path r h0 l).2.2).
  { unfold requestPmQos. by destruct (_ <? 0). }
  pose proof (request_hal path r h l) as Hh.
  pose proof (acquire_inv h0 l n path r (fd_upd (h_fds h) n (requestPmQos e path r h0 l).1)) as Ha.
  destruct (requestPmQos e path r h l) as [fd [h' l']]. simpl in *.
  destruct Hsame as [-> ->]. subst h'.
  eapply hal_inv_ext; [|apply Ha; try done].
  - done.
  - intros m. unfold fd_upd. case_decide; [done|by apply Hne].
Qed.

Definition clear_fd h n : hal :=
  mk_hal (fd_upd (h_fds h) n (-1)) (h_freq h) (h_hints h) (h_config h) (h_camera h).

Definition request_into n path r : M unit := fd ← requestPmQos e path r; set_fd n fd.

Lemma replace_constraint_eq n path mx mn h l :
  replace_constraint e n path mx mn h l =
    let r := ReqConstraint PM_QOS_APP_PROFILE_PRIORITY mx mn in
    if 0 <=? h_fds h n
    then request_into n path r (clear_fd h n) (l ++ [EClose (h_fds h n)])
    else request_into n path r h l.
Proof. cbv [replace_constraint get_fd mbind M_bind get mret M_ret]. by destruct (0 <=? _). Qed.

Lemma replace_camera_eq n path v h l :
  replace_camera e n path v h l =
    if h_fds h n =? -1 then request_into n path (ReqVal v) h l
    else request_into n path (ReqVal v) h (l ++ [EClose (h_fds h n)]).
Proof. cbv [replace_camera get_fd mbind M_bind get mret M_ret]. by destruct (_ =? -1). Qed.

Lemma preserves_replace n path mx mn : T n -> preserves T (replace_constraint e n path mx mn).
Proof.
  intros Tn h l Hinv. rewrite replace_constraint_eq. pose proof (hi_open _ _ _ Hinv n Tn) as Ho.
  cbv zeta. destruct (0 <=? h_fds h n) eqn:E; breflect.
  - apply (request_store n path _ (clear_fd h n)); [done|apply fd_upd_eq|done|].
    by apply release_inv.
  - apply (request_store n path _ h); [done|lia|done|done].
Qed.

Lemma preserves_replace_camera n path v : T n -> preserves T (replace_camera e n path v).
Proof.
  intros Tn h l Hinv. rewrite replace_camera_eq. pose proof (hi_open _ _ _ Hinv n Tn) as Ho.
  destruct (h_fds h n =? -1) eqn:E; breflect; [by apply (request_store n path _ h)|].
  destruct Ho as [?|[? ?]]; [done|].
  apply (request_store n path _ (clear_fd h n)); [done|apply fd_upd_eq| |by apply release_inv].
  intros m Hm. simpl. by rewrite fd_upd_ne.
Qed.

Lemma vsync_eq v h l :
  set_vsync_min_cpu_freq e v h l =
    if negb (v =? 0) && (h_fds h vsync_min_cpu =? -1) then
      request_into vsync_min_cpu PMQOS_CONSTRAINT_CPU_FREQ
        (ReqConstraint PM_QOS_BOOST_PRIORITY PM_QOS_DEFAULT_VALUE VSyncActiveBoostFreq) h l
    else if (v =? 0) && (0 <=? h_fds h vsync_min_cpu) then
      (tt, (clear_fd h vsync_min_cpu, l ++ [EClose (h_fds h vsync_min_cpu)]))
    else (tt, (h, l)).
Proof.
  cbv [set_vsync_min_cpu_freq get_fd mbind M_bind get mret M_ret].
  by destruct (v =? 0), (_ =? -1), (0 <=? _).
Qed.

Lemma drop_camera_eq n h l :
  drop_camera_fd n h l =
    if h_fds h n =? -1 then (tt, (h, l)) else (tt, (clear_fd h n, l ++ [EClose (h_fds h n)])).
Proof. cbv [drop_camera_fd get_fd mbind M_bind get mret M_ret when]. by destruct (_ =? -1). Qed.

Lemma preserves_vsync v : T vsync_min_cpu -> preserves T (set_vsync_min_cpu_freq e v).
Proof.
  intros Tn h l Hinv. rewrite vsync_eq. case_tests; [| |exact Hinv].
  - by apply (request_store vsync_min_cpu _ _ h).
  - by apply release_inv.
Qed.

Lemma preserves_drop n : T n -> preserves T (drop_camera_fd n).
Proof.
  intros Tn h l Hinv. rewrite drop_camera_eq. pose proof (hi_open _ _ _ Hinv n Tn) as Ho.
  case_tests; [exact Hinv|]. destruct Ho as [?|[? ?]]; [done|]. by apply release_inv.
Qed.

Lemma preserves_emit_hint x y z w : preserves T (emit (EHint x y z w)).
Proof. apply preserves_emit. by intros []. Qed.
Lemma preserves_emit_cancel x y : preserves T (emit (ECancel x y)).
Proof. apply preserves_emit. by intros []. Qed.
Lemma preserves_emit_sysfs x y : preserves T (emit (ESysfs x y)).
Proof. apply preserves_emit. by intros []. Qed.
Lemma preserves_emit_prop x y : preserves T (emit (EProp x y)).
Proof. apply preserves_emit. by intros []. Qed.
Lemma preserves_emit_timed x y z : preserves T (emit (ETimed x y z)).
Proof. apply preserves_emit. by intros []. Qed.

Lemma preserves_set_camera x : preserves T (set_camera x).
Proof. by apply preserves_modify. Qed.
Lemma preserves_set_hints x : preserves T (set_hints x).
Proof. by apply preserves_modify. Qed.
End Discipline.

#[export] Hint Resolve preserves_seq preserves_get preserves_skip preserves_when preserves_replace
  preserves_emit_hint preserves_emit_cancel preserves_emit_sysfs preserves_emit_prop
  preserves_emit_timed preserves_replace_camera preserves_vsync preserves_drop preserves_set_camera
  preserves_set_hints : mocha.

(** ** Sequences of operations *)

Inductive hal_op :=
| OpAppMinCpu (v : Z) | OpAppMaxCpu (v : Z) | OpAppMaxCpuPercent (v : Z)
| OpAppMaxOnline (v : Z) | OpAppMinOnline (v : Z) | OpAppMinGpu (v : Z) | OpAppMaxGpu (v : Z)
| OpPrism (v : Z) | OpPbc (v : Z) | OpFan (v : Z)
| OpCamMinFreq (v : Z) | OpCamMaxFreq (v : Z) | OpCamMinOnline (v : Z) | OpCamMaxOnline (v : Z)
| OpCamHints (cap : camera_cap_t) | OpCamReset
| OpHint (hint : Z) (data : option Z) (tv_sec tv_nsec : Z)
| OpInteractive (on : Z).

Section Ops.
Variable e : env.
Variable k : hint_codes.
Variable LONG_BITS : Z.
Variables s2ns ms2ns : Z -> Z.

Definition run_op (op : hal_op) : M unit :=
  match op with
  | OpAppMinCpu v => set_app_profile_min_cpu_freq e v
  | OpAppMaxCpu v => set_app_profile_max_cpu_freq e v
  | OpAppMaxCpuPercent v => set_app_profile_max_cpu_freq_percent e v
  | OpAppMaxOnline v => set_app_profile_max_online_cpus e v
  | OpAppMinOnline v => set_app_profile_min_online_cpus e v
  | OpAppMinGpu v => set_app_profile_min_gpu_freq e v
  | OpAppMaxGpu v => set_app_profile_max_gpu_freq e v
  | OpPrism v => set_prism_control_enable v
  | OpPbc v => set_pbc_power v
  | OpFan v => set_fan_cap v
  | OpCamMinFreq v => set_camera_cpu_freq_min e v
  | OpCamMaxFreq v => set_camera_cpu_freq_max e v
  | OpCamMinOnline v => set_camera_min_online_cpus e v
  | OpCamMaxOnline v => set_camera_max_online_cpus e v
  | OpCamHints cap => set_camera_phs_hints cap
  | OpCamReset => reset_camera_hint
  | OpHint hint data s ns => common_power_hint e k LONG_BITS s2ns ms2ns hint data s ns
  | OpInteractive on => common_power_set_interactive e on
  end.

Definition run_ops (ops : list hal_op) : M unit :=
  fold_left (fun m op => m;; run_op op) ops skip.

(** The descriptor fields filled by PM QoS requests; [with_max] tells whether
    [fd_max_online_cpus] is one of them. *)
Definition tracked (with_max : bool) (n : fd_name) : Prop :=
  n <> fd_gpu /\ (n = fd_max_online_cpus -> with_max = true).

Definition uses_max (op : hal_op) : bool :=
  match op with OpCamMaxOnline _ | OpCamReset => true | _ => false end.

Hypothesis Hk : kernel_ok e.
Variable with_max : bool.
#[local] Abbreviation T := (tracked with_max).

Lemma tracked_ne n : n <> fd_gpu -> n <> fd_max_online_cpus -> T n.
Proof. by split. Qed.

#[local] Ltac tracked_solve := first [apply tracked_ne; done | done].

Lemma preserves_untracked n v : ~ T n -> preserves T (set_fd n v).
Proof.
  intros Hn h l []. constructor; simpl; [done| | |].
  - intros m Tm. rewrite fd_upd_ne; [by apply hi_open0|congruence].
  - intros m1 m2 T1 T2. rewrite !fd_upd_ne by congruence. by apply hi_inj0.
  - intros fd Hfd. destruct (hi_held0 fd Hfd) as [? (m & Tm & Hm)]. split; [done|].
    exists m. rewrite fd_upd_ne by congruence. done.
Qed.

Lemma preserves_get_fd n f : (forall v, preserves T (f v)) -> preserves T (v ← get_fd n; f v).
Proof. intros Hf h l Hinv. by apply Hf. Qed.

Lemma preserves_release_then n m :
  T n -> preserves T m ->
  preserves T (fd ← get_fd n; when (0 <=? fd) (close_fd fd;; set_fd n (-1));; m).
Proof.
  intros Tn Hm h l Hinv.
  assert (Heq : (fd ← get_fd n; when (0 <=? fd) (close_fd fd;; set_fd n (-1));; m) h l =
            if 0 <=? h_fds h n then m (clear_fd h n) (l ++ [EClose (h_fds h n)]) else m h l).
  { cbv [get_fd mbind M_bind get mret M_ret when]. by destruct (0 <=? _). }
  rewrite Heq. case_tests; apply Hm; [|done]. by apply release_inv.
Qed.

Lemma reset_camera_preserves : with_max = true -> preserves T reset_camera_hint.
Proof.
  intros Hmax. assert (Tm : T fd_max_online_cpus) by done.
  unfold reset_camera_hint. apply preserves_get_fd; intros fd.
  apply preserves_seq; [apply preserves_when, preserves_untracked; by intros []|].
  apply preserves_get; intros h.
  repeat first [apply preserves_release_then; [tracked_solve|] | apply preserves_seq];
    try (apply preserves_drop; tracked_solve); auto 10 with mocha.
Qed.

Lemma hint_preserves hint data s ns :
  preserves T (common_power_hint e k LONG_BITS s2ns ms2ns hint data s ns).
Proof.
  unfold common_power_hint. apply preserves_get; intros h.
  destruct (check_hint _ _ _ _ _ _); [|auto with mocha].
  apply preserves_seq; [|apply preserves_get; auto with mocha].
  unfold hint_actions, boost, requestPmQosTimed. case_tests;
    repeat first [apply preserves_seq]; auto with mocha.
  destruct data; [|auto with mocha]. apply preserves_vsync; tracked_solve.
Qed.

Lemma interactive_preserves on : preserves T (common_power_set_interactive e on).
Proof.
  unfold common_power_set_interactive, sysfs_write_int, sysfs_write.
  apply preserves_get; intros h.
  assert (Hloop : forall (l : list Z) m, preserves T m -> preserves T
    (fold_left (fun m i => m;; switch_input e (if on =? 0 then "0" else "1") (h_config h) i) l m)).
  { induction l as [|i l IH]; intros m Hm; simpl; [done|]. apply IH, preserves_seq; [done|].
    unfold switch_input. destruct (interactive_device _ _); [|auto with mocha].
    cbv zeta. case_tests; unfold sysfs_write; auto with mocha. }
  repeat first [apply preserves_seq]; auto with mocha.
  case_tests; auto with mocha.
Qed.

#[local] Ltac get_replace :=
  apply preserves_get; intros ?; cbv zeta; apply preserves_replace; tracked_solve.
#[local] Ltac when_camera :=
  case_tests; [apply preserves_replace_camera; tracked_solve | apply preserves_skip].

Lemma run_op_preserves op : (uses_max op = true -> with_max = true) -> preserves T (run_op op).
Proof.
  intros Hmax. destruct op as [v|v|v|v|v|v|v|v|v|v|v|v|v|v|cap| |hint data s ns|on];
    unfold run_op; simpl in Hmax.
  - unfold set_app_profile_min_cpu_freq. get_replace.
  - unfold set_app_profile_max_cpu_freq. get_replace.
  - unfold set_app_profile_max_cpu_freq_percent, set_app_profile_max_cpu_freq.
    apply preserves_get; intros ?. get_replace.
  - unfold set_app_profile_max_online_cpus. get_replace.
  - apply preserves_replace; tracked_solve.
  - apply preserves_replace; tracked_solve.
  - unfold set_app_profile_max_gpu_freq. get_replace.
  - apply preserves_emit_prop.
  - apply preserves_get; intros ?. apply preserves_emit_prop.
  - apply preserves_get; intros ?. case_tests;
      first [apply preserves_skip | apply preserves_emit_sysfs].
  - unfold set_camera_cpu_freq_min. when_camera.
  - unfold set_camera_cpu_freq_max. when_camera.
  - apply preserves_replace_camera; tracked_solve.
  - unfold set_camera_max_online_cpus. case_tests; [|apply preserves_skip].
    apply preserves_replace_camera; [done|]. split; [done|auto].
  - unfold set_camera_phs_hints, set_camera_single_phs_hint.
    repeat apply preserves_seq; apply preserves_when, preserves_get; intros ?;
      case_tests; auto with mocha.
  - apply reset_camera_preserves; auto.
  - apply hint_preserves.
  - apply interactive_preserves.
Qed.

Lemma run_ops_preserves ops :
  Forall (fun op => uses_max op = true -> with_max = true) ops -> preserves T (run_ops ops).
Proof.
  unfold run_ops. assert (Hs : preserves T skip) by auto with mocha. revert Hs.
  generalize skip. induction ops as [|op ops IH]; intros m Hm Hf; simpl; [done|].
  apply Forall_cons in Hf as [Hop Hf]. apply IH; [|done].
  apply preserves_seq; [done|by apply run_op_preserves].
Qed.
End Ops.

(** ** Completeness of the constraint commands *)

(** The text of a constraint reaches the kernel whole. *)
Definition complete (x : effect) : Prop :=
  match x with
  | ETimed _ (ReqConstraint p mx mn) _ =>
      request_data (ReqConstraint p mx mn) = WStr (constraint_text p mx mn)
  | EWrite _ (WStr s) => exists p mx mn, s = constraint_text p mx mn /\ one_sided mx mn
  | _ => True
  end.

(** The defaults an operation may fall back to are [int]s. *)
Definition defaults_ok (h : hal) : Prop :=
  is_int (def_min_freq (h_config h)) /\ is_int (def_max_freq (h_config h)) /\
  is_int (def_core_cap (h_config h)) /\ is_int (def_gpu_cap (h_config h)) /\
  is_int (cpu0_max_frequency (h_freq h)).

Definition emits (m : M unit) : Prop :=
  forall h l, defaults_ok h ->
    defaults_ok (m h l).2.1 /\ exists new, (m h l).2.2 = l ++ new /\ Forall complete new.

Lemma emits_seq m1 m2 : emits m1 -> emits m2 -> emits (m1;; m2).
Proof.
  intros H1 H2 h l Hd. destruct (H1 h l Hd) as (Hd1 & n1 & Hl1 & Hf1).
  unfold mbind, M_bind. destruct (m1 h l) as [[] [h1 l1]]. simpl in *. subst l1.
  destruct (H2 h1 (l ++ n1) Hd1) as (Hd2 & n2 & Hl2 & Hf2).
  split; [exact Hd2|]. exists (n1 ++ n2). rewrite app_assoc. split; [exact Hl2|].
  by apply Forall_app.
Qed.

Lemma emits_get f : (forall h, defaults_ok h -> emits (f h)) -> emits (h ← get; f h).
Proof. intros Hf h l Hd. by apply Hf. Qed.

Lemma emits_get_fd n f : (forall v, emits (f v)) -> emits (v ← get_fd n; f v).
Proof. intros Hf h l Hd. by apply Hf. Qed.

Lemma emits_skip : emits skip.
Proof. intros h l Hd. split; [exact Hd|]. exists []. by rewrite app_nil_r. Qed.

Lemma emits_when b m : emits m -> emits (when b m).
Proof. destruct b; [done|]. intros _. apply emits_skip. Qed.

Lemma emits_emit x : complete x -> emits (emit x).
Proof. intros Hx h l Hd. split; [exact Hd|]. exists [x]. by rewrite Forall_singleton. Qed.

Lemma emits_modify f : (forall h, defaults_ok h -> defaults_ok (f h)) -> emits (modify f).
Proof. intros Hf h l Hd. split; [by apply Hf|]. exists []. by rewrite app_nil_r. Qed.

Lemma emits_set_fd n v : emits (set_fd n v).
Proof. by apply emits_modify. Qed.

Lemma emits_close fd : emits (close_fd fd).
Proof. by apply emits_emit. Qed.

Lemma emits_request e path r f :
  match r with
  | ReqVal _ => True
  | ReqConstraint p mx mn => 0 <= p <= 99 /\ is_int mx /\ is_int mn /\ one_sided mx mn
  end ->
  (forall v, emits (f v)) -> emits (v ← requestPmQos e path r; f v).
Proof.
  intros Hr Hf h l Hd. unfold mbind, M_bind, requestPmQos.
  destruct (kopen e l path <? 0).
  - destruct (Hf (-1) h (l ++ [EOpen path (-1)]) Hd) as (Hd' & new & Hl & Hn).
    split; [exact Hd'|]. exists (EOpen path (-1) :: new). rewrite Hl, <- app_assoc.
    split; [done|]. by constructor.
  - set (x := EWrite _ _). assert (Hx : complete x).
    { unfold x. destruct r as [v|p mx mn]; [done|].
      destruct Hr as (? & ? & ? & ?). rewrite request_data_exact by done. simpl. eauto. }
    destruct (Hf (kopen e l path) h (l ++ [EOpen path (kopen e l path); x]) Hd)
      as (Hd' & new & Hl & Hn).
    split; [exact Hd'|]. exists (EOpen path (kopen e l path) :: x :: new).
    rewrite Hl, <- app_assoc. split; [done|]. by repeat constructor.
Qed.

Lemma is_int_default : is_int PM_QOS_DEFAULT_VALUE.
Proof. unfold is_int, INT_MIN, INT_MAX, PM_QOS_DEFAULT_VALUE. lia. Qed.

Lemma emits_replace e n path mx mn :
  is_int mx -> is_int mn -> one_sided mx mn -> emits (replace_constraint e n path mx mn).
Proof.
  intros. unfold replace_constraint. apply emits_get_fd; intros fd. apply emits_seq.
  - case_tests; [apply emits_seq; [apply emits_close|apply emits_set_fd]|apply emits_skip].
  - apply emits_request; [|intros; apply emits_set_fd].
    split_and!; try done; unfold PM_QOS_APP_PROFILE_PRIORITY; lia.
Qed.

Lemma emits_replace_max e n path mx : is_int mx ->
  emits (replace_constraint e n path mx PM_QOS_DEFAULT_VALUE).
Proof. intros. apply emits_replace; [done|apply is_int_default|by right]. Qed.

Lemma emits_replace_min e n path mn : is_int mn ->
  emits (replace_constraint e n path PM_QOS_DEFAULT_VALUE mn).
Proof. intros. apply emits_replace; [apply is_int_default|done|by left]. Qed.

Lemma emits_replace_camera e n path v : emits (replace_camera e n path v).
Proof.
  unfold replace_camera. apply emits_get_fd; intros fd. apply emits_seq.
  - case_tests; [apply emits_close|apply emits_skip].
  - apply emits_request; [done|intros; apply emits_set_fd].
Qed.

Lemma percent_target_int cpu0 p : is_int cpu0 -> is_int (percent_target cpu0 p).
Proof.
  intros Hc. unfold percent_target. case_tests; try done.
  all: match goal with |- is_int (c_div (wrap_s32 ?x) 100) => pose proof (wrap_s32_range x) as Hw end.
  all: unfold is_int, INT_MIN, INT_MAX, c_div in *.
  all: pose proof (Z.quot_le_mono (-2 ^ 31) _ 100 ltac:(lia) (proj1 Hw)) as H1.
  all: pose proof (Z.quot_le_mono _ (2 ^ 31 - 1) 100 ltac:(lia) (proj2 Hw)) as H2.
  all: vm_compute (Z.quot (-2 ^ 31) 100) in H1; vm_compute (Z.quot (2 ^ 31 - 1) 100) in H2; lia.
Qed.

Lemma emits_timed path r t : complete (ETimed path r t) -> emits (requestPmQosTimed path r t).
Proof. apply emits_emit. Qed.

Lemma emits_boost path v t : is_int v -> emits (boost path v t).
Proof.
  intros Hv. apply emits_timed. apply request_data_exact; [|apply is_int_default|done|by left].
  unfold PM_QOS_BOOST_PRIORITY; lia.
Qed.

Lemma emits_drop n : emits (drop_camera_fd n).
Proof.
  unfold drop_camera_fd. apply emits_get_fd; intros fd.
  apply emits_when, emits_seq; [apply emits_close|apply emits_set_fd].
Qed.

Lemma emits_set_camera x : emits (set_camera x).
Proof. by apply emits_modify. Qed.

(** The [int] arguments of an operation. *)
Definition op_args_ok (op : hal_op) : Prop :=
  match op with
  | OpAppMinCpu v | OpAppMaxCpu v | OpAppMaxCpuPercent v | OpAppMaxOnline v
  | OpAppMinOnline v | OpAppMinGpu v | OpAppMaxGpu v => is_int v
  | _ => True
  end.

Lemma emits_hint e k bits s2 ms2 hint data s ns :
  emits (common_power_hint e k bits s2 ms2 hint data s ns).
Proof.
  assert (Hi : forall z, 0 <= z <= INT_MAX -> is_int z).
  { unfold is_int, INT_MIN, INT_MAX. lia. }
  unfold common_power_hint. apply emits_get; intros h Hd.
  destruct (check_hint _ _ _ _ _ _); [|apply emits_skip].
  apply emits_seq; [|apply emits_get; intros h' Hd'; by apply emits_modify].
  unfold hint_actions. case_tests; try apply emits_skip;
    repeat apply emits_seq; try apply emits_boost; try (apply Hi; unfold INT_MAX; lia);
    try by apply emits_timed.
  destruct data as [v|]; [|apply emits_skip].
  unfold set_vsync_min_cpu_freq. apply emits_get_fd; intros fd. case_tests.
  - apply emits_request; [|intros; apply emits_set_fd].
    split_and!; [done|done|apply is_int_default|apply Hi; done|by left].
  - apply emits_seq; [apply emits_close|apply emits_set_fd].
  - apply emits_skip.
Qed.

Lemma emits_sysfs path v : emits (sysfs_write path v).
Proof. by apply emits_emit. Qed.

Lemma emits_interactive e on : emits (common_power_set_interactive e on).
Proof.
  unfold common_power_set_interactive. apply emits_get; intros h Hd. cbv zeta.
  apply emits_seq; [apply emits_sysfs|]. apply emits_seq.
  - generalize emits_skip. generalize skip. induction (seqZ _ _) as [|i l IH]; intros m Hm; simpl; [done|].
    apply IH, emits_seq; [done|]. unfold switch_input.
    destruct (interactive_device _ _); [|apply emits_skip].
    cbv zeta. case_tests; (apply emits_sysfs || apply emits_skip).
  - apply emits_seq; [case_tests; [apply emits_sysfs|apply emits_skip]|].
    repeat apply emits_seq; apply emits_sysfs.
Qed.

Lemma emits_reset : emits reset_camera_hint.
Proof.
  unfold reset_camera_hint. apply emits_get_fd; intros fd.
  apply emits_seq; [apply emits_when, emits_set_fd|].
  apply emits_get; intros h Hd. apply emits_seq; [apply emits_set_camera|].
  apply emits_seq; [apply emits_drop|]. apply emits_seq; [apply emits_drop|].
  apply emits_get_fd; intros fda.
  apply emits_seq; [apply emits_when, emits_seq; [apply emits_close|apply emits_set_fd]|].
  apply emits_seq; [apply emits_drop|]. apply emits_seq; [apply emits_drop|].
  apply emits_get; intros h' Hd'. apply emits_when, emits_seq; [apply emits_set_camera|].
  by apply emits_when, emits_emit.
Qed.

#[local] Ltac camera_case :=
  case_tests; [apply emits_replace_camera | apply emits_skip].

Lemma run_op_emits e k bits s2 ms2 op : op_args_ok op -> emits (run_op e k bits s2 ms2 op).
Proof.
  intros Ha. destruct op as [v|v|v|v|v|v|v|v|v|v|v|v|v|v|cap| |hint data s ns|on];
    unfold run_op; simpl in Ha.
  - apply emits_get; intros h Hd. apply emits_replace_min. case_tests; [apply Hd|done].
  - apply emits_get; intros h Hd. apply emits_replace_max. case_tests; [apply Hd|done].
  - apply emits_get; intros h Hd. apply emits_get; intros h' Hd'. apply emits_replace_max.
    case_tests; [apply Hd'|]. apply percent_target_int, Hd.
  - apply emits_get; intros h Hd. apply emits_replace_max. case_tests; [apply Hd|done].
  - by apply emits_replace_min.
  - apply emits_replace_min. case_tests; unfold is_int, INT_MIN, INT_MAX; lia.
  - apply emits_get; intros h Hd. apply emits_replace_max. case_tests; [apply Hd|done].
  - by apply emits_emit.
  - apply emits_get; intros h Hd. by apply emits_emit.
  - apply emits_get; intros h Hd. case_tests; (apply emits_skip || apply emits_sysfs).
  - unfold set_camera_cpu_freq_min. camera_case.
  - unfold set_camera_cpu_freq_max. camera_case.
  - apply emits_replace_camera.
  - unfold set_camera_max_online_cpus. camera_case.
  - unfold set_camera_phs_hints, set_camera_single_phs_hint.
    repeat apply emits_seq; apply emits_when, emits_get; intros h Hd;
      case_tests; (apply emits_skip || by apply emits_emit || apply emits_set_camera).
  - apply emits_reset.
  - apply emits_hint.
  - apply emits_interactive.
Qed.

Lemma run_ops_emits e k bits s2 ms2 ops :
  Forall op_args_ok ops -> emits (run_ops e k bits s2 ms2 ops).
Proof.
  unfold run_ops. generalize emits_skip. generalize skip.
  induction ops as [|op ops IH]; intros m Hm Hf; simpl; [done|].
  apply Forall_cons in Hf as [Hop Hf]. apply IH; [|done].
  apply emits_seq; [done|by apply run_op_emits].
Qed.

(** ** Properties *)

(** A HAL as [shield_power_open] leaves it: opened, then the camera fields set. *)
Definition opened_hal (e : env) (k : hint_codes) fuel libphs cap (h00 h : hal) : Prop :=
  exists h1, common_power_open e k fuel libphs h00 = Some h1 /\
    h = common_power_camera_init cap h1.

Lemma opened_hal_fds e k fuel libphs cap h00 h n :
  opened_hal e k fuel libphs cap h00 h ->
  h_fds h n = if decide (n = fd_max_online_cpus) then 0 else -1.
Proof.
  intros (h1 & Ho & ->). unfold common_power_open in Ho.
  apply bind_Some in Ho as ([cnt devs] & _ & Ho). apply bind_Some in Ho as (x & _ & [= <-]).
  by destruct n.
Qed.

(** Every close was of an open descriptor, and the open ones are the values of the tracked
    fields, each of exactly one. *)
Definition disciplined (with_max : bool) (r : unit * (hal * list effect)) : Prop :=
  let fds := log_fds r.2.2 in
  fds.2 = true /\
  (forall fd, fd ∈ fds.1 -> exists n, tracked with_max n /\ h_fds r.2.1 n = fd /\
     forall m, tracked with_max m -> h_fds r.2.1 m = fd -> m = n) /\
  (forall n, tracked with_max n -> h_fds r.2.1 n <> -1 -> h_fds r.2.1 n ∈ fds.1).

Lemma inv_disciplined with_max r : hal_inv (tracked with_max) r.2.1 r.2.2 -> disciplined with_max r.
Proof.
  intros [H1 H2 H3 H4]. split_and!; [done| |].
  - intros fd Hfd. destruct (H4 fd Hfd) as [Hpos (n & Tn & Hn)]. exists n. split_and!; [done..|].
    intros m Tm Hm. apply H3; [done|done|congruence|]. lia.
  - intros n Tn Hn. by destruct (H2 n Tn) as [?|[_ ?]].
Qed.

(** The log of a process that starts with its standard input open. *)
Definition standard_input : list effect := [EOpen "/dev/stdin" 0].

Lemma opened_without_max e k fuel libphs cap h00 h :
  opened_hal e k fuel libphs cap h00 h -> hal_inv (tracked false) h [].
Proof.
  intros Ho. assert (Hn : forall n, tracked false n -> h_fds h n = -1).
  { intros n [_ Hm]. rewrite (opened_hal_fds _ _ _ _ _ _ _ n Ho).
    case_decide as Hd; [|done]. by specialize (Hm Hd). }
  constructor; simpl; [done| | |].
  - intros n Tn. left. by apply Hn.
  - intros n m Tn Tm _. by rewrite Hn.
  - intros fd Hfd. by apply elem_of_empty in Hfd.
Qed.

Lemma opened_with_max e k fuel libphs cap h00 h :
  opened_hal e k fuel libphs cap h00 h -> hal_inv (tracked true) h standard_input.
Proof.
  intros Ho. pose proof (fun n => opened_hal_fds _ _ _ _ _ _ _ n Ho) as Hf.
  constructor; simpl; [by rewrite bool_decide_true by set_solver| | |].
  - intros n _. rewrite Hf. case_decide; [right; split; [done|set_solver]|by left].
  - intros n m _ _. rewrite !Hf. repeat case_decide; congruence.
  - intros fd Hfd. assert (fd = 0) as -> by set_solver. split; [done|].
    exists fd_max_online_cpus. split; [by split|]. rewrite Hf. by rewrite decide_True.
Qed.

(** C15. From the opened state on, any sequence of HAL operations but the camera's
    [max_online_cpus] setter and its reset closes only descriptors it holds, each exactly
    once, and at every point each open descriptor is the value of exactly one field:
    constraints are replaced, never leaked or duplicated.  With those two operations the
    same holds if descriptor 0, the standard input of the process, counts as held from the
    start: it is the initial value of [fd_max_online_cpus], and is the one descriptor the
    HAL closes without having opened it ([camera_max_closes_stdin]). *)
Theorem power_fd_discipline e k bits s2 ms2 fuel libphs cap h00 h ops
    (Hk : kernel_ok e) (Ho : opened_hal e k fuel libphs cap h00 h) :
  (Forall (fun op => uses_max op = false) ops ->
   disciplined false (run_ops e k bits s2 ms2 ops h [])) /\
  disciplined true (run_ops e k bits s2 ms2 ops h standard_input).
Proof.
  split; [intros Hops|]; apply inv_disciplined, run_ops_preserves; try done.
  - eapply Forall_impl; [exact Hops|]. intros op Hop. simpl. congruence.
  - by eapply opened_without_max.
  - by apply Forall_forall.
  - by eapply opened_with_max.
Qed.

(** The field [camera_power.fd_max_online_cpus] is cleared by [memset] and,
    unlike its siblings, never set to -1: the first [max_online_cpus] request and
    the first camera reset after opening close descriptor 0. *)
Theorem camera_max_closes_stdin e k bits s2 ms2 fuel libphs cap h00 h v
    (Ho : opened_hal e k fuel libphs cap h00 h) (Hv : 0 < v) :
  (exists rest, (run_op e k bits s2 ms2 (OpCamMaxOnline v) h []).2.2 = EClose 0 :: rest) /\
  (run_op e k bits s2 ms2 OpCamReset h []).2.2 = [EClose 0].
Proof.
  pose proof (fun n => opened_hal_fds _ _ _ _ _ _ _ n Ho) as Hf. split.
  - simpl. unfold set_camera_max_online_cpus. rewrite (proj2 (Z.ltb_lt 0 v)) by done.
    rewrite replace_camera_eq, Hf. simpl. unfold request_into, mbind, M_bind, requestPmQos.
    destruct (kopen e _ _ <? 0); simpl; eauto.
  - destruct Ho as (h1 & _ & ->). pose proof (Hf app_min_freq) as Ha. simpl in Ha.
    simpl. cbv [reset_camera_hint get_fd mbind M_bind get mret M_ret when set_camera modify
                drop_camera_fd close_fd emit set_fd]. simpl.
    rewrite Ha. reflexivity.
Qed.

(** Every constraint command any sequence of operations sends to the kernel,
    directly or through the timeout poker, is complete: none is truncated by the
    20-byte command buffer. *)
Theorem power_commands_complete e k bits s2 ms2 h ops
    (Hd : defaults_ok h) (Hops : Forall op_args_ok ops) :
  Forall complete (run_ops e k bits s2 ms2 ops h []).2.2.
Proof.
  destruct (run_ops_emits e k bits s2 ms2 ops Hops h [] Hd) as (_ & new & Hl & Hf).
  by rewrite Hl.
Qed.

(** *** A concrete system *)

Definition sample_kopen (l : list effect) (path : string) : Z :=
  3 + Z.of_nat (fresh (set_map (fun fd => Z.to_nat (fd - 3)) (log_fds l).1 : gset nat)).

Definition NL : ascii := "010"%char.

Definition sample_text (path : string) : bytes :=
  if bool_decide (path = FREQ_NODE) then lit "204000 1122000 2116500 " ++ [NL]
  else if bool_decide (path = LP_NODE) then lit "696000" ++ [NL]
  else lit "2116500" ++ [NL].

Definition sample_env : env :=
  mk_env sample_kopen sample_text (fun _ => true)
    (fun path => bool_decide (path = "/sys/class/input/input0/name") ||
                 bool_decide (path = "/sys/class/input/input0/enabled")) (fun _ => None).

Definition sample_codes : hint_codes := mk_codes 1 2 8 48 3 4 5.

Definition calloc_hal : hal :=
  mk_hal (fun _ => 0) (mk_freq [] 0 0 0 0 0) (mk_hints (replicate 48 0) (replicate 48 0) 0)
    (mk_config 0 None 0 0 0 0 0 0 false false false false false) (mk_camera 0 [] 0).

Definition sample_opened : hal :=
  default calloc_hal (common_power_open sample_env sample_codes 4 false calloc_hal).
Definition sample_hal : hal := common_power_camera_init [] sample_opened.

Lemma sample_kernel_ok : kernel_ok sample_env.
Proof.
  intros l path. right. simpl. unfold sample_kopen. intros Hin.
  apply (is_fresh (set_map (fun fd => Z.to_nat (fd - 3)) (log_fds l).1 : gset nat)).
  apply elem_of_map. eexists. split; [|exact Hin]. lia.
Qed.

Lemma sample_opened_hal : opened_hal sample_env sample_codes 4 false [] calloc_hal sample_hal.
Proof. exists sample_opened. split; [|done]. vm_compute. reflexivity. Qed.

Definition sample_ops : list hal_op :=
  [OpAppMaxCpu 1122000; OpAppMaxCpu 2116500; OpHint 1 (Some 1) 10 0; OpCamMinFreq 700000;
   OpInteractive 1].

Lemma power_fd_discipline_witness :
  let run := run_ops sample_env sample_codes 32 (fun s => s) (fun s => s) sample_ops sample_hal [] in
  let all := run_ops sample_env sample_codes 32 (fun s => s) (fun s => s)
               (sample_ops ++ [OpCamMaxOnline 2; OpCamReset]) sample_hal standard_input in
  h_fds run.2.1 app_max_freq = 3 /\ h_fds run.2.1 vsync_min_cpu = 4 /\
  h_fds run.2.1 fd_cpu_freq_min = 5 /\ disciplined false run /\
  omap (fun x => match x with EClose fd => Some fd | _ => None end) all.2.2 = [4; 0; 6; 7] /\
  disciplined true all.
Proof.
  intros run all. do 3 (split; [vm_compute; reflexivity|]). split; [|split].
  - apply (power_fd_discipline sample_env sample_codes 32 (fun s => s) (fun s => s) 4 false []
           calloc_hal sample_hal sample_ops sample_kernel_ok sample_opened_hal).
    repeat constructor.
  - vm_compute. reflexivity.
  - exact (proj2 (power_fd_discipline sample_env sample_codes 32 (fun s => s) (fun s => s) 4 false []
           calloc_hal sample_hal (sample_ops ++ [OpCamMaxOnline 2; OpCamReset]) sample_kernel_ok
           sample_opened_hal)).
Defined.

Lemma camera_max_closes_stdin_witness :
  (exists rest, (run_op sample_env sample_codes 32 (fun s => s) (fun s => s) (OpCamMaxOnline 2)
                   sample_hal []).2.2 = EClose 0 :: rest) /\
  (run_op sample_env sample_codes 32 (fun s => s) (fun s => s) OpCamReset sample_hal []).2.2 =
    [EClose 0].
Proof.
  exact (camera_max_closes_stdin sample_env sample_codes 32 (fun s => s) (fun s => s) 4 false []
           calloc_hal sample_hal 2 sample_opened_hal eq_refl).
Defined.

Lemma power_commands_complete_witness :
  Forall complete (run_ops sample_env sample_codes 32 (fun s => s) (fun s => s) sample_ops
                     sample_hal []).2.2.
Proof.
  apply (power_commands_complete sample_env sample_codes 32 (fun s => s) (fun s => s) sample_hal
           sample_ops).
  - vm_compute. intuition discriminate.
  - repeat constructor; vm_compute; intuition discriminate.
Defined.

(** *** Rate limiting *)

Section RateLimit.
Variable e : env.
Variable k : hint_codes.
Variable LONG_BITS : Z.
Variables s2ns ms2ns : Z -> Z.
#[local] Abbreviation hint_run := (common_power_hint e k LONG_BITS s2ns ms2ns).

(** The microseconds of a monotonic time stamp, when they fit in a [long]. *)
Definition stamp (sec nsec us : Z) : Prop :=
  us = sec * 1000000 + nsec / 1000 /\ 0 <= sec /\ 0 <= nsec < 1000000000 /\
  us < 2 ^ (LONG_BITS - 1).

Lemma time_us_exact sec nsec us :
  1 < LONG_BITS <= 64 -> stamp sec nsec us -> time_us LONG_BITS sec nsec = us /\ 0 <= us < 2 ^ 63.
Proof.
  intros Hb (Hus & Hs & Hn & Hlt).
  assert (Hp : 2 ^ LONG_BITS = 2 * 2 ^ (LONG_BITS - 1)).
  { rewrite <- Z.pow_succ_r by lia. f_equal; lia. }
  assert (H64 : 2 ^ (LONG_BITS - 1) <= 2 ^ 63) by (apply Z.pow_le_mono_r; lia).
  assert (Hd : 0 <= nsec / 1000) by (apply Z.div_pos; lia).
  assert (Hwrap : forall z, 0 <= z < 2 ^ (LONG_BITS - 1) -> wrap_long LONG_BITS z = z).
  { intros z Hz. unfold wrap_long. rewrite Z.mod_small; lia. }
  unfold time_us. rewrite c_div_div by lia.
  rewrite (Hwrap (sec * 1000000)) by lia. rewrite <- Hus, Hwrap by lia.
  rewrite wrap_u64_id; lia.
Qed.

Lemma hint_actions_hints hint data h l :
  h_hints (hint_actions e k s2ns ms2ns hint data h l).2.1 = h_hints h.
Proof.
  unfold hint_actions, boost, requestPmQosTimed. case_tests; try done.
  destruct data as [v|]; [|done]. rewrite vsync_eq.
  case_tests; [|done|done]. unfold request_into, mbind, M_bind, requestPmQos.
  by destruct (kopen e l _ <? 0).
Qed.

(** A hint accepted at one time suppresses, without any effect, every repeat
    of it within its interval, and a repeat at or after the interval is accepted
    again; hints at or above [POWER_HINT_SET_PROFILE] never pass. *)
Theorem hint_rate_limit hint data1 data2 s1 n1 us1 s2 n2 us2 h l
    (Hb : 1 < LONG_BITS <= 64)
    (H1 : stamp s1 n1 us1) (H2 : stamp s2 n2 us2) (Hle : 0 < us1 <= us2)
    (Hh : 0 <= hint < MAX_POWER_HINT_COUNT k) (Hlen : hint < zlen (hint_time (h_hints h)))
    (Hacc : check_hint k LONG_BITS (h_hints h) hint s1 n1 <> None) :
  let interval := default 0 (zlookup (hint_interval (h_hints h)) hint) in
  let st := (hint_run hint data1 s1 n1 h l).2 in
  (us2 - us1 < interval -> hint_run hint data2 s2 n2 st.1 st.2 = (tt, st)) /\
  (interval <= us2 - us1 ->
     check_hint k LONG_BITS (h_hints st.1) hint s2 n2 = Some us2) /\
  (forall hint', MAX_POWER_HINT_COUNT k <= hint' ->
     hint_run hint' data2 s2 n2 h l = (tt, (h, l))).
Proof.
  intros interval st.
  destruct (time_us_exact s1 n1 us1 Hb H1) as [Ht1 Hr1].
  destruct (time_us_exact s2 n2 us2 Hb H2) as [Ht2 Hr2].
  assert (Hhints : h_hints st.1 = mk_hints (<[Z.to_nat hint := us1]> (hint_time (h_hints h)))
            (hint_interval (h_hints h)) (wait_cond_word (h_hints h))).
  { unfold st, common_power_hint, mbind, M_bind, get. cbn -[check_hint hint_actions].
    destruct (check_hint k LONG_BITS (h_hints h) hint s1 n1) as [t|] eqn:Hc; [|done].
    unfold check_hint in Hc. case_test_in Hc; [lia|]. case_test_in Hc; [done|].
    injection Hc as <-. rewrite Ht1.
    pose proof (hint_actions_hints hint data1 h l) as Ha.
    destruct (hint_actions _ _ _ _ _ _ h l) as [u [h' l']]. simpl in *. by rewrite Ha. }
  assert (Hcheck : check_hint k LONG_BITS (h_hints st.1) hint s2 n2 =
            if us2 - us1 <? interval then None else Some us2).
  { unfold check_hint. rewrite (proj2 (Z.leb_gt _ _)) by lia. rewrite Hhints; simpl.
    assert (Hlast : zlookup (<[Z.to_nat hint:=us1]> (hint_time (h_hints h))) hint = Some us1).
    { unfold zlookup. rewrite (proj2 (Z.ltb_ge hint 0)) by lia.
      apply list_lookup_insert_eq. unfold zlen in Hlen; lia. }
    rewrite Hlast. fold interval. simpl. rewrite Ht2, wrap_u64_id by lia.
    rewrite (proj2 (Z.eqb_neq us1 0)) by lia. simpl.
    destruct (interval =? 0) eqn:E; breflect; simpl; [|done].
    rewrite (proj2 (Z.ltb_ge (us2 - us1) interval)) by lia. done. }
  split_and!.
  - intros Hlt. unfold common_power_hint, mbind, M_bind, get. cbn -[check_hint].
    rewrite Hcheck, (proj2 (Z.ltb_lt (us2 - us1) interval)) by lia. by destruct st.
  - intros Hge. rewrite Hcheck, (proj2 (Z.ltb_ge (us2 - us1) interval)) by lia. done.
  - intros hint' Hm. unfold common_power_hint, mbind, M_bind, get, check_hint. simpl.
    by rewrite (proj2 (Z.leb_le (MAX_POWER_HINT_COUNT k) hint')) by lia.
Qed.
End RateLimit.

Lemma hint_rate_limit_witness :
  let st := (common_power_hint sample_env sample_codes 32 (fun s => s) (fun s => s) 2 None 10 0
               sample_hal []).2 in
  (10050000 - 10000000 < 90000 ->
     common_power_hint sample_env sample_codes 32 (fun s => s) (fun s => s) 2 None 10 50000000
       st.1 st.2 = (tt, st)) /\
  (90000 <= 10050000 - 10000000 ->
     check_hint sample_codes 32 (h_hints st.1) 2 10 50000000 = Some 10050000) /\
  (forall hint', 48 <= hint' ->
     common_power_hint sample_env sample_codes 32 (fun s => s) (fun s => s) hint' None 10 50000000
       sample_hal [] = (tt, (sample_hal, []))).
Proof.
  refine (hint_rate_limit sample_env sample_codes 32 (fun s => s) (fun s => s) 2 None None
            10 0 10000000 10 50000000 10050000 sample_hal [] _ _ _ _ _ _ _);
    unfold stamp; try lia; vm_compute; done.
Defined.

(** On the 32-bit build the product of seconds and 1000000 leaves the [long] range
    after 2147 s of uptime: a repeat 100 us later is not recognised as one. *)
Lemma long_overflow_defeats_rate_limit :
  let x := mk_hints (replicate 48 0) (replicate 48 90000) 0 in
  check_hint sample_codes 32 x 2 2147 483600000 = Some 2147483600 /\
  check_hint sample_codes 32 (mk_hints (<[2%nat := 2147483600]> (replicate 48 0)) (replicate 48 90000) 0)
    2 2147 483700000 = Some (2 ^ 64 - 2147483596) /\
  check_hint sample_codes 64 (mk_hints (<[2%nat := 2147483600]> (replicate 48 0)) (replicate 48 90000) 0)
    2 2147 483700000 = None.
Proof. vm_compute. done. Qed.

(** *** The frequency table *)

(** What the kernel prints: every frequency followed by a space, then a newline. *)
Definition freq_text (fs : list Z) : bytes :=
  mjoin ((fun f => lit (print_int f) ++ [SPACE]) <$> fs) ++ [NL].

Lemma join_cons {A} (x : list A) l : mjoin (x :: l) = x ++ mjoin l.
Proof. done. Qed.

Lemma freq_word_space f : 0 <= f -> Forall (fun c => Ascii.eqb c SPACE = false) (lit (print_int f)).
Proof.
  intros Hf. destruct (print_nonneg f Hf) as (Hd & _ & _).
  eapply Forall_impl; [exact Hd|]. intros c Hc. by apply digit_char.
Qed.

Lemma freq_text_not_nul fs :
  Forall (fun f => 0 <= f) fs -> Forall (fun c => Ascii.eqb c NUL = false) (freq_text fs).
Proof.
  intros Hfs. unfold freq_text. apply Forall_app. split; [|by repeat constructor].
  induction Hfs as [|f fs Hf Hfs IH]; simpl; [constructor|].
  apply Forall_app. split; [|done]. apply Forall_app. split; [|by repeat constructor].
  by apply digits_not_nul, print_nonneg.
Qed.

Lemma freq_tokens fs :
  Forall (fun f => 0 <= f) fs ->
  tokens_from SPACE [] (freq_text fs) = ((fun f => lit (print_int f)) <$> fs) ++ [[NL]].
Proof.
  unfold freq_text. induction 1 as [|f fs Hf Hfs IH]; [done|].
  rewrite !fmap_cons, join_cons. rewrite <- !app_assoc. cbn [app].
  rewrite tokens_word by by apply freq_word_space. cbn [app]. rewrite IH. unfold flush_token.
  destruct (print_nonneg f Hf) as (_ & Hne & _). by rewrite decide_False.
Qed.

Lemma cstr_text w n : Forall (fun c => Ascii.eqb c NUL = false) w -> cstr (w ++ NUL :: n) = w.
Proof. intros Hw. rewrite cstr_app by done. simpl. by rewrite app_nil_r. Qed.

(** A read of [text] over [size] bytes of which the first [length text] are to be replaced. *)
Lemma read_over text old n :
  length old = length text -> read_into text (old ++ n) = text ++ n.
Proof. apply read_into_exact. Qed.

Lemma read_scalar z buf :
  0 <= z -> (length (lit (print_int z)) < length buf)%nat ->
  exists rest, read_into (lit (print_int z) ++ [NL]) buf = (lit (print_int z) ++ NL :: rest) /\
    length (lit (print_int z) ++ NL :: rest) = length buf.
Proof.
  intros Hz Hl. set (w := lit (print_int z)) in *.
  exists (drop (length (w ++ [NL])) buf). unfold read_into.
  assert (Hw : length (w ++ [NL]) = S (length w)) by (rewrite length_app; simpl; lia).
  rewrite Nat.min_l by lia. rewrite firstn_all, <- app_assoc. split; [done|].
  rewrite length_app. simpl. rewrite length_drop. lia.
Qed.

Lemma length_strtok_buffer d b w : length (strtok_buffer d b w) = length w.
Proof.
  revert b; induction w as [|c w IH]; intros b; simpl; [done|].
  repeat case_match; simpl; rewrite ?IH; done.
Qed.

Lemma first_at_least_spec fs d floor g :
  StronglySorted Z.le fs -> g ∈ fs -> floor <= g ->
  first_at_least floor fs d ∈ fs /\ floor <= first_at_least floor fs d <= g.
Proof.
  unfold first_at_least. induction 1 as [|f fs Hs IH Hall]; intros Hg Hfl; [by apply elem_of_nil in Hg|].
  destruct (decide (floor <= f)) as [Hf|Hf].
  - rewrite filter_cons_True by done. split; [by left|]. split; [done|].
    apply elem_of_cons in Hg as [->|Hg]; [lia|]. rewrite Forall_forall in Hall. by apply Hall.
  - rewrite filter_cons_False by done. apply elem_of_cons in Hg as [->|Hg]; [lia|].
    destruct (IH Hg Hfl) as [H1 H2]. split; [by right|done].
Qed.

(** Both tokenising passes see the text the kernel printed. *)
Lemma two_passes fs size :
  Forall (fun f => 0 <= f) fs -> (length (freq_text fs) < size)%nat ->
  let text := freq_text fs in
  let buf0 := read_into text (replicate size NUL) in
  let buf1 := read_into text (strtok_buffer SPACE false buf0) in
  strtok_tokens SPACE buf0 = ((fun f => lit (print_int f)) <$> fs) ++ [[NL]] /\
  strtok_tokens SPACE buf1 = ((fun f => lit (print_int f)) <$> fs) ++ [[NL]] /\
  length (strtok_buffer SPACE false buf1) = size.
Proof.
  intros Hfs Hlen text buf0 buf1. pose proof (freq_text_not_nul fs Hfs) as Hnn. fold text in Hnn.
  set (m := (size - length text - 1)%nat).
  assert (H0 : buf0 = text ++ NUL :: replicate m NUL).
  { unfold buf0. replace (replicate size NUL)
      with (replicate (length text) NUL ++ NUL :: replicate m NUL).
    - by rewrite read_over by by rewrite length_replicate.
    - change (NUL :: replicate m NUL) with (replicate (S m) NUL).
      rewrite <- replicate_add. f_equal. unfold m, text. lia. }
  destruct (strtok_buffer_prefix SPACE false text (replicate m NUL) Hnn) as (w' & Hw & Hl).
  assert (H1 : buf1 = text ++ NUL :: replicate m NUL).
  { unfold buf1. rewrite H0, Hw. by apply read_over. }
  unfold strtok_tokens. rewrite H0, H1, cstr_text by done.
  split_and!; [by apply freq_tokens|by apply freq_tokens|].
  rewrite length_strtok_buffer, length_app. simpl. rewrite length_replicate. unfold m, text. lia.
Qed.

(** On a table printed that way, the two tokenising passes over the same
    buffer recover exactly the frequencies (the newline token is the one not
    counted), the scalar nodes are parsed over the left-over bytes correctly, the
    last frequency is the one the start-up boost asks for, and on an ascending
    table each boost frequency is the least available one above its floor. *)
Theorem read_frequencies_correct (e : env) (fs : list Z) (lp cpu0 : Z) (size : nat)
    (Hf : sysfs_text e FREQ_NODE = freq_text fs) (Hfs : Forall (fun f => 0 <= f) fs)
    (Hlen : (length (freq_text fs) < size)%nat)
    (Hlp : sysfs_text e LP_NODE = lit (print_int lp) ++ [NL]) (Hlp0 : 0 <= lp)
    (Hcpu : sysfs_text e SYS_NODE_CPU0_MAX_FREQ = lit (print_int cpu0) ++ [NL]) (Hcpu0 : 0 <= cpu0)
    (Hl1 : (length (lit (print_int lp)) < size)%nat)
    (Hl2 : (length (lit (print_int cpu0)) < size)%nat) :
  read_frequencies e size =
    mk_freq fs (zlen fs) lp (first_at_least 1326000 fs lp) (first_at_least 1024000 fs lp) cpu0 /\
  zlookup fs (zlen fs - 1) = last fs /\
  (StronglySorted Z.le fs -> forall floor g, g ∈ fs -> floor <= g ->
     first_at_least floor fs lp ∈ fs /\ floor <= first_at_least floor fs lp <= g).
Proof.
  split; [|split].
  - destruct (two_passes fs size Hfs Hlen) as (Ht0 & Ht1 & Hsz).
    unfold read_frequencies. rewrite Hf, Hlp, Hcpu, Ht0, Ht1.
    set (buf2 := strtok_buffer _ _ (read_into _ (strtok_buffer _ _ _))) in *.
    rewrite zlen_app, zlen_cons, zlen_nil, Z.add_simpl_r. unfold zlen. rewrite length_fmap, Nat2Z.id.
    rewrite take_app_le by (rewrite length_fmap; lia).
    rewrite take_ge by (rewrite length_fmap; lia).
    assert (Hconv : atoi <$> ((fun f => lit (print_int f)) <$> fs) = fs).
    { clear -Hfs. induction Hfs as [|f fs Hf Hfs IH]; [done|].
      rewrite !fmap_cons, IH. f_equal.
      rewrite <- (app_nil_r (lit (print_int f))). by apply atoi_print. }
    rewrite Hconv.
    destruct (read_scalar lp buf2 Hlp0 ltac:(lia)) as (r1 & -> & Hr1).
    rewrite atoi_print by done.
    destruct (read_scalar cpu0 (lit (print_int lp) ++ NL :: r1) Hcpu0 ltac:(lia)) as (r2 & -> & _).
    by rewrite atoi_print by done.
  - clear. destruct fs as [|f fs]; [done|]. unfold zlookup, zlen.
    rewrite last_lookup. case_tests; [simpl in *; lia|]. f_equal. simpl. lia.
  - intros Hs floor g. by apply first_at_least_spec.
Qed.

Lemma read_frequencies_correct_witness :
  let fs := [204000; 1122000; 2116500] in
  read_frequencies sample_env 256 =
    mk_freq fs 3 696000 (first_at_least 1326000 fs 696000) (first_at_least 1024000 fs 696000) 2116500 /\
  zlookup fs (zlen fs - 1) = last fs /\
  (StronglySorted Z.le fs -> forall floor g, g ∈ fs -> floor <= g ->
     first_at_least floor fs 696000 ∈ fs /\ floor <= first_at_least floor fs 696000 <= g).
Proof.
  intros fs. refine (read_frequencies_correct sample_env fs 696000 2116500 256 _ _ _ _ _ _ _ _ _);
    try (vm_compute; reflexivity); try lia; try (vm_compute; lia).
  repeat constructor; lia.
Defined.

(** *** Screen state *)

(** The input devices a screen change reaches: the mapped (or, without a map, all)
    devices whose [enabled] node is accessible, in order. *)
Definition switched_devices (e : env) (c : config) : list Z :=
  filter (fun d => accessible e (input_path d "/enabled") = true)
    (omap (interactive_device c) (seqZ 0 (input_cnt c))).

Definition screen_log (e : env) (c : config) (on : Z) : list effect :=
  let pick (off_ on_ : string) := if on =? 0 then off_ else on_ in
  [ESysfs "/sys/devices/platform/host1x/nvavp/boost_sclk" (pick "0" "1")] ++
  ((fun d => ESysfs (input_path d "/enabled") (pick "0" "1")) <$> switched_devices e c) ++
  (if switch_cpu_emc_limit_enabled c then [ESysfs CPU_EMC_RATIO_SRC_NODE (print_int on)] else []) ++
  [ESysfs (cpufreq_node "hispeed_freq") (pick "420000" "624000");
   ESysfs (cpufreq_node "target_loads")
     (pick "45 312000:75 564000:85" "65 228000:75 624000:85");
   ESysfs (cpufreq_node "above_hispeed_delay") (pick "80000" "19000");
   ESysfs (cpufreq_node "timer_rate") (pick "300000" "20000");
   ESysfs (cpufreq_node "boost_factor") (pick "2" "0")].

Lemma switch_inputs_log e c state (ids : list Z) m h l h0 l0 :
  m h l = (tt, (h0, l0)) ->
  fold_left (fun m i => m;; switch_input e state c i) ids m h l =
    (tt, (h0, l0 ++ ((fun d => ESysfs (input_path d "/enabled") state) <$>
       filter (fun d => accessible e (input_path d "/enabled") = true)
         (omap (interactive_device c) ids)))).
Proof.
  revert m l0; induction ids as [|i ids IH]; intros m l0 Hm; cbn [fold_left].
  - by rewrite app_nil_r.
  - assert (Hs : switch_input e state c i h0 l0 =
      (tt, (h0, l0 ++ ((fun d => ESysfs (input_path d "/enabled") state) <$>
         filter (fun d => accessible e (input_path d "/enabled") = true)
           (omap (interactive_device c) [i]))))).
    { unfold switch_input. cbn [omap list_omap].
      destruct (interactive_device c i) as [d|]; [|by rewrite app_nil_r].
      destruct (accessible e (input_path d "/enabled")) eqn:E.
      - by rewrite filter_cons_True.
      - by rewrite filter_cons_False, app_nil_r by congruence. }
    erewrite IH; [|unfold mbind, M_bind; rewrite Hm; exact Hs].
    rewrite <- app_assoc, <- fmap_app, <- filter_app. do 6 f_equal.
    cbn [omap list_omap]. by destruct (interactive_device c i).
Qed.

(** A change of the screen state writes exactly the NVAVP boost clock, the
    [enabled] node of every mapped and accessible input device, the CPU/EMC table
    (when present) and the five governor nodes, in this order, leaves the HAL's
    state alone; and switching off touches the same nodes as switching on. *)
Theorem interactive_writes (e : env) (on : Z) (h : hal) (l : list effect) :
  common_power_set_interactive e on h l = (tt, (h, l ++ screen_log e (h_config h) on)) /\
  (forall on', (fun x => match x with ESysfs p _ => p | _ => "" end) <$> screen_log e (h_config h) on
     = ((fun x => match x with ESysfs p _ => p | _ => "" end) <$> screen_log e (h_config h) on')).
Proof.
  split.
  - unfold common_power_set_interactive, screen_log.
    cbv [mbind M_bind get sysfs_write sysfs_write_int emit].
    set (st := if on =? 0 then "0" else "1").
    pose proof (switch_inputs_log e (h_config h) st (seqZ 0 (input_cnt (h_config h))) skip h
      (l ++ [ESysfs "/sys/devices/platform/host1x/nvavp/boost_sclk" st]) h
      (l ++ [ESysfs "/sys/devices/platform/host1x/nvavp/boost_sclk" st]) eq_refl) as Hf.
    unfold mbind, M_bind in Hf. rewrite Hf. fold (switched_devices e (h_config h)).
    by destruct (switch_cpu_emc_limit_enabled (h_config h)); cbn; rewrite <- !app_assoc.
  - intros on'. unfold screen_log. rewrite !fmap_app, <- !list_fmap_compose.
    by destruct (switch_cpu_emc_limit_enabled (h_config h)).
Qed.

(** *** Hint intervals *)

Definition codes_below_max (k : hint_codes) : Prop :=
  Forall (fun c => 0 <= c < MAX_POWER_HINT_COUNT k)
    [POWER_HINT_VSYNC k; POWER_HINT_INTERACTION k; POWER_HINT_LAUNCH k;
     POWER_HINT_VIDEO_ENCODE k; POWER_HINT_VIDEO_DECODE k; POWER_HINT_LOW_POWER k].

Lemma set_interval_below k x i v :
  0 <= i < MAX_POWER_HINT_COUNT k ->
  set_interval k x i v =
    Some (mk_hints (hint_time x) (<[Z.to_nat i := v]> (hint_interval x)) (wait_cond_word x)).
Proof. intros Hi. unfold set_interval. by replace ((0 <=? i) && (i <? MAX_POWER_HINT_COUNT k)) with true by lia. Qed.

Lemma set_interval_max k x v :
  set_interval k x (POWER_HINT_SET_PROFILE k) v =
    Some (mk_hints (hint_time x) (hint_interval x) v).
Proof.
  unfold set_interval, MAX_POWER_HINT_COUNT. rewrite Z.ltb_irrefl, andb_false_r.
  by rewrite Z.eqb_refl.
Qed.

(** [common_power_open] meant to rate-limit profile hints to one every 200 ms,
    but the interval is stored one element behind the array of
    [MAX_POWER_HINT_COUNT] intervals, over the condition variable that follows it,
    and [check_hint] refuses the profile hint whatever the time. *)
Theorem profile_interval_overflows (k : hint_codes) (x : hint_info) (Hk : codes_below_max k) :
  (exists ivals, init_intervals k x = Some (mk_hints (hint_time x) ivals 200000) /\
     length ivals = length (hint_interval x)) /\
  (forall bits y sec nsec, check_hint k bits y (POWER_HINT_SET_PROFILE k) sec nsec = None).
Proof.
  unfold codes_below_max in Hk. rewrite !Forall_cons in Hk.
  destruct Hk as (H1 & H2 & H3 & H4 & H5 & H6 & _). split.
  - unfold init_intervals.
    do 2 (rewrite set_interval_below by assumption; cbn [mbind option_bind hint_time hint_interval wait_cond_word]).
    rewrite set_interval_max; cbn [mbind option_bind hint_time hint_interval wait_cond_word].
    do 4 (rewrite set_interval_below by assumption; cbn [mbind option_bind hint_time hint_interval wait_cond_word]).
    eexists; split; [reflexivity|]. by rewrite !length_insert.
  - intros bits y sec nsec. unfold check_hint, MAX_POWER_HINT_COUNT. by rewrite Z.leb_refl.
Qed.

Lemma profile_interval_overflows_witness :
  (exists ivals, init_intervals sample_codes (mk_hints (replicate 48 0) (replicate 48 0) 0) =
     Some (mk_hints (replicate 48 0) ivals 200000) /\ length ivals = 48%nat) /\
  (forall bits y sec nsec, check_hint sample_codes bits y 48 sec nsec = None).
Proof.
  apply (profile_interval_overflows sample_codes (mk_hints (replicate 48 0) (replicate 48 0) 0)).
  repeat constructor; vm_compute; congruence.
Defined.
