(* ===== verification/ShieldPower.v ===== *)
(** * The Shield power HAL module

    Models [hardware/nvidia/power/power.cpp]: the power HAL entry points over the
    common HAL of [PowerHal], the power-brick whitelist, the CPU and GPU floors and
    the GPU gating knobs.  Everything the module does to the system is one log:
    sleeps, threads started, and the effects of the common HAL. *)

From S2P Require Import Prelude.
From S2P Require Import CString.
From S2P Require Import PmQos.
From S2P Require Import PowerHal.
From Stdlib Require Import Ascii.

(** ** Effects and environment *)

Inductive seffect :=
| SSleep (seconds : Z)
| SSpawn (on : bool)
| SCommon (x : effect).

Definition common_log (l : list seffect) : list effect :=
  omap (fun x => match x with SCommon e => Some e | _ => None end) l.

(** Answers of the system; each may depend on everything done so far (so on the
    time slept).  [file_text] is what [sysfs_read] puts in the buffer. *)
Record senv := mk_senv {
  node_exists : list seffect -> string -> bool;
  file_text : list seffect -> string -> bytes;
  thread_starts : list seffect -> bool;
  property_text : string -> bytes;
}.

Definition swrite (path : string) (value : Z) : seffect := SCommon (ESysfs path (print_int value)).

Definition GPU_DELAY_MAX : Z := 20.
Definition GPU_STATE : string := "/dev/nvhost-gpu".
Definition GPU_PMU_STATE : string := "/sys/devices/platform/gpu.0/pmu_state".
Definition GPU_RAIL_GATE_NODE : string := "/sys/devices/platform/host1x/gpu.0/railgate_enable".
Definition GPU_BLCG_NODE : string := "/sys/devices/platform/gpu.0/blcg_enable".
Definition GPU_ELCG_NODE : string := "/sys/devices/platform/gpu.0/elcg_enable".
Definition GPU_ELPG_NODE : string := "/sys/devices/platform/gpu.0/elpg_enable".
Definition GPU_SLCG_NODE : string := "/sys/devices/platform/gpu.0/slcg_enable".
Definition GPU_MIN_FREQ : string := "/sys/devices/platform/host1x/gpu.0/devfreq/gpu.0/min_freq".
Definition CPU_CC_STATE_NODE : string := "/sys/kernel/debug/cpuidle_t210/fast_cluster_states_enable".
Definition CPU_CEILING_NODE : string := "/sys/devices/system/cpu/cpu0/cpufreq/scaling_max_freq".
Definition CPU_FLOOR_NODE : string := "/sys/devices/system/cpu/cpu0/cpufreq/scaling_min_freq".
Definition ETHERNET_POWER_SAVER_NODE : string := "/sys/kernel/rt8168_power/mode".
Definition SOC_DISABLE_DVFS_NODE : string := "/sys/module/tegra21_dvfs/parameters/disable_core".
Definition BRICK_STATE_PROP : string := "persist.power.brick".
Definition CPU_CC_IDLE : Z := 1.
Definition CPU_CC_ON : Z := 207.
Definition CPU_CEILING_IDLE : Z := 1836000.
Definition CPU_CEILING_ON : Z := 2014500.
Definition CPU_FLOOR_ON : Z := 1132800.
Definition CPU_FLOOR_IDLE : Z := 1734000.
Definition CPU_FLOOR_WHITELIST : Z := 1100000.
Definition GPU_FLOOR_ON : Z := 768000000.
Definition GPU_FLOOR_IDLE : Z := 844800000.
Definition GPU_FLOOR_WHITELIST : Z := 384000000.

(** ** The power-brick whitelist *)

Definition brick_whitelist : list bytes := lit <$> ["PBTEST"; "PB1706"; "PB9999"].

(** [&brick[2]] read by [strtol(..., NULL, 10)]. *)
Definition brick_number (brick : bytes) : Z := atoi (drop 2 brick).

(** The loop over the pairs (low, high) behind the first entry. *)
Fixpoint in_ranges (ranges : list bytes) (brick : bytes) : bool :=
  match ranges with
  | low :: high :: rest =>
      ((brick_number brick <=? brick_number high) && (brick_number low <=? brick_number brick))
      || in_ranges rest brick
  | _ => false
  end.

Definition is_brick_whitelisted (brick : bytes) : bool :=
  match brick_whitelist with
  | first :: ranges =>
      if negb (strlen brick =? 6) || negb (strncmp_eq first brick 2) then false
      else if strncmp_eq first brick 7 then true
      else in_ranges ranges brick
  | [] => false
  end.

Section Shield.
Variable e : senv.

(** ** GPU gating *)

(** [while (--cnt > 0 && !sysfs_exists(GPU_STATE)) sleep(1);] *)
Fixpoint wait_sysfs_loop (cnt : nat) (l : list seffect) : nat * list seffect :=
  match cnt with
  | O => (O, l)
  | S cnt' =>
      if (0 <? Z.of_nat cnt') && negb (node_exists e l GPU_STATE)
      then wait_sysfs_loop cnt' (l ++ [SSleep 1]) else (cnt', l)
  end.

Definition wait_for_gpu_sysfs (l : list seffect) : bool * list seffect :=
  let '(cnt, l) := wait_sysfs_loop (Z.to_nat (Z.shiftr GPU_DELAY_MAX 2)) l in
  (negb (Z.of_nat cnt =? 0), l).

Definition read_node (size : nat) (path : string) (l : list seffect) : Z :=
  atoi (read_into (file_text e l path) (replicate size NUL)).

Fixpoint wait_ready_loop (n : nat) (l : list seffect) : bool * list seffect :=
  match n with
  | O => (false, l)
  | S n' =>
      let l := l ++ [SSleep 1] in
      if negb (read_node 4 GPU_PMU_STATE l =? 0) then (true, l) else wait_ready_loop n' l
  end.

Definition wait_for_gpu_ready (l : list seffect) : bool * list seffect :=
  let '(ok, l) := wait_for_gpu_sysfs l in
  if negb ok then (false, l) else wait_ready_loop (Z.to_nat GPU_DELAY_MAX) l.

(** The thread bodies: the flag [booting] and the log. *)
Definition set_gpu_power_knobs_off (booting : bool) (l : list seffect) : bool * list seffect :=
  let '(ok, l) := wait_for_gpu_sysfs l in
  if negb ok then (booting, l) else
  let l := l ++ [swrite GPU_RAIL_GATE_NODE 0] in
  let '(ready, l) := wait_for_gpu_ready l in
  if negb ready then (booting, l) else
  (false, l ++ [SSleep 1; swrite GPU_ELPG_NODE 0; swrite GPU_SLCG_NODE 0;
                swrite GPU_BLCG_NODE 0; swrite GPU_ELCG_NODE 0]).

Definition set_gpu_power_knobs_on (booting : bool) (l : list seffect) : bool * list seffect :=
  let '(ready, l) := wait_for_gpu_ready l in
  if negb ready then (booting, l) else
  (false, l ++ [SSleep 1; swrite GPU_ELCG_NODE 1; swrite GPU_BLCG_NODE 1;
                swrite GPU_SLCG_NODE 1; swrite GPU_ELPG_NODE 1]).

Definition knobs_thread (on : bool) := if on then set_gpu_power_knobs_on else set_gpu_power_knobs_off.

(** While booting the sequence runs in a thread of its own, which [SSpawn] records;
    afterwards in the caller. *)
Definition set_gpu_knobs (on : bool) (booting : bool) (l : list seffect) : bool * list seffect :=
  if read_node 4 GPU_ELPG_NODE l =? Z.b2z on then (booting, l)
  else if booting then
    (booting, if thread_starts e l then l ++ [SSpawn on] else l)
  else knobs_thread on booting l.

(** ** Floors *)

Definition floor_writes (on : Z) : list seffect :=
  if on =? 0 then
    [swrite CPU_CC_STATE_NODE CPU_CC_IDLE; swrite CPU_FLOOR_NODE CPU_FLOOR_IDLE;
     swrite CPU_CEILING_NODE CPU_CEILING_IDLE; swrite GPU_MIN_FREQ GPU_FLOOR_IDLE]
  else
    [swrite CPU_CC_STATE_NODE CPU_CC_ON; swrite CPU_FLOOR_NODE CPU_FLOOR_ON;
     swrite CPU_CEILING_NODE CPU_CEILING_ON; swrite GPU_MIN_FREQ GPU_FLOOR_ON].

Definition set_power_level_floor (on : Z) (booting : bool) (l : list seffect) : bool * list seffect :=
  let platform := property_text e "ro.hardware" in
  let brick := property_text e BRICK_STATE_PROP in
  if negb (strncmp_eq platform (lit "darcy") 5) then (booting, l)
  else if is_brick_whitelisted brick then
    let '(booting, l) := set_gpu_knobs true booting l in
    (booting, l ++ [swrite ETHERNET_POWER_SAVER_NODE 1; swrite SOC_DISABLE_DVFS_NODE 0;
                    swrite CPU_CC_STATE_NODE CPU_CC_ON; swrite CPU_FLOOR_NODE CPU_FLOOR_WHITELIST;
                    swrite CPU_CEILING_NODE CPU_CEILING_ON; swrite GPU_MIN_FREQ GPU_FLOOR_WHITELIST])
  else
    set_gpu_knobs false booting
      (l ++ floor_writes on ++ [swrite ETHERNET_POWER_SAVER_NODE 0; swrite SOC_DISABLE_DVFS_NODE 1]).
End Shield.

(** ** The module's entry points *)

(** [pInfo], the flag [booting] and the static table [input_devs], which
    [find_input_device_ids] fills in. *)
Record shield := mk_shield {
  pInfo : option hal;
  booting : bool;
  static_devs : list (Z * bytes);
}.

Definition shield_start : shield :=
  mk_shield None false [(-1, lit "raydium_ts" ++ [NL]); (-1, lit "touch" ++ [NL])].

Definition no_camera_cap : camera_cap_t := mk_camera_cap 0 0 0 0 0 0 0 0 0.
Definition camera_cap : list camera_cap_t := replicate 4 no_camera_cap.

Definition EINVAL : Z := 22.
Definition ENOMEM : Z := 12.

Section Module.
Variable se : senv.
Variable e : env.
Variable k : hint_codes.
Variable LONG_BITS : Z.
Variables s2ns ms2ns : Z -> Z.
(** Bound of the input-device scans, [dlopen]'s answer, and the memory [malloc]
    and [calloc] return. *)
Variable fuel : nat.
Variable libphs : bool.
Variables malloc_hal calloc_hal : hal.

(** A call of the common HAL, which sees its own part of the log. *)
Definition lift_common (m : M unit) (h : hal) (l : list seffect) : hal * list seffect :=
  let '(_, (h', l')) := m h (common_log l) in
  (h', l ++ (SCommon <$> drop (length (common_log l)) l')).

Definition with_devs (cnt : Z) (devs : list (Z * bytes)) (h : hal) : hal :=
  let c := h_config h in
  mk_hal (h_fds h) (h_freq h) (h_hints h)
    (mk_config cnt (Some devs) (def_min_freq c) (def_max_freq c) (def_core_cap c) (def_gpu_cap c)
       (def_fan_cap c) (def_power_cap c) (features_fan c) (ftrace_enable c)
       (switch_cpu_emc_limit_enabled c) (NvVaSendThroughputHints c) (NvCancelThroughputHints c))
    (h_camera h).

(** [None]: one of the out-of-range accesses [common_power_init] can make. *)
Definition shield_power_init (s : shield) (l : list seffect) : option (shield * list seffect) :=
  let h := with_devs (zlen (static_devs s)) (static_devs s) (default malloc_hal (pInfo s)) in
  '(h', l') ← common_power_init e k s2ns fuel libphs h (common_log l);
  Some (mk_shield (Some h') true (default (static_devs s) (input_devs (h_config h'))),
        l ++ (SCommon <$> drop (length (common_log l)) l')).

(** The status and whether a device was returned. *)
Definition shield_power_open (name : bytes) (dev_allocated : bool) (s : shield)
  : option (shield * Z) :=
  if negb (bool_decide (cstr name = lit "power")) then Some (s, - EINVAL) else
  s ← (match pInfo s with
       | Some _ => Some s
       | None => h ← common_power_open e k fuel libphs calloc_hal;
                 Some (mk_shield (Some (common_power_camera_init camera_cap h)) (booting s)
                         (static_devs s))
       end);
  Some (s, if dev_allocated then 0 else - ENOMEM).

(** [None]: [pInfo] is dereferenced before it is allocated. *)
Definition shield_power_hint (hint : Z) (data : option Z) (tv_sec tv_nsec : Z)
  (s : shield) (l : list seffect) : option (shield * list seffect) :=
  h ← pInfo s;
  let '(h', l') := lift_common (common_power_hint e k LONG_BITS s2ns ms2ns hint data tv_sec tv_nsec) h l in
  Some (mk_shield (Some h') (booting s) (static_devs s), l').

(** [common_power_set_interactive] skips the input devices and the CPU/EMC table
    when [pInfo] is null, as it does for an info with neither. *)
Definition null_info : hal :=
  mk_hal (fun _ => -1) (mk_freq [] 0 0 0 0 0) (mk_hints [] [] 0)
    (mk_config 0 None 0 0 0 0 0 0 false false false false false) (mk_camera 0 [] (-1)).

Definition shield_power_set_interactive (on : Z) (s : shield) (l : list seffect)
  : shield * list seffect :=
  let '(h', l) :=
    lift_common (common_power_set_interactive e on) (default null_info (pInfo s)) l in
  let '(booting', l) := set_power_level_floor se on (booting s) l in
  (mk_shield (match pInfo s with Some _ => Some h' | None => None end) booting' (static_devs s), l).

(** Neither feature is supported: the calls only log. *)
Definition shield_set_feature (feature state : Z) (s : shield) : shield := s.
End Module.

(** ** The whitelist accepts exactly the documented bricks *)

(** A number that uses every place needs digits only. *)
Lemma read_digits_partial s acc :
  0 <= acc -> ~ Forall is_digit s -> read_digits acc s < (acc + 1) * 10 ^ (zlen s - 1).
Proof.
  revert acc; induction s as [|c s IH]; intros acc Ha Hs; [by destruct Hs|].
  rewrite zlen_cons, Z.add_simpl_r. simpl.
  pose proof (Z.pow_pos_nonneg 10 (zlen s) ltac:(lia) (zlen_nonneg s)).
  destruct (digit_value c) as [d|] eqn:E; [|nia].
  assert (Hs' : ~ Forall is_digit s) by (intros ?; apply Hs; constructor; [by exists d|done]).
  specialize (IH (acc * 10 + d)). apply digit_value_bounds in E.
  destruct s as [|c' s]; [by destruct Hs'|]. specialize (IH ltac:(lia) Hs').
  pose proof (zlen_nonneg s). rewrite zlen_cons, Z.add_simpl_r in IH. rewrite zlen_cons in *.
  rewrite Z.pow_add_r in * by lia.
  pose proof (Z.pow_pos_nonneg 10 (zlen s) ltac:(lia) ltac:(lia)). nia.
Qed.

Lemma skip_space_shorter s : skip_space s = s \/ zlen (skip_space s) < zlen s.
Proof.
  induction s as [|c s IH]; simpl; [by left|]. destruct (is_space c); [|by left].
  right. rewrite zlen_cons. destruct IH as [->|]; lia.
Qed.

Lemma read_digits_short s n : zlen s <= n -> read_digits 0 s < 10 ^ n.
Proof.
  intros Hn. pose proof (read_digits_bound s 0 ltac:(lia)).
  pose proof (Z.pow_le_mono_r 10 (zlen s) n ltac:(lia) Hn). lia.
Qed.

(** [strtol] on four characters yields four places only from four digits. *)
Lemma four_places w :
  length w = 4%nat -> 1000 <= read_signed (skip_space w) ->
  Forall is_digit w /\ read_signed (skip_space w) = read_digits 0 w.
Proof.
  intros Hw Hv. assert (Hz : zlen w = 4) by (unfold zlen; lia).
  assert (Hsigned : forall s, zlen s <= 4 -> 1000 <= read_signed s ->
            zlen s = 4 /\ read_signed s = read_digits 0 s).
  { intros [|c s] Hs Hr; [simpl in Hr; lia|]. rewrite zlen_cons in *. unfold read_signed in *.
    pose proof (read_digits_short s 3 ltac:(lia)).
    pose proof (read_digits_bound s 0 ltac:(lia)).
    destruct (Ascii.eqb c "-"); [lia|]. destruct (Ascii.eqb c "+"); [lia|].
    split; [|done].
    destruct (decide (zlen s = 3)); [lia|].
    pose proof (read_digits_short (c :: s) 3 ltac:(rewrite zlen_cons; lia)). lia. }
  destruct (Hsigned (skip_space w)) as [Hl Heq]; [|done|].
  { destruct (skip_space_shorter w) as [->|]; lia. }
  destruct (skip_space_shorter w) as [Hs|]; [|lia]. rewrite Hs in *. split; [|done].
  destruct (decide (Forall (fun c => is_Some (digit_value c)) w)) as [Hd|Hd].
  - eapply Forall_impl; [exact Hd|]. intros c [d Hd']. by exists d.
  - exfalso. assert (Hn : ~ Forall is_digit w).
    { intros H. apply Hd. eapply Forall_impl; [exact H|]. intros c [d Hd']. by exists d. }
    pose proof (read_digits_partial w 0 ltac:(lia) Hn). rewrite Hz in *. simpl in *. lia.
Qed.

Lemma digits_read_signed w :
  Forall is_digit w -> read_signed (skip_space w) = read_digits 0 w.
Proof.
  destruct w as [|c w]; [done|]. intros [Hc _]%Forall_cons.
  destruct (digit_char c Hc) as (_ & _ & Hm & Hp & Hsp). simpl. rewrite Hsp. unfold read_signed.
  by rewrite Hm, Hp.
Qed.

Lemma cstr_drop n b : (n <= length (cstr b))%nat -> cstr (drop n b) = drop n (cstr b).
Proof.
  revert n; induction b as [|c b IH]; intros [|n] Hn; simpl in *; [done..|].
  destruct (Ascii.eqb c NUL); simpl in *; [lia|]. apply IH. lia.
Qed.

(** The decision in terms of the property's text. *)
Lemma whitelist_cases brick :
  is_brick_whitelisted brick = true <->
  zlen (cstr brick) = 6 /\ take 2 (cstr brick) = lit "PB" /\
  (cstr brick = lit "PBTEST" \/
   1706 <= read_signed (skip_space (drop 2 (cstr brick))) <= 9999).
Proof.
  assert (Hn : zlen (cstr brick) = 6 ->
    brick_number brick = read_signed (skip_space (drop 2 (cstr brick)))).
  { intros Hl. unfold brick_number, atoi. by rewrite cstr_drop by (unfold zlen in Hl; lia). }
  assert (Hu : is_brick_whitelisted brick =
    if negb (zlen (cstr brick) =? 6) || negb (bool_decide (lit "PB" = take 2 (cstr brick)))
    then false
    else if bool_decide (lit "PBTEST" = take 7 (cstr brick)) then true
    else (brick_number brick <=? 9999) && (1706 <=? brick_number brick) || false) by reflexivity.
  rewrite Hu. clear Hu.
  destruct (zlen (cstr brick) =? 6) eqn:El; breflect; [|split; [done|lia]].
  rewrite (Hn El). simpl. set (v := read_signed _).
  case_bool_decide as Hp; simpl; [|split; [done|intros (_ & ? & _); congruence]].
  case_bool_decide as Ht.
  - rewrite take_ge in Ht by (unfold zlen in El; lia). split; [|done]. intros _.
    split_and!; [done|done|by left].
  - assert (Hne : cstr brick <> lit "PBTEST").
    { intros E. apply Ht. by rewrite E. }
    rewrite orb_false_r, andb_true_iff, !Z.leb_le.
    split; [intros []; split_and!; [done|done|right; lia]|intros (_ & _ & [?|?]); [done|lia]].
Qed.

(** A power brick is whitelisted exactly when its name is "PBTEST" or "PB"
    followed by four decimal digits whose value is at least 1706: [strtol]'s leniency
    (spaces, signs, trailing characters) admits no other name. *)
Theorem brick_whitelist_exact (brick : bytes) :
  is_brick_whitelisted brick = true <->
  cstr brick = lit "PBTEST" \/
  exists ds, cstr brick = lit "PB" ++ ds /\ length ds = 4%nat /\ Forall is_digit ds /\
    1706 <= read_digits 0 ds.
Proof.
  rewrite whitelist_cases. split.
  - intros (Hl & Hp & [Ht|Hv]); [by left|]. right. exists (drop 2 (cstr brick)).
    assert (Hd : length (drop 2 (cstr brick)) = 4%nat).
    { rewrite length_drop. unfold zlen in Hl. lia. }
    destruct (four_places _ Hd ltac:(lia)) as [Hdig Heq]. split_and!; [|done|done|lia].
    rewrite <- Hp. by rewrite take_drop.
  - intros [->|(ds & -> & Hl & Hd & Hv)]; [by repeat split; left|].
    assert (Hz : zlen ds = 4) by (unfold zlen; lia). split_and!.
    + rewrite zlen_app, Hz. reflexivity.
    + reflexivity.
    + right. change (drop 2 (lit "PB" ++ ds)) with ds.
      rewrite digits_read_signed by done.
      pose proof (read_digits_bound ds 0 ltac:(lia)). rewrite Hz in *.
      change (10 ^ 4) with 10000 in *. lia.
Qed.

Example bricks : is_brick_whitelisted <$> (lit <$> ["PBTEST"; "PB1705"; "PB1706"; "PB9999"; "PB 999"; "PB+999"; "XB1800"; "PB20000"])
  = [true; false; true; true; false; false; false; false].
Proof. reflexivity. Qed.

(** ** The GPU knob sequences *)

Definition sleeps (n : nat) : list seffect := replicate n (SSleep 1).

Definition slept (l : list seffect) : Z :=
  foldr (fun x n => match x with SSleep s => s + n | _ => n end) 0 l.

(** The values written to a node. *)
Definition writes_to (p : string) (l : list seffect) : list string :=
  omap (fun x => match x with
                 | SCommon (ESysfs q v) => if decide (q = p) then Some v else None
                 | _ => None end) l.

Lemma slept_app l k : slept (l ++ k) = slept l + slept k.
Proof. induction l as [|x l IH]; simpl; [done|]. destruct x; rewrite IH; lia. Qed.
Lemma slept_sleeps n : slept (sleeps n) = Z.of_nat n.
Proof. unfold sleeps. induction n as [|n IH]; cbn [replicate]; [done|]. simpl. rewrite IH. lia. Qed.
Lemma writes_to_app p l k : writes_to p (l ++ k) = writes_to p l ++ writes_to p k.
Proof. apply omap_app. Qed.
Lemma writes_to_sleeps p n : writes_to p (sleeps n) = [].
Proof. unfold sleeps. by induction n. Qed.
#[local] Hint Rewrite slept_app slept_sleeps writes_to_app writes_to_sleeps : mocha_simp.

Definition gpu_nodes : list string := [GPU_ELPG_NODE; GPU_SLCG_NODE; GPU_BLCG_NODE; GPU_ELCG_NODE].

(** The gating writes of a sequence, in order. *)
Definition gating_writes (l : list seffect) : list (string * string) :=
  omap (fun x => match x with
                 | SCommon (ESysfs q v) => if decide (q ∈ gpu_nodes) then Some (q, v) else None
                 | _ => None end) l.

Lemma gating_writes_app l k : gating_writes (l ++ k) = gating_writes l ++ gating_writes k.
Proof. apply omap_app. Qed.
Lemma gating_writes_sleeps n : gating_writes (sleeps n) = [].
Proof. unfold sleeps. by induction n. Qed.
#[local] Hint Rewrite gating_writes_app gating_writes_sleeps : mocha_simp.

Section Gpu.
Variable e : senv.

Lemma wait_sysfs_loop_eq c l :
  wait_sysfs_loop e (S c) l =
    if (0 <? Z.of_nat c) && negb (node_exists e l GPU_STATE)
    then wait_sysfs_loop e c (l ++ [SSleep 1]) else (c, l).
Proof. done. Qed.

Lemma wait_sysfs_loop_spec c l :
  exists n, (n <= c)%nat /\
    ((wait_sysfs_loop e (S c) l).2 = l ++ sleeps n) /\
    ((n < c)%nat -> node_exists e (l ++ sleeps n) GPU_STATE = true) /\
    (wait_sysfs_loop e (S c) l).1 = (c - n)%nat.
Proof.
  revert l; induction c as [|c IH]; intros l.
  - exists O. simpl. rewrite app_nil_r. split_and!; [lia|done|lia|done].
  - rewrite wait_sysfs_loop_eq, (proj2 (Z.ltb_lt 0 (Z.of_nat (S c)))) by lia. cbn [andb].
    destruct (node_exists e l GPU_STATE) eqn:E; cbn [negb].
    + exists O. rewrite app_nil_r. split_and!; [lia|done|done|cbn; lia].
    + destruct (IH (l ++ [SSleep 1])) as (n & Hn & Hl & He & Hc). exists (S n).
      split_and!; [lia|by rewrite Hl, <- app_assoc| |exact Hc].
      rewrite <- app_assoc in He. intros ?. apply He. lia.
Qed.

Lemma wait_for_gpu_sysfs_spec l :
  exists n, (n <= 4)%nat /\ (wait_for_gpu_sysfs e l).2 = l ++ sleeps n /\
    (wait_for_gpu_sysfs e l).1 = bool_decide (n < 4)%nat /\
    ((n < 4)%nat -> node_exists e (l ++ sleeps n) GPU_STATE = true).
Proof.
  destruct (wait_sysfs_loop_spec 4 l) as (n & Hn & Hl & He & Hc). exists n.
  unfold wait_for_gpu_sysfs. change (Z.to_nat (Z.shiftr GPU_DELAY_MAX 2)) with 5%nat.
  destruct (wait_sysfs_loop e 5 l) as [c l']. simpl in *. subst.
  split_and!; [done|done| |done]. destruct (Z.eqb_spec (Z.of_nat (4 - n)) 0); case_bool_decide; simpl; try done; lia.
Qed.

Lemma wait_ready_loop_spec m l :
  exists n, (n <= m)%nat /\ (wait_ready_loop e m l).2 = l ++ sleeps n /\
    ((wait_ready_loop e m l).1 = true -> read_node e 4 GPU_PMU_STATE (l ++ sleeps n) <> 0).
Proof.
  revert l; induction m as [|m IH]; intros l.
  - exists O. simpl. rewrite app_nil_r. split_and!; [lia|done|done].
  - cbn [wait_ready_loop]. destruct (read_node e 4 GPU_PMU_STATE (l ++ [SSleep 1]) =? 0) eqn:E;
      breflect; cbn [negb].
    + destruct (IH (l ++ [SSleep 1])) as (n & Hn & Hl & Ht). exists (S n).
      rewrite <- app_assoc in Ht. split_and!; [lia|by rewrite Hl, <- app_assoc|exact Ht].
    + exists 1%nat. split_and!; [lia|done|done].
Qed.

(** A wait only sleeps, at most 24 seconds; it succeeds only on a ready GPU. *)
Lemma wait_for_gpu_ready_spec l :
  exists n, (n <= 24)%nat /\ (wait_for_gpu_ready e l).2 = l ++ sleeps n /\
    ((wait_for_gpu_ready e l).1 = true -> read_node e 4 GPU_PMU_STATE (l ++ sleeps n) <> 0).
Proof.
  unfold wait_for_gpu_ready.
  destruct (wait_for_gpu_sysfs_spec l) as (n & Hn & Hl & Hb & _).
  destruct (wait_for_gpu_sysfs e l) as [ok l1]. cbn [fst snd] in *. subst ok l1.
  case_bool_decide; cbn [negb fst snd]; [|exists n; split_and!; [lia|done|done]].
  destruct (wait_ready_loop_spec 20 (l ++ sleeps n)) as (m & Hm & Hl & Ht).
  change (Z.to_nat GPU_DELAY_MAX) with 20%nat. exists (n + m)%nat. rewrite Hl.
  rewrite <- app_assoc in *. unfold sleeps in *. rewrite <- replicate_add in *.
  split_and!; [lia|done|done].
Qed.

(** The four gating writes of a sequence; gating is switched on in the order opposite
    to the one it is switched off in. *)
Definition knob_writes (on : bool) : list (string * string) :=
  if on then (fun p => (p, "1")) <$> rev gpu_nodes else (fun p => (p, "0")) <$> gpu_nodes.

Definition gpu_up : Prop := forall l,
  node_exists e l GPU_STATE = true /\ read_node e 4 GPU_PMU_STATE l <> 0.

Lemma gpu_up_sysfs l : gpu_up -> wait_for_gpu_sysfs e l = (true, l).
Proof.
  intros Hup. unfold wait_for_gpu_sysfs.
  change (Z.to_nat (Z.shiftr GPU_DELAY_MAX 2)) with 5%nat.
  by rewrite wait_sysfs_loop_eq, (proj1 (Hup l)).
Qed.

Lemma gpu_up_ready l : gpu_up -> wait_for_gpu_ready e l = (true, l ++ sleeps 1).
Proof.
  intros Hup. unfold wait_for_gpu_ready. rewrite gpu_up_sysfs by done.
  change (Z.to_nat GPU_DELAY_MAX) with 20%nat. cbn [negb wait_ready_loop].
  by rewrite (proj2 (Z.eqb_neq _ 0)) by apply Hup.
Qed.

(** Whatever the GPU driver does, a knob sequence sleeps at most 29 seconds and
    performs either none of the gating writes, leaving [booting] alone, or all four,
    in order and only after the PMU reported ready, clearing [booting]; with the GPU
    up it performs them. *)
Theorem gpu_knobs_all_or_nothing (on b : bool) (l : list seffect) :
  exists b' new, knobs_thread e on b l = (b', l ++ new) /\ slept new <= 29 /\
    ((b' = b /\ gating_writes new = []) \/
     (b' = false /\ gating_writes new = knob_writes on /\
      exists pre post, new = pre ++ post /\ gating_writes pre = [] /\
        read_node e 4 GPU_PMU_STATE (l ++ pre) <> 0)) /\
    (gpu_up -> b' = false /\ gating_writes new = knob_writes on).
Proof.
  destruct on; simpl.
  - unfold set_gpu_power_knobs_on. destruct (wait_for_gpu_ready_spec l) as (n & Hn & Hl & Ht).
    pose proof (gpu_up_ready l) as Hup.
    destruct (wait_for_gpu_ready e l) as [r l1]. cbn [fst snd] in *. subst l1.
    destruct r; cbn [negb].
    + eexists false, _. rewrite <- app_assoc. split; [reflexivity|].
      autorewrite with mocha_simp. split_and!; [simpl; lia| |done].
      right. split_and!; [done|done|]. eexists _, _. split; [reflexivity|].
      split; [apply gating_writes_sleeps|by apply Ht].
    + eexists b, _. split; [reflexivity|]. autorewrite with mocha_simp.
      split_and!; [lia|by left|]. intros H. by specialize (Hup H).
  - unfold set_gpu_power_knobs_off.
    destruct (wait_for_gpu_sysfs_spec l) as (n & Hn & Hl & Hb & _).
    pose proof (gpu_up_sysfs l) as Hup.
    destruct (wait_for_gpu_sysfs e l) as [r l1]. cbn [fst snd] in *. subst l1.
    destruct r; cbn [negb].
    + set (rail := swrite GPU_RAIL_GATE_NODE 0).
      destruct (wait_for_gpu_ready_spec ((l ++ sleeps n) ++ [rail])) as (m & Hm & Hl & Ht).
      pose proof (gpu_up_ready ((l ++ sleeps n) ++ [rail])) as Hup'.
      destruct (wait_for_gpu_ready e _) as [r l1]. cbn [fst snd] in *. subst l1.
      destruct r; cbn [negb]; rewrite <- !app_assoc in *.
      * eexists false, _. split; [reflexivity|]. autorewrite with mocha_simp.
        split_and!; [simpl; lia| |done].
        right. split_and!; [done|done|]. exists (sleeps n ++ [rail] ++ sleeps m). eexists.
        rewrite <- !app_assoc. split; [reflexivity|]. autorewrite with mocha_simp.
        split; [done|by apply Ht].
      * eexists b, _. split; [reflexivity|]. autorewrite with mocha_simp.
        split_and!; [simpl; lia|by left|]. intros H. by specialize (Hup' H).
    + eexists b, _. split; [reflexivity|]. autorewrite with mocha_simp.
      split_and!; [lia|by left|]. intros H. by specialize (Hup H).
Qed.
End Gpu.

(** ** The power levels *)

(** The value each node gets from one call, for a whitelisted or other brick. *)
Definition level (white : bool) (on : Z) : list (string * Z) :=
  if white then
    [(CPU_FLOOR_NODE, CPU_FLOOR_WHITELIST); (CPU_CEILING_NODE, CPU_CEILING_ON);
     (GPU_MIN_FREQ, GPU_FLOOR_WHITELIST); (CPU_CC_STATE_NODE, CPU_CC_ON);
     (ETHERNET_POWER_SAVER_NODE, 1); (SOC_DISABLE_DVFS_NODE, 0)]
  else if on =? 0 then
    [(CPU_FLOOR_NODE, CPU_FLOOR_IDLE); (CPU_CEILING_NODE, CPU_CEILING_IDLE);
     (GPU_MIN_FREQ, GPU_FLOOR_IDLE); (CPU_CC_STATE_NODE, CPU_CC_IDLE);
     (ETHERNET_POWER_SAVER_NODE, 0); (SOC_DISABLE_DVFS_NODE, 1)]
  else
    [(CPU_FLOOR_NODE, CPU_FLOOR_ON); (CPU_CEILING_NODE, CPU_CEILING_ON);
     (GPU_MIN_FREQ, GPU_FLOOR_ON); (CPU_CC_STATE_NODE, CPU_CC_ON);
     (ETHERNET_POWER_SAVER_NODE, 0); (SOC_DISABLE_DVFS_NODE, 1)].

Definition level_nodes : list string := (level true 1).*1.

Definition is_darcy (e : senv) : bool := strncmp_eq (property_text e "ro.hardware") (lit "darcy") 5.
Definition brick_ok (e : senv) : bool := is_brick_whitelisted (property_text e BRICK_STATE_PROP).

(** The knob sequences leave the level nodes alone. *)
Lemma knobs_level e on b l p :
  p ∈ level_nodes -> exists new, (set_gpu_knobs e on b l).2 = l ++ new /\ writes_to p new = [].
Proof.
  intros Hp. unfold set_gpu_knobs.
  assert (Hw : forall q v, q ∉ level_nodes -> writes_to p [swrite q v] = []).
  { intros q v Hq. unfold writes_to, swrite. cbn. rewrite decide_False; [done|]. by intros ->. }
  assert (Hfour : forall a q1 v1 q2 v2 q3 v3 q4 v4,
    q1 ∉ level_nodes -> q2 ∉ level_nodes -> q3 ∉ level_nodes -> q4 ∉ level_nodes ->
    writes_to p [SSleep a; swrite q1 v1; swrite q2 v2; swrite q3 v3; swrite q4 v4] = []).
  { intros. change (writes_to p ([SSleep a] ++ [swrite q1 v1] ++ [swrite q2 v2] ++
      [swrite q3 v3] ++ [swrite q4 v4]) = []). by rewrite !writes_to_app, !Hw by done. }
  assert (Hnot : Forall (fun q => q ∉ level_nodes) (GPU_RAIL_GATE_NODE :: gpu_nodes))
    by (by vm_compute; repeat constructor; set_solver).
  unfold gpu_nodes in Hnot. rewrite !Forall_cons in Hnot.
  destruct Hnot as (Hr & H1 & H2 & H3 & H4 & _).
  destruct (_ =? Z.b2z on); [exists []; by rewrite app_nil_r|].
  destruct b.
  { destruct (thread_starts e l); [by exists [SSpawn on]|exists []; by rewrite app_nil_r]. }
  destruct on; simpl.
  - unfold set_gpu_power_knobs_on. destruct (wait_for_gpu_ready_spec e l) as (n & _ & Hl & _).
    destruct (wait_for_gpu_ready e l) as [[] l1]; cbn [fst snd negb] in *; subst l1.
    + eexists. rewrite <- app_assoc. split; [reflexivity|].
      by rewrite writes_to_app, writes_to_sleeps, Hfour.
    + eexists. split; [reflexivity|]. apply writes_to_sleeps.
  - unfold set_gpu_power_knobs_off. destruct (wait_for_gpu_sysfs_spec e l) as (n & _ & Hl & _).
    destruct (wait_for_gpu_sysfs e l) as [[] l1]; cbn [fst snd negb] in *; subst l1;
      [|eexists; split; [reflexivity|]; apply writes_to_sleeps].
    destruct (wait_for_gpu_ready_spec e ((l ++ sleeps n) ++ [swrite GPU_RAIL_GATE_NODE 0]))
      as (m & _ & Hl & _).
    destruct (wait_for_gpu_ready e _) as [[] l1]; cbn [fst snd negb] in *; subst l1;
      rewrite <- !app_assoc; eexists; split; try reflexivity;
      by rewrite !writes_to_app, !writes_to_sleeps, Hw, ?Hfour.
Qed.

Lemma level_node w on p v : (p, v) ∈ level w on -> p ∈ level_nodes.
Proof.
  intros H. apply (list_elem_of_fmap_2 fst) in H.
  assert (Hs : (level w on).*1 = level_nodes) by (unfold level; by destruct w, (on =? 0)).
  rewrite Hs in H. exact H.
Qed.

(** Lookup in the concrete tables. *)
Ltac level_cases H :=
  repeat (apply elem_of_cons in H as [[= -> ->]|H]; [vm_compute; done|]);
  by apply elem_of_nil in H.

Lemma floor_level_bound w1 on1 w2 on2 f c :
  (CPU_FLOOR_NODE, f) ∈ level w1 on1 -> (CPU_CEILING_NODE, c) ∈ level w2 on2 -> f <= c.
Proof.
  assert (Hf : (CPU_FLOOR_NODE, f) ∈ level w1 on1 -> f <= CPU_FLOOR_IDLE).
  { unfold level. intros H. destruct w1; [|destruct (on1 =? 0)];
      set_unfold; destruct_or!; simplify_eq; vm_compute; discriminate. }
  assert (Hc : (CPU_CEILING_NODE, c) ∈ level w2 on2 -> CPU_CEILING_IDLE <= c).
  { unfold level. intros H. destruct w2; [|destruct (on2 =? 0)];
      set_unfold; destruct_or!; simplify_eq; vm_compute; discriminate. }
  intros H1%Hf H2%Hc. unfold CPU_FLOOR_IDLE, CPU_CEILING_IDLE in *. lia.
Qed.

(** On the one platform it applies to, a call writes each of the six power-level
    nodes exactly once, with the values of the brick's and the screen's level, with
    or without the GPU sequences in between; on others it does nothing.  No CPU floor
    any call writes exceeds the CPU ceiling any call writes, so the limits are
    consistent at every point of every sequence of calls. *)
Theorem power_levels_written (e : senv) (on : Z) (b : bool) (l : list seffect) :
  (is_darcy e = false -> set_power_level_floor e on b l = (b, l)) /\
  (is_darcy e = true -> exists new, (set_power_level_floor e on b l).2 = l ++ new /\
     forall p v, (p, v) ∈ level (brick_ok e) on -> writes_to p new = [print_int v]) /\
  (forall w1 on1 w2 on2 f c,
     (CPU_FLOOR_NODE, f) ∈ level w1 on1 -> (CPU_CEILING_NODE, c) ∈ level w2 on2 -> f <= c).
Proof.
  unfold set_power_level_floor. fold (is_darcy e). fold (brick_ok e).
  split_and!; [by intros ->| |exact floor_level_bound].
  intros ->. cbn [negb]. destruct (brick_ok e).
  - set (extra := [_; _; _; _; _; _]).
    exists (drop (length l) (set_gpu_knobs e true b l).2 ++ extra).
    destruct (knobs_level e true b l CPU_FLOOR_NODE) as (new & Hn & _); [by left|].
    destruct (set_gpu_knobs e true b l) as [b' l'] eqn:E. cbn [fst snd] in *. subst l'.
    rewrite drop_app_length, <- app_assoc. split; [done|].
    intros p v Hp. destruct (knobs_level e true b l p) as (new' & Hn & Hw);
      [by eapply level_node|]. rewrite E in Hn. cbn [snd] in Hn. apply app_inv_head in Hn as <-.
    rewrite writes_to_app, Hw. unfold level in Hp. level_cases Hp.
  - set (l1 := l ++ _). destruct (knobs_level e false b l1 CPU_FLOOR_NODE) as (new & Hn & _); [by left|].
    eexists. rewrite Hn. unfold l1. rewrite <- app_assoc. split; [reflexivity|].
    intros p v Hp. destruct (knobs_level e false b l1 p) as (new' & Hn' & Hw);
      [by eapply level_node|]. rewrite Hn in Hn'. apply app_inv_head in Hn' as <-.
    rewrite !writes_to_app, Hw, app_nil_r. unfold floor_writes. unfold level in Hp.
    destruct (on =? 0); level_cases Hp.
Qed.
