(* ===== verification/Neon.v ===== *)
(** * Byte buffers, counted loops and NEON lanes

    What the image code of [camera/isp] and [camera/CameraPipeline.cpp] computes
    with.  A buffer is a map from byte offsets to values; the [for] loops run over an
    index and a state; a NEON register is the list of its lanes, and each intrinsic
    is defined at its lane width. *)

From S2P Require Import Prelude.

(** ** Loops *)

(** [for (; cond(x); x += step) body], stopped after [fuel] rounds: the index and the
    state at the end. *)
Fixpoint for_loop {S} (fuel : nat) (cond : Z -> bool) (step : Z) (body : Z -> S -> S)
  (x : Z) (s : S) : Z * S :=
  match fuel with
  | O => (x, s)
  | Datatypes.S f => if cond x then for_loop f cond step body (x + step) (body x s) else (x, s)
  end.

(** Invariant rule: a loop whose index stays below [bound] while it runs, and is given
    as much fuel as the distance to it, ends with its condition false. *)
Lemma for_loop_inv {S} (P : Z -> S -> Prop) cond step body bound fuel x0 s0 :
  0 < step -> (forall x s, P x s -> cond x = true -> x < bound) ->
  bound - x0 <= Z.of_nat fuel * step ->
  P x0 s0 ->
  (forall x s, x0 <= x -> P x s -> cond x = true -> P (x + step) (body x s)) ->
  let r := for_loop fuel cond step body x0 s0 in
  x0 <= r.1 /\ P r.1 r.2 /\ cond r.1 = false.
Proof.
  intros Hs Hb Hf HP Hbody. revert x0 s0 Hf HP Hbody.
  induction fuel as [|fuel IH]; intros x0 s0 Hf HP Hbody; cbn [for_loop].
  - cbn. split_and!; [lia|done|]. destruct (cond x0) eqn:E; [|done]. apply (Hb x0 s0 HP) in E. lia.
  - destruct (cond x0) eqn:E; [|cbn; split_and!; [lia|done|done]].
    destruct (IH (x0 + step) (body x0 s0)) as (H1 & H2 & H3).
    + lia.
    + apply Hbody; [lia|done|done].
    + intros x s Hx. apply Hbody. lia.
    + split_and!; [lia|done|done].
Qed.

(** ** Buffers *)

Definition mem := Z -> Z.

Definition store (m : mem) (i v : Z) : mem := fun j => if j =? i then v else m j.

(** A run of bytes from offset [i] on. *)
Fixpoint stores (m : mem) (i : Z) (l : list Z) : mem :=
  match l with
  | [] => m
  | v :: r => stores (store m i v) (i + 1) r
  end.

Definition byte (v : Z) : Prop := 0 <= v < 256.
Definition bytes_mem (m : mem) : Prop := forall i, byte (m i).

Definition get (l : list Z) (k : Z) : Z := default 0 (zlookup l k).

Lemma get_cons v l k : get (v :: l) k = if k =? 0 then v else if k <? 0 then 0 else get l (k - 1).
Proof.
  unfold get, zlookup. destruct (Z.eqb_spec k 0) as [->|]; [done|].
  destruct (Z.ltb_spec k 0); [done|].
  rewrite (proj2 (Z.ltb_ge (k - 1) 0)) by lia.
  replace (Z.to_nat k) with (S (Z.to_nat (k - 1))) by lia. done.
Qed.

Lemma stores_at l m i j :
  stores m i l j = if (i <=? j) && (j <? i + zlen l) then get l (j - i) else m j.
Proof.
  revert m i; induction l as [|v l IH]; intros m i; cbn [stores].
  - rewrite zlen_nil. destruct (Z.leb_spec i j), (Z.ltb_spec j (i + 0)); cbn; done || lia.
  - rewrite IH, zlen_cons, get_cons. unfold store. pose proof (zlen_nonneg l).
    replace (i + 1 + zlen l) with (i + (zlen l + 1)) by lia.
    destruct (Z.eqb_spec j i) as [->|].
    + rewrite (proj2 (Z.leb_gt (i + 1) i)), (proj2 (Z.leb_le i i)), (proj2 (Z.ltb_lt i _)) by lia.
      by rewrite Z.sub_diag.
    + rewrite (proj2 (Z.eqb_neq (j - i) 0)) by lia.
      destruct (Z.leb_spec (i + 1) j).
      * rewrite (proj2 (Z.leb_le i j)), (proj2 (Z.ltb_ge (j - i) 0)) by lia.
        by replace (j - (i + 1)) with (j - i - 1) by lia.
      * by rewrite (proj2 (Z.leb_gt i j)) by lia.
Qed.

(** The lanes [f 0 .. f (n-1)]. *)
Definition lanes (n : nat) (f : Z -> Z) : list Z := f <$> seqZ 0 (Z.of_nat n).

Lemma zlen_lanes n f : zlen (lanes n f) = Z.of_nat n.
Proof. unfold zlen, lanes. rewrite length_fmap, length_seqZ. lia. Qed.

Lemma get_lanes n f k : 0 <= k < Z.of_nat n -> get (lanes n f) k = f k.
Proof.
  intros Hk. unfold get, zlookup, lanes. rewrite (proj2 (Z.ltb_ge k 0)) by lia.
  rewrite list_lookup_fmap, lookup_seqZ_lt by lia. cbn. f_equal. lia.
Qed.

(** ** Machine widths *)

Definition wrap_u8 (z : Z) : Z := z mod 2 ^ 8.
Definition wrap_u16 (z : Z) : Z := z mod 2 ^ 16.
Definition wrap_s16 (z : Z) : Z := (z + 2 ^ 15) mod 2 ^ 16 - 2 ^ 15.
Definition sat_u8 (z : Z) : Z := Z.max 0 (Z.min 255 z).

Lemma wrap_u8_id z : byte z -> wrap_u8 z = z.
Proof. unfold byte, wrap_u8. intros. apply Z.mod_small. lia. Qed.
Lemma wrap_u16_id z : 0 <= z < 65536 -> wrap_u16 z = z.
Proof. unfold wrap_u16. intros. apply Z.mod_small. lia. Qed.
Lemma wrap_s16_id z : -32768 <= z < 32768 -> wrap_s16 z = z.
Proof. unfold wrap_s16. intros. rewrite Z.mod_small by lia. lia. Qed.
Lemma sat_u8_id z : byte z -> sat_u8 z = z.
Proof. unfold byte, sat_u8. lia. Qed.

(** ** NEON intrinsics, lane by lane *)

(** [vld1]: [n] consecutive bytes. *)
Definition vld1 (n : nat) (m : mem) (i : Z) : list Z := lanes n (fun k => m (i + k)).
(** [vld3]: plane [c] of [n] interleaved triples. *)
Definition vld3 (n : nat) (m : mem) (i : Z) (c : Z) : list Z := lanes n (fun k => m (i + 3 * k + c)).

Definition vdup (n : nat) (v : Z) : list Z := replicate n v.

Definition vmap2 (f : Z -> Z -> Z) (a b : list Z) : list Z := zip_with f a b.

(** [vuzp(a, b)]: the even and the odd lanes of [a] followed by [b]. *)
Definition vuzp (a b : list Z) : list Z * list Z :=
  let l := a ++ b in
  (lanes (length a) (fun k => get l (2 * k)), lanes (length a) (fun k => get l (2 * k + 1))).

(** [vext(a, b, n)]: the lanes of [a] from [n] on, then those of [b]. *)
Definition vext (a b : list Z) (n : nat) : list Z := take (length a) (drop n (a ++ b)).

(** Interleaving stores: [vst2], [vst4]. *)
Definition vst2 (a b : list Z) : list Z := mjoin (zip_with (fun x y => [x; y]) a b).
Definition vst4 (a b c d : list Z) : list Z :=
  mjoin (zip_with (fun p q => [p.1; p.2; q.1; q.2]) (zip a b) (zip c d)).

Definition vaddl_u8 : list Z -> list Z -> list Z := vmap2 (fun a b => a + b).
Definition vaddq_u16 : list Z -> list Z -> list Z := vmap2 (fun a b => wrap_u16 (a + b)).
Definition vshrn_u16 (v : list Z) (n : Z) : list Z := (fun a => wrap_u8 (Z.shiftr a n)) <$> v.
Definition vrhadd_u8 : list Z -> list Z -> list Z := vmap2 (fun a b => Z.shiftr (a + b + 1) 1).
Definition vqsub_u8 : list Z -> list Z -> list Z := vmap2 (fun a b => Z.max 0 (a - b)).

#[export] Hint Rewrite @zlen_lanes : mocha_simp.

(** ** Loops that fill a buffer *)

(** A loop whose round at [x] sets the bytes of [g x .. g (x + k)) to [f] leaves the
    bytes from [g x0] up to where it stopped equal to [f] and the others alone. *)
Lemma fill_loop (f g : Z -> Z) k w cond (body : Z -> mem -> mem) fuel x0 m :
  0 < k -> (forall x, (k | x - x0) -> cond x = true <-> x + k <= w) ->
  (forall x y, x <= y -> g x <= g y) ->
  (forall x m j, x0 <= x -> (k | x - x0) -> x + k <= w ->
     body x m j = if (g x <=? j) && (j <? g (x + k)) then f j else m j) ->
  x0 <= w -> w - x0 <= Z.of_nat fuel ->
  let r := for_loop fuel cond k body x0 m in
  x0 <= r.1 <= w /\ w < r.1 + k /\ (k | r.1 - x0) /\
  forall j, r.2 j = if (g x0 <=? j) && (j <? g r.1) then f j else m j.
Proof.
  intros Hk Hc Hg Hb Hx Hf r.
  pose proof (for_loop_inv (fun x m' => x <= w /\ (k | x - x0) /\
    forall j, m' j = if (g x0 <=? j) && (j <? g x) then f j else m j) cond k body w fuel x0 m) as H.
  fold r in H. destruct H as (H1 & (H2 & Hn & H3) & H4); [done| |nia| | |].
  - intros x m' (_ & Hd & _) Hx'%Hc; [lia|done].
  - split_and!; [done|exists 0; lia|]. intros j.
    destruct (Z.leb_spec (g x0) j), (Z.ltb_spec j (g x0)); cbn; done || lia.
  - intros x m' Hx' (Hw & Hn & Hm) Hc'%Hc; [|done].
    split_and!; [lia|replace (x + k - x0) with ((x - x0) + k) by lia;
      apply Z.divide_add_r; [done|apply Z.divide_refl]|].
    intros j. rewrite Hb, Hm by done.
    pose proof (Hg x0 x Hx'). pose proof (Hg x (x + k) ltac:(lia)).
    destruct (Z.leb_spec (g x) j), (Z.ltb_spec j (g (x + k))), (Z.leb_spec (g x0) j),
      (Z.ltb_spec j (g x)); cbn; done || lia.
  - split_and!; [done|done| |done|done].
    destruct (Z.le_gt_cases (r.1 + k) w) as [E|]; [|done]. apply Hc in E; [|done].
    exfalso. enough (true = false) by done. rewrite <- E. exact H4.
Qed.

(** Writing the same run twice over is writing it once. *)
Lemma region_extend (f : Z -> Z) a b c (m m1 m2 : mem) :
  a <= b <= c ->
  (forall j, m1 j = if (a <=? j) && (j <? b) then f j else m j) ->
  (forall j, m2 j = if (b <=? j) && (j <? c) then f j else m1 j) ->
  forall j, m2 j = if (a <=? j) && (j <? c) then f j else m j.
Proof.
  intros H H1 H2 j. rewrite H2, H1.
  destruct (Z.leb_spec a j), (Z.ltb_spec j b), (Z.leb_spec b j), (Z.ltb_spec j c); cbn; done || lia.
Qed.

(** Lanes built in chunks of [c]. *)
Definition chunks (n : nat) (f : Z -> list Z) : list Z := mjoin (f <$> seqZ 0 (Z.of_nat n)).

Lemma get_app l k i :
  get (l ++ k) i = if i <? zlen l then get l i else get k (i - zlen l).
Proof.
  revert i; induction l as [|v l IH]; intros i; cbn [app].
  - rewrite zlen_nil, Z.sub_0_r. destruct (Z.ltb_spec i 0); [|done].
    unfold get, zlookup. by rewrite (proj2 (Z.ltb_lt i 0)).
  - rewrite !get_cons, IH, zlen_cons. pose proof (zlen_nonneg l).
    destruct (Z.eqb_spec i 0) as [->|]; [by rewrite (proj2 (Z.ltb_lt 0 _)) by lia|].
    replace (i - 1 - zlen l) with (i - (zlen l + 1)) by lia.
    destruct (Z.ltb_spec i 0), (Z.ltb_spec (i - 1) (zlen l)), (Z.ltb_spec i (zlen l + 1)); done || lia.
Qed.

Lemma chunks_spec n f c :
  0 < c -> (forall i, zlen (f i) = c) ->
  zlen (chunks n f) = Z.of_nat n * c /\
  forall i, 0 <= i < Z.of_nat n * c -> get (chunks n f) i = get (f (i / c)) (i mod c).
Proof.
  intros Hc Hf. unfold chunks. induction n as [|n [IHl IHg]]; [split; [done|lia]|].
  replace (Z.of_nat (S n)) with (Z.of_nat n + 1) by lia.
  rewrite seqZ_app by lia. rewrite fmap_app, join_app.
  replace (seqZ (0 + Z.of_nat n) 1) with [Z.of_nat n] by (cbn; f_equal; lia). cbn [fmap list_fmap mjoin list_join].
  rewrite app_nil_r, zlen_app, Hf, IHl. split; [lia|].
  intros i Hi. rewrite get_app, IHl. destruct (Z.ltb_spec i (Z.of_nat n * c)).
  - apply IHg. lia.
  - assert (Hq : i / c = Z.of_nat n) by (symmetry; apply Z.div_unique with (i - Z.of_nat n * c); lia).
    rewrite Z.mod_eq, Hq by lia. f_equal; lia.
Qed.

(** ** Lanes through the arithmetic *)

Lemma fmap_lanes (h : Z -> Z) n f : h <$> lanes n f = lanes n (fun k => h (f k)).
Proof. unfold lanes. by rewrite <- list_fmap_compose. Qed.

Lemma zip_lanes (h : Z -> Z -> Z) n f g :
  zip_with h (lanes n f) (lanes n g) = lanes n (fun k => h (f k) (g k)).
Proof.
  unfold lanes. generalize (seqZ 0 (Z.of_nat n)). induction l as [|x l IH]; [done|].
  rewrite !fmap_cons. cbn [zip_with]. by rewrite IH.
Qed.

Lemma vmap2_lanes (h : Z -> Z -> Z) n f g :
  vmap2 h (lanes n f) (lanes n g) = lanes n (fun k => h (f k) (g k)).
Proof. apply zip_lanes. Qed.

Lemma lanes_ext n f g : (forall k, 0 <= k < Z.of_nat n -> f k = g k) -> lanes n f = lanes n g.
Proof.
  intros H. unfold lanes. apply list_fmap_ext. intros i x Hx.
  apply lookup_seqZ in Hx as [-> Hi]. apply H. lia.
Qed.

Lemma drop_lanes n d f : (d <= n)%nat ->
  drop d (lanes n f) = lanes (n - d) (fun k => f (Z.of_nat d + k)).
Proof.
  intros Hd. apply list_eq. intros i. rewrite lookup_drop. unfold lanes.
  rewrite !list_lookup_fmap. destruct (decide (d + i < n)%nat).
  - rewrite !lookup_seqZ_lt by lia. cbn. do 2 f_equal. lia.
  - by rewrite !lookup_seqZ_ge by lia.
Qed.

Lemma take_lanes n d f : (d <= n)%nat -> take d (lanes n f) = lanes d f.
Proof.
  intros Hd. apply list_eq. intros i. unfold lanes. destruct (decide (i < d)%nat).
  - rewrite lookup_take_lt by done. rewrite !list_lookup_fmap, !lookup_seqZ_lt by lia. done.
  - rewrite lookup_take_ge by lia. rewrite list_lookup_fmap, lookup_seqZ_ge by lia. done.
Qed.

Lemma length_lanes n f : length (lanes n f) = n.
Proof. unfold lanes. rewrite length_fmap, length_seqZ. lia. Qed.

Lemma lookup_lanes n f i : lanes n f !! i = if decide (i < n)%nat then Some (f (Z.of_nat i)) else None.
Proof.
  unfold lanes. rewrite list_lookup_fmap. case_decide.
  - rewrite lookup_seqZ_lt by lia. done.
  - by rewrite lookup_seqZ_ge by lia.
Qed.

Lemma app_lanes n d f g :
  lanes n f ++ lanes d g =
    lanes (n + d) (fun k => if k <? Z.of_nat n then f k else g (k - Z.of_nat n)).
Proof.
  apply list_eq. intros i. rewrite lookup_app, !lookup_lanes, length_lanes.
  destruct (decide (i < n)%nat).
  - rewrite decide_True by lia. by rewrite (proj2 (Z.ltb_lt _ _)) by lia.
  - destruct (decide (i < n + d)%nat).
    + rewrite !decide_True by lia. rewrite (proj2 (Z.ltb_ge _ _)) by lia. do 2 f_equal. lia.
    + by rewrite !decide_False by lia.
Qed.


Lemma vuzp_lanes n f g :
  vuzp (lanes n f) (lanes n g) =
    (let h k := if k <? Z.of_nat n then f k else g (k - Z.of_nat n) in
     (lanes n (fun k => h (2 * k)), lanes n (fun k => h (2 * k + 1)))).
Proof.
  unfold vuzp. rewrite length_lanes, app_lanes.
  f_equal; apply lanes_ext; intros k Hk; by rewrite get_lanes by lia.
Qed.

Lemma vext_lanes n d f g : (d <= n)%nat ->
  vext (lanes n f) (lanes n g) d =
    lanes n (fun k => let k := k + Z.of_nat d in
                      if k <? Z.of_nat n then f k else g (k - Z.of_nat n)).
Proof.
  intros Hd. unfold vext. rewrite length_lanes, app_lanes, drop_lanes, take_lanes by lia.
  apply lanes_ext. intros k Hk. by rewrite (Z.add_comm (Z.of_nat d) k).
Qed.

(** Interleaved stores as chunks. *)
Lemma vst2_lanes n f g : vst2 (lanes n f) (lanes n g) = chunks n (fun k => [f k; g k]).
Proof.
  unfold vst2, lanes, chunks. f_equal. generalize (seqZ 0 (Z.of_nat n)).
  induction l as [|x l IH]; [done|]. rewrite !fmap_cons. cbn [zip_with]. by rewrite IH.
Qed.

Lemma vst4_lanes n f g h k :
  vst4 (lanes n f) (lanes n g) (lanes n h) (lanes n k) =
    chunks n (fun i => [f i; g i; h i; k i]).
Proof.
  unfold vst4, lanes, chunks. f_equal. generalize (seqZ 0 (Z.of_nat n)).
  induction l as [|x l IH]; [done|]. rewrite !fmap_cons. cbn [zip_with]. by rewrite IH.
Qed.

Lemma vdup_lanes n v : vdup n v = lanes n (fun _ => v).
Proof.
  apply list_eq. intros i. unfold vdup. rewrite lookup_lanes. case_decide.
  - by apply lookup_replicate_2.
  - apply lookup_replicate_None. lia.
Qed.

(** Storing lanes or chunks sets a run of bytes. *)
Lemma stores_lanes m i n f j :
  stores m i (lanes n f) j = if (i <=? j) && (j <? i + Z.of_nat n) then f (j - i) else m j.
Proof.
  rewrite stores_at, zlen_lanes.
  destruct (Z.leb_spec i j), (Z.ltb_spec j (i + Z.of_nat n)); cbn; try done.
  by rewrite get_lanes by lia.
Qed.

Lemma stores_chunks m i n c f j :
  0 < c -> (forall k, zlen (f k) = c) ->
  stores m i (chunks n f) j =
    if (i <=? j) && (j <? i + Z.of_nat n * c)
    then get (f ((j - i) / c)) ((j - i) mod c) else m j.
Proof.
  intros Hc Hf. destruct (chunks_spec n f c Hc Hf) as [Hl Hg].
  rewrite stores_at, Hl.
  destruct (Z.leb_spec i j), (Z.ltb_spec j (i + Z.of_nat n * c)); cbn; try done.
  by rewrite Hg by lia.
Qed.

(** Bytes after white balance. *)
Lemma shiftr_div z n : 0 <= n -> Z.shiftr z n = z / 2 ^ n.
Proof. apply Z.shiftr_div_pow2. Qed.

Lemma get_vld1 n m i k : 0 <= k < Z.of_nat n -> get (vld1 n m i) k = m (i + k).
Proof. apply (get_lanes n (fun k => m (i + k))). Qed.

Ltac div_lia := Z.to_euclidean_division_equations; lia.

Lemma stores_app m i l k : stores m i (l ++ k) = stores (stores m i l) (i + zlen l) k.
Proof.
  revert m i; induction l as [|v l IH]; intros m i; cbn [app stores].
  - by rewrite zlen_nil, Z.add_0_r.
  - rewrite IH, zlen_cons. f_equal. lia.
Qed.

(** A loop preserves what its body preserves. *)
Lemma for_loop_preserves {S} (P : S -> Prop) fuel cond step body x (s : S) :
  (forall x s, P s -> P (body x s)) -> P s -> P (for_loop fuel cond step body x s).2.
Proof.
  intros Hb. revert x s; induction fuel as [|fuel IH]; intros x s Hs; cbn [for_loop]; [done|].
  destruct (cond x); [|done]. apply IH, Hb, Hs.
Qed.
