(* ===== verification/ColorConv.v ===== *)
(** * RGB to NV12 and RGBA

    Models [camera/isp/ColorConvNEON.cpp].  [vget_low]/[vget_high]/[vcombine] only
    split a register in halves and rejoin it, so a chain of them is the chain on the
    whole register; every arithmetic step keeps its lane width.  Offsets are
    mathematical: the frames the HAL configures are far below 2^31 bytes.  Converting
    the floating-point gains to Q8.8 is left to the caller ([rG], [gG], [bG]). *)

From S2P Require Import Prelude.
From S2P Require Import Neon.

Record color_conv := mk_conv { mWidth : Z; mHeight : Z; mInitialized : bool }.

(** The new state and the status. *)
Definition initialize (c : color_conv) (width height : Z) : color_conv * Z :=
  if (width =? 0) || (height =? 0) then (c, -1) else (mk_conv width height true, 0).

(** ** Vector arithmetic *)

Definition vmull_s16 (c : Z) (v : list Z) : list Z := (fun a => wrap_s32 (c * a)) <$> v.
Definition vmlal_s16 (acc : list Z) (c : Z) (v : list Z) : list Z :=
  vmap2 (fun s a => wrap_s32 (s + c * a)) acc v.
Definition vshrn_s32 (v : list Z) (n : Z) : list Z := (fun a => wrap_s16 (Z.shiftr a n)) <$> v.
Definition vaddq_s32 (v : list Z) (c : Z) : list Z := (fun a => wrap_s32 (a + c)) <$> v.
Definition vaddq_s16 (v : list Z) (c : Z) : list Z := (fun a => wrap_s16 (a + c)) <$> v.
Definition vqmovun_s16 (v : list Z) : list Z := sat_u8 <$> v.

(** One output component of a register of pixels. *)
Definition convert_lanes (cr cg cb bias : Z) (r g b : list Z) : list Z :=
  let acc := vmull_s16 cr r in
  let acc := vmlal_s16 acc cg g in
  let acc := vmlal_s16 acc cb b in
  vqmovun_s16 (vaddq_s16 (vshrn_s32 (vaddq_s32 acc 128) 8) bias).

(** The scalar expression stored to a [uint8_t]. *)
Definition convert_pixel (cr cg cb bias : Z) (rgb : mem) (p : Z) : Z :=
  wrap_u8 (Z.shiftr (cr * rgb p + cg * rgb (p + 1) + cb * rgb (p + 2) + 128) 8 + bias).

(** ** The luma plane *)

Section Planes.
Variables (width height : Z) (rgb : mem).

Definition y_batch (row_base x : Z) (yPlane : mem) : mem :=
  let p := (row_base + x) * 3 in
  stores yPlane (row_base + x)
    (convert_lanes 66 129 25 16 (vld3 8 rgb p 0) (vld3 8 rgb p 1) (vld3 8 rgb p 2)).

Definition y_pixel (row_base x : Z) (yPlane : mem) : mem :=
  store yPlane (row_base + x) (convert_pixel 66 129 25 16 rgb ((row_base + x) * 3)).

Definition y_row (y : Z) (yPlane : mem) : mem :=
  let row_base := y * width in
  let '(x, yPlane) :=
    for_loop (Z.to_nat width) (fun x => x + 8 <=? width) 8 (y_batch row_base) 0 yPlane in
  (for_loop (Z.to_nat width) (fun x => x <? width) 1 (y_pixel row_base) x yPlane).2.

Definition y_plane (yPlane : mem) : mem :=
  (for_loop (Z.to_nat height) (fun y => y <? height) 1 y_row 0 yPlane).2.

(** ** The chroma plane *)

(** The even lanes of 16 pixels. *)
Definition even_lanes (v : list Z) : list Z := (vuzp (take 8 v) (drop 8 v)).1.

Definition uv_batch (y uv_row x : Z) (uvPlane : mem) : mem :=
  let p := (y * width + x) * 3 in
  let r := even_lanes (vld3 16 rgb p 0) in
  let g := even_lanes (vld3 16 rgb p 1) in
  let b := even_lanes (vld3 16 rgb p 2) in
  stores uvPlane (uv_row + x)
    (vst2 (convert_lanes (-38) (-74) 112 128 r g b) (convert_lanes 112 (-94) (-18) 128 r g b)).

(** The scalar loop's body; at an odd last column the loop is left. *)
Definition uv_pair (y uv_row x : Z) (uvPlane : mem) : mem :=
  let p := (y * width + x) * 3 in
  store (store uvPlane (uv_row + x) (convert_pixel (-38) (-74) 112 128 rgb p))
    (uv_row + x + 1) (convert_pixel 112 (-94) (-18) 128 rgb p).

Definition uv_row (y : Z) (uvPlane : mem) : mem :=
  let base := y / 2 * width in
  let '(x, uvPlane) :=
    for_loop (Z.to_nat width) (fun x => x + 16 <=? width) 16 (uv_batch y base) 0 uvPlane in
  (for_loop (Z.to_nat width) (fun x => (x <? width) && negb (width <=? x + 1)) 2 (uv_pair y base) x uvPlane).2.

Definition uv_plane (uvPlane : mem) : mem :=
  (for_loop (Z.to_nat height) (fun y => y <? height) 2 uv_row 0 uvPlane).2.
End Planes.

(** The planes after the call. *)
Definition rgbToNv12 (c : color_conv) (rgb yPlane uvPlane : mem) : mem * mem :=
  if negb (mInitialized c) then (yPlane, uvPlane)
  else (y_plane (mWidth c) (mHeight c) rgb yPlane, uv_plane (mWidth c) (mHeight c) rgb uvPlane).

(** ** RGBA *)

Definition rgba_batch (rgb : mem) (i : Z) (rgba : mem) : mem :=
  stores rgba (i * 4)
    (vst4 (vld3 8 rgb (i * 3) 0) (vld3 8 rgb (i * 3) 1) (vld3 8 rgb (i * 3) 2) (vdup 8 255)).

Definition rgba_pixel (rgb : mem) (i : Z) (rgba : mem) : mem :=
  let rgba := store rgba (i * 4) (rgb (i * 3)) in
  let rgba := store rgba (i * 4 + 1) (rgb (i * 3 + 1)) in
  let rgba := store rgba (i * 4 + 2) (rgb (i * 3 + 2)) in
  store rgba (i * 4 + 3) 255.

Definition rgbToRgba (rgb rgba : mem) (width height : Z) : mem :=
  let total := width * height in
  let '(i, rgba) :=
    for_loop (Z.to_nat total) (fun i => i + 8 <=? total) 8 (rgba_batch rgb) 0 rgba in
  (for_loop (Z.to_nat total) (fun i => i <? total) 1 (rgba_pixel rgb) i rgba).2.

(** ** White balance, gamma and flip in one pass *)

Section WbGamma.
Variables (width height rG gG bG : Z) (gammaLut rgb : mem) (flipV : bool).

Definition vmull_u16 (v : list Z) (g : Z) : list Z := (fun a => wrap_u32 (a * wrap_u16 g)) <$> v.
Definition vshrn_u32 (v : list Z) (n : Z) : list Z :=
  (fun a => wrap_u16 (Z.shiftr (wrap_u32 (a + 128)) n)) <$> v.
Definition vqmovn_u16 (v : list Z) : list Z := (fun a => Z.min 255 a) <$> v.

Definition balance_lanes (v : list Z) (g : Z) : list Z := vqmovn_u16 (vshrn_u32 (vmull_u16 v g) 8).

Definition src_row (y : Z) : Z := if flipV then height - 1 - y else y.

Definition wb_batch (y x : Z) (rgba : mem) : mem :=
  let src := src_row y * width * 3 + x * 3 in
  let rc := balance_lanes (vld3 8 rgb src 0) rG in
  let gc := balance_lanes (vld3 8 rgb src 1) gG in
  let bc := balance_lanes (vld3 8 rgb src 2) bG in
  stores rgba (y * (width * 4) + x * 4)
    (chunks 8 (fun i => [gammaLut (get rc i); gammaLut (get gc i); gammaLut (get bc i); 255])).

Definition balance_pixel (v g : Z) : Z :=
  let r := Z.shiftr (v * g + 128) 8 in if 255 <? r then 255 else r.

Definition wb_pixel (y x : Z) (rgba : mem) : mem :=
  let si := (src_row y * width + x) * 3 in
  let di := y * (width * 4) + x * 4 in
  let rgba := store rgba di (gammaLut (balance_pixel (rgb si) rG)) in
  let rgba := store rgba (di + 1) (gammaLut (balance_pixel (rgb (si + 1)) gG)) in
  let rgba := store rgba (di + 2) (gammaLut (balance_pixel (rgb (si + 2)) bG)) in
  store rgba (di + 3) 255.

Definition wb_row (y : Z) (rgba : mem) : mem :=
  let '(x, rgba) :=
    for_loop (Z.to_nat width) (fun x => x + 8 <=? width) 8 (wb_batch y) 0 rgba in
  (for_loop (Z.to_nat width) (fun x => x <? width) 1 (wb_pixel y) x rgba).2.

Definition rgbToRgbaWbGamma (rgba : mem) : mem :=
  (for_loop (Z.to_nat height) (fun y => y <? height) 1 wb_row 0 rgba).2.
End WbGamma.

(** ** Specification *)

(** The BT.601 component of the pixel whose bytes start at [p], over the integers. *)
Definition component (cr cg cb bias : Z) (rgb : mem) (p : Z) : Z :=
  Z.shiftr (cr * rgb p + cg * rgb (p + 1) + cb * rgb (p + 2) + 128) 8 + bias.

Definition luma : mem -> Z -> Z := component 66 129 25 16.
Definition chroma_u : mem -> Z -> Z := component (-38) (-74) 112 128.
Definition chroma_v : mem -> Z -> Z := component 112 (-94) (-18) 128.

(** The three rows of the BT.601 matrix. *)
Inductive bt601 : Z -> Z -> Z -> Z -> Prop :=
| bt_y : bt601 66 129 25 16
| bt_u : bt601 (-38) (-74) 112 128
| bt_v : bt601 112 (-94) (-18) 128.
#[local] Hint Constructors bt601 : core.

Lemma wrap_s32_small z : -2147483648 <= z < 2147483648 -> wrap_s32 z = z.
Proof. intros H. apply wrap_s32_id. unfold is_int, INT_MIN, INT_MAX. lia. Qed.

Lemma component_range cr cg cb bias rgb p :
  bt601 cr cg cb bias -> bytes_mem rgb -> 16 <= component cr cg cb bias rgb p <= 240.
Proof.
  intros Hc Hb. unfold component. rewrite shiftr_div by lia. change (2 ^ 8) with 256.
  pose proof (Hb p). pose proof (Hb (p + 1)). pose proof (Hb (p + 2)). unfold byte in *.
  destruct Hc; div_lia.
Qed.

(** No lane of the vector chain overflows or saturates. *)
Lemma convert_lanes_eq n cr cg cb bias r g b :
  bt601 cr cg cb bias -> (forall k, byte (r k)) -> (forall k, byte (g k)) -> (forall k, byte (b k)) ->
  convert_lanes cr cg cb bias (lanes n r) (lanes n g) (lanes n b) =
    lanes n (fun k => Z.shiftr (cr * r k + cg * g k + cb * b k + 128) 8 + bias).
Proof.
  intros Hc Hr Hg Hb.
  unfold convert_lanes, vqmovun_s16, vaddq_s16, vshrn_s32, vaddq_s32, vmlal_s16, vmull_s16.
  repeat (rewrite fmap_lanes || rewrite vmap2_lanes). apply lanes_ext. intros k _.
  specialize (Hr k). specialize (Hg k). specialize (Hb k). unfold byte in *.
  rewrite (wrap_s32_small (cr * r k)) by (destruct Hc; lia).
  rewrite (wrap_s32_small (cr * r k + cg * g k)) by (destruct Hc; lia).
  rewrite (wrap_s32_small (cr * r k + cg * g k + cb * b k)) by (destruct Hc; lia).
  rewrite (wrap_s32_small (_ + 128)) by (destruct Hc; lia).
  rewrite !shiftr_div by lia. change (2 ^ 8) with 256.
  rewrite (wrap_s16_id (_ / 256)) by (destruct Hc; div_lia).
  rewrite wrap_s16_id by (destruct Hc; div_lia).
  apply sat_u8_id. unfold byte. destruct Hc; div_lia.
Qed.

Lemma convert_pixel_eq cr cg cb bias rgb p :
  bt601 cr cg cb bias -> bytes_mem rgb ->
  convert_pixel cr cg cb bias rgb p = component cr cg cb bias rgb p.
Proof.
  intros Hc Hb. pose proof (component_range _ _ _ _ rgb p Hc Hb) as H.
  unfold convert_pixel. fold (component cr cg cb bias rgb p). apply wrap_u8_id. unfold byte. lia.
Qed.

Section PlaneSpec.
Variables (width height : Z) (rgb : mem).
Hypothesis (Hw : 0 < width) (Hh : 0 < height) (Hb : bytes_mem rgb).

Lemma y_row_spec y m j :
  y_row width rgb y m j =
    if (y * width <=? j) && (j <? y * width + width) then luma rgb (j * 3) else m j.
Proof using Hw Hb.
  unfold y_row.
  pose proof (fill_loop (fun j => luma rgb (j * 3)) (fun x => y * width + x) 8 width
    (fun x => x + 8 <=? width) (y_batch rgb (y * width)) (Z.to_nat width) 0 m) as H1.
  destruct (for_loop _ _ 8 _ 0 m) as [x m1]. cbn [fst snd] in H1.
  destruct H1 as (Hx & Hx8 & _ & H1); [lia|intros; apply Z.leb_le|lia| |lia|lia|].
  { intros x' m' j' _ _ Hx'. unfold y_batch, vld3.
    rewrite (convert_lanes_eq 8 66 129 25 16) by (auto || (intros; apply Hb)).
    rewrite stores_lanes. rewrite Z.add_assoc. change (Z.of_nat 8) with 8.
    case_test; [|done]. unfold luma, component.
    replace ((y * width + x') * 3 + 3 * (j' - (y * width + x')) + 0) with (j' * 3) by lia.
    replace ((y * width + x') * 3 + 3 * (j' - (y * width + x')) + 1) with (j' * 3 + 1) by lia.
    by replace ((y * width + x') * 3 + 3 * (j' - (y * width + x')) + 2) with (j' * 3 + 2) by lia. }
  pose proof (fill_loop (fun j => luma rgb (j * 3)) (fun x => y * width + x) 1 width
    (fun x => x <? width) (y_pixel rgb (y * width)) (Z.to_nat width) x m1) as H2.
  destruct (for_loop _ _ 1 _ x m1) as [x2 m2]. cbn [fst snd] in H2 |- *.
  destruct H2 as (Hx2 & Hx2' & _ & H2); [lia|intros; rewrite Z.ltb_lt; lia|lia| |lia|lia|].
  { intros x' m' j' _ _ Hx'. unfold y_pixel, store. rewrite (convert_pixel_eq 66 129 25 16) by auto.
    destruct (Z.eqb_spec j' (y * width + x')) as [->|].
    - rewrite (proj2 (Z.leb_le _ _)), (proj2 (Z.ltb_lt _ _)) by lia. done.
    - case_test; [|done]. lia. }
  rewrite (region_extend (fun j => luma rgb (j * 3)) (y * width + 0) (y * width + x)
    (y * width + x2) m m1 m2); [|lia|exact H1|exact H2].
  by replace x2 with width by lia; rewrite Z.add_0_r.
Qed.

Lemma y_plane_spec m j :
  y_plane width height rgb m j =
    if (0 <=? j) && (j <? height * width) then luma rgb (j * 3) else m j.
Proof using Hw Hh Hb.
  unfold y_plane.
  pose proof (fill_loop (fun j => luma rgb (j * 3)) (fun y => y * width) 1 height
    (fun y => y <? height) (y_row width rgb) (Z.to_nat height) 0 m) as H.
  destruct (for_loop _ _ 1 _ 0 m) as [y m1]. cbn [fst snd] in H |- *.
  destruct H as (Hy & Hy' & _ & H); [lia|intros; rewrite Z.ltb_lt; lia|nia| |lia|lia|].
  { intros y' m' j' _ _ _. rewrite y_row_spec. by rewrite Z.mul_add_distr_r, Z.mul_1_l. }
  rewrite H. by replace y with height by lia.
Qed.

(** The chroma byte [k] of the row sampled at image row [y]. *)
Definition chroma (y k : Z) : Z :=
  (if Z.even k then chroma_u else chroma_v) rgb ((y * width + 2 * (k / 2)) * 3).

Lemma mod_2_cases d : d mod 2 = 0 \/ d mod 2 = 1.
Proof using. div_lia. Qed.

Lemma chroma_split y k b :
  0 <= b < 2 ->
  chroma y (2 * k + b) = (if b =? 0 then chroma_u else chroma_v) rgb ((y * width + 2 * k) * 3).
Proof using.
  intros Hbb. unfold chroma. replace ((2 * k + b) / 2) with k by div_lia.
  replace (2 * k + b) with (b + 2 * k) by lia. rewrite Z.even_add_mul_2.
  assert (b = 0 \/ b = 1) as [-> | ->] by lia; done.
Qed.

Lemma even_lanes_eq p c : even_lanes (vld3 16 rgb p c) = lanes 8 (fun k => rgb (p + 6 * k + c)).
Proof using.
  unfold even_lanes, vld3. rewrite take_lanes, drop_lanes by lia. rewrite vuzp_lanes. cbn [fst].
  apply lanes_ext. intros k Hk. cbn beta. change (Z.of_nat 8) with 8 in *. case_test.
  - f_equal. lia.
  - f_equal. lia.
Qed.

Lemma uv_row_spec y m j :
  Z.even width = true ->
  uv_row width rgb y m j =
    if (y / 2 * width <=? j) && (j <? y / 2 * width + width)
    then chroma y (j - y / 2 * width) else m j.
Proof using Hw Hb.
  intros He. unfold uv_row. set (base := y / 2 * width).
  pose proof (fill_loop (fun j => chroma y (j - base)) (fun x => base + x) 16 width
    (fun x => x + 16 <=? width) (uv_batch width rgb y base) (Z.to_nat width) 0 m) as H1.
  destruct (for_loop _ _ 16 _ 0 m) as [x m1]. cbn [fst snd] in H1.
  destruct H1 as (Hx & Hx16 & Hd & H1); [lia|intros; apply Z.leb_le|lia| |lia|lia|].
  { intros x' m' j' _ [q Hq] Hx'. unfold uv_batch. rewrite !even_lanes_eq.
    rewrite (convert_lanes_eq 8 (-38) (-74) 112 128), (convert_lanes_eq 8 112 (-94) (-18) 128)
      by (auto || (intros; apply Hb)).
    rewrite vst2_lanes, (stores_chunks _ _ _ 2) by done. rewrite Z.add_assoc.
    change (Z.of_nat 8 * 2) with 16. case_test; [|done].
    set (d := j' - (base + x')).
    assert (Hd : j' - base = 2 * (8 * q + d / 2) + d mod 2) by (unfold d; div_lia).
    rewrite Hd, chroma_split by div_lia.
    assert (Hi : forall c, (y * width + x') * 3 + 6 * (d / 2) + c =
      (y * width + 2 * (8 * q + d / 2)) * 3 + c) by lia.
    rewrite !Hi, Z.add_0_r.
    by destruct (mod_2_cases d) as [-> | ->]. }
  pose proof (fill_loop (fun j => chroma y (j - base)) (fun x => base + x) 2 width
    (fun x => (x <? width) && negb (width <=? x + 1)) (uv_pair width rgb y base)
    (Z.to_nat width) x m1) as H2.
  destruct (for_loop _ _ 2 _ x m1) as [x2 m2]. cbn [fst snd] in H2 |- *.
  destruct H2 as (Hx2 & Hx2' & [q2 Hq2] & H2); [lia| |lia| |lia|lia|].
  { intros x' _. rewrite andb_true_iff, negb_true_iff, Z.ltb_lt, Z.leb_gt. lia. }
  { intros x' m' j' Hge [n Hn] Hx'. destruct Hd as [q Hq]. unfold uv_pair, store.
    rewrite (convert_pixel_eq (-38) (-74) 112 128), (convert_pixel_eq 112 (-94) (-18) 128) by auto.
    assert (He' : x' = 2 * (8 * q + n) + 0) by lia.
    destruct (Z.eqb_spec j' (base + x' + 1)) as [->|]; [|destruct (Z.eqb_spec j' (base + x')) as [->|]].
    - rewrite (proj2 (Z.leb_le _ _)), (proj2 (Z.ltb_lt _ _)) by lia. cbn [andb].
      replace (base + x' + 1 - base) with (2 * (8 * q + n) + 1) by lia.
      rewrite chroma_split by lia. cbn. unfold chroma_v. do 2 f_equal. lia.
    - rewrite (proj2 (Z.leb_le _ _)), (proj2 (Z.ltb_lt _ _)) by lia. cbn [andb].
      replace (base + x' - base) with (2 * (8 * q + n) + 0) by lia.
      rewrite chroma_split by lia. cbn. unfold chroma_u. do 2 f_equal. lia.
    - case_test; [lia|done]. }
  rewrite (region_extend (fun j => chroma y (j - base)) (base + 0) (base + x)
    (base + x2) m m1 m2); [|lia|exact H1|exact H2].
  apply Z.even_spec in He as [hw Hhw]. destruct Hd as [q Hq].
  by replace x2 with width by lia; rewrite Z.add_0_r.
Qed.

Lemma uv_plane_spec m j :
  Z.even width = true -> Z.even height = true ->
  uv_plane width height rgb m j =
    if (0 <=? j) && (j <? height / 2 * width)
    then chroma (2 * (j / width)) (j mod width) else m j.
Proof using Hw Hh Hb.
  intros Hew Heh. apply Z.even_spec in Heh as [hh Hhh]. unfold uv_plane.
  pose proof (fill_loop (fun j => chroma (2 * (j / width)) (j mod width)) (fun y => y / 2 * width)
    2 height (fun y => y <? height) (uv_row width rgb) (Z.to_nat height) 0 m) as H.
  destruct (for_loop _ _ 2 _ 0 m) as [y m1]. cbn [fst snd] in H |- *.
  destruct H as (Hy & Hy' & [q Hq] & H); [lia| | | |lia|lia|].
  { intros y' [n Hn]. rewrite Z.ltb_lt. lia. }
  { intros y1 y2 Hle. apply Z.mul_le_mono_nonneg_r; [lia|]. apply Z.div_le_mono; lia. }
  { intros y' m' j' _ [n Hn] _. rewrite uv_row_spec by done.
    replace ((y' + 2) / 2) with (y' / 2 + 1) by div_lia.
    rewrite Z.mul_add_distr_r, Z.mul_1_l. case_test; [|done].
    assert (Hjd : j' / width = n).
    { symmetry. apply Z.div_unique with (j' - y' / 2 * width); [left; lia|].
      replace (y' / 2) with n by div_lia. lia. }
    rewrite Z.mod_eq, Hjd by lia. replace (y' / 2) with n by div_lia.
    replace y' with (2 * n) by lia. f_equal. lia. }
  rewrite H. replace y with height by lia. done.
Qed.
End PlaneSpec.

(** ** RGBA specifications *)

Lemma four_cases p j :
  p * 4 <= j < p * 4 + 4 -> exists c, 0 <= c < 4 /\ j = p * 4 + c /\ j / 4 = p /\ j mod 4 = c.
Proof. intros H. exists (j - p * 4). split_and!; [lia|lia|lia|div_lia|div_lia]. Qed.

(** Four consecutive byte stores. *)
Lemma store4 m p v0 v1 v2 v3 j :
  store (store (store (store m (p * 4) v0) (p * 4 + 1) v1) (p * 4 + 2) v2) (p * 4 + 3) v3 j =
    if (p * 4 <=? j) && (j <? p * 4 + 4) then get [v0; v1; v2; v3] (j mod 4) else m j.
Proof.
  unfold store. destruct (Z.leb_spec (p * 4) j), (Z.ltb_spec j (p * 4 + 4)); cbn [andb];
    try (decide_tests; done).
  - destruct (four_cases p j) as (c & Hc & -> & _ & ->); [lia|].
    assert (c = 0 \/ c = 1 \/ c = 2 \/ c = 3) as [->|[->|[->| ->]]] by lia;
      decide_tests; reflexivity.
Qed.

Definition rgba_byte (rgb : mem) (j : Z) : Z :=
  if j mod 4 =? 3 then 255 else rgb (j / 4 * 3 + j mod 4).

Lemma rgba_byte_get rgb p c :
  0 <= c < 4 ->
  get [rgb (p * 3); rgb (p * 3 + 1); rgb (p * 3 + 2); 255] c = rgba_byte rgb (p * 4 + c).
Proof.
  intros Hc. unfold rgba_byte. replace ((p * 4 + c) mod 4) with c by div_lia.
  replace ((p * 4 + c) / 4) with p by div_lia.
  assert (c = 0 \/ c = 1 \/ c = 2 \/ c = 3) as [->|[->|[->| ->]]] by lia; cbn;
    rewrite ?Z.add_0_r; done.
Qed.

Lemma rgbToRgba_spec rgb rgba width height j :
  0 <= width * height ->
  rgbToRgba rgb rgba width height j =
    if (0 <=? j) && (j <? width * height * 4) then rgba_byte rgb j else rgba j.
Proof.
  intros Ht. unfold rgbToRgba. set (total := width * height) in *.
  pose proof (fill_loop (rgba_byte rgb) (fun i => i * 4) 8 total
    (fun i => i + 8 <=? total) (rgba_batch rgb) (Z.to_nat total) 0 rgba) as H1.
  destruct (for_loop _ _ 8 _ 0 rgba) as [x m1]. cbn [fst snd] in H1.
  destruct H1 as (Hx & Hx8 & _ & H1); [lia|intros; apply Z.leb_le|lia| |lia|lia|].
  { intros i m' j' _ _ Hi. unfold rgba_batch, vld3. rewrite vdup_lanes, vst4_lanes.
    rewrite (stores_chunks _ _ _ 4) by done.
    change (Z.of_nat 8 * 4) with (8 * 4). rewrite <- Z.mul_add_distr_r. case_test; [|done].
    destruct (four_cases (j' / 4) j') as (c & Hc & Hj & _ & _); [div_lia|].
    assert (Hd : (j' - i * 4) / 4 = j' / 4 - i) by div_lia.
    assert (Hm : (j' - i * 4) mod 4 = c) by div_lia.
    rewrite Hd, Hm. rewrite Hj at 4. rewrite <- rgba_byte_get by done.
    by replace (i * 3 + 3 * (j' / 4 - i)) with (j' / 4 * 3) by lia; rewrite Z.add_0_r. }
  pose proof (fill_loop (rgba_byte rgb) (fun i => i * 4) 1 total
    (fun i => i <? total) (rgba_pixel rgb) (Z.to_nat total) x m1) as H2.
  destruct (for_loop _ _ 1 _ x m1) as [x2 m2]. cbn [fst snd] in H2 |- *.
  destruct H2 as (Hx2 & Hx2' & _ & H2); [lia|intros; rewrite Z.ltb_lt; lia|lia| |lia|lia|].
  { intros i m' j' _ _ Hi. unfold rgba_pixel. rewrite store4.
    replace ((i + 1) * 4) with (i * 4 + 4) by lia. case_test; [|done].
    destruct (four_cases i j') as (c & Hc & -> & _ & ->); [lia|]. by apply rgba_byte_get. }
  rewrite (region_extend (rgba_byte rgb) (0 * 4) (x * 4) (x2 * 4) rgba m1 m2);
    [|lia|exact H1|exact H2].
  by replace x2 with total by lia.
Qed.

Section WbSpec.
Variables (width height rG gG bG : Z) (lut rgb : mem) (flipV : bool).
Hypothesis (Hw : 0 < width) (Hh : 0 < height) (Hb : bytes_mem rgb).
Hypothesis (Hr : 0 <= rG < 65536) (Hg : 0 <= gG < 65536) (Hbl : 0 <= bG < 65536).

(** A component scaled by a Q8.8 gain, rounded and clamped. *)
Definition balance (v g : Z) : Z := Z.min 255 (Z.shiftr (v * g + 128) 8).

(** The byte of channel [c] of output pixel ([x], [y]). *)
Definition wb_byte (y x c : Z) : Z :=
  if c =? 3 then 255
  else lut (balance (rgb ((src_row height flipV y * width + x) * 3 + c))
              (if c =? 0 then rG else if c =? 1 then gG else bG)).

Lemma balance_lanes_eq n f g :
  (forall k, byte (f k)) -> 0 <= g < 65536 ->
  balance_lanes (lanes n f) g = lanes n (fun k => balance (f k) g).
Proof using.
  clear - lut. intros Hf Hg'. unfold balance_lanes, vqmovn_u16, vshrn_u32, vmull_u16.
  rewrite !fmap_lanes. apply lanes_ext. intros k _. specialize (Hf k). unfold byte in Hf.
  rewrite (wrap_u16_id g) by done. unfold balance.
  assert (0 <= f k * g <= 255 * 65535) by nia.
  rewrite (wrap_u32_id (f k * g)), (wrap_u32_id (_ + 128)) by lia.
  rewrite shiftr_div by lia. change (2 ^ 8) with 256. rewrite wrap_u16_id by div_lia. done.
Qed.

Lemma balance_pixel_eq v g : balance_pixel v g = balance v g.
Proof using. clear. unfold balance_pixel, balance. case_test; lia. Qed.

Lemma wb_get y x c (s := (src_row height flipV y * width + x) * 3) :
  0 <= c < 4 ->
  get [lut (balance (rgb s) rG); lut (balance (rgb (s + 1)) gG); lut (balance (rgb (s + 2)) bG); 255] c
    = wb_byte y x c.
Proof using.
  clear Hr Hg Hbl Hw Hh Hb. intros Hc. unfold wb_byte. fold s.
  assert (c = 0 \/ c = 1 \/ c = 2 \/ c = 3) as [->|[->|[->| ->]]] by lia; cbn;
    rewrite ?Z.add_0_r; done.
Qed.

Lemma wb_row_spec y m j :
  wb_row width height rG gG bG lut rgb flipV y m j =
    if (y * (width * 4) <=? j) && (j <? y * (width * 4) + width * 4)
    then wb_byte y (j / 4 - y * width) (j mod 4) else m j.
Proof using Hw Hb Hr Hg Hbl.
  unfold wb_row. set (f := fun j => wb_byte y (j / 4 - y * width) (j mod 4)).
  pose proof (fill_loop f (fun x => y * (width * 4) + x * 4) 8 width
    (fun x => x + 8 <=? width) (wb_batch width height rG gG bG lut rgb flipV y) (Z.to_nat width) 0 m) as H1.
  destruct (for_loop _ _ 8 _ 0 m) as [x m1]. cbn [fst snd] in H1.
  destruct H1 as (Hx & Hx8 & _ & H1); [lia|intros; apply Z.leb_le|lia| |lia|lia|].
  { intros x' m' j' _ _ Hx'. unfold wb_batch, vld3.
    rewrite !balance_lanes_eq by (done || (intros; apply Hb)).
    rewrite (stores_chunks _ _ _ 4) by done. change (Z.of_nat 8 * 4) with 32.
    replace (y * (width * 4) + (x' + 8) * 4) with (y * (width * 4) + x' * 4 + 32) by lia.
    case_test; [|done]. unfold f. set (P := y * width + x').
    replace (y * (width * 4) + x' * 4) with (P * 4) in * by (unfold P; lia).
    destruct (four_cases (j' / 4) j') as (c & Hc & Hj & _ & Hm); [div_lia|].
    assert (Hd : (j' - P * 4) / 4 = j' / 4 - P) by div_lia.
    assert (Hm' : (j' - P * 4) mod 4 = c) by div_lia.
    rewrite Hd, Hm, Hm', <- wb_get by done. rewrite !get_lanes by (change (Z.of_nat 8) with 8; div_lia).
    replace (src_row height flipV y * width * 3 + x' * 3 + 3 * (j' / 4 - P) + 0)
      with ((src_row height flipV y * width + (j' / 4 - y * width)) * 3) by (unfold P; lia).
    replace (src_row height flipV y * width * 3 + x' * 3 + 3 * (j' / 4 - P))
      with ((src_row height flipV y * width + (j' / 4 - y * width)) * 3) by (unfold P; lia). done. }
  pose proof (fill_loop f (fun x => y * (width * 4) + x * 4) 1 width
    (fun x => x <? width) (wb_pixel width height rG gG bG lut rgb flipV y) (Z.to_nat width) x m1) as H2.
  destruct (for_loop _ _ 1 _ x m1) as [x2 m2]. cbn [fst snd] in H2 |- *.
  destruct H2 as (Hx2 & Hx2' & _ & H2); [lia|intros; rewrite Z.ltb_lt; lia|lia| |lia|lia|].
  { intros x' m' j' _ _ Hx'. unfold wb_pixel. rewrite !balance_pixel_eq.
    replace (y * (width * 4) + x' * 4) with ((y * width + x') * 4) by lia.
    replace (y * (width * 4) + (x' + 1) * 4) with ((y * width + x') * 4 + 4) by lia.
    rewrite store4. case_test; [|done].
    destruct (four_cases (y * width + x') j') as (c & Hc & Hj & Hd & Hm); [lia|].
    rewrite wb_get by lia. unfold f. rewrite Hd, Hm. f_equal. lia. }
  rewrite (region_extend f (y * (width * 4) + 0 * 4) (y * (width * 4) + x * 4)
    (y * (width * 4) + x2 * 4) m m1 m2); [|lia|exact H1|exact H2].
  replace x2 with width by lia. by rewrite Z.mul_0_l, Z.add_0_r.
Qed.

Lemma wb_gamma_spec m j :
  rgbToRgbaWbGamma width height rG gG bG lut rgb flipV m j =
    if (0 <=? j) && (j <? height * (width * 4))
    then wb_byte (j / 4 / width) ((j / 4) mod width) (j mod 4) else m j.
Proof using Hw Hh Hb Hr Hg Hbl.
  unfold rgbToRgbaWbGamma.
  pose proof (fill_loop (fun j => wb_byte (j / 4 / width) ((j / 4) mod width) (j mod 4))
    (fun y => y * (width * 4)) 1 height (fun y => y <? height)
    (wb_row width height rG gG bG lut rgb flipV) (Z.to_nat height) 0 m) as H.
  destruct (for_loop _ _ 1 _ 0 m) as [y m1]. cbn [fst snd] in H |- *.
  destruct H as (Hy & Hy' & _ & H); [lia|intros; rewrite Z.ltb_lt; lia|nia| |lia|lia|].
  { intros y' m' j' _ _ _. rewrite wb_row_spec. rewrite Z.mul_add_distr_r, Z.mul_1_l.
    case_test; [|done].
    assert (Hq : j' / 4 / width = y').
    { symmetry. apply Z.div_unique with (j' / 4 - y' * width); [left; div_lia|lia]. }
    rewrite (Z.mod_eq (j' / 4) width), Hq by lia. f_equal. lia. }
  rewrite H. by replace y with height by lia.
Qed.
End WbSpec.

(** ** Properties *)

(** For an initialised converter and a frame of even dimensions, the vector and
    the scalar code together compute exactly the BT.601 luma of every pixel and the
    chroma of every second pixel of every second row, interleaved as NV12; every
    component is in 16..240, and no byte outside the two planes is written. *)
Theorem rgbToNv12_correct (c0 : color_conv) (w h : Z) (rgb yp uvp : mem)
    (Hw : 0 < w) (Hh : 0 < h) (Hew : Z.even w = true) (Heh : Z.even h = true)
    (Hb : bytes_mem rgb) :
  let c := (initialize c0 w h).1 in
  let '(yp', uvp') := rgbToNv12 c rgb yp uvp in
  (forall x y, 0 <= x < w -> 0 <= y < h ->
     yp' (y * w + x) = luma rgb ((y * w + x) * 3) /\ 16 <= yp' (y * w + x) <= 240) /\
  (forall cx cy, 0 <= cx < w / 2 -> 0 <= cy < h / 2 ->
     let p := (2 * cy * w + 2 * cx) * 3 in
     uvp' (cy * w + 2 * cx) = chroma_u rgb p /\ 16 <= uvp' (cy * w + 2 * cx) <= 240 /\
     uvp' (cy * w + 2 * cx + 1) = chroma_v rgb p /\ 16 <= uvp' (cy * w + 2 * cx + 1) <= 240) /\
  (forall j, j < 0 \/ w * h <= j -> yp' j = yp j) /\
  (forall j, j < 0 \/ w * (h / 2) <= j -> uvp' j = uvp j).
Proof.
  intros c. unfold rgbToNv12, c, initialize.
  rewrite (proj2 (Z.eqb_neq w 0)), (proj2 (Z.eqb_neq h 0)) by lia.
  cbn [orb fst negb mInitialized mWidth mHeight].
  pose proof (fun j => y_plane_spec w h rgb Hw Hh Hb yp j) as Hy.
  pose proof (fun j => uv_plane_spec w h rgb Hw Hh Hb uvp j Hew Heh) as Huv.
  assert (Hc : forall a b cc d p, bt601 a b cc d -> 16 <= component a b cc d rgb p <= 240)
    by (intros; by apply component_range).
  split_and!.
  - intros x y Hx Hy'. rewrite Hy, (proj2 (Z.leb_le _ _)), (proj2 (Z.ltb_lt _ _)) by nia.
    split; [done|by apply Hc].
  - intros cx cy Hcx Hcy. set (p := (2 * cy * w + 2 * cx) * 3). apply Z.even_spec in Hew as [hw Ehw].
    assert (Hchroma : forall b, 0 <= b < 2 ->
      uv_plane w h rgb uvp (cy * w + 2 * cx + b) = (if b =? 0 then chroma_u else chroma_v) rgb p).
    { intros b Hbb. assert (2 * cx + b < w) by div_lia.
      assert (Hd : (cy * w + 2 * cx + b) / w = cy)
        by (symmetry; apply Z.div_unique with (2 * cx + b); [left; lia|lia]).
      rewrite Huv, (proj2 (Z.leb_le _ _)), (proj2 (Z.ltb_lt _ _)) by nia. cbn [andb].
      rewrite Z.mod_eq, Hd by lia.
      replace (cy * w + 2 * cx + b - w * cy) with (2 * cx + b) by lia.
      by rewrite chroma_split. }
    pose proof (Hchroma 0 ltac:(lia)) as H0. rewrite Z.add_0_r in H0.
    pose proof (Hchroma 1 ltac:(lia)) as H1. rewrite H0, H1.
    split_and!; try done; apply Hc; constructor.
  - intros j Hj. rewrite Hy. destruct (Z.leb_spec 0 j), (Z.ltb_spec j (h * w)); cbn; done || lia.
  - intros j Hj. rewrite Huv. destruct (Z.leb_spec 0 j), (Z.ltb_spec j (h / 2 * w)); cbn; done || lia.
Qed.

Definition ramp : mem := fun j => j * 37 mod 256.

Lemma ramp_bytes : bytes_mem ramp.
Proof. intros j. apply Z.mod_pos_bound. lia. Qed.

Lemma rgbToNv12_correct_witness :
  let c := (initialize (mk_conv 0 0 false) 18 2).1 in
  let '(yp', uvp') := rgbToNv12 c ramp (fun _ => 7) (fun _ => 7) in
  (yp' 0 = 42 /\ uvp' 0 = 150 /\ uvp' 17 = 221 /\ uvp' 18 = 7) /\
  (forall x y, 0 <= x < 18 -> 0 <= y < 2 ->
     yp' (y * 18 + x) = luma ramp ((y * 18 + x) * 3) /\ 16 <= yp' (y * 18 + x) <= 240).
Proof.
  split.
  - vm_compute. done.
  - apply (rgbToNv12_correct (mk_conv 0 0 false) 18 2 ramp (fun _ => 7) (fun _ => 7));
      [lia|lia|reflexivity|reflexivity|exact ramp_bytes].
Defined.

(** C32. For gains below 256, the one-pass conversion sends every pixel of the source
    row the flip selects through the rounded and clamped gain and the gamma table,
    with alpha 255, in its vector and its scalar part alike, and writes nothing
    outside the frame; with unit gains, an identity table and no flip it is the plain
    RGBA conversion. *)
Theorem rgbToRgbaWbGamma_correct (w h rG gG bG : Z) (lut rgb rgba : mem) (flip : bool)
    (Hw : 0 < w) (Hh : 0 < h) (Hb : bytes_mem rgb)
    (Hr : 0 <= rG < 65536) (Hg : 0 <= gG < 65536) (Hbl : 0 <= bG < 65536) :
  let out := rgbToRgbaWbGamma w h rG gG bG lut rgb flip rgba in
  (forall x y c, 0 <= x < w -> 0 <= y < h -> 0 <= c < 4 ->
     out ((y * w + x) * 4 + c) = wb_byte w h rG gG bG lut rgb flip y x c) /\
  (forall j, j < 0 \/ w * h * 4 <= j -> out j = rgba j) /\
  (forall j, rgbToRgbaWbGamma w h 256 256 256 (fun v => v) rgb false rgba j =
     rgbToRgba rgb rgba w h j).
Proof.
  intros out.
  pose proof (fun j => wb_gamma_spec w h rG gG bG lut rgb flip Hw Hh Hb Hr Hg Hbl rgba j) as Ho.
  split_and!.
  - intros x y c Hx Hy Hc. unfold out.
    rewrite Ho, (proj2 (Z.leb_le _ _)), (proj2 (Z.ltb_lt _ _)) by nia. cbn [andb].
    assert (Hq : ((y * w + x) * 4 + c) / 4 = y * w + x) by div_lia.
    assert (Hm : ((y * w + x) * 4 + c) mod 4 = c) by div_lia.
    assert (Hd : (y * w + x) / w = y) by (symmetry; apply Z.div_unique with x; [left; lia|lia]).
    rewrite Hq, Hm, Z.mod_eq, Hd by lia. f_equal. lia.
  - intros j Hj. unfold out. rewrite Ho.
    destruct (Z.leb_spec 0 j), (Z.ltb_spec j (h * (w * 4))); cbn; done || lia.
  - intros j. rewrite rgbToRgba_spec by nia.
    rewrite (wb_gamma_spec w h 256 256 256 (fun v => v) rgb false) by (done || lia).
    replace (h * (w * 4)) with (w * h * 4) by lia. case_test; [|done].
    unfold wb_byte, rgba_byte, src_row. destruct (j mod 4 =? 3); [done|].
    replace (j / 4 / w * w + (j / 4) mod w) with (j / 4)
      by (rewrite (Z.div_mod (j / 4) w) at 1 by lia; lia).
    replace (if j mod 4 =? 0 then 256 else if j mod 4 =? 1 then 256 else 256) with 256
      by (by repeat case_match).
    unfold balance. specialize (Hb (j / 4 * 3 + j mod 4)). unfold byte in Hb.
    rewrite shiftr_div by lia. change (2 ^ 8) with 256. div_lia.
Qed.

Lemma rgbToRgbaWbGamma_correct_witness :
  let out := rgbToRgbaWbGamma 9 2 512 256 128 (fun v => v) ramp true (fun _ => 7) in
  (out 0 = 255 /\ out 32 = 190 /\ out 72 = 7) /\
  (forall x y c, 0 <= x < 9 -> 0 <= y < 2 -> 0 <= c < 4 ->
     out ((y * 9 + x) * 4 + c) = wb_byte 9 2 512 256 128 (fun v => v) ramp true y x c).
Proof.
  split.
  - vm_compute. done.
  - apply (rgbToRgbaWbGamma_correct 9 2 512 256 128 (fun v => v) ramp (fun _ => 7) true);
      [lia|lia|exact ramp_bytes|lia|lia|lia].
Defined.
