(* ===== verification/Demosaic.v ===== *)
(** * Bayer demosaicing

    Models [camera/isp/DemosaicNEON.cpp]: unpacking of raw10 samples, the row
    interpolation with its vector batches of eight pixels and its scalar edges and
    remainder, the edge filling and the frame loop. *)

From S2P Require Import Prelude.
From S2P Require Import Neon.

Record demosaic_params := mk_dparams {
  d_width : Z; d_height : Z; bayerPattern : Z; offset_x : Z; offset_y : Z; blackLevel : Z;
}.

Record demosaic := mk_demosaic {
  mParams : demosaic_params; mInitialized : bool; mBayerBufSize : Z;
}.

(** [realloc_ok]: the allocation, when one is needed, succeeds. *)
Definition initialize (d : demosaic) (p : demosaic_params) (realloc_ok : bool) : demosaic * Z :=
  if (d_width p =? 0) || (d_height p =? 0) then (d, -1)
  else
    let needed := wrap_u32 (d_width p * d_height p + 16) in
    if mBayerBufSize d <? needed then
      if realloc_ok then (mk_demosaic p true (wrap_u32 (needed + 64)), 0)
      else (mk_demosaic p (mInitialized d) (mBayerBufSize d), -1)
    else (mk_demosaic p true (mBayerBufSize d), 0).

(** ** Unpacking *)

(** The little-endian 16-bit sample [i]. *)
Definition sample (raw : mem) (i : Z) : Z := raw (i * 2) + 256 * raw (i * 2 + 1).

Definition raw10_batch (raw : mem) (bl : Z) (i : Z) (out : mem) : mem :=
  let a := lanes 8 (fun k => sample raw (i + k)) in
  let b := lanes 8 (fun k => sample raw (i + 8 + k)) in
  let v := vshrn_u16 a 2 ++ vshrn_u16 b 2 in
  stores out i (vqsub_u8 v (vdup 16 (wrap_u8 bl))).

Definition raw10_pixel (raw : mem) (bl : Z) (i : Z) (out : mem) : mem :=
  let p := Z.shiftr (sample raw i) 2 - bl in
  store out i (if 0 <? p then wrap_u8 p else 0).

Definition raw10_to_8bit (raw out : mem) (total bl : Z) : mem :=
  let '(i, out) :=
    for_loop (Z.to_nat total) (fun i => i + 16 <=? total) 16 (raw10_batch raw bl) 0 out in
  (for_loop (Z.to_nat total) (fun i => i <? total) 1 (raw10_pixel raw bl) i out).2.

(** ** One row *)

Definition clamp (v : Z) : Z :=
  if Z.shiftr v 8 =? 0 then wrap_u8 v else if v <? 0 then 0 else 255.

(** The scalar interpolation of a pixel of the given colour type from its centre, its
    four neighbours and its four diagonal neighbours. *)
Definition interp (type c l r u d ul ur dl dr : Z) : Z * Z * Z :=
  let hv := Z.shiftr (l + r + u + d) 2 in
  let diag := Z.shiftr (ul + ur + dl + dr) 2 in
  let h := Z.shiftr (l + r) 1 in
  let v := Z.shiftr (u + d) 1 in
  if type =? 0 then (c, hv, diag)
  else if type =? 1 then (h, c, v)
  else if type =? 2 then (v, c, h)
  else (diag, hv, c).

Definition store_clamped (rgb : mem) (off : Z) (p : Z * Z * Z) : mem :=
  let '(r, g, b) := p in
  store (store (store rgb off (clamp r)) (off + 1) (clamp g)) (off + 2) (clamp b).

Definition store_rgb (rgb : mem) (off : Z) (p : Z * Z * Z) : mem :=
  let '(r, g, b) := p in store (store (store rgb off r) (off + 1) g) (off + 2) b.

Section Row.
Variables (row up dn : mem) (w out_base ev_type od_type : Z).

Definition scalar_pixel (type x : Z) : Z * Z * Z :=
  interp type (row x) (row (x - 1)) (row (x + 1)) (up x) (dn x)
    (up (x - 1)) (up (x + 1)) (dn (x - 1)) (dn (x + 1)).

(** Column 0 mirrors its missing left neighbours from the right. *)
Definition edge_pixel : Z * Z * Z :=
  interp ev_type (row 0) (row 1) (row 1) (up 0) (dn 0) (up 1) (up 1) (dn 1) (dn 1).

(** The vectors of one batch from column [x] on, the even and the odd pixels. *)
Definition batch (x : Z) : (list Z * list Z * list Z) * (list Z * list Z * list Z) :=
  let r_lo := vld1 8 row (x - 1) in
  let r_hi := vld1 8 row (x + 1) in
  let u_v := vld1 8 up x in
  let d_v := vld1 8 dn x in
  let u_lo := vld1 8 up (x - 1) in
  let d_lo := vld1 8 dn (x - 1) in
  let ev_center := (vuzp r_lo r_lo).2 in
  let ev_left := (vuzp r_lo r_lo).1 in
  let od_center := (vuzp r_hi r_hi).1 in
  let od_right := (vuzp r_hi r_hi).2 in
  let ev_right := od_center in
  let u_even := (vuzp u_v u_v).1 in
  let u_odd := (vuzp u_v u_v).2 in
  let d_even := (vuzp d_v d_v).1 in
  let d_odd := (vuzp d_v d_v).2 in
  let u_diag := (vuzp u_lo u_lo).1 in
  let d_diag := (vuzp d_lo d_lo).1 in
  let hv_g := vshrn_u16 (vaddq_u16 (vaddl_u8 ev_left ev_right) (vaddl_u8 u_even d_even)) 2 in
  let diag_b := vshrn_u16 (vaddq_u16 (vaddl_u8 u_diag d_diag) (vaddl_u8 u_odd d_odd)) 2 in
  let diag_r := diag_b in
  let od_h_r := vrhadd_u8 ev_center (vext ev_center od_right 1) in
  let od_v_b := vshrn_u16 (vaddl_u8 u_odd d_odd) 1 in
  let od_h_b := od_v_b in
  let ev_v_r := vshrn_u16 (vaddl_u8 u_even d_even) 1 in
  let od_h_sum := vaddl_u8 ev_center (vext ev_center od_right 1) in
  let od_hv_g := vshrn_u16 (vaddq_u16 od_h_sum (vaddl_u8 u_odd d_odd)) 2 in
  let od_diag_sum := vaddq_u16 (vaddl_u8 u_even d_even)
                       (vaddl_u8 (vext u_even u_even 1) (vext d_even d_even 1)) in
  let od_diag_r8 := vshrn_u16 od_diag_sum 2 in
  let ev_h_b := vrhadd_u8 ev_left od_center in
  (if ev_type =? 0 then (ev_center, hv_g, diag_b)
   else if ev_type =? 1 then (od_h_r, ev_center, od_v_b)
   else if ev_type =? 2 then (ev_v_r, ev_center, ev_h_b)
   else (diag_r, hv_g, ev_center),
   if od_type =? 0 then (od_center, od_hv_g, od_diag_r8)
   else if od_type =? 1 then (od_h_r, od_center, od_v_b)
   else if od_type =? 2 then (od_v_b, od_center, od_h_b)
   else (od_diag_r8, od_hv_g, od_center)).

Definition lane3 (p : list Z * list Z * list Z) (i : Z) : Z * Z * Z :=
  let '(r, g, b) := p in (get r i, get g i, get b i).

(** The four lanes that are stored. *)
Definition neon_batch (x : Z) (rgb : mem) : mem :=
  let '(ev, od) := batch x in
  fold_left (fun rgb i =>
    store_rgb (store_rgb rgb (out_base + (x + 2 * i) * 3) (lane3 ev i))
      (out_base + (x + 2 * i + 1) * 3) (lane3 od i)) [0; 1; 2; 3] rgb.

Definition scalar_pair (x : Z) (rgb : mem) : mem :=
  store_clamped (store_clamped rgb (out_base + x * 3) (scalar_pixel ev_type x))
    (out_base + (x + 1) * 3) (scalar_pixel od_type (x + 1)).

Definition neon_row (rgb : mem) : mem :=
  let rgb := store_clamped rgb out_base edge_pixel in
  let rgb := store_clamped rgb (out_base + 3) (scalar_pixel od_type 1) in
  let '(x, rgb) := for_loop (Z.to_nat w) (fun x => x + 8 <=? w - 2) 8 neon_batch 2 rgb in
  (for_loop (Z.to_nat w) (fun x => x <? w - 2) 2 scalar_pair x rgb).2.
End Row.

(** ** The frame *)

(** [memcpy(rgb + to, rgb + from, n)]. *)
Definition copy (m : mem) (to from n : Z) : mem :=
  fun j => if (to <=? j) && (j <? to + n) then m (from + (j - to)) else m j.

Definition fill_edge_row (w : Z) (y : Z) (rgb : mem) : mem :=
  let off := y * (w * 3) in
  let rgb := store rgb off (rgb (off + 3)) in
  let rgb := store rgb (off + 1) (rgb (off + 4)) in
  let rgb := store rgb (off + 2) (rgb (off + 5)) in
  let rgb := store rgb (off + (w - 1) * 3) (rgb (off + (w - 2) * 3)) in
  let rgb := store rgb (off + (w - 1) * 3 + 1) (rgb (off + (w - 2) * 3 + 1)) in
  store rgb (off + (w - 1) * 3 + 2) (rgb (off + (w - 2) * 3 + 2)).

Definition fill_edges (w h : Z) (rgb : mem) : mem :=
  let s := w * 3 in
  let rgb := copy rgb 0 s s in
  let rgb := copy rgb ((h - 1) * s) ((h - 2) * s) s in
  (for_loop (Z.to_nat h) (fun y => y <? h) 1 (fill_edge_row w) 0 rgb).2.

Definition pos_color_table : list (list Z) := [[1; 0; 3; 2]; [0; 1; 2; 3]; [2; 3; 0; 1]; [0; 1; 2; 3]].
Definition pos_color (pat pos : Z) : Z := get (default [] (zlookup pos_color_table pat)) pos.

(** The colour types of the even and the odd columns of row [y]. *)
Definition row_types (p : demosaic_params) (y : Z) : Z * Z :=
  let oy := Z.land (offset_y p) 1 in
  let ox := Z.land (offset_x p) 1 in
  let r := Z.land (y + oy) 1 in
  (pos_color (bayerPattern p) (r * 2 + ox), pos_color (bayerPattern p) (r * 2 + 1 - ox)).

(** One round of the frame loop. *)
Definition process_row (p : demosaic_params) (b8 : mem) (y : Z) (rgb : mem) : mem :=
  let w := d_width p in
  let '(ev_type, od_type) := row_types p y in
  neon_row (fun x => b8 (y * w + x)) (fun x => b8 ((y - 1) * w + x)) (fun x => b8 ((y + 1) * w + x))
    w (y * (w * 3)) ev_type od_type rgb.

(** [bayer] is the object's scratch buffer.  The result is the RGB output. *)
Definition process (d : demosaic) (bayerInput bayer rgbOutput : mem) : mem :=
  if negb (mInitialized d) then rgbOutput else
  let p := mParams d in
  let w := d_width p in
  let h := d_height p in
  let b8 := raw10_to_8bit bayerInput bayer (w * h) (blackLevel p) in
  let rgb := (for_loop (Z.to_nat h) (fun y => y <? h - 1) 1 (process_row p b8) 1 rgbOutput).2 in
  fill_edges w h rgb.

(** ** Unpacking is the pointwise subtraction of the black level *)

(** Ten-bit samples. *)
Definition raw10 (raw : mem) : Prop := forall i, 0 <= sample raw i < 1024.

Definition unpacked (raw : mem) (bl i : Z) : Z := Z.max 0 (sample raw i / 4 - bl).

Lemma raw10_spec raw out total bl j :
  raw10 raw -> 0 <= bl < 256 -> 0 <= total ->
  raw10_to_8bit raw out total bl j =
    if (0 <=? j) && (j <? total) then unpacked raw bl j else out j.
Proof.
  intros Hr Hbl Ht. unfold raw10_to_8bit.
  pose proof (fill_loop (unpacked raw bl) (fun i => i) 16 total
    (fun i => i + 16 <=? total) (raw10_batch raw bl) (Z.to_nat total) 0 out) as H1.
  destruct (for_loop _ _ 16 _ 0 out) as [x m1]. cbn [fst snd] in H1.
  destruct H1 as (Hx & Hx16 & _ & H1); [lia|intros; apply Z.leb_le|lia| |lia|lia|].
  { intros i m j' _ _ Hi. unfold raw10_batch, vshrn_u16, vqsub_u8.
    rewrite !fmap_lanes, app_lanes, vdup_lanes, vmap2_lanes, stores_lanes.
    change (Z.of_nat (8 + 8)) with 16. change (Z.of_nat 16) with 16. change (Z.of_nat 8) with 8.
    destruct (Z.leb_spec i j'), (Z.ltb_spec j' (i + 16)); cbn [andb]; try done.
    assert (Hs : forall k, wrap_u8 (Z.shiftr (sample raw k) 2) = sample raw k / 4).
    { intros k. rewrite shiftr_div by lia. change (2 ^ 2) with 4. specialize (Hr k).
      apply wrap_u8_id. unfold byte. div_lia. }
    rewrite !Hs, (wrap_u8_id bl) by (unfold byte; lia). unfold unpacked.
    replace (i + (j' - i)) with j' by lia. replace (i + 8 + (j' - i - 8)) with j' by lia.
    by destruct (j' - i <? 8). }
  pose proof (fill_loop (unpacked raw bl) (fun i => i) 1 total
    (fun i => i <? total) (raw10_pixel raw bl) (Z.to_nat total) x m1) as H2.
  destruct (for_loop _ _ 1 _ x m1) as [x2 m2]. cbn [fst snd] in H2 |- *.
  destruct H2 as (Hx2 & Hx2' & _ & H2); [lia|intros; rewrite Z.ltb_lt; lia|lia| |lia|lia|].
  { intros i m j' _ _ Hi. unfold raw10_pixel, store.
    rewrite shiftr_div by lia. change (2 ^ 2) with 4. pose proof (Hr i).
    destruct (Z.eqb_spec j' i) as [->|].
    - decide_tests. unfold unpacked. destruct (Z.ltb_spec 0 (sample raw i / 4 - bl)); [|lia].
      rewrite wrap_u8_id by (unfold byte; div_lia). lia.
    - case_test; [lia|done]. }
  rewrite (region_extend (unpacked raw bl) 0 x x2 out m1 m2); [|lia|exact H1|exact H2].
  by replace x2 with total by lia.
Qed.

Lemma unpacked_byte raw bl i : raw10 raw -> 0 <= bl -> byte (unpacked raw bl i).
Proof. intros Hr Hbl. specialize (Hr i). unfold byte, unpacked. div_lia. Qed.

(** ** The vector batch, pixel by pixel *)

(** Channel [c] of a pixel. *)
Definition chan (p : Z * Z * Z) (c : Z) : Z :=
  let '(r, g, b) := p in if c =? 0 then r else if c =? 1 then g else b.

Definition px_byte (p : Z * Z * Z) : Prop := let '(r, g, b) := p in byte r /\ byte g /\ byte b.
Definition px_list (p : Z * Z * Z) : list Z := let '(r, g, b) := p in [r; g; b].

Lemma px_list_get p c : 0 <= c < 3 -> get (px_list p) c = chan p c.
Proof.
  intros Hc. destruct p as [[r g] b].
  assert (c = 0 \/ c = 1 \/ c = 2) as [->|[->| ->]] by lia; reflexivity.
Qed.

Lemma store_rgb_stores rgb off p : store_rgb rgb off p = stores rgb off (px_list p).
Proof.
  destruct p as [[r g] b]. cbn. by replace (off + 1 + 1) with (off + 2) by lia.
Qed.

Lemma clamp_byte v : byte v -> clamp v = v.
Proof.
  intros H. unfold clamp. rewrite shiftr_div by lia. change (2 ^ 8) with 256.
  unfold byte in H. rewrite (proj2 (Z.eqb_eq (v / 256) 0)) by div_lia. by apply wrap_u8_id.
Qed.

Lemma store_clamped_rgb rgb off p : px_byte p -> store_clamped rgb off p = store_rgb rgb off p.
Proof. destruct p as [[r g] b]. intros (? & ? & ?). unfold store_clamped. by rewrite !clamp_byte. Qed.

(** A pixel stored at column [x] of the row at [base]. *)
Lemma store_pixel rgb base x p j :
  store_rgb rgb (base + x * 3) p j =
    if (base + x * 3 <=? j) && (j <? base + (x + 1) * 3) then chan p ((j - base) mod 3) else rgb j.
Proof.
  rewrite store_rgb_stores, stores_at.
  assert (Hl : zlen (px_list p) = 3) by (by destruct p as [[? ?] ?]). rewrite Hl.
  replace (base + (x + 1) * 3) with (base + x * 3 + 3) by lia.
  destruct (Z.leb_spec (base + x * 3) j), (Z.ltb_spec j (base + x * 3 + 3)); cbn [andb]; try done.
  replace ((j - base) mod 3) with (j - (base + x * 3)) by div_lia. apply px_list_get. lia.
Qed.

Section RowSpec.
Variables (row up dn : mem) (w out_base ev_type od_type : Z).
Hypothesis (Hrow : bytes_mem row) (Hup : bytes_mem up) (Hdn : bytes_mem dn).

(** What a batch at [x] stores for its even pixel [i]; the right neighbour in the row
    of the last pixel is read as column [x]. *)
Definition even_value (x i : Z) : Z * Z * Z :=
  let c := x + 2 * i in
  let rn := if i =? 3 then x else c + 2 in
  let hv := Z.shiftr (row (c - 1) + row (c + 1) + up c + dn c) 2 in
  let diag := Z.shiftr (up (c - 1) + up (c + 1) + dn (c - 1) + dn (c + 1)) 2 in
  if ev_type =? 0 then (row c, hv, diag)
  else if ev_type =? 1 then
    (Z.shiftr (row c + row rn + 1) 1, row c, Z.shiftr (up (c + 1) + dn (c + 1)) 1)
  else if ev_type =? 2 then
    (Z.shiftr (up c + dn c) 1, row c, Z.shiftr (row (c - 1) + row (c + 1) + 1) 1)
  else (diag, hv, row c).

(** The same for its odd pixel [i]. *)
Definition odd_value (x i : Z) : Z * Z * Z :=
  let c := x + 2 * i + 1 in
  let rn := if i =? 3 then x else c + 1 in
  let hv := Z.shiftr (row (c - 1) + row rn + up c + dn c) 2 in
  let diag := Z.shiftr (up (c - 1) + up rn + dn (c - 1) + dn rn) 2 in
  let v := Z.shiftr (up c + dn c) 1 in
  if od_type =? 0 then (row c, hv, diag)
  else if od_type =? 1 then (Z.shiftr (row (c - 1) + row rn + 1) 1, row c, v)
  else if od_type =? 2 then (v, row c, v)
  else (diag, hv, row c).

Lemma sum4 a b c d :
  byte a -> byte b -> byte c -> byte d ->
  wrap_u8 (Z.shiftr (wrap_u16 (a + b + (c + d))) 2) = Z.shiftr (a + b + c + d) 2.
Proof using.
  clear. unfold byte. intros. rewrite wrap_u16_id by lia.
  rewrite !shiftr_div by lia. change (2 ^ 2) with 4.
  rewrite wrap_u8_id by (unfold byte; div_lia). f_equal. lia.
Qed.

Lemma sum2 a b :
  byte a -> byte b -> wrap_u8 (Z.shiftr (a + b) 1) = Z.shiftr (a + b) 1.
Proof using.
  clear. unfold byte. intros. rewrite !shiftr_div by lia. change (2 ^ 1) with 2.
  apply wrap_u8_id. unfold byte. div_lia.
Qed.

#[local] Ltac to_lanes :=
  unfold vshrn_u16, vaddq_u16, vaddl_u8, vrhadd_u8, vld1;
  repeat (rewrite vuzp_lanes; cbn [fst snd]);
  repeat first [rewrite vext_lanes by lia | rewrite vmap2_lanes | rewrite fmap_lanes].

(** Rewrites every offset of [m] to [x] plus a numeral. *)
#[local] Ltac norm_offsets m x :=
  repeat match goal with
  | |- context [m ?e] =>
      let f := eval pattern x in e in
      lazymatch f with
      | ?g x =>
          let k := eval vm_compute in (g 0) in
          lazymatch e with
          | x + k => fail
          | _ => progress replace e with (x + k) by lia
          end
      end
  end.

#[local] Ltac lane_case x :=
  decide_tests; rewrite ?sum4, ?sum2 by auto;
  norm_offsets row x; norm_offsets up x; norm_offsets dn x;
  repeat (apply (f_equal2 pair)); try reflexivity;
  match goal with |- Z.shiftr ?a _ = Z.shiftr ?b _ => replace a with b by lia; reflexivity end.

#[local] Hint Extern 1 (byte _) => first [apply Hrow | apply Hup | apply Hdn] : core.

Lemma even_lane x i :
  0 <= i < 4 -> lane3 (batch row up dn ev_type od_type x).1 i = even_value x i.
Proof using Hrow Hup Hdn.
  intros Hi. unfold batch. cbn [fst]. to_lanes.
  assert (i = 0 \/ i = 1 \/ i = 2 \/ i = 3) as Hc by lia. unfold even_value.
  destruct (ev_type =? 0); [|destruct (ev_type =? 1); [|destruct (ev_type =? 2)]];
    cbn [lane3]; rewrite !get_lanes by lia;
    destruct Hc as [->|[->|[->| ->]]].
  all: lane_case x.
Qed.

Lemma odd_lane x i :
  0 <= i < 4 -> lane3 (batch row up dn ev_type od_type x).2 i = odd_value x i.
Proof using Hrow Hup Hdn.
  intros Hi. unfold batch. cbn [snd]. to_lanes.
  assert (i = 0 \/ i = 1 \/ i = 2 \/ i = 3) as Hc by lia. unfold odd_value.
  destruct (od_type =? 0); [|destruct (od_type =? 1); [|destruct (od_type =? 2)]];
    cbn [lane3]; rewrite !get_lanes by lia;
    destruct Hc as [->|[->|[->| ->]]].
  all: lane_case x.
Qed.

Lemma interp_byte t c l r u d ul ur dl dr :
  byte c -> byte l -> byte r -> byte u -> byte d -> byte ul -> byte ur -> byte dl -> byte dr ->
  px_byte (interp t c l r u d ul ur dl dr).
Proof using.
  clear. unfold byte. intros. unfold interp.
  rewrite !shiftr_div by lia. change (2 ^ 1) with 2. change (2 ^ 2) with 4.
  destruct (t =? 0); [|destruct (t =? 1); [|destruct (t =? 2)]]; unfold px_byte, byte;
    split_and!; div_lia.
Qed.

(** The first column behind the batches. *)
Definition batch_end : Z := 2 + 8 * ((w - 4) / 8).

(** The pixel the row loop leaves in column [x]. *)
Definition row_pixel (x : Z) : Z * Z * Z :=
  if x =? 0 then edge_pixel row up dn ev_type
  else if x =? 1 then scalar_pixel row up dn od_type 1
  else if x <? batch_end then
    let k := (x - 2) mod 8 in
    if Z.even k then even_value (x - k) (k / 2) else odd_value (x - k) (k / 2)
  else scalar_pixel row up dn (if Z.even x then ev_type else od_type) x.

(** The columns the row loop writes: all but the last for odd widths, all but the last
    two for even ones. *)
Definition row_end : Z := if Z.even w then w - 2 else w - 1.

#[local] Abbreviation row_byte j := (chan (row_pixel ((j - out_base) / 3)) ((j - out_base) mod 3)).
#[local] Abbreviation col x := (out_base + x * 3).

(** The body of a batch as one run of bytes. *)
Lemma neon_batch_eq x rgb :
  neon_batch row up dn out_base ev_type od_type x rgb =
    stores rgb (out_base + x * 3)
      (chunks 8 (fun k => px_list (if Z.even k then even_value x (k / 2) else odd_value x (k / 2)))).
Proof using Hrow Hup Hdn.
  unfold neon_batch. destruct (batch row up dn ev_type od_type x) as [ev od] eqn:E.
  assert (Hev : forall i, 0 <= i < 4 -> lane3 ev i = even_value x i)
    by (intros i Hi; rewrite <- even_lane, E by done; done).
  assert (Hod : forall i, 0 <= i < 4 -> lane3 od i = odd_value x i)
    by (intros i Hi; rewrite <- odd_lane, E by done; done).
  cbn [fold_left]. rewrite !Hev, !Hod by lia. rewrite !store_rgb_stores.
  assert (Hl : forall p, zlen (px_list p) = 3) by (by intros [[? ?] ?]).
  unfold chunks. change (seqZ 0 (Z.of_nat 8)) with [0; 1; 2; 3; 4; 5; 6; 7].
  rewrite !fmap_cons. cbn [mjoin list_join fmap list_fmap Z.even]. rewrite app_nil_r.
  change (0 / 2) with 0. change (1 / 2) with 0. change (2 / 2) with 1. change (3 / 2) with 1.
  change (4 / 2) with 2. change (5 / 2) with 2. change (6 / 2) with 3. change (7 / 2) with 3.
  rewrite !stores_app, !Hl.
  repeat match goal with
  | |- stores _ ?a ?l = stores _ ?b ?l =>
      replace a with b by lia; apply (f_equal (fun m => stores m b l))
  end. done.
Qed.

Lemma column_of x j :
  col x <= j < col (x + 1) -> (j - out_base) / 3 = x.
Proof using. clear. intros. div_lia. Qed.

Lemma neon_batch_row x m j :
  2 <= x -> (8 | x - 2) -> x + 8 <= w - 2 ->
  neon_batch row up dn out_base ev_type od_type x m j =
    if (col x <=? j) && (j <? col (x + 8)) then row_byte j else m j.
Proof using Hrow Hup Hdn.
  intros Hx [q Hq] Hw. rewrite neon_batch_eq, (stores_chunks _ _ _ 3).
  2: lia.
  2: { intros k. by destruct (if Z.even k then _ else _) as [[? ?] ?]. }
  change (Z.of_nat 8 * 3) with 24. replace (col (x + 8)) with (col x + 24) by lia.
  destruct (Z.leb_spec (col x) j), (Z.ltb_spec j (col x + 24)); cbn [andb]; try done.
  set (k := (j - col x) / 3).
  assert (Hk : 0 <= k < 8) by (unfold k; div_lia).
  assert (Hc : (j - out_base) / 3 = x + k) by (unfold k; div_lia).
  assert (Hm : (j - col x) mod 3 = (j - out_base) mod 3) by div_lia.
  rewrite Hc, Hm, px_list_get by (apply Z.mod_pos_bound; lia). f_equal.
  unfold row_pixel, batch_end.
  rewrite (proj2 (Z.eqb_neq (x + k) 0)), (proj2 (Z.eqb_neq (x + k) 1)) by lia.
  rewrite (proj2 (Z.ltb_lt (x + k) _)) by div_lia.
  replace ((x + k - 2) mod 8) with k by div_lia.
  by replace (x + k - k) with x by lia.
Qed.

Lemma px_interp x t : px_byte (scalar_pixel row up dn t x).
Proof using Hrow Hup Hdn. apply interp_byte; auto. Qed.

Lemma edge_byte : px_byte (edge_pixel row up dn ev_type).
Proof using Hrow Hup Hdn. apply interp_byte; auto. Qed.

Lemma even_not_last x : Z.even x = true -> x <> 1.
Proof using. clear. by intros H ->. Qed.

Lemma scalar_pair_row x m j :
  4 <= w -> batch_end <= x -> Z.even x = true ->
  scalar_pair row up dn out_base ev_type od_type x m j =
    if (col x <=? j) && (j <? col (x + 2)) then row_byte j else m j.
Proof using Hrow Hup Hdn.
  intros Hw Hx He. unfold batch_end in Hx. assert (0 <= (w - 4) / 8) by div_lia.
  unfold scalar_pair. rewrite !store_clamped_rgb by apply px_interp.
  rewrite !store_pixel. replace (col (x + 2)) with (out_base + (x + 1 + 1) * 3) by lia.
  assert (Hrp : forall y, (y = x \/ y = x + 1) -> row_pixel y =
    scalar_pixel row up dn (if y =? x then ev_type else od_type) y).
  { intros y Hy. unfold row_pixel, batch_end.
    rewrite (proj2 (Z.eqb_neq y 0)), (proj2 (Z.eqb_neq y 1)), (proj2 (Z.ltb_ge y _)) by lia.
    destruct Hy as [->| ->]; [by rewrite He, Z.eqb_refl|].
    rewrite (proj2 (Z.eqb_neq (x + 1) x)) by lia.
    by rewrite Z.even_add, He. }
  destruct (Z.leb_spec (col (x + 1)) j), (Z.ltb_spec j (col (x + 1 + 1))); cbn [andb].
  - rewrite (column_of (x + 1)), Hrp by lia. decide_tests. done.
  - decide_tests. done.
  - destruct (Z.leb_spec (col x) j); cbn [andb]; [|done].
    rewrite (proj2 (Z.ltb_lt j (col (x + 1)))) by lia.
    rewrite (column_of x), Hrp by lia. by rewrite Z.eqb_refl.
  - lia.
Qed.

(** The columns a row call writes, and with what. *)
Lemma neon_row_spec rgb j :
  4 <= w ->
  neon_row row up dn w out_base ev_type od_type rgb j =
    if (out_base <=? j) && (j <? out_base + row_end * 3) then row_byte j else rgb j.
Proof using Hrow Hup Hdn.
  intros Hw. unfold neon_row.
  set (rgb1 := store_clamped rgb out_base _). set (rgb2 := store_clamped rgb1 _ _).
  assert (Hhead : forall j, rgb2 j = if (col 0 <=? j) && (j <? col 2) then row_byte j else rgb j).
  { intros i. unfold rgb2, rgb1. rewrite !store_clamped_rgb by (apply px_interp || apply edge_byte).
    replace out_base with (col 0) at 1 by lia. replace (out_base + 3) with (col 1) by lia.
    rewrite !store_pixel. change (0 + 1) with 1. change (1 + 1) with 2.
    destruct (Z.leb_spec (col 1) i), (Z.ltb_spec i (col 2)); cbn [andb].
    - rewrite (column_of 1) by lia. decide_tests. done.
    - decide_tests. done.
    - destruct (Z.leb_spec (col 0) i); cbn [andb]; [|done].
      rewrite (proj2 (Z.ltb_lt i (col 1))) by lia. by rewrite (column_of 0) by lia.
    - lia. }
  pose proof (fill_loop (fun j => row_byte j) (fun x => col x) 8 (w - 2) (fun x => x + 8 <=? w - 2)
    (neon_batch row up dn out_base ev_type od_type) (Z.to_nat w) 2 rgb2) as H1.
  destruct (for_loop _ _ 8 _ 2 rgb2) as [x m1]. cbn [fst snd] in H1.
  destruct H1 as (Hx & Hx8 & [q Hq] & H1); [lia|intros; apply Z.leb_le|lia| |lia|lia|].
  { intros. by apply neon_batch_row. }
  assert (Hend : x = batch_end) by (unfold batch_end; div_lia).
  assert (Hxe : Z.even x = true) by (apply Z.even_spec; exists (1 + 4 * q); lia).
  assert (Hpar : exists n, w = row_end + 2 - (if Z.even w then 0 else 1) /\ row_end = 2 * n).
  { unfold row_end. destruct (Z.even w) eqn:Ew.
    - apply Z.even_spec in Ew as [n Hn]. exists (n - 1). lia.
    - rewrite <- Z.negb_odd in Ew. apply negb_false_iff, Z.odd_spec in Ew as [n Hn]. exists n. lia. }
  destruct Hpar as (n & Hwn & Hrn).
  pose proof (fill_loop (fun j => row_byte j) (fun x => col x) 2 row_end (fun x => x <? w - 2)
    (scalar_pair row up dn out_base ev_type od_type) (Z.to_nat w) x m1) as H2.
  destruct (for_loop _ _ 2 _ x m1) as [x2 m2]. cbn [fst snd] in H2 |- *.
  destruct H2 as (Hx2 & Hx2' & [q2 Hq2] & H2);
    [lia| |lia| |destruct (Z.even w); lia|destruct (Z.even w); lia|].
  { intros y [k Hk]. rewrite Z.ltb_lt. destruct (Z.even w); lia. }
  { intros y m j' Hy [k Hk] Hy'. apply scalar_pair_row; [done|lia|].
    apply Z.even_spec. exists (1 + 4 * q + k). lia. }
  rewrite (region_extend (fun j => row_byte j) (col 2) (col x) (col x2) rgb2 m1 m2);
    [|lia|exact H1|exact H2].
  replace x2 with row_end by lia. rewrite Hhead. change (col 0) with (out_base + 0).
  rewrite Z.add_0_r.
  destruct (Z.leb_spec (col 2) j), (Z.ltb_spec j (col row_end)), (Z.leb_spec out_base j),
    (Z.ltb_spec j (col 2)); cbn [andb]; done || lia.
Qed.
End RowSpec.

(** ** The frame *)

Section Frame.
Variables (w h : Z).
Hypothesis (Hw : 4 <= w) (Hh : 3 <= h).

(** The byte of channel [c] of pixel ([x], [y]). *)
Definition ix (y x c : Z) : Z := (y * w + x) * 3 + c.

Lemma ix_eqb y x c y' x' c' :
  0 <= x < w -> 0 <= x' < w -> 0 <= c < 3 -> 0 <= c' < 3 ->
  (ix y x c =? ix y' x' c') = (y =? y') && (x =? x') && (c =? c').
Proof using Hw.
  intros Hx Hx' Hc Hc'. apply eq_true_iff_eq. rewrite !andb_true_iff, !Z.eqb_eq. unfold ix.
  split; [|by intros [[-> ->] ->]].
  intros H. assert (c = c') by lia. assert (Hp : y * w + x = y' * w + x') by lia.
  assert (y = y').
  { assert (H1 : (y * w + x) / w = y) by (symmetry; apply Z.div_unique with x; [left|]; lia).
    assert (H2 : (y' * w + x') / w = y') by (symmetry; apply Z.div_unique with x'; [left|]; lia).
    congruence. }
  subst. lia.
Qed.

(** The nearest interior column and row. *)
Definition inner_x (x : Z) : Z := Z.max 1 (Z.min (w - 2) x).
Definition inner_y (y : Z) : Z := Z.max 1 (Z.min (h - 2) y).

Lemma fill_edge_row_spec y m r x c :
  0 <= x < w -> 0 <= c < 3 ->
  fill_edge_row w y m (ix r x c) = if r =? y then m (ix y (inner_x x) c) else m (ix r x c).
Proof using Hw.
  intros Hx Hc. unfold fill_edge_row.
  replace (y * (w * 3)) with (ix y 0 0) by (unfold ix; lia).
  replace (ix y 0 0 + 1) with (ix y 0 1) by (unfold ix; lia).
  replace (ix y 0 0 + 2) with (ix y 0 2) by (unfold ix; lia).
  replace (ix y 0 0 + 3) with (ix y 1 0) by (unfold ix; lia).
  replace (ix y 0 0 + 4) with (ix y 1 1) by (unfold ix; lia).
  replace (ix y 0 0 + 5) with (ix y 1 2) by (unfold ix; lia).
  replace (ix y 0 0 + (w - 1) * 3) with (ix y (w - 1) 0) by (unfold ix; lia).
  replace (ix y (w - 1) 0 + 1) with (ix y (w - 1) 1) by (unfold ix; lia).
  replace (ix y (w - 1) 0 + 2) with (ix y (w - 1) 2) by (unfold ix; lia).
  replace (ix y 0 0 + (w - 2) * 3) with (ix y (w - 2) 0) by (unfold ix; lia).
  replace (ix y (w - 2) 0 + 1) with (ix y (w - 2) 1) by (unfold ix; lia).
  replace (ix y (w - 2) 0 + 2) with (ix y (w - 2) 2) by (unfold ix; lia).
  unfold store. rewrite !ix_eqb by lia.
  destruct (Z.eqb_spec r y) as [->|]; [|done]. rewrite !Z.eqb_refl. unfold inner_x.
  assert (c = 0 \/ c = 1 \/ c = 2) as Hcc by lia.
  destruct (Z.eq_dec x 0) as [->|]; [|destruct (Z.eq_dec x (w - 1)) as [->|]].
  - rewrite Z.max_l by lia. destruct Hcc as [->|[->| ->]]; decide_tests; reflexivity.
  - replace (Z.max 1 (Z.min (w - 2) (w - 1))) with (w - 2) by lia.
    destruct Hcc as [->|[->| ->]]; decide_tests; reflexivity.
  - replace (Z.max 1 (Z.min (w - 2) x)) with x by lia. decide_tests. reflexivity.
Qed.

Lemma copy_row m to from r x c :
  0 <= x < w -> 0 <= c < 3 ->
  copy m (to * (w * 3)) (from * (w * 3)) (w * 3) (ix r x c) =
    if r =? to then m (ix from x c) else m (ix r x c).
Proof using Hw.
  intros Hx Hc. unfold copy. destruct (Z.eqb_spec r to) as [->|Hr].
  - rewrite (proj2 (Z.leb_le _ _)), (proj2 (Z.ltb_lt _ _)) by (unfold ix; nia). cbn [andb].
    f_equal. unfold ix. lia.
  - destruct (Z.leb_spec (to * (w * 3)) (ix r x c)), (Z.ltb_spec (ix r x c) (to * (w * 3) + w * 3));
      cbn [andb]; try done. exfalso. unfold ix in *. apply Hr. nia.
Qed.

Lemma fill_edges_spec m y x c :
  0 <= x < w -> 0 <= y < h -> 0 <= c < 3 ->
  fill_edges w h m (ix y x c) = m (ix (inner_y y) (inner_x x) c).
Proof using Hw Hh.
  intros Hx Hy Hc. unfold fill_edges.
  set (m1 := copy m _ _ _). set (m2 := copy m1 _ _ _).
  assert (Hm2 : forall r x c, 0 <= r < h -> 0 <= x < w -> 0 <= c < 3 ->
    m2 (ix r x c) = m (ix (inner_y r) x c)).
  { intros r x' c' Hr Hx' Hc'. unfold m2. rewrite copy_row by done. unfold m1.
    replace (copy m 0 (w * 3) (w * 3)) with (copy m (0 * (w * 3)) (1 * (w * 3)) (w * 3))
      by (by rewrite Z.mul_0_l, Z.mul_1_l).
    rewrite !copy_row by done. unfold inner_y.
    destruct (Z.eqb_spec r (h - 1)) as [->|]; [|destruct (Z.eqb_spec r 0) as [->|]].
    - decide_tests. f_equal. f_equal. lia.
    - f_equal. f_equal. lia.
    - f_equal. f_equal. lia. }
  pose proof (for_loop_inv (fun y (m' : mem) => 0 <= y <= h /\ forall r x c, 0 <= r < h -> 0 <= x < w -> 0 <= c < 3 ->
      m' (ix r x c) = if r <? y then m2 (ix r (inner_x x) c) else m2 (ix r x c))
    (fun y => y <? h) 1 (fill_edge_row w) h (Z.to_nat h) 0 m2) as H.
  destruct (for_loop _ _ 1 _ 0 m2) as [y' m']. cbn [fst snd] in H |- *.
  destruct H as (_ & [Hy' H] & Hend); [lia|intros; by apply Z.ltb_lt|lia| | |].
  - split; [lia|]. intros r ? ? ? ? ?. by rewrite (proj2 (Z.ltb_ge r 0)) by lia.
  - intros y1 m3 Hy1 [Hr1 Hm3] Hlt. apply Z.ltb_lt in Hlt. split; [lia|].
    intros r x1 c1 Hr Hx1 Hc1. rewrite fill_edge_row_spec by done.
    assert (Hin : 0 <= inner_x x1 < w) by (unfold inner_x; lia).
    destruct (Z.eqb_spec r y1) as [->|].
    + rewrite Hm3 by lia. decide_tests. done.
    + rewrite Hm3 by lia. destruct (Z.ltb_spec r y1), (Z.ltb_spec r (y1 + 1)); done || lia.
  - apply Z.ltb_ge in Hend. rewrite H by lia. rewrite (proj2 (Z.ltb_lt y y')) by lia.
    apply Hm2; unfold inner_x; lia.
Qed.
End Frame.

(** A row call reads only columns of the frame. *)
Lemma row_pixel_ext row up dn row' up' dn' w ev od x :
  4 <= w -> 0 <= x < row_end w ->
  (forall c, 0 <= c < w -> row c = row' c /\ up c = up' c /\ dn c = dn' c) ->
  row_pixel row up dn w ev od x = row_pixel row' up' dn' w ev od x.
Proof.
  intros Hw Hx H. assert (Hend : row_end w <= w - 1) by (unfold row_end; destruct (Z.even w); lia).
  assert (Hr : forall c, 0 <= c < w -> row c = row' c) by (intros; by apply H).
  assert (Hu : forall c, 0 <= c < w -> up c = up' c) by (intros; by apply H).
  assert (Hd : forall c, 0 <= c < w -> dn c = dn' c) by (intros; by apply H). clear H.
  unfold row_pixel. destruct (Z.eqb_spec x 0); [|destruct (Z.eqb_spec x 1)].
  - unfold edge_pixel. by rewrite !Hr, !Hu, !Hd by lia.
  - unfold scalar_pixel. by rewrite !Hr, !Hu, !Hd by lia.
  - destruct (Z.ltb_spec x (batch_end w)).
    + assert (Hk : 0 <= (x - 2) mod 8 < 8) by (apply Z.mod_pos_bound; lia).
      set (k := (x - 2) mod 8) in *.
      assert (Hb : 2 <= x - k /\ x - k + 8 <= w - 2) by (unfold batch_end, k in *; div_lia).
      set (i := k / 2). assert (Hi : 0 <= i <= 3) by (unfold i; div_lia).
      assert (Hn : forall a, 0 <= (if i =? 3 then x - k else a) < w \/ ~ (0 <= a < w)).
      { intros a. destruct (i =? 3); lia. }
      destruct (Z.even k).
      * pose proof (Hn (x - k + 2 * i + 2)) as Hn'. unfold even_value.
        destruct (Z.eqb_spec i 3); rewrite !Hr, !Hu, !Hd by lia; done.
      * pose proof (Hn (x - k + 2 * i + 1 + 1)) as Hn'. unfold odd_value.
        destruct (Z.eqb_spec i 3); rewrite !Hr, !Hu, !Hd by lia; done.
    + unfold scalar_pixel. by rewrite !Hr, !Hu, !Hd by lia.
Qed.

(** The colour the HAL gives to interior pixel ([x], [y]) of a frame of unpacked
    samples [b]. *)
Definition frame_pixel (p : demosaic_params) (b : mem) (y x : Z) : Z * Z * Z :=
  let w := d_width p in
  let '(ev, od) := row_types p y in
  row_pixel (fun x => b (y * w + x)) (fun x => b ((y - 1) * w + x)) (fun x => b ((y + 1) * w + x))
    w ev od x.

Section Process.
Variables (p : demosaic_params).
#[local] Abbreviation w := (d_width p).
#[local] Abbreviation h := (d_height p).
Hypothesis (Hw : 4 <= w) (Hh : 3 <= h).

Lemma process_row_spec b8 y m r x c :
  bytes_mem b8 -> 0 <= x < w -> 0 <= c < 3 ->
  process_row p b8 y m (ix w r x c) =
    if (r =? y) && (x <? row_end w) then chan (frame_pixel p b8 y x) c else m (ix w r x c).
Proof using Hw.
  intros Hb Hx Hc. unfold process_row, frame_pixel. destruct (row_types p y) as [ev od].
  rewrite neon_row_spec by (done || (intros ?; apply Hb)).
  assert (Hend : row_end w <= w - 1) by (unfold row_end; destruct (Z.even w); lia).
  destruct (Z.eqb_spec r y) as [->|Hr]; cbn [andb].
  - unfold ix. replace ((y * w + x) * 3 + c - y * (w * 3)) with (x * 3 + c) by lia.
    replace ((x * 3 + c) / 3) with x by div_lia. replace ((x * 3 + c) mod 3) with c by div_lia.
    destruct (Z.ltb_spec x (row_end w)).
    + by rewrite (proj2 (Z.leb_le _ _)), (proj2 (Z.ltb_lt _ _)) by lia.
    + rewrite (proj2 (Z.ltb_ge _ (y * (w * 3) + row_end w * 3))) by lia. by rewrite andb_false_r.
  - destruct (Z.leb_spec (y * (w * 3)) (ix w r x c)),
      (Z.ltb_spec (ix w r x c) (y * (w * 3) + row_end w * 3)); cbn [andb]; try done.
    exfalso. unfold ix in *. apply Hr. nia.
Qed.

Lemma frame_pixel_ext b b' y x :
  1 <= y < h - 1 -> 0 <= x < row_end w ->
  (forall j, 0 <= j < w * h -> b j = b' j) ->
  frame_pixel p b y x = frame_pixel p b' y x.
Proof using Hw Hh.
  intros Hy Hx Hj. unfold frame_pixel. destruct (row_types p y) as [ev od].
  apply row_pixel_ext; [done|done|]. intros c Hc. split_and!; apply Hj; nia.
Qed.
End Process.

(** The frame pixel by pixel. *)
Lemma process_spec (d0 : demosaic) (p : demosaic_params) (raw bayer rgb : mem) y x c
    (Hw : 4 <= d_width p) (Hh : 3 <= d_height p) (Hr : raw10 raw)
    (Hbl : 0 <= blackLevel p < 256) (Hb : bytes_mem bayer)
    (y' := inner_y (d_height p) y) (x' := inner_x (d_width p) x) :
  0 <= y < d_height p -> 0 <= x < d_width p -> 0 <= c < 3 ->
  process (initialize d0 p true).1 raw bayer rgb (ix (d_width p) y x c) =
    if x' <? row_end (d_width p)
    then chan (frame_pixel p (unpacked raw (blackLevel p)) y' x') c
    else rgb (ix (d_width p) y' x' c).
Proof.
  intros Hy Hx Hc. unfold process.
  assert (Hinit : mInitialized (initialize d0 p true).1 = true /\ mParams (initialize d0 p true).1 = p).
  { unfold initialize. rewrite (proj2 (Z.eqb_neq (d_width p) 0)), (proj2 (Z.eqb_neq (d_height p) 0)) by lia.
    cbn [orb]. by destruct (_ <? _). }
  destruct Hinit as [-> ->]. cbn [negb].
  set (b8 := raw10_to_8bit raw bayer _ _).
  assert (Hb8 : forall j, b8 j = if (0 <=? j) && (j <? d_width p * d_height p)
      then unpacked raw (blackLevel p) j else bayer j) by (intros; apply raw10_spec; [done|lia|nia]).
  assert (Hbytes : bytes_mem b8).
  { intros j. rewrite Hb8. destruct (_ && _); [by apply unpacked_byte; [|lia]|apply Hb]. }
  pose proof (for_loop_inv (fun y (m : mem) => 1 <= y <= d_height p - 1 /\
      forall r x c, 0 <= x < d_width p -> 0 <= c < 3 ->
        m (ix (d_width p) r x c) = if (1 <=? r) && (r <? y) && (x <? row_end (d_width p))
          then chan (frame_pixel p b8 r x) c else rgb (ix (d_width p) r x c))
    (fun y => y <? d_height p - 1) 1 (process_row p b8) (d_height p) (Z.to_nat (d_height p)) 1 rgb) as H.
  destruct (for_loop _ _ 1 _ 1 rgb) as [yl m]. cbn [fst snd] in H |- *.
  destruct H as (_ & [Hyl H] & Hend); [lia| |lia| | |].
  - intros ? ? _ Hlt%Z.ltb_lt. lia.
  - split; [lia|]. intros r x1 c1 _ _. by destruct (Z.leb_spec 1 r), (Z.ltb_spec r 1); cbn; done || lia.
  - intros y1 m1 Hy1 [Hr1 Hm1] Hlt. apply Z.ltb_lt in Hlt. split; [lia|].
    intros r x1 c1 Hx1 Hc1. rewrite process_row_spec, Hm1 by done.
    destruct (Z.eqb_spec r y1) as [->|].
    + rewrite (proj2 (Z.ltb_ge y1 y1)), (proj2 (Z.leb_le 1 y1)), (proj2 (Z.ltb_lt y1 (y1 + 1))) by lia.
      cbn [andb]. by destruct (x1 <? row_end _).
    + destruct (Z.ltb_spec r y1), (Z.ltb_spec r (y1 + 1)); cbn [andb]; done || lia.
  - apply Z.ltb_ge in Hend. rewrite fill_edges_spec by lia. fold y'. fold x'.
    assert (Hx' : 1 <= x' <= d_width p - 2) by (unfold x', inner_x; lia).
    assert (Hy' : 1 <= y' <= d_height p - 2) by (unfold y', inner_y; lia).
    rewrite H by lia.
    rewrite (proj2 (Z.leb_le 1 y')), (proj2 (Z.ltb_lt y' yl)) by lia. cbn [andb].
    destruct (Z.ltb_spec x' (row_end (d_width p))) as [Hlt|]; [|done].
    f_equal. apply frame_pixel_ext; [done|done|lia|lia|].
    intros j Hj. rewrite Hb8. by rewrite (proj2 (Z.leb_le 0 j)), (proj2 (Z.ltb_lt j _)) by lia.
Qed.

(** Nothing outside the frame is written. *)
Lemma fill_edges_outside w h m j :
  4 <= w -> 3 <= h -> j < 0 \/ w * h * 3 <= j -> fill_edges w h m j = m j.
Proof.
  intros Hw Hh Hj. unfold fill_edges.
  assert (Hc : forall m to from, 0 <= to < h -> copy m (to * (w * 3)) from (w * 3) j = m j).
  { intros m' to from Hto. unfold copy.
    destruct (Z.leb_spec (to * (w * 3)) j), (Z.ltb_spec j (to * (w * 3) + w * 3)); cbn [andb]; done || nia. }
  set (m1 := copy m _ _ _). set (m2 := copy m1 _ _ _).
  assert (Hm2 : m2 j = m j).
  { unfold m2. rewrite Hc by lia. unfold m1. replace 0 with (0 * (w * 3)) at 1 by lia. apply Hc. lia. }
  pose proof (for_loop_inv (fun y (m' : mem) => 0 <= y /\ m' j = m j)
    (fun y => y <? h) 1 (fill_edge_row w) h (Z.to_nat h) 0 m2) as H.
  destruct (for_loop _ _ 1 _ 0 m2) as [y m']. cbn [fst snd] in H |- *.
  destruct H as (_ & [_ H] & _); [lia|intros; by apply Z.ltb_lt|lia|done| |done].
  intros y1 m3 Hy1 [_ Hm3] Hlt%Z.ltb_lt. split; [lia|]. rewrite <- Hm3.
  unfold fill_edge_row, store. assert (Hrow : j < y1 * (w * 3) \/ y1 * (w * 3) + w * 3 <= j) by nia.
  by decide_tests.
Qed.

Lemma process_outside d0 p raw bayer rgb j :
  4 <= d_width p -> 3 <= d_height p -> raw10 raw -> 0 <= blackLevel p < 256 -> bytes_mem bayer ->
  j < 0 \/ d_width p * d_height p * 3 <= j ->
  process (initialize d0 p true).1 raw bayer rgb j = rgb j.
Proof.
  intros Hw Hh Hr Hbl Hb Hj. unfold process.
  assert (Hinit : mInitialized (initialize d0 p true).1 = true /\ mParams (initialize d0 p true).1 = p).
  { unfold initialize. rewrite (proj2 (Z.eqb_neq (d_width p) 0)), (proj2 (Z.eqb_neq (d_height p) 0)) by lia.
    cbn [orb]. by destruct (_ <? _). }
  destruct Hinit as [-> ->]. cbn [negb]. rewrite fill_edges_outside by done.
  set (b8 := raw10_to_8bit raw bayer _ _).
  assert (Hbytes : bytes_mem b8).
  { intros i. unfold b8. rewrite raw10_spec by (done || nia).
    destruct (_ && _); [by apply unpacked_byte; [|lia]|apply Hb]. }
  pose proof (for_loop_inv (fun y (m : mem) => 1 <= y <= d_height p - 1 /\ m j = rgb j)
    (fun y => y <? d_height p - 1) 1 (process_row p b8) (d_height p) (Z.to_nat (d_height p)) 1 rgb) as H.
  destruct (for_loop _ _ 1 _ 1 rgb) as [yl m]. cbn [fst snd] in H |- *.
  destruct H as (_ & [_ H] & _); [lia| |lia| | |done].
  - intros ? ? _ Hlt%Z.ltb_lt. lia.
  - split; [lia|done].
  - intros y1 m1 Hy1 [Hr1 Hm1] Hlt%Z.ltb_lt. split; [lia|]. rewrite <- Hm1.
    unfold process_row. destruct (row_types p y1) as [ev od].
    rewrite neon_row_spec by (done || (intros ?; apply Hbytes)).
    assert (Hend : 0 < row_end (d_width p) <= d_width p - 1) by (unfold row_end; destruct (Z.even (d_width p)); lia).
    destruct (Z.leb_spec (y1 * (d_width p * 3)) j),
      (Z.ltb_spec j (y1 * (d_width p * 3) + row_end (d_width p) * 3)); cbn [andb]; done || nia.
Qed.

(** ** Properties *)

(** C30. Demosaicing a frame of ten-bit samples (at least 4x3 pixels, a black level
    below 256).  On an odd width every output pixel is the interpolated colour of the
    nearest interior pixel, computed from the black-level corrected samples of the frame
    alone.  On an even width so are all but the last two columns, which show the bytes the
    output buffer held in its last but one column ([row_end] is where the row loop stops;
    [even_width_stale_columns]).  Nothing outside the frame is written. *)
Theorem demosaic_frame (d0 : demosaic) (p : demosaic_params) (raw bayer rgb : mem)
    (Hw : 4 <= d_width p) (Hh : 3 <= d_height p) (Hr : raw10 raw)
    (Hbl : 0 <= blackLevel p < 256) (Hb : bytes_mem bayer) :
  let out := process (initialize d0 p true).1 raw bayer rgb in
  (forall y x c, 0 <= y < d_height p -> 0 <= x < d_width p -> 0 <= c < 3 ->
    let y' := inner_y (d_height p) y in
    let x' := inner_x (d_width p) x in
    out (ix (d_width p) y x c) =
      if x' <? row_end (d_width p)
      then chan (frame_pixel p (unpacked raw (blackLevel p)) y' x') c
      else rgb (ix (d_width p) y' x' c)) /\
  (forall j, j < 0 \/ d_width p * d_height p * 3 <= j -> out j = rgb j).
Proof.
  split; [intros y x c; by apply process_spec|]. intros j Hj. by apply process_outside.
Qed.

(** A frame of ten-bit samples, and an output buffer full of 7s. *)
Definition raw_ramp : mem := fun j => if Z.even j then (j / 2 * 37) mod 256 else (j / 2) mod 4.
Definition sample_params (w h : Z) : demosaic_params := mk_dparams w h 3 0 0 16.
Definition fresh : demosaic := mk_demosaic (sample_params 0 0) false 0.

Lemma raw_ramp_raw10 : raw10 raw_ramp.
Proof.
  intros i. unfold sample, raw_ramp.
  replace (i * 2) with (0 + 2 * i) by lia. rewrite Z.even_add_mul_2.
  replace (0 + 2 * i + 1) with (1 + 2 * i) by lia. rewrite Z.even_add_mul_2. cbn [Z.even].
  pose proof (Z.mod_pos_bound ((0 + 2 * i) / 2 * 37) 256 ltac:(lia)).
  pose proof (Z.mod_pos_bound ((1 + 2 * i) / 2) 4 ltac:(lia)). lia.
Qed.

Lemma zero_bytes : bytes_mem (fun _ => 0).
Proof. intros j. unfold byte. lia. Qed.

Lemma demosaic_frame_witness :
  let out := process (initialize fresh (sample_params 5 3) true).1 raw_ramp (fun _ => 0) (fun _ => 7) in
  (out (ix 5 1 2 0) <> 7 /\ out (ix 5 2 4 1) = out (ix 5 1 3 1)) /\
  forall y x c, 0 <= y < 3 -> 0 <= x < 5 -> 0 <= c < 3 ->
    out (ix 5 y x c) =
      if inner_x 5 x <? row_end 5
      then chan (frame_pixel (sample_params 5 3) (unpacked raw_ramp 16) (inner_y 3 y) (inner_x 5 x)) c
      else 7.
Proof.
  split; [vm_compute; done|].
  apply (demosaic_frame fresh (sample_params 5 3) raw_ramp (fun _ => 0) (fun _ => 7));
    [cbn; lia|cbn; lia|exact raw_ramp_raw10|cbn; lia|exact zero_bytes].
Defined.

(** On a frame of even width the row loop stops two columns early: the last two
    columns of the output show whatever the buffer held in the last but one. *)
Theorem even_width_stale_columns (d0 : demosaic) (p : demosaic_params) (raw bayer rgb : mem)
    (Hw : 4 <= d_width p) (Hh : 3 <= d_height p) (Hr : raw10 raw)
    (Hbl : 0 <= blackLevel p < 256) (Hb : bytes_mem bayer) (He : Z.even (d_width p) = true) :
  let w := d_width p in
  let out := process (initialize d0 p true).1 raw bayer rgb in
  forall y x c, 0 <= y < d_height p -> w - 2 <= x < w -> 0 <= c < 3 ->
    out (ix w y x c) = rgb (ix w (inner_y (d_height p) y) (w - 2) c).
Proof.
  intros w out y x c Hy Hx Hc. unfold w in *.
  unfold out. rewrite process_spec by (done || lia).
  assert (Hix : inner_x (d_width p) x = d_width p - 2) by (unfold inner_x; lia).
  assert (Hend : row_end (d_width p) = d_width p - 2) by (unfold row_end; by rewrite He).
  by rewrite Hix, Hend, Z.ltb_irrefl.
Qed.

Definition ramp_row : mem := fun x => x * 11 mod 256.

Lemma ramp_row_bytes : bytes_mem ramp_row.
Proof. intros j. apply Z.mod_pos_bound. lia. Qed.

Lemma even_width_stale_columns_witness :
  let out := process (initialize fresh (sample_params 6 3) true).1 raw_ramp (fun _ => 0) (fun j => j) in
  out (ix 6 1 3 0) <> ix 6 1 3 0 /\
  forall y x c, 0 <= y < 3 -> 6 - 2 <= x < 6 -> 0 <= c < 3 ->
    out (ix 6 y x c) = ix 6 (inner_y 3 y) (6 - 2) c.
Proof.
  split; [vm_compute; discriminate|].
  apply (even_width_stale_columns fresh (sample_params 6 3) raw_ramp (fun _ => 0) (fun j => j));
    [cbn; lia|cbn; lia|exact raw_ramp_raw10|cbn; lia|exact zero_bytes|reflexivity].
Defined.

Lemma avg_up_down a b : 0 <= Z.shiftr (a + b + 1) 1 - Z.shiftr (a + b) 1 <= 1.
Proof. rewrite !shiftr_div by lia. change (2 ^ 1) with 2. div_lia. Qed.

(** Where the vector batches agree with the scalar interpolation: the even pixels
    of red and blue sites exactly, and the odd ones but the last of a batch exactly;
    the even green pixels of blue rows, and the odd green pixels of red rows but the
    last, up to one unit in the horizontal average. *)
Theorem batch_agrees (row up dn : mem) (ev od x i : Z)
    (Hr : bytes_mem row) (Hu : bytes_mem up) (Hd : bytes_mem dn) (Hi : 0 <= i < 4) :
  let even := lane3 (batch row up dn ev od x).1 i in
  let odd := lane3 (batch row up dn ev od x).2 i in
  let even' := scalar_pixel row up dn ev (x + 2 * i) in
  let odd' := scalar_pixel row up dn od (x + 2 * i + 1) in
  (ev = 0 \/ ev = 3 -> even = even') /\
  (od = 0 \/ od = 3 -> i < 3 -> odd = odd') /\
  (ev = 2 -> chan even 0 = chan even' 0 /\ chan even 1 = chan even' 1 /\
     0 <= chan even 2 - chan even' 2 <= 1) /\
  (od = 1 -> i < 3 -> chan odd 1 = chan odd' 1 /\ chan odd 2 = chan odd' 2 /\
     0 <= chan odd 0 - chan odd' 0 <= 1).
Proof.
  intros even odd even' odd'. unfold even, odd, even', odd'.
  rewrite even_lane, odd_lane by done. unfold even_value, odd_value, scalar_pixel, interp.
  split_and!.
  - by intros [->| ->].
  - intros [->| ->] Hi3; rewrite (proj2 (Z.eqb_neq i 3)) by lia; cbn [Z.eqb];
      repeat (apply (f_equal2 pair)); f_equal; lia.
  - intros ->. cbn. split_and!; try done; apply avg_up_down.
  - intros -> Hi3. rewrite (proj2 (Z.eqb_neq i 3)) by lia. cbn. split_and!; try done; apply avg_up_down.
Qed.

Lemma batch_agrees_witness :
  let even := lane3 (batch ramp_row ramp_row ramp_row 0 1 2).1 2 in
  let odd := lane3 (batch ramp_row ramp_row ramp_row 0 1 2).2 2 in
  let even' := scalar_pixel ramp_row ramp_row ramp_row 0 6 in
  let odd' := scalar_pixel ramp_row ramp_row ramp_row 1 7 in
  even = (66, 66, 66) /\ even = even' /\
  chan odd 1 = chan odd' 1 /\ chan odd 2 = chan odd' 2 /\ 0 <= chan odd 0 - chan odd' 0 <= 1.
Proof.
  destruct (batch_agrees ramp_row ramp_row ramp_row 0 1 2 2 ramp_row_bytes ramp_row_bytes
    ramp_row_bytes ltac:(lia)) as (H1 & _ & _ & H2).
  split; [vm_compute; reflexivity|]. split; [apply H1; by left|].
  by apply H2.
Defined.

(** Where they do not: the last odd pixel of every batch takes the column the batch
    starts at for its right neighbour; the even green pixels of red rows get their red
    from green samples of the same row and their blue from the next column; and the odd
    green pixels of blue rows get the vertical average as both red and blue. *)
Theorem batch_disagrees (row up dn : mem) (ev od x : Z)
    (Hr : bytes_mem row) (Hu : bytes_mem up) (Hd : bytes_mem dn) :
  let c := x + 7 in
  (od = 0 \/ od = 3 ->
     lane3 (batch row up dn ev od x).2 3 =
       interp od (row c) (row (c - 1)) (row x) (up c) (dn c) (up (c - 1)) (up x) (dn (c - 1)) (dn x)) /\
  (ev = 1 -> forall i, 0 <= i < 3 -> let e := x + 2 * i in
     lane3 (batch row up dn ev od x).1 i =
       (Z.shiftr (row e + row (e + 2) + 1) 1, row e, Z.shiftr (up (e + 1) + dn (e + 1)) 1)) /\
  (od = 2 -> forall i, 0 <= i < 4 ->
     chan (lane3 (batch row up dn ev od x).2 i) 2 = chan (lane3 (batch row up dn ev od x).2 i) 0).
Proof.
  intros c. split_and!.
  - intros H. rewrite odd_lane by (done || lia). unfold odd_value, interp, c.
    replace (x + 2 * 3 + 1) with (x + 7) by lia. destruct H as [->| ->]; cbn [Z.eqb];
      repeat (apply (f_equal2 pair)); try reflexivity; f_equal; lia.
  - intros -> i Hi e. rewrite even_lane by (done || lia). unfold even_value.
    by rewrite (proj2 (Z.eqb_neq i 3)) by lia.
  - intros -> i Hi. by rewrite odd_lane by (done || lia).
Qed.

(** A red row with black greens: the red of its green pixels is black in a batch and
    white in the scalar code. *)
Lemma batch_disagrees_witness :
  let row := fun x => if Z.even x then 0 else 255 in
  let grey := fun _ => 128 in
  scalar_pixel row grey grey 1 2 = (255, 0, 128) /\
  lane3 (batch row grey grey 1 0 2).1 0 =
    (Z.shiftr (row 2 + row (2 + 2) + 1) 1, row 2, Z.shiftr (grey (2 + 1) + grey (2 + 1)) 1).
Proof.
  intros row grey. split; [vm_compute; reflexivity|].
  apply (batch_disagrees row grey grey 1 0 2); [| | |done|lia];
    intros j; unfold byte, row, grey; [destruct (Z.even j)| |]; lia.
Defined.
