(* ===== verification/Float32.v ===== *)
(** * Single-precision arithmetic

    The [float] operations of the camera code on the executable IEEE model of the
    standard library: binary32 is precision 24 and exponent bound 128, every operation
    rounds to nearest even. *)

From S2P Require Import Prelude.
From Stdlib Require Import SpecFloat.

Definition f32 : Type := spec_float.

(** The conversion of an integer. *)
Definition f32_of_Z (z : Z) : f32 := binary_normalize 24 128 z 0 false.

Definition f32_add : f32 -> f32 -> f32 := SFadd 24 128.
Definition f32_sub : f32 -> f32 -> f32 := SFsub 24 128.
Definition f32_mul : f32 -> f32 -> f32 := SFmul 24 128.
Definition f32_div : f32 -> f32 -> f32 := SFdiv 24 128.
Definition f32_lt : f32 -> f32 -> bool := SFltb.
Definition f32_eq : f32 -> f32 -> bool := SFeqb.

(** The literal [n / d]: both are exact, so the division rounds the decimal once. *)
Definition f32_lit (n d : Z) : f32 := f32_div (f32_of_Z n) (f32_of_Z d).

(** A decimal literal with more digits than a [float] holds, rounded once. *)
Definition f32_dec (n d : positive) : f32 := SFdiv 24 128 (S754_finite false n 0) (S754_finite false d 0).

(** [(int)x]: truncation; out of range it saturates and NaN is 0, as the ARM
    conversion instruction does. *)
Definition f32_to_int (x : f32) : Z :=
  match x with
  | S754_zero _ | S754_nan => 0
  | S754_infinity s => if s then INT_MIN else INT_MAX
  | S754_finite s m e =>
      let v := Z.shiftl (Zpos m) e in
      if s then Z.max INT_MIN (- v) else Z.min INT_MAX v
  end.

Lemma f32_to_int_range x : is_int (f32_to_int x).
Proof.
  unfold is_int, f32_to_int, INT_MIN, INT_MAX. destruct x as [s|s| |s m e]; try destruct s; try lia.
  all: pose proof (proj2 (Z.shiftl_nonneg (Zpos m) e) ltac:(lia)); lia.
Qed.
#[export] Hint Resolve f32_to_int_range : mocha.

Example f32_third : f32_to_int (f32_mul (f32_lit 1 3) (f32_of_Z 3000)) = 1000.
Proof. reflexivity. Qed.
Example f32_trunc : f32_to_int (f32_lit (-7) 2) = -3.
Proof. reflexivity. Qed.
