(* ===== verification/Float64.v ===== *)
(** * Double-precision arithmetic

    The [double] operations of the code, on the same executable IEEE model as
    [Float32]: binary64 is precision 53 and exponent bound 1024.  The conversions to
    and from [float] renormalise, so that comparisons stay exact. *)

From S2P Require Import Prelude.
From S2P Require Import Float32.
From Stdlib Require Import SpecFloat.

Definition f64 : Type := spec_float.

Definition f64_of_Z (z : Z) : f64 := binary_normalize 53 1024 z 0 false.

Definition f64_add : f64 -> f64 -> f64 := SFadd 53 1024.
Definition f64_sub : f64 -> f64 -> f64 := SFsub 53 1024.
Definition f64_mul : f64 -> f64 -> f64 := SFmul 53 1024.
Definition f64_div : f64 -> f64 -> f64 := SFdiv 53 1024.
Definition f64_sqrt : f64 -> f64 := SFsqrt 53 1024.
Definition f64_lt : f64 -> f64 -> bool := SFltb.
Definition f64_le : f64 -> f64 -> bool := SFleb.
Definition f64_lit (n d : Z) : f64 := f64_div (f64_of_Z n) (f64_of_Z d).

(** A value rounded to a format. *)
Definition convert (prec emax : Z) (x : spec_float) : spec_float :=
  match x with
  | S754_finite s m e => binary_normalize prec emax (cond_Zopp s (Zpos m)) e s
  | _ => x
  end.
Definition f64_of_f32 : f32 -> f64 := convert 53 1024.
Definition f32_of_f64 : f64 -> f32 := convert 24 128.

(** The order is transitive; NaN is below nothing. *)
Lemma f64_lt_trans a b c : f64_lt a b = true -> f64_lt b c = true -> f64_lt a c = true.
Proof.
  unfold f64_lt, SFltb.
  destruct a as [sa|sa| |sa ma ea], b as [sb|sb| |sb mb eb], c as [sc|sc| |sc mc ec]; cbn;
    repeat match goal with s : bool |- _ => destruct s end; try done.
  all: change (PosDef.Pos.compare_cont Eq) with Pos.compare;
    destruct (Z.compare_spec ea eb), (Z.compare_spec eb ec); try done; subst;
    rewrite ?Z.compare_refl.
  all: destruct (Pos.compare_spec ma mb), (Pos.compare_spec mb mc); try done; subst;
    rewrite ?Pos.compare_refl.
  all: repeat match goal with
    | |- context [?x ?= ?y] => destruct (Z.compare_spec x y); try lia; try done
    | |- context [(?x ?= ?y)%positive] => destruct (Pos.compare_spec x y); try lia; try done
    end.
Qed.

Lemma f64_lt_irrefl a : f64_lt a a = false.
Proof.
  unfold f64_lt, SFltb. destruct a as [[]|[]| |[] m e]; cbn; try done.
  all: rewrite Z.compare_refl; change (PosDef.Pos.compare_cont Eq) with Pos.compare;
    by rewrite Pos.compare_refl.
Qed.

Example f64_lit_exact : f64_of_f32 (f32_lit 1 2) = f64_lit 1 2.
Proof. reflexivity. Qed.
Example f64_sqrt_2 : f64_lt (f64_mul (f64_sqrt (f64_of_Z 2)) (f64_lit 7071 10000)) (f64_of_Z 1) = true.
Proof. reflexivity. Qed.
