(* ===== verification/PipelineImage.v ===== *)
(** * Image statistics and corrections of the camera pipeline

    Models the computations of [camera/CameraPipeline.cpp] on RGB buffers: luma and
    colour averages behind auto exposure and auto white balance, white-balance gains,
    gamma, vertical flip, and the contrast measures of the autofocus. *)

From S2P Require Import Prelude.
From S2P Require Import Neon.
From S2P Require Import Float32.

(** ** Contrast *)

(** The horizontal gradient of the green channel at pixel ([x], [y]). *)
Definition gradient (rgb : mem) (w y x : Z) : Z :=
  Z.abs (rgb (y * (w * 3) + (x + 1) * 3 + 1) - rgb (y * (w * 3) + (x - 1) * 3 + 1)).

Definition sobelEnergy (rgb : mem) (w h : Z) : Z :=
  if (w <? 3) || (h <? 3) then 0 else
  (for_loop (Z.to_nat h) (fun y => y <? h - 1) 1 (fun y total =>
     (for_loop (Z.to_nat w) (fun x => x <? w - 1) 1
        (fun x total => total + gradient rgb w y x) 1 total).2) 1 0).2.

(** The eight gradients of one unrolled round. *)
Definition sobel_chunk (rgb : mem) (w y x total : Z) : Z :=
  let g k := gradient rgb w y (x + k) in
  total + (g 0 + g 1 + g 2 + g 3 + g 4 + g 5 + g 6 + g 7).

Definition sobel_row (rgb : mem) (w y total : Z) : Z :=
  let '(x, total) := for_loop (Z.to_nat w) (fun x => x + 8 <? w - 1) 8 (sobel_chunk rgb w y) 1 total in
  (for_loop (Z.to_nat w) (fun x => x <? w - 1) 1 (fun x total => total + gradient rgb w y x) x total).2.

Definition sobelEnergyNw (rgb : mem) (w h : Z) : Z :=
  if (w <? 3) || (h <? 3) then 0 else
  (for_loop (Z.to_nat h) (fun y => y <? h - 1) 1 (sobel_row rgb w) 1 0).2.

(** ** Averages *)

(** The sum over every [step]th pixel of every [step]th row, and the pixel count. *)
Definition sample_grid (step w h : Z) (f : Z -> Z) : Z * Z :=
  (for_loop (Z.to_nat h) (fun y => y <? h) step (fun y acc =>
     (for_loop (Z.to_nat w) (fun x => x <? w) step
        (fun x acc => (acc.1 + f ((y * w + x) * 3), acc.2 + 1)) 0 acc).2) 0 (0, 0)).2.

Definition pixel_luma (rgb : mem) (off : Z) : Z :=
  Z.shiftr (rgb off * 77 + rgb (off + 1) * 150 + rgb (off + 2) * 29) 8.

Definition f32_clamp (lo hi x : f32) : f32 :=
  if f32_lt x lo then lo else if f32_lt hi x then hi else x.

(** The exposure and gain auto exposure asks for, from the average luma in 0..1. *)
Definition next_exposure (avgLuma target : f32) (exposure gain : Z) : Z * Z :=
  let floor := f32_lit 1 1000 in
  let ratio := f32_div target (if f32_lt floor avgLuma then avgLuma else floor) in
  let ratio := f32_clamp (f32_lit 1 2) (f32_of_Z 4) ratio in
  let newExp := f32_to_int (f32_mul (f32_of_Z exposure) ratio) in
  let newGain := gain in
  let '(newExp, newGain) :=
    if 2490 <? newExp then
      (2490, f32_to_int (f32_mul (f32_of_Z gain) (f32_div (f32_of_Z newExp) (f32_of_Z 2490))))
    else if (150 <? newGain) && (newExp <? 2490) then
      let e := f32_to_int (f32_mul (f32_of_Z newExp) (f32_div (f32_of_Z newGain) (f32_of_Z 150))) in
      (if 2490 <? e then 2490 else e, 150)
    else (newExp, newGain) in
  let newExp := if newExp <? 10 then 10 else newExp in
  let newGain := if 180 <? newGain then 180 else newGain in
  (newExp, if newGain <? 1 then 1 else newGain).

(** [None]: the frame has no sampled pixel. *)
Definition average_luma (rgb : mem) (w h : Z) : option f32 :=
  let '(sum, count) := sample_grid 8 w h (pixel_luma rgb) in
  if count =? 0 then None
  else Some (f32_div (f32_div (f32_of_Z sum) (f32_of_Z count)) (f32_of_Z 255)).

(** The red and blue gains auto white balance computes; [None]: the frame is too small
    or too dark. *)
Definition grey_world (rgb : mem) (w h : Z) : option (f32 * f32) :=
  let '(sumR, count) := sample_grid 16 w h (fun off => rgb off) in
  let '(sumG, _) := sample_grid 16 w h (fun off => rgb (off + 1)) in
  let '(sumB, _) := sample_grid 16 w h (fun off => rgb (off + 2)) in
  if count <? 100 then None else
  let avg s := f32_div (f32_of_Z s) (f32_of_Z count) in
  let five := f32_of_Z 5 in
  if f32_lt (avg sumR) five || f32_lt (avg sumG) five || f32_lt (avg sumB) five then None
  else
    let lim := f32_clamp (f32_lit 1 2) (f32_of_Z 3) in
    Some (lim (f32_div (avg sumG) (avg sumR)), lim (f32_div (avg sumG) (avg sumB))).

(** The smoothed gain. *)
Definition blend (old new : f32) : f32 :=
  let alpha := f32_lit 3 10 in
  f32_add (f32_mul old (f32_sub (f32_of_Z 1) alpha)) (f32_mul new alpha).

(** ** Corrections *)

Definition gained (v : Z) (g : f32) : Z :=
  let r := f32_to_int (f32_mul (f32_of_Z v) g) in if 255 <? r then 255 else wrap_u8 r.

Definition gain_pixel (rG gG bG : f32) (i : Z) (rgb : mem) : mem :=
  let off := i * 3 in
  let r := gained (rgb off) rG in
  let g := gained (rgb (off + 1)) gG in
  let b := gained (rgb (off + 2)) bG in
  store (store (store rgb off r) (off + 1) g) (off + 2) b.

Definition apply_gains (w h : Z) (rG gG bG : f32) (rgb : mem) : mem :=
  let total := w * h in
  (for_loop (Z.to_nat total) (fun i => i <? total) 1 (gain_pixel rG gG bG) 0 rgb).2.

Section Gamma.
(** [powf] of the C library. *)
Variable powf : f32 -> f32 -> f32.

Definition gamma_lut (gamma : f32) : mem := fun i =>
  wrap_u8 (f32_to_int (f32_add (f32_mul (powf (f32_div (f32_of_Z i) (f32_of_Z 255)) gamma)
    (f32_of_Z 255)) (f32_lit 1 2))).

Definition applyGamma (rgb : mem) (width height : Z) (gamma : f32) : mem :=
  let lut := gamma_lut gamma in
  let total := width * height in
  (for_loop (Z.to_nat (total * 3)) (fun i => i <? total * 3) 1
     (fun i rgb => store rgb i (lut (rgb i))) 0 rgb).2.
End Gamma.

(** [memcpy(dst + to, src + from, n)]. *)
Definition memcpy (dst : mem) (to : Z) (src : mem) (from n : Z) : mem :=
  fun j => if (to <=? j) && (j <? to + n) then src (from + (j - to)) else dst j.

Definition flip_row (width height bpp : Z) (y : Z) (s : mem * mem) : mem * mem :=
  let '(buf, tmp) := s in
  let rowSize := width * bpp in
  let topOff := y * rowSize in
  let botOff := (height - 1 - y) * rowSize in
  let tmp := memcpy tmp 0 buf topOff rowSize in
  let buf := memcpy buf topOff buf botOff rowSize in
  (memcpy buf botOff tmp 0 rowSize, tmp).

Definition flipVertical (buf tmp : mem) (width height bpp : Z) : mem :=
  (for_loop (Z.to_nat height) (fun y => y <? height / 2) 1 (flip_row width height bpp) 0 (buf, tmp)).2.1.

(** ** Lemmas *)

(** The sum of [f] over [a .. a + n - 1]. *)
Fixpoint psum (f : Z -> Z) (a : Z) (n : nat) : Z :=
  match n with O => 0 | S m => f a + psum f (a + 1) m end.

Lemma psum_app f a n m : psum f a (n + m) = psum f a n + psum f (a + Z.of_nat n) m.
Proof.
  revert a; induction n as [|n IH]; intros a; cbn [psum Nat.add].
  - by rewrite Z.add_0_r.
  - rewrite IH. replace (a + 1 + Z.of_nat n) with (a + Z.of_nat (S n)) by lia. lia.
Qed.

Lemma psum_bounds f a n lo hi :
  (forall x, lo <= f x <= hi) -> Z.of_nat n * lo <= psum f a n <= Z.of_nat n * hi.
Proof.
  intros Hf. revert a; induction n as [|n IH]; intros a; cbn [psum]; [lia|].
  specialize (IH (a + 1)). specialize (Hf a). lia.
Qed.

Lemma psum_ext f g a n :
  (forall x, a <= x < a + Z.of_nat n -> f x = g x) -> psum f a n = psum g a n.
Proof.
  revert a; induction n as [|n IH]; intros a H; cbn [psum]; [done|].
  rewrite (H a), (IH (a + 1)) by (intros; apply H || lia; lia). done.
Qed.

(** A loop that adds [k] terms a round adds up its range. *)
Lemma sum_loop f k bound cond body fuel x0 t0 :
  0 < k -> (forall x, cond x = true <-> x + k <= bound) ->
  (forall x t, body x t = t + psum f x (Z.to_nat k)) ->
  x0 <= bound -> bound - x0 <= Z.of_nat fuel ->
  let r := for_loop fuel cond k body x0 t0 in
  x0 <= r.1 <= bound /\ bound < r.1 + k /\ r.2 = t0 + psum f x0 (Z.to_nat (r.1 - x0)).
Proof.
  intros Hk Hc Hb Hx Hf r.
  pose proof (for_loop_inv (fun x t => x0 <= x <= bound /\ t = t0 + psum f x0 (Z.to_nat (x - x0)))
    cond k body bound fuel x0 t0) as H. fold r in H.
  destruct H as (_ & [H1 H2] & H3); [done| |nia| | |].
  - intros x t _ E%Hc. lia.
  - split; [lia|]. rewrite Z.sub_diag. simpl. lia.
  - intros x t Hx' [H ->] E%Hc. split; [lia|]. rewrite Hb.
    replace (Z.to_nat (x + k - x0)) with (Z.to_nat (x - x0) + Z.to_nat k)%nat by lia.
    rewrite psum_app. replace (x0 + Z.of_nat (Z.to_nat (x - x0))) with x by lia. lia.
  - split_and!; [lia|lia| |done].
    destruct (Z.le_gt_cases (r.1 + k) bound) as [E|]; [|done]. apply Hc in E.
    exfalso. enough (true = false) by done. rewrite <- E. exact H3.
Qed.

Lemma sobel_row_spec rgb w y t :
  3 <= w -> sobel_row rgb w y t = t + psum (gradient rgb w y) 1 (Z.to_nat (w - 2)).
Proof.
  intros Hw. unfold sobel_row.
  pose proof (sum_loop (gradient rgb w y) 8 (w - 2) (fun x => x + 8 <? w - 1)
    (sobel_chunk rgb w y) (Z.to_nat w) 1 t) as H.
  destruct (for_loop _ _ 8 _ 1 t) as [x t1]. cbn [fst snd] in H.
  destruct H as (Hx & _ & ->); [lia|intros; rewrite Z.ltb_lt; lia| |lia|lia|].
  { intros x' t'. unfold sobel_chunk. change (Z.to_nat 8) with 8%nat. cbn [psum].
    rewrite !Z.add_0_r. replace (x' + 1 + 1) with (x' + 2) by lia.
    replace (x' + 2 + 1) with (x' + 3) by lia. replace (x' + 3 + 1) with (x' + 4) by lia.
    replace (x' + 4 + 1) with (x' + 5) by lia. replace (x' + 5 + 1) with (x' + 6) by lia.
    replace (x' + 6 + 1) with (x' + 7) by lia. lia. }
  set (t1 := t + _).
  pose proof (sum_loop (gradient rgb w y) 1 (w - 1) (fun x => x <? w - 1)
    (fun x total => total + gradient rgb w y x) (Z.to_nat w) x t1) as H.
  destruct (for_loop _ _ 1 _ x t1) as [x2 t2]. cbn [fst snd] in H |- *.
  destruct H as (Hx2 & Hend & ->); [lia|intros; rewrite Z.ltb_lt; lia| |lia|lia|].
  { intros x' t'. change (Z.to_nat 1) with 1%nat. cbn [psum]. lia. }
  unfold t1. replace (Z.to_nat (w - 2)) with (Z.to_nat (x - 1) + Z.to_nat (x2 - x))%nat by lia.
  rewrite psum_app. replace (1 + Z.of_nat (Z.to_nat (x - 1))) with x by lia. lia.
Qed.

(** Both measures add up the gradients of all interior pixels. *)
Definition energy (rgb : mem) (w h : Z) : Z :=
  psum (fun y => psum (gradient rgb w y) 1 (Z.to_nat (w - 2))) 1 (Z.to_nat (h - 2)).

Lemma energy_loop rgb w h row :
  3 <= w -> 3 <= h ->
  (forall y t, row y t = t + psum (gradient rgb w y) 1 (Z.to_nat (w - 2))) ->
  (for_loop (Z.to_nat h) (fun y => y <? h - 1) 1 row 1 0).2 = energy rgb w h.
Proof.
  intros Hw Hh Hrow.
  pose proof (sum_loop (fun y => psum (gradient rgb w y) 1 (Z.to_nat (w - 2))) 1 (h - 1)
    (fun y => y <? h - 1) row (Z.to_nat h) 1 0) as H.
  destruct (for_loop _ _ 1 _ 1 0) as [y t]. cbn [fst snd] in H |- *.
  destruct H as (Hy & Hend & ->); [lia|intros; rewrite Z.ltb_lt; lia| |lia|lia|].
  { intros y' t'. rewrite Hrow. change (Z.to_nat 1) with 1%nat. cbn [psum]. lia. }
  unfold energy. rewrite Z.add_0_l. f_equal. lia.
Qed.

Lemma gradient_bounds rgb w y x : bytes_mem rgb -> 0 <= gradient rgb w y x <= 255.
Proof.
  intros Hb. unfold gradient.
  pose proof (Hb (y * (w * 3) + (x + 1) * 3 + 1)). pose proof (Hb (y * (w * 3) + (x - 1) * 3 + 1)).
  unfold byte in *. lia.
Qed.

(** ** Properties *)

(** The unrolled contrast measure of the autofocus equals the plain one on every
    frame: both add the horizontal green gradients of all interior pixels; on byte
    images the sum stays below 255 times their number, hence in [int] range for every
    frame of up to 8.4 million pixels. *)
Theorem sobel_equivalent (rgb : mem) (w h : Z) :
  sobelEnergyNw rgb w h = sobelEnergy rgb w h /\
  (3 <= w -> 3 <= h -> sobelEnergy rgb w h = energy rgb w h) /\
  (bytes_mem rgb -> 0 <= w * h <= 8421504 -> is_int (sobelEnergyNw rgb w h)).
Proof.
  assert (Heq : 3 <= w -> 3 <= h ->
    sobelEnergyNw rgb w h = energy rgb w h /\ sobelEnergy rgb w h = energy rgb w h).
  { intros Hw Hh. unfold sobelEnergyNw, sobelEnergy.
    rewrite (proj2 (Z.ltb_ge w 3)), (proj2 (Z.ltb_ge h 3)) by lia. cbn [orb].
    split; (apply energy_loop; [done|done|]).
    - intros. by apply sobel_row_spec.
    - intros y t.
      pose proof (sum_loop (gradient rgb w y) 1 (w - 1) (fun x => x <? w - 1)
        (fun x total => total + gradient rgb w y x) (Z.to_nat w) 1 t) as H.
      destruct (for_loop _ _ 1 _ 1 t) as [x t']. cbn [fst snd] in H |- *.
      destruct H as (Hx & Hend & ->); [lia|intros; rewrite Z.ltb_lt; lia| |lia|lia|].
      { intros. change (Z.to_nat 1) with 1%nat. cbn [psum]. lia. }
      do 2 f_equal. lia. }
  split_and!.
  - destruct (Z.ltb_spec w 3) as [Hw|Hw]; [|destruct (Z.ltb_spec h 3) as [Hh|Hh]].
    + unfold sobelEnergyNw, sobelEnergy. by rewrite (proj2 (Z.ltb_lt w 3)) by lia.
    + unfold sobelEnergyNw, sobelEnergy. rewrite (proj2 (Z.ltb_lt h 3)) by lia. by rewrite orb_true_r.
    + destruct (Heq Hw Hh) as [-> ->]. done.
  - intros Hw Hh. by apply Heq.
  - intros Hb Hsize. unfold is_int, INT_MIN, INT_MAX.
    destruct (decide (3 <= w /\ 3 <= h)) as [[Hw Hh]|Hn].
    + destruct (Heq Hw Hh) as [-> _]. unfold energy.
      pose proof (psum_bounds (fun y => psum (gradient rgb w y) 1 (Z.to_nat (w - 2))) 1
        (Z.to_nat (h - 2)) 0 (255 * (w - 2))) as H.
      destruct H as [H0 H1]; [|nia].
      intros y. pose proof (psum_bounds (gradient rgb w y) 1 (Z.to_nat (w - 2)) 0 255
        (fun x => gradient_bounds rgb w y x Hb)). lia.
    + unfold sobelEnergyNw. destruct (Z.ltb_spec w 3), (Z.ltb_spec h 3); cbn [orb]; lia.
Qed.

(** Whatever the luma (NaN included), the exposure and the gain auto exposure
    asks for are in the sensor's range: 10..2490 lines and a gain of 1..180. *)
Theorem exposure_bounds (avgLuma target : f32) (exposure gain : Z) :
  let '(e, g) := next_exposure avgLuma target exposure gain in
  10 <= e <= 2490 /\ 1 <= g <= 180.
Proof.
  unfold next_exposure. set (ratio := f32_clamp _ _ _).
  set (e0 := f32_to_int (f32_mul (f32_of_Z exposure) ratio)).
  set (g1 := f32_to_int (f32_mul (f32_of_Z gain) _)).
  set (e1 := f32_to_int (f32_mul (f32_of_Z e0) _)).
  destruct (Z.ltb_spec 2490 e0); [|destruct (Z.ltb_spec 150 gain), (Z.ltb_spec e0 2490); cbn [andb]];
    case_tests; lia.
Qed.
