(* ===== verification/Pipeline.v ===== *)
(** * The camera pipeline

    Models [camera/CameraPipeline.cpp]: the V4L2 device's life cycle, buffer mappings,
    frame capture and processing, exposure and white-balance control, and the
    autofocus scan.  [pipeline] is the C++ object.  System calls are recorded in a log
    and answered by [kernel], which may look at the whole log; a failed call is
    answered with its [errno].  Not modelled: [mCameraId], [mCurrentBuffer] and [ccm],
    which nothing reads, and allocation failure of [new]. *)

From S2P Require Import Prelude.
From S2P Require Import Neon.
From S2P Require Import Float32.
From S2P Require Import ColorConv.
From S2P Require Import Demosaic.
From S2P Require Import PipelineImage.

Inductive pipeline_state := PIPELINE_CLOSED | PIPELINE_OPENED | PIPELINE_STREAMING.
#[export] Instance pipeline_state_eq : EqDecision pipeline_state.
Proof. solve_decision. Defined.

Record pipeline_config := mk_pconfig {
  width : Z; height : Z; pixelFormat : Z;
  bayer_pattern : Z; off_x : Z; off_y : Z;
  flipV : bool; enableISP : bool; black_level : Z;
  wbGain : f32 * f32 * f32; gamma : f32;
  enableAE : bool; enableAWB : bool; targetLuma : f32; digitalGain : f32;
}.

(** A mapped buffer: the address of its mapping, if any. *)
Record v4l2_buf := mk_vbuf { start : option Z; b_length : Z; allocated : bool }.

Record pipeline := mk_pipeline {
  mFd : Z;
  mState : pipeline_state;
  mStreaming : bool;
  mDemosaic : option demosaic;
  mBayer : mem;                       (* the demosaicer's scratch buffer *)
  mColorConv : option color_conv;
  mConfig : pipeline_config;
  mBuffers : list v4l2_buf;
  mBufferCount : Z;
  mRgbBuffer : option mem;
  mRgbBufferSize : Z;
  mCurrentExposure : Z;
  mCurrentGain : Z;
  mAwbGains : f32 * f32 * f32;
  mHasAwbInit : bool;
  mGammaLut : mem;
  mLastGamma : f32;
  mFocusPosition : Z;
  mAfState : Z;
}.

(** ** Effects *)

Inductive control := CidExposure | CidGain | CidFocus.

Inductive request :=
| QUERYCAP | S_FMT (w h fmt : Z) | REQBUFS (count : Z) | QUERYBUF (i : Z) | QBUF (i : Z) | DQBUF
| STREAMON | STREAMOFF | S_CTRL (c : control) (v : Z) | G_CTRL (c : control).

Inductive pevent :=
| POpen (path : string) (fd : Z)
| PClose (fd : Z)
| PIoctl (fd : Z) (r : request) (ok : bool)
| PMap (length : Z) (addr : option Z)
| PUnmap (addr length : Z)
| PPoll (timeout_ms : Z)
| PSleep (ms : Z)
| PMeasured (pos energy : Z)         (* the autofocus log line of a measurement *)
| PWild (i : Z).                     (* a write to [mBuffers[i]], past the array's end *)

Abbreviation plog := (list pevent).

(** What the system answers after the calls in the log. *)
Record kernel := mk_kernel {
  k_open : plog -> string -> Z;
  k_ioctl : plog -> request -> option Z;         (* the errno of a failing call *)
  k_capture : plog -> bool;                      (* capability bits *)
  k_streaming : plog -> bool;
  k_reqcount : plog -> Z;                        (* buffers granted *)
  k_buflen : plog -> Z -> Z;
  k_mmap : plog -> option Z;
  k_poll : plog -> option (Z * bool);            (* poll's result and POLLIN; None: error *)
  k_errno : plog -> Z;
  k_dqbuf : plog -> Z * Z;                       (* index and bytes used *)
  k_control : plog -> control -> Z;
  k_frame : plog -> Z -> mem;                    (* bytes at a mapping *)
}.

(** ** State monad *)

Definition PM (A : Type) : Type := pipeline -> plog -> A * (pipeline * plog).
#[export] Instance PM_ret : MRet PM := fun A a s l => (a, (s, l)).
#[export] Instance PM_bind : MBind PM :=
  fun A B f m s l => let '(a, (s', l')) := m s l in f a s' l'.

Definition pget : PM pipeline := fun s l => (s, (s, l)).
Definition plog_of : PM plog := fun s l => (l, (s, l)).
Definition pmodify (f : pipeline -> pipeline) : PM unit := fun s l => (tt, (f s, l)).
Definition pemit (x : pevent) : PM unit := fun s l => (tt, (s, l ++ [x])).
Definition pskip : PM unit := mret tt.

Definition EAGAIN : Z := 11.
Definition ENOMEM : Z := 12.
Definition EBUSY : Z := 16.
Definition ENODEV : Z := 19.
Definition EINVAL : Z := 22.

(** *** Field updates *)

Definition set_fd (fd : Z) (s : pipeline) : pipeline :=
  mk_pipeline fd (mState s) (mStreaming s) (mDemosaic s) (mBayer s) (mColorConv s) (mConfig s)
    (mBuffers s) (mBufferCount s) (mRgbBuffer s) (mRgbBufferSize s) (mCurrentExposure s)
    (mCurrentGain s) (mAwbGains s) (mHasAwbInit s) (mGammaLut s) (mLastGamma s) (mFocusPosition s)
    (mAfState s).
Definition set_state (st : pipeline_state) (streaming : bool) (s : pipeline) : pipeline :=
  mk_pipeline (mFd s) st streaming (mDemosaic s) (mBayer s) (mColorConv s) (mConfig s)
    (mBuffers s) (mBufferCount s) (mRgbBuffer s) (mRgbBufferSize s) (mCurrentExposure s)
    (mCurrentGain s) (mAwbGains s) (mHasAwbInit s) (mGammaLut s) (mLastGamma s) (mFocusPosition s)
    (mAfState s).
Definition set_isp (d : option demosaic) (b : mem) (c : option color_conv) (s : pipeline) : pipeline :=
  mk_pipeline (mFd s) (mState s) (mStreaming s) d b c (mConfig s)
    (mBuffers s) (mBufferCount s) (mRgbBuffer s) (mRgbBufferSize s) (mCurrentExposure s)
    (mCurrentGain s) (mAwbGains s) (mHasAwbInit s) (mGammaLut s) (mLastGamma s) (mFocusPosition s)
    (mAfState s).
Definition set_config (c : pipeline_config) (s : pipeline) : pipeline :=
  mk_pipeline (mFd s) (mState s) (mStreaming s) (mDemosaic s) (mBayer s) (mColorConv s) c
    (mBuffers s) (mBufferCount s) (mRgbBuffer s) (mRgbBufferSize s) (mCurrentExposure s)
    (mCurrentGain s) (mAwbGains s) (mHasAwbInit s) (mGammaLut s) (mLastGamma s) (mFocusPosition s)
    (mAfState s).
Definition set_buffers (bs : list v4l2_buf) (n : Z) (s : pipeline) : pipeline :=
  mk_pipeline (mFd s) (mState s) (mStreaming s) (mDemosaic s) (mBayer s) (mColorConv s) (mConfig s)
    bs n (mRgbBuffer s) (mRgbBufferSize s) (mCurrentExposure s)
    (mCurrentGain s) (mAwbGains s) (mHasAwbInit s) (mGammaLut s) (mLastGamma s) (mFocusPosition s)
    (mAfState s).
Definition set_rgb (m : option mem) (n : Z) (s : pipeline) : pipeline :=
  mk_pipeline (mFd s) (mState s) (mStreaming s) (mDemosaic s) (mBayer s) (mColorConv s) (mConfig s)
    (mBuffers s) (mBufferCount s) m n (mCurrentExposure s)
    (mCurrentGain s) (mAwbGains s) (mHasAwbInit s) (mGammaLut s) (mLastGamma s) (mFocusPosition s)
    (mAfState s).
Definition set_sensor (exposure gain : Z) (s : pipeline) : pipeline :=
  mk_pipeline (mFd s) (mState s) (mStreaming s) (mDemosaic s) (mBayer s) (mColorConv s) (mConfig s)
    (mBuffers s) (mBufferCount s) (mRgbBuffer s) (mRgbBufferSize s) exposure gain
    (mAwbGains s) (mHasAwbInit s) (mGammaLut s) (mLastGamma s) (mFocusPosition s) (mAfState s).
Definition set_awb (g : f32 * f32 * f32) (init : bool) (s : pipeline) : pipeline :=
  mk_pipeline (mFd s) (mState s) (mStreaming s) (mDemosaic s) (mBayer s) (mColorConv s) (mConfig s)
    (mBuffers s) (mBufferCount s) (mRgbBuffer s) (mRgbBufferSize s) (mCurrentExposure s)
    (mCurrentGain s) g init (mGammaLut s) (mLastGamma s) (mFocusPosition s) (mAfState s).
Definition set_gamma (lut : mem) (last : f32) (s : pipeline) : pipeline :=
  mk_pipeline (mFd s) (mState s) (mStreaming s) (mDemosaic s) (mBayer s) (mColorConv s) (mConfig s)
    (mBuffers s) (mBufferCount s) (mRgbBuffer s) (mRgbBufferSize s) (mCurrentExposure s)
    (mCurrentGain s) (mAwbGains s) (mHasAwbInit s) lut last (mFocusPosition s) (mAfState s).
Definition set_focus_state (pos af : Z) (s : pipeline) : pipeline :=
  mk_pipeline (mFd s) (mState s) (mStreaming s) (mDemosaic s) (mBayer s) (mColorConv s) (mConfig s)
    (mBuffers s) (mBufferCount s) (mRgbBuffer s) (mRgbBufferSize s) (mCurrentExposure s)
    (mCurrentGain s) (mAwbGains s) (mHasAwbInit s) (mGammaLut s) (mLastGamma s) pos af.

(** The constructor; memory it leaves uninitialised is an argument. *)
Definition new_pipeline (config0 : pipeline_config) (lut0 : mem) : pipeline :=
  mk_pipeline (-1) PIPELINE_CLOSED false None (fun _ => 0) None config0
    (replicate 4 (mk_vbuf None 0 false)) 0 None 0 2400 150
    (f32_of_Z 1, f32_of_Z 1, f32_of_Z 1) false lut0 (f32_of_Z 0) 0 0.

Section Ops.
Variable k : kernel.
(** [powf], the contents of fresh allocations, and the pixel formats of
    [system/graphics.h]. *)
Variable powf : f32 -> f32 -> f32.
Variable heap : plog -> mem.
Variables FORMAT_YCBCR_420_888 FORMAT_RGBA_8888 FORMAT_IMPLEMENTATION_DEFINED : Z.

(** [ioctl(mFd, r, ...)]: the errno, or nothing. *)
Definition ioctl (r : request) : PM (option Z) :=
  s ← pget; l ← plog_of;
  let err := k_ioctl k l r in
  pemit (PIoctl (mFd s) r (match err with None => true | Some _ => false end));; mret err.

(** ** Opening and closing *)

Definition dev_path (cameraId : Z) : string := if cameraId =? 0 then "/dev/video0" else "/dev/video1".

Definition close_device : PM unit :=
  s ← pget; pemit (PClose (mFd s));; pmodify (set_fd (-1)).

Definition initFocuser : PM unit := pmodify (fun s => set_focus_state (-1) (mAfState s) s).

Definition open (cameraId : Z) : PM Z :=
  s ← pget;
  if negb (bool_decide (mState s = PIPELINE_CLOSED)) then mret (- EBUSY) else
  l ← plog_of;
  let fd := k_open k l (dev_path cameraId) in
  pmodify (set_fd fd);; pemit (POpen (dev_path cameraId) fd);;
  if fd <? 0 then mret (- ENODEV) else
  err ← ioctl QUERYCAP;
  match err with
  | Some _ => close_device;; mret (- ENODEV)
  | None =>
      l ← plog_of;
      if negb (k_capture k l) || negb (k_streaming k l) then close_device;; mret (- ENODEV)
      else
        (if cameraId =? 0 then initFocuser else pskip);;
        pmodify (fun s => set_state PIPELINE_OPENED (mStreaming s) s);; mret 0
  end.

(** Whether a loop of [munmap]s unmaps a buffer; [close] also asks for [allocated]. *)
Definition unmaps (strict : bool) (b : v4l2_buf) : option Z :=
  match start b with
  | Some a => if strict && negb (allocated b) then None else Some a
  | None => None
  end.

Definition unmap_events (strict : bool) (b : v4l2_buf) : plog :=
  match unmaps strict b with Some a => [PUnmap a (b_length b)] | None => [] end.

Definition unmapped (strict : bool) (b : v4l2_buf) : v4l2_buf :=
  match unmaps strict b with Some _ => mk_vbuf None (b_length b) false | None => b end.

(** The loop over the first [n] buffers. *)
Definition unmap_first (strict : bool) (n : Z) : PM unit := fun s l =>
  let pre := take (Z.to_nat n) (mBuffers s) in
  (tt, (set_buffers ((unmapped strict <$> pre) ++ drop (Z.to_nat n) (mBuffers s)) (mBufferCount s) s,
        l ++ mjoin (unmap_events strict <$> pre))).

Definition clear_count : PM unit := pmodify (fun s => set_buffers (mBuffers s) 0 s).

Definition stopStreaming : PM Z :=
  s ← pget;
  if negb (mStreaming s) then mret 0 else
  ioctl STREAMOFF;;
  unmap_first false (mBufferCount s);;
  clear_count;;
  pmodify (set_state PIPELINE_OPENED false);; mret 0.

Definition close : PM Z :=
  stopStreaming;;
  s ← pget;
  unmap_first true (mBufferCount s);;
  clear_count;;
  pmodify (fun s => match mRgbBuffer s with Some _ => set_rgb None 0 s | None => s end);;
  s ← pget;
  (if 0 <=? mFd s then close_device else pskip);;
  pmodify (fun s => set_state PIPELINE_CLOSED (mStreaming s) s);; mret 0.

(** ** Controls *)

Definition ret_of (err : option Z) : Z := match err with None => 0 | Some _ => -1 end.

Definition setExposure (exposure : Z) : PM Z :=
  err ← ioctl (S_CTRL CidExposure exposure);
  match err with None => pmodify (fun s => set_sensor exposure (mCurrentGain s) s) | Some _ => pskip end;;
  mret (ret_of err).

Definition setGain (gain : Z) : PM Z :=
  err ← ioctl (S_CTRL CidGain gain);
  match err with None => pmodify (fun s => set_sensor (mCurrentExposure s) gain s) | Some _ => pskip end;;
  mret (ret_of err).

Definition getExposure : PM Z :=
  err ← ioctl (G_CTRL CidExposure); l ← plog_of; s ← pget;
  match err with
  | None => let v := k_control k l CidExposure in
            pmodify (fun s => set_sensor v (mCurrentGain s) s);; mret v
  | Some _ => mret (mCurrentExposure s)
  end.

Definition getGain : PM Z :=
  err ← ioctl (G_CTRL CidGain); l ← plog_of; s ← pget;
  match err with
  | None => let v := k_control k l CidGain in
            pmodify (fun s => set_sensor (mCurrentExposure s) v s);; mret v
  | Some _ => mret (mCurrentGain s)
  end.

Definition setFocus (position : Z) : PM Z :=
  let position := if position <? 0 then 0 else position in
  let position := if 1023 <? position then 1023 else position in
  err ← ioctl (S_CTRL CidFocus position);
  match err with None => pmodify (fun s => set_focus_state position (mAfState s) s) | Some _ => pskip end;;
  mret (ret_of err).

(** ** Configuration *)

(** Failure in the mapping loop at [i]: the buffers before it are unmapped. *)
Definition unmap_failed (i : Z) : PM unit := fun s l =>
  let pre := take (Z.to_nat i) (mBuffers s) in
  (tt, (set_buffers (((fun b => mk_vbuf None (b_length b) false) <$> pre) ++
                     drop (Z.to_nat i) (mBuffers s)) 0 s,
        l ++ mjoin (unmap_events false <$> pre))).

Definition set_buffer (i : Z) (b : v4l2_buf) : PM unit :=
  pmodify (fun s => set_buffers (<[Z.to_nat i := b]> (mBuffers s)) (mBufferCount s) s).

(** The array has four elements, and nothing compares the driver's count with that: the
    first member written at a later index is outside the array. *)
Definition touch_buffer (i : Z) : PM unit :=
  s ← pget;
  if i <? zlen (mBuffers s) then pskip else pemit (PWild i).

(** The loop querying and mapping buffer [i], ..., with [n] to go. *)
Fixpoint map_buffers (n : nat) (i : Z) : PM Z :=
  match n with
  | O => mret 0
  | S n' =>
      err ← ioctl (QUERYBUF i);
      match err with
      | Some e => unmap_failed i;; mret (- e)
      | None =>
          touch_buffer i;;
          l ← plog_of;
          let len := k_buflen k l i in
          let addr := k_mmap k l in
          pemit (PMap len addr);;
          match addr with
          | None =>
              s ← pget;
              set_buffer i (mk_vbuf None len (default false (allocated <$> mBuffers s !! Z.to_nat i)));;
              unmap_failed i;; mret (- ENOMEM)
          | Some a => set_buffer i (mk_vbuf (Some a) len true);; map_buffers n' (i + 1)
          end
      end
  end.

(** The isp members: the sizes are narrowed to the [uint16_t] fields. *)
Definition demosaic_params_of (c : pipeline_config) : demosaic_params :=
  mk_dparams (wrap_u16 (width c)) (wrap_u16 (height c)) (bayer_pattern c) (off_x c) (off_y c)
    (black_level c).

Definition configure_isp (c : pipeline_config) : PM Z :=
  let '(d, ret) := Demosaic.initialize (mk_demosaic (demosaic_params_of c) false 0)
                     (demosaic_params_of c) true in
  s ← pget; l ← plog_of;
  pmodify (set_isp (Some d) (heap l) (mColorConv s));;
  if negb (ret =? 0) then mret ret else
  let '(cv, ret) := ColorConv.initialize (mk_conv 0 0 false) (wrap_u16 (width c)) (wrap_u16 (height c)) in
  pmodify (set_isp (Some d) (heap l) (Some cv));;
  if negb (ret =? 0) then mret ret else
  pmodify (set_rgb (Some (heap l)) (wrap_u32 (width c * height c * 3)));; mret 0.

Definition rebuild_gamma (c : pipeline_config) : PM unit :=
  s ← pget;
  if negb (f32_eq (mLastGamma s) (gamma c))
  then pmodify (set_gamma (gamma_lut powf (gamma c)) (gamma c)) else pskip.

Definition configure (c : pipeline_config) : PM Z :=
  s ← pget;
  if bool_decide (mState s = PIPELINE_STREAMING) then mret (- EBUSY) else
  pmodify (set_config c);;
  if mFd s <? 0 then mret (- ENODEV) else
  err ← ioctl (S_FMT (width c) (height c) (pixelFormat c));
  match err with
  | Some e => mret (- e)
  | None =>
      err ← ioctl (REQBUFS 2); l ← plog_of;
      match err with
      | Some e => mret (- e)
      | None =>
          if k_reqcount k l <? 2 then mret (- ENOMEM) else
          pmodify (fun s => set_buffers (mBuffers s) (k_reqcount k l) s);;
          ret ← map_buffers (Z.to_nat (k_reqcount k l)) 0;
          if negb (ret =? 0) then mret ret else
          ret ← (if enableISP c then configure_isp c else mret 0);
          if negb (ret =? 0) then mret ret else
          pmodify (fun s => set_awb (mAwbGains s) false s);;
          rebuild_gamma c;; mret 0
      end
  end.

(** ** Streaming *)

Fixpoint qbuf_all (n : nat) (i : Z) : PM (option Z) :=
  match n with
  | O => mret None
  | S n' => err ← ioctl (QBUF i);
            match err with Some e => mret (Some e) | None => qbuf_all n' (i + 1) end
  end.

Definition startStreaming : PM Z :=
  s ← pget;
  if negb (bool_decide (mState s = PIPELINE_OPENED)) then mret (- EINVAL) else
  err ← qbuf_all (Z.to_nat (mBufferCount s)) 0;
  match err with
  | Some e => mret (- e)
  | None =>
      err ← ioctl STREAMON;
      match err with
      | Some e => mret (- e)
      | None =>
          setExposure (mCurrentExposure s);;
          s ← pget; setGain (mCurrentGain s);;
          pmodify (set_state PIPELINE_STREAMING true);; mret 0
      end
  end.

(** ** Exposure and white balance *)

Definition doAutoExposure (rgb : mem) : PM unit :=
  s ← pget;
  let c := mConfig s in
  if negb (enableAE c) then pskip else
  match average_luma rgb (width c) (height c) with
  | None => pskip
  | Some avgLuma =>
      let '(newExp, newGain) :=
        next_exposure avgLuma (targetLuma c) (mCurrentExposure s) (mCurrentGain s) in
      (if negb (newGain =? mCurrentGain s) then setGain newGain;; pskip else pskip);;
      s ← pget;
      (if negb (newExp =? mCurrentExposure s) then setExposure newExp;; pskip else pskip)
  end.

Definition doAutoWhiteBalance (rgb : mem) : PM unit :=
  s ← pget;
  let c := mConfig s in
  if negb (enableAWB c) then pskip else
  match grey_world rgb (width c) (height c) with
  | None => pskip
  | Some (rGain, bGain) =>
      let '(r, g, b) := mAwbGains s in
      if negb (mHasAwbInit s)
      then pmodify (set_awb (rGain, f32_of_Z 1, bGain) true)
      else pmodify (set_awb (blend r rGain, f32_of_Z 1, blend b bGain) true)
  end.

(** ** Frames *)

Definition q8 (g : f32) : Z := f32_to_int (f32_add (f32_mul g (f32_of_Z 256)) (f32_lit 1 2)).

(** The two planes of an NV12 buffer written through [rgbToNv12]. *)
Definition write_nv12 (cv : color_conv) (rgb out : mem) (plane : Z) : mem :=
  let '(y, uv) := rgbToNv12 cv rgb out (fun j => out (plane + j)) in
  fun j => if j <? plane then y j else uv (j - plane).

(** The white-balance gains are only applied when one differs from 1. *)
Definition balance_rgb (c : pipeline_config) (g : f32 * f32 * f32) (rgb : mem) : mem :=
  let '(rG, gG, bG) := g in
  let one := f32_of_Z 1 in
  if negb (f32_eq rG one) || negb (f32_eq gG one) || negb (f32_eq bG one)
  then apply_gains (width c) (height c) rG gG bG rgb else rgb.

Definition scale_gains (g : f32 * f32 * f32) (d : f32) : f32 * f32 * f32 :=
  let '(r, gr, b) := g in (f32_mul r d, f32_mul gr d, f32_mul b d).

(** The demosaiced frame, left in [mRgbBuffer]; the scratch buffer keeps the unpacked
    samples. *)
Definition demosaic_frame_into (d : demosaic) (frame : mem) : PM mem :=
  s ← pget;
  let old := default (fun _ => 0) (mRgbBuffer s) in
  let rgb := process d frame (mBayer s) old in
  let bayer := if mInitialized d
    then raw10_to_8bit frame (mBayer s) (d_width (mParams d) * d_height (mParams d)) (blackLevel (mParams d))
    else mBayer s in
  pmodify (fun s => set_rgb (Some rgb) (mRgbBufferSize s) (set_isp (mDemosaic s) bayer (mColorConv s) s));;
  mret rgb.

Definition put_rgb (rgb : mem) : PM unit := pmodify (fun s => set_rgb (Some rgb) (mRgbBufferSize s) s).

Definition processBayerToYuv (bayerData output : mem) (outputFormat : Z) : PM (Z * mem) :=
  s ← pget;
  match mDemosaic s, mColorConv s with
  | Some d, Some cv =>
      rgb ← demosaic_frame_into d bayerData;
      (if enableAE (mConfig s) then doAutoExposure rgb else pskip);;
      (if enableAWB (mConfig s) then doAutoWhiteBalance rgb else pskip);;
      s ← pget;
      let c := mConfig s in
      let g := scale_gains (if enableAWB c then mAwbGains s else wbGain c) (digitalGain c) in
      if outputFormat =? FORMAT_YCBCR_420_888 then
        let rgb := applyGamma powf (balance_rgb c g rgb) (width c) (height c) (gamma c) in
        put_rgb rgb;;
        mret (0, write_nv12 cv rgb output (width c * height c))
      else if (outputFormat =? FORMAT_RGBA_8888) || (outputFormat =? FORMAT_IMPLEMENTATION_DEFINED) then
        let '(rG, gG, bG) := g in
        mret (0, rgbToRgbaWbGamma (width c) (height c) (q8 rG) (q8 gG) (q8 bG) (mGammaLut s) rgb
                   (flipV c) output)
      else
        let rgb := applyGamma powf (balance_rgb c g rgb) (width c) (height c) (gamma c) in
        put_rgb rgb;;
        mret (0, memcpy output 0 rgb 0 (mRgbBufferSize s))
  | _, _ => mret (- EINVAL, output)
  end.

(** The polling loop with [left] tries to go: [Some e] leaves the function with [e]. *)
Fixpoint wait_frame (left : nat) : PM (option Z) :=
  match left with
  | O => mret None
  | S left' =>
      l ← plog_of;
      pemit (PPoll 300);;
      match k_poll k l with
      | None => mret (Some (- k_errno k l))
      | Some (pollRet, pollin) =>
          if pollRet =? 0 then
            match left' with O => mret (Some (- EAGAIN)) | S _ => wait_frame left' end
          else if negb pollin then mret (Some (- EAGAIN)) else mret None
      end
  end.

Definition has_isp (s : pipeline) : bool :=
  enableISP (mConfig s) &&
  match mDemosaic s, mColorConv s with Some _, Some _ => true | _, _ => false end.

(** The status and the output buffer. *)
Definition captureFrame (outputBuffer : option mem) (outputFormat : Z) : PM (Z * option mem) :=
  s ← pget;
  if negb (bool_decide (mState s = PIPELINE_STREAMING)) then mret (- EINVAL, outputBuffer) else
  match outputBuffer with
  | None => mret (- EINVAL, outputBuffer)
  | Some out =>
      r ← wait_frame 6;
      match r with
      | Some e => mret (e, outputBuffer)
      | None =>
          err ← ioctl DQBUF; l ← plog_of;
          match err with
          | Some e => mret (if e =? EAGAIN then - EAGAIN else - e, outputBuffer)
          | None =>
              let '(index, bytesused) := k_dqbuf k l in
              if mBufferCount s <=? index then mret (- EINVAL, outputBuffer) else
              let addr := default 0 (mBuffers s !! Z.to_nat index ≫= start) in
              let frame := k_frame k l addr in
              '(ret, out) ← (if has_isp s then processBayerToYuv frame out outputFormat
                             else mret (0, memcpy out 0 frame 0 bytesused));
              err ← ioctl (QBUF index);
              match err with
              | Some e => mret (- e, Some out)
              | None => mret (ret, Some out)
              end
          end
      end
  end.

(** ** Autofocus *)

Definition captureForAf : PM Z :=
  s ← pget;
  if negb (bool_decide (mState s = PIPELINE_STREAMING)) then mret (- EINVAL) else
  l ← plog_of;
  pemit (PPoll 500);;
  match k_poll k l with
  | None => mret (- EAGAIN)
  | Some (pollRet, pollin) =>
      if pollRet <=? 0 then mret (- EAGAIN) else
      if negb pollin then mret (- EAGAIN) else
      err ← ioctl DQBUF; l ← plog_of;
      match err with
      | Some e => mret (- e)
      | None =>
          let '(index, _) := k_dqbuf k l in
          if mBufferCount s <=? index then mret (- EINVAL) else
          let addr := default 0 (mBuffers s !! Z.to_nat index ≫= start) in
          let frame := k_frame k l addr in
          energy ← (match enableISP (mConfig s), mDemosaic s, mColorConv s with
            | true, Some d, Some _ =>
                rgb ← demosaic_frame_into d frame;
                (if enableAE (mConfig s) then doAutoExposure rgb else pskip);;
                (if enableAWB (mConfig s) then doAutoWhiteBalance rgb else pskip);;
                s ← pget;
                let c := mConfig s in
                let '(rG, gG, bG) := if enableAWB c then mAwbGains s else wbGain c in
                let rgb := apply_gains (width c) (height c) rG gG bG rgb in
                let rgb := applyGamma powf rgb (width c) (height c) (gamma c) in
                put_rgb rgb;;
                mret (sobelEnergyNw rgb (width c) (height c))
            | _, _, _ => mret 0
            end);
          err ← ioctl (QBUF index);
          match err with
          | Some e => mret (- e)
          | None => mret energy
          end
      end
  end.

(** One position of a sweep; the state carries the best energy and position. *)
Definition measure (pos : Z) (best : Z * Z) : PM (Z * Z) :=
  setFocus pos;; pemit (PSleep 60);;
  energy ← captureForAf;
  if energy <? 0 then mret best
  else
    pemit (PMeasured pos energy);;
    mret (if fst best <? energy then (energy, pos) else best).

Definition run_at (pos : Z) (skip : bool) (st : (pipeline * plog) * (Z * Z)) :
  (pipeline * plog) * (Z * Z) :=
  let '((s, l), best) := st in
  if skip then st else let '(best, sl) := measure pos best s l in (sl, best).

Definition coarse_sweep (st : (pipeline * plog) * (Z * Z)) : (pipeline * plog) * (Z * Z) :=
  (for_loop 11 (fun pos => pos <=? 640) 50 (fun pos st => run_at pos false st) 140 st).2.

Definition fine_sweep (fineStart fineEnd : Z) (st : (pipeline * plog) * (Z * Z)) :
  (pipeline * plog) * (Z * Z) :=
  (for_loop 11 (fun pos => pos <=? fineEnd) 10
     (fun pos st => run_at pos (pos =? snd (snd st)) st) fineStart st).2.

Definition set_af (af : Z) : PM unit := pmodify (fun s => set_focus_state (mFocusPosition s) af s).

Definition startAfScan : PM unit :=
  s ← pget;
  if negb (bool_decide (mState s = PIPELINE_STREAMING)) then set_af 0 else
  set_af 1;;
  bestPos ← (fun s l =>
    let '(sl, best) := coarse_sweep ((s, l), (0, 400)) in
    let fineStart := snd best - 50 in
    let fineStart := if fineStart <? 140 then 140 else fineStart in
    let fineEnd := snd best + 50 in
    let fineEnd := if 640 <? fineEnd then 640 else fineEnd in
    let '(sl, best) := fine_sweep fineStart fineEnd (sl, best) in
    (snd best, sl));
  setFocus bestPos;; pemit (PSleep 60);; set_af 4.

Definition cancelAf : PM unit := setFocus 0;; set_af 0.
End Ops.

(** ** Operations that leave the device and its buffers alone *)

(** The fields that own system resources. *)
Definition frame_of (s : pipeline) :=
  (mFd s, mState s, mStreaming s, mBuffers s, mBufferCount s).

(** [m] keeps them, and only adds events in [P]. *)
Definition quiet {A} (P : pevent -> Prop) (m : PM A) : Prop := forall s l,
  frame_of (m s l).2.1 = frame_of s /\ exists new, (m s l).2.2 = l ++ new /\ Forall P new.

Definition neutral (x : pevent) : Prop :=
  match x with POpen _ _ | PClose _ | PMap _ (Some _) | PUnmap _ _ | PWild _ => False | _ => True end.
Definition is_control (x : pevent) : Prop :=
  match x with PIoctl _ (S_CTRL _ _) _ => True | _ => False end.

Section Quiet.
Context (P : pevent -> Prop).

Lemma quiet_ret {A} (a : A) : quiet P (mret a).
Proof. intros s l. split; [done|]. exists []. by rewrite app_nil_r. Qed.

Lemma quiet_bind {A B} (m : PM A) (f : A -> PM B) :
  quiet P m -> (forall a, quiet P (f a)) -> quiet P (m ≫= f).
Proof.
  intros Hm Hf s l. destruct (Hm s l) as (Hs & n1 & Hl & H1).
  unfold mbind, PM_bind. destruct (m s l) as [a [s1 l1]]. cbn in *. subst l1.
  destruct (Hf a s1 (l ++ n1)) as (Hs2 & n2 & Hl2 & H2). split; [congruence|].
  exists (n1 ++ n2). rewrite app_assoc. split; [done|]. by apply Forall_app.
Qed.

Lemma quiet_pget : quiet P pget.
Proof. intros s l. split; [done|]. exists []. by rewrite app_nil_r. Qed.
Lemma quiet_plog : quiet P plog_of.
Proof. intros s l. split; [done|]. exists []. by rewrite app_nil_r. Qed.
Lemma quiet_emit x : P x -> quiet P (pemit x).
Proof. intros Hx s l. split; [done|]. exists [x]. by rewrite Forall_singleton. Qed.
Lemma quiet_modify f : (forall s, frame_of (f s) = frame_of s) -> quiet P (pmodify f).
Proof. intros Hf s l. split; [apply Hf|]. exists []. by rewrite app_nil_r. Qed.
Lemma quiet_ioctl k r : (forall fd ok, P (PIoctl fd r ok)) -> quiet P (ioctl k r).
Proof.
  intros Hr. unfold ioctl. repeat (apply quiet_bind; [|intros]).
  - apply quiet_pget. - apply quiet_plog. - by apply quiet_emit. - apply quiet_ret.
Qed.
End Quiet.

Ltac quiet_step :=
  lazymatch goal with
  | |- quiet _ (mret _) => apply quiet_ret
  | |- quiet _ (_ ≫= _) => apply quiet_bind; [|intros]
  | |- quiet _ pskip => apply quiet_ret
  | |- quiet _ pget => apply quiet_pget
  | |- quiet _ plog_of => apply quiet_plog
  | |- quiet _ (pemit _) => apply quiet_emit
  | |- quiet _ (pmodify _) => apply quiet_modify; intros
  | |- quiet _ (ioctl _ _) => apply quiet_ioctl; intros
  | |- quiet _ (match ?x with _ => _ end) => destruct x
  | |- quiet _ (let '(_, _) := ?x in _) => destruct x
  end.
Ltac quiet := repeat quiet_step; try (exact I || reflexivity).

Section QuietOps.
Variable k : kernel.
Variable powf : f32 -> f32 -> f32.
Variables F1 F2 F3 : Z.

Lemma quiet_mono {A} (P Q : pevent -> Prop) (m : PM A) :
  (forall x, P x -> Q x) -> quiet P m -> quiet Q m.
Proof.
  intros H Hm s l. destruct (Hm s l) as (Hs & n & Hl & Hn). split; [done|]. exists n.
  split; [done|]. by eapply Forall_impl.
Qed.

Lemma control_neutral x : is_control x -> neutral x.
Proof. by destruct x as [| |? []| | | | | |]. Qed.

Lemma quiet_setExposure v : quiet is_control (setExposure k v).
Proof. unfold setExposure. quiet. Qed.
Lemma quiet_setGain v : quiet is_control (setGain k v).
Proof. unfold setGain. quiet. Qed.
Lemma quiet_setFocus v : quiet is_control (setFocus k v).
Proof. unfold setFocus. quiet. Qed.
Lemma quiet_ae rgb : quiet is_control (doAutoExposure k rgb).
Proof. unfold doAutoExposure. quiet; apply quiet_setGain || apply quiet_setExposure. Qed.
Lemma quiet_awb rgb : quiet is_control (doAutoWhiteBalance rgb).
Proof. unfold doAutoWhiteBalance. quiet. Qed.
Lemma quiet_demosaic d fr : quiet is_control (demosaic_frame_into d fr).
Proof. unfold demosaic_frame_into. quiet. Qed.
Lemma quiet_process b o f : quiet is_control (processBayerToYuv k powf F1 F2 F3 b o f).
Proof.
  unfold processBayerToYuv, put_rgb.
  quiet; apply quiet_demosaic || apply quiet_ae || apply quiet_awb.
Qed.

Lemma quiet_wait n : quiet neutral (wait_frame k n).
Proof. induction n as [|n IH]; cbn [wait_frame]; quiet; apply IH. Qed.

Lemma quiet_capture out f : quiet neutral (captureFrame k powf F1 F2 F3 out f).
Proof.
  unfold captureFrame. quiet;
    first [apply quiet_wait | eapply quiet_mono; [apply control_neutral|apply quiet_process]].
Qed.

Lemma quiet_af_capture : quiet neutral (captureForAf k powf).
Proof.
  unfold captureForAf, put_rgb. quiet;
    (eapply quiet_mono; [apply control_neutral|]);
    apply quiet_demosaic || apply quiet_ae || apply quiet_awb.
Qed.

Lemma quiet_measure pos best : quiet neutral (measure k powf pos best).
Proof.
  unfold measure. quiet; [eapply quiet_mono; [apply control_neutral|apply quiet_setFocus]|].
  apply quiet_af_capture.
Qed.
End QuietOps.

(** ** The autofocus scan *)

(** The focus positions commanded, and the measurements reported. *)
Definition focus_writes (l : plog) : list Z :=
  omap (fun x => match x with PIoctl _ (S_CTRL CidFocus v) _ => Some v | _ => None end) l.
Definition measured (l : plog) : list (Z * Z) :=
  omap (fun x => match x with PMeasured p e => Some (p, e) | _ => None end) l.

Lemma focus_writes_app l n : focus_writes (l ++ n) = focus_writes l ++ focus_writes n.
Proof. apply omap_app. Qed.
Lemma measured_app l n : measured (l ++ n) = measured l ++ measured n.
Proof. apply omap_app. Qed.

(** Events of a capture: neither focus commands nor measurements. *)
Definition capture_event (x : pevent) : Prop :=
  neutral x /\ match x with PIoctl _ (S_CTRL CidFocus _) _ | PMeasured _ _ => False | _ => True end.

Lemma capture_events_silent n :
  Forall capture_event n -> focus_writes n = [] /\ measured n = [].
Proof.
  induction 1 as [|x n [_ Hx] _ [IH1 IH2]]; [done|].
  destruct x as [| |? [| | | | | | | |[]|]| | | | | |]; cbn in *; done.
Qed.

(** The best energy and its position after some measurements: the first of the greatest,
    and (0, 400) when none is positive. *)
Definition running_best (ms : list (Z * Z)) : Z * Z :=
  fold_left (fun best m => if fst best <? snd m then (snd m, fst m) else best) ms (0, 400).

Lemma running_best_snoc ms p e :
  running_best (ms ++ [(p, e)]) =
    (if fst (running_best ms) <? e then (e, p) else running_best ms).
Proof. unfold running_best. by rewrite fold_left_app. Qed.

Lemma running_best_max ms p e : (p, e) ∈ ms -> e <= (running_best ms).1.
Proof.
  induction ms as [|[p' e'] ms IH] using rev_ind; [by intros ?%elem_of_nil|].
  rewrite running_best_snoc. intros [H|H]%elem_of_app.
  - specialize (IH H). case_test; cbn; lia.
  - apply list_elem_of_singleton in H as [= -> ->]. case_test; cbn; lia.
Qed.

Lemma running_best_in ms :
  running_best ms = (0, 400) \/ ((running_best ms).2, (running_best ms).1) ∈ ms.
Proof.
  induction ms as [|[p e] ms IH] using rev_ind; [by left|].
  rewrite running_best_snoc, elem_of_app. case_test; cbn.
  - right; right. by left.
  - destruct IH; auto.
Qed.

(** [n] positions from [a] on, [d] apart, and the loop over them. *)
Definition positions (d a n : Z) : list Z := (fun i => a + d * i) <$> seqZ 0 n.

Lemma positions_app d a n m : 0 <= n -> 0 <= m ->
  positions d a (n + m) = positions d a n ++ positions d (a + d * n) m.
Proof.
  intros Hn Hm. unfold positions. rewrite seqZ_app, fmap_app by lia. f_equal.
  rewrite Z.add_0_l, <- (Z.add_0_r n) at 1. rewrite <- (fmap_add_seqZ n 0 m), <- list_fmap_compose.
  apply list_fmap_ext. intros i x _. cbn. lia.
Qed.

Lemma positions_cons d a n : 0 < n -> positions d a n = a :: positions d (a + d) (n - 1).
Proof.
  intros Hn. replace n with (1 + (n - 1)) at 1 by lia. rewrite positions_app by lia.
  rewrite Z.mul_1_r. replace (positions d a 1) with [a]; [done|].
  unfold positions. change (seqZ 0 1) with [0]. cbn [fmap list_fmap]. f_equal. lia.
Qed.

Lemma elem_of_positions d a n p : p ∈ positions d a n <-> exists i, p = a + d * i /\ 0 <= i < n.
Proof.
  unfold positions. rewrite list_elem_of_fmap. by setoid_rewrite elem_of_seqZ.
Qed.

Lemma NoDup_positions d a n : 0 < d -> NoDup (positions d a n).
Proof. intros Hd. apply NoDup_fmap_2; [intros x y; nia|apply NoDup_seqZ]. Qed.

Lemma for_loop_positions {S} (body : Z -> S -> S) d fuel b a n st :
  0 < d -> 0 <= n <= Z.of_nat fuel -> a + d * (n - 1) <= b -> b < a + d * n ->
  (for_loop fuel (fun x => x <=? b) d body a st).2 = fold_left (fun st x => body x st) (positions d a n) st.
Proof.
  intros Hd. revert a n st. induction fuel as [|fuel IH]; intros a n st Hn Hlo Hhi.
  { by replace n with 0 by lia. }
  cbn [for_loop]. destruct (Z.leb_spec a b).
  - rewrite positions_cons by nia. cbn [fold_left]. apply IH; nia.
  - assert (n = 0) as -> by nia. done.
Qed.

Section Af.
Variable k : kernel.
Variable powf : f32 -> f32 -> f32.

Lemma quiet_control_capture {A} (m : PM A) :
  quiet (fun x => match x with PIoctl _ (S_CTRL CidFocus _) _ => False | _ => is_control x end) m ->
  quiet capture_event m.
Proof.
  apply quiet_mono. intros x. unfold capture_event.
  by destruct x as [| |? [| | | | | | | |[]|]| | | | | |].
Qed.

Lemma capture_ae rgb : quiet capture_event (doAutoExposure k rgb).
Proof. unfold doAutoExposure, setGain, setExposure. quiet; by split. Qed.
Lemma capture_awb rgb : quiet capture_event (doAutoWhiteBalance rgb).
Proof. unfold doAutoWhiteBalance. quiet. Qed.
Lemma capture_demosaic d fr : quiet capture_event (demosaic_frame_into d fr).
Proof. unfold demosaic_frame_into. quiet. Qed.

Lemma capture_af : quiet capture_event (captureForAf k powf).
Proof.
  unfold captureForAf, put_rgb.
  quiet; first [by split | apply capture_demosaic | apply capture_ae | apply capture_awb].
Qed.

(** One position: a focus command, the settling time, a capture, and the measurement
    unless the capture failed. *)
Lemma measure_spec pos best s l :
  0 <= pos <= 1023 ->
  exists new, (measure k powf pos best s l).2.2 = l ++ new /\
    frame_of (measure k powf pos best s l).2.1 = frame_of s /\ Forall neutral new /\
    focus_writes new = [pos] /\
    ((measured new = [] /\ (measure k powf pos best s l).1 = best) \/
     exists e, 0 <= e /\ measured new = [(pos, e)] /\
       (measure k powf pos best s l).1 = if best.1 <? e then (e, pos) else best).
Proof.
  intros Hpos. unfold measure, setFocus.
  rewrite (proj2 (Z.ltb_ge pos 0)), (proj2 (Z.ltb_ge 1023 pos)) by lia.
  unfold ioctl, pget, plog_of, pemit, mbind, PM_bind, mret, PM_ret.
  set (err := k_ioctl k l _). set (ev := PIoctl _ _ _).
  assert (Hstep : exists s1, frame_of s1 = frame_of s /\
    (match err with None => pmodify (fun s => set_focus_state pos (mAfState s) s) | Some _ => pskip end)
      s (l ++ [ev]) = (tt, (s1, l ++ [ev]))).
  { destruct err; [by exists s|]. eexists. split; [|reflexivity]. done. }
  destruct Hstep as (s1 & Hs1 & ->).
  destruct (capture_af s1 ((l ++ [ev]) ++ [PSleep 60])) as (Hs2 & n & Hl & Hn).
  destruct (captureForAf k powf s1 ((l ++ [ev]) ++ [PSleep 60])) as [e [s2 l2]].
  cbn [fst snd] in *. subst l2.
  destruct (capture_events_silent n Hn) as [Hf Hm].
  assert (Hneut : Forall neutral n) by (eapply Forall_impl; [exact Hn|by intros ? []]).
  destruct (Z.ltb_spec e 0); cbn [fst snd].
  - exists ([ev; PSleep 60] ++ n). split_and!.
    + by rewrite <- !app_assoc.
    + congruence.
    + apply Forall_app. split; [by repeat constructor|done].
    + rewrite focus_writes_app, Hf. done.
    + left. rewrite measured_app, Hm. done.
  - exists ([ev; PSleep 60] ++ n ++ [PMeasured pos e]). split_and!.
    + by rewrite <- !app_assoc.
    + congruence.
    + rewrite !Forall_app. split_and!; [by repeat constructor|done|by repeat constructor].
    + rewrite !focus_writes_app, Hf. done.
    + right. exists e. rewrite !measured_app, Hm. done.
Qed.

(** A part of a scan: from [s0] and [l0], with [ms] measured before, it has added [new] to
    the log, commanding [ws]; [st] carries the best of all measurements. *)
Record swept (s0 : pipeline) (l0 : plog) (ms : list (Z * Z)) (ws : list Z) (new : plog)
    (st : (pipeline * plog) * (Z * Z)) : Prop := {
  sw_log : st.1.2 = l0 ++ new;
  sw_frame : frame_of st.1.1 = frame_of s0;
  sw_neutral : Forall neutral new;
  sw_writes : focus_writes new = ws;
  sw_best : st.2 = running_best (ms ++ measured new);
  sw_measured : (measured new).*1 `sublist_of` focus_writes new;
  sw_energy : Forall (fun m => 140 <= m.1 <= 640 /\ 0 <= m.2) (measured new);
}.

Lemma swept_start s l ms best : best = running_best ms -> swept s l ms [] [] ((s, l), best).
Proof. intros ->. split; cbn; by rewrite ?app_nil_r. Qed.

Lemma run_at_best pos st :
  (run_at k powf pos false st).2.2 = st.2.2 \/ (run_at k powf pos false st).2.2 = pos.
Proof.
  destruct st as [[s l] best]. unfold run_at, measure, mbind, PM_bind, pemit, mret, PM_ret.
  destruct (setFocus k pos s l) as [? [s1 l1]]. destruct (captureForAf k powf s1 _) as [e [s2 l2]].
  destruct (e <? 0); cbn; [by left|]. case_match; cbn; auto.
Qed.

Lemma swept_step s0 l0 ms ws new st pos :
  140 <= pos <= 640 -> swept s0 l0 ms ws new st ->
  exists new', swept s0 l0 ms (ws ++ [pos]) new' (run_at k powf pos false st).
Proof.
  intros Hpos []. destruct st as [[s l] best].
  cbn in *. subst l. destruct (measure_spec pos best s (l0 ++ new)) as (n & Hl & Hs' & Hn' & Hw' & Hm);
    [lia|].
  destruct (measure k powf pos best s (l0 ++ new)) as [best' [s' l']]. cbn in *. subst l'.
  exists (new ++ n). split; cbn; rewrite ?focus_writes_app, ?measured_app.
  - by rewrite app_assoc.
  - congruence.
  - by apply Forall_app.
  - by rewrite sw_writes0, Hw'.
  - destruct Hm as [[-> ->]|(e & He & -> & ->)]; [by rewrite app_nil_r|].
    by rewrite app_assoc, running_best_snoc, <- sw_best0.
  - rewrite fmap_app, Hw'. apply sublist_app; [done|].
    destruct Hm as [[-> _]|(e & _ & -> & _)]; cbn; [apply sublist_nil_l|done].
  - apply Forall_app. split; [done|].
    destruct Hm as [[-> _]|(e & He & -> & _)]; repeat constructor; cbn; lia.
Qed.

(** Over positions none of which is the best so far, nothing is skipped. *)
Lemma swept_fold skip ps s0 l0 ms ws new st :
  (forall pos best, skip pos best = true -> pos = best) -> NoDup ps ->
  Forall (fun p => 140 <= p <= 640) ps -> st.2.2 ∉ ps -> swept s0 l0 ms ws new st ->
  let st' := fold_left (fun st pos => run_at k powf pos (skip pos st.2.2) st) ps st in
  (exists new', swept s0 l0 ms (ws ++ ps) new' st') /\ (st'.2.2 = st.2.2 \/ st'.2.2 ∈ ps).
Proof.
  intros Hskip. revert ws new st. induction ps as [|p ps IH]; intros ws new st Hnd Hr Hb Hsw.
  { cbn. rewrite app_nil_r. eauto. }
  apply NoDup_cons in Hnd as [Hp Hnd]. apply Forall_cons in Hr as [Hp' Hr].
  apply not_elem_of_cons in Hb as [Hbp Hb]. cbn [fold_left].
  destruct (skip p st.2.2) eqn:E; [by apply Hskip in E|].
  destruct (swept_step s0 l0 ms ws new st p Hp' Hsw) as [new1 Hsw1].
  pose proof (run_at_best p st) as Hbest. set (st1 := run_at k powf p false st) in *.
  destruct (IH _ _ _ Hnd Hr ltac:(by destruct Hbest as [-> | ->]) Hsw1) as [[new' H1] H2].
  rewrite <- app_assoc in H1. split; [by exists new'|].
  destruct H2 as [->|H2]; [destruct Hbest as [-> | ->]; [by left|right; by left]|right; by right].
Qed.

Definition coarse_positions : list Z := [140; 190; 240; 290; 340; 390; 440; 490; 540; 590; 640].

Lemma coarse_sweep_spec s0 l0 :
  exists new, swept s0 l0 [] coarse_positions new (coarse_sweep k powf ((s0, l0), (0, 400))).
Proof.
  unfold coarse_sweep. rewrite (for_loop_positions _ 50 11 640 140 11) by lia.
  destruct (swept_fold (fun _ _ => false) coarse_positions s0 l0 [] [] [] ((s0, l0), (0, 400)))
    as [H _]; [done| | | | |exact H].
  - apply (bool_decide_unpack _). vm_compute. done.
  - by repeat constructor.
  - apply (bool_decide_unpack _). vm_compute. done.
  - by apply swept_start.
Qed.

(** The fine sweep around [c], the best so far: the positions before [c]; then [c] itself
    only if one of those was better; then the positions after it. *)
Lemma fine_sweep_spec s1 l1 ms a c b st :
  140 <= a <= c -> c <= b <= 640 -> (c - a) mod 10 = 0 -> (b - c) mod 10 = 0 -> b - a <= 100 ->
  st = ((s1, l1), running_best ms) -> st.2.2 = c ->
  exists s2 l2 nb nf,
    swept s1 l1 ms (positions 10 a ((c - a) / 10)) nb ((s2, l2), running_best (ms ++ measured nb)) /\
    swept s2 l2 (ms ++ measured nb)
      ((if (running_best (ms ++ measured nb)).2 =? c then [] else [c]) ++
       positions 10 (c + 10) ((b - c) / 10)) nf (fine_sweep k powf a b st).
Proof.
  intros Ha Hb Hca Hbc Hab -> Hc.
  assert (exists i j, 0 <= i /\ 0 <= j /\ c = a + 10 * i /\ b = c + 10 * j /\ (c - a) / 10 = i /\
    (b - c) / 10 = j) as (i & j & Hi & Hj & Ei & Ej & -> & ->).
  { pose proof (Z.div_mod (c - a) 10 ltac:(lia)). pose proof (Z.div_mod (b - c) 10 ltac:(lia)).
    exists ((c - a) / 10), ((b - c) / 10). split_and!; done || lia. }
  unfold fine_sweep. rewrite (for_loop_positions _ 10 11 b a (i + (1 + j))) by lia.
  rewrite !positions_app, !fold_left_app by lia.
  replace (a + 10 * i) with c by lia. replace (c + 10 * 1) with (c + 10) by lia.
  replace (positions 10 c 1) with [c] by (rewrite positions_cons by lia; done).
  destruct (swept_fold Z.eqb (positions 10 a i) s1 l1 ms [] [] ((s1, l1), running_best ms))
    as [[nb H1] Hbest].
  { by intros ? ? ?%Z.eqb_eq. } { by apply NoDup_positions. }
  { apply Forall_forall. intros p (n & -> & Hn)%elem_of_positions. lia. }
  { cbn [snd] in *. intros (n & Hn & Hn')%elem_of_positions. lia. }
  { by apply swept_start. }
  set (st1 := fold_left _ (positions 10 a i) _) in *. destruct st1 as [[s2 l2] best] eqn:Est.
  cbn [app] in H1. assert (Hbe : best = running_best (ms ++ measured nb)) by apply H1.
  assert (Hle : best.2 <= c).
  { cbn [snd] in Hbest. cbn [snd] in Hc. destruct Hbest as [->|(n & -> & Hn)%elem_of_positions]; lia. }
  exists s2, l2, nb. rewrite <- Hbe. cbn [fold_left fst snd].
  assert (Hmid : exists nf1, swept s2 l2 (ms ++ measured nb) (if best.2 =? c then [] else [c]) nf1
      (run_at k powf c (c =? best.2) ((s2, l2), best)) /\
    (run_at k powf c (c =? best.2) ((s2, l2), best)).2.2 <= c).
  { rewrite (Z.eqb_sym c). destruct (Z.eqb_spec best.2 c) as [E|E].
    - exists []. split; [by apply swept_start|cbn; lia].
    - destruct (swept_step s2 l2 (ms ++ measured nb) [] [] ((s2, l2), best) c) as [nf1 H];
        [lia|by apply swept_start|]. exists nf1. split; [done|].
      destruct (run_at_best c ((s2, l2), best)) as [-> | ->]; [done|lia]. }
  destruct Hmid as (nf1 & H2 & Hle2). set (st2 := run_at k powf c _ _) in *.
  destruct (swept_fold Z.eqb (positions 10 (c + 10) j) s2 l2 (ms ++ measured nb)
    (if best.2 =? c then [] else [c]) nf1 st2)
    as [[nf H3] _].
  { by intros ? ? ?%Z.eqb_eq. } { by apply NoDup_positions. }
  { apply Forall_forall. intros p (n & -> & Hn)%elem_of_positions. lia. }
  { intros (n & Hn & Hn')%elem_of_positions. lia. }
  { exact H2. }
  exists nf. split; [|exact H3]. exact H1.
Qed.
End Af.

Lemma lock_spec k pos s l :
  0 <= pos <= 1023 ->
  let r := ((setFocus k pos;; pemit (PSleep 60);; set_af 4) s l).2 in
  exists new, r.2 = l ++ new /\ frame_of r.1 = frame_of s /\ Forall neutral new /\
    focus_writes new = [pos] /\ measured new = [] /\ mAfState r.1 = 4 /\
    (k_ioctl k l (S_CTRL CidFocus pos) = None -> mFocusPosition r.1 = pos).
Proof.
  intros Hpos. unfold setFocus. rewrite (proj2 (Z.ltb_ge pos 0)), (proj2 (Z.ltb_ge 1023 pos)) by lia.
  unfold ioctl, pget, plog_of, pemit, set_af, pmodify, mbind, PM_bind, mret, PM_ret.
  destruct (k_ioctl k l _) eqn:E; cbn.
  - eexists. rewrite <- app_assoc. split; [reflexivity|].
    split_and!; [done|by repeat constructor|done|done|done|done].
  - eexists. rewrite <- app_assoc. split; [reflexivity|].
    split_and!; [done|by repeat constructor|done|done|done|done].
Qed.

Lemma scan_eq k powf s l :
  mState s = PIPELINE_STREAMING ->
  (startAfScan k powf s l).2 =
    let '(sl, best) := coarse_sweep k powf ((set_focus_state (mFocusPosition s) 1 s, l), (0, 400)) in
    let fs := if best.2 - 50 <? 140 then 140 else best.2 - 50 in
    let fe := if 640 <? best.2 + 50 then 640 else best.2 + 50 in
    let '(sl, best) := fine_sweep k powf fs fe (sl, best) in
    ((setFocus k best.2;; pemit (PSleep 60);; set_af 4) sl.1 sl.2).2.
Proof.
  intros Hst. unfold startAfScan, pget, set_af, pmodify, mbind, PM_bind.
  rewrite bool_decide_true by done. cbn [negb].
  destruct (coarse_sweep _ _ _) as [sl best]. cbn [fst snd].
  destruct (fine_sweep _ _ _ _ _) as [[s2 l2] best2]. reflexivity.
Qed.

(** Where the fine sweep around [c] starts and ends. *)
Definition fine_start (c : Z) : Z := Z.max 140 (c - 50).
Definition fine_end (c : Z) : Z := Z.min 640 (c + 50).

(** The best of the coarse sweep is one of its positions, or 400. *)
Lemma coarse_best ms :
  ms.*1 `sublist_of` coarse_positions ->
  exists i, 0 <= i <= 50 /\ (running_best ms).2 = 140 + 10 * i.
Proof.
  intros Hs. destruct (running_best_in ms) as [->|Hin]; [exists 26; cbn; lia|].
  assert (Hc : (running_best ms).2 ∈ coarse_positions).
  { eapply elem_of_sublist; [|exact Hs]. apply list_elem_of_fmap. exists ((running_best ms).2, (running_best ms).1). done. }
  unfold coarse_positions in Hc. rewrite !elem_of_cons in Hc.
  rewrite elem_of_nil in Hc. exists (((running_best ms).2 - 140) / 10).
  destruct_or!; rewrite ?Hc; cbn; done || lia.
Qed.

(** What a scan adds to the log of a streaming pipeline. *)
Record scanned_af (k : kernel) (l nc nb nf nl : plog) (s : pipeline) (r : pipeline * plog) : Prop := {
  sf_log : r.2 = l ++ nc ++ nb ++ nf ++ nl;
  sf_frame : frame_of r.1 = frame_of s;
  sf_neutral : Forall neutral (nc ++ nb ++ nf ++ nl);
  sf_coarse : focus_writes nc = coarse_positions;
  sf_before : let c := (running_best (measured nc)).2 in
    focus_writes nb = positions 10 (fine_start c) ((c - fine_start c) / 10);
  sf_after : let c := (running_best (measured nc)).2 in
    focus_writes nf = (if (running_best (measured (nc ++ nb))).2 =? c then [] else [c]) ++
                      positions 10 (c + 10) ((fine_end c - c) / 10);
  sf_lock : focus_writes nl = [(running_best (measured (nc ++ nb ++ nf))).2];
  sf_quiet : measured nl = [];
  sf_measured : (measured (nc ++ nb ++ nf)).*1 `sublist_of` focus_writes (nc ++ nb ++ nf);
  sf_energy : Forall (fun m => 140 <= m.1 <= 640 /\ 0 <= m.2) (measured (nc ++ nb ++ nf));
  sf_state : mAfState r.1 = 4;
  sf_position : forall pos, pos = (running_best (measured (nc ++ nb ++ nf))).2 ->
    (forall m, k_ioctl k m (S_CTRL CidFocus pos) = None) -> mFocusPosition r.1 = pos;
}.

Lemma running_best_range ms :
  Forall (fun m => 140 <= m.1 <= 640 /\ 0 <= m.2) ms -> 140 <= (running_best ms).2 <= 640.
Proof.
  intros H. destruct (running_best_in ms) as [->|Hin]; [cbn; lia|].
  rewrite Forall_forall in H. by apply (H _ Hin).
Qed.

(** The whole scan. *)
Lemma scan_spec k powf s l :
  mState s = PIPELINE_STREAMING ->
  exists nc nb nf nl, scanned_af k l nc nb nf nl s (startAfScan k powf s l).2.
Proof.
  intros Hst. rewrite scan_eq by done. set (s1 := set_focus_state (mFocusPosition s) 1 s).
  destruct (coarse_sweep_spec k powf s1 l) as [nc Hc].
  destruct (coarse_sweep k powf (s1, l, (0, 400))) as [[s2 l2] b2]. cbn [fst snd].
  set (fs := if b2.2 - 50 <? 140 then _ else _). set (fe := if 640 <? b2.2 + 50 then _ else _).
  destruct Hc as [Hl2 Hs2 Hn2 Hw2 Hb2 Hm2 He2]. cbn [fst snd app] in *.
  destruct (coarse_best (measured nc) ltac:(by rewrite <- Hw2)) as (i & Hi & Ei). rewrite <- Hb2 in Ei.
  assert (Hfs : fs = fine_start b2.2 /\ fe = fine_end b2.2)
    by (unfold fs, fe, fine_start, fine_end; split; case_tests; lia).
  destruct Hfs as [Efs Efe].
  assert (Hdiv : (b2.2 - fs) mod 10 = 0 /\ (fe - b2.2) mod 10 = 0).
  { rewrite Efs, Efe, Ei. unfold fine_start, fine_end.
    split; [apply (Z.mod_divide _ 10)|apply (Z.mod_divide _ 10)]; try lia.
    - exists (Z.min i 5). lia. - exists (Z.min (50 - i) 5). lia. }
  destruct (fine_sweep_spec k powf s2 l2 (measured nc) fs b2.2 fe ((s2, l2), b2))
    as (s3 & l3 & nb & nf & [Hl3 Hs3 Hn3 Hw3 Hb3 Hm3 He3] & H4);
    [rewrite Efs; unfold fine_start; lia|rewrite Efe; unfold fine_end; lia|apply Hdiv|apply Hdiv
    |rewrite Efs, Efe; unfold fine_start, fine_end; lia|by rewrite Hb2|done|].
  destruct (fine_sweep k powf fs fe (s2, l2, b2)) as [[s4 l4] b4].
  destruct H4 as [Hl4 Hs4 Hn4 Hw4 Hb4 Hm4 He4]. cbn [fst snd] in *.
  rewrite <- app_assoc, <- !measured_app in Hb4. rewrite <- measured_app in Hw4.
  assert (Hr : 140 <= b4.2 <= 640).
  { rewrite Hb4. apply running_best_range. by rewrite !measured_app, !Forall_app. }
  destruct (lock_spec k b4.2 s4 l4) as (nl & Hl & Hs & Hn & Hw & Hm & Haf & Hfoc); [lia|].
  set (r := ((setFocus k b4.2;; pemit (PSleep 60);; set_af 4) s4 l4).2) in *.
  exists nc, nb, nf, nl. split; cbn zeta.
  - by rewrite Hl, Hl4, Hl3, Hl2, <- !app_assoc.
  - rewrite Hs, Hs4, Hs3, Hs2. done.
  - by rewrite !Forall_app.
  - done.
  - by rewrite <- Hb2, <- Efs.
  - by rewrite <- Hb2, <- Efe.
  - by rewrite Hw, Hb4.
  - done.
  - rewrite !measured_app, !focus_writes_app, !fmap_app. by repeat apply sublist_app.
  - rewrite !measured_app. by rewrite !Forall_app.
  - done.
  - intros pos -> Hok. rewrite <- Hb4. apply Hfoc. rewrite Hb4. apply Hok.
Qed.

Lemma quiet_afscan k powf : quiet neutral (startAfScan k powf).
Proof.
  intros s l. destruct (decide (mState s = PIPELINE_STREAMING)) as [Hst|Hst].
  - destruct (scan_spec k powf s l Hst) as (nc & nb & nf & nl & []).
    split; [done|]. by eexists.
  - unfold startAfScan, pget, mbind, PM_bind. rewrite bool_decide_false by done. cbn.
    split; [done|]. exists []. by rewrite app_nil_r.
Qed.

Lemma quiet_cancelAf k : quiet neutral (cancelAf k).
Proof.
  unfold cancelAf, set_af. quiet. eapply quiet_mono; [apply control_neutral|apply quiet_setFocus].
Qed.
Lemma quiet_getExposure k : quiet neutral (getExposure k).
Proof. unfold getExposure. quiet. Qed.
Lemma quiet_getGain k : quiet neutral (getGain k).
Proof. unfold getGain. quiet. Qed.

(** ** Properties *)

(** C33. An autofocus scan of a streaming pipeline leaves device and buffers alone and
    commands exactly these focus positions: the eleven coarse ones 140, 190, .., 640; with
    [c] the best of those measured, the ones ten apart from [fine_start c] up to [c]; [c]
    again, only if one of those was better; the ones ten apart from there to [fine_end c];
    and last the best of all measured, where it stays.  The best is the first with the
    greatest contrast, 400 if no contrast was positive; a measurement is of a position just
    commanded.  Without streaming, the autofocus state is reset, nothing else. *)
Theorem af_scan_locks_best (k : kernel) (powf : f32 -> f32 -> f32) (s : pipeline) (l : plog) :
  let r := (startAfScan k powf s l).2 in
  (mState s <> PIPELINE_STREAMING -> r = (set_focus_state (mFocusPosition s) 0 s, l)) /\
  (mState s = PIPELINE_STREAMING ->
   exists nc nb nf nl : plog,
     let c := (running_best (measured nc)).2 in
     let better := negb ((running_best (measured (nc ++ nb))).2 =? c) in
     let '(e, pos) := running_best (measured (nc ++ nb ++ nf)) in
     r.2 = l ++ nc ++ nb ++ nf ++ nl /\ frame_of r.1 = frame_of s /\
     focus_writes nc = [140; 190; 240; 290; 340; 390; 440; 490; 540; 590; 640] /\
     focus_writes nb = positions 10 (fine_start c) ((c - fine_start c) / 10) /\
     focus_writes nf = (if better then [c] else []) ++ positions 10 (c + 10) ((fine_end c - c) / 10) /\
     focus_writes nl = [pos] /\ measured nl = [] /\
     (measured (nc ++ nb ++ nf)).*1 `sublist_of` focus_writes (nc ++ nb ++ nf) /\
     (forall p e', (p, e') ∈ measured (nc ++ nb ++ nf) -> 140 <= p <= 640 /\ 0 <= e' <= e) /\
     ((e = 0 /\ pos = 400) \/ (pos, e) ∈ measured (nc ++ nb ++ nf)) /\ mAfState r.1 = 4 /\
     ((forall m, k_ioctl k m (S_CTRL CidFocus pos) = None) -> mFocusPosition r.1 = pos)).
Proof.
  intros r. split.
  - intros Hst. unfold r, startAfScan, pget, mbind, PM_bind.
    by rewrite bool_decide_false.
  - intros Hst. destruct (scan_spec k powf s l Hst) as (nc & nb & nf & nl & []).
    exists nc, nb, nf, nl. cbn zeta in *.
    pose proof (running_best_max (measured (nc ++ nb ++ nf))) as Hmax.
    pose proof (running_best_in (measured (nc ++ nb ++ nf))) as Hin.
    destruct (running_best (measured (nc ++ nb ++ nf))) as [e pos]. cbn [fst snd] in *.
    rewrite Forall_forall in sf_energy0.
    split_and!; try done.
    + by destruct (_ =? _).
    + intros p e' Hm. destruct (sf_energy0 _ Hm). specialize (Hmax _ _ Hm). cbn in *. lia.
    + destruct Hin as [[= -> ->]|?]; [by left|by right].
    + by apply sf_position0.
Qed.

(** ** Running a bind *)

Lemma bind_run {A B} (m : PM A) (f : A -> PM B) s l :
  (m ≫= f) s l = let '(a, (s', l')) := m s l in f a s' l'.
Proof. done. Qed.
Lemma bind_pget {A} (f : pipeline -> PM A) s l : (pget ≫= f) s l = f s s l.
Proof. done. Qed.
Lemma bind_plog {A} (f : plog -> PM A) s l : (plog_of ≫= f) s l = f l s l.
Proof. done. Qed.
Lemma bind_modify {A} g (f : unit -> PM A) s l : (pmodify g ≫= f) s l = f tt (g s) l.
Proof. done. Qed.
Lemma bind_ioctl {A} k r (f : option Z -> PM A) s l :
  (ioctl k r ≫= f) s l =
  f (k_ioctl k l r) s (l ++ [PIoctl (mFd s) r (match k_ioctl k l r with None => true | Some _ => false end)]).
Proof. done. Qed.

(** ** Capturing *)

Lemma wait_frame_spec k left s l :
  (0 < left)%nat ->
  exists n, (1 <= n <= left)%nat /\ (wait_frame k left s l).2 = (s, l ++ replicate n (PPoll 300)).
Proof.
  revert l; induction left as [|left IH]; intros l Hl; [lia|].
  cbn [wait_frame]. unfold plog_of, pemit, mbind, PM_bind, mret, PM_ret.
  assert (Hone : exists n, (1 <= n <= S left)%nat /\
    (s, l ++ [PPoll 300]) = (s, l ++ replicate n (PPoll 300))) by (exists 1%nat; split; [lia|done]).
  destruct (k_poll k l) as [[pr pin]|]; [|exact Hone].
  destruct (pr =? 0); [|by destruct pin].
  destruct left as [|left]; [exact Hone|].
  destruct (IH (l ++ [PPoll 300]) ltac:(lia)) as (n & Hn & Heq).
  exists (S n). split; [lia|]. rewrite Heq, <- app_assoc. done.
Qed.

Lemma process_ok k powf F1 F2 F3 s l b o f :
  (exists d cv, mDemosaic s = Some d /\ mColorConv s = Some cv) ->
  (processBayerToYuv k powf F1 F2 F3 b o f s l).1.1 = 0.
Proof.
  intros (d & cv & Hd & Hc). unfold processBayerToYuv, pget, mbind, PM_bind. rewrite Hd, Hc.
  destruct (demosaic_frame_into d b s l) as [rgb [s1 l1]].
  destruct ((if enableAE (mConfig s) then doAutoExposure k rgb else pskip) s1 l1) as [[] [s2 l2]].
  destruct ((if enableAWB (mConfig s) then doAutoWhiteBalance rgb else pskip) s2 l2) as [[] [s3 l3]].
  destruct (scale_gains _ _) as [[rG gG] bG].
  destruct (f =? F1); [done|]. by destruct ((f =? F2) || (f =? F3)).
Qed.

(** One [captureFrame] call into a buffer polls at most six times, 300 ms each.
    If a buffer is dequeued and its index is valid, exactly that buffer is queued
    again, after nothing but sensor controls, and the call succeeds exactly when that
    succeeds; in every other case the pipeline and the output are untouched and the
    error is the poll's, the dequeue's, [-EAGAIN], or [-EINVAL] for a bad index. *)
Theorem capture_requeues (k : kernel) (powf : f32 -> f32 -> f32) (F1 F2 F3 : Z)
    (s : pipeline) (l : plog) (out : mem) (fmt : Z) :
  let r := captureFrame k powf F1 F2 F3 (Some out) fmt s l in
  let polls n := replicate n (PPoll 300) in
  (mState s <> PIPELINE_STREAMING -> r = ((- EINVAL, Some out), (s, l))) /\
  (mState s = PIPELINE_STREAMING -> exists n, (1 <= n <= 6)%nat /\
     ((r.2 = (s, l ++ polls n) /\ r.1.2 = Some out) \/
      (exists e, k_ioctl k (l ++ polls n) DQBUF = Some e /\
         r = ((- e, Some out), (s, l ++ polls n ++ [PIoctl (mFd s) DQBUF false]))) \/
      (let l1 := l ++ polls n ++ [PIoctl (mFd s) DQBUF true] in
       k_ioctl k (l ++ polls n) DQBUF = None /\
       let i := (k_dqbuf k l1).1 in
       (mBufferCount s <= i /\ r = ((- EINVAL, Some out), (s, l1))) \/
       (i < mBufferCount s /\ exists controls ok,
          r.2.2 = l1 ++ controls ++ [PIoctl (mFd s) (QBUF i) ok] /\
          Forall is_control controls /\ frame_of r.2.1 = frame_of s /\
          (ok = true -> r.1.1 = 0) /\
          (ok = false -> exists e, k_ioctl k (l1 ++ controls) (QBUF i) = Some e /\ r.1.1 = - e))))).
Proof.
  intros r polls. split.
  - intros Hst. unfold r, captureFrame, pget, mbind, PM_bind. by rewrite bool_decide_false.
  - intros Hst. unfold r, captureFrame, pget, mbind, PM_bind. rewrite bool_decide_true by done.
    cbn [negb]. destruct (wait_frame_spec k 6 s l) as (n & Hn & Hw); [lia|]. exists n.
    split; [done|]. destruct (wait_frame k 6 s l) as [res [s1 l1]]. cbn in Hw. simplify_eq.
    destruct res as [e|]; [by left|right].
    unfold ioctl, pget, plog_of, pemit, mbind, PM_bind, mret, PM_ret.
    destruct (k_ioctl k (l ++ replicate n (PPoll 300)) DQBUF) as [e|] eqn:Edq.
    { left. exists e. split; [done|]. rewrite <- app_assoc.
      destruct (Z.eqb_spec e EAGAIN) as [->|]; done. }
    right. split; [done|]. rewrite <- app_assoc.
    set (l1 := l ++ polls n ++ [PIoctl (mFd s) DQBUF true]).
    change (l ++ replicate n (PPoll 300) ++ [PIoctl (mFd s) DQBUF true]) with l1.
    destruct (k_dqbuf k l1) as [i bytesused] eqn:Ei. cbn [fst].
    destruct (Z.leb_spec (mBufferCount s) i) as [Hi|Hi]; [left; split; [exact Hi|done]|].
    right. split; [exact Hi|].
    set (frame := k_frame k l1 _).
    set (m := (if has_isp s then _ else _) : PM (Z * mem)).
    assert (Hm : quiet is_control m).
    { unfold m. destruct (has_isp s); [apply quiet_process|apply quiet_ret]. }
    assert (Hok : (m s l1).1.1 = 0).
    { unfold m. destruct (has_isp s) eqn:Eh; [|done]. apply process_ok.
      unfold has_isp in Eh. apply andb_true_iff in Eh as [_ Eh].
      destruct (mDemosaic s), (mColorConv s); try discriminate; eauto. }
    destruct (Hm s l1) as (Hs2 & controls & Hl2 & Hc).
    change (plog) with (list pevent) in *. fold m.
    destruct (m s l1) as [[ret out'] [s2 l2]]. cbn [fst snd] in *. subst ret l2.
    assert (Hfd : mFd s2 = mFd s) by (unfold frame_of in Hs2; congruence). rewrite Hfd.
    destruct (k_ioctl k (l1 ++ controls) (QBUF i)) as [e|] eqn:Eq; cbn [fst snd].
    + exists controls, false. rewrite <- app_assoc. split_and!; try done. eauto.
    + exists controls, true. rewrite <- app_assoc. done.
Qed.

(** What the documentation of the calls says of their failures and results. *)
Record errnos_ok (k : kernel) : Prop := {
  eo_ioctl : forall l r e, k_ioctl k l r = Some e -> 0 < e;
  eo_poll : forall l, 0 < k_errno k l;
  eo_index : forall l, 0 <= (k_dqbuf k l).1;
}.

Lemma wait_frame_fails k n s l e : errnos_ok k -> (wait_frame k n s l).1 = Some e -> e < 0.
Proof.
  intros Hk. revert l. induction n as [|n IH]; intros l H; [done|]. cbn [wait_frame] in H.
  rewrite bind_plog in H. unfold mbind, PM_bind, pemit in H.
  destruct (k_poll k l) as [[pr pin]|].
  - destruct (pr =? 0); [destruct n as [|n]; [cbn in H; simplify_eq; unfold EAGAIN; lia|by apply IH in H]|].
    destruct pin; cbn in H; simplify_eq. unfold EAGAIN; lia.
  - cbn in H. simplify_eq. pose proof (eo_poll _ Hk l). lia.
Qed.

(** Without buffers no capture succeeds. *)
Lemma capture_starved k powf F1 F2 F3 s l out fmt :
  errnos_ok k -> mBufferCount s = 0 -> (captureFrame k powf F1 F2 F3 (Some out) fmt s l).1.1 < 0.
Proof.
  intros Hk H0. unfold captureFrame. rewrite bind_pget.
  case_bool_decide; [cbn [negb]|cbn; unfold EINVAL; lia].
  pose proof (wait_frame_fails k 6 s l) as Hw. rewrite bind_run.
  destruct (wait_frame k 6 s l) as [[e|] [s1 l1]]; [cbn; by apply Hw|].
  rewrite bind_ioctl, bind_plog. destruct (k_ioctl k l1 DQBUF) as [e|] eqn:E.
  - cbn. apply (eo_ioctl _ Hk) in E. case_test; unfold EAGAIN; lia.
  - set (l2 := l1 ++ _). pose proof (eo_index _ Hk l2) as Hi. destruct (k_dqbuf k l2) as [i b].
    cbn in Hi. rewrite (proj2 (Z.leb_le (mBufferCount s) i)) by lia. cbn. unfold EINVAL. lia.
Qed.

(** ** The log only grows *)

Definition grows {A} (m : PM A) : Prop := forall s l, l `prefix_of` (m s l).2.2.

Lemma grows_bind {A B} (m : PM A) (f : A -> PM B) :
  grows m -> (forall a, grows (f a)) -> grows (m ≫= f).
Proof.
  intros Hm Hf s l. specialize (Hm s l). unfold mbind, PM_bind.
  destruct (m s l) as [a [s1 l1]]. etrans; [exact Hm|apply Hf].
Qed.

Lemma grows_quiet {A} (P : pevent -> Prop) (m : PM A) : quiet P m -> grows m.
Proof. intros Hm s l. destruct (Hm s l) as (_ & n & -> & _). by apply prefix_app_r. Qed.

Lemma grows_ret {A} (a : A) : grows (mret a).
Proof. by intros s l. Qed.
Lemma grows_pget : grows pget.
Proof. by intros s l. Qed.
Lemma grows_plog : grows plog_of.
Proof. by intros s l. Qed.
Lemma grows_modify f : grows (pmodify f).
Proof. by intros s l. Qed.
Lemma grows_emit x : grows (pemit x).
Proof. intros s l. by apply prefix_app_r. Qed.
Lemma grows_ioctl k r : grows (ioctl k r).
Proof. apply (grows_quiet (fun _ => True)). by apply quiet_ioctl. Qed.
Lemma grows_unmap strict n : grows (unmap_first strict n).
Proof. intros s l. by apply prefix_app_r. Qed.
Lemma grows_failed i : grows (unmap_failed i).
Proof. intros s l. by apply prefix_app_r. Qed.

Ltac grows_step :=
  lazymatch goal with
  | |- grows (mret _) => apply grows_ret
  | |- grows (_ ≫= _) => apply grows_bind; [|intros]
  | |- grows pskip => apply grows_ret
  | |- grows pget => apply grows_pget
  | |- grows plog_of => apply grows_plog
  | |- grows (pemit _) => apply grows_emit
  | |- grows (pmodify _) => apply grows_modify
  | |- grows (ioctl _ _) => apply grows_ioctl
  | |- grows (unmap_first _ _) => apply grows_unmap
  | |- grows (unmap_failed _) => apply grows_failed
  | |- grows (match ?x with _ => _ end) => destruct x
  | |- grows (let '(_, _) := ?x in _) => destruct x
  end.
Ltac grows := repeat grows_step.

Section GrowingOps.
Variable k : kernel.
Variable powf : f32 -> f32 -> f32.
Variable heap : plog -> mem.

Lemma grows_open i : grows (open k i).
Proof. unfold open, close_device, initFocuser. grows. Qed.

Lemma grows_stop : grows (stopStreaming k).
Proof. unfold stopStreaming, clear_count. grows. Qed.

Lemma grows_close : grows (close k).
Proof. unfold close, clear_count, close_device. grows. apply grows_stop. Qed.

Lemma grows_map n i : grows (map_buffers k n i).
Proof. revert i; induction n; intros i; cbn [map_buffers]; unfold touch_buffer, set_buffer; grows; auto. Qed.

Lemma grows_configure c : grows (configure k powf heap c).
Proof. unfold configure, configure_isp, rebuild_gamma. grows; apply grows_map. Qed.

Lemma grows_start : grows (startStreaming k).
Proof.
  assert (Hq : forall n i, grows (qbuf_all k n i)).
  { intros n; induction n; intros i; cbn [qbuf_all]; grows; auto. }
  unfold startStreaming, setExposure, setGain. grows; apply Hq.
Qed.
End GrowingOps.

(** ** Life cycle *)

Inductive pipeline_op :=
| OpOpen (cameraId : Z) | OpClose | OpConfigure (c : pipeline_config) | OpStart | OpStop
| OpCapture (out : option mem) (fmt : Z)
| OpSetExposure (v : Z) | OpSetGain (v : Z) | OpGetExposure | OpGetGain
| OpFocus (v : Z) | OpAfScan | OpCancelAf.

Section LifeCycle.
Variable k : kernel.
Variable powf : f32 -> f32 -> f32.
Variable heap : plog -> mem.
Variables F1 F2 F3 : Z.

Definition ignore {A} (m : PM A) : PM unit := m;; pskip.

Definition run_op (op : pipeline_op) : PM unit :=
  match op with
  | OpOpen i => ignore (open k i)
  | OpClose => ignore (close k)
  | OpConfigure c => ignore (configure k powf heap c)
  | OpStart => ignore (startStreaming k)
  | OpStop => ignore (stopStreaming k)
  | OpCapture out fmt => ignore (captureFrame k powf F1 F2 F3 out fmt)
  | OpSetExposure v => ignore (setExposure k v)
  | OpSetGain v => ignore (setGain k v)
  | OpGetExposure => ignore (getExposure k)
  | OpGetGain => ignore (getGain k)
  | OpFocus v => ignore (setFocus k v)
  | OpAfScan => startAfScan k powf
  | OpCancelAf => cancelAf k
  end.

Lemma ignore_state {A} (m : PM A) s l : (ignore m s l).2 = (m s l).2.
Proof. unfold ignore, mbind, PM_bind. by destruct (m s l) as [a [s1 l1]]. Qed.

Fixpoint run_ops (ops : list pipeline_op) : PM unit :=
  match ops with [] => pskip | op :: ops => run_op op;; run_ops ops end.

(** Every [configure] finds no buffers held: it follows [open] or [stopStreaming]. *)
Fixpoint bracketed (ops : list pipeline_op) (s : pipeline) (l : plog) : Prop :=
  match ops with
  | [] => True
  | op :: ops =>
      (match op with OpConfigure _ => mBufferCount s = 0 | _ => True end) /\
      bracketed ops (run_op op s l).2.1 (run_op op s l).2.2
  end.

(** Open descriptors, live mappings, and whether every close and unmap named one and no
    write missed the array of buffers. *)
Record resources := mk_res { r_fds : gset Z; r_maps : gset Z; r_ok : bool }.

Definition res_step (r : resources) (x : pevent) : resources :=
  match x with
  | POpen _ fd => if fd <? 0 then r else mk_res ({[fd]} ∪ r_fds r) (r_maps r) (r_ok r && bool_decide (fd ∉ r_fds r))
  | PClose fd => mk_res (r_fds r ∖ {[fd]}) (r_maps r) (r_ok r && bool_decide (fd ∈ r_fds r))
  | PMap _ (Some a) => mk_res (r_fds r) ({[a]} ∪ r_maps r) (r_ok r)
  | PUnmap a _ => mk_res (r_fds r) (r_maps r ∖ {[a]}) (r_ok r && bool_decide (a ∈ r_maps r))
  | PWild _ => mk_res (r_fds r) (r_maps r) false
  | _ => r
  end.

Definition log_res (l : plog) : resources := fold_left res_step l (mk_res ∅ ∅ true).

(** What the kernel guarantees: fresh descriptors and addresses. *)
Record kernel_ok : Prop := {
  ko_open : forall l p, k_open k l p = -1 \/ (0 <= k_open k l p /\ k_open k l p ∉ r_fds (log_res l));
  ko_map : forall l a, k_mmap k l = Some a -> a ∉ r_maps (log_res l);
}.

(** The driver, which may grant more buffers than it is asked for, has granted more than
    the four the object has room for; nothing was misused until the mapping loop then wrote
    outside the array.  The source gives no meaning to what follows that write. *)
Definition overflow (l : plog) : Prop :=
  exists l0 fd l1 i l2,
    l = (l0 ++ [PIoctl fd (REQBUFS 2) true]) ++ (l1 ++ PWild i :: l2) /\
    4 < k_reqcount k (l0 ++ [PIoctl fd (REQBUFS 2) true]) /\
    r_ok (log_res ((l0 ++ [PIoctl fd (REQBUFS 2) true]) ++ l1)) = true.

(** The first [n] buffers are the live mappings [as_]; in a tight state there is no other. *)
Record holds (tight : bool) (bs : list v4l2_buf) (n : Z) (as_ : list Z) (maps : gset Z) : Prop := {
  ho_start : start <$> take (Z.to_nat n) bs = Some <$> as_;
  ho_alloc : Forall (fun b => allocated b = true) (take (Z.to_nat n) bs);
  ho_nodup : NoDup as_;
  ho_in : forall a, a ∈ as_ -> a ∈ maps;
  ho_tight : tight = true -> forall a, a ∈ maps -> a ∈ as_;
}.

Record device_inv (s : pipeline) (l : plog) : Prop := {
  di_stream : mStreaming s = true <-> mState s = PIPELINE_STREAMING;
  di_closed : mState s = PIPELINE_CLOSED <-> mFd s = -1;
  di_fd : (mFd s = -1 /\ r_fds (log_res l) = ∅) \/ (0 <= mFd s /\ r_fds (log_res l) = {[mFd s]});
  di_ok : r_ok (log_res l) = true;
  di_len : length (mBuffers s) = 4%nat;
}.

Record pipeline_inv (tight : bool) (s : pipeline) (l : plog) : Prop := {
  pv_dev : device_inv s l;
  pv_count : 0 <= mBufferCount s <= 4;
  pv_holds : exists as_, holds tight (mBuffers s) (mBufferCount s) as_ (r_maps (log_res l));
}.

Definition sound (tight : bool) (s : pipeline) (l : plog) : Prop :=
  overflow l \/ pipeline_inv tight s l.

Lemma log_res_app l n : log_res (l ++ n) = fold_left res_step n (log_res l).
Proof. apply fold_left_app. Qed.

Lemma fold_neutral n r : Forall neutral n -> fold_left res_step n r = r.
Proof.
  intros H. revert r. induction H as [|x n Hx _ IH]; intros r; [done|]. cbn. rewrite IH.
  by destruct x as [| | |? []| | | | |].
Qed.

Lemma log_res_neutral l n : Forall neutral n -> log_res (l ++ n) = log_res l.
Proof. intros H. rewrite log_res_app. by apply fold_neutral. Qed.

(** A write outside the array is never forgotten. *)
Lemma wild_not_ok l i : PWild i ∈ l -> r_ok (log_res l) = false.
Proof.
  intros (l1 & l2 & ->)%list_elem_of_split. rewrite log_res_app. cbn.
  assert (H : forall n r, r_ok r = false -> r_ok (fold_left res_step n r) = false).
  { intros n. induction n as [|x n IH]; intros r Hr; [done|]. cbn. apply IH.
    destruct x as [p fd| | |len [a|]| | | | |]; cbn; rewrite ?Hr; try done. by case_match; cbn; rewrite ?Hr. }
  by apply H.
Qed.

Lemma overflow_wild l : overflow l -> exists i, PWild i ∈ l.
Proof. intros (l0 & fd & l1 & i & l2 & -> & _). exists i. rewrite !elem_of_app. right; right. by left. Qed.

(** Quiet operations preserve the invariant. *)
Lemma inv_frame tight s s' l n :
  frame_of s' = frame_of s -> Forall neutral n -> pipeline_inv tight s l ->
  pipeline_inv tight s' (l ++ n).
Proof.
  intros Hf Hn [[] ? []]. unfold frame_of in Hf.
  assert (mFd s' = mFd s /\ mState s' = mState s /\ mStreaming s' = mStreaming s /\
    mBuffers s' = mBuffers s /\ mBufferCount s' = mBufferCount s) as (E1 & E2 & E3 & E4 & E5)
    by (by simplify_eq).
  split; [split|idtac|idtac]; rewrite ?log_res_neutral, ?E1, ?E2, ?E3, ?E4, ?E5 by done; eauto.
Qed.

Lemma inv_quiet {A} tight (m : PM A) s l :
  quiet neutral m -> pipeline_inv tight s l -> pipeline_inv tight (m s l).2.1 (m s l).2.2.
Proof.
  intros Hm Hinv. destruct (Hm s l) as (Hf & n & -> & Hn). by apply (inv_frame tight s).
Qed.

(** Unmapping the buffers held. *)
Lemma fold_unmaps (evs : plog) as_ r :
  Forall2 (fun x a => exists len, x = PUnmap a len) evs as_ -> NoDup as_ ->
  (forall a, a ∈ as_ -> a ∈ r_maps r) ->
  fold_left res_step evs r = mk_res (r_fds r) (r_maps r ∖ list_to_set as_) (r_ok r).
Proof.
  intros H. revert r. induction H as [|x a evs as_ [len ->] _ IH]; intros r Hnd Hin; cbn.
  - rewrite difference_empty_L. by destruct r.
  - apply NoDup_cons in Hnd as [Ha Hnd]. rewrite IH; [|done|].
    + cbn. rewrite bool_decide_true by (apply Hin; by left). rewrite andb_true_r.
      f_equal. set_solver.
    + intros b Hb. cbn. apply elem_of_difference. split; [apply Hin; by right|].
      intros ->%elem_of_singleton. done.
Qed.

Lemma unmap_events_all strict bs as_ :
  start <$> bs = Some <$> as_ -> Forall (fun b => allocated b = true) bs ->
  Forall2 (fun x a => exists len, x = PUnmap a len) (mjoin (unmap_events strict <$> bs)) as_ /\
  unmapped strict <$> bs = (fun b => mk_vbuf None (b_length b) false) <$> bs.
Proof.
  revert as_; induction bs as [|b bs IH]; intros [|a as_] Hs Ha; try done.
  rewrite !fmap_cons in Hs. injection Hs as Hb Hs. apply Forall_cons in Ha as [Hba Ha].
  destruct (IH as_ Hs Ha) as [H1 H2]. rewrite !fmap_cons, H2. cbn [mjoin list_join].
  unfold unmap_events at 1, unmapped at 1, unmaps. rewrite Hb, Hba, andb_false_r.
  split; [|done]. cbn [app]. constructor; [eauto|done].
Qed.

Lemma take_app_exact {A} (xs ys : list A) n : length xs = n -> take n (xs ++ ys) = xs.
Proof. intros <-. by rewrite take_app_length. Qed.

(** The unmapping loop followed by clearing the count. *)
Lemma inv_unmap tight strict s l :
  pipeline_inv tight s l ->
  let s1 := (unmap_first strict (mBufferCount s) s l).2.1 in
  let l1 := (unmap_first strict (mBufferCount s) s l).2.2 in
  pipeline_inv tight (set_buffers (mBuffers s1) 0 s1) l1.
Proof.
  intros [[] Hc (as_ & [])]. cbn.
  destruct (unmap_events_all strict _ _ ho_start0 ho_alloc0) as [Hev Hun].
  assert (Hres : log_res (l ++ mjoin (unmap_events strict <$> take (Z.to_nat (mBufferCount s)) (mBuffers s)))
    = mk_res (r_fds (log_res l)) (r_maps (log_res l) ∖ list_to_set as_) true).
  { rewrite log_res_app, (fold_unmaps _ as_) by done. by rewrite di_ok0. }
  split; [split|..]; cbn; rewrite ?Hres; cbn; try done.
  - rewrite length_app, length_fmap, length_drop, length_take. lia.
  - exists []. split; cbn; try done; [constructor|..].
    + intros a Ha. by apply elem_of_nil in Ha.
    + intros Ht a [Ha Hn]%elem_of_difference. exfalso. apply Hn, elem_of_list_to_set.
      by apply ho_tight0.
Qed.

Lemma stop_inv tight s l :
  pipeline_inv tight s l ->
  let r := (stopStreaming k s l).2 in
  pipeline_inv tight r.1 r.2 /\ mState r.1 <> PIPELINE_STREAMING /\ mFd r.1 = mFd s /\
  (mState s = PIPELINE_STREAMING -> mBufferCount r.1 = 0).
Proof.
  intros Hinv. unfold stopStreaming, pget, mbind, PM_bind.
  destruct (mStreaming s) eqn:Es; cbn [negb].
  - set (ev := k_ioctl k l STREAMOFF).
    assert (Hi : ioctl k STREAMOFF s l = (ev, (s, l ++ [PIoctl (mFd s) STREAMOFF
      (match ev with None => true | Some _ => false end)]))) by done.
    rewrite Hi. set (l0 := l ++ [_]).
    assert (Hinv0 : pipeline_inv tight s l0) by (apply (inv_frame tight s); [done|by repeat constructor|done]).
    pose proof (inv_unmap tight false s l0 Hinv0) as Hu.
    destruct (unmap_first false (mBufferCount s) s l0) as [u [s1 l1]] eqn:E1.
    unfold unmap_first in E1. injection E1 as <- <- <-.
    cbn [fst snd] in Hu. destruct Hu as [[] Hc Hh]. cbn in *.
    unfold clear_count, pmodify, mret, PM_ret. cbn. split; [|split; [done|split; [done|done]]].
    split; [split|..]; cbn; try done.
    split; [done|]. intros Hfd. apply di_closed0 in Hfd.
    destruct Hinv as [[] _ _]. apply di_stream1 in Es. congruence.
  - cbn. split; [done|]. destruct Hinv as [[] _ _].
    assert (Hns : mState s <> PIPELINE_STREAMING) by (intros H; apply di_stream0 in H; congruence).
    split; [done|]. split; [done|]. intros H. by destruct Hns.
Qed.

(** Stopping leaves an empty pipeline empty. *)
Lemma stop_count s l : mBufferCount s = 0 -> mBufferCount (stopStreaming k s l).2.1 = 0.
Proof. intros H. unfold stopStreaming. rewrite bind_pget. by destruct (mStreaming s). Qed.

Lemma close_inv tight s l :
  pipeline_inv tight s l ->
  let r := (close k s l).2 in
  pipeline_inv tight r.1 r.2 /\ mState r.1 = PIPELINE_CLOSED /\ mBufferCount r.1 = 0.
Proof.
  intros Hinv. cbn zeta. destruct (close k s l) as [z [sf lf]] eqn:E. cbn [fst snd].
  unfold close, mbind, PM_bind in E.
  destruct (stop_inv tight s l Hinv) as (Hinv1 & Hns & _ & _).
  destruct (stopStreaming k s l) as [z1 [s1 l1]]. cbn [fst snd] in *.
  unfold pget at 1 in E. pose proof (inv_unmap tight true s1 l1 Hinv1) as Hu.
  destruct (unmap_first true (mBufferCount s1) s1 l1) as [u [s2 l2]] eqn:E1.
  unfold unmap_first in E1. injection E1 as <- <- <-. cbn [fst snd] in Hu.
  set (s2 := set_buffers _ (mBufferCount s1) s1) in *. set (l2 := l1 ++ _) in *.
  unfold clear_count, pmodify in E.
  set (s3 := set_buffers (mBuffers s2) 0 s2) in *.
  set (s4 := match mRgbBuffer s3 with Some _ => set_rgb None 0 s3 | None => s3 end) in *.
  assert (Hf4 : frame_of s4 = frame_of s3) by (unfold s4; by destruct (mRgbBuffer s3)).
  assert (Hinv4 : pipeline_inv tight s4 l2).
  { rewrite <- (app_nil_r l2). by apply (inv_frame tight s3). }
  assert (Hst4 : mState s4 <> PIPELINE_STREAMING).
  { unfold frame_of in Hf4. simplify_eq. unfold s3, s2 in *. cbn in *. congruence. }
  unfold pget in E. destruct Hinv4 as [[] Hc Hh].
  assert (Hs4 : mStreaming s4 = false).
  { destruct (mStreaming s4); [|done]. destruct di_stream0 as [H _]. by rewrite H in Hst4. }
  assert (Hcount : mBufferCount s4 = 0) by (unfold frame_of in Hf4; by simplify_eq).
  destruct (Z.leb_spec 0 (mFd s4)) as [Hfd|Hfd].
  - unfold close_device, pget, pemit, pmodify, mbind, PM_bind, mret, PM_ret in E.
    injection E as <- <- <-. split; [|by split].
    assert (Hres : log_res (l2 ++ [PClose (mFd s4)]) = mk_res ∅ (r_maps (log_res l2)) true).
    { rewrite log_res_app. cbn. destruct di_fd0 as [[? ?]|[_ Hfds]]; [lia|].
      rewrite di_ok0, Hfds, bool_decide_true by set_solver. f_equal. set_solver. }
    split; [split|..]; cbn; rewrite ?Hres; cbn; try done; [by rewrite Hs4|].
    by left.
  - unfold pskip, pmodify, mret, PM_ret in E. injection E as <- <- <-. split; [|by split].
    destruct di_fd0 as [[Hm1 Hfds]|[? ?]]; [|lia].
    split; [split|..]; cbn; try done; [by rewrite Hs4|by left].
Qed.

Lemma open_inv tight i s l :
  kernel_ok -> pipeline_inv tight s l ->
  pipeline_inv tight (open k i s l).2.1 (open k i s l).2.2.
Proof.
  intros Hk Hinv. unfold open, pget, mbind, PM_bind.
  case_bool_decide as Hst; cbn [negb]; [|done].
  pose proof Hinv as [[] Hc (as_ & Hh)].
  assert (Hm1 : mFd s = -1) by by apply di_closed0.
  assert (Hsf : mStreaming s = false).
  { destruct (mStreaming s); [|done]. destruct di_stream0 as [H _]. by rewrite H in Hst. }
  destruct di_fd0 as [[_ Hfds]|[? _]]; [|lia].
  unfold plog_of, pmodify, pemit. set (fd := k_open k l (dev_path i)).
  set (l1 := l ++ [POpen (dev_path i) fd]).
  destruct (ko_open Hk l (dev_path i)) as [Hfd|[Hfd _]]; fold fd in Hfd.
  - rewrite Hfd. cbn [Z.ltb Z.compare]. unfold mret, PM_ret. cbn [fst snd].
    assert (Hres : log_res l1 = log_res l) by (unfold l1; rewrite log_res_app, Hfd; done).
    split; [split|..]; cbn; rewrite ?Hres; try done; [by left|]. by exists as_.
  - rewrite (proj2 (Z.ltb_ge fd 0)) by lia.
    assert (Hres : log_res l1 = mk_res {[fd]} (r_maps (log_res l)) true).
    { unfold l1. rewrite log_res_app. cbn. rewrite (proj2 (Z.ltb_ge fd 0)) by lia.
      rewrite di_ok0, Hfds, bool_decide_true by set_solver. f_equal. set_solver. }
    assert (Hclosed : forall n, Forall neutral n ->
      pipeline_inv tight (set_fd (-1) (set_fd fd s)) ((l1 ++ n) ++ [PClose fd])).
    { intros n Hn. assert (Hr : log_res ((l1 ++ n) ++ [PClose fd]) = mk_res ∅ (r_maps (log_res l)) true).
      { rewrite log_res_app, log_res_neutral, Hres by done. cbn.
        rewrite bool_decide_true by set_solver. f_equal. set_solver. }
      split; [split|..]; cbn; rewrite ?Hr; try done; [by left|]. by exists as_. }
    assert (Hopened : forall pos af n, Forall neutral n ->
      pipeline_inv tight (set_state PIPELINE_OPENED false (set_focus_state pos af (set_fd fd s))) (l1 ++ n)).
    { intros pos af n Hn. split; [split|..]; cbn; rewrite ?log_res_neutral, ?Hres by done; cbn; try done.
      - split; [done|lia].
      - right. by split.
      - by exists as_. }
    unfold ioctl, pget, plog_of, pemit, mbind, PM_bind, mret, PM_ret.
    destruct (k_ioctl k l1 QUERYCAP).
    { unfold close_device, pget, pemit, pmodify, mbind, PM_bind. cbn [fst snd].
      apply Hclosed. by repeat constructor. }
    destruct (negb _ || negb _).
    { unfold close_device, pget, pemit, pmodify, mbind, PM_bind. cbn [fst snd].
      apply Hclosed. by repeat constructor. }
    unfold initFocuser, pskip, pmodify. destruct (i =? 0); cbn [fst snd]; cbn; rewrite ?Hsf.
    + apply (Hopened (-1) (mAfState s)). by repeat constructor.
    + pose proof (Hopened (mFocusPosition s) (mAfState s) [PIoctl fd QUERYCAP true]
        ltac:(by repeat constructor)) as H. destruct s. exact H.
Qed.

(** While [configure] maps: the first [i] buffers are held. *)
Record mapping (tight : bool) (s : pipeline) (l : plog) (i : Z) : Prop := {
  mp_dev : device_inv s l;
  mp_open : mState s = PIPELINE_OPENED;
  mp_holds : exists as_, holds tight (mBuffers s) i as_ (r_maps (log_res l));
}.

Lemma mapping_neutral tight s l i n :
  Forall neutral n -> mapping tight s l i -> mapping tight s (l ++ n) i.
Proof.
  intros Hn [[] Ho Hh]. split; [split|..]; rewrite ?log_res_neutral by done; done.
Qed.

(** The buffer at [i] does not matter to those before it. *)
Lemma mapping_set_buffer tight s l i b :
  0 <= i -> mapping tight s l i -> mapping tight (set_buffer i b s l).2.1 l i.
Proof.
  intros Hi [[] Ho (as_ & [])]. split; [split|..]; cbn; try done; [by rewrite length_insert|].
  exists as_. split; cbn; rewrite ?take_insert_ge by lia; done.
Qed.

Lemma unmap_failed_inv tight s l i :
  0 <= i <= 4 -> mapping tight s l i ->
  pipeline_inv tight (unmap_failed i s l).2.1 (unmap_failed i s l).2.2.
Proof.
  intros Hi [[] Ho (as_ & [])]. cbn.
  destruct (unmap_events_all false _ _ ho_start0 ho_alloc0) as [Hev _].
  assert (Hres : log_res (l ++ mjoin (unmap_events false <$> take (Z.to_nat i) (mBuffers s)))
    = mk_res (r_fds (log_res l)) (r_maps (log_res l) ∖ list_to_set as_) true).
  { rewrite log_res_app, (fold_unmaps _ as_) by done. by rewrite di_ok0. }
  split; [split|..]; cbn; rewrite ?Hres; cbn; try done.
  - rewrite length_app, length_fmap, length_drop, length_take. lia.
  - exists []. split; cbn; try done; [constructor|..].
    + intros a Ha. by apply elem_of_nil in Ha.
    + intros Ht a [Ha Hn]%elem_of_difference. exfalso. apply Hn, elem_of_list_to_set.
      by apply ho_tight0.
Qed.

Lemma mapping_extend tight s l i len a :
  0 <= i < 4 -> a ∉ r_maps (log_res l) -> mapping tight s l i ->
  mapping tight (set_buffer i (mk_vbuf (Some a) len true) s (l ++ [PMap len (Some a)])).2.1
    (l ++ [PMap len (Some a)]) (i + 1).
Proof.
  intros Hi Ha [[] Ho (as_ & [])]. 
  assert (Hres : log_res (l ++ [PMap len (Some a)]) =
    mk_res (r_fds (log_res l)) ({[a]} ∪ r_maps (log_res l)) (r_ok (log_res l)))
    by (by rewrite log_res_app).
  assert (Htake : take (Z.to_nat (i + 1)) (<[Z.to_nat i := mk_vbuf (Some a) len true]> (mBuffers s)) =
    take (Z.to_nat i) (mBuffers s) ++ [mk_vbuf (Some a) len true]).
  { replace (Z.to_nat (i + 1)) with (S (Z.to_nat i)) by lia.
    rewrite (take_S_r _ _ (mk_vbuf (Some a) len true)) by (apply list_lookup_insert_eq; lia).
    by rewrite take_insert_ge by lia. }
  split; [split|..]; cbn; rewrite ?Hres; cbn; try done; [by rewrite length_insert|].
  exists (as_ ++ [a]). split; cbn; rewrite ?Htake.
  - by rewrite !fmap_app, ho_start0.
  - apply Forall_app. split; [done|by repeat constructor].
  - apply NoDup_app. split_and!; [done| |by apply NoDup_singleton].
    intros b Hb Hb'. apply list_elem_of_singleton in Hb' as ->. by apply Ha, ho_in0.
  - intros b [Hb|Hb]%elem_of_app; [|apply list_elem_of_singleton in Hb as ->; set_solver].
    apply elem_of_union_r. by apply ho_in0.
  - intros Ht b [Hb|Hb]%elem_of_union; apply elem_of_app; [right|left].
    { apply elem_of_singleton in Hb as ->. by left. }
    by apply ho_tight0.
Qed.

(** The driver granted [n] buffers: the answer is part of the log. *)
Definition granted (n : Z) (l : plog) : Prop :=
  exists l0 fd l1, l = (l0 ++ [PIoctl fd (REQBUFS 2) true]) ++ l1 /\
    k_reqcount k (l0 ++ [PIoctl fd (REQBUFS 2) true]) = n.

Lemma granted_app n l l' : granted n l -> granted n (l ++ l').
Proof. intros (l0 & fd & l1 & -> & H). exists l0, fd, (l1 ++ l'). by rewrite app_assoc. Qed.

Lemma overflow_prefix l l' : l `prefix_of` l' -> overflow l -> overflow l'.
Proof.
  intros [n ->] (l0 & fd & l1 & i & l2 & -> & H). exists l0, fd, l1, i, (l2 ++ n).
  split; [by rewrite <- !app_assoc|done].
Qed.

Lemma granted_overflow n i l l' :
  granted n l -> 4 < n -> r_ok (log_res l) = true -> (l ++ [PWild i]) `prefix_of` l' -> overflow l'.
Proof.
  intros (l0 & fd & l1 & -> & <-) Hn Hr Hp. eapply overflow_prefix; [exact Hp|].
  exists l0, fd, l1, i, []. split; [by rewrite <- !app_assoc|done].
Qed.

Lemma map_buffers_inv tight n i s l :
  kernel_ok -> 0 <= i <= 4 -> mBufferCount s = i + Z.of_nat n -> granted (mBufferCount s) l ->
  mapping tight s l i ->
  sound tight (map_buffers k n i s l).2.1 (map_buffers k n i s l).2.2.
Proof.
  intros Hk Hi. revert i s l Hi. induction n as [|n IH]; intros i s l Hi Hc Hg Hm.
  - cbn. destruct Hm as [Hd Ho Hh]. right. split; [done|lia|]. by replace (mBufferCount s) with i by lia.
  - cbn [map_buffers]. rewrite bind_ioctl.
    set (l1 := l ++ [_]).
    assert (Hm1 : mapping tight s l1 i).
    { apply mapping_neutral; [|done]. by destruct (k_ioctl k l _); repeat constructor. }
    destruct (k_ioctl k l (QUERYBUF i)) as [e|].
    { right. pose proof (unmap_failed_inv tight s l1 i ltac:(lia) Hm1) as Hu.
      unfold mbind, PM_bind. by destruct (unmap_failed i s l1) as [u [s2 l2]]. }
    assert (Hlen : zlen (mBuffers s) = 4) by (unfold zlen; by rewrite (di_len _ _ (mp_dev _ _ _ _ Hm1))).
    unfold touch_buffer, plog_of, pget, mbind, PM_bind. rewrite Hlen. case_test.
    2:{ left. unfold pemit at 1.
        apply (granted_overflow (mBufferCount s) i l1); [by apply granted_app|lia|apply Hm1|].
        set (l2 := l1 ++ [PWild i]). destruct (k_mmap k l2); cbn; [|by do 2 apply prefix_app_r].
        etrans; [|apply grows_map]. by apply prefix_app_r. }
    unfold pskip, mret, PM_ret, pemit. destruct (k_mmap k l1) as [a|] eqn:Ea.
    + pose proof (mapping_extend tight s l1 i (k_buflen k l1 i) a ltac:(lia)
        (ko_map Hk l1 a Ea) Hm1) as Hm2.
      unfold set_buffer, pmodify in *. cbn [fst snd] in Hm2.
      apply IH; [lia|cbn; lia|by do 2 apply granted_app|exact Hm2].
    + set (b := mk_vbuf None _ _). set (l2 := l1 ++ [_]).
      assert (Hm2 : mapping tight (set_buffer i b s l2).2.1 l2 i).
      { apply mapping_set_buffer; [lia|]. apply (mapping_neutral _ _ l1 _ [_]); [by repeat constructor|done]. }
      right. unfold set_buffer, pmodify in *. cbn [fst snd] in Hm2.
      pose proof (unmap_failed_inv tight _ l2 i ltac:(lia) Hm2) as Hu.
      by destruct (unmap_failed i _ l2) as [u2 [s3 l3]].
Qed.

Lemma quiet_configure_isp c : quiet neutral (configure_isp heap c).
Proof.
  unfold configure_isp. destruct (Demosaic.initialize _ _ _) as [d r].
  destruct (ColorConv.initialize _ _ _) as [cv r']. quiet.
Qed.

Lemma quiet_rebuild c : quiet neutral (rebuild_gamma powf c).
Proof. unfold rebuild_gamma. quiet. Qed.

(** The part of [configure] after the mapping loop. *)
Lemma quiet_after_map c ret :
  quiet neutral
    (if negb (ret =? 0) then mret ret else
     ret ← (if enableISP c then configure_isp heap c else mret 0);
     if negb (ret =? 0) then mret ret else
     pmodify (fun s => set_awb (mAwbGains s) false s);; rebuild_gamma powf c;; mret 0).
Proof. quiet; apply quiet_configure_isp || apply quiet_rebuild. Qed.

(** What keeps the invariant keeps it up to an overflow. *)
Lemma sound_lift {A} tight (m : PM A) s l :
  grows m -> (pipeline_inv tight s l -> sound tight (m s l).2.1 (m s l).2.2) ->
  sound tight s l -> sound tight (m s l).2.1 (m s l).2.2.
Proof. intros Hg Hm [Ho|Hi]; [left; eapply overflow_prefix; [apply Hg|done]|by apply Hm]. Qed.

Lemma sound_quiet {A} tight (m : PM A) s l :
  quiet neutral m -> sound tight s l -> sound tight (m s l).2.1 (m s l).2.2.
Proof.
  intros Hm. apply sound_lift; [by eapply grows_quiet|]. intros Hi. right. by apply inv_quiet.
Qed.

Lemma sound_bind_quiet {A B} tight (m : PM A) (f : A -> PM B) s l :
  sound tight (m s l).2.1 (m s l).2.2 -> (forall a, quiet neutral (f a)) ->
  sound tight ((m ≫= f) s l).2.1 ((m ≫= f) s l).2.2.
Proof.
  intros H Hf. unfold mbind, PM_bind. destruct (m s l) as [a [s1 l1]].
  by apply (sound_quiet tight (f a)).
Qed.

(** What the mapping loop starts from. *)
Lemma mapping_start tight s l n :
  pipeline_inv tight s l -> (tight = true -> mBufferCount s = 0) -> mState s = PIPELINE_OPENED ->
  mapping tight (set_buffers (mBuffers s) n s) l 0.
Proof.
  intros [[] Hc (as_ & [])] Ht Ho. split; [by split|done|]. exists []. split; cbn; try done.
  - constructor.
  - by intros a ?%elem_of_nil.
  - intros Htt a Ha. specialize (Ht Htt). apply ho_tight0 in Ha; [|done].
    rewrite Ht in ho_start0. by destruct as_.
Qed.

Lemma configure_inv tight c s l :
  kernel_ok -> pipeline_inv tight s l -> (tight = true -> mBufferCount s = 0) ->
  sound tight (configure k powf heap c s l).2.1 (configure k powf heap c s l).2.2.
Proof.
  intros Hk Hinv Ht. unfold configure. rewrite bind_pget.
  case_bool_decide as Hst; [by right|].
  set (s1 := set_config c s). rewrite bind_modify. fold s1.
  assert (Hinv1 : forall n, Forall neutral n -> pipeline_inv tight s1 (l ++ n))
    by (intros n Hn; by apply (inv_frame tight s)).
  destruct (Z.ltb_spec (mFd s) 0) as [Hfd|Hfd].
  { right. cbn. rewrite <- (app_nil_r l). by apply Hinv1. }
  assert (Ho : mState s1 = PIPELINE_OPENED).
  { destruct Hinv as [[] _ _]. change (mState s1) with (mState s).
    destruct (mState s); [|done|done]. rewrite (proj1 di_closed0) in Hfd by done. lia. }
  rewrite bind_ioctl. destruct (k_ioctl k l _).
  { right. apply Hinv1. by repeat constructor. }
  set (l1 := l ++ _). rewrite bind_ioctl, bind_plog. destruct (k_ioctl k _ _).
  { right. unfold l1. cbn. rewrite <- app_assoc. apply Hinv1. by repeat constructor. }
  set (l2 := l1 ++ _). assert (Hinv2 : pipeline_inv tight s1 l2).
  { unfold l2, l1. rewrite <- app_assoc. apply Hinv1. by repeat constructor. }
  destruct (Z.ltb_spec (k_reqcount k l2) 2) as [Hc|Hc]; [by right|].
  rewrite bind_modify. apply sound_bind_quiet; [|apply quiet_after_map].
  apply map_buffers_inv; [done|lia|cbn; lia| |by apply mapping_start].
  exists l1, (mFd s1), []. by rewrite app_nil_r.
Qed.

Lemma quiet_qbufs n i : quiet neutral (qbuf_all k n i).
Proof. revert i; induction n as [|n IH]; intros i; cbn [qbuf_all]; quiet; apply IH. Qed.

Lemma qbufs_errno n i s l e :
  (qbuf_all k n i s l).1 = Some e -> exists l' r, k_ioctl k l' r = Some e.
Proof.
  revert i s l. induction n as [|n IH]; intros i s l H; [done|]. cbn [qbuf_all] in H.
  rewrite bind_ioctl in H. destruct (k_ioctl k l (QBUF i)) eqn:E; [|by apply IH in H].
  cbn in H. simplify_eq. eauto.
Qed.

(** Going from opened to streaming. *)
Lemma stream_inv tight s s' l n :
  mState s = PIPELINE_OPENED -> frame_of s' = frame_of s -> Forall neutral n ->
  pipeline_inv tight s l -> pipeline_inv tight (set_state PIPELINE_STREAMING true s') (l ++ n).
Proof.
  intros Ho Hf Hn Hinv. pose proof (inv_frame tight s s' l n Hf Hn Hinv) as [[] Hc Hh].
  assert (mState s' = mState s) as Hs by (unfold frame_of in Hf; congruence).
  split; [split|done|done]; cbn; try done.
  split; [done|]. intros H. apply di_closed0 in H. congruence.
Qed.

Lemma start_streaming_inv tight s l :
  pipeline_inv tight s l ->
  pipeline_inv tight (startStreaming k s l).2.1 (startStreaming k s l).2.2.
Proof.
  intros Hinv. unfold startStreaming. rewrite bind_pget.
  case_bool_decide as Hst; [cbn [negb]|done].
  destruct (quiet_qbufs (Z.to_nat (mBufferCount s)) 0 s l) as (Hf1 & n1 & Hl1 & Hn1).
  rewrite bind_run. destruct (qbuf_all _ _ _ s l) as [err [s1 l1]]. cbn [fst snd] in *.
  subst l1. destruct err; [by apply (inv_frame tight s)|].
  rewrite bind_ioctl, <- app_assoc. destruct (k_ioctl k _ _).
  { apply (inv_frame tight s); [done| |done]. apply Forall_app. split; [done|by repeat constructor]. }
  set (l2 := l ++ _).
  assert (Hq : quiet neutral (setExposure k (mCurrentExposure s);; s ← pget; setGain k (mCurrentGain s))).
  { quiet; (eapply quiet_mono; [apply control_neutral|]); apply quiet_setExposure || apply quiet_setGain. }
  destruct (Hq s1 l2) as (Hf2 & n2 & Hl2 & Hn2).
  unfold mbind, PM_bind, pget, pmodify, mret, PM_ret in Hf2, Hl2 |- *.
  destruct (setExposure k _ s1 l2) as [e1 [s2 l3]]. destruct (setGain k _ s2 l3) as [e2 [s3 l4]].
  cbn [fst snd] in *. subst l4. unfold l2. rewrite <- app_assoc.
  apply (stream_inv tight s); [done|congruence| |done].
  rewrite <- app_assoc. apply Forall_app. split; [done|]. by constructor.
Qed.

(** Starting keeps the count, and succeeds only by streaming. *)
Lemma start_frame s l :
  let r := startStreaming k s l in
  mBufferCount r.2.1 = mBufferCount s /\
  (r.1 = 0 -> (forall l r e, k_ioctl k l r = Some e -> 0 < e) -> mState r.2.1 = PIPELINE_STREAMING).
Proof.
  unfold startStreaming. rewrite bind_pget. case_bool_decide as Hst; [cbn [negb]|done].
  destruct (quiet_qbufs (Z.to_nat (mBufferCount s)) 0 s l) as (Hf1 & n1 & Hl1 & _).
  pose proof (qbufs_errno (Z.to_nat (mBufferCount s)) 0 s l) as He.
  rewrite bind_run. destruct (qbuf_all _ _ _ s l) as [err [s1 l1]]. cbn [fst snd] in *.
  assert (mBufferCount s1 = mBufferCount s) as Hc1 by (unfold frame_of in Hf1; congruence).
  destruct err as [e|].
  { split; [done|]. cbn. intros H0 Hpos. destruct (He e eq_refl) as (l2 & r & Hlr).
    apply Hpos in Hlr. lia. }
  rewrite bind_ioctl. destruct (k_ioctl k l1 STREAMON) as [e|] eqn:Es.
  { split; [done|]. cbn. intros H0 Hpos. apply Hpos in Es. lia. }
  set (l2 := l1 ++ _).
  assert (Hq : quiet neutral (setExposure k (mCurrentExposure s);; s ← pget; setGain k (mCurrentGain s))).
  { quiet; (eapply quiet_mono; [apply control_neutral|]); apply quiet_setExposure || apply quiet_setGain. }
  destruct (Hq s1 l2) as (Hf2 & _).
  unfold mbind, PM_bind, pget, pmodify, mret, PM_ret in Hf2 |- *.
  destruct (setExposure k _ s1 l2) as [e1 [s2 l3]]. destruct (setGain k _ s2 l3) as [e2 [s3 l4]].
  cbn [fst snd] in *. split; [|done]. cbn. unfold frame_of in Hf2. congruence.
Qed.

Lemma grows_run_op op : grows (run_op op).
Proof.
  destruct op; cbn [run_op]; unfold ignore; grows; first
    [ apply grows_open | apply grows_close | apply grows_configure | apply grows_start
    | apply grows_stop | by (eapply grows_quiet; (apply quiet_capture || apply quiet_setExposure ||
      apply quiet_setGain || apply quiet_getExposure || apply quiet_getGain || apply quiet_setFocus ||
      apply quiet_afscan || apply quiet_cancelAf)) ].
Qed.

(** Every operation preserves the invariant, up to an overflow. *)
Lemma run_op_inv tight op s l :
  kernel_ok -> pipeline_inv tight s l ->
  (tight = true -> match op with OpConfigure _ => mBufferCount s = 0 | _ => True end) ->
  sound tight (run_op op s l).2.1 (run_op op s l).2.2.
Proof.
  intros Hk Hinv Ht.
  assert (Hctl : forall A (m : PM A), quiet is_control m -> pipeline_inv tight (m s l).2.1 (m s l).2.2).
  { intros A m Hm. apply inv_quiet; [|done]. eapply quiet_mono; [apply control_neutral|done]. }
  destruct op; cbn [run_op]; try rewrite ignore_state; try (by apply configure_inv); right.
  - by apply open_inv.
  - by apply close_inv.
  - by apply start_streaming_inv.
  - by apply stop_inv.
  - apply inv_quiet; [apply quiet_capture|done].
  - apply Hctl, quiet_setExposure.
  - apply Hctl, quiet_setGain.
  - apply inv_quiet; [apply quiet_getExposure|done].
  - apply inv_quiet; [apply quiet_getGain|done].
  - apply Hctl, quiet_setFocus.
  - apply inv_quiet; [apply quiet_afscan|done].
  - apply inv_quiet; [apply quiet_cancelAf|done].
Qed.

Lemma run_ops_inv tight ops s l :
  kernel_ok -> sound tight s l -> (tight = true -> bracketed ops s l) ->
  sound tight (run_ops ops s l).2.1 (run_ops ops s l).2.2.
Proof.
  intros Hk. revert s l. induction ops as [|op ops IH]; intros s l Hinv Ht; [done|].
  assert (H1 : sound tight (run_op op s l).2.1 (run_op op s l).2.2).
  { apply sound_lift; [apply grows_run_op| |done]. intros Hi. apply run_op_inv; [done|done|].
    intros Htt. by destruct (Ht Htt). }
  assert (H2 : tight = true -> bracketed ops (run_op op s l).2.1 (run_op op s l).2.2).
  { intros Htt. by destruct (Ht Htt). }
  cbn [run_ops]. unfold mbind, PM_bind. destruct (run_op op s l) as [u [s1 l1]]. by apply IH.
Qed.

Lemma new_inv_at tight c lut l :
  log_res l = mk_res ∅ ∅ true -> pipeline_inv tight (new_pipeline c lut) l.
Proof.
  intros Hl. split; [split|..]; cbn; rewrite ?Hl; cbn; try done; [by left|].
  exists []. split; cbn; try done; [constructor|..]; try by intros a ?%elem_of_nil.
Qed.

Lemma new_inv tight c lut : pipeline_inv tight (new_pipeline c lut) [].
Proof. by apply new_inv_at. Qed.

(** [open] maps nothing. *)
Lemma open_count i s l : mBufferCount (open k i s l).2.1 = mBufferCount s.
Proof.
  unfold open. rewrite bind_pget. case_bool_decide; [|done]. cbn [negb].
  rewrite bind_plog, bind_modify. unfold mbind at 1, PM_bind at 1, pemit at 1.
  destruct (_ <? 0); [done|]. rewrite bind_ioctl. destruct (k_ioctl _ _ _); [done|].
  rewrite bind_plog. destruct (negb _ || negb _); [done|].
  by destruct (i =? 0).
Qed.
End LifeCycle.

(** What the invariant says of single buffers, and of a closed pipeline. *)
Lemma holds_lookup tight bs n as_ maps i :
  length bs = 4%nat -> n <= 4 -> holds tight bs n as_ maps -> Z.of_nat i < n ->
  exists a, (exists b, bs !! i = Some b /\ start b = Some a /\ Z.of_nat i < n) /\ a ∈ maps.
Proof.
  intros Hlen Hn [] Hi. destruct (lookup_lt_is_Some_2 bs i) as [b Hb]; [lia|].
  assert (Ht : (start <$> take (Z.to_nat n) bs) !! i = Some (start b)).
  { rewrite list_lookup_fmap, lookup_take_lt, Hb by lia. done. }
  rewrite ho_start0, list_lookup_fmap in Ht. destruct (as_ !! i) as [a|] eqn:Ea; [|done].
  injection Ht as Ht. exists a. split; [by exists b|]. apply ho_in0. by eapply list_elem_of_lookup_2.
Qed.

Lemma holds_held bs n as_ maps a :
  holds true bs n as_ maps -> a ∈ maps ->
  exists i b, bs !! i = Some b /\ start b = Some a /\ Z.of_nat i < n.
Proof.
  intros [] Ha. apply ho_tight0 in Ha; [|done]. apply list_elem_of_lookup_1 in Ha as [i Hi].
  assert (Ht : (start <$> take (Z.to_nat n) bs) !! i = Some (Some a)).
  { by rewrite ho_start0, list_lookup_fmap, Hi. }
  rewrite list_lookup_fmap in Ht. destruct (take _ bs !! i) as [b|] eqn:Eb; [|done].
  injection Ht as Ht. apply lookup_take_Some in Eb as [Hb Hlt]. exists i, b. split_and!; [done|done|lia].
Qed.

Lemma close_empties k s l :
  pipeline_inv true s l -> log_res (close k s l).2.2 = mk_res ∅ ∅ true.
Proof.
  intros Hinv. destruct (close_inv k (fun _ _ => 0) true s l Hinv) as ([[] _ (as_ & [])] & Hcl & Hc).
  destruct (log_res _) as [fds maps ok]. cbn [r_fds r_maps r_ok] in *.
  apply di_closed0 in Hcl. rewrite Hcl in di_fd0. rewrite Hc in ho_start0.
  destruct as_; [|done]. f_equal; [|apply set_eq|done].
  - by destruct di_fd0 as [[_ ?]|[? _]].
  - intros a. split; [|set_solver]. intros Ha. apply ho_tight0 in Ha; [|done]. by apply elem_of_nil in Ha.
Qed.

(** C16. Whatever the sequence of calls on a fresh pipeline, and however the device
    answers: either the driver has at some [configure] granted more than the four buffers
    the object has room for, and nothing was misused before the mapping loop wrote outside
    the array ([overflow]); or nothing was written outside it, every [close] and [munmap]
    names something open or mapped, the only open descriptor is [mFd], the state flags
    agree, and every buffer counted is mapped.  If each [configure] finds no buffer held,
    no other mapping is then live, and [close] returns everything. *)
Theorem pipeline_resources (k : kernel) (powf : f32 -> f32 -> f32) (heap : plog -> mem)
    (F1 F2 F3 : Z) (c : pipeline_config) (lut : mem) (ops : list pipeline_op) :
  kernel_ok k ->
  let r := (run_ops k powf heap F1 F2 F3 ops (new_pipeline c lut) []).2 in
  let held i a := exists b, mBuffers r.1 !! i = Some b /\ start b = Some a /\
                            Z.of_nat i < mBufferCount r.1 in
  overflow k r.2 \/
  r_ok (log_res r.2) = true /\ (forall i, PWild i ∉ r.2) /\
  (mStreaming r.1 = true <-> mState r.1 = PIPELINE_STREAMING) /\
  (mState r.1 = PIPELINE_CLOSED <-> mFd r.1 = -1) /\
  r_fds (log_res r.2) = (if bool_decide (mFd r.1 = -1) then ∅ else {[mFd r.1]}) /\
  (forall i, Z.of_nat i < mBufferCount r.1 -> exists a, held i a /\ a ∈ r_maps (log_res r.2)) /\
  (bracketed k powf heap F1 F2 F3 ops (new_pipeline c lut) [] ->
     (forall a, a ∈ r_maps (log_res r.2) -> exists i, held i a) /\
     log_res (close k r.1 r.2).2.2 = mk_res ∅ ∅ true).
Proof.
  intros Hk r held.
  assert (Hs : forall tight, (tight = true -> bracketed k powf heap F1 F2 F3 ops (new_pipeline c lut) []) ->
    sound k tight r.1 r.2) by (intros tight Hb; apply run_ops_inv; [done|right; apply new_inv|done]).
  destruct (Hs false) as [|Hinv]; [done|by left|].
  pose proof Hinv as [[] Hc (as_ & Hh)].
  assert (Hbounds : forall i, PWild i ∉ r.2) by (intros i Hi; apply wild_not_ok in Hi; congruence).
  right. split; [done|]. split; [done|]. split; [done|]. split; [done|].
  split; [|split].
  - destruct di_fd0 as [[-> ->]|[Hfd ->]]; [done|]. rewrite bool_decide_false by lia. done.
  - intros i Hi. by apply (holds_lookup false _ _ as_); [|lia|..].
  - intros Hb. destruct (Hs true ltac:(done)) as [Ho|Ht]; [by apply overflow_wild in Ho as [i []%Hbounds]|]. split.
    + destruct Ht as [_ Hc' (bs_ & Hh')]. intros a Ha. by apply (holds_held _ _ bs_ (r_maps (log_res r.2))).
    + by apply close_empties.
Qed.

(** A device that always answers, with fresh descriptors and addresses. *)
Definition top_of (l : plog) : Z :=
  fold_right (fun x m => match x with POpen _ n | PMap _ (Some n) => Z.max n m | _ => m end) 2 l.

Definition ready_kernel : kernel :=
  mk_kernel (fun l _ => top_of l + 1) (fun _ _ => None) (fun _ => true) (fun _ => true)
    (fun _ => 2) (fun _ _ => 1000) (fun l => Some (top_of l + 1)) (fun _ => Some (1, true))
    (fun _ => 5) (fun _ => (1, 20)) (fun _ _ => 0) (fun _ _ _ => 7).

Lemma top_of_app l x :
  top_of (l ++ [x]) = match x with POpen _ n | PMap _ (Some n) => Z.max n (top_of l) | _ => top_of l end.
Proof.
  unfold top_of. induction l as [|y l IH]; [by destruct x as [| | |? []| | | | |]|].
  cbn [app fold_right]. rewrite IH.
  destruct x as [| | |? []| | | | |]; [|done|done| |done..]; destruct y as [| | |? []| | | | |]; lia.
Qed.

Lemma top_of_bounds l :
  (forall fd, fd ∈ r_fds (log_res l) -> fd <= top_of l) /\
  (forall a, a ∈ r_maps (log_res l) -> a <= top_of l) /\ 2 <= top_of l.
Proof.
  induction l as [|x l (Hf & Hm & H2)] using rev_ind; [cbn; set_solver by lia|].
  rewrite log_res_app, top_of_app.
  destruct x as [p fd| | |len [a|]| | | | |]; cbn; [case_test|..]; cbn; split_and!; try done; try lia;
    intros b; set_unfold; try (intros [->|Hb]; [lia|]); try (intros [Hb _]); try intros Hb;
    first [apply Hf in Hb; lia | apply Hm in Hb; lia].
Qed.

Lemma ready_kernel_ok : kernel_ok ready_kernel.
Proof.
  split; cbn.
  - intros l _. right. destruct (top_of_bounds l) as (Hf & _ & H2). split; [lia|].
    intros H%Hf. lia.
  - intros l a [= <-] H. destruct (top_of_bounds l) as (_ & Hm & _). apply Hm in H. lia.
Qed.

Lemma ready_errnos_ok : errnos_ok ready_kernel.
Proof. by split. Qed.

Definition sample_config : pipeline_config :=
  mk_pconfig 4 2 0 0 0 0 false true 16 (f32_of_Z 1, f32_of_Z 1, f32_of_Z 1) (f32_of_Z 1)
    false false (f32_of_Z 100) (f32_of_Z 1).

Definition sample_ops : list pipeline_op :=
  [OpOpen 0; OpConfigure sample_config; OpStart; OpCapture (Some (fun _ => 0)) 35; OpStop;
   OpConfigure sample_config; OpStart].

Lemma pipeline_resources_witness :
  let r := (run_ops ready_kernel (fun x _ => x) (fun _ _ => 0) 35 1 34 sample_ops
              (new_pipeline sample_config (fun _ => 0)) []).2 in
  kernel_ok ready_kernel /\ mState r.1 = PIPELINE_STREAMING /\ mBufferCount r.1 = 2 /\
  log_res (close ready_kernel r.1 r.2).2.2 = mk_res ∅ ∅ true.
Proof.
  split; [apply ready_kernel_ok|]. split; [vm_compute; reflexivity|].
  split; [vm_compute; reflexivity|].
  destruct (pipeline_resources ready_kernel (fun x _ => x) (fun _ _ => 0) 35 1 34 sample_config
           (fun _ => 0) sample_ops ready_kernel_ok) as [Ho|(_ & _ & _ & _ & _ & _ & H)].
  - destruct Ho as (l0 & fd & l1 & i & l2 & _ & H4 & _). discriminate H4.
  - apply H. vm_compute. repeat (split; [exact I || reflexivity|]). exact I.
Defined.

(** A driver that grants five buffers, as V4L2 lets it: the loop writes [mBuffers[4]]. *)
Definition generous_kernel : kernel :=
  mk_kernel (k_open ready_kernel) (k_ioctl ready_kernel) (k_capture ready_kernel)
    (k_streaming ready_kernel) (fun _ => 5) (k_buflen ready_kernel) (k_mmap ready_kernel)
    (k_poll ready_kernel) (k_errno ready_kernel) (k_dqbuf ready_kernel) (k_control ready_kernel)
    (k_frame ready_kernel).

Example five_buffers_overflow :
  let r := (run_ops generous_kernel (fun x _ => x) (fun _ _ => 0) 35 1 34
              [OpOpen 0; OpConfigure sample_config] (new_pipeline sample_config (fun _ => 0)) []).2 in
  kernel_ok generous_kernel /\ PWild 4 ∈ r.2.
Proof.
  split; [split; apply ready_kernel_ok|].
  apply list_elem_of_lookup. exists 13%nat. vm_compute. reflexivity.
Qed.

(** A lens sharpest at 360. *)
Definition sharp_kernel : kernel :=
  mk_kernel (k_open ready_kernel) (k_ioctl ready_kernel) (k_capture ready_kernel)
    (k_streaming ready_kernel) (k_reqcount ready_kernel) (k_buflen ready_kernel) (k_mmap ready_kernel)
    (k_poll ready_kernel) (k_errno ready_kernel) (k_dqbuf ready_kernel) (k_control ready_kernel)
    (fun l _ j => if (j / 4) mod 2 =? 0
                  then Z.max 0 (255 - Z.abs (default 0 (last (focus_writes l)) - 360)) else 0).

Definition scan_config : pipeline_config :=
  mk_pconfig 8 6 0 0 0 0 false true 16 (f32_of_Z 1, f32_of_Z 1, f32_of_Z 1) (f32_of_Z 1)
    false false (f32_of_Z 100) (f32_of_Z 1).

Definition scan_start : pipeline * plog :=
  (run_ops sharp_kernel (fun x _ => x) (fun _ _ => 0) 35 1 34
     [OpOpen 0; OpConfigure scan_config; OpStart] (new_pipeline scan_config (fun _ => 0)) []).2.

Definition scan_end : pipeline * plog :=
  (startAfScan sharp_kernel (fun x _ => x) scan_start.1 scan_start.2).2.

Lemma af_scan_locks_best_witness :
  mState scan_start.1 = PIPELINE_STREAMING /\ mFocusPosition scan_end.1 = 360 /\
  focus_writes scan_end.2 =
    [140; 190; 240; 290; 340; 390; 440; 490; 540; 590; 640;
     290; 300; 310; 320; 330; 350; 360; 370; 380; 390; 360] /\
  exists nc nb nf nl, scan_end.2 = scan_start.2 ++ nc ++ nb ++ nf ++ nl /\
    focus_writes nc = [140; 190; 240; 290; 340; 390; 440; 490; 540; 590; 640].
Proof.
  assert (Hst : mState scan_start.1 = PIPELINE_STREAMING) by (vm_compute; reflexivity).
  split; [exact Hst|]. split; [vm_compute; reflexivity|]. split; [vm_compute; reflexivity|].
  destruct (proj2 (af_scan_locks_best sharp_kernel (fun x _ => x) scan_start.1 scan_start.2) Hst)
    as (nc & nb & nf & nl & H). exists nc, nb, nf, nl.
  destruct (running_best (measured (nc ++ nb ++ nf))) as [e pos].
  exact (conj (proj1 H) (proj1 (proj2 (proj2 H)))).
Defined.
