(* ===== verification/InFlightTracker.v ===== *)
(** * The tracker of requests in flight

    Models [camera/InFlightTracker.h]: an ordered map from frame numbers to requests.
    Every operation holds the tracker's mutex for its whole body. *)

From S2P Require Import Prelude.

Record in_flight := mk_in_flight { outputBuffer : Z; markedError : bool }.

Abbreviation tracker := (gmap Z in_flight).

Definition add (t : tracker) (frameNumber buffer : Z) : tracker :=
  <[frameNumber := mk_in_flight buffer false]> t.

Definition remove (t : tracker) (frameNumber : Z) : tracker * bool :=
  (delete frameNumber t, bool_decide (is_Some (t !! frameNumber))).

Definition markAllAsError (t : tracker) : tracker :=
  (fun r => mk_in_flight (outputBuffer r) true) <$> t.

Definition isError (t : tracker) (frameNumber : Z) : bool :=
  match t !! frameNumber with Some r => markedError r | None => false end.

Definition count (t : tracker) : Z := Z.of_nat (size t).

(** The frames, in the map's order, and the empty tracker. *)
Definition drainAll (t : tracker) : list Z * tracker :=
  (merge_sort Z.le (elements (dom t)), ∅).
