(* ===== verification/CameraHal.v ===== *)
(** * The camera HAL3 device

    Models [camera/MochaCameraHAL.cpp]: opening and closing the device, stream
    configuration, capture requests, autofocus triggers and flush, over the pipeline of
    [Pipeline] and the tracker of [InFlightTracker].  The calls come one at a time, as
    the camera service makes them apart from [flush].  The bytes a request leaves in its
    buffer are not followed further than [captureFrame]'s.  A null dereference is the result
    [None].  The platform's constants, gralloc and the JPEG encoder are arguments.  Not
    modelled: the static and default metadata, which are tables, and [output_stream],
    which is stored and never read. *)

From S2P Require Import Prelude.
From S2P Require Import Neon.
From S2P Require Import Float32.
From S2P Require Import PipelineImage.
From S2P Require Import Pipeline.
From S2P Require Import InFlightTracker.

Definition ENOSYS : Z := 38.

(** Constants of [system/graphics.h], [camera_metadata_tags.h] and [videodev2.h]. *)
Record platform := mk_platform {
  BLOB : Z; RGBA_8888 : Z; IMPLEMENTATION_DEFINED : Z; YCBCR_420_888 : Z;
  AF_MODE_AUTO : Z; AF_MODE_CONTINUOUS_PICTURE : Z;
  AF_TRIGGER_IDLE : Z; AF_TRIGGER_START : Z; AF_TRIGGER_CANCEL : Z;
  PIX_FMT_SRGGB10 : Z; PIX_FMT_SBGGR10 : Z;
}.

Record stream := mk_stream {
  is_output : bool; s_width : Z; s_height : Z; s_format : Z; max_buffers : Z;
}.

(** The framework's callbacks; [notify] may be missing. *)
Record callbacks := mk_callbacks { has_notify : bool }.

Record hal_dev := mk_dev {
  camera_id : Z;
  callback_ops : option callbacks;
  is_initialized : bool;
  streams_configured : bool;
  d_pipeline : option pipeline;
  inflight : tracker;
  pipeline_width : Z; pipeline_height : Z;
  last_width : Z; last_height : Z;
  temp_rgba : option mem;
  temp_rgba_size : Z;
  af_mode : Z; af_trigger : Z; af_trigger_handled : bool;
}.

Inductive lens_state := STATIONARY | MOVING.

(** The entries of a result that vary. *)
Record result_metadata := mk_metadata {
  md_requestId : Z; md_timestamp : Z; md_exposureNs : Z; md_sensitivity : Z;
  md_lens : lens_state; md_focusDistance : f32;
}.

(** What the framework and gralloc see: notifications, results (the status is that of
    the buffer, if one is returned), locks, and acquire fences closed. *)
Inductive hal_event :=
| Shutter (frame timestamp : Z)
| ErrorDevice (frame : Z)
| CaptureResult (frame : Z) (status : option bool) (meta : option result_metadata)
| Lock | Unlock
| JpegBlob (size : Z)                       (* the trailer written behind a JPEG *)
| CloseFence (fd : Z).

(** A capture request: its settings carry the autofocus mode and trigger, if any. *)
Record request := mk_request {
  frame_number : Z;
  num_output_buffers : Z;
  has_buffers : bool;                       (* [output_buffers] is not null *)
  settings : option (option Z * option Z);
  buffer : option Z;                        (* the handle of the first buffer *)
  acquire_fence : Z;
  b_stream : stream;
}.

(** What the platform answers during a request. *)
Record answers := mk_answers {
  a_gralloc : bool;                         (* the gralloc module is found *)
  a_lock : bool;                            (* the lock succeeds with an address *)
  a_mem : mem;                              (* the buffer behind it *)
  a_malloc : option mem;
  a_jpeg : mem -> Z * Z;                    (* the encoder's status and size *)
  a_time : Z;                               (* the clock at the end, in ns *)
  a_metadata : bool;                        (* allocating metadata succeeds *)
}.

(** ** State and effects *)

Definition HM (A : Type) : Type :=
  hal_dev -> plog -> list hal_event -> option (A * (hal_dev * plog * list hal_event)).
#[export] Instance HM_ret : MRet HM := fun A a d l h => Some (a, (d, l, h)).
#[export] Instance HM_bind : MBind HM := fun A B f m d l h =>
  match m d l h with Some (a, (d', l', h')) => f a d' l' h' | None => None end.

Definition hget : HM hal_dev := fun d l h => Some (d, (d, l, h)).
Definition hmodify (f : hal_dev -> hal_dev) : HM unit := fun d l h => Some (tt, (f d, l, h)).
Definition hemit (x : hal_event) : HM unit := fun d l h => Some (tt, (d, l, h ++ [x])).
Definition hskip : HM unit := mret tt.
Definition crash {A} : HM A := fun _ _ _ => None.

Definition set_pipeline (p : option pipeline) (d : hal_dev) : hal_dev :=
  mk_dev (camera_id d) (callback_ops d) (is_initialized d) (streams_configured d) p (inflight d)
    (pipeline_width d) (pipeline_height d) (last_width d) (last_height d) (temp_rgba d)
    (temp_rgba_size d) (af_mode d) (af_trigger d) (af_trigger_handled d).
Definition set_inflight (t : tracker) (d : hal_dev) : hal_dev :=
  mk_dev (camera_id d) (callback_ops d) (is_initialized d) (streams_configured d) (d_pipeline d) t
    (pipeline_width d) (pipeline_height d) (last_width d) (last_height d) (temp_rgba d)
    (temp_rgba_size d) (af_mode d) (af_trigger d) (af_trigger_handled d).
Definition set_temp (m : option mem) (n : Z) (d : hal_dev) : hal_dev :=
  mk_dev (camera_id d) (callback_ops d) (is_initialized d) (streams_configured d) (d_pipeline d)
    (inflight d) (pipeline_width d) (pipeline_height d) (last_width d) (last_height d) m n
    (af_mode d) (af_trigger d) (af_trigger_handled d).
Definition set_af_fields (mode trigger : Z) (handled : bool) (d : hal_dev) : hal_dev :=
  mk_dev (camera_id d) (callback_ops d) (is_initialized d) (streams_configured d) (d_pipeline d)
    (inflight d) (pipeline_width d) (pipeline_height d) (last_width d) (last_height d) (temp_rgba d)
    (temp_rgba_size d) mode trigger handled.
Definition set_configured (p : pipeline) (w h : Z) (d : hal_dev) : hal_dev :=
  mk_dev (camera_id d) (callback_ops d) (is_initialized d) true (Some p) (inflight d)
    w h w h (temp_rgba d) (temp_rgba_size d) (af_mode d) (af_trigger d) (af_trigger_handled d).
Definition set_callbacks (c : callbacks) (d : hal_dev) : hal_dev :=
  mk_dev (camera_id d) (Some c) true (streams_configured d) (d_pipeline d)
    (inflight d) (pipeline_width d) (pipeline_height d) (last_width d) (last_height d) (temp_rgba d)
    (temp_rgba_size d) (af_mode d) (af_trigger d) (af_trigger_handled d).

(** Runs a pipeline operation on the device's pipeline, a null one crashes. *)
Definition on_pipeline {A} (m : PM A) : HM A := fun d l h =>
  match d_pipeline d with
  | Some p => let '(a, (p', l')) := m p l in Some (a, (set_pipeline (Some p') d, l', h))
  | None => None
  end.

Section Hal.
Variable P : platform.
Variable k : kernel.
Variable powf : f32 -> f32 -> f32.
Variable heap : plog -> mem.
(** What [new CameraPipeline] leaves uninitialised. *)
Variable config0 : pipeline_config.
Variable lut0 : mem.

(** ** Opening and closing the device *)

(** [camera_device_init]; [openCamera] then stores the camera's number. *)
Definition camera_device_init (id : Z) : hal_dev :=
  mk_dev id None false false None ∅ 0 0 0 0 None 0 (AF_MODE_AUTO P) (AF_TRIGGER_IDLE P) false.

(** [close] and [delete], whose destructor closes again. *)
Definition delete_pipeline (p : pipeline) (l : plog) : plog :=
  let '(_, (p, l)) := Pipeline.close k p l in (Pipeline.close k p l).2.2.

(** The device is gone afterwards; what remains is the system's log. *)
Definition camera_device_close (d : hal_dev) (l : plog) : Z * plog :=
  (0, match d_pipeline d with Some p => delete_pipeline p l | None => l end).

Definition camera_device_initialize (ops : option callbacks) : HM Z :=
  match ops with
  | None => mret (- EINVAL)
  | Some c => hmodify (set_callbacks c);; mret 0
  end.

(** ** Stream configuration *)

(** The state of the selection loop: the pipeline, the output and the RGBA stream. *)
Definition choice : Type := option stream * option stream * option stream.

Definition choose (c : choice) (s : stream) : choice :=
  let '(pipelineStream, _, rgbaStream) := c in
  match pipelineStream with
  | None =>
      if s_format s =? BLOB P then (pipelineStream, Some s, rgbaStream)
      else if s_format s =? RGBA_8888 P then (Some s, Some s, Some s)
      else match rgbaStream with
           | None => if s_format s =? IMPLEMENTATION_DEFINED P
                     then (None, Some s, Some s) else (Some s, Some s, rgbaStream)
           | Some _ => (Some s, Some s, rgbaStream)
           end
  | Some _ => (pipelineStream, Some s, rgbaStream)
  end.

Definition count_buffers (s : stream) : stream :=
  if is_output s then mk_stream true (s_width s) (s_height s) (s_format s) 2 else s.

(** The loop: output streams get their buffer count; a stream without extent ends it. *)
Fixpoint choose_all (c : choice) (ss : list stream) : option choice * list stream :=
  match ss with
  | [] => (Some c, [])
  | s :: ss' =>
      if (s_width s =? 0) || (s_height s =? 0) then (None, ss)
      else
        let '(r, ss') := choose_all (if is_output s then choose c (count_buffers s) else c) ss' in
        (r, count_buffers s :: ss')
  end.

(** The pipeline's stream, [None] when null. *)
Definition pipeline_stream (c : choice) : option stream :=
  let '(pipelineStream, _, rgbaStream) := c in
  match rgbaStream with Some _ => rgbaStream | None => pipelineStream end.

(** The implementation-defined format becomes RGBA. *)
Definition override_format (s : stream) : stream :=
  if is_output s && (s_format s =? IMPLEMENTATION_DEFINED P)
  then mk_stream true (s_width s) (s_height s) (RGBA_8888 P) (max_buffers s) else s.

Definition hal_config (id w h : Z) : pipeline_config :=
  mk_pconfig w h (if id =? 0 then PIX_FMT_SRGGB10 P else PIX_FMT_SBGGR10 P) 3 0 0 false true 0
    (f32_of_Z 1, f32_of_Z 1, f32_of_Z 1) (f32_lit 55 100) true true (f32_lit 55 100) (f32_of_Z 6).

(** Error results for the requests still tracked. *)
Fixpoint fail_frames (frames : list Z) : HM unit :=
  match frames with
  | [] => hskip
  | f :: frames =>
      d ← hget;
      match callback_ops d with
      | None => crash
      | Some _ => hemit (CaptureResult f None None);; fail_frames frames
      end
  end.

Definition drain_requests : HM unit :=
  d ← hget;
  if 0 <? count (inflight d) then
    let '(frames, t) := drainAll (inflight d) in
    hmodify (set_inflight t);; fail_frames frames
  else hskip.

Definition close_previous : HM unit := fun d l h =>
  match d_pipeline d with
  | Some p => Some (tt, (set_pipeline None d, delete_pipeline p l, h))
  | None => Some (tt, (d, l, h))
  end.

(** A new pipeline, opened, configured and started, or the error; the flag says whether
    it could be opened. *)
Definition start_pipeline (id w h : Z) (l : plog) : Z * bool * option pipeline * plog :=
  let '(ret, (p, l)) := Pipeline.open k id (new_pipeline config0 lut0) l in
  if negb (ret =? 0) then (- ENODEV, false, None, (Pipeline.close k p l).2.2) else
  let '(ret, (p, l)) := configure k powf heap (hal_config id w h) p l in
  if negb (ret =? 0) then (ret, true, None, delete_pipeline p l) else
  let '(ret, (p, l)) := startStreaming k p l in
  if negb (ret =? 0) then (ret, true, None, delete_pipeline p l) else (0, true, Some p, l).

Definition new_configuration (w h : Z) (ss : list stream) : HM (Z * list stream) := fun d l e =>
  let '(ret, opened, p, l) := start_pipeline (camera_id d) w h l in
  let ss := if opened then override_format <$> ss else ss in
  match p with
  | Some p => Some ((ret, ss), (set_configured p w h d, l, e))
  | None => Some ((ret, ss), (d, l, e))
  end.

Definition streaming (d : hal_dev) : bool :=
  match d_pipeline d with
  | Some p => bool_decide (mState p = PIPELINE_STREAMING)
  | None => false
  end.

(** The status and the streams, which the call updates. *)
Definition camera_device_configure_streams (ss : list stream) : HM (Z * list stream) :=
  if (zlen ss =? 0) || (20 <? zlen ss) then mret (- EINVAL, ss) else
  match choose_all (None, None, None) ss with
  | (None, ss) => mret (- EINVAL, ss)
  | (Some c, ss) =>
      match pipeline_stream c with
      | None => crash
      | Some s =>
          d ← hget;
          if (last_width d =? s_width s) && (last_height d =? s_height s) &&
             streams_configured d && streaming d
          then mret (0, ss) else
          drain_requests;; close_previous;; new_configuration (s_width s) (s_height s) ss
      end
  end.

(** ** Capture requests *)

Definition untrack (f : Z) : HM unit := hmodify (fun d => set_inflight (InFlightTracker.remove (inflight d) f).1 d).

Definition apply_settings (r : request) : HM unit :=
  match settings r with
  | None => hskip
  | Some (mode, trigger) =>
      hmodify (fun d => set_af_fields (default (af_mode d) mode) (default (af_trigger d) trigger)
                          (af_trigger_handled d) d)
  end.

Definition autofocus : HM unit :=
  d ← hget;
  match d_pipeline d with
  | None => hskip
  | Some _ =>
      if (af_mode d =? AF_MODE_AUTO P) || (af_mode d =? AF_MODE_CONTINUOUS_PICTURE P) then
        if (af_trigger d =? AF_TRIGGER_START P) && negb (af_trigger_handled d) then
          on_pipeline (startAfScan k powf);;
          hmodify (fun d => set_af_fields (af_mode d) (af_trigger d) true d)
        else if af_trigger d =? AF_TRIGGER_CANCEL P then
          on_pipeline (cancelAf k);;
          hmodify (fun d => set_af_fields (af_mode d) (af_trigger d) false d)
        else hskip
      else hskip
  end.

Definition capture (out : option mem) (format : Z) : HM (Z * option mem) :=
  on_pipeline (captureFrame k powf (YCBCR_420_888 P) (RGBA_8888 P) (IMPLEMENTATION_DEFINED P) out format).

(** How the capture part of a request ends: the request returns, or goes on. *)
Inductive capture_end := Return (ret : Z) | Captured (ok : bool).

(** A JPEG: captured into the scratch buffer, encoded into the locked one. *)
Definition capture_blob (r : request) (e : answers) : HM capture_end :=
  d ← hget;
  let rgbaSize := wrap_u32 (pipeline_width d * pipeline_height d * 4) in
  (if negb (bool_decide (is_Some (temp_rgba d))) || (temp_rgba_size d <? rgbaSize)
   then hmodify (set_temp (a_malloc e) rgbaSize) else hskip);;
  d ← hget;
  match temp_rgba d with
  | None => mret (Captured false)
  | Some tmp =>
      '(captureRet, tmp) ← capture (Some tmp) (RGBA_8888 P);
      hmodify (fun d => set_temp tmp (temp_rgba_size d) d);;
      if captureRet =? 0 then
        if a_lock e then
          hemit Lock;;
          let '(ret, jpegSize) := a_jpeg e (default (fun _ => 0) tmp) in
          let ok := (ret =? 0) && (0 <? jpegSize) in
          (if ok then hemit (JpegBlob jpegSize) else hskip);;
          hemit Unlock;; mret (Captured ok)
        else mret (Captured false)
      else if captureRet =? - EAGAIN then untrack (frame_number r);; mret (Return (- EAGAIN))
      else mret (Captured false)
  end.

(** Any other format: captured into the locked buffer. *)
Definition capture_locked (r : request) (e : answers) : HM capture_end :=
  if a_lock e then
    hemit Lock;;
    '(captureRet, _) ← capture (Some (a_mem e)) (s_format (b_stream r));
    if captureRet =? 0 then hemit Unlock;; mret (Captured true)
    else if captureRet =? - EAGAIN then
      hemit Unlock;; untrack (frame_number r);; mret (Return (- EAGAIN))
    else hemit Unlock;; mret (Captured false)
  else mret (Captured false).

Definition capture_buffer (r : request) (e : answers) : HM capture_end :=
  if negb (a_gralloc e) then mret (Captured false)
  else if s_format (b_stream r) =? BLOB P then capture_blob r e
  else capture_locked r e.

(** Restarts a pipeline [flush] has stopped, then captures. *)
Definition capture_request (r : request) (e : answers) : HM capture_end :=
  d ← hget;
  match d_pipeline d with
  | Some p =>
      if negb (streams_configured d) then mret (Captured false)
      else if bool_decide (mState p = PIPELINE_OPENED) then
        restartRet ← on_pipeline (startStreaming k);
        if negb (restartRet =? 0) then untrack (frame_number r);; mret (Return (- ENODEV))
        else capture_buffer r e
      else capture_buffer r e
  | None => mret (Captured false)
  end.

Definition build_result_metadata (frameNumber timestamp exposureVal sensitivity afState focusPos : Z)
  : result_metadata :=
  mk_metadata (wrap_s32 frameNumber) timestamp (exposureVal * 1000) sensitivity
    (if afState =? 1 then MOVING else STATIONARY)
    (if 0 <? focusPos
     then f32_div (f32_mul (f32_of_Z 10) (f32_of_Z focusPos)) (f32_of_Z 1023) else f32_of_Z 0).

Definition notify (x : hal_event) : HM unit :=
  d ← hget;
  match callback_ops d with
  | Some c => if has_notify c then hemit x else hskip
  | None => hskip
  end.

(** The sensor values of a result's metadata. *)
Definition result_meta (r : request) (e : answers) : HM (option result_metadata) :=
  d ← hget;
  '(exposure, sensitivity, af, focus) ←
    match d_pipeline d with
    | None => mret (2400, 128, 0, 0)
    | Some _ =>
        exposure ← on_pipeline (getExposure k);
        sensitivity ← on_pipeline (getGain k);
        d ← hget;
        mret (exposure, sensitivity, from_option mAfState 0 (d_pipeline d),
              from_option mFocusPosition 0 (d_pipeline d))
    end;
  mret (if a_metadata e
        then Some (build_result_metadata (frame_number r) (a_time e) exposure sensitivity af focus)
        else None).

(** The result callbacks. *)
Definition complete_request (r : request) (e : answers) (frameCaptured : bool) : HM Z :=
  let f := frame_number r in
  d ← hget;
  let frameFlushed := isError (inflight d) f in
  untrack f;;
  (if frameCaptured then notify (Shutter f (a_time e)) else hskip);;
  (if frameFlushed then hskip
   else if negb frameCaptured then notify (ErrorDevice f) else hskip);;
  meta ← (if frameCaptured && negb frameFlushed then result_meta r e else mret None);
  hemit (CaptureResult f (Some (frameCaptured && negb frameFlushed)) meta);;
  mret 0.

Definition camera_device_process_capture_request (r : request) (e : answers) : HM Z :=
  let f := frame_number r in
  d ← hget;
  if negb (is_initialized d) || negb (bool_decide (is_Some (callback_ops d))) then mret (- ENOSYS)
  else if (num_output_buffers r <? 1) || negb (has_buffers r) then mret (- EINVAL)
  else if isError (inflight d) f then untrack f;; mret (- EAGAIN)
  else
    hmodify (fun d => set_inflight (add (inflight d) f (default 0 (buffer r))) d);;
    apply_settings r;;
    autofocus;;
    match buffer r with
    | None => untrack f;; mret (- EINVAL)
    | Some _ =>
        (if 0 <=? acquire_fence r then hemit (CloseFence (acquire_fence r)) else hskip);;
        res ← capture_request r e;
        match res with
        | Return ret => mret ret
        | Captured ok => complete_request r e ok
        end
    end.

(** ** Flush *)

Definition camera_device_flush : HM Z :=
  d ← hget;
  (match d_pipeline d with
   | Some _ => if streams_configured d then on_pipeline (stopStreaming k);; hskip else hskip
   | None => hskip
   end);;
  hmodify (fun d => set_inflight (drainAll (markAllAsError (inflight d))).2 d);;
  mret 0.

(** ** Sequences of calls *)

Inductive hal_call :=
| Initialize (ops : option callbacks)
| ConfigureStreams (ss : list stream)
| ProcessCaptureRequest (r : request) (e : answers)
| Flush.

Definition run_call (c : hal_call) : HM Z :=
  match c with
  | Initialize ops => camera_device_initialize ops
  | ConfigureStreams ss => '(ret, _) ← camera_device_configure_streams ss; mret ret
  | ProcessCaptureRequest r e => camera_device_process_capture_request r e
  | Flush => camera_device_flush
  end.

Fixpoint run_calls (cs : list hal_call) : HM unit :=
  match cs with [] => hskip | c :: cs => run_call c;; run_calls cs end.
End Hal.

(** ** Weakest preconditions *)

Definition wp {A} (m : HM A) (Q : A -> hal_dev -> plog -> list hal_event -> Prop)
    (d : hal_dev) (l : plog) (h : list hal_event) : Prop :=
  match m d l h with Some (a, (d', l', h')) => Q a d' l' h' | None => False end.

Section Wp.
Implicit Types (d : hal_dev) (l : plog) (h : list hal_event).

Lemma wp_ret {A} (a : A) Q d l h : Q a d l h -> wp (mret a) Q d l h.
Proof. done. Qed.
Lemma wp_bind {A B} (m : HM A) (f : A -> HM B) Q d l h :
  wp m (fun a d l h => wp (f a) Q d l h) d l h -> wp (m ≫= f) Q d l h.
Proof.
  unfold wp, mbind, HM_bind. by destruct (m d l h) as [[a [[d' l'] h']]|].
Qed.
Lemma wp_mono {A} (m : HM A) (Q R : A -> hal_dev -> plog -> list hal_event -> Prop) d l h :
  wp m Q d l h -> (forall a d l h, Q a d l h -> R a d l h) -> wp m R d l h.
Proof. unfold wp. destruct (m d l h) as [[a [[d' l'] h']]|]; auto. Qed.
Lemma wp_hget Q d l h : Q d d l h -> wp hget Q d l h.
Proof. done. Qed.
Lemma wp_hmodify f (Q : unit -> _) d l h : Q tt (f d) l h -> wp (hmodify f) Q d l h.
Proof. done. Qed.
Lemma wp_hemit x (Q : unit -> _) d l h : Q tt d l (h ++ [x]) -> wp (hemit x) Q d l h.
Proof. done. Qed.
Lemma wp_hskip (Q : unit -> _) d l h : Q tt d l h -> wp hskip Q d l h.
Proof. done. Qed.
Lemma wp_on {A} (m : PM A) Q d l h p :
  d_pipeline d = Some p ->
  Q (m p l).1 (set_pipeline (Some (m p l).2.1) d) (m p l).2.2 h -> wp (on_pipeline m) Q d l h.
Proof. intros Hp. unfold wp, on_pipeline. rewrite Hp. by destruct (m p l) as [a [p' l']]. Qed.
End Wp.

Ltac wp_step :=
  lazymatch goal with
  | |- wp (mret _) _ _ _ _ => apply wp_ret
  | |- wp (_ ≫= _) _ _ _ _ => apply wp_bind
  | |- wp hget _ _ _ _ => apply wp_hget
  | |- wp (hmodify _) _ _ _ _ => apply wp_hmodify
  | |- wp (hemit _) _ _ _ _ => apply wp_hemit
  | |- wp hskip _ _ _ _ => apply wp_hskip
  end.
Ltac wps := repeat wp_step.

(** ** What a request relies on about the pipeline *)

(** [Φ] is preserved by the operations a request uses, and [C] holds of the status of a
    capture. *)
Class PipelineUse (k : kernel) (Φ : pipeline -> plog -> Prop) (C : Z -> Prop) : Prop := {
  use_quiet : forall A (m : PM A) p l,
    quiet neutral m -> Φ p l -> Φ (m p l).2.1 (m p l).2.2;
  use_start : forall p l, mState p = PIPELINE_OPENED -> Φ p l ->
    Φ (startStreaming k p l).2.1 (startStreaming k p l).2.2;
  use_capture : forall powf F1 F2 F3 p l out f, Φ p l -> C (captureFrame k powf F1 F2 F3 (Some out) f p l).1.1;
}.

Section Request.
Variable P : platform.
Variable k : kernel.
Variable powf : f32 -> f32 -> f32.
Variable Φ : pipeline -> plog -> Prop.
Variable Φ0 : plog -> Prop.
Variable C : Z -> Prop.
Context {USE : PipelineUse k Φ C}.

Definition owns (d : hal_dev) (l : plog) : Prop :=
  match d_pipeline d with Some p => Φ p l | None => Φ0 l end.

(** What a request leaves alone. *)
Definition same_dev (d d' : hal_dev) : Prop :=
  callback_ops d' = callback_ops d /\ is_initialized d' = is_initialized d /\
  streams_configured d' = streams_configured d /\
  (is_Some (d_pipeline d') <-> is_Some (d_pipeline d)) /\ camera_id d' = camera_id d.

Lemma same_refl d : same_dev d d.
Proof. done. Qed.
Lemma same_trans d1 d2 d3 : same_dev d1 d2 -> same_dev d2 d3 -> same_dev d1 d3.
Proof. unfold same_dev. intuition congruence. Qed.


Lemma wp_quiet {A} (m : PM A) (Q : A -> hal_dev -> plog -> list hal_event -> Prop) d l h p :
  quiet neutral m -> d_pipeline d = Some p -> owns d l ->
  (forall a p' l', owns (set_pipeline (Some p') d) l' -> Q a (set_pipeline (Some p') d) l' h) ->
  wp (on_pipeline m) Q d l h.
Proof.
  intros Hm Hp Ho HQ. eapply wp_on; [done|]. apply HQ. unfold owns in *. rewrite Hp in Ho.
  by apply use_quiet.
Qed.
Lemma same_pipeline d p p' : d_pipeline d = Some p -> same_dev d (set_pipeline (Some p') d).
Proof. intros Hp. unfold same_dev. cbn. rewrite Hp. split_and!; try done; intros _; by eexists. Qed.

Lemma owns_ext d d' l : d_pipeline d' = d_pipeline d -> owns d l -> owns d' l.
Proof. unfold owns. by intros ->. Qed.

(** The autofocus part changes nothing but the pipeline and the autofocus fields. *)
Lemma autofocus_spec d l h :
  owns d l ->
  wp (autofocus P k powf) (fun _ d' l' h' =>
    owns d' l' /\ same_dev d d' /\ inflight d' = inflight d /\ h' = h) d l h.
Proof.
  intros Ho. unfold autofocus. wps. destruct (d_pipeline d) as [p|] eqn:Hp; [|by wps].
  assert (Hrun : forall A (m : PM A) trigger handled, quiet neutral m ->
    wp (on_pipeline m;; hmodify (fun d => set_af_fields (af_mode d) (trigger d) handled d))
      (fun _ d' l' h' => owns d' l' /\ same_dev d d' /\ inflight d' = inflight d /\ h' = h) d l h).
  { intros A m tr hd Hm. wps. eapply (wp_quiet m); [done|exact Hp|done|].
    intros a p' l' Ho'. wps. split; [done|]. split; [|done]. eapply same_trans; [by apply (same_pipeline d p p')|done]. }
  case_tests; try by wps.
  - apply (Hrun _ (startAfScan k powf) af_trigger). apply quiet_afscan.
  - apply (Hrun _ (cancelAf k) af_trigger). apply quiet_cancelAf.
Qed.

(** The locks taken for a capture are released. *)
Definition locked_events (n : list hal_event) : Prop :=
  n = [] \/ n = [Lock; Unlock] \/ exists size, n = [Lock; JpegBlob size; Unlock].

(** How the capture part of a request ends. *)
Record capture_post (r : request) (d : hal_dev) (h : list hal_event) (res : capture_end)
    (d' : hal_dev) (l' : plog) (h' : list hal_event) : Prop := {
  cp_owns : owns d' l';
  cp_same : same_dev d d';
  cp_events : exists n, h' = h ++ n /\ locked_events n;
  cp_end : match res with
           | Return ret => (ret = - EAGAIN \/ ret = - ENODEV) /\ inflight d' = delete (frame_number r) (inflight d)
           | Captured ok => (ok = true -> C 0) /\ inflight d' = inflight d
           end;
}.

Lemma wp_capture out f (Q : Z * option mem -> hal_dev -> plog -> list hal_event -> Prop) d l h p :
  d_pipeline d = Some p -> owns d l ->
  (forall ret out' p' l', C ret -> owns (set_pipeline (Some p') d) l' ->
     Q (ret, out') (set_pipeline (Some p') d) l' h) ->
  wp (capture P k powf (Some out) f) Q d l h.
Proof.
  intros Hp Ho HQ. unfold capture. eapply wp_on; [done|].
  set (m := captureFrame _ _ _ _ _ _ _). unfold owns in Ho. rewrite Hp in Ho.
  destruct (m p l).1 as [ret out'] eqn:E. apply HQ.
  - pose proof (use_capture powf (YCBCR_420_888 P) (RGBA_8888 P) (IMPLEMENTATION_DEFINED P) p l out f Ho) as Hc.
    fold m in Hc. by rewrite E in Hc.
  - apply (use_quiet _ m); [apply quiet_capture|done].
Qed.

Lemma capture_post_intro r d h res d' l' n :
  owns d' l' -> same_dev d d' -> locked_events n ->
  match res with
  | Return ret => (ret = - EAGAIN \/ ret = - ENODEV) /\ inflight d' = delete (frame_number r) (inflight d)
  | Captured ok => (ok = true -> C 0) /\ inflight d' = inflight d
  end -> capture_post r d h res d' l' (h ++ n).
Proof. intros. split; eauto. Qed.

Lemma capture_post_no r d l h : owns d l -> capture_post r d h (Captured false) d l h.
Proof. intros Ho. split; [done|done| |done]. exists []. rewrite app_nil_r. split; [done|by left]. Qed.

Lemma capture_locked_spec r e d l h :
  owns d l -> is_Some (d_pipeline d) ->
  wp (capture_locked P k powf r e) (capture_post r d h) d l h.
Proof.
  intros Ho [p Hp]. unfold capture_locked. destruct (a_lock e).
  - wps. eapply wp_capture; [done|done|]. intros ret out' p' l' HC Ho'.
    pose proof (same_pipeline d p p' Hp) as Hs.
    destruct (Z.eqb_spec ret 0) as [->|]; [|destruct (Z.eqb_spec ret (- EAGAIN)) as [->|]].
    all: unfold untrack; wps; rewrite <- app_assoc; apply capture_post_intro; try done.
    all: try (by right; left). by split; [left|].
  - wps. by apply capture_post_no.
Qed.

Lemma capture_blob_spec r e d l h :
  owns d l -> is_Some (d_pipeline d) ->
  wp (capture_blob P k powf r e) (capture_post r d h) d l h.
Proof.
  intros Ho [p Hp]. unfold capture_blob. wps.
  set (size := wrap_u32 (pipeline_width d * pipeline_height d * 4)).
  set (grow := negb (bool_decide (is_Some (temp_rgba d))) || (temp_rgba_size d <? size)).
  set (d1 := if grow then set_temp (a_malloc e) size d else d).
  assert (H1 : same_dev d d1 /\ inflight d1 = inflight d /\ d_pipeline d1 = Some p) by (unfold d1; by case_match).
  destruct H1 as (Hs1 & Hi1 & Hp1). assert (Ho1 : owns d1 l) by (apply (owns_ext d); congruence).
  match goal with |- wp _ ?Q _ _ _ => assert (Hgo : Q tt d1 l h) end.
  { wps. destruct (temp_rgba d1) as [tmp|].
    2:{ wps. split; [done|done| |by rewrite Hi1]. exists []. rewrite app_nil_r. split; [done|by left]. }
    wps. eapply wp_capture; [exact Hp1|done|]. intros ret tmp' p' l' HC Ho'.
    assert (Hs : same_dev d (set_pipeline (Some p') d1)) by (eapply same_trans; [done|by eapply same_pipeline]).
    wps. destruct (Z.eqb_spec ret 0) as [->|]; [|destruct (Z.eqb_spec ret (- EAGAIN)) as [->|]].
    - destruct (a_lock e); [|wps; rewrite <- (app_nil_r h) at 2; apply capture_post_intro; try done; by left].
      wps. destruct (a_jpeg e _) as [jret jsize]. wps. destruct (_ && _); wps;
        rewrite <- !app_assoc; apply capture_post_intro; try done.
      + right; right. by exists jsize.
      + by right; left.
    - unfold untrack. wps. rewrite <- (app_nil_r h) at 2. apply capture_post_intro; try done; [by left|].
      cbn. rewrite Hi1. split; [by left|done].
    - wps. rewrite <- (app_nil_r h) at 2. apply capture_post_intro; try done. by left. }
  unfold d1 in Hgo. destruct grow; wps; exact Hgo.
Qed.

Lemma capture_request_spec r e d l h :
  owns d l -> wp (capture_request P k powf r e) (capture_post r d h) d l h.
Proof.
  intros Ho. unfold capture_request. wps. destruct (d_pipeline d) as [p|] eqn:Hp.
  2:{ wps. by apply capture_post_no. }
  assert (Hcap : forall d l, owns d l -> is_Some (d_pipeline d) ->
    wp (capture_buffer P k powf r e) (capture_post r d h) d l h).
  { intros d' l' Ho' Hp'. unfold capture_buffer. destruct (a_gralloc e); cbn [negb].
    - destruct (_ =? _); [by apply capture_blob_spec|by apply capture_locked_spec].
    - wps. by apply capture_post_no. }
  destruct (streams_configured d); cbn [negb]; [|wps; by apply capture_post_no].
  case_bool_decide as Hst; [|by apply Hcap].
  wps. eapply wp_on; [done|].
  assert (Ho' : owns (set_pipeline (Some (startStreaming k p l).2.1) d) (startStreaming k p l).2.2).
  { unfold owns in *. rewrite Hp in Ho. by apply use_start. }
  pose proof (same_pipeline d p (startStreaming k p l).2.1 Hp) as Hs.
  destruct (_ =? 0); cbn [negb].
  - eapply wp_mono; [by apply Hcap|]. intros res d' l' h' [Ho2 Hs2 Hev Hend].
    split; [done|by eapply same_trans|done|done].
  - unfold untrack. wps. rewrite <- (app_nil_r h) at 2. apply capture_post_intro; try done; [by left|].
    split; [by right|done].
Qed.

(** What the framework is told at the end of a request. *)
Definition notices (c : callbacks) (r : request) (e : answers) (ok : bool) : list hal_event :=
  if has_notify c then [if ok then Shutter (frame_number r) (a_time e) else ErrorDevice (frame_number r)]
  else [].

Lemma wp_notify x (Q : unit -> hal_dev -> plog -> list hal_event -> Prop) d l h c :
  callback_ops d = Some c ->
  Q tt d l (h ++ (if has_notify c then [x] else [])) -> wp (notify x) Q d l h.
Proof.
  intros Hc HQ. unfold notify. wps. rewrite Hc. destruct (has_notify c); wps; [done|].
  by rewrite app_nil_r in HQ.
Qed.

Lemma result_meta_spec r e d l h :
  owns d l ->
  wp (result_meta k r e) (fun _ d' l' h' =>
    owns d' l' /\ same_dev d d' /\ inflight d' = inflight d /\ h' = h) d l h.
Proof.
  intros Ho. unfold result_meta. wps. destruct (d_pipeline d) as [p|] eqn:Hp; [|by wps].
  wps. eapply wp_quiet; [apply quiet_getExposure|exact Hp|done|]. intros a p1 l1 Ho1. wps.
  eapply wp_quiet; [apply quiet_getGain|done|done|]. intros b p2 l2 Ho2. wps.
  split; [exact Ho2|]. split; [|done].
  eapply same_trans; [by apply (same_pipeline d p p1)|by eapply same_pipeline].
Qed.

Lemma complete_spec r e ok d l h c :
  owns d l -> callback_ops d = Some c -> isError (inflight d) (frame_number r) = false ->
  wp (complete_request k r e ok) (fun ret d' l' h' =>
    ret = 0 /\ owns d' l' /\ same_dev d d' /\
    inflight d' = delete (frame_number r) (inflight d) /\
    exists meta, h' = h ++ notices c r e ok ++ [CaptureResult (frame_number r) (Some ok) meta] /\
      (is_Some meta -> ok = true)) d l h.
Proof.
  intros Ho Hc He. unfold complete_request, untrack. wps. rewrite He.
  set (d1 := set_inflight _ d).
  assert (Hc1 : callback_ops d1 = Some c) by done. assert (Ho1 : owns d1 l) by done.
  unfold notices. destruct ok; cbn [negb andb].
  - eapply wp_notify; [done|]. wps. eapply wp_mono; [by apply result_meta_spec|].
    intros meta d2 l2 h2 (Ho2 & Hs2 & Hi2 & ->). wps. rewrite <- app_assoc.
    split_and!; [done|done|done|done|]. by exists meta.
  - wps. eapply wp_notify; [done|]. wps. rewrite <- app_assoc.
    split_and!; [done|done|done|done|]. exists None. split; [done|]. by intros [? ?].
Qed.

(** How a request ends. *)
Inductive request_events (r : request) (e : answers) (c : option callbacks) : Z -> list hal_event -> Prop :=
| request_refused ret : ret = - ENOSYS \/ ret = - EINVAL -> request_events r e c ret []
| request_failed ret locks :
    ret = - EAGAIN \/ ret = - ENODEV -> locked_events locks ->
    request_events r e c ret
      ((if 0 <=? acquire_fence r then [CloseFence (acquire_fence r)] else []) ++ locks)
| request_done c' locks ok meta :
    c = Some c' -> locked_events locks -> (ok = true -> C 0) -> (is_Some meta -> ok = true) ->
    request_events r e c 0
      ((if 0 <=? acquire_fence r then [CloseFence (acquire_fence r)] else []) ++ locks ++
       notices c' r e ok ++ [CaptureResult (frame_number r) (Some ok) meta]).

Lemma apply_settings_spec r d l h :
  owns d l ->
  wp (apply_settings r) (fun _ d' l' h' =>
    owns d' l' /\ same_dev d d' /\ inflight d' = inflight d /\ l' = l /\ h' = h) d l h.
Proof. intros Ho. unfold apply_settings. by destruct (settings r) as [[mode trigger]|]; wps. Qed.

Lemma process_request_spec r e d l h :
  owns d l -> inflight d = ∅ ->
  wp (camera_device_process_capture_request P k powf r e) (fun ret d' l' h' =>
    owns d' l' /\ same_dev d d' /\ inflight d' = ∅ /\
    exists n, h' = h ++ n /\ request_events r e (callback_ops d) ret n) d l h.
Proof.
  intros Ho Hi. unfold camera_device_process_capture_request. wps.
  assert (Hrefuse : forall ret, ret = - ENOSYS \/ ret = - EINVAL ->
    owns d l /\ same_dev d d /\ inflight d = ∅ /\
    exists n, h = h ++ n /\ request_events r e (callback_ops d) ret n).
  { intros ret Hret. split_and!; try done. exists []. rewrite app_nil_r. split; [done|]. by constructor. }
  destruct (negb (is_initialized d) || negb (bool_decide (is_Some (callback_ops d)))) eqn:Einit; [wps; apply Hrefuse; by left|].
  destruct ((num_output_buffers r <? 1) || negb (has_buffers r)); [wps; apply Hrefuse; by right|].
  apply orb_false_iff in Einit as [_ Einit]. apply negb_false_iff, bool_decide_eq_true in Einit as [c Hc].
  rewrite Hi at 1. unfold isError. rewrite lookup_empty. wps.
  set (f := frame_number r). set (d1 := set_inflight _ d).
  eapply wp_mono; [apply (apply_settings_spec r d1); done|].
  intros _ d2 l2 h2 (Ho2 & Hs2 & Hi2 & -> & ->). wps.
  eapply wp_mono; [by apply autofocus_spec|].
  intros _ d3 l3 h3 (Ho3 & Hs3 & Hi3 & ->).
  assert (Hs : same_dev d d3) by (eapply same_trans; [by apply (same_trans d d1 d2)|done]).
  assert (Hin : inflight d3 = {[f := mk_in_flight (default 0 (buffer r)) false]}).
  { rewrite Hi3, Hi2. unfold d1. cbn. by rewrite Hi. }
  destruct (buffer r) as [b|].
  2:{ unfold untrack. wps. split_and!; [done|done| |].
      - cbn. rewrite Hin. apply delete_singleton_eq.
      - exists []. rewrite app_nil_r. split; [done|]. constructor. by right. }
  wps. set (fence := if 0 <=? acquire_fence r then [CloseFence (acquire_fence r)] else []).
  match goal with |- wp _ ?Q _ _ _ => assert (Hgo : Q tt d3 l3 (h ++ fence)) end.
  { wps. eapply wp_mono; [by apply capture_request_spec|].
    intros res d4 l4 h4 [Ho4 Hs4 (locks & -> & Hl) Hend]. destruct res as [ret|ok].
    - destruct Hend as [Hret Hi4]. wps. split_and!; [done|by eapply same_trans| |].
      + rewrite Hi4, Hin. apply delete_singleton_eq.
      + exists (fence ++ locks). rewrite app_assoc. split; [done|]. by constructor.
    - destruct Hend as [HC Hi4]. eapply wp_mono.
      + apply (complete_spec r e ok d4 l4 _ c); [done| |].
        * destruct Hs4 as [-> _]. destruct Hs as [-> _]. done.
        * unfold isError. rewrite Hi4, Hin. by rewrite lookup_singleton_eq.
      + intros ret d5 l5 h5 (-> & Ho5 & Hs5 & Hi5 & meta & -> & Hm). split_and!; [done| | |].
        * eapply same_trans; [done|]. by eapply same_trans.
        * rewrite Hi5, Hi4, Hin. apply delete_singleton_eq.
        * exists (fence ++ locks ++ notices c r e ok ++ [CaptureResult f (Some ok) meta]).
          rewrite !app_assoc. split; [by rewrite <- !app_assoc|].
          rewrite <- !app_assoc. by apply request_done. }
  unfold fence in Hgo. destruct (0 <=? acquire_fence r).
  - apply wp_hemit. exact Hgo.
  - apply wp_hskip. rewrite app_nil_r in Hgo. exact Hgo.
Qed.
End Request.

(** ** The pipeline of a device *)

(** Between calls: the resources of [Pipeline], and buffers only while streaming; or the
    driver has made the mapping loop overflow the array of buffers. *)
Definition pipeline_ok (k : kernel) (p : pipeline) (l : plog) : Prop :=
  overflow k l \/
  pipeline_inv true p l /\ (mState p = PIPELINE_STREAMING \/ mBufferCount p = 0).

Lemma pipeline_sound k p l : pipeline_ok k p l -> sound k true p l.
Proof. intros [Ho|[Hi _]]; [by left|by right]. Qed.

Definition starved (p : pipeline) (l : plog) : Prop := mBufferCount p = 0.

Lemma quiet_fields {A} (m : PM A) p l :
  quiet neutral m ->
  mState (m p l).2.1 = mState p /\ mBufferCount (m p l).2.1 = mBufferCount p.
Proof. intros Hm. destruct (Hm p l) as [Hf _]. unfold frame_of in Hf. split; congruence. Qed.

#[export] Instance use_ok k : PipelineUse k (pipeline_ok k) (fun _ => True).
Proof.
  split; [| |done].
  - intros A m p l Hm [Ho|[Hi Hs]].
    { left. eapply overflow_prefix; [|done]. by eapply grows_quiet. }
    right. destruct (quiet_fields m p l Hm) as [Es Ec].
    split; [by apply inv_quiet|]. by rewrite Es, Ec.
  - intros p l Hst [Ho|[Hi Hs]]; [left; eapply overflow_prefix; [apply grows_start|done]|].
    right. split; [by apply start_streaming_inv|]. right.
    destruct (start_frame k p l) as [-> _]. destruct Hs as [Hs|]; [congruence|done].
Qed.

#[export] Instance use_starved k : errnos_ok k -> PipelineUse k starved (fun ret => ret < 0).
Proof.
  intros Hk. split; unfold starved.
  - intros A m p l Hm H0. destruct (quiet_fields m p l Hm) as [_ ->]. done.
  - intros p l _ H0. by destruct (start_frame k p l) as [-> _].
  - intros powf F1 F2 F3 p l out f H0. by apply capture_starved.
Qed.

Section Device.
Variable P : platform.
Variable k : kernel.
Variable powf : f32 -> f32 -> f32.
Variable heap : plog -> mem.
Variable config0 : pipeline_config.
Variable lut0 : mem.

Definition nothing_held (l : plog) : Prop := overflow k l \/ log_res l = mk_res ∅ ∅ true.

Record dev_inv (d : hal_dev) (l : plog) : Prop := {
  dv_owns : owns (pipeline_ok k) nothing_held d l;
  dv_idle : inflight d = ∅;
  dv_configured : is_Some (d_pipeline d) -> streams_configured d = true;
}.

Lemma grows_delete p l : l `prefix_of` delete_pipeline k p l.
Proof.
  unfold delete_pipeline. pose proof (grows_close k p l) as H1.
  destruct (close k p l) as [z [p1 l1]]. etrans; [exact H1|apply (grows_close k)].
Qed.

Lemma close_twice p l : pipeline_inv true p l -> log_res (delete_pipeline k p l) = mk_res ∅ ∅ true.
Proof.
  intros Hp. unfold delete_pipeline.
  pose proof (close_inv k heap true p l Hp) as (Hc & _).
  destruct (close k p l) as [z [p1 l1]]. by apply close_empties.
Qed.

Lemma delete_releases p l : sound k true p l -> nothing_held (delete_pipeline k p l).
Proof.
  intros [Ho|Hp]; [left; eapply overflow_prefix; [apply grows_delete|done]|right]. by apply close_twice.
Qed.

Lemma grows_start_pipeline id w h l :
  let '(ret, opened, po, l') := start_pipeline P k powf heap config0 lut0 id w h l in
  l `prefix_of` l' /\ (is_Some po -> ret = 0).
Proof.
  unfold start_pipeline.
  pose proof (grows_open k id (new_pipeline config0 lut0) l) as H1.
  destruct (Pipeline.open k id _ l) as [ret [p1 l1]]. cbn [fst snd] in *.
  destruct (ret =? 0); cbn [negb]; [|split; [etrans; [exact H1|apply (grows_close k)]|by intros [? ?]]].
  pose proof (grows_configure k powf heap (hal_config P id w h) p1 l1) as H2.
  destruct (configure k powf heap _ p1 l1) as [ret2 [p2 l2]]. cbn [fst snd] in *.
  destruct (ret2 =? 0); cbn [negb].
  2:{ split; [|by intros [? ?]]. etrans; [exact H1|]. etrans; [exact H2|apply grows_delete]. }
  pose proof (grows_start k p2 l2) as H3.
  destruct (startStreaming k p2 l2) as [ret3 [p3 l3]]. cbn [fst snd] in *.
  destruct (Z.eqb_spec ret3 0); cbn [negb].
  - split; [|done]. etrans; [exact H1|]. by etrans.
  - split; [|by intros [? ?]]. etrans; [exact H1|]. etrans; [exact H2|]. etrans; [exact H3|apply grows_delete].
Qed.

Lemma start_pipeline_spec id w h l :
  kernel_ok k -> errnos_ok k -> nothing_held l ->
  let '(ret, opened, po, l') := start_pipeline P k powf heap config0 lut0 id w h l in
  match po with
  | Some p => ret = 0 /\ pipeline_ok k p l'
  | None => nothing_held l'
  end.
Proof.
  intros Hk He [Ho|Hl].
  { pose proof (grows_start_pipeline id w h l) as Hg.
    destruct (start_pipeline _ _ _ _ _ _ _ _ _ _) as [[[ret op] [p|]] l1].
    - split; [by apply Hg|]. left. by eapply overflow_prefix; [apply Hg|].
    - left. by eapply overflow_prefix; [apply Hg|]. }
  unfold start_pipeline.
  pose proof (new_inv_at true config0 lut0 l Hl) as H0.
  pose proof (open_inv k heap true id _ _ Hk H0) as H1.
  pose proof (open_count k id (new_pipeline config0 lut0) l) as Hc1.
  destruct (Pipeline.open k id _ l) as [ret [p1 l1]]. cbn [fst snd] in *.
  destruct (ret =? 0); cbn [negb]; [|right; by apply close_empties].
  pose proof (configure_inv k powf heap true (hal_config P id w h) _ _ Hk H1 (fun _ => Hc1)) as H2.
  destruct (configure k powf heap _ p1 l1) as [ret2 [p2 l2]]. cbn [fst snd] in *.
  destruct (ret2 =? 0); cbn [negb]; [|by apply delete_releases].
  pose proof (sound_lift k true (startStreaming k) p2 l2 (grows_start k)
    (fun Hi => or_intror (start_streaming_inv k true _ _ Hi)) H2) as H3.
  destruct (start_frame k p2 l2) as [_ Hs].
  destruct (startStreaming k p2 l2) as [ret3 [p3 l3]]. cbn [fst snd] in *.
  destruct (Z.eqb_spec ret3 0); cbn [negb]; [|by apply delete_releases].
  split; [done|]. destruct H3 as [|H3]; [by left|right]. split; [done|]. left. apply Hs; [done|]. apply He.
Qed.

(** ** Selection of the pipeline's stream *)

Definition image_stream (s : stream) : bool := is_output s && negb (s_format s =? BLOB P).

Lemma choose_image c s : (s_format s =? BLOB P) = false -> is_Some (pipeline_stream (choose P c s)).
Proof.
  intros Hf. destruct c as [[[ps|] os] [rs|]]; cbn; rewrite ?Hf; by repeat case_match.
Qed.

Lemma choose_blob c s : (s_format s =? BLOB P) = true -> pipeline_stream (choose P c s) = pipeline_stream c.
Proof. intros Hf. destruct c as [[[ps|] os] [rs|]]; cbn; by rewrite ?Hf. Qed.

Lemma choose_all_spec ss c :
  match (choose_all P c ss).1 with
  | Some c' => Forall (fun s => s_width s <> 0 /\ s_height s <> 0) ss /\
               (is_Some (pipeline_stream c') <-> is_Some (pipeline_stream c) \/ existsb image_stream ss = true)
  | None => ~ Forall (fun s => s_width s <> 0 /\ s_height s <> 0) ss
  end.
Proof.
  revert c. induction ss as [|s ss IH]; intros c; cbn [choose_all existsb].
  { cbn. split; [constructor|]. intuition discriminate. }
  destruct ((s_width s =? 0) || (s_height s =? 0)) eqn:E.
  { cbn. intros [[Hw Hh] _]%Forall_cons. apply orb_true_iff in E as [E|E]; breflect; done. }
  breflect. set (c1 := if is_output s then _ else _).
  assert (Hc1 : is_Some (pipeline_stream c1) <-> is_Some (pipeline_stream c) \/ image_stream s = true).
  { unfold c1, image_stream. destruct (is_output s) eqn:Eo; cbn [andb]; [|intuition discriminate].
    assert (Hf : s_format (count_buffers s) = s_format s) by (unfold count_buffers; by case_match).
    destruct (s_format s =? BLOB P) eqn:Ef; cbn [negb].
    - rewrite choose_blob by by rewrite Hf. intuition discriminate.
    - split; [by right|]. intros _. apply choose_image. by rewrite Hf. }
  specialize (IH c1). destruct (choose_all P c1 ss) as [[c'|] ss']; cbn [fst] in *.
  - destruct IH as [Hall Hsome]. rewrite Forall_cons, orb_true_iff. split; [by split_and!|].
    rewrite Hsome, Hc1. tauto.
  - intros [_ Htail]%Forall_cons. done.
Qed.

(** ** Calls preserve the invariant *)

Definition call_ok (c : hal_call) : bool :=
  match c with ConfigureStreams ss => existsb image_stream ss | _ => true end.

Lemma configure_streams_spec ss d l h :
  kernel_ok k -> errnos_ok k -> dev_inv d l -> existsb image_stream ss = true ->
  wp (camera_device_configure_streams P k powf heap config0 lut0 ss)
    (fun _ d' l' h' => dev_inv d' l' /\ h' = h) d l h.
Proof.
  intros Hk He Hd Himg. unfold camera_device_configure_streams.
  destruct ((zlen ss =? 0) || (20 <? zlen ss)); [by wps|].
  pose proof (choose_all_spec ss (None, None, None)) as Hc.
  destruct (choose_all P (None, None, None) ss) as [[c|] ss1]; cbn [fst] in Hc; [|by wps].
  destruct Hc as [_ Hc]. destruct (pipeline_stream c) as [s|]; [|destruct Hc as [_ [? Hc]]; [by right|done]].
  wps. destruct (_ && streaming d); [by wps|]. destruct Hd as [Ho Hi Hconf].
  wps. unfold drain_requests. wps. rewrite Hi. cbn [count]. wps.
  set (d0 := set_pipeline None d).
  set (l0 := match d_pipeline d with Some p => delete_pipeline k p l | None => l end).
  assert (Hl0 : nothing_held l0).
  { unfold l0, owns in *. destruct (d_pipeline d); [apply delete_releases, pipeline_sound, Ho|done]. }
  assert (Hgo : forall d1, inflight d1 = ∅ -> d_pipeline d1 = None ->
    wp (new_configuration P k powf heap config0 lut0 (s_width s) (s_height s) ss1)
       (fun _ d' l' h' => dev_inv d' l' /\ h' = h) d1 l0 h).
  { intros d1 Hi1 Hp1. unfold wp, new_configuration.
    pose proof (start_pipeline_spec (camera_id d1) (s_width s) (s_height s) l0 Hk He Hl0) as Hs.
    destruct (start_pipeline _ _ _ _ _ _ _ _ _ _) as [[[ret op] [p|]] l1].
    - destruct Hs as [_ Hp]. split; [|done]. split; done.
    - split; [|done]. split; [|done|by rewrite Hp1; intros [? ?]]. unfold owns. by rewrite Hp1. }
  apply wp_bind. unfold wp at 1, close_previous. unfold l0, d0 in *. destruct (d_pipeline d) as [p|] eqn:Hp; by apply Hgo.
Qed.

Lemma run_call_spec c d l h :
  kernel_ok k -> errnos_ok k -> dev_inv d l -> call_ok c = true ->
  wp (run_call P k powf heap config0 lut0 c) (fun _ d' l' h' => dev_inv d' l') d l h.
Proof.
  intros Hk He Hd Hok. destruct c as [ops|ss|r e|]; cbn [run_call].
  - destruct Hd as [Ho Hi Hc]. destruct ops; cbn [camera_device_initialize]; by wps.
  - wps. eapply wp_mono; [by apply configure_streams_spec|].
    intros [ret ss'] d' l' h' [Hd' _]. by wps.
  - destruct Hd as [Ho Hi Hc]. eapply wp_mono.
    + by apply (process_request_spec P k powf (pipeline_ok k) nothing_held (fun _ => True)).
    + intros ret d' l' h' (Ho' & (_ & _ & Hsc & Hp & _) & Hi' & _). split; [done|done|].
      intros Hs. rewrite Hsc. by apply Hc, Hp.
  - destruct Hd as [Ho Hi Hc]. unfold camera_device_flush. wps.
    destruct (d_pipeline d) as [p|] eqn:Hp.
    2:{ wps. split; [unfold owns in *; cbn; by rewrite Hp in * |done|]. intros [? Hx]. cbn in Hx. congruence. }
    rewrite Hc by (by eexists). wps. eapply wp_on; [done|]. wps.
    unfold owns in Ho. rewrite Hp in Ho.
    split; [|done|by intros _; cbn; apply Hc; eexists]. cbn.
    destruct Ho as [Ho|[Hinv Hst]]; [left; eapply overflow_prefix; [apply grows_stop|done]|right].
    destruct (stop_inv k heap true p l Hinv) as (Hinv' & Hns & _ & Hcnt).
    split; [done|]. right.
    destruct Hst as [Hst|H0]; [by apply Hcnt|]. by apply stop_count.
Qed.

Lemma run_calls_spec cs d l h :
  kernel_ok k -> errnos_ok k -> dev_inv d l -> forallb call_ok cs = true ->
  wp (run_calls P k powf heap config0 lut0 cs) (fun _ d' l' h' => dev_inv d' l') d l h.
Proof.
  intros Hk He. revert d l h. induction cs as [|c cs IH]; intros d l h Hd Hok; cbn [run_calls]; [by wps|].
  cbn [forallb] in Hok. breflect. wps. eapply wp_mono; [by apply run_call_spec|].
  intros ? d' l' h' Hd'. by apply IH.
Qed.

Lemma init_inv id : dev_inv (camera_device_init P id) [].
Proof. split; [by right|done|by intros [? ?]]. Qed.
End Device.

(** ** Requests without assumptions on the pipeline *)

#[export] Instance use_any k : PipelineUse k (fun _ _ => True) (fun _ => True).
Proof. by split. Qed.

(** ** After a flush *)

Definition no_picture (x : hal_event) : Prop :=
  match x with Shutter _ _ | CaptureResult _ (Some true) _ => False | _ => True end.

Definition flush_or_request (c : hal_call) : bool :=
  match c with Flush | ProcessCaptureRequest _ _ => true | _ => false end.

(** A configured device whose pipeline has no buffers. *)
Definition dry (d : hal_dev) : Prop :=
  (exists p, d_pipeline d = Some p /\ mBufferCount p = 0) /\ inflight d = ∅ /\ streams_configured d = true.

Lemma locked_no_picture n : locked_events n -> Forall no_picture n.
Proof. intros [->|[->|[s ->]]]; by repeat constructor. Qed.

Lemma failed_no_picture r e c ret n :
  request_events (fun ret => ret < 0) r e c ret n -> Forall no_picture n.
Proof.
  intros H. destruct H as [ret _|ret locks _ Hl|c' locks ok meta _ Hl HC Hm]; [constructor|..].
  - apply Forall_app. split; [case_match; by repeat constructor|by apply locked_no_picture].
  - destruct ok; [by specialize (HC eq_refl)|]. rewrite !Forall_app. split_and!.
    + case_match; by repeat constructor.
    + by apply locked_no_picture.
    + unfold notices. case_match; by repeat constructor.
    + by repeat constructor.
Qed.

Section AfterFlush.
Variable P : platform.
Variable k : kernel.
Variable powf : f32 -> f32 -> f32.
Variable heap : plog -> mem.
Variable config0 : pipeline_config.
Variable lut0 : mem.

Lemma dry_call c d l h :
  errnos_ok k -> dry d -> flush_or_request c = true ->
  wp (run_call P k powf heap config0 lut0 c) (fun _ d' l' h' =>
    dry d' /\ exists n, h' = h ++ n /\ Forall no_picture n) d l h.
Proof.
  intros He ((p & Hp & H0) & Hi & Hc) Hcall. destruct c as [| |r e|]; try done; cbn [run_call].
  - pose proof (use_starved k He) as Huse. eapply wp_mono.
    + apply (process_request_spec P k powf starved (fun _ => True) (fun ret => ret < 0)); [|done].
      unfold owns. by rewrite Hp.
    + intros ret d' l' h' (Ho & (_ & _ & Hsc & Hsp & _) & Hi' & n & -> & Hn).
      split.
      * split; [|split; [done|congruence]]. unfold owns in Ho.
        destruct (d_pipeline d') as [p'|]; [by exists p'|]. destruct (proj2 Hsp) as [? [=]]. by rewrite Hp.
      * exists n. split; [done|]. by eapply failed_no_picture.
  - unfold camera_device_flush. wps. rewrite Hp, Hc. wps. eapply wp_on; [done|]. wps.
    split; [|exists []; by rewrite app_nil_r].
    split; [|done]. eexists. split; [done|]. by apply stop_count.
Qed.

Lemma dry_calls cs d l h :
  errnos_ok k -> dry d -> forallb flush_or_request cs = true ->
  wp (run_calls P k powf heap config0 lut0 cs) (fun _ d' l' h' =>
    dry d' /\ exists n, h' = h ++ n /\ Forall no_picture n) d l h.
Proof.
  intros He. revert d l h. induction cs as [|c cs IH]; intros d l h Hd Hok; cbn [run_calls].
  { wps. split; [done|]. exists []. by rewrite app_nil_r. }
  cbn [forallb] in Hok. breflect. wps. eapply wp_mono; [by apply dry_call|].
  intros ? d1 l1 h1 (Hd1 & n1 & -> & Hn1). eapply wp_mono; [by apply IH|].
  intros _ d2 l2 h2 (Hd2 & n2 & -> & Hn2). split; [done|]. exists (n1 ++ n2).
  rewrite app_assoc. split; [done|]. by apply Forall_app.
Qed.

Lemma flush_dries d l h :
  dev_inv k d l -> (forall i, PWild i ∉ l) -> is_Some (d_pipeline d) ->
  wp (camera_device_flush k) (fun _ d' l' h' => dry d' /\ h' = h) d l h.
Proof.
  intros [Ho Hi Hc] Hb [p Hp]. unfold camera_device_flush. wps. rewrite Hp, Hc by (by eexists). wps.
  eapply wp_on; [done|]. wps. split; [|done]. unfold owns in Ho. rewrite Hp in Ho.
  destruct Ho as [Ho|[Hinv Hst]]; [by apply overflow_wild in Ho as [i []%Hb]|].
  destruct (stop_inv k heap true p l Hinv) as (_ & _ & _ & Hcnt).
  split; [|split; [done|cbn; apply Hc; by eexists]]. eexists. split; [done|].
  destruct Hst as [Hst|H0]; [by apply Hcnt|by apply stop_count].
Qed.
End AfterFlush.

(** ** Properties *)


(** A capture request of an idle device either is refused without any callback, or
    ends with an error code, its fence closed and its buffer unlocked, without any
    callback, or returns 0 and delivers exactly one result for its frame, after the
    matching notification: a shutter exactly if the picture was taken.  In each case the
    request is no longer tracked, and metadata accompany pictures only. *)
Theorem request_accounting (P : platform) (k : kernel) (powf : f32 -> f32 -> f32)
    (d : hal_dev) (l : plog) (h : list hal_event) (r : request) (e : answers) (Hi : inflight d = ∅) :
  let fence := if 0 <=? acquire_fence r then [CloseFence (acquire_fence r)] else [] in
  exists ret d' l' n,
    camera_device_process_capture_request P k powf r e d l h = Some (ret, (d', l', h ++ n)) /\
    inflight d' = ∅ /\
    (((ret = - ENOSYS \/ ret = - EINVAL) /\ n = []) \/
     ((ret = - EAGAIN \/ ret = - ENODEV) /\ exists locks, locked_events locks /\ n = fence ++ locks) \/
     (ret = 0 /\ exists c locks ok meta, callback_ops d = Some c /\ locked_events locks /\
        (is_Some meta -> ok = true) /\
        n = fence ++ locks ++
            (if has_notify c then [if ok then Shutter (frame_number r) (a_time e)
                                   else ErrorDevice (frame_number r)] else []) ++
            [CaptureResult (frame_number r) (Some ok) meta])).
Proof.
  intros fence.
  pose proof (process_request_spec P k powf (fun _ _ => True) (fun _ => True) (fun _ => True) r e d l h) as H.
  unfold wp in H. destruct (camera_device_process_capture_request _ _ _ _ _ _ _ _)
    as [[ret [[d' l'] h']]|]; [|destruct H; [unfold owns; by case_match|done]].
  destruct H as (_ & _ & Hi' & n & -> & Hn); [unfold owns; by case_match|done|].
  exists ret, d', l', n. split; [done|]. split; [done|].
  destruct Hn as [ret Hr|ret locks Hr Hl|c' locks ok meta Hc Hl _ Hm].
  - by left.
  - right; left. split; [done|]. by exists locks.
  - right; right. split; [done|]. by exists c', locks, ok, meta.
Qed.

(** C28. After a flush no picture is taken any more, provided no driver has yet made the
    mapping loop write outside the array of buffers: whatever requests and flushes follow,
    every result is an error and no shutter is notified, since the restarted pipeline has
    no buffers; and while it streams, configuring streams of the same size changes
    nothing. *)
Theorem flush_ends_capture (P : platform) (k : kernel) (powf : f32 -> f32 -> f32)
    (heap : plog -> mem) (config0 : pipeline_config) (lut0 : mem) (id : Z)
    (before after : list hal_call) (d : hal_dev) (l : plog) (h : list hal_event)
    (Hk : kernel_ok k) (He : errnos_ok k) (Hok : forallb (call_ok P) before = true)
    (Hrun : run_calls P k powf heap config0 lut0 before (camera_device_init P id) [] [] =
            Some (tt, (d, l, h)))
    (Hbounds : forall i, PWild i ∉ l) (Hp : is_Some (d_pipeline d)) (Hafter : forallb flush_or_request after = true) :
  exists d' l' n,
    run_calls P k powf heap config0 lut0 (Flush :: after) d l h = Some (tt, (d', l', h ++ n)) /\
    (forall f t, Shutter f t ∉ n) /\
    (forall f status meta, CaptureResult f status meta ∈ n -> status <> Some true) /\
    (forall ss ss' c s, (choose_all P (None, None, None) ss) = (Some c, ss') ->
       pipeline_stream c = Some s -> 0 < zlen ss <= 20 ->
       s_width s = last_width d' -> s_height s = last_height d' -> streaming d' = true ->
       camera_device_configure_streams P k powf heap config0 lut0 ss d' l' (h ++ n) =
         Some ((0, ss'), (d', l', h ++ n))).
Proof.
  pose proof (run_calls_spec P k powf heap config0 lut0 before _ [] [] Hk He (init_inv P k id) Hok) as Hd.
  unfold wp in Hd. rewrite Hrun in Hd.
  assert (H : wp (run_calls P k powf heap config0 lut0 (Flush :: after))
    (fun _ d' l' h' => dry d' /\ exists n, h' = h ++ n /\ Forall no_picture n) d l h).
  { cbn [run_calls run_call]. apply wp_bind. eapply wp_mono; [by apply (flush_dries k heap)|].
    intros _ d1 l1 h1 [Hdry ->]. by apply dry_calls. }
  unfold wp in H. destruct (run_calls _ _ _ _ _ _ (Flush :: after) _ _ _) as [[[] [[d' l'] h']]|]; [|done].
  destruct H as ((_ & _ & Hsc) & n & -> & Hn). exists d', l', n. split; [done|].
  rewrite Forall_forall in Hn. split; [intros f t Hin; by apply (Hn _ Hin)|].
  split; [intros f st meta Hin ->; by apply (Hn _ Hin)|].
  intros ss ss' c s Hch Hs Hlen Hw Hh Hst. unfold camera_device_configure_streams.
  rewrite (proj2 (Z.eqb_neq (zlen ss) 0)), (proj2 (Z.ltb_ge 20 (zlen ss))) by lia. cbn [orb].
  rewrite Hch, Hs. unfold mbind, HM_bind, hget. by rewrite Hw, Hh, !Z.eqb_refl, Hsc, Hst.
Qed.

Lemma new_configuration_returns P k powf heap config0 lut0 w x ss d l h :
  new_configuration P k powf heap config0 lut0 w x ss d l h <> None.
Proof.
  unfold new_configuration.
  by destruct (start_pipeline P k powf heap config0 lut0 (camera_id d) w x l) as [[[? ?] [?|]] ?].
Qed.

(** Configuring the streams of an idle device dereferences a null stream exactly when
    there are 1 to 20 streams, all with an extent, and none is an output of a format other
    than BLOB. *)
Theorem configure_crashes_iff (P : platform) (k : kernel) (powf : f32 -> f32 -> f32)
    (heap : plog -> mem) (config0 : pipeline_config) (lut0 : mem)
    (d : hal_dev) (l : plog) (h : list hal_event) (ss : list stream) (Hi : inflight d = ∅) :
  camera_device_configure_streams P k powf heap config0 lut0 ss d l h = None <->
  1 <= zlen ss <= 20 /\ Forall (fun s => s_width s <> 0 /\ s_height s <> 0) ss /\
  Forall (fun s => is_output s = true -> s_format s = BLOB P) ss.
Proof.
  assert (Himg : existsb (image_stream P) ss = true <->
    ~ Forall (fun s => is_output s = true -> s_format s = BLOB P) ss).
  { rewrite existsb_exists, Forall_forall. unfold image_stream. split.
    - intros (s & Hin & Hs) Hall. apply list_elem_of_In in Hin. specialize (Hall s Hin). breflect. auto.
    - intros Hn. destruct (existsb (image_stream P) ss) eqn:E.
      { apply existsb_exists in E. exact E. }
      destruct Hn. intros s Hin Ho. apply list_elem_of_In in Hin.
      destruct (Z.eqb_spec (s_format s) (BLOB P)); [done|]. exfalso.
      apply not_true_iff_false in E. apply E, existsb_exists. exists s. split; [done|].
      unfold image_stream. rewrite Ho. by rewrite (proj2 (Z.eqb_neq _ _)). }
  unfold camera_device_configure_streams. pose proof (zlen_nonneg ss).
  destruct (Z.eqb_spec (zlen ss) 0); [cbn; split; [done|lia]|].
  destruct (Z.ltb_spec 20 (zlen ss)); [cbn; split; [done|lia]|]. cbn [orb].
  pose proof (choose_all_spec P ss (None, None, None)) as Hc.
  destruct (choose_all P (None, None, None) ss) as [[c|] ss1]; cbn [fst] in Hc.
  2:{ split; [done|]. intros (_ & Hall & _). done. }
  destruct Hc as [Hall Hc]. destruct (pipeline_stream c) as [s|].
  - assert (Hno : ~ Forall (fun s => is_output s = true -> s_format s = BLOB P) ss).
    { apply Himg. destruct (proj1 Hc) as [[? [=]]|]; [by eexists|done]. }
    split; [|tauto]. intros Hnone. exfalso. revert Hnone.
    unfold mbind at 1, HM_bind at 1, hget at 1. destruct (_ && streaming d); [done|].
    unfold drain_requests, mbind, HM_bind, hget, hskip, mret, HM_ret. rewrite Hi.
    change (0 <? count ∅) with false. cbv iota. unfold close_previous. destruct (d_pipeline d); apply new_configuration_returns.
  - split; [|done]. intros _. split; [lia|]. split; [done|].
    destruct (decide (Forall (fun s => is_output s = true -> s_format s = BLOB P) ss)) as [|Hno]; [done|].
    apply Himg in Hno. destruct (proj2 Hc) as [? [=]]. by right.
Qed.

(** ** Witnesses *)

Definition sample_platform : platform := mk_platform 33 1 34 35 1 4 0 1 2 808535890 808535874.
Definition preview : stream := mk_stream true 8 4 34 0.
Definition sample_request (f trigger : Z) : request :=
  mk_request f 1 true (Some (Some 1, Some trigger)) (Some 9) 5 preview.
Definition sample_answers : answers := mk_answers true true (fun _ => 0) None (fun _ => (0, 100)) 1000 true.
Definition sample_calls : list hal_call :=
  [Initialize (Some (mk_callbacks true)); ConfigureStreams [preview];
   ProcessCaptureRequest (sample_request 1 0) sample_answers].
Definition sample_run := run_calls sample_platform ready_kernel (fun x _ => x) (fun _ _ => 0)
  sample_config (fun _ => 0) sample_calls (camera_device_init sample_platform 0) [] [].

Definition sample_state : hal_dev * plog * list hal_event :=
  match sample_run with
  | Some (_, s) => s
  | None => (camera_device_init sample_platform 0, [], [])
  end.

Lemma sample_run_eq : sample_run = Some (tt, (sample_state.1.1, sample_state.1.2, sample_state.2)).
Proof.
  assert (H : match sample_run with Some _ => true | None => false end = true) by (vm_compute; reflexivity).
  unfold sample_state. by destruct sample_run as [[[] [[d l] h]]|].
Qed.

Lemma sample_pipeline : is_Some (d_pipeline sample_state.1.1).
Proof.
  assert (H : match d_pipeline sample_state.1.1 with Some _ => true | None => false end = true)
    by (vm_compute; reflexivity).
  destruct (d_pipeline sample_state.1.1); [by eexists|done].
Qed.


Lemma sample_in_bounds i : PWild i ∉ sample_state.1.2.
Proof.
  intros H. apply wild_not_ok in H. vm_compute in H. discriminate H.
Qed.

Lemma request_accounting_witness :
  inflight sample_state.1.1 = ∅ /\
  exists ret d' l' n,
    camera_device_process_capture_request sample_platform ready_kernel (fun x _ => x)
      (sample_request 2 1) sample_answers sample_state.1.1 sample_state.1.2 sample_state.2 =
      Some (ret, (d', l', sample_state.2 ++ n)) /\ inflight d' = ∅.
Proof.
  assert (Hi : inflight sample_state.1.1 = ∅) by (vm_compute; reflexivity). split; [exact Hi|].
  destruct (request_accounting sample_platform ready_kernel (fun x _ => x) _ sample_state.1.2 sample_state.2
    (sample_request 2 1) sample_answers Hi) as (ret & d' & l' & n & Hr & Hi' & _).
  exists ret, d', l', n. exact (conj Hr Hi').
Defined.

Definition after_flush : list hal_call :=
  [ProcessCaptureRequest (sample_request 2 0) sample_answers;
   ProcessCaptureRequest (sample_request 3 0) sample_answers].

Lemma flush_ends_capture_witness :
  sample_state.2 !! 3%nat = Some (Shutter 1 1000) /\
  exists d' l' n,
    run_calls sample_platform ready_kernel (fun x _ => x) (fun _ _ => 0) sample_config (fun _ => 0)
      (Flush :: after_flush) sample_state.1.1 sample_state.1.2 sample_state.2 =
      Some (tt, (d', l', sample_state.2 ++ n)) /\
    (forall f t, Shutter f t ∉ n).
Proof.
  split; [vm_compute; reflexivity|].
  destruct (flush_ends_capture sample_platform ready_kernel (fun x _ => x) (fun _ _ => 0) sample_config
    (fun _ => 0) 0 sample_calls after_flush _ _ _ ready_kernel_ok ready_errnos_ok eq_refl sample_run_eq
    sample_in_bounds sample_pipeline eq_refl) as (d' & l' & n & H1 & H2 & _).
  exists d', l', n. exact (conj H1 H2).
Defined.

Lemma configure_crashes_iff_witness :
  camera_device_configure_streams sample_platform ready_kernel (fun x _ => x) (fun _ _ => 0)
    sample_config (fun _ => 0) [mk_stream true 640 480 33 0] (camera_device_init sample_platform 0) [] [] = None.
Proof.
  apply (configure_crashes_iff sample_platform); [reflexivity|].
  split; [unfold zlen; cbn; lia|]. split; repeat constructor; cbn; lia.
Defined.
