(* ===== verification/AudioRouting.v ===== *)
(** * Audio routing ([configmgr/audio_config.c], run-time part)

    The configuration manager of the audio HAL: devices with their mixer paths, streams
    with reference counts, and the routing calls that apply the paths.  The mixer
    (tinyalsa) is an argument that may answer anything, also depending on what was done
    before; every change of the mixer, and every path applied (the [ALOGV] of
    [apply_path_l]), is an event of the log.  Pointers to a device or a stream are its
    position in its array. *)

From S2P Require Import Prelude.
From S2P Require Import CString.
From Stdlib Require Import Ascii.

Definition EINVAL : Z := 22.
Definition ENOENT : Z := 2.
Definition ENOSYS : Z := 38.
Definition UINT_MAX : Z := 2 ^ 32 - 1.
Definition INVALID_CTL_INDEX : Z := 2 ^ 32 - 1.
Definition BYTE_ARRAY_MAX_SIZE : Z := 512.

(** ** Data *)

Inductive mixer_ctl_type := BOOL | INT | ENUM | BYTE | IEC958 | INT64 | UNKNOWN.

(** The union [value]; the string of the file until the control is found. *)
Inductive ctl_value := VUint (v : Z) | VData (l : list Z) | VString (s : bytes).

Record ctl := mk_ctl {
  c_id : Z; c_name : bytes; c_index : Z; c_array_count : Z; c_type : mixer_ctl_type;
  c_value : ctl_value }.

Definition e_path_id_off : Z := 0.
Definition e_path_id_on : Z := 1.

Record path := mk_path { p_id : Z; ctl_array : list ctl }.

Record device := mk_device { d_type : Z; use_count : Z; path_array : list path }.

Record scase := mk_case { case_name : bytes; case_ctls : list ctl }.
Record usecase := mk_usecase { uc_name : bytes; case_array : list scase }.

Record stream_control := mk_control { sc_id : Z; sc_index : Z; sc_min : Z; sc_max : Z }.

Inductive stream_type :=
| out_pcm | in_pcm | out_compress | in_compress | out_hw | in_hw | global.

#[export] Instance stream_type_eq_dec : EqDecision stream_type.
Proof. solve_decision. Defined.

(** [struct hw_stream] and [struct stream]. *)
Record stream := mk_stream {
  s_type : stream_type; card_number : Z; device_number : Z; rate : Z; period_size : Z;
  period_count : Z;
  s_name : option bytes; ref_count : Z; max_ref_count : Z; enable_path : Z; disable_path : Z;
  current_devices : Z; volume_left : stream_control; volume_right : stream_control;
  usecase_array : list usecase }.

Record config_mgr := mk_cm {
  device_array : list device; stream_array : list stream;
  supported_output_devices : Z; supported_input_devices : Z }.

Inductive mixer_event :=
| SetValue (id index value : Z)
| SetArray (id : Z) (data : list Z)
| SetEnum (id : Z) (name : bytes)
| Path (where_ : option nat) (id : Z).

Definition mixer_log : Type := list mixer_event.

(** The mixer: the id of a control by its name, its type and size, the error of writing
    a value, and the bytes of an array control. *)
Record mixer := mk_mixer {
  m_by_name : mixer_log -> bytes -> option Z;
  m_type : Z -> mixer_ctl_type;
  m_num_values : Z -> Z;
  m_set_value : mixer_log -> Z -> Z -> Z -> Z;
  m_get_array : mixer_log -> Z -> option (list Z) }.

(** Constants of [system/audio.h]. *)
Record audio_masks := mk_masks { BIT_IN : Z; OUT_ALL : Z; IN_ALL : Z }.

(** ** Controls *)

(** [string_to_uint]; [None] is a null pointer.  The second component is what is stored
    through [result]. *)
Definition string_to_uint (str : option bytes) : Z * option Z :=
  match str with
  | None => (- ENOENT, None)
  | Some s =>
      let '(v, e) := strtoul_auto s in
      if bool_decide (e = []) && negb (bool_decide (e = s)) && (v <=? 4294967295)
      then (0, Some v) else (- EINVAL, None)
  end.

(** The bytes of a comma-separated string. *)
Fixpoint parse_bytes (tokens : list bytes) : Z + list Z :=
  match tokens with
  | [] => inr []
  | p :: r =>
      match string_to_uint (Some p) with
      | (0, Some v) => match parse_bytes r with inr l => inr (v mod 256 :: l) | inl e => inl e end
      | (ret, _) => inl ret
      end
  end.

Definition set_ctl (i n : Z) (v : ctl_value) (c : ctl) : ctl :=
  mk_ctl (c_id c) (c_name c) i n (c_type c) v.

Definition string_of (v : ctl_value) : bytes := match v with VString s => s | _ => [] end.

Definition make_byte_array (vnum : Z) (c : ctl) : Z * ctl :=
  let tokens := strtok_tokens "," (string_of (c_value c)) in
  let count := zlen tokens in
  if BYTE_ARRAY_MAX_SIZE <? vnum then (- EINVAL, c)
  else if vnum <=? c_index c then (- EINVAL, c)
  else if vnum <? wrap_u32 (c_index c + count) then (- EINVAL, c)
  else match parse_bytes tokens with
       | inr l => (0, set_ctl (c_index c) count (VData l) c)
       | inl ret => (ret, set_ctl (c_index c) count (c_value c) c)
       end.

Section mixer.
Context (mx : mixer) (ms : audio_masks).

Definition open_as (t : mixer_ctl_type) (id : Z) (c : ctl) : ctl :=
  mk_ctl id (c_name c) (c_index c) (c_array_count c) t (c_value c).

Definition ctl_open (l : mixer_log) (c : ctl) : Z * ctl :=
  if negb (c_id c =? UINT_MAX) then (0, c)
  else match m_by_name mx l (c_name c) with
       | None => (- ENOENT, c)
       | Some id =>
           match m_type mx id with
           | BYTE =>
               let c := if c_index c =? INVALID_CTL_INDEX
                        then set_ctl 0 (c_array_count c) (c_value c) c else c in
               let '(ret, c) := make_byte_array (m_num_values mx id) c in
               if negb (ret =? 0) then (ret, c) else (0, open_as BYTE id c)
           | BOOL | INT =>
               match string_to_uint (Some (string_of (c_value c))) with
               | (_, Some v) =>
                   (0, open_as (m_type mx id) id (set_ctl (c_index c) (c_array_count c) (VUint v) c))
               | (ret, None) => (ret, c)
               end
           | ENUM => (0, open_as ENUM id c)
           | IEC958 | INT64 | UNKNOWN => (- EINVAL, c)
           end
       end.

Definition uinteger (v : ctl_value) : Z := match v with VUint z => z | _ => 0 end.
Definition data_of (v : ctl_value) : list Z := match v with VData d => d | _ => [] end.

(** The loop over every value of a control, left at the first error. *)
Fixpoint set_values (l : mixer_log) (id vnum value : Z) (n : nat) : mixer_log :=
  match n with
  | O => l
  | S n =>
      let err := m_set_value mx l id vnum value in
      let l := l ++ [SetValue id vnum value] in
      if err <? 0 then l else set_values l id (vnum + 1) value n
  end.

(** One control of [apply_ctls_l]. *)
Definition apply_ctl (l : mixer_log) (c : ctl) : mixer_log :=
  match m_type mx (c_id c) with
  | BOOL | INT =>
      if c_index c =? INVALID_CTL_INDEX
      then set_values l (c_id c) 0 (uinteger (c_value c)) (Z.to_nat (m_num_values mx (c_id c)))
      else l ++ [SetValue (c_id c) (c_index c) (uinteger (c_value c))]
  | BYTE =>
      let vnum := m_num_values mx (c_id c) in
      if (c_index c =? 0) && (c_array_count c =? vnum)
      then l ++ [SetArray (c_id c) (data_of (c_value c))]
      else match m_get_array mx l (c_id c) with
           | None => l
           | Some old => l ++ [SetArray (c_id c) (zwrite (c_index c) (data_of (c_value c)) old)]
           end
  | ENUM => l ++ [SetEnum (c_id c) (string_of (c_value c))]
  | _ => l
  end.

(** Controls opened on the way stay open; one that cannot be opened ends the loop. *)
Fixpoint apply_ctls_l (l : mixer_log) (cs : list ctl) : list ctl * mixer_log :=
  match cs with
  | [] => ([], l)
  | c :: r =>
      let '(ret, c) := ctl_open l c in
      if negb (ret =? 0) then (c :: r, l)
      else let '(r, l) := apply_ctls_l (apply_ctl l c) r in (c :: r, l)
  end.

(** ** Paths *)

Definition apply_path_l (i : option nat) (l : mixer_log) (p : path) : path * mixer_log :=
  let '(cs, l) := apply_ctls_l (l ++ [Path i (p_id p)]) (ctl_array p) in (mk_path (p_id p) cs, l).

Definition set_use_count (n : Z) (d : device) : device := mk_device (d_type d) n (path_array d).

(** [apply_device_path_l] on the path at position [j] of device [i]. *)
Definition apply_device_path_l (i j : nat) (d : device) (l : mixer_log) : device * mixer_log :=
  match path_array d !! j with
  | None => (d, l)
  | Some p =>
      let run d := let '(p, l) := apply_path_l (Some i) l p in
                   (mk_device (d_type d) (use_count d) (<[j := p]> (path_array d)), l) in
      if p_id p =? e_path_id_off then
        let d := set_use_count (use_count d - 1) d in
        if 0 <? use_count d then (d, l) else run d
      else if p_id p =? e_path_id_on then
        let d := set_use_count (use_count d + 1) d in
        if 1 <? use_count d then (d, l) else run d
      else run d
  end.

(** The single walk that looks for both paths; [j] is the position of the list. *)
Fixpoint find_paths (first second : Z) (j : nat) (ps : list path) (found : option nat * option nat)
  : option nat * option nat :=
  match ps with
  | [] => found
  | p :: r =>
      if p_id p =? first then
        let found := (Some j, found.2) in
        if bool_decide (is_Some found.2) || (first =? second) then found
        else find_paths first second (S j) r found
      else if p_id p =? second then
        let found := (found.1, Some j) in
        if bool_decide (is_Some found.1) then found else find_paths first second (S j) r found
      else find_paths first second (S j) r found
  end.

Definition apply_paths_by_id_l (i : nat) (d : device) (first second : Z) (l : mixer_log)
  : device * mixer_log :=
  let found := find_paths first second 0 (path_array d) (None, None) in
  let '(d, l) := match found.1 with Some j => apply_device_path_l i j d l | None => (d, l) end in
  match found.2 with Some j => apply_device_path_l i j d l | None => (d, l) end.

(** The loop of [apply_paths_to_devices_l] from device [i] on. *)
Fixpoint apply_paths_from (i : nat) (ds : list device) (input_flag devices first second : Z)
    (l : mixer_log) : list device * mixer_log :=
  match ds with
  | [] => ([], l)
  | d :: r =>
      if devices =? 0 then (ds, l)
      else if (Z.land (d_type d) input_flag =? input_flag)
              && negb (Z.land (d_type d) devices =? 0) then
        let devices := Z.ldiff devices (d_type d) in
        let '(d, l) := apply_paths_by_id_l i d first second l in
        let '(r, l) := apply_paths_from (S i) r input_flag devices first second l in
        (d :: r, l)
      else
        let '(r, l) := apply_paths_from (S i) r input_flag devices first second l in
        (d :: r, l)
  end.

Definition apply_paths_to_devices_l (ds : list device) (devices first second : Z) (l : mixer_log)
  : list device * mixer_log :=
  apply_paths_from 0 ds (Z.land devices (BIT_IN ms)) (Z.ldiff devices (BIT_IN ms)) first second l.

Fixpoint apply_global_from (i : nat) (ds : list device) (first second : Z) (l : mixer_log)
  : list device * mixer_log :=
  match ds with
  | [] => ([], l)
  | d :: r =>
      if d_type d =? 0 then
        let '(d, l) := apply_paths_by_id_l i d first second l in (d :: r, l)
      else let '(r, l) := apply_global_from (S i) r first second l in (d :: r, l)
  end.

Definition apply_paths_to_global_l (ds : list device) (first second : Z) (l : mixer_log)
  : list device * mixer_log := apply_global_from 0 ds first second l.

(** ** Routes *)

Definition stream_is_input (t : stream_type) : bool :=
  match t with in_pcm | in_compress | in_hw => true | _ => false end.

Definition set_stream_state (ref devices : Z) (s : stream) : stream :=
  mk_stream (s_type s) (card_number s) (device_number s) (rate s) (period_size s) (period_count s)
    (s_name s) ref (max_ref_count s) (enable_path s) (disable_path s) devices
    (volume_left s) (volume_right s) (usecase_array s).

Definition set_devices (ds : list device) (cm : config_mgr) : config_mgr :=
  mk_cm ds (stream_array cm) (supported_output_devices cm) (supported_input_devices cm).

Definition set_stream (i : nat) (s : stream) (cm : config_mgr) : config_mgr :=
  mk_cm (device_array cm) (<[i := s]> (stream_array cm)) (supported_output_devices cm)
    (supported_input_devices cm).

Definition state : Type := config_mgr * mixer_log.

Definition get_current_routes (s : stream) : Z := current_devices s.
Definition get_routed_devices (s : stream) : Z := current_devices s.

(** The devices a route of a stream to [devices] ends with; [None]: refused. *)
Definition routed (s : stream) (devices : Z) : option Z :=
  if devices =? 0 then Some 0
  else if negb (Z.land devices (BIT_IN ms) =? 0) then
    if negb (stream_is_input (s_type s)) then None
    else Some (Z.lor (Z.land devices (IN_ALL ms)) (BIT_IN ms))
  else if stream_is_input (s_type s) then None
  else Some (Z.land devices (OUT_ALL ms)).

Definition apply_route (i : nat) (devices : Z) (st : state) : state :=
  let '(cm, l) := st in
  match stream_array cm !! i with
  | None => st
  | Some s =>
      let enabling := Z.ldiff devices (current_devices s) in
      let disabling := Z.ldiff (current_devices s) devices in
      match routed s devices with
      | None => st
      | Some devices =>
          let '(ds, l) := apply_paths_to_devices_l (device_array cm) disabling
                            (disable_path s) e_path_id_off l in
          let '(ds, l) := apply_paths_to_devices_l ds enabling e_path_id_on (enable_path s) l in
          (set_stream i (set_stream_state (ref_count s) devices s) (set_devices ds cm), l)
      end
  end.

(** ** Volume *)

Definition set_vol_ctl (volctl : stream_control) (percent : Z) (l : mixer_log) : mixer_log :=
  let percent := wrap_u32 percent in
  let val :=
    if percent =? 0 then sc_min volctl
    else if percent =? 100 then sc_max volctl
    else let range := wrap_u32 (sc_max volctl - sc_min volctl) in
         wrap_u32 (sc_min volctl + wrap_u32 (percent * range) / 100) in
  l ++ [SetValue (sc_id volctl) (sc_index volctl) val].

Definition set_hw_volume (s : stream) (left_pc right_pc : Z) (l : mixer_log) : Z * mixer_log :=
  let '(ret, l) :=
    if negb (sc_id (volume_left s) =? UINT_MAX) then
      let left_pc := if sc_id (volume_right s) =? UINT_MAX
                     then c_div (left_pc + right_pc) 2 else left_pc in
      (0, set_vol_ctl (volume_left s) left_pc l)
    else (- ENOSYS, l) in
  if negb (sc_id (volume_right s) =? UINT_MAX)
  then (0, set_vol_ctl (volume_right s) right_pc l) else (ret, l).

(** ** Opening and releasing streams *)

Fixpoint find_named_from (i : nat) (ss : list stream) (name : bytes) : option nat :=
  match ss with
  | [] => None
  | s :: r => if bool_decide (s_name s = Some name) then Some i else find_named_from (S i) r name
  end.

Definition find_named_stream (cm : config_mgr) (name : bytes) : option nat :=
  find_named_from 0 (stream_array cm) name.

Definition open_stream_l (i : nat) (st : state) : bool * state :=
  let '(cm, l) := st in
  match stream_array cm !! i with
  | None => (false, st)
  | Some s =>
      if ref_count s <? max_ref_count s then
        let s' := set_stream_state (ref_count s + 1) (current_devices s) s in
        let cm := set_stream i s' cm in
        if ref_count s' =? 1 then
          let '(ds, l) := apply_paths_to_global_l (device_array cm) e_path_id_on (enable_path s) l in
          (true, (set_devices ds cm, l))
        else (true, (cm, l))
      else (false, st)
  end.

(** The type of stream a request asks for. *)
Definition wanted_type (devices : Z) (pcm : bool) : stream_type :=
  if negb (Z.land devices (BIT_IN ms) =? 0) then if pcm then in_pcm else in_compress
  else if pcm then out_pcm else out_compress.

(** The loop of [get_stream], from the last stream down; [n] streams are left. *)
Fixpoint get_stream_from (n : nat) (type : stream_type) (st : state) : option nat * state :=
  match n with
  | O => (None, st)
  | S i =>
      match stream_array st.1 !! i with
      | Some s =>
          if bool_decide (s_type s = type) then
            let '(opened, st) := open_stream_l i st in
            if opened then (Some i, st) else get_stream_from i type st
          else get_stream_from i type st
      | None => get_stream_from i type st
      end
  end.

Definition get_stream (devices : Z) (pcm : bool) (st : state) : option nat * state :=
  get_stream_from (length (stream_array st.1)) (wanted_type devices pcm) st.

Definition get_named_stream (name : bytes) (st : state) : option nat * state :=
  match find_named_stream st.1 name with
  | None => (None, st)
  | Some i => let '(opened, st) := open_stream_l i st in (if opened then Some i else None, st)
  end.

Definition is_named_stream_defined (cm : config_mgr) (name : bytes) : bool :=
  bool_decide (is_Some (find_named_stream cm name)).

(** [None] is a null pointer. *)
Definition release_stream (i : option nat) (st : state) : state :=
  let '(cm, l) := st in
  match i with
  | None => st
  | Some i =>
      match stream_array cm !! i with
      | None => st
      | Some s =>
          let n := ref_count s - 1 in
          if n =? 0 then
            let '(ds, l) := apply_paths_to_devices_l (device_array cm) (current_devices s)
                              e_path_id_off (disable_path s) l in
            let '(ds, l) := apply_paths_to_global_l ds (disable_path s) e_path_id_off l in
            (set_stream i (set_stream_state n 0 s) (set_devices ds cm), l)
          else (set_stream i (set_stream_state n (current_devices s) s) cm, l)
      end
  end.

(** ** Use cases *)

(** The first case of that name in a list; the controls it opens stay open. *)
Fixpoint apply_case (cs : list scase) (name : bytes) (l : mixer_log)
  : option (list scase * mixer_log) :=
  match cs with
  | [] => None
  | c :: r =>
      if bool_decide (case_name c = name) then
        let '(ctls, l) := apply_ctls_l l (case_ctls c) in Some (mk_case (case_name c) ctls :: r, l)
      else match apply_case r name l with Some (r, l) => Some (c :: r, l) | None => None end
  end.

Fixpoint apply_use_case_from (us : list usecase) (setting name : bytes) (l : mixer_log)
  : option (list usecase * mixer_log) :=
  match us with
  | [] => None
  | u :: r =>
      match (if bool_decide (uc_name u = setting) then apply_case (case_array u) name l else None) with
      | Some (cs, l) => Some (mk_usecase (uc_name u) cs :: r, l)
      | None => match apply_use_case_from r setting name l with
                | Some (r, l) => Some (u :: r, l)
                | None => None
                end
      end
  end.

Definition set_usecases (us : list usecase) (s : stream) : stream :=
  mk_stream (s_type s) (card_number s) (device_number s) (rate s) (period_size s) (period_count s)
    (s_name s) (ref_count s) (max_ref_count s) (enable_path s) (disable_path s) (current_devices s)
    (volume_left s) (volume_right s) us.

Definition apply_use_case (i : nat) (setting name : bytes) (st : state) : Z * state :=
  let '(cm, l) := st in
  match stream_array cm !! i with
  | None => (- ENOSYS, st)
  | Some s =>
      match apply_use_case_from (usecase_array s) setting name l with
      | Some (us, l) => (0, (set_stream i (set_usecases us s) cm, l))
      | None => (- ENOSYS, st)
      end
  end.

(** ** Sequences of calls *)

Inductive audio_op :=
| GetStream (devices : Z) (pcm : bool)
| GetNamedStream (name : bytes)
| ApplyRoute (i : nat) (devices : Z)
| SetHwVolume (i : nat) (left_pc right_pc : Z)
| ApplyUseCase (i : nat) (setting name : bytes)
| ReleaseStream (i : nat).

Definition run_op (o : audio_op) (st : state) : state :=
  match o with
  | GetStream devices pcm => (get_stream devices pcm st).2
  | GetNamedStream name => (get_named_stream name st).2
  | ApplyRoute i devices => apply_route i devices st
  | SetHwVolume i a b =>
      match stream_array st.1 !! i with
      | Some s => (st.1, (set_hw_volume s a b st.2).2)
      | None => st
      end
  | ApplyUseCase i setting name => (apply_use_case i setting name st).2
  | ReleaseStream i => release_stream (Some i) st
  end.

Fixpoint run_ops (os : list audio_op) (st : state) : state :=
  match os with
  | [] => st
  | o :: os => run_ops os (run_op o st)
  end.

End mixer.

(** ** The trace of paths *)

Definition path_event (e : mixer_event) : option (option nat * Z) :=
  match e with Path i id => Some (i, id) | _ => None end.

Definition trace (l : mixer_log) : list (option nat * Z) := omap path_event l.

#[global] Arguments trace : simpl never.

Lemma trace_app l l' : trace (l ++ l') = trace l ++ trace l'.
Proof. apply omap_app. Qed.

Definition has (id : Z) (d : device) : bool := bool_decide (id ∈ p_id <$> path_array d).

(** What no routing call changes of a device. *)
Definition same_shape (d d' : device) : Prop :=
  d_type d' = d_type d /\ p_id <$> path_array d' = p_id <$> path_array d.

Lemma same_shape_has d d' id : same_shape d d' -> has id d' = has id d.
Proof. unfold has. by intros [_ ->]. Qed.

#[global] Instance same_shape_preorder : PreOrder same_shape.
Proof. split; [by split|]. unfold same_shape. intros ??? [] []. split; congruence. Qed.

Section trace.
Context (mx : mixer).

Lemma trace_set_values l id v x n : trace (set_values mx l id v x n) = trace l.
Proof.
  revert l v; induction n as [|n IH]; intros l v; cbn [set_values]; [done|].
  case_test; [|rewrite IH]; rewrite trace_app; cbn; by rewrite app_nil_r.
Qed.

Lemma trace_apply_ctl l c : trace (apply_ctl mx l c) = trace l.
Proof.
  unfold apply_ctl. repeat case_match; try apply trace_set_values; try done;
    rewrite trace_app; cbn; by rewrite app_nil_r.
Qed.

Lemma trace_apply_ctls l cs : trace (apply_ctls_l mx l cs).2 = trace l.
Proof.
  revert l; induction cs as [|c cs IH]; intros l; cbn [apply_ctls_l]; [done|].
  destruct (ctl_open mx l c) as [ret c']. case_test; [done|].
  specialize (IH (apply_ctl mx l c')). destruct (apply_ctls_l mx (apply_ctl mx l c') cs) as [r l'].
  cbn in *. by rewrite IH, trace_apply_ctl.
Qed.

Lemma apply_path_trace i l p :
  p_id (apply_path_l mx i l p).1 = p_id p /\
  trace (apply_path_l mx i l p).2 = trace l ++ [(i, p_id p)].
Proof.
  unfold apply_path_l. pose proof (trace_apply_ctls (l ++ [Path i (p_id p)]) (ctl_array p)) as Ht.
  destruct (apply_ctls_l mx (l ++ [Path i (p_id p)]) (ctl_array p)) as [cs l'].
  cbn in *. by rewrite Ht, trace_app.
Qed.

(** The use count of a device and the events, when the path [id] is applied to it. *)
Definition counted (id n : Z) : Z :=
  if id =? e_path_id_off then n - 1 else if id =? e_path_id_on then n + 1 else n.

Definition applied (id n : Z) : bool :=
  if id =? e_path_id_off then n - 1 <=? 0 else if id =? e_path_id_on then n + 1 <=? 1 else true.

Lemma apply_device_path_spec i j d l p :
  path_array d !! j = Some p ->
  let r := apply_device_path_l mx i j d l in
  same_shape d r.1 /\ use_count r.1 = counted (p_id p) (use_count d) /\
  trace r.2 = trace l ++ (if applied (p_id p) (use_count d) then [(Some i, p_id p)] else []).
Proof.
  intros Hp. unfold apply_device_path_l, counted, applied. rewrite Hp.
  assert (Hrun : forall d', path_array d' = path_array d -> d_type d' = d_type d ->
    let r := (let '(p, l) := apply_path_l mx (Some i) l p in
              (mk_device (d_type d') (use_count d') (<[j := p]> (path_array d')), l)) in
    same_shape d r.1 /\ use_count r.1 = use_count d' /\ trace r.2 = trace l ++ [(Some i, p_id p)]).
  { intros d' Hd' Ht. destruct (apply_path_trace (Some i) l p) as [Hid Htr].
    destruct (apply_path_l mx (Some i) l p) as [p' l']. cbn in *. split_and!; [|done|done].
    split; cbn; [done|]. rewrite list_fmap_insert, Hd', Hid. apply list_insert_id.
    by rewrite list_lookup_fmap, Hp. }
  repeat case_test; cbn in *; try (exfalso; lia);
    first [exact (Hrun d eq_refl eq_refl)
          | exact (Hrun (set_use_count (use_count d - 1) d) eq_refl eq_refl)
          | exact (Hrun (set_use_count (use_count d + 1) d) eq_refl eq_refl)
          | by rewrite app_nil_r].
Qed.

End trace.

(** ** Looking up paths *)

Fixpoint index_of (id : Z) (j : nat) (ps : list path) : option nat :=
  match ps with
  | [] => None
  | p :: r => if p_id p =? id then Some j else index_of id (S j) r
  end.

Definition or_else (a b : option nat) : option nat := match a with Some _ => a | None => b end.

Lemma index_of_none id j ps : id ∉ p_id <$> ps -> index_of id j ps = None.
Proof.
  revert j; induction ps as [|p ps IH]; intros j Hn; cbn in *; [done|].
  apply not_elem_of_cons in Hn as [Hp Hn]. case_test; [congruence|]. by apply IH.
Qed.

Lemma index_of_some id j ps :
  id ∈ p_id <$> ps -> exists k p, index_of id j ps = Some (j + k)%nat /\ ps !! k = Some p /\ p_id p = id.
Proof.
  revert j; induction ps as [|p ps IH]; intros j; cbn; [by intros ?%not_elem_of_nil|].
  intros Hin. case_test; [by exists 0%nat, p; rewrite Nat.add_0_r|].
  apply elem_of_cons in Hin as [Hin|Hin]; [congruence|].
  destruct (IH (S j) Hin) as (k & q & -> & Hq & Hid). exists (S k), q. split_and!; [f_equal; lia|done|done].
Qed.

Lemma or_else_none a : or_else a None = a.
Proof. by destruct a. Qed.

(** With one path per id the walk finds the first and the second path. *)
Lemma find_paths_spec first second j ps found :
  NoDup (p_id <$> ps) -> first <> second ->
  (is_Some found.1 -> first ∉ p_id <$> ps) -> (is_Some found.2 -> second ∉ p_id <$> ps) ->
  find_paths first second j ps found =
    (or_else found.1 (index_of first j ps), or_else found.2 (index_of second j ps)).
Proof.
  intros Hd Hne. revert j found; induction ps as [|p ps IH]; intros j [f1 f2] H1 H2; cbn in *;
    [by rewrite !or_else_none|].
  apply NoDup_cons in Hd as [Hp Hd].
  assert (Hs1 : is_Some f1 -> first ∉ p_id <$> ps) by (intros; set_solver).
  assert (Hs2 : is_Some f2 -> second ∉ p_id <$> ps) by (intros; set_solver).
  destruct (Z.eqb_spec (p_id p) first) as [Hf|Hf]; cbn.
  - assert (Hf1 : f1 = None).
    { apply eq_None_not_Some. intros Hf1. apply H1 in Hf1. apply not_elem_of_cons in Hf1 as [? _]. done. }
    subst f1. rewrite Hf, (proj2 (Z.eqb_neq first second)) by done. cbn [or_else]. rewrite orb_false_r.
    destruct f2 as [k|]; cbn; [done|]. rewrite IH; cbn; [done|done|by rewrite <- Hf|by intros []].
  - destruct (Z.eqb_spec (p_id p) second) as [Hs|Hs]; cbn; [|by apply IH].
    assert (Hf2 : f2 = None).
    { apply eq_None_not_Some. intros Hf2. apply H2 in Hf2. apply not_elem_of_cons in Hf2 as [? _]. done. }
    subst f2. destruct f1 as [k|]; cbn; [done|]. rewrite IH; cbn; [done|done|by intros []|].
    intros _. by rewrite <- Hs.
Qed.

(** What [apply_paths_by_id_l] does to the use count and to the trace. *)
Definition path_count (first second : Z) (d : device) : Z :=
  let n := if has first d then counted first (use_count d) else use_count d in
  if has second d then counted second n else n.

Definition path_trace (i : nat) (first second : Z) (d : device) : list (option nat * Z) :=
  let n := if has first d then counted first (use_count d) else use_count d in
  (if has first d && applied first (use_count d) then [(Some i, first)] else []) ++
  (if has second d && applied second n then [(Some i, second)] else []).

Definition unique_paths (d : device) : Prop := NoDup (p_id <$> path_array d).

Section paths.
Context (mx : mixer) (ms : audio_masks).

Lemma index_of_has id d :
  match index_of id 0 (path_array d) with
  | Some j => has id d = true /\ exists p, path_array d !! j = Some p /\ p_id p = id
  | None => has id d = false
  end.
Proof.
  unfold has. destruct (decide (id ∈ p_id <$> path_array d)) as [Hin|Hn].
  - destruct (index_of_some id 0 _ Hin) as (k & p & -> & Hp & Hid).
    rewrite bool_decide_eq_true_2 by done. split; [done|]. by exists p.
  - rewrite index_of_none by done. by rewrite bool_decide_eq_false_2.
Qed.

Lemma apply_paths_by_id_spec i d first second l :
  unique_paths d -> first <> second ->
  let r := apply_paths_by_id_l mx i d first second l in
  same_shape d r.1 /\ use_count r.1 = path_count first second d /\
  trace r.2 = trace l ++ path_trace i first second d.
Proof.
  intros Hd Hne. unfold apply_paths_by_id_l, path_count, path_trace.
  rewrite find_paths_spec by (done || by intros []). cbn [fst snd or_else].
  pose proof (index_of_has first d) as H1. pose proof (index_of_has second d) as H2.
  assert (Hfirst : let r := match index_of first 0 (path_array d) with
      Some j => apply_device_path_l mx i j d l | None => (d, l) end in
    same_shape d r.1 /\
    use_count r.1 = (if has first d then counted first (use_count d) else use_count d) /\
    trace r.2 = trace l ++ (if has first d && applied first (use_count d) then [(Some i, first)] else [])).
  { destruct (index_of first 0 (path_array d)) as [j|]; cbn zeta.
    - destruct H1 as (-> & p & Hp & <-). by apply apply_device_path_spec.
    - rewrite H1, app_nil_r. by split_and!. }
  destruct (match index_of first 0 (path_array d) with
      Some j => apply_device_path_l mx i j d l | None => (d, l) end) as [d1 l1].
  cbn in Hfirst. destruct Hfirst as (Hs1 & Hc1 & Ht1).
  destruct (index_of second 0 (path_array d)) as [j|]; cbn zeta.
  - destruct H2 as (-> & p & Hp & Hid).
    assert (Hp1 : exists p1, path_array d1 !! j = Some p1 /\ p_id p1 = second).
    { destruct Hs1 as [_ Hids].
      assert (Hl : (p_id <$> path_array d1) !! j = Some second).
      { rewrite Hids, list_lookup_fmap, Hp. cbn. by rewrite Hid. }
      rewrite list_lookup_fmap in Hl. destruct (path_array d1 !! j) as [p1|]; simplify_eq/=. by exists p1. }
    destruct Hp1 as (p1 & Hp1 & Hid1).
    destruct (apply_device_path_spec mx i j d1 l1 p1 Hp1) as (Hs & Hc & Ht).
    rewrite Hid1, Hc1 in *. split_and!; [by etrans|done|]. by rewrite Ht, Ht1, <- app_assoc.
  - rewrite H2, app_nil_r. by split_and!.
Qed.

(** ** Which devices a call reaches *)

(** A device with a bit in common with the mask, direction apart. *)
Definition hits (devices : Z) (d : device) : bool :=
  negb (Z.land (d_type d) (Z.ldiff devices (BIT_IN ms)) =? 0).

(** No two devices share a bit other than the direction. *)
Definition separated (ds : list device) : Prop :=
  forall i j d e, ds !! i = Some d -> ds !! j = Some e -> i <> j ->
    Z.ldiff (Z.land (d_type d) (d_type e)) (BIT_IN ms) = 0.

Ltac zbits :=
  apply Z.bits_inj'; intros ? ?; repeat rewrite ?Z.land_spec, ?Z.ldiff_spec, ?Z.lor_spec, ?Z.bits_0.

Lemma separated_tail d ds : separated (d :: ds) -> separated ds.
Proof. intros Hs i j a b Hi Hj Hne. by apply (Hs (S i) (S j)); [..|congruence]. Qed.

Lemma separated_head d ds e x :
  separated (d :: ds) -> e ∈ ds -> Z.ldiff x (BIT_IN ms) = x ->
  Z.land (d_type e) (Z.ldiff x (d_type d)) = Z.land (d_type e) x.
Proof.
  intros Hs (j & Hj)%list_elem_of_lookup Hx.
  pose proof (Hs 0%nat (S j) d e eq_refl Hj ltac:(done)) as H0. rewrite <- Hx. zbits.
  apply (f_equal (fun z => Z.testbit z n)) in H0.
  rewrite Z.ldiff_spec, Z.land_spec, Z.bits_0 in H0.
  destruct (Z.testbit (d_type d) n), (Z.testbit (d_type e) n), (Z.testbit x n),
    (Z.testbit (BIT_IN ms) n); done.
Qed.

Definition reached (flag devices : Z) (d : device) : bool :=
  (Z.land (d_type d) flag =? flag) && negb (Z.land (d_type d) devices =? 0).

(** The loop over the devices works on each device by itself. *)
Lemma apply_paths_from_spec i ds flag devices first second l :
  separated ds -> Forall unique_paths ds -> first <> second ->
  Z.ldiff devices (BIT_IN ms) = devices ->
  let r := apply_paths_from mx i ds flag devices first second l in
  Forall2 (fun d d' => same_shape d d' /\
    use_count d' = if reached flag devices d then path_count first second d else use_count d) ds r.1 /\
  trace r.2 = trace l ++
    concat (imap (fun k d => if reached flag devices d then path_trace (i + k) first second d else []) ds).
Proof.
  intros Hs Hu Hne. revert i devices l; induction Hu as [|d ds Hd Hu IH]; intros i devices l Hm;
    cbn [apply_paths_from]; [split; [constructor|by rewrite app_nil_r]|].
  pose proof (separated_tail d ds Hs) as Hst. specialize (IH Hst).
  destruct (Z.eqb_spec devices 0) as [->|Hnz].
  { assert (H0 : forall e, reached flag 0 e = false).
    { intros e. unfold reached. rewrite Z.land_0_r. cbn. apply andb_false_r. }
    cbn zeta. cbn [fst snd]. split.
    - apply Forall_Forall2_diag, Forall_true. intros e. rewrite H0. by split.
    - rewrite concat_imap_nil; [by rewrite app_nil_r|]. intros k e _. by rewrite H0. }
  fold (reached flag devices d). rewrite imap_cons. cbn [concat].
  destruct (reached flag devices d) eqn:Hr.
  - destruct (apply_paths_by_id_spec i d first second l Hd Hne) as (Hsh & Hc & Ht).
    destruct (apply_paths_by_id_l mx i d first second l) as [d1 l1]. cbn in Hsh, Hc, Ht.
    assert (Hm' : Z.ldiff (Z.ldiff devices (d_type d)) (BIT_IN ms) = Z.ldiff devices (d_type d)).
    { rewrite <- Hm at 2. zbits.
      destruct (Z.testbit devices n), (Z.testbit (d_type d) n), (Z.testbit (BIT_IN ms) n); done. }
    specialize (IH (S i) (Z.ldiff devices (d_type d)) l1 Hm').
    destruct (apply_paths_from mx (S i) ds flag (Z.ldiff devices (d_type d)) first second l1) as [r l2].
    cbn in IH |- *. destruct IH as [IH1 IH2].
    assert (Heq : forall e, e ∈ ds ->
      reached flag (Z.ldiff devices (d_type d)) e = reached flag devices e).
    { intros e He. unfold reached. by rewrite (separated_head d ds e). }
    split.
    + constructor; [by rewrite Hr|]. eapply Forall2_weaken; [exact IH1|].
      intros e e' He [Ha Hb]. by rewrite Heq in Hb.
    + rewrite IH2, Ht, <- app_assoc, Nat.add_0_r. do 3 f_equal. apply imap_ext_lookup.
      intros k e He. cbn. rewrite Heq by by eapply list_elem_of_lookup_2.
      by rewrite Nat.add_succ_r.
  - specialize (IH (S i) devices l Hm).
    destruct (apply_paths_from mx (S i) ds flag devices first second l) as [r l2].
    cbn in IH |- *. destruct IH as [IH1 IH2]. split.
    + constructor; [by rewrite Hr|done].
    + rewrite IH2. cbn [app]. do 2 f_equal. apply imap_ext_lookup. intros k e He. cbn.
      by rewrite Nat.add_succ_r.
Qed.

End paths.
