(* ===== verification/AudioRoutes.v ===== *)
(** * What audio routing guarantees ([configmgr/audio_config.c])

    Theorems about [AudioRouting]: the use counts of the devices, the order in which
    their [on] and [off] paths are applied, the choice of a stream, the volume. *)

From S2P Require Import Prelude.
From S2P Require Import CString.
From S2P Require Import AudioRouting.

(** ** On and off *)

(** The [on] and [off] paths applied to the device at position [k]. *)
Definition switch_of (k : nat) (e : option nat * Z) : option Z :=
  if decide (e.1 = Some k) then
    if (e.2 =? e_path_id_on) || (e.2 =? e_path_id_off) then Some e.2 else None
  else None.

Definition switches (k : nat) (t : list (option nat * Z)) : list Z := omap (switch_of k) t.

#[global] Arguments switches : simpl never.

(** Runs the switches of a device: on only when it is off, off only when it is on. *)
Fixpoint on_off (b : bool) (t : list Z) : option bool :=
  match t with
  | [] => Some b
  | id :: t =>
      if id =? e_path_id_on then if b then None else on_off true t
      else if b then on_off false t else None
  end.

Lemma on_off_app b t t' :
  on_off b (t ++ t') = match on_off b t with Some b' => on_off b' t' | None => None end.
Proof. revert b; induction t as [|id t IH]; intros b; cbn; [done|]. repeat case_test; auto. Qed.

Lemma switches_app k t t' : switches k (t ++ t') = switches k t ++ switches k t'.
Proof. apply omap_app. Qed.

Definition not_switch (id : Z) : Prop := id <> e_path_id_on /\ id <> e_path_id_off.

Lemma switch_of_other k i id : i <> k -> switch_of k (Some i, id) = None.
Proof. intros. unfold switch_of. rewrite decide_False; [done|]. cbn. congruence. Qed.

Lemma switch_of_not k i id : not_switch id -> switch_of k (Some i, id) = None.
Proof.
  intros [H1 H2]. unfold switch_of. case_decide; [|done]. cbn.
  by rewrite (proj2 (Z.eqb_neq id e_path_id_on)), (proj2 (Z.eqb_neq id e_path_id_off)).
Qed.

Lemma switch_of_same k id : id = e_path_id_on \/ id = e_path_id_off -> switch_of k (Some k, id) = Some id.
Proof. intros Hid. unfold switch_of. rewrite decide_True by done. by destruct Hid as [-> | ->]. Qed.

(** The use count and the switches of a device that is turned on or off. *)
Definition turn_count (up : bool) (d : device) : Z :=
  if up then if has e_path_id_on d then use_count d + 1 else use_count d
  else if has e_path_id_off d then use_count d - 1 else use_count d.

Definition turn_switches (up : bool) (d : device) : list Z :=
  if up then if has e_path_id_on d && (use_count d <=? 0) then [e_path_id_on] else []
  else if has e_path_id_off d && (use_count d <=? 1) then [e_path_id_off] else [].

(** The pairs of paths the code applies: [on] with the stream's path, [off] with the
    stream's path in either order. *)
Definition turn_ids (up : bool) (first second : Z) : Prop :=
  if up then first = e_path_id_on /\ not_switch second
  else (first = e_path_id_off /\ not_switch second) \/ (second = e_path_id_off /\ not_switch first).

Lemma counted_not id n : not_switch id -> counted id n = n.
Proof. intros [H1 H2]. unfold counted. by decide_tests. Qed.

Lemma turn_ids_ne up first second : turn_ids up first second -> first <> second.
Proof. unfold turn_ids, not_switch. destruct up; naive_solver. Qed.

Lemma turn_path_count up first second d :
  turn_ids up first second -> path_count first second d = turn_count up d.
Proof.
  unfold path_count, turn_count. destruct up; [intros [-> Hs] | intros [ [-> Hs] | [-> Hs] ]];
    rewrite ?(counted_not _ _ Hs); cbn;
    repeat match goal with |- context [has ?i d] => destruct (has i d) end; done.
Qed.

Lemma switches_path_trace k i up first second d :
  turn_ids up first second ->
  switches k (path_trace i first second d) = if decide (i = k) then turn_switches up d else [].
Proof.
  intros Ht. unfold path_trace. rewrite switches_app.
  assert (Hone : forall (b : bool) id, switches k (if b then [(Some i, id)] else []) =
    match switch_of k (Some i, id) with Some x => if b then [x] else [] | None => [] end).
  { intros [] id; unfold switches; cbn; by destruct (switch_of k (Some i, id)). }
  rewrite !Hone. case_decide as Hik; [subst k|by rewrite !switch_of_other].
  unfold turn_switches. destruct up; [destruct Ht as [-> Hs]|destruct Ht as [ [-> Hs] | [-> Hs] ]];
    rewrite (switch_of_not _ _ _ Hs), switch_of_same by auto;
    rewrite ?app_nil_r, ?(counted_not _ _ Hs); cbn;
    repeat match goal with |- context [has ?j d] => destruct (has j d) end; cbn;
    unfold applied; cbn; repeat case_test; try done; lia.
Qed.

Lemma switches_concat k (f : nat -> device -> list (option nat * Z)) g ds i :
  (forall j d, switches k (f j d) = if decide ((i + j)%nat = k) then g d else []) ->
  switches k (concat (imap f ds)) =
    match ds !! (k - i)%nat with Some d => if decide (i <= k)%nat then g d else [] | None => [] end.
Proof.
  revert f i; induction ds as [|d ds IH]; intros f i Hf; [done|]. rewrite imap_cons. cbn [concat].
  rewrite switches_app, Hf. rewrite (IH (f ∘ S) (S i)).
  2:{ intros j e. cbn. rewrite Hf. by rewrite Nat.add_succ_r. }
  destruct (decide ((i + 0)%nat = k)) as [Hk|Hk].
  - replace (k - i)%nat with 0%nat by lia. cbn. rewrite decide_True by lia.
    destruct (ds !! (k - S i)%nat); [rewrite decide_False by lia|]; by rewrite app_nil_r.
  - destruct (decide (i <= k)%nat).
    + replace (k - i)%nat with (S (k - S i)) by lia. cbn [lookup list_lookup app].
      destruct (ds !! (k - S i)%nat); [|done]. by rewrite !decide_True by lia.
    + replace (k - i)%nat with 0%nat by lia. replace (k - S i)%nat with 0%nat by lia. cbn.
      destruct (ds !! 0%nat); [by rewrite decide_False by lia|done].
Qed.

Section routes.
Context (mx : mixer) (ms : audio_masks).

(** ** A mask of devices is turned on or off *)

(** The devices a call with this mask works on. *)
Definition onto (devices : Z) (d : device) : bool :=
  (Z.land (d_type d) (Z.land devices (BIT_IN ms)) =? Z.land devices (BIT_IN ms)) && hits ms devices d.

Lemma turn_devices up first second ds devices l :
  turn_ids up first second -> separated ms ds -> Forall unique_paths ds ->
  let r := apply_paths_to_devices_l mx ms ds devices first second l in
  Forall2 same_shape ds r.1 /\
  forall k d, ds !! k = Some d -> exists d', r.1 !! k = Some d' /\ same_shape d d' /\
    use_count d' = (if onto devices d then turn_count up d else use_count d) /\
    switches k (trace r.2) = switches k (trace l) ++
      (if onto devices d then turn_switches up d else []).
Proof.
  intros Ht Hs Hu. unfold apply_paths_to_devices_l.
  destruct (apply_paths_from_spec mx ms 0 ds (Z.land devices (BIT_IN ms)) (Z.ldiff devices (BIT_IN ms))
    first second l Hs Hu (turn_ids_ne _ _ _ Ht)) as [Hd Htr].
  { apply Z.bits_inj'. intros n _. rewrite !Z.ldiff_spec.
    by destruct (Z.testbit devices n), (Z.testbit (BIT_IN ms) n). }
  cbn zeta. split; [eapply Forall2_impl; [exact Hd|]; naive_solver|].
  intros k d Hk. destruct (Forall2_lookup_l _ _ _ _ _ Hd Hk) as (d' & Hd' & Hsh & Hc).
  exists d'. split_and!; [done|done| |].
  - rewrite Hc. change (reached _ _ d) with (onto devices d).
    destruct (onto devices d); [by apply turn_path_count|done].
  - rewrite Htr, switches_app. f_equal.
    rewrite (switches_concat k _ (fun d => if onto devices d then turn_switches up d else []) ds 0).
    + rewrite Nat.sub_0_r, Hk, decide_True by lia. done.
    + intros j e. cbn [plus]. change (reached _ _ e) with (onto devices e).
      destruct (onto devices e); [by apply switches_path_trace|by case_decide].
Qed.

(** ** Bits *)

(** The one bit, direction apart, of a device. *)
Definition device_bit (d : device) (b : Z) : Prop :=
  0 <= b /\ Z.ldiff (d_type d) (BIT_IN ms) = 2 ^ b.

Ltac zbits :=
  apply Z.bits_inj'; intros ? ?; repeat rewrite ?Z.land_spec, ?Z.ldiff_spec, ?Z.lor_spec, ?Z.bits_0.

Lemma device_bit_direction d b : device_bit d b -> Z.testbit (BIT_IN ms) b = false.
Proof.
  intros [Hb Hd]. apply (f_equal (fun z => Z.testbit z b)) in Hd.
  rewrite Z.ldiff_spec, Z.pow2_bits_true in Hd by done. apply andb_true_iff in Hd as [_ Hd].
  by apply negb_true_iff in Hd.
Qed.

Lemma hits_bit d b devices : device_bit d b -> hits ms devices d = Z.testbit devices b.
Proof.
  intros [Hb Hd]. unfold hits.
  assert (Z.land (d_type d) (Z.ldiff devices (BIT_IN ms)) =
    if Z.testbit devices b then 2 ^ b else 0) as ->.
  { transitivity (Z.land (2 ^ b) devices).
    - rewrite <- Hd. zbits.
      by destruct (Z.testbit (d_type d) n), (Z.testbit devices n), (Z.testbit (BIT_IN ms) n).
    - apply Z.bits_inj'. intros n Hn. rewrite Z.land_spec, Z.pow2_bits_eqb by done.
      destruct (Z.eqb_spec b n) as [->|Hne].
      + destruct (Z.testbit devices n) eqn:E; cbn; [by rewrite Z.pow2_bits_true|by rewrite Z.bits_0].
      + cbn. case_match; [|by rewrite Z.bits_0]. rewrite Z.pow2_bits_eqb by done.
        symmetry. by apply Z.eqb_neq. }
  pose proof (Z.pow_pos_nonneg 2 b ltac:(lia) Hb). destruct (Z.testbit devices b); cbn; [|done].
  apply negb_true_iff, Z.eqb_neq. lia.
Qed.

Lemma hits_shape d d' devices : same_shape d d' -> hits ms devices d' = hits ms devices d.
Proof. unfold hits. by intros [-> _]. Qed.

Lemma onto_shape d d' devices : same_shape d d' -> onto devices d' = onto devices d.
Proof. unfold onto, hits. by intros [-> _]. Qed.

Definition input_device (d : device) : Prop := Z.land (d_type d) (BIT_IN ms) = BIT_IN ms.

Lemma onto_hits devices d :
  (hits ms devices d = true -> input_device d) \/ Z.land devices (BIT_IN ms) = 0 ->
  onto devices d = hits ms devices d.
Proof.
  unfold onto. intros [Hd|H0]; [|by rewrite H0, Z.land_0_r].
  destruct (hits ms devices d); [|by rewrite andb_false_r]. rewrite andb_true_r. apply Z.eqb_eq.
  unfold input_device in Hd. rewrite (Z.land_comm devices), Z.land_assoc, Hd by done. done.
Qed.

(** ** The invariant *)

Definition shape_ok (ds : list device) : Prop :=
  separated ms ds /\ Forall unique_paths ds /\
  Forall (fun d => d_type d <> 0 -> exists b, device_bit d b) ds.

Definition stream_ok (ds : list device) (s : stream) : Prop :=
  not_switch (enable_path s) /\ not_switch (disable_path s) /\
  (if stream_is_input (s_type s)
   then forall d, d ∈ ds -> hits ms (current_devices s) d = true -> input_device d
   else Z.land (current_devices s) (BIT_IN ms) = 0).

(** How many streams are routed to a device. *)
Fixpoint users (d : device) (ss : list stream) : Z :=
  match ss with
  | [] => 0
  | s :: r => Z.b2z (hits ms (current_devices s) d) + users d r
  end.

(** A device with both switches. *)
Definition switched (d : device) : Prop :=
  d_type d <> 0 /\ has e_path_id_on d = true /\ has e_path_id_off d = true.

Definition balanced (l : mixer_log) (ss : list stream) (k : nat) (d : device) : Prop :=
  switched d -> use_count d = users d ss /\
    on_off false (switches k (trace l)) = Some (0 <? use_count d).

Record routes_inv (st : state) : Prop := {
  ri_shape : shape_ok (device_array st.1);
  ri_streams : Forall (stream_ok (device_array st.1)) (stream_array st.1);
  ri_balanced : forall k d, device_array st.1 !! k = Some d -> balanced st.2 (stream_array st.1) k d }.

Lemma users_nonneg d ss : 0 <= users d ss.
Proof. induction ss as [|s ss IH]; cbn; [lia|]. destruct (hits _ _ _); cbn; lia. Qed.

Lemma users_shape d d' ss : same_shape d d' -> users d' ss = users d ss.
Proof. intros Hd. induction ss as [|s ss IH]; cbn; [done|]. by rewrite IH, (hits_shape d d'). Qed.

Lemma users_insert d ss i s s' :
  ss !! i = Some s ->
  users d (<[i := s']> ss) = users d ss - Z.b2z (hits ms (current_devices s) d)
    + Z.b2z (hits ms (current_devices s') d).
Proof.
  revert i; induction ss as [|x ss IH]; intros [|i] Hi; simplify_eq/=; [lia|].
  rewrite IH by done. lia.
Qed.

Lemma users_member d ss i s :
  ss !! i = Some s -> hits ms (current_devices s) d = true -> 1 <= users d ss.
Proof.
  revert i; induction ss as [|x ss IH]; intros [|i] Hi Hh; simplify_eq/=.
  - rewrite Hh. pose proof (users_nonneg d ss). cbn. lia.
  - pose proof (IH i Hi Hh). destruct (hits ms (current_devices x) d); cbn; lia.
Qed.

Lemma shape_ok_ext ds ds' : Forall2 same_shape ds ds' -> shape_ok ds -> shape_ok ds'.
Proof.
  intros Hds (Hs & Hu & Hb). split_and!.
  - intros i j d' e' Hi Hj Hne.
    destruct (Forall2_lookup_r _ _ _ _ _ Hds Hi) as (d & Hd & [-> _]).
    destruct (Forall2_lookup_r _ _ _ _ _ Hds Hj) as (e & He & [-> _]). by eapply Hs.
  - apply Forall_lookup. intros k d' Hk.
    destruct (Forall2_lookup_r _ _ _ _ _ Hds Hk) as (d & Hd & [_ Hp]).
    unfold unique_paths. rewrite Hp. by eapply (Forall_lookup_1 _ _ _ _ Hu).
  - apply Forall_lookup. intros k d' Hk.
    destruct (Forall2_lookup_r _ _ _ _ _ Hds Hk) as (d & Hd & [Ht _]).
    unfold device_bit. rewrite Ht. by eapply (Forall_lookup_1 _ _ _ _ Hb).
Qed.

Lemma input_shape d d' : same_shape d d' -> input_device d -> input_device d'.
Proof. unfold input_device. by intros [-> _]. Qed.

Lemma stream_ok_ext ds ds' s : Forall2 same_shape ds ds' -> stream_ok ds s -> stream_ok ds' s.
Proof.
  intros Hds (He & Hd & Hs). split_and!; [done|done|]. destruct (stream_is_input (s_type s)); [|done].
  intros d' (k & Hk)%list_elem_of_lookup Hh.
  destruct (Forall2_lookup_r _ _ _ _ _ Hds Hk) as (d & Hd' & Hsh).
  rewrite (hits_shape d d') in Hh by done. eapply input_shape; [done|].
  eapply Hs; [by eapply list_elem_of_lookup_2|done].
Qed.

Lemma switched_shape d d' : same_shape d d' -> switched d' -> switched d.
Proof.
  intros Hd. unfold switched. rewrite !(same_shape_has d d') by done. by destruct Hd as [-> _].
Qed.

(** Turning a device on, or off when it is on, keeps its switches in order. *)
Lemma turn_ok (up : bool) (d : device) (sw : list Z) :
  switched d -> on_off false sw = Some (0 <? use_count d) ->
  (if up then 0 <= use_count d else 1 <= use_count d) ->
  on_off false (sw ++ turn_switches up d) = Some (0 <? turn_count up d).
Proof.
  intros (_ & Hon & Hoff) Hsw Hc. rewrite on_off_app, Hsw. unfold turn_switches, turn_count.
  destruct up; rewrite ?Hon, ?Hoff; cbn [andb].
  - destruct (Z.eq_dec (use_count d) 0) as [->|H0]; [done|]. by decide_tests.
  - destruct (Z.eq_dec (use_count d) 1) as [->|H1]; [done|]. by decide_tests.
Qed.

(** ** Operations preserve the invariant *)

(** Replacing a stream by one that uses the same devices. *)
Lemma users_same d ss i s s' :
  ss !! i = Some s -> current_devices s' = current_devices s ->
  users d (<[i := s']> ss) = users d ss.
Proof. intros Hi Hc. rewrite (users_insert d ss i s) by done. rewrite Hc. lia. Qed.

Lemma balanced_same l l' ss ss' k d :
  users d ss' = users d ss -> switches k (trace l') = switches k (trace l) ->
  balanced l ss k d -> balanced l' ss' k d.
Proof. unfold balanced. by intros -> ->. Qed.

(** A step that leaves devices, routes and traces alone. *)
Lemma routes_quiet cm l l' i s s' :
  routes_inv (cm, l) -> stream_array cm !! i = Some s ->
  current_devices s' = current_devices s -> s_type s' = s_type s ->
  enable_path s' = enable_path s -> disable_path s' = disable_path s ->
  trace l' = trace l -> routes_inv (set_stream i s' cm, l').
Proof.
  intros [Hsh Hst Hb] Hi Hc Ht He Hd Htr. cbn in *. split; cbn; [done| |].
  - apply Forall_insert; [done|]. unfold stream_ok. rewrite Hc, Ht, He, Hd.
    by apply (Forall_lookup_1 _ _ _ _ Hst Hi).
  - intros k d Hk. eapply balanced_same, Hb; [|by rewrite Htr|done]. by eapply users_same.
Qed.

(** The routes of a stream change from [old] to [new], the devices with it. *)
Lemma inv_reroute cm l ds2 l2 i s s' :
  routes_inv (cm, l) -> stream_array cm !! i = Some s ->
  Forall2 same_shape (device_array cm) ds2 -> stream_ok (device_array cm) s' ->
  (forall k d, device_array cm !! k = Some d -> switched d ->
    exists d2, ds2 !! k = Some d2 /\
      use_count d2 = use_count d - Z.b2z (hits ms (current_devices s) d)
        + Z.b2z (hits ms (current_devices s') d) /\
      on_off false (switches k (trace l2)) = Some (0 <? use_count d2)) ->
  routes_inv (set_stream i s' (set_devices ds2 cm), l2).
Proof.
  intros [Hsh Hst Hb] Hi Hds Hs' Hstep. cbn in *. split; cbn.
  - by eapply shape_ok_ext.
  - apply Forall_insert.
    + eapply Forall_impl; [exact Hst|]. intros x. by apply stream_ok_ext.
    + by eapply stream_ok_ext.
  - intros k d2 Hk2. destruct (Forall2_lookup_r _ _ _ _ _ Hds Hk2) as (d & Hk & Hd). intros Hsw.
    apply (switched_shape d d2) in Hsw; [|done].
    destruct (Hstep k d Hk Hsw) as (d2' & Hk2' & Hc & Ho). simplify_eq. split; [|done].
    rewrite (users_shape d d2) by done. rewrite (users_insert d _ i s) by done.
    destruct (Hb k d Hk Hsw) as [<- _]. lia.
Qed.

(** Whatever the paths, one mask turned off and one turned on. *)
Lemma reroute_devices ds l off1 off2 on1 on2 disabling enabling k d :
  turn_ids false off1 off2 -> turn_ids true on1 on2 -> shape_ok ds ->
  ds !! k = Some d -> switched d ->
  onto disabling d = hits ms disabling d -> onto enabling d = hits ms enabling d ->
  on_off false (switches k (trace l)) = Some (0 <? use_count d) ->
  (hits ms disabling d = true -> hits ms enabling d = false /\ 1 <= use_count d) ->
  0 <= use_count d ->
  let r1 := apply_paths_to_devices_l mx ms ds disabling off1 off2 l in
  let r2 := apply_paths_to_devices_l mx ms r1.1 enabling on1 on2 r1.2 in
  exists d2, r2.1 !! k = Some d2 /\
    use_count d2 = use_count d - Z.b2z (hits ms disabling d) + Z.b2z (hits ms enabling d) /\
    on_off false (switches k (trace r2.2)) = Some (0 <? use_count d2).
Proof.
  intros Hoff Hon Hsh Hk Hsw Hodis Hoen Hoo Hdis Hc r1 r2.
  pose proof Hsh as (Hsep & Hup & _).
  destruct (turn_devices false off1 off2 ds disabling l Hoff Hsep Hup) as [Hds1 Hk1].
  destruct (Hk1 k d Hk) as (d1 & Hd1 & Hs1 & Hc1 & Ht1). fold r1 in Hds1, Hd1, Ht1. rewrite Hodis in *.
  destruct (shape_ok_ext _ _ Hds1 Hsh) as (Hsep1 & Hup1 & _).
  destruct (turn_devices true on1 on2 r1.1 enabling r1.2 Hon Hsep1 Hup1) as [Hds2 Hk2].
  destruct (Hk2 k d1 Hd1) as (d2 & Hd2 & Hs2 & Hc2 & Ht2). fold r2 in Hds2, Hd2, Ht2.
  rewrite (onto_shape d d1), Hoen in * by done.
  exists d2. split; [done|]. pose proof Hsw as (_ & Hhon & Hhoff).
  rewrite Hc2, Ht2, Ht1. unfold turn_count in *. rewrite Hhoff in *.
  destruct (hits ms disabling d) eqn:E1.
  - destruct (Hdis eq_refl) as [-> H1]. rewrite app_nil_r, Hc1. split; [cbn; lia|].
    pose proof (turn_ok false d _ Hsw Hoo H1) as Hok. unfold turn_count in Hok. by rewrite Hhoff in Hok.
  - rewrite app_nil_r. destruct (hits ms enabling d) eqn:E2.
    + rewrite (same_shape_has d d1), Hhon, Hc1 by done. split; [cbn; lia|].
      assert (Hsw1 : switched d1).
      { unfold switched. rewrite !(same_shape_has d d1) by done. by destruct Hs1 as [-> _]. }
      pose proof (turn_ok true d1 (switches k (trace l)) Hsw1) as Hok. rewrite Hc1 in Hok.
      specialize (Hok Hoo Hc). unfold turn_count in Hok.
      by rewrite (same_shape_has d d1), Hhon, Hc1 in Hok.
    + rewrite app_nil_r, Hc1. by split; [cbn; lia|].
Qed.

(** The requests the theorems are about: bits of the platform's masks, and for an input
    only bits of input devices. *)
Definition routable (ds : list device) (t : stream_type) (devices : Z) : Prop :=
  if stream_is_input t then
    Z.land devices (Z.lor (IN_ALL ms) (BIT_IN ms)) = devices /\
    forall d, d ∈ ds -> hits ms devices d = true -> input_device d
  else Z.land devices (OUT_ALL ms) = devices.

Lemma routed_hits ds s devices devices' d :
  routable ds (s_type s) devices -> routed ms s devices = Some devices' ->
  (d_type d <> 0 -> exists b, device_bit d b) ->
  hits ms devices' d = hits ms devices d.
Proof.
  unfold routable, routed. intros Hr Hd Hbit.
  destruct (decide (d_type d = 0)) as [H0|H0]; [by unfold hits; rewrite H0|].
  destruct (Hbit H0) as [b Hb]. pose proof (device_bit_direction d b Hb) as Hdir.
  rewrite !(hits_bit d b) by done.
  destruct (Z.eqb_spec devices 0) as [->|Hne]; [by simplify_eq|].
  destruct (stream_is_input (s_type s)).
  - destruct Hr as [Hr _]. repeat case_test_in Hd; simplify_eq/=.
    rewrite Z.lor_spec, Z.land_spec, Hdir, orb_false_r. rewrite <- Hr at 2.
    by rewrite Z.land_spec, Z.lor_spec, Hdir, orb_false_r.
  - repeat case_test_in Hd; simplify_eq/=. by rewrite Hr.
Qed.

Lemma routed_direction ds s devices devices' :
  routable ds (s_type s) devices -> routed ms s devices = Some devices' ->
  stream_is_input (s_type s) = false ->
  Z.land devices (BIT_IN ms) = 0 /\ Z.land devices' (BIT_IN ms) = 0.
Proof.
  unfold routable, routed. intros Hr Hd Hi. rewrite Hi in *.
  destruct (Z.eqb_spec devices 0) as [->|Hne]; [by simplify_eq|].
  cbn in Hd. destruct (Z.eqb_spec (Z.land devices (BIT_IN ms)) 0) as [H0|H0]; [|done].
  cbn in Hd. simplify_eq. by rewrite Hr.
Qed.

Lemma ldiff_direction a b : Z.land a (BIT_IN ms) = 0 -> Z.land (Z.ldiff a b) (BIT_IN ms) = 0.
Proof.
  intros Ha. zbits. apply (f_equal (fun z => Z.testbit z n)) in Ha.
  rewrite Z.land_spec, Z.bits_0 in Ha.
  destruct (Z.testbit a n), (Z.testbit b n), (Z.testbit (BIT_IN ms) n); done.
Qed.

Lemma apply_route_eq cm l i s devices devices' :
  stream_array cm !! i = Some s -> routed ms s devices = Some devices' ->
  apply_route mx ms i devices (cm, l) =
    let r1 := apply_paths_to_devices_l mx ms (device_array cm) (Z.ldiff (current_devices s) devices)
                (disable_path s) e_path_id_off l in
    let r2 := apply_paths_to_devices_l mx ms r1.1 (Z.ldiff devices (current_devices s))
                e_path_id_on (enable_path s) r1.2 in
    (set_stream i (set_stream_state (ref_count s) devices' s) (set_devices r2.1 cm), r2.2).
Proof.
  intros Hi Hr. unfold apply_route. rewrite Hi, Hr.
  destruct (apply_paths_to_devices_l mx ms (device_array cm) _ _ _ l) as [ds1 l1]. cbn [fst snd].
  by destruct (apply_paths_to_devices_l mx ms ds1 _ _ _ l1) as [ds2 l2].
Qed.

Lemma two_turns_shape ds l off1 off2 on1 on2 disabling enabling :
  turn_ids false off1 off2 -> turn_ids true on1 on2 -> shape_ok ds ->
  let r1 := apply_paths_to_devices_l mx ms ds disabling off1 off2 l in
  Forall2 same_shape ds (apply_paths_to_devices_l mx ms r1.1 enabling on1 on2 r1.2).1.
Proof.
  intros Hoff Hon Hsh r1. pose proof Hsh as (Hsep & Hup & _).
  destruct (turn_devices false off1 off2 ds disabling l Hoff Hsep Hup) as [Hds1 _]. fold r1 in Hds1.
  destruct (shape_ok_ext _ _ Hds1 Hsh) as (Hsep1 & Hup1 & _).
  destruct (turn_devices true on1 on2 r1.1 enabling r1.2 Hon Hsep1 Hup1) as [Hds2 _].
  by etrans.
Qed.

Lemma apply_route_inv i devices st :
  routes_inv st ->
  (forall s, stream_array st.1 !! i = Some s -> routable (device_array st.1) (s_type s) devices) ->
  routes_inv (apply_route mx ms i devices st).
Proof.
  destruct st as [cm l]. intros Hinv Hreq. cbn in Hreq.
  destruct (stream_array cm !! i) as [s|] eqn:Hi; [|by unfold apply_route; rewrite Hi].
  specialize (Hreq s eq_refl).
  destruct (routed ms s devices) as [devices'|] eqn:Hrt; [|by unfold apply_route; rewrite Hi, Hrt].
  rewrite (apply_route_eq cm l i s devices devices') by done.
  pose proof Hinv as [Hsh Hst Hb]. cbn in Hsh, Hst, Hb.
  pose proof (Forall_lookup_1 _ _ _ _ Hst Hi) as (Hen & Hdis & Hdir).
  pose proof Hsh as (_ & _ & Hbits).
  assert (Hoff : turn_ids false (disable_path s) e_path_id_off) by (right; done).
  assert (Hon : turn_ids true e_path_id_on (enable_path s)) by done.
  assert (Hhits : forall d, d ∈ device_array cm -> hits ms devices' d = hits ms devices d).
  { intros d Hd. eapply routed_hits; [done|done|]. rewrite Forall_forall in Hbits. by apply Hbits. }
  apply (inv_reroute cm l _ _ i s); [done|done|by apply two_turns_shape| |].
  - split_and!; [done|done|]. cbn. destruct (stream_is_input (s_type s)) eqn:Hin.
    + intros d Hd. rewrite Hhits by done. unfold routable in Hreq. rewrite Hin in Hreq.
      by apply Hreq.
    + by eapply routed_direction.
  - intros k d Hk Hsw. destruct (Hb k d Hk Hsw) as [Hu Hoo].
    assert (Hd : d ∈ device_array cm) by by eapply list_elem_of_lookup_2.
    destruct (Forall_lookup_1 _ _ _ _ Hbits Hk) as [b Hbit]; [apply Hsw|].
    assert (Hdirs : forall x y, (x = devices /\ y = current_devices s) \/ (y = devices /\ x = current_devices s) ->
      onto (Z.ldiff x y) d = hits ms (Z.ldiff x y) d).
    { intros x y Hxy. apply onto_hits. destruct (stream_is_input (s_type s)) eqn:Hin.
      - left. rewrite (hits_bit d b), Z.ldiff_spec, <- !(hits_bit d b) by done.
        unfold routable in Hreq. rewrite Hin in Hreq.
        intros [Hx _]%andb_true_iff. destruct Hxy as [[-> _]|[_ ->]]; [by apply Hreq|by apply Hdir].
      - right. apply ldiff_direction. destruct (routed_direction _ _ _ _ Hreq Hrt Hin) as [H1 _].
        by destruct Hxy as [[-> _]|[_ ->]]. }
    pose proof (users_nonneg d (stream_array cm)) as Hnn.
    destruct (reroute_devices (device_array cm) l (disable_path s) e_path_id_off e_path_id_on (enable_path s)
      (Z.ldiff (current_devices s) devices) (Z.ldiff devices (current_devices s)) k d)
      as (d2 & Hd2 & Hc2 & Ho2); try done.
    + apply Hdirs. by right.
    + apply Hdirs. by left.
    + rewrite !(hits_bit d b), !Z.ldiff_spec, <- !(hits_bit d b) by done.
      intros [Hcur Hn]%andb_true_iff. apply negb_true_iff in Hn. rewrite Hn. split; [done|].
      rewrite Hu. by eapply users_member.
    + lia.
    + exists d2. split_and!; [done| |done]. rewrite Hc2. cbn. rewrite Hhits by done.
      rewrite !(hits_bit d b), !Z.ldiff_spec, <- !(hits_bit d b) by done.
      destruct (hits ms devices d), (hits ms (current_devices s) d); cbn; lia.
Qed.

(** The global paths touch only the global device. *)
Lemma global_spec i ds first second l :
  first <> second -> Forall unique_paths ds ->
  let r := apply_global_from mx i ds first second l in
  Forall2 (fun d d' => same_shape d d' /\ (d_type d <> 0 -> d' = d)) ds r.1 /\
  forall k, (forall j d, ds !! j = Some d -> (i + j)%nat = k -> d_type d <> 0) ->
    switches k (trace r.2) = switches k (trace l).
Proof.
  intros Hne Hu. revert i l; induction Hu as [|d ds Hd Hu IH]; intros i l; [by split; [constructor|]|].
  cbn [apply_global_from]. destruct (Z.eqb_spec (d_type d) 0) as [H0|H0].
  - destruct (apply_paths_by_id_spec mx i d first second l Hd Hne) as (Hs & _ & Ht).
    destruct (apply_paths_by_id_l mx i d first second l) as [d' l']. cbn in *. split.
    + constructor; [done|]. apply Forall_Forall2_diag, Forall_true. by intros e.
    + intros k Hk. assert (i <> k).
      { intros ->. apply (Hk 0%nat d eq_refl); [lia|done]. }
      rewrite Ht, switches_app. unfold path_trace. rewrite switches_app.
      assert (Hsw : forall (b : bool) id, switches k (if b then [(Some i, id)] else []) = []).
      { intros [] id; [|done]. unfold switches. cbn. by rewrite switch_of_other. }
      by rewrite !Hsw, !app_nil_r.
  - specialize (IH (S i) l). destruct (apply_global_from mx (S i) ds first second l) as [r l'].
    cbn in *. destruct IH as [IH1 IH2]. split; [by constructor|].
    intros k Hk. apply IH2. intros j e Hj Hjk. apply (Hk (S j) e Hj). lia.
Qed.

Lemma inv_global st first second :
  first <> second -> routes_inv st ->
  let r := apply_paths_to_global_l mx (device_array st.1) first second st.2 in
  routes_inv (set_devices r.1 st.1, r.2).
Proof.
  intros Hne [Hsh Hst Hb] r. pose proof Hsh as (_ & Hup & _).
  destruct (global_spec 0 (device_array st.1) first second st.2 Hne Hup) as [Hds Htr].
  fold (apply_paths_to_global_l mx (device_array st.1) first second st.2) in Hds, Htr. fold r in Hds, Htr.
  assert (Hds' : Forall2 same_shape (device_array st.1) r.1) by (eapply Forall2_impl; [exact Hds|]; naive_solver).
  split; cbn.
  - by eapply shape_ok_ext.
  - eapply Forall_impl; [exact Hst|]. intros s. by apply stream_ok_ext.
  - intros k d' Hk'. destruct (Forall2_lookup_r _ _ _ _ _ Hds Hk') as (d & Hk & Hsd & Heq).
    intros Hsw. assert (H0 : d_type d <> 0) by (by apply (switched_shape d d')).
    rewrite (Heq H0) in *. rewrite Htr; [by apply Hb|]. intros j e Hj Hjk. cbn in Hjk. subst j. naive_solver.
Qed.

Lemma open_stream_inv i st : routes_inv st -> routes_inv (open_stream_l mx i st).2.
Proof.
  destruct st as [cm l]. intros Hinv. unfold open_stream_l.
  destruct (stream_array cm !! i) as [s|] eqn:Hi; [|done]. case_test; [|done].
  assert (Hq : routes_inv (set_stream i (set_stream_state (ref_count s + 1) (current_devices s) s) cm, l))
    by (by eapply routes_quiet).
  case_test; [|done].
  pose proof (Forall_lookup_1 _ _ _ _ (ri_streams _ Hinv) Hi) as ([Hen _] & _ & _).
  pose proof (inv_global _ e_path_id_on (enable_path s) ltac:(congruence) Hq) as Hg. cbn in Hg |- *.
  by destruct (apply_global_from mx 0 (device_array cm) e_path_id_on (enable_path s) l).
Qed.

Lemma get_stream_from_inv n type st : routes_inv st -> routes_inv (get_stream_from mx n type st).2.
Proof.
  revert st; induction n as [|n IH]; intros st Hinv; cbn [get_stream_from]; [done|].
  destruct (stream_array st.1 !! n); [|by apply IH]. case_match; [|by apply IH].
  pose proof (open_stream_inv n st Hinv) as Ho. destruct (open_stream_l mx n st) as [[] st']; [done|by apply IH].
Qed.

Lemma release_stream_inv i st : routes_inv st -> routes_inv (release_stream mx ms (Some i) st).
Proof.
  destruct st as [cm l]. intros Hinv. unfold release_stream.
  destruct (stream_array cm !! i) as [s|] eqn:Hi; [|done]. case_test; [|by eapply routes_quiet].
  pose proof Hinv as [Hsh Hst Hb]. cbn in Hsh, Hst, Hb.
  pose proof (Forall_lookup_1 _ _ _ _ Hst Hi) as (Hen & Hdis & Hdir).
  pose proof Hsh as (Hsep & Hup & Hbits).
  assert (Hoff : turn_ids false e_path_id_off (disable_path s)) by (left; done).
  destruct (turn_devices false _ _ (device_array cm) (current_devices s) l Hoff Hsep Hup) as [Hds1 Hk1].
  destruct (apply_paths_to_devices_l mx ms (device_array cm) (current_devices s)
    e_path_id_off (disable_path s) l) as [ds1 l1]. cbn [fst snd] in *.
  assert (Hr : routes_inv (set_stream i (set_stream_state (ref_count s - 1) 0 s) (set_devices ds1 cm), l1)).
  { apply (inv_reroute cm l ds1 l1 i s); [done|done|done| |].
    - split_and!; [done|done|]. cbn. destruct (stream_is_input _); [|done].
      intros d Hd. unfold hits. by rewrite Z.ldiff_0_l, Z.land_0_r.
    - intros k d Hk Hsw. destruct (Hb k d Hk Hsw) as [Hu Hoo].
      destruct (Hk1 k d Hk) as (d1 & Hd1 & Hs1 & Hc1 & Ht1). exists d1. split; [done|].
      assert (Hon : onto (current_devices s) d = hits ms (current_devices s) d).
      { apply onto_hits. destruct (stream_is_input (s_type s)); [left|by right].
        apply Hdir. by eapply list_elem_of_lookup_2. }
      rewrite Hon in *. cbn [set_stream_state current_devices].
      assert (Hz : hits ms 0 d = false) by (unfold hits; by rewrite Z.ldiff_0_l, Z.land_0_r).
      rewrite Hz, Ht1, Hc1. destruct (hits ms (current_devices s) d) eqn:Hh; cbn [Z.b2z].
      + pose proof (users_member d _ i s Hi Hh). split.
        * unfold turn_count. destruct Hsw as (_ & _ & ->). lia.
        * apply (turn_ok false); [done|done|lia].
      + rewrite app_nil_r. split; [lia|done]. }
  pose proof (inv_global _ (disable_path s) e_path_id_off ltac:(by destruct Hdis) Hr) as Hg. cbn in Hg.
  unfold apply_paths_to_global_l in *.
  destruct (apply_global_from mx 0 ds1 (disable_path s) e_path_id_off l1) as [ds2 l2].
  exact Hg.
Qed.

Lemma trace_case cs name l cs' l' :
  apply_case mx cs name l = Some (cs', l') -> trace l' = trace l.
Proof.
  revert cs'; induction cs as [|c cs IH]; intros cs' Hc; cbn [apply_case] in Hc; [done|].
  case_match.
  - pose proof (trace_apply_ctls mx l (case_ctls c)) as Ht.
    destruct (apply_ctls_l mx l (case_ctls c)) as [r l0]. by simplify_eq.
  - destruct (apply_case mx cs name l) as [[r l0]|]; simplify_eq. by eapply IH.
Qed.

Lemma trace_use_case us setting name l us' l' :
  apply_use_case_from mx us setting name l = Some (us', l') -> trace l' = trace l.
Proof.
  revert us'; induction us as [|u us IH]; intros us' Hc; cbn [apply_use_case_from] in Hc; [done|].
  destruct (if bool_decide (uc_name u = setting) then apply_case mx (case_array u) name l else None)
    as [[cs l0]|] eqn:Hcase.
  - simplify_eq. case_match; [|done]. by eapply trace_case.
  - destruct (apply_use_case_from mx us setting name l) as [[r l0]|]; simplify_eq. by eapply IH.
Qed.

Lemma trace_set_vol c percent l : trace (set_vol_ctl c percent l) = trace l.
Proof. unfold set_vol_ctl. rewrite trace_app. apply app_nil_r. Qed.

Lemma trace_volume s a b l : trace (set_hw_volume s a b l).2 = trace l.
Proof.
  unfold set_hw_volume.
  destruct (negb (sc_id (volume_left s) =? UINT_MAX)), (negb (sc_id (volume_right s) =? UINT_MAX));
    cbn; by rewrite ?trace_set_vol.
Qed.

Lemma inv_log cm l l' : routes_inv (cm, l) -> trace l' = trace l -> routes_inv (cm, l').
Proof. intros [Hsh Hst Hb] Ht. split; cbn in *; [done|done|]. intros k d Hk. unfold balanced. rewrite Ht. by apply Hb. Qed.

(** ** What no call changes *)

Lemma by_id_shape i d first second l : same_shape d (apply_paths_by_id_l mx i d first second l).1.
Proof.
  assert (Hone : forall j d l, same_shape d (apply_device_path_l mx i j d l).1).
  { intros j e l0. destruct (path_array e !! j) as [p|] eqn:Hp.
    - by destruct (apply_device_path_spec mx i j e l0 p Hp).
    - unfold apply_device_path_l. by rewrite Hp. }
  unfold apply_paths_by_id_l.
  destruct (find_paths first second 0 (path_array d) (None, None)) as [[j1|] [j2|]]; cbn; [..|apply Hone|done];
    pose proof (Hone j1 d l) as H1; destruct (apply_device_path_l mx i j1 d l) as [d1 l1]; [|exact H1].
  etrans; [exact H1|apply Hone].
Qed.

Lemma from_shape i ds flag devices first second l :
  Forall2 same_shape ds (apply_paths_from mx i ds flag devices first second l).1.
Proof.
  revert i devices l; induction ds as [|d ds IH]; intros i devices l; cbn [apply_paths_from]; [constructor|].
  case_test; [done|]. case_test.
  - pose proof (by_id_shape i d first second l) as Hd.
    destruct (apply_paths_by_id_l mx i d first second l) as [d1 l1].
    specialize (IH (S i) (Z.ldiff devices (d_type d)) l1).
    destruct (apply_paths_from mx (S i) ds flag (Z.ldiff devices (d_type d)) first second l1). by constructor.
  - specialize (IH (S i) devices l). destruct (apply_paths_from mx (S i) ds flag devices first second l).
    by constructor.
Qed.

Lemma global_shape i ds first second l :
  Forall2 same_shape ds (apply_global_from mx i ds first second l).1.
Proof.
  revert i l; induction ds as [|d ds IH]; intros i l; cbn [apply_global_from]; [constructor|]. case_test.
  - pose proof (by_id_shape i d first second l) as Hd.
    by destruct (apply_paths_by_id_l mx i d first second l); constructor.
  - specialize (IH (S i) l). destruct (apply_global_from mx (S i) ds first second l). by constructor.
Qed.

Definition same_config (cm cm' : config_mgr) : Prop :=
  Forall2 same_shape (device_array cm) (device_array cm') /\
  s_type <$> stream_array cm' = s_type <$> stream_array cm.

#[local] Instance same_config_preorder : PreOrder same_config.
Proof. split; [by split|]. unfold same_config. intros ??? [] []. split; [by etrans|congruence]. Qed.

Lemma set_stream_config i s s' cm :
  stream_array cm !! i = Some s -> s_type s' = s_type s -> same_config cm (set_stream i s' cm).
Proof.
  intros Hi Ht. split; [done|]. cbn. rewrite list_fmap_insert, Ht. apply list_insert_id.
  by rewrite list_lookup_fmap, Hi.
Qed.

Lemma set_devices_config ds cm : Forall2 same_shape (device_array cm) ds -> same_config cm (set_devices ds cm).
Proof. by split. Qed.

Lemma open_stream_config i st : same_config st.1 (open_stream_l mx i st).2.1.
Proof.
  destruct st as [cm l]. unfold open_stream_l. destruct (stream_array cm !! i) as [s|] eqn:Hi; [|done].
  case_test; [|done]. case_test; [|by eapply set_stream_config].
  pose proof (global_shape 0 (device_array cm) e_path_id_on (enable_path s) l) as Hg.
  unfold apply_paths_to_global_l. cbn.
  destruct (apply_global_from mx 0 (device_array cm) e_path_id_on (enable_path s) l) as [ds l']. cbn in *.
  transitivity (set_stream i (set_stream_state (ref_count s + 1) (current_devices s) s) cm);
    [by eapply set_stream_config|by apply set_devices_config].
Qed.

Lemma get_stream_from_config n type st : same_config st.1 (get_stream_from mx n type st).2.1.
Proof.
  revert st; induction n as [|n IH]; intros st; cbn [get_stream_from]; [done|].
  destruct (stream_array st.1 !! n); [|apply IH]. case_match; [|apply IH].
  pose proof (open_stream_config n st) as Ho. destruct (open_stream_l mx n st) as [[] st']; cbn in *; [done|].
  etrans; [exact Ho|apply IH].
Qed.

Lemma run_op_config o st : same_config st.1 (run_op mx ms o st).1.
Proof.
  destruct st as [cm l], o as [devices pcm|name|i devices|i a b|i setting name|i]; cbn [run_op].
  - apply get_stream_from_config.
  - unfold get_named_stream. destruct (find_named_stream _ _) as [i|]; [|done].
    pose proof (open_stream_config i (cm, l)) as Ho. by destruct (open_stream_l mx i (cm, l)) as [[] st'].
  - unfold apply_route. destruct (stream_array cm !! i) as [s|] eqn:Hi; [|done].
    destruct (routed ms s devices) as [d'|]; [|done]. unfold apply_paths_to_devices_l.
    match goal with |- context [apply_paths_from mx 0 ?a ?b ?c ?d ?e ?f] =>
      pose proof (from_shape 0 a b c d e f) as H1; destruct (apply_paths_from mx 0 a b c d e f) as [ds1 l1] end.
    match goal with |- context [apply_paths_from mx 0 ?a ?b ?c ?d ?e ?f] =>
      pose proof (from_shape 0 a b c d e f) as H2; destruct (apply_paths_from mx 0 a b c d e f) as [ds2 l2] end.
    cbn in *. etrans; [apply (set_devices_config ds2 cm); by etrans|by eapply (set_stream_config i s)].
  - cbn. by destruct (stream_array cm !! i).
  - unfold apply_use_case. destruct (stream_array cm !! i) as [s|] eqn:Hi; [|done].
    destruct (apply_use_case_from _ _ _ _ _) as [[us l']|]; [|done]. by eapply set_stream_config.
  - unfold release_stream. destruct (stream_array cm !! i) as [s|] eqn:Hi; [|done].
    case_test; [|by eapply set_stream_config].
    unfold apply_paths_to_devices_l, apply_paths_to_global_l.
    match goal with |- context [apply_paths_from mx 0 ?a ?b ?c ?d ?e ?f] =>
      pose proof (from_shape 0 a b c d e f) as H1; destruct (apply_paths_from mx 0 a b c d e f) as [ds1 l1] end.
    match goal with |- context [apply_global_from mx 0 ?a ?b ?c ?d] =>
      pose proof (global_shape 0 a b c d) as H2; destruct (apply_global_from mx 0 a b c d) as [ds2 l2] end.
    cbn in *. etrans; [apply (set_devices_config ds2 cm); by etrans|by eapply (set_stream_config i s)].
Qed.

(** ** Devices without an [off] path

    Those of [audio.mocha.xml]: whatever the other devices and the requests are, the first
    use applies [on], and nothing applies it again. *)

Definition only_on (d : device) : Prop := has e_path_id_on d = true /\ has e_path_id_off d = false.

Definition once (k : nat) (d : device) (l : mixer_log) : Prop :=
  0 <= use_count d /\ switches k (trace l) = if 0 <? use_count d then [e_path_id_on] else [].

(** Work on the device at position [i] concerns no other, and keeps [once]. *)
Definition works (i : nat) (d : device) (l : mixer_log) (r : device * mixer_log) : Prop :=
  same_shape d r.1 /\ (forall k, k <> i -> switches k (trace r.2) = switches k (trace l)) /\
  (only_on d -> once i d l -> once i r.1 r.2).

Lemma works_refl i d l : works i d l (d, l).
Proof. by split. Qed.

Lemma works_trans i d l r r' : works i d l r -> works i r.1 r.2 r' -> works i d l r'.
Proof.
  intros (H1 & H2 & H3) (H1' & H2' & H3'). split; [by etrans|]. split.
  - intros k Hk. by rewrite H2', H2.
  - intros Ho Hd. apply H3'; [|by apply H3]. destruct Ho. by split; rewrite (same_shape_has d).
Qed.

Lemma device_path_works i j d l : works i d l (apply_device_path_l mx i j d l).
Proof.
  destruct (path_array d !! j) as [p|] eqn:Hp.
  2:{ unfold apply_device_path_l. rewrite Hp. apply works_refl. }
  destruct (apply_device_path_spec mx i j d l p Hp) as (Hs & Hc & Ht).
  split; [done|]. split.
  - intros k Hk. rewrite Ht, switches_app. case_match; [|apply app_nil_r].
    unfold switches at 2. cbn. by rewrite switch_of_other, app_nil_r.
  - intros [_ Hoff] [H0 Hsw]. unfold once. rewrite Hc, Ht, switches_app, Hsw.
    assert (Hno : p_id p <> e_path_id_off).
    { intros He. unfold has in Hoff. apply bool_decide_eq_false in Hoff. destruct Hoff.
      rewrite <- He. apply list_elem_of_fmap. exists p. split; [done|]. by eapply list_elem_of_lookup_2. }
    unfold counted, applied. rewrite (proj2 (Z.eqb_neq _ _) Hno).
    destruct (Z.eqb_spec (p_id p) e_path_id_on) as [He|He].
    + rewrite He. split; [lia|]. rewrite (proj2 (Z.ltb_lt 0 (use_count d + 1))) by lia.
      destruct (Z.leb_spec (use_count d + 1) 1); [|rewrite (proj2 (Z.ltb_lt 0 (use_count d))) by lia; done].
      replace (use_count d) with 0 by lia. unfold switches. cbn. by rewrite switch_of_same by auto.
    + split; [done|]. unfold switches. cbn. rewrite switch_of_not by done. by rewrite app_nil_r.
Qed.

Lemma by_id_works i d first second l : works i d l (apply_paths_by_id_l mx i d first second l).
Proof.
  unfold apply_paths_by_id_l.
  destruct (find_paths first second 0 (path_array d) (None, None)) as [[j1|] [j2|]]; cbn;
    [..|apply device_path_works|apply works_refl];
    pose proof (device_path_works i j1 d l) as H1; destruct (apply_device_path_l mx i j1 d l) as [d1 l1];
    [|exact H1]. eapply works_trans; [exact H1|apply device_path_works].
Qed.

(** Work on the devices from position [i] on. *)
Definition all_work (i : nat) (ds : list device) (l : mixer_log) (r : list device * mixer_log) : Prop :=
  Forall2 same_shape ds r.1 /\
  (forall k, (k < i)%nat \/ (i + length ds <= k)%nat -> switches k (trace r.2) = switches k (trace l)) /\
  (forall j d d', ds !! j = Some d -> r.1 !! j = Some d' -> only_on d -> once (i + j) d l -> once (i + j) d' r.2).

Lemma all_work_refl i ds l : all_work i ds l (ds, l).
Proof. split; [done|]. split; [done|]. intros j d d' Hd Hd'. cbn in Hd'. by simplify_eq. Qed.

Lemma once_log k d l l' : switches k (trace l') = switches k (trace l) -> once k d l -> once k d l'.
Proof. unfold once. by intros ->. Qed.

Lemma all_work_cons i d ds l r1 r2 :
  works i d l r1 -> all_work (S i) ds r1.2 r2 -> all_work i (d :: ds) l (r1.1 :: r2.1, r2.2).
Proof.
  intros (Hs & Hk & Ho) (Hss & Hks & Hos). split; [by constructor|]. split; cbn [fst snd].
  - intros k Hr. cbn [length] in Hr. rewrite Hks, Hk by lia. done.
  - intros [|j] e e' He He' Hon Hn; cbn in He, He'.
    + simplify_eq. rewrite Nat.add_0_r in *. apply (once_log _ _ r1.2); [apply Hks; lia|by apply Ho].
    + rewrite Nat.add_succ_r in *. apply (Hos j e e' He He' Hon), (once_log _ _ l); [apply Hk; lia|done].
Qed.

Lemma from_works i ds flag devices first second l :
  all_work i ds l (apply_paths_from mx i ds flag devices first second l).
Proof.
  revert i devices l; induction ds as [|d ds IH]; intros i devices l; cbn [apply_paths_from];
    [apply all_work_refl|]. case_test; [apply all_work_refl|]. case_test.
  - pose proof (by_id_works i d first second l) as Hd.
    destruct (apply_paths_by_id_l mx i d first second l) as [d1 l1].
    specialize (IH (S i) (Z.ldiff devices (d_type d)) l1).
    destruct (apply_paths_from mx (S i) ds flag (Z.ldiff devices (d_type d)) first second l1) as [r l2].
    exact (all_work_cons i d ds l (d1, l1) (r, l2) Hd IH).
  - specialize (IH (S i) devices l). destruct (apply_paths_from mx (S i) ds flag devices first second l) as [r l2].
    exact (all_work_cons i d ds l (d, l) (r, l2) (works_refl i d l) IH).
Qed.

Lemma global_works i ds first second l :
  all_work i ds l (apply_global_from mx i ds first second l).
Proof.
  revert i l; induction ds as [|d ds IH]; intros i l; cbn [apply_global_from]; [apply all_work_refl|]. case_test.
  - pose proof (by_id_works i d first second l) as Hd.
    destruct (apply_paths_by_id_l mx i d first second l) as [d1 l1].
    exact (all_work_cons i d ds l (d1, l1) (ds, l1) Hd (all_work_refl (S i) ds l1)).
  - specialize (IH (S i) l). destruct (apply_global_from mx (S i) ds first second l) as [r l2].
    exact (all_work_cons i d ds l (d, l) (r, l2) (works_refl i d l) IH).
Qed.

(** Every device without an [off] path, in a state. *)
Definition once_inv (ds : list device) (l : mixer_log) : Prop :=
  forall k d, ds !! k = Some d -> only_on d -> once k d l.

Lemma once_works ds l r : all_work 0 ds l r -> once_inv ds l -> once_inv r.1 r.2.
Proof.
  intros (Hs & _ & Hw) Hi k d' Hk' [Hon Hoff]. destruct (Forall2_lookup_r _ _ _ _ _ Hs Hk') as (d & Hk & Hsd).
  assert (only_on d) by (by split; rewrite <- (same_shape_has d d')).
  by apply (Hw k d d'), Hi.
Qed.

Lemma open_stream_once i st :
  once_inv (device_array st.1) st.2 -> once_inv (device_array (open_stream_l mx i st).2.1) (open_stream_l mx i st).2.2.
Proof.
  destruct st as [cm l]. intros Hi. unfold open_stream_l. destruct (stream_array cm !! i) as [s|]; [|done].
  case_test; [|done]. case_test; [|done]. cbn in Hi |- *. unfold apply_paths_to_global_l.
  pose proof (once_works _ _ _ (global_works 0 (device_array cm) e_path_id_on (enable_path s) l) Hi) as H.
  by destruct (apply_global_from mx 0 (device_array cm) e_path_id_on (enable_path s) l).
Qed.

Lemma get_stream_from_once n type st :
  once_inv (device_array st.1) st.2 ->
  once_inv (device_array (get_stream_from mx n type st).2.1) (get_stream_from mx n type st).2.2.
Proof.
  revert st; induction n as [|n IH]; intros st Hi; cbn [get_stream_from]; [done|].
  destruct (stream_array st.1 !! n); [|by apply IH]. case_match; [|by apply IH].
  pose proof (open_stream_once n st Hi) as Ho. destruct (open_stream_l mx n st) as [[] st']; [done|by apply IH].
Qed.

Lemma run_op_once o st :
  once_inv (device_array st.1) st.2 ->
  once_inv (device_array (run_op mx ms o st).1) (run_op mx ms o st).2.
Proof.
  destruct st as [cm l], o as [devices pcm|name|i devices|i a b|i setting name|i]; intros Hi; cbn [run_op].
  - by apply get_stream_from_once.
  - unfold get_named_stream. destruct (find_named_stream _ _) as [i|]; [|done].
    pose proof (open_stream_once i (cm, l) Hi) as Ho. by destruct (open_stream_l mx i (cm, l)) as [[] st'].
  - unfold apply_route. destruct (stream_array cm !! i) as [s|]; [|done].
    destruct (routed ms s devices) as [d'|]; [|done]. unfold apply_paths_to_devices_l. cbn in Hi.
    match goal with |- context [apply_paths_from mx 0 ?a ?b ?c ?d ?e ?f] =>
      pose proof (once_works _ _ _ (from_works 0 a b c d e f) Hi) as H1;
      destruct (apply_paths_from mx 0 a b c d e f) as [ds1 l1] end.
    match goal with |- context [apply_paths_from mx 0 ?a ?b ?c ?d ?e ?f] =>
      pose proof (once_works _ _ _ (from_works 0 a b c d e f) H1) as H2;
      destruct (apply_paths_from mx 0 a b c d e f) as [ds2 l2] end.
    exact H2.
  - cbn. destruct (stream_array cm !! i); [|done]. intros k d Hk Ho.
    apply (once_log _ _ l); [f_equal; apply trace_volume|by apply Hi].
  - unfold apply_use_case. destruct (stream_array cm !! i) as [s|]; [|done].
    destruct (apply_use_case_from _ _ _ _ _) as [[us l']|] eqn:Hu; [|done]. intros k d Hk Ho.
    apply (once_log _ _ l); [f_equal; by eapply trace_use_case|by apply Hi].
  - unfold release_stream. destruct (stream_array cm !! i) as [s|]; [|done]. case_test; [|done].
    unfold apply_paths_to_devices_l, apply_paths_to_global_l. cbn in Hi.
    match goal with |- context [apply_paths_from mx 0 ?a ?b ?c ?d ?e ?f] =>
      pose proof (once_works _ _ _ (from_works 0 a b c d e f) Hi) as H1;
      destruct (apply_paths_from mx 0 a b c d e f) as [ds1 l1] end.
    match goal with |- context [apply_global_from mx 0 ?a ?b ?c ?d] =>
      pose proof (once_works _ _ _ (global_works 0 a b c d) H1) as H2;
      destruct (apply_global_from mx 0 a b c d) as [ds2 l2] end.
    exact H2.
Qed.

Lemma run_ops_once os st :
  once_inv (device_array st.1) st.2 ->
  once_inv (device_array (run_ops mx ms os st).1) (run_ops mx ms os st).2.
Proof. revert st; induction os as [|o os IH]; intros st Hi; cbn [run_ops]; [done|]. by apply IH, run_op_once. Qed.

(** The requests of a sequence of calls, judged by the devices and the stream types,
    which no call changes. *)
Definition op_routable (cm : config_mgr) (o : audio_op) : Prop :=
  match o with
  | ApplyRoute i devices => forall s, stream_array cm !! i = Some s ->
      routable (device_array cm) (s_type s) devices
  | _ => True
  end.

Lemma routable_ext ds ds' t devices : Forall2 same_shape ds ds' -> routable ds t devices -> routable ds' t devices.
Proof.
  intros Hds. unfold routable. destruct (stream_is_input t); [|done]. intros [Hm Hd]. split; [done|].
  intros d' (k & Hk)%list_elem_of_lookup Hh.
  destruct (Forall2_lookup_r _ _ _ _ _ Hds Hk) as (d & Hdk & Hsh).
  rewrite (hits_shape d d') in Hh by done. eapply input_shape; [done|].
  apply Hd; [by eapply list_elem_of_lookup_2|done].
Qed.

Lemma op_routable_ext cm cm' o : same_config cm cm' -> op_routable cm o -> op_routable cm' o.
Proof.
  intros [Hds Ht]. destruct o as [| |i devices| | |]; cbn; try done. intros Hr s' Hs'.
  apply (f_equal (fun k => k !! i)) in Ht. rewrite !list_lookup_fmap, Hs' in Ht. cbn in Ht.
  destruct (stream_array cm !! i) as [s|] eqn:Hi; [|done]. simplify_eq/=.
  rewrite Ht. eapply routable_ext; [done|]. by apply Hr.
Qed.

Lemma run_op_routes o st : routes_inv st -> op_routable st.1 o -> routes_inv (run_op mx ms o st).
Proof.
  intros Hinv Hr. destruct o as [devices pcm|name|i devices|i a b|i setting name|i]; cbn [run_op].
  - by apply get_stream_from_inv.
  - unfold get_named_stream. destruct (find_named_stream _ _) as [i|]; [|done].
    pose proof (open_stream_inv i st Hinv) as Ho. by destruct (open_stream_l mx i st) as [[] st'].
  - by apply apply_route_inv.
  - destruct (stream_array st.1 !! i) as [s|]; [|done]. destruct st as [cm l].
    eapply inv_log; [done|]. apply trace_volume.
  - unfold apply_use_case. destruct st as [cm l]. destruct (stream_array cm !! i) as [s|] eqn:Hi; [|done].
    destruct (apply_use_case_from mx (usecase_array s) setting name l) as [[us l']|] eqn:Hu; [|done].
    eapply routes_quiet; try done. by eapply trace_use_case.
  - by apply release_stream_inv.
Qed.

Lemma run_ops_routes os st :
  routes_inv st -> Forall (op_routable st.1) os -> routes_inv (run_ops mx ms os st).
Proof.
  revert st; induction os as [|o os IH]; intros st Hinv Hr; cbn [run_ops]; [done|].
  apply Forall_cons in Hr as [Ho Hr]. apply IH; [by apply run_op_routes|].
  eapply Forall_impl; [exact Hr|]. intros o'. apply op_routable_ext, run_op_config.
Qed.

(** A configuration as the parser leaves it: nothing in use, nothing switched. *)
Definition fresh (st : state) : Prop :=
  shape_ok (device_array st.1) /\
  Forall (fun d => use_count d = 0) (device_array st.1) /\
  Forall (fun s => not_switch (enable_path s) /\ not_switch (disable_path s) /\ current_devices s = 0)
    (stream_array st.1) /\
  forall k, switches k (trace st.2) = [].

(** What is left of that without conditions on the configuration. *)
Definition idle (st : state) : Prop :=
  Forall (fun d => use_count d = 0) (device_array st.1) /\ forall k, switches k (trace st.2) = [].

Lemma idle_once st : idle st -> once_inv (device_array st.1) st.2.
Proof. intros [Hu Ht] k d Hk _. unfold once. by rewrite (Forall_lookup_1 _ _ _ _ Hu Hk), Ht. Qed.

Lemma fresh_inv st : fresh st -> routes_inv st.
Proof.
  intros (Hsh & Hu & Hst & Ht). split; [done| |].
  - eapply Forall_impl; [exact Hst|]. intros s (He & Hd & Hc). split_and!; [done|done|].
    rewrite Hc, Z.land_0_l. destruct (stream_is_input _); [|done].
    intros d _. unfold hits. by rewrite Z.ldiff_0_l, Z.land_0_r.
  - intros k d Hk _. rewrite (Forall_lookup_1 _ _ _ _ Hu Hk), Ht. split; [|done].
    clear Hu Hk. induction Hst as [|s ss (_ & _ & Hc) Hss IH]; cbn; [done|]. rewrite Hc, <- IH.
    unfold hits. by rewrite Z.ldiff_0_l, Z.land_0_r.
Qed.


(** ** Rerouting an input *)

(** The events at the device at position [k]. *)
Definition events_at (k : nat) (t : list (option nat * Z)) : list (option nat * Z) :=
  filter (fun e => e.1 = Some k) t.

Lemma by_id_events i d first second l :
  exists new, trace (apply_paths_by_id_l mx i d first second l).2 = trace l ++ new /\
    Forall (fun e => e.1 = Some i) new.
Proof.
  assert (Hone : forall j d l, exists new, trace (apply_device_path_l mx i j d l).2 = trace l ++ new /\
    Forall (fun e => e.1 = Some i) new).
  { intros j e l0. destruct (path_array e !! j) as [p|] eqn:Hp.
    - destruct (apply_device_path_spec mx i j e l0 p Hp) as (_ & _ & ->).
      eexists; split; [done|]. case_match; by repeat constructor.
    - unfold apply_device_path_l. rewrite Hp. exists []. by rewrite app_nil_r. }
  unfold apply_paths_by_id_l.
  destruct (find_paths first second 0 (path_array d) (None, None)) as [[j1|] [j2|]]; cbn;
    [| |apply Hone|exists []; by rewrite app_nil_r];
    destruct (Hone j1 d l) as (n1 & H1 & F1); destruct (apply_device_path_l mx i j1 d l) as [d1 l1];
    cbn in *; [|by exists n1].
  destruct (Hone j2 d1 l1) as (n2 & H2 & F2). exists (n1 ++ n2).
  rewrite H2, H1, <- app_assoc. split; [done|by apply Forall_app].
Qed.

Lemma by_id_events_other k i d first second l :
  i <> k -> events_at k (trace (apply_paths_by_id_l mx i d first second l).2) = events_at k (trace l).
Proof.
  intros Hne. destruct (by_id_events i d first second l) as (new & -> & Hn).
  unfold events_at. rewrite filter_app.
  assert (filter (fun e : option nat * Z => e.1 = Some k) new = []) as ->; [|by rewrite app_nil_r].
  induction Hn as [|e new He Hn IH]; [done|]. rewrite filter_cons_False; [done|]. congruence.
Qed.

Lemma land_ldiff_0 a b c : Z.land a b = 0 -> Z.land a (Z.ldiff b c) = 0.
Proof.
  intros Hab. zbits. apply (f_equal (fun z => Z.testbit z n)) in Hab.
  rewrite Z.land_spec, Z.bits_0 in Hab. destruct (Z.testbit a n), (Z.testbit b n), (Z.testbit c n); done.
Qed.

(** A device with no bit of the mask is left alone. *)
Lemma from_misses i ds flag devices first second l :
  let r := apply_paths_from mx i ds flag devices first second l in
  (forall k d, ds !! k = Some d -> Z.land (d_type d) devices = 0 -> r.1 !! k = Some d) /\
  (forall k, (forall j d, ds !! j = Some d -> (i + j)%nat = k -> Z.land (d_type d) devices = 0) ->
    events_at k (trace r.2) = events_at k (trace l)).
Proof.
  revert i devices l; induction ds as [|e ds IH]; intros i devices l; [done|].
  cbn [apply_paths_from]. case_test; [done|]. case_test.
  - match goal with H : Z.land (d_type e) devices <> 0 |- _ => rename H into He end.
    pose proof (fun k Hk => by_id_events_other k i e first second l Hk) as Hev.
    destruct (apply_paths_by_id_l mx i e first second l) as [e' l1].
    destruct (IH (S i) (Z.ldiff devices (d_type e)) l1) as [H1 H2].
    destruct (apply_paths_from mx (S i) ds flag (Z.ldiff devices (d_type e)) first second l1) as [r l2].
    cbn in *. split.
    + intros [|k] d Hk Hd; simplify_eq/=. by apply H1, land_ldiff_0.
    + intros k Hk. assert (i <> k).
      { intros ->. apply He, (Hk 0%nat); [done|lia]. }
      rewrite H2; [by apply Hev|]. intros j d Hj Hjk. apply land_ldiff_0, (Hk (S j)); [done|lia].
  - destruct (IH (S i) devices l) as [H1 H2].
    destruct (apply_paths_from mx (S i) ds flag devices first second l) as [r l2]. cbn in *. split.
    + intros [|k] d Hk Hd; simplify_eq/=; [done|]. by apply H1.
    + intros k Hk. apply H2. intros j d Hj Hjk. apply (Hk (S j)); [done|lia].
Qed.

(** Devices without a bit of the mask are passed over; the first that has it takes it. *)
Lemma from_first i ds1 o ds2 devices first second l :
  Forall (fun d => Z.land (d_type d) devices = 0) ds1 -> devices <> 0 ->
  Z.land (d_type o) devices = devices ->
  apply_paths_from mx i (ds1 ++ o :: ds2) 0 devices first second l =
    let r := apply_paths_by_id_l mx (i + length ds1) o first second l in (ds1 ++ r.1 :: ds2, r.2).
Proof.
  intros Hds Hne Ho. revert i; induction Hds as [|d ds1 Hd Hds IH]; intros i; cbn [app apply_paths_from].
  - rewrite (proj2 (Z.eqb_neq devices 0)), Ho, (proj2 (Z.eqb_neq devices 0)) by done.
    rewrite Z.land_0_r, Nat.add_0_r. cbn [Z.eqb negb andb].
    assert (Z.ldiff devices (d_type o) = 0) as ->.
    { rewrite <- Ho. zbits. by destruct (Z.testbit (d_type o) n), (Z.testbit devices n). }
    destruct (apply_paths_by_id_l mx i o first second l) as [o' l'].
    by destruct ds2; cbn [apply_paths_from].
  - rewrite (proj2 (Z.eqb_neq devices 0)), Hd by done. cbn [Z.eqb negb]. rewrite andb_false_r.
    rewrite IH. cbn. by rewrite Nat.add_succ_r.
Qed.

Lemma bit_land o b n : device_bit o b -> 0 <= n -> n <> b -> Z.testbit (BIT_IN ms) n = false ->
  Z.land (d_type o) (2 ^ n) = 0.
Proof.
  intros [Hb Ho] Hn Hne Hdir. zbits. rewrite Z.pow2_bits_eqb by done.
  destruct (Z.eqb_spec n n0) as [<-|?]; [|by rewrite andb_false_r].
  apply (f_equal (fun z => Z.testbit z n)) in Ho.
  rewrite Z.ldiff_spec, Hdir, Z.pow2_bits_false, andb_true_r in Ho by lia. by rewrite Ho.
Qed.

Lemma bit_own o b : device_bit o b -> Z.land (d_type o) (2 ^ b) = 2 ^ b.
Proof.
  intros [Hb Ho]. rewrite <- Ho. zbits.
  by destruct (Z.testbit (d_type o) n), (Z.testbit (BIT_IN ms) n).
Qed.

(** The masks of a route from the input bit [m] to the input bit [n]. *)
Lemma reroute_mask m n :
  0 <= m -> 0 <= n -> m <> n -> Z.testbit (BIT_IN ms) n = false ->
  let mask := Z.ldiff (Z.lor (BIT_IN ms) (2 ^ n)) (Z.lor (BIT_IN ms) (2 ^ m)) in
  Z.land mask (BIT_IN ms) = 0 /\ Z.ldiff mask (BIT_IN ms) = 2 ^ n.
Proof.
  intros Hm Hn Hne Hdir. split; apply Z.bits_inj'; intros k Hk;
    rewrite ?Z.land_spec, ?Z.ldiff_spec, ?Z.lor_spec, ?Z.pow2_bits_eqb, ?Z.bits_0 by done.
  - by destruct (Z.testbit (BIT_IN ms) k), (n =? k), (m =? k).
  - destruct (Z.eqb_spec n k) as [<-|?].
    + rewrite Hdir, (proj2 (Z.eqb_neq m n)) by done. done.
    + by destruct (Z.testbit (BIT_IN ms) k), (m =? k).
Qed.

(** Moving a routed input stream to another input device: the direction bit is
    already routed, so the mask of newly enabled devices lacks it and is matched against
    output devices too.  When an output device with the same bit comes first in the
    file, its [on] path is counted as applied and the requested input device is not
    touched at all, although the stream records it as routed. *)
Theorem reroute_misses_input (cm : config_mgr) (l : mixer_log) (i : nat) (s : stream) (m n : Z)
    (ds1 ds2 ds3 : list device) (o mic : device) :
  stream_array cm !! i = Some s -> stream_is_input (s_type s) = true ->
  current_devices s = Z.lor (BIT_IN ms) (2 ^ m) ->
  routed ms s (Z.lor (BIT_IN ms) (2 ^ n)) = Some (Z.lor (BIT_IN ms) (2 ^ n)) ->
  0 <= m -> m <> n -> Z.testbit (BIT_IN ms) m = false ->
  device_array cm = ds1 ++ o :: ds2 ++ mic :: ds3 ->
  Forall (fun d => Z.land (d_type d) (2 ^ n) = 0) ds1 ->
  device_bit o n -> device_bit mic n -> unique_paths o ->
  has e_path_id_on o = true -> not_switch (enable_path s) ->
  let st := apply_route mx ms i (Z.lor (BIT_IN ms) (2 ^ n)) (cm, l) in
  let k := (length ds1 + 1 + length ds2)%nat in
  (exists s', stream_array st.1 !! i = Some s' /\
    current_devices s' = Z.lor (BIT_IN ms) (2 ^ n)) /\
  device_array st.1 !! k = Some mic /\ events_at k (trace st.2) = events_at k (trace l) /\
  exists o', device_array st.1 !! length ds1 = Some o' /\ use_count o' = use_count o + 1.
Proof.
  intros Hi Hin Hcur Hrt Hm Hne Hdm Hds Hds1 Ho Hmic Huo Hon Hen st k.
  pose proof (device_bit_direction o n Ho) as Hdn. pose proof Ho as [Hn _].
  assert (Hk : device_array cm !! k = Some mic).
  { rewrite Hds, lookup_app_r by (unfold k; lia). unfold k.
    replace (length ds1 + 1 + length ds2 - length ds1)%nat with (S (length ds2)) by lia. cbn.
    by apply list_lookup_middle. }
  assert (Hk0 : device_array cm !! length ds1 = Some o) by (rewrite Hds; by apply list_lookup_middle).
  unfold st. rewrite (apply_route_eq cm l i s _ _ Hi Hrt). cbn zeta. rewrite Hcur.
  destruct (reroute_mask n m Hn Hm ltac:(done) Hdm) as [Hf1 Hm1].
  destruct (reroute_mask m n Hm Hn Hne Hdn) as [Hf2 Hm2].
  unfold apply_paths_to_devices_l. rewrite Hf1, Hm1, Hf2, Hm2.
  destruct (from_misses 0 (device_array cm) 0 (2 ^ m) (disable_path s) e_path_id_off l) as [H1 H2].
  pose proof (from_shape 0 (device_array cm) 0 (2 ^ m) (disable_path s) e_path_id_off l) as Hsh.
  pose proof (H1 k mic Hk (bit_land mic n m Hmic Hm Hne Hdm)) as Hmic1.
  pose proof (H1 _ o Hk0 (bit_land o n m Ho Hm Hne Hdm)) as Ho1.
  assert (Hev1 : events_at k (trace (apply_paths_from mx 0 (device_array cm) 0 (2 ^ m) (disable_path s)
    e_path_id_off l).2) = events_at k (trace l)).
  { apply H2. intros j d Hj Hjk. cbn in Hjk. subst j. simplify_eq. by apply (bit_land mic n m). }
  destruct (apply_paths_from mx 0 (device_array cm) 0 (2 ^ m) (disable_path s) e_path_id_off l) as [r1 l1].
  cbn [fst snd] in *. clear H1 H2. rewrite Hds in Hsh.
  apply Forall2_app_inv_l in Hsh as (k1 & k2 & Hk1 & Hk2 & ->).
  apply Forall2_cons_inv_l in Hk2 as (o1 & k3 & Ho' & _ & ->).
  pose proof (Forall2_length _ _ _ Hk1) as Hlen.
  rewrite Hlen, list_lookup_middle in Ho1 by done. simplify_eq.
  rewrite from_first; [|..|by apply bit_own]; [| |lia].
  - cbn [plus]. destruct (apply_paths_by_id_spec mx (length k1) o e_path_id_on (enable_path s) l1 Huo)
      as (_ & Hc & _); [by destruct Hen as [Hen _]; congruence|].
    pose proof (by_id_events_other k (length k1) o e_path_id_on (enable_path s) l1) as Hother.
    destruct (apply_paths_by_id_l mx (length k1) o e_path_id_on (enable_path s) l1) as [o' l2].
    cbn [fst snd set_stream set_devices device_array stream_array] in *. split_and!.
    + eexists. split; [apply list_lookup_insert_eq; by eapply lookup_lt_Some|done].
    + rewrite lookup_app_r in Hmic1 |- * by (unfold k; lia). unfold k in *.
      replace (length ds1 + 1 + length ds2 - length k1)%nat with (S (length ds2)) in * by lia. done.
    + rewrite Hother; [done|]. unfold k. lia.
    + exists o'. rewrite Hlen. split; [by apply list_lookup_middle|]. rewrite Hc.
      rewrite (turn_path_count true) by done. unfold turn_count. by rewrite Hon.
  - eapply Forall_forall. intros d' (j & Hj)%list_elem_of_lookup.
    destruct (Forall2_lookup_r _ _ _ _ _ Hk1 Hj) as (d & Hd & [-> _]).
    by apply (Forall_lookup_1 _ _ _ _ Hds1 Hd).
Qed.

End routes.

(** ** Choosing a stream *)

Lemma open_stream_eq mx i st s :
  stream_array st.1 !! i = Some s ->
  (ref_count s < max_ref_count s -> (open_stream_l mx i st).1 = true /\
    stream_array (open_stream_l mx i st).2.1 =
      <[i := set_stream_state (ref_count s + 1) (current_devices s) s]> (stream_array st.1)) /\
  (max_ref_count s <= ref_count s -> open_stream_l mx i st = (false, st)).
Proof.
  destruct st as [cm l]. cbn [fst]. intros Hi. unfold open_stream_l. rewrite Hi. split; intros H.
  - rewrite (proj2 (Z.ltb_lt _ _)) by done. case_test; [|done].
    unfold apply_paths_to_global_l. by destruct (apply_global_from _ _ _ _ _ _).
  - by rewrite (proj2 (Z.ltb_ge _ _)).
Qed.

(** A stream of the type that can be opened once more. *)
Definition free (type : stream_type) (s : stream) : Prop :=
  s_type s = type /\ ref_count s < max_ref_count s.

Lemma get_stream_from_spec mx n type st :
  (n <= length (stream_array st.1))%nat ->
  match get_stream_from mx n type st with
  | (Some i, st') => exists s, (i < n)%nat /\ stream_array st.1 !! i = Some s /\ free type s /\
      (forall j s', (i < j < n)%nat -> stream_array st.1 !! j = Some s' -> ~ free type s') /\
      stream_array st'.1 = <[i := set_stream_state (ref_count s + 1) (current_devices s) s]> (stream_array st.1)
  | (None, st') => st' = st /\ forall j s, (j < n)%nat -> stream_array st.1 !! j = Some s -> ~ free type s
  end.
Proof.
  induction n as [|n IH]; intros Hn; cbn [get_stream_from]; [split; [done|lia]|].
  destruct (lookup_lt_is_Some_2 (stream_array st.1) n) as [s Hs]; [lia|]. rewrite Hs.
  specialize (IH ltac:(lia)).
  assert (Hskip : ~ free type s -> match get_stream_from mx n type st with
    | (Some i, st') => exists s, (i < S n)%nat /\ stream_array st.1 !! i = Some s /\ free type s /\
        (forall j s', (i < j < S n)%nat -> stream_array st.1 !! j = Some s' -> ~ free type s') /\
        stream_array st'.1 = <[i := set_stream_state (ref_count s + 1) (current_devices s) s]> (stream_array st.1)
    | (None, st') => st' = st /\ forall j s, (j < S n)%nat -> stream_array st.1 !! j = Some s -> ~ free type s
    end).
  { intros Hnf. destruct (get_stream_from mx n type st) as [[i|] st'].
    - destruct IH as (s0 & ? & ? & ? & Hj & ?). exists s0. split_and!; [lia|done|done| |done].
      intros j s' Hlt Hj'. destruct (decide (j = n)) as [->|]; [by simplify_eq|]. apply (Hj j); [lia|done].
    - destruct IH as [-> Hj]. split; [done|]. intros j s' Hlt Hj'.
      destruct (decide (j = n)) as [->|]; [by simplify_eq|]. apply (Hj j); [lia|done]. }
  destruct (open_stream_eq mx n st s Hs) as [Ho1 Ho2]. case_bool_decide as Ht.
  - destruct (Z_lt_le_dec (ref_count s) (max_ref_count s)) as [Hlt|Hge].
    + destruct (Ho1 Hlt) as [Hb Hst]. destruct (open_stream_l mx n st) as [b st']. cbn in *. subst b.
      exists s. split_and!; [lia|done|done|lia|done].
    + rewrite Ho2 by done. apply Hskip. intros [_ ?]. lia.
  - apply Hskip. by intros [? _].
Qed.

(** [get_stream] opens the last stream of the file that has the type the request
    asks for and can still be opened, counting one more reference to it; it returns
    null, changing nothing, exactly when there is none. *)
Theorem get_stream_choice (mx : mixer) (ms : audio_masks) (devices : Z) (pcm : bool) (st : state) :
  let type := wanted_type ms devices pcm in
  match get_stream mx ms devices pcm st with
  | (Some i, st') => exists s, stream_array st.1 !! i = Some s /\ free type s /\
      (forall j s', (i < j)%nat -> stream_array st.1 !! j = Some s' -> ~ free type s') /\
      stream_array st'.1 = <[i := set_stream_state (ref_count s + 1) (current_devices s) s]> (stream_array st.1)
  | (None, st') => st' = st /\ forall j s, stream_array st.1 !! j = Some s -> ~ free type s
  end.
Proof.
  intros type. unfold get_stream. fold type.
  pose proof (get_stream_from_spec mx (length (stream_array st.1)) type st ltac:(lia)) as Hs.
  destruct (get_stream_from mx (length (stream_array st.1)) type st) as [[i|] st'].
  - destruct Hs as (s & Hi & Hl & Hf & Hj & Hst). exists s. split_and!; [done|done| |done].
    intros j s' Hij Hj'. apply (Hj j); [|done]. split; [done|]. by eapply lookup_lt_Some.
  - destruct Hs as [-> Hj]. split; [done|]. intros j s Hj'. apply (Hj j); [|done].
    by eapply lookup_lt_Some.
Qed.

(** ** Volume *)

(** A range whose product with a percentage fits an [unsigned int]. *)
Definition control_ok (c : stream_control) : Prop :=
  0 <= sc_min c <= sc_max c /\ sc_max c < 2 ^ 32 /\ 99 * (sc_max c - sc_min c) < 2 ^ 32.

Lemma set_vol_ctl_range c percent l :
  control_ok c -> 0 <= percent <= 100 ->
  exists v, set_vol_ctl c percent l = l ++ [SetValue (sc_id c) (sc_index c) v] /\
    sc_min c <= v <= sc_max c.
Proof.
  intros ([H0 H1] & H2 & H3) Hp. unfold set_vol_ctl. rewrite (wrap_u32_id percent) by lia.
  eexists. split; [done|]. case_test; [lia|]. case_test; [lia|].
  rewrite (wrap_u32_id (sc_max c - sc_min c)) by lia.
  assert (Hq : 0 <= percent * (sc_max c - sc_min c) <= 99 * (sc_max c - sc_min c)) by nia.
  rewrite (wrap_u32_id (percent * _)) by lia.
  assert (0 <= percent * (sc_max c - sc_min c) / 100 <= sc_max c - sc_min c).
  { split; [apply Z.div_pos; lia|]. apply Z.div_le_upper_bound; nia. }
  rewrite wrap_u32_id; lia.
Qed.

(** Setting the hardware volume of a stream writes its volume controls and nothing
    else, each with a value in the control's range, for percentages from 0 to 100; a
    stream without controls reports that the operation is not supported. *)
Theorem hw_volume_in_range (s : stream) (left_pc right_pc : Z) (l : mixer_log) :
  control_ok (volume_left s) -> control_ok (volume_right s) ->
  0 <= left_pc <= 100 -> 0 <= right_pc <= 100 ->
  exists new, (set_hw_volume s left_pc right_pc l).2 = l ++ new /\
    (set_hw_volume s left_pc right_pc l).1 = (if decide (new = []) then - ENOSYS else 0) /\
    Forall (fun e => exists c v, (c = volume_left s \/ c = volume_right s) /\ sc_id c <> UINT_MAX /\
      e = SetValue (sc_id c) (sc_index c) v /\ sc_min c <= v <= sc_max c) new.
Proof.
  intros Hl Hr Hpl Hpr. unfold set_hw_volume.
  assert (Havg : 0 <= c_div (left_pc + right_pc) 2 <= 100).
  { rewrite c_div_div by lia. split; [apply Z.div_pos; lia|apply Z.div_le_upper_bound; lia]. }
  destruct (Z.eqb_spec (sc_id (volume_left s)) UINT_MAX) as [HL|HL],
    (Z.eqb_spec (sc_id (volume_right s)) UINT_MAX) as [HR|HR]; cbn [negb].
  - exists []. by rewrite app_nil_r.
  - destruct (set_vol_ctl_range (volume_right s) right_pc l Hr Hpr) as (v & -> & Hv).
    eexists. split; [done|]. split; [done|]. repeat constructor. eauto 10.
  - destruct (set_vol_ctl_range (volume_left s) (c_div (left_pc + right_pc) 2) l Hl Havg) as (v & -> & Hv).
    eexists. split; [done|]. split; [done|]. repeat constructor. eauto 10.
  - destruct (set_vol_ctl_range (volume_left s) left_pc l Hl Hpl) as (v & -> & Hv).
    destruct (set_vol_ctl_range (volume_right s) right_pc
      (l ++ [SetValue (sc_id (volume_left s)) (sc_index (volume_left s)) v]) Hr Hpr) as (w & -> & Hw).
    eexists. cbn [fst snd]. rewrite <- app_assoc. split; [done|]. split; [done|].
    repeat constructor; eauto 10.
Qed.

(** ** The properties on a configuration *)

Definition sample_masks : audio_masks := mk_masks (2 ^ 31) (2 ^ 20 - 1) (2 ^ 31 + 2 ^ 20 - 1).

Definition sample_mixer : mixer :=
  mk_mixer (fun _ name => if bool_decide (name = lit "Volume") then Some 3 else None)
    (fun _ => INT) (fun _ => 2) (fun _ _ _ _ => 0) (fun _ _ => None).

Definition sample_ctl (value : Z) : ctl := mk_ctl 3 (lit "Volume") INVALID_CTL_INDEX 0 INT (VUint value).
Definition sample_path (id : Z) : path := mk_path id [sample_ctl (id * 10)].
Definition no_control : stream_control := mk_control UINT_MAX 0 0 0.

Definition sample_stream (t : stream_type) (instances enable disable devices : Z) : stream :=
  mk_stream t 1 0 48000 0 0 None 0 instances enable disable devices
    (mk_control 3 0 10 60) no_control [].

(** Speaker, headphone and a microphone, each with [on], [off] and a stream's paths. *)
Definition balanced_config : config_mgr :=
  mk_cm [mk_device 0 0 [sample_path 1]; mk_device 2 0 [sample_path 1; sample_path 0; sample_path 2];
         mk_device 8 0 [sample_path 0; sample_path 1]; mk_device (2 ^ 31 + 4) 0 [sample_path 1; sample_path 0]]
    [sample_stream out_pcm 2 2 3 0; sample_stream in_pcm INT_MAX (-1) (-1) 0] 10 (2 ^ 31 + 4).

Definition sample_calls : list audio_op :=
  [GetStream 2 true; ApplyRoute 0 2; GetStream (2 ^ 31 + 4) true; ApplyRoute 1 (2 ^ 31 + 4);
   ApplyRoute 0 10; SetHwVolume 0 50 50; ApplyRoute 0 8; ReleaseStream 1].

Definition sample_end : state := run_ops sample_mixer sample_masks sample_calls (balanced_config, []).

(** The headphone is on, the speaker and the microphone are off again. *)
Example sample_switches :
  (fun k => switches k (trace sample_end.2)) <$> [0; 1; 2; 3]%nat = [[1]; [1; 0]; [1]; [1; 0]].
Proof. vm_compute. reflexivity. Qed.

Lemma balanced_config_fresh : fresh sample_masks (balanced_config, []).
Proof.
  unfold fresh, shape_ok. split_and!.
  - intros i j d e Hi Hj Hne.
    destruct i as [|[|[|[|i]]]], j as [|[|[|[|j]]]]; simplify_eq/=; try done; by vm_compute.
  - repeat constructor; cbn; set_solver.
  - repeat constructor; cbn; intros; [done| | |].
    + exists 1. by split.
    + exists 3. by split.
    + exists 2. by split.
  - repeat constructor; cbn; done.
  - repeat constructor; cbn; done.
  - done.
Qed.

(** The devices of [audio.mocha.xml] with their bits, in the order of the file: the
    output [headset] comes before the input [mic] that has the same bit. *)
Definition mocha_devices : list device :=
  [mk_device 2 0 [sample_path 1; sample_path 2; sample_path 3];
   mk_device 8 0 [sample_path 1; sample_path 2; sample_path 3]].
Definition mocha_headset : device := mk_device 4 0 [sample_path 1; sample_path 2; sample_path 3].
Definition mocha_headset_in : device := mk_device (2 ^ 31 + 16) 0 [sample_path 4; sample_path 5].
Definition mocha_mic : device := mk_device (2 ^ 31 + 4) 0 [sample_path 1; sample_path 4; sample_path 5].

(** Recording on the headset's microphone; the headset is unplugged. *)
Definition mocha_recording : config_mgr :=
  mk_cm (mocha_devices ++ mocha_headset :: [mocha_headset_in] ++ mocha_mic :: [])
    [sample_stream out_pcm INT_MAX 2 3 0; sample_stream in_pcm INT_MAX 4 5 (Z.lor (2 ^ 31) (2 ^ 4))] 14
    (2 ^ 31 + 20).

(** The shipped devices, nothing in use, and the calls of a session that goes from the
    speaker to the headset, records, and goes on recording from the microphone. *)
Definition mocha_config : config_mgr :=
  mk_cm (mocha_devices ++ mocha_headset :: [mocha_headset_in] ++ mocha_mic :: [])
    [sample_stream out_pcm INT_MAX 2 3 0; sample_stream in_pcm INT_MAX 4 5 0] 14 (2 ^ 31 + 20).

Definition mocha_calls : list audio_op :=
  [GetStream 2 true; ApplyRoute 0 2; ApplyRoute 0 4; GetStream (2 ^ 31 + 16) true;
   ApplyRoute 1 (2 ^ 31 + 16); ApplyRoute 1 (2 ^ 31 + 4); ApplyRoute 0 2; ReleaseStream 1].

Definition mocha_end : state := run_ops sample_mixer sample_masks mocha_calls (mocha_config, []).


Example reroute_misses_input_witness :
  let st := apply_route sample_mixer sample_masks 1 (Z.lor (2 ^ 31) (2 ^ 2)) (mocha_recording, []) in
  let k := (length mocha_devices + 1 + length [mocha_headset_in])%nat in
  (exists s', stream_array st.1 !! 1%nat = Some s' /\ current_devices s' = Z.lor (2 ^ 31) (2 ^ 2)) /\
  device_array st.1 !! k = Some mocha_mic /\ events_at k (trace st.2) = events_at k (trace []) /\
  exists o', device_array st.1 !! length mocha_devices = Some o' /\
    use_count o' = use_count mocha_headset + 1.
Proof.
  apply (reroute_misses_input sample_mixer sample_masks mocha_recording [] 1
    (sample_stream in_pcm INT_MAX 4 5 (Z.lor (2 ^ 31) (2 ^ 4))) 4 2 mocha_devices [mocha_headset_in] []
    mocha_headset mocha_mic); try done.
  - by repeat constructor.
  - repeat constructor; cbn; set_solver.
Defined.

Example hw_volume_in_range_witness :
  let s := sample_stream out_pcm 1 (-1) (-1) 2 in
  exists new, (set_hw_volume s 40 60 []).2 = [] ++ new /\
    (set_hw_volume s 40 60 []).1 = (if decide (new = []) then - ENOSYS else 0) /\
    Forall (fun e => exists c v, (c = volume_left s \/ c = volume_right s) /\ sc_id c <> UINT_MAX /\
      e = SetValue (sc_id c) (sc_index c) v /\ sc_min c <= v <= sc_max c) new.
Proof.
  apply (hw_volume_in_range (sample_stream out_pcm 1 (-1) (-1) 2) 40 60 []);
    unfold control_ok; cbn; lia.
Defined.
