(* ===== verification/AudioParse.v ===== *)
(** * The audio configuration file ([configmgr/audio_config.c], parser)

    The handlers expat calls for the start and the end of an element, as functions on
    the parser's state and the configuration built so far.  [current.device], [.stream]
    and [.usecase] always point to the last element of their arrays; [current.path] and
    [current.scase] can be null.  Undefined behaviour is an outcome of its own.  The
    file's contents arrive as the sequence of handler calls; what the mixer and the
    codec probe file answer are arguments.  Allocations succeed, but a dynamic array
    does not grow past its 16-bit limit. *)

From S2P Require Import Prelude.
From S2P Require Import CString.
From S2P Require Import AudioRouting.

Definition ENOMEM : Z := 12.
Definition EIO : Z := 5.

(** ** Tables *)

Inductive element :=
| e_ctl | e_path | e_device | e_stream | e_enable | e_disable | e_case | e_usecase
| e_stream_ctl | e_init | e_mixer | e_audiohal | e_codec_probe | e_codec_case.

Inductive attrib :=
| a_name | a_val | a_path | a_function | a_type | a_index | a_dir | a_card | a_device
| a_instances | a_rate | a_period_size | a_period_count | a_min | a_max | a_file.

#[export] Instance element_eq_dec : EqDecision element.
Proof. solve_decision. Defined.
#[export] Instance attrib_eq_dec : EqDecision attrib.
Proof. solve_decision. Defined.

Definition all_elements : list element :=
  [e_ctl; e_path; e_device; e_stream; e_enable; e_disable; e_case; e_usecase;
   e_stream_ctl; e_init; e_mixer; e_audiohal; e_codec_probe; e_codec_case].

Definition all_attribs : list attrib :=
  [a_name; a_val; a_path; a_function; a_type; a_index; a_dir; a_card; a_device;
   a_instances; a_rate; a_period_size; a_period_count; a_min; a_max; a_file].

Definition attrib_name (a : attrib) : bytes :=
  lit match a with
      | a_name => "name" | a_val => "val" | a_path => "path" | a_function => "function"
      | a_type => "type" | a_index => "index" | a_dir => "dir" | a_card => "card"
      | a_device => "device" | a_instances => "instances" | a_rate => "rate"
      | a_period_size => "period_size" | a_period_count => "period_count"
      | a_min => "min" | a_max => "max" | a_file => "file"
      end.

(** A row of [elem_table]; the bit sets are lists. *)
Record parse_element := mk_element {
  elem_name : string; valid_attribs : list attrib; required_attribs : list attrib;
  valid_subelem : list element }.

Definition elem_table (e : element) : parse_element :=
  match e with
  | e_ctl => mk_element "ctl" [a_name; a_val; a_index] [a_name; a_val] []
  | e_path => mk_element "path" [a_name] [a_name] [e_ctl]
  | e_device => mk_element "device" [a_name] [a_name] [e_path]
  | e_stream => mk_element "stream"
      [a_name; a_type; a_dir; a_card; a_device; a_instances; a_rate; a_period_size; a_period_count]
      [a_type] [e_stream_ctl; e_enable; e_disable; e_usecase]
  | e_enable => mk_element "enable" [a_path] [a_path] []
  | e_disable => mk_element "disable" [a_path] [a_path] []
  | e_case => mk_element "case" [a_name] [a_name] [e_ctl]
  | e_usecase => mk_element "usecase" [a_name] [a_name] [e_case]
  | e_stream_ctl => mk_element "ctl" [a_name; a_function; a_index; a_min; a_max] [a_name; a_function] []
  | e_init => mk_element "init" [] [] [e_ctl]
  | e_mixer => mk_element "mixer" [a_card] [] [e_init]
  | e_audiohal => mk_element "audiohal" [] [] [e_mixer; e_codec_probe]
  | e_codec_probe => mk_element "codec_probe" [a_file] [a_file] [e_codec_case]
  | e_codec_case => mk_element "case" [a_name; a_file] [a_name; a_file] []
  end.

(** The constants of [system/audio.h] in [device_table]. *)
Record audio_device_ids := mk_ids {
  OUT_SPEAKER : Z; OUT_EARPIECE : Z; OUT_WIRED_HEADSET : Z; IN_WIRED_HEADSET : Z;
  OUT_WIRED_HEADPHONE : Z; OUT_ALL_SCO : Z; IN_ALL_SCO : Z; OUT_ALL_A2DP : Z; OUT_ALL_USB : Z;
  IN_BUILTIN_MIC : Z; IN_BACK_MIC : Z; IN_VOICE_CALL : Z; IN_AUX_DIGITAL : Z }.

Definition device_table (x : audio_device_ids) : list (string * Z) :=
  [("global", 0); ("speaker", OUT_SPEAKER x); ("earpiece", OUT_EARPIECE x);
   ("headset", OUT_WIRED_HEADSET x); ("headset_in", IN_WIRED_HEADSET x);
   ("headphone", OUT_WIRED_HEADPHONE x); ("sco", OUT_ALL_SCO x); ("sco_in", IN_ALL_SCO x);
   ("a2dp", OUT_ALL_A2DP x); ("usb", OUT_ALL_USB x); ("mic", IN_BUILTIN_MIC x);
   ("back mic", IN_BACK_MIC x); ("voice", IN_VOICE_CALL x); ("aux", IN_AUX_DIGITAL x)]%string.

(** ** State *)

(** The object [current.path] points to: the temporary path of [<init>] or the last path
    of the last device. *)
Inductive path_target := InitPath | DevicePath.

Record entry := mk_entry { elem_index : element; subelems : list element }.

Record parse_state := mk_ps {
  ps_cm : config_mgr;
  path_names : list bytes;
  init_path : list ctl;
  cur_path : option path_target;
  cur_scase : bool;
  probe_file : option bytes;
  codec_cases : list (bytes * bytes);
  new_xml_file : option bytes;
  cur_xml_file : bytes;
  stopped : bool;
  parse_error : Z;
  stack : list entry }.

(** What the code must not do. *)
Inductive ub := StackOverflow | StackUnderflow | InvalidFree | NullPointer.

Definition attribs : Type := attrib -> option bytes.

(** The arrays hold at most this many elements: the capacity grows by 16 while it is
    below [0xFFFF - 16]. *)
Definition ARRAY_LIMIT : Z := 65520.

Definition dyn_array_extend {A} (l : list A) (x : A) : option (list A) :=
  if ARRAY_LIMIT <=? zlen l then None else Some (l ++ [x]).

(** Writing through a pointer to the last element. *)
Definition alter_last {A} (f : A -> A) (l : list A) : list A := alter f (pred (length l)) l.

Definition set_cm (cm : config_mgr) (s : parse_state) : parse_state :=
  mk_ps cm (path_names s) (init_path s) (cur_path s) (cur_scase s) (probe_file s) (codec_cases s)
    (new_xml_file s) (cur_xml_file s) (stopped s) (parse_error s) (stack s).
Definition set_names (ns : list bytes) (s : parse_state) : parse_state :=
  mk_ps (ps_cm s) ns (init_path s) (cur_path s) (cur_scase s) (probe_file s) (codec_cases s)
    (new_xml_file s) (cur_xml_file s) (stopped s) (parse_error s) (stack s).
Definition set_init (cs : list ctl) (s : parse_state) : parse_state :=
  mk_ps (ps_cm s) (path_names s) cs (cur_path s) (cur_scase s) (probe_file s) (codec_cases s)
    (new_xml_file s) (cur_xml_file s) (stopped s) (parse_error s) (stack s).
Definition set_current (p : option path_target) (c : bool) (s : parse_state) : parse_state :=
  mk_ps (ps_cm s) (path_names s) (init_path s) p c (probe_file s) (codec_cases s)
    (new_xml_file s) (cur_xml_file s) (stopped s) (parse_error s) (stack s).
Definition set_probe (f : option bytes) (cs : list (bytes * bytes)) (new : option bytes) (stop : bool)
    (s : parse_state) : parse_state :=
  mk_ps (ps_cm s) (path_names s) (init_path s) (cur_path s) (cur_scase s) f cs
    new (cur_xml_file s) stop (parse_error s) (stack s).
Definition set_stack (k : list entry) (s : parse_state) : parse_state :=
  mk_ps (ps_cm s) (path_names s) (init_path s) (cur_path s) (cur_scase s) (probe_file s) (codec_cases s)
    (new_xml_file s) (cur_xml_file s) (stopped s) (parse_error s) k.
Definition parse_set_error (e : Z) (s : parse_state) : parse_state :=
  mk_ps (ps_cm s) (path_names s) (init_path s) (cur_path s) (cur_scase s) (probe_file s) (codec_cases s)
    (new_xml_file s) (cur_xml_file s) (stopped s) e (stack s).

Definition with_devices (f : list device -> list device) (s : parse_state) : parse_state :=
  set_cm (set_devices (f (device_array (ps_cm s))) (ps_cm s)) s.
Definition with_streams (f : list stream -> list stream) (s : parse_state) : parse_state :=
  let cm := ps_cm s in
  set_cm (mk_cm (device_array cm) (f (stream_array cm)) (supported_output_devices cm)
            (supported_input_devices cm)) s.

(** ** Handlers

    A handler returns its status and the new state. *)

Definition handler : Type := (Z * parse_state) + ub.
Definition ret (r : Z) (s : parse_state) : handler := inl (r, s).

Section parser.
Context (mx : mixer) (ids : audio_device_ids) (ms : audio_masks).
(** Whether a mixer card opens, the range of a control, the codec probe file's line, and
    the value of variables the code leaves uninitialised. *)
Context (mixer_open : Z -> bool) (ctl_range : Z -> Z * Z) (probe_line : bytes -> option bytes) (uninit : Z).

Definition attrib_to_uint (at_ : attribs) (i : attrib) : Z * option Z := string_to_uint (at_ i).

(** A value that keeps its default when the attribute is absent. *)
Definition uint_or (d : Z) (r : Z * option Z) : Z := default d (snd r).

(** The name at the highest index. *)
Fixpoint find_name_down (n : nat) (names : list bytes) (name : bytes) : option nat :=
  match n with
  | O => None
  | S i => if bool_decide (names !! i = Some name) then Some i else find_name_down i names name
  end.

Definition find_path_name (s : parse_state) (name : bytes) : option nat :=
  find_name_down (length (path_names s)) (path_names s) name.

Definition add_path_name (s : parse_state) (name : bytes) : Z * parse_state :=
  match find_path_name s name with
  | Some i => (Z.of_nat i, s)
  | None => match dyn_array_extend (path_names s) name with
            | Some ns => (zlen (path_names s), set_names ns s)
            | None => (- ENOMEM, s)
            end
  end.

Definition new_ctl (name : bytes) : ctl :=
  mk_ctl UINT_MAX name INVALID_CTL_INDEX 0 UNKNOWN (VString []).

(** The control array [parse_ctl_start] extends, and writing it back. *)
Definition last_case_ctls (s : parse_state) : list ctl :=
  match last (stream_array (ps_cm s)) with
  | Some st => match last (usecase_array st) with
               | Some u => match last (case_array u) with Some c => case_ctls c | None => [] end
               | None => []
               end
  | None => []
  end.

Definition put_case_ctls (cs : list ctl) (s : parse_state) : parse_state :=
  with_streams (alter_last (fun st => set_usecases
    (alter_last (fun u => mk_usecase (uc_name u)
      (alter_last (fun c => mk_case (case_name c) cs) (case_array u))) (usecase_array st)) st)) s.

Definition last_path_ctls (s : parse_state) : list ctl :=
  match last (device_array (ps_cm s)) with
  | Some d => match last (path_array d) with Some p => ctl_array p | None => [] end
  | None => []
  end.

Definition put_path_ctls (cs : list ctl) (s : parse_state) : parse_state :=
  with_devices (alter_last (fun d => mk_device (d_type d) (use_count d)
    (alter_last (fun p => mk_path (p_id p) cs) (path_array d)))) s.

Definition ctls_of (t : option path_target) (s : parse_state) : list ctl :=
  match t with
  | Some InitPath => init_path s
  | Some DevicePath => last_path_ctls s
  | None => last_case_ctls s
  end.

Definition put_ctls (t : option path_target) (cs : list ctl) (s : parse_state) : parse_state :=
  match t with
  | Some InitPath => set_init cs s
  | Some DevicePath => put_path_ctls cs s
  | None => put_case_ctls cs s
  end.

Definition parse_ctl_start (at_ : attribs) (s : parse_state) : handler :=
  let t := cur_path s in
  if bool_decide (t = None) && negb (cur_scase s) then inr NullPointer
  else
    let name := default [] (at_ a_name) in
    match dyn_array_extend (ctls_of t s) (new_ctl name) with
    | None => ret (- ENOMEM) s
    | Some cs =>
        match attrib_to_uint at_ a_index with
        | (r, idx) =>
            if r =? - EINVAL then inr InvalidFree     (* [free(c)] of an array element *)
            else
              let c := mk_ctl UINT_MAX name (default INVALID_CTL_INDEX idx) 0 UNKNOWN
                         (VString (default [] (at_ a_val))) in
              let '(r, c) := ctl_open mx [] c in
              ret (if r =? - ENOENT then 0 else r) (put_ctls t (alter_last (fun _ => c) cs) s)
        end
    end.

Definition parse_init_start (s : parse_state) : handler :=
  ret 0 (set_current (Some InitPath) (cur_scase s) s).

Definition parse_path_start (at_ : attribs) (s : parse_state) : handler :=
  let '(id, s) := add_path_name s (default [] (at_ a_name)) in
  if id <? 0 then ret id s
  else match last (device_array (ps_cm s)) with
       | None => inr NullPointer
       | Some d =>
           match dyn_array_extend (path_array d) (mk_path id []) with
           | None => ret (- ENOMEM) s
           | Some ps =>
               ret 0 (set_current (Some DevicePath) (cur_scase s)
                 (with_devices (alter_last (fun d => mk_device (d_type d) (use_count d) ps)) s))
           end
       end.

Definition parse_path_end (s : parse_state) : handler := ret 0 (set_current None (cur_scase s) s).

Definition parse_case_start (at_ : attribs) (s : parse_state) : handler :=
  match last (stream_array (ps_cm s)) with
  | Some st =>
      match last (usecase_array st) with
      | Some u =>
          match dyn_array_extend (case_array u) (mk_case (default [] (at_ a_name)) []) with
          | None => ret (- ENOMEM) s
          | Some cs =>
              ret 0 (set_current (cur_path s) true (with_streams (alter_last (fun st =>
                set_usecases (alter_last (fun u => mk_usecase (uc_name u) cs) (usecase_array st)) st)) s))
          end
      | None => inr NullPointer
      end
  | None => inr NullPointer
  end.

Definition parse_case_end (s : parse_state) : handler := ret 0 (set_current (cur_path s) false s).

Definition parse_usecase_start (at_ : attribs) (s : parse_state) : handler :=
  match last (stream_array (ps_cm s)) with
  | Some st =>
      match dyn_array_extend (usecase_array st) (mk_usecase (default [] (at_ a_name)) []) with
      | None => ret (- ENOMEM) s
      | Some us => ret 0 (with_streams (alter_last (set_usecases us)) s)
      end
  | None => inr NullPointer
  end.

Definition set_paths (enable disable : Z) (s : stream) : stream :=
  mk_stream (s_type s) (card_number s) (device_number s) (rate s) (period_size s) (period_count s)
    (s_name s) (ref_count s) (max_ref_count s) enable disable (current_devices s)
    (volume_left s) (volume_right s) (usecase_array s).

Definition parse_enable_disable_start (is_enable : bool) (at_ : attribs) (s : parse_state) : handler :=
  match find_path_name s (default [] (at_ a_path)) with
  | None => ret (- EINVAL) s
  | Some i =>
      let i := Z.of_nat i in
      ret 0 (with_streams (alter_last (fun st =>
        if is_enable then set_paths i (disable_path st) st else set_paths (enable_path st) i st)) s)
  end.

Definition set_volumes (left right : stream_control) (s : stream) : stream :=
  mk_stream (s_type s) (card_number s) (device_number s) (rate s) (period_size s) (period_count s)
    (s_name s) (ref_count s) (max_ref_count s) (enable_path s) (disable_path s) (current_devices s)
    left right (usecase_array s).

(** The attribute, or the control's own bound; an error is the left value. *)
Definition bound_or (r : Z * option Z) (own : Z) : Z + Z :=
  if r.1 =? - EINVAL then inl (- EINVAL)
  else if r.1 =? - ENOENT then if own <? 0 then inl own else inr (wrap_u32 own)
  else inr (default 0 r.2).

Definition parse_stream_ctl_start (at_ : attribs) (s : parse_state) : handler :=
  match m_by_name mx [] (default [] (at_ a_name)) with
  | None => ret (- EINVAL) s
  | Some id =>
      let index := attrib_to_uint at_ a_index in
      if index.1 =? - EINVAL then ret (- EINVAL) s
      else
        let function := default [] (at_ a_function) in
        let left := bool_decide (function = lit "leftvol") in
        if negb left && negb (bool_decide (function = lit "rightvol")) then ret (- EINVAL) s
        else
          match bound_or (attrib_to_uint at_ a_min) (ctl_range id).1 with
          | inl e => ret e s
          | inr mn =>
              match bound_or (attrib_to_uint at_ a_max) (ctl_range id).2 with
              | inl e => ret e s
              | inr mx_ =>
                  let c := mk_control id (uint_or 0 index) mn mx_ in
                  ret 0 (with_streams (alter_last (fun st =>
                    if left then set_volumes c (volume_right st) st
                    else set_volumes (volume_left st) c st)) s)
              end
          end
  end.

(** A stream as [new_stream] leaves it. *)
Definition new_stream : stream :=
  mk_stream out_pcm 0 0 0 0 0 None 0 0 (-1) (-1) 0 (mk_control UINT_MAX 0 0 0)
    (mk_control UINT_MAX 0 0 0) [].

(** The direction [dir] names; [None]: not valid. *)
Definition direction (dir : option bytes) (is_global : bool) : option bool :=
  match dir with
  | None => if is_global then Some false else None
  | Some d => if bool_decide (d = lit "out") then Some true
              else if bool_decide (d = lit "in") then Some false else None
  end.

(** The type of a stream and the default of its card and device numbers; an error is
    the left value. *)
Definition stream_kind (is_global : bool) (type : bytes) (named out : bool)
  : option (stream_type * Z) :=
  if is_global then Some (global, uninit)
  else if bool_decide (type = lit "hw") then
    if named then Some (if out then out_hw else in_hw, uninit) else None
  else if bool_decide (type = lit "pcm") then Some (if out then out_pcm else in_pcm, 0)
  else if bool_decide (type = lit "compress") then Some (if out then out_compress else in_compress, 0)
  else None.

(** On an error the configuration is thrown away, so the half-written stream is only
    recorded as [new_stream]. *)
Definition parse_stream_start (at_ : attribs) (s : parse_state) : handler :=
  let name := at_ a_name in
  if (match name with Some n => is_named_stream_defined (ps_cm s) n | None => false end)
  then ret (- EINVAL) s
  else
    match dyn_array_extend (stream_array (ps_cm s)) new_stream with
    | None => ret (- ENOMEM) s
    | Some ss =>
        let s1 := with_streams (fun _ => ss) s in
        let is_global := bool_decide (name = Some (lit "global")) in
        match direction (at_ a_dir) is_global with
        | None => ret (- EINVAL) s1
        | Some out =>
            match stream_kind is_global (default [] (at_ a_type)) (bool_decide (is_Some name)) out with
            | None => ret (- EINVAL) s1
            | Some (type, number) =>
                let card := attrib_to_uint at_ a_card in
                let device := attrib_to_uint at_ a_device in
                let maxref := attrib_to_uint at_ a_instances in
                let rate_ := attrib_to_uint at_ a_rate in
                let pcount := attrib_to_uint at_ a_period_count in
                let psize := attrib_to_uint at_ a_period_size in
                if existsb (fun r => r.1 =? - EINVAL) [card; device; maxref; rate_; pcount; psize]
                then ret (- EINVAL) s1
                else
                  let st := mk_stream type (uint_or number card mod 256) (uint_or number device mod 256)
                    (uint_or 0 rate_) (uint_or 0 psize) (uint_or 0 pcount) name 0
                    (wrap_s32 (uint_or INT_MAX maxref)) (-1) (-1) 0
                    (mk_control UINT_MAX 0 0 0) (mk_control UINT_MAX 0 0 0) [] in
                  ret 0 (with_streams (alter_last (fun _ => st)) s1)
            end
        end
    end.

Definition parse_match_device (name : bytes) : option Z :=
  snd <$> List.find (fun p => bool_decide (lit p.1 = name)) (device_table ids).

Definition parse_device_start (at_ : attribs) (s : parse_state) : handler :=
  match parse_match_device (default [] (at_ a_name)) with
  | None => ret (- EINVAL) s
  | Some device_flag =>
      let cm := ps_cm s in
      let input := negb (Z.land device_flag (BIT_IN ms) =? 0) in
      let existing := if input then supported_input_devices cm else supported_output_devices cm in
      if negb (device_flag =? 0) && (Z.land device_flag existing =? device_flag)
      then ret (- EINVAL) s
      else
        let now := if device_flag =? 0 then existing else Z.lor existing device_flag in
        let cm := mk_cm (device_array cm) (stream_array cm)
          (if input then supported_output_devices cm else now)
          (if input then now else supported_input_devices cm) in
        match dyn_array_extend (device_array cm) (mk_device device_flag 0 []) with
        | None => ret (- ENOMEM) (set_cm cm s)
        | Some ds => ret 0 (set_cm (set_devices ds cm) s)
        end
  end.

Definition parse_mixer_start (at_ : attribs) (s : parse_state) : handler :=
  let card := attrib_to_uint at_ a_card in
  if card.1 =? - EINVAL then ret (- EINVAL) s
  else if negb (mixer_open (uint_or 0 card)) then ret (- EINVAL) s
  else match stack s with
       | top :: below :: rest =>
           ret 0 (set_stack (top :: mk_entry (elem_index below) [e_device; e_stream] :: rest) s)
       | _ => inr StackUnderflow
       end.

Definition parse_codec_probe_start (at_ : attribs) (s : parse_state) : handler :=
  match probe_file s with
  | None => ret 0 (set_probe (at_ a_file) (codec_cases s) (new_xml_file s) (stopped s) s)
  | Some _ => ret (- EINVAL) s
  end.

Definition parse_codec_case_start (at_ : attribs) (s : parse_state) : handler :=
  match dyn_array_extend (codec_cases s) (default [] (at_ a_name), default [] (at_ a_file)) with
  | None => ret (- ENOMEM) s
  | Some cs => ret 0 (set_probe (probe_file s) cs (new_xml_file s) (stopped s) s)
  end.

Definition probe_trim_spaces (str : bytes) : bytes :=
  reverse (skip_space (reverse (skip_space str))).

(** The file that matches the codec; the parser stops when one does. *)
Definition probe_config_file (s : parse_state) : parse_state :=
  match probe_line (default [] (probe_file s)) with
  | None => s
  | Some buf =>
      match List.find (fun c => bool_decide (c.1 = probe_trim_spaces buf)) (codec_cases s) with
      | None => set_probe (probe_file s) (codec_cases s) None (stopped s) s
      | Some (_, file) =>
          set_probe (probe_file s) (codec_cases s)
            (if bool_decide (file = cur_xml_file s) then None else Some file) true s
      end
  end.

Definition parse_codec_probe_end (s : parse_state) : handler := ret 0 (probe_config_file s).

(** The table's [start_fn] and [end_fn]. *)
Definition start_fn (e : element) (at_ : attribs) (s : parse_state) : handler :=
  match e with
  | e_ctl => parse_ctl_start at_ s
  | e_path => parse_path_start at_ s
  | e_device => parse_device_start at_ s
  | e_stream => parse_stream_start at_ s
  | e_enable => parse_enable_disable_start true at_ s
  | e_disable => parse_enable_disable_start false at_ s
  | e_case => parse_case_start at_ s
  | e_usecase => parse_usecase_start at_ s
  | e_stream_ctl => parse_stream_ctl_start at_ s
  | e_init => parse_init_start s
  | e_mixer => parse_mixer_start at_ s
  | e_audiohal => ret 0 s
  | e_codec_probe => parse_codec_probe_start at_ s
  | e_codec_case => parse_codec_case_start at_ s
  end.

Definition end_fn (e : element) (s : parse_state) : handler :=
  match e with
  | e_path => parse_path_end s
  | e_case => parse_case_end s
  | e_codec_probe => parse_codec_probe_end s
  | _ => ret 0 s
  end.

(** ** The driver *)

(** The first attribute of the table that is valid and has the name. *)
Definition match_attrib (e : element) (name : bytes) : option attrib :=
  List.find (fun a => bool_decide (a ∈ valid_attribs (elem_table e)) && bool_decide (name = attrib_name a))
    all_attribs.

(** [None]: an attribute that is not allowed. *)
Fixpoint read_attribs (e : element) (l : list (bytes * bytes)) (at_ : attribs) : option attribs :=
  match l with
  | [] => Some at_
  | (name, value) :: l =>
      match match_attrib e name with
      | None => None
      | Some a => read_attribs e l (fun b => if decide (b = a) then Some value else at_ b)
      end
  end.

Definition extract_attribs (e : element) (l : list (bytes * bytes)) : option attribs :=
  match read_attribs e l (fun _ => None) with
  | None => None
  | Some at_ => if forallb (fun a => bool_decide (is_Some (at_ a))) (required_attribs (elem_table e))
                then Some at_ else None
  end.

Definition MAX_PARSE_DEPTH : nat := 6.

Definition find_element (valid : list element) (name : bytes) : option element :=
  List.find (fun e => bool_decide (e ∈ valid) && bool_decide (name = lit (elem_name (elem_table e))))
    all_elements.

(** [stack.index] is one less than the length of the list. *)
Definition parse_section_start (name : bytes) (l : list (bytes * bytes)) (s : parse_state)
  : parse_state + ub :=
  if negb (parse_error s =? 0) then inl s
  else
    match stack s with
    | [] => inr StackUnderflow
    | top :: _ =>
        match find_element (subelems top) name with
        | None => inl (parse_set_error (- EINVAL) s)
        | Some e =>
            if (MAX_PARSE_DEPTH <=? length (stack s) - 1)%nat then inl (parse_set_error (- EINVAL) s)
            else if (MAX_PARSE_DEPTH <=? length (stack s))%nat then inr StackOverflow
            else
              let s := set_stack (mk_entry e (valid_subelem (elem_table e)) :: stack s) s in
              match extract_attribs e l with
              | None => inl (parse_set_error (- EINVAL) s)
              | Some at_ =>
                  match start_fn e at_ s with
                  | inl (r, s) => inl (parse_set_error r s)
                  | inr u => inr u
                  end
              end
        end
    end.

Definition parse_section_end (s : parse_state) : parse_state + ub :=
  if negb (parse_error s =? 0) then inl s
  else
    match stack s with
    | top :: below :: rest =>
        match end_fn (elem_index top) s with
        | inl (r, s) => inl (parse_set_error r (set_stack (below :: rest) s))
        | inr u => inr u
        end
    | _ => inr StackUnderflow
    end.

(** What expat reports. *)
Inductive sax := Start (name : bytes) (l : list (bytes * bytes)) | End_.

Definition sax_step (e : sax) (s : parse_state) : parse_state + ub :=
  if stopped s then inl s
  else match e with
       | Start name l => parse_section_start name l s
       | End_ => parse_section_end s
       end.

Fixpoint sax_run (es : list sax) (s : parse_state) : parse_state + ub :=
  match es with
  | [] => inl s
  | e :: es => match sax_step e s with inl s => sax_run es s | inr u => inr u end
  end.

(** ** Files *)

(** A file as expat sees it: the calls it makes until the end of the file or the first
    error of syntax, and whether there was none. *)
Record xml_file := mk_xml { events : list sax; well_formed : bool }.

(** [init_state]: the predefined path names. *)
Definition init_state : parse_state :=
  mk_ps (mk_cm [] [] 0 0) [lit "off"; lit "on"] [] None false None [] None [] false 0 [].

(** What [open_config_file], a redirection and the start of [do_parse] reset; path names,
    codec cases, [<init>] controls and the [current] pointers stay. *)
Definition reset_parser (file : bytes) (s : parse_state) : parse_state :=
  mk_ps (ps_cm s) (path_names s) (init_path s) (cur_path s) (cur_scase s) None (codec_cases s) None
    file false 0 [mk_entry e_ctl [e_audiohal]].

(** [do_parse] on one file; a parser stopped for good reports an error. *)
Definition do_parse (file : bytes) (x : xml_file) (s : parse_state) : (Z * parse_state) + ub :=
  match sax_run (events x) (reset_parser file s) with
  | inr u => inr u
  | inl s =>
      let aborted := stopped s && negb (bool_decide (is_Some (new_xml_file s))) in
      inl (if (parse_error s <? 0) || aborted || negb (well_formed x) then - EINVAL else 0, s)
  end.

(** The loop over the redirections; files may redirect to one another for ever, so it has
    a number of files it may read, [None]: it read more. *)
Fixpoint parse_files (fuel : nat) (files : bytes -> option xml_file) (file : bytes) (s : parse_state)
  : option ((Z * parse_state) + ub) :=
  match fuel with
  | O => None
  | S fuel =>
      match files file with
      | None => Some (inl (- ENOMEM, s))
      | Some x =>
          match do_parse file x s with
          | inr u => Some (inr u)
          | inl (ret, s) =>
              match new_xml_file s with
              | Some file => parse_files fuel files file s
              | None => Some (inl (ret, s))
              end
          end
      end
  end.

(** When nothing failed the [<init>] controls are applied to the mixer. *)
Definition parse_config_file (fuel : nat) (files : bytes -> option xml_file) (file : bytes)
  : option ((Z * state) + ub) :=
  match parse_files fuel files file init_state with
  | Some (inl (ret, s)) =>
      Some (inl (ret, (ps_cm s, if ret <? 0 then [] else (apply_path_l mx None [] (mk_path 0 (init_path s))).2)))
  | Some (inr u) => Some (inr u)
  | None => None
  end.

(** [None] inside: a null pointer instead of a configuration. *)
Definition init_audio_config (fuel : nat) (files : bytes -> option xml_file) (file : bytes)
  : option (option state + ub) :=
  match parse_config_file fuel files file with
  | Some (inl (ret, st)) => Some (inl (if ret =? 0 then Some st else None))
  | Some (inr u) => Some (inr u)
  | None => None
  end.

End parser.
