(* ===== verification/AudioParser.v ===== *)
(** * What the audio configuration parser guarantees ([configmgr/audio_config.c])

    Theorems about [AudioParse]: the element stack and the null pointers, the shape of
    the configurations it produces, and the controls it attaches to the wrong path. *)

From S2P Require Import Prelude.
From S2P Require Import CString.
From S2P Require Import AudioRouting.
From S2P Require Import AudioParse.

(** ** Contexts *)

(** Every stack of open elements that can occur, the innermost first; the last entry is
    the initial one, whose [elem_index] is 0. *)
Definition contexts : list (list element) :=
  let top := [e_audiohal; e_ctl] in
  let stream := e_stream :: top in
  [[e_ctl]; top; e_mixer :: top; e_init :: e_mixer :: top; e_ctl :: e_init :: e_mixer :: top;
   e_codec_probe :: top; e_codec_case :: e_codec_probe :: top;
   e_device :: top; e_path :: e_device :: top; e_ctl :: e_path :: e_device :: top;
   stream; e_stream_ctl :: stream; e_enable :: stream; e_disable :: stream;
   e_usecase :: stream; e_case :: e_usecase :: stream; e_ctl :: e_case :: e_usecase :: stream].

(** The elements allowed inside an open element: those of the table, or after [<mixer>]
    the other ones of [<audiohal>]. *)
Definition entry_ok (last_one : bool) (x : entry) : Prop :=
  if last_one then subelems x = [e_audiohal]
  else subelems x = valid_subelem (elem_table (elem_index x)) \/
    (elem_index x = e_audiohal /\ subelems x = [e_device; e_stream]).

Fixpoint entries_ok (k : list entry) : Prop :=
  match k with
  | [] => True
  | [x] => entry_ok true x
  | x :: k => entry_ok false x /\ entries_ok k
  end.

Definition has_stream (cm : config_mgr) : Prop := stream_array cm <> [].
Definition has_usecase (cm : config_mgr) : Prop :=
  exists st u, last (stream_array cm) = Some st /\ last (usecase_array st) = Some u.

Record ps_ok (s : parse_state) : Prop := {
  ok_context : (elem_index <$> stack s) ∈ contexts;
  ok_entries : entries_ok (stack s);
  ok_device : e_device ∈ (elem_index <$> stack s) -> device_array (ps_cm s) <> [];
  ok_stream : e_stream ∈ (elem_index <$> stack s) -> has_stream (ps_cm s);
  ok_usecase : e_usecase ∈ (elem_index <$> stack s) -> has_usecase (ps_cm s);
  ok_case : e_case ∈ (elem_index <$> stack s) -> cur_scase s = true;
  ok_path : e_path ∈ (elem_index <$> stack s) -> cur_path s = Some DevicePath;
  ok_init : e_init ∈ (elem_index <$> stack s) -> cur_path s = Some InitPath }.

Ltac contexts_cases H :=
  repeat (apply elem_of_cons in H as [H|H]; [|]); [..|by apply not_elem_of_nil in H].

Lemma context_length c : c ∈ contexts -> (1 <= length c <= 6)%nat.
Proof. intros Hc. contexts_cases Hc; subst c; cbn; lia. Qed.

(** Opening an allowed element leads to another context. *)
Lemma context_push x k e :
  (elem_index <$> x :: k) ∈ contexts -> entries_ok (x :: k) -> e ∈ subelems x ->
  (e :: (elem_index <$> x :: k)) ∈ contexts.
Proof.
  intros Hc Hk He. assert (Hx : entry_ok (bool_decide (k = [])) x).
  { destruct k as [|y k]; [done|]. by destruct Hk. }
  contexts_cases Hc; rewrite Hc; cbn in Hc; injection Hc as Hx1 Hk1;
    (destruct k as [|y k]; [|try discriminate Hk1]); try discriminate Hk1; cbn in Hx;
    rewrite ?Hx1 in Hx; cbn in Hx;
    try (destruct Hx as [Hx|[Hh Hx]]; [|try discriminate Hh]);
    rewrite Hx in He; repeat (apply elem_of_cons in He as [He|He]; [subst e|]);
    try (by apply not_elem_of_nil in He); apply (bool_decide_unpack _); by vm_compute.
Qed.

(** ** What the handlers keep *)

Lemma last_alter_last {A} (f : A -> A) (l : list A) : last (alter_last f l) = f <$> last l.
Proof. unfold alter_last. rewrite !last_lookup, length_alter. apply list_lookup_alter_eq. Qed.

Lemma alter_last_nil {A} (f : A -> A) (l : list A) : alter_last f l <> [] <-> l <> [].
Proof.
  unfold alter_last. rewrite <- !(length_zero_iff_nil (A := A)), length_alter. done.
Qed.

Lemma last_nonempty {A} (l : list A) : l <> [] -> is_Some (last l).
Proof. rewrite last_is_Some. done. Qed.

(** The state but for what is being opened: which objects exist does not shrink. *)
Record grows (s s2 : parse_state) : Prop := {
  g_stack : stack s2 = stack s;
  g_devices : device_array (ps_cm s) <> [] -> device_array (ps_cm s2) <> [];
  g_streams : has_stream (ps_cm s) -> has_stream (ps_cm s2);
  g_usecase : has_usecase (ps_cm s) -> has_usecase (ps_cm s2) }.

Definition keeps (s s2 : parse_state) : Prop :=
  grows s s2 /\ cur_path s2 = cur_path s /\ cur_scase s2 = cur_scase s.

Lemma grows_refl s : grows s s.
Proof. by split. Qed.

Lemma keeps_refl s : keeps s s.
Proof. by split; [apply grows_refl|]. Qed.

Lemma grows_streams f s :
  (forall st u, last (usecase_array st) = Some u -> is_Some (last (usecase_array (f st)))) ->
  keeps s (with_streams (alter_last f) s).
Proof.
  intros Hf. split; [|done]. split; cbn; [done|done| |].
  - by apply alter_last_nil.
  - intros (st & u & Hst & Hu). destruct (Hf st u Hu) as [u' Hu']. exists (f st), u'. cbn.
    by rewrite last_alter_last, Hst.
Qed.

Lemma grows_devices f s : keeps s (with_devices (alter_last f) s).
Proof. split; [|done]. split; cbn; [done| |done|done]. by apply alter_last_nil. Qed.

Lemma keeps_trans s1 s2 s3 : keeps s1 s2 -> keeps s2 s3 -> keeps s1 s3.
Proof. intros [[] []] [[] []]. split; [split|split]; try congruence; auto. Qed.

Lemma ps_ok_keeps s s2 : ps_ok s -> keeps s s2 -> ps_ok s2.
Proof. intros [] [[] [Hp Hc]]. split; rewrite ?Hp, ?Hc, ?g_stack0; auto. Qed.

Lemma put_case_keeps cs s : keeps s (put_case_ctls cs s).
Proof.
  apply grows_streams. intros st u Hu. cbn. rewrite last_alter_last, Hu. by eexists.
Qed.

Lemma put_ctls_keeps t cs s : keeps s (put_ctls t cs s).
Proof.
  destruct t as [[]|]; [by split|apply grows_devices|apply put_case_keeps].
Qed.

(** A handler that reported an error. *)
Ltac failed := let H := fresh in intros H; discriminate H.

Section parser.
Context (mx : mixer) (ids : audio_device_ids) (ms : audio_masks) (mixer_open : Z -> bool)
  (ctl_range : Z -> Z * Z) (probe_line : bytes -> option bytes) (uninit : Z).

(** An element of the file with an [index] that is not a number. *)
Definition bad_index (at_ : attribs) : Prop := (attrib_to_uint at_ a_index).1 = - EINVAL.

Lemma ctl_start_spec at_ s :
  (cur_path s = None -> cur_scase s = true) ->
  match parse_ctl_start mx at_ s with
  | inl (r, s2) => keeps s s2
  | inr u => u = InvalidFree /\ bad_index at_
  end.
Proof.
  intros Hc. unfold parse_ctl_start.
  assert (bool_decide (cur_path s = None) && negb (cur_scase s) = false) as ->.
  { case_bool_decide as Hp; [|done]. by rewrite Hc. }
  destruct (dyn_array_extend _ _) as [cs|]; [|apply keeps_refl].
  unfold bad_index. destruct (attrib_to_uint at_ a_index) as [r idx]. cbn [fst].
  case_test; [done|]. destruct (ctl_open mx [] _) as [r' c]. apply put_ctls_keeps.
Qed.

Lemma add_path_name_keeps s name : keeps s (add_path_name s name).2.
Proof.
  unfold add_path_name. destruct (find_path_name s name); [apply keeps_refl|].
  destruct (dyn_array_extend _ _); [|apply keeps_refl]. by split.
Qed.

Lemma path_start_spec at_ s :
  device_array (ps_cm s) <> [] ->
  match parse_path_start at_ s with
  | inl (r, s2) => r = 0 -> grows s s2 /\ cur_path s2 = Some DevicePath /\ cur_scase s2 = cur_scase s
  | inr u => False
  end.
Proof.
  intros Hd. unfold parse_path_start. pose proof (add_path_name_keeps s (default [] (at_ a_name))) as Hk.
  destruct (add_path_name s (default [] (at_ a_name))) as [id s1]. cbn in Hk.
  case_test; [cbn; lia|]. destruct Hk as [Hk [_ Hc]].
  destruct (last_nonempty _ (g_devices _ _ Hk Hd)) as [d ->].
  destruct (dyn_array_extend _ _) as [ps|]; [|failed]. cbn. intros _. split_and!; [|done|done].
  destruct Hk. split; cbn; [done| |done|done]. intros _. by apply alter_last_nil, g_devices0.
Qed.

Lemma device_start_spec at_ s :
  match parse_device_start ids ms at_ s with
  | inl (r, s2) => r = 0 -> keeps s s2 /\ device_array (ps_cm s2) <> []
  | inr u => False
  end.
Proof.
  unfold parse_device_start. destruct (parse_match_device ids _) as [f|]; [|failed].
  destruct (negb (f =? 0) && _); [failed|]. unfold dyn_array_extend. cbn [device_array].
  destruct (ARRAY_LIMIT <=? _); [failed|]. cbn. intros _.
  assert (Hne : device_array (ps_cm s) ++ [mk_device f 0 []] <> []) by (by intros [_ ?]%app_eq_nil).
  split; [|done]. split; [|done]. by split.
Qed.

Lemma stream_start_spec at_ s :
  match parse_stream_start uninit at_ s with
  | inl (r, s2) => r = 0 -> stack s2 = stack s /\ has_stream (ps_cm s2) /\
      cur_path s2 = cur_path s /\ cur_scase s2 = cur_scase s /\
      (device_array (ps_cm s) <> [] -> device_array (ps_cm s2) <> [])
  | inr u => False
  end.
Proof.
  unfold parse_stream_start.
  destruct (match at_ a_name with Some n => _ | None => _ end); [failed|].
  unfold dyn_array_extend. destruct (ARRAY_LIMIT <=? _); [failed|].
  destruct (direction _ _); [|failed]. destruct (stream_kind _ _ _ _ _) as [[type number]|]; [|failed].
  destruct (existsb _ _); [failed|]. cbn. intros _. split_and!; try done. unfold has_stream. cbn.
  apply alter_last_nil. by intros [_ ?]%app_eq_nil.
Qed.

Lemma stream_update_spec e at_ s :
  e = e_enable \/ e = e_disable \/ e = e_stream_ctl ->
  match start_fn mx ids ms mixer_open ctl_range uninit e at_ s with
  | inl (r, s2) => keeps s s2
  | inr u => False
  end.
Proof.
  intros [-> | [-> | ->]]; cbn [start_fn].
  1,2: unfold parse_enable_disable_start; destruct (find_path_name _ _); [|apply keeps_refl];
    apply grows_streams; by eexists.
  unfold parse_stream_ctl_start. destruct (m_by_name mx [] _) as [id|]; [|apply keeps_refl].
  case_test; [apply keeps_refl|].
  destruct (negb _ && negb _); [apply keeps_refl|].
  destruct (bound_or _ _); [apply keeps_refl|]. destruct (bound_or _ _); [apply keeps_refl|].
  apply grows_streams. intros st u Hu. exists u. by destruct (bool_decide _).
Qed.

Lemma case_start_spec at_ s :
  has_usecase (ps_cm s) ->
  match parse_case_start at_ s with
  | inl (r, s2) => r = 0 -> grows s s2 /\ cur_path s2 = cur_path s /\ cur_scase s2 = true
  | inr u => False
  end.
Proof.
  intros (st & u & Hst & Hu). unfold parse_case_start. rewrite Hst, Hu.
  destruct (dyn_array_extend _ _) as [cs|]; [|failed]. cbn. intros _. split; [|done].
  destruct (grows_streams (fun st => set_usecases (alter_last (fun u => mk_usecase (uc_name u) cs)
    (usecase_array st)) st) s) as [[] _]; [|by split].
  intros st' u' Hu'. cbn. rewrite last_alter_last, Hu'. by eexists.
Qed.

Lemma usecase_start_spec at_ s :
  has_stream (ps_cm s) ->
  match parse_usecase_start at_ s with
  | inl (r, s2) => r = 0 -> keeps s s2 /\ has_usecase (ps_cm s2)
  | inr u => False
  end.
Proof.
  intros Hs. unfold parse_usecase_start. destruct (last_nonempty _ Hs) as [st Hst]. rewrite Hst.
  unfold dyn_array_extend.
  destruct (ARRAY_LIMIT <=? _); [failed|]. cbn. intros _. split.
  - apply grows_streams. intros st' u' Hu'. cbn. rewrite last_snoc. by eexists.
  - eexists _, _. cbn. rewrite last_alter_last, Hst. split; [done|]. cbn. by rewrite last_snoc.
Qed.

Lemma probe_keeps s : keeps s (probe_config_file probe_line s).
Proof.
  unfold probe_config_file. destruct (probe_line _); [|apply keeps_refl].
  destruct (List.find _ _) as [[]|]; by split.
Qed.

(** ** Opening an element *)

Definition push (e : element) (s : parse_state) : parse_state :=
  set_stack (mk_entry e (valid_subelem (elem_table e)) :: stack s) s.

Ltac not_member H :=
  repeat (apply elem_of_cons in H as [H|H]; [discriminate H|]); by apply not_elem_of_nil in H.

(** What holds on the stack with the new element, before its handler has run. *)
Lemma entries_push e s : ps_ok s -> entries_ok (stack (push e s)).
Proof.
  intros [Hc He _ _ _ _ _ _]. cbn. apply context_length in Hc. rewrite length_fmap in Hc.
  destruct (stack s) as [|x k] eqn:E; [cbn in Hc; lia|]. split; [by left|done].
Qed.

Lemma ok_pushed e s s2 :
  ps_ok s -> (e :: (elem_index <$> stack s)) ∈ contexts -> stack s2 = stack (push e s) ->
  (device_array (ps_cm s) <> [] -> device_array (ps_cm s2) <> []) ->
  (has_stream (ps_cm s) -> has_stream (ps_cm s2)) ->
  (e_usecase ∈ (elem_index <$> stack s) -> has_usecase (ps_cm s) -> has_usecase (ps_cm s2)) ->
  (e_case ∈ (elem_index <$> stack s) -> cur_scase s2 = cur_scase s) ->
  (e_path ∈ (elem_index <$> stack s) \/ e_init ∈ (elem_index <$> stack s) -> cur_path s2 = cur_path s) ->
  (e = e_device -> device_array (ps_cm s2) <> []) -> (e = e_stream -> has_stream (ps_cm s2)) ->
  (e = e_usecase -> has_usecase (ps_cm s2)) -> (e = e_case -> cur_scase s2 = true) ->
  (e = e_path -> cur_path s2 = Some DevicePath) -> (e = e_init -> cur_path s2 = Some InitPath) ->
  ps_ok s2.
Proof.
  intros Hs Hc Hst Hd Hstr Huc Hcase Hpath Ed Es Eu Ec Ep Ei. pose proof (entries_push e s Hs) as Hent.
  destruct Hs. split; rewrite ?Hst; try done; cbn;
    intros Hin; apply elem_of_cons in Hin as [Hin|Hin]; auto.
  - rewrite Hcase by done. auto.
  - rewrite Hpath by auto. auto.
  - rewrite Hpath by auto. auto.
Qed.

(** Refutes or finds the context of an element. *)
Ltac context_of Hc :=
  contexts_cases Hc; try discriminate Hc; injection Hc as Hc.

Lemma start_ok e at_ s :
  ps_ok s -> (e :: (elem_index <$> stack s)) ∈ contexts ->
  match start_fn mx ids ms mixer_open ctl_range uninit e at_ (push e s) with
  | inl (r, s2) => r = 0 -> ps_ok s2
  | inr u => u = InvalidFree /\ e = e_ctl /\ bad_index at_
  end.
Proof.
  intros Hs Hc. pose proof Hc as Hc0.
  assert (Hkeep : forall s2, keeps (push e s) s2 -> e ∈ [e_ctl; e_enable; e_disable; e_stream_ctl;
      e_audiohal; e_codec_probe; e_codec_case] -> ps_ok s2).
  { intros s2 [[] [Hp Hcs]] He. apply (ok_pushed e s); auto; intros ->; exfalso;
      (repeat (apply elem_of_cons in He as [He|He]; [discriminate He|])); by apply not_elem_of_nil in He. }
  destruct e; cbn [start_fn].
  - (* ctl *)
    pose proof (ctl_start_spec at_ (push e_ctl s)) as Hctl. cbn in Hctl.
    assert (Hnn : cur_path s = None -> cur_scase s = true).
    { context_of Hc; intros Hp.
      - pose proof (context_length _ (ok_context s Hs)) as Hl. rewrite Hc in Hl. cbn in Hl. lia.
      - rewrite (ok_init s Hs) in Hp; [done|]. rewrite Hc. set_solver.
      - rewrite (ok_path s Hs) in Hp; [done|]. rewrite Hc. set_solver.
      - apply (ok_case s Hs). rewrite Hc. set_solver. }
    specialize (Hctl Hnn). destruct (parse_ctl_start mx at_ (push e_ctl s)) as [[r s2]|u].
    + intros _. apply Hkeep; [done|set_solver].
    + destruct Hctl as [-> Hb]. done.
  - (* path *)
    assert (Hd : device_array (ps_cm (push e_path s)) <> []).
    { context_of Hc. apply (ok_device s Hs). rewrite Hc. set_solver. }
    pose proof (path_start_spec at_ (push e_path s) Hd) as Hp.
    destruct (parse_path_start at_ (push e_path s)) as [[r s2]|u]; [|done].
    intros Hr. destruct (Hp Hr) as ([] & Hcp & Hcs). apply (ok_pushed e_path s); auto; try done.
    context_of Hc. rewrite Hc. intros [H|H]; not_member H.
  - (* device *)
    pose proof (device_start_spec at_ (push e_device s)) as Hp.
    destruct (parse_device_start ids ms at_ (push e_device s)) as [[r s2]|u]; [|done].
    intros Hr. destruct (Hp Hr) as ([[] [Hcp Hcs]] & Hd). by apply (ok_pushed e_device s); auto.
  - (* stream *)
    pose proof (stream_start_spec at_ (push e_stream s)) as Hp.
    destruct (parse_stream_start uninit at_ (push e_stream s)) as [[r s2]|u]; [|done].
    intros Hr. destruct (Hp Hr) as (Hst & Hstr & Hcp & Hcs & Hd). apply (ok_pushed e_stream s); auto; try done.
    context_of Hc. rewrite Hc. intros H. not_member H.
  - pose proof (stream_update_spec e_enable at_ (push e_enable s) ltac:(auto)) as Hp. cbn [start_fn] in Hp.
    destruct (parse_enable_disable_start true at_ (push e_enable s)) as [[r s2]|u]; [|done].
    intros _. apply Hkeep; [done|set_solver].
  - pose proof (stream_update_spec e_disable at_ (push e_disable s) ltac:(auto)) as Hp. cbn [start_fn] in Hp.
    destruct (parse_enable_disable_start false at_ (push e_disable s)) as [[r s2]|u]; [|done].
    intros _. apply Hkeep; [done|set_solver].
  - (* case *)
    assert (Hu : has_usecase (ps_cm (push e_case s))).
    { context_of Hc. apply (ok_usecase s Hs). rewrite Hc. set_solver. }
    pose proof (case_start_spec at_ (push e_case s) Hu) as Hp.
    destruct (parse_case_start at_ (push e_case s)) as [[r s2]|u]; [|done].
    intros Hr. destruct (Hp Hr) as ([] & Hcp & Hcs). apply (ok_pushed e_case s); auto; try done.
    context_of Hc. rewrite Hc. intros H. not_member H.
  - (* usecase *)
    assert (Hst : has_stream (ps_cm (push e_usecase s))).
    { context_of Hc. apply (ok_stream s Hs). rewrite Hc. set_solver. }
    pose proof (usecase_start_spec at_ (push e_usecase s) Hst) as Hp.
    destruct (parse_usecase_start at_ (push e_usecase s)) as [[r s2]|u]; [|done].
    intros Hr. destruct (Hp Hr) as ([[] [Hcp Hcs]] & Hu). by apply (ok_pushed e_usecase s); auto.
  - pose proof (stream_update_spec e_stream_ctl at_ (push e_stream_ctl s) ltac:(auto)) as Hp.
    cbn [start_fn] in Hp.
    destruct (parse_stream_ctl_start mx ctl_range at_ (push e_stream_ctl s)) as [[r s2]|u]; [|done].
    intros _. apply Hkeep; [done|set_solver].
  - (* init *)
    cbn. intros _. apply (ok_pushed e_init s); auto; try done.
    context_of Hc. rewrite Hc. intros [H|H]; not_member H.
  - (* mixer *)
    unfold parse_mixer_start. destruct (_ =? _); [failed|]. destruct (negb _); [failed|].
    pose proof (ok_context s Hs) as Hctx. apply context_length in Hctx. rewrite length_fmap in Hctx.
    cbn [push set_stack stack]. pose proof (entries_push e_mixer s Hs) as Hent. cbn in Hent.
    assert (Hk : (elem_index <$> stack s) = [e_audiohal; e_ctl]) by (by context_of Hc).
    destruct (stack s) as [|x k] eqn:Ek; [done|]. intros _. destruct Hs.
    assert (Hin : forall e, e <> e_mixer -> e <> e_audiohal -> e <> e_ctl ->
      e ∉ (e_mixer :: (elem_index <$> x :: k))).
    { rewrite Hk. set_solver. }
    split; cbn [set_stack stack ps_cm fmap list_fmap elem_index] in *;
      try (intros Hm; exfalso; revert Hm; by apply Hin); [done|].
    destruct k as [|y k]; [done|]. destruct Hent as (_ & _ & Hy).
    split; [by left|]. split; [|done]. right. cbn. by injection Hk as -> _.
  - intros _. apply Hkeep; [apply keeps_refl|set_solver].
  - unfold parse_codec_probe_start. destruct (probe_file _); [failed|]. intros _. apply Hkeep; [by split|set_solver].
  - unfold parse_codec_case_start. destruct (dyn_array_extend _ _); [|failed].
    intros _. apply Hkeep; [by split|set_solver].
Qed.

(** ** Closing an element *)

Lemma context_pop e f c : (e :: f :: c) ∈ contexts -> (f :: c) ∈ contexts.
Proof.
  intros Hc. contexts_cases Hc; try discriminate Hc; injection Hc as -> -> ->;
    apply (bool_decide_unpack _); by vm_compute.
Qed.

(** An element is never open inside another one of its kind, and only one of [<path>]
    and [<init>] is. *)
Lemma context_once e c :
  (e :: c) ∈ contexts -> e <> e_ctl -> (e ∉ c) /\ (e = e_path -> e_init ∉ c).
Proof.
  intros Hc. contexts_cases Hc; injection Hc as -> ->; intros He; (done || set_solver).
Qed.

Lemma end_ok s top below rest :
  ps_ok s -> stack s = top :: below :: rest ->
  match end_fn probe_line (elem_index top) s with
  | inl (r, s2) => ps_ok (set_stack (below :: rest) s2)
  | inr u => False
  end.
Proof.
  intros Hs Hk. pose proof Hs as []. rewrite Hk in *.
  set (c := elem_index <$> below :: rest) in *.
  assert (Hc : (elem_index top :: c) ∈ contexts) by exact ok_context0.
  assert (Hent : entries_ok (below :: rest)) by exact (proj2 ok_entries0).
  assert (Hpop : c ∈ contexts) by exact (context_pop _ _ _ Hc).
  assert (Hsub : forall e, e ∈ c -> e ∈ (elem_index <$> top :: below :: rest)).
  { intros e He. cbn. by right. }
  pose proof (context_once _ _ Hc) as Hone.
  assert (Hsame : forall s2, ps_cm s2 = ps_cm s -> cur_path s2 = cur_path s -> cur_scase s2 = cur_scase s ->
    ps_ok (set_stack (below :: rest) s2)).
  { intros s2 H1 H2 H3. split; cbn [set_stack stack ps_cm cur_path cur_scase]; rewrite ?H1, ?H2, ?H3;
      fold c; auto. }
  destruct (elem_index top) eqn:Et; cbn [end_fn]; try (by apply Hsame).
  - destruct Hone as [Hn Hi]; [done|].
    split; cbn; fold c; auto; intros He; exfalso; [by apply Hn|].
    by apply Hi.
  - destruct Hone as [Hn _]; [done|]. split; cbn; fold c; auto.
  - destruct (probe_keeps s) as [_ [H1 H2]]. apply Hsame; [|done|done].
    unfold probe_config_file. destruct (probe_line _); [|done]. by destruct (List.find _ _) as [[]|].
Qed.

(** ** Any sequence of events *)

(** Every end of an element closes one that was opened. *)
Fixpoint nested (depth : nat) (es : list sax) : bool :=
  match es with
  | [] => true
  | Start _ _ :: es => nested (S depth) es
  | End_ :: es => match depth with O => false | S depth => nested depth es end
  end.

(** The state with [depth] elements open; after an error or a stop nothing is read. *)
Definition live (depth : nat) (s : parse_state) : Prop :=
  stopped s = true \/ parse_error s <> 0 \/ (ps_ok s /\ length (stack s) = S depth).

Lemma reset_live file s : live 0 (reset_parser file s).
Proof.
  right. right. split; [|done]. split; cbn; try (by intros He%list_elem_of_singleton); [|done].
  by left.
Qed.

Lemma ps_ok_error r s : ps_ok s -> ps_ok (parse_set_error r s).
Proof. intros []. by split. Qed.

Lemma live_error r s depth : r <> 0 -> live depth (parse_set_error r s).
Proof. intros Hr. right. by left. Qed.

(** No handler opens or closes an element. *)
Lemma start_length e at_ s :
  match start_fn mx ids ms mixer_open ctl_range uninit e at_ s with
  | inl (r, s2) => length (stack s2) = length (stack s)
  | inr u => True
  end.
Proof.
  destruct e; cbn [start_fn];
    unfold parse_ctl_start, parse_path_start, parse_device_start, parse_stream_start,
      parse_enable_disable_start, parse_case_start, parse_usecase_start, parse_stream_ctl_start,
      parse_mixer_start, parse_codec_probe_start, parse_codec_case_start, parse_init_start, add_path_name, ret;
    repeat case_match; simplify_eq/=; try done; try (by destruct (cur_path s) as [[]|]).
Qed.

(** A control whose index is not a number. *)
Definition bad_ctl (e : sax) : Prop :=
  exists l at_, e = Start (lit "ctl") l /\ extract_attribs e_ctl l = Some at_ /\ bad_index at_.

Lemma section_start_live name l s depth :
  live depth s -> stopped s = false ->
  match parse_section_start mx ids ms mixer_open ctl_range uninit name l s with
  | inl s2 => live (S depth) s2
  | inr u => u = InvalidFree /\ bad_ctl (Start name l)
  end.
Proof.
  intros Hl Hst. unfold parse_section_start. case_test; [right; by left|].
  destruct Hl as [?|[?|[Hok Hlen]]]; [congruence|lia|].
  destruct (stack s) as [|top k] eqn:Hk; [done|].
  destruct (find_element (subelems top) name) as [e|] eqn:Hf; [|by apply live_error].
  apply List.find_some in Hf as [_ Hf]. apply andb_prop in Hf as [He Hn].
  apply bool_decide_eq_true in He, Hn.
  assert (Hc : (e :: (elem_index <$> stack s)) ∈ contexts).
  { rewrite Hk. apply context_push; [rewrite <- Hk; apply Hok|rewrite <- Hk; apply Hok|done]. }
  pose proof (context_length _ Hc) as Hcl. cbn [length] in Hcl. rewrite length_fmap, Hk in Hcl.
  rewrite !(proj2 (Nat.leb_gt MAX_PARSE_DEPTH _)) by (unfold MAX_PARSE_DEPTH; cbn [length] in *; lia).
  rewrite <- Hk.
  change (set_stack _ s) with (push e s).
  destruct (extract_attribs e l) as [at_|] eqn:Hat; [|by apply live_error].
  pose proof (start_ok e at_ s Hok Hc) as Hstart.
  pose proof (start_length e at_ (push e s)) as Hsl.
  destruct (start_fn mx ids ms mixer_open ctl_range uninit e at_ (push e s)) as [[r s2]|u].
  - destruct (decide (r = 0)) as [->|Hr]; [|by apply live_error].
    right. right. split; [by apply ps_ok_error, Hstart|]. cbn. rewrite Hsl. cbn. by rewrite Hk, Hlen.
  - destruct Hstart as (-> & -> & Hb). split; [done|]. rewrite Hn. by exists l, at_.
Qed.

Lemma section_end_live s depth :
  live (S depth) s -> stopped s = false ->
  match parse_section_end probe_line s with inl s2 => live depth s2 | inr u => False end.
Proof.
  intros Hl Hst. unfold parse_section_end. case_test; [right; by left|].
  destruct Hl as [?|[?|[Hok Hlen]]]; [congruence|lia|].
  destruct (stack s) as [|top [|below rest]] eqn:Hk; [done..|].
  pose proof (end_ok s top below rest Hok Hk) as Hend.
  destruct (end_fn probe_line (elem_index top) s) as [[r s2]|u]; [|done].
  right. right. split; [by apply ps_ok_error|]. cbn in *. lia.
Qed.

Lemma sax_run_live es s depth :
  live depth s -> nested depth es = true ->
  match sax_run mx ids ms mixer_open ctl_range probe_line uninit es s with
  | inl s2 => True
  | inr u => u = InvalidFree /\ Exists bad_ctl es
  end.
Proof.
  revert s depth; induction es as [|e es IH]; intros s depth Hl Hn; cbn [sax_run]; [done|].
  assert (Hnext : forall s2 depth2, live depth2 s2 -> nested depth2 es = true ->
    match sax_run mx ids ms mixer_open ctl_range probe_line uninit es s2 with
    | inl s2 => True
    | inr u => u = InvalidFree /\ Exists bad_ctl (e :: es)
    end).
  { intros s2 depth2 Hl2 Hn2. specialize (IH s2 depth2 Hl2 Hn2).
    destruct (sax_run _ _ _ _ _ _ _ es s2); [done|]. destruct IH. split; [done|]. by right. }
  unfold sax_step. destruct (stopped s) eqn:Hst.
  { destruct e; [|destruct depth; [done|]]; eapply Hnext; try exact Hn; by left. }
  destruct e as [name l|]; cbn in Hn.
  - pose proof (section_start_live name l s depth Hl Hst) as H1.
    destruct (parse_section_start _ _ _ _ _ _ name l s) as [s2|u]; [by eapply Hnext|].
    destruct H1. split; [done|]. by left.
  - destruct depth as [|depth]; [done|]. pose proof (section_end_live s depth Hl Hst) as H1.
    destruct (parse_section_end _ s) as [s2|u]; [by eapply Hnext|done].
Qed.

Lemma do_parse_safe file x s :
  nested 0 (events x) = true ->
  match do_parse mx ids ms mixer_open ctl_range probe_line uninit file x s with
  | inl _ => True
  | inr u => u = InvalidFree /\ Exists bad_ctl (events x)
  end.
Proof.
  intros Hn. unfold do_parse.
  pose proof (sax_run_live (events x) (reset_parser file s) 0 (reset_live file s) Hn) as H.
  by destruct (sax_run _ _ _ _ _ _ _ (events x) _).
Qed.

Lemma parse_files_safe fuel files file s :
  (forall f x, files f = Some x -> nested 0 (events x) = true) ->
  match parse_files mx ids ms mixer_open ctl_range probe_line uninit fuel files file s with
  | Some (inr u) => u = InvalidFree /\ exists f x, files f = Some x /\ Exists bad_ctl (events x)
  | _ => True
  end.
Proof.
  intros Hf. revert file s; induction fuel as [|fuel IH]; intros file s; cbn [parse_files]; [done|].
  destruct (files file) as [x|] eqn:Hx; [|done].
  pose proof (do_parse_safe file x s (Hf _ _ Hx)) as H.
  destruct (do_parse _ _ _ _ _ _ _ file x s) as [[r s2]|u]; [|destruct H; eauto].
  destruct (new_xml_file s2); [apply IH|done].
Qed.

(** C12. Whatever elements, attributes and nesting the files have, however they redirect,
    and whatever the mixer and the codec probe answer, reading them never overflows or
    underflows the element stack and never goes through a null [current] pointer; the
    one thing that can go wrong is freeing an element of an array, on a [<ctl>] whose
    [index] is not a number. *)
Theorem parser_safe (fuel : nat) (files : bytes -> option xml_file) (file : bytes) :
  (forall f x, files f = Some x -> nested 0 (events x) = true) ->
  match init_audio_config mx ids ms mixer_open ctl_range probe_line uninit fuel files file with
  | Some (inr u) => u = InvalidFree /\ exists f x, files f = Some x /\ Exists bad_ctl (events x)
  | _ => True
  end.
Proof.
  intros Hf. pose proof (parse_files_safe fuel files file init_state Hf) as H.
  unfold init_audio_config, parse_config_file.
  by destruct (parse_files _ _ _ _ _ _ _ fuel files file init_state) as [[[r s]|u]|].
Qed.

End parser.
