(* ===== verification/AudioTyped.v ===== *)
(** * The configurations the audio parser produces ([configmgr/audio_config.c])

    Theorems about [AudioParse]: the types of what a file is read into, that the routing
    of [AudioRoutes] starts from it, and the controls that end up in the wrong place. *)

From S2P Require Import Prelude.
From S2P Require Import CString.
From S2P Require Import AudioRouting.
From S2P Require Import AudioRoutes.
From S2P Require Import AudioParse.
From S2P Require Import AudioParser.

(** ** Invariants of the driver *)

Section driver.
Context (mx : mixer) (ids : audio_device_ids) (ms : audio_masks) (mixer_open : Z -> bool)
  (ctl_range : Z -> Z * Z) (probe_line : bytes -> option bytes) (uninit : Z).
Context (P : parse_state -> Prop) (ok : element -> Prop).
Context (P_error : forall s, P s -> P (parse_set_error 0 s)).
Context (P_push : forall e s, ok e -> P s -> P (push e s)).
Context (P_pop : forall x k s, stack s = x :: k -> P s -> P (set_stack k s)).
Context (P_start : forall e at_ s s2, ok e -> P s ->
  start_fn mx ids ms mixer_open ctl_range uninit e at_ s = inl (0, s2) -> P s2).
Context (P_end : forall x k s s2, stack s = x :: k -> P s ->
  end_fn probe_line (elem_index x) s = inl (0, s2) -> P s2 /\ stack s2 = stack s).

(** After an error nothing changes. *)
Lemma sax_run_error es s :
  parse_error s <> 0 -> sax_run mx ids ms mixer_open ctl_range probe_line uninit es s = inl s.
Proof.
  intros Hs. induction es as [|e es IH]; cbn [sax_run]; [done|]. unfold sax_step.
  unfold parse_section_start, parse_section_end. rewrite (proj2 (Z.eqb_neq _ _) Hs). cbn.
  by destruct (stopped s), e.
Qed.

(** An invariant of the handlers, for the elements with the names in the file. *)
Lemma sax_run_inv es s s2 :
  (forall name l e, Start name l ∈ es -> name = lit (elem_name (elem_table e)) -> ok e) ->
  P s -> sax_run mx ids ms mixer_open ctl_range probe_line uninit es s = inl s2 ->
  parse_error s2 = 0 -> P s2.
Proof.
  revert s; induction es as [|e es IH]; intros s Hes Hs; cbn [sax_run]; [by intros [= ->]|].
  assert (Hes' : forall name l e, Start name l ∈ es -> name = lit (elem_name (elem_table e)) -> ok e).
  { intros name l el Hin. eapply Hes. by right. }
  assert (Hr : forall r s3, (r = 0 -> P s3) ->
    sax_run mx ids ms mixer_open ctl_range probe_line uninit es (parse_set_error r s3) = inl s2 ->
    parse_error s2 = 0 -> P s2).
  { intros r s3 H3 Hrun H0. destruct (decide (r = 0)) as [->|Hne]; [eapply IH; [done|by apply P_error, H3|done..]|].
    rewrite sax_run_error in Hrun by done. injection Hrun as <-. done. }
  unfold sax_step. destruct (stopped s); [by apply IH|]. destruct e as [name l|].
  - unfold parse_section_start. case_test; [by apply IH|].
    destruct (stack s) as [|top k] eqn:Hk; [done|].
    destruct (find_element (subelems top) name) as [e|] eqn:Hf; [|by apply Hr].
    apply List.find_some in Hf as [_ Hf]. apply andb_prop in Hf as [_ Hn]. apply bool_decide_eq_true in Hn.
    assert (Hok : ok e) by (eapply Hes; [by left|done]).
    destruct (_ <=? _)%nat; [by apply Hr|]. destruct (_ <=? _)%nat; [done|].
    rewrite <- Hk. change (set_stack _ s) with (push e s).
    destruct (extract_attribs e l) as [at_|]; [|by apply Hr].
    destruct (start_fn _ _ _ _ _ _ e at_ _) as [[r s3]|u] eqn:Hst; [|done].
    apply Hr. intros ->. eapply P_start; [done| |exact Hst]. by apply P_push.
  - unfold parse_section_end. case_test; [by apply IH|].
    destruct (stack s) as [|top [|below rest]] eqn:Hk; [done..|].
    destruct (end_fn probe_line (elem_index top) s) as [[r s3]|u] eqn:Hend; [|done].
    apply Hr. intros ->. destruct (P_end top (below :: rest) s s3 Hk Hs Hend) as [H3 Hk3].
    eapply P_pop; [|exact H3]. rewrite Hk3. exact Hk.
Qed.

End driver.

(** ** Types *)

(** A reference to a path: [-1] is none. *)
Definition path_ref (n i : Z) : Prop := -1 <= i < n.

Definition device_typed (n : Z) (d : device) : Prop :=
  use_count d = 0 /\ Forall (fun p => 0 <= p_id p < n) (path_array d).

Definition stream_typed (n : Z) (s : stream) : Prop :=
  ref_count s = 0 /\ current_devices s = 0 /\ 0 <= card_number s < 256 /\ 0 <= device_number s < 256 /\
  is_int (max_ref_count s) /\ path_ref n (enable_path s) /\ path_ref n (disable_path s).

(** The devices of one direction that the file lists. *)
Definition listed (ms : audio_masks) (input : bool) (ds : list device) : Z :=
  foldr (fun d m => if Bool.eqb (negb (Z.land (d_type d) (BIT_IN ms) =? 0)) input
                    then Z.lor m (d_type d) else m) 0 ds.

#[global] Arguments listed : simpl never.

(** A configuration with [n] path names. *)
Record cm_typed (ms : audio_masks) (n : Z) (cm : config_mgr) : Prop := {
  ct_devices : Forall (device_typed n) (device_array cm);
  ct_streams : Forall (stream_typed n) (stream_array cm);
  ct_names : NoDup (omap s_name (stream_array cm));
  ct_out : supported_output_devices cm = listed ms false (device_array cm);
  ct_in : supported_input_devices cm = listed ms true (device_array cm) }.

(** The names of paths are different, and the switches have the first two ids. *)
Definition names_ok (names : list bytes) : Prop :=
  NoDup names /\ [lit "off"; lit "on"] `prefix_of` names.

Definition typed (ms : audio_masks) (s : parse_state) : Prop :=
  cm_typed ms (zlen (path_names s)) (ps_cm s) /\ names_ok (path_names s).

Lemma device_typed_mono n m d : n <= m -> device_typed n d -> device_typed m d.
Proof. intros Hn [Hu Hp]. split; [done|]. eapply Forall_impl; [exact Hp|]. cbn. lia. Qed.

Lemma stream_typed_mono n m s : n <= m -> stream_typed n s -> stream_typed m s.
Proof. unfold stream_typed, path_ref. intuition lia. Qed.

Lemma cm_typed_mono ms n m cm : n <= m -> cm_typed ms n cm -> cm_typed ms m cm.
Proof.
  intros Hn []. split; try done; eapply Forall_impl; try done; intros ?;
    [by apply device_typed_mono|by apply stream_typed_mono].
Qed.

Lemma Forall_alter_last {A} (P : A -> Prop) f l :
  (forall x, P x -> P (f x)) -> Forall P l -> Forall P (alter_last f l).
Proof. intros Hf Hl. apply Forall_alter; auto. Qed.

Lemma alter_last_same {A B} (g : A -> B) f l :
  (forall x, g (f x) = g x) -> g <$> alter_last f l = g <$> l.
Proof.
  intros Hf. unfold alter_last. apply list_eq. intros i. rewrite !list_lookup_fmap.
  destruct (decide (pred (length l) = i)) as [<-|Hi].
  - rewrite list_lookup_alter_eq. destruct (l !! _); [|done]. cbn. by rewrite Hf.
  - by rewrite list_lookup_alter_ne.
Qed.

Lemma omap_fmap {A B} (g : A -> option B) (l : list A) : omap g l = omap id (g <$> l).
Proof. induction l as [|x l IH]; cbn; [done|]. by rewrite IH. Qed.

Lemma alter_last_snoc {A} (f : A -> A) l x : alter_last f (l ++ [x]) = l ++ [f x].
Proof.
  unfold alter_last. rewrite length_app. cbn. rewrite Nat.add_1_r. cbn. rewrite alter_app_r_alt by lia. by rewrite Nat.sub_diag.
Qed.

Lemma listed_types ms input ds ds' : d_type <$> ds = d_type <$> ds' -> listed ms input ds = listed ms input ds'.
Proof.
  revert ds'; induction ds as [|d ds IH]; intros [|d' ds'] Heq; try done.
  cbn in Heq. injection Heq as Hd Hds. specialize (IH ds' Hds). unfold listed in *. cbn. by rewrite Hd, IH.
Qed.

Lemma listed_snoc ms input ds d :
  listed ms input (ds ++ [d]) =
    if Bool.eqb (negb (Z.land (d_type d) (BIT_IN ms) =? 0)) input
    then Z.lor (listed ms input ds) (d_type d) else listed ms input ds.
Proof.
  unfold listed in *. induction ds as [|e ds IH]; cbn; [by destruct (Bool.eqb _ _)|]. rewrite IH.
  destruct (Bool.eqb _ _), (Bool.eqb _ _); try done. rewrite <- !Z.lor_assoc. f_equal. apply Z.lor_comm.
Qed.

Lemma typed_streams ms f s :
  (forall st, stream_typed (zlen (path_names s)) st ->
     stream_typed (zlen (path_names s)) (f st)) -> (forall st, s_name (f st) = s_name st) ->
  typed ms s -> typed ms (with_streams (alter_last f) s).
Proof.
  intros Hf Hn [[] H2]. split; [|done]. split; cbn; try done.
  - by apply Forall_alter_last.
  - by rewrite omap_fmap, alter_last_same, <- omap_fmap.
Qed.

Lemma typed_devices ms f s :
  (forall d, device_typed (zlen (path_names s)) d -> device_typed (zlen (path_names s)) (f d)) ->
  (forall d, d_type (f d) = d_type d) ->
  typed ms s -> typed ms (with_devices (alter_last f) s).
Proof.
  intros Hf Ht [[] H2]. split; [|done]. split; cbn; try done.
  - by apply Forall_alter_last.
  - rewrite ct_out0. apply listed_types. by rewrite alter_last_same.
  - rewrite ct_in0. apply listed_types. by rewrite alter_last_same.
Qed.

Section typing.
Context (mx : mixer) (ids : audio_device_ids) (ms : audio_masks) (mixer_open : Z -> bool)
  (ctl_range : Z -> Z * Z) (probe_line : bytes -> option bytes) (uninit : Z).

Lemma find_name_down_spec n names name i :
  find_name_down n names name = Some i -> names !! i = Some name.
Proof.
  induction n as [|n IH]; cbn; [done|]. case_bool_decide; [by intros [= <-]|done].
Qed.

Lemma find_name_down_none n names name i :
  find_name_down n names name = None -> (i < n)%nat -> names !! i <> Some name.
Proof.
  induction n as [|n IH]; cbn; [lia|]. case_bool_decide; [done|]. intros Hn Hi.
  destruct (decide (i = n)) as [->|]; [done|]. apply IH; [done|lia].
Qed.

Lemma find_path_name_range s name i :
  find_path_name s name = Some i -> 0 <= Z.of_nat i < zlen (path_names s).
Proof. intros Hi%find_name_down_spec%lookup_lt_Some. unfold zlen. lia. Qed.

Lemma find_path_name_new s name : find_path_name s name = None -> name ∉ path_names s.
Proof.
  intros Hn (i & Hi)%list_elem_of_lookup. eapply find_name_down_none; [done| |done].
  by eapply lookup_lt_Some.
Qed.

Lemma add_path_name_typed s name :
  typed ms s -> let r := add_path_name s name in
  typed ms r.2 /\ r.1 < zlen (path_names r.2) /\ ps_cm r.2 = ps_cm s.
Proof.
  intros Hs. unfold add_path_name. destruct (find_path_name s name) as [i|] eqn:Hi; cbn.
  { by apply find_path_name_range in Hi as []. }
  pose proof (zlen_nonneg (path_names s)) as H0. unfold dyn_array_extend.
  destruct (ARRAY_LIMIT <=? _) eqn:E; cbn.
  { unfold ENOMEM. split_and!; [done|lia|done]. }
  destruct Hs as (Hs & Hd & Hp). unfold typed. cbn. rewrite zlen_app, zlen_cons, zlen_nil.
  split_and!; [|split; [|by apply prefix_app_r]|lia|done].
  - eapply cm_typed_mono; [|done]. lia.
  - apply NoDup_app. split_and!; [done| |apply NoDup_singleton].
    intros x Hx ->%list_elem_of_singleton. by eapply find_path_name_new.
Qed.

Lemma put_ctls_typed t cs s : typed ms s -> typed ms (put_ctls t cs s).
Proof.
  intros Hs. destruct t as [[]|]; cbn; [done| |].
  - apply typed_devices; [|done..]. intros d [Hu Hp]. split; [done|]. cbn.
    apply Forall_alter; [done|]. auto.
  - by apply typed_streams.
Qed.

Lemma path_start_typed at_ s r s2 :
  typed ms s -> parse_path_start at_ s = inl (r, s2) -> typed ms s2.
Proof.
  intros Hs. unfold parse_path_start.
  pose proof (add_path_name_typed s (default [] (at_ a_name)) Hs) as Ha.
  destruct (add_path_name s _) as [id s1]. cbn in Ha. destruct Ha as (H1 & Hid & _).
  case_test; [by intros [= _ <-]|].
  destruct (last (device_array (ps_cm s1))) as [d|] eqn:Hd; [|done]. unfold dyn_array_extend.
  destruct (ARRAY_LIMIT <=? _); [by intros [= _ <-]|]. intros [= _ <-].
  unfold typed. cbn. change (typed ms (with_devices (alter_last (fun d0 => mk_device (d_type d0)
    (use_count d0) (path_array d ++ [mk_path id []]))) s1)).
  assert (Hdt : device_typed (zlen (path_names s1)) d).
  { destruct H1 as [[Hds _ _ _ _] _]. rewrite Forall_forall in Hds. by apply Hds, last_Some_elem_of. }
  apply typed_devices; [|done..]. intros d' [Hu _]. split; [done|]. cbn. apply Forall_app.
  split; [apply Hdt|]. apply Forall_singleton. cbn. lia.
Qed.

Lemma device_start_typed at_ s s2 :
  typed ms s -> parse_device_start ids ms at_ s = inl (0, s2) -> typed ms s2.
Proof.
  intros [[] H2]. unfold parse_device_start. destruct (parse_match_device ids _) as [flag|]; [|done].
  destruct (negb (flag =? 0) && _); [done|]. unfold dyn_array_extend. cbn [device_array].
  destruct (ARRAY_LIMIT <=? _); [done|]. intros [= <-]. split; [|done]. split; cbn.
  - apply Forall_app. split; [done|]. repeat constructor.
  - done.
  - done.
  - rewrite listed_snoc. cbn. destruct (Z.land flag (BIT_IN ms) =? 0); cbn; [|done].
    case_test; [|by rewrite ct_out0]. subst flag. by rewrite Z.lor_0_r.
  - rewrite listed_snoc. cbn. destruct (Z.land flag (BIT_IN ms) =? 0); cbn; [done|].
    case_test; [|by rewrite ct_in0]. subst flag. by rewrite Z.lor_0_r.
Qed.

Lemma named_not_defined cm name :
  is_named_stream_defined cm name = false -> name ∉ omap s_name (stream_array cm).
Proof.
  unfold is_named_stream_defined, find_named_stream. intros Hb%bool_decide_eq_false.
  revert Hb. generalize 0%nat. induction (stream_array cm) as [|s ss IH]; intros i Hb; cbn in *;
    [by intros ?%not_elem_of_nil|].
  case_bool_decide as Hs; [by destruct Hb|]. destruct (s_name s) as [n|]; [|by eapply IH].
  intros [->|Hin]%elem_of_cons; [done|]. by eapply IH.
Qed.

Lemma stream_start_typed at_ s s2 :
  typed ms s -> parse_stream_start uninit at_ s = inl (0, s2) -> typed ms s2.
Proof.
  intros [[] H2]. unfold parse_stream_start.
  destruct (match at_ a_name with Some n => _ | None => _ end) eqn:Hdef; [done|].
  unfold dyn_array_extend. destruct (ARRAY_LIMIT <=? _); [done|].
  destruct (direction _ _) as [out|]; [|done].
  destruct (stream_kind _ _ _ _ _) as [[type number]|]; [|done].
  destruct (existsb _ _); [done|]. intros [= <-]. unfold typed. cbn. split; [|done].
  split; cbn; try done; rewrite alter_last_snoc.
  - apply Forall_app. split; [done|]. apply Forall_singleton. unfold stream_typed. cbn.
    pose proof (zlen_nonneg (path_names s)). split_and!; try done; try (apply Z.mod_pos_bound; lia); [apply wrap_s32_range| |];
      unfold path_ref; lia.
  - rewrite omap_app. cbn. destruct (at_ a_name) as [n|]; [|by rewrite app_nil_r].
    apply NoDup_app. split_and!; [done| |apply NoDup_singleton].
    intros x Hx ->%list_elem_of_singleton. by eapply named_not_defined.
Qed.

Lemma bound_or_error r own e : bound_or r own = inl e -> e < 0.
Proof. unfold bound_or, EINVAL. intros H. repeat case_match; simplify_eq; lia. Qed.

Lemma start_typed e at_ s s2 :
  typed ms s -> start_fn mx ids ms mixer_open ctl_range uninit e at_ s = inl (0, s2) -> typed ms s2.
Proof.
  intros Hs. destruct e; cbn [start_fn].
  - unfold parse_ctl_start. case_test; [done|]. destruct (dyn_array_extend _ _) as [cs|]; [|done].
    destruct (attrib_to_uint _ _) as [r idx]. case_test; [done|].
    destruct (ctl_open _ _ _) as [r' c]. intros [= _ <-]. by apply put_ctls_typed.
  - by apply path_start_typed.
  - by apply device_start_typed.
  - by apply stream_start_typed.
  - unfold parse_enable_disable_start. destruct (find_path_name _ _) as [i|] eqn:Hi; [|done].
    intros [= <-]. apply find_path_name_range in Hi. apply typed_streams; [|done..].
    intros st (?&?&?&?&?&?&?). unfold stream_typed, path_ref in *. cbn.
    split_and!; try done; lia.
  - unfold parse_enable_disable_start. destruct (find_path_name _ _) as [i|] eqn:Hi; [|done].
    intros [= <-]. apply find_path_name_range in Hi. apply typed_streams; [|done..].
    intros st (?&?&?&?&?&?&?). unfold stream_typed, path_ref in *. cbn.
    split_and!; try done; lia.
  - unfold parse_case_start. destruct (last _) as [st|]; [|done]. destruct (last _) as [u|]; [|done].
    destruct (dyn_array_extend _ _) as [cs|]; [|done]. intros [= <-]. by apply (typed_streams ms _ s).
  - unfold parse_usecase_start. destruct (last _) as [st|]; [|done].
    destruct (dyn_array_extend _ _) as [us|]; [|done]. intros [= <-]. by apply (typed_streams ms _ s).
  - unfold parse_stream_ctl_start. destruct (m_by_name mx [] _) as [id|]; [|done].
    case_test; [done|]. destruct (negb _ && negb _); [done|].
    destruct (bound_or _ _) as [e|mn] eqn:He; [apply bound_or_error in He; intros [= -> _]; lia|].
    destruct (bound_or (attrib_to_uint at_ a_max) _) as [e|mx'] eqn:He2;
      [apply bound_or_error in He2; intros [= -> _]; lia|].
    intros [= <-]. apply typed_streams; [..|done]; intros st; try intros ?; by destruct (bool_decide _).
  - by intros [= <-].
  - unfold parse_mixer_start. repeat case_match; try done. by intros [= <-].
  - by intros [= <-].
  - unfold parse_codec_probe_start. case_match; [done|]. by intros [= <-].
  - unfold parse_codec_case_start. case_match; [|done]. by intros [= <-].
Qed.

Lemma end_keeps e s r s2 :
  end_fn probe_line e s = inl (r, s2) ->
  ps_cm s2 = ps_cm s /\ path_names s2 = path_names s /\ stack s2 = stack s.
Proof.
  destruct e; cbn; try (by intros [= _ <-]). intros [= _ <-]. unfold probe_config_file.
  destruct (probe_line _); [|done]. by destruct (List.find _ _) as [[]|].
Qed.

Lemma sax_run_typed es s s2 :
  typed ms s -> sax_run mx ids ms mixer_open ctl_range probe_line uninit es s = inl s2 ->
  parse_error s2 = 0 -> typed ms s2.
Proof.
  apply (sax_run_inv mx ids ms mixer_open ctl_range probe_line uninit (typed ms) (fun _ => True)); try done.
  - intros e at_ s1 s3 _. apply start_typed.
  - intros x k s1 s3 _ Hs (H1 & H2 & H3)%end_keeps. unfold typed. by rewrite H1, H2.
Qed.

Lemma init_typed : typed ms init_state.
Proof.
  split; [split; cbn; try done; constructor|]. split; [|done]. apply (bool_decide_unpack _). by vm_compute.
Qed.

(** ** Errors are negative *)

Lemma string_to_uint_le o : (string_to_uint o).1 <= 0.
Proof. unfold string_to_uint, ENOENT, EINVAL. repeat case_match; cbn; lia. Qed.

Lemma parse_bytes_le tokens e : parse_bytes tokens = inl e -> e <= 0.
Proof.
  revert e; induction tokens as [|t r IH]; intros e; cbn; [done|].
  pose proof (string_to_uint_le (Some t)) as Ht. destruct (string_to_uint (Some t)) as [n o]. cbn in Ht.
  repeat case_match; intros ?; simplify_eq; eauto; lia.
Qed.

Lemma make_byte_array_le vnum c : (make_byte_array vnum c).1 <= 0.
Proof.
  unfold make_byte_array, EINVAL. cbn zeta. do 3 (case_test; [done|]).
  destruct (parse_bytes _) as [e|d] eqn:Hb; [|done]. by apply parse_bytes_le in Hb.
Qed.

Lemma ctl_open_le l c : (ctl_open mx l c).1 <= 0.
Proof.
  unfold ctl_open, EINVAL, ENOENT. case_test; [done|]. destruct (m_by_name mx l _) as [id|]; [|done].
  pose proof (string_to_uint_le (Some (string_of (c_value c)))) as Hu.
  destruct (string_to_uint _) as [r [v|]]; destruct (m_type mx id); cbn in *; try lia.
  all: match goal with |- context [make_byte_array ?n ?c] => pose proof (make_byte_array_le n c) as Hm;
    destruct (make_byte_array n c) as [r' c'] end.
  all: cbn in Hm; by case_test.
Qed.

Lemma start_le e at_ s r s2 :
  start_fn mx ids ms mixer_open ctl_range uninit e at_ s = inl (r, s2) -> r <= 0.
Proof.
  destruct e; cbn [start_fn];
    unfold parse_path_start, parse_device_start, parse_stream_start, parse_enable_disable_start,
      parse_case_start, parse_usecase_start, parse_init_start, parse_mixer_start,
      parse_codec_probe_start, parse_codec_case_start, ret, EINVAL, ENOMEM;
    try (by repeat case_match; intros; simplify_eq).
  - unfold parse_ctl_start, ret, ENOMEM. case_test; [done|].
    destruct (dyn_array_extend _ _) as [cs|]; [|by intros [= <- _]].
    destruct (attrib_to_uint _ _) as [r' idx]. case_test; [done|].
    match goal with |- context [ctl_open mx [] ?c] => pose proof (ctl_open_le [] c) as Hc;
      destruct (ctl_open mx [] c) as [rc c'] end.
    intros [= <- _]. cbn in Hc. by case_test.
  - destruct (add_path_name s _) as [id s1]. case_test; [intros [= <- _]; lia|].
    repeat case_match; intros; by simplify_eq.
  - unfold parse_stream_ctl_start, ret, EINVAL. destruct (m_by_name mx [] _) as [id|]; [|by intros [= <- _]].
    case_test; [by intros [= <- _]|]. destruct (negb _ && negb _); [by intros [= <- _]|].
    destruct (bound_or _ _) as [e|mn] eqn:He; [apply bound_or_error in He; intros [= <- _]; lia|].
    destruct (bound_or (attrib_to_uint at_ a_max) _) as [e|mx'] eqn:He2;
      [apply bound_or_error in He2; intros [= <- _]; lia|]. by intros [= <- _].
Qed.

Lemma sax_run_le es s s2 :
  parse_error s <= 0 -> sax_run mx ids ms mixer_open ctl_range probe_line uninit es s = inl s2 ->
  parse_error s2 <= 0.
Proof.
  revert s; induction es as [|e es IH]; intros s Hs; cbn [sax_run]; [by intros [= <-]|].
  assert (Herr : forall r s3, r <= 0 ->
    sax_run mx ids ms mixer_open ctl_range probe_line uninit es (parse_set_error r s3) = inl s2 ->
    parse_error s2 <= 0) by (intros r s3 Hr; by apply IH).
  unfold sax_step. destruct (stopped s); [by apply IH|]. destruct e as [name l|].
  - unfold parse_section_start, EINVAL. case_test; [by apply IH|]. destruct (stack s) as [|top k]; [done|].
    destruct (find_element _ _) as [e|]; [|by apply Herr].
    destruct (_ <=? _)%nat; [by apply Herr|]. destruct (_ <=? _)%nat; [done|].
    destruct (extract_attribs e l) as [at_|]; [|by apply Herr].
    destruct (start_fn _ _ _ _ _ _ e at_ _) as [[r s3]|u] eqn:Hst; [|done].
    apply Herr. by eapply start_le.
  - unfold parse_section_end. case_test; [by apply IH|].
    destruct (stack s) as [|top [|below rest]]; [done..|].
    destruct (end_fn probe_line (elem_index top) s) as [[r s3]|u] eqn:Hend; [|done].
    apply Herr. destruct (elem_index top); cbn in Hend; by injection Hend as <- _.
Qed.

(** A redirection stops the parser, and there was no error. *)
Definition redirected (s : parse_state) : Prop :=
  new_xml_file s = None \/ (stopped s = true /\ parse_error s = 0).

Lemma start_redirect e at_ s r s2 :
  start_fn mx ids ms mixer_open ctl_range uninit e at_ s = inl (r, s2) -> new_xml_file s2 = new_xml_file s.
Proof.
  destruct e; cbn [start_fn];
    unfold parse_ctl_start, parse_path_start, parse_device_start, parse_stream_start,
      parse_enable_disable_start, parse_case_start, parse_usecase_start, parse_stream_ctl_start,
      parse_mixer_start, parse_codec_probe_start, parse_codec_case_start, parse_init_start, add_path_name, ret;
    repeat case_match; intros; simplify_eq/=; try done; try (by destruct (cur_path s) as [[]|]).
Qed.

Lemma sax_run_redirected es s s2 :
  redirected s -> sax_run mx ids ms mixer_open ctl_range probe_line uninit es s = inl s2 -> redirected s2.
Proof.
  revert s; induction es as [|e es IH]; intros s Hs; cbn [sax_run]; [by intros [= <-]|].
  unfold sax_step. destruct (stopped s) eqn:Hst; [by apply IH|].
  destruct Hs as [Hn|[Hst' _]]; [|by rewrite Hst in Hst'].
  assert (Hid : redirected s) by by left. destruct e as [name l|].
  - unfold parse_section_start. case_test; [by apply IH|]. destruct (stack s) as [|top k]; [done|].
    destruct (find_element _ _) as [e|]; [|apply IH; by left].
    destruct (_ <=? _)%nat; [apply IH; by left|]. destruct (_ <=? _)%nat; [done|].
    destruct (extract_attribs e l) as [at_|]; [|apply IH; by left].
    destruct (start_fn _ _ _ _ _ _ e at_ _) as [[r s3]|u] eqn:Hstart; [|done].
    apply IH. left. cbn. apply start_redirect in Hstart as ->. done.
  - unfold parse_section_end. case_test; [by apply IH|].
    destruct (stack s) as [|top [|below rest]]; [done..|].
    destruct (end_fn probe_line (elem_index top) s) as [[r s3]|u] eqn:Hend; [|done].
    apply IH. unfold redirected. cbn [new_xml_file stopped parse_error parse_set_error set_stack].
    destruct (elem_index top); cbn in Hend; injection Hend as <- <-; try (by left).
    unfold probe_config_file. destruct (probe_line _); [|by left].
    destruct (List.find _ _) as [[c f]|]; [|by left]. cbn. case_bool_decide; [by left|by right].
Qed.

Lemma do_parse_typed file x s r s2 :
  typed ms s -> do_parse mx ids ms mixer_open ctl_range probe_line uninit file x s = inl (r, s2) ->
  r = 0 \/ is_Some (new_xml_file s2) -> typed ms s2.
Proof.
  intros Hs. unfold do_parse. destruct (sax_run _ _ _ _ _ _ _ _ _) as [s1|u] eqn:Hrun; [|done].
  intros [= <- ->] Hr. assert (H0 : parse_error s2 = 0).
  { apply sax_run_le in Hrun as Hle; [|done].
    apply sax_run_redirected in Hrun as [Hn|[_ H0]]; [|done|by left].
    destruct Hr as [Hr|[f Hf]]; [|by rewrite Hn in Hf].
    destruct (parse_error s2 <? 0) eqn:E; [done|]. apply Z.ltb_ge in E. lia. }
  eapply sax_run_typed; [|done|done]. exact Hs.
Qed.

Lemma parse_files_typed fuel files file s s2 :
  typed ms s ->
  parse_files mx ids ms mixer_open ctl_range probe_line uninit fuel files file s = Some (inl (0, s2)) ->
  typed ms s2.
Proof.
  revert file s; induction fuel as [|fuel IH]; intros file s Hs; cbn [parse_files]; [done|].
  destruct (files file) as [x|]; [|done].
  destruct (do_parse _ _ _ _ _ _ _ file x s) as [[r s1]|u] eqn:Hp; [|done].
  destruct (new_xml_file s1) as [f|] eqn:Hn.
  - apply IH. eapply do_parse_typed; [done|done|]. right. by eexists.
  - intros [= -> ->]. eapply do_parse_typed; [done|done|by left].
Qed.

(** C9. Files that are read without an error give a well-formed configuration: every
    path of a device and every path a stream names has a name of the files, names being
    distinct and [off] and [on] the first two; streams have distinct names and numbers
    within their fields; the supported devices are those listed; and nothing is in use
    ([idle]).  If, besides, each device has one bit, which no other has, and one path per
    name, and no stream is enabled or disabled by [on] or [off], the routing calls start
    from a [fresh] state; the devices of [audio.mocha.xml] share bits, so that their
    configuration is [idle] only. *)
Theorem parsed_config_typed (fuel : nat) (files : bytes -> option xml_file) (file : bytes)
    (cm : config_mgr) (l : mixer_log) :
  init_audio_config mx ids ms mixer_open ctl_range probe_line uninit fuel files file =
    Some (inl (Some (cm, l))) ->
  (exists names, names_ok names /\ cm_typed ms (zlen names) cm) /\ idle (cm, l) /\
  (shape_ok ms (device_array cm) ->
   Forall (fun s => not_switch (enable_path s) /\ not_switch (disable_path s)) (stream_array cm) ->
   fresh ms (cm, l)).
Proof.
  unfold init_audio_config, parse_config_file.
  destruct (parse_files _ _ _ _ _ _ _ fuel files file init_state) as [[[r s]|u]|] eqn:Hrun; [|done..].
  case_test; [|done]. subst r. cbn [Z.ltb Z.compare]. intros [= <- <-].
  destruct (parse_files_typed fuel files file init_state s init_typed Hrun) as [Ht Hn].
  split; [by exists (path_names s)|]. destruct Ht as [Hd Hst _ _ _].
  match goal with |- idle (?c, ?l) /\ _ => assert (Hidle : idle (c, l)) end.
  { split.
    - eapply Forall_impl; [exact Hd|]. by intros d [].
    - intros k. cbn [snd]. by rewrite (proj2 (apply_path_trace mx None [] (mk_path 0 (init_path s)))). }
  split; [done|]. intros Hsh Hsw. destruct Hidle as [Hu Htr]. split_and!; [done|exact Hu| |exact Htr].
  cbn. rewrite Forall_forall in Hst, Hsw |- *. intros st Hin.
  destruct (Hst st Hin) as (_ & Hc & _). by destruct (Hsw st Hin).
Qed.

End typing.

(** ** Controls of cases after [<init>] *)

Definition cases_empty (cm : config_mgr) : Prop :=
  Forall (fun st => Forall (fun u => Forall (fun c => case_ctls c = []) (case_array u))
    (usecase_array st)) (stream_array cm).

Definition no_path (e : sax) : Prop :=
  match e with Start name _ => name <> lit "path" | End_ => True end.

(** [<audiohal>], [<mixer>] and [<init>] are open. *)
Definition to_init (mixer_attribs : list (bytes * bytes)) : list sax :=
  [Start (lit "audiohal") []; Start (lit "mixer") mixer_attribs; Start (lit "init") []].

Section init.
Context (mx : mixer) (ids : audio_device_ids) (ms : audio_masks) (mixer_open : Z -> bool)
  (ctl_range : Z -> Z * Z) (probe_line : bytes -> option bytes) (uninit : Z).

#[local] Abbreviation run := (sax_run mx ids ms mixer_open ctl_range probe_line uninit).

(** The invariants before and after [<init>]. *)
Definition before_init (s : parse_state) : Prop :=
  (e_path ∉ (elem_index <$> stack s)) /\ stream_array (ps_cm s) = [].

Definition captured (s : parse_state) : Prop :=
  cur_path s = Some InitPath /\ (e_path ∉ (elem_index <$> stack s)) /\ cases_empty (ps_cm s).

Lemma sax_run_app es1 es2 s :
  run (es1 ++ es2) s = match run es1 s with inl s1 => run es2 s1 | inr u => inr u end.
Proof.
  revert s; induction es1 as [|e es1 IH]; intros s; cbn [app sax_run]; [done|].
  by destruct (sax_step _ _ _ _ _ _ _ e s).
Qed.

Lemma cases_empty_streams f s :
  (forall st, Forall (fun u => Forall (fun c => case_ctls c = []) (case_array u)) (usecase_array st) ->
     Forall (fun u => Forall (fun c => case_ctls c = []) (case_array u)) (usecase_array (f st))) ->
  captured s -> captured (with_streams (alter_last f) s).
Proof. intros Hf (Hc & Hp & Hs). split_and!; [done|done|]. by apply Forall_alter_last. Qed.

Lemma captured_last_usecase s st u :
  captured s -> last (stream_array (ps_cm s)) = Some st -> last (usecase_array st) = Some u ->
  Forall (fun c => case_ctls c = []) (case_array u).
Proof.
  intros (_ & _ & Hs) Hst%last_Some_elem_of Hu%last_Some_elem_of.
  unfold cases_empty in Hs. rewrite Forall_forall in Hs. specialize (Hs _ Hst). cbn in Hs.
  rewrite Forall_forall in Hs. by apply Hs.
Qed.

Lemma start_captured e at_ s s2 :
  e <> e_path -> captured s ->
  start_fn mx ids ms mixer_open ctl_range uninit e at_ s = inl (0, s2) -> captured s2.
Proof.
  intros He Hs. pose proof Hs as (Hc & Hp & Hcs). destruct e; cbn [start_fn]; try done.
  - unfold parse_ctl_start. rewrite Hc. cbn [ctls_of put_ctls]. case_test; [done|].
    destruct (dyn_array_extend _ _) as [cs|]; [|done].
    destruct (attrib_to_uint _ _) as [r idx]. case_test; [done|].
    destruct (ctl_open _ _ _) as [r' c]. by intros [= _ <-].
  - unfold parse_device_start. repeat case_match; try done; by intros [= <-].
  - unfold parse_stream_start.
    destruct (match at_ a_name with Some n => _ | None => _ end); [done|].
    unfold dyn_array_extend. destruct (ARRAY_LIMIT <=? _); [done|].
    destruct (direction _ _); [|done]. destruct (stream_kind _ _ _ _ _) as [[]|]; [|done].
    destruct (existsb _ _); [done|]. intros [= <-]. split_and!; [done|done|]. unfold cases_empty. cbn.
    rewrite alter_last_snoc. apply Forall_app. split; [done|]. by repeat constructor.
  - unfold parse_enable_disable_start. destruct (find_path_name _ _); [|done].
    intros [= <-]. by apply cases_empty_streams.
  - unfold parse_enable_disable_start. destruct (find_path_name _ _); [|done].
    intros [= <-]. by apply cases_empty_streams.
  - unfold parse_case_start. destruct (last (stream_array _)) as [st|] eqn:Hst; [|done].
    destruct (last (usecase_array st)) as [u|] eqn:Hu; [|done]. unfold dyn_array_extend.
    destruct (ARRAY_LIMIT <=? _); [done|]. intros [= <-].
    apply (cases_empty_streams _ s); [|done]. intros st' Hst'. cbn. apply Forall_alter_last; [|done].
    intros u' _. cbn. apply Forall_app. split; [by eapply captured_last_usecase|]. by repeat constructor.
  - unfold parse_usecase_start. destruct (last (stream_array _)) as [st|] eqn:Hst; [|done].
    unfold dyn_array_extend. destruct (ARRAY_LIMIT <=? _); [done|]. intros [= <-].
    apply (cases_empty_streams _ s); [|done]. intros st' Hst'. cbn. apply Forall_app.
    split; [|by repeat constructor]. apply last_Some_elem_of in Hst.
    unfold cases_empty in Hcs. rewrite Forall_forall in Hcs. by apply Hcs.
  - unfold parse_stream_ctl_start. destruct (m_by_name mx [] _) as [id|]; [|done].
    case_test; [done|]. destruct (negb _ && negb _); [done|].
    destruct (bound_or _ _) as [e|mn] eqn:He1; [apply bound_or_error in He1; intros [= -> _]; lia|].
    destruct (bound_or (attrib_to_uint at_ a_max) _) as [e|mx'] eqn:He2;
      [apply bound_or_error in He2; intros [= -> _]; lia|].
    intros [= <-]. apply cases_empty_streams; [|done]. intros st. by destruct (bool_decide _).
  - by intros [= <-].
  - unfold parse_mixer_start. destruct (_ =? _); [done|]. destruct (negb _); [done|].
    destruct (stack s) as [|x [|y k]]; try done. by intros [= <-].
  - by intros [= <-].
  - unfold parse_codec_probe_start. case_match; [done|]. by intros [= <-].
  - unfold parse_codec_case_start. case_match; [|done]. by intros [= <-].
Qed.

(** The element a name stands for, when the table has the name once. *)
Lemma table_name e e' :
  lit (elem_name (elem_table e)) = lit (elem_name (elem_table e')) -> e' <> e_ctl -> e' <> e_stream_ctl ->
  e' <> e_case -> e' <> e_codec_case -> e = e'.
Proof. by destruct e, e'. Qed.

(** The state after each of the three elements, unless there was an error. *)
Lemma before_init_run (lm : list (bytes * bytes)) s s2 :
  before_init s -> run [Start (lit "audiohal") []; Start (lit "mixer") lm] s = inl s2 ->
  parse_error s2 = 0 -> before_init s2.
Proof.
  apply (sax_run_inv mx ids ms mixer_open ctl_range probe_line uninit before_init
    (fun e => e = e_audiohal \/ e = e_mixer)).
  - done.
  - intros e s1 He (H2 & H3). split; [|done]. cbn. apply not_elem_of_cons. split; [|done].
    by destruct He as [-> | ->].
  - intros x k s1 Hk (H2 & H3). rewrite Hk in H2. split; [|done]. by apply not_elem_of_cons in H2 as [_ ?].
  - intros e at_ s1 s3 [-> | ->] (H2 & H3); cbn [start_fn]; [by intros [= <-]|].
    unfold parse_mixer_start. destruct (_ =? _); [done|]. destruct (negb _); [done|].
    destruct (stack s1) as [|x [|y k]] eqn:Hk; try done. by intros [= <-].
  - intros x k s1 s3 Hk (H2 & H3) (H4 & _ & H5)%end_keeps. unfold before_init. by rewrite H4, H5.
  - intros name l e Hin ->. repeat (apply elem_of_cons in Hin as [Hin|Hin]); [injection Hin as Hn _..|].
    + left. by apply (table_name e e_audiohal).
    + right. by apply (table_name e e_mixer).
    + by apply not_elem_of_nil in Hin.
Qed.

Lemma sax_run_stopped es s : stopped s = true -> run es s = inl s.
Proof. intros Hs. induction es as [|e es IH]; cbn [sax_run]; [done|]. unfold sax_step. by rewrite Hs. Qed.

Lemma init_captured l s s2 :
  before_init s -> stopped s = false -> run [Start (lit "init") l] s = inl s2 -> parse_error s2 = 0 ->
  captured s2.
Proof.
  intros (Hp & Hcm) Hst. cbn [sax_run]. unfold sax_step. rewrite Hst. unfold parse_section_start.
  case_test; [by intros [= <-]|]. destruct (stack s) as [|top k] eqn:Hk; [done|].
  destruct (find_element _ _) as [e|] eqn:Hf; [|by intros [= <-]].
  apply List.find_some in Hf as [_ Hf]. apply andb_prop in Hf as [_ Hn]. apply bool_decide_eq_true in Hn.
  apply eq_sym, (table_name e e_init) in Hn as ->; [|done..].
  destruct (_ <=? _)%nat; [by intros [= <-]|]. destruct (_ <=? _)%nat; [done|].
  destruct (extract_attribs _ _); [|by intros [= <-]]. cbn. intros [= <-] _. split_and!; [done| |].
  - cbn. apply not_elem_of_cons. split; [done|]. exact Hp.
  - unfold cases_empty. cbn. rewrite Hcm. constructor.
Qed.

Lemma run_captured es s s2 :
  Forall no_path es -> captured s -> run es s = inl s2 -> parse_error s2 = 0 -> captured s2.
Proof.
  intros Hes.
  apply (sax_run_inv mx ids ms mixer_open ctl_range probe_line uninit captured (fun e => e <> e_path)).
  - done.
  - intros e s3 He (H3 & H4 & H5). split_and!; [done| |done]. cbn. by apply not_elem_of_cons.
  - intros x k s3 Hk (H3 & H4 & H5). rewrite Hk in H4. split_and!; [done| |done].
    by apply not_elem_of_cons in H4 as [_ ?].
  - intros e at_ s3 s4. apply start_captured.
  - intros x k s3 s4 Hk (H3 & H4 & H5) He.
    pose proof (end_keeps probe_line (elem_index x) s3 0 s4 He) as (H6 & _ & H7).
    split; [|done]. unfold captured. rewrite H6, H7. split_and!; [|done|done].
    rewrite Hk in H4. apply not_elem_of_cons in H4 as [Hx _].
    destruct (elem_index x); cbn in He; try done; try (by injection He as <-).
    injection He as <-. by destruct (probe_keeps probe_line s3) as [_ [-> _]].
  - intros name l' e Hin -> ->. rewrite Forall_forall in Hes. by specialize (Hes _ Hin).
Qed.

(** A file whose [<mixer>] has an [<init>], and that has no [<path>] after it: the
    parser still takes [<init>] for the current path, so every control of a [<case>] is
    applied once when the file is read and no case has any control left. *)
Theorem init_captures (file : bytes) (lm : list (bytes * bytes)) (es : list sax) (s : parse_state) :
  Forall no_path es -> run (to_init lm ++ es) (reset_parser file init_state) = inl s ->
  parse_error s = 0 -> cases_empty (ps_cm s).
Proof.
  intros Hes Hrun H0.
  change (to_init lm ++ es) with ([Start (lit "audiohal") []; Start (lit "mixer") lm] ++
    ([Start (lit "init") []] ++ es)) in Hrun.
  rewrite sax_run_app in Hrun. destruct (run [_; _] (reset_parser file init_state)) as [s1|u] eqn:H1; [|done].
  destruct (decide (parse_error s1 = 0)) as [He1|He1];
    [|rewrite sax_run_error in Hrun by done; by injection Hrun as ->].
  apply before_init_run in H1; [|split; [by intros ?%list_elem_of_singleton|done]|done].
  destruct (stopped s1) eqn:Hst.
  { rewrite sax_run_stopped in Hrun by done. injection Hrun as ->. destruct H1 as [_ H1].
    unfold cases_empty. by rewrite H1. }
  rewrite sax_run_app in Hrun. destruct (run [_] s1) as [s2|u] eqn:H2; [|done].
  destruct (decide (parse_error s2 = 0)) as [He2|He2];
    [|rewrite sax_run_error in Hrun by done; by injection Hrun as ->].
  apply init_captured in H2; [|done..]. by apply (run_captured es s2 s).
Qed.

End init.
(** ** The properties on files *)

Definition sample_ids : audio_device_ids :=
  mk_ids 2 1 4 (2 ^ 31 + 16) 8 112 (2 ^ 31 + 8) 896 24576 (2 ^ 31 + 4) (2 ^ 31 + 128) (2 ^ 31 + 64)
    (2 ^ 31 + 32).

Definition open_el (name : string) (l : list (string * string)) : sax :=
  Start (lit name) ((fun p => (lit p.1, lit p.2)) <$> l).

Definition ctl_el (name val : string) : list sax :=
  [open_el "ctl" [("name", name); ("val", val)]; End_]%string.

Definition path_el (name : string) (body : list sax) : list sax :=
  open_el "path" [("name", name)]%string :: body ++ [End_].

(** A speaker, a microphone and their streams. *)
Definition sample_file : list sax :=
  [open_el "audiohal" []; open_el "mixer" [("card", "1")]; open_el "init" []] ++
  ctl_el "Volume" "10" ++ [End_; End_; open_el "device" [("name", "speaker")]] ++
  path_el "on" (ctl_el "Volume" "30") ++ path_el "off" (ctl_el "Volume" "0") ++
  path_el "on_pcm" (ctl_el "Volume" "0x20") ++ [End_; open_el "device" [("name", "mic")]] ++
  path_el "on" [] ++ path_el "on_pcm_rec" [] ++
  [End_; open_el "stream" [("type", "pcm"); ("dir", "out"); ("card", "1"); ("device", "0")];
   open_el "enable" [("path", "on_pcm")]; End_; End_;
   open_el "stream" [("name", "rec"); ("type", "hw"); ("dir", "in"); ("instances", "1")];
   open_el "enable" [("path", "on_pcm_rec")]; End_; open_el "disable" [("path", "on_pcm")]; End_;
   End_; End_]%string.

(** The file the HAL opens redirects to the one of the codec. *)
Definition probing_file : list sax :=
  [open_el "audiohal" []; open_el "codec_probe" [("file", "/proc/codec")];
   open_el "case" [("name", "rt5671"); ("file", "audio.rt5671.xml")]; End_; End_; End_]%string.

Definition sample_files (es : list sax) (f : bytes) : option xml_file :=
  if bool_decide (f = lit "audio.mocha.xml") then Some (mk_xml probing_file true)
  else if bool_decide (f = lit "audio.rt5671.xml") then Some (mk_xml es true) else None.

Definition read_sample (es : list sax) : option (option state + ub) :=
  init_audio_config sample_mixer sample_ids sample_masks (fun _ => true) (fun _ => (0, 100))
    (fun _ => Some (lit " rt5671 ")) 0 2 (sample_files es) (lit "audio.mocha.xml").

Definition sample_read : state :=
  match read_sample sample_file with Some (inl (Some st)) => st | _ => (mk_cm [] [] 0 0, []) end.

(** What the file says. *)
Example sample_read_is :
  (d_type <$> device_array sample_read.1,
   (fun d => p_id <$> path_array d) <$> device_array sample_read.1,
   (fun s => (s_name s, s_type s, card_number s, enable_path s, disable_path s, max_ref_count s))
     <$> stream_array sample_read.1, sample_read.2) =
  ([2; 2 ^ 31 + 4], [[1; 0; 2]; [1; 3]],
   [(None, out_pcm, 1, 2, -1, INT_MAX); (Some (lit "rec"), in_hw, 0, 3, 2, 1)],
   [Path None 0; SetValue 3 0 10; SetValue 3 1 10]).
Proof. vm_compute. reflexivity. Qed.

(** The speaker and the microphone have a bit each. *)
Lemma sample_shape : shape_ok sample_masks (device_array sample_read.1).
Proof.
  assert (H : d_type <$> device_array sample_read.1 = [2; 2 ^ 31 + 4]) by (vm_compute; reflexivity).
  assert (Hp : (fun d => p_id <$> path_array d) <$> device_array sample_read.1 = [[1; 0; 2]; [1; 3]])
    by (vm_compute; reflexivity).
  destruct (device_array sample_read.1) as [|d [|e [|f ds]]]; try done.
  injection H as Hd He. injection Hp as Hpd Hpe. split_and!.
  - intros [|[|i]] [|[|j]] x y Hx Hy Hne; simplify_eq/=; rewrite ?Hd, ?He; reflexivity.
  - unfold unique_paths. repeat constructor; rewrite ?Hpd, ?Hpe; repeat constructor; set_solver.
  - repeat constructor; intros _; [exists 1|exists 2]; unfold device_bit; rewrite ?Hd, ?He; by split.
Qed.

Example parsed_config_typed_witness :
  (exists names, names_ok names /\ cm_typed sample_masks (zlen names) sample_read.1) /\
  idle (sample_read.1, sample_read.2) /\ fresh sample_masks (sample_read.1, sample_read.2).
Proof.
  destruct (parsed_config_typed sample_mixer sample_ids sample_masks (fun _ => true) (fun _ => (0, 100))
    (fun _ => Some (lit " rt5671 ")) 0 2 (sample_files sample_file) (lit "audio.mocha.xml")
    sample_read.1 sample_read.2) as (H1 & H2 & H3); [vm_compute; reflexivity|].
  split; [exact H1|]. split; [exact H2|]. apply H3; [exact sample_shape|].
  assert (Hs : Forall (fun p : Z * Z => not_switch p.1 /\ not_switch p.2)
    ((fun st => (enable_path st, disable_path st)) <$> stream_array sample_read.1)).
  { replace (_ <$> stream_array sample_read.1) with [(2, -1); (3, 2)] by (vm_compute; reflexivity).
    repeat constructor; discriminate. }
  apply Forall_fmap in Hs. exact Hs.
Defined.

(** A file with a bad index, in a path. *)
Definition bad_index_file : list sax :=
  [open_el "audiohal" []; open_el "mixer" []; End_; open_el "device" [("name", "speaker")];
   open_el "path" [("name", "on")];
   open_el "ctl" [("name", "Volume"); ("val", "1"); ("index", "first")]]%string.

Example bad_index_frees : read_sample bad_index_file = Some (inr InvalidFree).
Proof. vm_compute. reflexivity. Qed.

Example parser_safe_witness :
  match read_sample bad_index_file with
  | Some (inr u) => u = InvalidFree /\
      exists f x, sample_files bad_index_file f = Some x /\ Exists bad_ctl (events x)
  | _ => True
  end.
Proof.
  apply (parser_safe sample_mixer sample_ids sample_masks (fun _ => true) (fun _ => (0, 100))
    (fun _ => Some (lit " rt5671 ")) 0 2 (sample_files bad_index_file) (lit "audio.mocha.xml")).
  intros f x. unfold sample_files. case_bool_decide; [by intros [= <-]|].
  case_bool_decide; [by intros [= <-]|done].
Defined.

(** A global stream whose cases come after [<init>]. *)
Definition late_cases : list sax :=
  ctl_el "Volume" "10" ++
  [End_; End_; open_el "stream" [("name", "global"); ("type", "hw")];
   open_el "usecase" [("name", "mode")]; open_el "case" [("name", "loud")]]%string ++
  ctl_el "Volume" "90" ++ [End_; End_; End_; End_].

Definition late_run : parse_state + ub :=
  sax_run sample_mixer sample_ids sample_masks (fun _ => true) (fun _ => (0, 100)) (fun _ => None) 0
    (to_init [] ++ late_cases) (reset_parser (lit "audio.mocha.xml") init_state).

Definition late_state : parse_state := match late_run with inl s => s | inr _ => init_state end.

Example late_cases_captured : c_value <$> init_path late_state = [VUint 10; VUint 90].
Proof. vm_compute. reflexivity. Qed.

Example init_captures_witness : cases_empty (ps_cm late_state).
Proof.
  apply (init_captures sample_mixer sample_ids sample_masks (fun _ => true) (fun _ => (0, 100))
    (fun _ => None) 0 (lit "audio.mocha.xml") [] late_cases late_state).
  - repeat constructor; discriminate.
  - vm_compute. reflexivity.
  - vm_compute. reflexivity.
Defined.
