(* ===== verification/AudioHal.v ===== *)
(** * The audio HAL ([audio/audio_hw.c])

    The device and the streams AudioFlinger opens on it, over the configuration manager
    of [AudioRouting]: PCM and offload output, capture through PCM or a compressed
    channel, routing and use-case parameters, the voice trigger state machine.  Calls come
    one at a time, as the locks make them; no callback is registered, so offload streams
    block ([AudioAsync] has the other case).  tinyalsa, tinycompress, the resampler and
    the clock are arguments that may answer anything; every open, use and close of one
    of their handles is an event of the log.  A null dereference and a division by zero
    are the result [None].  What a read leaves in its buffer is only followed as far as
    whether it was overwritten with zeros. *)

From S2P Require Import Prelude.
From S2P Require Import CString.
From S2P Require Import AudioRouting.
From Stdlib Require Import Ascii.

Definition ENOMEM : Z := 12.
Definition EBUSY : Z := 16.
Definition EBADFD : Z := 77.
Definition ENOTSUP : Z := 95.

(** ** Constants *)

Definition OUT_PERIOD_SIZE_DEFAULT : Z := 256.
Definition OUT_PERIOD_COUNT_DEFAULT : Z := 4.
Definition OUT_CHANNEL_COUNT_DEFAULT : Z := 2.
Definition OUT_RATE_DEFAULT : Z := 44100.
Definition IN_PERIOD_SIZE_DEFAULT : Z := 256.
Definition IN_PERIOD_COUNT_DEFAULT : Z := 4.
Definition IN_CHANNEL_COUNT_DEFAULT : Z := 1.
Definition IN_RATE_DEFAULT : Z := 44100.
Definition IN_COMPRESS_BUFFER_SIZE_DEFAULT : Z := 1024.

Definition kVoiceTriggerStreamName : bytes := lit "voice trigger".
Definition kVoiceRecogStreamName : bytes := lit "voice recognition".

Inductive voice_state :=
| eVoiceNone | eVoiceTriggerIdle | eVoiceTriggerArmed | eVoiceTriggerFired
| eVoiceRecogIdle | eVoiceRecogArmed | eVoiceRecogFired | eVoiceRecogAudio | eVoiceRecogReArm.

(** Constants and inline functions of [system/audio.h] and [libaudioutils]. *)
Record audio_platform := mk_platform {
  masks : audio_masks;
  IN_BUILTIN_MIC_DEVICE : Z; SOURCE_VOICE_RECOGNITION : Z; FORMAT_MAIN_MASK : Z;
  FORMAT_MP3 : Z; FORMAT_AAC : Z; FORMAT_HE_AAC_V1 : Z; FORMAT_HE_AAC_V2 : Z; FORMAT_VORBIS : Z;
  is_linear_pcm : Z -> bool;
  bytes_per_sample : Z -> Z;
  stream_frame_size : Z -> Z -> Z;          (* of a format and a channel mask *)
  get_str : bytes -> bytes -> option bytes  (* [str_parms_get_str] *) }.

(** ** State *)

Record audio_config := mk_config { sample_rate_rq : Z; channel_mask_rq : Z; format_rq : Z }.

Record params := mk_params {
  format : Z; channel_mask : Z; channel_count : Z; sample_rate : Z; frame_size : Z;
  buffer_size : Z; latency : Z }.

Inductive codec := MP3 | AAC | HE_AAC | VORBIS.

(** The fields of [stream_out_compress]. *)
Record offload := mk_offload {
  started : bool; paused : bool; o_codec : option codec; encoder_delay : Z; encoder_padding : Z;
  refresh_gapless_meta : bool }.

(** Handles are numbers; a handle that is not valid any more and that the code does not
    look at is [None]. *)
Record out_stream := mk_out {
  o_hw : nat; o_standby : bool; o_handle : option nat; o_params : params; o_offload : offload }.

Record in_stream := mk_in {
  i_hw : option nat; i_standby : bool; i_handle : option nat; i_params : params; i_devices : Z;
  input_source : Z; last_read_ns : Z; i_resampler : bool }.

Record audio_device := mk_adev {
  mic_mute : bool; active_voice_control : option nat; voice_st : voice_state; voice_trig_mic : Z;
  global_stream : option nat; voice_trig_stream : option nat }.

(** Operations on an open handle. *)
Inductive use :=
| PcmWrite (frames : Z) | PcmRead (frames : Z) | Resample (frames : Z) | CreateResampler
| CompressWrite (bytes : Z) | CompressRead (bytes : Z) | CompressStart | CompressStop
| CompressPause | CompressResume | CompressNextTrack | CompressPartialDrain | CompressDrain
| CompressGapless (delay padding : Z) | CompressTstamp.

Inductive hal_event :=
| Open (h : nat) (pcm input : bool) (card device : Z)
| Close (h : nat)
| Use (h : nat) (u : use)
| Sleep (ns : Z).

Definition hal_log : Type := list hal_event.

(** What the libraries answer, given what was done: whether what was opened is ready,
    the result of an operation, the fragments of an offload channel, and the clock. *)
Record audio_env := mk_env {
  e_ready : hal_log -> bool; e_ret : hal_log -> Z; e_fragments : hal_log -> Z * Z;
  e_time : hal_log -> Z }.

(** Streams are numbered in the order they are opened; a closed one is [None]. *)
Record audio_hal := mk_hal {
  adev : audio_device; outs : list (option out_stream); ins : list (option in_stream);
  cfg : state; hlog : hal_log; next_handle : nat }.

(** ** Effects *)

Definition AM (A : Type) : Type := audio_hal -> option (A * audio_hal).
#[export] Instance AM_ret : MRet AM := fun A a st => Some (a, st).
#[export] Instance AM_bind : MBind AM := fun A B f m st =>
  match m st with Some (a, st') => f a st' | None => None end.

Definition aget : AM audio_hal := fun st => Some (st, st).
Definition askip : AM unit := mret tt.
Definition acrash {A} : AM A := fun _ => None.
Definition amodify (f : audio_hal -> audio_hal) : AM unit := fun st => Some (tt, f st).

Definition set_adev (d : audio_device) (st : audio_hal) : audio_hal :=
  mk_hal d (outs st) (ins st) (cfg st) (hlog st) (next_handle st).
Definition set_outs (os : list (option out_stream)) (st : audio_hal) : audio_hal :=
  mk_hal (adev st) os (ins st) (cfg st) (hlog st) (next_handle st).
Definition set_ins (l : list (option in_stream)) (st : audio_hal) : audio_hal :=
  mk_hal (adev st) (outs st) l (cfg st) (hlog st) (next_handle st).
Definition set_cfg (c : state) (st : audio_hal) : audio_hal :=
  mk_hal (adev st) (outs st) (ins st) c (hlog st) (next_handle st).
Definition set_hlog (l : hal_log) (n : nat) (st : audio_hal) : audio_hal :=
  mk_hal (adev st) (outs st) (ins st) (cfg st) l n.

Definition put_out (id : nat) (o : option out_stream) : AM unit :=
  amodify (fun st => set_outs (<[id := o]> (outs st)) st).
Definition put_in (id : nat) (i : option in_stream) : AM unit :=
  amodify (fun st => set_ins (<[id := i]> (ins st)) st).

Definition emit (e : hal_event) : AM unit :=
  amodify (fun st => set_hlog (hlog st ++ [e]) (next_handle st) st).

Definition set_handle (standby : bool) (h : option nat) (p : params) (o : out_stream) : out_stream :=
  mk_out (o_hw o) standby h p (o_offload o).
Definition set_offload (f : offload) (o : out_stream) : out_stream :=
  mk_out (o_hw o) (o_standby o) (o_handle o) (o_params o) f.
Definition set_started (b : bool) (f : offload) : offload :=
  mk_offload b (paused f) (o_codec f) (encoder_delay f) (encoder_padding f) (refresh_gapless_meta f).
Definition set_paused (b : bool) (f : offload) : offload :=
  mk_offload (started f) b (o_codec f) (encoder_delay f) (encoder_padding f) (refresh_gapless_meta f).
Definition set_gapless (d p : Z) (b : bool) (f : offload) : offload :=
  mk_offload (started f) (paused f) (o_codec f) d p b.
Definition set_sizes (buffer latency_ : Z) (p : params) : params :=
  mk_params (format p) (channel_mask p) (channel_count p) (sample_rate p) (frame_size p) buffer latency_.

Definition set_capture (standby : bool) (h : option nat) (p : params) (rsp : bool) (i : in_stream) : in_stream :=
  mk_in (i_hw i) standby h p (i_devices i) (input_source i) (last_read_ns i) rsp.
Definition set_source (hw : option nat) (source : Z) (i : in_stream) : in_stream :=
  mk_in hw (i_standby i) (i_handle i) (i_params i) (i_devices i) source (last_read_ns i) (i_resampler i).
Definition set_in_devices (d : Z) (i : in_stream) : in_stream :=
  mk_in (i_hw i) (i_standby i) (i_handle i) (i_params i) d (input_source i) (last_read_ns i) (i_resampler i).
Definition set_last_read (ns : Z) (i : in_stream) : in_stream :=
  mk_in (i_hw i) (i_standby i) (i_handle i) (i_params i) (i_devices i) (input_source i) ns (i_resampler i).

Definition set_voice (s : voice_state) (d : audio_device) : audio_device :=
  mk_adev (mic_mute d) (active_voice_control d) s (voice_trig_mic d) (global_stream d) (voice_trig_stream d).
Definition set_voice_stream (h : option nat) (d : audio_device) : audio_device :=
  mk_adev (mic_mute d) (active_voice_control d) (voice_st d) (voice_trig_mic d) (global_stream d) h.
Definition set_active (a : option nat) (d : audio_device) : audio_device :=
  mk_adev (mic_mute d) a (voice_st d) (voice_trig_mic d) (global_stream d) (voice_trig_stream d).
Definition set_trig_mic (m : Z) (d : audio_device) : audio_device :=
  mk_adev (mic_mute d) (active_voice_control d) (voice_st d) m (global_stream d) (voice_trig_stream d).
Definition set_mute (b : bool) (d : audio_device) : audio_device :=
  mk_adev b (active_voice_control d) (voice_st d) (voice_trig_mic d) (global_stream d) (voice_trig_stream d).

Definition modify_adev (f : audio_device -> audio_device) : AM unit :=
  amodify (fun st => set_adev (f (adev st)) st).

(** Number of bits set, of a 32-bit value. *)
Definition popcount (z : Z) : Z :=
  Z.of_nat (length (filter (fun k => Z.testbit z (Z.of_nat k) = true) (seq 0 32))).

Section Hal.
Context (mx : mixer) (P : audio_platform) (E : audio_env).

(** ** The configuration manager and the libraries *)

Definition config_do (f : state -> state) : AM unit := amodify (fun st => set_cfg (f (cfg st)) st).
Definition config_ask {A} (f : state -> A * state) : AM A :=
  fun st => let '(a, c) := f (cfg st) in Some (a, set_cfg c st).

Definition cm_apply_route (hw : nat) (devices : Z) : AM unit :=
  config_do (apply_route mx (masks P) hw devices).
Definition cm_release_stream (hw : nat) : AM unit :=
  config_do (release_stream mx (masks P) (Some hw)).
Definition cm_get_stream (devices : Z) (c : audio_config) : AM (option nat) :=
  config_ask (get_stream mx (masks P) devices (is_linear_pcm P (format_rq c))).
Definition cm_get_named_stream (name : bytes) : AM (option nat) := config_ask (get_named_stream mx name).
Definition cm_apply_use_case (hw : nat) (setting name : bytes) : AM Z :=
  config_ask (apply_use_case mx hw setting name).

(** The stream of the configuration a pointer of type [hw_stream] points to. *)
Definition hw_info (hw : nat) : AM stream :=
  st ← aget; match stream_array (cfg st).1 !! hw with Some s => mret s | None => acrash end.

Definition open_handle (pcm input : bool) (s : stream) : AM nat :=
  st ← aget;
  amodify (fun st => set_hlog (hlog st ++ [Open (next_handle st) pcm input (card_number s) (device_number s)])
                       (S (next_handle st)) st);;
  mret (next_handle st).

Definition is_ready : AM bool := st ← aget; mret (e_ready E (hlog st)).
Definition result : AM Z := st ← aget; mret (e_ret E (hlog st)).
Definition now : AM Z := st ← aget; mret (e_time E (hlog st)).

(** An operation whose result the code looks at. *)
Definition do_use (h : nat) (u : use) : AM Z := emit (Use h u);; result.

(** ** Use cases *)

(** The settings of a parameter string, each applied as it stands between semicolons. *)
Definition invoke_setting (hw : nat) (p : bytes) : AM bool :=
  match strchr "="%char p with
  | None => mret false
  | Some (name, value) =>
      if bool_decide (value = []) then mret false
      else ret ← cm_apply_use_case hw name value; mret (0 <=? ret)
  end.

Fixpoint invoke_settings (hw : nat) (ps : list bytes) (ret : Z) : AM Z :=
  match ps with
  | [] => mret ret
  | p :: ps => ok ← invoke_setting hw p; invoke_settings hw ps (if (ok : bool) then 0 else ret)
  end.

Definition stream_invoke_usecases (hw : option nat) (kvpairs : bytes) : AM Z :=
  match hw with
  | None => mret (- ENOTSUP)
  | Some hw => invoke_settings hw (strtok_tokens ";"%char kvpairs) (- ENOTSUP)
  end.

Definition common_get_routing_param (kvpairs : bytes) : option Z :=
  wrap_u32 ∘ atoi <$> get_str P kvpairs (lit "routing").

(** ** Voice trigger *)

Definition do_voice_trigger_open_stream (streamName : bytes) : AM unit :=
  hw ← cm_get_named_stream streamName;
  modify_adev (set_voice_stream hw);;
  match hw with
  | None => askip
  | Some hw =>
      st ← aget;
      let mic := voice_trig_mic (adev st) in
      cm_apply_route hw (if mic =? 0 then IN_BUILTIN_MIC_DEVICE P else mic)
  end.

(** The pointer is compared with null, not cleared. *)
Definition do_voice_trigger_close_stream : AM unit :=
  st ← aget;
  match voice_trig_stream (adev st) with
  | None => askip
  | Some hw => cm_apply_route hw 0;; cm_release_stream hw
  end.

Definition to_voice (s : voice_state) : AM unit := modify_adev (set_voice s).

Definition voice_trigger_enable : AM unit :=
  st ← aget;
  match voice_st (adev st) with
  | eVoiceTriggerIdle | eVoiceTriggerFired =>
      do_voice_trigger_open_stream kVoiceTriggerStreamName;; to_voice eVoiceTriggerArmed
  | eVoiceRecogIdle =>
      do_voice_trigger_open_stream kVoiceRecogStreamName;; to_voice eVoiceRecogArmed
  | eVoiceRecogAudio => to_voice eVoiceRecogReArm
  | eVoiceNone | eVoiceTriggerArmed | eVoiceRecogArmed | eVoiceRecogFired | eVoiceRecogReArm => askip
  end.

Definition voice_trigger_disable : AM unit :=
  st ← aget;
  match voice_st (adev st) with
  | eVoiceTriggerFired | eVoiceTriggerArmed =>
      do_voice_trigger_close_stream;; to_voice eVoiceTriggerIdle
  | eVoiceRecogArmed => do_voice_trigger_close_stream;; to_voice eVoiceRecogIdle
  | eVoiceRecogReArm => to_voice eVoiceRecogAudio
  | eVoiceNone | eVoiceTriggerIdle | eVoiceRecogIdle | eVoiceRecogFired | eVoiceRecogAudio => askip
  end.

Definition voice_trigger_triggered : AM unit :=
  st ← aget;
  match voice_st (adev st) with
  | eVoiceTriggerArmed => to_voice eVoiceTriggerFired
  | eVoiceRecogArmed => to_voice eVoiceRecogFired
  | _ => askip
  end.

Definition voice_trigger_audio_started_locked : AM unit :=
  st ← aget;
  match voice_st (adev st) with eVoiceRecogFired => to_voice eVoiceRecogAudio | _ => askip end.

Definition voice_trigger_audio_ended_locked : AM unit :=
  st ← aget;
  match voice_st (adev st) with
  | eVoiceRecogAudio => do_voice_trigger_close_stream;; to_voice eVoiceRecogIdle
  | eVoiceRecogReArm => to_voice eVoiceRecogArmed
  | _ => askip
  end.

Definition voice_trigger_set_params (kvpairs : bytes) : AM unit :=
  match get_str P kvpairs (lit "voice_trigger_mic") with
  | Some v => modify_adev (set_trig_mic (wrap_u32 (atoi v)))
  | None => askip
  end;;
  match get_str P kvpairs (lit "voice_trigger") with
  | Some v =>
      if bool_decide (v = lit "2") then voice_trigger_triggered
      else if bool_decide (v = lit "1") then voice_trigger_enable
      else if bool_decide (v = lit "0") then voice_trigger_disable
      else askip
  | None => askip
  end.

Definition voice_trigger_audio_stream_name (s : voice_state) : option bytes :=
  match s with
  | eVoiceNone | eVoiceTriggerIdle | eVoiceTriggerArmed | eVoiceTriggerFired | eVoiceRecogFired =>
      Some kVoiceRecogStreamName
  | eVoiceRecogIdle | eVoiceRecogArmed | eVoiceRecogReArm | eVoiceRecogAudio => None
  end.

Definition voice_trigger_init (cm : config_mgr) : voice_state :=
  if is_named_stream_defined cm kVoiceRecogStreamName then eVoiceRecogIdle
  else if is_named_stream_defined cm kVoiceTriggerStreamName then eVoiceTriggerIdle
  else eVoiceNone.

(** ** Output streams *)

Definition or_default (d v : Z) : Z := if v =? 0 then d else v.

Definition out_pcm_cfg_period_count (s : stream) : Z := or_default OUT_PERIOD_COUNT_DEFAULT (period_count s).
Definition out_pcm_cfg_period_size (s : stream) : Z := or_default OUT_PERIOD_SIZE_DEFAULT (period_size s).
Definition out_pcm_cfg_rate (s : stream) : Z := or_default OUT_RATE_DEFAULT (rate s).
Definition out_pcm_cfg_channel_count (o : out_stream) : Z :=
  or_default OUT_CHANNEL_COUNT_DEFAULT (channel_count (o_params o)).

(** Of a handle with 16-bit samples ([tinyalsa/src/pcm.c]). *)
Definition pcm_frames_to_bytes (channels frames : Z) : Z := wrap_u32 (frames * channels * 2).
Definition pcm_bytes_to_frames (channels bytes : Z) : Z := bytes / (channels * 2).

Definition pcm_latency (s : stream) (rate : Z) : Z :=
  wrap_u32 (out_pcm_cfg_period_size s * out_pcm_cfg_period_count s * 1000) / rate.

Definition start_output_pcm (s : stream) (o : out_stream) : AM (Z * out_stream) :=
  h ← open_handle true false s;
  ok ← is_ready;
  if negb ok then emit (Close h);; mret (- ENOMEM, o)
  else mret (0, set_handle false (Some h)
         (set_sizes (pcm_frames_to_bytes (out_pcm_cfg_channel_count o) (out_pcm_cfg_period_size s))
            (pcm_latency s (out_pcm_cfg_rate s)) (o_params o)) o).

Definition do_out_pcm_standby (o : out_stream) : AM out_stream :=
  if o_standby o then mret o
  else match o_handle o with
       | None => acrash
       | Some h => emit (Close h);; mret (set_handle true None (o_params o) o)
       end.

Definition out_pcm_write (id : nat) (o : out_stream) (bytes : Z) : AM Z :=
  s ← hw_info (o_hw o);
  if current_devices s =? 0 then mret 0
  else
    '(ret, o) ← if o_standby o then start_output_pcm s o else mret (0, o);
    if negb (ret =? 0) then mret ret
    else match o_handle o with
         | None => acrash
         | Some h =>
             put_out id (Some o);;
             ret ← do_use h (PcmWrite (pcm_bytes_to_frames (out_pcm_cfg_channel_count o) bytes));
             mret (if 0 <=? ret then bytes else ret)
         end.

Definition do_standby_compress_l (o : out_stream) : AM out_stream :=
  match o_handle o with
  | None => mret o
  | Some h =>
      if paused (o_offload o) then mret o
      else
        (if started (o_offload o) then emit (Use h CompressStop) else askip);;
        emit (Close h);;
        mret (set_offload (set_started false (o_offload o)) (set_handle (o_standby o) None (o_params o) o))
  end.

Definition open_output_compress (s : stream) (o : out_stream) : AM (Z * out_stream) :=
  match o_handle o with
  | Some _ => mret (0, o)
  | None =>
      h ← open_handle false false s;
      ok ← is_ready;
      if negb ok then emit (Close h);; mret (- EBUSY, o)
      else
        st ← aget;
        let '(size, count) := e_fragments E (hlog st) in
        mret (0, set_handle (o_standby o) (Some h)
                   (set_sizes (wrap_u32 (size * count)) (latency (o_params o)) (o_params o)) o)
  end.

Definition start_output_compress (h : nat) (o : out_stream) : AM (Z * out_stream) :=
  ret ← do_use h CompressStart;
  if ret <? 0 then o ← do_standby_compress_l o; mret (ret, o)
  else
    let f := o_offload o in
    (if refresh_gapless_meta f then emit (Use h (CompressGapless (encoder_delay f) (encoder_padding f)))
     else askip);;
    mret (ret, set_offload (set_started true
                 (if refresh_gapless_meta f then set_gapless 0 0 false f else f)) o).

Definition out_compress_write (id : nat) (o : out_stream) (bytes : Z) : AM Z :=
  s ← hw_info (o_hw o);
  '(ret, o) ← open_output_compress s o;
  put_out id (Some o);;
  if ret <? 0 then mret ret
  else match o_handle o with
       | None => acrash
       | Some h =>
           ret ← do_use h (CompressWrite bytes);
           if (ret <? 0) || started (o_offload o) then mret ret
           else
             '(r, o) ← start_output_compress h o;
             put_out id (Some o);;
             mret (if r <? 0 then -1 else ret)
       end.

Definition out_compress_pause (id : nat) (o : out_stream) : AM Z :=
  match o_handle o with
  | Some h =>
      if paused (o_offload o) then mret (- EBADFD)
      else put_out id (Some (set_offload (set_paused true (o_offload o)) o));; do_use h CompressPause
  | None => mret (- EBADFD)
  end.

Definition out_compress_resume (id : nat) (o : out_stream) : AM Z :=
  match o_handle o with
  | Some h =>
      if negb (paused (o_offload o)) then mret (- EBADFD)
      else put_out id (Some (set_offload (set_paused false (o_offload o)) o));; do_use h CompressResume
  | None => mret (- EBADFD)
  end.

(** The handle is not compared with null. *)
Definition out_compress_drain (id : nat) (o : out_stream) (early : bool) : AM Z :=
  match o_handle o with
  | None => acrash
  | Some h =>
      let drained := put_out id (Some (set_offload (set_started false (o_offload o)) o)) in
      if early then
        ret ← do_use h CompressNextTrack;
        if negb (ret =? 0) then mret ret
        else ret ← do_use h CompressPartialDrain; drained;; mret ret
      else ret ← do_use h CompressDrain; drained;; mret ret
  end.

Definition out_compress_flush (id : nat) (o : out_stream) : AM Z :=
  match o_handle o with
  | Some h =>
      if started (o_offload o) then
        emit (Use h CompressStop);;
        put_out id (Some (set_offload (set_started false (set_paused false (o_offload o))) o));; mret 0
      else mret 0
  | None => mret 0
  end.

(** The frames played, [samples] being what the channel reports. *)
Definition out_compress_get_render_position (o : out_stream) (samples : Z) : AM Z :=
  if negb (started (o_offload o)) then mret 0
  else match o_handle o with
       | None => acrash
       | Some h => ret ← do_use h CompressTstamp; mret (if ret =? 0 then wrap_u32 samples else 0)
       end.

Definition out_set_parameters (o : out_stream) (kvpairs : bytes) : AM Z :=
  match common_get_routing_param kvpairs with
  | Some v => cm_apply_route (o_hw o) v
  | None => askip
  end;;
  stream_invoke_usecases (Some (o_hw o)) kvpairs;; mret 0.

Definition out_compress_set_parameters (id : nat) (o : out_stream) (kvpairs : bytes) : AM Z :=
  let delay := get_str P kvpairs (lit "delay_samples") in
  let padding := get_str P kvpairs (lit "padding_samples") in
  let f := o_offload o in
  let g := set_gapless
    (match delay with Some v => wrap_u32 (atoi v) | None => encoder_delay f end)
    (match padding with Some v => wrap_u32 (atoi v) | None => encoder_padding f end)
    (refresh_gapless_meta f || bool_decide (is_Some delay) || bool_decide (is_Some padding)) f in
  put_out id (Some (set_offload g o));; out_set_parameters o kvpairs.

Definition is_pcm_out (s : stream) : bool := bool_decide (s_type s = out_pcm).

(** The stream's [standby] function. *)
Definition out_standby_fn (id : nat) (o : out_stream) : AM unit :=
  s ← hw_info (o_hw o);
  o ← if is_pcm_out s then do_out_pcm_standby o else do_standby_compress_l o;
  put_out id (Some o).

(** [do_close_out_pcm] and [out_compress_close]. *)
Definition out_close_fn (id : nat) (o : out_stream) : AM unit :=
  s ← hw_info (o_hw o);
  (if is_pcm_out s then out_standby_fn id o
   else out_standby_fn id (set_offload (set_paused false (o_offload o)) o));;
  cm_release_stream (o_hw o);; put_out id None.

Definition no_offload : offload := mk_offload false false None 0 0 false.

Definition codec_of (fmt : Z) : option codec :=
  let f := Z.land fmt (FORMAT_MAIN_MASK P) in
  if f =? FORMAT_MP3 P then Some MP3
  else if f =? FORMAT_AAC P then Some AAC
  else if f =? FORMAT_HE_AAC_V1 P then Some HE_AAC
  else if f =? FORMAT_HE_AAC_V2 P then Some HE_AAC
  else if f =? FORMAT_VORBIS P then Some VORBIS
  else None.

Definition init_params (c : audio_config) (buffer latency_ : Z) : params :=
  mk_params (format_rq c) (channel_mask_rq c) (popcount (channel_mask_rq c)) (sample_rate_rq c)
    (stream_frame_size P (format_rq c) (channel_mask_rq c)) buffer latency_.

Definition do_init_out_pcm (s : stream) (o : out_stream) : AM (Z * out_stream) :=
  let p := o_params o in
  if sample_rate p =? 0 then acrash
  else mret (0, set_handle (o_standby o) (o_handle o)
         (set_sizes (wrap_u32 (out_pcm_cfg_period_size s * frame_size p)) (pcm_latency s (sample_rate p)) p) o).

Definition do_init_out_compress (s : stream) (o : out_stream) : AM (Z * out_stream) :=
  match codec_of (format (o_params o)) with
  | None => mret (- EINVAL, o)
  | Some c => open_output_compress s (set_offload (mk_offload false false (Some c) 0 0 false) o)
  end.

(** The status; on success the stream is the next one.  A failure after [get_stream]
    only frees the memory. *)
Definition adev_open_output_stream (devices : Z) (c : audio_config) : AM Z :=
  let devices := Z.land devices (OUT_ALL (masks P)) in
  hw ← cm_get_stream devices c;
  match hw with
  | None => mret (- EINVAL)
  | Some hw =>
      s ← hw_info hw;
      let o := mk_out hw true None (init_params c 0 0) no_offload in
      cm_apply_route hw devices;;
      '(ret, o) ← if is_pcm_out s then do_init_out_pcm s o else do_init_out_compress s o;
      if ret <? 0 then mret ret
      else amodify (fun st => set_outs (outs st ++ [Some o]) st);; mret 0
  end.

(** ** Input streams *)

Definition in_pcm_cfg_period_count (s : stream) : Z := or_default IN_PERIOD_COUNT_DEFAULT (period_count s).
Definition in_pcm_cfg_period_size (s : stream) : Z := or_default IN_PERIOD_SIZE_DEFAULT (period_size s).
Definition in_pcm_cfg_rate (s : stream) : Z := or_default IN_RATE_DEFAULT (rate s).
Definition in_pcm_cfg_channel_count (i : in_stream) : Z :=
  or_default IN_CHANNEL_COUNT_DEFAULT (channel_count (i_params i)).

Definition in_get_sample_rate (s : stream) (i : in_stream) : Z := or_default (rate s) (sample_rate (i_params i)).

(** The buffer for a period at the stream's rate, in whole multiples of 16 frames. *)
Definition in_pcm_buffer_size (period rate sample_rate frame : Z) : Z :=
  let size := wrap_u32 (period * sample_rate) / rate in
  wrap_u32 (wrap_u32 (size + 15) / 16 * 16 * frame).

Definition in_pcm_fill_params (s : stream) (p : params) : params :=
  set_sizes (in_pcm_buffer_size (in_pcm_cfg_period_size s) (in_pcm_cfg_rate s) (sample_rate p) (frame_size p))
    (latency p) p.

Definition do_open_pcm_input (s : stream) (i : in_stream) : AM (Z * in_stream) :=
  h ← open_handle true true s;
  ok ← is_ready;
  if negb ok then emit (Close h);; mret (- ENOMEM, set_capture (i_standby i) None (i_params i) (i_resampler i) i)
  else
    let p := in_pcm_fill_params s (i_params i) in
    if in_get_sample_rate s i =? in_pcm_cfg_rate s
    then mret (0, set_capture (i_standby i) (Some h) p (i_resampler i) i)
    else
      ret ← do_use h CreateResampler;
      if ret <? 0 then emit (Close h);; mret (ret, set_capture (i_standby i) None p false i)
      else mret (0, set_capture (i_standby i) (Some h) p true i).

Definition start_pcm_input_stream (s : stream) (i : in_stream) : AM (Z * in_stream) :=
  if i_standby i then
    '(ret, i) ← do_open_pcm_input s i;
    mret (ret, if ret =? 0 then set_capture false (i_handle i) (i_params i) (i_resampler i) i else i)
  else mret (0, i).

Definition do_in_pcm_read (id : nat) (s : stream) (i : in_stream) (bytes : Z) : AM (Z * in_stream) :=
  if frame_size (i_params i) =? 0 then acrash
  else
    '(ret, i) ← start_pcm_input_stream s i;
    put_in id (Some i);;
    if ret <? 0 then mret (ret, i)
    else match i_handle i with
         | None => acrash
         | Some h =>
             ret ← do_use h (if i_resampler i then Resample (bytes / frame_size (i_params i))
                             else PcmRead (pcm_bytes_to_frames (in_pcm_cfg_channel_count i) bytes));
             mret (if 0 <=? ret then bytes else ret, i)
         end.

(** Opening the channel reports a failure with a positive [errno], which the caller takes
    for success; it then goes through the null pointer. *)
Definition do_open_compress_pcm_in (s : stream) (i : in_stream) : AM in_stream :=
  h ← open_handle false true s;
  ok ← is_ready;
  if negb ok then emit (Close h);; acrash
  else
    st ← aget;
    let '(size, count) := e_fragments E (hlog st) in
    let p := set_sizes (wrap_u32 (size * count * frame_size (i_params i))) (latency (i_params i)) (i_params i) in
    emit (Use h CompressStart);;
    mret (set_capture (i_standby i) (Some h) p (i_resampler i) i).

Definition start_compress_pcm_input_stream (s : stream) (i : in_stream) : AM in_stream :=
  if i_standby i then
    i ← do_open_compress_pcm_in s i;
    if wrap_u32 (frame_size (i_params i) * sample_rate (i_params i)) =? 0 then acrash
    else mret (set_capture false (i_handle i) (i_params i) (i_resampler i) i)
  else mret i.

(** Sleeps for what is left of the time [bytes] take at the stream's rate. *)
Definition do_in_realtime_delay (i : in_stream) (bytes : Z) : AM unit :=
  if last_read_ns i =? 0 then askip
  else
    let d := wrap_u32 (frame_size (i_params i) * sample_rate (i_params i)) in
    if d =? 0 then acrash
    else
      let required_interval := wrap_u32 (1907 * bytes) / d in
      t ← now;
      let elapsed := t - last_read_ns i in
      if Z.shiftr elapsed 19 <? required_interval
      then emit (Sleep (Z.shiftl required_interval 19 - elapsed)) else askip.

Definition do_in_compress_pcm_read (id : nat) (s : stream) (i : in_stream) (bytes : Z) : AM (Z * in_stream) :=
  i ← start_compress_pcm_input_stream s i;
  put_in id (Some i);;
  match i_handle i with
  | None => acrash
  | Some h =>
      ret ← do_use h (CompressRead bytes);
      (if 0 <? ret then do_in_realtime_delay i (bytes / 4) else askip);;
      mret (ret, i)
  end.

Definition stream_is_compressed_in (s : stream) : bool := bool_decide (s_type s = in_compress).
Definition stream_is_compressed (s : stream) : bool :=
  bool_decide (s_type s = out_compress) || bool_decide (s_type s = in_compress).

Definition do_in_pcm_standby (i : in_stream) : AM in_stream :=
  (if i_standby i then askip
   else match i_handle i with Some h => emit (Close h) | None => acrash end);;
  mret (set_capture true (if i_standby i then i_handle i else None) (i_params i) false i).

Definition do_in_compress_pcm_standby (i : in_stream) : AM in_stream :=
  if i_standby i then mret (set_capture true (i_handle i) (i_params i) (i_resampler i) i)
  else match i_handle i with
       | None => acrash
       | Some h =>
           emit (Use h CompressStop);; emit (Close h);;
           mret (set_capture true None (i_params i) (i_resampler i) i)
       end.

Definition in_pcm_standby (id : nat) (i : in_stream) : AM unit :=
  match i_hw i with
  | None => askip
  | Some hw =>
      s ← hw_info hw;
      i ← if stream_is_compressed_in s then do_in_compress_pcm_standby i else do_in_pcm_standby i;
      put_in id (Some i)
  end.

(** The result is the number of bytes; the flag tells that they were overwritten with
    zeros. *)
Definition in_pcm_read (id : nat) (i : in_stream) (bytes : Z) : AM (Z * bool) :=
  st ← aget;
  '(ret, i) ←
    match i_hw i with
    | None => mret (- EINVAL, i)
    | Some hw =>
        s ← hw_info hw;
        if current_devices s =? 0 then mret (- EINVAL, i)
        else if stream_is_compressed_in s then do_in_compress_pcm_read id s i bytes
        else do_in_pcm_read id s i bytes
    end;
  let silent := (ret <=? 0) || mic_mute (adev st) in
  (if ret <=? 0 then do_in_realtime_delay i bytes else askip);;
  t ← now;
  put_in id (Some (set_last_read (if t =? 0 then 1 else t) i));;
  mret (if silent then bytes else ret, silent).

Definition voice_started (voice_control : bool) (id : nat) : AM unit :=
  st ← aget;
  if voice_control then
    modify_adev (set_active (Some id));; voice_trigger_audio_started_locked
  else if bool_decide (active_voice_control (adev st) = Some id) then
    modify_adev (set_active None);; voice_trigger_audio_ended_locked
  else askip.

(** The status and the stream. *)
Definition change_input_source_locked (id : nat) (i : in_stream) (value : bytes) (devices : Z)
  : AM (Z * in_stream) :=
  let new_source := atoi value in
  if negb (i_standby i) then mret (- EINVAL, i)
  else if input_source i =? new_source then mret (0, i)
  else
    st ← aget;
    let voice_control := new_source =? SOURCE_VOICE_RECOGNITION P in
    let stream_name := if voice_control then voice_trigger_audio_stream_name (voice_st (adev st)) else None in
    hw ← match stream_name with Some n => cm_get_named_stream n | None => mret None end;
    hw ← match hw with
         | Some _ => mret hw
         | None => let p := i_params i in
                   cm_get_stream devices (mk_config (sample_rate p) (channel_mask p) (format p))
         end;
    match hw with
    | None => mret (- EINVAL, i)
    | Some _ =>
        match i_hw i with Some old => cm_release_stream old | None => askip end;;
        let i := set_source hw new_source i in
        put_in id (Some i);;
        voice_started voice_control id;;
        mret (0, i)
    end.

Definition in_pcm_set_parameters (id : nat) (i : in_stream) (kvpairs : bytes) : AM Z :=
  let routing := common_get_routing_param kvpairs in
  '(ret, routing, i) ←
    match get_str P kvpairs (lit "input_source") with
    | None => mret (0, routing, i)
    | Some value =>
        devices ← match routing, i_hw i with
                  | Some d, _ => mret d
                  | None, Some hw => s ← hw_info hw; mret (get_routed_devices s)
                  | None, None => mret 0
                  end;
        '(ret, i) ← change_input_source_locked id i value devices;
        mret (ret, Some devices, i)
    end;
  if ret <? 0 then mret 0
  else
    match routing with
    | Some d =>
        put_in id (Some (set_in_devices d i));;
        match i_hw i with Some hw => cm_apply_route hw d | None => askip end
    | None => askip
    end;;
    stream_invoke_usecases (i_hw i) kvpairs;; mret 0.

Definition adev_open_input_stream (devices : Z) (c : audio_config) : AM Z :=
  let i := mk_in None true None (init_params c IN_COMPRESS_BUFFER_SIZE_DEFAULT 0)
             (Z.land devices (IN_ALL (masks P))) 0 0 false in
  amodify (fun st => set_ins (ins st ++ [Some i]) st);; mret 0.

(** The handle is not cleared. *)
Definition do_in_compress_pcm_close (i : in_stream) : AM unit :=
  match i_handle i with
  | Some h => emit (Use h CompressStop);; emit (Close h)
  | None => askip
  end.

(** [do_close_in_pcm] and [do_close_in_common]. *)
Definition in_close_fn (id : nat) (i : in_stream) : AM unit :=
  match i_hw i with
  | Some hw => s ← hw_info hw; if stream_is_compressed s then do_in_compress_pcm_close i else askip
  | None => askip
  end;;
  in_pcm_standby id i;;
  st ← aget;
  (if bool_decide (active_voice_control (adev st) = Some id)
   then modify_adev (set_active None);; voice_trigger_audio_ended_locked else askip);;
  match i_hw i with Some hw => cm_release_stream hw | None => askip end;;
  put_in id None.

(** ** The device *)

Definition adev_set_parameters (kvpairs : bytes) : AM Z :=
  voice_trigger_set_params kvpairs;;
  st ← aget;
  stream_invoke_usecases (global_stream (adev st)) kvpairs;; mret 0.

Definition adev_get_input_buffer_size (c : audio_config) : Z :=
  let s := wrap_u32 (IN_PERIOD_SIZE_DEFAULT * bytes_per_sample P (format_rq c) * popcount (channel_mask_rq c)) in
  if IN_COMPRESS_BUFFER_SIZE_DEFAULT <? s then IN_COMPRESS_BUFFER_SIZE_DEFAULT else s.

(** What [adev_open] leaves once the configuration has been read. *)
Definition adev_open (c : state) : audio_hal :=
  let '(g, c) := get_named_stream mx (lit "global") c in
  mk_hal (mk_adev false None (voice_trigger_init c.1) 0 g None) [] [] c [] 0.

(** ** Calls *)

Inductive call :=
| OpenOutput (devices : Z) (c : audio_config)
| OpenInput (devices : Z) (c : audio_config)
| SetParameters (kvpairs : bytes)
| SetMicMute (b : bool)
| OutWrite (id : nat) (bytes : Z)
| OutStandby (id : nat)
| OutSetParameters (id : nat) (kvpairs : bytes)
| OutSetVolume (id : nat) (left_pc right_pc : Z)
| OutPause (id : nat) | OutResume (id : nat) | OutDrain (id : nat) (early : bool) | OutFlush (id : nat)
| OutPosition (id : nat) (samples : Z)
| CloseOutput (id : nat)
| InRead (id : nat) (bytes : Z)
| InStandby (id : nat)
| InSetParameters (id : nat) (kvpairs : bytes)
| CloseInput (id : nat).

(** A call on a stream that is not open does not happen. *)
Definition with_out (id : nat) (f : out_stream -> AM unit) : AM unit :=
  st ← aget; match outs st !! id with Some (Some o) => f o | _ => askip end.
Definition with_in (id : nat) (f : in_stream -> AM unit) : AM unit :=
  st ← aget; match ins st !! id with Some (Some i) => f i | _ => askip end.

(** The functions only an offload stream has. *)
Definition with_offload (id : nat) (f : out_stream -> AM unit) : AM unit :=
  with_out id (fun o => s ← hw_info (o_hw o); if is_pcm_out s then askip else f o).

Definition out_set_volume (o : out_stream) (left_pc right_pc : Z) : AM unit :=
  s ← hw_info (o_hw o);
  config_do (fun c => (c.1, (set_hw_volume s left_pc right_pc c.2).2)).

Definition discard {A} (m : AM A) : AM unit := m;; askip.

Definition run_call (c : call) : AM unit :=
  match c with
  | OpenOutput d cf => discard (adev_open_output_stream d cf)
  | OpenInput d cf => discard (adev_open_input_stream d cf)
  | SetParameters kv => discard (adev_set_parameters kv)
  | SetMicMute b => modify_adev (set_mute b)
  | OutWrite id n => with_out id (fun o => s ← hw_info (o_hw o);
      discard (if is_pcm_out s then out_pcm_write id o n else out_compress_write id o n))
  | OutStandby id => with_out id (out_standby_fn id)
  | OutSetParameters id kv => with_out id (fun o => s ← hw_info (o_hw o);
      discard (if is_pcm_out s then out_set_parameters o kv else out_compress_set_parameters id o kv))
  | OutSetVolume id a b => with_out id (fun o => out_set_volume o a b)
  | OutPause id => with_offload id (fun o => discard (out_compress_pause id o))
  | OutResume id => with_offload id (fun o => discard (out_compress_resume id o))
  | OutDrain id early => with_offload id (fun o => discard (out_compress_drain id o early))
  | OutFlush id => with_offload id (fun o => discard (out_compress_flush id o))
  | OutPosition id n => with_offload id (fun o => discard (out_compress_get_render_position o n))
  | CloseOutput id => with_out id (out_close_fn id)
  | InRead id n => with_in id (fun i => discard (in_pcm_read id i n))
  | InStandby id => with_in id (in_pcm_standby id)
  | InSetParameters id kv => with_in id (fun i => discard (in_pcm_set_parameters id i kv))
  | CloseInput id => with_in id (in_close_fn id)
  end.

Fixpoint run_calls (cs : list call) : AM unit :=
  match cs with
  | [] => askip
  | c :: cs => run_call c;; run_calls cs
  end.

End Hal.
