(* ===== verification/AudioHandles.v ===== *)
(** * What the audio HAL holds ([audio/audio_hw.c])

    The invariant of [AudioHal]: the handles open according to the log are those of the
    streams, and the reference counts of the configuration's streams cover the streams
    that use them.  Theorems on sequences of calls. *)

From S2P Require Import Prelude.
From S2P Require Import CString.
From S2P Require Import AudioRouting.
From S2P Require Import AudioRoutes.
From S2P Require Import AudioHal.

(** ** Weakest preconditions *)

(** A crash is allowed where [ub] holds. *)
Definition wp {A} (ub : Prop) (m : AM A) (Q : A -> audio_hal -> Prop) (st : audio_hal) : Prop :=
  match m st with Some (a, st') => Q a st' | None => ub end.

Section wp.
Context (ub : Prop).

Lemma awp_ret {A} (a : A) (Q : A -> audio_hal -> Prop) st : Q a st -> wp ub (mret a) Q st.
Proof. done. Qed.

Lemma awp_bind {A B} (m : AM A) (f : A -> AM B) Q st :
  wp ub m (fun a st' => wp ub (f a) Q st') st -> wp ub (m ≫= f) Q st.
Proof. unfold wp, mbind, AM_bind. by destruct (m st) as [[a st']|]. Qed.

Lemma awp_mono {A} (m : AM A) (Q R : A -> audio_hal -> Prop) st :
  wp ub m Q st -> (forall a st', Q a st' -> R a st') -> wp ub m R st.
Proof. unfold wp. destruct (m st) as [[a st']|]; auto. Qed.

Lemma wp_aget (Q : audio_hal -> audio_hal -> Prop) st : Q st st -> wp ub aget Q st.
Proof. done. Qed.

Lemma wp_amodify f (Q : unit -> audio_hal -> Prop) st : Q tt (f st) -> wp ub (amodify f) Q st.
Proof. done. Qed.

Lemma wp_crash {A} (Q : A -> audio_hal -> Prop) st : ub -> wp ub acrash Q st.
Proof. done. Qed.

Lemma wp_config_ask {A} (f : state -> A * state) (Q : A -> audio_hal -> Prop) st :
  Q (f (cfg st)).1 (set_cfg (f (cfg st)).2 st) -> wp ub (config_ask f) Q st.
Proof. unfold wp, config_ask. by destruct (f (cfg st)). Qed.

Lemma wp_hw_info hw s (Q : stream -> audio_hal -> Prop) st :
  stream_array (cfg st).1 !! hw = Some s -> Q s st -> wp ub (hw_info hw) Q st.
Proof.
  intros Hs HQ. unfold hw_info. apply awp_bind, wp_aget. rewrite Hs. by apply awp_ret.
Qed.

End wp.

(** Steps through binds of operations that do not need a specification. *)
Ltac wps :=
  repeat lazymatch goal with
  | |- wp _ (mret _) _ _ => apply awp_ret
  | |- wp _ askip _ _ => apply awp_ret
  | |- wp _ (mbind _ aget) _ _ => apply awp_bind, wp_aget
  | |- wp _ (mbind _ (mret _)) _ _ => apply awp_bind, awp_ret
  | |- wp _ (mbind _ askip) _ _ => apply awp_bind, awp_ret
  | |- wp _ (mbind _ (amodify _)) _ _ => apply awp_bind, wp_amodify
  | |- wp _ (mbind _ acrash) _ _ => apply awp_bind, wp_crash
  | |- wp _ (amodify _) _ _ => apply wp_amodify
  | |- wp _ aget _ _ => apply wp_aget
  | |- wp _ acrash _ _ => apply wp_crash
  | |- wp _ (mbind _ (mbind _ _)) _ _ => apply awp_bind
  end; cbn beta iota.

(** ** Handles *)

(** The handles open after a log; [None]: one was used or closed while it was not open. *)
Definition live_step (e : hal_event) (L : list nat) : option (list nat) :=
  match e with
  | Open h _ _ _ _ => if decide (h ∈ L) then None else Some (h :: L)
  | Close h => if decide (h ∈ L) then Some (filter (fun k => k <> h) L) else None
  | Use h _ => if decide (h ∈ L) then Some L else None
  | Sleep _ => Some L
  end.

Fixpoint live (L : list nat) (l : hal_log) : option (list nat) :=
  match l with
  | [] => Some L
  | e :: l => match live_step e L with Some L => live L l | None => None end
  end.

Lemma live_snoc L l e : live L (l ++ [e]) = match live L l with Some L => live_step e L | None => None end.
Proof.
  revert L; induction l as [|x l IH]; intros L; cbn; [by destruct (live_step e L)|].
  destruct (live_step x L); [apply IH|done].
Qed.

(** What the streams hold. *)
Definition stream_handles (st : audio_hal) : list nat :=
  omap (fun o => o ≫= o_handle) (outs st) ++ omap (fun i => i ≫= i_handle) (ins st).

Definition voice_open (s : voice_state) : bool :=
  match s with
  | eVoiceTriggerArmed | eVoiceTriggerFired | eVoiceRecogArmed | eVoiceRecogFired | eVoiceRecogAudio
  | eVoiceRecogReArm => true
  | eVoiceNone | eVoiceTriggerIdle | eVoiceRecogIdle => false
  end.

Definition dev_held (d : audio_device) : list nat :=
  option_list (global_stream d) ++ (if voice_open (voice_st d) then option_list (voice_trig_stream d) else []).

Definition held (st : audio_hal) : list nat :=
  omap (fun o => o_hw <$> o) (outs st) ++ omap (fun i => i ≫= i_hw) (ins st) ++ dev_held (adev st).

(** Replacing an element moves what it holds. *)
Lemma omap_insert_perm {A B} (f : A -> option B) (l : list A) i x y :
  l !! i = Some x ->
  option_list (f x) ++ omap f (<[i := y]> l) ≡ₚ option_list (f y) ++ omap f l.
Proof.
  revert i; induction l as [|a l IH]; intros i Hi; [done|]. destruct i as [|i]; cbn in *.
  - simplify_eq. destruct (f x), (f y); cbn; by try rewrite Permutation_swap.
  - specialize (IH i Hi). destruct (f a) as [b|]; [|done].
    rewrite (Permutation_app_comm (option_list (f x))). cbn.
    rewrite (Permutation_app_comm (omap f (<[i:=y]> l))), IH.
    by rewrite <- Permutation_middle.
Qed.

Definition occ (k : nat) (l : list nat) : Z := Z.of_nat (length (filter (fun h => h = k) l)).

Lemma occ_app k l l' : occ k (l ++ l') = occ k l + occ k l'.
Proof. unfold occ. rewrite filter_app, length_app. lia. Qed.

Lemma occ_perm k l l' : l ≡ₚ l' -> occ k l = occ k l'.
Proof. unfold occ. intros Hl. by rewrite Hl. Qed.

Lemma occ_cons k h l : occ k (h :: l) = (if decide (h = k) then 1 else 0) + occ k l.
Proof. unfold occ. rewrite filter_cons. destruct (decide (h = k)); cbn [length]; lia. Qed.

(** ** Reference counts in the configuration *)

(** What the invariant needs of a configuration: the types and the counts. *)
Definition counts (cm : config_mgr) : list (stream_type * Z) :=
  (fun s => (s_type s, ref_count s)) <$> stream_array cm.

Lemma counts_same i s s' cm :
  stream_array cm !! i = Some s -> s_type s' = s_type s -> ref_count s' = ref_count s ->
  counts (set_stream i s' cm) = counts cm.
Proof.
  intros Hi Ht Hc. unfold counts. cbn. rewrite list_fmap_insert, Ht, Hc. apply list_insert_id.
  by rewrite list_lookup_fmap, Hi.
Qed.

Section counts.
Context (mx : mixer) (ms : audio_masks).

Lemma counts_route i devices st : counts (apply_route mx ms i devices st).1 = counts st.1.
Proof.
  destruct st as [cm l]. unfold apply_route. destruct (stream_array cm !! i) as [s|] eqn:Hi; [|done].
  destruct (routed ms s devices) as [d|]; [|done].
  destruct (apply_paths_to_devices_l _ _ _ _ _ _ _) as [ds l1].
  destruct (apply_paths_to_devices_l _ _ _ _ _ _ _) as [ds2 l2].
  etrans; [by eapply (counts_same i s)|done].
Qed.

Lemma counts_use_case i setting name st : counts (apply_use_case mx i setting name st).2.1 = counts st.1.
Proof.
  destruct st as [cm l]. unfold apply_use_case. destruct (stream_array cm !! i) as [s|] eqn:Hi; [|done].
  destruct (apply_use_case_from _ _ _ _ _) as [[us l']|]; [|done].
  etrans; [by eapply (counts_same i s)|done].
Qed.

(** The count of one stream changes by [d]. *)
Definition counted_by (k : nat) (d : Z) (cm cm' : config_mgr) : Prop :=
  exists s, stream_array cm !! k = Some s /\
    counts cm' = <[k := (s_type s, ref_count s + d)]> (counts cm).

Lemma counts_release k st s :
  stream_array st.1 !! k = Some s -> counted_by k (-1) st.1 (release_stream mx ms (Some k) st).1.
Proof.
  destruct st as [cm l]. cbn [fst]. intros Hk. exists s. split; [done|]. unfold release_stream. rewrite Hk.
  case_test.
  - destruct (apply_paths_to_devices_l _ _ _ _ _ _ _) as [ds l1].
    destruct (apply_paths_to_global_l _ _ _ _ _) as [ds2 l2]. unfold counts. cbn.
    by rewrite list_fmap_insert.
  - unfold counts. cbn. by rewrite list_fmap_insert.
Qed.

Lemma counts_open k st :
  match open_stream_l mx k st with
  | (true, st') => counted_by k 1 st.1 st'.1
  | (false, st') => st' = st
  end.
Proof.
  destruct st as [cm l]. unfold open_stream_l. destruct (stream_array cm !! k) as [s|] eqn:Hk; [|done].
  case_test; [|done].
  assert (Hc : counted_by k 1 cm (set_stream k (set_stream_state (ref_count s + 1) (current_devices s) s) cm)).
  { exists s. split; [done|]. unfold counts. cbn. by rewrite list_fmap_insert. }
  case_test; [|done]. by destruct (apply_paths_to_global_l _ _ _ _ _) as [ds l'].
Qed.

Lemma counts_get_stream devices pcm st :
  match get_stream mx ms devices pcm st with
  | (Some k, st') => counted_by k 1 st.1 st'.1 /\
      exists s, stream_array st.1 !! k = Some s /\ s_type s = wanted_type ms devices pcm
  | (None, st') => st' = st
  end.
Proof.
  unfold get_stream.
  pose proof (get_stream_from_spec mx (length (stream_array st.1)) (wanted_type ms devices pcm) st (le_n _)) as H.
  destruct (get_stream_from _ _ _ st) as [[k|] st'].
  - destruct H as (s & _ & Hk & [Ht _] & _ & Hst). split; [|by exists s]. exists s. split; [done|].
    unfold counts. by rewrite Hst, list_fmap_insert.
  - by destruct H.
Qed.

Lemma counts_get_named name st :
  match get_named_stream mx name st with
  | (Some k, st') => counted_by k 1 st.1 st'.1
  | (None, st') => st' = st
  end.
Proof.
  unfold get_named_stream. destruct (find_named_stream st.1 name) as [k|]; [|done].
  pose proof (counts_open k st) as H. by destruct (open_stream_l mx k st) as [[] st'].
Qed.

End counts.

(** The counts cover the references [l]; exactly, if [exact] holds. *)
Definition refs_ok (exact : Prop) (l : list nat) (cm : config_mgr) : Prop :=
  Forall (fun k => is_Some (counts cm !! k)) l /\
  forall k t n, counts cm !! k = Some (t, n) -> occ k l <= n /\ (exact -> n = occ k l).

Lemma refs_ok_counts exact l cm cm' : counts cm' = counts cm -> refs_ok exact l cm -> refs_ok exact l cm'.
Proof. unfold refs_ok. by intros ->. Qed.

Lemma refs_ok_perm exact l l' cm : l ≡ₚ l' -> refs_ok exact l cm -> refs_ok exact l' cm.
Proof.
  intros Hl [H1 H2]. split; [by rewrite <- Hl|]. intros k t n Hk. rewrite <- (occ_perm k l l' Hl). by eapply H2.
Qed.

Lemma counted_lookup k d cm cm' : counted_by k d cm cm' -> exists t n,
  counts cm !! k = Some (t, n) /\ counts cm' = <[k := (t, n + d)]> (counts cm).
Proof.
  intros (s & Hs & Hc). exists (s_type s), (ref_count s). split; [|done].
  unfold counts. by rewrite list_lookup_fmap, Hs.
Qed.

Lemma refs_ok_take exact k l cm cm' : counted_by k 1 cm cm' -> refs_ok exact l cm -> refs_ok exact (k :: l) cm'.
Proof.
  intros (t & n & Hk & Hc)%counted_lookup [H1 H2]. unfold refs_ok. rewrite Hc. split.
  - apply Forall_cons. split.
    + rewrite list_lookup_insert_eq by (by eapply lookup_lt_Some). by eexists.
    + eapply Forall_impl; [exact H1|]. intros j Hj. cbn. by apply list_lookup_insert_is_Some.
  - intros j t' n'. rewrite occ_cons. intros Hj. apply list_lookup_insert_Some in Hj as [(-> & [= <- <-] & _)|[Hne Hj]].
    + destruct (H2 _ _ _ Hk). rewrite decide_True by done. split; [lia|]. intros He. specialize (H0 He). lia.
    + rewrite decide_False by done. by apply (H2 _ t').
Qed.

Lemma refs_ok_drop exact k l cm cm' : counted_by k (-1) cm cm' -> refs_ok exact (k :: l) cm -> refs_ok exact l cm'.
Proof.
  intros (t & n & Hk & Hc)%counted_lookup [H1 H2]. apply Forall_cons in H1 as [_ H1]. unfold refs_ok. rewrite Hc. split.
  - eapply Forall_impl; [exact H1|]. intros j Hj. cbn. by apply list_lookup_insert_is_Some.
  - intros j t' n' Hj. apply list_lookup_insert_Some in Hj as [(-> & [= <- <-] & _)|[Hne Hj]].
    + destruct (H2 _ _ _ Hk) as [H3 H4]. rewrite occ_cons, decide_True in * by done. split; [lia|].
      intros He. specialize (H4 He). lia.
    + destruct (H2 _ t' n' Hj) as [H3 H4]. rewrite occ_cons, decide_False in * by done. split; [lia|].
      intros He. specialize (H4 He). lia.
Qed.

(** A reference that is forgotten, where the counts need not be exact. *)
Lemma refs_ok_leak exact k l cm : (exact -> False) -> refs_ok exact (k :: l) cm -> refs_ok exact l cm.
Proof.
  intros Hn [H1 H2]. apply Forall_cons in H1 as [_ H1]. split; [done|]. intros j t n Hj.
  destruct (H2 _ _ _ Hj) as [H3 _]. rewrite occ_cons in H3. split; [|by intros ?%Hn].
  destruct (decide (k = j)); lia.
Qed.

(** ** The invariant *)

Definition at_out (id : nat) (o : option out_stream) (st : audio_hal) : audio_hal := set_outs (<[id := o]> (outs st)) st.
Definition at_in (id : nat) (i : option in_stream) (st : audio_hal) : audio_hal := set_ins (<[id := i]> (ins st)) st.
Definition logged (e : hal_event) (st : audio_hal) : audio_hal := set_hlog (hlog st ++ [e]) (next_handle st) st.
Definition opened (pcm input : bool) (card device : Z) (st : audio_hal) : audio_hal :=
  set_hlog (hlog st ++ [Open (next_handle st) pcm input card device]) (S (next_handle st)) st.

(** ** Operations on the libraries *)

Section ops.
Context (E : audio_env) (ub : Prop).

Lemma wp_emit e (Q : unit -> audio_hal -> Prop) st : Q tt (logged e st) -> wp ub (emit e) Q st.
Proof. done. Qed.

Lemma wp_put_out id o (Q : unit -> audio_hal -> Prop) st : Q tt (at_out id o st) -> wp ub (put_out id o) Q st.
Proof. done. Qed.

Lemma wp_put_in id i (Q : unit -> audio_hal -> Prop) st : Q tt (at_in id i st) -> wp ub (put_in id i) Q st.
Proof. done. Qed.

Lemma wp_do_use h u (Q : Z -> audio_hal -> Prop) st : (forall r, Q r (logged (Use h u) st)) -> wp ub (do_use E h u) Q st.
Proof. intros HQ. unfold do_use, result. wps. apply awp_bind, wp_emit. wps. apply HQ. Qed.

Lemma wp_open_handle b1 b2 s (Q : nat -> audio_hal -> Prop) st :
  Q (next_handle st) (opened b1 b2 (card_number s) (device_number s) st) -> wp ub (open_handle b1 b2 s) Q st.
Proof. done. Qed.

Lemma wp_is_ready (Q : bool -> audio_hal -> Prop) st : (forall b, Q b st) -> wp ub (is_ready E) Q st.
Proof. intros HQ. unfold is_ready. wps. apply HQ. Qed.

Lemma wp_now (Q : Z -> audio_hal -> Prop) st : (forall t, Q t st) -> wp ub (now E) Q st.
Proof. intros HQ. unfold now. wps. apply HQ. Qed.

End ops.

(** Steps through operations on the libraries too. *)
Ltac wpt :=
  cbn [negb Z.eqb Z.ltb Z.compare Z.opp EBUSY ENOMEM EINVAL]; wps; repeat (lazymatch goal with
  | |- wp _ (mbind _ (emit _)) _ _ => apply awp_bind, wp_emit
  | |- wp _ (emit _) _ _ => apply wp_emit
  | |- wp _ (mbind _ (put_out _ _)) _ _ => apply awp_bind, wp_put_out
  | |- wp _ (put_out _ _) _ _ => apply wp_put_out
  | |- wp _ (mbind _ (put_in _ _)) _ _ => apply awp_bind, wp_put_in
  | |- wp _ (put_in _ _) _ _ => apply wp_put_in
  | |- wp _ (mbind _ (do_use _ _ _)) _ _ => apply awp_bind, wp_do_use; let r := fresh "r" in intros r
  | |- wp _ (do_use _ _ _) _ _ => apply wp_do_use; let r := fresh "r" in intros r
  | |- wp _ (mbind _ (open_handle _ _ _)) _ _ => apply awp_bind, wp_open_handle
  | |- wp _ (mbind _ (is_ready _)) _ _ => apply awp_bind, wp_is_ready; let b := fresh "b" in intros b
  | |- wp _ (mbind _ (now _)) _ _ => apply awp_bind, wp_now; let t := fresh "t" in intros t
  end; wps); cbn [negb Z.eqb Z.ltb Z.compare Z.opp EBUSY ENOMEM EINVAL].

(** ** What the invariant says of a stream *)

Definition out_ok (cm : config_mgr) (o : out_stream) : Prop :=
  exists t n, counts cm !! o_hw o = Some (t, n) /\
    (t = out_pcm -> is_Some (o_handle o) <-> o_standby o = false) /\
    (t <> out_pcm -> started (o_offload o) = true -> is_Some (o_handle o)).

Section inv.
(** Whether the counts are exact, and whether the calls may crash. *)
Context (exact ub : Prop).

Record in_ok (i : in_stream) : Prop := {
  in_open : is_Some (i_handle i) <-> i_standby i = false;
  in_source : i_standby i = false -> is_Some (i_hw i);
  in_divisors : ub \/ (frame_size (i_params i) <> 0 /\
                  wrap_u32 (frame_size (i_params i) * sample_rate (i_params i)) <> 0) }.

Definition not_trigger (s : voice_state) : Prop :=
  s <> eVoiceTriggerIdle /\ s <> eVoiceTriggerArmed /\ s <> eVoiceTriggerFired.

Definition logged_ok (l : hal_log) (next : nat) (hs : list nat) : Prop :=
  exists L, live [] l = Some L /\ NoDup L /\ L ≡ₚ hs /\ Forall (fun h => h < next)%nat L.

(** [x] is what the running call has taken and not stored. *)
Record hal_inv (x : list nat) (st : audio_hal) : Prop := {
  hi_live : logged_ok (hlog st) (next_handle st) (stream_handles st);
  hi_refs : refs_ok exact (x ++ held st) (cfg st).1;
  hi_types : ub \/ Forall (fun p => p.1 <> in_compress) (counts (cfg st).1);
  hi_outs : forall id o, outs st !! id = Some (Some o) -> out_ok (cfg st).1 o;
  hi_ins : forall id i, ins st !! id = Some (Some i) -> in_ok i;
  hi_exact : exact -> Forall (fun p => p.1 <> out_compress) (counts (cfg st).1) /\
                      not_trigger (voice_st (adev st)) }.

Lemma logged_ok_perm l n hs hs' : hs ≡ₚ hs' -> logged_ok l n hs -> logged_ok l n hs'.
Proof. intros Hh (L & H1 & H2 & H3 & H4). exists L. split_and!; [done|done|by rewrite H3|done]. Qed.

Lemma logged_ok_use l n hs h u : h ∈ hs -> logged_ok l n hs -> logged_ok (l ++ [Use h u]) n hs.
Proof.
  intros Hin (L & H1 & H2 & H3 & H4). exists L. rewrite live_snoc, H1. cbn.
  by rewrite decide_True by (by rewrite H3).
Qed.

Lemma logged_ok_sleep l n hs ns : logged_ok l n hs -> logged_ok (l ++ [Sleep ns]) n hs.
Proof. intros (L & H1 & H). exists L. by rewrite live_snoc, H1. Qed.

Lemma logged_ok_open l n hs b1 b2 c d :
  logged_ok l n hs -> logged_ok (l ++ [Open n b1 b2 c d]) (S n) (n :: hs).
Proof.
  intros (L & H1 & H2 & H3 & H4). exists (n :: L). rewrite live_snoc, H1. cbn.
  assert (Hn : n ∉ L). { intros Hin. rewrite Forall_forall in H4. specialize (H4 _ Hin). lia. }
  rewrite decide_False by done. split_and!; [done|by constructor|by rewrite H3|].
  constructor; [lia|]. eapply Forall_impl; [exact H4|]. cbn. lia.
Qed.

Lemma filter_out (h : nat) (L : list nat) : h ∉ L -> filter (fun k => k <> h) L = L.
Proof.
  induction L as [|k L IH]; intros Hn; [done|]. apply not_elem_of_cons in Hn as [Hk Hn].
  rewrite filter_cons_True by done. by rewrite IH.
Qed.

Lemma logged_ok_close l n hs h : logged_ok l n (h :: hs) -> logged_ok (l ++ [Close h]) n hs.
Proof.
  intros (L & H1 & H2 & H3 & H4). exists (filter (fun k => k <> h) L). rewrite live_snoc, H1. cbn.
  rewrite decide_True by (rewrite H3; by left). rewrite H3 in H2.
  apply NoDup_cons in H2 as [Hn H2].
  assert (Hp : filter (fun k => k <> h) L ≡ₚ hs).
  { rewrite H3, filter_cons_False by (intros Hf; by apply Hf). by rewrite filter_out. }
  split_and!; [done|by rewrite Hp|done|]. rewrite Hp. rewrite H3 in H4. by apply Forall_cons in H4 as [_ ?].
Qed.

(** Replacing an output stream. *)
Lemma handles_out id o o' st :
  outs st !! id = Some o ->
  option_list (o ≫= o_handle) ++ stream_handles (at_out id o' st) ≡ₚ option_list (o' ≫= o_handle) ++ stream_handles st.
Proof.
  intros Hid. unfold stream_handles. cbn. rewrite !app_assoc.
  by rewrite (omap_insert_perm (fun o => o ≫= o_handle) (outs st) id o o' Hid).
Qed.

Lemma held_out id o o' st :
  outs st !! id = Some o ->
  option_list (o_hw <$> o) ++ held (at_out id o' st) ≡ₚ option_list (o_hw <$> o') ++ held st.
Proof.
  intros Hid. unfold held. cbn. rewrite !(app_assoc (option_list _)).
  by rewrite (omap_insert_perm (fun o => o_hw <$> o) (outs st) id o o' Hid).
Qed.

Lemma handles_in id i i' st :
  ins st !! id = Some i ->
  option_list (i ≫= i_handle) ++ stream_handles (at_in id i' st) ≡ₚ option_list (i' ≫= i_handle) ++ stream_handles st.
Proof.
  intros Hid. unfold stream_handles. cbn. rewrite !(Permutation_app_comm (omap _ (outs st))), !app_assoc.
  by rewrite (omap_insert_perm (fun i => i ≫= i_handle) (ins st) id i i' Hid).
Qed.

Lemma held_in id i i' st :
  ins st !! id = Some i ->
  option_list (i ≫= i_hw) ++ held (at_in id i' st) ≡ₚ option_list (i' ≫= i_hw) ++ held st.
Proof.
  intros Hid. unfold held. cbn. set (D := dev_held (adev st)). set (O := omap _ (outs st)).
  rewrite !(Permutation_app_comm O), !app_assoc.
  by rewrite (omap_insert_perm (fun i => i ≫= i_hw) (ins st) id i i' Hid).
Qed.

(** ** Steps that keep the invariant *)

Lemma inv_use x st h u : h ∈ stream_handles st -> hal_inv x st -> hal_inv x (logged (Use h u) st).
Proof. intros Hh []. split; try done. by apply logged_ok_use. Qed.

Lemma inv_sleep x st ns : hal_inv x st -> hal_inv x (logged (Sleep ns) st).
Proof. intros []. split; try done. by apply logged_ok_sleep. Qed.

(** A handle that was not ready is closed at once. *)
Lemma inv_open_failed x st b1 b2 c d :
  hal_inv x st -> hal_inv x (logged (Close (next_handle st)) (opened b1 b2 c d st)).
Proof. intros []. split; try done. by apply logged_ok_close, logged_ok_open. Qed.

Lemma inv_open_used_failed x st b1 b2 c d u :
  hal_inv x st -> hal_inv x (logged (Close (next_handle st)) (logged (Use (next_handle st) u) (opened b1 b2 c d st))).
Proof.
  intros []. split; try done. apply logged_ok_close, logged_ok_use; [by left|]. by apply logged_ok_open.
Qed.

Lemma lookup_at_out id o st k o' :
  outs (at_out id o st) !! k = Some (Some o') -> (k = id /\ o = Some o') \/ outs st !! k = Some (Some o').
Proof. cbn. intros [(-> & -> & _)|[_ ?]]%list_lookup_insert_Some; auto. Qed.

Lemma lookup_at_in id i st k i' :
  ins (at_in id i st) !! k = Some (Some i') -> (k = id /\ i = Some i') \/ ins st !! k = Some (Some i').
Proof. cbn. intros [(-> & -> & _)|[_ ?]]%list_lookup_insert_Some; auto. Qed.

(** What an output stream may turn into: with the same handle, a new one, or none. *)
Lemma inv_out x st id o o' :
  outs st !! id = Some (Some o) -> o_hw o' = o_hw o -> o_handle o' = o_handle o ->
  out_ok (cfg st).1 o' -> hal_inv x st -> hal_inv x (at_out id (Some o') st).
Proof.
  intros Hid Hhw Hh Ho []. split; try done.
  - eapply logged_ok_perm; [|exact hi_live0]. pose proof (handles_out id (Some o) (Some o') st Hid) as Hp.
    cbn in Hp. rewrite Hh in Hp. by apply Permutation_app_inv_l in Hp.
  - eapply refs_ok_perm; [|exact hi_refs0]. pose proof (held_out id (Some o) (Some o') st Hid) as Hp.
    cbn in Hp. rewrite Hhw in Hp. apply Permutation_cons_inv in Hp. cbn. by rewrite Hp.
  - intros k p [[-> [= <-]]|Hk]%lookup_at_out; [done|by eapply hi_outs0].
Qed.

Lemma inv_out_open x st id o o' b1 b2 c d :
  outs st !! id = Some (Some o) -> o_hw o' = o_hw o -> o_handle o = None -> o_handle o' = Some (next_handle st) ->
  out_ok (cfg st).1 o' -> hal_inv x st -> hal_inv x (at_out id (Some o') (opened b1 b2 c d st)).
Proof.
  intros Hid Hhw Hn Hh Ho []. split; try done.
  - cbn. eapply logged_ok_perm; [|by apply logged_ok_open].
    pose proof (handles_out id (Some o) (Some o') st Hid) as Hp. cbn in Hp. by rewrite Hn, Hh in Hp.
  - eapply refs_ok_perm; [|exact hi_refs0]. pose proof (held_out id (Some o) (Some o') st Hid) as Hp.
    cbn in Hp. rewrite Hhw in Hp. apply Permutation_cons_inv in Hp. cbn. by rewrite Hp.
  - intros k p [[-> [= <-]]|Hk]%lookup_at_out; [done|by eapply hi_outs0].
Qed.

Lemma inv_out_close x st id o o' h :
  outs st !! id = Some (Some o) -> o_hw o' = o_hw o -> o_handle o = Some h -> o_handle o' = None ->
  out_ok (cfg st).1 o' -> hal_inv x st -> hal_inv x (at_out id (Some o') (logged (Close h) st)).
Proof.
  intros Hid Hhw Hh Hn Ho []. split; try done.
  - cbn. apply logged_ok_close. eapply logged_ok_perm; [|exact hi_live0].
    pose proof (handles_out id (Some o) (Some o') st Hid) as Hp. cbn in Hp. by rewrite Hn, Hh in Hp.
  - eapply refs_ok_perm; [|exact hi_refs0]. pose proof (held_out id (Some o) (Some o') st Hid) as Hp.
    cbn in Hp. rewrite Hhw in Hp. apply Permutation_cons_inv in Hp. cbn. by rewrite Hp.
  - intros k p [[-> [= <-]]|Hk]%lookup_at_out; [done|by eapply hi_outs0].
Qed.

(** Input streams; what they use may change too. *)
Lemma inv_in x st id i i' :
  ins st !! id = Some (Some i) -> i_handle i' = i_handle i -> in_ok i' ->
  hal_inv (option_list (i_hw i') ++ x) st -> hal_inv (option_list (i_hw i) ++ x) (at_in id (Some i') st).
Proof.
  intros Hid Hh Ho []. split; try done.
  - eapply logged_ok_perm; [|exact hi_live0]. pose proof (handles_in id (Some i) (Some i') st Hid) as Hp.
    cbn in Hp. rewrite Hh in Hp. by apply Permutation_app_inv_l in Hp.
  - eapply refs_ok_perm; [|exact hi_refs0]. pose proof (held_in id (Some i) (Some i') st Hid) as Hp. cbn in Hp |- *.
    rewrite !(Permutation_app_comm (option_list _)), <- !app_assoc. by rewrite Hp.
  - intros k p [[-> [= <-]]|Hk]%lookup_at_in; [done|by eapply hi_ins0].
Qed.

Lemma inv_in_same x st id i i' :
  ins st !! id = Some (Some i) -> i_hw i' = i_hw i -> i_handle i' = i_handle i -> in_ok i' ->
  hal_inv x st -> hal_inv x (at_in id (Some i') st).
Proof.
  intros Hid Hhw Hh Ho []. split; try done.
  - eapply logged_ok_perm; [|exact hi_live0]. pose proof (handles_in id (Some i) (Some i') st Hid) as Hp.
    cbn in Hp. rewrite Hh in Hp. by apply Permutation_app_inv_l in Hp.
  - eapply refs_ok_perm; [|exact hi_refs0]. pose proof (held_in id (Some i) (Some i') st Hid) as Hp.
    cbn in Hp. rewrite Hhw in Hp. apply Permutation_app_inv_l in Hp. cbn. by rewrite Hp.
  - intros k p [[-> [= <-]]|Hk]%lookup_at_in; [done|by eapply hi_ins0].
Qed.

Lemma inv_in_open x st id i i' b1 b2 c d :
  ins st !! id = Some (Some i) -> i_hw i' = i_hw i -> i_handle i = None -> i_handle i' = Some (next_handle st) ->
  in_ok i' -> hal_inv x st -> hal_inv x (at_in id (Some i') (opened b1 b2 c d st)).
Proof.
  intros Hid Hhw Hn Hh Ho []. split; try done.
  - cbn. eapply logged_ok_perm; [|by apply logged_ok_open].
    pose proof (handles_in id (Some i) (Some i') st Hid) as Hp. cbn in Hp. by rewrite Hn, Hh in Hp.
  - eapply refs_ok_perm; [|exact hi_refs0]. pose proof (held_in id (Some i) (Some i') st Hid) as Hp.
    cbn in Hp. rewrite Hhw in Hp. apply Permutation_app_inv_l in Hp. cbn. by rewrite Hp.
  - intros k p [[-> [= <-]]|Hk]%lookup_at_in; [done|by eapply hi_ins0].
Qed.

Lemma inv_in_close x st id i i' h :
  ins st !! id = Some (Some i) -> i_hw i' = i_hw i -> i_handle i = Some h -> i_handle i' = None ->
  in_ok i' -> hal_inv x st -> hal_inv x (at_in id (Some i') (logged (Close h) st)).
Proof.
  intros Hid Hhw Hh Hn Ho []. split; try done.
  - cbn. apply logged_ok_close. eapply logged_ok_perm; [|exact hi_live0].
    pose proof (handles_in id (Some i) (Some i') st Hid) as Hp. cbn in Hp. by rewrite Hn, Hh in Hp.
  - eapply refs_ok_perm; [|exact hi_refs0]. pose proof (held_in id (Some i) (Some i') st Hid) as Hp.
    cbn in Hp. rewrite Hhw in Hp. apply Permutation_app_inv_l in Hp. cbn. by rewrite Hp.
  - intros k p [[-> [= <-]]|Hk]%lookup_at_in; [done|by eapply hi_ins0].
Qed.

(** Streams that come and go. *)
Lemma inv_out_remove x st id o :
  outs st !! id = Some (Some o) -> o_handle o = None -> hal_inv x st -> hal_inv (o_hw o :: x) (at_out id None st).
Proof.
  intros Hid Hn []. split; try done.
  - eapply logged_ok_perm; [|exact hi_live0]. pose proof (handles_out id (Some o) None st Hid) as Hp.
    cbn in Hp. by rewrite Hn in Hp.
  - eapply refs_ok_perm; [|exact hi_refs0]. pose proof (held_out id (Some o) None st Hid) as Hp. cbn in Hp |- *.
    by rewrite Permutation_middle, Hp.
  - intros k p [[-> [=]]|Hk]%lookup_at_out; by eapply hi_outs0.
Qed.

Lemma inv_in_remove x st id i :
  ins st !! id = Some (Some i) -> i_handle i = None -> hal_inv x st ->
  hal_inv (option_list (i_hw i) ++ x) (at_in id None st).
Proof.
  intros Hid Hn []. split; try done.
  - eapply logged_ok_perm; [|exact hi_live0]. pose proof (handles_in id (Some i) None st Hid) as Hp.
    cbn in Hp. by rewrite Hn in Hp.
  - eapply refs_ok_perm; [|exact hi_refs0]. pose proof (held_in id (Some i) None st Hid) as Hp. cbn in Hp |- *.
    by rewrite (Permutation_app_comm (option_list _)), <- app_assoc, Hp.
  - intros k p [[-> [=]]|Hk]%lookup_at_in; by eapply hi_ins0.
Qed.

Lemma lookup_snoc_last {A} (l : list A) (y : A) k z : (l ++ [y]) !! k = Some z -> l !! k = Some z \/ z = y.
Proof.
  intros [?|[_ Hk]]%lookup_app_Some; [by left|]. right. apply list_elem_of_singleton.
  by eapply list_elem_of_lookup_2.
Qed.

Lemma inv_out_append x st o :
  o_handle o = None -> out_ok (cfg st).1 o -> hal_inv (o_hw o :: x) st ->
  hal_inv x (set_outs (outs st ++ [Some o]) st).
Proof.
  intros Hn Ho []. split; try done.
  - eapply logged_ok_perm; [|exact hi_live0]. unfold stream_handles. cbn. rewrite omap_app. cbn. by rewrite Hn, app_nil_r.
  - eapply refs_ok_perm; [|exact hi_refs0]. unfold held. cbn. rewrite omap_app. cbn.
    rewrite <- !app_assoc. cbn. rewrite <- (Permutation_middle (omap _ (outs st))). by rewrite <- Permutation_middle.
  - intros k p [Hk|[= <-]]%lookup_snoc_last; [by eapply hi_outs0|done].
Qed.

Lemma inv_out_append_open x st o b1 b2 c d :
  o_handle o = Some (next_handle st) -> out_ok (cfg st).1 o -> hal_inv (o_hw o :: x) st ->
  hal_inv x (set_outs (outs st ++ [Some o]) (opened b1 b2 c d st)).
Proof.
  intros Hh Ho []. split; try done.
  - eapply logged_ok_perm; [|by apply logged_ok_open]. unfold stream_handles. cbn. rewrite omap_app. cbn. rewrite Hh.
    rewrite <- app_assoc. cbn. by rewrite <- Permutation_middle.
  - eapply refs_ok_perm; [|exact hi_refs0]. unfold held. cbn. rewrite omap_app. cbn.
    rewrite <- !app_assoc. cbn. rewrite <- (Permutation_middle (omap _ (outs st))). by rewrite <- Permutation_middle.
  - intros k p [Hk|[= <-]]%lookup_snoc_last; [by eapply hi_outs0|done].
Qed.

Lemma inv_in_append x st i :
  i_handle i = None -> i_hw i = None -> in_ok i -> hal_inv x st -> hal_inv x (set_ins (ins st ++ [Some i]) st).
Proof.
  intros Hn Hhw Ho []. split; try done.
  - eapply logged_ok_perm; [|exact hi_live0]. unfold stream_handles. cbn. rewrite omap_app. cbn. by rewrite Hn, app_nil_r.
  - eapply refs_ok_perm; [|exact hi_refs0]. unfold held. cbn. rewrite omap_app. cbn. by rewrite Hhw, app_nil_r.
  - intros k p [Hk|[= <-]]%lookup_snoc_last; [by eapply hi_ins0|done].
Qed.

(** The configuration and the device. *)
Lemma out_ok_counts cm cm' o : counts cm' = counts cm -> out_ok cm o -> out_ok cm' o.
Proof. unfold out_ok. by intros ->. Qed.

Lemma out_ok_counted k d cm cm' o : counted_by k d cm cm' -> out_ok cm o -> out_ok cm' o.
Proof.
  intros (t & n & Hk & Hc)%counted_lookup (t' & n' & Ho & H). unfold out_ok. rewrite Hc.
  destruct (decide (k = o_hw o)) as [->|Hne].
  - rewrite list_lookup_insert_eq by (by eapply lookup_lt_Some). simplify_eq. by eexists _, _.
  - rewrite list_lookup_insert_ne by done. by exists t', n'.
Qed.

Lemma types_counted {B} (g : stream_type -> B) k d cm cm' (Q : B -> Prop) :
  counted_by k d cm cm' -> Forall (fun p => Q (g p.1)) (counts cm) -> Forall (fun p => Q (g p.1)) (counts cm').
Proof.
  intros (t & n & Hk & ->)%counted_lookup Hf. apply Forall_insert; [done|]. cbn.
  by apply (Forall_lookup_1 _ _ _ _ Hf Hk).
Qed.

Lemma inv_cfg x st c : counts c.1 = counts (cfg st).1 -> hal_inv x st -> hal_inv x (set_cfg c st).
Proof.
  intros Hc []. split; cbn; try done.
  - by eapply refs_ok_counts.
  - by rewrite Hc.
  - intros id o Ho. by eapply out_ok_counts, hi_outs0.
  - by rewrite Hc.
Qed.

Lemma inv_take x st k c : counted_by k 1 (cfg st).1 c.1 -> hal_inv x st -> hal_inv (k :: x) (set_cfg c st).
Proof.
  intros Hc []. split; cbn; try done.
  - by eapply refs_ok_take.
  - destruct hi_types0 as [|]; [by left|right]. by eapply (types_counted (fun t => t) k _ _ _ (fun t => t <> in_compress)).
  - intros id o Ho. by eapply out_ok_counted, hi_outs0.
  - intros He. destruct (hi_exact0 He) as [H1 H2]. split; [|done].
    by eapply (types_counted (fun t => t) k _ _ _ (fun t => t <> out_compress)).
Qed.

Lemma inv_give x st k c : counted_by k (-1) (cfg st).1 c.1 -> hal_inv (k :: x) st -> hal_inv x (set_cfg c st).
Proof.
  intros Hc []. split; cbn; try done.
  - by eapply refs_ok_drop.
  - destruct hi_types0 as [|]; [by left|right]. by eapply (types_counted (fun t => t) k _ _ _ (fun t => t <> in_compress)).
  - intros id o Ho. by eapply out_ok_counted, hi_outs0.
  - intros He. destruct (hi_exact0 He) as [H1 H2]. split; [|done].
    by eapply (types_counted (fun t => t) k _ _ _ (fun t => t <> out_compress)).
Qed.

Lemma inv_leak x st k : (exact -> False) -> hal_inv (k :: x) st -> hal_inv x st.
Proof. intros Hn []. split; try done. by eapply refs_ok_leak. Qed.

Lemma held_adev st d : dev_held d = dev_held (adev st) -> held (set_adev d st) = held st.
Proof. unfold held. by intros <-. Qed.

Lemma inv_adev x st d :
  dev_held d = dev_held (adev st) -> (not_trigger (voice_st (adev st)) -> not_trigger (voice_st d)) ->
  hal_inv x st -> hal_inv x (set_adev d st).
Proof.
  intros Hd Hv []. split; try done.
  - by rewrite (held_adev st d Hd).
  - intros He. destruct (hi_exact0 He). split; [done|]. by apply Hv.
Qed.

End inv.
