(* ===== verification/AudioCalls.v ===== *)
(** * The audio HAL's calls keep what is held ([audio/audio_hw.c])

    Every call of [AudioHal] preserves the invariant of [AudioHandles], and the theorems
    this gives. *)

From S2P Require Import Prelude.
From S2P Require Import CString.
From S2P Require Import AudioRouting.
From S2P Require Import AudioHal.
From S2P Require Import AudioHandles.

Section calls.
Context (mx : mixer) (P : audio_platform) (E : audio_env).
Context (exact ub : Prop) (Hmasks : Z.land (OUT_ALL (masks P)) (BIT_IN (masks P)) = 0).

#[local] Abbreviation inv := (hal_inv exact ub).
#[local] Abbreviation wpu := (wp ub).

(** ** The configuration manager *)

Lemma counts_info cm k t n :
  counts cm !! k = Some (t, n) -> exists s, stream_array cm !! k = Some s /\ s_type s = t /\ ref_count s = n.
Proof.
  unfold counts. rewrite list_lookup_fmap. destruct (stream_array cm !! k) as [s|]; [|done].
  intros [= <- <-]. by exists s.
Qed.

Lemma counts_valid cm cm' k :
  counts cm' = counts cm -> is_Some (stream_array cm !! k) -> is_Some (stream_array cm' !! k).
Proof.
  intros Hc Hk. apply (fmap_is_Some (fun s => (s_type s, ref_count s))).
  apply (fmap_is_Some (fun s => (s_type s, ref_count s))) in Hk. rewrite <- list_lookup_fmap in Hk |- *.
  unfold counts in Hc. by rewrite Hc.
Qed.

Lemma held_info x st k :
  inv x st -> k ∈ x ++ held st -> exists s, stream_array (cfg st).1 !! k = Some s.
Proof.
  intros [_ [Hf _] _ _ _ _] Hk. rewrite Forall_forall in Hf. destruct (Hf _ Hk) as [[t n] Hc].
  apply counts_info in Hc as (s & Hs & _). by exists s.
Qed.

Lemma wp_route k devices (Q : unit -> audio_hal -> Prop) st :
  (forall c, counts c.1 = counts (cfg st).1 -> Q tt (set_cfg c st)) -> wpu (cm_apply_route mx P k devices) Q st.
Proof. intros HQ. apply wp_amodify, HQ, counts_route. Qed.

Lemma wp_use_case k a b (Q : Z -> audio_hal -> Prop) st :
  (forall r c, counts c.1 = counts (cfg st).1 -> Q r (set_cfg c st)) -> wpu (cm_apply_use_case mx k a b) Q st.
Proof. intros HQ. apply wp_config_ask, HQ, counts_use_case. Qed.

Lemma wp_release k (Q : unit -> audio_hal -> Prop) st :
  is_Some (stream_array (cfg st).1 !! k) ->
  (forall c, counted_by k (-1) (cfg st).1 c.1 -> Q tt (set_cfg c st)) -> wpu (cm_release_stream mx P k) Q st.
Proof. intros [s Hs] HQ. apply wp_amodify, HQ. by eapply counts_release. Qed.

Lemma wp_named name (Q : option nat -> audio_hal -> Prop) st :
  Q None st -> (forall k c, counted_by k 1 (cfg st).1 c.1 -> Q (Some k) (set_cfg c st)) ->
  wpu (cm_get_named_stream mx name) Q st.
Proof.
  intros H1 H2. apply wp_config_ask. pose proof (counts_get_named mx name (cfg st)) as H.
  destruct (get_named_stream mx name (cfg st)) as [[k|] c]; cbn; [by apply H2|]. subst c. by destruct st.
Qed.

Lemma wp_get_stream devices c (Q : option nat -> audio_hal -> Prop) st :
  Q None st ->
  (forall k s c', counted_by k 1 (cfg st).1 c'.1 -> stream_array (cfg st).1 !! k = Some s ->
     s_type s = wanted_type (masks P) devices (is_linear_pcm P (format_rq c)) -> Q (Some k) (set_cfg c' st)) ->
  wpu (cm_get_stream mx P devices c) Q st.
Proof.
  intros H1 H2. apply wp_config_ask.
  pose proof (counts_get_stream mx (masks P) devices (is_linear_pcm P (format_rq c)) (cfg st)) as H.
  destruct (get_stream mx (masks P) devices _ (cfg st)) as [[k|] c']; cbn.
  - destruct H as [H (s & Hs & Ht)]. by eapply H2.
  - subst c'. by destruct st.
Qed.

(** Use cases change nothing that is held. *)
Lemma wp_invoke hw kv (Q : Z -> audio_hal -> Prop) st :
  (forall r c, counts c.1 = counts (cfg st).1 -> Q r (set_cfg c st)) ->
  wpu (stream_invoke_usecases mx hw kv) Q st.
Proof.
  assert (Hsame : forall st, set_cfg (cfg st) st = st) by (by intros []).
  intros HQ. destruct hw as [hw|]; cbn; [|rewrite <- (Hsame st); by apply awp_ret, HQ].
  assert (Hgen : forall ps r st, (forall r c, counts c.1 = counts (cfg st).1 -> Q r (set_cfg c st)) ->
    wpu (invoke_settings mx hw ps r) Q st).
  { clear st HQ. induction ps as [|p ps IH]; intros r st HQ; cbn [invoke_settings].
    - rewrite <- (Hsame st). by apply awp_ret, HQ.
    - unfold invoke_setting. destruct (strchr _ p) as [[name value]|]; wps; [|by apply IH].
      case_bool_decide; wps; [by apply IH|]. apply awp_bind. eapply wp_use_case. intros r' c Hc. wps.
      apply IH. intros r2 c2 Hc2. apply HQ. cbn in Hc2. by rewrite Hc2. }
  by apply Hgen.
Qed.

(** ** The device *)

Lemma inv_adev_drop x l st d :
  dev_held (adev st) ≡ₚ l ++ dev_held d -> (not_trigger (voice_st (adev st)) -> not_trigger (voice_st d)) ->
  inv x st -> inv (l ++ x) (set_adev d st).
Proof.
  intros Hd Hv []. split; try done.
  - eapply refs_ok_perm; [|exact hi_refs]. unfold held. cbn. rewrite Hd. solve_Permutation.
  - intros He. destruct (hi_exact He). split; [done|]. by apply Hv.
Qed.

Lemma inv_adev_store x l st d :
  dev_held d ≡ₚ l ++ dev_held (adev st) -> (not_trigger (voice_st (adev st)) -> not_trigger (voice_st d)) ->
  inv (l ++ x) st -> inv x (set_adev d st).
Proof.
  intros Hd Hv []. split; try done.
  - eapply refs_ok_perm; [|exact hi_refs]. unfold held. cbn. rewrite Hd. solve_Permutation.
  - intros He. destruct (hi_exact He). split; [done|]. by apply Hv.
Qed.

(** The device's own fields, its pointer to the voice stream and the state apart. *)
Definition same_voice (d d' : audio_device) : Prop :=
  global_stream d' = global_stream d /\ voice_trig_stream d' = voice_trig_stream d /\ voice_st d' = voice_st d.

Lemma inv_adev_same x st d : same_voice (adev st) d -> inv x st -> inv x (set_adev d st).
Proof.
  intros (H1 & H2 & H3). apply inv_adev; [|by rewrite H3]. unfold dev_held. by rewrite H1, H2, H3.
Qed.

(** A state that is not of the trigger-only mode leads to another. *)
Ltac not_trigger_tac := unfold not_trigger; intros (? & ? & ?); done.

(** Moving between states that both have the stream open, or both not. *)
Lemma inv_to_voice x st s :
  voice_open s = voice_open (voice_st (adev st)) -> (not_trigger (voice_st (adev st)) -> not_trigger s) ->
  inv x st -> inv x (set_adev (set_voice s (adev st)) st).
Proof. intros Ho Hv. apply inv_adev; [|done]. unfold dev_held. cbn. by rewrite Ho. Qed.

Lemma wp_voice_close x st s (Q : unit -> audio_hal -> Prop) :
  voice_open (voice_st (adev st)) = true -> voice_open s = false ->
  (not_trigger (voice_st (adev st)) -> not_trigger s) -> inv x st ->
  (forall st', inv x st' -> outs st' = outs st -> ins st' = ins st -> Q tt st') ->
  wpu (do_voice_trigger_close_stream mx P;; to_voice s) Q st.
Proof.
  intros Hopen Hs Hv Hinv HQ.
  assert (Hd : inv (option_list (voice_trig_stream (adev st)) ++ x) (set_adev (set_voice s (adev st)) st)).
  { apply inv_adev_drop; [|done|done]. unfold dev_held. cbn. rewrite Hopen, Hs. solve_Permutation. }
  unfold do_voice_trigger_close_stream, to_voice, modify_adev. wps.
  destruct (voice_trig_stream (adev st)) as [k|] eqn:Hk; wps; [|by apply HQ].
  destruct (held_info _ _ k Hd) as [hw Hhw]; [set_solver|].
  apply awp_bind, wp_route. intros c Hc. apply wp_release.
  { eapply counts_valid; [exact Hc|]. by eexists. }
  intros c2 Hc2. wps. apply HQ; [|done|done].
  exact (inv_give _ _ _ (set_cfg c (set_adev (set_voice s (adev st)) st)) k c2 Hc2
    (inv_cfg _ _ _ (set_adev (set_voice s (adev st)) st) c Hc Hd)).
Qed.

Lemma set_voice_same st : set_adev (set_voice (voice_st (adev st)) (adev st)) st = st.
Proof. by destruct st as [[] ? ? ? ? ?]. Qed.

(** The state before is as good as [s0]. *)
Lemma wp_voice_open x st name s0 s (Q : unit -> audio_hal -> Prop) :
  voice_open s0 = false -> voice_open s = true -> (not_trigger s0 -> not_trigger s) ->
  inv x (set_adev (set_voice s0 (adev st)) st) ->
  (forall st', inv x st' -> outs st' = outs st -> ins st' = ins st -> Q tt st') ->
  wpu (do_voice_trigger_open_stream mx P name;; to_voice s) Q st.
Proof.
  intros Hopen Hs Hv Hinv HQ. unfold do_voice_trigger_open_stream, to_voice, modify_adev. wps. apply awp_bind, wp_named.
  - wps. apply HQ; [|done|done].
    refine (inv_adev_store x [] (set_adev (set_voice s0 (adev st)) st)
      (set_voice s (set_voice_stream None (adev st))) _ Hv Hinv).
    unfold dev_held. cbn. rewrite Hopen, Hs. solve_Permutation.
  - intros k c Hc. wps. apply wp_route. intros c2 Hc2. wps. apply HQ; [|done|done].
    set (st0 := set_adev (set_voice s0 (adev st)) st) in *.
    refine (inv_adev_store x [k] (set_cfg c2 (set_cfg c st0)) (set_voice s (set_voice_stream (Some k) (adev st))) _ Hv
      (inv_cfg _ _ _ (set_cfg c st0) c2 Hc2 (inv_take _ _ _ st0 k c Hc Hinv))).
    unfold dev_held. cbn. rewrite Hopen, Hs. solve_Permutation.
Qed.

Lemma voice_open_after_fired x st :
  voice_st (adev st) = eVoiceTriggerFired -> inv x st ->
  inv x (set_adev (set_voice eVoiceTriggerIdle (adev st)) st).
Proof.
  intros Hs Hinv. assert (Hn : exact -> False).
  { intros He. destruct (hi_exact _ _ _ _ Hinv He) as [_ (_ & _ & H)]. done. }
  assert (Hd : inv (option_list (voice_trig_stream (adev st)) ++ x)
    (set_adev (set_voice eVoiceTriggerIdle (adev st)) st)).
  { apply inv_adev_drop; [|by rewrite Hs; intros (_ & _ & ?)|done]. unfold dev_held. cbn. rewrite Hs. cbn.
    solve_Permutation. }
  destruct (voice_trig_stream (adev st)) as [k|]; [|done]. exact (inv_leak _ _ _ _ k Hn Hd).
Qed.

Lemma wp_enable x st (Q : unit -> audio_hal -> Prop) :
  inv x st -> (forall st', inv x st' -> outs st' = outs st -> ins st' = ins st -> Q tt st') ->
  wpu (voice_trigger_enable mx P) Q st.
Proof.
  intros Hinv HQ. unfold voice_trigger_enable. wps. pose proof (set_voice_same st) as Hsame.
  destruct (voice_st (adev st)) eqn:Hs; wps; try (by apply HQ).
  - eapply (wp_voice_open x st _ eVoiceTriggerIdle); [done|done|by intros [? _]|by rewrite Hsame|exact HQ].
  - eapply (wp_voice_open x st _ eVoiceTriggerIdle); [done|done|by intros [? _]| |exact HQ].
    by apply voice_open_after_fired.
  - eapply (wp_voice_open x st _ eVoiceRecogIdle); [done|done| |by rewrite Hsame|exact HQ]. by intros _.
  - apply HQ; [|done|done]. by apply inv_to_voice; [by rewrite Hs|by rewrite Hs|].
Qed.

Lemma wp_disable x st (Q : unit -> audio_hal -> Prop) :
  inv x st -> (forall st', inv x st' -> outs st' = outs st -> ins st' = ins st -> Q tt st') ->
  wpu (voice_trigger_disable mx P) Q st.
Proof.
  intros Hinv HQ. unfold voice_trigger_disable. wps.
  destruct (voice_st (adev st)) eqn:Hs; wps; try (by apply HQ);
    try (by eapply wp_voice_close; [by rewrite Hs|done|rewrite Hs; not_trigger_tac|exact Hinv|exact HQ]).
  apply HQ; [|done|done]. by apply inv_to_voice; [by rewrite Hs|by rewrite Hs|].
Qed.

Lemma wp_triggered x st (Q : unit -> audio_hal -> Prop) :
  inv x st -> (forall st', inv x st' -> outs st' = outs st -> ins st' = ins st -> Q tt st') ->
  wpu voice_trigger_triggered Q st.
Proof.
  intros Hinv HQ. unfold voice_trigger_triggered. wps.
  destruct (voice_st (adev st)) eqn:Hs; wps; try (by apply HQ);
    (apply HQ; [|done|done]; apply inv_to_voice; [by rewrite Hs|rewrite Hs; not_trigger_tac|done]).
Qed.

Lemma wp_audio_started x st (Q : unit -> audio_hal -> Prop) :
  inv x st -> (forall st', inv x st' -> outs st' = outs st -> ins st' = ins st -> Q tt st') ->
  wpu voice_trigger_audio_started_locked Q st.
Proof.
  intros Hinv HQ. unfold voice_trigger_audio_started_locked. wps.
  destruct (voice_st (adev st)) eqn:Hs; wps; try (by apply HQ);
    (apply HQ; [|done|done]; apply inv_to_voice; [by rewrite Hs|by rewrite Hs|done]).
Qed.

Lemma wp_audio_ended x st (Q : unit -> audio_hal -> Prop) :
  inv x st -> (forall st', inv x st' -> outs st' = outs st -> ins st' = ins st -> Q tt st') ->
  wpu (voice_trigger_audio_ended_locked mx P) Q st.
Proof.
  intros Hinv HQ. unfold voice_trigger_audio_ended_locked. wps.
  destruct (voice_st (adev st)) eqn:Hs; wps; try (by apply HQ).
  - by eapply wp_voice_close; [by rewrite Hs|done|by rewrite Hs|exact Hinv|exact HQ].
  - apply HQ; [|done|done]. by apply inv_to_voice; [by rewrite Hs|by rewrite Hs|].
Qed.

Lemma wp_set_parameters kv st (Q : Z -> audio_hal -> Prop) :
  inv [] st -> (forall r st', inv [] st' -> Q r st') -> wpu (adev_set_parameters mx P kv) Q st.
Proof.
  intros Hinv HQ. unfold adev_set_parameters, voice_trigger_set_params. wps.
  assert (Hend : forall st', inv [] st' ->
    wpu (st ← aget; stream_invoke_usecases mx (global_stream (adev st)) kv;; mret 0) Q st').
  { intros st' Hst. wps. apply awp_bind, wp_invoke. intros r c Hc. wps. by apply HQ, inv_cfg. }
  assert (Hcmd : forall st', inv [] st' -> wpu
    (match get_str P kv (lit "voice_trigger") with
     | Some v => if bool_decide (v = lit "2") then voice_trigger_triggered
                 else if bool_decide (v = lit "1") then voice_trigger_enable mx P
                 else if bool_decide (v = lit "0") then voice_trigger_disable mx P else askip
     | None => askip
     end) (fun _ st' => wpu (st ← aget; stream_invoke_usecases mx (global_stream (adev st)) kv;; mret 0) Q st') st').
  { intros st' Hst. destruct (get_str P kv (lit "voice_trigger")) as [v|]; wps; [|by apply Hend].
    case_bool_decide; [eapply wp_triggered; [exact Hst|intros; by apply Hend]|].
    case_bool_decide; [eapply wp_enable; [exact Hst|intros; by apply Hend]|].
    case_bool_decide; [eapply wp_disable; [exact Hst|intros; by apply Hend]|]. wps. by apply Hend. }
  apply awp_bind. destruct (get_str P kv (lit "voice_trigger_mic")); wps; [|by apply Hcmd].
  apply Hcmd. cbn. by apply inv_adev_same.
Qed.

(** ** Output streams *)

Lemma stream_counts cm k s : stream_array cm !! k = Some s -> counts cm !! k = Some (s_type s, ref_count s).
Proof. intros Hs. unfold counts. by rewrite list_lookup_fmap, Hs. Qed.

Lemma out_ok_pcm cm o s :
  stream_array cm !! o_hw o = Some s -> is_pcm_out s = true ->
  (is_Some (o_handle o) <-> o_standby o = false) -> out_ok cm o.
Proof.
  intros Hs Hp Ho. exists (s_type s), (ref_count s). split; [by apply stream_counts|]. split; [done|].
  apply bool_decide_eq_true in Hp. done.
Qed.

Lemma out_ok_offload cm o s :
  stream_array cm !! o_hw o = Some s -> is_pcm_out s = false ->
  (started (o_offload o) = true -> is_Some (o_handle o)) -> out_ok cm o.
Proof.
  intros Hs Hp Ho. exists (s_type s), (ref_count s). split; [by apply stream_counts|].
  apply bool_decide_eq_false in Hp. done.
Qed.

Lemma out_info x st id o :
  inv x st -> outs st !! id = Some (Some o) ->
  exists s, stream_array (cfg st).1 !! o_hw o = Some s /\
    (is_pcm_out s = true -> is_Some (o_handle o) <-> o_standby o = false) /\
    (is_pcm_out s = false -> started (o_offload o) = true -> is_Some (o_handle o)).
Proof.
  intros Hinv Hid. destruct (hi_outs _ _ _ _ Hinv id o Hid) as (t & n & Hc & H1 & H2).
  apply counts_info in Hc as (s & Hs & Ht & _). exists s. split; [done|]. unfold is_pcm_out.
  split; [intros Hp%bool_decide_eq_true|intros Hp%bool_decide_eq_false]; [apply H1|apply H2]; by rewrite <- Ht.
Qed.

Lemma handle_in_out st id o h : outs st !! id = Some (Some o) -> o_handle o = Some h -> h ∈ stream_handles st.
Proof.
  intros Hid Hh. unfold stream_handles. apply elem_of_app. left. apply list_elem_of_omap.
  exists (Some o). split; [by eapply list_elem_of_lookup_2|done].
Qed.

Lemma handle_in_in st id i h : ins st !! id = Some (Some i) -> i_handle i = Some h -> h ∈ stream_handles st.
Proof.
  intros Hid Hh. unfold stream_handles. apply elem_of_app. right. apply list_elem_of_omap.
  exists (Some i). split; [by eapply list_elem_of_lookup_2|done].
Qed.

Lemma at_out_lookup st id o o0 : outs st !! id = Some o0 -> outs (at_out id o st) !! id = Some o.
Proof. intros Hid. cbn. rewrite list_lookup_insert_eq by (by eapply lookup_lt_Some). done. Qed.

Lemma at_in_lookup st id i i0 : ins st !! id = Some i0 -> ins (at_in id i st) !! id = Some i.
Proof. intros Hid. cbn. rewrite list_lookup_insert_eq by (by eapply lookup_lt_Some). done. Qed.

Lemma at_out_twice st id o o' : at_out id o' (at_out id o st) = at_out id o' st.
Proof. unfold at_out, set_outs. cbn. by rewrite list_insert_insert_eq. Qed.

Lemma at_in_twice st id i i' : at_in id i' (at_in id i st) = at_in id i' st.
Proof. unfold at_in, set_ins. cbn. by rewrite list_insert_insert_eq. Qed.

Lemma wp_out_pcm_write x id o s bytes st (Q : Z -> audio_hal -> Prop) :
  inv x st -> outs st !! id = Some (Some o) -> stream_array (cfg st).1 !! o_hw o = Some s ->
  is_pcm_out s = true -> (forall r st', inv x st' -> Q r st') -> wpu (out_pcm_write E id o bytes) Q st.
Proof.
  intros Hinv Hid Hs Hp HQ. destruct (out_info _ _ _ _ Hinv Hid) as (s' & Hs' & Hh & _). simplify_eq.
  specialize (Hh Hp). unfold out_pcm_write. apply awp_bind. eapply wp_hw_info; [exact Hs|].
  case_test; wps; [by apply HQ|].
  assert (Hwrite : forall o' h st', inv x (at_out id (Some o') st') -> outs st' !! id = Some (Some o) ->
    o_handle o' = Some h ->
    wpu (put_out id (Some o');;
         ret ← do_use E h (PcmWrite (pcm_bytes_to_frames (out_pcm_cfg_channel_count o') bytes));
         mret (if 0 <=? ret then bytes else ret)) Q st').
  { intros o' h st' Hinv' Hid' Hh'. wpt. apply HQ. apply (inv_use _ _ x (at_out id (Some o') st')); [|done].
    eapply handle_in_out; [by eapply at_out_lookup|done]. }
  destruct (o_standby o) eqn:Hsb.
  - unfold start_output_pcm. wpt. destruct b; wpt.
    + apply Hwrite; [|done|done]. apply (inv_out_open _ _ x st id o); [done|done| |done| |done].
      * destruct (o_handle o) eqn:Ho; [|done]. destruct Hh as [Hh _]. by specialize (Hh ltac:(by eexists)).
      * eapply out_ok_pcm; [exact Hs|done|]. split; [done|]. intros _. by eexists.
    + apply HQ. by apply inv_open_failed.
  - wpt. destruct (o_handle o) as [h|] eqn:Ho; [|destruct Hh as [_ Hh]; by destruct (Hh eq_refl)].
    eapply Hwrite; [|done|done]. apply (inv_out _ _ x st id o); try done.
    eapply out_ok_pcm; [exact Hs|done|]. rewrite Ho, Hsb. split; [done|]. intros _. by eexists.
Qed.

Lemma pcm_standby_handle cm o s :
  out_ok cm o -> stream_array cm !! o_hw o = Some s -> is_pcm_out s = true ->
  (is_Some (o_handle o) <-> o_standby o = false).
Proof.
  intros (t & n & Hc & H1 & _) Hs Hp%bool_decide_eq_true. apply stream_counts in Hs. simplify_eq. by apply H1.
Qed.

Lemma offload_handle cm o s :
  out_ok cm o -> stream_array cm !! o_hw o = Some s -> is_pcm_out s = false ->
  started (o_offload o) = true -> is_Some (o_handle o).
Proof.
  intros (t & n & Hc & _ & H2) Hs Hp%bool_decide_eq_false. apply stream_counts in Hs. simplify_eq. by apply H2.
Qed.

(** The stream a call leaves may differ from the stored one in what is not held. *)
Lemma wp_out_standby x id o0 o s st (Q : unit -> audio_hal -> Prop) :
  inv x st -> outs st !! id = Some (Some o0) -> o_hw o = o_hw o0 -> o_handle o = o_handle o0 ->
  out_ok (cfg st).1 o -> stream_array (cfg st).1 !! o_hw o = Some s ->
  (forall st' o', inv x st' -> cfg st' = cfg st -> outs st' !! id = Some (Some o') -> o_hw o' = o_hw o ->
     (is_pcm_out s = true \/ paused (o_offload o) = false -> o_handle o' = None) -> Q tt st') ->
  wpu (out_standby_fn id o) Q st.
Proof.
  intros Hinv Hid Hhw Hho Hok Hs HQ. unfold out_standby_fn. apply awp_bind. eapply wp_hw_info; [exact Hs|].
  assert (Hsame : (is_pcm_out s = true \/ paused (o_offload o) = false -> o_handle o = None) ->
    Q tt (at_out id (Some o) st)).
  { intros Hn. eapply (HQ _ o); [|done|by eapply at_out_lookup|done|exact Hn]. by eapply inv_out. }
  assert (Hclose : forall st' h o', o_handle o = Some h -> o_hw o' = o_hw o -> o_handle o' = None ->
    out_ok (cfg st).1 o' -> inv x st' -> cfg st' = cfg st -> outs st' = outs st ->
    Q tt (at_out id (Some o') (logged (Close h) st'))).
  { intros st' h o' Hh Hhw' Hn Hok' Hinv' Hc Ho. rewrite <- Ho in Hid.
    eapply (HQ _ o'); [|done|by eapply at_out_lookup|done|done].
    eapply inv_out_close; [exact Hid|by rewrite Hhw', Hhw|by rewrite <- Hho|done|by rewrite Hc|done]. }
  destruct (is_pcm_out s) eqn:Hp.
  - pose proof (pcm_standby_handle _ _ _ Hok Hs Hp) as Hh. unfold do_out_pcm_standby.
    destruct (o_standby o) eqn:Hsb; wpt.
    + apply Hsame. intros _. destruct (o_handle o) eqn:Ho; [|done].
      destruct Hh as [Hh _]. by specialize (Hh ltac:(by eexists)).
    + destruct (o_handle o) as [h|] eqn:Ho; [|destruct Hh as [_ Hh]; by destruct (Hh eq_refl)]. wpt.
      apply (Hclose st h _ eq_refl); try done. eapply out_ok_pcm; [exact Hs|done|]. cbn. split; [|done]. by intros [].
  - unfold do_standby_compress_l. destruct (o_handle o) as [h|] eqn:Ho; wpt; [|by apply Hsame].
    destruct (paused (o_offload o)) eqn:Hpa; wpt; [by apply Hsame; intros []|].
    assert (Hok' : out_ok (cfg st).1
      (set_offload (set_started false (o_offload o)) (set_handle (o_standby o) None (o_params o) o))).
    { eapply out_ok_offload; [exact Hs|done|done]. }
    destruct (started _) eqn:Hst; wpt; [|by apply (Hclose st h)].
    apply (Hclose (logged (Use h CompressStop) st) h _ eq_refl); try done.
    apply inv_use; [|done]. eapply handle_in_out; [exact Hid|by rewrite <- Hho].
Qed.

Lemma wp_out_close id o st (Q : unit -> audio_hal -> Prop) :
  inv [] st -> outs st !! id = Some (Some o) -> (forall st', inv [] st' -> Q tt st') ->
  wpu (out_close_fn mx P id o) Q st.
Proof.
  intros Hinv Hid HQ. destruct (out_info _ _ _ _ Hinv Hid) as (s & Hs & _).
  pose proof (hi_outs _ _ _ _ Hinv id o Hid) as Hok. unfold out_close_fn. apply awp_bind.
  eapply wp_hw_info; [exact Hs|].
  assert (Hend : forall st' o', inv [] st' -> cfg st' = cfg st -> outs st' !! id = Some (Some o') -> o_hw o' = o_hw o ->
    o_handle o' = None -> wpu (cm_release_stream mx P (o_hw o);; put_out id None) Q st').
  { intros st' o' Hinv' Hc Hid' Hhw Hn. apply awp_bind. apply wp_release; [rewrite Hc; by eexists|]. intros c Hcnt. wpt.
    apply HQ. refine (inv_give exact ub [] (at_out id None st') (o_hw o') c _ _); [by rewrite Hhw|].
    by apply inv_out_remove. }
  apply awp_bind. destruct (is_pcm_out s) eqn:Hp.
  - eapply wp_out_standby; [exact Hinv|exact Hid|done|done|done|exact Hs|].
    intros st' o' Hinv' Hc Hid' Hhw Hn. eapply Hend; [done|done|exact Hid'|done|]. apply Hn. by left.
  - eapply wp_out_standby; [exact Hinv|exact Hid|done|done| |exact Hs|].
    + eapply out_ok_offload; [exact Hs|done|]. by apply (offload_handle _ _ _ Hok Hs Hp).
    + intros st' o' Hinv' Hc Hid' Hhw Hn. eapply Hend; [done|done|exact Hid'|done|]. apply Hn. by right.
Qed.

(** *** Offload streams *)

(** The part of a write that starts the channel. *)
Lemma wp_start_compress x id o h st (Q : Z * out_stream -> audio_hal -> Prop) :
  inv x st -> outs st !! id = Some (Some o) -> o_handle o = Some h ->
  (forall o', o_hw o' = o_hw o -> (started (o_offload o') = true -> is_Some (o_handle o')) -> out_ok (cfg st).1 o') ->
  (forall r o' st', inv x (at_out id (Some o') st') -> Q (r, o') st') ->
  wpu (start_output_compress E h o) Q st.
Proof.
  intros Hinv Hid Hh Hoff HQ. unfold start_output_compress. wpt.
  assert (Hin : h ∈ stream_handles st) by (by eapply handle_in_out).
  set (st2 := logged (Use h CompressStart) st).
  assert (Hinv2 : inv x st2) by (by apply inv_use).
  pose proof (fun u => inv_use exact ub x st2 h u Hin Hinv2) as Hinv3.
  destruct (r <? 0).
  - unfold do_standby_compress_l. rewrite Hh. destruct (paused (o_offload o)); wpt.
    { apply HQ. eapply (inv_out exact ub x st2); [exact Hid|done|done| |done]. by apply Hoff. }
    assert (Hok : out_ok (cfg st).1
      (set_offload (set_started false (o_offload o)) (set_handle (o_standby o) None (o_params o) o))) by (by apply Hoff).
    destruct (started (o_offload o)); wpt; apply HQ.
    + eapply (inv_out_close exact ub x (logged (Use h CompressStop) st2)); [exact Hid|done|exact Hh|done|exact Hok|].
      apply Hinv3.
    + eapply (inv_out_close exact ub x st2); [exact Hid|done|exact Hh|done|exact Hok|done].
  - destruct (refresh_gapless_meta _); wpt; apply HQ.
    + eapply (inv_out exact ub x (logged _ st2)); [exact Hid|done|done|by apply Hoff|apply Hinv3].
    + eapply (inv_out exact ub x st2); [exact Hid|done|done|by apply Hoff|done].
Qed.

Lemma wp_out_compress_write x id o s bytes st (Q : Z -> audio_hal -> Prop) :
  inv x st -> outs st !! id = Some (Some o) -> stream_array (cfg st).1 !! o_hw o = Some s ->
  is_pcm_out s = false -> (forall r st', inv x st' -> Q r st') -> wpu (out_compress_write E id o bytes) Q st.
Proof.
  intros Hinv Hid Hs Hp HQ. pose proof (hi_outs _ _ _ _ Hinv id o Hid) as Hok.
  pose proof (offload_handle _ _ _ Hok Hs Hp) as Hst.
  unfold out_compress_write. apply awp_bind. eapply wp_hw_info; [exact Hs|].
  assert (Hoff : forall o', o_hw o' = o_hw o -> (started (o_offload o') = true -> is_Some (o_handle o')) ->
    out_ok (cfg st).1 o').
  { intros o' Hhw Ho'. eapply out_ok_offload; [by rewrite Hhw|done|done]. }
  assert (Hwrite : forall o' h st', inv x st' -> cfg st' = cfg st -> outs st' !! id = Some (Some o') -> o_hw o' = o_hw o ->
    o_handle o' = Some h ->
    wpu (ret ← do_use E h (CompressWrite bytes);
         if (ret <? 0) || started (o_offload o') then mret ret
         else '(r, o) ← start_output_compress E h o'; put_out id (Some o);; mret (if r <? 0 then -1 else ret)) Q st').
  { intros o' h st' Hinv' Hc Hid' Hhw Hh. wpt.
    assert (Hinv2 : inv x (logged (Use h (CompressWrite bytes)) st')).
    { apply inv_use; [|done]. by eapply handle_in_out. }
    destruct (_ || _); wpt; [by apply HQ|]. apply awp_bind. eapply wp_start_compress; [exact Hinv2|exact Hid'|exact Hh| |].
    - intros o2 Hhw2 Ho2. cbn. rewrite Hc. apply Hoff; [by rewrite Hhw2|done].
    - intros r2 o2 st2 Hst2. wpt. by apply HQ. }
  unfold open_output_compress. destruct (o_handle o) as [h|] eqn:Ho; wpt.
  - rewrite Ho. apply Hwrite; try done; [|by eapply at_out_lookup]. by eapply inv_out.
  - destruct b; wpt.
    + destruct (e_fragments E _) as [sz n]. wpt. apply Hwrite; try done; [|by eapply at_out_lookup].
      eapply inv_out_open; try done. apply Hoff; [done|]. intros _. by eexists.
    + apply HQ. eapply inv_out; [exact Hid|done|done| |apply inv_open_failed; exact Hinv].
      apply Hoff; [done|]. by rewrite Ho.
Qed.

(** The other functions of an offload stream. *)
Section offload.
Context (x : list nat) (id : nat) (o : out_stream) (s : stream) (st : audio_hal) (Q : Z -> audio_hal -> Prop)
  (Hinv : inv x st) (Hid : outs st !! id = Some (Some o)) (Hs : stream_array (cfg st).1 !! o_hw o = Some s)
  (Hp : is_pcm_out s = false) (HQ : forall r st', inv x st' -> Q r st').

#[local] Lemma offload_ok o' st' :
  cfg st' = cfg st -> o_hw o' = o_hw o -> (started (o_offload o') = true -> is_Some (o_handle o')) -> out_ok (cfg st').1 o'.
Proof. intros Hc Hhw Ho'. rewrite Hc. eapply out_ok_offload; [by rewrite Hhw|done|done]. Qed.

#[local] Lemma offload_started : started (o_offload o) = true -> is_Some (o_handle o).
Proof. by apply (offload_handle _ _ _ (hi_outs _ _ _ _ Hinv id o Hid) Hs Hp). Qed.

(** The stored stream changes while its channel stays open. *)
#[local] Lemma inv_offload f : (started f = true -> is_Some (o_handle o)) -> inv x (at_out id (Some (set_offload f o)) st).
Proof. intros Hf. eapply inv_out; [exact Hid|done|done|by apply offload_ok|exact Hinv]. Qed.

#[local] Lemma inv_offload_use h u : o_handle o = Some h -> inv x (logged (Use h u) st).
Proof. intros Hh. apply inv_use; [|done]. by eapply handle_in_out. Qed.

Lemma wp_out_pause : wpu (out_compress_pause E id o) Q st.
Proof.
  unfold out_compress_pause. destruct (o_handle o) as [h|] eqn:Ho; wpt; [|by apply HQ].
  destruct (paused _); wpt; apply HQ; [done|].
  refine (inv_use _ _ _ (at_out id _ st) h _ _ _); [by eapply handle_in_out; [eapply at_out_lookup|]|].
  apply inv_offload. by eexists.
Qed.

Lemma wp_out_resume : wpu (out_compress_resume E id o) Q st.
Proof.
  unfold out_compress_resume. destruct (o_handle o) as [h|] eqn:Ho; wpt; [|by apply HQ].
  destruct (paused _); wpt; apply HQ; [|done].
  refine (inv_use _ _ _ (at_out id _ st) h _ _ _); [by eapply handle_in_out; [eapply at_out_lookup|]|].
  apply inv_offload. by eexists.
Qed.

Lemma wp_out_drain early : (ub \/ is_Some (o_handle o)) -> wpu (out_compress_drain E id o early) Q st.
Proof.
  intros Hub. unfold out_compress_drain. destruct (o_handle o) as [h|] eqn:Ho; wpt.
  2:{ by destruct Hub as [|[]]. }
  assert (Hin : h ∈ stream_handles st) by (by eapply handle_in_out).
  pose proof (fun u => inv_use exact ub x st h u Hin Hinv) as Hone.
  assert (Hend : forall st', outs st' = outs st -> cfg st' = cfg st -> inv x st' ->
    inv x (at_out id (Some (set_offload (set_started false (o_offload o)) o)) st')).
  { intros st' Ho' Hc Hst. eapply inv_out; [by rewrite Ho'|done|done|by apply offload_ok|done]. }
  destruct early; wpt.
  - destruct (r =? 0); wpt; apply HQ; [|done]. apply Hend; [done|done|]. by apply inv_use.
  - apply HQ. by apply Hend.
Qed.

Lemma wp_out_flush : wpu (out_compress_flush id o) Q st.
Proof.
  unfold out_compress_flush. destruct (o_handle o) as [h|] eqn:Ho; wpt; [|by apply HQ].
  destruct (started _); wpt; apply HQ; [|done].
  eapply inv_out; [exact Hid|done|done|by apply offload_ok|by apply inv_offload_use].
Qed.

Lemma wp_out_position samples : wpu (out_compress_get_render_position E o samples) Q st.
Proof.
  unfold out_compress_get_render_position. destruct (started _) eqn:Hst; wpt; [|by apply HQ].
  destruct (offload_started Hst) as [h Hh]. rewrite Hh. wpt. apply HQ. by apply inv_offload_use.
Qed.

Lemma wp_out_set_parameters kv st' : inv x st' -> wpu (out_set_parameters mx P o kv) Q st'.
Proof.
  intros Hst. unfold out_set_parameters. wps.
  assert (Hend : forall st', inv x st' ->
    wpu (stream_invoke_usecases mx (Some (o_hw o)) kv;; mret 0) Q st').
  { intros st2 Hst2. apply awp_bind, wp_invoke. intros r c Hc. wps. by apply HQ, inv_cfg. }
  apply awp_bind. destruct (common_get_routing_param P kv); wps; [|by apply Hend].
  apply wp_route. intros c Hc. by apply Hend, inv_cfg.
Qed.

Lemma wp_out_compress_set_parameters kv : wpu (out_compress_set_parameters mx P id o kv) Q st.
Proof.
  unfold out_compress_set_parameters. wpt. apply wp_out_set_parameters, inv_offload, offload_started.
Qed.

End offload.

(** ** Opening an output *)

Lemma out_wanted d pcm :
  wanted_type (masks P) (Z.land d (OUT_ALL (masks P))) pcm = if pcm then out_pcm else out_compress.
Proof. unfold wanted_type. rewrite <- Z.land_assoc, Hmasks, Z.land_0_r. done. Qed.

Lemma counted_ok k n cm cm' s :
  counted_by k n cm cm' -> stream_array cm !! k = Some s ->
  exists s', stream_array cm' !! k = Some s' /\ s_type s' = s_type s.
Proof.
  intros (s1 & Hs1 & Hc) Hs. rewrite Hs in Hs1. injection Hs1 as <-. pose proof (stream_counts _ _ _ Hs) as Hk.
  assert (Hk' : counts cm' !! k = Some (s_type s, ref_count s + n)).
  { rewrite Hc, list_lookup_insert_eq by (by eapply lookup_lt_Some). done. }
  apply counts_info in Hk' as (s' & Hs' & Ht & _). by exists s'.
Qed.

Lemma wp_open_output devices c st (Q : Z -> audio_hal -> Prop) :
  inv [] st -> (ub \/ sample_rate_rq c <> 0) -> (forall r st', inv [] st' -> Q r st') ->
  wpu (adev_open_output_stream mx P E devices c) Q st.
Proof.
  intros Hinv Hrate HQ. unfold adev_open_output_stream. apply awp_bind, wp_get_stream; [wpt; by apply HQ|].
  intros k s0 c1 Hc1 Hs0 Ht. rewrite out_wanted in Ht.
  destruct (counted_ok _ _ _ _ _ Hc1 Hs0) as (s & Hs & Hts).
  pose proof (inv_take _ _ _ st k c1 Hc1 Hinv) as Hinv1. apply awp_bind. eapply wp_hw_info; [exact Hs|].
  apply awp_bind, wp_route. intros c2 Hc2. pose proof (inv_cfg _ _ _ (set_cfg c1 st) c2 Hc2 Hinv1) as Hinv2.
  destruct (counts_valid _ _ _ Hc2 (ltac:(by eexists) : is_Some (stream_array c1.1 !! k))) as [s2 Hs2].
  assert (Ht2 : s_type s2 = s_type s0).
  { pose proof (stream_counts _ _ _ Hs2) as H2. cbn in Hc2. rewrite Hc2, (stream_counts _ _ _ Hs) in H2. congruence. }
  set (st2 := set_cfg c2 (set_cfg c1 st)) in *.
  destruct (is_pcm_out s) eqn:Hp.
  - unfold do_init_out_pcm. cbn [o_params sample_rate init_params]. case_test; wpt; [by destruct Hrate|].
    apply HQ. apply (inv_out_append _ _ _ st2); [done| |done].
    eapply out_ok_pcm; [exact Hs2| |by split; [intros []|]]. apply bool_decide_eq_true in Hp. apply bool_decide_eq_true. congruence.
  - assert (Hn : exact -> False).
    { intros He. destruct (hi_exact _ _ _ _ Hinv2 He) as [Hf _]. apply bool_decide_eq_false in Hp.
      apply (Forall_lookup_1 _ _ _ _ Hf (stream_counts _ _ _ Hs2)). cbn. rewrite Ht2. rewrite Ht.
      rewrite Hts, Ht in Hp. by destruct (is_linear_pcm _ _). }
    assert (Hoff : is_pcm_out s2 = false).
    { apply bool_decide_eq_false in Hp. apply bool_decide_eq_false. congruence. }
    unfold do_init_out_compress. destruct (codec_of _ _); wpt.
    + unfold open_output_compress. cbn [o_handle set_offload]. wpt. destruct b; wpt.
      * destruct (e_fragments E _) as [sz n]. wpt. apply HQ.
        apply (inv_out_append_open _ _ _ st2); [done| |done]. eapply out_ok_offload; [exact Hs2|done|done].
      * apply HQ. eapply inv_leak; [exact Hn|]. by apply (inv_open_failed _ _ _ st2).
    + apply HQ. by eapply (inv_leak _ _ _ st2).
Qed.

(** ** Input streams *)

#[local] Abbreviation iok := (in_ok ub).

Lemma in_info x st id i hw :
  inv x st -> ins st !! id = Some (Some i) -> i_hw i = Some hw -> exists s, stream_array (cfg st).1 !! hw = Some s.
Proof.
  intros Hinv Hid Hhw. eapply held_info; [exact Hinv|]. unfold held. rewrite !elem_of_app. right. right. left.
  apply list_elem_of_omap. exists (Some i). split; [by eapply list_elem_of_lookup_2|done].
Qed.

(** A capture that is closed, or opened, keeps the divisors of the stream. *)
Lemma in_ok_standby i p r :
  frame_size p = frame_size (i_params i) -> sample_rate p = sample_rate (i_params i) -> iok i ->
  iok (set_capture true None p r i).
Proof. intros Hf Hr []. split; cbn; rewrite ?Hf, ?Hr; [by split; [intros []|]|done|done]. Qed.

Lemma in_ok_opened i h p r :
  frame_size p = frame_size (i_params i) -> sample_rate p = sample_rate (i_params i) -> iok i -> is_Some (i_hw i) ->
  iok (set_capture false (Some h) p r i).
Proof. intros Hf Hr [] Hhw. split; cbn; rewrite ?Hf, ?Hr; [by split; [|eexists]|done|done]. Qed.

Lemma in_handle i : iok i -> if i_standby i then i_handle i = None else exists h, i_handle i = Some h.
Proof.
  intros [[H1 H2] _ _]. destruct (i_standby i); [|by destruct H2 as [h ->]; [|exists h]].
  destruct (i_handle i); [|done]. by specialize (H1 ltac:(by eexists)).
Qed.

Lemma wp_in_standby x id i st (Q : unit -> audio_hal -> Prop) :
  inv x st -> ins st !! id = Some (Some i) ->
  (forall st' i', inv x st' -> cfg st' = cfg st -> ins st' !! id = Some (Some i') -> i_hw i' = i_hw i ->
     i_handle i' = None -> i_standby i' = true -> Q tt st') ->
  wpu (in_pcm_standby id i) Q st.
Proof.
  intros Hinv Hid HQ. pose proof (hi_ins _ _ _ _ Hinv id i Hid) as Hok. pose proof (in_handle i Hok) as Hh.
  unfold in_pcm_standby. destruct (i_hw i) as [hw|] eqn:Hhw; wpt.
  2:{ destruct (i_standby i) eqn:Hsb; [by eapply HQ|]. by destruct (in_source _ _ Hok Hsb) as [? ?]; simplify_eq. }
  destruct (in_info _ _ _ _ _ Hinv Hid Hhw) as [s Hs]. apply awp_bind. eapply wp_hw_info; [exact Hs|].
  assert (Hsame : forall r, i_standby i = true ->
    Q tt (at_in id (Some (set_capture true (i_handle i) (i_params i) r i)) st)).
  { intros r Hsb. rewrite Hsb in Hh. rewrite Hh.
    eapply HQ; [|done|by eapply at_in_lookup|done|done|done].
    eapply inv_in_same; [exact Hid|done|by rewrite Hh|by apply in_ok_standby|done]. }
  assert (Hclose : forall h r st', i_handle i = Some h -> inv x st' -> ins st' = ins st -> cfg st' = cfg st ->
    Q tt (at_in id (Some (set_capture true None (i_params i) r i)) (logged (Close h) st'))).
  { intros h r st' Ho Hst Hi Hc. rewrite <- Hi in Hid.
    eapply HQ; [|done|by eapply at_in_lookup|done|done|done].
    eapply inv_in_close; [exact Hid|done|exact Ho|done|by apply in_ok_standby|done]. }
  unfold do_in_compress_pcm_standby, do_in_pcm_standby.
  destruct (stream_is_compressed_in s), (i_standby i) eqn:Hsb; wpt; try (by apply Hsame).
  - destruct Hh as [h Hh]. rewrite Hh. wpt. apply Hclose; [done| |done|done].
    apply inv_use; [by eapply handle_in_in|done].
  - destruct Hh as [h Hh]. rewrite Hh. wpt. by apply Hclose.
Qed.

Lemma wp_delay x i bytes st (Q : unit -> audio_hal -> Prop) :
  iok i -> inv x st -> (forall st', inv x st' -> ins st' = ins st -> Q tt st') ->
  wpu (do_in_realtime_delay E i bytes) Q st.
Proof.
  intros Hok Hinv HQ. unfold do_in_realtime_delay. case_test; wpt; [by apply HQ|].
  case_test; wpt; [by destruct (in_divisors _ _ Hok) as [|[_ ?]]|].
  destruct (_ <? _); wpt; [|by apply HQ]. apply HQ; [|done]. by apply inv_sleep.
Qed.

Lemma wp_do_in_pcm_read x id i s bytes st (Q : Z * in_stream -> audio_hal -> Prop) :
  inv x st -> ins st !! id = Some (Some i) -> is_Some (i_hw i) ->
  (forall r i' st', inv x st' -> ins st' !! id = Some (Some i') -> Q (r, i') st') ->
  wpu (do_in_pcm_read E id s i bytes) Q st.
Proof.
  intros Hinv Hid Hhw HQ. pose proof (hi_ins _ _ _ _ Hinv id i Hid) as Hok. pose proof (in_handle i Hok) as Hh.
  unfold do_in_pcm_read. case_test; wpt; [by destruct (in_divisors _ _ Hok) as [|[? _]]|].
  assert (Hread : forall i' h st', inv x (at_in id (Some i') st') -> ins st' = ins st -> i_handle i' = Some h ->
    wpu (put_in id (Some i');;
         ret ← do_use E h (if i_resampler i' then Resample (bytes / frame_size (i_params i'))
                           else PcmRead (pcm_bytes_to_frames (in_pcm_cfg_channel_count i') bytes));
         mret (if 0 <=? ret then bytes else ret, i')) Q st').
  { intros i' h st' Hst Hi Ho. wpt. rewrite <- Hi in Hid. pose proof (at_in_lookup st' id (Some i') _ Hid) as Hid'.
    apply HQ; [|exact Hid']. apply inv_use; [|done]. by eapply handle_in_in. }
  unfold start_pcm_input_stream. destruct (i_standby i) eqn:Hsb.
  2:{ destruct Hh as [h Hh]. wpt. rewrite Hh. eapply Hread; [|done|done]. by eapply inv_in_same. }
  pose (opened_as := fun r =>
    set_capture false (Some (next_handle st)) (in_pcm_fill_params s (i_params i)) r i).
  unfold do_open_pcm_input. wpt. destruct b; wpt.
  2:{ change (- ENOMEM =? 0) with false. cbn iota. apply HQ; [|by eapply at_in_lookup]. rewrite Hsb.
      eapply inv_in_same; [exact Hid|done|by rewrite Hh|by apply in_ok_standby|by apply inv_open_failed]. }
  destruct (_ =? _); wpt.
  - eapply (Hread (opened_as (i_resampler i)) (next_handle st)); [|done|done].
    by eapply inv_in_open; [exact Hid|done|exact Hh|done|by apply in_ok_opened|].
  - destruct (r <? 0) eqn:Hr; wpt.
    + rewrite Hr. assert ((r =? 0) = false) as -> by lia. wpt. apply HQ; [|by eapply at_in_lookup]. rewrite Hsb.
      eapply inv_in_same; [exact Hid|done|by rewrite Hh|by apply in_ok_standby|by apply inv_open_used_failed].
    + eapply (Hread (opened_as true) (next_handle st)); [|done|done].
      refine (inv_use _ _ _ (at_in id _ (opened _ _ _ _ st)) _ _ _ _);
        [by eapply handle_in_in; [eapply at_in_lookup|]|].
      by eapply inv_in_open; [exact Hid|done|exact Hh|done|by apply in_ok_opened|].
Qed.

Lemma wp_do_in_compress_read x id i s bytes st (Q : Z * in_stream -> audio_hal -> Prop) :
  ub -> inv x st -> ins st !! id = Some (Some i) -> is_Some (i_hw i) ->
  (forall r i' st', inv x st' -> ins st' !! id = Some (Some i') -> Q (r, i') st') ->
  wpu (do_in_compress_pcm_read E id s i bytes) Q st.
Proof.
  intros Hub Hinv Hid Hhw HQ. pose proof (hi_ins _ _ _ _ Hinv id i Hid) as Hok. pose proof (in_handle i Hok) as Hh.
  unfold do_in_compress_pcm_read.
  assert (Hread : forall i' h st', inv x (at_in id (Some i') st') -> ins st' = ins st -> i_handle i' = Some h ->
    wpu (put_in id (Some i');;
         match i_handle i' with
         | None => acrash
         | Some h => ret ← do_use E h (CompressRead bytes);
                     (if 0 <? ret then do_in_realtime_delay E i' (bytes / 4) else askip);; mret (ret, i')
         end) Q st').
  { intros i' h st' Hst Hi Ho. wpt. rewrite Ho. wpt. rewrite <- Hi in Hid.
    pose proof (at_in_lookup st' id (Some i') _ Hid) as Hid'.
    assert (Hinv2 : inv x (logged (Use h (CompressRead bytes)) (at_in id (Some i') st'))).
    { apply inv_use; [|done]. by eapply handle_in_in. }
    apply awp_bind. destruct (0 <? r); wpt; [|by apply HQ].
    eapply wp_delay; [exact (hi_ins _ _ _ _ Hst id i' Hid')|exact Hinv2|].
    intros st2 Hst2 Hi2. wpt. apply HQ; [done|]. by rewrite Hi2. }
  unfold start_compress_pcm_input_stream. destruct (i_standby i) eqn:Hsb.
  2:{ destruct Hh as [h Hh]. wpt. eapply Hread; [|done|exact Hh]. by eapply inv_in_same. }
  unfold do_open_compress_pcm_in. wpt. destruct b; wpt; [|done].
  destruct (e_fragments E _) as [sz n]. wpt. case_test; wpt; [done|].
  pose (p := set_sizes (wrap_u32 (sz * n * frame_size (i_params i))) (latency (i_params i)) (i_params i)).
  eapply (Hread (set_capture false (Some (next_handle st)) p (i_resampler i) i) (next_handle st)); [|done|done].
  refine (inv_use _ _ _ (at_in id _ (opened _ _ _ _ st)) _ _ _ _);
    [by eapply handle_in_in; [eapply at_in_lookup|]|].
  by eapply inv_in_open; [exact Hid|done|exact Hh|done|by apply in_ok_opened|].
Qed.

Lemma in_ok_last_read i t : iok i -> iok (set_last_read t i).
Proof. by intros []. Qed.

Lemma wp_in_pcm_read x id i bytes st (Q : Z * bool -> audio_hal -> Prop) :
  inv x st -> ins st !! id = Some (Some i) -> (forall r st', inv x st' -> Q r st') ->
  wpu (in_pcm_read E id i bytes) Q st.
Proof.
  intros Hinv Hid HQ. unfold in_pcm_read. wpt.
  assert (Hend : forall r i' st', inv x st' -> ins st' !! id = Some (Some i') ->
    wpu (let silent := (r <=? 0) || mic_mute (adev st) in
         (if r <=? 0 then do_in_realtime_delay E i' bytes else askip);;
         t ← now E;
         put_in id (Some (set_last_read (if t =? 0 then 1 else t) i'));;
         mret (if silent then bytes else r, silent)) Q st').
  { intros r i' st' Hst Hid'. cbn zeta. pose proof (hi_ins _ _ _ _ Hst id i' Hid') as Hok'.
    assert (Hput : forall st2, inv x st2 -> ins st2 = ins st' ->
      wpu (t ← now E; put_in id (Some (set_last_read (if t =? 0 then 1 else t) i'));;
           mret (if (r <=? 0) || mic_mute (adev st) then bytes else r, (r <=? 0) || mic_mute (adev st))) Q st2).
    { intros st2 Hst2 Hi2. wpt. apply HQ. rewrite <- Hi2 in Hid'.
      eapply inv_in_same; [exact Hid'|done|done|by apply in_ok_last_read|done]. }
    apply awp_bind. destruct (r <=? 0); [eapply wp_delay; [exact Hok'|exact Hst|exact Hput]|].
    apply awp_ret. by apply Hput. }
  apply awp_bind. destruct (i_hw i) as [hw|] eqn:Hhw; wpt; [|by apply Hend].
  destruct (in_info _ _ _ _ _ Hinv Hid Hhw) as [s Hs]. apply awp_bind. eapply wp_hw_info; [exact Hs|].
  case_test; wpt; [by apply Hend|]. destruct (stream_is_compressed_in s) eqn:Hc.
  - eapply wp_do_in_compress_read; [|exact Hinv|exact Hid|by eexists|exact Hend].
    destruct (hi_types _ _ _ _ Hinv) as [|Hf]; [done|]. apply bool_decide_eq_true in Hc.
    by destruct (Forall_lookup_1 _ _ _ _ Hf (stream_counts _ _ _ Hs)).
  - eapply wp_do_in_pcm_read; [exact Hinv|exact Hid|by eexists|exact Hend].
Qed.

Lemma wp_voice_started x b id st (Q : unit -> audio_hal -> Prop) :
  inv x st -> (forall st', inv x st' -> ins st' = ins st -> Q tt st') -> wpu (voice_started mx P b id) Q st.
Proof.
  intros Hinv HQ. unfold voice_started, modify_adev. wpt.
  assert (Hset : forall a, inv x (set_adev (set_active a (adev st)) st)) by (intros a; by apply inv_adev_same).
  destruct b; wpt; [eapply wp_audio_started; [apply Hset|]; intros; by apply HQ|].
  case_bool_decide; wpt; [|by apply HQ]. eapply wp_audio_ended; [apply Hset|]. intros. by apply HQ.
Qed.

Lemma in_ok_source i hw source : iok i -> iok (set_source (Some hw) source i).
Proof. intros []. split; cbn; [done|by eexists|done]. Qed.

Lemma wp_change_input_source id i value devices st (Q : Z * in_stream -> audio_hal -> Prop) :
  inv [] st -> ins st !! id = Some (Some i) ->
  (forall r i' st', inv [] st' -> ins st' !! id = Some (Some i') -> Q (r, i') st') ->
  wpu (change_input_source_locked mx P id i value devices) Q st.
Proof.
  intros Hinv Hid HQ. unfold change_input_source_locked. destruct (i_standby i); wpt; [|by apply HQ].
  case_test; wpt; [by apply HQ|].
  assert (Hnew : forall k st' new b, inv [k] st' -> ins st' = ins st ->
    wpu (match i_hw i with Some old => cm_release_stream mx P old | None => askip end;;
         let i := set_source (Some k) new i in
         put_in id (Some i);; voice_started mx P b id;; mret (0, i)) Q st').
  { intros k st' new b Hst Hi. rewrite <- Hi in Hid. cbn zeta.
    pose proof (hi_ins _ _ _ _ Hst id i Hid) as Hok. pose proof (at_in_lookup st' id (Some (set_source (Some k) new i)) _ Hid) as Hid'.
    pose proof (inv_in _ _ [] st' id i (set_source (Some k) new i) Hid eq_refl (in_ok_source _ _ _ Hok) Hst) as Hput.
    assert (Hend : forall st2, inv [] st2 -> ins st2 = ins (at_in id (Some (set_source (Some k) new i)) st') ->
      wpu (voice_started mx P b id;; mret (0, set_source (Some k) new i)) Q st2).
    { intros st2 Hst2 Hi2. apply awp_bind. eapply wp_voice_started; [exact Hst2|]. intros st3 Hst3 Hi3. wpt.
      apply HQ; [done|]. by rewrite Hi3, Hi2. }
    apply awp_bind. destruct (i_hw i) as [old|] eqn:Hhw; wpt; [|by apply Hend].
    destruct (in_info _ _ _ _ _ Hst Hid Hhw) as [s Hs].
    apply wp_release; [by eexists|]. intros c Hc. wpt. apply Hend; [|done].
    exact (inv_give exact ub [] (at_in id (Some (set_source (Some k) new i)) st') old c Hc Hput). }
  pose (R := fun (hw : option nat) st' =>
    match hw with Some k => inv [k] st' /\ ins st' = ins st | None => st' = st end).
  assert (Htake : forall k c, counted_by k 1 (cfg st).1 c.1 -> R (Some k) (set_cfg c st)).
  { intros k c Hc. split; [by apply inv_take|done]. }
  apply awp_bind. eapply (awp_mono _ _ R).
  { destruct (if _ =? SOURCE_VOICE_RECOGNITION P then _ else None); [by apply wp_named|by apply awp_ret]. }
  intros hw st1 H1. apply awp_bind. eapply (awp_mono _ _ R).
  { destruct hw as [k|]; [by apply awp_ret|]. cbn in H1. subst st1. apply wp_get_stream; [done|]. intros. by apply Htake. }
  intros [k|] st2 H2; [|cbn in H2; subst st2; by apply awp_ret, HQ]. destruct H2 as [H2 Hi]. by apply Hnew.
Qed.

Lemma wp_in_set_parameters id i kv st (Q : Z -> audio_hal -> Prop) :
  inv [] st -> ins st !! id = Some (Some i) -> (forall r st', inv [] st' -> Q r st') ->
  wpu (in_pcm_set_parameters mx P id i kv) Q st.
Proof.
  intros Hinv Hid HQ. unfold in_pcm_set_parameters. set (routing := common_get_routing_param P kv).
  assert (Hend : forall r rt i' st', inv [] st' -> ins st' !! id = Some (Some i') ->
    wpu (if (r : Z) <? 0 then mret 0
         else
           match (rt : option Z) with
           | Some d => put_in id (Some (set_in_devices d i'));;
                       match i_hw i' with Some hw => cm_apply_route mx P hw d | None => askip end
           | None => askip
           end;; stream_invoke_usecases mx (i_hw i') kv;; mret 0) Q st').
  { intros r rt i' st' Hst Hid'. destruct (r <? 0); wpt; [by apply HQ|].
    assert (Huse : forall st2, inv [] st2 -> wpu (stream_invoke_usecases mx (i_hw i') kv;; mret 0) Q st2).
    { intros st2 Hst2. apply awp_bind, wp_invoke. intros r' c Hc. wps. by apply HQ, inv_cfg. }
    apply awp_bind. destruct rt as [d|]; [|by apply awp_ret, Huse]. wpt.
    assert (Hput : inv [] (at_in id (Some (set_in_devices d i')) st')).
    { eapply inv_in_same; [exact Hid'|done|done| |done]. by destruct (hi_ins _ _ _ _ Hst id i' Hid'). }
    destruct (i_hw i'); [|by apply awp_ret, Huse]. apply wp_route. intros c Hc. by apply Huse, inv_cfg. }
  apply awp_bind. destruct (get_str P kv (lit "input_source")) as [value|]; [|by apply awp_ret, Hend].
  assert (Hchange : forall devices, wpu ('(ret, i) ← change_input_source_locked mx P id i value devices;
      mret (ret, Some devices, i))
    (fun a st' => wpu (let '(ret, routing, i) := a in
       if ret <? 0 then mret 0
       else
         match routing with
         | Some d => put_in id (Some (set_in_devices d i));;
                     match i_hw i with Some hw => cm_apply_route mx P hw d | None => askip end
         | None => askip
         end;; stream_invoke_usecases mx (i_hw i) kv;; mret 0) Q st') st).
  { intros devices. apply awp_bind, wp_change_input_source with (2 := Hid); [done|]. intros r i' st' Hst Hid'.
    apply awp_ret. by apply (Hend r (Some devices) i' st'). }
  destruct routing as [d|]; wps; [apply Hchange|]. destruct (i_hw i) as [hw|] eqn:Hhw; wps; [|apply Hchange].
  destruct (in_info _ _ _ _ _ Hinv Hid Hhw) as [s Hs]. apply awp_bind, awp_bind. eapply wp_hw_info; [exact Hs|].
  apply awp_ret, Hchange.
Qed.

(** A capture that was put in standby first. *)
Lemma wp_in_close id i st (Q : unit -> audio_hal -> Prop) :
  inv [] st -> ins st !! id = Some (Some i) -> i_standby i = true -> (forall st', inv [] st' -> Q tt st') ->
  wpu (in_close_fn mx P id i) Q st.
Proof.
  intros Hinv Hid Hsb HQ. pose proof (in_handle i (hi_ins _ _ _ _ Hinv id i Hid)) as Hh. rewrite Hsb in Hh.
  unfold in_close_fn.
  assert (Hrelease : forall st' i', inv [] st' -> cfg st' = cfg st \/ True -> ins st' !! id = Some (Some i') ->
    i_hw i' = i_hw i -> i_handle i' = None ->
    wpu (match i_hw i with Some hw => cm_release_stream mx P hw | None => askip end;; put_in id None) Q st').
  { intros st' i' Hst _ Hid' Hhw Hn. pose proof (inv_in_remove _ _ [] st' id i' Hid' Hn Hst) as Hrem.
    rewrite Hhw in Hrem. apply awp_bind. destruct (i_hw i) as [hw|] eqn:Hw; [|by apply awp_ret, wp_put_in, HQ].
    destruct (in_info _ _ _ _ _ Hst Hid' Hhw) as [s Hs]. apply wp_release; [by eexists|]. intros c Hc.
    apply wp_put_in, HQ. exact (inv_give exact ub [] (at_in id None st') hw c Hc Hrem). }
  assert (Hrest : wpu (in_pcm_standby id i;;
    st ← aget;
    (if bool_decide (active_voice_control (adev st) = Some id)
     then modify_adev (set_active None);; voice_trigger_audio_ended_locked mx P else askip);;
    match i_hw i with Some hw => cm_release_stream mx P hw | None => askip end;; put_in id None) Q st).
  { apply awp_bind. eapply wp_in_standby; [exact Hinv|exact Hid|]. intros st' i' Hst Hc Hid' Hhw Hn _. wps.
    apply awp_bind. case_bool_decide; [|apply awp_ret; by eapply Hrelease; [|right| | |]].
    unfold modify_adev. wps. eapply (wp_audio_ended [] (set_adev (set_active None (adev st')) st')).
    - by apply inv_adev_same.
    - intros st2 Hst2 _ Hi2. eapply (Hrelease _ i'); [done|by right|by rewrite Hi2|done|done]. }
  destruct (i_hw i) as [hw|] eqn:Hhw; wps; [|apply Hrest].
  destruct (in_info _ _ _ _ _ Hinv Hid Hhw) as [s Hs]. apply awp_bind, awp_bind. eapply wp_hw_info; [exact Hs|].
  unfold do_in_compress_pcm_close. rewrite Hh. destruct (stream_is_compressed s); apply awp_ret, Hrest.
Qed.

(** ** All calls *)

(** Calls that cannot divide by zero or drain a channel that is not open. *)
Definition call_safe (c : call) : Prop :=
  match c with
  | OutDrain _ _ => False
  | OpenOutput _ c => sample_rate_rq c <> 0
  | OpenInput _ c =>
      let p := init_params P c 0 0 in frame_size p <> 0 /\ wrap_u32 (frame_size p * sample_rate p) <> 0
  | _ => True
  end.

Definition in_standby (id : nat) (st : audio_hal) : Prop :=
  forall i, ins st !! id = Some (Some i) -> i_standby i = true.

(** What a call requires of the captures, and what it leaves. *)
Definition call_before (c : call) (st : audio_hal) : Prop :=
  match c with CloseInput id => in_standby id st | _ => True end.
Definition call_after (c : call) (st : audio_hal) : Prop :=
  match c with InStandby id => in_standby id st | _ => True end.

Lemma wp_with_out id f (Q : unit -> audio_hal -> Prop) st :
  Q tt st -> (forall o, outs st !! id = Some (Some o) -> wpu (f o) Q st) -> wpu (with_out id f) Q st.
Proof. intros H1 H2. unfold with_out. wps. destruct (outs st !! id) as [[o|]|]; wps; auto. Qed.

Lemma wp_with_in id f (Q : unit -> audio_hal -> Prop) st :
  (in_standby id st -> Q tt st) -> (forall i, ins st !! id = Some (Some i) -> wpu (f i) Q st) -> wpu (with_in id f) Q st.
Proof.
  intros H1 H2. unfold with_in. wps. destruct (ins st !! id) as [[i|]|] eqn:Hi; wps; auto;
    apply H1; intros i' Hi'; congruence.
Qed.

Lemma wp_discard {A} (m : AM A) (Q : unit -> audio_hal -> Prop) st : wpu m (fun _ st' => Q tt st') st -> wpu (discard m) Q st.
Proof. intros H. apply awp_bind. eapply awp_mono; [exact H|]. intros a st' HQ. by apply awp_ret. Qed.

Lemma wp_out_call id (f : out_stream -> stream -> AM unit) (Q : unit -> audio_hal -> Prop) st :
  inv [] st -> Q tt st ->
  (forall o s, outs st !! id = Some (Some o) -> stream_array (cfg st).1 !! o_hw o = Some s -> wpu (f o s) Q st) ->
  wpu (with_out id (fun o => s ← hw_info (o_hw o); f o s)) Q st.
Proof.
  intros Hinv H1 H2. apply wp_with_out; [done|]. intros o Hid.
  destruct (out_info _ _ _ _ Hinv Hid) as (s & Hs & _). apply awp_bind. eapply wp_hw_info; [exact Hs|]. by apply H2.
Qed.

Lemma wp_offload_call id f (Q : unit -> audio_hal -> Prop) st :
  inv [] st -> Q tt st ->
  (forall o s, outs st !! id = Some (Some o) -> stream_array (cfg st).1 !! o_hw o = Some s -> is_pcm_out s = false ->
     wpu (f o) Q st) ->
  wpu (with_offload id f) Q st.
Proof.
  intros Hinv H1 H2. apply wp_out_call; [done|done|]. intros o s Hid Hs.
  destruct (is_pcm_out s) eqn:Hp; [by apply awp_ret|by eapply H2].
Qed.

Lemma wp_open_input devices c st (Q : Z -> audio_hal -> Prop) :
  inv [] st -> (ub \/ call_safe (OpenInput devices c)) -> (forall r st', inv [] st' -> Q r st') ->
  wpu (adev_open_input_stream P devices c) Q st.
Proof.
  intros Hinv Hsafe HQ. unfold adev_open_input_stream. wps. apply HQ. apply inv_in_append; [done|done| |done].
  split; cbn; [by split; [intros []|]|done|exact Hsafe].
Qed.

(** Every call keeps the invariant. *)
Lemma wp_run_call c st :
  inv [] st -> (ub \/ call_safe c) -> call_before c st ->
  wpu (run_call mx P E c) (fun _ st' => inv [] st' /\ call_after c st') st.
Proof.
  intros Hinv Hsafe Hbefore.
  assert (Hany : forall st' (a : Z), inv [] st' -> inv [] st' /\ True) by done.
  destruct c; cbn [run_call call_after].
  - apply wp_discard, wp_open_output; [done|exact Hsafe|done].
  - by apply wp_discard, (wp_open_input devices c).
  - by apply wp_discard, wp_set_parameters.
  - unfold modify_adev. wps. split; [|done]. by apply inv_adev_same.
  - apply wp_out_call; [done|done|]. intros o s Hid Hs. apply wp_discard.
    destruct (is_pcm_out s) eqn:Hp; [by eapply wp_out_pcm_write|by eapply wp_out_compress_write].
  - apply wp_with_out; [done|]. intros o Hid. destruct (out_info _ _ _ _ Hinv Hid) as (s & Hs & _).
    eapply wp_out_standby; [done|exact Hid|done|done|by eapply hi_outs|exact Hs|done].
  - apply wp_out_call; [done|done|]. intros o s Hid Hs. apply wp_discard.
    destruct (is_pcm_out s) eqn:Hp; [by eapply wp_out_set_parameters|by eapply wp_out_compress_set_parameters].
  - apply wp_with_out; [done|]. intros o Hid. destruct (out_info _ _ _ _ Hinv Hid) as (s & Hs & _).
    unfold out_set_volume, config_do. apply awp_bind. eapply wp_hw_info; [exact Hs|]. wps. split; [|done].
    by apply inv_cfg.
  - apply wp_offload_call; [done|done|]. intros. apply wp_discard. by eapply wp_out_pause.
  - apply wp_offload_call; [done|done|]. intros. apply wp_discard. by eapply wp_out_resume.
  - apply wp_offload_call; [done|done|]. intros. apply wp_discard. eapply wp_out_drain; try done.
    left. by destruct Hsafe.
  - apply wp_offload_call; [done|done|]. intros. apply wp_discard. by eapply wp_out_flush.
  - apply wp_offload_call; [done|done|]. intros. apply wp_discard. by eapply wp_out_position.
  - apply wp_with_out; [done|]. intros o Hid. by eapply wp_out_close.
  - apply wp_with_in; [done|]. intros i Hid. apply wp_discard. by eapply wp_in_pcm_read.
  - apply wp_with_in; [done|]. intros i Hid. eapply wp_in_standby; [done|exact Hid|].
    intros st' i' Hst _ Hi' _ _ Hsb. split; [done|]. intros i2 Hi2. congruence.
  - apply wp_with_in; [done|]. intros i Hid. apply wp_discard. by eapply wp_in_set_parameters.
  - apply wp_with_in; [done|]. intros i Hid. eapply wp_in_close; [done|exact Hid|by apply Hbefore|done].
Qed.

(** A capture is closed right after it was put in standby; [prev] is the one that was. *)
Fixpoint closes_ok (prev : option nat) (cs : list call) : bool :=
  match cs with
  | [] => true
  | c :: cs =>
      match c with CloseInput id => bool_decide (prev = Some id) | _ => true end &&
      closes_ok (match c with InStandby id => Some id | _ => None end) cs
  end.

Lemma wp_run_calls cs prev st :
  inv [] st -> (ub \/ Forall call_safe cs) -> closes_ok prev cs = true ->
  (forall id, prev = Some id -> in_standby id st) -> wpu (run_calls mx P E cs) (fun _ st' => inv [] st') st.
Proof.
  revert prev st. induction cs as [|c cs IH]; intros prev st Hinv Hsafe Hok Hprev; [done|].
  apply andb_prop in Hok as [Hc Hcs]. cbn [run_calls]. apply awp_bind. eapply awp_mono.
  - apply wp_run_call; [done| |].
    + destruct Hsafe as [|Hsafe]; [by left|right]. by apply Forall_cons in Hsafe as [? _].
    + destruct c; try done. apply bool_decide_eq_true in Hc. by apply Hprev.
  - intros _ st' [Hinv' Hafter]. eapply IH; [done| |exact Hcs|].
    + destruct Hsafe as [|Hsafe]; [by left|right]. by apply Forall_cons in Hsafe as [_ ?].
    + intros id Hid. by destruct c; simplify_eq.
Qed.

End calls.
