(* ===== verification/AudioSafety.v ===== *)
(** * The audio HAL: its properties ([audio/audio_hw.c])

    What [AudioHandles.hal_inv], kept by every call ([AudioCalls.wp_run_call]), gives for
    sequences of calls from [adev_open]; what a capture read answers; and the calls that
    lose a reference or use a handle that was closed. *)

From S2P Require Import Prelude.
From S2P Require Import CString.
From S2P Require Import AudioRouting.
From S2P Require Import AudioRoutes.
From S2P Require Import AudioHal.
From S2P Require Import AudioHandles.
From S2P Require Import AudioCalls.
From Stdlib Require Import Ascii.

(** The configuration as it is read, no stream of it in use. *)
Definition unused (c : state) : Prop := Forall (fun s => ref_count s = 0) (stream_array c.1).

Definition no_stream_of (t : stream_type) (c : state) : Prop := Forall (fun s => s_type s <> t) (stream_array c.1).

(** The bits of outputs are not those of inputs. *)
Definition masks_apart (P : audio_platform) : Prop := Z.land (OUT_ALL (masks P)) (BIT_IN (masks P)) = 0.

Lemma counts_forall (Q : stream_type -> Prop) cm :
  Forall (fun s => Q (s_type s)) (stream_array cm) -> Forall (fun p => Q p.1) (counts cm).
Proof. intros H. unfold counts. apply Forall_fmap. exact H. Qed.

Lemma counted_types k d (Q : stream_type -> Prop) cm cm' :
  counted_by k d cm cm' -> Forall (fun p => Q p.1) (counts cm) -> Forall (fun p => Q p.1) (counts cm').
Proof. apply (types_counted (fun t => t)). Qed.

(** [adev_open] establishes the invariant. *)
Lemma inv_init mx (exact ub : Prop) c :
  unused c -> (ub \/ no_stream_of in_compress c) ->
  (exact -> no_stream_of out_compress c /\ not_trigger (voice_trigger_init (get_named_stream mx (lit "global") c).2.1)) ->
  hal_inv exact ub [] (adev_open mx c).
Proof.
  intros Hu Hin Hex. unfold adev_open. pose proof (counts_get_named mx (lit "global") c) as Hg.
  destruct (get_named_stream mx (lit "global") c) as [g c1]. cbn [fst snd] in Hex.
  assert (Hempty : refs_ok exact [] c.1).
  { split; [constructor|]. intros k t n Hk. apply counts_info in Hk as (s & Hs & _ & Hn).
    assert (n = 0) as -> by (rewrite <- Hn; by apply (Forall_lookup_1 _ _ _ _ Hu Hs)). done. }
  assert (Hv : forall cm, voice_open (voice_trigger_init cm) = false).
  { intros cm. unfold voice_trigger_init. by repeat case_match. }
  assert (Hrefs : refs_ok exact (option_list g) c1.1).
  { destruct g as [k|]; [by eapply refs_ok_take|]. by subst c1. }
  assert (Htypes : forall Q, Forall (fun p : stream_type * Z => Q p.1) (counts c.1) -> Forall (fun p => Q p.1) (counts c1.1)).
  { intros Q HQ. destruct g as [k|]; [by eapply counted_types|]. by subst c1. }
  split; try done.
  - exists []. split_and!; [done|constructor|done|constructor].
  - unfold held, dev_held. cbn. by rewrite Hv, app_nil_r.
  - destruct Hin as [|Hin]; [by left|right]. cbn. apply (Htypes (fun t => t <> in_compress)).
    by apply (counts_forall (fun t => t <> in_compress)).
  - intros He. destruct (Hex He) as [H1 H2]. cbn. split; [|done]. apply (Htypes (fun t => t <> out_compress)).
    by apply (counts_forall (fun t => t <> out_compress)).
Qed.

(** The invariant after a sequence of calls. *)
Lemma inv_calls mx P E (exact ub : Prop) c cs :
  masks_apart P -> unused c -> (ub \/ (no_stream_of in_compress c /\ Forall (call_safe P) cs)) ->
  (exact -> no_stream_of out_compress c /\ not_trigger (voice_trigger_init (get_named_stream mx (lit "global") c).2.1)) ->
  closes_ok None cs = true ->
  wp ub (run_calls mx P E cs) (fun _ st => hal_inv exact ub [] st) (adev_open mx c).
Proof.
  intros Hm Hu Hin Hex Hcl. apply (wp_run_calls mx P E exact ub Hm cs None); [|tauto|done|done].
  apply inv_init; [done|tauto|done].
Qed.

(** C4. Whatever the libraries answer, from a configuration with no stream in use, on a
    platform whose input bit is no output device, and as long as each capture is put in
    standby by the call right before its close: the channels open according to the log are
    exactly those the streams hold, each once, so nothing was used or closed that was not
    open, and what is not a stream's handle has been closed.  Every reference a stream or
    the device holds on a stream of the configuration is counted there.  Without the
    condition on closes it fails: [compress_capture_closed_twice]. *)
Theorem audio_hal_handles mx P E c cs st :
  masks_apart P -> unused c -> closes_ok None cs = true ->
  run_calls mx P E cs (adev_open mx c) = Some (tt, st) ->
  (exists L, live [] (hlog st) = Some L /\ NoDup L /\ L ≡ₚ stream_handles st) /\
  Forall (fun k => exists s, stream_array (cfg st).1 !! k = Some s /\ occ k (held st) <= ref_count s) (held st).
Proof.
  intros Hm Hu Hcl Hrun.
  pose proof (inv_calls mx P E False True c cs Hm Hu (or_introl I) (fun f => match f with end) Hcl) as H.
  unfold wp in H. rewrite Hrun in H. destruct H as [(L & H1 & H2 & H3 & _) [Hf Hr] _ _ _ _].
  split; [by exists L|]. cbn [app] in Hf. eapply Forall_impl; [exact Hf|]. intros k [[t n] Hk].
  pose proof (counts_info _ _ _ _ Hk) as (s & Hs & _ & <-). exists s. split; [done|]. by apply (Hr k t).
Qed.

(** C34. No call crashes, if the configuration has no compressed captures, the streams are
    opened with a rate and a frame size, and none is drained. *)
Theorem audio_hal_safe mx P E c cs :
  masks_apart P -> unused c -> no_stream_of in_compress c -> Forall (call_safe P) cs -> closes_ok None cs = true ->
  exists st, run_calls mx P E cs (adev_open mx c) = Some (tt, st).
Proof.
  intros Hm Hu Hin Hs Hcl.
  pose proof (inv_calls mx P E False False c cs Hm Hu (or_intror (conj Hin Hs)) (fun f => match f with end) Hcl) as H.
  unfold wp in H. destruct (run_calls _ _ _ _ _) as [[[] st]|]; [by exists st|done].
Qed.

(** C8. From a configuration with no stream in use and without offload streams, whose
    voice trigger is not of its own stream alone ([not_trigger]), and as long as each
    capture is put in standby by the call right before its close: the reference count of a
    configured stream is the number of places that hold it, so when all are closed it is
    what it was.  A trigger with a stream of its own alone loses references
    ([trigger_leaks]), as a failing open of an offload stream does
    ([failed_offload_open_leaks]). *)
Theorem audio_hal_refs mx P E c cs st k s :
  masks_apart P -> unused c -> no_stream_of out_compress c ->
  not_trigger (voice_trigger_init (get_named_stream mx (lit "global") c).2.1) -> closes_ok None cs = true ->
  run_calls mx P E cs (adev_open mx c) = Some (tt, st) ->
  stream_array (cfg st).1 !! k = Some s -> ref_count s = occ k (held st).
Proof.
  intros Hm Hu Ho Hv Hcl Hrun Hk.
  pose proof (inv_calls mx P E True True c cs Hm Hu (or_introl I) (fun _ => conj Ho Hv) Hcl) as H.
  unfold wp in H. rewrite Hrun in H. destruct H as [_ [_ Hr] _ _ _ _]. cbn [app] in Hr.
  by apply (Hr k (s_type s) (ref_count s) (stream_counts _ _ _ Hk)).
Qed.

(** ** What a read answers *)

Lemma wp_hw_info_any hw (Q : stream -> audio_hal -> Prop) st :
  (forall s, stream_array (cfg st).1 !! hw = Some s -> Q s st) -> wp True (hw_info hw) Q st.
Proof. intros HQ. unfold hw_info. wps. destruct (stream_array _ !! hw) as [s|] eqn:Hs; wps; [by apply HQ|done]. Qed.

Lemma wp_any {A} (m : AM A) st : wp True m (fun _ _ => True) st.
Proof. unfold wp. by destruct (m st) as [[]|]. Qed.

(** A PCM read has the bytes asked for, or no more than none. *)
Lemma pcm_read_result E id s i bytes st :
  wp True (do_in_pcm_read E id s i bytes) (fun r _ => r.1 = bytes \/ r.1 <= 0) st.
Proof.
  unfold do_in_pcm_read. case_test; wpt; [done|]. apply awp_bind. eapply awp_mono; [apply wp_any|].
  intros [ret i'] st1 _. wpt. destruct (ret <? 0) eqn:Hr; wpt; [right; cbn; lia|].
  destruct (i_handle i'); wpt; [|done]. cbn [fst]. destruct (0 <=? r) eqn:H0; [by left|right; lia].
Qed.

(** A read always succeeds.  The caller gets zeros for all it asked for if the
    microphone is muted, no source was chosen, nothing is routed, the channel cannot be
    opened or it fails; else it gets the bytes asked for, or from a compressed channel
    some number of them. *)
Theorem in_pcm_read_result E id i bytes st r silent st_end :
  in_pcm_read E id i bytes st = Some ((r, silent), st_end) ->
  (mic_mute (adev st) = true -> silent = true) /\ (silent = true -> r = bytes) /\
  (r = bytes \/ silent = false /\ 0 < r /\ exists hw s,
     i_hw i = Some hw /\ stream_array (cfg st).1 !! hw = Some s /\ s_type s = in_compress).
Proof.
  intros Hrun.
  assert (Hwp : wp True (in_pcm_read E id i bytes) (fun a _ =>
    (mic_mute (adev st) = true -> a.2 = true) /\ (a.2 = true -> a.1 = bytes) /\
    (a.1 = bytes \/ a.2 = false /\ 0 < a.1 /\ exists hw s,
       i_hw i = Some hw /\ stream_array (cfg st).1 !! hw = Some s /\ s_type s = in_compress)) st);
    [|unfold wp in Hwp; by rewrite Hrun in Hwp].
  clear Hrun. unfold in_pcm_read. wpt. apply awp_bind.
  apply (awp_mono _ _ (fun a _ => a.1 = bytes \/ a.1 <= 0 \/ exists hw s,
    i_hw i = Some hw /\ stream_array (cfg st).1 !! hw = Some s /\ s_type s = in_compress)).
  - destruct (i_hw i) as [hw|]; wpt; [|by right; left]. apply awp_bind, wp_hw_info_any. intros s Hs.
    case_test; wpt; [by right; left|]. destruct (stream_is_compressed_in s) eqn:Hc.
    + eapply awp_mono; [apply wp_any|]. intros a st1 _. right. right. exists hw, s.
      split; [done|]. split; [done|]. by apply bool_decide_eq_true in Hc.
    + eapply awp_mono; [apply pcm_read_result|]. intros a st1 [Ha|Ha]; [by left|by right; left].
  - intros [ret i'] st2 Hret. cbn [fst] in Hret. apply awp_bind. eapply awp_mono; [apply wp_any|]. intros _ st3 _. wpt.
    cbn [fst snd]. destruct (ret <=? 0) eqn:H0; cbn [orb]; [by split_and!; auto|].
    destruct (mic_mute (adev st)); [by split_and!; auto|]. split; [done|]. split; [done|].
    destruct Hret as [Hret|[Hret|Hret]]; [by left|lia|]. right. split; [done|]. split; [lia|done].
Qed.

(** ** A failed open of an offload stream *)

Lemma counted_ref k d cm cm' : counted_by k d cm cm' -> exists s s',
  stream_array cm !! k = Some s /\ stream_array cm' !! k = Some s' /\ ref_count s' = ref_count s + d /\ s_type s' = s_type s.
Proof.
  intros (s & Hs & Hc). pose proof (stream_counts _ _ _ Hs) as Hk.
  assert (Hk' : counts cm' !! k = Some (s_type s, ref_count s + d)).
  { rewrite Hc, list_lookup_insert_eq by (by eapply lookup_lt_Some). done. }
  apply counts_info in Hk' as (s' & Hs' & Ht & Hn). exists s, s'. done.
Qed.

(** If the codec of an offload stream is not known, or its channel is not ready, the
    open fails and the reference it took on the configured stream stays counted, though
    nothing holds it. *)
Theorem failed_offload_open_leaks mx P E devices c st k c1 :
  masks_apart P -> is_linear_pcm P (format_rq c) = false ->
  get_stream mx (masks P) (Z.land devices (OUT_ALL (masks P))) false (cfg st) = (Some k, c1) ->
  codec_of P (format_rq c) = None \/ (forall l, e_ready E l = false) ->
  exists r st', adev_open_output_stream mx P E devices c st = Some (r, st') /\ r < 0 /\ held st' = held st /\
    exists s s', stream_array (cfg st).1 !! k = Some s /\ stream_array (cfg st').1 !! k = Some s' /\
      ref_count s' = ref_count s + 1.
Proof.
  intros Hm Hpcm Hget Hfail.
  assert (Hwp : wp False (adev_open_output_stream mx P E devices c) (fun r st' => r < 0 /\ held st' = held st /\
    exists s s', stream_array (cfg st).1 !! k = Some s /\ stream_array (cfg st').1 !! k = Some s' /\
      ref_count s' = ref_count s + 1) st).
  2:{ unfold wp in Hwp. destruct (adev_open_output_stream _ _ _ _ _ _) as [[r st']|]; [|done]. by exists r, st'. }
  pose proof (counts_get_stream mx (masks P) (Z.land devices (OUT_ALL (masks P))) false (cfg st)) as Hc.
  rewrite Hget in Hc. destruct Hc as [Hc (s0 & Hs0 & Ht)]. rewrite out_wanted in Ht by done.
  destruct (counted_ref _ _ _ _ Hc) as (s & s' & Hs & Hs' & Hn & Hts).
  unfold adev_open_output_stream. apply awp_bind, wp_config_ask. rewrite Hpcm, Hget. cbn [fst snd].
  apply awp_bind. eapply wp_hw_info; [exact Hs'|]. apply awp_bind, wp_route. intros c2 Hc2.
  destruct (counts_valid _ _ _ Hc2 (ltac:(by eexists) : is_Some (stream_array c1.1 !! k))) as [s2 Hs2].
  assert (Hn2 : ref_count s2 = ref_count s').
  { pose proof (stream_counts _ _ _ Hs2) as H2. cbn in Hc2. rewrite Hc2, (stream_counts _ _ _ Hs') in H2. congruence. }
  assert (is_pcm_out s' = false) as ->.
  { apply bool_decide_eq_false. rewrite Hts. intros Ho. simplify_eq. congruence. }
  assert (Hend : exists s s', stream_array (cfg st).1 !! k = Some s /\ stream_array c2.1 !! k = Some s' /\
    ref_count s' = ref_count s + 1) by (exists s, s2; rewrite Hn2; done).
  unfold do_init_out_compress. cbn [o_params init_params format]. destruct (codec_of P (format_rq c)); wpt; [|done].
  destruct Hfail as [|Hfail]; [done|]. unfold open_output_compress. cbn [o_handle set_offload].
  wps. apply awp_bind, wp_open_handle. unfold is_ready. wps. rewrite Hfail. by wpt.
Qed.

(** ** On a configuration *)

(** A value of a string of pairs: the text after [key=] up to the next semicolon. *)
Definition sample_str (kv key : bytes) : option bytes :=
  let values := omap (fun p => match strchr "="%char p with
                               | Some (n, v) => if bool_decide (n = key) then Some v else None
                               | None => None end) (strtok_tokens ";"%char kv) in
  head values.

Definition sample_platform : audio_platform :=
  mk_platform sample_masks (2 ^ 31 + 4) 6 (255 * 2 ^ 24) (1 * 2 ^ 24) (4 * 2 ^ 24) (5 * 2 ^ 24) (6 * 2 ^ 24) (7 * 2 ^ 24)
    (fun f => Z.land f (255 * 2 ^ 24) =? 0) (fun _ => 2) (fun _ mask => 2 * popcount mask) sample_str.

(** Everything works; the clock stands still. *)
Definition sample_env : audio_env := mk_env (fun _ => true) (fun _ => 0) (fun _ => (4096, 4)) (fun _ => 7).

Definition sample_named (t : stream_type) (name : string) (instances : Z) : stream :=
  mk_stream t 1 2 16000 0 0 (Some (lit name)) 0 instances (-1) (-1) 0 no_control no_control [].

Definition sample_hal_config : config_mgr :=
  mk_cm [mk_device 2 0 [sample_path 1; sample_path 0]; mk_device (2 ^ 31 + 4) 0 [sample_path 1; sample_path 0]]
    [sample_stream out_pcm 2 (-1) (-1) 0; sample_stream in_pcm INT_MAX (-1) (-1) 0;
     sample_named in_hw "voice recognition" 2; sample_named global "global" 1] 2 (2 ^ 31 + 4).

Definition stereo : audio_config := mk_config 44100 3 1.

(** Music, and a recording that goes on to another source; a trigger word in between. *)
Definition hal_calls : list call :=
  [OpenOutput 2 stereo; OutWrite 0 4096; OpenInput (2 ^ 31 + 4) (mk_config 16000 1 1);
   InSetParameters 0 (lit "input_source=1;routing=-2147483644"); InRead 0 640;
   SetParameters (lit "voice_trigger=1"); SetParameters (lit "voice_trigger=2"); InStandby 0;
   InSetParameters 0 (lit "input_source=6;routing=-2147483644"); InRead 0 640; OutWrite 0 4096; OutStandby 0;
   SetMicMute true; InRead 0 640].

Definition hal_end : audio_hal :=
  match run_calls sample_mixer sample_platform sample_env hal_calls (adev_open sample_mixer (sample_hal_config, [])) with
  | Some (_, st) => st
  | None => adev_open sample_mixer (sample_hal_config, [])
  end.

(** What was done to the channels, and who holds what at the end. *)
Example hal_end_is :
  (live [] (hlog hal_end), stream_handles hal_end, held hal_end, ref_count <$> stream_array (cfg hal_end).1,
   voice_st (adev hal_end)) = (Some [2]%nat, [2]%nat, [0; 2; 3; 2]%nat, [1; 0; 2; 1], eVoiceRecogAudio).
Proof. vm_compute. reflexivity. Qed.

Example audio_hal_handles_witness :
  (exists L, live [] (hlog hal_end) = Some L /\ NoDup L /\ L ≡ₚ stream_handles hal_end) /\
  Forall (fun k => exists s, stream_array (cfg hal_end).1 !! k = Some s /\ occ k (held hal_end) <= ref_count s)
    (held hal_end).
Proof.
  apply (audio_hal_handles sample_mixer sample_platform sample_env (sample_hal_config, []) hal_calls).
  - reflexivity.
  - repeat constructor.
  - reflexivity.
  - vm_compute. reflexivity.
Defined.

Example audio_hal_safe_witness :
  exists st, run_calls sample_mixer sample_platform sample_env hal_calls (adev_open sample_mixer (sample_hal_config, [])) =
    Some (tt, st).
Proof.
  apply (audio_hal_safe sample_mixer sample_platform sample_env (sample_hal_config, []) hal_calls).
  - reflexivity.
  - repeat constructor.
  - repeat constructor; discriminate.
  - repeat constructor; vm_compute; discriminate.
  - reflexivity.
Defined.

Example audio_hal_refs_witness : exists s, stream_array (cfg hal_end).1 !! 2%nat = Some s /\ ref_count s = 2.
Proof.
  eexists. split; [vm_compute; reflexivity|]. transitivity (occ 2 (held hal_end)); [|vm_compute; reflexivity].
  apply (audio_hal_refs sample_mixer sample_platform sample_env (sample_hal_config, []) hal_calls hal_end).
  - reflexivity.
  - repeat constructor.
  - repeat constructor; discriminate.
  - vm_compute. repeat split; discriminate.
  - reflexivity.
  - vm_compute. reflexivity.
  - vm_compute. reflexivity.
Defined.

(** The microphone is muted at the end. *)
Definition hal_capture : in_stream :=
  match ins hal_end !! 0%nat with
  | Some (Some i) => i
  | _ => mk_in None true None (init_params sample_platform stereo 0 0) 0 0 0 false
  end.

Definition read_end : audio_hal :=
  match in_pcm_read sample_env 0 hal_capture 640 hal_end with Some (_, st) => st | None => hal_end end.

Example in_pcm_read_result_witness :
  (mic_mute (adev hal_end) = true -> true = true) /\ (true = true -> 640 = 640) /\
  (640 = 640 \/ true = false /\ 0 < 640 /\ exists hw s,
     i_hw hal_capture = Some hw /\ stream_array (cfg hal_end).1 !! hw = Some s /\ s_type s = in_compress).
Proof. apply (in_pcm_read_result sample_env 0 hal_capture 640 hal_end 640 true read_end). vm_compute. reflexivity. Defined.

(** An offload stream that two players may use; its channel is never ready. *)
Definition offload_config : config_mgr :=
  mk_cm [mk_device 2 0 [sample_path 1; sample_path 0]] [sample_stream out_compress 2 (-1) (-1) 0] 2 0.

Definition broken_env : audio_env := mk_env (fun _ => false) (fun _ => 0) (fun _ => (4096, 4)) (fun _ => 7).

Definition mp3 : audio_config := mk_config 44100 3 (2 ^ 24).
Definition offload_start : audio_hal := adev_open sample_mixer (offload_config, []).
Definition offload_taken : state := (get_stream sample_mixer sample_masks 2 false (offload_config, [])).2.

Example failed_offload_open_leaks_witness : exists r st',
  adev_open_output_stream sample_mixer sample_platform broken_env 2 mp3 offload_start = Some (r, st') /\ r < 0 /\
  held st' = held offload_start /\
  exists s s', stream_array (cfg offload_start).1 !! 0%nat = Some s /\ stream_array (cfg st').1 !! 0%nat = Some s' /\
    ref_count s' = ref_count s + 1.
Proof.
  apply (failed_offload_open_leaks sample_mixer sample_platform broken_env 2 mp3 offload_start 0 offload_taken).
  - reflexivity.
  - reflexivity.
  - vm_compute. reflexivity.
  - right. reflexivity.
Defined.

(** ** Calls that go wrong *)

Definition run_from (cm : config_mgr) (E : audio_env) (cs : list call) : option audio_hal :=
  snd <$> run_calls sample_mixer sample_platform E cs (adev_open sample_mixer (cm, [])).

(** After two failed opens the stream is never free again, with a channel that works. *)
Example offload_exhausted : exists st,
  run_from offload_config broken_env [OpenOutput 2 mp3; OpenOutput 2 mp3] = Some st /\
  (exists st', adev_open_output_stream sample_mixer sample_platform sample_env 2 mp3 st = Some (- EINVAL, st')) /\
  held st = [].
Proof. eexists. split; [vm_compute; reflexivity|]. split; [eexists; vm_compute; reflexivity|reflexivity]. Qed.

(** A capture through a compressed channel that is closed while it runs: its channel is
    stopped and closed, then stopped and closed again. *)
Definition compress_capture_config : config_mgr :=
  mk_cm [mk_device (2 ^ 31 + 4) 0 [sample_path 1; sample_path 0]]
    [sample_stream in_compress 1 (-1) (-1) 0] 0 (2 ^ 31 + 4).

Example compress_capture_closed_twice : exists st,
  run_from compress_capture_config sample_env
    [OpenInput (2 ^ 31 + 4) (mk_config 16000 1 (2 ^ 24));
     InSetParameters 0 (lit "input_source=1;routing=-2147483644"); InRead 0 640; CloseInput 0] = Some st /\
  live [] (hlog st) = None /\
  hlog st = [Open 0 false true 1 0; Use 0 CompressStart; Use 0 (CompressRead 640); Use 0 CompressStop; Close 0;
             Use 0 CompressStop; Close 0].
Proof. eexists. split; [vm_compute; reflexivity|]. split; vm_compute; reflexivity. Qed.

(** A channel that is not ready is a null dereference. *)
Example compress_capture_not_ready :
  run_from compress_capture_config broken_env
    [OpenInput (2 ^ 31 + 4) (mk_config 16000 1 (2 ^ 24));
     InSetParameters 0 (lit "input_source=1;routing=-2147483644"); InRead 0 640] = None.
Proof. vm_compute. reflexivity. Qed.

(** A trigger that fired and is enabled again: disabling it does not give back the
    stream, and it cannot be enabled any more. *)
Definition trigger_config : config_mgr :=
  mk_cm [mk_device (2 ^ 31 + 4) 0 [sample_path 1; sample_path 0]]
    [sample_named in_hw "voice trigger" 1] 0 (2 ^ 31 + 4).

Example trigger_leaks : exists st,
  run_from trigger_config sample_env
    [SetParameters (lit "voice_trigger=1"); SetParameters (lit "voice_trigger=2");
     SetParameters (lit "voice_trigger=1"); SetParameters (lit "voice_trigger=0")] = Some st /\
  voice_st (adev st) = eVoiceTriggerIdle /\ held st = [] /\ (ref_count <$> stream_array (cfg st).1) = [1] /\
  (get_named_stream sample_mixer kVoiceTriggerStreamName (cfg st)).1 = None.
Proof. eexists. split; [vm_compute; reflexivity|]. repeat split; vm_compute; reflexivity. Qed.

(** An output opened without a rate divides by it. *)
Example open_without_rate : run_from sample_hal_config sample_env [OpenOutput 2 (mk_config 0 3 1)] = None.
Proof. vm_compute. reflexivity. Qed.

(** A capture that has no routing yet, and is given none, gets an output stream. *)
Example capture_on_output : exists st i,
  run_from sample_hal_config sample_env [OpenInput (2 ^ 31 + 4) (mk_config 16000 1 1); InSetParameters 0 (lit "input_source=1")] =
    Some st /\ ins st = [Some i] /\ i_hw i = Some 0%nat /\
  (s_type <$> stream_array (cfg st).1 !! 0%nat) = Some out_pcm.
Proof. eexists _, _. split; [vm_compute; reflexivity|]. repeat split; vm_compute; reflexivity. Qed.
