(* ===== verification/AudioAsync.v ===== *)
(** * The callback thread of an offload stream ([audio/audio_hw.c])

    With a callback registered ([out_compress_set_callback]) an offload stream does not
    block: [out_compress_write] and [out_compress_drain] leave a request for the thread
    [out_compress_async_fn], which waits for the channel and calls back.  The thread and
    the framework's calls as a step relation; a critical section is one step, and so is
    each access outside of one.  Condition waits may wake up spuriously. *)

From S2P Require Import Prelude.

Inductive async_mode := ASYNC_NONE | ASYNC_POLL | ASYNC_EARLY_DRAIN | ASYNC_FULL_DRAIN.

#[export] Instance async_mode_eq_dec : EqDecision async_mode.
Proof. solve_decision. Defined.

Inductive callback_event := STREAM_CBK_EVENT_WRITE_READY | STREAM_CBK_EVENT_DRAIN_READY.

(** What the thread does on the channel. *)
Inductive channel_op := compress_wait | compress_next_track | compress_partial_drain | compress_drain.

Definition work_ops (m : async_mode) : list channel_op :=
  match m with
  | ASYNC_NONE => []
  | ASYNC_POLL => [compress_wait]
  | ASYNC_EARLY_DRAIN => [compress_next_track; compress_partial_drain]
  | ASYNC_FULL_DRAIN => [compress_drain]
  end.

Definition work_event (m : async_mode) : option callback_event :=
  match m with
  | ASYNC_NONE => None
  | ASYNC_POLL => Some STREAM_CBK_EVENT_WRITE_READY
  | ASYNC_EARLY_DRAIN | ASYNC_FULL_DRAIN => Some STREAM_CBK_EVENT_DRAIN_READY
  end.

(** Where the thread is.  [out] is its local variable, null or the stream. *)
Inductive thread_pc :=
| TStart                             (* before [out] is read *)
| TLoop (out : bool)                 (* at [while (!pW->exit)] *)
| TLock (out : bool)                 (* about to lock and wait *)
| TWaiting (out : bool)
| TWoken (out : bool)                (* signalled, not yet holding the lock again *)
| TWork (out : bool) (m : async_mode)
| TDone
| TCrashed.

(** Where the framework is: in [out_set_callback] after [pthread_create], free to call,
    in [pthread_join], done with the stream. *)
Inductive client_pc := CCreated | CIdle | CJoining | CClosed.

(** [accepted] and [answered] are history: the requests that were not refused, and those
    called back; [ops] is what was done on the channel. *)
Record async_state := mk_async {
  exit_flag : bool; mode : async_mode; stored_stream : bool; thread : thread_pc; client : client_pc;
  accepted : list async_mode; answered : list async_mode; ops : list channel_op;
  callbacks : list callback_event }.

Definition set_thread (t : thread_pc) (st : async_state) : async_state :=
  mk_async (exit_flag st) (mode st) (stored_stream st) t (client st) (accepted st) (answered st) (ops st)
    (callbacks st).
Definition set_client (c : client_pc) (st : async_state) : async_state :=
  mk_async (exit_flag st) (mode st) (stored_stream st) (thread st) c (accepted st) (answered st) (ops st)
    (callbacks st).

(** [pthread_cond_signal]: wakes the thread if it waits. *)
Definition signalled (t : thread_pc) : thread_pc :=
  match t with TWaiting out => TWoken out | _ => t end.

(** [out_set_callback] up to the creation of the thread, of a zeroed stream. *)
Definition set_callback : async_state := mk_async false ASYNC_NONE false TStart CCreated [] [] [] [].

(** The rest of [out_set_callback]. *)
Definition store_stream (st : async_state) : async_state :=
  mk_async (exit_flag st) (mode st) true (thread st) CIdle (accepted st) (answered st) (ops st) (callbacks st).

(** [EBUSY] is [false]. *)
Definition signal_async_thread (m : async_mode) (st : async_state) : bool * async_state :=
  if decide (mode st = ASYNC_NONE) then
    (true, mk_async (exit_flag st) m (stored_stream st) (signalled (thread st)) (client st) (accepted st ++ [m])
             (answered st) (ops st) (callbacks st))
  else (false, st).

(** [do_close_out_common] up to [pthread_join]. *)
Definition signal_exit (st : async_state) : async_state :=
  mk_async true (mode st) (stored_stream st) (signalled (thread st)) CJoining (accepted st) (answered st) (ops st)
    (callbacks st).

(** The thread has the lock again: it leaves, with the lock, or takes the request. *)
Definition take_request (out : bool) (st : async_state) : async_state :=
  if exit_flag st then set_thread TDone st
  else mk_async false ASYNC_NONE (stored_stream st) (TWork out (mode st)) (client st) (accepted st) (answered st)
         (ops st) (callbacks st).

(** The [switch]; [out] is used by every case but the default. *)
Definition do_work (out : bool) (m : async_mode) (st : async_state) : async_state :=
  match work_event m with
  | None => set_thread (TLoop out) st
  | Some e =>
      if out then
        mk_async (exit_flag st) (mode st) (stored_stream st) (TLoop out) (client st) (accepted st)
          (answered st ++ [m]) (ops st ++ work_ops m) (callbacks st ++ [e])
      else set_thread TCrashed st
  end.

(** One step; [true] marks a spurious wake-up. *)
Inductive async_step : bool -> async_state -> async_state -> Prop :=
| step_read_stream st :
    thread st = TStart -> async_step false st (set_thread (TLoop (stored_stream st)) st)
| step_test_exit st out :
    thread st = TLoop out -> async_step false st (set_thread (if exit_flag st then TDone else TLock out) st)
| step_wait st out : thread st = TLock out -> async_step false st (set_thread (TWaiting out) st)
| step_spurious st out : thread st = TWaiting out -> async_step true st (set_thread (TWoken out) st)
| step_take st out : thread st = TWoken out -> async_step false st (take_request out st)
| step_work st out m : thread st = TWork out m -> async_step false st (do_work out m st)
| step_store st : client st = CCreated -> async_step false st (store_stream st)
| step_signal st m :
    client st = CIdle -> m <> ASYNC_NONE -> async_step false st (signal_async_thread m st).2
| step_close st : client st = CIdle -> async_step false st (signal_exit st)
| step_join st : client st = CJoining -> thread st = TDone -> async_step false st (set_client CClosed st).

Inductive async_steps (spurious : bool) : async_state -> async_state -> Prop :=
| steps_refl st : async_steps spurious st st
| steps_step st st' st'' b :
    (b = true -> spurious = true) -> async_step b st st' -> async_steps spurious st' st'' ->
    async_steps spurious st st''.

Lemma steps_move s st st' st'' : async_step false st st' -> async_steps s st' st'' -> async_steps s st st''.
Proof. intros Hs. by apply (steps_step s _ _ _ false). Qed.

(** What holds before and after every step holds at the end. *)
Lemma steps_inv (Q : async_state -> Prop) s st st' :
  (forall b st st', (b = true -> s = true) -> async_step b st st' -> Q st -> Q st') ->
  async_steps s st st' -> Q st -> Q st'.
Proof. intros Hstep. induction 1; [done|]. intros HQ. eauto. Qed.

(** ** Requests and callbacks *)

Definition in_work (t : thread_pc) : list async_mode :=
  match t with TWork _ m => if decide (m = ASYNC_NONE) then [] else [m] | _ => [] end.

Definition pending (m : async_mode) : list async_mode := if decide (m = ASYNC_NONE) then [] else [m].

(** What the thread has taken and not called back, once it crashed. *)
Definition mailbox (st : async_state) : Prop :=
  callbacks st = omap work_event (answered st) /\ ops st = mjoin (work_ops <$> answered st) /\
  Forall (fun m => m <> ASYNC_NONE) (accepted st) /\
  exists lost, accepted st = answered st ++ lost ++ in_work (thread st) ++ pending (mode st) /\
    (thread st <> TCrashed -> lost = []).

Lemma in_work_signalled t : in_work (signalled t) = in_work t.
Proof. by destruct t. Qed.

Lemma signalled_crashed t : signalled t = TCrashed -> t = TCrashed.
Proof. by destruct t. Qed.

Lemma mailbox_step b st st' : async_step b st st' -> mailbox st -> mailbox st'.
Proof.
  intros Hstep (Hcb & Hops & Hne & lost & Hacc & Hlost).
  assert (Hmove : forall t c, in_work t = in_work (thread st) -> t <> TCrashed -> thread st <> TCrashed ->
    mailbox (set_client c (set_thread t st))).
  { intros t c Ht Hc Hc'. split; [done|]. split; [done|]. split; [done|]. exists lost. cbn. rewrite Ht. auto. }
  destruct Hstep as [st Ht|st out Ht|st out Ht|st out Ht|st out Ht|st out m Ht|st Hc|st m Hc Hm|st Hc|st Hc Ht].
  - by apply (Hmove _ (client st)); rewrite ?Ht.
  - apply (Hmove _ (client st)); rewrite ?Ht; by destruct (exit_flag st).
  - by apply (Hmove _ (client st)); rewrite ?Ht.
  - by apply (Hmove _ (client st)); rewrite ?Ht.
  - unfold take_request. destruct (exit_flag st); [by apply (Hmove _ (client st)); rewrite ?Ht|].
    split; [done|]. split; [done|]. split; [done|]. exists []. split; [|done]. cbn.
    rewrite Ht in Hlost, Hacc. by rewrite app_nil_r, Hacc, Hlost.
  - rewrite Ht in Hacc, Hlost. specialize (Hlost ltac:(done)). subst lost. unfold do_work.
    destruct (work_event m) as [e|] eqn:He.
    + assert (Hin : in_work (TWork out m) = [m]) by (cbn; by rewrite decide_False by (by intros ->)).
      rewrite Hin in Hacc. destruct out.
      * split; [|split; [|split; [done|]]]; cbn.
        -- rewrite omap_app, Hcb. cbn. by rewrite He.
        -- rewrite fmap_app, join_app, Hops. cbn. by rewrite app_nil_r.
        -- exists []. split; [|done]. cbn. by rewrite Hacc, <- app_assoc.
      * split; [done|]. split; [done|]. split; [done|]. exists [m]. split; [done|]. by intros [].
    + apply (Hmove _ (client st)); rewrite ?Ht; [|done|done]. by destruct m.
  - split; [done|]. split; [done|]. split; [done|]. by exists lost.
  - unfold signal_async_thread. destruct (decide (mode st = ASYNC_NONE)) as [Hn|].
    2:{ split; [done|]. split; [done|]. split; [done|]. by exists lost. }
    split; [done|]. split; [done|]. split; [apply Forall_app; split; [done|by repeat constructor]|].
    exists lost. cbn.
    rewrite in_work_signalled. unfold pending in *. rewrite Hn in Hacc. rewrite decide_True in Hacc by done.
    rewrite decide_False by done. rewrite Hacc, app_nil_r, <- !app_assoc. split; [done|].
    intros Hc2. apply Hlost. intros Hc3. by rewrite Hc3 in Hc2.
  - split; [done|]. split; [done|]. split; [done|]. exists lost. cbn. rewrite in_work_signalled. split; [done|].
    intros Hc2. apply Hlost. intros Hc3. by rewrite Hc3 in Hc2.
  - rewrite Ht in Hlost. split; [done|]. split; [done|]. split; [done|]. exists lost. split; [done|].
    cbn. by rewrite Ht.
Qed.

(** C20. The thread is a mailbox of one letter: in every reachable state the requests that
    were accepted are, in their order, those called back, with one callback each, of the
    kind asked for, after the channel operations it needs, then the one the thread is
    working on, then the one left for it; only a thread that crashed drops one.  None is
    served twice or out of order; but one left before the thread waits may never be served:
    [async_lost_wakeup]. *)
Theorem async_mailbox st :
  async_steps true set_callback st ->
  callbacks st = omap work_event (answered st) /\ ops st = mjoin (work_ops <$> answered st) /\
  exists lost, accepted st = answered st ++ lost ++ in_work (thread st) ++ pending (mode st) /\
    (thread st <> TCrashed -> lost = []).
Proof.
  intros Hsteps. assert (Hm : mailbox st).
  { eapply (steps_inv mailbox); [intros; by eapply mailbox_step|exact Hsteps|]. do 3 (split; [done|]). by exists []. }
  by destruct Hm as (H1 & H2 & _ & H3).
Qed.

(** ** Requests that are never answered *)

(** A request is left and the thread waits for a signal: no signal comes, since requests
    are refused. *)
Definition stuck (st : async_state) : Prop :=
  mode st <> ASYNC_NONE /\ client st = CIdle /\ exists out, thread st = TWaiting out.

Definition close_free (c : client_pc) : Prop := c = CCreated \/ c = CIdle.

Lemma stuck_step st st' : async_step false st st' -> stuck st -> close_free (client st') ->
  stuck st' /\ accepted st' = accepted st /\ callbacks st' = callbacks st.
Proof.
  intros Hstep (Hm & Hc & out & Ht) Hfree. inversion Hstep; subst; cbn in *; try congruence.
  - unfold signal_async_thread in *. rewrite decide_False in * by done. split; [by split; [|split; [|exists out]]|done].
  - by destruct Hfree.
Qed.

(** The steps of a run that does not close the stream. *)
Inductive open_steps : async_state -> async_state -> Prop :=
| open_refl st : open_steps st st
| open_step st st' st'' :
    async_step false st st' -> close_free (client st') -> open_steps st' st'' -> open_steps st st''.

Lemma stuck_forever st st' : open_steps st st' -> stuck st ->
  stuck st' /\ accepted st' = accepted st /\ callbacks st' = callbacks st.
Proof.
  induction 1 as [st|st st1 st2 Hstep Hfree Hrest IH]; [done|]. intros Hst.
  destruct (stuck_step _ _ Hstep Hst Hfree) as (H1 & H2 & H3). destruct (IH H1) as (H4 & H5 & H6).
  rewrite H5, H6. done.
Qed.

(** The closing thread waits for a thread that waits. *)
Definition hung (st : async_state) : Prop := client st = CJoining /\ exists out, thread st = TWaiting out.

Lemma hung_step b st st' : (b = true -> false = true) -> async_step b st st' -> hung st -> hung st'.
Proof. intros Hb Hstep (Hc & out & Ht). inversion Hstep; subst; cbn in *; try congruence. by specialize (Hb eq_refl). Qed.

Ltac async_run := repeat (eapply steps_move; [ |]).

(** Two wake-ups are lost if the signal comes before the thread waits, which it does
    without looking whether there is something to do: a write that leaves its request
    then is never called back, all later requests are refused as busy; and a close
    then waits for the thread for ever.  Only a spurious wake-up helps. *)
Theorem async_lost_wakeup :
  (exists st, async_steps false set_callback st /\ accepted st = [ASYNC_POLL] /\
     forall st' m, open_steps st st' -> m <> ASYNC_NONE ->
       callbacks st' = [] /\ signal_async_thread m st' = (false, st')) /\
  (exists st, async_steps false set_callback st /\ accepted st = [] /\
     forall st', async_steps false st st' -> client st' = CJoining).
Proof.
  split.
  - eexists. split; [|split].
    + eapply steps_move; [by apply step_store|].
      eapply steps_move; [by apply step_read_stream|].
      eapply steps_move; [by eapply (step_test_exit _ true)|].
      eapply steps_move; [by apply (step_signal _ ASYNC_POLL)|].
      eapply steps_move; [by eapply (step_wait _ true)|]. apply steps_refl.
    + done.
    + intros st' m Hrun Hm. destruct (stuck_forever _ _ Hrun) as ((H1 & _) & _ & H3).
      { split; [done|]. split; [done|]. by exists true. }
      split; [exact H3|]. unfold signal_async_thread. by rewrite decide_False.
  - eexists. split; [|split].
    + eapply steps_move; [by apply step_store|].
      eapply steps_move; [by apply step_read_stream|].
      eapply steps_move; [by eapply (step_test_exit _ true)|].
      eapply steps_move; [by apply step_close|].
      eapply steps_move; [by eapply (step_wait _ true)|]. apply steps_refl.
    + done.
    + intros st' Hrun. eapply (steps_inv hung); [apply hung_step|exact Hrun|]. split; [done|]. by exists true.
Qed.

(** A request that finds the thread waiting is answered. *)
Lemma async_served st m : mode st = ASYNC_NONE -> thread st = TWaiting true -> exit_flag st = false -> m <> ASYNC_NONE ->
  client st = CIdle ->
  exists st' e, async_steps false st st' /\ work_event m = Some e /\ callbacks st' = callbacks st ++ [e] /\
    thread st' = TLoop true /\ mode st' = ASYNC_NONE.
Proof.
  intros Hn Ht Hx Hm Hc. assert (exists e, work_event m = Some e) as [e He] by (destruct m; [done|by eexists..]).
  set (st1 := (signal_async_thread m st).2).
  assert (Hst1 : thread st1 = TWoken true /\ exit_flag st1 = false /\ mode st1 = m /\ callbacks st1 = callbacks st).
  { unfold st1, signal_async_thread. rewrite decide_True by done. cbn. by rewrite Ht. }
  destruct Hst1 as (H1 & H2 & H3 & H4). set (st2 := take_request true st1).
  assert (Hst2 : thread st2 = TWork true m /\ callbacks st2 = callbacks st /\ mode st2 = ASYNC_NONE).
  { unfold st2, take_request. rewrite H2. cbn. by rewrite H3. }
  destruct Hst2 as (H5 & H6 & H7). exists (do_work true m st2), e. split; [|split; [done|]].
  - eapply steps_move; [by apply step_signal|]. eapply steps_move; [by apply step_take|].
    eapply steps_move; [by apply step_work|apply steps_refl].
  - unfold do_work. rewrite He. cbn. by rewrite H6, H7.
Qed.

(** The thread may run before the stream it works on is stored: its first request is then
    a null dereference. *)
Example async_null_stream : exists st, async_steps false set_callback st /\ thread st = TCrashed.
Proof.
  eexists. split.
  - eapply steps_move; [by apply step_read_stream|].
    eapply steps_move; [by eapply (step_test_exit _ false)|].
    eapply steps_move; [by eapply (step_wait _ false)|].
    eapply steps_move; [by apply step_store|].
    eapply steps_move; [by apply (step_signal _ ASYNC_POLL)|].
    eapply steps_move; [by eapply (step_take _ false)|].
    eapply steps_move; [by eapply (step_work _ false ASYNC_POLL)|]. apply steps_refl.
  - done.
Qed.

(** A write that finds the thread waiting. *)
Definition waiting_start : async_state := set_thread (TWaiting true) (store_stream set_callback).
Definition answered_run : async_state :=
  do_work true ASYNC_POLL (take_request true (signal_async_thread ASYNC_POLL waiting_start).2).

Example async_mailbox_witness :
  callbacks answered_run = omap work_event (answered answered_run) /\
  ops answered_run = mjoin (work_ops <$> answered answered_run) /\
  exists lost, accepted answered_run =
      answered answered_run ++ lost ++ in_work (thread answered_run) ++ pending (mode answered_run) /\
    (thread answered_run <> TCrashed -> lost = []).
Proof.
  apply (async_mailbox answered_run). eapply steps_move; [by apply step_store|].
  eapply steps_move; [by apply step_read_stream|]. eapply steps_move; [by eapply (step_test_exit _ true)|].
  eapply steps_move; [by eapply (step_wait _ true)|]. eapply steps_move; [by apply (step_signal _ ASYNC_POLL)|].
  eapply steps_move; [by eapply (step_take _ true)|]. eapply steps_move; [by eapply (step_work _ true ASYNC_POLL)|].
  apply steps_refl.
Defined.

Example answered_run_is : (answered answered_run, callbacks answered_run, ops answered_run) =
  ([ASYNC_POLL], [STREAM_CBK_EVENT_WRITE_READY], [compress_wait]).
Proof. reflexivity. Qed.
