(* ===== verification/Resampler.v ===== *)
(** * What a capture's resampler is fed ([audio/audio_hw.c])

    [in_resampler_init], [get_next_buffer] and [release_buffer]: a PCM capture whose rate
    is not the stream's is read a buffer at a time and handed to the resampler in the
    pieces it asks for.  What [pcm_readi] returns and writes is an argument. *)

From S2P Require Import Prelude.
From S2P Require Import AudioHal.

Definition ENODEV : Z := 19.

(** [struct in_resampler] with the samples of [buffer]; [pcm_reads] counts the reads. *)
Record in_resampler := mk_rsp {
  buffer : list Z; in_buffer_size : Z; in_buffer_frames : Z; frames_in : Z; read_status : Z;
  pcm_reads : nat }.

(** The sizes of [in_resampler_init]; a fresh buffer holds anything. *)
Definition in_resampler_init (frame_size channels hw_fragment : Z) (fresh : list Z) : in_resampler :=
  let size := wrap_u32 (hw_fragment * channels * frame_size) in
  mk_rsp fresh size (size / (channels * frame_size)) 0 0 0.

Definition set_frames (n : Z) (r : in_resampler) : in_resampler :=
  mk_rsp (buffer r) (in_buffer_size r) (in_buffer_frames r) n (read_status r) (pcm_reads r).

(** The loop that keeps the left channel, in place. *)
Definition discard_right (frames : Z) (l : list Z) : list Z :=
  foldl (fun l i => <[i := default 0 (l !! (i * 2)%nat)]> l) l (seq 1 (Z.to_nat frames - 1)).

Section provider.
(** The result of each read of so many frames, and the samples it leaves at the start of
    the buffer; the channels of the stream and of the hardware. *)
Context (pcm_readi : nat -> Z -> Z * list Z) (channel_count hw_channel_count : Z).

(** A handle was opened.  The status, and on success the samples from [buffer->i16] on
    and [frame_count]. *)
Definition get_next_buffer (want : Z) (r : in_resampler) : Z * (list Z * Z) * in_resampler :=
  let '(ok, r) :=
    if frames_in r =? 0 then
      let '(status, samples) := pcm_readi (pcm_reads r) (pcm_bytes_to_frames hw_channel_count (in_buffer_size r)) in
      if status <? 0
      then (false, mk_rsp (buffer r) (in_buffer_size r) (in_buffer_frames r) 0 status (S (pcm_reads r)))
      else
        let buf := zwrite 0 samples (buffer r) in
        let buf := if (channel_count =? 1) && (hw_channel_count =? 2)
                   then discard_right (in_buffer_frames r) buf else buf in
        (true, mk_rsp buf (in_buffer_size r) (in_buffer_frames r) (in_buffer_frames r) status (S (pcm_reads r)))
    else (true, r) in
  if ok : bool
  then ((read_status r, (drop (Z.to_nat (in_buffer_frames r - frames_in r)) (buffer r), Z.min want (frames_in r))), r)
  else ((read_status r, ([], 0)), r).

Definition release_buffer (frame_count : Z) (r : in_resampler) : in_resampler :=
  set_frames (frames_in r - frame_count) r.

(** The resampler asks for [want] frames, uses [used] of what it got, and releases them;
    [channels] samples each. *)
Definition feed (channels : Z) (ask : Z * Z) (x : list Z * in_resampler) : list Z * in_resampler :=
  let '((_, (samples, count)), r) := get_next_buffer (Z.max 0 (fst ask)) (snd x) in
  let used := Z.max 0 (Z.min (snd ask) count) in
  (fst x ++ take (Z.to_nat (used * channels)) samples, release_buffer used r).

Fixpoint feeds (channels : Z) (asks : list (Z * Z)) (x : list Z * in_resampler) : list Z * in_resampler :=
  match asks with
  | [] => x
  | a :: asks => feeds channels asks (feed channels a x)
  end.

(** The samples of the first [n] reads. *)
Definition captured (frames : Z) (n : nat) : list Z :=
  mjoin ((fun k => let '(status, samples) := pcm_readi k frames in if status <? 0 then [] else samples) <$> seq 0 n).

Lemma captured_S frames n :
  captured frames (S n) =
    captured frames n ++ (let '(status, samples) := pcm_readi n frames in if status <? 0 then [] else samples).
Proof.
  unfold captured. rewrite seq_S, fmap_app, join_app. cbn. by rewrite app_nil_r.
Qed.

(** A read that succeeds fills what it was asked for. *)
Definition reads_full (channels : Z) : Prop :=
  forall k frames status samples, pcm_readi k frames = (status, samples) -> 0 <= frames -> 0 <= status ->
    zlen samples = frames * channels.

(** ** One channel *)

Section mono.
Context (Hmono : channel_count = 1) (Hhw : hw_channel_count = 1) (Hfull : reads_full 1) (frames : Z).

Record mono_inv (x : list Z * in_resampler) : Prop := {
  mi_frames : in_buffer_frames x.2 = frames;
  mi_size : pcm_bytes_to_frames 1 (in_buffer_size x.2) = frames;
  mi_len : zlen (buffer x.2) = frames;
  mi_in : 0 <= frames_in x.2 <= frames;
  mi_data : x.1 ++ drop (Z.to_nat (frames - frames_in x.2)) (buffer x.2) = captured frames (pcm_reads x.2) }.

Lemma zwrite_all {A} (xs l : list A) : length xs = length l -> zwrite 0 xs l = xs.
Proof.
  intros Hl. apply list_eq. intros i. unfold zwrite. cbn. destruct (decide (i < length xs)%nat).
  - rewrite list_lookup_inserts by lia. by rewrite Nat.sub_0_r.
  - rewrite !lookup_ge_None_2; [done|lia|rewrite length_inserts; lia].
Qed.

Lemma feed_inv a x : mono_inv x -> mono_inv (feed 1 a x).
Proof.
  destruct x as [out r], a as [want used]. intros [H1 H2 H3 H4 H5]. cbn [fst snd] in *.
  unfold feed, get_next_buffer. cbn [fst snd]. rewrite Hhw, H2, Hmono, H1. cbn [Z.eqb Pos.eqb andb].
  assert (Hrelease : forall r', in_buffer_frames r' = frames -> pcm_bytes_to_frames 1 (in_buffer_size r') = frames ->
    zlen (buffer r') = frames -> 0 <= frames_in r' <= frames ->
    out ++ drop (Z.to_nat (frames - frames_in r')) (buffer r') = captured frames (pcm_reads r') ->
    let used := Z.max 0 (Z.min used (Z.min (Z.max 0 want) (frames_in r'))) in
    mono_inv (out ++ take (Z.to_nat (used * 1)) (drop (Z.to_nat (frames - frames_in r')) (buffer r')), release_buffer used r')).
  { intros r' G1 G2 G3 G4 G5 u. assert (Hu : 0 <= u <= frames_in r') by (unfold u; lia).
    split; cbn [fst snd release_buffer set_frames in_buffer_frames in_buffer_size buffer frames_in pcm_reads]; try done.
    { lia. }
    rewrite <- G5, <- app_assoc. f_equal. rewrite Z.mul_1_r.
    rewrite <- (take_drop (Z.to_nat u) (drop (Z.to_nat (frames - frames_in r')) (buffer r'))) at 2. f_equal.
    rewrite drop_drop. f_equal. lia. }
  case_test; [|rewrite H1; by apply Hrelease].
  destruct (pcm_readi (pcm_reads r) frames) as [status samples] eqn:Hread. destruct (status <? 0) eqn:Hs.
  - rewrite take_nil, app_nil_r. assert (Z.max 0 (Z.min used 0) = 0) as -> by lia.
    split; cbn [fst snd release_buffer set_frames in_buffer_frames in_buffer_size buffer frames_in pcm_reads]; try done.
    { lia. }
    rewrite captured_S, Hread, Hs, app_nil_r, <- H5. f_equal. f_equal. lia.
  - assert (Hlen : zlen samples = frames) by (rewrite (Hfull _ _ _ _ Hread) by lia; lia).
    assert (Hw : zwrite 0 samples (buffer r) = samples) by (apply zwrite_all; unfold zlen in *; lia).
    rewrite Hw. apply (Hrelease (mk_rsp samples (in_buffer_size r) frames frames status (S (pcm_reads r))));
      cbn [in_buffer_frames in_buffer_size buffer frames_in pcm_reads]; try done; [lia|].
    rewrite captured_S, Hread, Hs, Z.sub_diag. cbn. rewrite <- H5. f_equal.
    rewrite drop_ge by (unfold zlen in *; lia). by rewrite app_nil_r.
Qed.

Lemma feeds_inv asks x : mono_inv x -> mono_inv (feeds 1 asks x).
Proof. revert x. induction asks as [|a asks IH]; intros x Hx; [done|]. by apply IH, feed_inv. Qed.
End mono.
End provider.

(** ** Sizes *)

(** A period of [period] frames, of a capture with [channels] 16-bit channels. *)
Definition fresh_resampler (channels period : Z) (fresh : list Z) : in_resampler :=
  in_resampler_init (channels * 2) channels (pcm_frames_to_bytes channels period) fresh.

(** The fragment's bytes are taken for frames. *)
Lemma resampler_frames channels period fresh :
  1 <= channels <= 8 -> 1 <= period < 2 ^ 16 ->
  in_buffer_frames (fresh_resampler channels period fresh) = period * channels * 2 /\
  in_buffer_size (fresh_resampler channels period fresh) = period * channels * 2 * channels * (channels * 2) /\
  pcm_bytes_to_frames channels (in_buffer_size (fresh_resampler channels period fresh)) =
    period * channels * 2 * channels.
Proof.
  intros Hc Hp. unfold fresh_resampler, in_resampler_init, pcm_frames_to_bytes, pcm_bytes_to_frames. cbn [in_buffer_frames in_buffer_size].
  assert (Hb : 0 <= period * channels * 2 < 2 ^ 20) by nia.
  rewrite (wrap_u32_id (period * channels * 2)) by lia. rewrite wrap_u32_id by nia. split_and!.
  - rewrite <- Z.mul_assoc. apply Z.div_mul. nia.
  - done.
  - apply Z.div_mul. nia.
Qed.

(** A mono capture feeds its resampler the samples of the PCM device, in their order,
    none twice and none left out: whatever pieces the resampler asks for and uses, and
    whichever reads fail, what it has used is the start of what was read, and the rest of
    it is still in the buffer. *)
Theorem resampler_mono_exact pcm_readi period fresh asks out r :
  reads_full pcm_readi 1 -> 1 <= period < 2 ^ 16 -> zlen fresh = 2 * period ->
  feeds pcm_readi 1 1 1 asks ([], fresh_resampler 1 period fresh) = (out, r) ->
  exists rest, out ++ rest = captured pcm_readi (2 * period) (pcm_reads r) /\ zlen rest = frames_in r /\
    0 <= frames_in r <= 2 * period.
Proof.
  intros Hfull Hp Hfresh Hrun. destruct (resampler_frames 1 period fresh) as (H1 & H2 & H3); [lia|lia|].
  assert (Hinit : mono_inv pcm_readi (2 * period) ([], fresh_resampler 1 period fresh)).
  { split; cbn [fst snd]; [lia|lia|done|cbn; lia|]. cbn. rewrite drop_ge by (unfold zlen in *; lia). done. }
  pose proof (feeds_inv pcm_readi 1 1 eq_refl eq_refl Hfull (2 * period) asks _ Hinit) as Hend.
  rewrite Hrun in Hend. destruct Hend as [G1 G2 G3 G4 G5]. cbn [fst snd] in *.
  exists (drop (Z.to_nat (2 * period - frames_in r)) (buffer r)). split; [done|]. split; [|done].
  unfold zlen in *. rewrite length_drop. lia.
Qed.

(** A counter as the microphone; the third read fails. *)
Definition sample_readi (k : nat) (frames : Z) : Z * list Z :=
  (if (k =? 2)%nat then -5 else 0, (fun j => Z.of_nat k * 100 + Z.of_nat j) <$> seq 0 (Z.to_nat frames)).

Definition mono_asks : list (Z * Z) := [(3, 3); (3, 2); (9, 9); (5, 1); (4, 2)].
Definition mono_end : list Z * in_resampler :=
  feeds sample_readi 1 1 1 mono_asks ([], fresh_resampler 1 2 [0; 0; 0; 0]).

Example mono_end_is : (mono_end.1, frames_in mono_end.2, pcm_reads mono_end.2) =
  ([0; 1; 2; 3; 100; 101; 102; 103; 300; 301], 2, 4%nat).
Proof. vm_compute. reflexivity. Qed.

Example resampler_mono_exact_witness : exists rest,
  mono_end.1 ++ rest = captured sample_readi 4 (pcm_reads mono_end.2) /\ zlen rest = frames_in mono_end.2 /\
  0 <= frames_in mono_end.2 <= 4.
Proof.
  apply (resampler_mono_exact sample_readi 2 [0; 0; 0; 0] mono_asks mono_end.1 mono_end.2).
  - intros k frames status samples Hk Hf Hs. unfold sample_readi in Hk. injection Hk as Hst <-.
    unfold zlen. rewrite length_fmap, length_seq. lia.
  - lia.
  - reflexivity.
  - vm_compute. reflexivity.
Defined.

(** Two channels: the frames counted are half of those read, and the pointer moves one
    sample per frame.  Two frames of four, then the two others: the second piece starts
    with the second frame of the first, and samples 6 to 15 are never used. *)
Example stereo_is_wrong :
  let readi k frames := sample_readi k (frames * 2) in
  let x := feeds readi 2 2 2 [(2, 2); (2, 2); (2, 2)] ([], fresh_resampler 2 1 (replicate 16 0)) in
  (x.1, captured readi 8 1) =
  ([0; 1; 2; 3; 2; 3; 4; 5; 100; 101; 102; 103], [0; 1; 2; 3; 4; 5; 6; 7; 8; 9; 10; 11; 12; 13; 14; 15]).
Proof. vm_compute. reflexivity. Qed.
