(* ===== verification/CameraParams.v ===== *)
(** * Camera parameters ([libmocha/camera/CameraParameters.cpp])

    The parameter map of the camera API and its text form [k=v;k=v].  The map
    itself is a [KeyedVector] of the platform's utility library: the class
    [KeyedVectorOk] states what it promises.  The typed accessors (sizes, frame
    rates, size lists) are written against the class [ParamStore], which
    [CameraParams2] implements a second time.  A key or a value is the buffer a
    [const char *] points to; the code reads it up to its NUL. *)

From S2P Require Import Prelude.
From S2P Require Import CString.
From Stdlib Require Import Ascii.

Abbreviation param := (bytes * bytes)%type.

(** ** The text form *)

(** The loop of [flatten], [i] counting up to [size]. *)
Fixpoint flatten_from (size i : nat) (l : list param) : bytes :=
  match l with
  | [] => []
  | (k, v) :: r =>
      k ++ lit "=" ++ v ++ (if Nat.eqb i (size - 1) then [] else lit ";") ++ flatten_from size (S i) r
  end.

Definition flatten_entries (l : list param) : bytes := flatten_from (length l) 0 l.

(** The loop of [unflatten]; every round moves [a] past one separator. *)
Fixpoint unflatten_from {M} (add : M -> bytes -> bytes -> M) (fuel : nat) (a : bytes) (m : M)
  : option M :=
  match fuel with
  | O => None
  | S fuel =>
      match strchr "=" a with
      | None => Some m
      | Some (k, a) =>
          match strchr ";" a with
          | None => Some (add m k a)
          | Some (v, a) => unflatten_from add fuel a (add m k v)
          end
      end
  end.

Definition unflatten_text {M} (add : M -> bytes -> bytes -> M) (empty : M) (params : bytes)
  : option M :=
  unflatten_from add (S (length (cstr params))) (cstr params) empty.

(** The test of [set] on a key or a value. *)
Definition has_separator (s : bytes) : bool :=
  bool_decide (is_Some (strchr "=" s)) || bool_decide (is_Some (strchr ";" s)).

(** ** Pairs and lists of integers *)

(** [parse_pair]: the two integers and the text behind them. *)
Definition parse_pair (str : bytes) (delim : ascii) : option (Z * Z * bytes) :=
  let '(w, e) := strtol10 str in
  match e with
  | c :: r => if Ascii.eqb c delim then let '(h, e) := strtol10 r in Some (w, h, e) else None
  | [] => None
  end.

(** The loop of [parseSizesList]: the sizes pushed, [None] out of fuel. *)
Fixpoint parse_sizes (fuel : nat) (s : bytes) (sizes : list (Z * Z)) : option (list (Z * Z)) :=
  match fuel with
  | O => None
  | S fuel =>
      match parse_pair s "x" with
      | None => Some sizes
      | Some (width, height, []) => Some (sizes ++ [(width, height)])
      | Some (width, height, c :: r) =>
          if Ascii.eqb c "," then parse_sizes fuel r (sizes ++ [(width, height)]) else Some sizes
      end
  end.

Definition parseSizesList (sizesStr : option bytes) (sizes : list (Z * Z)) : option (list (Z * Z)) :=
  match sizesStr with
  | None => Some sizes
  | Some s => parse_sizes (S (length s)) s sizes
  end.

(** ** The typed accessors *)

(** What the accessors use of a parameter class; a [set] that aborts the program is
    [None]. *)
Class ParamStore (P : Type) := {
  ps_set : P -> bytes -> bytes -> option P;
  ps_get : P -> bytes -> option bytes }.

Definition clean (s : bytes) : Prop := has_separator s = false /\ cstr s = s.

(** Reading back a value that was set, on the states [ok] describes. *)
Class ParamStoreOk (P : Type) `{ParamStore P} (ok : P -> Prop) := {
  ps_get_set p k v : ok p -> clean k -> clean v -> v <> [] ->
    exists p', ps_set p k v = Some p' /\ ps_get p' k = Some v }.

Definition KEY_PREVIEW_SIZE := lit "preview-size".
Definition KEY_SUPPORTED_PREVIEW_SIZES := lit "preview-size-values".
Definition KEY_PREVIEW_FORMAT := lit "preview-format".
Definition KEY_SUPPORTED_PREVIEW_FORMATS := lit "preview-format-values".
Definition KEY_PREVIEW_FRAME_RATE := lit "preview-frame-rate".
Definition KEY_PREVIEW_FPS_RANGE := lit "preview-fps-range".
Definition KEY_PICTURE_SIZE := lit "picture-size".
Definition KEY_SUPPORTED_PICTURE_SIZES := lit "picture-size-values".
Definition KEY_PICTURE_FORMAT := lit "picture-format".
Definition KEY_VIDEO_SIZE := lit "video-size".
Definition KEY_SUPPORTED_VIDEO_SIZES := lit "video-size-values".
Definition KEY_PREFERRED_PREVIEW_SIZE_FOR_VIDEO := lit "preferred-preview-size-for-video".

Section accessors.
Context {P : Type} `{ParamStore P}.

(** [set] of an [int]; [None] also when [str] overflows. *)
Definition set_int (p : P) (key : bytes) (value : Z) : option P :=
  str ← sprintf 16 (lit (print_int value)); ps_set p key str.

Definition getInt (p : P) (key : bytes) : Z :=
  match ps_get p key with Some v => strtol_auto v | None => -1 end.

Definition set_pair (p : P) (key : bytes) (a : Z) (delim : ascii) (b : Z) : option P :=
  str ← sprintf 32 (lit (print_int a) ++ delim :: lit (print_int b)); ps_set p key str.

Definition get_pair (p : P) (key : bytes) (delim : ascii) : Z * Z :=
  match ps_get p key with
  | None => (-1, -1)
  | Some str => match parse_pair str delim with Some (a, b, _) => (a, b) | None => (-1, -1) end
  end.

Definition setPreviewSize p width height := set_pair p KEY_PREVIEW_SIZE width "x" height.
Definition getPreviewSize p := get_pair p KEY_PREVIEW_SIZE "x".
Definition getPreferredPreviewSizeForVideo p := get_pair p KEY_PREFERRED_PREVIEW_SIZE_FOR_VIDEO "x".
Definition getSupportedPreviewSizes p sizes := parseSizesList (ps_get p KEY_SUPPORTED_PREVIEW_SIZES) sizes.
Definition setVideoSize p width height := set_pair p KEY_VIDEO_SIZE width "x" height.
Definition getVideoSize p := get_pair p KEY_VIDEO_SIZE "x".
Definition getSupportedVideoSizes p sizes := parseSizesList (ps_get p KEY_SUPPORTED_VIDEO_SIZES) sizes.
Definition setPreviewFrameRate p fps := set_int p KEY_PREVIEW_FRAME_RATE fps.
Definition getPreviewFrameRate p := getInt p KEY_PREVIEW_FRAME_RATE.
Definition getPreviewFpsRange p := get_pair p KEY_PREVIEW_FPS_RANGE ",".
Definition setPreviewFormat (p : P) format := ps_set p KEY_PREVIEW_FORMAT format.
Definition getPreviewFormat (p : P) := ps_get p KEY_PREVIEW_FORMAT.
Definition setPictureSize p width height := set_pair p KEY_PICTURE_SIZE width "x" height.
Definition getPictureSize p := get_pair p KEY_PICTURE_SIZE "x".
Definition getSupportedPictureSizes p sizes := parseSizesList (ps_get p KEY_SUPPORTED_PICTURE_SIZES) sizes.
Definition setPictureFormat (p : P) format := ps_set p KEY_PICTURE_FORMAT format.
Definition getPictureFormat (p : P) := ps_get p KEY_PICTURE_FORMAT.

End accessors.

(** ** Preview formats *)

(** Constants of [system/graphics.h]. *)
Record pixel_formats := mk_formats {
  YCbCr_422_SP : Z; YCrCb_420_SP : Z; YCbCr_422_I : Z; YV12 : Z; RGB_565 : Z;
  RGBA_8888 : Z; RAW16 : Z }.

Definition previewFormatToEnum (f : pixel_formats) (format : option bytes) : Z :=
  match format with
  | None => YCrCb_420_SP f
  | Some s =>
      if bool_decide (s = lit "yuv422sp") then YCbCr_422_SP f
      else if bool_decide (s = lit "yuv420sp") then YCrCb_420_SP f
      else if bool_decide (s = lit "yuv422i-yuyv") then YCbCr_422_I f
      else if bool_decide (s = lit "yuv420p") then YV12 f
      else if bool_decide (s = lit "rgb565") then RGB_565 f
      else if bool_decide (s = lit "rgba8888") then RGBA_8888 f
      else if bool_decide (s = lit "bayer-rggb") then RAW16 f
      else -1
  end.

(** The formats added to the caller's vector. *)
Definition getSupportedPreviewFormats {P} `{ParamStore P} (f : pixel_formats) (p : P)
    (formats : list Z) : list Z :=
  match ps_get p KEY_SUPPORTED_PREVIEW_FORMATS with
  | None => formats
  | Some fmts =>
      formats ++ filter (fun actual => actual <> -1)
        ((fun fmt => previewFormatToEnum f (Some fmt)) <$> strtok_tokens "," fmts)
  end.

(** ** The class over a [KeyedVector] *)

(** The operations of [KeyedVector<String8, String8>] the class calls.
    [kv_valueFor] of an absent key is the empty string. *)
Class KeyedVector (M : Type) := {
  kv_empty : M;
  kv_add : M -> bytes -> bytes -> M;
  kv_replaceValueFor : M -> bytes -> bytes -> M;
  kv_removeItem : M -> bytes -> M;
  kv_valueFor : M -> bytes -> bytes;
  kv_entries : M -> list param }.

(** One entry per key; the entries determine the vector. *)
Class KeyedVectorOk (M : Type) `{KeyedVector M} := {
  kv_nodup m : NoDup (kv_entries m).*1;
  kv_entries_empty : kv_entries kv_empty = [];
  kv_entries_add m k v k' v' : (k', v') ∈ kv_entries (kv_add m k v) <->
    (k' = k /\ v' = v) \/ (k' <> k /\ (k', v') ∈ kv_entries m);
  kv_entries_replace m k v k' v' : (k', v') ∈ kv_entries (kv_replaceValueFor m k v) <->
    (k' = k /\ v' = v) \/ (k' <> k /\ (k', v') ∈ kv_entries m);
  kv_entries_remove m k k' v' : (k', v') ∈ kv_entries (kv_removeItem m k) <->
    k' <> k /\ (k', v') ∈ kv_entries m;
  kv_value m k v : (k, v) ∈ kv_entries m -> kv_valueFor m k = v;
  kv_value_none m k : k ∉ (kv_entries m).*1 -> kv_valueFor m k = [];
  kv_ext m m' : (forall k v, (k, v) ∈ kv_entries m <-> (k, v) ∈ kv_entries m') -> m = m' }.

Section params.
Context {M : Type} `{KeyedVector M}.

Definition flatten (m : M) : bytes := flatten_entries (kv_entries m).

Definition unflatten (params : bytes) : option M := unflatten_text kv_add kv_empty params.

(** [None] is a null pointer. *)
Definition set (m : M) (key value : option bytes) : M :=
  match key, value with
  | Some key, Some value =>
      let key := cstr key in
      let value := cstr value in
      if has_separator key then m
      else if has_separator value then m
      else kv_replaceValueFor m key value
  | _, _ => m
  end.

Definition get (m : M) (key : bytes) : option bytes :=
  let v := kv_valueFor m (cstr key) in
  if decide (v = []) then None else Some v.

Definition remove (m : M) (key : bytes) : M := kv_removeItem m (cstr key).

Definition isEmpty (m : M) : bool := Nat.eqb (length (kv_entries m)) 0.

(** What the typed accessors see. *)
Definition CameraParameters_store : ParamStore M := {|
  ps_set m k v := Some (set m (Some k) (Some v));
  ps_get := get |}.

(** Any call that changes the map. *)
Inductive params_op :=
| Set_ (key value : option bytes)
| Remove (key : bytes)
| Unflatten (params : bytes).

Definition run_op (o : params_op) (m : M) : option M :=
  match o with
  | Set_ k v => Some (set m k v)
  | Remove k => Some (remove m k)
  | Unflatten s => unflatten s
  end.

Fixpoint run_ops (os : list params_op) (m : M) : option M :=
  match os with
  | [] => Some m
  | o :: os => m ← run_op o m; run_ops os m
  end.

End params.

(** ** The text form: lemmas *)

Definition lacks (c : ascii) (s : bytes) : Prop := Forall (fun x => Ascii.eqb x c = false) s.

(** What every entry satisfies: the key has no [=], the value no [;]. *)
Definition entry_ok (kv : param) : Prop :=
  lacks "=" kv.1 /\ lacks ";" kv.2 /\ lacks NUL kv.1 /\ lacks NUL kv.2.

Fixpoint text_of (l : list param) : bytes :=
  match l with
  | [] => []
  | [(k, v)] => k ++ "="%char :: v
  | (k, v) :: r => k ++ "="%char :: v ++ ";"%char :: text_of r
  end.

Lemma flatten_from_text l size i :
  (i + length l = size)%nat -> flatten_from size i l = text_of l.
Proof.
  revert i; induction l as [|[k v] l IH]; intros i Hi; [done|].
  assert (Hs : Nat.eqb i (size - 1) = match l with [] => true | _ => false end).
  { destruct l; simpl in Hi; [apply Nat.eqb_eq | apply Nat.eqb_neq]; lia. }
  cbn [flatten_from]. rewrite Hs, IH by (simpl in Hi; lia).
  destruct l as [|kv l]; cbn [lit text_of String.list_ascii_of_string app];
    [by rewrite app_nil_r | done].
Qed.

Lemma flatten_text l : flatten_entries l = text_of l.
Proof. by apply flatten_from_text. Qed.

Lemma text_of_no_nul l : Forall entry_ok l -> lacks NUL (text_of l).
Proof.
  unfold lacks. induction 1 as [|[k v] l (_ & _ & Hk & Hv) Hl IH]; simpl; [done|].
  revert IH. generalize (text_of l) as t. intros t IH. simpl in *.
  destruct l; repeat rewrite ?Forall_app, ?Forall_cons; by split_and!.
Qed.

Lemma lacks_cstr s : lacks NUL s -> cstr s = s.
Proof. intros Hs. pose proof (cstr_app s [] Hs) as Hc. by rewrite !app_nil_r in Hc. Qed.

Lemma cstr_lacks s : lacks NUL (cstr s).
Proof. unfold lacks. induction s as [|c s IH]; simpl; [done|]. case_test; by constructor. Qed.

Section unflatten.
Context {M : Type} (add : M -> bytes -> bytes -> M).

(** Adding a list of entries in order. *)
Definition add_all (m : M) (l : list param) : M := foldl (fun m kv => add m kv.1 kv.2) m l.

Lemma unflatten_text_of l fuel m :
  Forall entry_ok l -> (length (text_of l) < fuel)%nat ->
  unflatten_from add fuel (text_of l) m = Some (add_all m l).
Proof.
  intros Hl. revert fuel m; induction Hl as [|[k v] l (Hk & Hv & _) Hl IH]; intros [|fuel] m Hf;
    try (simpl in Hf; lia); [done|].
  destruct l as [|kv l].
  - cbn [text_of unflatten_from add_all foldl]. rewrite strchr_app by done.
    apply strchr_none in Hv. simpl in Hv. by rewrite Hv.
  - change (text_of ((k, v) :: kv :: l)) with (k ++ "="%char :: v ++ ";"%char :: text_of (kv :: l)) in *.
    cbn [unflatten_from]. rewrite !strchr_app by done. rewrite IH; [done|].
    rewrite !length_app in Hf. cbn [length] in Hf. rewrite length_app in Hf.
    cbn [length] in Hf. lia.
Qed.

(** Every text is read to its end, one entry at a time. *)
Lemma unflatten_from_inv (I : M -> Prop) fuel a m :
  (forall m k v, I m -> entry_ok (k, v) -> I (add m k v)) ->
  (length a < fuel)%nat -> lacks NUL a -> I m ->
  exists m', unflatten_from add fuel a m = Some m' /\ I m'.
Proof.
  intros Hadd. revert a m; induction fuel as [|fuel IH]; intros a m Hf Ha Hm; [lia|].
  cbn [unflatten_from]. destruct (strchr "=" a) as [[k a1]|] eqn:Hk; [|by eauto].
  apply strchr_some in Hk as [-> Hk]. apply Forall_app in Ha as [Hkn Ha].
  apply Forall_cons in Ha as [_ Ha]. rewrite length_app in Hf. cbn [length] in Hf.
  destruct (strchr ";" a1) as [[v a2]|] eqn:Hv.
  - apply strchr_some in Hv as [-> Hv]. apply Forall_app in Ha as [Hvn Ha].
    apply Forall_cons in Ha as [_ Ha]. rewrite length_app in Hf. cbn [length] in Hf.
    apply IH; [lia|done|]. by apply Hadd.
  - eexists; split; [done|]. apply strchr_none in Hv. by apply Hadd.
Qed.

Lemma unflatten_inv (I : M -> Prop) empty params :
  (forall m k v, I m -> entry_ok (k, v) -> I (add m k v)) -> I empty ->
  exists m, unflatten_text add empty params = Some m /\ I m.
Proof. intros. apply unflatten_from_inv; [done|lia|apply cstr_lacks|done]. Qed.

End unflatten.

Lemma unflatten_flatten {M} (add : M -> bytes -> bytes -> M) empty l :
  Forall entry_ok l ->
  unflatten_text add empty (flatten_entries l) = Some (add_all add empty l).
Proof.
  intros Hl. unfold unflatten_text. rewrite flatten_text, lacks_cstr by by apply text_of_no_nul.
  apply unflatten_text_of; [done|lia].
Qed.

(** What the tests of [set] establish. *)
Lemma no_separator s : has_separator s = false -> lacks "=" s /\ lacks ";" s.
Proof.
  unfold has_separator, lacks. intros Hs. apply orb_false_iff in Hs as [H1 H2].
  apply bool_decide_eq_false, eq_None_not_Some in H1.
  apply bool_decide_eq_false, eq_None_not_Some in H2. by rewrite !strchr_none.
Qed.

Lemma lacks_separator s : lacks "=" s -> lacks ";" s -> has_separator s = false.
Proof.
  unfold has_separator, lacks. rewrite !strchr_none. by intros -> ->.
Qed.

Lemma set_entry_ok k v :
  has_separator (cstr k) = false -> has_separator (cstr v) = false -> entry_ok (cstr k, cstr v).
Proof.
  intros [? _]%no_separator [_ ?]%no_separator. split_and!; try done; apply cstr_lacks.
Qed.

(** ** The map over a [KeyedVector]: lemmas *)

Section keyed.
Context {M : Type} `{KeyedVectorOk M}.

Definition params_wf (m : M) : Prop := Forall entry_ok (kv_entries m).

Lemma empty_wf : params_wf (kv_empty : M).
Proof. unfold params_wf. by rewrite kv_entries_empty. Qed.

Lemma add_wf (m : M) k v : params_wf m -> entry_ok (k, v) -> params_wf (kv_add m k v).
Proof.
  unfold params_wf. rewrite !Forall_forall. intros Hm Hkv [k' v'] Hin.
  apply kv_entries_add in Hin as [[-> ->]|[_ Hin]]; [done|by apply Hm].
Qed.

Lemma replace_wf (m : M) k v :
  params_wf m -> entry_ok (k, v) -> params_wf (kv_replaceValueFor m k v).
Proof.
  unfold params_wf. rewrite !Forall_forall. intros Hm Hkv [k' v'] Hin.
  apply kv_entries_replace in Hin as [[-> ->]|[_ Hin]]; [done|by apply Hm].
Qed.

Lemma run_op_wf o (m : M) : params_wf m -> exists m', run_op o m = Some m' /\ params_wf m'.
Proof.
  intros Hm. destruct o as [k v|k|s]; simpl.
  - eexists; split; [done|]. unfold set. destruct k as [k|], v as [v|]; [|done..].
    case_test; [done|]. case_test; [done|]. apply replace_wf; [done|by apply set_entry_ok].
  - eexists; split; [done|]. unfold params_wf. rewrite Forall_forall. intros [k' v'] Hin.
    apply kv_entries_remove in Hin as [_ Hin]. unfold params_wf in Hm.
    rewrite Forall_forall in Hm. by apply Hm.
  - apply unflatten_inv; [apply add_wf|apply empty_wf].
Qed.

Lemma run_ops_wf os (m : M) : params_wf m -> exists m', run_ops os m = Some m' /\ params_wf m'.
Proof.
  revert m; induction os as [|o os IH]; intros m Hm; simpl; [by eauto|].
  destruct (run_op_wf o m Hm) as (m1 & -> & H1). simpl. by apply IH.
Qed.

Lemma add_all_entries l (m : M) k v :
  NoDup l.*1 ->
  ((k, v) ∈ kv_entries (add_all kv_add m l) <->
  ((k, v) ∈ l) \/ ((k ∉ l.*1) /\ ((k, v) ∈ kv_entries m))).
Proof.
  revert m; induction l as [|[k0 v0] l IH]; intros m Hl.
  - set_solver.
  - change (add_all kv_add m ((k0, v0) :: l)) with (add_all kv_add (kv_add m k0 v0) l).
    apply NoDup_cons in Hl as [Hk0 Hl]. rewrite IH by done. cbn. rewrite kv_entries_add.
    rewrite !elem_of_cons. split.
    + intros [Hin|[Hn [[-> ->]|[Hne Hin]]]]; [by auto|by auto|]. right. split; [|done].
      intros [->|?]; done.
    + intros [[Heq|Hin]|[Hn Hin]].
      * simplify_eq. right. auto.
      * by left.
      * right. split; [naive_solver|]. right. split; [naive_solver|done].
Qed.

Lemma readd_all (m : M) : add_all kv_add kv_empty (kv_entries m) = m.
Proof.
  apply kv_ext. intros k v. rewrite add_all_entries by apply kv_nodup.
  rewrite kv_entries_empty. set_solver.
Qed.

Lemma clean_cstr s : clean s -> cstr s = s.
Proof. by intros [_ ?]. Qed.

Lemma get_set_same (m : M) k v :
  clean k -> clean v -> v <> [] -> get (set m (Some k) (Some v)) k = Some v.
Proof.
  intros [Hk Hkc] [Hv Hvc] Hne. unfold get, set. rewrite Hkc, Hvc, Hk, Hv.
  rewrite (kv_value _ k v); [by rewrite decide_False|]. apply kv_entries_replace. by left.
Qed.

Lemma CameraParameters_store_ok :
  @ParamStoreOk M CameraParameters_store (fun _ => True).
Proof. split. intros p k v _ Hk Hv Hne. eexists. split; [done|]. by apply get_set_same. Qed.

(** ** Round trips *)

(** Whatever sequence of [set], [remove] and [unflatten] calls, with any arguments,
    has produced a parameter map, the calls all return, and unflattening the text
    [flatten] makes of the map gives the map back. *)
Theorem params_flatten_roundtrip (os : list params_op) :
  exists m : M, run_ops os kv_empty = Some m /\ unflatten (flatten m) = Some m.
Proof.
  destruct (run_ops_wf os kv_empty empty_wf) as (m & Hm & Hwf). exists m. split; [done|].
  unfold unflatten, flatten. rewrite unflatten_flatten by done. by rewrite readd_all.
Qed.

End keyed.

(** ** Pairs and lists: lemmas *)

Lemma parse_pair_print a b c r :
  is_int a -> is_int b -> digit_value c = None -> starts_digit r = false ->
  parse_pair (lit (print_int a) ++ c :: lit (print_int b) ++ r) c = Some (a, b, r).
Proof.
  intros Ha Hb Hc Hr. unfold parse_pair. rewrite strtol10_print; [|done|].
  - by rewrite Ascii.eqb_refl, strtol10_print.
  - simpl. by rewrite Hc.
Qed.

(** A pair that parses takes at least its delimiter off the text. *)
Lemma parse_pair_shorter s c a b r :
  parse_pair s c = Some (a, b, r) -> (length r < length s)%nat.
Proof.
  unfold parse_pair. pose proof (strtol10_suffix s) as Hs.
  destruct (strtol10 s) as [w e]. simpl in Hs. destruct e as [|x e]; [done|].
  destruct (Ascii.eqb x c); [|done]. pose proof (strtol10_suffix e) as He.
  destruct (strtol10 e) as [h e']. simpl in He. intros [= _ _ <-].
  apply suffix_length in Hs, He. simpl in Hs. lia.
Qed.

Lemma parse_sizes_total fuel s sizes :
  (length s < fuel)%nat -> exists l, parse_sizes fuel s sizes = Some (sizes ++ l).
Proof.
  revert s sizes; induction fuel as [|fuel IH]; intros s sizes Hf; [lia|]. cbn [parse_sizes].
  destruct (parse_pair s "x") as [[[w h] r]|] eqn:Hp;
    [|exists []; by rewrite app_nil_r].
  apply parse_pair_shorter in Hp. destruct r as [|c r]; [by eexists|].
  case_test; [|exists []; by rewrite app_nil_r].
  destruct (IH r (sizes ++ [(w, h)])) as [l Hl]; [simpl in *; lia|].
  exists ((w, h) :: l). by rewrite Hl, <- app_assoc.
Qed.

(** The text of a size list, as the camera libraries write it. *)
Fixpoint sizes_text (l : list (Z * Z)) : bytes :=
  match l with
  | [] => []
  | [(w, h)] => lit (print_int w) ++ "x"%char :: lit (print_int h)
  | (w, h) :: r => lit (print_int w) ++ "x"%char :: lit (print_int h) ++ ","%char :: sizes_text r
  end.

Lemma parse_sizes_text fuel l sizes :
  Forall (fun wh => is_int wh.1 /\ is_int wh.2) l ->
  (length (sizes_text l) < fuel)%nat -> parse_sizes fuel (sizes_text l) sizes = Some (sizes ++ l).
Proof.
  intros Hl. revert fuel sizes; induction Hl as [|[w h] l [Hw Hh] Hl IH]; intros [|fuel] sizes Hf;
    try (simpl in Hf; lia); [cbn; by rewrite app_nil_r|].
  destruct l as [|wh l].
  - cbn [sizes_text parse_sizes] in *. pose proof (parse_pair_print w h "x" []) as Hp.
    rewrite app_nil_r in Hp. by rewrite Hp.
  - change (sizes_text ((w, h) :: wh :: l)) with
      (lit (print_int w) ++ "x"%char :: lit (print_int h) ++ ","%char :: sizes_text (wh :: l)) in *.
    cbn [parse_sizes]. rewrite parse_pair_print by done. rewrite Ascii.eqb_refl, IH.
    + by rewrite <- app_assoc.
    + rewrite length_app in Hf. cbn [length] in Hf. rewrite length_app in Hf. cbn [length] in Hf. lia.
Qed.

Lemma pair_clean a b c :
  digit_value c = None -> Ascii.eqb c "=" = false -> Ascii.eqb c ";" = false ->
  Ascii.eqb c NUL = false -> clean (lit (print_int a) ++ c :: lit (print_int b)).
Proof.
  intros Hc He Hs Hn.
  assert (Hl : forall x, digit_value x = None -> x <> "-"%char -> Ascii.eqb c x = false ->
    lacks x (lit (print_int a) ++ c :: lit (print_int b))).
  { intros x Hx Hm Hcx. apply Forall_app; split; [by apply print_int_no|].
    constructor; [done|by apply print_int_no]. }
  split; [apply lacks_separator; by apply Hl | apply lacks_cstr; by apply Hl].
Qed.

Lemma length_pair a b c :
  is_int a -> is_int b -> (length (lit (print_int a) ++ c :: lit (print_int b)) < 32)%nat.
Proof.
  intros Ha%length_print_is_int Hb%length_print_is_int. rewrite length_app. cbn [length]. lia.
Qed.

Section store.
Context {P : Type} `{ParamStoreOk P ok}.

Lemma set_get_pair p key a b c :
  ok p -> clean key -> is_int a -> is_int b ->
  digit_value c = None -> Ascii.eqb c "=" = false -> Ascii.eqb c ";" = false ->
  Ascii.eqb c NUL = false ->
  exists p', set_pair p key a c b = Some p' /\ get_pair p' key c = (a, b).
Proof.
  intros Hp Hk Ha Hb Hc He Hs Hn. unfold set_pair.
  rewrite sprintf_fits by by apply length_pair. cbn [mbind option_bind].
  destruct (ps_get_set p key (lit (print_int a) ++ c :: lit (print_int b))) as (p' & Hset & Hget);
    [done|done|by apply pair_clean|by destruct (lit (print_int a))|].
  exists p'. split; [done|]. unfold get_pair. rewrite Hget.
  pose proof (parse_pair_print a b c [] Ha Hb Hc eq_refl) as Hq. rewrite app_nil_r in Hq.
  by rewrite Hq.
Qed.

Lemma set_get_int p key z :
  ok p -> clean key -> is_int z -> exists p', set_int p key z = Some p' /\ getInt p' key = z.
Proof.
  intros Hp Hk Hz. unfold set_int.
  rewrite sprintf_fits by (pose proof (length_print_is_int z Hz); lia). cbn [mbind option_bind].
  destruct (ps_get_set p key (lit (print_int z))) as (p' & Hset & Hget); [done|done| | |].
  - split; [apply lacks_separator | apply lacks_cstr]; by apply print_int_no.
  - intros Hnil. pose proof (strtol10_print z [] Hz eq_refl) as Hr.
    rewrite Hnil in Hr. cbv in Hr. injection Hr as <-. done.
  - exists p'. split; [done|]. unfold getInt. rewrite Hget. by apply strtol_auto_print.
Qed.

(** Setting a size and reading it back, through any parameter class that returns
    what was set: the text always fits the caller's array, and every pair of [int]s
    (negative ones and the extremes included) comes back unchanged.  The same holds
    for the preview, picture and video sizes, and for the frame rate, which [getInt]
    reads with [strtol] in base 0. *)
Theorem size_accessors_roundtrip (p : P) (w h : Z) :
  ok p -> is_int w -> is_int h ->
  (exists p', setPreviewSize p w h = Some p' /\ getPreviewSize p' = (w, h)) /\
  (exists p', setPictureSize p w h = Some p' /\ getPictureSize p' = (w, h)) /\
  (exists p', setVideoSize p w h = Some p' /\ getVideoSize p' = (w, h)) /\
  (exists p', setPreviewFrameRate p w = Some p' /\ getPreviewFrameRate p' = w).
Proof.
  intros Hp Hw Hh. split_and!; try (by apply set_get_pair).
  by apply set_get_int.
Qed.

End store.

(** [parseSizesList] returns on every string, having appended to the caller's
    vector; on the text of a list of sizes it appends exactly that list. *)
Theorem parseSizesList_terminates (s : bytes) (l sizes : list (Z * Z)) :
  Forall (fun wh => is_int wh.1 /\ is_int wh.2) l ->
  (exists new, parseSizesList (Some s) sizes = Some (sizes ++ new)) /\
  parseSizesList (Some (sizes_text l)) sizes = Some (sizes ++ l).
Proof.
  intros Hl. split; [apply parse_sizes_total; lia|]. apply parse_sizes_text; [done|lia].
Qed.

(** ** A keyed vector, and the properties on it *)

#[export] Instance gmap_keyed : KeyedVector (gmap bytes bytes) := {|
  kv_empty := ∅;
  kv_add m k v := <[k := v]> m;
  kv_replaceValueFor m k v := <[k := v]> m;
  kv_removeItem m k := delete k m;
  kv_valueFor m k := default [] (m !! k);
  kv_entries m := map_to_list m |}.

#[export] Instance gmap_keyed_ok : KeyedVectorOk (gmap bytes bytes).
Proof.
  split; cbn; intros.
  - apply NoDup_fst_map_to_list.
  - done.
  - rewrite !elem_of_map_to_list, lookup_insert_Some. naive_solver.
  - rewrite !elem_of_map_to_list, lookup_insert_Some. naive_solver.
  - rewrite !elem_of_map_to_list, lookup_delete_Some. naive_solver.
  - apply elem_of_map_to_list in H. by rewrite H.
  - destruct (m !! k) as [v|] eqn:Hk; [|done]. destruct H. apply list_elem_of_fmap.
    exists (k, v). split; [done|]. by apply elem_of_map_to_list.
  - apply map_eq. intros k. apply option_eq. intros v. by rewrite <- !elem_of_map_to_list.
Qed.

Definition sample_ops : list params_op :=
  [Set_ (Some (lit "preview-size")) (Some (lit "640x480"));
   Unflatten (lit "a=1;preview-size=1x2;;b=x=y;a=2");
   Set_ (Some (lit "bad;key")) (Some (lit "1")); Remove (lit "b"); Set_ None (Some (lit "1"))].

Example params_flatten_roundtrip_witness :
  exists m : gmap bytes bytes, run_ops sample_ops kv_empty = Some m /\
    unflatten (flatten m) = Some m.
Proof. exact (params_flatten_roundtrip (M := gmap bytes bytes) sample_ops). Defined.

(** Duplicates in a text: the last one wins; a text without [=] adds nothing. *)
Example unflatten_sample :
  (fun m => get m <$> [lit "a"; lit "preview-size"; lit ";b"; lit "b"; lit "bad;key"])
    <$> run_ops sample_ops (kv_empty : gmap bytes bytes) =
  Some [Some (lit "2"); Some (lit "1x2"); Some (lit "x=y"); None; None].
Proof. vm_compute. reflexivity. Qed.

#[export] Existing Instance CameraParameters_store.
#[export] Existing Instance CameraParameters_store_ok.

Example size_accessors_roundtrip_witness :
  (exists p', setPreviewSize (kv_empty : gmap bytes bytes) (-5) INT_MIN = Some p' /\
    getPreviewSize p' = (-5, INT_MIN)) /\
  (exists p', setPictureSize (kv_empty : gmap bytes bytes) (-5) INT_MIN = Some p' /\
    getPictureSize p' = (-5, INT_MIN)) /\
  (exists p', setVideoSize (kv_empty : gmap bytes bytes) (-5) INT_MIN = Some p' /\
    getVideoSize p' = (-5, INT_MIN)) /\
  (exists p', setPreviewFrameRate (kv_empty : gmap bytes bytes) (-5) = Some p' /\
    getPreviewFrameRate p' = -5).
Proof.
  apply (size_accessors_roundtrip (ok := fun _ => True) (kv_empty : gmap bytes bytes) (-5) INT_MIN);
    [exact I | |]; unfold is_int, INT_MIN, INT_MAX; lia.
Defined.

Example parseSizesList_terminates_witness :
  (exists new, parseSizesList (Some (lit "1x2,3x4;5x6")) [] = Some ([] ++ new)) /\
  parseSizesList (Some (sizes_text [(640, 480); (-1, 0)])) [(1, 1)] =
    Some ([(1, 1)] ++ [(640, 480); (-1, 0)]).
Proof.
  split.
  - apply (parseSizesList_terminates (lit "1x2,3x4;5x6") [] []). constructor.
  - apply (parseSizesList_terminates [] [(640, 480); (-1, 0)] [(1, 1)]).
    repeat constructor; unfold is_int, INT_MIN, INT_MAX; simpl; lia.
Defined.

(** A malformed tail is dropped together with the pair before it. *)
Example malformed_sizes :
  parseSizesList (Some (lit "1x2,3x4;5x6")) [] = Some [(1, 2)].
Proof. vm_compute. reflexivity. Qed.
