(* ===== verification/CameraParams2.v ===== *)
(** * Insertion-ordered camera parameters ([libmocha/camera/CameraParameters2.cpp])

    The copy of the parameter class that remembers the order in which keys were set:
    its map is the [OrderedKeyedVector] of [CameraParameters2.h], a [Vector] of pairs.
    [removeAt] of the platform's [Vector] is an argument; [RemoveAtOk] states what
    is documented of it. *)

From S2P Require Import Prelude.
From S2P Require Import CString.
From S2P Require Import CameraParams.

Definition NAME_NOT_FOUND : Z := -2.
Definition BAD_VALUE : Z := -22.

(** [Vector::removeAt] with a [size_t] index: an index out of range changes nothing. *)
Class RemoveAtOk (removeAt : list param -> Z -> Z * list param) := {
  removeAt_in l i : 0 <= i < zlen l -> (removeAt l i).2 = delete (Z.to_nat i) l;
  removeAt_out l i : zlen l <= i -> (removeAt l i).2 = l }.

Abbreviation ordered := (list param).

Section ordered.
Context (removeAt : list param -> Z -> Z * list param).

(** ** [OrderedKeyedVector] *)

(** The index of the new element, and the vector. *)
Definition add (l : ordered) (key value : bytes) : Z * ordered := (zlen l, l ++ [(key, value)]).

Fixpoint indexOfKey_from (i : Z) (l : ordered) (key : bytes) : Z :=
  match l with
  | [] => NAME_NOT_FOUND
  | kv :: r => if bool_decide (kv.1 = key) then i else indexOfKey_from (i + 1) r key
  end.

Definition indexOfKey (l : ordered) (key : bytes) : Z := indexOfKey_from 0 l key.

(** [vectorIdx] is a [size_t], so the test for a negative index never holds. *)
Definition removeItem (l : ordered) (key : bytes) : Z * ordered :=
  let vectorIdx := wrap_u32 (indexOfKey l key) in
  if vectorIdx <? 0 then (wrap_s32 vectorIdx, l) else removeAt l vectorIdx.

Definition replaceValueFor (l : ordered) (key value : bytes) : Z * ordered :=
  add (removeItem l key).2 key value.

(** ** [CameraParameters2] *)

Definition flatten (p : ordered) : bytes := flatten_entries p.

Definition unflatten (params : bytes) : option ordered :=
  unflatten_text (fun l k v => (add l k v).2) [] params.

(** [None]: [LOG_ALWAYS_FATAL_IF] aborts. *)
Definition set (p : ordered) (key value : bytes) : option ordered :=
  let key := cstr key in
  let value := cstr value in
  if has_separator key then Some p
  else if has_separator value then Some p
  else let '(res, p) := replaceValueFor p key value in
       if res <? 0 then None else Some p.

Definition get (p : ordered) (key : bytes) : option bytes :=
  let idx := indexOfKey p (cstr key) in
  if idx <? 0 then None else snd <$> zlookup p idx.

(** The status and the value stored through [order]; a null pointer is [None]
    ([has_order] false for the last one). *)
Definition compareSetOrder (p : ordered) (key1 key2 : option bytes) (has_order : bool)
  : Z * option Z :=
  match key1, key2 with
  | None, _ => (BAD_VALUE, None)
  | _, None => (BAD_VALUE, None)
  | Some key1, Some key2 =>
      if negb has_order then (BAD_VALUE, None)
      else
        let index1 := indexOfKey p (cstr key1) in
        let index2 := indexOfKey p (cstr key2) in
        if index1 <? 0 then (NAME_NOT_FOUND, None)
        else if index2 <? 0 then (NAME_NOT_FOUND, None)
        else (0, Some (if index1 =? index2 then 0 else if index1 <? index2 then -1 else 1))
  end.

Definition remove (p : ordered) (key : bytes) : ordered := (removeItem p (cstr key)).2.

#[export] Instance CameraParameters2_store : ParamStore ordered := {|
  ps_set := set;
  ps_get := get |}.

(** Any call that changes the map. *)
Inductive params2_op :=
| Set2 (key value : bytes)
| Remove2 (key : bytes)
| Unflatten2 (params : bytes).

Definition run_op (o : params2_op) (p : ordered) : option ordered :=
  match o with
  | Set2 k v => set p k v
  | Remove2 k => Some (remove p k)
  | Unflatten2 s => unflatten s
  end.

Fixpoint run_ops (os : list params2_op) (p : ordered) : option ordered :=
  match os with
  | [] => Some p
  | o :: os => p ← run_op o p; run_ops os p
  end.

(** ** The vector: lemmas *)

Lemma index_absent i l key : key ∉ l.*1 -> indexOfKey_from i l key = NAME_NOT_FOUND.
Proof.
  revert i; induction l as [|[k v] l IH]; intros i Hn; [done|]. cbn [indexOfKey_from].
  cbn in Hn. apply not_elem_of_cons in Hn as [Hk Hn].
  rewrite bool_decide_eq_false_2 by (simpl; congruence). by apply IH.
Qed.

Lemma index_first i (l1 l2 : list param) key v :
  key ∉ l1.*1 -> indexOfKey_from i (l1 ++ (key, v) :: l2) key = i + zlen l1.
Proof.
  revert i; induction l1 as [|[k w] l1 IH]; intros i Hn; cbn [app indexOfKey_from].
  - rewrite bool_decide_eq_true_2 by done. unfold zlen; simpl; lia.
  - cbn in Hn. apply not_elem_of_cons in Hn as [Hk Hn].
    rewrite bool_decide_eq_false_2 by (simpl; congruence).
    rewrite IH by done. rewrite zlen_cons. lia.
Qed.

(** A present key splits the vector at its first entry. *)
Lemma first_entry (l : ordered) key :
  key ∈ l.*1 -> exists l1 v l2, l = l1 ++ (key, v) :: l2 /\ key ∉ l1.*1.
Proof.
  induction l as [|[k w] l IH]; cbn; [by intros ?%not_elem_of_nil|].
  destruct (decide (k = key)) as [->|Hne].
  - intros _. exists [], w, l. split; [done|apply not_elem_of_nil].
  - intros [?|Hin]%elem_of_cons; [done|]. destruct (IH Hin) as (l1 & v & l2 & -> & Hn).
    exists ((k, w) :: l1), v, l2. split; [done|]. cbn. by apply not_elem_of_cons.
Qed.

Lemma get_absent p key : cstr key ∉ p.*1 -> get p key = None.
Proof. intros Hn. unfold get, indexOfKey. by rewrite index_absent. Qed.

Lemma get_first (l1 l2 : list param) key v : cstr key ∉ l1.*1 -> get (l1 ++ (cstr key, v) :: l2) key = Some v.
Proof.
  intros Hn. unfold get, indexOfKey. rewrite index_first by done. pose proof (zlen_nonneg l1).
  decide_tests. unfold zlookup. decide_tests.
  replace (Z.to_nat (0 + zlen l1)) with (length l1) by (unfold zlen; lia).
  by rewrite list_lookup_middle.
Qed.

Context `{!RemoveAtOk removeAt}.

(** The size bound of a 32-bit vector keeps the index of a missing key out of range. *)
Definition fits (p : ordered) : Prop := zlen p <= 2 ^ 32 - 2.

Lemma removeItem_absent p key : fits p -> key ∉ p.*1 -> (removeItem p key).2 = p.
Proof.
  unfold fits. intros Hf Hn. unfold removeItem, indexOfKey. rewrite index_absent by done.
  change (wrap_u32 NAME_NOT_FOUND) with (2 ^ 32 - 2). decide_tests. by apply removeAt_out.
Qed.

Lemma removeItem_first (l1 l2 : list param) key v :
  fits (l1 ++ (key, v) :: l2) -> key ∉ l1.*1 ->
  (removeItem (l1 ++ (key, v) :: l2) key).2 = l1 ++ l2.
Proof.
  unfold fits. rewrite zlen_app, zlen_cons. intros Hf Hn.
  pose proof (zlen_nonneg l1). pose proof (zlen_nonneg l2).
  unfold removeItem, indexOfKey. rewrite index_first by done.
  rewrite wrap_u32_id by lia. decide_tests.
  rewrite removeAt_in by (rewrite zlen_app, zlen_cons; lia).
  replace (Z.to_nat (0 + zlen l1)) with (length l1) by (unfold zlen; lia).
  by apply delete_middle.
Qed.

(** Whatever the index, what is left was there before. *)
Lemma removeItem_sublist p key : (removeItem p key).2 `sublist_of` p.
Proof.
  unfold removeItem. assert (0 <= wrap_u32 (indexOfKey p key)).
  { unfold wrap_u32. pose proof (Z.mod_pos_bound (indexOfKey p key) (2 ^ 32)). lia. }
  decide_tests. destruct (Z_lt_le_dec (wrap_u32 (indexOfKey p key)) (zlen p)) as [Hlt|Hge].
  - rewrite removeAt_in by lia. apply sublist_delete.
  - by rewrite removeAt_out.
Qed.

(** ** Invariant of the text form *)

Lemma set_eq p key value :
  set p key value =
  Some (if has_separator (cstr key) || has_separator (cstr value) then p
        else (removeItem p (cstr key)).2 ++ [(cstr key, cstr value)]).
Proof.
  unfold set, replaceValueFor, add. destruct (has_separator (cstr key)); [done|]. cbn [orb].
  destruct (has_separator (cstr value)); [done|].
  pose proof (zlen_nonneg (removeItem p (cstr key)).2). by decide_tests.
Qed.

Lemma sublist_wf (l l' : ordered) : l `sublist_of` l' -> Forall entry_ok l' -> Forall entry_ok l.
Proof. rewrite !Forall_forall. intros Hs Hl x Hx. apply Hl. by eapply elem_of_sublist. Qed.

Lemma run_op_ordered o p : Forall entry_ok p -> exists p', run_op o p = Some p' /\ Forall entry_ok p'.
Proof.
  intros Hp. destruct o as [k v|k|s]; cbn [run_op].
  - rewrite set_eq. eexists; split; [done|].
    destruct (has_separator (cstr k)) eqn:Hk, (has_separator (cstr v)) eqn:Hv; try done.
    apply Forall_app; split; [by eapply sublist_wf, Hp; apply removeItem_sublist|].
    constructor; [by apply set_entry_ok|constructor].
  - eexists; split; [done|]. eapply sublist_wf, Hp. apply removeItem_sublist.
  - apply (unflatten_inv (fun l k v => (add l k v).2) (Forall entry_ok)); [|constructor]. cbn. intros l k v Hl Hkv.
    apply Forall_app; split; [done|by apply Forall_singleton].
Qed.

Lemma run_ops_ordered os p : Forall entry_ok p -> exists p', run_ops os p = Some p' /\ Forall entry_ok p'.
Proof.
  revert p; induction os as [|o os IH]; intros p Hp; cbn [run_ops]; [by eauto|].
  destruct (run_op_ordered o p Hp) as (p1 & -> & H1). by apply IH.
Qed.

Lemma readd_ordered (l l' : ordered) : add_all (fun l k v => (add l k v).2) l l' = l ++ l'.
Proof.
  revert l; induction l' as [|[k v] l' IH]; intros l; [by rewrite app_nil_r|].
  change (add_all (fun l k v => (add l k v).2) l ((k, v) :: l')) with
    (add_all (fun l k v => (add l k v).2) (l ++ [(k, v)]) l').
  by rewrite IH, <- app_assoc.
Qed.

(** ** Setting a key *)

(** The entries of the other keys, in their order. *)
Definition without (key : bytes) (p : list param) : list param := filter (fun kv => kv.1 <> key) p.

Lemma without_absent key p : key ∉ p.*1 -> without key p = p.
Proof.
  unfold without. induction p as [|[k v] p IH]; intros Hn; [done|]. cbn in Hn.
  apply not_elem_of_cons in Hn as [Hk Hn]. rewrite filter_cons_True by (simpl; congruence).
  by rewrite IH.
Qed.

Lemma removeItem_without p key :
  NoDup p.*1 -> fits p -> (removeItem p key).2 = without key p.
Proof.
  intros Hd Hf. destruct (decide (key ∈ p.*1)) as [Hin|Hn].
  - destruct (first_entry p key Hin) as (l1 & v & l2 & -> & Hn).
    rewrite removeItem_first by done. rewrite fmap_app, fmap_cons in Hd.
    apply NoDup_app in Hd as (_ & _ & [Hn2 _]%NoDup_cons).
    unfold without. rewrite filter_app, filter_cons_False by (simpl; naive_solver).
    fold (without key l1). fold (without key l2). by rewrite !without_absent.
  - by rewrite removeItem_absent, without_absent.
Qed.

Lemma get_app_other p key l :
  cstr key ∉ l.*1 -> get (p ++ l) key = get p key.
Proof.
  intros Hl. destruct (decide (cstr key ∈ p.*1)) as [Hin|Hn].
  - destruct (first_entry p _ Hin) as (l1 & v & l2 & -> & Hn).
    rewrite <- app_assoc. change (((cstr key, v) :: l2) ++ l) with ((cstr key, v) :: (l2 ++ l)).
    by rewrite !get_first.
  - rewrite !get_absent; [done|done|]. rewrite fmap_app, elem_of_app. naive_solver.
Qed.

Lemma get_without p key key' :
  cstr key' <> key -> get (without key p) key' = get p key'.
Proof.
  intros Hne. destruct (decide (cstr key' ∈ p.*1)) as [Hin|Hn].
  - destruct (first_entry p _ Hin) as (l1 & v & l2 & -> & Hn).
    unfold without. rewrite filter_app, filter_cons_True by done. fold (without key l1).
    rewrite !get_first; [done|done|]. intros Hf. apply Hn.
    apply list_elem_of_fmap in Hf as (kv & -> & Hf). apply list_elem_of_filter in Hf as [_ Hf].
    by apply list_elem_of_fmap_2.
  - rewrite !get_absent; [done|done|]. intros Hf. apply Hn.
    apply list_elem_of_fmap in Hf as (kv & -> & Hf). apply list_elem_of_filter in Hf as [_ Hf].
    by apply list_elem_of_fmap_2.
Qed.

Lemma without_keys key p : key ∉ (without key p).*1.
Proof.
  intros ([k v] & -> & Hf)%list_elem_of_fmap. by apply list_elem_of_filter in Hf as [Hf _].
Qed.

Lemma index_of_first p key :
  key ∈ p.*1 -> exists l1 v l2, p = l1 ++ (key, v) :: l2 /\ (key ∉ l1.*1) /\ indexOfKey p key = zlen l1.
Proof.
  intros (l1 & v & l2 & -> & Hn)%first_entry. exists l1, v, l2. split_and!; [done|done|].
  unfold indexOfKey. rewrite index_first by done. lia.
Qed.

Lemma nodup_without key p : NoDup p.*1 -> NoDup (without key p).*1.
Proof.
  unfold without. induction p as [|[k v] p IH]; [done|]. rewrite fmap_cons, NoDup_cons.
  intros [Hk Hp]. rewrite filter_cons. case_decide; [|by apply IH].
  rewrite fmap_cons, NoDup_cons. split; [|by apply IH]. intros Hf. apply Hk.
  apply list_elem_of_fmap in Hf as (kv & Heq & Hf). apply list_elem_of_filter in Hf as [_ Hf].
  rewrite Heq. by apply list_elem_of_fmap_2.
Qed.

Lemma set_clean p key value :
  NoDup p.*1 -> fits p -> clean key -> clean value ->
  set p key value = Some (without key p ++ [(key, value)]).
Proof.
  intros Hd Hf [Hk Hkc] [Hv Hvc]. rewrite set_eq, Hkc, Hvc, Hk, Hv. cbn [orb].
  by rewrite removeItem_without.
Qed.

#[export] Instance CameraParameters2_store_ok :
  ParamStoreOk ordered (fun p => NoDup p.*1 /\ fits p).
Proof.
  split. intros p k v [Hd Hf] Hk Hv _. cbn. eexists. split; [by apply set_clean|].
  destruct Hk as [_ Hk]. pose proof (get_first (without k p) [] k v) as Hg.
  rewrite Hk in Hg. apply Hg, without_keys.
Qed.

(** In a map without duplicate keys, [set] moves the key to the end with its new
    value and changes nothing else: [get] returns it, every other key keeps its value,
    no key is duplicated, and [compareSetOrder] reports every other key as set
    before it. *)
Theorem set_is_last (p : ordered) (key value : bytes) :
  NoDup p.*1 -> fits p -> clean key -> clean value ->
  exists p', set p key value = Some p' /\ NoDup p'.*1 /\ get p' key = Some value /\
    (forall key', cstr key' <> key -> get p' key' = get p key') /\
    (forall key', cstr key' <> key -> is_Some (get p key') ->
      compareSetOrder p' (Some key') (Some key) true = (0, Some (-1))).
Proof.
  intros Hd Hf Hk Hv. eexists. split; [by apply set_clean|]. destruct Hk as [_ Hk].
  assert (Hother : forall key', cstr key' <> key ->
    get (without key p ++ [(key, value)]) key' = get p key').
  { intros key' Hne. rewrite get_app_other; [by apply get_without|].
    cbn. intros Heq%list_elem_of_singleton. done. }
  split_and!; [|rewrite <- Hk at 2; apply get_first; rewrite Hk; apply without_keys|done|].
  - rewrite fmap_app. apply NoDup_app. split_and!; [by apply nodup_without| |apply NoDup_singleton].
    intros k Hin ->%list_elem_of_singleton. by apply (without_keys key p).
  - intros key' Hne Hg. rewrite <- (get_without p key) in Hg by done.
    destruct (decide (cstr key' ∈ (without key p).*1)) as [Hin|Hn];
      [|rewrite get_absent in Hg by done; by destruct Hg].
    destruct (index_of_first _ _ Hin) as (l1 & v & l2 & Hw & Hn & _).
    unfold compareSetOrder, indexOfKey. cbn [negb]. rewrite Hk.
    rewrite (index_first 0 (without key p) []) by apply without_keys.
    rewrite Hw, <- app_assoc. cbn [app]. rewrite index_first by done.
    rewrite zlen_app, zlen_cons. pose proof (zlen_nonneg l1). pose proof (zlen_nonneg l2).
    by decide_tests.
Qed.

(** Whatever sequence of [set], [remove] and [unflatten] calls has produced the
    map, duplicate keys included, the calls all return, none aborts, and unflattening
    its text gives the map back, entry by entry in the same order. *)
Theorem params2_flatten_roundtrip (os : list params2_op) :
  exists p, run_ops os [] = Some p /\ unflatten (flatten p) = Some p.
Proof.
  destruct (run_ops_ordered os [] ltac:(constructor)) as (p & Hp & Hwf). exists p. split; [done|].
  unfold unflatten, flatten. rewrite unflatten_flatten by done. by rewrite readd_ordered.
Qed.

(** A text that names a key twice leaves two entries in the map; setting that key
    then removes only the first, and [get] keeps returning the other, older value. *)
Theorem duplicate_shadows_set (l1 l2 l3 : ordered) (key value v1 v2 : bytes) :
  let p := l1 ++ (key, v1) :: l2 ++ (key, v2) :: l3 in
  fits p -> clean key -> clean value -> key ∉ l1.*1 -> key ∉ l2.*1 ->
  exists p', set p key value = Some p' /\ get p' key = Some v2.
Proof.
  intros p Hf [Hk Hkc] [Hv Hvc] Hn1 Hn2. rewrite set_eq, Hkc, Hvc, Hk, Hv. cbn [orb].
  eexists. split; [done|]. unfold p. rewrite removeItem_first by done.
  replace ((l1 ++ l2 ++ (key, v2) :: l3) ++ [(key, value)]) with
    ((l1 ++ l2) ++ (cstr key, v2) :: l3 ++ [(key, value)]) by (by rewrite Hkc, <- !app_assoc).
  apply get_first. rewrite Hkc, fmap_app, elem_of_app. naive_solver.
Qed.

End ordered.

(** ** On a concrete vector *)

Definition list_removeAt (l : list param) (i : Z) : Z * list param :=
  if i <? zlen l then (i, delete (Z.to_nat i) l) else (BAD_VALUE, l).

#[export] Instance list_removeAt_ok : RemoveAtOk list_removeAt.
Proof. split; intros l i Hi; unfold list_removeAt; by decide_tests. Qed.

Definition sample_params : ordered :=
  [(lit "preview-fps-range", lit "1,30"); (lit "preview-frame-rate", lit "15");
   (lit "picture-size", lit "1x2")].

Example set_is_last_witness :
  exists p', set list_removeAt sample_params (lit "preview-fps-range") (lit "5,7") = Some p' /\
    NoDup p'.*1 /\ get p' (lit "preview-fps-range") = Some (lit "5,7") /\
    (forall key', cstr key' <> lit "preview-fps-range" -> get p' key' = get sample_params key') /\
    (forall key', cstr key' <> lit "preview-fps-range" -> is_Some (get sample_params key') ->
      compareSetOrder p' (Some key') (Some (lit "preview-fps-range")) true = (0, Some (-1))).
Proof.
  apply (set_is_last list_removeAt sample_params); [|by vm_compute|by split; vm_compute..].
  apply (bool_decide_unpack _). by vm_compute.
Defined.

Example params2_flatten_roundtrip_witness :
  exists p, run_ops list_removeAt
    [Set2 (lit "a") (lit "1"); Unflatten2 (lit "a=1;b=2;a=3"); Set2 (lit "a") (lit "4");
     Remove2 (lit "zoom")] [] = Some p /\ unflatten (flatten p) = Some p.
Proof.
  exact (params2_flatten_roundtrip list_removeAt
    [Set2 (lit "a") (lit "1"); Unflatten2 (lit "a=1;b=2;a=3"); Set2 (lit "a") (lit "4");
     Remove2 (lit "zoom")]).
Defined.

Example duplicate_shadows_set_witness :
  exists p', set list_removeAt [(lit "a", lit "1"); (lit "a", lit "2")] (lit "a") (lit "3") = Some p' /\
    get p' (lit "a") = Some (lit "2").
Proof.
  apply (duplicate_shadows_set list_removeAt [] [] [] (lit "a") (lit "3") (lit "1") (lit "2"));
    [by vm_compute | by split; vm_compute.. | |]; apply not_elem_of_nil.
Defined.
