(* ===== verification/ThermalParse.v ===== *)
(** * The configuration of the thermal HAL ([hardware/nvidia/thermal/parse_thermal.c])

    The nodes of the XML file (libxml2's reader, an argument) and what [processNode]
    makes of them.  Allocations succeed; memory [realloc] leaves as it was is an argument
    ([junk]).  The threshold fields of a [thermal_desc_t] that nothing reads are left
    out. *)

From S2P Require Import Prelude.
From S2P Require Import CString.
From S2P Require Import Float32.
From Stdlib Require Import Ascii.

Definition ENOENT : Z := 2.
Definition EBADF : Z := 9.
Definition EINVAL : Z := 22.

(** The types of [hardware/thermal.h]. *)
Inductive temperature_type :=
| DEVICE_TEMPERATURE_UNKNOWN | DEVICE_TEMPERATURE_CPU | DEVICE_TEMPERATURE_GPU
| DEVICE_TEMPERATURE_BATTERY | DEVICE_TEMPERATURE_SKIN.

(** [cluster] tells that [read_temperature] points to [read_cluster_temperature]. *)
Record thermal_desc := mk_thermal {
  td_name : option bytes; td_type : temperature_type; sensor_label : option bytes;
  threshold_label : option bytes; throttling_threshold_path : option bytes;
  vr_throttling_threshold_path : option bytes; shutdown_threshold_path : option bytes;
  multiplier : f32; cores : Z; core_names : option (list bytes); cluster : bool;
  temperature_path : option bytes }.

(** The type is [FAN_RPM] or what the memory held. *)
Record cooling_desc := mk_cooling { cd_name : option bytes; fan_rpm : bool; cooling_path : option bytes }.

(** The globals of the parser and the static flags of [processNode]; [None] is a null
    pointer.  The arrays may have one more element than their counts, the one that is
    being read. *)
Record thermal_config := mk_tc {
  platform_data : option (list thermal_desc); platform_data_count : nat;
  cooling_data : option (list cooling_desc); cooling_data_count : nat;
  num_cpus_total : option Z; thermal_flag : bool; cooling_flag : bool }.

Definition no_config : thermal_config := mk_tc None 0 None 0 None false false.

Inductive node :=
| Element (name : bytes) (attrs : list (bytes * bytes))
| EndElement (name : bytes)
| OtherNode.

Definition xmlTextReaderGetAttribute (attrs : list (bytes * bytes)) (name : bytes) : option bytes :=
  (fun q => q.2.2) <$> list_find (fun p => p.1 = name) attrs.

Definition strdup (s : bytes) : bytes := cstr s.

(** A string that is stored only once. *)
Definition keep_first (old new : option bytes) : option bytes :=
  match old with Some _ => old | None => strdup <$> new end.

Definition read_type (c : bytes) (old : temperature_type) : temperature_type :=
  if bool_decide (c = lit "DEVICE_TEMPERATURE_CPU") then DEVICE_TEMPERATURE_CPU
  else if bool_decide (c = lit "DEVICE_TEMPERATURE_GPU") then DEVICE_TEMPERATURE_GPU
  else if bool_decide (c = lit "DEVICE_TEMPERATURE_BATTERY") then DEVICE_TEMPERATURE_BATTERY
  else if bool_decide (c = lit "DEVICE_TEMPERATURE_SKIN") then DEVICE_TEMPERATURE_SKIN
  else old.

(** The names of [x] cores in buffers of [strlen(c) + strlen(name) + 1] bytes; [None]: a
    null name, or a name that does not fit. *)
Definition make_core_names (c : bytes) (x : Z) (name : option bytes) : option (list bytes) :=
  mapM (fun i => n ← name; sprintf (Z.to_nat (strlen c + strlen n + 1)) (n ++ lit (print_int (Z.of_nat i))))
    (seq 0 (Z.to_nat x)).

Section parser.
Context (atof : bytes -> f32) (junk : f32) (junk_fan : bool).

(** [None] is undefined behaviour. *)
Definition parse_therm_prop (attrs : list (bytes * bytes)) (d : thermal_desc) : option thermal_desc :=
  let get name := xmlTextReaderGetAttribute attrs (lit name) in
  let name := keep_first (td_name d) (get "name"%string) in
  let sensor := keep_first (sensor_label d) (get "sensor-label"%string) in
  let threshold := keep_first (threshold_label d) (get "threshold-label"%string) in
  let mult := match get "multiplier"%string with Some c => atof c | None => multiplier d end in
  let type := match get "type"%string with Some c => read_type c (td_type d) | None => td_type d end in
  let d := mk_thermal name type sensor threshold (throttling_threshold_path d) (vr_throttling_threshold_path d)
             (shutdown_threshold_path d) mult (cores d) (core_names d) (cluster d) (temperature_path d) in
  match get "cores"%string with
  | None => Some d
  | Some c =>
      let x := atoi c in
      names ← make_core_names c x name;
      Some (mk_thermal name type sensor threshold (throttling_threshold_path d) (vr_throttling_threshold_path d)
              (shutdown_threshold_path d) mult (if 0 <? x then x else cores d) (Some names)
              ((0 <? x) || cluster d) (temperature_path d))
  end.

(** The status and what was stored up to there. *)
Definition parse_cool_prop (attrs : list (bytes * bytes)) (d : cooling_desc) : Z * cooling_desc :=
  let get name := xmlTextReaderGetAttribute attrs (lit name) in
  let name := keep_first (cd_name d) (get "name"%string) in
  let finish fan := (0, mk_cooling name fan (keep_first (cooling_path d) (get "cooling-path"%string))) in
  match get "type"%string with
  | None => finish (fan_rpm d)
  | Some c => if bool_decide (c = lit "FAN_RPM") then finish true
              else (- ENOENT, mk_cooling name (fan_rpm d) (cooling_path d))
  end.

Definition new_thermal : thermal_desc :=
  mk_thermal None DEVICE_TEMPERATURE_UNKNOWN None None None None None junk 0 None false None.
Definition new_cooling : cooling_desc := mk_cooling None junk_fan None.

Definition set_thermals (l : list thermal_desc) (n : nat) (flag : bool) (s : thermal_config) : thermal_config :=
  mk_tc (Some l) n (cooling_data s) (cooling_data_count s) (num_cpus_total s) flag (cooling_flag s).
Definition set_coolings (l : list cooling_desc) (n : nat) (flag : bool) (s : thermal_config) : thermal_config :=
  mk_tc (platform_data s) (platform_data_count s) (Some l) n (num_cpus_total s) (thermal_flag s) flag.

(** The elements an array keeps, one more than the count, and the new last one. *)
Definition extend {A} (l : option (list A)) (n : nat) (x : A) : list A := take n (default [] l) ++ [x].

Definition processNode (nd : node) (s : thermal_config) : option (Z * thermal_config) :=
  match nd with
  | OtherNode => Some (0, s)
  | EndElement name =>
      if bool_decide (name = lit "thermal_device") then
        Some (0, mk_tc (platform_data s) (S (platform_data_count s)) (cooling_data s) (cooling_data_count s)
                   (num_cpus_total s) false (cooling_flag s))
      else if bool_decide (name = lit "cooling_device") then
        Some (0, mk_tc (platform_data s) (platform_data_count s) (cooling_data s) (S (cooling_data_count s))
                   (num_cpus_total s) (thermal_flag s) false)
      else Some (0, s)
  | Element name attrs =>
      if bool_decide (name = lit "thermal_device") then
        Some (0, set_thermals (extend (platform_data s) (platform_data_count s) new_thermal)
                   (platform_data_count s) true s)
      else if bool_decide (name = lit "cooling_device") then
        Some (0, set_coolings (extend (cooling_data s) (cooling_data_count s) new_cooling)
                   (cooling_data_count s) true s)
      else if bool_decide (name = lit "cpu_usages") then
        match xmlTextReaderGetAttribute attrs (lit "cpus") with
        | Some c => Some (0, mk_tc (platform_data s) (platform_data_count s) (cooling_data s) (cooling_data_count s)
                               (Some (atoi c)) (thermal_flag s) (cooling_flag s))
        | None => Some (- EINVAL, s)
        end
      else if thermal_flag s && bool_decide (name = lit "thermal-prop") then
        l ← platform_data s;
        d ← l !! platform_data_count s;
        d ← parse_therm_prop attrs d;
        Some (0, set_thermals (<[platform_data_count s := d]> l) (platform_data_count s) (thermal_flag s) s)
      else if cooling_flag s && bool_decide (name = lit "cooling-prop") then
        l ← cooling_data s;
        d ← l !! cooling_data_count s;
        let '(ret, d) := parse_cool_prop attrs d in
        Some (ret, set_coolings (<[cooling_data_count s := d]> l) (cooling_data_count s) (cooling_flag s) s)
      else Some (0, s)
  end.

Fixpoint process_nodes (nds : list node) (s : thermal_config) : option (Z * thermal_config) :=
  match nds with
  | [] => Some (0, s)
  | nd :: nds =>
      '(ret, s) ← processNode nd s;
      if ret =? 0 then process_nodes nds s else Some (ret, s)
  end.

(** A file: its nodes, and whether the reader came to its end without an error. *)
Definition streamFile (file : option (list node * bool)) (s : thermal_config) : option (Z * thermal_config) :=
  match file with
  | None => Some (- EBADF, s)
  | Some (nds, complete) =>
      '(ret, s) ← process_nodes nds s;
      Some (if negb (ret =? 0) then ret else if complete : bool then 0 else - EINVAL, s)
  end.

Definition XML_PREFIX : bytes := lit "/system/etc/thermalhal.".
Definition XML_SUFFIX : bytes := lit ".xml".

(** The file is read while there is no configuration at all. *)
Definition parse_thermal_config_xml (files : bytes -> option (list node * bool)) (hw_name : bytes)
    (s : thermal_config) : option (Z * thermal_config) :=
  match platform_data s, cooling_data s, num_cpus_total s with
  | None, None, None => streamFile (files (XML_PREFIX ++ hw_name ++ XML_SUFFIX)) s
  | _, _, _ => Some (0, s)
  end.

End parser.

(** ** Names of cores *)

Lemma zlen_suffix {A} (s t : list A) : s `suffix_of` t -> zlen s <= zlen t.
Proof. intros H%suffix_length. unfold zlen. lia. Qed.

Lemma atoi_bound c : atoi c < 10 ^ strlen c.
Proof.
  unfold atoi, strlen. set (s := skip_space (cstr c)).
  assert (Hs : zlen s <= zlen (cstr c)) by apply zlen_suffix, skip_space_suffix.
  assert (Hm : forall k, k <= zlen s -> 10 ^ k <= 10 ^ zlen (cstr c)) by (intros; apply Z.pow_le_mono_r; lia).
  pose proof (Z.pow_pos_nonneg 10 (zlen (cstr c)) ltac:(lia) (zlen_nonneg _)).
  destruct s as [|x r]; cbn [read_signed]; [lia|].
  pose proof (read_digits_bound r 0 ltac:(lia)) as Hr. pose proof (read_digits_bound (x :: r) 0 ltac:(lia)) as Hx.
  pose proof (Hm (zlen r) ltac:(rewrite zlen_cons; lia)). pose proof (Hm (zlen (x :: r)) ltac:(lia)).
  repeat case_test; lia.
Qed.

Lemma cstr_idemp b : cstr (cstr b) = cstr b.
Proof. induction b as [|c b IH]; [done|]. cbn. destruct (Ascii.eqb c NUL) eqn:Hc; [done|]. cbn. by rewrite Hc, IH. Qed.

(** The name of a core, the device's name and a number below the [cores] attribute,
    always fits its buffer, which has room for as many digits as the attribute has
    characters: every name is written whole. *)
Theorem core_names_fit c n :
  make_core_names c (atoi c) (Some (strdup n)) =
    Some ((fun i => strdup n ++ lit (print_int (Z.of_nat i))) <$> seq 0 (Z.to_nat (atoi c))).
Proof.
  unfold make_core_names. apply mapM_Some. apply Forall2_fmap_r, Forall_Forall2_diag, Forall_forall.
  intros k Hk. apply elem_of_seq in Hk. cbn [mbind option_bind].
  apply sprintf_fits. pose proof (atoi_bound c) as Hb. unfold strlen, strdup in *. rewrite cstr_idemp.
  pose proof (zlen_nonneg (cstr c)). pose proof (zlen_nonneg (cstr n)).
  assert (Hpos : 0 < zlen (cstr c)).
  { destruct (decide (zlen (cstr c) = 0)) as [Hz|]; [|lia]. rewrite Hz in Hb. cbn in Hb. lia. }
  pose proof (length_print_int (Z.to_nat (zlen (cstr c))) (Z.of_nat k) ltac:(lia)) as Hl.
  rewrite Z2Nat.id in Hl by lia. specialize (Hl ltac:(lia)). rewrite (proj2 (Z.ltb_ge _ 0)) in Hl by lia.
  rewrite length_app, length_lit. unfold zlen in *. lia.
Qed.

Example core_names_sample : make_core_names (lit "2") 2 (Some (lit "CPU")) = Some [lit "CPU0"; lit "CPU1"].
Proof. vm_compute. reflexivity. Qed.

(** ** What is read *)

(** A device read as a cluster has a positive number of cores and a name for each. *)
Definition thermal_ok (d : thermal_desc) : Prop :=
  if cluster d then 0 < cores d /\ exists names, core_names d = Some names /\ zlen names = cores d
  else cores d = 0.

Definition cores_positive (nd : node) : Prop :=
  match nd with
  | Element _ attrs => forall c, xmlTextReaderGetAttribute attrs (lit "cores") = Some c -> 0 < atoi c
  | _ => True
  end.

(** Devices are not nested in devices; the flags tell what is open. *)
Fixpoint flat (in_thermal in_cooling : bool) (nds : list node) : bool :=
  match nds with
  | [] => true
  | Element name _ :: nds =>
      if bool_decide (name = lit "thermal_device") then negb in_thermal && flat true in_cooling nds
      else if bool_decide (name = lit "cooling_device") then negb in_cooling && flat in_thermal true nds
      else flat in_thermal in_cooling nds
  | EndElement name :: nds =>
      if bool_decide (name = lit "thermal_device") then in_thermal && flat false in_cooling nds
      else if bool_decide (name = lit "cooling_device") then in_cooling && flat in_thermal false nds
      else flat in_thermal in_cooling nds
  | OtherNode :: nds => flat in_thermal in_cooling nds
  end.

(** The arrays have the elements that are counted, and the one that is open. *)
Record config_typed (s : thermal_config) : Prop := {
  ct_thermals : zlen (default [] (platform_data s)) = Z.of_nat (platform_data_count s) + (if thermal_flag s then 1 else 0);
  ct_coolings : zlen (default [] (cooling_data s)) = Z.of_nat (cooling_data_count s) + (if cooling_flag s then 1 else 0);
  ct_ok : Forall thermal_ok (default [] (platform_data s)) }.

Section typed.
Context (atof : bytes -> f32) (junk : f32) (junk_fan : bool).

Lemma make_core_names_length c x name names : make_core_names c x name = Some names -> zlen names = Z.max 0 x.
Proof. intros H%length_mapM. rewrite length_seq in H. unfold zlen. lia. Qed.

Lemma therm_prop_ok attrs d d' :
  (forall c, xmlTextReaderGetAttribute attrs (lit "cores") = Some c -> 0 < atoi c) ->
  parse_therm_prop atof attrs d = Some d' -> thermal_ok d -> thermal_ok d'.
Proof.
  intros Hpos Hparse Hd. unfold parse_therm_prop in Hparse.
  destruct (xmlTextReaderGetAttribute attrs (lit "cores")) as [c|]; [|injection Hparse as <-; exact Hd].
  destruct (make_core_names c (atoi c) _) as [names|] eqn:Hn; [|done]. cbn in Hparse. injection Hparse as <-.
  apply make_core_names_length in Hn. specialize (Hpos c eq_refl). unfold thermal_ok. cbn.
  rewrite (proj2 (Z.ltb_lt 0 _) Hpos). cbn. split; [done|]. exists names. split; [done|lia].
Qed.

Lemma zlen_extend {A} (l : option (list A)) n x : zlen (default [] l) = Z.of_nat n -> zlen (extend l n x) = Z.of_nat n + 1.
Proof. intros H. unfold extend, zlen in *. rewrite length_app, length_take. cbn. lia. Qed.

Lemma Forall_extend {A} (Q : A -> Prop) l n x : Forall Q (default [] l) -> Q x -> Forall Q (extend l n x).
Proof. intros H1 H2. apply Forall_app. split; [by apply Forall_take|by constructor]. Qed.

(** Each node keeps the type. *)
Lemma process_node_typed nd nds s ret s' :
  flat (thermal_flag s) (cooling_flag s) (nd :: nds) = true -> cores_positive nd ->
  processNode atof junk junk_fan nd s = Some (ret, s') -> config_typed s ->
  config_typed s' /\ flat (thermal_flag s') (cooling_flag s') nds = true.
Proof.
  intros Hflat Hpos Hrun [H1 H2 H3]. destruct nd as [name attrs|name|]; cbn [processNode flat] in *.
  - case_bool_decide.
    { apply andb_prop in Hflat as [Hf Hflat]. apply negb_true_iff in Hf. rewrite Hf, Z.add_0_r in H1.
      injection Hrun as <- <-. split; [|exact Hflat]. split; [by apply zlen_extend|done|by apply Forall_extend]. }
    case_bool_decide.
    { apply andb_prop in Hflat as [Hf Hflat]. apply negb_true_iff in Hf. rewrite Hf, Z.add_0_r in H2.
      injection Hrun as <- <-. split; [|exact Hflat]. split; [done|by apply zlen_extend|done]. }
    case_bool_decide.
    { destruct (xmlTextReaderGetAttribute _ _); injection Hrun as <- <-; (split; [by split|exact Hflat]). }
    destruct (thermal_flag s && bool_decide (name = lit "thermal-prop")) eqn:Ht.
    { apply andb_prop in Ht as [Ht _]. destruct (platform_data s) as [l|] eqn:Hl; [|done]. cbn in Hrun.
      destruct (l !! platform_data_count s) as [d|] eqn:Hd; [|done]. cbn in Hrun.
      destruct (parse_therm_prop atof attrs d) as [d'|] eqn:Hparse; [|done]. cbn in Hrun. injection Hrun as <- <-.
      split; [|exact Hflat]. split; [|done|]; cbn in *.
      - unfold zlen in *. by rewrite length_insert.
      - apply Forall_insert; [done|]. eapply therm_prop_ok; [exact Hpos|exact Hparse|by eapply Forall_lookup_1]. }
    destruct (cooling_flag s && bool_decide (name = lit "cooling-prop")).
    { destruct (cooling_data s) as [l|] eqn:Hl; [|done]. cbn in Hrun.
      destruct (l !! cooling_data_count s) as [d|] eqn:Hd; [|done]. cbn in Hrun.
      destruct (parse_cool_prop attrs d) as [r d']. injection Hrun as <- <-.
      split; [|exact Hflat]. split; [done| |done]. cbn in *. unfold zlen in *. by rewrite length_insert. }
    injection Hrun as <- <-. split; [by split|exact Hflat].
  - case_bool_decide.
    { apply andb_prop in Hflat as [Hf Hflat]. rewrite Hf in H1. injection Hrun as <- <-. split; [|exact Hflat].
      split; [|done|done]. cbn. lia. }
    case_bool_decide.
    { apply andb_prop in Hflat as [Hf Hflat]. rewrite Hf in H2. injection Hrun as <- <-. split; [|exact Hflat].
      split; [done| |done]. cbn. lia. }
    injection Hrun as <- <-. split; [by split|exact Hflat].
  - injection Hrun as <- <-. split; [by split|exact Hflat].
Qed.

Lemma process_nodes_typed nds s ret s' :
  flat (thermal_flag s) (cooling_flag s) nds = true -> Forall cores_positive nds ->
  process_nodes atof junk junk_fan nds s = Some (ret, s') -> config_typed s -> config_typed s'.
Proof.
  revert s. induction nds as [|nd nds IH]; intros s Hflat Hpos Hrun Hs; [by injection Hrun as <- <-|].
  apply Forall_cons in Hpos as [Hnd Hpos]. cbn [process_nodes] in Hrun.
  destruct (processNode atof junk junk_fan nd s) as [[r s1]|] eqn:Hn; [|done]. cbn in Hrun.
  destruct (process_node_typed nd nds s r s1 Hflat Hnd Hn Hs) as [Hs1 Hflat1].
  destruct (r =? 0); [by eapply IH|]. by injection Hrun as <- <-.
Qed.

(** C13. Reading a file whose devices are not nested ([flat]) and whose [cores] attributes
    are positive, whether it succeeds or stops at an error, leaves a well-formed
    configuration: the counts are the lengths of the arrays, but for the element that is
    open, and a device read as a cluster has as many names as cores, at least one.  A
    [cores] attribute that is not positive is a way out of this: [cores_without_names]. *)
Theorem thermal_config_typed files hw_name nds complete ret s :
  files (XML_PREFIX ++ hw_name ++ XML_SUFFIX) = Some (nds, complete) -> flat false false nds = true ->
  Forall cores_positive nds ->
  parse_thermal_config_xml atof junk junk_fan files hw_name no_config = Some (ret, s) -> config_typed s.
Proof.
  intros Hf Hflat Hpos Hrun. unfold parse_thermal_config_xml, streamFile in Hrun.
  cbn [platform_data cooling_data num_cpus_total no_config] in Hrun. rewrite Hf in Hrun.
  destruct (process_nodes atof junk junk_fan nds _) as [[r s1]|] eqn:Hn; [|done]. cbn in Hrun. injection Hrun as _ <-.
  eapply process_nodes_typed; [|exact Hpos|exact Hn|by split]. exact Hflat.
Qed.
End typed.

(** A device with two properties, of two cores and then of none: it still is a cluster of
    two cores, with no name left. *)
Example cores_without_names :
  match process_nodes (fun _ => f32_of_Z 0) (f32_of_Z 0) false
    [Element (lit "thermal_device") [];
     Element (lit "thermal-prop") [(lit "name", lit "CPU"); (lit "cores", lit "2")];
     Element (lit "thermal-prop") [(lit "cores", lit "0")]; EndElement (lit "thermal_device")] no_config with
  | Some (ret, s) => (ret, (fun d => (cluster d, cores d, core_names d)) <$> default [] (platform_data s)) =
                     (0, [(true, 2, Some [])])
  | None => False
  end.
Proof. vm_compute. reflexivity. Qed.
