(* ===== verification/ThermalHal.v ===== *)
(** * The thermal HAL ([hardware/nvidia/thermal/thermal.c])

    The three calls of the module over the configuration of [ThermalParse]: temperatures
    of the thermal zones, load of the processors, speed of the fans.  The file system and
    what [scanf] makes of a [float] are arguments; files do not change during a call.
    [None] is undefined behaviour: an array read or a buffer written past its end, or a
    null pointer followed. *)

From S2P Require Import Prelude.
From S2P Require Import CString.
From S2P Require Import Float32.
From S2P Require Import ThermalParse.
From Stdlib Require Import Ascii.

Definition ENOMEM : Z := 12.

Definition MAX_LENGTH : nat := 100.
Definition THERMAL_ROOT_DIR : bytes := lit "/sys/class/thermal".
Definition THERMAL_DIR : bytes := lit "thermal_zone".
Definition CPU_LABEL : bytes := lit "CPU".
Definition CPU_USAGE_FILE : bytes := lit "/proc/stat".
Definition RPM_FAN_FILE : bytes := lit "/sys/kernel/debug/tegra_fan/cur_rpm".
Definition TRIP_POINT : bytes := lit "trip_point".
Definition THROTTLING_THRESHOLD : bytes := lit "passive".
Definition VR_THROTTLING_THRESHOLD : bytes := lit "passive".
Definition SHUTDOWN_THRESHOLD : bytes := lit "critical".

Record temperature := mk_temperature {
  t_type : temperature_type; t_name : option bytes; current_value : f32; throttling_threshold : f32;
  shutdown_threshold : f32; vr_throttling_threshold : f32 }.

Record cpu_usage := mk_usage { u_name : bytes; active : Z; total : Z; is_online : bool }.

Record cooling_device := mk_cooling_device { c_fan_rpm : bool; c_name : option bytes; c_current_value : f32 }.

(** Contents of the files that can be opened, names in the directories that can be, and
    files that exist. *)
Record file_system := mk_fs {
  fopen : bytes -> option bytes; opendir : bytes -> option (list bytes); file_exists : bytes -> bool }.

(** ** Text *)

(** [snprintf(buf, MAX_LENGTH, ...)]. *)
Definition fit (s : bytes) : bytes := take (MAX_LENGTH - 1) s.

(** [strstr(s, sub) != NULL]. *)
Fixpoint has_sub (sub s : bytes) : bool :=
  bool_decide (sub `prefix_of` s) || match s with [] => false | _ :: r => has_sub sub r end.

Fixpoint word (s : bytes) : bytes :=
  match s with
  | [] => []
  | c :: r => if is_space c then [] else c :: word r
  end.

(** [fscanf("%s")] into [MAX_LENGTH] bytes: nothing scanned, the word, or [None]. *)
Definition scan_word (content : bytes) : option (option bytes) :=
  match word (skip_space content) with
  | [] => Some None
  | w => if bool_decide (length w < MAX_LENGTH)%nat then Some (Some w) else None
  end.

(** [%d] and [%llu]: the number and the text left. *)
Definition scan_int (s : bytes) : option (Z * bytes) :=
  let '(neg, r) := strtol_sign (skip_space s) in
  if starts_digit r then
    let v := read_digits 0 r in Some (wrap_s32 (if neg then - v else v), digits_end r)
  else None.

Definition scan_u64 (s : bytes) : option (Z * bytes) :=
  let '(neg, r) := strtol_sign (skip_space s) in
  if starts_digit r then
    let v := Z.min (read_digits 0 r) (2 ^ 64 - 1) in
    Some (if neg then wrap_u64 (- v) else v, digits_end r)
  else None.

(** What successive [getline]s return. *)
Fixpoint lines_from (cur s : bytes) : list bytes :=
  match s with
  | [] => flush_token cur
  | c :: r => if Ascii.eqb c "010" then (cur ++ [c]) :: lines_from [] r else lines_from (cur ++ [c]) r
  end.

Section thermal.
Context (fs : file_system) (scan_float : bytes -> option f32).

(** ** Paths of the sensors *)

Definition set_device_paths (throttling vr shutdown temp : option bytes) (d : thermal_desc) : thermal_desc :=
  mk_thermal (td_name d) (td_type d) (sensor_label d) (threshold_label d) throttling vr shutdown (multiplier d)
    (cores d) (core_names d) (cluster d) temp.

Definition update_threshold_path (path : option bytes) (type_cmp type file_name : bytes) : option bytes :=
  match path with
  | None => if bool_decide (type_cmp = type) then Some file_name else None
  | Some _ => path
  end.

Definition update_threshold_paths (trip_point_type file_name : bytes) (d : thermal_desc) : thermal_desc :=
  set_device_paths (update_threshold_path (throttling_threshold_path d) THROTTLING_THRESHOLD trip_point_type file_name)
    (update_threshold_path (vr_throttling_threshold_path d) VR_THROTTLING_THRESHOLD trip_point_type file_name)
    (update_threshold_path (shutdown_threshold_path d) SHUTDOWN_THRESHOLD trip_point_type file_name)
    (temperature_path d) d.

(** One name of a zone's directory. *)
Definition search_entry (dir_name name : bytes) (d : thermal_desc) : option thermal_desc :=
  if has_sub TRIP_POINT name && has_sub (lit "type") name then
    match fopen fs (fit (dir_name ++ lit "/" ++ name)) with
    | None => Some d
    | Some content =>
        w ← scan_word content;
        Some (match w with
              | None => d
              | Some type =>
                  update_threshold_paths type
                    (fit (dir_name ++ lit "/" ++ take (length name - 4) name ++ lit "temp")) d
              end)
    end
  else Some d.

Fixpoint search_threshold_paths (names : list bytes) (dir_name : bytes) (d : thermal_desc) : option thermal_desc :=
  match names with
  | [] => Some d
  | n :: names => d ← search_entry dir_name n d; search_threshold_paths names dir_name d
  end.

(** Comparing with a null [sensor_label] is undefined. *)
Definition get_threshold_paths (current_label de : bytes) (d : thermal_desc) : option thermal_desc :=
  label ← match threshold_label d with Some l => Some l | None => sensor_label d end;
  if bool_decide (fit label = current_label) then
    let dir_name := fit (THERMAL_ROOT_DIR ++ lit "/" ++ de) in
    match opendir fs dir_name with
    | None => Some d
    | Some names => search_threshold_paths names dir_name d
    end
  else Some d.

Definition get_temperature_path (current_label de : bytes) (d : thermal_desc) : option thermal_desc :=
  label ← sensor_label d;
  Some (if bool_decide (label = current_label) then
          set_device_paths (throttling_threshold_path d) (vr_throttling_threshold_path d) (shutdown_threshold_path d)
            (Some (fit (THERMAL_ROOT_DIR ++ lit "/" ++ de ++ lit "/temp"))) d
        else d).

Definition no_threshold (d : thermal_desc) : bool :=
  bool_decide (throttling_threshold_path d = None) || bool_decide (vr_throttling_threshold_path d = None) ||
  bool_decide (shutdown_threshold_path d = None).

Definition label_device (current_label de : bytes) (d : thermal_desc) : option thermal_desc :=
  d ← (if bool_decide (temperature_path d = None) then get_temperature_path current_label de d else Some d);
  if no_threshold d then get_threshold_paths current_label de d else Some d.

(** The names of the root directory; [file_name] keeps the last zone's between names. *)
Fixpoint scan_zones (names : list bytes) (file_name : bytes) (ds : list thermal_desc) : option (list thermal_desc) :=
  match names with
  | [] => Some ds
  | de :: names =>
      let file_name := if bool_decide (THERMAL_DIR `prefix_of` de)
                       then fit (THERMAL_ROOT_DIR ++ lit "/" ++ de ++ lit "/type") else file_name in
      match fopen fs file_name with
      | None => scan_zones names file_name ds
      | Some content =>
          w ← scan_word content;
          match w with
          | None => scan_zones names file_name ds
          | Some current_label => ds ← mapM (label_device current_label de) ds; scan_zones names file_name ds
          end
      end
  end.

(** The loop looks at the first device only; [junk_name] is what the buffer holds. *)
Definition get_paths (junk_name : bytes) (ds : list thermal_desc) : option (list thermal_desc) :=
  match ds with
  | d :: _ => if bool_decide (temperature_path d = None) || no_threshold d
              then names ← opendir fs THERMAL_ROOT_DIR; scan_zones names junk_name ds else Some ds
  | [] => names ← opendir fs THERMAL_ROOT_DIR; scan_zones names junk_name ds
  end.

(** ** Temperatures *)

(** The number of values scanned, or an error, and the value. *)
Definition read_temp_file (path : option bytes) (size : Z) : Z * f32 :=
  if size <? 1 then (- ENOMEM, f32_of_Z 0)
  else match path ≫= fopen fs with
       | None => (- ENOENT, f32_of_Z 0)
       | Some content => match scan_float content with Some v => (1, v) | None => (0, f32_of_Z 0) end
       end.

Definition read_temperature (d : thermal_desc) (size : Z) : Z * list temperature :=
  let '(r1, temp) := read_temp_file (temperature_path d) size in
  let '(r2, throttling) := read_temp_file (throttling_threshold_path d) size in
  let '(r3, vr) := read_temp_file (vr_throttling_threshold_path d) size in
  let '(r4, shutdown) := read_temp_file (shutdown_threshold_path d) size in
  if negb ((r1 =? 1) && (r2 =? 1) && (r3 =? 1) && (r4 =? 1)) then (- ENOENT, [])
  else (1, [mk_temperature (td_type d) (td_name d) (f32_mul temp (multiplier d)) (f32_mul throttling (multiplier d))
              (f32_mul shutdown (multiplier d)) (f32_mul vr (multiplier d))]).

Definition with_name (n : bytes) (t : temperature) : temperature :=
  mk_temperature (t_type t) (Some n) (current_value t) (throttling_threshold t) (shutdown_threshold t)
    (vr_throttling_threshold t).

Definition read_cluster_temperature (d : thermal_desc) (size : Z) : option (Z * list temperature) :=
  if size <? cores d then Some (- ENOMEM, [])
  else
    let '(ret, ts) := read_temperature d size in
    if ret <? 0 then Some (ret, [])
    else
      names ← core_names d;
      t ← head ts;
      first ← names !! 0%nat;
      rest ← mapM (fun i => n ← names !! i; Some (with_name n t)) (seq 1 (Z.to_nat (cores d) - 1));
      Some (cores d, with_name first t :: rest).

Definition read_device (d : thermal_desc) (size : Z) : option (Z * list temperature) :=
  if cluster d then read_cluster_temperature d size else Some (read_temperature d size).

(** The status, and what was written from [list[0]] on. *)
Fixpoint read_devices (ds : list thermal_desc) (idx size : Z) : option (Z * list temperature) :=
  match ds with
  | [] => Some (idx, [])
  | d :: ds =>
      '(ret, ts) ← read_device d (wrap_s32 (size - idx));
      if ret <? 0 then Some (ret, ts)
      else '(r, rest) ← read_devices ds (idx + ret) size; Some (r, ts ++ rest)
  end.

Definition entries (d : thermal_desc) : Z := if cores d =? 0 then 1 else cores d.

Definition set_thermal_data (l : option (list thermal_desc)) (s : thermal_config) : thermal_config :=
  mk_tc l (platform_data_count s) (cooling_data s) (cooling_data_count s) (num_cpus_total s) (thermal_flag s)
    (cooling_flag s).

(** The devices that are counted, then the open one if there is one. *)
Definition counted_devices (s : thermal_config) : option (list thermal_desc) :=
  let l := default [] (platform_data s) in
  if bool_decide (platform_data_count s <= length l)%nat then Some (take (platform_data_count s) l) else None.

Definition store_devices (ds : list thermal_desc) (s : thermal_config) : thermal_config :=
  set_thermal_data ((fun l => ds ++ drop (platform_data_count s) l) <$> platform_data s) s.

Definition forget_temperature_path (d : thermal_desc) : thermal_desc :=
  set_device_paths (throttling_threshold_path d) (vr_throttling_threshold_path d) (shutdown_threshold_path d) None d.

(** ** The calls *)

(** [ro.hardware], the files, and what memory holds that was not written. *)
Context (hw_name : option bytes) (files : bytes -> option (list node * bool)) (atof : bytes -> f32)
  (junk : f32) (junk_fan : bool) (junk_name : bytes).

(** What every call does first. *)
Definition load (s : thermal_config) : option (Z * thermal_config) :=
  match hw_name with
  | None => Some (- ENOENT, s)
  | Some hw =>
      '(ret, s) ← parse_thermal_config_xml atof junk junk_fan files hw s;
      Some (if ret =? 0 then 0 else - EINVAL, s)
  end.

(** [have_list] tells whether [list] is not null; it has room for [size] entries.  The
    result, the entries written and the configuration. *)
Definition get_temperatures (have_list : bool) (size : Z) (s : thermal_config)
    : option (Z * list temperature * thermal_config) :=
  '(ret, s) ← load s;
  if negb (ret =? 0) then Some (ret, [], s)
  else
    ds ← counted_devices s;
    if negb have_list then Some (foldr Z.add 0 (entries <$> ds), [], s)
    else if size =? 0 then Some (- ENOMEM, [], s)
    else
      ds ← get_paths junk_name ds;
      '(ret, ts) ← read_devices ds 0 size;
      Some (ret, ts, store_devices (if ret <? 0 then forget_temperature_path <$> ds else ds) s).

(** ** Load of the processors *)

Definition is_cpu_line (line : bytes) : bool :=
  (4 <=? strlen line) && bool_decide (lit "cpu" `prefix_of` line) && starts_digit (drop 3 line).

Definition scan_cpu_line (line : bytes) : option (Z * cpu_usage) :=
  '(cpu_num, r) ← scan_int (drop 3 line);
  '(user, r) ← scan_u64 r;
  '(nice, r) ← scan_u64 r;
  '(system, r) ← scan_u64 r;
  '(idle, r) ← scan_u64 r;
  let act := wrap_u64 (user + nice + system) in
  Some (cpu_num, mk_usage CPU_LABEL act (wrap_u64 (act + idle)) false).

Definition cpu_online_file (cpu_num : Z) : bytes :=
  fit (lit "/sys/devices/system/cpu/cpu" ++ lit (print_int cpu_num) ++ lit "/online").

(** [None]: the file says nothing. *)
Definition cpu_online (cpu_num : Z) : option bool :=
  match fopen fs (cpu_online_file cpu_num) with
  | None => Some (cpu_num =? 0)
  | Some content => (fun p => negb (p.1 =? 0)) <$> scan_int content
  end.

(** The entries in the order of the lines; [false] if a line or a file cannot be read. *)
Fixpoint read_usages (lines : list bytes) : bool * list cpu_usage :=
  match lines with
  | [] => (true, [])
  | l :: lines =>
      if is_cpu_line l then
        match scan_cpu_line l with
        | None => (false, [])
        | Some (cpu_num, u) =>
            match cpu_online cpu_num with
            | None => (false, [])
            | Some online =>
                let '(ok, us) := read_usages lines in
                (ok, mk_usage (u_name u) (active u) (total u) online :: us)
            end
        end
      else read_usages lines
  end.

(** [err] is [-errno], or [-EIO].  Entries are written from [list[0]] on, as many as
    there are; there is no size. *)
Definition get_cpu_usages (have_list : bool) (err : Z) (s : thermal_config)
    : option (Z * list cpu_usage * thermal_config) :=
  '(ret, s) ← load s;
  if negb (ret =? 0) then Some (ret, [], s)
  else if negb have_list then n ← num_cpus_total s; Some (n, [], s)
  else
    match fopen fs CPU_USAGE_FILE with
    | None => Some (err, [], s)
    | Some content =>
        let '(ok, us) := read_usages (lines_from [] content) in
        Some (if ok : bool then zlen us else err, us, s)
    end.

(** ** Fans *)

Definition cooling_file (d : cooling_desc) : bytes := fit (default RPM_FAN_FILE (cooling_path d)).

(** The loop from [count] on, for [n] more entries. *)
Fixpoint read_fans (n : nat) (l : list cooling_desc) (count : nat) (err : Z) : option (Z * list cooling_device) :=
  match n with
  | O => Some (Z.of_nat count, [])
  | S n =>
      d ← l !! count;
      match fopen fs (cooling_file d) with
      | None => Some (err, [])
      | Some content =>
          match scan_float content with
          | None => Some (- ENOENT, [])
          | Some rpm =>
              '(ret, r) ← read_fans n l (S count) err;
              Some (ret, mk_cooling_device (fan_rpm d) (cd_name d) rpm :: r)
          end
      end
  end.

Definition get_cooling_devices (have_list : bool) (size : Z) (err : Z) (s : thermal_config)
    : option (Z * list cooling_device * thermal_config) :=
  '(ret, s) ← load s;
  if negb (ret =? 0) then Some (ret, [], s)
  else
    let l := default [] (cooling_data s) in
    if negb have_list then
      if bool_decide (cooling_data_count s <= length l)%nat then
        Some (zlen (filter (fun d => file_exists fs (cooling_file d) = true) (take (cooling_data_count s) l)), [], s)
      else None
    else if size =? 0 then Some (- ENOMEM, [], s)
    else '(ret, r) ← read_fans (Z.to_nat (wrap_s32 size)) l 0 err; Some (ret, r, s).
End thermal.
