(* ===== verification/ThermalSafe.v ===== *)
(** * What the thermal HAL answers ([hardware/nvidia/thermal/thermal.c])

    The entries of [get_temperatures] against their announced number, the zone a sensor's
    temperature comes from, the processors' load as the kernel prints it, and the sizes a
    list of fans may have. *)

From S2P Require Import Prelude.
From S2P Require Import CString.
From S2P Require Import Float32.
From S2P Require Import ThermalParse.
From S2P Require Import ThermalHal.
From Stdlib Require Import Ascii.

(** ** Temperatures *)

(** What [get_paths] leaves alone. *)
Definition same_device (d d' : thermal_desc) : Prop :=
  cores d' = cores d /\ core_names d' = core_names d /\ cluster d' = cluster d /\ sensor_label d' = sensor_label d /\
  threshold_label d' = threshold_label d.

#[export] Instance same_device_refl : Reflexive same_device.
Proof. by intros d. Qed.
#[export] Instance same_device_trans : Transitive same_device.
Proof. intros x y z (?&?&?&?&?) (?&?&?&?&?). unfold same_device. split_and!; congruence. Qed.

Lemma same_device_ok d d' : same_device d d' -> thermal_ok d -> thermal_ok d'.
Proof. intros (H1 & H2 & H3 & _). unfold thermal_ok. by rewrite H1, H2, H3. Qed.

Lemma same_device_entries d d' : same_device d d' -> entries d' = entries d.
Proof. intros (H1 & _). unfold entries. by rewrite H1. Qed.

Section paths.
Context (fs : file_system).

Lemma search_entry_same dir name d d' : search_entry fs dir name d = Some d' ->
  same_device d d' /\ temperature_path d' = temperature_path d.
Proof.
  unfold search_entry. intros H. destruct (_ && _); [|by injection H as <-].
  destruct (fopen fs _) as [content|]; [|by injection H as <-].
  destruct (scan_word content) as [w|]; [|done]. cbn in H. injection H as <-. by destruct w.
Qed.

Lemma search_same names dir d d' : search_threshold_paths fs names dir d = Some d' ->
  same_device d d' /\ temperature_path d' = temperature_path d.
Proof.
  revert d. induction names as [|n names IH]; intros d H; cbn in H; [by injection H as <-|].
  destruct (search_entry fs dir n d) as [d1|] eqn:Hd; [|done]. cbn in H.
  destruct (search_entry_same _ _ _ _ Hd) as [H1 H2]. destruct (IH _ H) as [H3 H4].
  split; [by etrans|congruence].
Qed.

(** What a label found in the zone [de] does to a device. *)
Lemma label_device_spec label de d d' : label_device fs label de d = Some d' ->
  same_device d d' /\
  temperature_path d' =
    match temperature_path d with
    | Some p => Some p
    | None => if bool_decide (sensor_label d = Some label)
              then Some (fit (THERMAL_ROOT_DIR ++ lit "/" ++ de ++ lit "/temp")) else None
    end.
Proof.
  unfold label_device. intros H.
  assert (Hthr : forall d1, (if no_threshold d1 then get_threshold_paths fs label de d1 else Some d1) = Some d' ->
    same_device d1 d' /\ temperature_path d' = temperature_path d1).
  { intros d1 H1. destruct (no_threshold d1); [|by injection H1 as <-]. unfold get_threshold_paths in H1.
    destruct (match threshold_label d1 with Some _ => _ | None => _ end) as [l|]; [|done]. cbn in H1.
    case_bool_decide; [|by injection H1 as <-]. destruct (opendir fs _) as [names|]; [|by injection H1 as <-].
    by eapply search_same. }
  case_bool_decide as Hp.
  - unfold get_temperature_path in H. destruct (sensor_label d) as [l|] eqn:Hl; [|done]. cbn in H.
    destruct (Hthr _ H) as [H1 H2]. rewrite Hp. destruct (decide (l = label)) as [->|Hne].
    + rewrite !bool_decide_eq_true_2 in * by done. by split.
    + rewrite !bool_decide_eq_false_2 in * by congruence. split; [done|congruence].
  - cbn in H. destruct (Hthr _ H) as [H1 H2]. split; [done|]. by destruct (temperature_path d).
Qed.

Lemma mapM_label label de ds ds' : mapM (label_device fs label de) ds = Some ds' ->
  Forall2 (fun d d' => label_device fs label de d = Some d') ds ds'.
Proof. by intros H%mapM_Some. Qed.

Lemma scan_zones_same names file ds ds' : scan_zones fs names file ds = Some ds' -> Forall2 same_device ds ds'.
Proof.
  revert file ds. induction names as [|de names IH]; intros file ds H; cbn in H.
  - injection H as <-. reflexivity.
  - destruct (fopen fs _) as [content|]; [|by eapply IH].
    destruct (scan_word content) as [[label|]|]; [| by eapply IH|done]. cbn in H.
    destruct (mapM (label_device fs label de) ds) as [ds1|] eqn:Hm; [|done]. cbn in H. apply mapM_label in Hm.
    transitivity ds1; [|by eapply IH]. eapply Forall2_impl; [exact Hm|]. intros d d1 Hd. apply (label_device_spec _ _ _ _ Hd).
Qed.

Lemma get_paths_same junk ds ds' : get_paths fs junk ds = Some ds' -> Forall2 same_device ds ds'.
Proof.
  assert (Hscan : (names ← opendir fs THERMAL_ROOT_DIR; scan_zones fs names junk ds) = Some ds' -> Forall2 same_device ds ds').
  { destruct (opendir fs _) as [names|]; [|done]. apply scan_zones_same. }
  unfold get_paths. destruct ds as [|d ds]; [exact Hscan|]. destruct (_ || _); [exact Hscan|].
  intros [= <-]. reflexivity.
Qed.
End paths.

Section temperatures.
Context (fs : file_system) (scan_float : bytes -> option f32).

Lemma read_temperature_size d size :
  let '(ret, ts) := read_temperature fs scan_float d size in
  (ret = 1 /\ zlen ts = 1 /\ 1 <= size) \/ (ret < 0 /\ ts = []).
Proof.
  unfold read_temperature. destruct (Z.ltb_spec size 1).
  - unfold read_temp_file. rewrite (proj2 (Z.ltb_lt size 1)) by lia. cbn. by right.
  - destruct (read_temp_file fs scan_float (temperature_path d) size) as [r1 ?],
      (read_temp_file fs scan_float (throttling_threshold_path d) size) as [r2 ?],
      (read_temp_file fs scan_float (vr_throttling_threshold_path d) size) as [r3 ?],
      (read_temp_file fs scan_float (shutdown_threshold_path d) size) as [r4 ?].
    destruct (negb _); [by right|by left].
Qed.

(** A device writes its entries, which fit, or none. *)
Lemma read_device_size d size : thermal_ok d -> exists ret ts,
  read_device fs scan_float d size = Some (ret, ts) /\
  ((ret = entries d /\ zlen ts = ret /\ 1 <= ret <= size) \/ (ret < 0 /\ ts = [])).
Proof.
  intros Hok. unfold read_device, thermal_ok in *. destruct (cluster d).
  - destruct Hok as (Hc & names & Hn & Hlen). unfold read_cluster_temperature. destruct (Z.ltb_spec size (cores d)).
    { eexists _, _. split; [done|]. by right. }
    pose proof (read_temperature_size d size) as Hr. destruct (read_temperature fs scan_float d size) as [ret ts].
    destruct Hr as [(-> & Hl & _)|[Hneg ->]].
    2:{ rewrite (proj2 (Z.ltb_lt ret 0)) by done. eexists _, _. split; [done|]. by right. }
    cbn [Z.ltb Z.compare]. rewrite Hn. cbn [mbind option_bind].
    destruct ts as [|t [|t2 ts]]; [done| |rewrite !zlen_cons in Hl; pose proof (zlen_nonneg ts); lia]. cbn [head mbind option_bind].
    destruct (lookup_lt_is_Some_2 names 0) as [n0 Hn0]; [unfold zlen in *; lia|]. rewrite Hn0. cbn [mbind option_bind].
    destruct (mapM (fun i => n ← names !! i; Some (with_name n t)) (seq 1 (Z.to_nat (cores d) - 1))) as [rest|] eqn:Hm.
    + eexists _, _. split; [done|]. left. unfold entries. rewrite (proj2 (Z.eqb_neq (cores d) 0)) by lia.
      apply length_mapM in Hm. rewrite length_seq in Hm. rewrite zlen_cons. unfold zlen. lia.
    + exfalso. apply mapM_None, Exists_exists in Hm as (i & Hi & Hnone). apply elem_of_seq in Hi.
      destruct (lookup_lt_is_Some_2 names i) as [n Hni]; [unfold zlen in *; lia|]. by rewrite Hni in Hnone.
  - pose proof (read_temperature_size d size) as Hr. destruct (read_temperature fs scan_float d size) as [ret ts].
    eexists _, _. split; [done|]. unfold entries. rewrite Hok. cbn.
    destruct Hr as [(-> & Hl & Hs)|Hr]; [left; lia|by right].
Qed.

Lemma read_devices_size ds idx size : Forall thermal_ok ds -> 0 <= idx <= size -> size <= INT_MAX -> exists ret ts,
  read_devices fs scan_float ds idx size = Some (ret, ts) /\ idx + zlen ts <= size /\
  (0 <= ret -> ret = idx + foldr Z.add 0 (entries <$> ds) /\ idx + zlen ts = ret).
Proof.
  intros Hok Hidx Hmax. revert idx Hidx. induction Hok as [|d ds Hd Hds IH]; intros idx Hidx; cbn [read_devices].
  - eexists _, _. split; [done|]. cbn. rewrite zlen_nil. lia.
  - rewrite wrap_s32_id by (unfold is_int, INT_MIN, INT_MAX in *; lia). destruct (read_device_size d (size - idx) Hd) as (r & ts & -> & Hr). cbn [mbind option_bind].
    destruct Hr as [(-> & Hl & Hs)|[Hneg ->]].
    + rewrite (proj2 (Z.ltb_ge _ _)) by lia. destruct (IH (idx + entries d)) as (r2 & ts2 & -> & H1 & H2); [lia|].
      cbn [mbind option_bind]. eexists _, _. split; [done|]. rewrite zlen_app. split; [lia|]. intros H0.
      destruct (H2 H0). cbn. lia.
    + rewrite (proj2 (Z.ltb_lt _ _)) by done. eexists _, _. split; [done|]. rewrite zlen_nil. lia.
Qed.

Lemma entries_same ds ds' : Forall2 same_device ds ds' -> entries <$> ds' = entries <$> ds.
Proof. induction 1 as [|d d' ds ds' Hd Hds IH]; [done|]. cbn. by rewrite (same_device_entries d d'), IH. Qed.

Lemma same_ok ds ds' : Forall2 same_device ds ds' -> Forall thermal_ok ds -> Forall thermal_ok ds'.
Proof. induction 1; intros Hf; [done|]. apply Forall_cons in Hf as [? ?]. constructor; [by eapply same_device_ok|auto]. Qed.

Context (hw_name : option bytes) (files : bytes -> option (list node * bool)) (atof : bytes -> f32)
  (junk : f32) (junk_fan : bool) (junk_name : bytes).

#[local] Abbreviation temperatures := (get_temperatures fs scan_float hw_name files atof junk junk_fan junk_name).
#[local] Abbreviation load := (load hw_name files atof junk junk_fan).

(** C14. On a well-formed configuration a call for the temperatures writes no entry past
    the list, and when it succeeds it returns the number of entries it wrote, which is
    the number a call without a list announced. *)
Theorem temperatures_counted size s s1 ret ts s2 :
  load s = Some (0, s1) -> config_typed s1 -> 0 <= size <= INT_MAX -> temperatures true size s = Some (ret, ts, s2) ->
  zlen ts <= size /\ (0 <= ret -> zlen ts = ret /\
    get_temperatures fs scan_float hw_name files atof junk junk_fan junk_name false 0 s = Some (ret, [], s1)).
Proof.
  intros Hload [H1 _ Hok] Hsize Hrun. unfold get_temperatures in *. rewrite Hload in *. cbn [mbind option_bind] in *.
  cbn [Z.eqb negb] in *. unfold counted_devices in *. rewrite bool_decide_eq_true_2 in *
    by (unfold zlen in H1; destruct (thermal_flag s1); lia).
  cbn [mbind option_bind] in *. set (ds := take _ _) in *.
  assert (Hds : Forall thermal_ok ds) by by apply Forall_take.
  destruct (size =? 0) eqn:Hs; [injection Hrun as <- <- <-; rewrite zlen_nil; split; [lia|unfold ENOMEM; lia]|].
  destruct (get_paths fs junk_name ds) as [ds1|] eqn:Hp; [|done]. cbn [mbind option_bind] in Hrun.
  apply get_paths_same in Hp.
  destruct (read_devices_size ds1 0 size) as (r & ts1 & Hr & Hle & Heq); [by eapply same_ok|lia|lia|].
  rewrite Hr in Hrun. cbn [mbind option_bind] in Hrun. injection Hrun as -> -> _. split; [lia|].
  intros H0. destruct (Heq H0) as [-> Hlen]. rewrite <- (entries_same _ _ Hp). split; [lia|]. done.
Qed.
End temperatures.

(** ** The zone of a sensor *)

Section zones.
Context (fs : file_system).

(** The label a file gives. *)
Definition file_label (file : bytes) : option bytes :=
  match fopen fs file with
  | Some content => match scan_word content with Some w => w | None => None end
  | None => None
  end.

Definition is_zone (label de : bytes) : bool :=
  bool_decide (THERMAL_DIR `prefix_of` de) &&
  bool_decide (file_label (fit (THERMAL_ROOT_DIR ++ lit "/" ++ de ++ lit "/type")) = Some label).

Fixpoint first_zone (label : bytes) (names : list bytes) : option bytes :=
  match names with
  | [] => None
  | de :: names => if is_zone label de then Some (fit (THERMAL_ROOT_DIR ++ lit "/" ++ de ++ lit "/temp"))
                   else first_zone label names
  end.

Lemma scan_zones_paths names file ds ds' i d label :
  scan_zones fs names file ds = Some ds' -> ds !! i = Some d -> sensor_label d = Some label ->
  (file_label file = Some label -> temperature_path d <> None) ->
  exists d', ds' !! i = Some d' /\
    temperature_path d' = match temperature_path d with Some p => Some p | None => first_zone label names end.
Proof.
  revert file ds d. induction names as [|de names IH]; intros file ds d Hrun Hd Hl Hfile; cbn [scan_zones first_zone] in *.
  { injection Hrun as <-. exists d. by destruct (temperature_path d). }
  set (file' := if bool_decide (THERMAL_DIR `prefix_of` de) then _ else _) in Hrun.
  assert (Hskip : file_label file' <> Some label \/ temperature_path d <> None -> scan_zones fs names file' ds = Some ds' ->
    exists d', ds' !! i = Some d' /\ temperature_path d' = match temperature_path d with
      | Some p => Some p
      | None => if is_zone label de then Some (fit (THERMAL_ROOT_DIR ++ lit "/" ++ de ++ lit "/temp"))
                else first_zone label names end).
  { intros Hno H. destruct (IH file' ds d H Hd Hl) as (d' & Hd' & Hp); [by intros ?; destruct Hno|]. exists d'.
    split; [done|]. rewrite Hp. destruct (temperature_path d); [done|]. destruct Hno as [Hno|]; [|done].
    unfold is_zone. unfold file' in Hno. case_bool_decide; [|done]. cbn. by rewrite bool_decide_eq_false_2. }
  destruct (fopen fs file') as [content|] eqn:Hf.
  2:{ apply Hskip; [left; unfold file_label; by rewrite Hf|done]. }
  destruct (scan_word content) as [[w|]|] eqn:Hw; [| |done]; cbn [mbind option_bind] in Hrun.
  2:{ apply Hskip; [left; unfold file_label; by rewrite Hf, Hw|done]. }
  destruct (mapM (label_device fs w de) ds) as [ds1|] eqn:Hm; [|done]. cbn [mbind option_bind] in Hrun.
  apply mapM_label in Hm. destruct (Forall2_lookup_l _ _ _ _ _ Hm Hd) as (d1 & Hd1 & Hld).
  apply label_device_spec in Hld as [Hsame Hpath]. destruct Hsame as (_ & _ & _ & Hl1 & _). rewrite Hl in Hl1.
  assert (Hfl : file_label file' = Some w) by (unfold file_label; by rewrite Hf, Hw).
  destruct (IH file' ds1 d1 Hrun Hd1 Hl1) as (d' & Hd' & Hp).
  { rewrite Hfl, Hpath. intros [= ->]. destruct (temperature_path d); [done|]. by rewrite bool_decide_eq_true_2. }
  exists d'. split; [done|]. rewrite Hp, Hpath. destruct (temperature_path d) as [p|] eqn:Ht; [done|].
  unfold is_zone. unfold file' in Hfl. revert Hfl. destruct (bool_decide (THERMAL_DIR `prefix_of` de)); intros Hfl; cbn [andb].
  - rewrite Hfl. case_bool_decide as Hw1; case_bool_decide as Hw2; congruence.
  - case_bool_decide; [|done]. simplify_eq. by destruct (Hfile Hfl).
Qed.

(** The temperature of a sensor is read from the first thermal zone, in the order of
    the directory, whose [type] file holds the sensor's label, whatever other entries the
    directory has; or from nowhere, if there is none. *)
Theorem temperature_of_first_zone names junk ds ds' i d label :
  fopen fs junk = None -> scan_zones fs names junk ds = Some ds' -> ds !! i = Some d ->
  sensor_label d = Some label -> temperature_path d = None ->
  temperature_path <$> ds' !! i = Some (first_zone label names).
Proof.
  intros Hj Hrun Hd Hl Ht. destruct (scan_zones_paths names junk ds ds' i d label Hrun Hd Hl) as (d' & Hd' & Hp).
  { unfold file_label. by rewrite Hj. }
  rewrite Hd'. cbn. by rewrite Hp, Ht.
Qed.
End zones.

(** ** [/proc/stat] *)

Definition newline : ascii := "010"%char.
Definition dec (z : Z) : bytes := lit (print_int z).

Record cpu_times := mk_times { cpu_index : Z; user : Z; nice : Z; system : Z; idle : Z; other_times : bytes }.

(** A processor's line as the kernel prints it. *)
Definition print_cpu (t : cpu_times) : bytes :=
  lit "cpu" ++ dec (cpu_index t) ++ lit " " ++ dec (user t) ++ lit " " ++ dec (nice t) ++ lit " " ++
  dec (system t) ++ lit " " ++ dec (idle t) ++ other_times t.

Definition print_file (lines : list bytes) : bytes := mjoin ((fun l => l ++ [newline]) <$> lines).

Definition no_newline (l : bytes) : Prop := Forall (fun c => Ascii.eqb c newline = false) l.

Definition times_ok (t : cpu_times) : Prop :=
  0 <= cpu_index t <= INT_MAX /\ Forall (fun z => 0 <= z < 2 ^ 64) [user t; nice t; system t; idle t] /\
  starts_digit (other_times t) = false /\ no_newline (other_times t).

Lemma dec_scan z r : 0 <= z -> starts_digit r = false ->
  skip_space (dec z ++ r) = dec z ++ r /\ strtol_sign (dec z ++ r) = (false, dec z ++ r) /\
  starts_digit (dec z ++ r) = true /\ read_digits 0 (dec z ++ r) = z /\ digits_end (dec z ++ r) = r.
Proof.
  intros Hz Hr. unfold dec. destruct (print_nonneg z Hz) as (Hd & Hne & Hv).
  destruct (read_digits_app_stop _ r Hd Hr) as [H1 H2]. rewrite H1, H2, Hv.
  destruct (lit (print_int z)) as [|c w]; [done|]. apply Forall_cons in Hd as [[d Hc] _].
  destruct (digit_char c) as (_ & _ & Hm & Hp & Hsp); [by exists d|]. cbn. rewrite Hsp, Hm, Hp, Hc. done.
Qed.

Lemma scan_int_dec z r : 0 <= z <= INT_MAX -> starts_digit r = false -> scan_int (dec z ++ r) = Some (z, r).
Proof.
  intros Hz Hr. destruct (dec_scan z r ltac:(lia) Hr) as (H1 & H2 & H3 & H4 & H5). unfold scan_int.
  rewrite H1, H2, H3, H4, H5, wrap_s32_id by (unfold is_int, INT_MIN; lia). done.
Qed.

Lemma scan_u64_dec z r : 0 <= z < 2 ^ 64 -> starts_digit r = false -> scan_u64 (lit " " ++ dec z ++ r) = Some (z, r).
Proof.
  intros Hz Hr. destruct (dec_scan z r ltac:(lia) Hr) as (H1 & H2 & H3 & H4 & H5). unfold scan_u64.
  assert (skip_space (lit " " ++ dec z ++ r) = dec z ++ r) as -> by exact H1.
  rewrite H2, H3, H4, H5. do 2 f_equal. lia.
Qed.

Lemma cpu_line_dec z r : 0 <= z -> starts_digit r = false -> is_cpu_line (lit "cpu" ++ dec z ++ r) = true.
Proof.
  intros Hz Hr. destruct (dec_scan z r Hz Hr) as (_ & _ & H3 & _). unfold is_cpu_line.
  change (drop 3 (lit "cpu" ++ dec z ++ r)) with (dec z ++ r). rewrite H3, andb_true_r. apply andb_true_intro. split.
  - destruct (print_nonneg z Hz) as (Hd & Hne & _). unfold dec in *.
    destruct (lit (print_int z)) as [|c w]; [done|]. apply Forall_cons in Hd as [Hc _].
    destruct (digit_char c Hc) as (Hnul & _). unfold strlen. cbn [app cstr lit String.list_ascii_of_string].
    cbn [Ascii.eqb Bool.eqb NUL]. rewrite Hnul, !zlen_cons. apply Z.leb_le. pose proof (zlen_nonneg (cstr (w ++ r))). lia.
  - apply bool_decide_eq_true. by eexists.
Qed.

Lemma print_cpu_line t : times_ok t -> is_cpu_line (print_cpu t ++ [newline]) = true /\ no_newline (print_cpu t) /\
  scan_cpu_line (print_cpu t ++ [newline]) = Some (cpu_index t,
    mk_usage CPU_LABEL (wrap_u64 (user t + nice t + system t))
      (wrap_u64 (wrap_u64 (user t + nice t + system t) + idle t)) false).
Proof.
  intros (Hi & Hts & Hs & Hn). rewrite !Forall_cons in Hts. destruct Hts as (Hu & Hni & Hsy & Hid & _).
  assert (Hnl : forall z, no_newline (dec z)) by (intros z; by apply print_int_no).
  assert (Hsp : no_newline (lit " ") /\ no_newline (lit "cpu")) by (split; by repeat constructor).
  assert (Hrest : starts_digit (other_times t ++ [newline]) = false) by (by destruct (other_times t)).
  unfold print_cpu. split; [|split].
  - rewrite <- !app_assoc. apply cpu_line_dec; [lia|done].
  - unfold no_newline in *. by repeat (apply Forall_app; split; [by (apply Hnl || apply Hsp)|]).
  - rewrite <- !app_assoc. unfold scan_cpu_line.
    change (drop 3 (lit "cpu" ++ ?r)) with r. rewrite scan_int_dec by done. cbn [mbind option_bind].
    rewrite (scan_u64_dec (user t)) by done. cbn [mbind option_bind].
    rewrite (scan_u64_dec (nice t)) by done. cbn [mbind option_bind].
    rewrite (scan_u64_dec (system t)) by done. cbn [mbind option_bind].
    rewrite (scan_u64_dec (idle t)) by done. done.
Qed.

Lemma lines_from_line cur l r : no_newline l -> lines_from cur (l ++ newline :: r) = (cur ++ l ++ [newline]) :: lines_from [] r.
Proof.
  intros Hl. revert cur. induction Hl as [|c l Hc Hl IH]; intros cur; [done|]. cbn [app lines_from].
  unfold newline in Hc. rewrite Hc, IH. by rewrite <- !app_assoc.
Qed.

Lemma lines_from_file lines : Forall no_newline lines -> lines_from [] (print_file lines) = (fun l => l ++ [newline]) <$> lines.
Proof.
  induction 1 as [|l lines Hl Hls IH]; [done|]. unfold print_file in *. rewrite !fmap_cons.
  change (mjoin (?x :: ?xs)) with (x ++ mjoin xs). rewrite <- app_assoc. change ([newline] ++ ?r) with (newline :: r).
  by rewrite lines_from_line, IH.
Qed.

Section usages.
Context (fs : file_system) (online : Z -> bool).

(** What the call is to say of a processor. *)
Definition usage_of (t : cpu_times) : cpu_usage :=
  let act := wrap_u64 (user t + nice t + system t) in
  mk_usage CPU_LABEL act (wrap_u64 (act + idle t)) (online (cpu_index t)).

Lemma read_usages_other ls rest :
  Forall (fun l => is_cpu_line l = false) ls -> read_usages fs (ls ++ rest) = read_usages fs rest.
Proof. induction 1 as [|l ls Hl Hls IH]; [done|]. cbn. by rewrite Hl. Qed.

Lemma read_usages_cpus ts rest us ok :
  Forall (fun t => times_ok t /\ cpu_online fs (cpu_index t) = Some (online (cpu_index t))) ts ->
  read_usages fs rest = (ok, us) ->
  read_usages fs (((fun l => l ++ [newline]) <$> (print_cpu <$> ts)) ++ rest) = (ok, (usage_of <$> ts) ++ us).
Proof.
  intros Hts Hrest. induction Hts as [|t ts [Ht Hon] Hts IH]; [done|].
  destruct (print_cpu_line t Ht) as (H1 & _ & H2). rewrite !fmap_cons. cbn [app read_usages]. rewrite H1, H2, Hon, IH. done.
Qed.

Context (scan_float : bytes -> option f32) (hw_name : option bytes) (files : bytes -> option (list node * bool))
  (atof : bytes -> f32) (junk : f32) (junk_fan : bool).

(** From [/proc/stat] as the kernel prints it, the summary line, a line for each
    processor and the other lines, the call makes one entry per processor, in order, with
    the sums of its times modulo 2^64 and whether it is online; it does not look at the
    size of the list. *)
Theorem cpu_usages_read s s1 head ts tail err :
  load hw_name files atof junk junk_fan s = Some (0, s1) ->
  fopen fs CPU_USAGE_FILE = Some (print_file (head ++ (print_cpu <$> ts) ++ tail)) ->
  Forall no_newline head -> Forall no_newline tail ->
  Forall (fun l => is_cpu_line (l ++ [newline]) = false) (head ++ tail) ->
  Forall (fun t => times_ok t /\ cpu_online fs (cpu_index t) = Some (online (cpu_index t))) ts ->
  get_cpu_usages fs hw_name files atof junk junk_fan true err s = Some (zlen ts, usage_of <$> ts, s1).
Proof.
  intros Hload Hfile Hh Ht Hother Hts. unfold get_cpu_usages. rewrite Hload. cbn [mbind option_bind Z.eqb negb].
  rewrite Hfile, lines_from_file.
  2:{ rewrite !Forall_app, Forall_fmap. split_and!; [done| |done]. eapply Forall_impl; [exact Hts|].
      intros t [Hok _]. by apply print_cpu_line. }
  apply Forall_app in Hother as [Ho1 Ho2]. rewrite !fmap_app, read_usages_other by by apply Forall_fmap.
  assert (Htail : read_usages fs ((fun l => l ++ [newline]) <$> tail) = (true, [])).
  { rewrite <- (app_nil_r (_ <$> tail)). by rewrite read_usages_other by by apply Forall_fmap. }
  rewrite (read_usages_cpus ts _ [] true Hts Htail), app_nil_r. do 3 f_equal. unfold zlen. by rewrite length_fmap.
Qed.
End usages.

(** ** Fans *)

Section fans.
Context (fs : file_system) (scan_float : bytes -> option f32).

Definition fan_readable (d : cooling_desc) : Prop :=
  exists content rpm, fopen fs (cooling_file d) = Some content /\ scan_float content = Some rpm.

Lemma read_fans_defined n l count err : Forall fan_readable l ->
  read_fans fs scan_float n l count err = None <-> (n <> 0 /\ length l < count + n)%nat.
Proof.
  intros Hl. revert count. induction n as [|n IH]; intros count; cbn [read_fans]; [by split; [|intros []]|].
  destruct (l !! count) as [d|] eqn:Hd; cbn [mbind option_bind].
  - pose proof (Forall_lookup_1 _ _ _ _ Hl Hd) as (content & rpm & -> & ->). apply lookup_lt_Some in Hd.
    specialize (IH (S count)). destruct (read_fans fs scan_float n l (S count) err) as [[r us]|]; cbn [mbind option_bind].
    + split; [done|]. intros [_ Hlen]. destruct IH as [_ IH]. destruct n; [lia|]. by specialize (IH ltac:(lia)).
    + split; [|done]. intros _. destruct IH as [IH _]. specialize (IH eq_refl). lia.
  - apply lookup_ge_None in Hd. split; [|done]. intros _. lia.
Qed.

Context (hw_name : option bytes) (files : bytes -> option (list node * bool)) (atof : bytes -> f32)
  (junk : f32) (junk_fan : bool).

(** The call for the fans reads as many descriptions as the list has room for: with
    fans that can be read, it reads past the end of their array exactly when the list is
    longer than the array. *)
Theorem fans_read_past_end s s1 l size err :
  load hw_name files atof junk junk_fan s = Some (0, s1) -> cooling_data s1 = Some l -> Forall fan_readable l ->
  0 <= size <= INT_MAX -> get_cooling_devices fs scan_float hw_name files atof junk junk_fan true size err s = None <-> zlen l < size.
Proof.
  intros Hload Hl Hr Hsize. unfold get_cooling_devices. rewrite Hload. cbn [mbind option_bind Z.eqb negb].
  rewrite Hl. cbn [default]. pose proof (zlen_nonneg l). case_test; [split; [done|lia]|].
  rewrite wrap_s32_id by (unfold is_int, INT_MIN; lia). pose proof (read_fans_defined (Z.to_nat size) l 0 err Hr) as Hf. cbn [id].
  destruct (read_fans fs scan_float (Z.to_nat size) l 0 err) as [[r us]|]; cbn [mbind option_bind].
  - split; [done|]. intros Hlt. destruct Hf as [_ Hf]. unfold zlen in *. by specialize (Hf ltac:(lia)).
  - split; [|done]. intros _. destruct Hf as [Hf _]. specialize (Hf eq_refl). unfold zlen. lia.
Qed.
End fans.

(** ** On a configuration *)

Definition el (name : string) (attrs : list (string * string)) : node :=
  Element (lit name) ((fun p => (lit p.1, lit p.2)) <$> attrs).

Definition sample_nodes : list node :=
  [el "thermalhal" []; OtherNode; el "thermal_device" [];
   el "thermal-prop" [("name", "CPU"); ("sensor-label", "CPU-therm"); ("cores", "2"); ("type", "DEVICE_TEMPERATURE_CPU")];
   el "thermal-prop" [("multiplier", "1")]; EndElement (lit "thermal_device"); el "thermal_device" [];
   el "thermal-prop" [("name", "skin"); ("sensor-label", "Tskin"); ("multiplier", "1")];
   EndElement (lit "thermal_device"); el "cooling_device" [];
   el "cooling-prop" [("name", "fan"); ("type", "FAN_RPM")]; EndElement (lit "cooling_device");
   el "cpu_usages" [("cpus", "1")]; EndElement (lit "thermalhal")]%string.

Definition sample_xml (f : bytes) : option (list node * bool) :=
  if bool_decide (f = lit "/system/etc/thermalhal.tn8.xml") then Some (sample_nodes, true) else None.

(** Numbers are read as integers; whole degrees. *)
Definition whole (s : bytes) : option f32 := (fun p => f32_of_Z p.1) <$> scan_int s.
Definition sample_atof (s : bytes) : f32 := default (f32_of_Z 0) (whole s).

Definition sample_times : list cpu_times :=
  [mk_times 0 10 20 30 (2 ^ 64 - 1) (lit " 4 0 0"); mk_times 1 5 0 7 9 (lit " 1 0 0")].

Definition sample_stat : bytes :=
  print_file ([lit "cpu  15 20 37 8"] ++ (print_cpu <$> sample_times) ++ [lit "intr 12 3"; lit "ctxt 9"]).

(** Two zones; a file that is not one comes between them. *)
Definition sample_file (f : bytes) : option bytes :=
  let at_ s := bool_decide (f = lit s) in
  if bool_decide (f = CPU_USAGE_FILE) then Some sample_stat
  else if at_ "/sys/class/thermal/thermal_zone0/type"%string then Some (lit "CPU-therm")
  else if at_ "/sys/class/thermal/thermal_zone3/type"%string then Some (lit "Tskin")
  else if at_ "/sys/class/thermal/thermal_zone0/trip_point_0_type"%string then Some (lit "passive")
  else if at_ "/sys/class/thermal/thermal_zone0/trip_point_1_type"%string then Some (lit "critical")
  else if at_ "/sys/class/thermal/thermal_zone3/trip_point_0_type"%string then Some (lit "critical")
  else if at_ "/sys/class/thermal/thermal_zone3/trip_point_7_type"%string then Some (lit "passive")
  else if at_ "/sys/devices/system/cpu/cpu1/online"%string then Some (lit "0")
  else if bool_decide (f = RPM_FAN_FILE) then Some (lit "900")
  else if has_sub (lit "temp") f then Some (lit "41") else None.

Definition sample_dir (d : bytes) : option (list bytes) :=
  if bool_decide (d = THERMAL_ROOT_DIR) then
    Some (lit <$> ["."; ".."; "thermal_zone0"; "cooling_device0"; "thermal_zone3"]%string)
  else if has_sub THERMAL_DIR d then
    Some (lit <$> ["temp"; "type"; "trip_point_0_temp"; "trip_point_0_type"; "trip_point_1_type"; "trip_point_7_type"]%string)
  else None.

Definition sample_fs : file_system := mk_fs sample_file sample_dir (fun f => bool_decide (is_Some (sample_file f))).

Definition sample_load : thermal_config -> option (Z * thermal_config) :=
  load (Some (lit "tn8")) sample_xml sample_atof (f32_of_Z 0) false.

Definition sample_config : thermal_config :=
  match sample_load no_config with Some (_, s) => s | None => no_config end.

Definition sample_temperatures (have_list : bool) (size : Z) (s : thermal_config) :=
  get_temperatures sample_fs whole (Some (lit "tn8")) sample_xml sample_atof (f32_of_Z 0) false [] have_list size s.

Definition sample_end : Z * list temperature * thermal_config :=
  default (0, [], no_config) (sample_temperatures true 8 no_config).

Example sample_end_is :
  (sample_end.1.1, (fun t => (t_name t, f32_to_int (current_value t))) <$> sample_end.1.2,
   temperature_path <$> default [] (platform_data sample_end.2)) =
  (3, [(Some (lit "CPU0"), 41); (Some (lit "CPU1"), 41); (Some (lit "skin"), 41)],
   [Some (lit "/sys/class/thermal/thermal_zone0/temp"); Some (lit "/sys/class/thermal/thermal_zone3/temp")]).
Proof. vm_compute. reflexivity. Qed.

Example thermal_config_typed_witness : config_typed sample_config.
Proof.
  apply (thermal_config_typed sample_atof (f32_of_Z 0) false sample_xml (lit "tn8") sample_nodes true 0 sample_config).
  - vm_compute. reflexivity.
  - vm_compute. reflexivity.
  - unfold sample_nodes. repeat (apply Forall_cons; split; [|]); try apply Forall_nil; try exact I;
      intros c Hc; vm_compute in Hc; try discriminate Hc; injection Hc as <-; vm_compute; reflexivity.
  - vm_compute. reflexivity.
Defined.

Lemma sample_config_typed : config_typed sample_config.
Proof.
  split; [vm_compute; reflexivity|vm_compute; reflexivity|].
  set (l := default [] _). vm_compute in l. unfold l. repeat constructor.
  by exists [lit "CPU0"; lit "CPU1"].
Qed.

Lemma sample_load_is : sample_load no_config = Some (0, sample_config).
Proof. vm_compute. reflexivity. Qed.

Example temperatures_counted_witness :
  zlen sample_end.1.2 <= 8 /\
  (0 <= sample_end.1.1 -> zlen sample_end.1.2 = sample_end.1.1 /\
     sample_temperatures false 0 no_config = Some (sample_end.1.1, [], sample_config)).
Proof.
  apply (temperatures_counted sample_fs whole (Some (lit "tn8")) sample_xml sample_atof (f32_of_Z 0) false [] 8
           no_config sample_config sample_end.1.1 sample_end.1.2 sample_end.2).
  - exact sample_load_is.
  - exact sample_config_typed.
  - done.
  - vm_compute. reflexivity.
Defined.

(** The names of the root directory, and the devices after them. *)
Definition sample_zones : list bytes := default [] (sample_dir THERMAL_ROOT_DIR).
Definition sample_devices : list thermal_desc := default [] (platform_data sample_config).
Definition sample_labelled : list thermal_desc := default [] (scan_zones sample_fs sample_zones [] sample_devices).

Example temperature_of_first_zone_witness :
  temperature_path <$> sample_labelled !! 1%nat = Some (first_zone sample_fs (lit "Tskin") sample_zones).
Proof.
  apply (temperature_of_first_zone sample_fs sample_zones [] sample_devices sample_labelled 1
           (default (new_thermal (f32_of_Z 0)) (sample_devices !! 1%nat)) (lit "Tskin")); vm_compute; reflexivity.
Defined.

Example first_zone_is :
  first_zone sample_fs (lit "Tskin") sample_zones = Some (lit "/sys/class/thermal/thermal_zone3/temp").
Proof. vm_compute. reflexivity. Qed.

Example cpu_usages_read_witness :
  get_cpu_usages sample_fs (Some (lit "tn8")) sample_xml sample_atof (f32_of_Z 0) false true (-5) no_config =
    Some (zlen sample_times, usage_of (Z.eqb 0) <$> sample_times, sample_config).
Proof.
  apply (cpu_usages_read sample_fs (Z.eqb 0) (Some (lit "tn8")) sample_xml sample_atof (f32_of_Z 0) false
           no_config sample_config [lit "cpu  15 20 37 8"] sample_times [lit "intr 12 3"; lit "ctxt 9"] (-5)).
  - exact sample_load_is.
  - vm_compute. reflexivity.
  - repeat constructor.
  - repeat constructor.
  - repeat constructor.
  - repeat constructor; vm_compute; congruence.
Defined.

Example fans_read_past_end_witness :
  get_cooling_devices sample_fs whole (Some (lit "tn8")) sample_xml sample_atof (f32_of_Z 0) false true 2 (-5) no_config
    = None <-> zlen [mk_cooling (Some (lit "fan")) true None] < 2.
Proof.
  apply (fans_read_past_end sample_fs whole (Some (lit "tn8")) sample_xml sample_atof (f32_of_Z 0) false
           no_config sample_config [mk_cooling (Some (lit "fan")) true None] 2 (-5)).
  - exact sample_load_is.
  - vm_compute. reflexivity.
  - repeat constructor. exists (lit "900"), (f32_of_Z 900). split; vm_compute; reflexivity.
  - done.
Defined.

(** The configuration announces one processor; two entries are written. *)
Example cpu_list_overrun :
  let usages have_list := get_cpu_usages sample_fs (Some (lit "tn8")) sample_xml sample_atof (f32_of_Z 0) false have_list
                            (-5) no_config in
  ((fun x => x.1.1) <$> usages false, (fun x => zlen x.1.2) <$> usages true) = (Some 1, Some 2).
Proof. vm_compute. reflexivity. Qed.

(** A file that breaks off is an error once; the next call works with what was read. *)
Definition broken_xml (f : bytes) : option (list node * bool) :=
  if bool_decide (f = lit "/system/etc/thermalhal.tn8.xml") then Some (take 6 sample_nodes, false) else None.

Example broken_file_is_used :
  let call s := get_temperatures sample_fs whole (Some (lit "tn8")) broken_xml sample_atof (f32_of_Z 0) false [] false 0 s in
  let first := default (0, [], no_config) (call no_config) in
  (first.1.1, (fun x => x.1.1) <$> call first.2) = (- EINVAL, Some 2).
Proof. vm_compute. reflexivity. Qed.

(** A [cores] attribute before any name: a null pointer is read. *)
Example cores_before_name :
  parse_therm_prop sample_atof [(lit "cores", lit "2")] (new_thermal (f32_of_Z 0)) = None.
Proof. vm_compute. reflexivity. Qed.
