(* ===== verification/MetadataLib.v ===== *)
(** * The camera metadata library the camera code is written against

    [libcamera_metadata] (and [system/camera_metadata.h]) is not part of the repository.
    [MetadataLib] lists the operations the sources call, on the contents of one buffer, and
    [MetadataLaws] what their documentation promises; the components are proved against
    these two classes.  [RefMetadata] is a list of entries that satisfies the laws, on
    which the components run.

    The second half is the memory the buffers live in: a pointer is a [positive], an
    allocation may fail ([alloc_ok]), and using a buffer that is not allocated is undefined
    behaviour ([None]). *)

From S2P Require Import Prelude.

(** ** Data *)

Inductive md_type := TYPE_BYTE | TYPE_INT32 | TYPE_FLOAT | TYPE_INT64 | TYPE_DOUBLE | TYPE_RATIONAL.

#[export] Instance md_type_eq_dec : EqDecision md_type.
Proof. solve_decision. Defined.

Definition type_size (t : md_type) : Z :=
  match t with
  | TYPE_BYTE => 1
  | TYPE_INT32 | TYPE_FLOAT => 4
  | TYPE_INT64 | TYPE_DOUBLE | TYPE_RATIONAL => 8
  end.

(** An entry: its tag and the bytes of its data. *)
Record entry := mk_entry { e_tag : Z; e_data : list Z }.

#[export] Instance entry_eq_dec : EqDecision entry.
Proof. solve_decision. Defined.

Definition i32_bytes (l : list Z) : list Z := mjoin (le_bytes 4 <$> l).
Definition i64_bytes (l : list Z) : list Z := mjoin (le_bytes 8 <$> l).

(** [data.i32]: the words of the data. *)
Fixpoint i32_of (l : list Z) : list Z :=
  match l with
  | a :: b :: c :: d :: l => wrap_s32 (le_int [a; b; c; d]) :: i32_of l
  | _ => []
  end.

Lemma i32_of_bytes l : Forall is_int l -> i32_of (i32_bytes l) = l.
Proof.
  induction 1 as [|z l Hz Hl IH]; [done|]. change (i32_bytes (z :: l)) with (le_bytes 4 z ++ i32_bytes l).
  transitivity (wrap_s32 (le_int (le_bytes 4 z)) :: i32_of (i32_bytes l)); [done|].
  rewrite IH, le_int_bytes. f_equal. change (2 ^ (8 * Z.of_nat 4)) with (2 ^ 32).
  unfold wrap_s32. rewrite Zplus_mod_idemp_l. by apply wrap_s32_id.
Qed.

Lemma zlen_words n l : zlen (mjoin (le_bytes n <$> l)) = Z.of_nat n * zlen l.
Proof.
  induction l as [|z l IH]; [unfold zlen; cbn; lia|]. rewrite fmap_cons.
  change (mjoin (?x :: ?xs)) with (x ++ mjoin xs). rewrite zlen_app, IH, zlen_cons.
  unfold zlen at 1. rewrite length_le_bytes. lia.
Qed.

Lemma zlen_i32_bytes l : zlen (i32_bytes l) = 4 * zlen l.
Proof. apply (zlen_words 4). Qed.
Lemma zlen_i64_bytes l : zlen (i64_bytes l) = 8 * zlen l.
Proof. apply (zlen_words 8). Qed.

(** ** The library *)

Class MetadataLib (buf : Type) := {
  get_camera_metadata_tag_type : Z -> option md_type;
  calculate_camera_metadata_entry_data_size : Z -> Z;      (* of so many bytes of data *)
  entries_of : buf -> list entry;
  get_camera_metadata_entry_capacity : buf -> Z;
  get_camera_metadata_data_capacity : buf -> Z;
  empty_buffer : Z -> Z -> buf;                              (* what an allocation returns *)
  find_camera_metadata_entry : buf -> Z -> option nat;
  add_camera_metadata_entry : buf -> Z -> list Z -> option buf;
  update_camera_metadata_entry : buf -> nat -> list Z -> option buf;
  delete_camera_metadata_entry : buf -> nat -> option buf;
  append_camera_metadata : buf -> buf -> option buf;
  sort_camera_metadata : buf -> buf;
  copy_camera_metadata : buf -> buf                          (* compacted *) }.

Definition get_camera_metadata_entry_count `{MetadataLib buf} (b : buf) : Z := zlen (entries_of b).

Definition data_size `{MetadataLib buf} (e : entry) : Z :=
  calculate_camera_metadata_entry_data_size (zlen (e_data e)).

Definition get_camera_metadata_data_count `{MetadataLib buf} (b : buf) : Z :=
  foldr Z.add 0 (data_size <$> entries_of b).

Definition tags `{MetadataLib buf} (b : buf) : list Z := e_tag <$> entries_of b.

(** There is room for so many more entries and bytes. *)
Definition room `{MetadataLib buf} (b : buf) (n bytes : Z) : Prop :=
  get_camera_metadata_entry_count b + n <= get_camera_metadata_entry_capacity b /\
  get_camera_metadata_data_count b + bytes <= get_camera_metadata_data_capacity b.

Definition same_capacity `{MetadataLib buf} (b b' : buf) : Prop :=
  get_camera_metadata_entry_capacity b' = get_camera_metadata_entry_capacity b /\
  get_camera_metadata_data_capacity b' = get_camera_metadata_data_capacity b.

Class MetadataLaws (buf : Type) `{MetadataLib buf} : Prop := {
  data_size_inline n : 0 <= n <= 4 -> calculate_camera_metadata_entry_data_size n = 0;
  data_size_aligned n : 4 < n -> calculate_camera_metadata_entry_data_size n = (n + 7) / 8 * 8;
  empty_is e d : 0 <= e -> 0 <= d -> entries_of (empty_buffer e d) = [] /\
    get_camera_metadata_entry_capacity (empty_buffer e d) = e /\
    get_camera_metadata_data_capacity (empty_buffer e d) = d;
  within_capacity b : room b 0 0;
  find_some b t i : find_camera_metadata_entry b t = Some i -> exists d, entries_of b !! i = Some (mk_entry t d);
  find_none b t : find_camera_metadata_entry b t = None -> t ∉ tags b;
  add_some b t d b' : add_camera_metadata_entry b t d = Some b' ->
    entries_of b' = entries_of b ++ [mk_entry t d] /\ same_capacity b b';
  add_iff b t d : is_Some (add_camera_metadata_entry b t d) <->
    (get_camera_metadata_tag_type t <> None /\ room b 1 (calculate_camera_metadata_entry_data_size (zlen d)));
  update_some b i d b' e : update_camera_metadata_entry b i d = Some b' -> entries_of b !! i = Some e ->
    entries_of b' = <[i := mk_entry (e_tag e) d]> (entries_of b) /\ same_capacity b b';
  update_fits b i d e : entries_of b !! i = Some e ->
    room b 0 (calculate_camera_metadata_entry_data_size (zlen d)) -> is_Some (update_camera_metadata_entry b i d);
  delete_is b i : (i < length (entries_of b))%nat ->
    exists b', delete_camera_metadata_entry b i = Some b' /\ entries_of b' = delete i (entries_of b) /\ same_capacity b b';
  append_some b c b' : append_camera_metadata b c = Some b' ->
    entries_of b' = entries_of b ++ entries_of c /\ same_capacity b b';
  append_fits b c : room b (get_camera_metadata_entry_count c) (get_camera_metadata_data_count c) ->
    is_Some (append_camera_metadata b c);
  sort_is b : entries_of (sort_camera_metadata b) ≡ₚ entries_of b /\ same_capacity b (sort_camera_metadata b);
  copy_is b : entries_of (copy_camera_metadata b) = entries_of b }.

(** ** Facts about the counts *)

Lemma sum_app (l k : list Z) : foldr Z.add 0 (l ++ k) = foldr Z.add 0 l + foldr Z.add 0 k.
Proof. induction l as [|x l IH]; cbn; [done|]. rewrite IH. lia. Qed.

Section counts.
Context `{MetadataLaws buf}.

Lemma data_size_nonneg n : 0 <= n -> 0 <= calculate_camera_metadata_entry_data_size n.
Proof.
  intros Hn. destruct (Z.le_gt_cases n 4).
  - rewrite data_size_inline by lia. lia.
  - rewrite data_size_aligned by lia. pose proof (Z.div_pos (n + 7) 8 ltac:(lia) ltac:(lia)). lia.
Qed.

Lemma data_count_nonneg b : 0 <= get_camera_metadata_data_count b.
Proof.
  unfold get_camera_metadata_data_count. induction (entries_of b) as [|e l IH]; [done|]. cbn.
  pose proof (data_size_nonneg (zlen (e_data e)) (zlen_nonneg _)). unfold data_size at 1. lia.
Qed.

(** Entries determine the counts. *)
Lemma counts_of b b' l : entries_of b' = entries_of b ++ l ->
  get_camera_metadata_entry_count b' = get_camera_metadata_entry_count b + zlen l /\
  get_camera_metadata_data_count b' = get_camera_metadata_data_count b + foldr Z.add 0 (data_size <$> l).
Proof.
  intros He. unfold get_camera_metadata_entry_count, get_camera_metadata_data_count.
  rewrite He, zlen_app, fmap_app, sum_app. done.
Qed.

Lemma find_exact b t : NoDup (tags b) ->
  find_camera_metadata_entry b t = fst <$> list_find (fun e => e_tag e = t) (entries_of b).
Proof.
  intros Hnd. destruct (find_camera_metadata_entry b t) as [i|] eqn:Hf.
  - destruct (find_some _ _ _ Hf) as [d Hi].
    destruct (list_find _ _) as [[j e]|] eqn:Hl.
    + apply list_find_Some in Hl as (Hj & Ht & _). cbn. f_equal.
      eapply (NoDup_lookup (tags b)); [done|..]; unfold tags; rewrite list_lookup_fmap; [by rewrite Hi|by rewrite Hj, <- Ht].
    + exfalso. rewrite list_find_None, Forall_lookup in Hl. by apply (Hl i _ Hi).
  - apply find_none in Hf. destruct (list_find _ _) as [[j e]|] eqn:Hl; [|done].
    apply list_find_Some in Hl as (Hj & Ht & _). exfalso. apply Hf, list_elem_of_fmap. exists e.
    split; [done|]. by eapply list_elem_of_lookup_2.
Qed.
End counts.

(** ** A list of entries as the library *)

Record ref_buf := mk_ref { ref_entries : list entry; ref_entry_cap : Z; ref_data_cap : Z }.

Section reference.
#[local] Arguments Z.max _ _ : simpl never.
#[local] Arguments Z.add _ _ : simpl never.
Context (tag_type : Z -> option md_type).

Definition ref_data_size (n : Z) : Z := if n <=? 4 then 0 else (n + 7) / 8 * 8.
Definition ref_data (l : list entry) : Z := foldr Z.add 0 ((fun e => ref_data_size (zlen (e_data e))) <$> l).

(** The entries, if they fit. *)
Definition ref_set (b : ref_buf) (l : list entry) : option ref_buf :=
  if (zlen l <=? ref_entry_cap b) && (ref_data l <=? ref_data_cap b)
  then Some (mk_ref l (ref_entry_cap b) (ref_data_cap b)) else None.

Definition ref_find (b : ref_buf) (t : Z) : option nat := fst <$> list_find (fun e => e_tag e = t) (ref_entries b).

Definition tag_le (a b : entry) : Prop := e_tag a <= e_tag b.
#[export] Instance tag_le_dec a b : Decision (tag_le a b).
Proof. unfold tag_le. apply _. Defined.

Definition ref_sort (l : list entry) : list entry := merge_sort tag_le l.

(** A buffer whose entries do not fit its capacities does not occur; it counts as having
    the capacities it needs. *)
Definition ref_cap (b : ref_buf) : Z := Z.max (ref_entry_cap b) (zlen (ref_entries b)).
Definition ref_dcap (b : ref_buf) : Z := Z.max (ref_data_cap b) (ref_data (ref_entries b)).
Definition ref_fit (b : ref_buf) : ref_buf := mk_ref (ref_entries b) (ref_cap b) (ref_dcap b).

#[export] Instance RefMetadata : MetadataLib ref_buf := {
  get_camera_metadata_tag_type := tag_type;
  calculate_camera_metadata_entry_data_size := ref_data_size;
  entries_of := ref_entries;
  get_camera_metadata_entry_capacity := ref_cap;
  get_camera_metadata_data_capacity := ref_dcap;
  empty_buffer e d := mk_ref [] e d;
  find_camera_metadata_entry := ref_find;
  add_camera_metadata_entry b t d :=
    if decide (tag_type t = None) then None else ref_set (ref_fit b) (ref_entries b ++ [mk_entry t d]);
  update_camera_metadata_entry b i d :=
    e ← ref_entries b !! i; ref_set (ref_fit b) (<[i := mk_entry (e_tag e) d]> (ref_entries b));
  delete_camera_metadata_entry b i :=
    if decide (i < length (ref_entries b))%nat
    then Some (mk_ref (delete i (ref_entries b)) (ref_cap b) (ref_dcap b)) else None;
  append_camera_metadata b c := ref_set (ref_fit b) (ref_entries b ++ ref_entries c);
  sort_camera_metadata b := mk_ref (ref_sort (ref_entries b)) (ref_cap b) (ref_dcap b);
  copy_camera_metadata b := mk_ref (ref_entries b) (zlen (ref_entries b)) (ref_data (ref_entries b)) }.

Lemma ref_size_nonneg n : 0 <= n -> 0 <= ref_data_size n.
Proof. intros. unfold ref_data_size. case_test; [lia|]. pose proof (Z.div_pos (n + 7) 8 ltac:(lia) ltac:(lia)). lia. Qed.

Lemma ref_data_app l k : ref_data (l ++ k) = ref_data l + ref_data k.
Proof. unfold ref_data. rewrite fmap_app. apply sum_app. Qed.

Lemma ref_data_nonneg l : 0 <= ref_data l.
Proof.
  induction l as [|e l IH]; [done|]. change (e :: l) with ([e] ++ l). rewrite ref_data_app. unfold ref_data at 1. cbn.
  pose proof (ref_size_nonneg (zlen (e_data e)) (zlen_nonneg _)). lia.
Qed.

Lemma ref_data_perm l k : l ≡ₚ k -> ref_data l = ref_data k.
Proof. unfold ref_data. induction 1; cbn; lia. Qed.

Lemma ref_set_some b l b' : ref_set b l = Some b' ->
  ref_entries b' = l /\ ref_cap b' = ref_entry_cap b /\ ref_dcap b' = ref_data_cap b.
Proof.
  unfold ref_set. destruct (_ && _) eqn:Ht; [|done]. breflect. intros [= <-]. split; [done|]. unfold ref_cap, ref_dcap. cbn [ref_entries ref_entry_cap ref_data_cap]. lia.
Qed.

Lemma ref_set_iff b l : is_Some (ref_set b l) <-> zlen l <= ref_entry_cap b /\ ref_data l <= ref_data_cap b.
Proof.
  unfold ref_set. destruct (_ && _) eqn:Ht.
  - breflect. split; [done|by eexists].
  - split; [by intros [? ?]|]. intros [H1 H2]. apply andb_false_iff in Ht as [Ht|Ht]; apply Z.leb_gt in Ht; lia.
Qed.

Lemma ref_data_insert l i e e' : l !! i = Some e ->
  ref_data (<[i := e']> l) = ref_data l - ref_data_size (zlen (e_data e)) + ref_data_size (zlen (e_data e')).
Proof.
  intros Hi. rewrite insert_take_drop by by eapply lookup_lt_Some. rewrite <- (take_drop_middle l i e Hi) at 3.
  rewrite !ref_data_app. change (e' :: drop (S i) l) with ([e'] ++ drop (S i) l).
  change (e :: drop (S i) l) with ([e] ++ drop (S i) l). rewrite !ref_data_app. unfold ref_data at 2 5. cbn. lia.
Qed.

Lemma ref_room b n bytes : room b n bytes <->
  zlen (ref_entries b) + n <= ref_cap b /\ ref_data (ref_entries b) + bytes <= ref_dcap b.
Proof. done. Qed.

Lemma ref_data_cons e l : ref_data (e :: l) = ref_data_size (zlen (e_data e)) + ref_data l.
Proof. done. Qed.

#[export] Instance RefLaws : MetadataLaws ref_buf.
Proof.
  split; unfold same_capacity; intros.
  - cbn. unfold ref_data_size. by rewrite (proj2 (Z.leb_le n 4)) by lia.
  - cbn. unfold ref_data_size. by rewrite (proj2 (Z.leb_gt n 4)) by lia.
  - split; [done|]. cbn. unfold ref_cap, ref_dcap. cbn. unfold ref_data. cbn. rewrite zlen_nil. lia.
  - apply ref_room. unfold ref_cap, ref_dcap. lia.
  - cbn in *. unfold ref_find in H. destruct (list_find _ _) as [[j e]|] eqn:Hl; [|done]. injection H as <-.
    apply list_find_Some in Hl as (Hj & <- & _). exists (e_data e). cbn. by destruct e.
  - cbn in *. unfold ref_find in H. destruct (list_find _ _) eqn:Hl; [done|]. intros Hin.
    rewrite list_find_None, Forall_forall in Hl. apply list_elem_of_fmap in Hin as (e & -> & He). by apply (Hl e).
  - cbn in *. case_decide; [done|]. by apply ref_set_some in H as (H1 & H2 & H3).
  - rewrite ref_room. cbn. case_decide as Ht.
    + split; [by intros [? ?]|]. by intros [? _].
    + rewrite ref_set_iff, zlen_app, ref_data_app, ref_data_cons. unfold ref_data at 2. cbn. rewrite zlen_cons, zlen_nil.
      split; [intros [? ?]; split; [done|lia]|intros [_ ?]; lia].
  - cbn in *. rewrite H0 in H. by apply ref_set_some in H as (H1 & H2 & H3).
  - rewrite ref_room in H0. cbn in *. rewrite H. cbn. apply ref_set_iff. cbn. unfold zlen at 1. rewrite length_insert.
    fold (zlen (ref_entries b)). rewrite (ref_data_insert _ _ e) by done. cbn.
    pose proof (ref_size_nonneg (zlen (e_data e)) (zlen_nonneg _)). lia.
  - cbn in *. rewrite decide_True by done. eexists. split; [done|]. split; [done|]. unfold ref_cap, ref_dcap.
    cbn [ref_entries ref_entry_cap ref_data_cap].
    destruct (lookup_lt_is_Some_2 _ _ H) as [e He]. destruct (delete_split _ _ _ He) as (l1 & l2 & -> & ->).
    rewrite !zlen_app, !ref_data_app, zlen_cons, ref_data_cons.
    pose proof (ref_size_nonneg (zlen (e_data e)) (zlen_nonneg _)). lia.
  - cbn in *. by apply ref_set_some in H as (H1 & H2 & H3).
  - rewrite ref_room in H. apply ref_set_iff. cbn. rewrite zlen_app, ref_data_app. exact H.
  - cbn. assert (Hp : ref_sort (ref_entries b) ≡ₚ ref_entries b) by apply merge_sort_Permutation.
    split; [exact Hp|]. unfold ref_cap, ref_dcap. cbn [ref_entries ref_entry_cap ref_data_cap].
    rewrite (ref_data_perm _ _ Hp). unfold zlen. rewrite Hp. lia.
  - done.
Qed.
End reference.

(** ** Memory *)

Lemma zlookup_insert_eq {A} (l : list A) i x y : zlookup l i = Some y -> zlookup (<[Z.to_nat i := x]> l) i = Some x.
Proof.
  unfold zlookup. destruct (i <? 0); [done|]. intros Hi. apply list_lookup_insert_eq. by eapply lookup_lt_Some.
Qed.

(** The live buffers, and how many allocations there were. *)
Record md_heap (buf : Type) := mk_heap { bufs : gmap positive buf; allocs : nat }.
Arguments mk_heap {buf} _ _.
Arguments bufs {buf} _.
Arguments allocs {buf} _.

Definition MD (buf A : Type) : Type := md_heap buf -> option (A * md_heap buf).

#[export] Instance md_ret buf : MRet (MD buf) := fun A x h => Some (x, h).
#[export] Instance md_bind buf : MBind (MD buf) := fun A B f m h => '(x, h) ← m h; f x h.

Section memory.
Context `{MetadataLib buf} (alloc_ok : nat -> bool).

Definition md_crash {A} : MD buf A := fun _ => None.

(** What is at a pointer; a null pointer is not followed. *)
Definition at_ptr (p : option positive) : MD buf buf := fun h => (., h) <$> (p ≫= fun p => bufs h !! p).

Definition store_ptr (p : option positive) (b : buf) : MD buf unit := fun h =>
  p ← p; _ ← bufs h !! p; Some (tt, mk_heap (<[p := b]> (bufs h)) (allocs h)).

Definition new_buffer (b : buf) : MD buf (option positive) := fun h =>
  if alloc_ok (allocs h) then
    let p := fresh (dom (bufs h)) in Some (Some p, mk_heap (<[p := b]> (bufs h)) (S (allocs h)))
  else Some (None, mk_heap (bufs h) (S (allocs h))).

Definition allocate_camera_metadata (entry_capacity data_capacity : Z) : MD buf (option positive) :=
  new_buffer (empty_buffer entry_capacity data_capacity).

(** Freeing a null pointer does nothing; freeing a buffer twice is undefined. *)
Definition free_camera_metadata (p : option positive) : MD buf unit := fun h =>
  match p with
  | None => Some (tt, h)
  | Some p => _ ← bufs h !! p; Some (tt, mk_heap (delete p (bufs h)) (allocs h))
  end.

(** A null pointer is cloned to a null pointer. *)
Definition clone_camera_metadata (p : option positive) : MD buf (option positive) :=
  match p with
  | None => mret None
  | Some _ => b ← at_ptr p; new_buffer (copy_camera_metadata b)
  end.

(** An operation that may refuse, and leaves the buffer alone then. *)
Definition try_on (p : option positive) (f : buf -> option buf) : MD buf bool :=
  b ← at_ptr p;
  match f b with
  | Some b' => _ ← store_ptr p b'; mret true
  | None => mret false
  end.

(** *** Rules *)

(** From [h] the operation has no undefined behaviour and ends in [Q]. *)
Definition mdwp {A} (m : MD buf A) (Q : A -> md_heap buf -> Prop) (h : md_heap buf) : Prop :=
  match m h with Some (x, h) => Q x h | None => False end.

Lemma mdwp_some {A} (m : MD buf A) Q h : mdwp m Q h -> exists x h', m h = Some (x, h') /\ Q x h'.
Proof. unfold mdwp. destruct (m h) as [[x h']|]; [by exists x, h'|done]. Qed.

Lemma md_bind_some {A B} (m : MD buf A) (f : A -> MD buf B) h x h' : m h = Some (x, h') -> (m ≫= f) h = f x h'.
Proof. intros Hm. unfold mbind, md_bind. by rewrite Hm. Qed.

Lemma mdwp_ret {A} (x : A) (Q : A -> md_heap buf -> Prop) h : Q x h -> mdwp (mret x) Q h.
Proof. done. Qed.

Lemma mdwp_bind {A B} (m : MD buf A) (f : A -> MD buf B) (Q : B -> md_heap buf -> Prop) h :
  mdwp m (fun x h => mdwp (f x) Q h) h -> mdwp (m ≫= f) Q h.
Proof. unfold mdwp, mbind, md_bind. by destruct (m h) as [[x h']|]. Qed.

Lemma mdwp_mono {A} (m : MD buf A) (Q R : A -> md_heap buf -> Prop) h :
  mdwp m Q h -> (forall x h, Q x h -> R x h) -> mdwp m R h.
Proof. unfold mdwp. destruct (m h) as [[x h']|]; [auto|done]. Qed.

Lemma mdwp_at p b (Q : buf -> md_heap buf -> Prop) h : bufs h !! p = Some b -> Q b h -> mdwp (at_ptr (Some p)) Q h.
Proof. intros Hp HQ. unfold mdwp, at_ptr. cbn. by rewrite Hp. Qed.

Lemma mdwp_free p b (Q : unit -> md_heap buf -> Prop) h : bufs h !! p = Some b ->
  Q tt (mk_heap (delete p (bufs h)) (allocs h)) -> mdwp (free_camera_metadata (Some p)) Q h.
Proof. intros Hp HQ. unfold mdwp, free_camera_metadata. rewrite Hp. exact HQ. Qed.

Lemma mdwp_new b (Q : option positive -> md_heap buf -> Prop) h :
  (forall p, bufs h !! p = None -> Q (Some p) (mk_heap (<[p := b]> (bufs h)) (S (allocs h)))) ->
  (alloc_ok (allocs h) = false -> Q None (mk_heap (bufs h) (S (allocs h)))) -> mdwp (new_buffer b) Q h.
Proof.
  intros H1 H2. unfold mdwp, new_buffer. destruct (alloc_ok _) eqn:Ha; [|by apply H2]. apply H1.
  apply not_elem_of_dom, is_fresh.
Qed.

Lemma mdwp_try p b f (Q : bool -> md_heap buf -> Prop) h : bufs h !! p = Some b ->
  (forall b', f b = Some b' -> Q true (mk_heap (<[p := b']> (bufs h)) (allocs h))) ->
  (f b = None -> Q false h) -> mdwp (try_on (Some p) f) Q h.
Proof.
  intros Hp H1 H2. apply mdwp_bind, (mdwp_at _ b); [done|]. destruct (f b) as [b'|] eqn:Hf; [|by apply H2].
  apply mdwp_bind. unfold mdwp, store_ptr. cbn. rewrite Hp. cbn. by apply H1.
Qed.

Lemma mdwp_clone p b (Q : option positive -> md_heap buf -> Prop) h : bufs h !! p = Some b ->
  mdwp (new_buffer (copy_camera_metadata b)) Q h -> mdwp (clone_camera_metadata (Some p)) Q h.
Proof. intros Hp HQ. apply mdwp_bind. by apply (mdwp_at _ b). Qed.
End memory.

Arguments md_crash {buf A}.
