(* ===== verification/CameraMetadata.v ===== *)
(** * The class of camera metadata ([libmocha/camera/CameraMetadata.cpp])

    An object owns at most one buffer of the metadata library ([MetadataLib]), which it
    replaces by a larger one when an entry does not fit.  Operations take and return the
    object; buffers are in the memory of [MetadataLib].  Sums of sizes are mathematical
    integers: buffers that fit a 32-bit address space keep them below 2^32.

    [metadata_refines_map]: as long as no allocation fails, an object behaves as a finite
    map from tags to data, and the only buffer it leaves allocated is its own.  [parcel_roundtrip]:
    what is written to a parcel is read back. *)

From S2P Require Import Prelude.
From S2P Require Import MetadataLib.

(** Results; [LIB_ERROR] is any other error of the library. *)
Inductive status := OK | INVALID_OPERATION | BAD_VALUE | NO_MEMORY | NAME_NOT_FOUND | LIB_ERROR.

#[export] Instance status_eq_dec : EqDecision status.
Proof. solve_decision. Defined.

Record camera_metadata := mk_cm { mBuffer : option positive; mLocked : bool }.

(** What a parcel holds. *)
Inductive parcel_item := PInt (z : Z) | PBlob (b : list Z).

Section operations.
(** [find_null] is what looking for an entry of a null buffer returns. *)
Context `{MetadataLib buf} (alloc_ok : nat -> bool) (find_null : status).

#[local] Abbreviation MDb := (MD buf).
#[local] Abbreviation allocate := (allocate_camera_metadata alloc_ok).
#[local] Abbreviation clone := (clone_camera_metadata alloc_ok).

Definition set_buffer (p : option positive) (m : camera_metadata) : camera_metadata := mk_cm p (mLocked m).

(** ** Ownership *)

Definition new_empty : camera_metadata := mk_cm None false.

Definition new_sized (entryCapacity dataCapacity : Z) : MDb camera_metadata :=
  p ← allocate entryCapacity dataCapacity; mret (mk_cm p false).

Definition new_copy (other : camera_metadata) : MDb camera_metadata :=
  p ← clone (mBuffer other); mret (mk_cm p false).

Definition getAndLock (m : camera_metadata) : option positive * camera_metadata := (mBuffer m, mk_cm (mBuffer m) true).

Definition unlock (buffer : option positive) (m : camera_metadata) : status * camera_metadata :=
  if negb (mLocked m) then (INVALID_OPERATION, m)
  else if negb (bool_decide (buffer = mBuffer m)) then (BAD_VALUE, m)
  else (OK, mk_cm (mBuffer m) false).

Definition release (m : camera_metadata) : option positive * camera_metadata :=
  if mLocked m then (None, m) else (mBuffer m, set_buffer None m).

Definition clear (m : camera_metadata) : MDb camera_metadata :=
  if mLocked m then mret m
  else match mBuffer m with
       | Some _ => _ ← free_camera_metadata (mBuffer m); mret (set_buffer None m)
       | None => mret m
       end.

Definition destroy (m : camera_metadata) : MDb camera_metadata := clear (mk_cm (mBuffer m) false).

Definition acquire (buffer : option positive) (m : camera_metadata) : MDb camera_metadata :=
  if mLocked m then mret m else m ← clear m; mret (set_buffer buffer m).

(** The object, and [other] without its buffer unless it is locked. *)
Definition acquire_from (other m : camera_metadata) : MDb (camera_metadata * camera_metadata) :=
  if mLocked m then mret (m, other)
  else let '(p, other) := release other in m ← acquire p m; mret (m, other).

Definition assign (buffer : option positive) (m : camera_metadata) : MDb camera_metadata :=
  if mLocked m then mret m
  else if bool_decide (buffer = mBuffer m) then mret m
  else newBuffer ← clone buffer; m ← clear m; mret (set_buffer newBuffer m).

Definition swap (other m : camera_metadata) : camera_metadata * camera_metadata :=
  if mLocked m || mLocked other then (m, other)
  else (set_buffer (mBuffer other) m, set_buffer (mBuffer m) other).

(** ** Entries *)

(** A failed allocation leaves no buffer, and the old one allocated. *)
Definition resizeIfNeeded (extraEntries extraData : Z) (m : camera_metadata) : MDb (status * camera_metadata) :=
  match mBuffer m with
  | None =>
      p ← allocate (extraEntries * 2) (extraData * 2);
      mret (if bool_decide (p = None) then NO_MEMORY else OK, set_buffer p m)
  | Some _ =>
      b ← at_ptr (mBuffer m);
      let currentEntryCap := get_camera_metadata_entry_capacity b in
      let newEntryCount := get_camera_metadata_entry_count b + extraEntries in
      let newEntryCount := if currentEntryCap <? newEntryCount then newEntryCount * 2 else currentEntryCap in
      let currentDataCap := get_camera_metadata_data_capacity b in
      let newDataCount := get_camera_metadata_data_count b + extraData in
      let newDataCount := if currentDataCap <? newDataCount then newDataCount * 2 else currentDataCap in
      if (currentEntryCap <? newEntryCount) || (currentDataCap <? newDataCount) then
        p ← allocate newEntryCount newDataCount;
        if bool_decide (p = None) then mret (NO_MEMORY, set_buffer None m)
        else
          old ← at_ptr (mBuffer m);
          _ ← try_on p (fun b => append_camera_metadata b old);
          _ ← free_camera_metadata (mBuffer m);
          mret (OK, set_buffer p m)
      else mret (OK, m)
  end.

Definition append (other : option positive) (m : camera_metadata) : MDb (status * camera_metadata) :=
  if mLocked m then mret (INVALID_OPERATION, m)
  else
    o ← at_ptr other;
    '(_, m) ← resizeIfNeeded (get_camera_metadata_entry_count o) (get_camera_metadata_data_count o) m;
    o ← at_ptr other;
    ok ← try_on (mBuffer m) (fun b => append_camera_metadata b o);
    mret (if ok : bool then OK else LIB_ERROR, m).

Definition entryCount (m : camera_metadata) : MDb Z :=
  match mBuffer m with
  | None => mret 0
  | Some _ => b ← at_ptr (mBuffer m); mret (get_camera_metadata_entry_count b)
  end.

Definition isEmpty (m : camera_metadata) : MDb bool := n ← entryCount m; mret (n =? 0).

Definition sort (m : camera_metadata) : MDb status :=
  if mLocked m then mret INVALID_OPERATION
  else _ ← try_on (mBuffer m) (fun b => Some (sort_camera_metadata b)); mret OK.

Definition checkType (tag : Z) (expectedType : md_type) : status :=
  match get_camera_metadata_tag_type tag with
  | None => INVALID_OPERATION
  | Some tagType => if bool_decide (tagType = expectedType) then OK else INVALID_OPERATION
  end.

(** What the library finds in the buffer. *)
Definition find_in (tag : Z) (m : camera_metadata) : MDb (status * option (nat * list Z)) :=
  match mBuffer m with
  | None => mret (find_null, None)
  | Some _ =>
      b ← at_ptr (mBuffer m);
      mret (match find_camera_metadata_entry b tag with
            | Some i => (OK, (fun e => (i, e_data e)) <$> entries_of b !! i)
            | None => (NAME_NOT_FOUND, None)
            end)
  end.

(** [data] is the bytes of the array; [inside]: it is in the object's own buffer. *)
Definition updateImpl (tag : Z) (data : list Z) (inside : bool) (m : camera_metadata) : MDb (status * camera_metadata) :=
  if mLocked m then mret (INVALID_OPERATION, m)
  else match get_camera_metadata_tag_type tag with
       | None => mret (BAD_VALUE, m)
       | Some _ =>
           if inside then mret (INVALID_OPERATION, m)
           else
             '(res, m) ← resizeIfNeeded 1 (calculate_camera_metadata_entry_data_size (zlen data)) m;
             if negb (bool_decide (res = OK)) then mret (res, m)
             else
               '(res, entry) ← find_in tag m;
               ok ← (match res, entry with
                     | NAME_NOT_FOUND, _ => try_on (mBuffer m) (fun b => add_camera_metadata_entry b tag data)
                     | OK, Some (i, _) => try_on (mBuffer m) (fun b => update_camera_metadata_entry b i data)
                     | _, _ => mret false
                     end);
               mret (if ok : bool then OK else LIB_ERROR, m)
       end.

(** The overloads: [type] is that of the array, [TYPE_BYTE] for a string with its NUL. *)
Definition update (type : md_type) (tag : Z) (data : list Z) (inside : bool) (m : camera_metadata) :
    MDb (status * camera_metadata) :=
  if mLocked m then mret (INVALID_OPERATION, m)
  else if bool_decide (checkType tag type = OK) then updateImpl tag data inside m
  else mret (checkType tag type, m).

Definition exists_tag (tag : Z) (m : camera_metadata) : MDb bool :=
  '(res, _) ← find_in tag m; mret (bool_decide (res = OK)).

(** [None]: an entry of count 0.  The constant method does not look at the lock. *)
Definition find_const (tag : Z) (m : camera_metadata) : MDb (option (list Z)) :=
  '(res, e) ← find_in tag m; mret (if bool_decide (res = OK) then snd <$> e else None).

Definition find (tag : Z) (m : camera_metadata) : MDb (option (list Z)) :=
  if mLocked m then mret None else find_const tag m.

Definition erase (tag : Z) (m : camera_metadata) : MDb status :=
  if mLocked m then mret INVALID_OPERATION
  else
    '(res, e) ← find_in tag m;
    match res, e with
    | NAME_NOT_FOUND, _ => mret OK
    | OK, Some (i, _) =>
        ok ← try_on (mBuffer m) (fun b => delete_camera_metadata_entry b i);
        mret (if ok : bool then OK else LIB_ERROR)
    | res, _ => mret res
    end.

(** ** Parcels *)

(** What [copy_camera_metadata] writes, and what [allocate_copy_camera_metadata_checked]
    makes of bytes; the alignment of the library. *)
Context (copy_bytes : buf -> list Z) (checked_copy : list Z -> option buf) (alignment : Z).

(** [addr]: where the blob is; [blob_ok]: there is room for one; [junk]: the blob before
    it is written. *)
Definition writeToParcel (addr : Z) (blob_ok : bool) (junk : Z -> list Z) (metadata : option positive)
    (data : list parcel_item) : MDb (status * list parcel_item) :=
  match metadata with
  | None => mret (OK, data ++ [PInt 0])
  | Some _ =>
      b ← at_ptr metadata;
      let bytes := copy_bytes b in
      let blobSize := zlen bytes + alignment in
      let data := data ++ [PInt (wrap_s32 blobSize)] in
      let offset := (addr + (alignment - 1)) / alignment * alignment - addr in
      mret (OK, if blob_ok then data ++ [PBlob (zwrite offset bytes (junk blobSize)); PInt (wrap_s32 offset)]
                else data ++ [PInt 0])
  end.

(** The status, the buffer made and the items left. *)
Definition readFromParcel (data : list parcel_item) : MDb (status * option positive * list parcel_item) :=
  match data with
  | PInt blobSize :: data =>
      if blobSize =? 0 then mret (OK, None, data)
      else if wrap_u32 blobSize <=? alignment then mret (BAD_VALUE, None, data)
      else
        match data with
        | PBlob blob :: PInt offset :: data =>
            if negb (zlen blob =? wrap_u32 blobSize) then mret (LIB_ERROR, None, data)
            else if alignment <=? wrap_u32 offset then mret (BAD_VALUE, None, data)
            else
              let bytes := take (Z.to_nat (wrap_u32 blobSize - alignment)) (drop (Z.to_nat offset) blob) in
              match checked_copy bytes with
              | None => mret (BAD_VALUE, None, data)
              | Some b =>
                  p ← new_buffer alloc_ok b;
                  mret (if bool_decide (p = None) then BAD_VALUE else OK, p, data)
              end
        | _ => mret (LIB_ERROR, None, data)
        end
  | data => mret (LIB_ERROR, None, data)
  end.

Definition readFromParcel_into (data : list parcel_item) (m : camera_metadata) :
    MDb (status * list parcel_item * camera_metadata) :=
  if mLocked m then mret (INVALID_OPERATION, data, m)
  else
    '(res, buffer, data) ← readFromParcel data;
    if bool_decide (res = OK) then m ← clear m; mret (OK, data, set_buffer buffer m)
    else mret (res, data, m).
End operations.

(** ** Entries as a map *)

Definition cmap (l : list entry) : gmap Z (list Z) := list_to_map ((fun e => (e_tag e, e_data e)) <$> l).

Lemma cmap_keys l : ((fun e => (e_tag e, e_data e)) <$> l).*1 = e_tag <$> l.
Proof. by rewrite <- list_fmap_compose. Qed.

Lemma cmap_lookup l i t d : NoDup (e_tag <$> l) -> l !! i = Some (mk_entry t d) -> cmap l !! t = Some d.
Proof.
  intros Hnd Hi. apply elem_of_list_to_map_1; [by rewrite cmap_keys|].
  apply list_elem_of_fmap. exists (mk_entry t d). split; [done|]. by eapply list_elem_of_lookup_2.
Qed.

Lemma cmap_none l t : t ∉ e_tag <$> l -> cmap l !! t = None.
Proof. intros Ht. apply not_elem_of_list_to_map_1. by rewrite cmap_keys. Qed.

Lemma cmap_snoc l t d : t ∉ e_tag <$> l -> cmap (l ++ [mk_entry t d]) = <[t := d]> (cmap l).
Proof. intros Ht. unfold cmap. rewrite fmap_app. apply list_to_map_snoc. by rewrite cmap_keys. Qed.

Lemma cmap_perm l k : NoDup (e_tag <$> l) -> l ≡ₚ k -> cmap l = cmap k.
Proof. intros Hnd Hp. apply list_to_map_proper; [by rewrite cmap_keys|by rewrite Hp]. Qed.

Lemma NoDup_middle {A} (l k : list A) x : NoDup (l ++ x :: k) -> NoDup (x :: l ++ k).
Proof. by rewrite Permutation_middle. Qed.

Lemma cmap_middle l k t d : NoDup (e_tag <$> l ++ mk_entry t d :: k) ->
  cmap (l ++ mk_entry t d :: k) = <[t := d]> (cmap (l ++ k)).
Proof.
  intros Hnd. rewrite (cmap_perm _ (mk_entry t d :: l ++ k)); [done|done|by rewrite Permutation_middle].
Qed.

Lemma insert_middle {A} (l k : list A) x y i : length l = i -> <[i := y]> (l ++ x :: k) = l ++ y :: k.
Proof. intros <-. rewrite insert_app_r_alt by lia. by rewrite Nat.sub_diag. Qed.

(** Replacing and removing the entry of a tag. *)
Lemma cmap_update l i t d d' : NoDup (e_tag <$> l) -> l !! i = Some (mk_entry t d) ->
  cmap (<[i := mk_entry t d']> l) = <[t := d']> (cmap l) /\ e_tag <$> <[i := mk_entry t d']> l = e_tag <$> l.
Proof.
  intros Hnd Hi. rewrite <- (take_drop_middle l i _ Hi) in *.
  assert (Hlen : length (take i l) = i) by (rewrite length_take; apply lookup_lt_Some in Hi; lia).
  rewrite (insert_middle _ _ _ _ i) by done.
  assert (Htags : forall x, e_tag <$> take i l ++ mk_entry t x :: drop (S i) l =
    (e_tag <$> take i l) ++ t :: (e_tag <$> drop (S i) l)) by (intros; by rewrite fmap_app).
  split; [|by rewrite !Htags]. rewrite !cmap_middle by (rewrite ?Htags in *; done). by rewrite insert_insert_eq.
Qed.

Lemma cmap_delete l i t d : NoDup (e_tag <$> l) -> l !! i = Some (mk_entry t d) ->
  cmap (delete i l) = delete t (cmap l) /\ NoDup (e_tag <$> delete i l).
Proof.
  intros Hnd Hi. destruct (delete_split _ _ _ Hi) as (l1 & l2 & -> & ->).
  pose proof Hnd as Hnd2. rewrite fmap_app in Hnd2. cbn in Hnd2. apply NoDup_middle in Hnd2.
  apply NoDup_cons in Hnd2 as [Ht Hnd2]. rewrite <- fmap_app in *. split; [|done].
  rewrite cmap_middle by done. rewrite delete_insert_id; [done|by apply cmap_none].
Qed.

(** ** Refinement of a map *)

Section refinement.
Context {buf : Type} {ML : MetadataLib buf} {LAWS : MetadataLaws buf} (alloc_ok : nat -> bool) (find_null : status).

(** The object owns a buffer with the entries [l], or none; the others are [R]. *)
Definition owns (R : gmap positive buf) (l : option (list entry)) (m : camera_metadata) (h : md_heap buf) : Prop :=
  match l, mBuffer m with
  | None, None => bufs h = R
  | Some l, Some p => exists b, bufs h !! p = Some b /\ delete p (bufs h) = R /\ entries_of b = l
  | _, _ => False
  end.

Inductive cm_call :=
| CUpdate (type : md_type) (tag : Z) (data : list Z) | CErase (tag : Z) | CFind (tag : Z) | CExists (tag : Z)
| CCount | CLock | CUnlock | CSort | CClear
| CAppend (other : positive) | CAssign (other : positive).   (* a buffer that is not the object's *)

Inductive cm_answer := AStatus (s : status) | AData (d : option (list Z)) | ABool (b : bool) | ACount (n : Z) | ANone.

Definition run_call (c : cm_call) (m : camera_metadata) : MD buf (cm_answer * camera_metadata) :=
  match c with
  | CUpdate type tag data =>
      '(s, m) ← update alloc_ok find_null type tag data false m; mret (AStatus s, m)
  | CErase tag => s ← erase find_null tag m; mret (AStatus s, m)
  | CFind tag => d ← find find_null tag m; mret (AData d, m)
  | CExists tag => b ← exists_tag find_null tag m; mret (ABool b, m)
  | CCount => n ← entryCount m; mret (ACount n, m)
  | CLock => mret (ANone, (getAndLock m).2)
  | CUnlock => let '(s, m) := unlock (mBuffer m) m in mret (AStatus s, m)
  | CSort => s ← sort m; mret (AStatus s, m)
  | CClear => m ← clear m; mret (ANone, m)
  | CAppend other => '(s, m) ← append alloc_ok (Some other) m; mret (AStatus s, m)
  | CAssign other => m ← assign alloc_ok (Some other) m; mret (ANone, m)
  end.

Fixpoint run_calls (cs : list cm_call) (m : camera_metadata) : MD buf (list cm_answer * camera_metadata) :=
  match cs with
  | [] => mret ([], m)
  | c :: cs =>
      '(a, m) ← run_call c m; '(answers, m) ← run_calls cs m; mret (a :: answers, m)
  end.

(** A map, if there is a buffer, and the lock. *)
Definition md_spec : Type := option (gmap Z (list Z)) * bool.

(** The entries of another buffer. *)
Definition entries_at (R : gmap positive buf) (q : positive) : list entry := default [] (entries_of <$> R !! q).

Definition spec_call (R : gmap positive buf) (c : cm_call) (s : md_spec) : cm_answer * md_spec :=
  let '(M, locked) := s in
  match c with
  | CUpdate type tag data =>
      if locked || negb (bool_decide (get_camera_metadata_tag_type tag = Some type))
      then (AStatus INVALID_OPERATION, s) else (AStatus OK, (Some (<[tag := data]> (default ∅ M)), locked))
  | CErase tag =>
      if locked then (AStatus INVALID_OPERATION, s)
      else match M with
           | None => (AStatus (if bool_decide (find_null = NAME_NOT_FOUND) then OK else find_null), s)
           | Some M => (AStatus OK, (Some (delete tag M), locked))
           end
  | CFind tag => (AData (if locked then None else M ≫= fun M => M !! tag), s)
  | CExists tag => (ABool (bool_decide (is_Some (M ≫= fun M => M !! tag))), s)
  | CCount => (ACount (Z.of_nat (size (default ∅ M))), s)
  | CLock => (ANone, (M, true))
  | CUnlock => if locked then (AStatus OK, (M, false)) else (AStatus INVALID_OPERATION, s)
  | CSort => (AStatus (if locked then INVALID_OPERATION else OK), s)
  | CClear => (ANone, if locked then s else (None, locked))
  | CAppend q =>
      if locked then (AStatus INVALID_OPERATION, s)
      else (AStatus OK, (Some (default ∅ M ∪ cmap (entries_at R q)), locked))
  | CAssign q => (ANone, if locked then s else (Some (cmap (entries_at R q)), locked))
  end.

Fixpoint spec_calls (R : gmap positive buf) (cs : list cm_call) (s : md_spec) : list cm_answer * md_spec :=
  match cs with
  | [] => ([], s)
  | c :: cs =>
      let '(a, s) := spec_call R c s in let '(answers, s) := spec_calls R cs s in (a :: answers, s)
  end.

(** Sorting needs a buffer; what is appended or assigned is a buffer that exists and has
    each tag once, and what is appended none of the object's: the library appends entries
    without looking for their tags. *)
Definition call_defined (R : gmap positive buf) (c : cm_call) (s : md_spec) : Prop :=
  s.2 = false ->
  match c with
  | CSort => s.1 <> None
  | CAssign q => is_Some (R !! q) /\ NoDup (e_tag <$> entries_at R q)
  | CAppend q => is_Some (R !! q) /\ NoDup (e_tag <$> entries_at R q) /\
                 (default ∅ s.1 : gmap Z (list Z)) ##ₘ cmap (entries_at R q)
  | _ => True
  end.

Fixpoint calls_defined (R : gmap positive buf) (cs : list cm_call) (s : md_spec) : Prop :=
  match cs with
  | [] => True
  | c :: cs => call_defined R c s /\ calls_defined R cs (spec_call R c s).2
  end.

Definition refines (R : gmap positive buf) (s : md_spec) (m : camera_metadata) (h : md_heap buf) : Prop :=
  exists l, owns R l m h /\ s = (cmap <$> l, mLocked m) /\ NoDup (e_tag <$> default [] l).

Context (Halloc : forall n, alloc_ok n = true) (Hnull : find_null <> OK).

Lemma owns_fresh R p b m h : bufs h = R -> R !! p = None ->
  owns R (Some (entries_of b)) (set_buffer (Some p) m) (mk_heap (<[p := b]> (bufs h)) (S (allocs h))).
Proof.
  intros <- Hp. exists b. cbn. split_and!; [by rewrite lookup_insert_eq|by apply delete_insert_id|done].
Qed.

Lemma owns_replace R p b b' m h : bufs h !! p = Some b -> delete p (bufs h) = R -> mBuffer m = Some p ->
  owns R (Some (entries_of b')) m (mk_heap (<[p := b']> (bufs h)) (allocs h)).
Proof.
  intros Hp HR Hm. unfold owns. rewrite Hm. exists b'. cbn.
  split_and!; [by rewrite lookup_insert_eq|by rewrite delete_insert_eq|done].
Qed.

(** The buffer afterwards has the entries there were, and room. *)
Lemma resize_spec R l n k m h : 0 <= n -> 0 <= k -> owns R l m h ->
  mdwp (resizeIfNeeded alloc_ok n k m) (fun x h' =>
    x.1 = OK /\ mLocked x.2 = mLocked m /\ exists p b, mBuffer x.2 = Some p /\ bufs h' !! p = Some b /\
      delete p (bufs h') = R /\ entries_of b = default [] l /\ room b n k) h.
Proof.
  intros Hn Hk Ho. unfold resizeIfNeeded. unfold owns in Ho. destruct (mBuffer m) as [p|] eqn:Hm, l as [l|]; try done.
  - destruct Ho as (b & Hp & HR & Hl). apply mdwp_bind, (mdwp_at _ b); [done|].
    set (ne := if _ <? _ then _ else get_camera_metadata_entry_capacity b).
    set (nd := if _ <? _ then _ else get_camera_metadata_data_capacity b).
    destruct (within_capacity b) as [Hc1 Hc2].
    pose proof (zlen_nonneg (entries_of b)). pose proof (data_count_nonneg b). fold (get_camera_metadata_entry_count b) in *.
    assert (Hne : get_camera_metadata_entry_count b + n <= ne /\ get_camera_metadata_entry_capacity b <= ne)
      by (unfold ne; case_test; lia).
    assert (Hnd : get_camera_metadata_data_count b + k <= nd /\ get_camera_metadata_data_capacity b <= nd)
      by (unfold nd; case_test; lia).
    destruct (_ || _) eqn:Htest.
    + apply mdwp_bind. apply mdwp_new; [|by rewrite Halloc]. intros q Hq. cbn [bool_decide].
      rewrite bool_decide_eq_false_2 by done.
      assert (Hqp : q <> p) by congruence.
      apply mdwp_bind. apply (mdwp_at _ b); [cbn; by rewrite lookup_insert_ne|].
      destruct (empty_is ne nd) as (He1 & He2 & He3); [lia|lia|]. apply mdwp_bind.
      apply (mdwp_try q (empty_buffer ne nd)); [cbn; by rewrite lookup_insert_eq|..].
      * intros b' Hb'. apply append_some in Hb' as [Hb' [Hcap Hdcap]]. rewrite He1 in Hb'. cbn in Hb'.
        apply mdwp_bind. apply (mdwp_free p b); [cbn; by rewrite !lookup_insert_ne|]. apply mdwp_ret. cbn.
        split_and!; [done|done|]. exists q, b'. rewrite lookup_delete_ne, lookup_insert_eq by done.
        split_and!; [done|done| |by rewrite Hb', Hl|].
        -- rewrite insert_insert_eq, delete_delete, delete_insert_id by done. exact HR.
        -- unfold room, get_camera_metadata_entry_count, get_camera_metadata_data_count in *. rewrite Hb', Hcap, Hdcap. lia.
      * intros Hno. destruct (append_fits (empty_buffer ne nd) b) as [? Hs]; [|congruence].
        unfold room, get_camera_metadata_entry_count at 1, get_camera_metadata_data_count at 1.
        rewrite He1, He2, He3, zlen_nil. cbn. lia.
    + apply orb_false_iff in Htest as [H1 H2]. apply Z.ltb_ge in H1, H2. apply mdwp_ret. cbn.
      split_and!; [done|done|]. exists p, b. split_and!; [done..|]. unfold room. lia.
  - apply mdwp_bind, mdwp_new; [|by rewrite Halloc]. intros q Hq. apply mdwp_ret. cbn.
    split_and!; [done|done|]. exists q, (empty_buffer (n * 2) (k * 2)).
    destruct (empty_is (n * 2) (k * 2)) as (He1 & He2 & He3); [lia|lia|]. rewrite lookup_insert_eq.
    rewrite Ho in *. split_and!; [done|done|by apply delete_insert_id|done|]. unfold room, get_camera_metadata_entry_count, get_camera_metadata_data_count.
    rewrite He1, He2, He3, zlen_nil. cbn. lia.
Qed.
(** One lookup in the buffer. *)
Lemma find_in_some R l m h tag (Q : status * option (nat * list Z) -> md_heap buf -> Prop) :
  owns R (Some l) m h ->
  (forall i d, l !! i = Some (mk_entry tag d) -> Q (OK, Some (i, d)) h) ->
  (tag ∉ e_tag <$> l -> Q (NAME_NOT_FOUND, None) h) -> mdwp (find_in find_null tag m) Q h.
Proof.
  intros Ho H1 H2. unfold find_in. unfold owns in Ho. destruct (mBuffer m) as [p|]; [|done].
  destruct Ho as (b & Hp & _ & <-). apply mdwp_bind, (mdwp_at _ b); [done|]. apply mdwp_ret.
  destruct (find_camera_metadata_entry b tag) as [i|] eqn:Hf.
  - destruct (find_some _ _ _ Hf) as [d Hi]. rewrite Hi. by apply H1.
  - by apply H2, find_none.
Qed.

Lemma find_in_none R m h tag (Q : status * option (nat * list Z) -> md_heap buf -> Prop) :
  owns R None m h -> Q (find_null, None) h -> mdwp (find_in find_null tag m) Q h.
Proof. intros Ho HQ. unfold find_in. unfold owns in Ho. by destruct (mBuffer m). Qed.

(** An operation on the buffer that the library performs. *)
Lemma try_owned R l l' m h f (Q : bool -> md_heap buf -> Prop) :
  owns R (Some l) m h ->
  (forall b, entries_of b = l -> exists b', f b = Some b' /\ entries_of b' = l') ->
  (forall h', owns R (Some l') m h' -> Q true h') -> mdwp (try_on (mBuffer m) f) Q h.
Proof.
  intros Ho Hf HQ. unfold owns in Ho. destruct (mBuffer m) as [p|] eqn:Hm; [|done]. destruct Ho as (b & Hp & HR & Hl).
  destruct (Hf b Hl) as (b' & Hfb & Hl'). apply (mdwp_try p b); [done|..]; [|congruence].
  intros b2 Hb2. simplify_eq. apply HQ. by eapply owns_replace.
Qed.

Lemma update_spec R l m h type tag data : owns R l m h -> NoDup (e_tag <$> default [] l) ->
  mLocked m = false -> get_camera_metadata_tag_type tag = Some type ->
  mdwp (update alloc_ok find_null type tag data false m) (fun x h' =>
    x.1 = OK /\ mLocked x.2 = false /\ exists l', owns R (Some l') x.2 h' /\ NoDup (e_tag <$> l') /\
      cmap l' = <[tag := data]> (cmap (default [] l))) h.
Proof.
  intros Ho Hnd Hlock Htype. unfold update, checkType, updateImpl. rewrite Hlock, Htype.
  rewrite (bool_decide_eq_true_2 (type = type)) by done. rewrite bool_decide_eq_true_2 by done. set (k := calculate_camera_metadata_entry_data_size _).
  assert (Hk : 0 <= k) by apply data_size_nonneg, zlen_nonneg.
  apply mdwp_bind. eapply mdwp_mono; [by apply (resize_spec R l 1 k)|].
  intros [st m1] h1 (Hst & Hlock1 & p & b & Hm & Hp & HR & Hl & Hroom). cbn in *. subst st. cbn.
  set (l0 := default [] l) in *. assert (Ho1 : owns R (Some l0) m1 h1).
  { unfold owns. rewrite Hm. exists b. split_and!; [done|done|done]. }
  apply mdwp_bind. eapply find_in_some; [exact Ho1|..].
  - intros i d Hi. apply mdwp_bind. rewrite Hm.
    destruct (update_fits b i data (mk_entry tag d)) as [b' Hb']; [by rewrite Hl| |].
    { unfold room in *. fold k. lia. }
    apply (mdwp_try p b); [done|..]; [|congruence]. intros b2 Hb2.
    destruct (update_some _ _ _ _ (mk_entry tag d) Hb2) as [He _]; [by rewrite Hl|]. cbn in He. rewrite Hl in He.
    apply mdwp_ret. cbn. split_and!; [done|congruence|]. exists (<[i := mk_entry tag data]> l0).
    destruct (cmap_update l0 i tag d data Hnd Hi) as [Hmap Htags]. split_and!; [|by rewrite Htags|done].
    rewrite <- He. by eapply owns_replace.
  - intros Hno. apply mdwp_bind. rewrite Hm.
    destruct (proj2 (add_iff b tag data)) as [b' Hb']; [split; [congruence|exact Hroom]|].
    apply (mdwp_try p b); [done|..]; [|congruence]. intros b2 Hb2.
    destruct (add_some _ _ _ _ Hb2) as [He _]. rewrite Hl in He.
    apply mdwp_ret. cbn. split_and!; [done|congruence|]. exists (l0 ++ [mk_entry tag data]). split_and!.
    + rewrite <- He. by eapply owns_replace.
    + rewrite fmap_app. apply NoDup_app. split_and!; [done|by intros x Hx ->%list_elem_of_singleton|apply NoDup_singleton].
    + by apply cmap_snoc.
Qed.

Lemma erase_spec R l m h tag : owns R (Some l) m h -> NoDup (e_tag <$> l) -> mLocked m = false ->
  mdwp (erase find_null tag m) (fun st h' => st = OK /\ exists l', owns R (Some l') m h' /\ NoDup (e_tag <$> l') /\
    cmap l' = delete tag (cmap l)) h.
Proof.
  intros Ho Hnd Hlock. unfold erase. rewrite Hlock. apply mdwp_bind. eapply find_in_some; [exact Ho|..].
  - intros i d Hi. destruct (cmap_delete l i tag d Hnd Hi) as [Hmap Hnd']. apply mdwp_bind.
    eapply (try_owned R l (delete i l)); [exact Ho|..].
    + intros b Hb. destruct (delete_is b i) as (b' & Hb' & He & _); [rewrite Hb; by eapply lookup_lt_Some|].
      exists b'. by rewrite <- Hb.
    + intros h' Ho'. apply mdwp_ret. split; [done|]. by exists (delete i l).
  - intros Hno. apply mdwp_ret. split; [done|]. exists l. split_and!; [done|done|].
    by rewrite delete_id by by apply cmap_none.
Qed.

(** Another buffer stays where it is while the object's changes. *)
Lemma other_at R q b p (h : md_heap buf) : R !! q = Some b -> delete p (bufs h) = R -> bufs h !! q = Some b /\ q <> p.
Proof. intros Hq <-. by apply lookup_delete_Some in Hq as [? ?]. Qed.

Lemma owns_other R l m h q b : owns R l m h -> R !! q = Some b -> bufs h !! q = Some b /\ mBuffer m <> Some q.
Proof.
  intros Ho Hq. unfold owns in Ho. destruct (mBuffer m) as [p|], l as [l|]; try done.
  - destruct Ho as (b' & _ & HR & _). destruct (other_at R q b p h Hq HR). split; [done|congruence].
  - by subst R.
Qed.

Lemma cmap_app l k : cmap (l ++ k) = cmap l ∪ cmap k.
Proof. unfold cmap. by rewrite fmap_app, list_to_map_app. Qed.

Lemma NoDup_tags_app l k : NoDup (e_tag <$> l) -> NoDup (e_tag <$> k) -> cmap l ##ₘ cmap k ->
  NoDup (e_tag <$> l ++ k).
Proof.
  intros Hl Hk Hd. rewrite fmap_app. apply NoDup_app. split_and!; [done| |done].
  intros t (e & -> & He)%list_elem_of_fmap (e' & Ht & He')%list_elem_of_fmap.
  apply list_elem_of_lookup in He as [i Hi]. apply list_elem_of_lookup in He' as [j Hj].
  destruct e as [t d], e' as [t' d']. cbn in Ht. subst t'. cbn [e_tag] in *.
  eapply (map_disjoint_spec (cmap l) (cmap k)); [exact Hd|..]; by eapply cmap_lookup.
Qed.

Lemma append_spec R l m h q b : owns R l m h -> NoDup (e_tag <$> default [] l) -> mLocked m = false ->
  R !! q = Some b -> NoDup (e_tag <$> entries_of b) -> cmap (default [] l) ##ₘ cmap (entries_of b) ->
  mdwp (append alloc_ok (Some q) m) (fun x h' => x.1 = OK /\ mLocked x.2 = false /\
    owns R (Some (default [] l ++ entries_of b)) x.2 h') h.
Proof.
  intros Ho Hnd Hlock Hq Hnb Hdisj. unfold append. rewrite Hlock.
  destruct (owns_other R l m h q b Ho Hq) as [Hqh _]. apply mdwp_bind, (mdwp_at _ b); [done|]. apply mdwp_bind.
  eapply mdwp_mono; [apply (resize_spec R l (get_camera_metadata_entry_count b) (get_camera_metadata_data_count b));
    [apply zlen_nonneg|apply data_count_nonneg|done]|].
  intros [st m1] h1 (_ & Hlock1 & p & b1 & Hm & Hp & HR & Hl & Hroom). cbn [fst snd] in *.
  destruct (other_at R q b p h1 Hq HR) as [Hqh1 _]. apply mdwp_bind, (mdwp_at _ b); [done|].
  apply mdwp_bind. rewrite Hm. destruct (append_fits b1 b Hroom) as [b2 Hb2].
  apply (mdwp_try p b1); [done|..]; [|congruence]. intros b3 Hb3. apply append_some in Hb3 as [He _].
  apply mdwp_ret. cbn. split_and!; [done|congruence|]. rewrite <- Hl, <- He. by eapply owns_replace.
Qed.

Lemma assign_spec R l m h q b : owns R l m h -> mLocked m = false -> R !! q = Some b ->
  mdwp (assign alloc_ok (Some q) m) (fun m' h' => mLocked m' = false /\ owns R (Some (entries_of b)) m' h') h.
Proof.
  intros Ho Hlock Hq. unfold assign. rewrite Hlock. destruct (owns_other R l m h q b Ho Hq) as [Hqh Hne].
  rewrite bool_decide_eq_false_2 by congruence. apply mdwp_bind, (mdwp_clone _ q b); [done|].
  apply mdwp_new; [|by rewrite Halloc]. intros r Hr. apply mdwp_bind. unfold clear. rewrite Hlock.
  rewrite <- (copy_is b). unfold owns in Ho. destruct (mBuffer m) as [p|] eqn:Hm, l as [l|]; try done.
  - destruct Ho as (b' & Hp & HR & _). assert (r <> p) by congruence. apply mdwp_bind.
    apply (mdwp_free p b'); [cbn; by rewrite lookup_insert_ne|]. do 2 apply mdwp_ret. cbn. split; [done|].
    exists (copy_camera_metadata b). rewrite lookup_delete_ne, lookup_insert_eq by done. split_and!; [done| |done].
    by rewrite delete_delete, delete_insert_id.
  - do 2 apply mdwp_ret. cbn. split; [done|]. exists (copy_camera_metadata b).
    rewrite lookup_insert_eq. split_and!; [done|by rewrite delete_insert_id|done].
Qed.

Lemma size_cmap l : NoDup (e_tag <$> l) -> Z.of_nat (size (cmap l)) = zlen l.
Proof.
  induction l as [|[t d] l IH]; [done|]. cbn. intros [Ht Hnd]%NoDup_cons. unfold cmap in *. cbn.
  rewrite map_size_insert_None by by apply cmap_none. rewrite zlen_cons, <- IH by done. lia.
Qed.

(** Each call does to the object what its specification does to the map. *)
Lemma call_refines R c s m h : refines R s m h -> call_defined R c s ->
  mdwp (run_call c m) (fun x h' => x.1 = (spec_call R c s).1 /\ refines R (spec_call R c s).2 x.2 h') h.
Proof.
  intros (l & Ho & -> & Hnd) Hdef. unfold refines.
  assert (Hstay : forall a : cm_answer, a = a /\ exists l', owns R l' m h /\ (cmap <$> l, mLocked m) = (cmap <$> l', mLocked m) /\
    NoDup (e_tag <$> default [] l')) by (intros a; split; [done|by exists l]).
  destruct c as [type tag data|tag|tag|tag| | | | | |q|q]; cbn [run_call spec_call].
  - apply mdwp_bind. destruct (mLocked m) eqn:Hlock; cbn [orb].
    { unfold update. rewrite Hlock. apply mdwp_ret, mdwp_ret. cbn. rewrite Hlock. apply Hstay. }
    case_bool_decide as Ht; cbn [negb].
    + eapply mdwp_mono; [by eapply update_spec|]. intros [st m1] h1 (Hst & Hlock1 & l' & Ho' & Hnd' & Hmap). cbn [fst snd] in *.
      subst st. apply mdwp_ret. cbn. split; [done|]. exists (Some l'). cbn. rewrite Hlock1, Hmap. by destruct l.
    + unfold update, checkType. rewrite Hlock. destruct (get_camera_metadata_tag_type tag) as [ty|].
      2:{ apply mdwp_ret, mdwp_ret. cbn. rewrite Hlock. apply Hstay. }
      rewrite (bool_decide_eq_false_2 (ty = type)) by congruence.
      apply mdwp_ret, mdwp_ret. cbn. rewrite Hlock. apply Hstay.
  - apply mdwp_bind. destruct (mLocked m) eqn:Hlock.
    { unfold erase. rewrite Hlock. apply mdwp_ret, mdwp_ret. cbn. rewrite Hlock. apply Hstay. }
    destruct l as [l|]; cbn [fmap option_fmap option_map].
    + eapply mdwp_mono; [by eapply erase_spec|]. intros st h1 (-> & l' & Ho' & Hnd' & Hmap). apply mdwp_ret. cbn.
      split; [done|]. exists (Some l'). cbn. by rewrite Hlock, Hmap.
    + unfold erase. rewrite Hlock. apply mdwp_bind. eapply find_in_none; [exact Ho|].
      destruct find_null eqn:Hn; try done; apply mdwp_ret, mdwp_ret; cbn; rewrite Hlock; apply Hstay.
  - apply mdwp_bind. unfold find, find_const. destruct (mLocked m) eqn:Hlock.
    { apply mdwp_ret, mdwp_ret. cbn. rewrite Hlock. apply Hstay. }
    apply mdwp_bind. destruct l as [l|]; cbn [fmap option_fmap option_map mbind option_bind].
    + change (NoDup (e_tag <$> l)) in Hnd. eapply find_in_some; [exact Ho|..].
      * intros i d Hi. apply mdwp_ret, mdwp_ret. cbn. rewrite Hlock, (cmap_lookup _ _ _ _ Hnd Hi). apply Hstay.
      * intros Hno. apply mdwp_ret, mdwp_ret. cbn. rewrite Hlock, (cmap_none _ _ Hno). apply Hstay.
    + eapply find_in_none; [exact Ho|]. apply mdwp_ret, mdwp_ret. cbn. rewrite bool_decide_eq_false_2 by done.
      rewrite Hlock. apply Hstay.
  - apply mdwp_bind, mdwp_bind. destruct l as [l|]; cbn [fmap option_fmap option_map mbind option_bind].
    + change (NoDup (e_tag <$> l)) in Hnd. eapply find_in_some; [exact Ho|..].
      * intros i d Hi. apply mdwp_ret, mdwp_ret. cbn. rewrite (cmap_lookup _ _ _ _ Hnd Hi). apply Hstay.
      * intros Hno. apply mdwp_ret, mdwp_ret. cbn. rewrite (cmap_none _ _ Hno). apply Hstay.
    + eapply find_in_none; [exact Ho|]. apply mdwp_ret, mdwp_ret. cbn. rewrite bool_decide_eq_false_2 by done.
      apply Hstay.
  - apply mdwp_bind. unfold entryCount, owns in *. destruct (mBuffer m) as [p|] eqn:Hm, l as [l|]; try done.
    + destruct Ho as (b & Hp & HR & Hl). apply mdwp_bind, (mdwp_at _ b); [done|]. apply mdwp_ret, mdwp_ret. cbn.
      rewrite size_cmap by done. unfold get_camera_metadata_entry_count. rewrite Hl. split; [done|].
      exists (Some l). rewrite Hm. split_and!; [by exists b|done|done].
    + apply mdwp_ret, mdwp_ret. cbn. split; [done|]. exists None. by rewrite Hm.
  - apply mdwp_ret. cbn. split; [done|]. by exists l.
  - unfold unlock. destruct (mLocked m) eqn:Hlock; cbn [negb].
    + rewrite bool_decide_eq_true_2 by done. apply mdwp_ret. cbn. split; [done|]. by exists l.
    + apply mdwp_ret. cbn. rewrite Hlock. apply Hstay.
  - apply mdwp_bind. unfold sort. destruct (mLocked m) eqn:Hlock.
    { apply mdwp_ret, mdwp_ret. cbn. rewrite Hlock. apply Hstay. }
    destruct l as [l|]; [|by destruct (Hdef eq_refl)].
    apply mdwp_bind. unfold owns in Ho. destruct (mBuffer m) as [p|] eqn:Hm; [|done]. destruct Ho as (b & Hp & HR & Hl).
    apply (mdwp_try p b); [done|..]; [|done]. intros b' [= <-]. apply mdwp_ret, mdwp_ret. cbn. split; [done|].
    destruct (sort_is b) as [Hperm _]. exists (Some (entries_of (sort_camera_metadata b))). rewrite Hlock. cbn in *.
    rewrite Hl in Hperm. split_and!; [by eapply owns_replace| |by rewrite Hperm].
    by rewrite (cmap_perm l _ Hnd) by by symmetry.
  - apply mdwp_bind. unfold clear. destruct (mLocked m) eqn:Hlock.
    { apply mdwp_ret, mdwp_ret. cbn. rewrite Hlock. apply Hstay. }
    unfold owns in Ho. destruct (mBuffer m) as [p|] eqn:Hm, l as [l|]; try done.
    + destruct Ho as (b & Hp & HR & Hl). apply mdwp_bind, (mdwp_free p b); [done|]. apply mdwp_ret, mdwp_ret. cbn.
      split; [done|]. exists None. rewrite Hlock. split_and!; [by subst R|done|by constructor].
    + apply mdwp_ret, mdwp_ret. cbn. split; [done|]. exists None. unfold owns. by rewrite Hm, Hlock.
  - apply mdwp_bind. destruct (mLocked m) eqn:Hlock.
    { unfold append. rewrite Hlock. apply mdwp_ret, mdwp_ret. cbn. rewrite Hlock. apply Hstay. }
    destruct (Hdef eq_refl) as ([b Hq] & Hnb & Hdisj). cbn [fst] in Hdisj. unfold entries_at in *. rewrite Hq in *. cbn in Hnb.
    assert (Hd : cmap (default [] l) ##ₘ cmap (entries_of b)) by (destruct l; [done|apply map_disjoint_empty_l]).
    eapply mdwp_mono; [by eapply append_spec|]. intros [st m1] h1 (Hst & Hlock1 & Ho1). cbn [fst snd] in *. subst st.
    apply mdwp_ret. cbn. split; [done|]. eexists. split; [exact Ho1|]. cbn. rewrite Hlock1, cmap_app.
    split; [by destruct l|by apply NoDup_tags_app].
  - apply mdwp_bind. destruct (mLocked m) eqn:Hlock.
    { unfold assign. rewrite Hlock. apply mdwp_ret, mdwp_ret. cbn. rewrite Hlock. apply Hstay. }
    destruct (Hdef eq_refl) as ([b Hq] & Hnb). unfold entries_at in *. rewrite Hq in *. cbn in Hnb.
    eapply mdwp_mono; [by eapply assign_spec|]. intros m1 h1 (Hlock1 & Ho1).
    apply mdwp_ret. cbn. split; [done|]. eexists. split; [exact Ho1|]. cbn. by rewrite Hlock1.
Qed.

Lemma calls_refine R cs s m h : refines R s m h -> calls_defined R cs s ->
  mdwp (run_calls cs m) (fun x h' => x.1 = (spec_calls R cs s).1 /\ refines R (spec_calls R cs s).2 x.2 h') h.
Proof.
  revert s m h. induction cs as [|c cs IH]; intros s m h Href Hdef; cbn [run_calls spec_calls]; [by apply mdwp_ret|].
  destruct Hdef as [Hc Hcs]. apply mdwp_bind. eapply mdwp_mono; [by eapply call_refines|].
  intros [a m1] h1 [Ha Href1]. cbn [fst snd] in *. destruct (spec_call R c s) as [a' s'] eqn:Hs. cbn [fst snd] in *.
  apply mdwp_bind. eapply mdwp_mono; [by eapply IH|]. intros [answers m2] h2 [Hans Href2]. cbn [fst snd] in *.
  destruct (spec_calls R cs s') as [answers' s2]. cbn [fst snd] in *. apply mdwp_ret. cbn. by subst.
Qed.

Lemma destroy_spec R s m h : refines R s m h -> mdwp (destroy m) (fun _ h' => bufs h' = R) h.
Proof.
  intros (l & Ho & _ & _). unfold destroy, clear. cbn [mLocked mBuffer]. unfold owns in Ho.
  destruct (mBuffer m) as [p|], l as [l|]; try done. destruct Ho as (b & Hp & HR & _).
  by apply mdwp_bind, (mdwp_free p b).
Qed.

(** C7. When no allocation fails, and for any sequence of updates, erasures, lookups,
    counts, locking, sorting, clearing, appending and assigning of other buffers on a new
    object, in which sorting finds a buffer and what is appended or assigned is another
    buffer with each tag once (appended: none of the object's): it answers as a finite map
    from tags to data does, its buffer growing as needed; no other buffer is touched, and
    destroying the object leaves the memory as it was.  The conditions are needed:
    [failed_resize_leaks], [append_to_itself]. *)
Theorem metadata_refines_map cs h : calls_defined (bufs h) cs (None, false) ->
  exists answers m h', run_calls cs new_empty h = Some ((answers, m), h') /\
    answers = (spec_calls (bufs h) cs (None, false)).1 /\
    refines (bufs h) (spec_calls (bufs h) cs (None, false)).2 m h' /\
    exists m' h'', destroy m h' = Some (m', h'') /\ bufs h'' = bufs h.
Proof.
  intros Hdef. assert (Hinit : refines (bufs h) (None, false) new_empty h).
  { exists None. split_and!; [done|done|by constructor]. }
  pose proof (calls_refine _ _ _ _ _ Hinit Hdef) as Hrun. unfold mdwp in Hrun.
  destruct (run_calls cs new_empty h) as [[[answers m] h']|]; [|done]. destruct Hrun as [Ha Href].
  exists answers, m, h'. split_and!; [done|done|done|]. apply destroy_spec in Href. unfold mdwp in Href. cbn [snd] in Href.
  destruct (destroy m h') as [[m' h'']|]; [|done]. by exists m', h''.
Qed.
End refinement.

(** ** Parcels are read back *)

Section parcels.
Context {buf : Type} {ML : MetadataLib buf} {LAWS : MetadataLaws buf} (alloc_ok : nat -> bool).
Context (copy_bytes : buf -> list Z) (checked_copy : list Z -> option buf) (alignment : Z).
Context (Halloc : forall n, alloc_ok n = true).

Lemma clear_owned R l m h (Q : camera_metadata -> md_heap buf -> Prop) : owns R l m h -> mLocked m = false ->
  (forall h', bufs h' = R -> Q (mk_cm None false) h') -> mdwp (clear m) Q h.
Proof.
  intros Ho Hlock HQ. unfold clear. rewrite Hlock. unfold owns in Ho. destruct m as [p lk]. cbn in *. subst lk.
  destruct p as [p|], l as [l|]; try done.
  - destruct Ho as (b & Hp & HR & _). apply mdwp_bind, (mdwp_free p b); [done|]. by apply mdwp_ret, HQ.
  - by apply mdwp_ret, HQ.
Qed.

(** C24. A buffer written to a parcel is read back with the same entries, wherever the blob
    lies in memory, and replaces what the reading object held. *)
Theorem parcel_roundtrip R l p b m addr junk h :
  (exists b', checked_copy (copy_bytes b) = Some b' /\ entries_of b' = entries_of b) ->
  0 <= addr -> 1 <= alignment -> 0 < zlen (copy_bytes b) -> zlen (copy_bytes b) + alignment < 2 ^ 31 ->
  (forall n, 0 <= n -> zlen (junk n) = n) ->
  bufs h !! p = Some b -> owns R l m h -> mLocked m = false ->
  exists data, writeToParcel copy_bytes alignment addr true junk (Some p) [] h = Some ((OK, data), h) /\
    exists m' h', readFromParcel_into alloc_ok checked_copy alignment data m h = Some ((OK, [], m'), h') /\
      owns R (Some (entries_of b)) m' h'.
Proof.
  intros (b' & Hb' & He) Haddr Hal Hlen Hmax Hjunk Hp Ho Hlock. unfold writeToParcel, mbind, md_bind.
  assert (Hat : at_ptr (Some p) h = Some (b, h)) by (unfold at_ptr; cbn; by rewrite Hp).
  rewrite Hat. eexists. split; [done|].
  set (size := zlen (copy_bytes b) + alignment) in *. set (offset := (addr + (alignment - 1)) / alignment * alignment - addr).
  assert (Hoff : 0 <= offset < alignment).
  { unfold offset. pose proof (Z.mod_pos_bound (addr + (alignment - 1)) alignment ltac:(lia)).
    pose proof (Z.div_mod (addr + (alignment - 1)) alignment ltac:(lia)). lia. }
  enough (Hwp : mdwp (readFromParcel_into alloc_ok checked_copy alignment
      [PInt (wrap_s32 size); PBlob (zwrite offset (copy_bytes b) (junk size)); PInt (wrap_s32 offset)] m)
      (fun x h' => x.1 = (OK, []) /\ owns R (Some (entries_of b)) x.2 h') h).
  { unfold mdwp in Hwp. cbn [app]. destruct (readFromParcel_into _ _ _ _ _ _) as [[[[st rest] m'] h']|]; [|done].
    destruct Hwp as [Hst Ho']. cbn in *. exists m', h'. by simplify_eq. }
  unfold readFromParcel_into. rewrite Hlock. apply mdwp_bind. unfold readFromParcel.
  rewrite !wrap_s32_id, !wrap_u32_id by (unfold is_int, INT_MIN, INT_MAX; lia).
  decide_tests. assert (Hz : zlen (zwrite offset (copy_bytes b) (junk size)) = size).
  { unfold zlen. rewrite length_zwrite. apply Hjunk. lia. }
  rewrite Hz, Z.eqb_refl. cbn [negb].
  assert (Hbytes : take (Z.to_nat (size - alignment)) (drop (Z.to_nat offset) (zwrite offset (copy_bytes b) (junk size))) = copy_bytes b).
  { apply list_eq. intros i. pose proof (Hjunk size ltac:(lia)) as Hj. unfold zlen in *.
    destruct (decide (i < length (copy_bytes b))%nat) as [Hi|Hi].
    - rewrite lookup_take_lt by lia. rewrite lookup_drop. unfold zwrite. rewrite list_lookup_inserts by lia. f_equal. lia.
    - rewrite lookup_take_ge by lia. symmetry. apply lookup_ge_None. lia. }
  rewrite Hbytes, Hb'. apply mdwp_bind. apply mdwp_new; [|by rewrite Halloc]. intros q Hq. apply mdwp_ret.
  rewrite !(bool_decide_eq_false_2 (Some q = None)) by done. rewrite bool_decide_eq_true_2 by done. apply mdwp_bind.
  assert (Ho' : owns (<[q := b']> R) l m (mk_heap (<[q := b']> (bufs h)) (S (allocs h))) /\ R !! q = None).
  { unfold owns in *. destruct (mBuffer m) as [p2|], l as [l|]; try done.
    - destruct Ho as (b2 & Hp2 & HR & Hl). subst R. assert (p2 <> q) by congruence. cbn. split.
      + exists b2. by rewrite lookup_insert_ne, delete_insert_ne by done.
      + by rewrite lookup_delete_ne.
    - cbn. by subst R. }
  destruct Ho' as [Ho' Hq']. eapply clear_owned; [exact Ho'|done|]. intros h' Hh'. apply mdwp_ret. cbn. split; [done|].
  rewrite <- He. exists b'. rewrite Hh', lookup_insert_eq. split_and!; [done|by apply delete_insert_id|done].
Qed.
End parcels.

(** ** On a list of entries *)

Definition sample_tags (t : Z) : option md_type :=
  if t =? 1 then Some TYPE_BYTE else if t =? 2 then Some TYPE_INT32 else None.

#[local] Instance sample_lib : MetadataLib ref_buf := RefMetadata sample_tags.
#[local] Instance sample_laws : MetadataLaws ref_buf := RefLaws sample_tags.

Definition always (_ : nat) : bool := true.
Definition no_memory : md_heap ref_buf := mk_heap ∅ 0.

(** Beside the object, a buffer with an entry. *)
Definition one_buffer : md_heap ref_buf := mk_heap {[1%positive := mk_ref [mk_entry 1 [4; 5]] 1 0]} 1.

Definition sample_calls : list cm_call :=
  [CUpdate TYPE_BYTE 1 [7; 8; 9]; CUpdate TYPE_INT32 2 (i32_bytes [3264; -1; 5]); CUpdate TYPE_BYTE 2 [1]; CFind 2; CCount;
   CErase 1; CFind 1; CUpdate TYPE_INT32 2 (i32_bytes [4]); CLock; CErase 2; CUnlock; CAppend 1; CSort; CFind 2; CFind 1;
   CClear; CExists 2; CAssign 1; CUpdate TYPE_INT32 2 (i32_bytes [6]); CCount].

Example metadata_refines_map_witness :
  exists answers m h', run_calls always LIB_ERROR sample_calls new_empty one_buffer = Some ((answers, m), h') /\
    answers = (spec_calls LIB_ERROR (bufs one_buffer) sample_calls (None, false)).1 /\
    refines (bufs one_buffer) (spec_calls LIB_ERROR (bufs one_buffer) sample_calls (None, false)).2 m h' /\
    exists m' h'', destroy m h' = Some (m', h'') /\ bufs h'' = bufs one_buffer.
Proof.
  apply (metadata_refines_map always LIB_ERROR (fun _ => eq_refl) ltac:(discriminate) sample_calls one_buffer).
  unfold sample_calls. cbn [calls_defined].
  split_and!; try (intros _; exact I); try (intros _; vm_compute; discriminate); [..|exact I].
  - intros _. split_and!; [by eexists|repeat constructor; set_solver|].
    apply (bool_decide_unpack _). vm_compute. exact I.
  - intros _. split; [by eexists|repeat constructor; set_solver].
Defined.

Example sample_answers : (spec_calls LIB_ERROR (bufs one_buffer) sample_calls (None, false)).1 =
  [AStatus OK; AStatus OK; AStatus INVALID_OPERATION; AData (Some (i32_bytes [3264; -1; 5])); ACount 2; AStatus OK;
   AData None; AStatus OK; ANone; AStatus INVALID_OPERATION; AStatus OK; AStatus OK; AStatus OK;
   AData (Some (i32_bytes [4])); AData (Some [4; 5]); ANone; ABool false; ANone; AStatus OK; ACount 2].
Proof. vm_compute. reflexivity. Qed.

(** An encoding of one-entry buffers. *)
Definition sample_bytes (b : ref_buf) : list Z :=
  match ref_entries b with e :: _ => e_tag e :: e_data e | [] => [0] end.
Definition sample_copy (l : list Z) : option ref_buf :=
  match l with t :: d => Some (mk_ref [mk_entry t d] 1 (ref_data [mk_entry t d])) | [] => None end.

Definition sample_buf : ref_buf := mk_ref [mk_entry 1 [7; 8; 9]] 4 16.
Definition sample_heap : md_heap ref_buf := mk_heap {[1%positive := sample_buf]} 1.

Example parcel_roundtrip_witness :
  exists data, writeToParcel sample_bytes 4 1001 true (fun n => replicate (Z.to_nat n) 0) (Some 1%positive) [] sample_heap
      = Some ((OK, data), sample_heap) /\
    exists m' h', readFromParcel_into always sample_copy 4 data new_empty sample_heap = Some ((OK, [], m'), h') /\
      owns (bufs sample_heap) (Some (entries_of sample_buf)) m' h'.
Proof.
  apply (parcel_roundtrip always sample_bytes sample_copy 4 (fun _ => eq_refl) (bufs sample_heap) None 1 sample_buf
           new_empty 1001 (fun n => replicate (Z.to_nat n) 0) sample_heap).
  - exists (mk_ref [mk_entry 1 [7; 8; 9]] 1 0). split; vm_compute; reflexivity.
  - lia.
  - lia.
  - vm_compute. reflexivity.
  - vm_compute. reflexivity.
  - intros n Hn. unfold zlen. rewrite length_replicate. lia.
  - vm_compute. reflexivity.
  - reflexivity.
  - reflexivity.
Defined.

(** A blob that could not be written is not reported, and the reader fails. *)
Example failed_blob_not_reported :
  match writeToParcel sample_bytes 4 1001 false (fun _ => []) (Some 1%positive) [] sample_heap with
  | Some ((st, data), h) =>
      (st, (fun x => x.1.1.1) <$> readFromParcel_into always sample_copy 4 data new_empty h) = (OK, Some LIB_ERROR)
  | None => False
  end.
Proof. vm_compute. reflexivity. Qed.

(** When a larger buffer cannot be allocated the entries are lost, and the old buffer is
    never freed. *)
Example failed_resize_leaks :
  let ok n := (n <? 1)%nat in
  match (x ← update ok LIB_ERROR TYPE_BYTE 1 [7] false new_empty;
         y ← update ok LIB_ERROR TYPE_INT32 2 (i32_bytes [1; 2; 3]) false x.2;
         z ← find LIB_ERROR 1 y.2; m ← destroy y.2; mret (y.1, z)) no_memory with
  | Some (r, h) => (r, size (bufs h)) = ((NO_MEMORY, None), 1%nat)
  | None => False
  end.
Proof. vm_compute. reflexivity. Qed.

(** An object appended to itself: the buffer appended is the one that was just freed. *)
Example append_to_itself :
  (x ← update always LIB_ERROR TYPE_BYTE 1 [7; 8; 9; 10; 11] false new_empty;
   y ← update always LIB_ERROR TYPE_INT32 2 (i32_bytes [1]) false x.2;
   append always (mBuffer y.2) y.2) no_memory = None.
Proof. vm_compute. reflexivity. Qed.
