(* ===== verification/StaticMetadata.v ===== *)
(** * The metadata tables of the camera HAL ([camera/MochaCameraHAL.cpp])

    [init_static_characteristics] and
    [camera_device_construct_default_request_settings] fill a buffer of a fixed capacity
    entry by entry and ignore what each addition returns.  The constants of the platform's
    headers are given by their names ([cst]); the types of the tags are those documented
    for Android 8 ([documented_types]).  An array is the bytes the program has in memory:
    the library reads as many as the tag's type needs, and what lies after the array is
    [junk]. *)

From S2P Require Import Prelude.
From S2P Require Import Float32.
From S2P Require Import MetadataLib.
From Stdlib Require Import SpecFloat.

(** ** Arrays *)

Inductive c_array :=
| U8 (l : list Z) | I32 (l : list Z) | I64 (l : list Z) | F32 (l : list f32) | RAT (l : list (Z * Z)).

(** The encoding of a single-precision number. *)
Definition f32_bits (x : f32) : Z :=
  match x with
  | S754_zero s => if s then 2 ^ 31 else 0
  | S754_infinity s => (if s then 2 ^ 31 else 0) + 255 * 2 ^ 23
  | S754_nan => 511 * 2 ^ 22
  | S754_finite s m e =>
      (if s then 2 ^ 31 else 0) + (if Z.pos m <? 2 ^ 23 then Z.pos m else (e + 150) * 2 ^ 23 + (Z.pos m - 2 ^ 23))
  end.

Definition array_bytes (a : c_array) : list Z :=
  match a with
  | U8 l => (fun z => z mod 256) <$> l
  | I32 l => i32_bytes l
  | I64 l => i64_bytes l
  | F32 l => i32_bytes (f32_bits <$> l)
  | RAT l => mjoin ((fun p => le_bytes 4 p.1 ++ le_bytes 4 p.2) <$> l)
  end.

(** One call of [add_camera_metadata_entry]. *)
Record row := mk_row { r_tag : string; r_array : c_array; r_count : Z }.

Arguments mk_row _%_string _ _.

Definition documented_types : list (string * md_type) :=
[("ANDROID_LENS_FACING", TYPE_BYTE); ("ANDROID_SENSOR_ORIENTATION", TYPE_INT32);
     ("ANDROID_SCALER_AVAILABLE_STREAM_CONFIGURATIONS", TYPE_INT32);
     ("ANDROID_SCALER_AVAILABLE_MIN_FRAME_DURATIONS", TYPE_INT64); ("ANDROID_SCALER_AVAILABLE_STALL_DURATIONS",
     TYPE_INT64); ("ANDROID_SCALER_AVAILABLE_PROCESSED_SIZES", TYPE_INT32);
     ("ANDROID_SCALER_AVAILABLE_JPEG_SIZES", TYPE_INT32); ("ANDROID_SCALER_AVAILABLE_MAX_DIGITAL_ZOOM",
     TYPE_FLOAT); ("ANDROID_FLASH_INFO_AVAILABLE", TYPE_BYTE); ("ANDROID_SENSOR_INFO_ACTIVE_ARRAY_SIZE",
     TYPE_INT32); ("ANDROID_SENSOR_INFO_PIXEL_ARRAY_SIZE", TYPE_INT32);
     ("ANDROID_SENSOR_INFO_PRE_CORRECTION_ACTIVE_ARRAY_SIZE", TYPE_INT32); ("ANDROID_SENSOR_INFO_PHYSICAL_SIZE",
     TYPE_FLOAT); ("ANDROID_SENSOR_INFO_TIMESTAMP_SOURCE", TYPE_BYTE); ("ANDROID_INFO_SUPPORTED_HARDWARE_LEVEL",
     TYPE_BYTE); ("ANDROID_REQUEST_AVAILABLE_CAPABILITIES", TYPE_BYTE);
     ("ANDROID_REQUEST_AVAILABLE_REQUEST_KEYS", TYPE_INT32); ("ANDROID_REQUEST_AVAILABLE_RESULT_KEYS",
     TYPE_INT32); ("ANDROID_CONTROL_AVAILABLE_SCENE_MODES", TYPE_BYTE); ("ANDROID_CONTROL_AE_AVAILABLE_MODES",
     TYPE_BYTE); ("ANDROID_CONTROL_AF_AVAILABLE_MODES", TYPE_BYTE); ("ANDROID_CONTROL_AWB_AVAILABLE_MODES",
     TYPE_BYTE); ("ANDROID_CONTROL_AE_AVAILABLE_TARGET_FPS_RANGES", TYPE_INT32);
     ("ANDROID_JPEG_AVAILABLE_THUMBNAIL_SIZES", TYPE_INT32); ("ANDROID_HOT_PIXEL_AVAILABLE_HOT_PIXEL_MODES",
     TYPE_BYTE); ("ANDROID_EDGE_AVAILABLE_EDGE_MODES", TYPE_BYTE);
     ("ANDROID_NOISE_REDUCTION_AVAILABLE_NOISE_REDUCTION_MODES", TYPE_BYTE); ("ANDROID_SHADING_AVAILABLE_MODES",
     TYPE_BYTE); ("ANDROID_STATISTICS_INFO_AVAILABLE_LENS_SHADING_MAP_MODES", TYPE_BYTE);
     ("ANDROID_STATISTICS_INFO_MAX_FACE_COUNT", TYPE_INT32);
     ("ANDROID_STATISTICS_INFO_AVAILABLE_FACE_DETECT_MODES", TYPE_BYTE);
     ("ANDROID_TONEMAP_AVAILABLE_TONE_MAP_MODES", TYPE_BYTE); ("ANDROID_SENSOR_INFO_COLOR_FILTER_ARRANGEMENT",
     TYPE_BYTE); ("ANDROID_CONTROL_AE_LOCK_AVAILABLE", TYPE_BYTE); ("ANDROID_CONTROL_AWB_LOCK_AVAILABLE",
     TYPE_BYTE); ("ANDROID_CONTROL_AE_COMPENSATION_RANGE", TYPE_INT32); ("ANDROID_CONTROL_AE_COMPENSATION_STEP",
     TYPE_RATIONAL); ("ANDROID_SENSOR_INFO_EXPOSURE_TIME_RANGE", TYPE_INT64);
     ("ANDROID_SENSOR_INFO_SENSITIVITY_RANGE", TYPE_INT32); ("ANDROID_SENSOR_MAX_ANALOG_SENSITIVITY",
     TYPE_INT32); ("ANDROID_JPEG_MAX_SIZE", TYPE_INT32); ("ANDROID_REQUEST_PIPELINE_MAX_DEPTH", TYPE_BYTE);
     ("ANDROID_REQUEST_MAX_NUM_INPUT_STREAMS", TYPE_INT32); ("ANDROID_LENS_INFO_HYPERFOCAL_DISTANCE",
     TYPE_FLOAT); ("ANDROID_LENS_INFO_MINIMUM_FOCUS_DISTANCE", TYPE_FLOAT);
     ("ANDROID_LENS_INFO_FOCUS_DISTANCE_CALIBRATION", TYPE_BYTE); ("ANDROID_CONTROL_AVAILABLE_EFFECTS",
     TYPE_BYTE); ("ANDROID_CONTROL_AE_AVAILABLE_ANTIBANDING_MODES", TYPE_BYTE);
     ("ANDROID_CONTROL_AVAILABLE_VIDEO_STABILIZATION_MODES", TYPE_BYTE);
     ("ANDROID_LENS_INFO_AVAILABLE_OPTICAL_STABILIZATION", TYPE_BYTE);
     ("ANDROID_COLOR_CORRECTION_AVAILABLE_ABERRATION_MODES", TYPE_BYTE); ("ANDROID_CONTROL_AVAILABLE_MODES",
     TYPE_BYTE); ("ANDROID_SENSOR_AVAILABLE_TEST_PATTERN_MODES", TYPE_INT32);
     ("ANDROID_LENS_INFO_AVAILABLE_FOCAL_LENGTHS", TYPE_FLOAT); ("ANDROID_LENS_INFO_AVAILABLE_APERTURES",
     TYPE_FLOAT); ("ANDROID_LENS_INFO_AVAILABLE_FILTER_DENSITIES", TYPE_FLOAT); ("ANDROID_CONTROL_MAX_REGIONS",
     TYPE_INT32); ("ANDROID_REQUEST_MAX_NUM_OUTPUT_STREAMS", TYPE_INT32);
     ("ANDROID_REQUEST_PARTIAL_RESULT_COUNT", TYPE_INT32); ("ANDROID_SYNC_MAX_LATENCY", TYPE_INT32);
     ("ANDROID_REQUEST_AVAILABLE_CHARACTERISTICS_KEYS", TYPE_INT32); ("ANDROID_CONTROL_CAPTURE_INTENT",
     TYPE_BYTE); ("ANDROID_REQUEST_METADATA_MODE", TYPE_BYTE); ("ANDROID_REQUEST_ID", TYPE_INT32);
     ("ANDROID_CONTROL_AE_MODE", TYPE_BYTE); ("ANDROID_CONTROL_AWB_MODE", TYPE_BYTE); ("ANDROID_CONTROL_MODE",
     TYPE_BYTE); ("ANDROID_CONTROL_SCENE_MODE", TYPE_BYTE); ("ANDROID_CONTROL_AE_TARGET_FPS_RANGE", TYPE_INT32);
     ("ANDROID_CONTROL_AE_PRECAPTURE_TRIGGER", TYPE_BYTE); ("ANDROID_CONTROL_AF_MODE", TYPE_BYTE);
     ("ANDROID_CONTROL_AF_TRIGGER", TYPE_BYTE); ("ANDROID_CONTROL_AE_LOCK", TYPE_BYTE);
     ("ANDROID_CONTROL_AWB_LOCK", TYPE_BYTE); ("ANDROID_CONTROL_EFFECT_MODE", TYPE_BYTE);
     ("ANDROID_CONTROL_AE_ANTIBANDING_MODE", TYPE_BYTE); ("ANDROID_CONTROL_VIDEO_STABILIZATION_MODE",
     TYPE_BYTE); ("ANDROID_EDGE_MODE", TYPE_BYTE); ("ANDROID_NOISE_REDUCTION_MODE", TYPE_BYTE);
     ("ANDROID_COLOR_CORRECTION_MODE", TYPE_BYTE); ("ANDROID_COLOR_CORRECTION_TRANSFORM", TYPE_RATIONAL);
     ("ANDROID_COLOR_CORRECTION_GAINS", TYPE_FLOAT); ("ANDROID_TONEMAP_MODE", TYPE_BYTE);
     ("ANDROID_SHADING_MODE", TYPE_BYTE); ("ANDROID_STATISTICS_LENS_SHADING_MAP_MODE", TYPE_BYTE);
     ("ANDROID_HOT_PIXEL_MODE", TYPE_BYTE); ("ANDROID_STATISTICS_FACE_DETECT_MODE", TYPE_BYTE);
     ("ANDROID_SENSOR_TEST_PATTERN_MODE", TYPE_INT32); ("ANDROID_JPEG_QUALITY", TYPE_BYTE);
     ("ANDROID_JPEG_THUMBNAIL_QUALITY", TYPE_BYTE); ("ANDROID_JPEG_THUMBNAIL_SIZE", TYPE_INT32)]%string.

(** ** The tables *)

Record camera_info := mk_camera_info { facing : Z; orientation : Z; maxResolution : Z }.

Definition request_keys : list string :=
["ANDROID_CONTROL_AE_MODE"; "ANDROID_CONTROL_AE_TARGET_FPS_RANGE"; "ANDROID_CONTROL_AF_MODE";
   "ANDROID_CONTROL_AF_TRIGGER"; "ANDROID_CONTROL_AWB_MODE"; "ANDROID_COLOR_CORRECTION_MODE";
   "ANDROID_CONTROL_MODE"; "ANDROID_FLASH_MODE"; "ANDROID_JPEG_QUALITY"; "ANDROID_LENS_FOCUS_DISTANCE";
   "ANDROID_NOISE_REDUCTION_MODE"; "ANDROID_REQUEST_ID"; "ANDROID_SCALER_CROP_REGION";
   "ANDROID_SENSOR_FRAME_DURATION"; "ANDROID_SENSOR_EXPOSURE_TIME"; "ANDROID_SENSOR_SENSITIVITY";
   "ANDROID_STATISTICS_FACE_DETECT_MODE"]%string.

Definition result_keys : list string :=
["ANDROID_CONTROL_AE_MODE"; "ANDROID_CONTROL_AE_STATE"; "ANDROID_CONTROL_AF_MODE"; "ANDROID_CONTROL_AF_TRIGGER";
   "ANDROID_CONTROL_AWB_MODE"; "ANDROID_CONTROL_AWB_STATE"; "ANDROID_CONTROL_MODE"; "ANDROID_FLASH_MODE";
   "ANDROID_JPEG_QUALITY"; "ANDROID_LENS_FOCUS_DISTANCE"; "ANDROID_LENS_STATE"; "ANDROID_REQUEST_ID";
   "ANDROID_SCALER_CROP_REGION"; "ANDROID_SENSOR_EXPOSURE_TIME"; "ANDROID_SENSOR_FRAME_DURATION";
   "ANDROID_SENSOR_SENSITIVITY"; "ANDROID_SENSOR_TIMESTAMP"]%string.

Definition characteristics_keys : list string :=
["ANDROID_COLOR_CORRECTION_AVAILABLE_ABERRATION_MODES"; "ANDROID_CONTROL_AE_AVAILABLE_ANTIBANDING_MODES";
   "ANDROID_CONTROL_AE_AVAILABLE_MODES"; "ANDROID_CONTROL_AE_AVAILABLE_TARGET_FPS_RANGES";
   "ANDROID_CONTROL_AE_COMPENSATION_RANGE"; "ANDROID_CONTROL_AE_COMPENSATION_STEP";
   "ANDROID_CONTROL_AE_LOCK_AVAILABLE"; "ANDROID_CONTROL_AF_AVAILABLE_MODES";
   "ANDROID_CONTROL_AVAILABLE_EFFECTS"; "ANDROID_CONTROL_AVAILABLE_MODES";
   "ANDROID_CONTROL_AVAILABLE_SCENE_MODES"; "ANDROID_CONTROL_AVAILABLE_VIDEO_STABILIZATION_MODES";
   "ANDROID_CONTROL_AWB_AVAILABLE_MODES"; "ANDROID_CONTROL_AWB_LOCK_AVAILABLE"; "ANDROID_CONTROL_MAX_REGIONS";
   "ANDROID_EDGE_AVAILABLE_EDGE_MODES"; "ANDROID_FLASH_INFO_AVAILABLE";
   "ANDROID_HOT_PIXEL_AVAILABLE_HOT_PIXEL_MODES"; "ANDROID_INFO_SUPPORTED_HARDWARE_LEVEL";
   "ANDROID_JPEG_AVAILABLE_THUMBNAIL_SIZES"; "ANDROID_JPEG_MAX_SIZE"; "ANDROID_LENS_FACING";
   "ANDROID_LENS_INFO_AVAILABLE_APERTURES"; "ANDROID_LENS_INFO_AVAILABLE_FILTER_DENSITIES";
   "ANDROID_LENS_INFO_AVAILABLE_FOCAL_LENGTHS"; "ANDROID_LENS_INFO_AVAILABLE_OPTICAL_STABILIZATION";
   "ANDROID_LENS_INFO_FOCUS_DISTANCE_CALIBRATION"; "ANDROID_LENS_INFO_HYPERFOCAL_DISTANCE";
   "ANDROID_LENS_INFO_MINIMUM_FOCUS_DISTANCE"; "ANDROID_NOISE_REDUCTION_AVAILABLE_NOISE_REDUCTION_MODES";
   "ANDROID_REQUEST_AVAILABLE_CAPABILITIES"; "ANDROID_REQUEST_AVAILABLE_CHARACTERISTICS_KEYS";
   "ANDROID_REQUEST_AVAILABLE_REQUEST_KEYS"; "ANDROID_REQUEST_AVAILABLE_RESULT_KEYS";
   "ANDROID_REQUEST_MAX_NUM_INPUT_STREAMS"; "ANDROID_REQUEST_MAX_NUM_OUTPUT_STREAMS";
   "ANDROID_REQUEST_PARTIAL_RESULT_COUNT"; "ANDROID_REQUEST_PIPELINE_MAX_DEPTH";
   "ANDROID_SCALER_AVAILABLE_MAX_DIGITAL_ZOOM"; "ANDROID_SCALER_AVAILABLE_MIN_FRAME_DURATIONS";
   "ANDROID_SCALER_AVAILABLE_STALL_DURATIONS"; "ANDROID_SCALER_AVAILABLE_STREAM_CONFIGURATIONS";
   "ANDROID_SENSOR_AVAILABLE_TEST_PATTERN_MODES"; "ANDROID_SENSOR_INFO_ACTIVE_ARRAY_SIZE";
   "ANDROID_SENSOR_INFO_COLOR_FILTER_ARRANGEMENT"; "ANDROID_SENSOR_INFO_EXPOSURE_TIME_RANGE";
   "ANDROID_SENSOR_INFO_PHYSICAL_SIZE"; "ANDROID_SENSOR_INFO_PIXEL_ARRAY_SIZE";
   "ANDROID_SENSOR_INFO_PRE_CORRECTION_ACTIVE_ARRAY_SIZE"; "ANDROID_SENSOR_INFO_SENSITIVITY_RANGE";
   "ANDROID_SENSOR_INFO_TIMESTAMP_SOURCE"; "ANDROID_SENSOR_MAX_ANALOG_SENSITIVITY";
   "ANDROID_SENSOR_ORIENTATION"; "ANDROID_SHADING_AVAILABLE_MODES";
   "ANDROID_STATISTICS_INFO_AVAILABLE_FACE_DETECT_MODES";
   "ANDROID_STATISTICS_INFO_AVAILABLE_LENS_SHADING_MAP_MODES"; "ANDROID_STATISTICS_INFO_MAX_FACE_COUNT";
   "ANDROID_SYNC_MAX_LATENCY"; "ANDROID_TONEMAP_AVAILABLE_TONE_MAP_MODES"]%string.

Section tables.
Context (cst : string -> Z).

#[local] Abbreviation K s := (cst s%string) (only parsing).

Definition kCameras : list camera_info := [mk_camera_info (K "CAMERA_FACING_BACK") 90 3280].
Definition kNumCameras : Z := zlen kCameras.

(** The facing and the streams. *)
Definition stream_rows (cam : camera_info) : list row :=
  [
   mk_row "ANDROID_LENS_FACING" (U8 [if facing cam =? K "CAMERA_FACING_BACK" then K "ANDROID_LENS_FACING_BACK" else
     K "ANDROID_LENS_FACING_FRONT"]) 1;
   mk_row "ANDROID_SENSOR_ORIENTATION" (I32 [orientation cam]) 1;
   mk_row "ANDROID_SCALER_AVAILABLE_STREAM_CONFIGURATIONS" (I32 [K "HAL_PIXEL_FORMAT_IMPLEMENTATION_DEFINED"; 1280;
     720; K "CAMERA3_STREAM_OUTPUT"; K "HAL_PIXEL_FORMAT_YCbCr_420_888"; 1280; 720; K "CAMERA3_STREAM_OUTPUT";
     K "HAL_PIXEL_FORMAT_YV12"; 1280; 720; K "CAMERA3_STREAM_OUTPUT"; K "HAL_PIXEL_FORMAT_BLOB"; 1280; 720;
     K "CAMERA3_STREAM_OUTPUT"; K "HAL_PIXEL_FORMAT_BLOB"; 1920; 1080; K "CAMERA3_STREAM_OUTPUT";
     K "HAL_PIXEL_FORMAT_BLOB"; 3280; 2464; K "CAMERA3_STREAM_OUTPUT"]) 24;
   mk_row "ANDROID_SCALER_AVAILABLE_MIN_FRAME_DURATIONS" (I64 [K "HAL_PIXEL_FORMAT_IMPLEMENTATION_DEFINED"; 1280;
     720; 33333333; K "HAL_PIXEL_FORMAT_YCbCr_420_888"; 1280; 720; 33333333; K "HAL_PIXEL_FORMAT_YV12"; 1280; 720;
     33333333; K "HAL_PIXEL_FORMAT_BLOB"; 1280; 720; 500000000; K "HAL_PIXEL_FORMAT_BLOB"; 1920; 1080; 500000000;
     K "HAL_PIXEL_FORMAT_BLOB"; 3280; 2464; 500000000]) 24;
   mk_row "ANDROID_SCALER_AVAILABLE_STALL_DURATIONS" (I64 [K "HAL_PIXEL_FORMAT_IMPLEMENTATION_DEFINED"; 1280; 720;
     0; K "HAL_PIXEL_FORMAT_YCbCr_420_888"; 1280; 720; 0; K "HAL_PIXEL_FORMAT_YV12"; 1280; 720; 0;
     K "HAL_PIXEL_FORMAT_BLOB"; 1280; 720; 500000000; K "HAL_PIXEL_FORMAT_BLOB"; 1920; 1080; 500000000;
     K "HAL_PIXEL_FORMAT_BLOB"; 3280; 2464; 500000000]) 24;
   mk_row "ANDROID_SCALER_AVAILABLE_PROCESSED_SIZES" (I32 [1280; 720]) 2;
   mk_row "ANDROID_SCALER_AVAILABLE_JPEG_SIZES" (I32 [1280; 720; 1920; 1080; 3280; 2464]) 6;
   mk_row "ANDROID_SCALER_AVAILABLE_MAX_DIGITAL_ZOOM" (F32 [f32_dec 4 1]) 1].

(** The sensor and the level of support. *)
Definition sensor_rows (cameraId : Z) (cam : camera_info) : list row :=
  let sensor_width := maxResolution cam in
  let sensor_height := if maxResolution cam =? 3280 then 2464 else 1944 in
  [
   mk_row "ANDROID_FLASH_INFO_AVAILABLE" (U8 [0]) 1;
   mk_row "ANDROID_SENSOR_INFO_ACTIVE_ARRAY_SIZE" (I32 [0; 0; sensor_width; sensor_height]) 4;
   mk_row "ANDROID_SENSOR_INFO_PIXEL_ARRAY_SIZE" (I32 [sensor_width; sensor_height]) 2;
   mk_row "ANDROID_SENSOR_INFO_PRE_CORRECTION_ACTIVE_ARRAY_SIZE" (I32 [0; 0; sensor_width; sensor_height]) 4;
   mk_row "ANDROID_SENSOR_INFO_PHYSICAL_SIZE" (F32 (if cameraId =? 0 then [f32_dec 3676 1000; f32_dec 2757 1000]
     else [f32_dec 28 10; f32_dec 21 10])) 2;
   mk_row "ANDROID_SENSOR_INFO_TIMESTAMP_SOURCE" (I32 [K "ANDROID_SENSOR_INFO_TIMESTAMP_SOURCE_UNKNOWN"]) 1;
   mk_row "ANDROID_INFO_SUPPORTED_HARDWARE_LEVEL" (U8 [K "ANDROID_INFO_SUPPORTED_HARDWARE_LEVEL_LIMITED"]) 1;
   mk_row "ANDROID_REQUEST_AVAILABLE_CAPABILITIES" (U8
     [K "ANDROID_REQUEST_AVAILABLE_CAPABILITIES_BACKWARD_COMPATIBLE";
     K "ANDROID_REQUEST_AVAILABLE_CAPABILITIES_MANUAL_SENSOR";
     K "ANDROID_REQUEST_AVAILABLE_CAPABILITIES_MANUAL_POST_PROCESSING"]) 3].

(** The settings and results there are. *)
Definition key_rows : list row :=
  [
   mk_row "ANDROID_REQUEST_AVAILABLE_REQUEST_KEYS" (I32 (cst <$> request_keys)) 17;
   mk_row "ANDROID_REQUEST_AVAILABLE_RESULT_KEYS" (I32 (cst <$> result_keys)) 17].

(** The modes the framework derives keys from. *)
Definition mode_rows : list row :=
  [
   mk_row "ANDROID_CONTROL_AVAILABLE_SCENE_MODES" (U8 [K "ANDROID_CONTROL_SCENE_MODE_DISABLED"]) 1;
   mk_row "ANDROID_CONTROL_AE_AVAILABLE_MODES" (U8 [K "ANDROID_CONTROL_AE_MODE_ON"; K "ANDROID_CONTROL_AE_MODE_OFF"])
     2;
   mk_row "ANDROID_CONTROL_AF_AVAILABLE_MODES" (U8 [K "ANDROID_CONTROL_AF_MODE_OFF";
     K "ANDROID_CONTROL_AF_MODE_AUTO"; K "ANDROID_CONTROL_AF_MODE_CONTINUOUS_PICTURE"]) 3;
   mk_row "ANDROID_CONTROL_AWB_AVAILABLE_MODES" (U8 [K "ANDROID_CONTROL_AWB_MODE_AUTO";
     K "ANDROID_CONTROL_AWB_MODE_OFF"]) 2;
   mk_row "ANDROID_CONTROL_AE_AVAILABLE_TARGET_FPS_RANGES" (I32 [15; 30]) 2;
   mk_row "ANDROID_JPEG_AVAILABLE_THUMBNAIL_SIZES" (I32 [0; 0; 160; 120; 320; 240]) 6;
   mk_row "ANDROID_HOT_PIXEL_AVAILABLE_HOT_PIXEL_MODES" (U8 [K "ANDROID_HOT_PIXEL_MODE_FAST";
     K "ANDROID_HOT_PIXEL_MODE_HIGH_QUALITY"]) 2;
   mk_row "ANDROID_EDGE_AVAILABLE_EDGE_MODES" (U8 [K "ANDROID_EDGE_MODE_OFF"; K "ANDROID_EDGE_MODE_FAST";
     K "ANDROID_EDGE_MODE_HIGH_QUALITY"]) 3;
   mk_row "ANDROID_NOISE_REDUCTION_AVAILABLE_NOISE_REDUCTION_MODES" (U8 [K "ANDROID_NOISE_REDUCTION_MODE_OFF";
     K "ANDROID_NOISE_REDUCTION_MODE_FAST"; K "ANDROID_NOISE_REDUCTION_MODE_HIGH_QUALITY"]) 3;
   mk_row "ANDROID_SHADING_AVAILABLE_MODES" (U8 [K "ANDROID_SHADING_MODE_OFF"; K "ANDROID_SHADING_MODE_FAST";
     K "ANDROID_SHADING_MODE_HIGH_QUALITY"]) 3;
   mk_row "ANDROID_STATISTICS_INFO_AVAILABLE_LENS_SHADING_MAP_MODES" (U8
     [K "ANDROID_STATISTICS_LENS_SHADING_MAP_MODE_OFF"]) 1;
   mk_row "ANDROID_STATISTICS_INFO_MAX_FACE_COUNT" (I32 [0]) 1;
   mk_row "ANDROID_STATISTICS_INFO_AVAILABLE_FACE_DETECT_MODES" (U8 [K "ANDROID_STATISTICS_FACE_DETECT_MODE_OFF"])
     1;
   mk_row "ANDROID_TONEMAP_AVAILABLE_TONE_MAP_MODES" (U8 [K "ANDROID_TONEMAP_MODE_CONTRAST_CURVE";
     K "ANDROID_TONEMAP_MODE_FAST"; K "ANDROID_TONEMAP_MODE_HIGH_QUALITY"]) 3;
   mk_row "ANDROID_SENSOR_INFO_COLOR_FILTER_ARRANGEMENT" (U8
     [K "ANDROID_SENSOR_INFO_COLOR_FILTER_ARRANGEMENT_RGGB"]) 1;
   mk_row "ANDROID_CONTROL_AE_LOCK_AVAILABLE" (U8 [K "ANDROID_CONTROL_AE_LOCK_AVAILABLE_TRUE"]) 1;
   mk_row "ANDROID_CONTROL_AWB_LOCK_AVAILABLE" (U8 [K "ANDROID_CONTROL_AWB_LOCK_AVAILABLE_TRUE"]) 1].

(** Ranges, the lens and the limits. *)
Definition range_rows (cameraId : Z) : list row :=
  [
   mk_row "ANDROID_CONTROL_AE_COMPENSATION_RANGE" (I32 [-9; 9]) 2;
   mk_row "ANDROID_CONTROL_AE_COMPENSATION_STEP" (RAT [(1, 3)]) 1;
   mk_row "ANDROID_SENSOR_INFO_EXPOSURE_TIME_RANGE" (I64 [10000; 500000000]) 2;
   mk_row "ANDROID_SENSOR_INFO_SENSITIVITY_RANGE" (I32 [100; 1600]) 2;
   mk_row "ANDROID_SENSOR_MAX_ANALOG_SENSITIVITY" (I32 [1600]) 1;
   mk_row "ANDROID_JPEG_MAX_SIZE" (I32 [(3280 * 2464 * 2)]) 1;
   mk_row "ANDROID_REQUEST_PIPELINE_MAX_DEPTH" (U8 [4]) 1;
   mk_row "ANDROID_REQUEST_MAX_NUM_INPUT_STREAMS" (I32 [0]) 1;
   mk_row "ANDROID_LENS_INFO_HYPERFOCAL_DISTANCE" (F32 [f32_of_Z 0]) 1;
   mk_row "ANDROID_LENS_INFO_MINIMUM_FOCUS_DISTANCE" (F32 [if cameraId =? 0 then f32_dec 10 1 else f32_of_Z 0]) 1;
   mk_row "ANDROID_LENS_INFO_FOCUS_DISTANCE_CALIBRATION" (U8
     [K "ANDROID_LENS_INFO_FOCUS_DISTANCE_CALIBRATION_UNCALIBRATED"]) 1;
   mk_row "ANDROID_CONTROL_AVAILABLE_EFFECTS" (U8 [K "ANDROID_CONTROL_EFFECT_MODE_OFF"]) 1;
   mk_row "ANDROID_CONTROL_AE_AVAILABLE_ANTIBANDING_MODES" (U8 [K "ANDROID_CONTROL_AE_ANTIBANDING_MODE_OFF"]) 1;
   mk_row "ANDROID_CONTROL_AVAILABLE_VIDEO_STABILIZATION_MODES" (U8
     [K "ANDROID_CONTROL_VIDEO_STABILIZATION_MODE_OFF"]) 1;
   mk_row "ANDROID_LENS_INFO_AVAILABLE_OPTICAL_STABILIZATION" (U8 [K "ANDROID_LENS_OPTICAL_STABILIZATION_MODE_OFF"])
     1;
   mk_row "ANDROID_COLOR_CORRECTION_AVAILABLE_ABERRATION_MODES" (U8
     [K "ANDROID_COLOR_CORRECTION_ABERRATION_MODE_OFF"]) 1;
   mk_row "ANDROID_CONTROL_AVAILABLE_MODES" (U8 [K "ANDROID_CONTROL_MODE_AUTO"; K "ANDROID_CONTROL_MODE_OFF"]) 2;
   mk_row "ANDROID_SENSOR_AVAILABLE_TEST_PATTERN_MODES" (U8 [K "ANDROID_SENSOR_TEST_PATTERN_MODE_OFF"]) 1;
   mk_row "ANDROID_LENS_INFO_AVAILABLE_FOCAL_LENGTHS" (F32 [f32_dec 35 10]) 1;
   mk_row "ANDROID_LENS_INFO_AVAILABLE_APERTURES" (F32 [f32_dec 28 10]) 1;
   mk_row "ANDROID_LENS_INFO_AVAILABLE_FILTER_DENSITIES" (F32 [f32_of_Z 0]) 1;
   mk_row "ANDROID_CONTROL_MAX_REGIONS" (I32 [1; 1; 0]) 3;
   mk_row "ANDROID_REQUEST_MAX_NUM_OUTPUT_STREAMS" (I32 [3; 3; 1]) 3;
   mk_row "ANDROID_REQUEST_PARTIAL_RESULT_COUNT" (I32 [1]) 1;
   mk_row "ANDROID_SYNC_MAX_LATENCY" (I64 [K "ANDROID_SYNC_MAX_LATENCY_PER_FRAME_CONTROL"]) 1].

Definition static_rows (cameraId : Z) (cam : camera_info) : list row :=
  stream_rows cam ++ sensor_rows cameraId cam ++ key_rows ++ mode_rows ++ range_rows cameraId ++
  [mk_row "ANDROID_REQUEST_AVAILABLE_CHARACTERISTICS_KEYS" (I32 (cst <$> characteristics_keys)) 59].

(** The entries every template starts with. *)
Definition common_rows : list row :=
  [
   mk_row "ANDROID_CONTROL_CAPTURE_INTENT" (U8 [K "ANDROID_CONTROL_CAPTURE_INTENT_PREVIEW"]) 1;
   mk_row "ANDROID_REQUEST_METADATA_MODE" (U8 [K "ANDROID_REQUEST_METADATA_MODE_FULL"]) 1;
   mk_row "ANDROID_REQUEST_ID" (I32 [0]) 1;
   mk_row "ANDROID_CONTROL_AE_MODE" (I32 [K "ANDROID_CONTROL_AE_MODE_ON"]) 1;
   mk_row "ANDROID_CONTROL_AWB_MODE" (I32 [K "ANDROID_CONTROL_AWB_MODE_AUTO"]) 1;
   mk_row "ANDROID_CONTROL_MODE" (I32 [K "ANDROID_CONTROL_MODE_AUTO"]) 1;
   mk_row "ANDROID_CONTROL_SCENE_MODE" (I32 [K "ANDROID_CONTROL_SCENE_MODE_DISABLED"]) 1;
   mk_row "ANDROID_CONTROL_AE_TARGET_FPS_RANGE" (I32 [15; 30]) 2;
   mk_row "ANDROID_CONTROL_AE_PRECAPTURE_TRIGGER" (I32 [K "ANDROID_CONTROL_AE_PRECAPTURE_TRIGGER_IDLE"]) 1;
   mk_row "ANDROID_CONTROL_AF_MODE" (U8 [K "ANDROID_CONTROL_AF_MODE_AUTO"]) 1;
   mk_row "ANDROID_CONTROL_AF_TRIGGER" (U8 [K "ANDROID_CONTROL_AF_TRIGGER_IDLE"]) 1;
   mk_row "ANDROID_CONTROL_AE_LOCK" (I32 [K "ANDROID_CONTROL_AE_LOCK_OFF"]) 1;
   mk_row "ANDROID_CONTROL_AWB_LOCK" (I32 [K "ANDROID_CONTROL_AWB_LOCK_OFF"]) 1;
   mk_row "ANDROID_CONTROL_EFFECT_MODE" (I32 [K "ANDROID_CONTROL_EFFECT_MODE_OFF"]) 1;
   mk_row "ANDROID_CONTROL_AE_ANTIBANDING_MODE" (U8 [K "ANDROID_CONTROL_AE_ANTIBANDING_MODE_AUTO"]) 1;
   mk_row "ANDROID_CONTROL_VIDEO_STABILIZATION_MODE" (I32 [K "ANDROID_CONTROL_VIDEO_STABILIZATION_MODE_OFF"]) 1;
   mk_row "ANDROID_EDGE_MODE" (I32 [K "ANDROID_EDGE_MODE_OFF"]) 1;
   mk_row "ANDROID_NOISE_REDUCTION_MODE" (I32 [K "ANDROID_NOISE_REDUCTION_MODE_FAST"]) 1;
   mk_row "ANDROID_COLOR_CORRECTION_MODE" (I32 [K "ANDROID_COLOR_CORRECTION_MODE_FAST"]) 1;
   mk_row "ANDROID_COLOR_CORRECTION_TRANSFORM" (I32 [1; 0; 0; 0; 1; 0; 0; 0; 1]) 9;
   mk_row "ANDROID_COLOR_CORRECTION_GAINS" (I32 [1; 0; 1; 0]) 4;
   mk_row "ANDROID_TONEMAP_MODE" (I32 [K "ANDROID_TONEMAP_MODE_FAST"]) 1;
   mk_row "ANDROID_SHADING_MODE" (I32 [K "ANDROID_SHADING_MODE_FAST"]) 1;
   mk_row "ANDROID_STATISTICS_LENS_SHADING_MAP_MODE" (I32 [K "ANDROID_STATISTICS_LENS_SHADING_MAP_MODE_OFF"]) 1;
   mk_row "ANDROID_HOT_PIXEL_MODE" (I32 [K "ANDROID_HOT_PIXEL_MODE_FAST"]) 1;
   mk_row "ANDROID_STATISTICS_FACE_DETECT_MODE" (I32 [K "ANDROID_STATISTICS_FACE_DETECT_MODE_OFF"]) 1;
   mk_row "ANDROID_SENSOR_TEST_PATTERN_MODE" (I32 [K "ANDROID_SENSOR_TEST_PATTERN_MODE_OFF"]) 1].

Definition template_rows (type : Z) : list row :=
  if type =? K "CAMERA3_TEMPLATE_STILL_CAPTURE" then
    [mk_row "ANDROID_JPEG_QUALITY" (U8 [95]) 1; mk_row "ANDROID_JPEG_THUMBNAIL_QUALITY" (U8 [95]) 1;
     mk_row "ANDROID_JPEG_THUMBNAIL_SIZE" (I32 [320; 240]) 2]
  else if type =? K "CAMERA3_TEMPLATE_MANUAL" then
    [mk_row "ANDROID_CONTROL_AE_MODE" (I32 [K "ANDROID_CONTROL_AE_MODE_OFF"]) 1;
     mk_row "ANDROID_CONTROL_AWB_MODE" (I32 [K "ANDROID_CONTROL_AWB_MODE_OFF"]) 1]
  else [].

Definition controlIntent (type : Z) : Z :=
  if type =? K "CAMERA3_TEMPLATE_PREVIEW" then K "ANDROID_CONTROL_CAPTURE_INTENT_PREVIEW"
  else if type =? K "CAMERA3_TEMPLATE_VIDEO_RECORD" then K "ANDROID_CONTROL_CAPTURE_INTENT_VIDEO_RECORD"
  else if type =? K "CAMERA3_TEMPLATE_STILL_CAPTURE" then K "ANDROID_CONTROL_CAPTURE_INTENT_STILL_CAPTURE"
  else if type =? K "CAMERA3_TEMPLATE_ZERO_SHUTTER_LAG" then K "ANDROID_CONTROL_CAPTURE_INTENT_ZERO_SHUTTER_LAG"
  else if type =? K "CAMERA3_TEMPLATE_MANUAL" then K "ANDROID_CONTROL_CAPTURE_INTENT_MANUAL"
  else K "ANDROID_CONTROL_CAPTURE_INTENT_PREVIEW".

Definition settings_rows (type : Z) : list row :=
  common_rows ++ template_rows type ++ [mk_row "ANDROID_CONTROL_CAPTURE_INTENT" (U8 [controlIntent type]) 1].

(** ** Filling a buffer *)

Context {buf : Type} {ML : MetadataLib buf} (alloc_ok : nat -> bool) (junk : Z -> list Z).

(** The buffer, and the tags whose arrays were read past their ends. *)
Definition add_row (s : buf * list string) (r : row) : buf * list string :=
  match get_camera_metadata_tag_type (cst (r_tag r)) with
  | None => s
  | Some ty =>
      let n := r_count r * type_size ty in
      let bytes := array_bytes (r_array r) in
      match add_camera_metadata_entry s.1 (cst (r_tag r)) (take (Z.to_nat n) (bytes ++ junk n)) with
      | None => s
      | Some b => (b, if zlen bytes <? n then s.2 ++ [r_tag r] else s.2)
      end
  end.

Definition add_rows : list row -> buf * list string -> buf * list string := fun rows s => foldl add_row s rows.

(** A new buffer with the rows, sorted. *)
Definition fill (entry_capacity data_capacity : Z) (rows : list row) : MD buf (option positive * list string) :=
  p ← allocate_camera_metadata alloc_ok entry_capacity data_capacity;
  match p with
  | None => mret (None, [])
  | Some _ =>
      b ← at_ptr p;
      let '(b, over) := add_rows rows (b, []) in
      _ ← store_ptr p (sort_camera_metadata b);
      mret (p, over)
  end.

(** [cache] is [gCameraCharacteristics]; reading [kCameras] past its end is undefined. *)
Definition init_static_characteristics (cameraId : Z) (cache : list (option positive)) :
    MD buf (option positive * list string * list (option positive)) :=
  if (cameraId <? 0) || (2 <=? cameraId) then mret (None, [], cache)
  else match cache !! Z.to_nat cameraId with
       | Some (Some p) => mret (Some p, [], cache)
       | _ =>
           match kCameras !! Z.to_nat cameraId with
           | None => md_crash
           | Some cam =>
               '(p, over) ← fill 100 8192 (static_rows cameraId cam);
               mret (p, over, if bool_decide (p = None) then cache else <[Z.to_nat cameraId := p]> cache)
           end
       end.

(** [EINVAL] is [None]. *)
Definition getCameraInfo (cameraId : Z) (cache : list (option positive)) :
    MD buf (option (camera_info * option positive * list string) * list (option positive)) :=
  if (cameraId <? 0) || (kNumCameras <=? cameraId) then mret (None, cache)
  else match kCameras !! Z.to_nat cameraId with
       | None => md_crash
       | Some cam =>
           '(p, over, cache) ← init_static_characteristics cameraId cache;
           mret (Some (cam, p, over), cache)
       end.

Definition camera_device_construct_default_request_settings (device : bool) (type : Z) :
    MD buf (option positive * list string) :=
  if negb device then mret (None, []) else fill 20 80 (settings_rows type).

(** ** What is added *)

Definition row_type (r : row) : option md_type :=
  (fun q => q.2.2) <$> list_find (fun p => p.1 = r_tag r) documented_types.

Definition row_entry (r : row) : entry :=
  let n := r_count r * from_option type_size 0 (row_type r) in
  mk_entry (cst (r_tag r)) (take (Z.to_nat n) (array_bytes (r_array r) ++ junk n)).

(** The library reads more than the array has. *)
Definition row_over (r : row) : bool := zlen (array_bytes (r_array r)) <? r_count r * from_option type_size 0 (row_type r).

(** The rows that fit, with [n] entries and [d] bytes used before. *)
Fixpoint accepted (ecap dcap n d : Z) (rows : list row) : list row :=
  match rows with
  | [] => []
  | r :: rows =>
      let k := ref_data_size (r_count r * from_option type_size 0 (row_type r)) in
      if (n + 1 <=? ecap) && (d + k <=? dcap) then r :: accepted ecap dcap (n + 1) (d + k) rows
      else accepted ecap dcap n d rows
  end.

Definition row_typed (r : row) : bool := bool_decide (row_type r <> None) && (0 <=? r_count r).

(** Nothing fits after the last entry. *)
Lemma accepted_full ecap dcap n d rows : ecap <= n -> accepted ecap dcap n d rows = [].
Proof.
  intros Hn. induction rows as [|r rows IH]; [done|]. cbn [accepted]. by rewrite (proj2 (Z.leb_gt _ _)) by lia.
Qed.

Lemma accepted_app_full ecap dcap n d xs ys : n + zlen (accepted ecap dcap n d xs) = ecap ->
  accepted ecap dcap n d (xs ++ ys) = accepted ecap dcap n d xs.
Proof.
  revert n d. induction xs as [|r xs IH]; intros n d Hlen; cbn [accepted app] in *.
  - rewrite zlen_nil in Hlen. apply accepted_full. lia.
  - destruct (_ && _) eqn:Hfit; [|by apply IH]. f_equal. apply IH. rewrite zlen_cons in Hlen. lia.
Qed.

Context {LAWS : MetadataLaws buf}.
Context (Htypes : Forall (fun p => get_camera_metadata_tag_type (cst p.1) = Some p.2) documented_types).
Context (Hjunk : forall n, 0 <= n -> zlen (junk n) = n).

Lemma row_type_tag r ty : row_type r = Some ty -> get_camera_metadata_tag_type (cst (r_tag r)) = Some ty.
Proof.
  unfold row_type. destruct (list_find _ _) as [[i [t ty']]|] eqn:Hf; [|done]. intros [= <-].
  apply list_find_Some in Hf as (Hi & Ht & _). cbn in *. subst t. by apply (Forall_lookup_1 _ _ _ _ Htypes Hi).
Qed.

Lemma data_size_ref n : 0 <= n -> calculate_camera_metadata_entry_data_size n = ref_data_size n.
Proof.
  intros Hn. unfold ref_data_size. destruct (Z.leb_spec n 4); [by apply data_size_inline|by apply data_size_aligned].
Qed.

Lemma add_row_spec b over r : row_typed r = true ->
  let k := ref_data_size (r_count r * from_option type_size 0 (row_type r)) in
  if (get_camera_metadata_entry_count b + 1 <=? get_camera_metadata_entry_capacity b) &&
     (get_camera_metadata_data_count b + k <=? get_camera_metadata_data_capacity b)
  then exists b', add_row (b, over) r = (b', over ++ (if row_over r then [r_tag r] else [])) /\
         entries_of b' = entries_of b ++ [row_entry r] /\ same_capacity b b' /\
         get_camera_metadata_data_count b' = get_camera_metadata_data_count b + k
  else add_row (b, over) r = (b, over).
Proof.
  intros Hr k. unfold row_typed in Hr. apply andb_prop in Hr as [Ht Hc]. apply bool_decide_eq_true in Ht. breflect.
  unfold row_over, row_entry, add_row in *. destruct (row_type r) as [ty|] eqn:Hty; [|done].
  rewrite (row_type_tag r ty Hty). cbn [from_option fst snd] in *. set (n := r_count r * type_size ty) in *.
  assert (Hn : 0 <= n) by (unfold n; destruct ty; cbn; lia).
  set (data := take (Z.to_nat n) (array_bytes (r_array r) ++ junk n)).
  assert (Hd : zlen data = n).
  { unfold data, zlen. rewrite length_take, length_app. pose proof (Hjunk n Hn). unfold zlen in *. lia. }
  assert (Hk : calculate_camera_metadata_entry_data_size (zlen data) = k) by (rewrite Hd; by apply data_size_ref).
  pose proof (add_iff b (cst (r_tag r)) data) as Hadd. rewrite (row_type_tag r ty Hty), Hk in Hadd. unfold room in Hadd.
  case_test.
  - destruct (proj2 Hadd) as [b' Hb']; [split; [done|lia]|]. rewrite Hb'.
    destruct (add_some _ _ _ _ Hb') as [He Hcap]. exists b'. split_and!; [|done|done|].
    + by destruct (zlen (array_bytes (r_array r)) <? n); rewrite ?app_nil_r.
    + destruct (counts_of b b' _ He) as [_ ->]. unfold data_size. cbn. rewrite Hk. lia.
  - destruct (add_camera_metadata_entry b (cst (r_tag r)) data) as [b'|] eqn:Hb'; [|done].
    destruct (proj1 Hadd) as [_ [H1 H2]]; [by eexists|]. apply Z.leb_le in H1, H2. by rewrite H1, H2 in E.
Qed.

Definition overs (rows : list row) : list string := mjoin ((fun r => if row_over r then [r_tag r] else []) <$> rows).

Lemma add_rows_spec rows b over : Forall (fun r => row_typed r = true) rows ->
  let acc := accepted (get_camera_metadata_entry_capacity b) (get_camera_metadata_data_capacity b)
               (get_camera_metadata_entry_count b) (get_camera_metadata_data_count b) rows in
  entries_of (add_rows rows (b, over)).1 = entries_of b ++ (row_entry <$> acc) /\
  (add_rows rows (b, over)).2 = over ++ overs acc.
Proof.
  intros Hrows. revert b over. induction Hrows as [|r rows Hr Hrows IH]; intros b over acc.
  { cbn. unfold acc. by rewrite !app_nil_r. }
  unfold acc. cbn [accepted]. pose proof (add_row_spec b over r Hr) as Hstep. cbv zeta in Hstep.
  change (add_rows (r :: rows) (b, over)) with (add_rows rows (add_row (b, over) r)).
  destruct (_ && _).
  - destruct Hstep as (b' & Hadd & He & (Hc1 & Hc2) & Hd). rewrite Hadd.
    destruct (IH b' (over ++ (if row_over r then [r_tag r] else []))) as [H1 H2]. rewrite H1, H2, He, Hc1, Hc2, Hd.
    unfold get_camera_metadata_entry_count. rewrite He, zlen_app, zlen_cons, zlen_nil.
    unfold overs. rewrite !fmap_cons. change (mjoin (?x :: ?xs)) with (x ++ mjoin xs). by rewrite <- !app_assoc.
  - rewrite Hstep. apply IH.
Qed.

Context (Halloc : forall n, alloc_ok n = true).

Lemma fill_spec ecap dcap rows h : 0 <= ecap -> 0 <= dcap -> Forall (fun r => row_typed r = true) rows ->
  mdwp (fill ecap dcap rows) (fun x h' => exists q b, x = (Some q, overs (accepted ecap dcap 0 0 rows)) /\
    bufs h !! q = None /\ bufs h' = <[q := b]> (bufs h) /\
    entries_of b ≡ₚ row_entry <$> accepted ecap dcap 0 0 rows) h.
Proof.
  intros He Hd Hrows. apply mdwp_bind, mdwp_new; [|by rewrite Halloc]. intros q Hq. apply mdwp_bind.
  apply (mdwp_at _ (empty_buffer ecap dcap)); [cbn; by rewrite lookup_insert_eq|].
  destruct (empty_is ecap dcap He Hd) as (H1 & H2 & H3). pose proof (add_rows_spec rows (empty_buffer ecap dcap) [] Hrows) as Hadd.
  cbv zeta in Hadd. unfold get_camera_metadata_entry_count, get_camera_metadata_data_count in Hadd.
  rewrite H1, H2, H3 in Hadd. cbn [fmap list_fmap foldr app] in Hadd. rewrite zlen_nil in Hadd.
  destruct (add_rows rows _) as [b over]. destruct Hadd as [Hb Hover]. cbn [fst snd] in *. subst over.
  apply mdwp_bind. unfold mdwp at 1, store_ptr. cbn [mbind option_bind bufs]. rewrite lookup_insert_eq. cbn [mbind option_bind].
  apply mdwp_ret. exists q, (sort_camera_metadata b). cbn. split_and!; [done|done|by rewrite insert_insert_eq|].
  destruct (sort_is b) as [-> _]. by rewrite Hb.
Qed.
Lemma rows_typed rows : forallb row_typed rows = true -> Forall (fun r => row_typed r = true) rows.
Proof. intros Hf. apply Forall_forall. intros r Hr. rewrite forallb_forall in Hf. by apply Hf, list_elem_of_In. Qed.

(** ** The two tables *)

(** Different tags have different numbers. *)
Definition tags_distinct : Prop := NoDup (cst <$> documented_types.*1).

Lemma tags_of_names (names : list string) : tags_distinct ->
  forallb (fun n => bool_decide (n ∈ documented_types.*1)) names = true -> bool_decide (NoDup names) = true ->
  NoDup (cst <$> names) /\ (forall n, n ∈ documented_types.*1 -> cst n ∈ cst <$> names -> n ∈ names).
Proof.
  intros Hd Hin Hnd. apply bool_decide_eq_true in Hnd. unfold tags_distinct in Hd.
  assert (Hdoc : forall n, n ∈ names -> n ∈ documented_types.*1).
  { intros n Hn. rewrite forallb_forall in Hin. apply list_elem_of_In, Hin, bool_decide_eq_true in Hn. done. }
  assert (Hinj : forall x y, x ∈ documented_types.*1 -> y ∈ documented_types.*1 -> cst x = cst y -> x = y).
  { intros x y [i Hi]%list_elem_of_lookup [j Hj]%list_elem_of_lookup Hxy.
    assert (i = j) as ->; [|congruence].
    eapply (NoDup_lookup _ i j (cst x) Hd); rewrite list_lookup_fmap; [by rewrite Hi|by rewrite Hj, Hxy]. }
  split.
  - apply NoDup_fmap_2_strong; [|done]. intros x y Hx Hy. by apply Hinj; apply Hdoc.
  - intros n Hn Hc. apply list_elem_of_fmap in Hc as (m & Hm & Hmn). by rewrite (Hinj n m Hn (Hdoc m Hmn) Hm).
Qed.

Lemma tags_rows b rows : entries_of b ≡ₚ row_entry <$> rows -> tags b ≡ₚ cst <$> (r_tag <$> rows).
Proof. intros Hb. unfold tags. rewrite Hb, <- !list_fmap_compose. done. Qed.

Lemma names_in b names ns : tags b ≡ₚ cst <$> names -> forallb (fun n => bool_decide (n ∈ names)) ns = true ->
  Forall (fun n => cst n ∈ tags b) ns.
Proof.
  intros Ht Hin. apply Forall_forall. intros n Hn. rewrite Ht. apply list_elem_of_fmap. exists n. split; [done|].
  rewrite forallb_forall in Hin. apply list_elem_of_In, Hin, bool_decide_eq_true in Hn. done.
Qed.

(** C11. The buffer of the characteristics has room for the whole table: every entry is
    added, under a tag of its own, and each key the HAL announces is the tag of an entry.
    Only the array of the test patterns is read past its end. *)
Theorem static_characteristics_complete h : tags_distinct ->
  exists q b h', init_static_characteristics 0 [None; None] h =
      Some ((Some q, ["ANDROID_SENSOR_AVAILABLE_TEST_PATTERN_MODES"%string], [Some q; None]), h') /\
    bufs h' = <[q := b]> (bufs h) /\
    entries_of b ≡ₚ row_entry <$> static_rows 0 (mk_camera_info (K "CAMERA_FACING_BACK") 90 3280) /\
    NoDup (tags b) /\ Forall (fun k => cst k ∈ tags b) characteristics_keys.
Proof.
  intros Hdist. set (rows := static_rows 0 (mk_camera_info (K "CAMERA_FACING_BACK") 90 3280)).
  assert (Htyped : Forall (fun r => row_typed r = true) rows) by (apply rows_typed; vm_compute; reflexivity).
  assert (Hacc : accepted 100 8192 0 0 rows = rows) by (vm_compute; reflexivity).
  assert (Hover : overs rows = ["ANDROID_SENSOR_AVAILABLE_TEST_PATTERN_MODES"%string]) by (vm_compute; reflexivity).
  assert (Hnames : forallb (fun n => bool_decide (n ∈ documented_types.*1)) (r_tag <$> rows) = true) by (vm_compute; reflexivity).
  assert (Hnd : bool_decide (NoDup (r_tag <$> rows)) = true) by (vm_compute; reflexivity).
  assert (Hkeys : forallb (fun n => bool_decide (n ∈ r_tag <$> rows)) characteristics_keys = true) by (vm_compute; reflexivity).
  assert (Hinit : init_static_characteristics 0 [None; None] h =
    ('(p, over) ← fill 100 8192 rows; mret (p, over, if bool_decide (p = None) then [None; None] else [p; None])) h) by reflexivity.
  rewrite Hinit. clearbody rows. clear Hinit.
  pose proof (fill_spec 100 8192 rows h ltac:(lia) ltac:(lia) Htyped) as Hfill. unfold mdwp in Hfill.
  unfold mbind, md_bind. destruct (fill 100 8192 rows h) as [[x h']|]; [|done].
  destruct Hfill as (q & b & -> & Hq & Hh & Hb). rewrite Hacc in *. rewrite Hover.
  exists q, b, h'. split; [done|]. split; [done|]. split; [done|]. apply tags_rows in Hb. split.
  - rewrite Hb. by apply tags_of_names.
  - by eapply names_in.
Qed.

Lemma settings_typed type : Forall (fun r => row_typed r = true) (settings_rows type).
Proof.
  apply Forall_app. split; [apply rows_typed; vm_compute; reflexivity|]. apply Forall_app. split; [|by repeat constructor].
  unfold template_rows. repeat case_match; by repeat constructor.
Qed.

(** Whatever template is asked for, the settings are the same twenty entries, because
    the buffer has room for no more: the capture intent is that of a preview, and what the
    template would set, and the tone mapping and the following common entries, are
    missing.  The colour transform is read past the end of its array. *)
Theorem default_settings_truncated type h : tags_distinct ->
  exists q b h', camera_device_construct_default_request_settings true type h =
      Some ((Some q, ["ANDROID_COLOR_CORRECTION_TRANSFORM"%string]), h') /\
    bufs h' = <[q := b]> (bufs h) /\ entries_of b ≡ₚ row_entry <$> take 20 common_rows /\ NoDup (tags b) /\
    mk_entry (K "ANDROID_CONTROL_CAPTURE_INTENT") [(K "ANDROID_CONTROL_CAPTURE_INTENT_PREVIEW") mod 256] ∈ entries_of b /\
    ~ K "ANDROID_JPEG_QUALITY" ∈ tags b /\ ~ K "ANDROID_TONEMAP_MODE" ∈ tags b.
Proof.
  intros Hdist. set (first := take 20 common_rows). set (rows := settings_rows type).
  assert (Hacc : accepted 20 80 0 0 rows = first).
  { assert (Hacc0 : accepted 20 80 0 0 common_rows = first) by (vm_compute; reflexivity).
    unfold rows, settings_rows. rewrite accepted_app_full; [done|]. rewrite Hacc0. reflexivity. }
  assert (Hover : overs first = ["ANDROID_COLOR_CORRECTION_TRANSFORM"%string]) by (vm_compute; reflexivity).
  assert (Hnames : forallb (fun n => bool_decide (n ∈ documented_types.*1)) (r_tag <$> first) = true) by (vm_compute; reflexivity).
  assert (Hnd : bool_decide (NoDup (r_tag <$> first)) = true) by (vm_compute; reflexivity).
  assert (Hno : forallb (fun n => bool_decide (n ∈ documented_types.*1) && bool_decide (n ∉ r_tag <$> first))
    ["ANDROID_JPEG_QUALITY"; "ANDROID_TONEMAP_MODE"]%string = true) by (vm_compute; reflexivity).
  assert (Hintent : row_entry <$> first = mk_entry (K "ANDROID_CONTROL_CAPTURE_INTENT")
    [(K "ANDROID_CONTROL_CAPTURE_INTENT_PREVIEW") mod 256] :: tail (row_entry <$> first)) by reflexivity.
  pose proof (settings_typed type) as Htyped. fold rows in Htyped.
  change (camera_device_construct_default_request_settings true type h) with (fill 20 80 rows h).
  clearbody rows first. pose proof (fill_spec 20 80 rows h ltac:(lia) ltac:(lia) Htyped) as Hfill. unfold mdwp in Hfill.
  destruct (fill 20 80 rows h) as [[x h']|]; [|done]. destruct Hfill as (q & b & -> & Hq & Hh & Hb). rewrite Hacc in *.
  rewrite Hover. exists q, b, h'. assert (Htags := tags_rows _ _ Hb). destruct (tags_of_names _ Hdist Hnames Hnd) as [Hnd' Hin].
  assert (Hnot : forall n, bool_decide (n ∈ documented_types.*1) && bool_decide (n ∉ r_tag <$> first) = true -> cst n ∉ tags b).
  { intros n [H1 H2]%andb_prop Ht. apply bool_decide_eq_true in H1, H2. rewrite Htags in Ht. by apply H2, Hin. }
  cbn [forallb] in Hno. apply andb_prop in Hno as [Hno1 Hno2]. apply andb_prop in Hno2 as [Hno2 _].
  split; [done|]. split; [done|]. split; [done|]. split; [by rewrite Htags|].
  split; [rewrite Hb, Hintent; apply list_elem_of_here|]. split; by apply Hnot.
Qed.
End tables.

(** ** On a list of entries *)

(** Tags numbered in the order of [documented_types]. *)
Definition sample_cst (s : string) : Z :=
  match list_find (fun n => n = s) documented_types.*1 with
  | Some (i, _) => Z.of_nat i
  | None => 1000 + Z.of_nat (String.length s)
  end.

Definition sample_types (t : Z) : option md_type := if t <? 0 then None else snd <$> documented_types !! Z.to_nat t.

#[local] Instance table_lib : MetadataLib ref_buf := RefMetadata sample_types.
#[local] Instance table_laws : MetadataLaws ref_buf := RefLaws sample_types.

Definition sample_ok (_ : nat) : bool := true.
Definition sample_junk (n : Z) : list Z := replicate (Z.to_nat n) 170.

Lemma sample_typed : Forall (fun p => get_camera_metadata_tag_type (sample_cst p.1) = Some p.2) documented_types.
Proof.
  assert (Hall : forallb (fun p => bool_decide (sample_types (sample_cst p.1) = Some p.2)) documented_types = true)
    by (vm_compute; reflexivity).
  apply Forall_forall. intros p Hp. rewrite forallb_forall in Hall. by apply list_elem_of_In, Hall, bool_decide_eq_true in Hp.
Qed.

Lemma sample_junk_len n : 0 <= n -> zlen (sample_junk n) = n.
Proof. intros. unfold sample_junk, zlen. rewrite length_replicate. lia. Qed.

Lemma sample_distinct : tags_distinct sample_cst.
Proof.
  assert (Hall : bool_decide (NoDup (sample_cst <$> documented_types.*1)) = true) by (vm_compute; reflexivity).
  by apply bool_decide_eq_true in Hall.
Qed.

Definition empty_memory : md_heap ref_buf := mk_heap ∅ 0.

Example static_characteristics_complete_witness :
  exists q b h', init_static_characteristics sample_cst sample_ok sample_junk 0 [None; None] empty_memory =
      Some ((Some q, ["ANDROID_SENSOR_AVAILABLE_TEST_PATTERN_MODES"%string], [Some q; None]), h') /\
    bufs h' = <[q := b]> (bufs empty_memory) /\
    entries_of b ≡ₚ row_entry sample_cst sample_junk <$>
      static_rows sample_cst 0 (mk_camera_info (sample_cst "CAMERA_FACING_BACK"%string) 90 3280) /\
    NoDup (tags b) /\ Forall (fun k => sample_cst k ∈ tags b) characteristics_keys.
Proof.
  apply (static_characteristics_complete sample_cst sample_ok sample_junk sample_typed sample_junk_len (fun _ => eq_refl)
           empty_memory).
  exact sample_distinct.
Defined.

Example default_settings_truncated_witness :
  exists q b h', camera_device_construct_default_request_settings sample_cst sample_ok sample_junk true 2 empty_memory =
      Some ((Some q, ["ANDROID_COLOR_CORRECTION_TRANSFORM"%string]), h') /\
    bufs h' = <[q := b]> (bufs empty_memory) /\
    entries_of b ≡ₚ row_entry sample_cst sample_junk <$> take 20 (common_rows sample_cst) /\ NoDup (tags b) /\
    mk_entry (sample_cst "ANDROID_CONTROL_CAPTURE_INTENT"%string)
      [(sample_cst "ANDROID_CONTROL_CAPTURE_INTENT_PREVIEW"%string) mod 256] ∈ entries_of b /\
    ~ sample_cst "ANDROID_JPEG_QUALITY"%string ∈ tags b /\ ~ sample_cst "ANDROID_TONEMAP_MODE"%string ∈ tags b.
Proof.
  apply (default_settings_truncated sample_cst sample_ok sample_junk sample_typed sample_junk_len (fun _ => eq_refl) 2
           empty_memory).
  exact sample_distinct.
Defined.

(** The matrix the framework reads: the array, then what lay after it. *)
Example transform_is_junk :
  (fun e => i32_of (e_data e)) <$> list_find (fun r => r_tag r = "ANDROID_COLOR_CORRECTION_TRANSFORM"%string) (common_rows sample_cst) ≫=
    (fun q => Some (row_entry sample_cst sample_junk q.2)) =
  Some ([1; 0; 0; 0; 1; 0; 0; 0; 1] ++ replicate 9 (-1431655766)).
Proof. vm_compute. reflexivity. Qed.

(** The first number of the encodings of 4.0 and 3.676. *)
Example f32_bits_samples : (f32_bits (f32_dec 4 1), f32_bits (f32_dec 3676 1000)) = (0x40800000, 0x406B4396).
Proof. vm_compute. reflexivity. Qed.
