(* ===== verification/CameraWrapper.v ===== *)
(** * The wrapper of the vendor's camera module ([camera/CameraWrapper.cpp])

    The wrapper forwards the module's calls and mends the characteristics the vendor
    announces: a copy of the vendor's buffer is edited once per camera and kept.  Buffers
    are those of [MetadataLib]; constants of the platform are given by their names
    ([cst]).  [calloc_ok] tells which requests, in bytes, succeed. *)

From S2P Require Import Prelude.
From S2P Require Import MetadataLib.

(** What [get_camera_info] fills in. *)
Record camera_info := mk_info {
  facing : Z; orientation : Z; device_version : Z; static_camera_characteristics : option positive }.

(** [gVendorModule], [vendorInfo] and [vendor_camera_info]. *)
Record wrapper := mk_wrapper {
  gVendorModule : bool; vendorInfo : list (option positive); vendor_camera_info : camera_info }.

(** The elements of an array two or four at a time. *)
Fixpoint pairs (l : list Z) : list (Z * Z) :=
  match l with a :: b :: l => (a, b) :: pairs l | _ => [] end.
Fixpoint quads (l : list Z) : list (Z * Z * Z * Z) :=
  match l with a :: b :: c :: d :: l => (a, b, c, d) :: quads l | _ => [] end.

Section wrapper.
Context (cst : string -> Z) {buf : Type} {ML : MetadataLib buf} (alloc_ok : nat -> bool) (calloc_ok : Z -> bool).

#[local] Abbreviation K s := (cst s%string) (only parsing).
#[local] Abbreviation MDb := (MD buf).

Definition normalize_camera_device_version (version : Z) : Z :=
  if version =? K "CAMERA_DEVICE_API_VERSION_3_0" then K "CAMERA_DEVICE_API_VERSION_3_2" else version.

(** The index and the data of a tag's entry. *)
Definition find_entry (p : option positive) (tag : Z) : MDb (option (nat * list Z)) :=
  b ← at_ptr p;
  mret (i ← find_camera_metadata_entry b tag; e ← entries_of b !! i; Some (i, e_data e)).

(** [entry.count]: elements of the tag's type. *)
Definition count (tag : Z) (data : list Z) : Z :=
  zlen data / from_option type_size 1 (get_camera_metadata_tag_type tag).

Definition OUTPUT : Z := K "ANDROID_SCALER_AVAILABLE_STREAM_CONFIGURATIONS_OUTPUT".

(** The loop, with what it has seen. *)
Fixpoint check_configurations (l : list (Z * Z * Z * Z)) (blob yuv : bool) : bool :=
  match l with
  | [] => blob && yuv
  | (format, width, height, direction) :: l =>
      if (width <=? 0) || (height <=? 0) then false
      else check_configurations l
             (blob || ((direction =? OUTPUT) && (format =? K "HAL_PIXEL_FORMAT_BLOB")))
             (yuv || ((direction =? OUTPUT) && (format =? K "HAL_PIXEL_FORMAT_YCbCr_420_888")))
  end.

Definition valid_configurations (data : list Z) : bool :=
  let n := count (K "ANDROID_SCALER_AVAILABLE_STREAM_CONFIGURATIONS") data in
  if (n <? 4) || negb (n mod 4 =? 0) then false else check_configurations (quads (i32_of data)) false false.

Definition has_valid_stream_configurations (metadata : option positive) : MDb bool :=
  match metadata with
  | None => mret false
  | Some _ =>
      e ← find_entry metadata (K "ANDROID_SCALER_AVAILABLE_STREAM_CONFIGURATIONS");
      mret (from_option (fun e => valid_configurations e.2) false e)
  end.

(** [data] is the bytes of [entry_count] elements. *)
Definition put_entry (p : option positive) (tag : Z) (data : list Z) (existing : option nat) : MDb bool :=
  try_on p (fun b => match existing with
                     | Some i => update_camera_metadata_entry b i data
                     | None => add_camera_metadata_entry b tag data
                     end).

(** The result, and [*metadata_ptr]. *)
Definition upsert_metadata_entry (metadata : option positive) (tag : Z) (data : list Z) (entry_count : Z)
    (existing : option nat) : MDb (bool * option positive) :=
  ok ← put_entry metadata tag data existing;
  if ok : bool then mret (true, metadata)
  else match get_camera_metadata_tag_type tag with
       | None => mret (false, metadata)
       | Some ty =>
           m ← at_ptr metadata;
           expanded ← allocate_camera_metadata alloc_ok (get_camera_metadata_entry_count m + 4)
                        (get_camera_metadata_data_count m + (entry_count * type_size ty + 512));
           if bool_decide (expanded = None) then mret (false, metadata)
           else
             ok ← try_on expanded (fun b => append_camera_metadata b m);
             if negb ok then _ ← free_camera_metadata expanded; mret (false, metadata)
             else
               ok ← put_entry expanded tag data existing;
               if negb ok then _ ← free_camera_metadata expanded; mret (false, metadata)
               else _ ← free_camera_metadata metadata; mret (true, expanded)
       end.

(** ** Stream configurations *)

Definition min_duration_ns : Z := 33333334.
Definition jpeg_stall_ns : Z := 200000000.

(** One entry of the three arrays that are built side by side. *)
Definition synthesize (format stall : Z) (size : Z * Z) (s : list Z * list Z * list Z) : list Z * list Z * list Z :=
  let '(streams, mins, stalls) := s in
  (streams ++ [format; size.1; size.2; OUTPUT], mins ++ [format; size.1; size.2; min_duration_ns],
   stalls ++ [format; size.1; size.2; stall]).

Definition synthesize_processed (s : list Z * list Z * list Z) (size : Z * Z) : list Z * list Z * list Z :=
  if (size.1 <=? 0) || (size.2 <=? 0) then s
  else synthesize (K "HAL_PIXEL_FORMAT_YCbCr_420_888") 0 size
         (synthesize (K "HAL_PIXEL_FORMAT_IMPLEMENTATION_DEFINED") 0 size s).

Definition synthesize_jpeg (s : list Z * list Z * list Z) (size : Z * Z) : list Z * list Z * list Z :=
  if (size.1 <=? 0) || (size.2 <=? 0) then s else synthesize (K "HAL_PIXEL_FORMAT_BLOB") jpeg_stall_ns size s.

Definition synthesized (processed jpeg : list Z) : list Z * list Z * list Z :=
  foldl synthesize_jpeg (foldl synthesize_processed ([], [], []) (pairs processed)) (pairs jpeg).

Definition STREAMS : Z := K "ANDROID_SCALER_AVAILABLE_STREAM_CONFIGURATIONS".
Definition MIN_DURATIONS : Z := K "ANDROID_SCALER_AVAILABLE_MIN_FRAME_DURATIONS".
Definition STALL_DURATIONS : Z := K "ANDROID_SCALER_AVAILABLE_STALL_DURATIONS".
Definition PROCESSED_SIZES : Z := K "ANDROID_SCALER_AVAILABLE_PROCESSED_SIZES".
Definition JPEG_SIZES : Z := K "ANDROID_SCALER_AVAILABLE_JPEG_SIZES".

Definition keep_configurations (streams mins stalls : option (list Z)) : bool :=
  match streams, mins, stalls with
  | Some s, Some m, Some t =>
      (4 <=? count STREAMS s) && (count STREAMS s mod 4 =? 0) && (count MIN_DURATIONS m =? count STALL_DURATIONS t) &&
      (count MIN_DURATIONS m =? count STREAMS s) && valid_configurations s
  | _, _, _ => false
  end.

(** The sizes there are to synthesize from. *)
Definition usable_sizes (pd jd : list Z) : bool :=
  let pn := count PROCESSED_SIZES pd in
  let jn := count JPEG_SIZES jd in
  negb ((pn <? 2) || (jn <? 2) || negb (pn mod 2 =? 0) || negb (jn mod 2 =? 0)).

(** Writing past the end of an array is undefined. *)
Definition ensure_stream_configurations (metadata : option positive) : MDb (bool * option positive) :=
  match metadata with
  | None => mret (false, metadata)
  | Some _ =>
      streams ← find_entry metadata STREAMS;
      mins ← find_entry metadata MIN_DURATIONS;
      stalls ← find_entry metadata STALL_DURATIONS;
      if keep_configurations (snd <$> streams) (snd <$> mins) (snd <$> stalls) then mret (true, metadata)
      else
        processed ← find_entry metadata PROCESSED_SIZES;
        jpeg ← find_entry metadata JPEG_SIZES;
        match processed, jpeg with
        | Some (_, pd), Some (_, jd) =>
            if negb (usable_sizes pd jd) then mret (false, metadata)
            else
              let total := (count PROCESSED_SIZES pd / 2 * 2 + count JPEG_SIZES jd / 2) * 4 in
              if negb (calloc_ok (total * 4) && calloc_ok (total * 8)) then mret (false, metadata)
              else
                let '(s, m, t) := synthesized (i32_of pd) (i32_of jd) in
                if total <? zlen s then md_crash
                else if (zlen s <? 4) || negb (zlen s mod 4 =? 0) || negb (zlen m =? zlen s) then mret (false, metadata)
                else
                  '(added, metadata) ← upsert_metadata_entry metadata STREAMS (i32_bytes s) (zlen s) (fst <$> streams);
                  '(added, metadata) ← (if added : bool
                    then upsert_metadata_entry metadata MIN_DURATIONS (i64_bytes m) (zlen m) (fst <$> mins)
                    else mret (false, metadata));
                  '(added, metadata) ← (if added : bool
                    then upsert_metadata_entry metadata STALL_DURATIONS (i64_bytes t) (zlen t) (fst <$> stalls)
                    else mret (false, metadata));
                  if added : bool then ok ← has_valid_stream_configurations metadata; mret (ok, metadata)
                  else mret (false, metadata)
        | _, _ => mret (false, metadata)
        end
  end.

(** ** JPEG sizes *)

Definition positive_pairs (l : list (Z * Z)) : list Z :=
  mjoin ((fun p => if (p.1 <=? 0) || (p.2 <=? 0) then [] else [p.1; p.2]) <$> l).

Definition blob_sizes (l : list (Z * Z * Z * Z)) : list Z :=
  mjoin ((fun '(format, width, height, direction) =>
    if negb (format =? K "HAL_PIXEL_FORMAT_BLOB") || negb (direction =? OUTPUT) then []
    else if (width <=? 0) || (height <=? 0) then [] else [width; height]) <$> l).

Definition JPEG_MIN_DURATIONS : Z := K "ANDROID_SCALER_AVAILABLE_JPEG_MIN_DURATIONS".

(** The data, if it is whole groups of [n] elements; how many. *)
Definition whole (tag n : Z) (d : option (list Z)) : option (list Z) :=
  d ← d; if count tag d mod n =? 0 then Some d else None.
Definition groups (tag n : Z) (d : option (list Z)) : Z := from_option (fun d => count tag d / n) 0 d.

Definition jpeg_sizes (sizes configs : option (list Z)) : list Z :=
  let out := from_option (fun d => positive_pairs (pairs (i32_of d))) [] sizes in
  if zlen out =? 0 then from_option (fun d => blob_sizes (quads (i32_of d))) [] configs else out.

Definition ensure_jpeg_metadata (metadata : option positive) : MDb (bool * option positive) :=
  match metadata with
  | None => mret (false, metadata)
  | Some _ =>
      jpeg ← find_entry metadata JPEG_SIZES;
      streams ← find_entry metadata STREAMS;
      let sizes := whole JPEG_SIZES 2 (snd <$> jpeg) in
      let configs := whole STREAMS 4 (snd <$> streams) in
      let max_pairs := groups JPEG_SIZES 2 sizes + groups STREAMS 4 configs in
      if max_pairs =? 0 then mret (false, metadata)
      else if negb (calloc_ok (max_pairs * 2 * 4)) then mret (false, metadata)
      else
        let out := jpeg_sizes sizes configs in
        if max_pairs * 2 <? zlen out then md_crash
        else if (zlen out <? 2) || negb (zlen out mod 2 =? 0) then mret (false, metadata)
        else
          '(ok, metadata) ← upsert_metadata_entry metadata JPEG_SIZES (i32_bytes out) (zlen out) (fst <$> jpeg);
          if negb ok then mret (false, metadata)
          else
            durations ← find_entry metadata JPEG_MIN_DURATIONS;
            let expected := zlen out / 2 in
            if from_option (fun d => count JPEG_MIN_DURATIONS d =? expected) false (snd <$> durations) then mret (true, metadata)
            else if negb (calloc_ok (expected * 8)) then mret (false, metadata)
            else
              upsert_metadata_entry metadata JPEG_MIN_DURATIONS
                (i64_bytes (replicate (Z.to_nat expected) 200000000)) expected (fst <$> durations)
  end.

(** ** The other entries *)

Definition CAPABILITIES : Z := K "ANDROID_REQUEST_AVAILABLE_CAPABILITIES".

(** The array of the fallback is of [int32_t]; the tag's type tells how much is read. *)
Definition fallback_capabilities : list Z :=
  take (Z.to_nat (from_option type_size 1 (get_camera_metadata_tag_type CAPABILITIES)))
    (i32_bytes [K "ANDROID_REQUEST_AVAILABLE_CAPABILITIES_BACKWARD_COMPATIBLE"]).

Definition nonempty (tag : Z) (d : option (list Z)) : bool := from_option (fun d => 0 <? count tag d) false d.

Definition ensure_request_capabilities (metadata : option positive) : MDb (bool * option positive) :=
  match metadata with
  | None => mret (false, metadata)
  | Some _ =>
      capabilities ← find_entry metadata CAPABILITIES;
      if nonempty CAPABILITIES (snd <$> capabilities) then mret (true, metadata)
      else
        '(added, metadata) ← upsert_metadata_entry metadata CAPABILITIES fallback_capabilities 1 (fst <$> capabilities);
        if negb added then mret (false, metadata)
        else capabilities ← find_entry metadata CAPABILITIES; mret (nonempty CAPABILITIES (snd <$> capabilities), metadata)
  end.

Definition MAX_REGIONS : Z := K "ANDROID_CONTROL_MAX_REGIONS".
Definition AF_MODES : Z := K "ANDROID_CONTROL_AF_AVAILABLE_MODES".
Definition SCENE_OVERRIDES : Z := K "ANDROID_CONTROL_SCENE_MODE_OVERRIDES".

(** [delete_camera_metadata_entry], whose result is not looked at. *)
Definition delete_found (metadata : option positive) (e : option (nat * list Z)) : MDb unit :=
  match e with
  | Some (i, _) => _ ← try_on metadata (fun b => delete_camera_metadata_entry b i); mret tt
  | None => mret tt
  end.

Definition sanitized_regions (af max_regions : option (list Z)) : list Z :=
  let has_af := nonempty AF_MODES af in
  let af_off_only := from_option (forallb (fun m => m =? K "ANDROID_CONTROL_AF_MODE_OFF")) true af in
  let default := match max_regions with
                 | Some d => if 0 <? count MAX_REGIONS d then Z.max 0 (hd 0 (i32_of d)) else 0
                 | None => 0
                 end in
  [default; default; if has_af && negb af_off_only then default else 0].

Definition sanitize_control_regions_and_overrides (metadata : option positive) : MDb (bool * option positive) :=
  match metadata with
  | None => mret (false, metadata)
  | Some _ =>
      af ← find_entry metadata AF_MODES;
      max_regions ← find_entry metadata MAX_REGIONS;
      '(ok, metadata) ← (if from_option (fun d => count MAX_REGIONS d =? 3) false (snd <$> max_regions)
        then mret (true, metadata)
        else upsert_metadata_entry metadata MAX_REGIONS (i32_bytes (sanitized_regions (snd <$> af) (snd <$> max_regions))) 3 (fst <$> max_regions));
      if negb ok then mret (false, metadata)
      else
        overrides ← find_entry metadata SCENE_OVERRIDES;
        _ ← delete_found metadata (if nonempty SCENE_OVERRIDES (snd <$> overrides) then overrides else None);
        mret (true, metadata)
  end.

Definition HARDWARE_LEVEL : Z := K "ANDROID_INFO_SUPPORTED_HARDWARE_LEVEL".
Definition LEGACY : Z := K "ANDROID_INFO_SUPPORTED_HARDWARE_LEVEL_LEGACY".

Definition force_legacy_hardware_level (metadata : option positive) : MDb (bool * option positive) :=
  match metadata with
  | None => mret (false, metadata)
  | Some _ =>
      hw_level ← find_entry metadata HARDWARE_LEVEL;
      upsert_metadata_entry metadata HARDWARE_LEVEL [LEGACY mod 256] 1 (fst <$> hw_level)
  end.

Definition MAX_OUTPUTS : Z := K "ANDROID_REQUEST_MAX_NUM_OUTPUT_STREAMS".
Definition MAX_INPUTS : Z := K "ANDROID_REQUEST_MAX_NUM_INPUT_STREAMS".
Definition IO_FORMATS_MAP : Z := K "ANDROID_SCALER_AVAILABLE_INPUT_OUTPUT_FORMATS_MAP".

Definition force_legacy_request_limits (metadata : option positive) : MDb (bool * option positive) :=
  match metadata with
  | None => mret (false, metadata)
  | Some _ =>
      outputs ← find_entry metadata MAX_OUTPUTS;
      '(ok, metadata) ← upsert_metadata_entry metadata MAX_OUTPUTS (i32_bytes [0; 1; 1]) 3 (fst <$> outputs);
      if negb ok then mret (false, metadata)
      else
        inputs ← find_entry metadata MAX_INPUTS;
        '(ok, metadata) ← upsert_metadata_entry metadata MAX_INPUTS (i32_bytes [0]) 1 (fst <$> inputs);
        if negb ok then mret (false, metadata)
        else
          map ← find_entry metadata IO_FORMATS_MAP;
          _ ← delete_found metadata map;
          mret (true, metadata)
  end.

(** ** The module *)

Definition HIGH_SPEED : Z := K "ANDROID_CONTROL_AVAILABLE_HIGH_SPEED_VIDEO_CONFIGURATIONS".

(** The edits of a fresh copy; what they report is only logged. *)
Definition mend (metadata : option positive) : MDb (option positive) :=
  high_speed ← find_entry metadata HIGH_SPEED;
  _ ← delete_found metadata high_speed;
  '(_, metadata) ← ensure_jpeg_metadata metadata;
  '(_, metadata) ← ensure_stream_configurations metadata;
  '(_, metadata) ← ensure_request_capabilities metadata;
  '(_, metadata) ← sanitize_control_regions_and_overrides metadata;
  '(_, metadata) ← force_legacy_hardware_level metadata;
  '(_, metadata) ← force_legacy_request_limits metadata;
  _ ← has_valid_stream_configurations metadata;
  mret metadata.

(** What finding the vendor's module returns, and what its calls do: their result, and the
    structure if they write it. *)
Context (hw_get_module_by_class : Z) (vendor_number : Z) (vendor_info : Z -> Z * option camera_info).

Definition check_vendor_module (w : wrapper) : Z * wrapper :=
  if gVendorModule w then (0, w)
  else (hw_get_module_by_class, mk_wrapper (hw_get_module_by_class =? 0) (vendorInfo w) (vendor_camera_info w)).

Definition camera_get_number_of_cameras (w : wrapper) : Z * wrapper :=
  let '(rv, w) := check_vendor_module w in (if rv =? 0 then vendor_number else 0, w).

(** The result, what is written to [info] if anything is, and the wrapper.  An index out of
    [vendorInfo] is undefined. *)
Definition camera_get_camera_info (camera_id : Z) (w : wrapper) : MDb (Z * option camera_info * wrapper) :=
  let '(rv, w) := check_vendor_module w in
  if negb (rv =? 0) then mret (0, None, w)
  else
    let '(ret, written) := vendor_info camera_id in
    let v := default (vendor_camera_info w) written in
    let info p := mk_info (facing v) (orientation v) (normalize_camera_device_version (device_version v)) p in
    match zlookup (vendorInfo w) camera_id with
    | None => md_crash
    | Some (Some p) => mret (ret, Some (info (Some p)), mk_wrapper (gVendorModule w) (vendorInfo w) v)
    | Some None =>
        metadata ← clone_camera_metadata alloc_ok (static_camera_characteristics v);
        match metadata with
        | None => mret (ret, Some (info (static_camera_characteristics v)), mk_wrapper (gVendorModule w) (vendorInfo w) v)
        | Some _ =>
            metadata ← mend metadata;
            mret (ret, Some (info metadata),
                  mk_wrapper (gVendorModule w) (<[Z.to_nat camera_id := metadata]> (vendorInfo w)) v)
        end
    end.
End wrapper.
