(* ===== verification/CameraWrapperSpec.v ===== *)
(** * What the camera wrapper makes of the vendor's characteristics

    Each edit of [CameraWrapper] as a function on finite maps from tags to data, and the
    refinement: on a buffer with one entry per tag, the edit does to the buffer what the
    function does to the map, grows the buffer when it must, and leaves no other buffer
    behind. *)

From S2P Require Import Prelude.
From S2P Require Import MetadataLib.
From S2P Require Import CameraMetadata.
From S2P Require Import CameraWrapper.

(** The pointer's buffer has the entries [l]; the others are [R]. *)
Definition holds `{MetadataLib buf} (R : gmap positive buf) (l : list entry) (p : option positive) (h : md_heap buf) : Prop :=
  exists q b, p = Some q /\ bufs h !! q = Some b /\ delete q (bufs h) = R /\ entries_of b = l.

(** Where a tag's entry is, if there is one. *)
Definition at_index (l : list entry) (tag : Z) (ex : option nat) : Prop :=
  match ex with
  | Some i => exists d, l !! i = Some (mk_entry tag d)
  | None => tag ∉ e_tag <$> l
  end.

Definition upserted (l : list entry) (tag : Z) (data : list Z) (ex : option nat) : list entry :=
  match ex with
  | Some i => <[i := mk_entry tag data]> l
  | None => l ++ [mk_entry tag data]
  end.

Lemma upserted_map l tag data ex : NoDup (e_tag <$> l) -> at_index l tag ex ->
  cmap (upserted l tag data ex) = <[tag := data]> (cmap l) /\ NoDup (e_tag <$> upserted l tag data ex).
Proof.
  intros Hnd Hex. destruct ex as [i|]; cbn [upserted at_index] in *.
  - destruct Hex as [d Hi]. destruct (cmap_update l i tag d data Hnd Hi) as [Hm Ht]. by rewrite Ht.
  - split; [by apply cmap_snoc|]. rewrite fmap_app. apply NoDup_app. split_and!; [done| |apply NoDup_singleton].
    by intros x Hx ->%list_elem_of_singleton.
Qed.

(** The entries of other tags stay where they are. *)
Lemma upserted_index l tag data ex tag' ex' : tag' <> tag -> at_index l tag ex -> at_index l tag' ex' ->
  at_index (upserted l tag data ex) tag' ex'.
Proof.
  intros Hne Hex Hex'. destruct ex as [i|], ex' as [j|]; cbn [upserted at_index] in *.
  - destruct Hex as [d Hi], Hex' as [d' Hj]. exists d'. rewrite list_lookup_insert_ne; [done|]. intros ->. congruence.
  - destruct Hex as [d Hi]. intros Hin. apply Hex'. rewrite list_fmap_insert in Hin. cbn in Hin.
    rewrite list_insert_id in Hin; [done|]. by rewrite list_lookup_fmap, Hi.
  - destruct Hex' as [d' Hj]. exists d'. by apply lookup_app_l_Some.
  - rewrite fmap_app. intros [Hin|Hin]%elem_of_app; [done|]. by apply list_elem_of_singleton in Hin.
Qed.

(** ** Sizes of the arrays *)

Lemma length_pairs l : (2 * length (pairs l) <= length l)%nat.
Proof.
  revert l. fix IH 1. intros [|a [|b l]]; cbn [pairs length]; [lia|lia|]. pose proof (IH l). lia.
Qed.

Lemma length_quads l : (4 * length (quads l) <= length l)%nat.
Proof.
  revert l. fix IH 1. intros [|a [|b [|c [|d l]]]]; cbn [quads length]; [lia..|]. pose proof (IH l). lia.
Qed.

Lemma length_i32_of l : (4 * length (i32_of l) <= length l)%nat.
Proof.
  revert l. fix IH 1. intros [|a [|b [|c [|d l]]]]; cbn [i32_of length]; [lia..|]. pose proof (IH l). lia.
Qed.

(** Joining pieces of no or two elements. *)
Lemma zlen_pieces {A} (f : A -> list Z) (l : list A) : (forall x, f x = [] \/ zlen (f x) = 2) ->
  exists k, zlen (mjoin (f <$> l)) = 2 * k /\ 0 <= k <= zlen l.
Proof.
  intros Hf. induction l as [|x l (k & Hk & Hle)]; [exists 0; cbn; unfold zlen; cbn; lia|]. rewrite fmap_cons, zlen_cons.
  change (mjoin (?y :: ?ys)) with (y ++ mjoin ys). rewrite zlen_app, Hk.
  destruct (Hf x) as [-> | ->]; [exists k; rewrite zlen_nil; lia|exists (k + 1); lia].
Qed.

Lemma zlen_positive_pairs l : exists k, zlen (positive_pairs l) = 2 * k /\ 0 <= k <= zlen l.
Proof. apply zlen_pieces. intros [w h]. case_match; [by left|by right]. Qed.

Lemma zlen_blob_sizes cst l : exists k, zlen (blob_sizes cst l) = 2 * k /\ 0 <= k <= zlen l.
Proof. apply zlen_pieces. intros [[[f w] h] d]. repeat case_match; (by left) || by right. Qed.

Section refinement.
Context (cst : string -> Z) {buf : Type} {ML : MetadataLib buf} {LAWS : MetadataLaws buf}.
Context (alloc_ok : nat -> bool) (calloc_ok : Z -> bool).

#[local] Abbreviation K s := (cst s%string) (only parsing).

(** ** One entry *)

Lemma find_entry_spec R l p tag h (Q : option (nat * list Z) -> md_heap buf -> Prop) :
  holds R l p h -> NoDup (e_tag <$> l) ->
  (forall e, at_index l tag (fst <$> e) -> snd <$> e = cmap l !! tag -> Q e h) -> mdwp (find_entry p tag) Q h.
Proof.
  intros (q & b & -> & Hq & HR & Hl) Hnd HQ. apply mdwp_bind, (mdwp_at _ b); [done|]. apply mdwp_ret.
  destruct (find_camera_metadata_entry b tag) as [i|] eqn:Hf; cbn [mbind option_bind].
  - destruct (find_some _ _ _ Hf) as [d Hi]. rewrite Hi. cbn. rewrite Hl in Hi.
    apply HQ; [by exists d|]. cbn. by erewrite cmap_lookup.
  - apply find_none in Hf. unfold tags in Hf. rewrite Hl in Hf. apply HQ; [done|]. by rewrite cmap_none.
Qed.

Lemma put_entry_spec R l p tag ty data ex h (Q : bool -> md_heap buf -> Prop) :
  get_camera_metadata_tag_type tag = Some ty -> holds R l p h -> at_index l tag ex ->
  (forall h', holds R (upserted l tag data ex) p h' -> Q true h') -> Q false h ->
  mdwp (put_entry p tag data ex) Q h.
Proof.
  intros Hty (q & b & -> & Hq & HR & Hl) Hex HQ HF. apply (mdwp_try q b); [done|..]; [|done]. intros b' Hb'. apply HQ.
  exists q, b'. cbn. rewrite lookup_insert_eq, delete_insert_eq. split_and!; [done|done|done|].
  destruct ex as [i|]; cbn [upserted].
  - destruct Hex as [d Hi]. rewrite <- Hl in *. by destruct (update_some _ _ _ _ _ Hb' Hi) as [-> _].
  - destruct (add_some _ _ _ _ Hb') as [-> _]. by rewrite Hl.
Qed.

(** There is room for the entry in the larger buffer. *)
Lemma expanded_fits l b b' tag ty data n ex :
  get_camera_metadata_tag_type tag = Some ty -> zlen data = n * type_size ty -> entries_of b = l ->
  entries_of b' = l -> at_index l tag ex ->
  get_camera_metadata_entry_capacity b' = get_camera_metadata_entry_count b + 4 ->
  get_camera_metadata_data_capacity b' = get_camera_metadata_data_count b + (n * type_size ty + 512) ->
  is_Some (match ex with Some i => update_camera_metadata_entry b' i data | None => add_camera_metadata_entry b' tag data end).
Proof.
  intros Hty Hlen Hb Hb' Hex Hcap Hdcap.
  assert (Hc : get_camera_metadata_entry_count b' = get_camera_metadata_entry_count b /\
    get_camera_metadata_data_count b' = get_camera_metadata_data_count b).
  { unfold get_camera_metadata_entry_count, get_camera_metadata_data_count. by rewrite Hb, Hb'. }
  destruct Hc as [Hc Hd].
  assert (Hsize : calculate_camera_metadata_entry_data_size (zlen data) <= zlen data + 7).
  { pose proof (zlen_nonneg data). destruct (Z.le_gt_cases (zlen data) 4); [rewrite data_size_inline by lia; lia|].
    rewrite data_size_aligned by lia. pose proof (Z.mul_div_le (zlen data + 7) 8 ltac:(lia)). lia. }
  destruct ex as [i|]; cbn [at_index] in Hex.
  - destruct Hex as [d Hi]. apply (update_fits b' i data (mk_entry tag d)); [by rewrite Hb'|]. unfold room. lia.
  - apply add_iff. split; [congruence|]. unfold room. lia.
Qed.

(** The entry is put; or the buffer is as it was, and an allocation failed. *)
Lemma upsert_spec R l p tag ty data n ex h (Q : bool * option positive -> md_heap buf -> Prop) :
  get_camera_metadata_tag_type tag = Some ty -> zlen data = n * type_size ty -> holds R l p h -> at_index l tag ex ->
  (forall p' h', holds R (upserted l tag data ex) p' h' -> Q (true, p') h') ->
  (forall h' k, alloc_ok k = false -> holds R l p h' -> Q (false, p) h') ->
  mdwp (upsert_metadata_entry alloc_ok p tag data n ex) Q h.
Proof.
  intros Hty Hlen Hh Hex HQ HF. apply mdwp_bind. eapply put_entry_spec; [exact Hty|exact Hh|exact Hex|..].
  { intros h' Hh'. by apply mdwp_ret, HQ. }
  rewrite Hty. destruct Hh as (q & b & -> & Hq & HR & Hl). apply mdwp_bind, (mdwp_at _ b); [done|].
  pose proof (zlen_nonneg (entries_of b)). pose proof (data_count_nonneg b). pose proof (zlen_nonneg data).
  fold (get_camera_metadata_entry_count b) in *. set (ecap := _ + 4). set (dcap := _ + (_ + 512)).
  apply mdwp_bind, mdwp_new.
  2:{ intros Ha. apply mdwp_ret, (HF _ _ Ha). exists q, b. done. }
  intros q' Hq'. rewrite bool_decide_eq_false_2 by done. assert (Hqq : q' <> q) by congruence.
  destruct (empty_is ecap dcap) as (He1 & He2 & He3); [unfold ecap; lia|unfold dcap; lia|].
  apply mdwp_bind, (mdwp_try q' (empty_buffer ecap dcap)); [cbn; by rewrite lookup_insert_eq|..].
  2:{ intros Hno. destruct (append_fits (empty_buffer ecap dcap) b) as [? Hs]; [|congruence]. unfold room.
      unfold get_camera_metadata_entry_count at 1, get_camera_metadata_data_count at 1. rewrite He1, He2, He3, zlen_nil.
      unfold ecap, dcap. cbn. lia. }
  intros b1 Hb1. apply append_some in Hb1 as [Hb1 [Hc1 Hc2]]. rewrite He1 in Hb1. rewrite He2 in Hc1. rewrite He3 in Hc2.
  cbn [negb app] in *.
  destruct (expanded_fits l b b1 tag ty data n ex) as [b2 Hb2]; [done|done|done|congruence|done|done|done|].
  apply mdwp_bind. unfold put_entry. apply (mdwp_try q' b1); [cbn; by rewrite lookup_insert_eq|..]; [|by rewrite Hb2].
  intros b3 Hb3. cbn [negb]. apply mdwp_bind, (mdwp_free q b); [cbn; by rewrite !lookup_insert_ne|]. apply mdwp_ret, HQ.
  exists q', b3. cbn. rewrite lookup_delete_ne, !insert_insert_eq, lookup_insert_eq by done. split_and!; [done|done| |].
  - rewrite delete_delete, delete_insert_id by done. exact HR.
  - destruct ex as [i|]; cbn [upserted].
    + destruct Hex as [d Hi]. destruct (update_some b1 i data b3 (mk_entry tag d) Hb3) as [-> _]; [by rewrite Hb1, Hl|].
      by rewrite Hb1, Hl.
    + destruct (add_some _ _ _ _ Hb3) as [-> _]. by rewrite Hb1, Hl.
Qed.

(** Removing an entry. *)
Lemma delete_found_spec R l p tag e h (Q : unit -> md_heap buf -> Prop) :
  holds R l p h -> NoDup (e_tag <$> l) -> at_index l tag (fst <$> e) ->
  (forall l' h', holds R l' p h' -> NoDup (e_tag <$> l') -> cmap l' = delete tag (cmap l) -> Q tt h') ->
  mdwp (delete_found p e) Q h.
Proof.
  intros Hh Hnd Hex HQ. destruct e as [[i d]|]; cbn [delete_found fmap option_fmap option_map at_index fst] in *.
  - destruct Hex as [d' Hi]. destruct Hh as (q & b & -> & Hq & HR & Hl).
    destruct (cmap_delete l i tag d' Hnd Hi) as [Hm Hnd'].
    destruct (delete_is b i) as (b' & Hb' & He & _); [rewrite Hl; by eapply lookup_lt_Some|].
    apply mdwp_bind, (mdwp_try q b); [done|..]; [|congruence]. intros b2 Hb2. apply mdwp_ret, (HQ (delete i l)); [|done|done].
    exists q, b2. cbn. rewrite lookup_insert_eq, delete_insert_eq. split_and!; [done..|]. by simplify_eq.
  - apply mdwp_ret, (HQ l); [done|done|]. by rewrite delete_id by by apply cmap_none.
Qed.
(** ** The edits on maps *)

Definition jpeg_spec (M : gmap Z (list Z)) : bool * gmap Z (list Z) :=
  let sizes := whole (JPEG_SIZES cst) 2 (M !! JPEG_SIZES cst) in
  let configs := whole (STREAMS cst) 4 (M !! STREAMS cst) in
  let out := jpeg_sizes cst sizes configs in
  if (groups (JPEG_SIZES cst) 2 sizes + groups (STREAMS cst) 4 configs =? 0) || (zlen out <? 2) then (false, M)
  else
    let M := <[JPEG_SIZES cst := i32_bytes out]> M in
    let n := zlen out / 2 in
    (true, if from_option (fun d => count (JPEG_MIN_DURATIONS cst) d =? n) false (M !! JPEG_MIN_DURATIONS cst) then M
           else <[JPEG_MIN_DURATIONS cst := i64_bytes (replicate (Z.to_nat n) 200000000)]> M).

Definition streams_spec (M : gmap Z (list Z)) : bool * gmap Z (list Z) :=
  if keep_configurations cst (M !! STREAMS cst) (M !! MIN_DURATIONS cst) (M !! STALL_DURATIONS cst) then (true, M)
  else match M !! PROCESSED_SIZES cst, M !! JPEG_SIZES cst with
       | Some pd, Some jd =>
           let '(s, m, t) := synthesized cst (i32_of pd) (i32_of jd) in
           if negb (usable_sizes cst pd jd) || (zlen s <? 4) then (false, M)
           else (valid_configurations cst (i32_bytes s),
                 <[STALL_DURATIONS cst := i64_bytes t]> (<[MIN_DURATIONS cst := i64_bytes m]> (<[STREAMS cst := i32_bytes s]> M)))
       | _, _ => (false, M)
       end.

Definition capabilities_spec (M : gmap Z (list Z)) : gmap Z (list Z) :=
  if nonempty (CAPABILITIES cst) (M !! CAPABILITIES cst) then M
  else <[CAPABILITIES cst := fallback_capabilities cst]> M.

Definition with_regions (M : gmap Z (list Z)) : gmap Z (list Z) :=
  if from_option (fun d => count (MAX_REGIONS cst) d =? 3) false (M !! MAX_REGIONS cst) then M
  else <[MAX_REGIONS cst := i32_bytes (sanitized_regions cst (M !! AF_MODES cst) (M !! MAX_REGIONS cst))]> M.

Definition without_overrides (M : gmap Z (list Z)) : gmap Z (list Z) :=
  if nonempty (SCENE_OVERRIDES cst) (M !! SCENE_OVERRIDES cst) then delete (SCENE_OVERRIDES cst) M else M.

Definition regions_spec (M : gmap Z (list Z)) : gmap Z (list Z) := without_overrides (with_regions M).

Definition level_spec (M : gmap Z (list Z)) : gmap Z (list Z) := <[HARDWARE_LEVEL cst := [LEGACY cst mod 256]]> M.

Definition limits_spec (M : gmap Z (list Z)) : gmap Z (list Z) :=
  delete (IO_FORMATS_MAP cst) (<[MAX_INPUTS cst := i32_bytes [0]]> (<[MAX_OUTPUTS cst := i32_bytes [0; 1; 1]]> M)).

Definition mend_spec (M : gmap Z (list Z)) : gmap Z (list Z) :=
  limits_spec (level_spec (regions_spec (capabilities_spec (streams_spec (jpeg_spec (delete (HIGH_SPEED cst) M)).2).2))).

(** The documented types of the tags the wrapper writes. *)
Definition wrapper_tags : Prop := Forall (fun p => get_camera_metadata_tag_type p.1 = Some p.2)
  [(STREAMS cst, TYPE_INT32); (MIN_DURATIONS cst, TYPE_INT64); (STALL_DURATIONS cst, TYPE_INT64);
   (PROCESSED_SIZES cst, TYPE_INT32); (JPEG_SIZES cst, TYPE_INT32); (JPEG_MIN_DURATIONS cst, TYPE_INT64);
   (CAPABILITIES cst, TYPE_BYTE); (MAX_REGIONS cst, TYPE_INT32); (HARDWARE_LEVEL cst, TYPE_BYTE);
   (MAX_OUTPUTS cst, TYPE_INT32); (MAX_INPUTS cst, TYPE_INT32)].

(** They have different numbers. *)
Definition wrapper_distinct : Prop := NoDup
  [STREAMS cst; MIN_DURATIONS cst; STALL_DURATIONS cst; PROCESSED_SIZES cst; JPEG_SIZES cst; JPEG_MIN_DURATIONS cst;
   CAPABILITIES cst; MAX_REGIONS cst; HARDWARE_LEVEL cst; MAX_OUTPUTS cst; MAX_INPUTS cst; HIGH_SPEED cst;
   SCENE_OVERRIDES cst; IO_FORMATS_MAP cst; AF_MODES cst].

Context (Htypes : wrapper_tags) (Hdist : wrapper_distinct).
Context (Halloc : forall n, alloc_ok n = true) (Hcalloc : forall n, calloc_ok n = true).

Definition owned (R : gmap positive buf) (M : gmap Z (list Z)) (p : option positive) (h : md_heap buf) : Prop :=
  exists l, holds R l p h /\ NoDup (e_tag <$> l) /\ cmap l = M.

Lemma tag_typed tag ty : (tag, ty) ∈ [(STREAMS cst, TYPE_INT32); (MIN_DURATIONS cst, TYPE_INT64); (STALL_DURATIONS cst, TYPE_INT64);
   (PROCESSED_SIZES cst, TYPE_INT32); (JPEG_SIZES cst, TYPE_INT32); (JPEG_MIN_DURATIONS cst, TYPE_INT64);
   (CAPABILITIES cst, TYPE_BYTE); (MAX_REGIONS cst, TYPE_INT32); (HARDWARE_LEVEL cst, TYPE_BYTE);
   (MAX_OUTPUTS cst, TYPE_INT32); (MAX_INPUTS cst, TYPE_INT32)] -> get_camera_metadata_tag_type tag = Some ty.
Proof. intros Hin. unfold wrapper_tags in Htypes. rewrite Forall_forall in Htypes. by apply (Htypes (tag, ty)). Qed.

Ltac tag_type := apply tag_typed; repeat (first [apply list_elem_of_here | apply list_elem_of_further]).

Lemma upsert_owned R l p tag ty data n ex h (Q : bool * option positive -> md_heap buf -> Prop) :
  get_camera_metadata_tag_type tag = Some ty -> zlen data = n * type_size ty -> holds R l p h -> at_index l tag ex ->
  NoDup (e_tag <$> l) ->
  (forall p' h', holds R (upserted l tag data ex) p' h' -> NoDup (e_tag <$> upserted l tag data ex) ->
    cmap (upserted l tag data ex) = <[tag := data]> (cmap l) -> Q (true, p') h') ->
  mdwp (upsert_metadata_entry alloc_ok p tag data n ex) Q h.
Proof.
  intros Hty Hlen Hh Hex Hnd HQ. destruct (upserted_map l tag data ex Hnd Hex) as [Hm Hnd'].
  eapply upsert_spec; [exact Hty|exact Hlen|exact Hh|exact Hex|..]; [by eauto|]. intros h' k Hk. by rewrite Halloc in Hk.
Qed.

Lemma level_refines R M p h : owned R M p h ->
  mdwp (force_legacy_hardware_level cst alloc_ok p) (fun x h' => owned R (level_spec M) x.2 h') h.
Proof.
  intros (l & Hh & Hnd & <-). assert (Hp := Hh). destruct Hp as (q & b & -> & _). cbn [force_legacy_hardware_level].
  apply mdwp_bind. eapply find_entry_spec; [exact Hh|exact Hnd|]. intros e Hex _.
  eapply upsert_owned; [tag_type|done|exact Hh|exact Hex|exact Hnd|]. intros p' h' Hh' Hnd' Hm. by eexists.
Qed.

Lemma limits_refines R M p h : owned R M p h ->
  mdwp (force_legacy_request_limits cst alloc_ok p) (fun x h' => owned R (limits_spec M) x.2 h') h.
Proof.
  intros (l & Hh & Hnd & <-). assert (Hp := Hh). destruct Hp as (q & b & -> & _). cbn [force_legacy_request_limits].
  apply mdwp_bind. eapply find_entry_spec; [exact Hh|exact Hnd|]. intros e Hex _. apply mdwp_bind.
  eapply upsert_owned; [tag_type|by rewrite zlen_i32_bytes|exact Hh|exact Hex|exact Hnd|]. intros p1 h1 Hh1 Hnd1 Hm1.
  cbn [negb]. apply mdwp_bind. eapply find_entry_spec; [exact Hh1|exact Hnd1|]. intros e1 Hex1 _. apply mdwp_bind.
  eapply upsert_owned; [tag_type|by rewrite zlen_i32_bytes|exact Hh1|exact Hex1|exact Hnd1|]. intros p2 h2 Hh2 Hnd2 Hm2.
  cbn [negb]. apply mdwp_bind. eapply find_entry_spec; [exact Hh2|exact Hnd2|]. intros e2 Hex2 _. apply mdwp_bind.
  eapply delete_found_spec; [exact Hh2|exact Hnd2|exact Hex2|]. intros l3 h3 Hh3 Hnd3 Hm3. apply mdwp_ret. cbn.
  exists l3. split_and!; [done|done|]. unfold limits_spec. by rewrite Hm3, Hm2, Hm1.
Qed.
Lemma capabilities_refines R M p h : owned R M p h ->
  mdwp (ensure_request_capabilities cst alloc_ok p) (fun x h' => owned R (capabilities_spec M) x.2 h') h.
Proof.
  intros (l & Hh & Hnd & <-). assert (Hp := Hh). destruct Hp as (q & b & -> & _). cbn [ensure_request_capabilities].
  apply mdwp_bind. eapply find_entry_spec; [exact Hh|exact Hnd|]. intros e Hex He. unfold capabilities_spec.
  fold (CAPABILITIES cst) in *. rewrite He. destruct (nonempty _ _); [by apply mdwp_ret; exists l|].
  assert (Hty : get_camera_metadata_tag_type (CAPABILITIES cst) = Some TYPE_BYTE) by tag_type.
  apply mdwp_bind. eapply upsert_owned; [exact Hty| |exact Hh|exact Hex|exact Hnd|].
  { unfold fallback_capabilities. by rewrite Hty. }
  intros p' h' Hh' Hnd' Hm. cbn [negb]. apply mdwp_bind. eapply find_entry_spec; [exact Hh'|exact Hnd'|].
  intros e' _ _. apply mdwp_ret. by eexists.
Qed.

Lemma regions_refines R M p h : owned R M p h ->
  mdwp (sanitize_control_regions_and_overrides cst alloc_ok p) (fun x h' => owned R (regions_spec M) x.2 h') h.
Proof.
  intros (l & Hh & Hnd & <-). assert (Hp := Hh). destruct Hp as (q & b & -> & _).
  cbn [sanitize_control_regions_and_overrides].
  apply mdwp_bind. eapply find_entry_spec; [exact Hh|exact Hnd|]. intros ea _ Ha.
  apply mdwp_bind. eapply find_entry_spec; [exact Hh|exact Hnd|]. intros em Hex Hm. rewrite Ha, Hm.
  assert (Hrest : forall p1 h1 l1, holds R l1 p1 h1 -> NoDup (e_tag <$> l1) -> cmap l1 = with_regions (cmap l) ->
    mdwp (overrides ← find_entry p1 (SCENE_OVERRIDES cst);
          _ ← delete_found p1 (if nonempty (SCENE_OVERRIDES cst) (snd <$> overrides) then overrides else None);
          mret (true, p1)) (fun x h' => owned R (regions_spec (cmap l)) x.2 h') h1).
  { intros p1 h1 l1 Hh1 Hnd1 Hm1. apply mdwp_bind. eapply find_entry_spec; [exact Hh1|exact Hnd1|]. intros eo Hexo Ho.
    rewrite Ho, Hm1. unfold regions_spec, without_overrides. apply mdwp_bind. destruct (nonempty _ _).
    - eapply delete_found_spec; [exact Hh1|exact Hnd1|exact Hexo|]. intros l2 h2 Hh2 Hnd2 Hm2. apply mdwp_ret.
      exists l2. by rewrite Hm2, Hm1.
    - apply mdwp_ret. apply mdwp_ret. by exists l1. }
  apply mdwp_bind. revert Hrest. unfold with_regions. destruct (from_option _ false (cmap l !! MAX_REGIONS cst)); intros Hrest.
  - apply mdwp_ret. cbn [negb]. by apply Hrest with l.
  - eapply upsert_owned; [tag_type|by rewrite zlen_i32_bytes|exact Hh|exact Hex|exact Hnd|]. intros p1 h1 Hh1 Hnd1 Hm1.
    cbn [negb]. by eapply Hrest.
Qed.
Lemma count_i32 tag d : get_camera_metadata_tag_type tag = Some TYPE_INT32 -> count tag d = zlen d / 4.
Proof. intros Ht. unfold count. by rewrite Ht. Qed.

(** What is gathered fits the array that was allocated for it. *)
Lemma jpeg_sizes_fit sizes configs :
  exists k, zlen (jpeg_sizes cst (whole (JPEG_SIZES cst) 2 sizes) (whole (STREAMS cst) 4 configs)) = 2 * k /\
    0 <= k <= groups (JPEG_SIZES cst) 2 (whole (JPEG_SIZES cst) 2 sizes) + groups (STREAMS cst) 4 (whole (STREAMS cst) 4 configs).
Proof.
  assert (Hg : forall tag n d, get_camera_metadata_tag_type tag = Some TYPE_INT32 -> 0 < n ->
    0 <= groups tag n (whole tag n d) /\ forall d', whole tag n d = Some d' -> groups tag n (whole tag n d) = zlen d' / 4 / n).
  { intros tag n d Ht Hn. unfold groups. destruct (whole tag n d) as [d'|] eqn:Hw; cbn [from_option]; [|by split].
    rewrite count_i32 by done. split; [|by intros d2 [= ->]]. pose proof (zlen_nonneg d'). by repeat apply Z.div_pos. }
  destruct (Hg (JPEG_SIZES cst) 2 sizes) as [Hj Hj']; [tag_type|done|].
  destruct (Hg (STREAMS cst) 4 configs) as [Hs Hs']; [tag_type|done|]. clear Hg. unfold jpeg_sizes.
  assert (H1 : exists k, zlen (from_option (fun d => positive_pairs (pairs (i32_of d))) [] (whole (JPEG_SIZES cst) 2 sizes)) = 2 * k /\
    0 <= k <= groups (JPEG_SIZES cst) 2 (whole (JPEG_SIZES cst) 2 sizes)).
  { destruct (whole (JPEG_SIZES cst) 2 sizes) as [d|] eqn:Hw; cbn [from_option].
    2:{ exists 0. rewrite zlen_nil. cbn. lia. }
    destruct (zlen_positive_pairs (pairs (i32_of d))) as (k & Hk & Hle). exists k. split; [done|].
    rewrite (Hj' d) by done. pose proof (length_pairs (i32_of d)). pose proof (length_i32_of d).
    rewrite Z.div_div by done. split; [lia|]. apply Z.div_le_lower_bound; [done|]. unfold zlen in *. lia. }
  destruct H1 as (k & Hk & Hle). rewrite Hk. destruct (2 * k =? 0) eqn:Hz; [|exists k; breflect; lia].
  destruct (whole (STREAMS cst) 4 configs) as [d|] eqn:Hw; cbn [from_option].
  2:{ exists 0. rewrite zlen_nil. lia. }
  destruct (zlen_blob_sizes cst (quads (i32_of d))) as (k' & Hk' & Hle'). exists k'. split; [done|].
  rewrite (Hs' d) by done. pose proof (length_quads (i32_of d)). pose proof (length_i32_of d).
  rewrite Z.div_div by done. assert (k' <= zlen d / (4 * 4)); [|lia]. apply Z.div_le_lower_bound; [done|]. unfold zlen in *. lia.
Qed.

Lemma jpeg_refines R M p h : owned R M p h ->
  mdwp (ensure_jpeg_metadata cst alloc_ok calloc_ok p)
    (fun x h' => x.1 = (jpeg_spec M).1 /\ owned R (jpeg_spec M).2 x.2 h') h.
Proof.
  intros (l & Hh & Hnd & <-). assert (Hp := Hh). destruct Hp as (q & b & -> & _). cbn [ensure_jpeg_metadata].
  apply mdwp_bind. eapply find_entry_spec; [exact Hh|exact Hnd|]. intros ej Hexj Hj.
  apply mdwp_bind. eapply find_entry_spec; [exact Hh|exact Hnd|]. intros es _ Hs. rewrite Hj, Hs.
  fold (STREAMS cst) (JPEG_SIZES cst) in *. rewrite Hcalloc. unfold jpeg_spec.
  destruct (jpeg_sizes_fit (cmap l !! JPEG_SIZES cst) (cmap l !! STREAMS cst)) as (k & Hk & Hle).
  assert (Hno : owned R (cmap l) (Some q) h) by by exists l.
  set (g := groups _ _ _ + groups _ _ _) in *. set (out := jpeg_sizes _ _ _) in *. clearbody g out.
  destruct (g =? 0); [by apply mdwp_ret|]. cbn [negb orb].
  rewrite (proj2 (Z.ltb_ge (g * 2) (zlen out))) by lia.
  replace (zlen out mod 2) with 0 by (rewrite Hk, Z.mul_comm, Z.mod_mul; done). cbn [Z.eqb negb]. rewrite orb_false_r.
  destruct (zlen out <? 2); [by apply mdwp_ret|].
  apply mdwp_bind. eapply upsert_owned; [tag_type|by rewrite zlen_i32_bytes, Z.mul_comm|exact Hh|exact Hexj|exact Hnd|].
  intros p1 h1 Hh1 Hnd1 Hm1. cbn [negb]. apply mdwp_bind. eapply find_entry_spec; [exact Hh1|exact Hnd1|]. intros ed Hexd Hd.
  rewrite Hd, Hm1, Hcalloc. cbn zeta.
  destruct (from_option (fun d => count (JPEG_MIN_DURATIONS cst) d =? zlen out / 2) false _); cbn [fst snd].
  - apply mdwp_ret. split; [done|]. by eexists.
  - cbn [negb]. eapply upsert_owned; [tag_type| |exact Hh1|exact Hexd|exact Hnd1|].
    { rewrite zlen_i64_bytes. unfold zlen at 1. rewrite length_replicate, Z2Nat.id by (apply Z.div_pos; lia). apply Z.mul_comm. }
    intros p2 h2 Hh2 Hnd2 Hm2. split; [done|]. eexists. split_and!; [done|done|]. by rewrite Hm2, Hm1.
Qed.
(** The three arrays have the same length, and stay within what was allocated. *)
Lemma synthesized_sizes pd jd : forall s m t, synthesized cst pd jd = (s, m, t) ->
  exists k, zlen s = 4 * k /\ zlen m = 4 * k /\ zlen t = 4 * k /\ 0 <= k <= 2 * zlen (pairs pd) + zlen (pairs jd).
Proof.
  pose (ok (n : Z) (x : list Z * list Z * list Z) := exists k, zlen x.1.1 = 4 * k /\ zlen x.1.2 = 4 * k /\ zlen x.2 = 4 * k /\ 0 <= k <= n).
  assert (Hstep : forall n f st size x, ok n x -> ok (n + 1) (synthesize cst f st size x)).
  { intros n f st size [[s m] t] (k & H1 & H2 & H3 & H4). exists (k + 1). cbn [synthesize fst snd] in *.
    rewrite !zlen_app, H1, H2, H3, !zlen_cons, zlen_nil. lia. }
  assert (Hmono : forall n n' x, n <= n' -> ok n x -> ok n' x).
  { intros n n' x Hle (k & H1 & H2 & H3 & H4). exists k. split_and!; (done || lia). }
  assert (Hp : forall l n x, ok n x -> ok (n + 2 * zlen l) (foldl (synthesize_processed cst) x l)).
  { induction l as [|[w h] l IH]; intros n x Hx; [replace (n + _) with n by (unfold zlen; cbn; lia); done|]. cbn [foldl]. rewrite zlen_cons.
    replace (n + _) with (n + 2 + 2 * zlen l) by lia. apply IH. unfold synthesize_processed. case_match; [by apply (Hmono n); [lia|]|].
    replace (n + 2) with (n + 1 + 1) by lia. by repeat apply Hstep. }
  assert (Hj : forall l n x, ok n x -> ok (n + zlen l) (foldl (synthesize_jpeg cst) x l)).
  { induction l as [|[w h] l IH]; intros n x Hx; [replace (n + _) with n by (unfold zlen; cbn; lia); done|]. cbn [foldl]. rewrite zlen_cons.
    replace (n + _) with (n + 1 + zlen l) by lia. apply IH. unfold synthesize_jpeg. case_match; [by apply (Hmono n); [lia|]|].
    by apply Hstep. }
  intros s m t Hs. assert (Hok : ok (0 + 2 * zlen (pairs pd) + zlen (pairs jd)) (s, m, t)); [|exact Hok].
  rewrite <- Hs. apply Hj, Hp. exists 0. cbn. unfold zlen. cbn. lia.
Qed.

Lemma synthesized_fit pd jd s m t : synthesized cst (i32_of pd) (i32_of jd) = (s, m, t) -> exists k,
  zlen s = 4 * k /\ zlen m = zlen s /\ zlen t = zlen s /\
  zlen s <= (count (PROCESSED_SIZES cst) pd / 2 * 2 + count (JPEG_SIZES cst) jd / 2) * 4.
Proof.
  intros Hs. destruct (synthesized_sizes _ _ _ _ _ Hs) as (k & H1 & H2 & H3 & H4). exists k.
  split_and!; [lia..|]. rewrite !count_i32 by tag_type. rewrite !Z.div_div by done.
  assert (Hb : forall d, zlen (pairs (i32_of d)) <= zlen d / (4 * 2)).
  { intros d. pose proof (length_pairs (i32_of d)). pose proof (length_i32_of d). apply Z.div_le_lower_bound; [done|].
    unfold zlen in *. lia. }
  pose proof (Hb pd). pose proof (Hb jd). lia.
Qed.

Lemma streams_refines R M p h : owned R M p h ->
  mdwp (ensure_stream_configurations cst alloc_ok calloc_ok p)
    (fun x h' => x.1 = (streams_spec M).1 /\ owned R (streams_spec M).2 x.2 h') h.
Proof.
  intros (l & Hh & Hnd & <-). assert (Hp := Hh). destruct Hp as (q & b & -> & _). cbn [ensure_stream_configurations].
  assert (Hno : owned R (cmap l) (Some q) h) by by exists l.
  apply mdwp_bind. eapply find_entry_spec; [exact Hh|exact Hnd|]. intros es Hexs Hs.
  apply mdwp_bind. eapply find_entry_spec; [exact Hh|exact Hnd|]. intros em Hexm Hm.
  apply mdwp_bind. eapply find_entry_spec; [exact Hh|exact Hnd|]. intros et Hext Ht. rewrite Hs, Hm, Ht.
  unfold streams_spec. destruct (keep_configurations _ _ _ _); [by apply mdwp_ret|].
  apply mdwp_bind. eapply find_entry_spec; [exact Hh|exact Hnd|]. intros ep _ Hpd.
  apply mdwp_bind. eapply find_entry_spec; [exact Hh|exact Hnd|]. intros ej _ Hjd. rewrite <- Hpd, <- Hjd.
  destruct ep as [[ip pd]|], ej as [[ij jd]|]; cbn [fmap option_fmap option_map snd]; try (by apply mdwp_ret).
  destruct (synthesized _ _ _) as [[s m] t] eqn:Hsyn. destruct (synthesized_fit _ _ _ _ _ Hsyn) as (k & Hk & Hmk & Htk & Hle).
  destruct (usable_sizes _ _ _); cbn [negb orb]; [|by apply mdwp_ret]. rewrite !Hcalloc. cbn [andb negb].
  rewrite (proj2 (Z.ltb_ge _ (zlen s))) by exact Hle. rewrite Hmk, Z.eqb_refl.
  replace (zlen s mod 4) with 0 by (rewrite Hk, Z.mul_comm, Z.mod_mul; done). cbn [Z.eqb negb]. rewrite !orb_false_r.
  destruct (zlen s <? 4); [by apply mdwp_ret|].
  assert (Hd : STREAMS cst <> MIN_DURATIONS cst /\ STREAMS cst <> STALL_DURATIONS cst /\ MIN_DURATIONS cst <> STALL_DURATIONS cst).
  { unfold wrapper_distinct in Hdist. repeat rewrite NoDup_cons in Hdist. set_solver. }
  destruct Hd as (Hd1 & Hd2 & Hd3).
  apply mdwp_bind. eapply upsert_owned; [tag_type|by rewrite zlen_i32_bytes, Z.mul_comm|exact Hh|exact Hexs|exact Hnd|].
  intros p1 h1 Hh1 Hnd1 Hm1. apply mdwp_bind.
  eapply upsert_owned; [tag_type|by rewrite zlen_i64_bytes, Z.mul_comm, Hmk|exact Hh1|by eapply upserted_index|exact Hnd1|].
  intros p2 h2 Hh2 Hnd2 Hm2. apply mdwp_bind.
  eapply upsert_owned; [tag_type|by rewrite zlen_i64_bytes, Z.mul_comm|exact Hh2| |exact Hnd2|].
  { eapply upserted_index; [done|..]; by eapply upserted_index. }
  intros p3 h3 Hh3 Hnd3 Hm3. rewrite Hm2, Hm1 in Hm3. apply mdwp_bind.
  assert (Hp := Hh3). destruct Hp as (q3 & b3 & -> & _). cbn [has_valid_stream_configurations].
  apply mdwp_bind. eapply find_entry_spec; [exact Hh3|exact Hnd3|]. intros e _ He.
  rewrite Hm3, !lookup_insert_ne, lookup_insert_eq in He by done. destruct e as [[i d]|]; [|done]. injection He as ->.
  repeat apply mdwp_ret. split; [done|]. by eexists.
Qed.

Lemma mend_refines R M p h : owned R M p h ->
  mdwp (mend cst alloc_ok calloc_ok p) (fun x h' => owned R (mend_spec M) x h') h.
Proof.
  intros (l & Hh & Hnd & <-). apply mdwp_bind. eapply find_entry_spec; [exact Hh|exact Hnd|]. intros e Hex _.
  apply mdwp_bind. eapply delete_found_spec; [exact Hh|exact Hnd|exact Hex|]. intros l1 h1 Hh1 Hnd1 Hm1.
  assert (H1 : owned R (delete (HIGH_SPEED cst) (cmap l)) p h1) by by exists l1.
  apply mdwp_bind. eapply mdwp_mono; [by apply jpeg_refines|]. intros [r2 p2] h2 [_ H2].
  apply mdwp_bind. eapply mdwp_mono; [by apply streams_refines|]. intros [r3 p3] h3 [_ H3].
  apply mdwp_bind. eapply mdwp_mono; [by apply capabilities_refines|]. intros [r4 p4] h4 H4.
  apply mdwp_bind. eapply mdwp_mono; [by apply regions_refines|]. intros [r5 p5] h5 H5.
  apply mdwp_bind. eapply mdwp_mono; [by apply level_refines|]. intros [r6 p6] h6 H6.
  apply mdwp_bind. eapply mdwp_mono; [by apply limits_refines|]. intros [r7 p7] h7 H7. cbn [snd] in *.
  assert (Hp := H7). destruct Hp as (l7 & Hh7 & Hnd7 & _). assert (Hp := Hh7). destruct Hp as (q & b & -> & _).
  apply mdwp_bind, mdwp_bind. eapply find_entry_spec; [exact Hh7|exact Hnd7|]. intros e7 _ _. by apply mdwp_ret.
Qed.
End refinement.


(** ** Synthesized configurations *)

Definition quad_list (q : Z * Z * Z * Z) : list Z := let '(f, w, h, d) := q in [f; w; h; d].

Definition positive_size (size : Z * Z) : bool := negb ((size.1 <=? 0) || (size.2 <=? 0)).

Lemma quads_join qs : quads (mjoin (quad_list <$> qs)) = qs.
Proof.
  induction qs as [|[[[f w] h] d] qs IH]; [done|].
  change (quads (mjoin (quad_list <$> (f, w, h, d) :: qs))) with ((f, w, h, d) :: quads (mjoin (quad_list <$> qs))).
  by rewrite IH.
Qed.

Lemma i32_of_int l : Forall is_int (i32_of l).
Proof. revert l. fix IH 1. intros [|a [|b [|c [|d l]]]]; cbn [i32_of]; constructor; [apply wrap_s32_range|apply IH]. Qed.

Lemma pairs_forall (P : Z -> Prop) l : Forall P l -> Forall (fun p => P p.1 /\ P p.2) (pairs l).
Proof.
  revert l. fix IH 1. intros [|a [|b l]] Hl; cbn [pairs]; [constructor..|].
  apply Forall_cons in Hl as [Ha Hl]. apply Forall_cons in Hl as [Hb Hl]. constructor; [done|by apply IH].
Qed.

Section configurations.
Context (cst : string -> Z).

Definition processed_quads (size : Z * Z) : list (Z * Z * Z * Z) :=
  if positive_size size then
    [(cst "HAL_PIXEL_FORMAT_IMPLEMENTATION_DEFINED"%string, size.1, size.2, OUTPUT cst);
     (cst "HAL_PIXEL_FORMAT_YCbCr_420_888"%string, size.1, size.2, OUTPUT cst)]
  else [].

Definition jpeg_quads (size : Z * Z) : list (Z * Z * Z * Z) :=
  if positive_size size then [(cst "HAL_PIXEL_FORMAT_BLOB"%string, size.1, size.2, OUTPUT cst)] else [].

Definition all_quads (pd jd : list Z) : list (Z * Z * Z * Z) :=
  mjoin (processed_quads <$> pairs pd) ++ mjoin (jpeg_quads <$> pairs jd).

Lemma mjoin_cons {A} (x : list A) xs : mjoin (x :: xs) = x ++ mjoin xs.
Proof. done. Qed.

Lemma synthesized_quads pd jd s m t : synthesized cst pd jd = (s, m, t) -> s = mjoin (quad_list <$> all_quads pd jd).
Proof.
  intros Hs. assert (Hp : forall l x, (foldl (synthesize_processed cst) x l).1.1 = x.1.1 ++ mjoin (quad_list <$> mjoin (processed_quads <$> l))).
  { induction l as [|[w h] l IH]; intros [[a b] c]; [by rewrite app_nil_r|]. cbn [foldl].
    rewrite IH, fmap_cons, mjoin_cons, fmap_app, join_app, app_assoc. f_equal.
    unfold synthesize_processed, processed_quads, positive_size. cbn [fst snd]. destruct (_ || _); cbn; by rewrite <- ?app_assoc, ?app_nil_r. }
  assert (Hj : forall l x, (foldl (synthesize_jpeg cst) x l).1.1 = x.1.1 ++ mjoin (quad_list <$> mjoin (jpeg_quads <$> l))).
  { induction l as [|[w h] l IH]; intros [[a b] c]; [by rewrite app_nil_r|]. cbn [foldl].
    rewrite IH, fmap_cons, mjoin_cons, fmap_app, join_app, app_assoc. f_equal.
    unfold synthesize_jpeg, jpeg_quads, positive_size. cbn [fst snd]. destruct (_ || _); cbn; by rewrite ?app_nil_r. }
  change s with ((s, m, t).1.1). rewrite <- Hs. unfold synthesized, all_quads. by rewrite Hj, Hp, fmap_app, join_app.
Qed.

(** The formats are different numbers, and fit an [int32_t]. *)
Definition formats_distinct : Prop :=
  let fs := [cst "HAL_PIXEL_FORMAT_IMPLEMENTATION_DEFINED"%string; cst "HAL_PIXEL_FORMAT_YCbCr_420_888"%string;
             cst "HAL_PIXEL_FORMAT_BLOB"%string] in
  NoDup fs /\ Forall is_int (OUTPUT cst :: fs).

Context (Hfmt : formats_distinct).

Lemma all_quads_int pd jd : Forall is_int pd -> Forall is_int jd -> Forall is_int (mjoin (quad_list <$> all_quads pd jd)).
Proof.
  intros Hp%pairs_forall Hj%pairs_forall. destruct Hfmt as [_ Hi]. cbn zeta in Hi. rewrite !Forall_cons in Hi.
  destruct Hi as (Ho & Hi & Hy & Hb & _).
  assert (Hq : Forall (fun q => Forall is_int (quad_list q)) (all_quads pd jd)).
  { unfold all_quads. apply Forall_app. split; apply Forall_join, Forall_fmap.
    - eapply Forall_impl; [exact Hp|]. intros [w h] [Hw Hh]. unfold compose, processed_quads. case_match; by repeat first [apply Forall_nil_2 | apply Forall_cons_2].
    - eapply Forall_impl; [exact Hj|]. intros [w h] [Hw Hh]. unfold compose, jpeg_quads. case_match; by repeat first [apply Forall_nil_2 | apply Forall_cons_2]. }
  apply Forall_join, Forall_fmap. exact Hq.
Qed.

Definition is_blob (q : Z * Z * Z * Z) : bool :=
  (q.2 =? OUTPUT cst) && (q.1.1.1 =? cst "HAL_PIXEL_FORMAT_BLOB"%string).
Definition is_yuv (q : Z * Z * Z * Z) : bool :=
  (q.2 =? OUTPUT cst) && (q.1.1.1 =? cst "HAL_PIXEL_FORMAT_YCbCr_420_888"%string).

Lemma check_exists qs blob yuv : Forall (fun q => positive_size (q.1.1.2, q.1.2) = true) qs ->
  check_configurations cst qs blob yuv = (blob || existsb is_blob qs) && (yuv || existsb is_yuv qs).
Proof.
  intros Hq. revert blob yuv. induction Hq as [|[[[f w] h] d] qs Hx Hq IH]; intros blob yuv; cbn [check_configurations existsb].
  - by rewrite !orb_false_r.
  - unfold positive_size in Hx. cbn [fst snd] in Hx. apply negb_true_iff in Hx. rewrite Hx, IH, <- !orb_assoc. done.
Qed.

Lemma existsb_join {A} (f : Z * Z * Z * Z -> bool) (g : A -> list (Z * Z * Z * Z)) l :
  existsb f (mjoin (g <$> l)) = existsb (fun x => existsb f (g x)) l.
Proof. induction l as [|x l IH]; [done|]. rewrite fmap_cons, mjoin_cons, existsb_app, IH. done. Qed.

Lemma existsb_ext_eq {A} (f g : A -> bool) l : (forall x, f x = g x) -> existsb f l = existsb g l.
Proof. intros He. induction l as [|x l IH]; [done|]. cbn. by rewrite He, IH. Qed.

Lemma existsb_none {A} (f : A -> bool) l : (forall x, f x = false) -> existsb f l = false.
Proof. intros He. induction l as [|x l IH]; [done|]. cbn. by rewrite He, IH. Qed.

(** What is made of the sizes is accepted when there is a positive size of each kind. *)
Lemma check_synthesized pd jd : check_configurations cst (all_quads pd jd) false false =
  existsb positive_size (pairs pd) && existsb positive_size (pairs jd).
Proof.
  destruct Hfmt as [Hnd _]. cbn zeta in Hnd. rewrite !NoDup_cons, !not_elem_of_cons in Hnd.
  destruct Hnd as [(_ & Hib & _) [(Hyb & _) _]]. rewrite check_exists.
  2:{ unfold all_quads. apply Forall_app. split; apply Forall_join, Forall_fmap, Forall_forall; intros [w h] _;
      unfold compose, processed_quads, jpeg_quads; destruct (positive_size (w, h)) eqn:Hp; repeat constructor; done. }
  assert (Hby := not_eq_sym Hyb). apply Z.eqb_neq in Hib, Hyb, Hby.
  unfold all_quads. rewrite !existsb_app, !existsb_join, !orb_false_l.
  rewrite (existsb_none (fun x => existsb is_blob (processed_quads x))).
  2:{ intros size. unfold processed_quads. destruct (positive_size size); [|done]. unfold is_blob. cbn [existsb fst snd].
      by rewrite Hib, Hyb, !andb_false_r. }
  rewrite (existsb_none (fun x => existsb is_yuv (jpeg_quads x))).
  2:{ intros size. unfold jpeg_quads. destruct (positive_size size); [|done]. unfold is_yuv. cbn [existsb fst snd].
      by rewrite Hby, andb_false_r. }
  rewrite orb_false_l, orb_false_r, andb_comm. f_equal; apply existsb_ext_eq; intros size.
  - unfold processed_quads. destruct (positive_size size); [|done]. unfold is_yuv. cbn [existsb fst snd].
    rewrite !Z.eqb_refl. cbn [andb orb]. apply orb_true_r.
  - unfold jpeg_quads. destruct (positive_size size); [|done]. unfold is_blob. cbn [existsb fst snd]. by rewrite !Z.eqb_refl.
Qed.
End configurations.


(** ** What the wrapper promises *)

Section contract.
Context (cst : string -> Z) {buf : Type} {ML : MetadataLib buf} {LAWS : MetadataLaws buf}.
Context (alloc_ok : nat -> bool) (calloc_ok : Z -> bool).

Lemma streams_verdict M pd jd : formats_distinct cst -> M !! PROCESSED_SIZES cst = Some pd -> M !! JPEG_SIZES cst = Some jd ->
  wrapper_tags cst -> usable_sizes cst pd jd = true ->
  (streams_spec cst M).1 = keep_configurations cst (M !! STREAMS cst) (M !! MIN_DURATIONS cst) (M !! STALL_DURATIONS cst) ||
    existsb positive_size (pairs (i32_of pd)) && existsb positive_size (pairs (i32_of jd)).
Proof.
  intros Hfmt Hp Hj Ht Hu. unfold streams_spec. destruct (keep_configurations _ _ _ _); [done|]. rewrite Hp, Hj.
  destruct (synthesized _ _ _) as [[s m] t] eqn:Hs. rewrite Hu, <- (check_synthesized cst Hfmt). cbn [negb orb].
  assert (Hq := synthesized_quads _ _ _ _ _ _ Hs). set (qs := all_quads _ _ _) in *.
  assert (Hlen : zlen s = 4 * zlen qs).
  { rewrite Hq. clear. induction qs as [|[[[f w] h] d] qs IH]; [done|]. rewrite fmap_cons, mjoin_cons, zlen_app, IH, zlen_cons.
    change (zlen (quad_list (f, w, h, d))) with 4. lia. }
  assert (Hint : Forall is_int s) by (rewrite Hq; apply all_quads_int; [done|apply i32_of_int..]).
  assert (Hty : get_camera_metadata_tag_type (STREAMS cst) = Some TYPE_INT32).
  { unfold wrapper_tags in Ht. rewrite Forall_forall in Ht. apply (Ht (STREAMS cst, TYPE_INT32)), list_elem_of_here. }
  destruct (zlen s <? 4) eqn:Hz; breflect.
  - destruct qs as [|q qs']; [done|]. rewrite zlen_cons in Hlen. pose proof (zlen_nonneg qs'). lia.
  - cbn [fst]. unfold valid_configurations. fold (STREAMS cst). rewrite count_i32 by exact Hty.
    rewrite zlen_i32_bytes, (Z.mul_comm 4), Z.div_mul, i32_of_bytes, Hlen by done.
    rewrite (proj2 (Z.ltb_ge _ 4)) by lia. rewrite (Z.mul_comm 4), Z.mod_mul by done. cbn [Z.eqb negb orb].
    by rewrite Hq, quads_join.
Qed.

(** C26. Stream configurations for a vendor that announces none.  When the vendor's entries
    are missing or bad and its processed and JPEG sizes are usable, the function succeeds
    exactly when there is a positive size of each kind; the configurations in the buffer
    then pass the wrapper's own check (positive sizes, a BLOB and a YUV output), the
    arrays it fills are never overrun, the other tags are untouched, and exactly one
    buffer is left where there was one. *)
Theorem stream_configurations_offered R M p h pd jd : wrapper_tags cst -> wrapper_distinct cst -> formats_distinct cst ->
  (forall n, alloc_ok n = true) -> (forall n, calloc_ok n = true) -> owned R M p h ->
  M !! PROCESSED_SIZES cst = Some pd -> M !! JPEG_SIZES cst = Some jd -> usable_sizes cst pd jd = true ->
  mdwp (ensure_stream_configurations cst alloc_ok calloc_ok p) (fun x h' => exists M', owned R M' x.2 h' /\
    x.1 = keep_configurations cst (M !! STREAMS cst) (M !! MIN_DURATIONS cst) (M !! STALL_DURATIONS cst) ||
          existsb positive_size (pairs (i32_of pd)) && existsb positive_size (pairs (i32_of jd)) /\
    (x.1 = true -> exists d, M' !! STREAMS cst = Some d /\ valid_configurations cst d = true) /\
    forall tag, tag <> STREAMS cst -> tag <> MIN_DURATIONS cst -> tag <> STALL_DURATIONS cst -> M' !! tag = M !! tag) h.
Proof.
  intros Ht Hd Hfmt Ha Hc Ho Hp Hj Hu. assert (Hv := streams_verdict M pd jd Hfmt Hp Hj Ht Hu).
  eapply mdwp_mono; [by apply streams_refines|]. intros [ok p'] h' [Hok Ho']. cbn [fst snd] in *. eexists.
  split_and!; [exact Ho'|congruence|..].
  - intros ->. revert Hok. unfold streams_spec. destruct (keep_configurations _ _ _ _) eqn:Hk.
    + intros _. cbn [snd]. unfold keep_configurations in Hk. destruct (M !! STREAMS cst) as [d|]; [|done].
      exists d. split; [done|]. destruct (M !! MIN_DURATIONS cst), (M !! STALL_DURATIONS cst); try done. by apply andb_true_iff in Hk as [_ Hk].
    + rewrite Hp, Hj. destruct (synthesized _ _ _) as [[s m] t]. destruct (negb _ || _); cbn [fst snd]; intros Hok; [done|].
      eexists. split; [|by rewrite <- Hok]. unfold wrapper_distinct in Hd. rewrite !NoDup_cons, !not_elem_of_cons in Hd.
      destruct Hd as [(H1 & H2 & _) _]. by rewrite !lookup_insert_ne, lookup_insert_eq by congruence.
  - intros tag H1 H2 H3. unfold streams_spec. destruct (keep_configurations _ _ _ _); [done|]. rewrite Hp, Hj.
    destruct (synthesized _ _ _) as [[s m] t]. destruct (negb _ || _); [done|]. cbn [snd]. by rewrite !lookup_insert_ne by congruence.
Qed.

(** *** The entries an edit leaves alone *)

Lemma jpeg_other M tag : tag <> JPEG_SIZES cst -> tag <> JPEG_MIN_DURATIONS cst -> (jpeg_spec cst M).2 !! tag = M !! tag.
Proof.
  intros H1 H2. unfold jpeg_spec. destruct (_ || _); [done|]. cbn [snd]. destruct (from_option _ false _); by rewrite !lookup_insert_ne by done.
Qed.

Lemma streams_other M tag : tag <> STREAMS cst -> tag <> MIN_DURATIONS cst -> tag <> STALL_DURATIONS cst ->
  (streams_spec cst M).2 !! tag = M !! tag.
Proof.
  intros H1 H2 H3. unfold streams_spec. destruct (keep_configurations _ _ _ _); [done|].
  destruct (M !! PROCESSED_SIZES cst) as [pd|], (M !! JPEG_SIZES cst) as [jd|]; [|done..].
  destruct (synthesized _ _ _) as [[s m] t]. destruct (negb _ || _); [done|]. cbn [snd]. by rewrite !lookup_insert_ne by done.
Qed.

Lemma capabilities_other M tag : tag <> CAPABILITIES cst -> capabilities_spec cst M !! tag = M !! tag.
Proof. intros H1. unfold capabilities_spec. destruct (nonempty _ _); [done|]. by rewrite lookup_insert_ne by done. Qed.

Lemma regions_other M tag : tag <> MAX_REGIONS cst -> tag <> SCENE_OVERRIDES cst -> regions_spec cst M !! tag = M !! tag.
Proof.
  intros H1 H2. unfold regions_spec, without_overrides, with_regions.
  destruct (from_option _ false _), (nonempty _ _); by rewrite ?lookup_delete_ne, ?lookup_insert_ne by done.
Qed.

Lemma level_other M tag : tag <> HARDWARE_LEVEL cst -> level_spec cst M !! tag = M !! tag.
Proof. intros H1. by apply lookup_insert_ne. Qed.

Lemma limits_other M tag : tag <> MAX_OUTPUTS cst -> tag <> MAX_INPUTS cst -> tag <> IO_FORMATS_MAP cst ->
  limits_spec cst M !! tag = M !! tag.
Proof. intros H1 H2 H3. unfold limits_spec. by rewrite lookup_delete_ne, !lookup_insert_ne. Qed.

(** What every copy has after the edits. *)
Definition mended (M M' : gmap Z (list Z)) : Prop :=
  M' !! HARDWARE_LEVEL cst = Some [LEGACY cst mod 256] /\
  M' !! MAX_OUTPUTS cst = Some (i32_bytes [0; 1; 1]) /\ M' !! MAX_INPUTS cst = Some (i32_bytes [0]) /\
  M' !! HIGH_SPEED cst = None /\ M' !! IO_FORMATS_MAP cst = None /\
  nonempty (CAPABILITIES cst) (M' !! CAPABILITIES cst) = true /\
  nonempty (SCENE_OVERRIDES cst) (M' !! SCENE_OVERRIDES cst) = false /\
  from_option (fun d => count (MAX_REGIONS cst) d) 0 (M' !! MAX_REGIONS cst) = 3 /\
  forall tag, tag ∉ [STREAMS cst; MIN_DURATIONS cst; STALL_DURATIONS cst; JPEG_SIZES cst; JPEG_MIN_DURATIONS cst; CAPABILITIES cst;
    MAX_REGIONS cst; HARDWARE_LEVEL cst; MAX_OUTPUTS cst; MAX_INPUTS cst; HIGH_SPEED cst; SCENE_OVERRIDES cst; IO_FORMATS_MAP cst] ->
    M' !! tag = M !! tag.

Lemma mend_spec_mended M : wrapper_tags cst -> wrapper_distinct cst -> mended M (mend_spec cst M).
Proof.
  intros Ht Hd. unfold wrapper_distinct in Hd. rewrite !NoDup_cons, !not_elem_of_cons in Hd. destruct_and! Hd.
  unfold mended, mend_spec. set (M1 := (streams_spec _ _).2). split_and!.
  - rewrite limits_other by congruence. apply lookup_insert_eq.
  - unfold limits_spec. by rewrite lookup_delete_ne, lookup_insert_ne, lookup_insert_eq by congruence.
  - unfold limits_spec. by rewrite lookup_delete_ne, lookup_insert_eq by congruence.
  - rewrite limits_other, level_other, regions_other, capabilities_other by congruence. unfold M1.
    rewrite streams_other, jpeg_other by congruence. apply lookup_delete_eq.
  - apply lookup_delete_eq.
  - rewrite limits_other, level_other, regions_other by congruence. unfold capabilities_spec.
    destruct (nonempty (CAPABILITIES cst) (M1 !! _)) eqn:Hn; [done|]. rewrite lookup_insert_eq. unfold nonempty, count, fallback_capabilities.
    rewrite (tag_typed cst Ht (CAPABILITIES cst) TYPE_BYTE); [done|]. repeat (first [apply list_elem_of_here | apply list_elem_of_further]).
  - rewrite limits_other, level_other by congruence. unfold regions_spec, without_overrides.
    set (X := with_regions _ _). destruct (nonempty (SCENE_OVERRIDES cst) (X !! SCENE_OVERRIDES cst)) eqn:Hn; [by rewrite lookup_delete_eq|exact Hn].
  - rewrite limits_other, level_other by congruence. unfold regions_spec, without_overrides.
    set (M2 := capabilities_spec _ _).
    replace (_ !! MAX_REGIONS cst) with (with_regions cst M2 !! MAX_REGIONS cst)
      by (destruct (nonempty _ _); [by rewrite lookup_delete_ne by congruence|done]).
    unfold with_regions. destruct (from_option _ false (M2 !! MAX_REGIONS cst)) eqn:Hr.
    + destruct (M2 !! MAX_REGIONS cst) as [d|]; cbn in *; [|done]. by breflect.
    + rewrite lookup_insert_eq. cbn [from_option]. rewrite count_i32; [done|].
      apply (tag_typed cst Ht (MAX_REGIONS cst) TYPE_INT32). repeat (first [apply list_elem_of_here | apply list_elem_of_further]).
  - intros tag Htag. rewrite !not_elem_of_cons in Htag. destruct_and! Htag.
    rewrite limits_other, level_other, regions_other, capabilities_other by done. unfold M1.
    rewrite streams_other, jpeg_other by done. by apply lookup_delete_ne.
Qed.
Context (hw_get_module_by_class vendor_number : Z) (vendor_info : Z -> Z * option camera_info).

#[local] Abbreviation get_info := (camera_get_camera_info cst alloc_ok calloc_ok hw_get_module_by_class vendor_info).

(** C6. The characteristics the wrapper announces.  The first call for a camera copies the
    vendor's buffer once, leaves the vendor's untouched, and edits the copy: what the
    framework sees is the vendor's entries transformed as [mend_spec] says - the LEGACY
    level, the stream limits, capabilities, three numbers of regions, no high-speed, scene
    override or input-output entries, every other entry as the vendor has it.  The pointer
    is kept: a second call answers the same one and changes no memory. *)
Theorem wrapper_characteristics w id ret v q b h : wrapper_tags cst -> wrapper_distinct cst ->
  (forall n, alloc_ok n = true) -> (forall n, calloc_ok n = true) ->
  gVendorModule w = true \/ hw_get_module_by_class = 0 -> vendor_info id = (ret, Some v) -> zlookup (vendorInfo w) id = Some None ->
  static_camera_characteristics v = Some q -> bufs h !! q = Some b -> NoDup (tags b) ->
  exists q' b' w' h',
    let info := mk_info (facing v) (orientation v) (normalize_camera_device_version cst (device_version v)) (Some q') in
    get_info id w h = Some ((ret, Some info, w'), h') /\
    bufs h !! q' = None /\ bufs h' = <[q' := b']> (bufs h) /\ NoDup (tags b') /\
    cmap (entries_of b') = mend_spec cst (cmap (entries_of b)) /\ mended (cmap (entries_of b)) (cmap (entries_of b')) /\
    get_info id w' h' = Some ((ret, Some info, w'), h').
Proof.
  intros Ht Hd Ha Hc Hmod Hinfo Hslot Hq Hb Hnd. unfold camera_get_camera_info.
  assert (Hchk : exists w0, check_vendor_module hw_get_module_by_class w = (0, w0) /\ vendorInfo w0 = vendorInfo w /\ gVendorModule w0 = true).
  { unfold check_vendor_module. destruct (gVendorModule w) eqn:Hg; [by exists w|]. destruct Hmod as [|Hmod]; [done|].
    rewrite Hmod. by eexists. }
  destruct Hchk as (w0 & Hchk & Hw0 & Hg0). rewrite Hchk. cbn [Z.eqb negb]. rewrite Hinfo, Hw0, Hslot.
  change (default (vendor_camera_info w0) (Some v)) with v. rewrite Hq.
  assert (Hcl : mdwp (clone_camera_metadata alloc_ok (Some q)) (fun x h1 => owned (bufs h) (cmap (entries_of b)) x h1) h).
  { apply (mdwp_clone _ q b); [done|]. apply mdwp_new; [|by rewrite Ha]. intros p Hp. exists (entries_of b). unfold tags in Hnd.
    split_and!; [|done|done]. exists p, (copy_camera_metadata b). cbn. rewrite lookup_insert_eq, delete_insert_id, copy_is; done. }
  apply mdwp_some in Hcl as (x & h1 & Hcl & Ho1).
  assert (Hm : mdwp (mend cst alloc_ok calloc_ok x) (fun y h2 => owned (bufs h) (mend_spec cst (cmap (entries_of b))) y h2) h1)
    by by apply mend_refines.
  apply mdwp_some in Hm as (y & h2 & Hm & Ho2). destruct Ho1 as (l1 & (q1 & b1 & -> & _) & _).
  destruct Ho2 as (l2 & (q2 & b2 & -> & Hq2 & HR & He2) & Hnd2 & Hmap). subst l2.
  exists q2, b2, (mk_wrapper true (<[Z.to_nat id := Some q2]> (vendorInfo w)) v), h2. cbn zeta. split_and!.
  - rewrite (md_bind_some _ _ _ _ _ Hcl), (md_bind_some _ _ _ _ _ Hm), Hg0. done.
  - rewrite <- HR. apply lookup_delete_eq.
  - by rewrite <- HR, insert_delete_eq, insert_id.
  - exact Hnd2.
  - exact Hmap.
  - rewrite Hmap. by apply mend_spec_mended.
  - unfold check_vendor_module. cbn [gVendorModule Z.eqb negb vendorInfo]. by rewrite (zlookup_insert_eq _ _ _ None).
Qed.
End contract.


(** ** On a list of entries *)

Definition wrapper_names : list (string * option md_type) :=
  [("ANDROID_SCALER_AVAILABLE_STREAM_CONFIGURATIONS", Some TYPE_INT32);
   ("ANDROID_SCALER_AVAILABLE_MIN_FRAME_DURATIONS", Some TYPE_INT64);
   ("ANDROID_SCALER_AVAILABLE_STALL_DURATIONS", Some TYPE_INT64);
   ("ANDROID_SCALER_AVAILABLE_PROCESSED_SIZES", Some TYPE_INT32);
   ("ANDROID_SCALER_AVAILABLE_JPEG_SIZES", Some TYPE_INT32);
   ("ANDROID_SCALER_AVAILABLE_JPEG_MIN_DURATIONS", Some TYPE_INT64);
   ("ANDROID_REQUEST_AVAILABLE_CAPABILITIES", Some TYPE_BYTE); ("ANDROID_CONTROL_MAX_REGIONS", Some TYPE_INT32);
   ("ANDROID_INFO_SUPPORTED_HARDWARE_LEVEL", Some TYPE_BYTE); ("ANDROID_REQUEST_MAX_NUM_OUTPUT_STREAMS", Some TYPE_INT32);
   ("ANDROID_REQUEST_MAX_NUM_INPUT_STREAMS", Some TYPE_INT32);
   ("ANDROID_CONTROL_AVAILABLE_HIGH_SPEED_VIDEO_CONFIGURATIONS", Some TYPE_INT32);
   ("ANDROID_CONTROL_SCENE_MODE_OVERRIDES", Some TYPE_BYTE); ("ANDROID_SCALER_AVAILABLE_INPUT_OUTPUT_FORMATS_MAP", Some TYPE_INT32);
   ("ANDROID_CONTROL_AF_AVAILABLE_MODES", Some TYPE_BYTE); ("ANDROID_LENS_FACING", Some TYPE_BYTE);
   ("HAL_PIXEL_FORMAT_IMPLEMENTATION_DEFINED", None); ("HAL_PIXEL_FORMAT_YCbCr_420_888", None); ("HAL_PIXEL_FORMAT_BLOB", None)]%string.

(** Constants numbered in the order of the list; the others are 0. *)
Definition wrapper_cst (s : string) : Z :=
  match list_find (fun n => n = s) wrapper_names.*1 with Some (i, _) => 1 + Z.of_nat i | None => 0 end.
Definition wrapper_types (t : Z) : option md_type := if t <? 1 then None else mjoin (snd <$> wrapper_names !! Z.to_nat (t - 1)).

#[local] Instance wrapper_lib : MetadataLib ref_buf := RefMetadata wrapper_types.
#[local] Instance wrapper_laws : MetadataLaws ref_buf := RefLaws wrapper_types.

Lemma sample_wrapper_tags : wrapper_tags wrapper_cst.
Proof. unfold wrapper_tags. repeat (apply Forall_cons; split; [vm_compute; reflexivity|]). apply Forall_nil_2. Qed.

Lemma sample_wrapper_distinct : wrapper_distinct wrapper_cst.
Proof. unfold wrapper_distinct. apply (bool_decide_eq_true_1 _). vm_compute. reflexivity. Qed.

Lemma sample_formats : formats_distinct wrapper_cst.
Proof.
  split; [apply (bool_decide_eq_true_1 _); vm_compute; reflexivity|].
  repeat (apply Forall_cons; split; [vm_compute; split; discriminate|]). apply Forall_nil_2.
Qed.

(** A vendor with sizes but no stream configurations. *)
Definition vendor_entries : list entry :=
  [mk_entry 16 [1]; mk_entry 4 (i32_bytes [640; 480; 0; 240]); mk_entry 5 (i32_bytes [3264; 2448]);
   mk_entry 12 (i32_bytes [1280; 720; 30; 120]); mk_entry 8 (i32_bytes [4]); mk_entry 15 [1]; mk_entry 13 [0; 0; 0]].
Definition vendor_buf : ref_buf := mk_ref vendor_entries 7 64.
Definition vendor_heap : md_heap ref_buf := mk_heap {[1%positive := vendor_buf]} 1.
Definition vendor_says (_ : Z) : Z * option camera_info := (0, Some (mk_info 0 90 0 (Some 1%positive))).

#[local] Abbreviation sizes := (cmap vendor_entries).

Example stream_configurations_offered_witness :
  mdwp (ensure_stream_configurations wrapper_cst (fun _ => true) (fun _ => true) (Some 1%positive)) (fun x h' => exists M',
    owned ∅ M' x.2 h' /\ x.1 = true /\
    (x.1 = true -> exists d, M' !! STREAMS wrapper_cst = Some d /\ valid_configurations wrapper_cst d = true) /\
    forall tag, tag <> STREAMS wrapper_cst -> tag <> MIN_DURATIONS wrapper_cst -> tag <> STALL_DURATIONS wrapper_cst ->
      M' !! tag = sizes !! tag) vendor_heap.
Proof.
  apply (stream_configurations_offered wrapper_cst (fun _ => true) (fun _ => true) ∅ sizes (Some 1%positive) vendor_heap
           (i32_bytes [640; 480; 0; 240]) (i32_bytes [3264; 2448]) sample_wrapper_tags sample_wrapper_distinct sample_formats
           (fun _ => eq_refl) (fun _ => eq_refl)); [|vm_compute; reflexivity..].
  exists vendor_entries. split_and!; [|apply (bool_decide_eq_true_1 _); vm_compute; reflexivity|done].
  exists 1%positive, vendor_buf. split_and!; done.
Defined.

Example wrapper_characteristics_witness :
  exists q' b' w' h',
    let info := mk_info 0 90 (normalize_camera_device_version wrapper_cst 0) (Some q') in
    camera_get_camera_info wrapper_cst (fun _ => true) (fun _ => true) 0 vendor_says 1
      (mk_wrapper false [None; None] (mk_info 0 0 0 None)) vendor_heap = Some ((0, Some info, w'), h') /\
    bufs vendor_heap !! q' = None /\ bufs h' = <[q' := b']> (bufs vendor_heap) /\ NoDup (tags b') /\
    cmap (entries_of b') = mend_spec wrapper_cst sizes /\ mended wrapper_cst sizes (cmap (entries_of b')) /\
    camera_get_camera_info wrapper_cst (fun _ => true) (fun _ => true) 0 vendor_says 1 w' h' = Some ((0, Some info, w'), h').
Proof.
  apply (wrapper_characteristics wrapper_cst (fun _ => true) (fun _ => true) 0 vendor_says
           (mk_wrapper false [None; None] (mk_info 0 0 0 None)) 1 0 (mk_info 0 90 0 (Some 1%positive)) 1%positive vendor_buf vendor_heap
           sample_wrapper_tags sample_wrapper_distinct (fun _ => eq_refl) (fun _ => eq_refl));
    [by right|done..|apply (bool_decide_eq_true_1 _); vm_compute; reflexivity].
Defined.

(** The configurations of the two sizes there are. *)
Example synthesized_sample :
  (fun d => quads (i32_of d)) <$> mend_spec wrapper_cst sizes !! STREAMS wrapper_cst =
  Some [(17, 640, 480, 0); (18, 640, 480, 0); (19, 3264, 2448, 0)].
Proof. vm_compute. reflexivity. Qed.

(** A camera number the array of copies has no place for. *)
Example third_camera_undefined h : camera_get_camera_info wrapper_cst (fun _ => true) (fun _ => true) 0 vendor_says 2
  (mk_wrapper true [None; None] (mk_info 0 0 0 None)) h = None.
Proof. reflexivity. Qed.

(** Without the vendor's module the call succeeds and leaves the structure as it was. *)
Example missing_module_succeeds h : exists w, camera_get_camera_info wrapper_cst (fun _ => true) (fun _ => true) (-2) vendor_says 0
  (mk_wrapper false [None; None] (mk_info 0 0 0 None)) h = Some ((0, None, w), h).
Proof. by eexists. Qed.

(** When the vendor refuses the second camera without writing its structure, the wrapper
    announces a copy of the first camera's characteristics for it, for good. *)
Definition vendor_refuses (id : Z) : Z * option camera_info := if id =? 0 then vendor_says 0 else (-22, None).

Definition two_calls : option (list (option (list entry))) :=
  '(_, w, h) ← camera_get_camera_info wrapper_cst (fun _ => true) (fun _ => true) 0 vendor_refuses 0
    (mk_wrapper false [None; None] (mk_info 0 0 0 None)) vendor_heap;
  '(_, w, h) ← camera_get_camera_info wrapper_cst (fun _ => true) (fun _ => true) 0 vendor_refuses 1 w h;
  Some ((fun p => p ← p; ref_entries <$> bufs h !! p) <$> vendorInfo w).

Example stale_characteristics : match two_calls with Some [Some l; Some k] => bool_decide (l = k) | _ => false end = true.
Proof. vm_compute. reflexivity. Qed.
