(* ===== verification/Camera3Wrapper.v ===== *)
(** * The wrapper of the vendor's camera device ([camera/Camera3Wrapper.cpp])

    The wrapper stands between the framework and the vendor's device: it removes entries
    the framework cannot read from results and templates, hides the data space of BLOB
    streams from the vendor, and owns the tables of a device.  Metadata objects are those
    of [CameraMetadata]; the vendor's calls are arguments. *)

From S2P Require Import Prelude.
From S2P Require Import CString.
From S2P Require Import MetadataLib.
From S2P Require Import CameraMetadata.

(** ** Results *)

(** A result; [output_buffers] stands for the fields that are passed on as they are. *)
Record capture_result := mk_result {
  frame_number : Z; partial_result : Z; result : option positive; output_buffers : Z }.

Definition kLegacyBadResultTags : list Z :=
  [1048578; 589834; 589835; 1638400; 1638401; 1638402; 1703936; 1769472; 1769473; 1835013].

Definition kLegacyBadTemplateTags : list Z :=
  [1048578; 589834; 589835; 1638400; 1638401; 1638402; 1703936; 1769472; 1769473].

Section metadata.
Context {buf : Type} {ML : MetadataLib buf} (alloc_ok : nat -> bool) (find_null : status).

(** The loop of the two functions that remove entries. *)
Fixpoint remove_tags (bad : list Z) (m : camera_metadata) : MD buf unit :=
  match bad with
  | [] => mret tt
  | tag :: bad =>
      found ← exists_tag find_null tag m;
      _ ← (if found : bool then s ← erase find_null tag m; mret tt else mret tt);
      remove_tags bad m
  end.

Definition sanitize_result_metadata : camera_metadata -> MD buf unit := remove_tags kLegacyBadResultTags.

(** The framework's callback: the result, and what is at its metadata pointer during the call. *)
Definition deliver (r : capture_result) : MD buf (option (capture_result * option buf)) :=
  match result r with
  | None => mret (Some (r, None))
  | Some _ => b ← at_ptr (result r); mret (Some (r, Some b))
  end.

(** [present]: the wrapper's table and the framework's callback are there.  [None]: nothing
    is delivered. *)
Definition camera3_process_capture_result_callback (present : bool) (r : option capture_result) :
    MD buf (option (capture_result * option buf)) :=
  match r with
  | Some r =>
      if negb present then mret None
      else match result r with
           | None => deliver r
           | Some _ =>
               cloned ← clone_camera_metadata alloc_ok (result r);
               match cloned with
               | None => deliver r
               | Some _ =>
                   sanitized ← acquire cloned new_empty;
                   _ ← sanitize_result_metadata sanitized;
                   let '(locked_result, sanitized) := getAndLock sanitized in
                   out ← match locked_result with
                         | None => mret None
                         | Some _ => deliver (mk_result (frame_number r) 0 locked_result (output_buffers r))
                         end;
                   _ ← destroy sanitized;
                   mret out
               end
           end
  | None => mret None
  end.

(** ** Templates *)

(** The parameter is a copy of the caller's object. *)
Definition camera3_fixup_construct_default_request_settings (metadata : camera_metadata) : MD buf (option positive) :=
  copy ← new_copy alloc_ok metadata;
  _ ← remove_tags kLegacyBadTemplateTags copy;
  let '(p, copy) := release copy in
  _ ← destroy copy;
  mret p.

(** [settings] is what the vendor returns.  A null device is followed by the log line
    before it is tested. *)
Definition camera3_construct_default_request_settings (device : bool) (settings : option positive) : MD buf (option positive) :=
  if negb device then md_crash
  else
    metadata ← assign alloc_ok settings new_empty;
    empty ← isEmpty metadata;
    p ← (if empty : bool then mret None else camera3_fixup_construct_default_request_settings metadata);
    _ ← destroy metadata;
    mret p.
End metadata.

(** ** Streams *)

Record stream := mk_stream { stream_type : Z; format : Z; data_space : Z }.

Section streams.
Context (STREAM_OUTPUT BLOB : Z).

Definition set_space (ds : Z) (s : stream) : stream := mk_stream (stream_type s) (format s) ds.
Definition is_blob (s : stream) : bool := (stream_type s =? STREAM_OUTPUT) && (format s =? BLOB).

(** The first loop, from stream [i]: [original_dataspace] and the streams. *)
Fixpoint force_dataspace (i : nat) (l : list (option positive)) (original : list Z) (h : gmap positive stream) :
    option (list Z * gmap positive stream) :=
  match l with
  | [] => Some (original, h)
  | None :: l => force_dataspace (S i) l original h
  | Some p :: l =>
      s ← h !! p;
      force_dataspace (S i) l (<[i := data_space s]> original)
        (if is_blob s && negb (data_space s =? 0) then <[p := set_space 0 s]> h else h)
  end.

Fixpoint restore_dataspace (i : nat) (l : list (option positive)) (original : list Z) (h : gmap positive stream) :
    option (gmap positive stream) :=
  match l with
  | [] => Some h
  | None :: l => restore_dataspace (S i) l original h
  | Some p :: l =>
      s ← h !! p;
      restore_dataspace (S i) l original
        (match original !! i with
         | Some ds => if is_blob s && negb (data_space s =? ds) then <[p := set_space ds s]> h else h
         | None => h
         end)
  end.

(** [vendor] is the vendor's call; [None] for the list: no list or no array of streams.
    Writing past [original_dataspace] does not happen, as inserting past a list does
    nothing. *)
Definition camera3_configure_streams (device : bool) (vendor : gmap positive stream -> Z * gmap positive stream)
    (l : option (list (option positive))) (h : gmap positive stream) : option (Z * gmap positive stream) :=
  if negb device then None
  else match l with
       | None => Some (vendor h)
       | Some l =>
           '(original, h) ← force_dataspace 0 l (replicate 16 0) h;
           let '(ret, h) := vendor h in
           h ← restore_dataspace 0 l original h;
           Some (ret, h)
       end.
End streams.

(** ** The device *)

(** What is allocated: wrapped devices, tables of operations and of callbacks, and open
    devices of the vendor. *)
Record ledger := mk_ledger { devices : Z; ops_tables : Z; callback_tables : Z; vendor_devices : Z }.

Record wrapper_device := mk_wdev { id : Z; callback_ops : bool }.

Definition EINVAL : Z := 22.
Definition ENOMEM : Z := 12.

(** [module_rv] is what finding the vendor's module returns, [open_rv] what opening its
    device returns.  The result, what is stored in [*device] if anything is, the ledger. *)
Definition camera3_device_open (module_rv num_cameras : Z) (malloc_device : bool) (open_rv : Z) (malloc_ops : bool)
    (name : option bytes) (h : ledger) : Z * option (option wrapper_device) * ledger :=
  match name with
  | None => (0, None, h)
  | Some name =>
      if negb (module_rv =? 0) then (- EINVAL, None, h)
      else
        let cameraid := atoi name in
        if num_cameras <? cameraid then (- EINVAL, Some None, h)
        else if negb malloc_device then (- ENOMEM, Some None, h)
        else if negb (open_rv =? 0) then (open_rv, Some None, h)
        else
          let h := mk_ledger (devices h + 1) (ops_tables h) (callback_tables h) (vendor_devices h + 1) in
          if negb malloc_ops then
            (- ENOMEM, Some None, mk_ledger (devices h - 1) (ops_tables h) (callback_tables h) (vendor_devices h))
          else (0, Some (Some (mk_wdev cameraid false)),
                mk_ledger (devices h) (ops_tables h + 1) (callback_tables h) (vendor_devices h))
  end.

(** [vendor_rv] is what the vendor's call returns. *)
Definition camera3_initialize (calloc_ok : bool) (vendor_rv : Z) (d : wrapper_device) (h : ledger) :
    Z * wrapper_device * ledger :=
  if callback_ops d then (vendor_rv, d, h)
  else if negb calloc_ok then (- ENOMEM, d, h)
  else (vendor_rv, mk_wdev (id d) true,
        mk_ledger (devices h) (ops_tables h) (callback_tables h + 1) (vendor_devices h)).

(** A request is its number of buffers and whether it has an array of them. *)
Definition camera3_process_capture_request (vendor : Z * bool -> Z) (request : option (Z * bool)) : Z :=
  match request with
  | None => - EINVAL
  | Some (num_output_buffers, output_buffers) =>
      if (num_output_buffers =? 0) || negb output_buffers then - EINVAL else vendor (num_output_buffers, output_buffers)
  end.

(** A null device is refused. *)
Definition camera3_device_close (d : option wrapper_device) (h : ledger) : Z * ledger :=
  match d with
  | None => (- EINVAL, h)
  | Some d =>
      (0, mk_ledger (devices h - 1) (ops_tables h - 1)
            (if callback_ops d then callback_tables h - 1 else callback_tables h) (vendor_devices h - 1))
  end.

(** ** Entries removed *)

Definition without (bad : list Z) (M : gmap Z (list Z)) : gmap Z (list Z) := foldr delete M bad.

Lemma without_delete bad tag M : without bad (delete tag M) = delete tag (without bad M).
Proof. induction bad as [|t bad IH]; [done|]. cbn. fold (without bad (delete tag M)) (without bad M). by rewrite IH, delete_delete. Qed.

Lemma without_lookup bad M tag : without bad M !! tag = if bool_decide (tag ∈ bad) then None else M !! tag.
Proof.
  induction bad as [|t bad IH]; [done|].
  change (without (t :: bad) M) with (delete t (without bad M)).
  destruct (decide (tag ∈ t :: bad)) as [Hin|Hin]; [rewrite (bool_decide_eq_true_2 _ Hin)|rewrite (bool_decide_eq_false_2 _ Hin)].
  - apply elem_of_cons in Hin as [->|Hin]; [by rewrite lookup_delete_eq|].
    destruct (decide (t = tag)) as [->|Hne]; [by rewrite lookup_delete_eq|]. rewrite lookup_delete_ne, IH by done.
    by rewrite bool_decide_eq_true_2.
  - apply not_elem_of_cons in Hin as [Hne Hin]. rewrite lookup_delete_ne, IH by done. by rewrite bool_decide_eq_false_2.
Qed.

Section removal.
Context {buf : Type} {ML : MetadataLib buf} {LAWS : MetadataLaws buf} (alloc_ok : nat -> bool) (find_null : status).

Lemma remove_tags_spec R bad l m h : owns R (Some l) m h -> NoDup (e_tag <$> l) -> mLocked m = false ->
  mdwp (remove_tags find_null bad m) (fun _ h' => exists l', owns R (Some l') m h' /\ NoDup (e_tag <$> l') /\
    cmap l' = without bad (cmap l)) h.
Proof.
  intros Ho Hnd Hlock. revert l h Ho Hnd. induction bad as [|tag bad IH]; intros l h Ho Hnd; cbn [remove_tags].
  { apply mdwp_ret. by exists l. }
  apply mdwp_bind, mdwp_bind. eapply find_in_some; [exact Ho|..].
  - intros i d Hi. apply mdwp_ret. rewrite bool_decide_eq_true_2 by done. apply mdwp_bind, mdwp_bind.
    eapply mdwp_mono; [by eapply erase_spec|]. intros st h1 (_ & l1 & Ho1 & Hnd1 & Hm1). apply mdwp_ret.
    eapply mdwp_mono; [by apply IH|]. intros ? h2 (l2 & Ho2 & Hnd2 & Hm2). exists l2.
    by rewrite Hm2, Hm1, without_delete.
  - intros Hno. apply mdwp_ret. rewrite bool_decide_eq_false_2 by done. apply mdwp_bind, mdwp_ret.
    eapply mdwp_mono; [by apply IH|]. intros ? h2 (l2 & Ho2 & Hnd2 & Hm2). exists l2. split_and!; [done|done|].
    rewrite Hm2. cbn. fold (without bad (cmap l)). rewrite <- without_delete, delete_id; [done|by apply cmap_none].
Qed.

Lemma destroy_owned R l m h (Q : camera_metadata -> md_heap buf -> Prop) : owns R l m h ->
  (forall m' h', bufs h' = R -> Q m' h') -> mdwp (destroy m) Q h.
Proof.
  intros Ho HQ. unfold destroy. apply (clear_owned R l); [done|done|]. intros h' Hh'. by apply HQ.
Qed.
End removal.

(** ** What the framework is given *)

Section delivered.
Context {buf : Type} {ML : MetadataLib buf} {LAWS : MetadataLaws buf} (alloc_ok : nat -> bool) (find_null : status).

Lemma clone_owned q b h (Q : option positive -> md_heap buf -> Prop) : bufs h !! q = Some b ->
  (alloc_ok (allocs h) = true -> forall p h', bufs h !! p = None -> owns (bufs h) (Some (entries_of b)) (mk_cm (Some p) false) h' -> Q (Some p) h') ->
  (alloc_ok (allocs h) = false -> forall h', bufs h' = bufs h -> Q None h') ->
  mdwp (clone_camera_metadata alloc_ok (Some q)) Q h.
Proof.
  intros Hq H1 H2. apply (mdwp_clone _ q b); [done|]. unfold mdwp, new_buffer. destruct (alloc_ok _) eqn:Ha.
  - assert (Hp : bufs h !! fresh (dom (bufs h)) = None) by (apply not_elem_of_dom, is_fresh). apply H1; [done|done|]. exists (copy_camera_metadata b). cbn. split_and!; [apply lookup_insert_eq|by apply delete_insert_id|apply copy_is].
  - by apply H2.
Qed.

(** C10. A result of the vendor with metadata is delivered with every entry the framework
    cannot read removed and the others as they are, in one part; when the copy cannot be
    allocated the vendor's result is delivered as it is.  The vendor's buffer stays as it
    was, and no memory is left behind: the copy lives exactly as long as the call. *)
Theorem results_sanitized r q b h : result r = Some q -> bufs h !! q = Some b -> NoDup (tags b) ->
  mdwp (camera3_process_capture_result_callback alloc_ok find_null true (Some r)) (fun x h' => bufs h' = bufs h /\
    if alloc_ok (allocs h) then
      exists p b', x = Some (mk_result (frame_number r) 0 (Some p) (output_buffers r), Some b') /\ p <> q /\
        NoDup (tags b') /\ cmap (entries_of b') = without kLegacyBadResultTags (cmap (entries_of b))
    else x = Some (r, Some b)) h.
Proof.
  intros Hr Hq Hnd. cbn [camera3_process_capture_result_callback negb]. rewrite Hr. apply mdwp_bind.
  eapply clone_owned; [exact Hq|..].
  - intros -> p h1 Hp Ho. apply mdwp_bind. unfold acquire. cbn [mLocked new_empty clear mBuffer]. apply mdwp_bind, mdwp_ret. cbn [set_buffer mLocked].
    apply mdwp_ret. apply mdwp_bind. eapply mdwp_mono; [by eapply (remove_tags_spec find_null)|]. cbn beta.
    intros _ h2 (l2 & Ho2 & Hnd2 & Hm2). cbn [getAndLock mBuffer]. apply mdwp_bind. unfold deliver. cbn [result].
    assert (Hb := Ho2). destruct Hb as (b2 & Hp2 & HR2 & Hl2). apply mdwp_bind, (mdwp_at _ b2); [done|]. apply mdwp_ret.
    apply mdwp_bind. eapply (destroy_owned (bufs h) (Some l2)); [by exists b2|]. intros m' h3 Hh3. apply mdwp_ret.
    split; [done|]. exists p, b2. rewrite <- Hl2 in *. split_and!; [done|congruence|done|done].
  - intros Ha h1 Hh1. rewrite Ha. unfold deliver. rewrite Hr. apply mdwp_bind, (mdwp_at _ b); [by rewrite Hh1|]. by apply mdwp_ret.
Qed.

(** A template of the vendor with entries is returned as a copy without the entries the
    framework cannot read; the vendor's buffer is untouched, and the copy is the only
    buffer that is left, one more on every call.  An empty template is no template. *)
Theorem templates_sanitized q b h : (forall n, alloc_ok n = true) -> bufs h !! q = Some b -> NoDup (tags b) ->
  mdwp (camera3_construct_default_request_settings alloc_ok find_null true (Some q)) (fun x h' =>
    match entries_of b with
    | [] => x = None /\ bufs h' = bufs h
    | _ :: _ => exists p b', x = Some p /\ bufs h !! p = None /\ bufs h' = <[p := b']> (bufs h) /\
        NoDup (tags b') /\ cmap (entries_of b') = without kLegacyBadTemplateTags (cmap (entries_of b))
    end) h.
Proof.
  intros Ha Hq Hnd. cbn [camera3_construct_default_request_settings negb]. apply mdwp_bind. unfold assign, new_empty.
  cbn [mLocked mBuffer]. rewrite bool_decide_eq_false_2 by done. apply mdwp_bind. eapply clone_owned; [exact Hq| |by rewrite Ha].
  intros _ p1 h1 Hp1 Ho1. apply mdwp_bind, mdwp_ret, mdwp_ret. cbn [set_buffer mLocked].
  assert (Hb := Ho1). destruct Hb as (b1 & Hb1 & HR1 & Hl1). cbn [mBuffer] in Hb1.
  apply mdwp_bind. unfold isEmpty, entryCount. cbn [mBuffer]. apply mdwp_bind, mdwp_bind, (mdwp_at _ b1); [done|].
  apply mdwp_ret, mdwp_ret. unfold get_camera_metadata_entry_count. rewrite Hl1. unfold tags in Hnd.
  destruct (entries_of b) as [|e l] eqn:Hl.
  - change (zlen [] =? 0) with true. apply mdwp_bind, mdwp_ret, mdwp_bind. eapply (destroy_owned (bufs h) (Some [])); [exact Ho1|].
    intros m' h2 Hh2. by apply mdwp_ret.
  - rewrite zlen_cons. pose proof (zlen_nonneg l). rewrite (proj2 (Z.eqb_neq _ 0)) by lia. apply mdwp_bind.
    unfold camera3_fixup_construct_default_request_settings, new_copy. apply mdwp_bind, mdwp_bind. cbn [mBuffer].
    eapply (clone_owned p1 b1); [exact Hb1| |by rewrite Ha].
    intros _ p2 h2 Hp2 Ho2. apply mdwp_ret, mdwp_bind. rewrite Hl1 in Ho2.
    eapply mdwp_mono; [by eapply (remove_tags_spec find_null)|]. intros _ h3 (l3 & Ho3 & Hnd3 & Hm3).
    cbn [release mLocked mBuffer set_buffer]. apply mdwp_bind, mdwp_ret, mdwp_ret.
    destruct Ho3 as (b3 & Hb3 & HR3 & Hl3). cbn [mBuffer] in Hb3.
    assert (Hne : p1 <> p2) by congruence.
    apply mdwp_bind. eapply (destroy_owned (delete p1 (bufs h3)) (Some (entries_of b1))).
    { exists b1. split_and!; [|done|done]. cbn. rewrite <- (lookup_delete_ne _ p2) by done. by rewrite HR3. }
    intros m' h4 Hh4. apply mdwp_ret. exists p2, b3. rewrite <- Hl3 in *. split_and!; [done| | |done|done].
    + rewrite <- HR1, lookup_delete_ne by done. exact Hp2.
    + rewrite Hh4, <- HR1, <- HR3. rewrite <- delete_insert_ne by done. by rewrite insert_delete_eq, insert_id.
Qed.
End delivered.

(** ** Data spaces *)

Section spaces.
Context (STREAM_OUTPUT BLOB : Z).

#[local] Abbreviation blob := (is_blob STREAM_OUTPUT BLOB).

Definition pointers (l : list (option positive)) : list positive := omap (fun x => x) l.

(** A stream of the list as the vendor sees it. *)
Definition hidden (s : stream) : stream := if blob s then set_space 0 s else s.

Lemma set_space_id s : set_space (data_space s) s = s.
Proof. by destruct s. Qed.

Lemma force_spec l i o h : NoDup (pointers l) -> (forall p, p ∈ pointers l -> is_Some (h !! p)) -> (i + length l <= length o)%nat ->
  exists o' h', force_dataspace STREAM_OUTPUT BLOB i l o h = Some (o', h') /\
    (forall j, (j < i)%nat -> o' !! j = o !! j) /\
    (forall k p s, l !! k = Some (Some p) -> h !! p = Some s -> o' !! (i + k)%nat = Some (data_space s)) /\
    forall p, h' !! p = if bool_decide (p ∈ pointers l) then hidden <$> h !! p else h !! p.
Proof.
  revert i o h. induction l as [|[p|] l IH]; intros i o h Hnd Hin Hlen; cbn [force_dataspace pointers omap list_omap] in *.
  - exists o, h. split_and!; [done|done|by intros|done].
  - apply NoDup_cons in Hnd as [Hp Hnd]. destruct (Hin p) as [s Hs]; [by left|]. rewrite Hs. cbn [mbind option_bind].
    set (h1 := if _ : bool then _ else h).
    assert (Hh1 : forall q, h1 !! q = if bool_decide (q = p) then hidden <$> h !! q else h !! q).
    { intros q. unfold h1, hidden. case_bool_decide as Hq; [subst q; rewrite Hs; cbn|].
      - destruct (blob s) eqn:Hb; cbn [andb]; [|done]. destruct (data_space s =? 0) eqn:Hz; cbn [negb].
        + breflect. rewrite Hs. f_equal. rewrite <- Hz. symmetry. apply set_space_id.
        + by rewrite lookup_insert_eq.
      - destruct (_ && _); [|done]. by rewrite lookup_insert_ne. }
    destruct (IH (S i) (<[i := data_space s]> o) h1) as (o' & h' & He & Hlt & Hsave & Hh'); [done| | |].
    { intros q Hq. rewrite Hh1. case_bool_decide; [subst; by rewrite Hs|]. apply Hin. by right. }
    { rewrite length_insert. cbn in Hlen. lia. }
    exists o', h'. split_and!; [exact He|..].
    + intros j Hj. rewrite Hlt by lia. apply list_lookup_insert_ne. lia.
    + intros [|k] q t Hk Ht; cbn in Hk.
      * injection Hk as <-. rewrite Hs in Ht. injection Ht as <-. rewrite Nat.add_0_r, Hlt by lia. apply list_lookup_insert_eq. cbn in Hlen. lia.
      * replace (i + S k)%nat with (S i + k)%nat by lia. apply (Hsave k q); [done|]. rewrite Hh1, bool_decide_eq_false_2; [done|].
        intros ->. apply Hp. apply list_elem_of_omap. exists (Some p). split; [by eapply list_elem_of_lookup_2|done].
    + intros q. rewrite Hh', !Hh1. destruct (decide (q = p)) as [->|Hne].
      * rewrite (bool_decide_eq_true_2 (p = p)), (bool_decide_eq_true_2 (p ∈ p :: _)), bool_decide_eq_false_2; [done|done|by left|done].
      * rewrite (bool_decide_eq_false_2 (q = p)) by done.
        rewrite (bool_decide_ext (q ∈ p :: omap (fun x => x) l) (q ∈ omap (fun x => x) l)); [done|]. rewrite elem_of_cons. naive_solver.
  - destruct (IH (S i) o h) as (o' & h' & He & Hlt & Hsave & Hh'); [done|done|cbn in Hlen; lia|]. exists o', h'.
    split_and!; [exact He|intros; apply Hlt; lia| |exact Hh']. intros [|k] p s Hk Hs; [done|].
    replace (i + S k)%nat with (S i + k)%nat by lia. by apply (Hsave k p).
Qed.

Lemma restore_spec (orig : positive -> Z) l i o h :
  (forall p, p ∈ pointers l -> is_Some (h !! p)) ->
  (forall k p, l !! k = Some (Some p) -> o !! (i + k)%nat = Some (orig p)) ->
  exists h', restore_dataspace STREAM_OUTPUT BLOB i l o h = Some h' /\
    forall p, h' !! p = if bool_decide (p ∈ pointers l) then (fun s => if blob s then set_space (orig p) s else s) <$> h !! p else h !! p.
Proof.
  revert i h. induction l as [|[p|] l IH]; intros i h Hin Ho; cbn [restore_dataspace pointers omap list_omap] in *.
  - by exists h.
  - destruct (Hin p) as [s Hs]; [by left|]. rewrite Hs. cbn [mbind option_bind].
    assert (Hop := Ho 0%nat p eq_refl). rewrite Nat.add_0_r in Hop. rewrite Hop. set (h1 := if _ : bool then _ else h).
    assert (Hh1 : forall q, h1 !! q = if bool_decide (q = p) then (fun s => if blob s then set_space (orig q) s else s) <$> h !! q else h !! q).
    { intros q. unfold h1. case_bool_decide as Hq; [subst q; rewrite Hs; cbn|].
      - destruct (blob s) eqn:Hb; cbn [andb]; [|done]. destruct (data_space s =? orig p) eqn:Hz; cbn [negb].
        + breflect. rewrite Hs. f_equal. rewrite <- Hz. symmetry. apply set_space_id.
        + by rewrite lookup_insert_eq.
      - destruct (_ && _); [|done]. by rewrite lookup_insert_ne. }
    destruct (IH (S i) h1) as (h' & He & Hh').
    { intros q Hq. rewrite Hh1. case_bool_decide; [subst; by rewrite Hs|]. apply Hin. by right. }
    { intros k q Hk. replace (S i + k)%nat with (i + S k)%nat by lia. by apply Ho. }
    exists h'. split; [exact He|]. intros q. rewrite Hh', !Hh1. destruct (decide (q = p)) as [->|Hne].
    + rewrite (bool_decide_eq_true_2 (p = p)), (bool_decide_eq_true_2 (p ∈ p :: _)) by (done || by left).
      rewrite Hs. cbn. case_bool_decide; [|done]. f_equal. destruct (blob s) eqn:Hb; [|by rewrite Hb].
      change (blob (set_space (orig p) s)) with (blob s). by rewrite Hb.
    + rewrite (bool_decide_eq_false_2 (q = p)) by done.
      rewrite (bool_decide_ext (q ∈ p :: omap (fun x => x) l) (q ∈ omap (fun x => x) l)); [done|]. rewrite elem_of_cons. naive_solver.
  - destruct (IH (S i) h) as (h' & He & Hh'); [done| |by exists h'].
    intros k p Hk. replace (S i + k)%nat with (i + S k)%nat by lia. by apply Ho.
Qed.

(** C27. While the vendor configures up to sixteen different streams it sees the data space
    0 on every BLOB output; afterwards each BLOB output of the list has the data space it
    had, whatever the vendor did to it, and every other stream is as the vendor left it. *)
Theorem dataspace_restored vendor l h : NoDup (pointers l) -> (length l <= 16)%nat ->
  (forall p, p ∈ pointers l -> is_Some (h !! p)) ->
  (forall h0 p s, h0 !! p = Some s -> exists ds, (vendor h0).2 !! p = Some (set_space ds s)) ->
  exists h0 h', camera3_configure_streams STREAM_OUTPUT BLOB true vendor (Some l) h = Some ((vendor h0).1, h') /\
    (forall p, h0 !! p = if bool_decide (p ∈ pointers l) then hidden <$> h !! p else h !! p) /\
    forall p, h' !! p = if bool_decide (p ∈ pointers l) && from_option blob false (h !! p) then h !! p else (vendor h0).2 !! p.
Proof.
  intros Hnd Hlen Hin Hv. cbn [camera3_configure_streams negb].
  destruct (force_spec l 0 (replicate 16 0) h Hnd Hin) as (o & h0 & He & _ & Hsave & Hh0); [by rewrite length_replicate|].
  rewrite He. cbn [mbind option_bind]. specialize (Hv h0). destruct (vendor h0) as [ret h1] eqn:Hvh. cbn [snd fst] in *.
  destruct (restore_spec (fun p => from_option data_space 0 (h !! p)) l 0 o h1) as (h' & Hr & Hh').
  - intros p Hp. destruct (Hin p Hp) as [s Hs]. destruct (Hv p (hidden s)) as [ds Hds]; [|by rewrite Hds].
    by rewrite Hh0, bool_decide_eq_true_2, Hs.
  - intros k p Hk. destruct (Hin p) as [s Hs].
    { apply list_elem_of_omap. exists (Some p). split; [by eapply list_elem_of_lookup_2|done]. }
    rewrite (Hsave k p s Hk Hs). by rewrite Hs.
  - rewrite Hr. exists h0, h'. rewrite Hvh. split_and!; [done|exact Hh0|]. intros p. rewrite Hh'.
    destruct (decide (p ∈ pointers l)) as [Hp|Hp]; [rewrite !(bool_decide_eq_true_2 _ Hp)|by rewrite !(bool_decide_eq_false_2 _ Hp)].
    destruct (Hin p Hp) as [s Hs]. destruct (Hv p (hidden s)) as [ds Hds]; [by rewrite Hh0, bool_decide_eq_true_2, Hs|].
    rewrite Hs, Hds. cbn. unfold hidden. destruct s as [ty fmt sp]. destruct (blob (mk_stream ty fmt sp)) eqn:Hb; cbn [andb].
    + change (blob (set_space ds (set_space 0 (mk_stream ty fmt sp)))) with (blob (mk_stream ty fmt sp)). by rewrite Hb.
    + change (blob (set_space ds (mk_stream ty fmt sp))) with (blob (mk_stream ty fmt sp)). rewrite Hb, Hds. unfold hidden. by rewrite Hb.
Qed.
End spaces.

(** ** What a device takes *)

Fixpoint initialize_all (calls : list (bool * Z)) (d : wrapper_device) (h : ledger) : wrapper_device * ledger :=
  match calls with
  | [] => (d, h)
  | (calloc_ok, vendor_rv) :: calls =>
      let '(_, d, h) := camera3_initialize calloc_ok vendor_rv d h in initialize_all calls d h
  end.

(** The tables of an open device. *)
Definition holds_device (d : wrapper_device) (h0 h : ledger) : Prop :=
  devices h = devices h0 + 1 /\ ops_tables h = ops_tables h0 + 1 /\ vendor_devices h = vendor_devices h0 + 1 /\
  callback_tables h = callback_tables h0 + (if callback_ops d then 1 else 0).

Lemma initialize_holds h0 calloc_ok rv d h : holds_device d h0 h ->
  let '(_, d', h') := camera3_initialize calloc_ok rv d h in holds_device d' h0 h'.
Proof.
  unfold holds_device, camera3_initialize. destruct (callback_ops d) eqn:Hd; [by rewrite Hd|].
  destruct calloc_ok; cbn; rewrite ?Hd; lia.
Qed.

Lemma initialize_all_holds h0 calls : forall d h, holds_device d h0 h ->
  holds_device (initialize_all calls d h).1 h0 (initialize_all calls d h).2.
Proof.
  induction calls as [|[c rv] calls IH]; intros d h Hd; [done|]. cbn.
  pose proof (initialize_holds h0 c rv d h Hd) as Hi. destruct (camera3_initialize c rv d h) as [[? d'] h']. by apply IH.
Qed.

(** Closing an opened device, after any number of initializations that succeed or not,
    returns everything it took.  An opening that fails takes nothing, unless the table of
    operations cannot be allocated: then the device of the vendor stays open for good. *)
Theorem device_returns_everything module_rv num_cameras malloc_device open_rv malloc_ops name h :
  match camera3_device_open module_rv num_cameras malloc_device open_rv malloc_ops name h with
  | (rv, Some (Some d), h1) => rv = 0 /\
      forall calls, let '(d', h2) := initialize_all calls d h1 in camera3_device_close (Some d') h2 = (0, h)
  | (rv, _, h1) =>
      devices h1 = devices h /\ ops_tables h1 = ops_tables h /\ callback_tables h1 = callback_tables h /\
      vendor_devices h1 = vendor_devices h +
        (if bool_decide (is_Some name) && (module_rv =? 0) && (atoi (default [] name) <=? num_cameras) && malloc_device &&
            (open_rv =? 0) && negb malloc_ops then 1 else 0)
  end.
Proof.
  unfold camera3_device_open. destruct name as [name|]; [change (default [] (Some name)) with name|cbn; lia].
  rewrite bool_decide_eq_true_2 by done. destruct (module_rv =? 0); cbn [negb andb]; [|cbn; lia].
  rewrite Z.leb_antisym. destruct (num_cameras <? atoi name); cbn [negb andb]; [cbn; lia|].
  destruct malloc_device; cbn [negb andb]; [|cbn; lia]. destruct (open_rv =? 0); cbn [negb andb]; [|cbn; lia].
  destruct malloc_ops; cbn [negb]; [|cbn; lia]. split; [done|]. intros calls.
  set (d := mk_wdev _ _). set (h1 := mk_ledger _ _ _ _).
  assert (Hh : holds_device d h h1) by (unfold holds_device; cbn; lia).
  apply (initialize_all_holds h calls) in Hh. destruct (initialize_all calls d h1) as [d' h2]. cbn [fst snd] in *.
  destruct Hh as (H1 & H2 & H3 & H4). unfold camera3_device_close. rewrite H1, H2, H3, H4. destruct h as [a b c e]. cbn.
  f_equal. f_equal; try lia. destruct (callback_ops d'); lia.
Qed.

(** ** On a list of entries *)

#[local] Instance result_lib : MetadataLib ref_buf := RefMetadata (fun _ => Some TYPE_BYTE).
#[local] Instance result_laws : MetadataLaws ref_buf := RefLaws (fun _ => Some TYPE_BYTE).

Definition result_buf : ref_buf := mk_ref [mk_entry 7 [1]; mk_entry 1638400 [9]; mk_entry 1835013 [2]] 3 0.
Definition result_heap : md_heap ref_buf := mk_heap {[1%positive := result_buf]} 1.

Example results_sanitized_witness :
  mdwp (camera3_process_capture_result_callback (fun _ => true) BAD_VALUE true (Some (mk_result 30 99 (Some 1%positive) 5)))
    (fun x h' => bufs h' = bufs result_heap /\
      exists p b', x = Some (mk_result 30 0 (Some p) 5, Some b') /\ p <> 1%positive /\ NoDup (tags b') /\
        cmap (entries_of b') = without kLegacyBadResultTags (cmap (entries_of result_buf))) result_heap.
Proof.
  apply (results_sanitized (fun _ => true) BAD_VALUE (mk_result 30 99 (Some 1%positive) 5) 1 result_buf result_heap);
    [done|done|apply (bool_decide_eq_true_1 _); vm_compute; reflexivity].
Defined.

Example templates_sanitized_witness :
  mdwp (camera3_construct_default_request_settings (fun _ => true) BAD_VALUE true (Some 1%positive)) (fun x h' =>
    match entries_of result_buf with
    | [] => x = None /\ bufs h' = bufs result_heap
    | _ :: _ => exists p b', x = Some p /\ bufs result_heap !! p = None /\ bufs h' = <[p := b']> (bufs result_heap) /\
        NoDup (tags b') /\ cmap (entries_of b') = without kLegacyBadTemplateTags (cmap (entries_of result_buf))
    end) result_heap.
Proof.
  apply (templates_sanitized (fun _ => true) BAD_VALUE 1 result_buf result_heap (fun _ => eq_refl) eq_refl).
  apply (bool_decide_eq_true_1 _). vm_compute. reflexivity.
Defined.

(** The list of tags of templates lacks one of those of results. *)
Example template_keeps_tag : filter (fun t => t ∉ kLegacyBadTemplateTags) kLegacyBadResultTags = [1835013].
Proof. reflexivity. Qed.

(** *** Streams *)

Definition blob_stream (ds : Z) : stream := mk_stream 0 33 ds.
Definition seen (h : gmap positive stream) : Z * gmap positive stream := (0, set_space 7 <$> h).
Definition two_streams : gmap positive stream := {[1%positive := blob_stream 3; 2%positive := mk_stream 0 35 4]}.

Example dataspace_restored_witness :
  exists h0 h', camera3_configure_streams 0 33 true seen (Some [Some 1%positive; None; Some 2%positive]) two_streams =
      Some ((seen h0).1, h') /\
    (forall p, h0 !! p = if bool_decide (p ∈ pointers [Some 1%positive; None; Some 2%positive])
       then hidden 0 33 <$> two_streams !! p else two_streams !! p) /\
    forall p, h' !! p = if bool_decide (p ∈ pointers [Some 1%positive; None; Some 2%positive]) &&
                          from_option (is_blob 0 33) false (two_streams !! p)
                        then two_streams !! p else (seen h0).2 !! p.
Proof.
  apply (dataspace_restored 0 33 seen [Some 1%positive; None; Some 2%positive] two_streams).
  - apply (bool_decide_eq_true_1 _). vm_compute. reflexivity.
  - cbn. lia.
  - intros p Hp. assert (p = 1%positive \/ p = 2%positive) as [-> | ->] by (cbn in Hp; set_solver); by eexists.
  - intros h0 p s Hs. exists 7. cbn. by rewrite lookup_fmap, Hs.
Defined.

Definition spaces_after (l : list (option positive)) (h : gmap positive stream) : option (list (option Z)) :=
  '(_, h) ← camera3_configure_streams 0 33 true (fun h => (0, h)) (Some l) h; Some ((fun p => data_space <$> (p ≫= fun p => h !! p)) <$> l).

(** The seventeenth stream, and one that is in the list twice, lose their data spaces. *)
Example seventeenth_is_lost : spaces_after (replicate 16 None ++ [Some 1%positive]) two_streams = Some (replicate 16 None ++ [Some 0]).
Proof. vm_compute. reflexivity. Qed.
Example listed_twice_is_lost : spaces_after [Some 1%positive; Some 1%positive] two_streams = Some [Some 0; Some 0].
Proof. vm_compute. reflexivity. Qed.

(** *** Devices *)

(** The number after the last camera is let through to the vendor. *)
Example one_too_many : (camera3_device_open 0 2 true 0 true (Some (lit "2")) (mk_ledger 0 0 0 0)).1.1 = 0.
Proof. reflexivity. Qed.

Example vendor_left_open : (camera3_device_open 0 2 true 0 false (Some (lit "0")) (mk_ledger 0 0 0 0)).2 = mk_ledger 0 0 0 1.
Proof. reflexivity. Qed.
