(* ===== verification/V4l2Device.v ===== *)
(** * The V4L2 device class ([camera/v4l2/V4l2Device.cpp])

    A descriptor, the buffers mapped through it and the streaming flag, one definition
    per method.  The system ([vsys]) keeps the descriptors and mappings that are live and
    the calls made; [kernel] answers them and may look at all of it.  Closing a descriptor
    or unmapping an address that is not live sets [bad]; an index past the vector of
    buffers is undefined ([None]).  The structures a call fills in for its caller are
    returned when a later step depends on them. *)

From S2P Require Import Prelude.

(** ** Data *)

Record V4l2Buffer := mk_buf { start : option Z; b_length : Z; b_fd : Z }.

Record v4l2_device := mk_dev {
  mFd : Z; mStreaming : bool; mMemory : Z; mBufferCount : Z; mBuffers : list V4l2Buffer; mBufType : Z }.

Inductive vrequest :=
| QUERYCAP | ENUMINPUT (index : Z) | S_INPUT (index : Z) | G_INPUT | ENUM_FMT (type index : Z) | G_FMT (type : Z)
| S_FMT (type width height pixelFormat : Z) | REQBUFS (count type memory : Z) | QUERYBUF (type memory index : Z)
| EXPBUF (type index : Z) | STREAMON (type : Z) | STREAMOFF (type : Z) | DQBUF (type memory : Z) | QBUF (type memory index : Z).

Inductive vevent := VIoctl (fd : Z) (r : vrequest) (ok : bool) | VPoll (fd timeout_ms : Z).

(** Live descriptors, mappings with their lengths, misuse, and the calls so far. *)
Record vsys := mk_sys { fds : gset Z; maps : gmap Z Z; bad : bool; trace : list vevent }.

(** What the system answers: a negative descriptor and [None] are failures. *)
Record vkernel := mk_vkernel {
  k_open : vsys -> string -> Z;
  k_errno : vsys -> Z;
  k_ioctl : vsys -> vrequest -> bool;
  k_input : vsys -> Z;
  k_reqcount : vsys -> Z;
  k_querybuf : vsys -> Z -> Z * Z;                 (* length and offset *)
  k_expfd : vsys -> Z;
  k_mmap : vsys -> Z -> Z -> option Z;
  k_poll : vsys -> option (Z * bool) }.            (* the count, and POLLIN *)

Definition VM (A : Type) : Type := v4l2_device -> vsys -> option (A * (v4l2_device * vsys)).

#[export] Instance vm_ret : MRet VM := fun A x d s => Some (x, (d, s)).
#[export] Instance vm_bind : MBind VM := fun A B f m d s => '(x, (d, s)) ← m d s; f x d s.

Definition EAGAIN : Z := 11.
Definition EINVAL : Z := 22.

Definition VIDEO_CAPTURE : Z := 1.
Definition MEMORY_MMAP : Z := 1.

Definition V4l2Device : v4l2_device := mk_dev (-1) false MEMORY_MMAP 0 [] VIDEO_CAPTURE.

Definition dev : VM v4l2_device := fun d s => Some (d, (d, s)).
Definition sys : VM vsys := fun d s => Some (s, (d, s)).
Definition set_dev (f : v4l2_device -> v4l2_device) : VM unit := fun d s => Some (tt, (f d, s)).
Definition set_sys (f : vsys -> vsys) : VM unit := fun d s => Some (tt, (d, f s)).
Definition undefined {A} : VM A := fun _ _ => None.

Definition set_fd (fd : Z) (d : v4l2_device) := mk_dev fd (mStreaming d) (mMemory d) (mBufferCount d) (mBuffers d) (mBufType d).
Definition set_streaming (b : bool) (d : v4l2_device) := mk_dev (mFd d) b (mMemory d) (mBufferCount d) (mBuffers d) (mBufType d).
Definition set_type (t : Z) (d : v4l2_device) := mk_dev (mFd d) (mStreaming d) (mMemory d) (mBufferCount d) (mBuffers d) t.
Definition set_bufs (l : list V4l2Buffer) (d : v4l2_device) :=
  mk_dev (mFd d) (mStreaming d) (mMemory d) (mBufferCount d) l (mBufType d).
Definition set_request (memory n : Z) (d : v4l2_device) := mk_dev (mFd d) (mStreaming d) memory n (mBuffers d) (mBufType d).

(** ** System calls *)

Definition munmap (a len : Z) : VM unit := set_sys (fun s =>
  if bool_decide (maps s !! a = Some len) then mk_sys (fds s) (delete a (maps s)) (bad s) (trace s)
  else mk_sys (fds s) (maps s) true (trace s)).

Definition close_fd (fd : Z) : VM unit := set_sys (fun s =>
  if bool_decide (fd ∈ fds s) then mk_sys (fds s ∖ {[fd]}) (maps s) (bad s) (trace s)
  else mk_sys (fds s) (maps s) true (trace s)).

Definition record (e : vevent) : VM unit := set_sys (fun s => mk_sys (fds s) (maps s) (bad s) (trace s ++ [e])).

Section device.
Context (K : vkernel).

(** The [errno] of a call that fails. *)
Definition ioctl (r : vrequest) : VM (option Z) :=
  d ← dev; s ← sys;
  _ ← record (VIoctl (mFd d) r (k_ioctl K s r));
  mret (if k_ioctl K s r then None else Some (k_errno K s)).

Definition ret_of (err : option Z) : Z := match err with None => 0 | Some e => - e end.

(** A method that only asks the driver. *)
Definition ask (r : v4l2_device -> vrequest) : VM Z :=
  d ← dev; if mFd d <? 0 then mret (- EINVAL) else e ← ioctl (r d); mret (ret_of e).

(** ** Opening and closing *)

Definition open (devicePath : string) : VM Z :=
  d ← dev;
  if 0 <=? mFd d then mret 0
  else
    s ← sys;
    let fd := k_open K s devicePath in
    _ ← set_dev (set_fd fd);
    if fd <? 0 then mret (- k_errno K s)
    else _ ← set_sys (fun s => mk_sys ({[fd]} ∪ fds s) (maps s) (bad s) (trace s)); mret 0.

Definition streamOff (type : Z) : VM Z :=
  d ← dev;
  if (mFd d <? 0) || negb (mStreaming d) then mret 0
  else
    e ← ioctl (STREAMOFF type);
    if bool_decide (e = None) then _ ← set_dev (set_streaming false); mret 0 else mret (ret_of e).

(** The loop over the buffers. *)
Fixpoint unmap_all (l : list V4l2Buffer) : VM unit :=
  match l with
  | [] => mret tt
  | b :: l => _ ← (match start b with Some a => munmap a (b_length b) | None => mret tt end); unmap_all l
  end.

Definition close : VM Z :=
  d ← dev;
  if mFd d <? 0 then mret 0
  else
    _ ← (if mStreaming d then streamOff (mBufType d) else mret 0);
    _ ← unmap_all (mBuffers d);
    _ ← set_dev (set_bufs []);
    _ ← close_fd (mFd d);
    _ ← set_dev (set_fd (-1));
    mret 0.

(** ** Queries *)

Definition queryCap : VM Z := ask (fun _ => QUERYCAP).
Definition enumInput (index : Z) : VM Z := ask (fun _ => ENUMINPUT index).
Definition setInput (index : Z) : VM Z := ask (fun _ => S_INPUT index).
Definition getInput : VM Z :=
  d ← dev; s ← sys;
  if mFd d <? 0 then mret (- EINVAL)
  else e ← ioctl G_INPUT; mret (if bool_decide (e = None) then k_input K s else ret_of e).
Definition enumFmt (type index : Z) : VM Z := ask (fun _ => ENUM_FMT type index).
Definition getFmt : VM Z := ask (fun d => G_FMT (mBufType d)).
Definition setFmt (width height pixelFormat : Z) : VM Z := ask (fun d => S_FMT (mBufType d) width height pixelFormat).

(** ** Buffers *)

Definition reqBuffers (count memory : Z) : VM Z :=
  d ← dev; s ← sys;
  if mFd d <? 0 then mret (- EINVAL)
  else
    e ← ioctl (REQBUFS count (mBufType d) memory);
    if negb (bool_decide (e = None)) then mret (ret_of e)
    else
      let n := wrap_s32 (k_reqcount K s) in
      _ ← set_dev (set_request memory n);
      _ ← unmap_all (mBuffers d);
      _ ← set_dev (set_bufs (replicate (Z.to_nat n) (mk_buf None 0 (-1))));
      mret n.

Definition bad_index (d : v4l2_device) (index : Z) : bool := (mFd d <? 0) || (index <? 0) || (mBufferCount d <=? index).

(** The result, and the length and offset in the structure, which was cleared. *)
Definition queryBuffer (index : Z) : VM (Z * (Z * Z)) :=
  d ← dev; s ← sys;
  if bad_index d index then mret (- EINVAL, (0, 0))
  else
    e ← ioctl (QUERYBUF (mBufType d) (mMemory d) index);
    mret (ret_of e, if bool_decide (e = None) then k_querybuf K s index else (0, 0)).

Definition exportBuffer (index : Z) : VM (Z * option Z) :=
  d ← dev; s ← sys;
  if bad_index d index then mret (- EINVAL, None)
  else e ← ioctl (EXPBUF (mBufType d) index); mret (ret_of e, if bool_decide (e = None) then Some (k_expfd K s) else None).

(** The result, and the address and length when it is 0. *)
Definition mapBuffer (index : Z) : VM (Z * option (Z * Z)) :=
  d ← dev;
  if bad_index d index then mret (- EINVAL, None)
  else if negb (mMemory d =? MEMORY_MMAP) then mret (- EINVAL, None)
  else
    '(_, (length, offset)) ← queryBuffer index;
    s ← sys;
    match k_mmap K s length offset with
    | None => mret (- k_errno K s, None)
    | Some addr =>
        _ ← set_sys (fun s => mk_sys (fds s) (<[addr := length]> (maps s)) (bad s) (trace s));
        match mBuffers d !! Z.to_nat index with
        | None => undefined
        | Some b =>
            _ ← set_dev (set_bufs (<[Z.to_nat index := mk_buf (Some addr) length (b_fd b)]> (mBuffers d)));
            mret (0, Some (addr, length))
        end
    end.

Definition unmapBuffer (index : Z) : VM Z :=
  d ← dev;
  match zlookup (mBuffers d) index with
  | None => mret (- EINVAL)
  | Some b =>
      match start b with
      | None => mret 0
      | Some a =>
          _ ← munmap a (b_length b);
          _ ← set_dev (set_bufs (<[Z.to_nat index := mk_buf None 0 (b_fd b)]> (mBuffers d)));
          mret 0
      end
  end.

Definition getBuffer (index : Z) (d : v4l2_device) : option V4l2Buffer := zlookup (mBuffers d) index.

(** ** Streaming *)

Definition streamOn (type : Z) : VM Z :=
  d ← dev;
  if (mFd d <? 0) || mStreaming d then mret (- EINVAL)
  else
    e ← ioctl (STREAMON type);
    if bool_decide (e = None) then _ ← set_dev (fun d => set_type type (set_streaming true d)); mret 0 else mret (ret_of e).

Definition startStreaming : VM Z := streamOn VIDEO_CAPTURE.
Definition stopStreaming : VM Z := streamOff VIDEO_CAPTURE.

(** The retry loop, with the retries left; [None]: a frame is there. *)
Fixpoint wait_frame (tries : nat) (poll_timeout_ms : Z) : VM (option Z) :=
  match tries with
  | O => mret None
  | S tries =>
      d ← dev; s ← sys;
      _ ← record (VPoll (mFd d) poll_timeout_ms);
      match k_poll K s with
      | None => mret (Some (- k_errno K s))
      | Some (pollRet, pollin) =>
          if pollRet =? 0 then
            match tries with O => mret (Some (- EAGAIN)) | _ => wait_frame tries 250 end
          else mret (if pollin : bool then None else Some (- EAGAIN))
      end
  end.

Definition dequeueBuffer : VM Z :=
  d ← dev;
  if mFd d <? 0 then mret (- EINVAL)
  else
    w ← wait_frame 3 500;
    match w with
    | Some r => mret r
    | None => e ← ioctl (DQBUF (mBufType d) (mMemory d)); mret (ret_of e)
    end.

Definition queueBuffer (index : Z) : VM Z := ask (fun d => QBUF (mBufType d) (mMemory d) index).
End device.

(** ** Sequences of calls *)

Inductive v4l2_op :=
| OOpen (path : string) | OClose | OAsk (r : vrequest) | OReqBuffers (count memory : Z) | OMap (index : Z) | OUnmap (index : Z)
| OExport (index : Z) | OQuery (index : Z) | OStreamOn (type : Z) | OStreamOff (type : Z) | ODequeue | OQueue (index : Z).

Section sequences.
Context (K : vkernel).

Definition run_op (op : v4l2_op) : VM unit :=
  match op with
  | OOpen path => _ ← open K path; mret tt
  | OClose => _ ← close K; mret tt
  | OAsk r => _ ← ask K (fun _ => r); mret tt
  | OReqBuffers count memory => _ ← reqBuffers K count memory; mret tt
  | OMap index => _ ← mapBuffer K index; mret tt
  | OUnmap index => _ ← unmapBuffer index; mret tt
  | OExport index => _ ← exportBuffer K index; mret tt
  | OQuery index => _ ← queryBuffer K index; mret tt
  | OStreamOn type => _ ← streamOn K type; mret tt
  | OStreamOff type => _ ← streamOff K type; mret tt
  | ODequeue => _ ← dequeueBuffer K; mret tt
  | OQueue index => _ ← queueBuffer K index; mret tt
  end.

Fixpoint run_ops (ops : list v4l2_op) : VM unit :=
  match ops with [] => mret tt | op :: ops => _ ← run_op op; run_ops ops end.

(** A buffer is mapped when it exists and is not mapped already. *)
Definition op_ok (op : v4l2_op) (d : v4l2_device) : Prop :=
  match op with
  | OMap index => match zlookup (mBuffers d) index with Some b => start b = None | None => False end
  | _ => True
  end.

Fixpoint ops_ok (ops : list v4l2_op) (d : v4l2_device) (s : vsys) : Prop :=
  match ops with
  | [] => True
  | op :: ops => op_ok op d /\ match run_op op d s with Some (_, (d, s)) => ops_ok ops d s | None => True end
  end.

(** ** The invariant *)

Definition started (l : list V4l2Buffer) : list (Z * Z) := omap (fun b => (., b_length b) <$> start b) l.

(** The object accounts for what is live. *)
Record device_inv (d : v4l2_device) (s : vsys) : Prop := {
  inv_fds : fds s = if 0 <=? mFd d then {[mFd d]} else ∅;
  inv_closed : mFd d < 0 -> mBuffers d = [];
  inv_maps : maps s = list_to_map (started (mBuffers d));
  inv_nodup : NoDup (started (mBuffers d)).*1;
  inv_good : bad s = false }.

(** Fresh descriptors and addresses. *)
Record vkernel_ok : Prop := {
  ok_open s path : k_open K s path ∉ fds s;
  ok_mmap s length offset a : k_mmap K s length offset = Some a -> maps s !! a = None }.

Context (Hk : vkernel_ok).

(** *** Rules *)

Definition vwp {A} (m : VM A) (Q : A -> v4l2_device -> vsys -> Prop) (d : v4l2_device) (s : vsys) : Prop :=
  match m d s with Some (x, (d', s')) => Q x d' s' | None => False end.

Lemma vwp_bind {A B} (m : VM A) (f : A -> VM B) Q d s : vwp m (fun x d s => vwp (f x) Q d s) d s -> vwp (m ≫= f) Q d s.
Proof. unfold vwp, mbind, vm_bind. by destruct (m d s) as [[x [d' s']]|]. Qed.

Lemma vwp_mono {A} (m : VM A) (Q R : A -> v4l2_device -> vsys -> Prop) d s :
  vwp m Q d s -> (forall x d s, Q x d s -> R x d s) -> vwp m R d s.
Proof. unfold vwp. destruct (m d s) as [[x [d' s']]|]; [auto|done]. Qed.

Lemma inv_trace d s tr : device_inv d s -> device_inv d (mk_sys (fds s) (maps s) (bad s) tr).
Proof. by intros []. Qed.

Lemma vwp_ioctl r (Q : option Z -> v4l2_device -> vsys -> Prop) d s : device_inv d s ->
  (forall e s', device_inv d s' -> Q e d s') -> vwp (ioctl K r) Q d s.
Proof. intros Hi HQ. unfold vwp, ioctl. cbn. by apply HQ, inv_trace. Qed.

(** The methods that change no more than the trace. *)
Definition quiet {A} (m : VM A) : Prop := forall d s, device_inv d s -> vwp m (fun _ d' s' => d' = d /\ device_inv d s') d s.

Lemma device_quiet_ret {A} (x : A) : quiet (mret x).
Proof. by intros d s Hi. Qed.

Lemma device_quiet_ioctl r : quiet (ioctl K r).
Proof. intros d s Hi. by apply vwp_ioctl. Qed.

Lemma device_quiet_bind {A B} (m : VM A) (f : A -> VM B) : quiet m -> (forall x, quiet (f x)) -> quiet (m ≫= f).
Proof. intros Hm Hf d s Hi. apply vwp_bind. eapply vwp_mono; [by apply Hm|]. intros x d' s' [-> Hi']. by apply Hf. Qed.

Lemma quiet_dev {A} (f : v4l2_device -> VM A) : (forall x, quiet (f x)) -> quiet (d ← dev; f d).
Proof. intros Hf d s Hi. by apply Hf. Qed.

Lemma quiet_sys {A} (f : vsys -> VM A) : (forall x, quiet (f x)) -> quiet (s ← sys; f s).
Proof. intros Hf d s Hi. by apply Hf. Qed.

Ltac quiets := repeat match goal with
  | |- quiet (dev ≫= _) => apply quiet_dev; intros ?
  | |- quiet (sys ≫= _) => apply quiet_sys; intros ?
  | |- quiet (mret _) => apply device_quiet_ret
  | |- quiet (ioctl _ _) => apply device_quiet_ioctl
  | |- quiet (_ ≫= _) => apply device_quiet_bind; [|intros ?]
  | |- quiet (if ?b then _ else _) => destruct b
  | |- quiet (match ?x with _ => _ end) => destruct x
  end.

Lemma quiet_ask r : quiet (ask K r).
Proof. unfold ask. quiets. Qed.
Lemma quiet_query i : quiet (queryBuffer K i).
Proof. unfold queryBuffer. quiets. Qed.
Lemma quiet_export i : quiet (exportBuffer K i).
Proof. unfold exportBuffer. quiets. Qed.
Lemma device_quiet_wait tries t : quiet (wait_frame K tries t).
Proof.
  revert t. induction tries as [|tries IH]; intros t; cbn [wait_frame]; [apply device_quiet_ret|]. apply quiet_dev; intros d0.
  apply quiet_sys; intros s0. apply device_quiet_bind; [intros d s Hi; split; [done|by apply inv_trace]|intros ?]. quiets. apply IH.
Qed.
Lemma quiet_dequeue : quiet (dequeueBuffer K).
Proof. unfold dequeueBuffer. apply quiet_dev; intros d0. case_match; [apply device_quiet_ret|]. apply device_quiet_bind; [apply device_quiet_wait|]. intros ?. quiets. Qed.

Lemma vwp_quiet {A} (m : VM A) (Q : A -> v4l2_device -> vsys -> Prop) d s : quiet m -> device_inv d s ->
  (forall x s', device_inv d s' -> Q x d s') -> vwp m Q d s.
Proof. intros Hm Hi HQ. eapply vwp_mono; [by apply Hm|]. intros x d' s' [-> Hi']. by apply HQ. Qed.

(** *** Mappings *)

Lemma vwp_unmap_all l d s (Q : unit -> v4l2_device -> vsys -> Prop) : maps s = list_to_map (started l) -> NoDup (started l).*1 ->
  Q tt d (mk_sys (fds s) ∅ (bad s) (trace s)) -> vwp (unmap_all l) Q d s.
Proof.
  revert s. induction l as [|b l IH]; intros s Hm Hnd HQ; cbn [unmap_all started omap list_omap] in *.
  - change (mk_sys (fds s) (list_to_map []) (bad s) (trace s)) with (mk_sys (fds s) ∅ (bad s) (trace s)) in HQ.
    cbn in Hm. rewrite <- Hm in HQ. by destruct s.
  - apply vwp_bind. destruct (start b) as [a|]; cbn [fmap option_fmap option_map] in *.
    + cbn in Hm, Hnd. apply NoDup_cons in Hnd as [Ha Hnd]. unfold vwp, munmap, set_sys. rewrite Hm, lookup_insert_eq, bool_decide_eq_true_2 by done.
      apply IH; cbn; [|done|done]. rewrite delete_insert_id; [done|]. by apply not_elem_of_list_to_map_1.
    + by apply IH.
Qed.

Lemma started_empty n : started (replicate n (mk_buf None 0 (-1))) = [].
Proof. induction n as [|n IH]; [done|exact IH]. Qed.

Lemma started_middle l b k : started (l ++ b :: k) = started l ++ omap (fun b => (., b_length b) <$> start b) [b] ++ started k.
Proof. unfold started. rewrite omap_app. f_equal. cbn. by destruct (_ <$> start b). Qed.

(** Replacing one buffer. *)
Lemma started_insert l i b b' : l !! i = Some b ->
  exists xs ys, started l = xs ++ started [b] ++ ys /\ started (<[i := b']> l) = xs ++ started [b'] ++ ys.
Proof.
  intros Hi. exists (started (take i l)), (started (drop (S i) l)).
  rewrite <- (take_drop_middle l i b Hi) at 1. rewrite insert_take_drop by by eapply lookup_lt_Some.
  by rewrite !started_middle.
Qed.

Lemma map_keeps i d s : device_inv d s -> op_ok (OMap i) d -> vwp (mapBuffer K i) (fun _ d' s' => device_inv d' s') d s.
Proof.
  intros Hi Hop. cbn in Hop. destruct (zlookup (mBuffers d) i) as [b|] eqn:Hb; [rename Hop into Hnone|done]. unfold mapBuffer. apply vwp_bind. change (vwp dev ?Q d s) with (Q d d s). cbv beta.
  destruct (bad_index d i) eqn:Hbad; [done|]. case_match; [done|]. apply vwp_bind. apply vwp_quiet; [apply quiet_query|done|].
  intros [r [len off]] s1 Hi1. apply vwp_bind. change (vwp sys ?Q d s1) with (Q s1 d s1). cbv beta.
  destruct (k_mmap K s1 len off) as [a|] eqn:Ha; [|done]. apply (ok_mmap Hk) in Ha. apply vwp_bind.
  unfold zlookup in Hb. destruct (i <? 0); [done|]. rewrite Hb. apply vwp_bind. unfold vwp.
  destruct (started_insert _ _ _ (mk_buf (Some a) len (b_fd b)) Hb) as (xs & ys & H1 & H2).
  destruct Hi1 as [Hf Hc Hm Hnd Hg]. rewrite H1 in Hm, Hnd. unfold started at 1 in Hm. unfold started at 1 in Hnd. cbn in Hm, Hnd. rewrite Hnone in Hm, Hnd. cbn in Hm, Hnd.
  assert (Hp : xs ++ started [mk_buf (Some a) len (b_fd b)] ++ ys ≡ₚ (a, len) :: (xs ++ ys)) by (cbn; by rewrite Permutation_middle).
  assert (Hfresh : a ∉ (xs ++ ys).*1) by (rewrite Hm in Ha; by apply not_elem_of_list_to_map_2 in Ha).
  assert (Hnd2 : NoDup ((a, len) :: xs ++ ys).*1) by (cbn; by apply NoDup_cons).
  rewrite <- Hp in Hnd2. assert (Hnd3 := Hnd2).
  split; cbn [set_bufs mBuffers mFd fds maps bad]; [done| | | |done].
  - intros Hneg. unfold bad_index in Hbad. rewrite (proj2 (Z.ltb_lt _ _) Hneg) in Hbad. done.
  - rewrite H2, Hm. by rewrite (list_to_map_proper _ _ Hnd3 Hp).
  - by rewrite H2.
Qed.

Lemma unmap_keeps i d s : device_inv d s -> vwp (unmapBuffer i) (fun _ d' s' => device_inv d' s') d s.
Proof.
  intros Hi. unfold unmapBuffer. apply vwp_bind. change (vwp dev ?Q d s) with (Q d d s). cbv beta.
  destruct (zlookup (mBuffers d) i) as [b|] eqn:Hb; [|done]. destruct (start b) as [a|] eqn:Ha; [|done].
  unfold zlookup in Hb. destruct (i <? 0); [done|].
  destruct (started_insert _ _ _ (mk_buf None 0 (b_fd b)) Hb) as (xs & ys & H1 & H2).
  destruct Hi as [Hf Hc Hm Hnd Hg]. rewrite H1 in Hm, Hnd. unfold started at 1 in Hm. unfold started at 1 in Hnd. cbn in Hm, Hnd. rewrite Ha in Hm, Hnd. cbn in Hm, Hnd.
  assert (Hp : xs ++ (a, b_length b) :: ys ≡ₚ (a, b_length b) :: (xs ++ ys)) by by rewrite Permutation_middle.
  rewrite (list_to_map_proper _ _ (Hnd) Hp) in Hm. rewrite Hp in Hnd. cbn in Hm, Hnd. apply NoDup_cons in Hnd as [Hfresh Hnd].
  apply vwp_bind. unfold vwp at 1, munmap, set_sys. rewrite Hm, lookup_insert_eq, bool_decide_eq_true_2 by done.
  apply vwp_bind. unfold vwp. split; cbn [set_bufs mBuffers mFd fds maps bad]; [done| | | |done].
  - intros Hneg. specialize (Hc Hneg). rewrite Hc in Hb. done.
  - rewrite H2. cbn. rewrite delete_insert_id; [done|]. by apply not_elem_of_list_to_map_1.
  - by rewrite H2.
Qed.

(** *** The other operations *)

Lemma inv_same d d' s : device_inv d s -> mFd d' = mFd d -> mBuffers d' = mBuffers d -> device_inv d' s.
Proof. intros [Hf Hc Hm Hnd Hg] H1 H2. split; rewrite ?H1, ?H2; done. Qed.

Lemma streamOff_keeps type d s (Q : Z -> v4l2_device -> vsys -> Prop) : device_inv d s ->
  (forall r d' s', device_inv d' s' -> mFd d' = mFd d -> mBuffers d' = mBuffers d -> Q r d' s') -> vwp (streamOff K type) Q d s.
Proof.
  intros Hi HQ. unfold streamOff. apply vwp_bind. change (vwp dev ?Q d s) with (Q d d s). cbv beta.
  destruct (_ || _); [by apply HQ|]. apply vwp_bind. apply vwp_ioctl; [done|]. intros e s1 Hi1. case_bool_decide; [|by apply HQ].
  apply vwp_bind. unfold vwp. cbn. by apply HQ; [eapply inv_same|..].
Qed.

Lemma streamOn_keeps type d s : device_inv d s -> vwp (streamOn K type) (fun _ d' s' => device_inv d' s') d s.
Proof.
  intros Hi. unfold streamOn. apply vwp_bind. change (vwp dev ?Q d s) with (Q d d s). cbv beta.
  destruct (_ || _); [done|]. apply vwp_bind. apply vwp_ioctl; [done|]. intros e s1 Hi1. case_bool_decide; [|done].
  apply vwp_bind. unfold vwp. cbn. by eapply inv_same.
Qed.

Lemma open_keeps path d s : device_inv d s -> vwp (open K path) (fun _ d' s' => device_inv d' s') d s.
Proof.
  intros Hi. unfold open. apply vwp_bind. change (vwp dev ?Q d s) with (Q d d s). cbv beta.
  destruct (0 <=? mFd d) eqn:Hfd; [done|]. apply vwp_bind. change (vwp sys ?Q d s) with (Q s d s). cbv beta.
  destruct Hi as [Hf Hc Hm Hnd Hg]. rewrite Hfd in Hf. apply Z.leb_gt in Hfd. specialize (Hc Hfd).
  apply vwp_bind. unfold vwp at 1, set_dev. destruct (k_open K s path <? 0) eqn:Ho; breflect.
  - split; cbn; rewrite ?Hc in *; try done. by rewrite (proj2 (Z.leb_gt _ _)) by done.
  - apply vwp_bind. unfold vwp. split; cbn; rewrite ?Hc in *; try done.
    rewrite (proj2 (Z.leb_le _ _)) by done. rewrite Hf. set_solver.
Qed.

Lemma request_keeps count memory d s : device_inv d s -> vwp (reqBuffers K count memory) (fun _ d' s' => device_inv d' s') d s.
Proof.
  intros Hi. unfold reqBuffers. apply vwp_bind. change (vwp dev ?Q d s) with (Q d d s). cbv beta.
  apply vwp_bind. change (vwp sys ?Q d s) with (Q s d s). cbv beta. destruct (mFd d <? 0) eqn:Hfd; [done|].
  apply vwp_bind. apply vwp_ioctl; [done|]. intros e s1 Hi1. case_bool_decide; [|done]. cbn [negb].
  destruct Hi1 as [Hf Hc Hm Hnd Hg]. apply vwp_bind. unfold vwp at 1, set_dev. apply vwp_bind.
  apply vwp_unmap_all; [done|done|]. apply vwp_bind. unfold vwp. split; cbn [set_bufs set_request mBuffers mFd fds maps bad].
  - done.
  - apply Z.ltb_ge in Hfd. lia.
  - by rewrite started_empty.
  - rewrite started_empty. constructor.
  - done.
Qed.

(** Closing leaves nothing. *)
Lemma close_releases d s (Q : Z -> v4l2_device -> vsys -> Prop) : device_inv d s ->
  (forall d' s', device_inv d' s' -> mFd d' < 0 -> fds s' = ∅ -> maps s' = ∅ -> Q 0 d' s') -> vwp (close K) Q d s.
Proof.
  intros Hi HQ. unfold close. apply vwp_bind. change (vwp dev ?Q d s) with (Q d d s). cbv beta.
  destruct (mFd d <? 0) eqn:Hfd; breflect.
  { assert (Hi2 := Hi). destruct Hi2 as [Hf Hc Hm Hnd Hg]. rewrite (Hc Hfd) in Hm. rewrite (proj2 (Z.leb_gt _ _) Hfd) in Hf. by apply HQ. }
  apply vwp_bind. assert (Hrest : forall d1 s1, device_inv d1 s1 -> mFd d1 = mFd d -> mBuffers d1 = mBuffers d ->
    vwp (_ ← unmap_all (mBuffers d); _ ← set_dev (set_bufs []); _ ← close_fd (mFd d); _ ← set_dev (set_fd (-1)); mret 0) Q d1 s1).
  { intros d1 s1 [Hf Hc Hm Hnd Hg] H1 H2. rewrite H1, H2 in *. rewrite (proj2 (Z.leb_le _ _) Hfd) in Hf.
    apply vwp_bind, vwp_unmap_all; [done|done|]. apply vwp_bind. unfold vwp at 1, set_dev. apply vwp_bind.
    unfold vwp at 1, close_fd, set_sys. cbn [fds]. rewrite Hf, bool_decide_eq_true_2 by set_solver.
    apply vwp_bind. unfold vwp. cbn.
    assert (He : ({[mFd d]} : gset Z) ∖ {[mFd d]} = ∅) by set_solver. rewrite He.
    apply HQ; [|done..]. split; [done|done|done|constructor|done]. }
  destruct (mStreaming d).
  - apply streamOff_keeps; [done|]. intros r d1 s1 Hi1 H1 H2. by apply Hrest.
  - by apply Hrest.
Qed.

Lemma run_op_keeps op d s : device_inv d s -> op_ok op d -> vwp (run_op op) (fun _ d' s' => device_inv d' s') d s.
Proof.
  intros Hi Hop. destruct op; cbn [run_op]; apply vwp_bind.
  - eapply vwp_mono; [by apply open_keeps|done].
  - by apply close_releases.
  - by apply vwp_quiet; [apply quiet_ask|..].
  - eapply vwp_mono; [by apply request_keeps|done].
  - eapply vwp_mono; [by apply map_keeps|done].
  - eapply vwp_mono; [by apply unmap_keeps|done].
  - by apply vwp_quiet; [apply quiet_export|..].
  - by apply vwp_quiet; [apply quiet_query|..].
  - eapply vwp_mono; [by apply streamOn_keeps|done].
  - by apply streamOff_keeps.
  - by apply vwp_quiet; [apply quiet_dequeue|..].
  - by apply vwp_quiet; [apply quiet_ask|..].
Qed.

Lemma run_ops_keeps ops : forall d s, device_inv d s -> ops_ok ops d s -> vwp (run_ops ops) (fun _ d' s' => device_inv d' s') d s.
Proof.
  induction ops as [|op ops IH]; intros d s Hi Hok; [done|]. destruct Hok as [Hop Hok]. cbn [run_ops].
  apply vwp_bind. pose proof (run_op_keeps op d s Hi Hop) as Hr. unfold vwp in Hr |- * at 1.
  destruct (run_op op d s) as [[[] [d1 s1]]|]; [|done]. by apply IH.
Qed.

Lemma new_device_inv s : fds s = ∅ -> maps s = ∅ -> bad s = false -> device_inv V4l2Device s.
Proof. intros Hf Hm Hg. split; cbn; try done. constructor. Qed.

(** C18. Over any calls that map a buffer only when it exists and is not mapped, whatever
    the driver answers, the object is never used outside its vector, no descriptor is
    closed and no address unmapped that is not live, and closing it then (which its
    destructor does) leaves no descriptor and no mapping. *)
Theorem v4l2_resources ops s : fds s = ∅ -> maps s = ∅ -> bad s = false -> ops_ok ops V4l2Device s ->
  vwp (_ ← run_ops ops; close K) (fun r d' s' => r = 0 /\ mFd d' < 0 /\ fds s' = ∅ /\ maps s' = ∅ /\ bad s' = false) V4l2Device s.
Proof.
  intros Hf Hm Hg Hok. apply vwp_bind. eapply vwp_mono; [by apply run_ops_keeps; [apply new_device_inv|]|].
  intros u d' s' Hi. apply close_releases; [done|]. intros d2 s2 Hi2 Hfd Hf2 Hm2. by destruct Hi2.
Qed.
End sequences.

(** ** Waiting for a frame *)

Section waiting.
Context (K : vkernel).

(** The system after [n] of the polls there may be. *)
Definition after_polls (tries : nat) (t : Z) (n : nat) (d : v4l2_device) (s : vsys) : vsys :=
  mk_sys (fds s) (maps s) (bad s) (trace s ++ (VPoll (mFd d) <$> take n (t :: replicate (tries - 1) 250))).

(** The answer to a poll that reports no frame. *)
Definition no_frame (r : Z) (answer : option (Z * bool)) : Prop :=
  match answer with Some (c, pollin) => negb (c =? 0) && pollin = false /\ r = - EAGAIN | None => True end.

(** The [n]th poll was the last. *)
Lemma device_wait_spec tries t d s : (0 < tries)%nat -> exists w n,
  wait_frame K tries t d s = Some (w, (d, after_polls tries t (S n) d s)) /\ (n < tries)%nat /\
  (forall m, (m < n)%nat -> exists p, k_poll K (after_polls tries t m d s) = Some (0, p)) /\
  match w with
  | None => exists c, k_poll K (after_polls tries t n d s) = Some (c, true) /\ c <> 0
  | Some r => no_frame r (k_poll K (after_polls tries t n d s))
  end.
Proof.
  revert t s. induction tries as [|tries IH]; intros t s Hpos; [lia|]. cbn [wait_frame]. unfold mbind, vm_bind. cbn [dev sys mbind option_bind record set_sys].
  assert (H0 : after_polls (S tries) t 0 d s = s) by (unfold after_polls; cbn; rewrite app_nil_r; by destruct s).
  assert (Hone : forall w, match w with
    | None => exists c, k_poll K s = Some (c, true) /\ c <> 0
    | Some r => no_frame r (k_poll K s) end -> exists w' n,
    Some (w, (d, mk_sys (fds s) (maps s) (bad s) (trace s ++ [VPoll (mFd d) t]))) = Some (w', (d, after_polls (S tries) t (S n) d s)) /\
    (n < S tries)%nat /\ (forall m, (m < n)%nat -> exists p, k_poll K (after_polls (S tries) t m d s) = Some (0, p)) /\
    match w' with
    | None => exists c, k_poll K (after_polls (S tries) t n d s) = Some (c, true) /\ c <> 0
    | Some r => no_frame r (k_poll K (after_polls (S tries) t n d s)) end).
  { intros w Hw. exists w, O. rewrite H0. split_and!; [done|lia|lia|done]. }
  destruct (k_poll K s) as [[c p]|] eqn:Hp; [|by apply Hone].
  destruct (c =? 0) eqn:Hc; breflect.
  - subst c. destruct tries as [|tries]; [by apply Hone|]. set (s1 := mk_sys _ _ _ (trace s ++ _)).
    destruct (IH 250 s1 ltac:(lia)) as (w & n & He & Hn & Hpolls & Hw).
    assert (Hs : forall m, after_polls (S tries) 250 m d s1 = after_polls (S (S tries)) t (S m) d s).
    { intros m. unfold after_polls, s1. cbn. rewrite Nat.sub_0_r. by rewrite <- app_assoc. }
    rewrite !Hs in *. exists w, (S n). split_and!; [done|lia| |done].
    intros [|m] Hm; [rewrite H0; by eexists|]. rewrite <- Hs. apply Hpolls. lia.
  - apply Z.eqb_neq in Hc. destruct p; apply Hone; cbn; rewrite ?Hc; [|done]. exists c. by apply Z.eqb_neq in Hc.
Qed.

(** On an open device a dequeue polls one to three times, for 500, 250 and 250
    milliseconds, again only after a poll that timed out; it asks the driver for a buffer
    exactly when the last poll reported one, and touches nothing else. *)
Theorem dequeue_bounded d s : 0 <= mFd d -> exists n r s',
  dequeueBuffer K d s = Some (r, (d, s')) /\ (n < 3)%nat /\
  (forall m, (m < n)%nat -> exists p, k_poll K (after_polls 3 500 m d s) = Some (0, p)) /\
  match k_poll K (after_polls 3 500 n d s) with
  | Some (c, pollin) =>
      if negb (c =? 0) && pollin
      then exists e, ioctl K (DQBUF (mBufType d) (mMemory d)) d (after_polls 3 500 (S n) d s) = Some (e, (d, s')) /\ r = ret_of e
      else s' = after_polls 3 500 (S n) d s /\ r = - EAGAIN
  | None => s' = after_polls 3 500 (S n) d s
  end.
Proof.
  intros Hfd. unfold dequeueBuffer, mbind, vm_bind. cbn [dev mbind option_bind]. rewrite (proj2 (Z.ltb_ge _ _) Hfd).
  destruct (device_wait_spec 3 500 d s) as (w & n & He & Hn & Hpolls & Hw); [lia|]. rewrite He. cbn [mbind option_bind]. exists n.
  destruct w as [r|].
  - eexists _, _. split_and!; [done|done|done|]. unfold no_frame in Hw.
    destruct (k_poll K _) as [[c p]|] eqn:Hp; [|done]. destruct Hw as [-> ->]. done.
  - destruct Hw as (c & -> & Hc). rewrite (proj2 (Z.eqb_neq _ _) Hc). cbn [negb andb]. eexists _, _. split_and!; [done|done|done|].
    by eexists.
Qed.
End waiting.

(** ** On a driver that grants everything but a stop *)

Definition above (l : list Z) : Z := 1 + foldr Z.max 2 l.

Lemma above_fresh l : above l ∉ l.
Proof.
  assert (Hle : forall x, x ∈ l -> x < above l).
  { unfold above. induction l as [|y l IH]; intros x Hx; [by apply elem_of_nil in Hx|]. cbn.
    apply elem_of_cons in Hx as [->|Hx]; [lia|]. specialize (IH x Hx). lia. }
  intros Hin. specialize (Hle _ Hin). lia.
Qed.

Definition willing (stops : bool) : vkernel := {|
  k_open s _ := above (elements (fds s));
  k_errno _ := 5;
  k_ioctl _ r := match r with STREAMOFF _ => stops | _ => true end;
  k_input _ := 0;
  k_reqcount _ := 2;
  k_querybuf _ i := (4096, 4096 * i);
  k_expfd _ := 9;
  k_mmap s _ _ := Some (above (map_to_list (maps s)).*1);
  k_poll _ := Some (1, true) |}.

Lemma willing_ok stops : vkernel_ok (willing stops).
Proof.
  split.
  - intros s path Hin. by apply elem_of_elements, above_fresh in Hin.
  - intros s len off a [= <-]. apply eq_None_not_Some. intros [v Hv]. apply elem_of_map_to_list in Hv.
    apply (above_fresh (map_to_list (maps s)).*1). apply list_elem_of_fmap. by exists (above (map_to_list (maps s)).*1, v).
Qed.

Definition no_sys : vsys := mk_sys ∅ ∅ false [].

Definition session : list v4l2_op :=
  [OOpen "/dev/video0"; OReqBuffers 4 MEMORY_MMAP; OMap 0; OMap 1; OQueue 0; OStreamOn VIDEO_CAPTURE; ODequeue; OUnmap 1;
   OMap 1; OStreamOff VIDEO_CAPTURE; OReqBuffers 2 MEMORY_MMAP; OMap 0; OClose; OOpen "/dev/video0"]%string.

Example v4l2_resources_witness :
  vwp (_ ← run_ops (willing false) session; close (willing false))
    (fun r d' s' => r = 0 /\ mFd d' < 0 /\ fds s' = ∅ /\ maps s' = ∅ /\ bad s' = false) V4l2Device no_sys.
Proof.
  apply (v4l2_resources (willing false) (willing_ok false) session no_sys); [done|done|done|]. vm_compute. repeat split.
Defined.

Example dequeue_bounded_witness : exists n r s',
  dequeueBuffer (willing true) (mk_dev 3 true 1 0 [] 1) no_sys = Some (r, (mk_dev 3 true 1 0 [] 1, s')) /\ (n < 3)%nat /\
  (forall m, (m < n)%nat -> exists p, Some (1, true) = Some (0, p)) /\
  exists e, ioctl (willing true) (DQBUF 1 1) (mk_dev 3 true 1 0 [] 1) (after_polls 3 500 (S n) (mk_dev 3 true 1 0 [] 1) no_sys) =
    Some (e, (mk_dev 3 true 1 0 [] 1, s')) /\ r = ret_of e.
Proof. apply (dequeue_bounded (willing true) (mk_dev 3 true 1 0 [] 1) no_sys). discriminate. Defined.

(** Mapping a buffer a second time leaks the first mapping. *)
Example mapped_twice_leaks :
  vwp (_ ← run_ops (willing true) [OOpen "/dev/video0"; OReqBuffers 1 MEMORY_MMAP; OMap 0; OMap 0]%string; close (willing true))
    (fun _ _ s' => fds s' = ∅ /\ map_to_list (maps s') = [(3, 4096)]) V4l2Device no_sys.
Proof. vm_compute. done. Qed.

(** A stop that fails while closing leaves the object streaming: opened again, it cannot be
    started. *)
Example failed_stop_blocks :
  vwp (_ ← run_ops (willing false) [OOpen "/dev/video0"; OStreamOn VIDEO_CAPTURE; OClose; OOpen "/dev/video0"]%string; streamOn (willing false) VIDEO_CAPTURE)
    (fun r d' _ => r = - EINVAL /\ mFd d' = 3 /\ mStreaming d' = true) V4l2Device no_sys.
Proof. vm_compute. done. Qed.

(** The count of buffers outlives them: opened again, a mapping is written past the vector. *)
Example stale_count :
  run_ops (willing true) [OOpen "/dev/video0"; OReqBuffers 2 MEMORY_MMAP; OClose; OOpen "/dev/video0"; OMap 0]%string V4l2Device no_sys = None.
Proof. vm_compute. done. Qed.
