(* ===== verification/V4l2Hal.v ===== *)
(** * The sensor HAL variant ([camera/v4l2/MochaCameraHAL.cpp])

    Two cameras behind the NVIDIA misc devices: opening and closing a camera, choosing the
    sensor's resolution from the configured streams, default settings and the table of
    characteristics.  The driver's answers ([hkernel]) may depend on the whole state;
    [None] is undefined behaviour (a mode read past the array of eight).  The settings are
    made with [CameraMetadata], the table with the rows of [StaticMetadata]. *)

From S2P Require Import Prelude.
From S2P Require Import CString.
From S2P Require Import Float32.
From S2P Require Import MetadataLib.
From S2P Require Import CameraMetadata.
From S2P Require Import StaticMetadata.

(** ** State *)

Record mocha_device := mk_mdev { fd : Z; devicePath : string; streaming : bool; width : Z; height : Z }.

Record cam_info := mk_cinfo { c_facing : Z; c_orientation : Z; opened : bool }.

(** The globals, and the descriptors that are open. *)
Record sensor_hal := mk_shal { gDevices : list mocha_device; gCameraInfo : list cam_info; fds : gset Z }.

Record imager_mode := mk_mode { res_x : Z; res_y : Z; mode_rest : Z }.

Record hkernel := mk_hkernel {
  k_open : sensor_hal -> string -> Z;
  k_modes : sensor_hal -> option (Z * list imager_mode);   (* the number and the array; None: it fails *)
  k_mode_wr : sensor_hal -> imager_mode -> bool }.

Definition HM (A : Type) : Type := sensor_hal -> option (A * sensor_hal).
#[export] Instance hm_ret : MRet HM := fun A x h => Some (x, h).
#[export] Instance hm_bind : MBind HM := fun A B f m h => '(x, h) ← m h; f x h.

Definition EINVAL : Z := 22.
Definition EBUSY : Z := 16.

Section hal.
Context (K : hkernel) (OUTPUT FACING_BACK FACING_FRONT : Z).

Definition initial : sensor_hal := mk_shal
  [mk_mdev (-1) "/dev/imx179" false 0 0; mk_mdev (-1) "/dev/ov5693" false 0 0]%string
  [mk_cinfo FACING_BACK 90 false; mk_cinfo FACING_FRONT 270 false] ∅.

Definition get_device (id : nat) : HM mocha_device := fun h => (., h) <$> gDevices h !! id.
Definition put_device (id : nat) (d : mocha_device) : HM unit := fun h =>
  Some (tt, mk_shal (<[id := d]> (gDevices h)) (gCameraInfo h) (fds h)).
Definition set_opened (id : nat) (b : bool) : HM unit := fun h =>
  Some (tt, mk_shal (gDevices h) (alter (fun c => mk_cinfo (c_facing c) (c_orientation c) b) id (gCameraInfo h)) (fds h)).

Definition set_dev_fd (n : Z) (d : mocha_device) : mocha_device := mk_mdev n (devicePath d) (streaming d) (width d) (height d).
Definition set_stream (b : bool) (d : mocha_device) : mocha_device := mk_mdev (fd d) (devicePath d) b (width d) (height d).
Definition set_size (w h : Z) (d : mocha_device) : mocha_device := mk_mdev (fd d) (devicePath d) (streaming d) w h.

(** 0 or -1.  What the two queries answer is only logged. *)
Definition open_sensor (id : nat) : HM Z :=
  d ← get_device id;
  if 0 <=? fd d then mret 0
  else fun h =>
    let n := k_open K h (devicePath d) in
    let h := mk_shal (<[id := set_dev_fd n d]> (gDevices h)) (gCameraInfo h) (if n <? 0 then fds h else {[n]} ∪ fds h) in
    Some (if n <? 0 then -1 else 0, h).

(** The first of the [n] modes from [i] on that has the size.  [None]: the array is read
    past its end. *)
Fixpoint find_mode (modes : list imager_mode) (w h : Z) (i n : nat) : option (option imager_mode) :=
  match n with
  | O => Some None
  | S n =>
      m ← modes !! i;
      if (res_x m =? w) && (res_y m =? h) then Some (Some m) else find_mode modes w h (S i) n
  end.

Definition set_resolution (id : nat) (w h : Z) : HM Z := fun s =>
  match k_modes K s with
  | None => Some (-1, s)
  | Some (num_modes, modes) =>
      found ← find_mode modes w h 0 (Z.to_nat num_modes);
      match found with
      | Some m =>
          if k_mode_wr K s m then (d ← get_device id; _ ← put_device id (set_size w h d); mret 0) s else Some (-1, s)
      | None =>
          if 0 <? num_modes then
            m ← modes !! O;
            if k_mode_wr K s m then (d ← get_device id; _ ← put_device id (set_size (res_x m) (res_y m) d); mret 0) s
            else Some (-1, s)
          else Some (0, s)
      end
  end.

(** ** The device *)

(** The name's camera, or the error. *)
Definition camera_device_open (name : bytes) : HM (Z + nat) := fun h =>
  match (if bool_decide (cstr name = lit "0") then Some 0%nat else if bool_decide (cstr name = lit "1") then Some 1%nat else None) with
  | None => Some (inl (- EINVAL), h)
  | Some id =>
      c ← gCameraInfo h !! id;
      if opened c then Some (inl (- EBUSY), h) else (_ ← set_opened id true; mret (inr id)) h
  end.

Definition camera3_close (id : nat) : HM Z :=
  d ← get_device id;
  _ ← (if 0 <=? fd d then fun h => Some (tt, mk_shal (gDevices h) (gCameraInfo h) (fds h ∖ {[fd d]})) else mret tt);
  _ ← put_device id (set_stream false (if 0 <=? fd d then set_dev_fd (-1) d else d));
  _ ← set_opened id false;
  mret 0.

(** The largest output stream: a type, an unsigned width and height each. *)
Fixpoint largest (l : list (Z * Z * Z)) (best : Z * Z) : Z * Z :=
  match l with
  | [] => best
  | (type, w, h) :: l =>
      largest l (if (type =? OUTPUT) && (wrap_u32 (best.1 * best.2) <? wrap_u32 (w * h)) then (wrap_s32 w, wrap_s32 h) else best)
  end.

Definition camera3_configure_streams (id : nat) (stream_config : option (list (Z * Z * Z))) : HM Z :=
  match stream_config with
  | None => mret (- EINVAL)
  | Some l =>
      let '(w, h) := largest l (0, 0) in
      _ ← (if (0 <? w) && (0 <? h) then
             r ← open_sensor id;
             if r =? 0 then
               _ ← set_resolution id w h;
               d ← get_device id;
               put_device id (set_stream true d)
             else mret tt
           else mret tt);
      mret 0
  end.

(** The buffers are copied to a local array; nothing is called back. *)
Definition camera3_process_capture_request (request : option (option Z)) : Z :=
  match request with Some (Some _) => 0 | _ => - EINVAL end.

Definition camera3_flush (id : nat) : HM Z :=
  d ← get_device id; _ ← put_device id (set_stream false d); mret 0.
End hal.

(** ** Metadata *)

Section metadata.
Context (cst : string -> Z) {buf : Type} {ML : MetadataLib buf} (alloc_ok : nat -> bool) (find_null : status) (junk : Z -> list Z).

#[local] Abbreviation K s := (cst s%string) (only parsing).

Definition camera_rows (facing orientation : Z) : list row :=
  let B := K "HAL_PIXEL_FORMAT_BLOB" in
  let Y := K "HAL_PIXEL_FORMAT_YCbCr_420_888" in
  let O := K "ANDROID_SCALER_AVAILABLE_STREAM_CONFIGURATIONS_OUTPUT" in
  [mk_row "ANDROID_REQUEST_AVAILABLE_CAPABILITIES" (I32 [K "ANDROID_REQUEST_AVAILABLE_CAPABILITIES_BACKWARD_COMPATIBLE"]) 1;
   mk_row "ANDROID_INFO_SUPPORTED_HARDWARE_LEVEL" (U8 [K "ANDROID_INFO_SUPPORTED_HARDWARE_LEVEL_FULL"]) 1;
   mk_row "ANDROID_LENS_FACING" (I32 [facing]) 1;
   mk_row "ANDROID_SENSOR_ORIENTATION" (I32 [orientation]) 1;
   mk_row "ANDROID_CONTROL_MAX_REGIONS" (I32 [3; 3; 3]) 3;
   mk_row "ANDROID_SCALER_AVAILABLE_JPEG_SIZES" (I32 [3264; 2448; 1920; 1080; 1280; 720; 640; 480]) 8;
   mk_row "ANDROID_SCALER_AVAILABLE_PROCESSED_SIZES" (I32 [3264; 2448; 1920; 1080; 1280; 720; 640; 480]) 8;
   mk_row "ANDROID_SCALER_AVAILABLE_STREAM_CONFIGURATIONS"
     (I32 [B; 3264; 2448; O; B; 1920; 1080; O; B; 1280; 720; O; B; 640; 480; O;
           Y; 3264; 2448; O; Y; 1920; 1080; O; Y; 1280; 720; O; Y; 640; 480; O]) 16;
   mk_row "ANDROID_SCALER_AVAILABLE_MIN_FRAME_DURATIONS"
     (I64 [B; 3264; 2448; 33333334; B; 1920; 1080; 33333334; Y; 3264; 2448; 33333334; Y; 1920; 1080; 33333334]) 16;
   mk_row "ANDROID_CONTROL_AF_AVAILABLE_MODES" (U8 [K "ANDROID_CONTROL_AF_MODE_AUTO";
     K "ANDROID_CONTROL_AF_MODE_CONTINUOUS_PICTURE"; K "ANDROID_CONTROL_AF_MODE_OFF"]) 3;
   mk_row "ANDROID_CONTROL_AE_AVAILABLE_MODES" (U8 [K "ANDROID_CONTROL_AE_MODE_ON"; K "ANDROID_CONTROL_AE_MODE_OFF"]) 2;
   mk_row "ANDROID_CONTROL_AWB_AVAILABLE_MODES" (U8 [K "ANDROID_CONTROL_AWB_MODE_AUTO"; K "ANDROID_CONTROL_AWB_MODE_OFF"]) 2;
   mk_row "ANDROID_FLASH_INFO_AVAILABLE" (U8 [K "ANDROID_FLASH_INFO_AVAILABLE_FALSE"]) 1;
   mk_row "ANDROID_SENSOR_INFO_ACTIVE_ARRAY_SIZE" (I32 [0; 0; 3264; 2448]) 4;
   mk_row "ANDROID_SENSOR_INFO_PIXEL_ARRAY_SIZE" (I32 [3264; 2448]) 2;
   mk_row "ANDROID_SENSOR_INFO_PHYSICAL_SIZE" (F32 [f32_dec 367 100; f32_dec 274 100]) 2;
   mk_row "ANDROID_LENS_INFO_AVAILABLE_FOCAL_LENGTHS" (F32 [f32_dec 286 100]) 1;
   mk_row "ANDROID_SENSOR_INFO_SENSITIVITY_RANGE" (I32 [100; 3200]) 2;
   mk_row "ANDROID_SENSOR_INFO_EXPOSURE_TIME_RANGE" (I32 [1000; 1000000]) 2].

(** The buffer, in the order of the additions, and the tags whose arrays were read past
    their ends. *)
Definition create_table (rows : list row) : MD buf (option positive * list string) :=
  p ← allocate_camera_metadata alloc_ok 64 8192;
  match p with
  | None => mret (None, [])
  | Some _ =>
      b ← at_ptr p;
      let '(b, over) := add_rows cst junk rows (b, []) in
      _ ← store_ptr p b;
      mret (p, over)
  end.

Definition create_camera_metadata (facing orientation : Z) : MD buf (option positive * list string) :=
  create_table (camera_rows facing orientation).

Definition normalize_version (version : Z) : Z :=
  if version =? K "CAMERA_DEVICE_API_VERSION_3_0" then K "CAMERA_DEVICE_API_VERSION_3_2" else version.

(** [cache] is [gCameraMetadata].  The facing, orientation and version that are reported, and
    the pointer. *)
Definition camera_get_camera_info (h : sensor_hal) (info : bool) (camera_id : Z) (cache : list (option positive)) :
    MD buf (option (Z * Z * Z * option positive) * list (option positive)) :=
  if negb info || (camera_id <? 0) || (2 <=? camera_id) then mret (None, cache)
  else match gCameraInfo h !! Z.to_nat camera_id with
       | None => md_crash
       | Some c =>
           cache ← (match cache !! Z.to_nat camera_id with
                    | Some (Some _) => mret cache
                    | _ => '(p, _) ← create_camera_metadata (c_facing c) (c_orientation c); mret (<[Z.to_nat camera_id := p]> cache)
                    end);
           mret (Some (c_facing c, c_orientation c, normalize_version (K "CAMERA_DEVICE_API_VERSION_3_2"),
                       mjoin (cache !! Z.to_nat camera_id)), cache)
       end.

(** The default settings are the same for every type of request. *)
Definition settings_calls (d : mocha_device) : list (md_type * Z * list Z) :=
  [(TYPE_BYTE, K "ANDROID_CONTROL_MODE", [K "ANDROID_CONTROL_MODE_AUTO" mod 256]);
   (TYPE_BYTE, K "ANDROID_CONTROL_AE_MODE", [K "ANDROID_CONTROL_AE_MODE_ON" mod 256]);
   (TYPE_BYTE, K "ANDROID_CONTROL_AWB_MODE", [K "ANDROID_CONTROL_AWB_MODE_AUTO" mod 256]);
   (TYPE_BYTE, K "ANDROID_CONTROL_AF_MODE", [K "ANDROID_CONTROL_AF_MODE_CONTINUOUS_PICTURE" mod 256]);
   (TYPE_INT32, K "ANDROID_SCALER_CROP_REGION", i32_bytes [0; 0; width d; height d])].

Fixpoint update_all (l : list (md_type * Z * list Z)) (cm : camera_metadata) : MD buf camera_metadata :=
  match l with
  | [] => mret cm
  | (type, tag, data) :: l => '(_, cm) ← update alloc_ok find_null type tag data false cm; update_all l cm
  end.

Definition camera3_construct_default_request_settings (d : mocha_device) : MD buf (option positive) :=
  cm ← update_all (settings_calls d) new_empty;
  let '(p, cm) := release cm in
  _ ← destroy cm;
  mret p.
End metadata.

(** ** Sequences of calls *)

Inductive hal_call := HOpen (name : bytes) | HClose (id : nat) | HConfigure (id : nat) (l : option (list (Z * Z * Z))) | HFlush (id : nat).

Section sequences.
Context (K : hkernel) (OUTPUT FACING_BACK FACING_FRONT : Z).

Definition run_call (c : hal_call) : HM unit :=
  match c with
  | HOpen name => _ ← camera_device_open name; mret tt
  | HClose id => _ ← camera3_close id; mret tt
  | HConfigure id l => _ ← camera3_configure_streams K OUTPUT id l; mret tt
  | HFlush id => _ ← camera3_flush id; mret tt
  end.

Fixpoint run_calls (cs : list hal_call) : HM unit :=
  match cs with [] => mret tt | c :: cs => _ ← run_call c; run_calls cs end.

Definition is_open (h : sensor_hal) (id : nat) : Prop := opened <$> gCameraInfo h !! id = Some true.

(** A device is only used between its opening and its closing. *)
Definition call_ok (c : hal_call) (h : sensor_hal) : Prop :=
  match c with HOpen _ => True | HClose id | HConfigure id _ | HFlush id => is_open h id end.

Fixpoint calls_ok (cs : list hal_call) (h : sensor_hal) : Prop :=
  match cs with
  | [] => True
  | c :: cs => call_ok c h /\ match run_call c h with Some (_, h) => calls_ok cs h | None => True end
  end.

(** The driver's modes are all in the array; descriptors are fresh. *)
Record hkernel_ok : Prop := {
  ok_open h path : k_open K h path ∉ fds h;
  ok_modes h n modes : k_modes K h = Some (n, modes) -> n <= zlen modes }.

(** The descriptors that are open are those of the devices, each of a camera that is open. *)
Record hal_inv (h : sensor_hal) : Prop := {
  inv_devices : length (gDevices h) = 2%nat;
  inv_infos : length (gCameraInfo h) = 2%nat;
  inv_fds n : n ∈ fds h <-> 0 <= n /\ exists id d, gDevices h !! id = Some d /\ fd d = n;
  inv_distinct i j d e : gDevices h !! i = Some d -> gDevices h !! j = Some e -> 0 <= fd d -> fd d = fd e -> i = j;
  inv_opened id d : gDevices h !! id = Some d -> 0 <= fd d -> is_open h id }.

Context (Hk : hkernel_ok).

(** *** Rules *)

Definition hwp {A} (m : HM A) (Q : A -> sensor_hal -> Prop) (h : sensor_hal) : Prop :=
  match m h with Some (x, h') => Q x h' | None => False end.

Lemma hwp_bind {A B} (m : HM A) (f : A -> HM B) Q h : hwp m (fun x h => hwp (f x) Q h) h -> hwp (m ≫= f) Q h.
Proof. unfold hwp, mbind, hm_bind. by destruct (m h) as [[x h']|]. Qed.

Lemma hwp_mono {A} (m : HM A) (Q R : A -> sensor_hal -> Prop) h : hwp m Q h -> (forall x h, Q x h -> R x h) -> hwp m R h.
Proof. unfold hwp. destruct (m h) as [[x h']|]; [auto|done]. Qed.

Lemma hwp_get id d (Q : mocha_device -> sensor_hal -> Prop) h : gDevices h !! id = Some d -> Q d h -> hwp (get_device id) Q h.
Proof. intros Hd HQ. unfold hwp, get_device. by rewrite Hd. Qed.

(** A camera that is open has a device. *)
Lemma open_device h id : hal_inv h -> is_open h id -> exists d, gDevices h !! id = Some d.
Proof.
  intros Hi Ho. unfold is_open in Ho. destruct (gCameraInfo h !! id) eqn:Hc; [|done]. apply lookup_lt_Some in Hc.
  apply lookup_lt_is_Some_2. rewrite (inv_devices h Hi), <- (inv_infos h Hi). done.
Qed.

(** Changing all of a device but its descriptor. *)
Lemma inv_put h id d d' : hal_inv h -> gDevices h !! id = Some d -> fd d' = fd d ->
  hal_inv (mk_shal (<[id := d']> (gDevices h)) (gCameraInfo h) (fds h)).
Proof.
  intros [H1 H2 Hf Hd Ho] Hid Hfd.
  assert (Hl : forall j e, <[id := d']> (gDevices h) !! j = Some e -> exists e0, gDevices h !! j = Some e0 /\ fd e = fd e0).
  { intros j e Hj. destruct (decide (id = j)) as [->|Hne].
    - rewrite list_lookup_insert_eq in Hj by by eapply lookup_lt_Some. injection Hj as <-. by exists d.
    - rewrite list_lookup_insert_ne in Hj by done. by exists e. }
  split; cbn; [by rewrite length_insert|done| | |].
  - intros n. rewrite Hf. split; intros (Hn & j & e & Hj & He); (split; [done|]).
    + destruct (decide (id = j)) as [->|Hne].
      * exists j, d'. rewrite list_lookup_insert_eq by by eapply lookup_lt_Some. split; [done|congruence].
      * exists j, e. by rewrite list_lookup_insert_ne.
    + destruct (Hl j e Hj) as (e0 & Hj0 & Hee). exists j, e0. split; [done|congruence].
  - intros i j e1 e2 Hi Hj Hpos Heq. destruct (Hl _ _ Hi) as (f1 & Hi0 & E1), (Hl _ _ Hj) as (f2 & Hj0 & E2).
    eapply Hd; [exact Hi0|exact Hj0|lia|lia].
  - intros j e Hj Hpos. destruct (Hl _ _ Hj) as (e0 & Hj0 & E0). eapply (Ho j e0); [done|lia].
Qed.

Lemma open_sensor_keeps h id d (Q : Z -> sensor_hal -> Prop) : hal_inv h -> is_open h id -> gDevices h !! id = Some d ->
  (forall r h', hal_inv h' -> is_open h' id -> Q r h') -> hwp (open_sensor K id) Q h.
Proof.
  intros Hi Hop Hd HQ. apply hwp_bind, (hwp_get _ d); [done|]. destruct (0 <=? fd d) eqn:Hfd; [by apply HQ|]. breflect.
  unfold hwp. apply HQ; [|done]. destruct Hi as [H1 H2 Hf Hdis Ho]. set (n := k_open K h (devicePath d)).
  assert (Hfresh : n ∉ fds h) by apply (ok_open Hk).
  assert (Hid : (id < length (gDevices h))%nat) by by eapply lookup_lt_Some.
  split; cbn; [by rewrite length_insert|done| | |].
  - intros m. destruct (n <? 0) eqn:Hn; breflect.
    + rewrite Hf. split; intros (Hm & j & e & Hj & He); (split; [done|]).
      * exists j, e. rewrite list_lookup_insert_ne; [done|]. intros ->. rewrite Hd in Hj. injection Hj as <-. lia.
      * exists j, e. destruct (decide (id = j)) as [->|Hne]; [|by rewrite list_lookup_insert_ne in Hj].
        rewrite list_lookup_insert_eq in Hj by done. injection Hj as <-. cbn in He. lia.
    + rewrite elem_of_union, elem_of_singleton, Hf. split.
      * intros [->|(Hm & j & e & Hj & He)].
        -- split; [done|]. exists id, (set_dev_fd n d). by rewrite list_lookup_insert_eq.
        -- split; [done|]. exists j, e. rewrite list_lookup_insert_ne; [done|]. intros ->. rewrite Hd in Hj. injection Hj as <-. lia.
      * intros (Hm & j & e & Hj & He). destruct (decide (id = j)) as [->|Hne].
        -- rewrite list_lookup_insert_eq in Hj by done. injection Hj as <-. by left.
        -- rewrite list_lookup_insert_ne in Hj by done. right. split; [done|]. by exists j, e.
  - assert (Hother : forall j e, id <> j -> gDevices h !! j = Some e -> 0 <= n -> fd e <> n).
    { intros j e Hne Hj Hn He. apply Hfresh, Hf. split; [done|]. by exists j, e. }
    intros i j e1 e2 Hi Hj Hpos Heq. destruct (decide (id = i)) as [<-|Hni], (decide (id = j)) as [<-|Hnj]; [done| | |].
    + rewrite list_lookup_insert_eq in Hi by done. rewrite list_lookup_insert_ne in Hj by done. injection Hi as <-. cbn in *.
      destruct (Hother j e2 Hnj Hj Hpos). done.
    + rewrite list_lookup_insert_eq in Hj by done. rewrite list_lookup_insert_ne in Hi by done. injection Hj as <-. cbn in *.
      destruct (Hother i e1 Hni Hi ltac:(lia)). done.
    + rewrite !list_lookup_insert_ne in * by done. by eapply Hdis.
  - intros j e Hj Hpos. destruct (decide (id = j)) as [->|Hne]; [done|]. rewrite list_lookup_insert_ne in Hj by done. by apply (Ho j e).
Qed.

(** The mode that is found is the first of its size. *)
Lemma find_mode_spec modes w h i n : (i + n <= length modes)%nat -> exists r, find_mode modes w h i n = Some r /\
  match r with
  | Some m => m ∈ modes /\ res_x m = w /\ res_y m = h
  | None => forall j m, (i <= j < i + n)%nat -> modes !! j = Some m -> ~ (res_x m = w /\ res_y m = h)
  end.
Proof.
  revert i. induction n as [|n IH]; intros i Hlen; cbn [find_mode].
  { exists None. split; [done|]. intros j m Hj. lia. }
  destruct (lookup_lt_is_Some_2 modes i ltac:(lia)) as [m Hm]. rewrite Hm. cbn [mbind option_bind].
  destruct (_ && _) eqn:Ht.
  - breflect. exists (Some m). split; [done|]. split; [by eapply list_elem_of_lookup_2|done].
  - destruct (IH (S i) ltac:(lia)) as (r & Hr & Hspec). exists r. split; [done|]. destruct r as [m'|]; [done|].
    intros j m' Hj Hm'. destruct (decide (i = j)) as [<-|Hne]; [|apply (Hspec j m'); [lia|done]].
    rewrite Hm in Hm'. injection Hm' as <-. intros [<- <-]. by rewrite !Z.eqb_refl in Ht.
Qed.

Lemma put_keeps h id d d' (Q : unit -> sensor_hal -> Prop) : hal_inv h -> is_open h id -> gDevices h !! id = Some d -> fd d' = fd d ->
  (forall h', hal_inv h' -> is_open h' id -> gDevices h' !! id = Some d' -> Q tt h') -> hwp (put_device id d') Q h.
Proof.
  intros Hi Ho Hd Hfd HQ. unfold hwp, put_device. apply HQ; [by eapply inv_put|done|]. apply list_lookup_insert_eq.
  by eapply lookup_lt_Some.
Qed.

Lemma set_resolution_keeps h id d w x (Q : Z -> sensor_hal -> Prop) : hal_inv h -> is_open h id -> gDevices h !! id = Some d ->
  (forall r h', hal_inv h' -> is_open h' id -> Q r h') -> hwp (set_resolution K id w x) Q h.
Proof.
  intros Hi Ho Hd HQ. unfold hwp, set_resolution. destruct (k_modes K h) as [[n modes]|] eqn:Hm; [|by apply HQ].
  apply (ok_modes Hk) in Hm. unfold zlen in Hm. destruct (find_mode_spec modes w x 0 (Z.to_nat n) ltac:(lia)) as (r & Hr & _). rewrite Hr.
  cbn [mbind option_bind].
  assert (Hput : forall a b, hwp (d ← get_device id; _ ← put_device id (set_size a b d); mret 0) Q h).
  { intros a b. apply hwp_bind, (hwp_get _ d); [done|]. apply hwp_bind. eapply put_keeps; [exact Hi|done|done|done|]. intros h' Hi' Ho' _. by apply HQ. }
  destruct r as [m|].
  - destruct (k_mode_wr K h m); [apply Hput|by apply HQ].
  - destruct (0 <? n) eqn:Hn; [|by apply HQ]. breflect. destruct (lookup_lt_is_Some_2 modes 0 ltac:(lia)) as [m Hm0]. rewrite Hm0.
    cbn [mbind option_bind]. destruct (k_mode_wr K h m); [apply Hput|by apply HQ].
Qed.

Lemma is_open_alter h id b j : gCameraInfo h !! j <> None ->
  is_open (mk_shal (gDevices h) (alter (fun c => mk_cinfo (c_facing c) (c_orientation c) b) id (gCameraInfo h)) (fds h)) j <->
  if decide (id = j) then b = true else is_open h j.
Proof.
  intros Hj. unfold is_open. cbn. destruct (decide (id = j)) as [->|Hne].
  - rewrite list_lookup_alter_eq. destruct (gCameraInfo h !! j); [|done]. cbn. by split; [intros [= ->]|intros ->].
  - by rewrite list_lookup_alter_ne.
Qed.

Lemma camera_open_keeps h name : hal_inv h -> hwp (camera_device_open name) (fun r h' => hal_inv h' /\
  match r with inl e => h' = h | inr id => ~ is_open h id /\ is_open h' id end) h.
Proof.
  intros Hi. unfold hwp, camera_device_open.
  destruct (if bool_decide (cstr name = lit "0") then Some 0%nat else _) as [id|] eqn:Hid; [|done].
  assert (Hlt : (id < length (gCameraInfo h))%nat).
  { rewrite (inv_infos h Hi). destruct (bool_decide (cstr name = lit "0")); [injection Hid as <-; lia|].
    destruct (bool_decide _); [injection Hid as <-; lia|done]. }
  destruct (lookup_lt_is_Some_2 _ _ Hlt) as [c Hc]. rewrite Hc. cbn [mbind option_bind]. destruct (opened c) eqn:Hop; [done|]. cbn.
  split.
  - destruct Hi as [H1 H2 Hf Hd Ho]. split; cbn; [done|by rewrite length_alter|done|done|].
    intros j d Hj Hpos. apply is_open_alter; [|destruct (decide (id = j)); [done|by apply (Ho j d)]].
    apply lookup_lt_Some in Hj. intros Hno%lookup_ge_None. lia.
  - split; [unfold is_open; rewrite Hc; cbn; congruence|]. apply is_open_alter; [by rewrite Hc|by rewrite decide_True].
Qed.

Lemma close_keeps h id : hal_inv h -> is_open h id -> hwp (camera3_close id) (fun r h' => hal_inv h' /\ ~ is_open h' id) h.
Proof.
  intros Hi Ho. destruct (open_device h id Hi Ho) as [d Hd]. apply hwp_bind, (hwp_get _ d); [done|]. apply hwp_bind.
  set (h1 := mk_shal (gDevices h) (gCameraInfo h) (if 0 <=? fd d then fds h ∖ {[fd d]} else fds h)).
  assert (Hh1 : hwp (if 0 <=? fd d then fun h => Some (tt, mk_shal (gDevices h) (gCameraInfo h) (fds h ∖ {[fd d]})) else mret tt)
    (fun _ h' => h' = h1) h) by (unfold hwp, h1; destruct (0 <=? fd d); [done|by destruct h]).
  eapply hwp_mono; [exact Hh1|]. cbn beta. intros _ ? ->. apply hwp_bind. unfold hwp at 1, put_device. apply hwp_bind. unfold hwp at 1, set_opened.
  unfold hwp. cbn. set (d' := set_stream false _). assert (Hd' : fd d' < 0).
  { unfold d'. destruct (0 <=? fd d) eqn:Hfd; cbn; [lia|]. by breflect. }
  assert (Hid : (id < length (gDevices h))%nat) by by eapply lookup_lt_Some.
  destruct Hi as [H1 H2 Hf Hdis Hop]. split.
  - assert (Hother : forall j e, <[id := d']> (gDevices h) !! j = Some e -> 0 <= fd e -> id <> j /\ gDevices h !! j = Some e).
    { intros j e Hj Hpos. destruct (decide (id = j)) as [<-|Hne]; [|by rewrite list_lookup_insert_ne in Hj].
      rewrite list_lookup_insert_eq in Hj by done. injection Hj as <-. lia. }
    split; cbn; [by rewrite length_insert|by rewrite length_alter| | |].
    + intros n. transitivity (n ∈ fds h /\ n <> fd d).
      { destruct (0 <=? fd d) eqn:Hfd; [set_solver|]. breflect. split; [|by intros []]. intros Hn. split; [done|].
        apply Hf in Hn as [Hn _]. lia. }
      rewrite Hf. split.
      * intros [(Hn & j & e & Hj & He) Hne]. split; [done|]. exists j, e. rewrite list_lookup_insert_ne; [done|]. intros ->. congruence.
      * intros (Hn & j & e & Hj & He). destruct (Hother j e Hj ltac:(lia)) as [Hne Hj']. split; [split; [done|by exists j, e]|].
        intros ->. apply Hne. eapply Hdis; [exact Hd|exact Hj'|lia|lia].
    + intros i j e1 e2 Hi Hj Hpos Heq. destruct (Hother i e1 Hi Hpos) as [_ Hi']. destruct (Hother j e2 Hj ltac:(lia)) as [_ Hj']. by eapply Hdis.
    + intros j e Hj Hpos. destruct (Hother j e Hj Hpos) as [Hne Hj']. specialize (Hop j e Hj' Hpos). unfold is_open in *. cbn. by rewrite list_lookup_alter_ne.
  - unfold is_open. cbn. rewrite list_lookup_alter_eq. by destruct (gCameraInfo h !! id).
Qed.

Lemma configure_keeps h id l : hal_inv h -> is_open h id ->
  hwp (camera3_configure_streams K OUTPUT id l) (fun _ h' => hal_inv h' /\ is_open h' id) h.
Proof.
  intros Hi Ho. destruct l as [l|]; [|done]. cbn [camera3_configure_streams]. destruct (largest OUTPUT l (0, 0)) as [w x].
  apply hwp_bind. destruct (_ && _); [|done]. apply hwp_bind. destruct (open_device h id Hi Ho) as [d Hd].
  eapply open_sensor_keeps; [exact Hi|exact Ho|exact Hd|]. intros r h1 Hi1 Ho1. destruct (r =? 0); [|done]. apply hwp_bind.
  destruct (open_device h1 id Hi1 Ho1) as [d1 Hd1]. eapply set_resolution_keeps; [exact Hi1|exact Ho1|exact Hd1|]. intros _ h2 Hi2 Ho2.
  destruct (open_device h2 id Hi2 Ho2) as [d2 Hd2]. apply hwp_bind, (hwp_get _ d2); [done|].
  eapply put_keeps; [exact Hi2|exact Ho2|exact Hd2|done|]. done.
Qed.

Lemma run_call_keeps c h : hal_inv h -> call_ok c h -> hwp (run_call c) (fun _ h' => hal_inv h') h.
Proof.
  intros Hi Hc. destruct c as [name|id|id l|id]; cbn [run_call]; apply hwp_bind.
  - eapply hwp_mono; [by apply camera_open_keeps|]. by intros ? ? [].
  - eapply hwp_mono; [by apply close_keeps|]. by intros ? ? [].
  - eapply hwp_mono; [by apply configure_keeps|]. by intros ? ? [].
  - destruct (open_device h id Hi Hc) as [d Hd]. apply hwp_bind, (hwp_get _ d); [done|]. apply hwp_bind.
    by eapply put_keeps; [exact Hi|exact Hc|exact Hd|..].
Qed.

Lemma initial_inv : hal_inv (initial FACING_BACK FACING_FRONT).
Proof.
  assert (Hneg : forall id d, gDevices (initial FACING_BACK FACING_FRONT) !! id = Some d -> fd d < 0).
  { intros [|[|id]] d [= <-]; cbn; lia. }
  split; [done|done| | |].
  - intros n. split; [set_solver|]. intros (Hn & id & d & Hd & Hfd). specialize (Hneg id d Hd). lia.
  - intros i j d e Hi _ Hpos. specialize (Hneg i d Hi). lia.
  - intros id d Hd Hpos. specialize (Hneg id d Hd). lia.
Qed.

(** C17. Over any calls that use a device between its opening and its closing, whatever the
    driver answers, the descriptors that are open are those of the two sensors, each of a
    camera that is open and of no other; with both cameras closed none is left. *)
Theorem sensor_hal_resources cs : calls_ok cs (initial FACING_BACK FACING_FRONT) ->
  hwp (run_calls cs) (fun _ h => hal_inv h /\ ((forall id, ~ is_open h id) -> fds h = ∅)) (initial FACING_BACK FACING_FRONT).
Proof.
  intros Hok. eapply (hwp_mono _ (fun _ h => hal_inv h)).
  - assert (Hi := initial_inv). revert Hok Hi. generalize (initial FACING_BACK FACING_FRONT).
    induction cs as [|c cs IH]; intros h Hok Hi; [done|]. destruct Hok as [Hc Hok]. cbn [run_calls]. apply hwp_bind.
    pose proof (run_call_keeps c h Hi Hc) as Hr. unfold hwp in Hr |- * at 1. destruct (run_call c h) as [[[] h1]|]; [|done]. by apply IH.
  - intros _ h Hi. split; [done|]. intros Hclosed. apply set_eq. intros n. split; [|set_solver]. intros Hn.
    apply (inv_fds h Hi) in Hn as (Hn & id & d & Hd & Hfd). destruct (Hclosed id). apply (inv_opened h Hi id d Hd). lia.
Qed.
End sequences.

(** ** The resolution *)

Section resolution.
Context (K : hkernel) (OUTPUT : Z).

(** Sizes whose areas and sides the code's integers hold. *)
Definition size_ok (w h : Z) : Prop := 0 <= w <= INT_MAX /\ 0 <= h <= INT_MAX /\ w * h < 2 ^ 32.

Lemma largest_spec l best : size_ok best.1 best.2 -> Forall (fun s => size_ok s.1.2 s.2) l ->
  let b := largest OUTPUT l best in
  (b = best \/ (OUTPUT, b.1, b.2) ∈ l) /\ best.1 * best.2 <= b.1 * b.2 /\
  forall w h, (OUTPUT, w, h) ∈ l -> w * h <= b.1 * b.2.
Proof.
  revert best. induction l as [|[[type w] h] l IH]; intros best Hb Hl; cbn [largest].
  { split_and!; [by left|lia|]. intros w h Hin. by apply elem_of_nil in Hin. }
  apply Forall_cons in Hl as [Hs Hl]. cbn [fst snd] in Hs.
  assert (Hbest : wrap_u32 (best.1 * best.2) = best.1 * best.2) by (apply wrap_u32_id; unfold size_ok in Hb; nia).
  assert (Hwh : wrap_u32 (w * h) = w * h) by (apply wrap_u32_id; unfold size_ok in Hs; nia).
  assert (Hww : wrap_s32 w = w /\ wrap_s32 h = h).
  { unfold size_ok in Hs. split; apply wrap_s32_id; unfold is_int, INT_MIN, INT_MAX in *; lia. }
  destruct Hww as [-> ->]. rewrite Hbest, Hwh. destruct (_ && _) eqn:Ht.
  - breflect. subst type. destruct (IH (w, h) Hs Hl) as (H1 & H2 & H3). cbn [fst snd] in *. split_and!.
    + right. destruct H1 as [-> | H1]; [by left|by right].
    + lia.
    + intros w2 h2 [[= -> ->]|Hin]%elem_of_cons; [done|by apply H3].
  - destruct (IH best Hb Hl) as (H1 & H2 & H3). split_and!; [|done|].
    + destruct H1 as [->|H1]; [by left|right; by right].
    + intros w2 h2 [[= <- -> ->]|Hin]%elem_of_cons; [|by apply H3]. rewrite Z.eqb_refl in Ht. cbn in Ht. apply Z.ltb_ge in Ht. lia.
Qed.

(** Configuring an open camera, when the driver lists its modes and accepts one, sets
    the sensor to the size of a largest output stream if there is a mode of that size, and
    to the first mode otherwise, and marks the camera as streaming. *)
Theorem resolution_chosen h id d l n modes m0 : gDevices h !! id = Some d -> 0 <= fd d ->
  Forall (fun s => size_ok s.1.2 s.2) l -> (exists w x, (OUTPUT, w, x) ∈ l /\ 0 < w * x) ->
  k_modes K h = Some (n, m0 :: modes) -> 0 < n <= zlen (m0 :: modes) -> (forall h m, k_mode_wr K h m = true) ->
  hwp (camera3_configure_streams K OUTPUT id (Some l)) (fun r h' => r = 0 /\ exists d' w x,
    gDevices h' !! id = Some d' /\ streaming d' = true /\ fd d' = fd d /\
    (OUTPUT, w, x) ∈ l /\ (forall w2 x2, (OUTPUT, w2, x2) ∈ l -> w2 * x2 <= w * x) /\
    ((width d' = w /\ height d' = x) \/
     (width d' = res_x m0 /\ height d' = res_y m0 /\
      forall j m, Z.of_nat j < n -> (m0 :: modes) !! j = Some m -> ~ (res_x m = w /\ res_y m = x)))) h.
Proof.
  intros Hd Hfd Hl (w0 & x0 & Hin0 & Hpos) Hm Hn Hwr. cbn [camera3_configure_streams].
  destruct (largest_spec l (0, 0) ltac:(unfold size_ok, INT_MAX; cbn; lia) Hl) as (H1 & _ & H3).
  destruct (largest OUTPUT l (0, 0)) as [w x] eqn:Hlarge. cbn [fst snd] in *.
  assert (Hwx : 0 < w * x) by (specialize (H3 w0 x0 Hin0); lia).
  assert (Hin : (OUTPUT, w, x) ∈ l) by (destruct H1 as [[= -> ->]|]; [lia|done]).
  assert (Hsize : size_ok w x) by (rewrite Forall_forall in Hl; apply (Hl _ Hin)). unfold size_ok in Hsize.
  apply hwp_bind. rewrite (proj2 (Z.ltb_lt 0 w)), (proj2 (Z.ltb_lt 0 x)) by nia. cbn [andb]. apply hwp_bind.
  apply hwp_bind, (hwp_get _ d); [done|]. rewrite (proj2 (Z.leb_le 0 (fd d))) by done.
  change (hwp (mret 0) ?Q h) with (Q 0 h). cbv beta. cbn [Z.eqb]. apply hwp_bind. unfold hwp at 1, set_resolution. rewrite Hm.
  assert (Hid : (id < length (gDevices h))%nat) by by eapply lookup_lt_Some.
  unfold zlen in Hn. destruct (find_mode_spec (m0 :: modes) w x 0 (Z.to_nat n)) as (r & Hr & Hspec); [lia|]. rewrite Hr. cbn [mbind option_bind].
  assert (Hput : forall a b (Q : Z -> sensor_hal -> Prop), Q 0 (mk_shal (<[id := set_size a b d]> (gDevices h)) (gCameraInfo h) (fds h)) ->
    hwp (d ← get_device id; _ ← put_device id (set_size a b d); mret 0) Q h).
  { intros a b Q HQ. apply hwp_bind, (hwp_get _ d); [done|]. apply hwp_bind. exact HQ. }
  destruct r as [m|].
  - rewrite Hwr. destruct Hspec as (_ & Hx & Hy). unfold hwp in Hput. apply Hput. apply hwp_bind, (hwp_get _ (set_size w x d)); [cbn; by rewrite list_lookup_insert_eq|].
    unfold hwp. cbn. split; [done|]. exists (set_stream true (set_size w x d)), w, x.
    rewrite list_lookup_insert_eq by by rewrite length_insert. split_and!; try done. left. done.
  - rewrite (proj2 (Z.ltb_lt 0 n)) by lia. cbn [lookup list_lookup mbind option_bind]. rewrite Hwr. unfold hwp in Hput. apply Hput.
    apply hwp_bind, (hwp_get _ (set_size (res_x m0) (res_y m0) d)); [cbn; by rewrite list_lookup_insert_eq|].
    unfold hwp. cbn. split; [done|]. exists (set_stream true (set_size (res_x m0) (res_y m0) d)), w, x.
    rewrite list_lookup_insert_eq by by rewrite length_insert. split_and!; try done. right. split_and!; [done|done|].
    intros j m Hj. apply Hspec. lia.
Qed.
End resolution.

(** ** What is in the metadata *)

Section contents.
Context (cst : string -> Z) {buf : Type} {ML : MetadataLib buf} {LAWS : MetadataLaws buf} (alloc_ok : nat -> bool) (find_null : status).
Context (junk : Z -> list Z).
Context (Htypes : Forall (fun p => get_camera_metadata_tag_type (cst p.1) = Some p.2) documented_types).
Context (Hjunk : forall n, 0 <= n -> zlen (junk n) = n) (Halloc : forall n, alloc_ok n = true) (Hnull : find_null <> OK).

Lemma take_i32_bytes n l k : (n <= length l)%nat -> take (4 * n) (i32_bytes l ++ k) = i32_bytes (take n l).
Proof.
  revert l. induction n as [|n IH]; intros l Hl; [done|]. destruct l as [|z l]; [cbn in Hl; lia|].
  change (i32_bytes (z :: l)) with (le_bytes 4 z ++ i32_bytes l). rewrite <- app_assoc.
  replace (4 * S n)%nat with (4 + 4 * n)%nat by lia. rewrite take_app_add' by by rewrite length_le_bytes.
  rewrite IH by (cbn in Hl; lia). done.
Qed.

Lemma create_table_spec rows h : Forall (fun r => row_typed r = true) rows -> accepted 64 8192 0 0 rows = rows ->
  mdwp (create_table cst alloc_ok junk rows) (fun x h' => exists q b, x = (Some q, overs rows) /\
    bufs h' = <[q := b]> (bufs h) /\ entries_of b = row_entry cst junk <$> rows) h.
Proof.
  intros Htyped Hacc. apply mdwp_bind, mdwp_new; [|by rewrite Halloc]. intros q Hq. apply mdwp_bind.
  apply (mdwp_at _ (empty_buffer 64 8192)); [cbn; by rewrite lookup_insert_eq|].
  destruct (empty_is (buf := buf) 64 8192 ltac:(lia) ltac:(lia)) as (H1 & H2 & H3).
  pose proof (add_rows_spec cst junk Htypes Hjunk rows (empty_buffer 64 8192) [] Htyped) as Hadd. cbv zeta in Hadd.
  unfold get_camera_metadata_entry_count, get_camera_metadata_data_count in Hadd.
  rewrite H1, H2, H3 in Hadd. cbn [fmap list_fmap foldr app] in Hadd. rewrite zlen_nil, Hacc in Hadd.
  destruct (add_rows cst junk rows _) as [b over]. destruct Hadd as [Hb Ho]. cbn [fst snd] in *. subst over.
  apply mdwp_bind. unfold mdwp at 1, store_ptr. cbn [mbind option_bind bufs]. rewrite lookup_insert_eq. cbn [mbind option_bind].
  apply mdwp_ret. exists q, b. cbn. split_and!; [done|by rewrite insert_insert_eq|done].
Qed.

(** The configurations that are announced. *)
Definition announced : list Z :=
  mjoin ((fun s => [cst "HAL_PIXEL_FORMAT_BLOB"%string; s.1; s.2; cst "ANDROID_SCALER_AVAILABLE_STREAM_CONFIGURATIONS_OUTPUT"%string])
    <$> [(3264, 2448); (1920, 1080); (1280, 720); (640, 480)]).

Lemma stream_row facing orientation :
  is_int (cst "HAL_PIXEL_FORMAT_BLOB"%string) -> is_int (cst "ANDROID_SCALER_AVAILABLE_STREAM_CONFIGURATIONS_OUTPUT"%string) ->
  exists r, camera_rows cst facing orientation !! 7%nat = Some r /\ r_tag r = "ANDROID_SCALER_AVAILABLE_STREAM_CONFIGURATIONS"%string /\
    i32_of (e_data (row_entry cst junk r)) = announced.
Proof.
  intros Hblob Hout. eexists. split; [reflexivity|]. split; [reflexivity|]. unfold row_entry. cbn [e_data r_count r_array].
  replace (Z.to_nat (16 * _)) with (4 * 16)%nat by reflexivity. unfold array_bytes. rewrite take_i32_bytes by (cbn; lia).
  rewrite i32_of_bytes; [reflexivity|]. cbn [take]. repeat (apply Forall_cons; split; [first [exact Hblob | exact Hout | unfold is_int, INT_MIN, INT_MAX; lia]|]).
  apply Forall_nil_2.
Qed.

(** The buffer of the sensor HAL's characteristics has room for the table, under a tag
    each; but of the eight stream configurations in the table only the first four, all of
    BLOBs, are announced, because the count is half of what it should be; and the exposure
    times are read past the end of their array. *)
Theorem sensor_table_halved facing orientation h : tags_distinct cst ->
  is_int (cst "HAL_PIXEL_FORMAT_BLOB"%string) -> is_int (cst "ANDROID_SCALER_AVAILABLE_STREAM_CONFIGURATIONS_OUTPUT"%string) ->
  exists q b h', create_camera_metadata cst alloc_ok junk facing orientation h =
      Some ((Some q, ["ANDROID_SENSOR_INFO_EXPOSURE_TIME_RANGE"%string]), h') /\
    bufs h' = <[q := b]> (bufs h) /\ NoDup (tags b) /\
    entries_of b = row_entry cst junk <$> camera_rows cst facing orientation /\
    i32_of <$> cmap (entries_of b) !! cst "ANDROID_SCALER_AVAILABLE_STREAM_CONFIGURATIONS"%string = Some announced.
Proof.
  intros Hdist Hblob Hout. destruct (stream_row facing orientation Hblob Hout) as (r & Hr & Ht & Hi).
  unfold create_camera_metadata. set (rows := camera_rows cst facing orientation) in *.
  assert (Htyped : Forall (fun r => row_typed r = true) rows) by (apply rows_typed; vm_compute; reflexivity).
  assert (Hacc : accepted 64 8192 0 0 rows = rows) by (vm_compute; reflexivity).
  assert (Hover : overs rows = ["ANDROID_SENSOR_INFO_EXPOSURE_TIME_RANGE"%string]) by (vm_compute; reflexivity).
  assert (Hnames : forallb (fun n => bool_decide (n ∈ documented_types.*1)) (r_tag <$> rows) = true) by (vm_compute; reflexivity).
  assert (Hnd : bool_decide (NoDup (r_tag <$> rows)) = true) by (vm_compute; reflexivity).
  clearbody rows. pose proof (create_table_spec rows h Htyped Hacc) as Hw. rewrite Hover in Hw.
  apply mdwp_some in Hw as ([p over] & h' & He & q & b & Hx & Hh & Hb). exists q, b, h'.
  assert (Htags : tags b ≡ₚ cst <$> (r_tag <$> rows)) by (eapply (tags_rows cst junk); by rewrite Hb).
  assert (Hndt : NoDup (tags b)) by (rewrite Htags; by eapply tags_of_names).
  split_and!; [by rewrite He, Hx|done|done|done|]. rewrite <- Ht.
  rewrite (cmap_lookup _ 7 _ (e_data (row_entry cst junk r)) Hndt); [cbn [fmap option_fmap option_map]; by rewrite Hi|].
  rewrite Hb, list_lookup_fmap, Hr. done.
Qed.

Lemma update_all_spec R l : Forall (fun c => get_camera_metadata_tag_type c.1.2 = Some c.1.1) l -> forall k m h,
  owns R k m h -> NoDup (e_tag <$> default [] k) -> mLocked m = false -> (k <> None \/ l <> []) ->
  mdwp (update_all alloc_ok find_null l m) (fun m' h' => mLocked m' = false /\ exists k', owns R (Some k') m' h' /\ NoDup (e_tag <$> k') /\
    cmap k' = foldl (fun M c => <[c.1.2 := c.2]> M) (cmap (default [] k)) l) h.
Proof.
  induction 1 as [|[[type tag] data] l Ht Hl IH]; intros k m h Ho Hnd Hlock Hne; cbn [update_all].
  - apply mdwp_ret. split; [done|]. destruct k as [k|]; [by exists k|]. by destruct Hne.
  - apply mdwp_bind. eapply mdwp_mono; [by eapply (update_spec alloc_ok find_null)|]. cbn beta.
    intros [st m1] h1 (_ & Hlock1 & k1 & Ho1 & Hnd1 & Hm1). cbn [snd] in *.
    eapply mdwp_mono; [apply (IH (Some k1)); [done..|by left]|]. cbn beta. intros m2 h2 (Hlock2 & k2 & Ho2 & Hnd2 & Hm2). split; [done|].
    exists k2. split_and!; [done|done|]. rewrite Hm2. cbn [default from_option id foldl fst snd]. by rewrite Hm1.
Qed.

(** The default settings are a new buffer with exactly the five entries, the crop region
    being the resolution the sensor has; one more buffer on every call. *)
Theorem sensor_settings d h : tags_distinct cst -> get_camera_metadata_tag_type (cst "ANDROID_SCALER_CROP_REGION"%string) = Some TYPE_INT32 ->
  mdwp (camera3_construct_default_request_settings cst alloc_ok find_null d) (fun p h' => exists q b, p = Some q /\
    bufs h !! q = None /\ bufs h' = <[q := b]> (bufs h) /\ NoDup (tags b) /\
    cmap (entries_of b) = foldl (fun M c => <[c.1.2 := c.2]> M) ∅ (settings_calls cst d)) h.
Proof.
  intros Hdist Hcrop. apply mdwp_bind.
  assert (Hty : Forall (fun c => get_camera_metadata_tag_type c.1.2 = Some c.1.1) (settings_calls cst d)).
  { assert (Hin : forall t ty, (t, ty) ∈ documented_types -> get_camera_metadata_tag_type (cst t) = Some ty).
    { intros t ty Hin. rewrite Forall_forall in Htypes. by apply (Htypes (t, ty)). }
    unfold settings_calls. repeat (apply Forall_cons; split; [try (apply Hin; apply (bool_decide_eq_true_1 _); vm_compute; reflexivity)|]);
      [exact Hcrop|apply Forall_nil_2]. }
  eapply mdwp_mono; [apply (update_all_spec (bufs h) _ Hty None new_empty h); [done|constructor|done|by right]|]. cbn beta.
  intros m h1 (Hlock & k & Ho & Hnd & Hm). unfold release. rewrite Hlock. unfold owns in Ho. destruct m as [[q|] lk]; [|done]. cbn in Hlock. subst lk.
  destruct Ho as (b & Hb & HR & He). cbn [mBuffer set_buffer mLocked] in *. apply mdwp_bind, mdwp_ret, mdwp_ret. exists q, b.
  rewrite <- HR, lookup_delete_eq, insert_delete_eq, insert_id by done. unfold tags. rewrite He. split_and!; done.
Qed.
End contents.

(** ** On a driver with two modes *)

Definition two_modes : hkernel := {|
  k_open h _ := 1 + foldr Z.max 2 (elements (fds h));
  k_modes _ := Some (2, [mk_mode 3264 2448 0; mk_mode 1280 720 0]);
  k_mode_wr _ _ := true |}.

Lemma two_modes_ok : hkernel_ok two_modes.
Proof.
  split.
  - intros h path Hin. apply elem_of_elements in Hin. cbn in Hin.
    assert (Hle : forall l x, x ∈ l -> x < 1 + foldr Z.max 2 l).
    { induction l as [|y l IH]; intros x Hx; [by apply elem_of_nil in Hx|]. cbn.
      apply elem_of_cons in Hx as [->|Hx]; [lia|]. specialize (IH x Hx). lia. }
    specialize (Hle _ _ Hin). lia.
  - intros h n modes [= <- <-]. done.
Qed.

Definition hal_session : list hal_call :=
  [HOpen (lit "1"); HOpen (lit "1"); HConfigure 1 (Some [(0, 640, 480); (0, 1280, 720); (1, 4000, 3000)]); HOpen (lit "0"); HFlush 1;
   HConfigure 0 (Some [(0, 1920, 1080)]); HClose 1; HOpen (lit "2"); HOpen (lit "1"); HClose 0].

Example sensor_hal_resources_witness :
  hwp (run_calls two_modes 0 hal_session) (fun _ h => hal_inv h /\ ((forall id, ~ is_open h id) -> fds h = ∅)) (initial 1 0).
Proof. apply (sensor_hal_resources two_modes 0 1 0 two_modes_ok hal_session). vm_compute. repeat split. Defined.

(** The camera that stays open has the mode of the largest output. *)
Definition open_back : sensor_hal := mk_shal [mk_mdev 3 "/dev/imx179" false 0 0] [mk_cinfo 1 90 true] {[3]}.

Example resolution_chosen_witness :
  hwp (camera3_configure_streams two_modes 0 0 (Some [(0, 640, 480); (0, 1280, 720)])) (fun r h' => r = 0 /\ exists d' w x,
    gDevices h' !! 0%nat = Some d' /\ streaming d' = true /\ fd d' = 3 /\
    (0, w, x) ∈ [(0, 640, 480); (0, 1280, 720)] /\ (forall w2 x2, (0, w2, x2) ∈ [(0, 640, 480); (0, 1280, 720)] -> w2 * x2 <= w * x) /\
    ((width d' = w /\ height d' = x) \/
     (width d' = 3264 /\ height d' = 2448 /\
      forall j m, Z.of_nat j < 2 -> [mk_mode 3264 2448 0; mk_mode 1280 720 0] !! j = Some m -> ~ (res_x m = w /\ res_y m = x)))) open_back.
Proof.
  apply (resolution_chosen two_modes 0 open_back 0 (mk_mdev 3 "/dev/imx179" false 0 0) [(0, 640, 480); (0, 1280, 720)] 2
           [mk_mode 1280 720 0] (mk_mode 3264 2448 0)); [done|done| | |done|done|done].
  - repeat (apply Forall_cons; split; [unfold size_ok, INT_MAX; cbn; lia|]). apply Forall_nil_2.
  - exists 640, 480. split; [apply list_elem_of_here|lia].
Defined.

(** Configuring reports success although the sensor cannot be opened. *)
Definition no_sensor : hkernel := {| k_open _ _ := -1; k_modes _ := None; k_mode_wr _ _ := false |}.

Example configure_hides_failure :
  (fun x => (x.1, (fun d => (fd d, streaming d)) <$> gDevices x.2 !! 0%nat)) <$>
    camera3_configure_streams no_sensor 0 0 (Some [(0, 640, 480)]) (initial 1 0) = Some (0, Some (-1, false)).
Proof. reflexivity. Qed.

(** ** Metadata on a list of entries *)

Definition settings_types (t : Z) : option md_type :=
  if t =? sample_cst "ANDROID_SCALER_CROP_REGION" then Some TYPE_INT32 else sample_types t.

#[local] Instance sensor_lib : MetadataLib ref_buf := RefMetadata settings_types.
#[local] Instance sensor_laws : MetadataLaws ref_buf := RefLaws settings_types.

Lemma settings_typed_ok : Forall (fun p => get_camera_metadata_tag_type (sample_cst p.1) = Some p.2) documented_types.
Proof.
  assert (Hall : forallb (fun p => bool_decide (settings_types (sample_cst p.1) = Some p.2)) documented_types = true)
    by (vm_compute; reflexivity).
  apply Forall_forall. intros p Hp. rewrite forallb_forall in Hall. by apply list_elem_of_In, Hall, bool_decide_eq_true in Hp.
Qed.

Example sensor_table_halved_witness :
  exists q b h', create_camera_metadata sample_cst sample_ok sample_junk 1 90 empty_memory =
      Some ((Some q, ["ANDROID_SENSOR_INFO_EXPOSURE_TIME_RANGE"%string]), h') /\
    bufs h' = <[q := b]> (bufs empty_memory) /\ NoDup (tags b) /\
    entries_of b = row_entry sample_cst sample_junk <$> camera_rows sample_cst 1 90 /\
    i32_of <$> cmap (entries_of b) !! sample_cst "ANDROID_SCALER_AVAILABLE_STREAM_CONFIGURATIONS"%string = Some (announced sample_cst).
Proof.
  apply (sensor_table_halved sample_cst sample_ok sample_junk settings_typed_ok sample_junk_len (fun _ => eq_refl) 1 90 empty_memory
           sample_distinct); vm_compute; split; discriminate.
Defined.

Example sensor_settings_witness :
  mdwp (camera3_construct_default_request_settings sample_cst sample_ok LIB_ERROR (mk_mdev 3 "/dev/imx179" true 1280 720))
    (fun p h' => exists q b, p = Some q /\ bufs empty_memory !! q = None /\ bufs h' = <[q := b]> (bufs empty_memory) /\ NoDup (tags b) /\
      cmap (entries_of b) = foldl (fun M c => <[c.1.2 := c.2]> M) ∅ (settings_calls sample_cst (mk_mdev 3 "/dev/imx179" true 1280 720)))
    empty_memory.
Proof.
  apply (sensor_settings sample_cst sample_ok LIB_ERROR settings_typed_ok (fun _ => eq_refl)
           (mk_mdev 3 "/dev/imx179" true 1280 720) empty_memory sample_distinct).
  vm_compute. reflexivity.
Defined.
