(* ===== verification/Log2Kernel.v ===== *)
(** * The replacement of [__kernel_log2] (libshims/log2_kernel.c)

    A C rewrite of an assembly routine: a lookup table indexed by the upper bits of the
    argument and a polynomial.  The table and the index are as the file has them, and
    [kernel_log2] is [None] where the table is read outside its bounds.

    [kernel_log2_outside]: it always is.  The mask that should clear the low bits of the
    upper word clears all the others instead, so the index is the same number for every
    argument, far past the table.  The examples at the end show that the polynomial would
    not give a logarithm with the right index either. *)

From S2P Require Import Prelude Float32 Float64.
From Stdlib Require Import SpecFloat.

Definition LUT_SIZE : Z := 256.
Definition LUT_SIZE_SHIFT : Z := 8.

(** The literal [n * 10^-k], correctly rounded. *)
Definition decimal (n : Z) (k : Z) : f64 :=
  match n with
  | Zpos p => SFdiv 53 1024 (S754_finite false p 0) (S754_finite false (Z.to_pos (10 ^ k)) 0)
  | Zneg p => SFdiv 53 1024 (S754_finite true p 0) (S754_finite false (Z.to_pos (10 ^ k)) 0)
  | Z0 => S754_zero false
  end.

(** The initialiser, in units of [10^-16]. *)
Definition log2_rows : list (Z * Z) :=
  [(0, 10000000000000000); (38909912349920, 9961090811168239); (77813221343931, 9922330320583351);
   (116709929854531, 9883717287503574); (155600030654034, 9845250470055477); (194483516517477, 9806928634759900);
   (233360380227259, 9768750546210864); (272230614570862, 9730714976722572); (311094212345085, 9692820696115946);
   (349951166331263, 9655066471331669); (388801469310061, 9617451066292915); (427645114056427, 9579973241835893);
   (466482093344105, 9542631755628509); (505312400040212, 9505425362056881); (544136027009405, 9468352812009157);
   (582952967117951, 9431412852664513); (621763213237977, 9394604227531575); (660566758230853, 9357925676259646);
   (699363594960636, 9321375934539644); (738153716287074, 9284953733845968); (776937115068761, 9248657801628372);
   (815713784165454, 9212486861055106); (854483716439767, 9176439630865959); (893246904749664, 9140514825376241);
   (932003341950530, 9104711154440334); (970753020897151, 9069027323375127); (1009495934444824,
   9033462032793795); (1048232075450142, 8998013978609473); (1086961436762113, 8962681851929617);
   (1125684011232144, 8927464338929372); (1164399791713872, 8892360120685487); (1203108771063982,
   8857367873090137); (1241810942142711, 8822486266794814); (1280506297813922, 8787713967194023);
   (1319194830945527, 8753049634189642); (1357876534409873, 8718491922095654); (1396551401083953,
   8684039479713055); (1435219423849585, 8649690959944814); (1473880595593570, 8615445009841110);
   (1512534909207931, 8581300270614346); (1551182357590094, 8547255377394995); (1589822933643124,
   8513308959117115); (1628456630276186, 8479459638283300); (1667083440404598, 8445706030890913);
   (1705703356949853, 8412046746257820); (1744316372830237, 8378480386908405); (1782922480970745,
   8345005548399494); (1821521674303787, 8311620819276021); (1860113945769427, 8278324780967712);
   (1898699288315583, 8245116007685347); (1937277694898351, 8211993066137553); (1975849158482332,
   8178954515467386); (2014413672030861, 8145998907089080); (2052971228516220, 8113124784595172);
   (2091521820910046, 8080330683663877); (2130065442183518, 8047615131976320); (2168602085307707,
   8014976649054261); (2207131743253687, 7982413746177700); (2245654408992786, 7949924926292972);
   (2284170075496866, 7917508683921266); (2322678735738558, 7885163505076767); (2361180382691391,
   7852887867074816); (2399675009339970, 7820680238380296); (2438162608660161, 7788539078496887);
   (2476643173639238, 7756462837835797); (2515116697266137, 7724449957635284); (2553583172531632,
   7692498869859846); (2592042592428276, 7660607997119690); (2630494950950418, 7628775752610187);
   (2668940241094400, 7597000539971840); (2707378455858637, 7565280753180758); (2745809588243627,
   7533614776449373); (2784233631252122, 7502000984147125); (2822650577889185, 7470437740681937);
   (2861060421162297, 7438923400382061); (2899463154081354, 7407456307418284); (2937858769658805,
   7376034795717347); (2976247260909605, 7344657188874992); (3014628620851235, 7313321790119833);
   (3053002842503849, 7282026882267780); (3091369918890411, 7250770727616661); (3129729843036784,
   7219551567871604); (3168082607971605, 7188367624080976); (3206428206726553, 7157217096543754);
   (3244766632336180, 7126098164728474); (3283097877838000, 7095008987164917); (3321421936272601,
   7063947701317978); (3359738800683675, 7032912423575450); (3398048464118025, 7001901249179220);
   (3436350919625518, 6970912252088438); (3474646160259222, 6939943485030631); (3512934179075297,
   6908992979422088); (3551214969132960, 6878058745117873); (3589488523494697, 6847138770469780);
   (3627754835226184, 6816231022194902); (3666013897396313, 6785333445302286); (3704265703077326,
   6754443962909195); (3742510245344780, 6723560476265635); (3780747517277552, 6692680864578448);
   (3818977511957925, 6661802984923885); (3857200222471513, 6630924672050478); (3895415641907212,
   6600043738479997); (3933623763357234, 6569157974408236); (3971824589917145, 6538265147544954);
   (4010018114685850, 6507363003023837); (4048204330765733, 6476449263301548); (4086383231262475,
   6445521628146093); (4124554809285159, 6414577774244373); (4162719057946313, 6383615355248897);
   (4200875970361723, 6352632001744353); (4239025539650403, 6321625321012810); (4277167758934664,
   6290592896938031); (4315302621349996, 6259532299969816); (4353430120035050, 6228441086687493);
   (4391550248131800, 6197316799593595); (4429662998785476, 6166156967136048); (4467768365144669,
   6134959103390032); (4505866340361192, 6103720708007873); (4543956917580149, 6072439265888257);
   (4582040089959842, 6041112246864396); (4620115850661784, 6009737105551100); (4658184192850646,
   5978311281040374); (4696245109694262, 5946832196705095); (4734298594363630, 5915297269900508);
   (4772344640032922, 5883703911593256); (4810383239879366, 5852049525988601); (4848414387083274,
   5820331500275602); (4886438074828052, 5788547204280300); (4924454296300152, 5756693990036153);
   (4962463044688994, 5724769191371552); (5000464313187072, 5692770123464371); (5038458094989847,
   5660694082384170); (5076444383295737, 5628538344541792); (5114423171306124, 5596300166256498);
   (5152394452225306, 5563976783240813); (5190358219260481, 5531565419921450); (5228314465621644,
   5499063288906348); (5266263184521664, 5466467590276112); (5304204369176288, 5433775510979574);
   (5342138012804128, 5400984224171918); (5380064108626723, 5368090888426800); (5417982649868424,
   5335092646990952); (5455893629756355, 5301986626824195); (5493797041520353, 5268769937872726);
   (5531692878392967, 5235439672294948); (5569581133609616, 5201992903560340); (5607461800408421,
   5168426685479451); (5645334872030312, 5134738051126828); (5683200341718934, 5100924011896347);
   (5721058202720717, 5066981556419031); (5758908448284813, 5032907649795031); (5796751071663206,
   4998699232549667); (5834586066110670, 4964353219304367); (5872413424884738, 4929866497721072);
   (5910233141245584, 4895235927339537); (5948045208456185, 4860458338375044); (5985849619782272,
   4825530530637028); (6023646368492366, 4790449272468502); (6061435447857588, 4755211299685720);
   (6099216851151860, 4719813314267770); (6136990571651969, 4684251983036106); (6174756602637421,
   4648523936304747); (6212514937390482, 4612625766678714); (6250265569196111, 4576554027697588);
   (6288008491342035, 4540305232392897); (6325743697118657, 4503875851660050); (6363471179819086,
   4467262312734350); (6401190932739228, 4430460997409065); (6438902949177649, 4393468230306454);
   (6476607222435661, 4356280287001213); (6514303745817353, 4318893392146115); (6551992512629413,
   4281303717180512); (6589673516181310, 4243507377699426); (6627346749785142, 4205500421365318);
   (6665012206755721, 4167278825245432); (6702669880410603, 4128838493200152); (6740319764079913,
   4090175252893487); (6777961851096472, 4051284853077196); (6815596134795740, 4012162960744930);
   (6853222608515802, 3972805157585024); (6890841265597301, 3933206936430703); (6928452099383453,
   3893363707465258); (6966055103219993, 3853270794229491); (7003650270455111, 3812923439861608);
   (7041237594439455, 3772316802505265); (7078817068526013, 3731445950802565); (7116388686070115,
   3690305869264382); (7153952440439517, 3648891443311514); (7191508325004260, 3607197463948496);
   (7229056333136743, 3565218622509892); (7266596458211782, 3522949504621223); (7304128693606411,
   3480384573896416); (7341653032709959, 3437518174609254); (7379169468914047, 3394344534196631);
   (7416677995612673, 3350857754521863); (7454178606202093, 3307051802569834); (7491671294080903,
   3262920509549146); (7529156052649964, 3218457579128907); (7566632875312398, 3173656582029230);
   (7604101755473577, 3128510950626488); (7641562686541136, 3083013982706857); (7679015661925099,
   3037158836716215); (7716460675037793, 2990938526478576); (7753897719293847, 2944345915081255);
   (7791326788110143, 2897373718147037); (7828747874905814, 2850014494514198); (7866160973102259,
   2802260643966435); (7903566076123019, 2754104402263226); (7940963177393872, 2705537844124074);
   (7978352270342804, 2656552874412215); (8015733348409962, 2607141230817734); (8053106405027601,
   2557294472688977); (8090471433630093, 2507003986186900); (8127828427653924, 2456260975146357);
   (8165177380537590, 2405056456817845); (8202518285721562, 2353381260467584); (8239851136648262,
   2301226024109441); (8277175926762039, 2248581209132214); (8314492649509186, 2195437101267124);
   (8351801298337812, 2141783806883121); (8389101866697789, 2087611251791469); (8426394348040677,
   2032909181861852); (8463678735819736, 1977667162167643); (8500955023499682, 1921874576850468);
   (8538223204546687, 1865520628432218); (8575483272428403, 1808594337520703); (8612735220613911,
   1751084542756670); (8649979042573664, 1692989893484893); (8687214731779326, 1634298851791224);
   (8724442281703840, 1574999685769095); (8761661685821301, 1515080464142904); (8798872937606911,
   1454529053242416); (8836076030536986, 1393333104630054); (8873270958088882, 1331480045921674);
   (8910457713740974, 1268957081874010); (8947636290972630, 1205751195326081); (8984806683264142,
   1141849136286254); (9021968884096695, 1077237410310354); (9059122886952299, 1011902275088095);
   (9096268685313795, 945829746093145); (9133406272664750, 879005589665127); (9170535642489439, 811415314762575);
   (9207656788272780, 743044173976992); (9244769703500343, 673877153836536); (9281874381658262, 603898963710404);
   (9318970816233173, 533094023892323); (9356059000712232, 461446461275067); (9393138928582961, 388939114070818);
   (9430210593333193, 315554533530840); (9467273988451002, 241274962229523); (9504329107424735, 166082017210808);
   (9541375943742914, 89956648437291); (9578414490894245, 12879101563175)].

(** An initialiser shorter than its array leaves zeros behind it. *)
Definition log2_lut : list (f64 * f64) :=
  map (fun r => (decimal r.1 16, decimal r.2 16)) (resize (Z.to_nat LUT_SIZE) (0, 0) log2_rows).

Definition LN2 : f64 := decimal 6931471805599453 16.
Definition S1 : f64 := f64_div (f64_of_Z 1) LN2.
Definition S2 : f64 := f64_div (f64_of_Z (-1)) (f64_mul (f64_of_Z 2) LN2).
Definition S3 : f64 := f64_div (f64_of_Z 1) (f64_mul (f64_of_Z 3) LN2).
Definition S4 : f64 := f64_div (f64_of_Z (-1)) (f64_mul (f64_of_Z 4) LN2).
Definition S5 : f64 := f64_div (f64_of_Z 1) (f64_mul (f64_of_Z 5) LN2).
Definition S6 : f64 := f64_div (f64_of_Z (-1)) (f64_mul (f64_of_Z 6) LN2).

(** The bits of a [double]: sign, 11 bits of exponent, 52 of significand. *)
Definition double_bits (x : f64) : Z :=
  let sign (s : bool) := if s then 2 ^ 63 else 0 in
  match x with
  | S754_zero s => sign s
  | S754_infinity s => sign s + 2047 * 2 ^ 52
  | S754_nan => 2047 * 2 ^ 52 + 2 ^ 51
  | S754_finite s m e =>
      if Zpos m <? 2 ^ 52 then sign s + Zpos m else sign s + (e + 1075) * 2 ^ 52 + (Zpos m - 2 ^ 52)
  end.

(** Steps 1 to 3.  The mask is the [int] expression [~(0xFFFFF << 12)], whose shift
    leaves the range of [int] and keeps the low 32 bits with the usual compilers. *)
Definition index_mask : Z := Z.lnot (wrap_s32 (Z.shiftl 1048575 (20 - LUT_SIZE_SHIFT))).
Definition lut_index_of (ix : Z) : Z :=
  let ixh := Z.land (Z.shiftr ix 32) 4294967295 in
  let ixh := wrap_u32 (ixh + Z.shiftl 1 (20 - LUT_SIZE_SHIFT - 1)) in
  let ixh := Z.land ixh (wrap_u32 index_mask) in
  Z.shiftr (wrap_u32 (ixh - 1069547520 - 3145728)) (20 - LUT_SIZE_SHIFT).

(** Steps 4 to 7. *)
Definition log2_at (lut_index : Z) (x : f64) : option f64 :=
  '(log2a, a) ← zlookup log2_lut lut_index;
  let dx := f64_mul (f64_sub x a) a in
  let dx2 := f64_mul dx dx in
  let taylor := f64_add S1 (f64_mul S2 dx) in
  let taylor := f64_add taylor (f64_mul (f64_add S3 (f64_mul S4 dx)) dx2) in
  let taylor := f64_add taylor (f64_mul (f64_mul (f64_add S5 (f64_mul S6 dx)) dx2) dx2) in
  Some (f64_add log2a (f64_mul taylor dx)).

Definition kernel_log2 (x : f64) : option f64 := log2_at (lut_index_of (double_bits x)) x.

(** ** The index *)

Lemma index_mask_low : wrap_u32 index_mask = Z.ones 12.
Proof. reflexivity. Qed.

(** Whatever the bits are, the index is 0xC0100. *)
Lemma lut_index_constant ix : lut_index_of ix = 786688.
Proof.
  unfold lut_index_of. rewrite index_mask_low, Z.land_ones by done.
  set (low := _ mod 2 ^ 12). assert (Hlow : 0 <= low < 2 ^ 12) by (by apply Z.mod_pos_bound).
  change (20 - LUT_SIZE_SHIFT) with 12. rewrite Z.shiftr_div_pow2 by done. unfold wrap_u32.
  replace (low - 1069547520 - 3145728) with (low + 786688 * 2 ^ 12 + (-1) * 2 ^ 32) by lia.
  rewrite Z.mod_add, Z.mod_small by lia. rewrite Z.div_add, Z.div_small by lia. done.
Qed.

Lemma log2_lut_length : zlen log2_lut = LUT_SIZE.
Proof. reflexivity. Qed.

Lemma lut_outside i : LUT_SIZE <= i -> zlookup log2_lut i = None.
Proof.
  intros Hi. pose proof log2_lut_length as Hl. unfold zlen in Hl. unfold zlookup.
  case_match; [done|]. apply lookup_ge_None_2. lia.
Qed.

(** For no argument is the table read inside its bounds: the index is 786688 whatever
    the argument, and the table has 256 rows. *)
Theorem kernel_log2_outside x : lut_index_of (double_bits x) = 786688 /\ kernel_log2 x = None.
Proof.
  unfold kernel_log2, log2_at. rewrite lut_index_constant, lut_outside by done. done.
Qed.

(** ** The table and the polynomial *)

(** Row 128 should hold log2 1.5 = 0.58... and 1 / 1.5 = 0.66...; three rows are missing;
    and with the right row the sum at 1.5 would be more than 1, the logarithm of 2. *)
Example row_128 : zlookup log2_rows 128 = Some (4924454296300152, 5756693990036153).
Proof. reflexivity. Qed.
Example rows_missing : zlen log2_rows = 253 /\ zlookup log2_lut 255 = Some (S754_zero false, S754_zero false).
Proof. split; reflexivity. Qed.
Example log2_of_three_halves :
  match log2_at 128 (f64_lit 3 2) with Some y => f64_lt (f64_of_Z 1) y | None => false end = true.
Proof. vm_compute. reflexivity. Qed.
