(* ===== verification/VendorTags.v ===== *)
(** * Vendor tag descriptors (libmocha/camera/VendorTagDescriptor.cpp)

    The class [VendorTagDescriptor]: the table of the vendor's metadata tags, built from
    the callbacks of the vendor's library or from a parcel of another process, and the
    descriptor that serves the whole process.

    Its maps are [KeyedVector]s and its sections a [SortedVector]: ordered containers
    without duplicates, in which adding a key again replaces its value.  They are finite
    maps and sets here, with [keys] and [section_names] as their order.

    [vendor_tags_transported]: a table of distinct tags with proper names is built, written
    to a parcel and read back unchanged.  [accepted_descriptor_safe]: whatever a parcel
    holds, a descriptor that is accepted answers every query without reading outside its
    vectors, and unpacking reads outside them only for the two kinds of parcels that the
    code does not refuse ([overread]), of which there are examples. *)

From S2P Require Import Prelude.

(** ** Outcomes *)

(** [status_t], with the errors of a parcel. *)
Inductive status := OK | BAD_VALUE | NOT_ENOUGH_DATA | PARCEL_ERROR (z : Z).

#[export] Instance status_eq_dec : EqDecision status.
Proof. solve_decision. Defined.

(** A value, a status returned early, [LOG_ALWAYS_FATAL], or a read outside a vector. *)
Inductive res (A : Type) := Ok (a : A) | Ret (s : status) | Fatal | Undefined.
Arguments Ok {A}. Arguments Ret {A}. Arguments Fatal {A}. Arguments Undefined {A}.

#[export] Instance res_ret : MRet res := fun A => Ok.
#[export] Instance res_bind : MBind res := fun A B f x =>
  match x with Ok a => f a | Ret s => Ret s | Fatal => Fatal | Undefined => Undefined end.

Definition or_return {A} (s : status) (o : option A) : res A := match o with Some a => Ok a | None => Ret s end.
Definition or_fatal {A} (o : option A) : res A := match o with Some a => Ok a | None => Fatal end.
Definition or_undefined {A} (o : option A) : res A := match o with Some a => Ok a | None => Undefined end.
Definition require (b : bool) (s : status) : res () := if b then Ok () else Ret s.

(** ** Parcels *)

(** What a parcel holds. *)
Inductive item := PInt (z : Z) | PString (s : string).

(** The calls on [Parcel]; reading past the end gives an empty string. *)
Class Parcel (P : Type) := {
  readInt32 : P -> status * Z * P;
  readString8 : P -> string * P;
  writeInt32 : Z -> P -> status * P;
  writeString8 : string -> P -> status * P;
  written : P -> list item;
  unread : P -> list item;
}.

Class ParcelLaws (P : Type) `{Parcel P} := {
  write_int z p p' : writeInt32 z p = (OK, p') -> written p' = written p ++ [PInt (wrap_s32 z)];
  write_string s p p' : writeString8 s p = (OK, p') -> written p' = written p ++ [PString s];
  read_int p z l : unread p = PInt z :: l -> exists p', readInt32 p = (OK, z, p') /\ unread p' = l;
  read_string p s l : unread p = PString s :: l -> exists p', readString8 p = (s, p') /\ unread p' = l;
}.

(** ** The class *)

Record descriptor := mk_descriptor {
  mReverseMapping : gmap string (gmap string Z);
  mTagToNameMap : gmap Z string;
  mTagToSectionMap : gmap Z Z;
  mTagToTypeMap : gmap Z Z;
  mSections : gset string;
  mTagCount : Z;
}.

Definition new_descriptor : descriptor := mk_descriptor ∅ ∅ ∅ ∅ ∅ 0.

(** The order of a [KeyedVector] and of a [SortedVector<String8>]. *)
Definition keys {A} (m : gmap Z A) : list Z := merge_sort Z.le (elements (dom m)).
Definition section_names (s : gset string) : list string := merge_sort String.le (elements s).

(** [operator[]] of a vector. *)
Definition item_at (l : list string) (i : Z) : option string := if i <? zlen l then zlookup l i else None.
(** The index of a value in a [SortedVector]. *)
Definition index_of (l : list string) (s : string) : option Z := Z.of_nat ∘ fst <$> list_find (eq s) l.

(** [mReverseMapping[reverseIndex]->add(name, tag)], on a new map if there is none. *)
Definition add_reverse (section name : string) (tag : Z) (d : descriptor) : descriptor :=
  mk_descriptor (<[section := <[name := tag]> (default ∅ (mReverseMapping d !! section))]> (mReverseMapping d))
    (mTagToNameMap d) (mTagToSectionMap d) (mTagToTypeMap d) (mSections d) (mTagCount d).
Definition add_name (tag : Z) (name : string) (d : descriptor) : descriptor :=
  mk_descriptor (mReverseMapping d) (<[tag := name]> (mTagToNameMap d)) (mTagToSectionMap d) (mTagToTypeMap d)
    (mSections d) (mTagCount d).
Definition add_section_index (tag i : Z) (d : descriptor) : descriptor :=
  mk_descriptor (mReverseMapping d) (mTagToNameMap d) (<[tag := i]> (mTagToSectionMap d)) (mTagToTypeMap d)
    (mSections d) (mTagCount d).
Definition add_type (tag ty : Z) (d : descriptor) : descriptor :=
  mk_descriptor (mReverseMapping d) (mTagToNameMap d) (mTagToSectionMap d) (<[tag := ty]> (mTagToTypeMap d))
    (mSections d) (mTagCount d).
Definition set_sections (s : gset string) (d : descriptor) : descriptor :=
  mk_descriptor (mReverseMapping d) (mTagToNameMap d) (mTagToSectionMap d) (mTagToTypeMap d) s (mTagCount d).
Definition set_count (n : Z) (d : descriptor) : descriptor :=
  mk_descriptor (mReverseMapping d) (mTagToNameMap d) (mTagToSectionMap d) (mTagToTypeMap d) (mSections d) n.

(** The answers of a [vendor_tag_ops_t]. *)
Record vendor_ops := mk_vendor_ops {
  get_tag_count : Z;
  get_all_tags : list Z;
  get_section_name : Z -> option string;
  get_tag_name : Z -> option string;
  get_tag_type : Z -> Z;
}.

Section descriptors.
(** [CAMERA_METADATA_VENDOR_TAG_BOUNDARY] and [NUM_TYPES]. *)
Context (BOUNDARY NUM_TYPES : Z).

(** ** From the vendor's callbacks *)

Definition valid_type (ty : Z) : bool := negb ((ty <? 0) || (NUM_TYPES <=? ty)).

(** The first loop: names, types, and the sections of the tags. *)
Fixpoint scan_tags (ops : vendor_ops) (tags : list Z) (d : descriptor) (sections : gset string)
    (tagToSectionMap : gmap Z string) : res (descriptor * gset string * gmap Z string) :=
  match tags with
  | [] => mret (d, sections, tagToSectionMap)
  | tag :: tags =>
      _ ← require (negb (tag <? BOUNDARY)) BAD_VALUE;
      tagName ← or_return BAD_VALUE (get_tag_name ops tag);
      sectionName ← or_return BAD_VALUE (get_section_name ops tag);
      _ ← require (valid_type (get_tag_type ops tag)) BAD_VALUE;
      scan_tags ops tags (add_type tag (get_tag_type ops tag) (add_name tag tagName d))
        ({[sectionName]} ∪ sections) (<[tag := sectionName]> tagToSectionMap)
  end.

(** The second loop: section indices and the reverse mapping. *)
Fixpoint index_tags (tags : list Z) (sections : gset string) (tagToSectionMap : gmap Z string) (d : descriptor)
    : res descriptor :=
  match tags with
  | [] => mret d
  | tag :: tags =>
      sectionString ← or_fatal (tagToSectionMap !! tag);
      index ← or_fatal (index_of (section_names sections) sectionString);
      let d := add_section_index tag (wrap_u32 index) d in
      name ← or_fatal (mTagToNameMap d !! tag);
      index_tags tags sections tagToSectionMap (add_reverse sectionString name tag d)
  end.

(** The entries of an array the callback has not written are not initialised. *)
Definition tag_array (ops : vendor_ops) : res (list Z) :=
  or_undefined (mapM (fun i => zlookup (get_all_tags ops) (Z.of_nat i)) (seq 0 (Z.to_nat (get_tag_count ops)))).

Definition createDescriptorFromOps (vOps : option vendor_ops) : res descriptor :=
  vOps ← or_return BAD_VALUE vOps;
  _ ← require (negb (get_tag_count vOps <? 0)) BAD_VALUE;
  tagArray ← tag_array vOps;
  '(desc, sections, tagToSectionMap) ← scan_tags vOps tagArray (set_count (get_tag_count vOps) new_descriptor) ∅ ∅;
  index_tags tagArray sections tagToSectionMap (set_sections sections desc).

(** ** Parcels of descriptors *)

Context {P : Type} `{Parcel P}.

(** A read whose failure is returned at once. *)
Definition read_or_return (p : P) : res (Z * P) :=
  match readInt32 p with
  | (OK, z, p) => Ok (z, p)
  | (st, _, _) => Ret st
  end.

Fixpoint read_tags (n : nat) (p : P) (d : descriptor) (maxSectionIndex : Z) (allTags : list Z)
    : res (descriptor * Z * list Z * P) :=
  match n with
  | O => mret (d, maxSectionIndex, allTags, p)
  | S n =>
      '(tag, p) ← read_or_return p;
      let tag := wrap_u32 tag in
      _ ← require (negb (tag <? BOUNDARY)) BAD_VALUE;
      '(tagType, p) ← read_or_return p;
      _ ← require (valid_type tagType) BAD_VALUE;
      let '(tagName, p) := readString8 p in
      _ ← require (negb (String.eqb tagName "")) NOT_ENOUGH_DATA;
      '(sectionIndex, p) ← read_or_return p;
      let sectionIndex := wrap_u32 sectionIndex in
      let maxSectionIndex := if sectionIndex <=? maxSectionIndex then maxSectionIndex else sectionIndex in
      read_tags n p (add_type tag tagType (add_section_index tag sectionIndex (add_name tag tagName d)))
        maxSectionIndex (allTags ++ [tag])
  end.

Fixpoint read_sections (n : nat) (p : P) (sections : gset string) : res (gset string * P) :=
  match n with
  | O => mret (sections, p)
  | S n =>
      let '(sectionName, p) := readString8 p in
      _ ← require (negb (String.eqb sectionName "")) NOT_ENOUGH_DATA;
      read_sections n p ({[sectionName]} ∪ sections)
  end.

(** Reserving no space at all, or more than there is, is fatal. *)
Context (capacity_ok : Z -> bool).

Definition read_all_sections (tagCount maxSectionIndex : Z) (p : P) : res (gset string * P) :=
  if 0 <? tagCount then
    '(sectionCount, p) ← read_or_return p;
    let sectionCount := wrap_u32 sectionCount in
    _ ← require (negb (sectionCount <? wrap_u32 (maxSectionIndex + 1))) BAD_VALUE;
    if (sectionCount =? 0) || negb (capacity_ok sectionCount) then Fatal
    else read_sections (Z.to_nat sectionCount) p ∅
  else mret (∅, p).

(** The reverse mapping of the tags that were read. *)
Fixpoint reverse_tags (tags : list Z) (d : descriptor) : res descriptor :=
  match tags with
  | [] => mret d
  | tag :: tags =>
      index ← or_fatal (mTagToSectionMap d !! tag);
      sectionString ← or_undefined (item_at (section_names (mSections d)) index);
      name ← or_fatal (mTagToNameMap d !! tag);
      reverse_tags tags (add_reverse sectionString name tag d)
  end.

Definition createFromParcel (parcel : option P) : res (descriptor * P) :=
  p ← or_return BAD_VALUE parcel;
  '(tagCount, p) ← read_or_return p;
  _ ← require (negb (tagCount <? 0)) BAD_VALUE;
  '(desc, maxSectionIndex, allTags, p) ← read_tags (Z.to_nat tagCount) p (set_count tagCount new_descriptor) 0 [];
  '(sections, p) ← read_all_sections tagCount maxSectionIndex p;
  desc ← reverse_tags allTags (set_sections sections desc);
  mret (desc, p).

(** A sequence of writes up to the first that fails. *)
Fixpoint write_items (l : list item) (p : P) : status * P :=
  match l with
  | [] => (OK, p)
  | i :: l =>
      match (match i with PInt z => writeInt32 z p | PString s => writeString8 s p end) with
      | (OK, p) => write_items l p
      | (st, p) => (st, p)
      end
  end.

(** The loop over the tags, which ends at the first write that fails. *)
Fixpoint write_tags (tags : list Z) (d : descriptor) (p : P) : res (status * P) :=
  match tags with
  | [] => mret (OK, p)
  | tag :: tags =>
      tagName ← or_fatal (mTagToNameMap d !! tag);
      sectionIndex ← or_fatal (mTagToSectionMap d !! tag);
      tagType ← or_fatal (mTagToTypeMap d !! tag);
      match write_items [PInt tag; PInt tagType; PString tagName; PInt sectionIndex] p with
      | (OK, p) => write_tags tags d p
      | (st, p) => mret (st, p)
      end
  end.

(** After that loop the sections are written in any case, and the status is theirs. *)
Definition writeToParcel (d : descriptor) (parcel : option P) : res (status * P) :=
  p ← or_return BAD_VALUE parcel;
  match writeInt32 (mTagCount d) p with
  | (OK, p) =>
      '(st, p) ← write_tags (keys (mTagToNameMap d)) d p;
      let numSections := zlen (section_names (mSections d)) in
      if 0 <? numSections
      then mret (write_items (PInt numSections :: (PString <$> section_names (mSections d))) p)
      else mret (st, p)
  | (st, p) => mret (st, p)
  end.

(** ** Queries *)

(** [VENDOR_TAG_COUNT_ERR] and [VENDOR_TAG_TYPE_ERR]; the errors of names are null. *)
Context (VENDOR_TAG_COUNT_ERR VENDOR_TAG_TYPE_ERR : Z).

Definition getTagCount (d : descriptor) : Z :=
  let size := Z.of_nat (size (mTagToNameMap d)) in
  if size =? 0 then VENDOR_TAG_COUNT_ERR else size.

(** What is written to the caller's array. *)
Definition getTagArray (d : descriptor) : list Z := keys (mTagToNameMap d).

Definition getSectionName (d : descriptor) (tag : Z) : res (option string) :=
  match mTagToSectionMap d !! tag with
  | None => mret None
  | Some index => name ← or_undefined (item_at (section_names (mSections d)) index); mret (Some name)
  end.

Definition getTagName (d : descriptor) (tag : Z) : option string := mTagToNameMap d !! tag.

Definition getTagType (d : descriptor) (tag : Z) : res Z :=
  match mTagToNameMap d !! tag with
  | None => mret VENDOR_TAG_TYPE_ERR
  | Some _ => or_fatal (mTagToTypeMap d !! tag)
  end.

Definition getAllSectionNames (d : descriptor) : gset string := mSections d.

Definition lookupTag (d : descriptor) (name section : string) : res Z :=
  names ← or_return BAD_VALUE (mReverseMapping d !! section);
  or_return BAD_VALUE (names !! name).

(** ** The descriptor of the process *)

(** The descriptor and what libcamera_metadata was last given: the callbacks below, or
    null. *)
Record process := mk_process { sGlobalVendorTagDescriptor : option descriptor; opsPtr : bool }.

Definition setAsGlobalVendorTagDescriptor (set_camera_metadata_vendor_ops : bool -> status) (desc : option descriptor)
    (g : process) : status * process :=
  (set_camera_metadata_vendor_ops (bool_decide (is_Some desc)), mk_process desc (bool_decide (is_Some desc))).
Definition clearGlobalVendorTagDescriptor (g : process) : process := mk_process None false.
Definition getGlobalVendorTagDescriptor (g : process) : option descriptor := sGlobalVendorTagDescriptor g.

Definition vendor_tag_descriptor_get_tag_count (g : process) : Z :=
  match sGlobalVendorTagDescriptor g with None => VENDOR_TAG_COUNT_ERR | Some d => getTagCount d end.
Definition vendor_tag_descriptor_get_all_tags (g : process) : option (list Z) :=
  getTagArray <$> sGlobalVendorTagDescriptor g.
Definition vendor_tag_descriptor_get_section_name (g : process) (tag : Z) : res (option string) :=
  match sGlobalVendorTagDescriptor g with None => mret None | Some d => getSectionName d tag end.
Definition vendor_tag_descriptor_get_tag_name (g : process) (tag : Z) : option string :=
  match sGlobalVendorTagDescriptor g with None => None | Some d => getTagName d tag end.
Definition vendor_tag_descriptor_get_tag_type (g : process) (tag : Z) : res Z :=
  match sGlobalVendorTagDescriptor g with None => mret VENDOR_TAG_TYPE_ERR | Some d => getTagType d tag end.

End descriptors.

(** ** Integers and orders *)

(** A parcel holds a [uint32_t] as an [int32_t]. *)
Lemma wrap_u32_s32 z : wrap_u32 (wrap_s32 z) = wrap_u32 z.
Proof.
  unfold wrap_u32, wrap_s32. rewrite Zminus_mod_idemp_l. f_equal. lia.
Qed.

Lemma section_names_elem s x : x ∈ section_names s <-> x ∈ s.
Proof. unfold section_names. by rewrite merge_sort_Permutation, elem_of_elements. Qed.

Lemma section_names_nodup s : NoDup (section_names s).
Proof. unfold section_names. rewrite merge_sort_Permutation. apply NoDup_elements. Qed.

Lemma section_names_length s : length (section_names s) = size s.
Proof. unfold section_names. by rewrite merge_sort_Permutation. Qed.

Lemma section_names_set s : list_to_set (section_names s) =@{gset string} s.
Proof. apply set_eq. intros x. by rewrite elem_of_list_to_set, section_names_elem. Qed.

Lemma keys_elem {A} (m : gmap Z A) k : k ∈ keys m <-> is_Some (m !! k).
Proof. unfold keys. by rewrite merge_sort_Permutation, elem_of_elements, elem_of_dom. Qed.

Lemma keys_nodup {A} (m : gmap Z A) : NoDup (keys m).
Proof. unfold keys. rewrite merge_sort_Permutation. apply NoDup_elements. Qed.

(** [indexOf] and [operator[]] of a [SortedVector] are inverse. *)
Lemma index_of_lookup l x : x ∈ l -> exists i, index_of l x = Some i /\ item_at l i = Some x /\ 0 <= i < zlen l.
Proof.
  intros Hx. destruct (list_find_elem_of (eq x) l x Hx eq_refl) as ([i y] & Hi).
  pose proof Hi as (Hl & <- & _)%list_find_Some. exists (Z.of_nat i). unfold index_of. rewrite Hi. split; [done|].
  apply lookup_lt_Some in Hl as Hlt. unfold item_at, zlookup, zlen. rewrite Nat2Z.id. split; [|lia].
  by rewrite (proj2 (Z.ltb_lt _ _)), (proj2 (Z.ltb_ge _ _)) by lia.
Qed.

Lemma item_at_elem l i x : item_at l i = Some x -> x ∈ l.
Proof. unfold item_at, zlookup. intros Hi. repeat case_match; try done. by eapply list_elem_of_lookup_2. Qed.

(** ** What the loops build *)

(** Adding [f tag] for every tag. *)
Definition fill {A} (f : Z -> A) (tags : list Z) (m : gmap Z A) : gmap Z A := foldl (fun m t => <[t := f t]> m) m tags.

Lemma fill_lookup {A} (f : Z -> A) tags m t : fill f tags m !! t = if decide (t ∈ tags) then Some (f t) else m !! t.
Proof.
  unfold fill. revert m. induction tags as [|u tags IH]; intros m; cbn; [by rewrite decide_False by apply not_elem_of_nil|].
  rewrite IH. destruct (decide (t ∈ tags)) as [Hin|Hin]; [by rewrite decide_True by (by right)|].
  destruct (decide (t = u)) as [->|Hne]; [rewrite lookup_insert_eq, decide_True by left; done|].
  rewrite lookup_insert_ne, decide_False by (by rewrite ?elem_of_cons; naive_solver). done.
Qed.

Lemma fill_perm {A} (f : Z -> A) tags tags' m : tags ≡ₚ tags' -> fill f tags m = fill f tags' m.
Proof. intros Hp. apply map_eq. intros t. rewrite !fill_lookup. by erewrite decide_ext; [|by rewrite Hp]. Qed.

Lemma fill_dom {A} (f : Z -> A) tags t : is_Some (fill f tags ∅ !! t) <-> t ∈ tags.
Proof. rewrite fill_lookup. case_decide; [naive_solver|]. rewrite lookup_empty. split; [by intros []|done]. Qed.

Section reverse.
Context (section name : Z -> string).

Definition put_reverse (m : gmap string (gmap string Z)) (t : Z) : gmap string (gmap string Z) :=
  <[section t := <[name t := t]> (default ∅ (m !! section t))]> m.
Definition reverse_of (tags : list Z) : gmap string (gmap string Z) := foldl put_reverse ∅ tags.

Lemma put_reverse_comm m t u : (section t, name t) <> (section u, name u) ->
  put_reverse (put_reverse m t) u = put_reverse (put_reverse m u) t.
Proof.
  intros Hne. unfold put_reverse. destruct (decide (section t = section u)) as [He|Hs].
  - rewrite He, !lookup_insert_eq, !insert_insert_eq. cbn. f_equal. apply insert_insert_ne. congruence.
  - rewrite !lookup_insert_ne by done. by apply insert_insert_ne.
Qed.

Lemma foldl_put_perm tags tags' : tags ≡ₚ tags' ->
  (forall t u, t ∈ tags -> u ∈ tags -> section t = section u -> name t = name u -> t = u) -> NoDup tags ->
  forall m, foldl put_reverse m tags = foldl put_reverse m tags'.
Proof.
  induction 1 as [|t tags tags' Hp IH|t u tags|tags1 tags2 tags3 H1 IH1 H2 IH2]; intros Hinj Hnd m; [done| | |].
  - cbn. apply NoDup_cons in Hnd as [_ Hnd]. apply IH; [|done]. intros a b Ha Hb. apply Hinj; by right.
  - cbn. f_equal. apply put_reverse_comm. intros [= ??]. apply NoDup_cons in Hnd as [Hn _]. apply Hn.
    rewrite (Hinj t u) by (try done; set_solver). left.
  - rewrite IH1 by done. apply IH2; [|by rewrite <- H1]. intros a b Ha Hb. apply Hinj; by rewrite H1.
Qed.
End reverse.

Section loops.
Context (BOUNDARY NUM_TYPES : Z).

(** What a tag needs for every step on it to succeed. *)
Record good_tag (section name : Z -> string) (ty : Z -> Z) (t : Z) : Prop := {
  tag_range : BOUNDARY <= t < 2 ^ 32;
  type_range : 0 <= ty t < NUM_TYPES;
  name_proper : name t <> "";
  section_proper : section t <> "";
}.

Lemma scan_tags_spec ops section name tags : forall d secs t2s,
  Forall (fun t => good_tag section name (get_tag_type ops) t /\ get_tag_name ops t = Some (name t) /\
                   get_section_name ops t = Some (section t)) tags ->
  scan_tags BOUNDARY NUM_TYPES ops tags d secs t2s =
  Ok (mk_descriptor (mReverseMapping d) (fill name tags (mTagToNameMap d)) (mTagToSectionMap d)
        (fill (get_tag_type ops) tags (mTagToTypeMap d)) (mSections d) (mTagCount d),
      list_to_set (section <$> tags) ∪ secs, fill section tags t2s).
Proof.
  induction tags as [|t tags IH]; intros d secs t2s Hf.
  - cbn. destruct d. by rewrite (left_id_L ∅ _).
  - apply Forall_cons in Hf as [([Hr Hty _ _] & Hn & Hs) Hf]. cbn [scan_tags]. unfold require, valid_type.
    rewrite Hn, Hs. rewrite (proj2 (Z.ltb_ge _ _)) by lia. cbn.
    rewrite (proj2 (Z.ltb_ge _ _)), (proj2 (Z.leb_gt _ _)) by lia. cbn. rewrite IH by done. unfold add_type, add_name. cbn.
    by replace (list_to_set (section <$> tags) ∪ ({[section t]} ∪ secs)) with ({[section t]} ∪ list_to_set (section <$> tags) ∪ secs)
      by set_solver.
Qed.

Lemma index_tags_spec secs t2s section name idx tags : forall d,
  (forall t, t ∈ tags -> t2s !! t = Some (section t) /\ mTagToNameMap d !! t = Some (name t) /\
     index_of (section_names secs) (section t) = Some (idx t) /\ 0 <= idx t < 2 ^ 32) ->
  index_tags tags secs t2s d =
  Ok (mk_descriptor (foldl (put_reverse section name) (mReverseMapping d) tags) (mTagToNameMap d)
        (fill idx tags (mTagToSectionMap d)) (mTagToTypeMap d) (mSections d) (mTagCount d)).
Proof.
  induction tags as [|t tags IH]; intros d Hf; [by destruct d|].
  destruct (Hf t) as (H1 & H2 & H3 & H4); [left|]. cbn [index_tags]. rewrite H1. cbn. rewrite H3. cbn. rewrite H2. cbn.
  rewrite wrap_u32_id by done. rewrite IH by (intros u Hu; apply Hf; by right). done.
Qed.

Lemma reverse_tags_spec section name tags : forall d,
  (forall t, t ∈ tags -> mTagToNameMap d !! t = Some (name t) /\
     exists i, mTagToSectionMap d !! t = Some i /\ item_at (section_names (mSections d)) i = Some (section t)) ->
  reverse_tags tags d =
  Ok (mk_descriptor (foldl (put_reverse section name) (mReverseMapping d) tags) (mTagToNameMap d)
        (mTagToSectionMap d) (mTagToTypeMap d) (mSections d) (mTagCount d)).
Proof.
  induction tags as [|t tags IH]; intros d Hf; [by destruct d|].
  destruct (Hf t) as (H1 & i & H2 & H3); [left|]. cbn [reverse_tags]. rewrite H2. cbn. rewrite H3. cbn. rewrite H1. cbn.
  rewrite IH by (intros u Hu; apply Hf; by right). done.
Qed.
End loops.

(** ** Built, written, read back *)

(** The table the loops build of the vendor's answers. *)
Section tables.
Context (section name : Z -> string) (ty : Z -> Z).

Definition sections_of (tags : list Z) : gset string := list_to_set (section <$> tags).
Definition index_in (secs : gset string) (t : Z) : Z := default 0 (index_of (section_names secs) (section t)).
Definition table (tags : list Z) : descriptor :=
  mk_descriptor (reverse_of section name tags) (fill name tags ∅) (fill (index_in (sections_of tags)) tags ∅)
    (fill ty tags ∅) (sections_of tags) (zlen tags).

(** No two tags have the same name in the same section. *)
Definition names_unique (tags : list Z) : Prop :=
  forall t u, t ∈ tags -> u ∈ tags -> section t = section u -> name t = name u -> t = u.

Lemma sections_of_perm tags tags' : tags ≡ₚ tags' -> sections_of tags = sections_of tags'.
Proof. intros Hp. apply set_eq. intros x. unfold sections_of. rewrite !elem_of_list_to_set. by rewrite Hp. Qed.

Lemma table_perm tags tags' : tags ≡ₚ tags' -> names_unique tags -> NoDup tags -> table tags = table tags'.
Proof.
  intros Hp Hu Hnd. unfold table, reverse_of. rewrite (sections_of_perm _ _ Hp), (foldl_put_perm _ _ _ _ Hp Hu Hnd).
  rewrite !(fill_perm _ _ _ _ Hp). f_equal. unfold zlen. by rewrite Hp.
Qed.

Lemma table_keys tags : NoDup tags -> keys (mTagToNameMap (table tags)) ≡ₚ tags.
Proof.
  intros Hnd. apply NoDup_Permutation; [apply keys_nodup|done|]. intros t. rewrite keys_elem. cbn. apply fill_dom.
Qed.

Lemma section_index tags t : t ∈ tags ->
  exists i, index_of (section_names (sections_of tags)) (section t) = Some i /\ index_in (sections_of tags) t = i /\
    item_at (section_names (sections_of tags)) i = Some (section t) /\ 0 <= i < Z.of_nat (size (sections_of tags)).
Proof.
  intros Ht. destruct (index_of_lookup (section_names (sections_of tags)) (section t)) as (i & Hi & Hl & Hr).
  { rewrite section_names_elem. apply elem_of_list_to_set, list_elem_of_fmap. eauto. }
  exists i. unfold index_in. rewrite Hi. unfold zlen in Hr. rewrite section_names_length in Hr. done.
Qed.

Lemma sections_of_size tags : (size (sections_of tags) <= length tags)%nat.
Proof.
  unfold sections_of. rewrite <- (length_fmap section tags). induction (section <$> tags) as [|s l IH]; cbn;
    [by rewrite size_empty|].
  rewrite size_union_alt, size_singleton. apply le_n_S. etrans; [|exact IH]. apply subseteq_size. set_solver.
Qed.
End tables.

(** What is asked of the vendor's callbacks. *)
Record good_ops (BOUNDARY NUM_TYPES : Z) (section name : Z -> string) (ops : vendor_ops) : Prop := {
  ops_count : get_tag_count ops = zlen (get_all_tags ops);
  ops_small : get_tag_count ops <= INT_MAX;
  ops_distinct : NoDup (get_all_tags ops);
  ops_tags : Forall (fun t => good_tag BOUNDARY NUM_TYPES section name (get_tag_type ops) t /\
    get_tag_name ops t = Some (name t) /\ get_section_name ops t = Some (section t)) (get_all_tags ops);
  ops_unique : names_unique section name (get_all_tags ops);
}.

Lemma tag_array_spec ops : get_tag_count ops = zlen (get_all_tags ops) -> tag_array ops = Ok (get_all_tags ops).
Proof.
  intros Hc. unfold tag_array. erewrite (proj2 (mapM_Some _ _ (get_all_tags ops))); [done|].
  rewrite Hc. unfold zlen. rewrite Nat2Z.id. apply Forall2_same_length_lookup_2; [by rewrite length_seq|].
  intros i x y Hi Hy. apply lookup_seq in Hi as [-> _]. unfold zlookup. rewrite (proj2 (Z.ltb_ge _ _)) by lia. by rewrite Nat2Z.id.
Qed.

Lemma created_table BOUNDARY NUM_TYPES section name ops : good_ops BOUNDARY NUM_TYPES section name ops ->
  createDescriptorFromOps BOUNDARY NUM_TYPES (Some ops) = Ok (table section name (get_tag_type ops) (get_all_tags ops)).
Proof.
  intros [Hc Hm Hnd Ht Hu]. unfold createDescriptorFromOps. cbn. unfold require.
  rewrite (proj2 (Z.ltb_ge _ _)) by (rewrite Hc; apply zlen_nonneg). cbn. rewrite tag_array_spec by done. cbn.
  erewrite scan_tags_spec by done. cbn. rewrite (right_id_L ∅ _). change (list_to_set _) with (sections_of section (get_all_tags ops)).
  erewrite (index_tags_spec _ _ section name (index_in section (sections_of section (get_all_tags ops)))).
  - cbn. by rewrite Hc.
  - intros t Hin. cbn. rewrite !fill_lookup, !decide_True by done.
    destruct (section_index section (get_all_tags ops) t Hin) as (i & Hi & -> & _ & Hr).
    pose proof (sections_of_size section (get_all_tags ops)). unfold zlen, INT_MAX in *. split_and!; try done; lia.
Qed.

Section transport.
Context {P : Type} `{HP : ParcelLaws P}.
Context (BOUNDARY NUM_TYPES : Z) (HB : 0 <= BOUNDARY) (HN : NUM_TYPES <= 2 ^ 31).
Context (section name : Z -> string) (ty : Z -> Z).

(** No write fails. *)
Definition has_room : Prop := (forall z p, (writeInt32 z p).1 = OK) /\ (forall s p, (writeString8 s p).1 = OK).

(** What is in the parcel after the writes: integers of 32 bits. *)
Definition stored (i : item) : item := match i with PInt z => PInt (wrap_s32 z) | PString s => PString s end.
Definition tag_items (idx : Z -> Z) (t : Z) : list item := [PInt t; PInt (ty t); PString (name t); PInt (idx t)].

Lemma write_items_spec l : has_room -> forall p, exists p', write_items l p = (OK, p') /\ written p' = written p ++ (stored <$> l).
Proof.
  intros [Hi Hs]. induction l as [|i l IH]; intros p; [exists p; cbn; by rewrite app_nil_r|]. cbn [write_items].
  destruct i as [z|s].
  - destruct (writeInt32 z p) as [st p1] eqn:Hw. pose proof (Hi z p) as Ho. rewrite Hw in Ho. cbn in Ho. subst.
    destruct (IH p1) as (p' & -> & Hp). exists p'. split; [done|]. rewrite Hp, (write_int _ _ _ Hw), <- app_assoc. done.
  - destruct (writeString8 s p) as [st p1] eqn:Hw. pose proof (Hs s p) as Ho. rewrite Hw in Ho. cbn in Ho. subst.
    destruct (IH p1) as (p' & -> & Hp). exists p'. split; [done|]. rewrite Hp, (write_string _ _ _ Hw), <- app_assoc. done.
Qed.

Lemma write_tags_spec d idx ts : has_room ->
  (forall t, t ∈ ts -> mTagToNameMap d !! t = Some (name t) /\ mTagToSectionMap d !! t = Some (idx t) /\
     mTagToTypeMap d !! t = Some (ty t)) ->
  forall p, exists p', write_tags ts d p = Ok (OK, p') /\ written p' = written p ++ (stored <$> concat (tag_items idx <$> ts)).
Proof.
  intros Hroom. induction ts as [|t ts IH]; intros Hf p; [exists p; cbn; by rewrite app_nil_r|].
  destruct (Hf t) as (H1 & H2 & H3); [left|]. cbn [write_tags]. rewrite H1, H2, H3. cbn [mbind res_bind or_fatal].
  destruct (write_items_spec (tag_items idx t) Hroom p) as (p1 & Hw & Hp1). unfold tag_items in Hw. rewrite Hw.
  destruct (IH ltac:(intros u Hu; apply Hf; by right) p1) as (p' & -> & Hp). exists p'. split; [done|].
  by rewrite Hp, Hp1, fmap_cons, concat_cons, fmap_app, app_assoc.
Qed.

(** One tag of a parcel. *)
Lemma read_tag n p t idx d mx all l : good_tag BOUNDARY NUM_TYPES section name ty t -> 0 <= idx t < 2 ^ 32 ->
  unread p = (stored <$> tag_items idx t) ++ l ->
  exists p', unread p' = l /\ read_tags BOUNDARY NUM_TYPES (S n) p d mx all =
    read_tags BOUNDARY NUM_TYPES n p' (add_type t (ty t) (add_section_index t (idx t) (add_name t (name t) d)))
      (mx `max` idx t) (all ++ [t]).
Proof.
  intros [Ht Hty Hn _] Hi Hp. cbn in Hp.
  destruct (read_int _ _ _ Hp) as (p1 & R1 & Hp1). destruct (read_int _ _ _ Hp1) as (p2 & R2 & Hp2).
  destruct (read_string _ _ _ Hp2) as (p3 & R3 & Hp3). destruct (read_int _ _ _ Hp3) as (p4 & R4 & Hp4).
  exists p4. split; [done|]. cbn [read_tags]. unfold read_or_return. rewrite R1. cbn [mbind res_bind].
  rewrite wrap_u32_s32, wrap_u32_id by lia. unfold require, valid_type. rewrite (proj2 (Z.ltb_ge _ _)) by lia.
  cbn [negb mbind res_bind]. rewrite R2. cbn [mbind res_bind]. rewrite wrap_s32_id by (unfold is_int, INT_MIN, INT_MAX; lia).
  rewrite (proj2 (Z.ltb_ge _ _)), (proj2 (Z.leb_gt _ _)) by lia. cbn [negb orb mbind res_bind]. rewrite R3.
  rewrite (proj2 (String.eqb_neq _ _)) by done. cbn [negb mbind res_bind]. rewrite R4. cbn [mbind res_bind].
  rewrite wrap_u32_s32, wrap_u32_id by lia. f_equal. case_match; breflect; lia.
Qed.

Lemma read_tags_spec idx ts : Forall (good_tag BOUNDARY NUM_TYPES section name ty) ts ->
  (forall t, t ∈ ts -> 0 <= idx t < 2 ^ 32) -> forall p d mx all l,
  unread p = (stored <$> concat (tag_items idx <$> ts)) ++ l ->
  exists p', unread p' = l /\ read_tags BOUNDARY NUM_TYPES (length ts) p d mx all =
    Ok (mk_descriptor (mReverseMapping d) (fill name ts (mTagToNameMap d)) (fill idx ts (mTagToSectionMap d))
          (fill ty ts (mTagToTypeMap d)) (mSections d) (mTagCount d),
        foldl Z.max mx (idx <$> ts), all ++ ts, p').
Proof.
  induction 1 as [|t ts Ht Hts IH]; intros Hr p d mx all l Hp; [exists p; destruct d; by rewrite app_nil_r|].
  rewrite fmap_cons, concat_cons, fmap_app, <- app_assoc in Hp.
  destruct (read_tag (length ts) p t idx d mx all _ Ht (Hr t ltac:(left)) Hp) as (p1 & Hp1 & He).
  destruct (IH ltac:(intros u Hu; apply Hr; by right) p1
    (add_type t (ty t) (add_section_index t (idx t) (add_name t (name t) d))) (mx `max` idx t) (all ++ [t]) l Hp1) as (p' & Hp' & Hq).
  exists p'. split; [done|]. cbn [length]. rewrite He, Hq. cbn. by rewrite <- app_assoc.
Qed.

Lemma read_sections_spec names : Forall (fun s => s <> "") names -> forall p secs l,
  unread p = (PString <$> names) ++ l ->
  exists p', unread p' = l /\ read_sections (length names) p secs = Ok (list_to_set names ∪ secs, p').
Proof.
  induction 1 as [|s names Hs Hf IH]; intros p secs l Hp; [exists p; split; [done|]; cbn; by rewrite (left_id_L ∅ _)|].
  destruct (read_string _ _ _ Hp) as (p1 & R1 & Hp1). destruct (IH p1 ({[s]} ∪ secs) l Hp1) as (p' & Hp' & Hq).
  exists p'. split; [done|]. cbn [length read_sections]. rewrite R1. unfold require.
  rewrite (proj2 (String.eqb_neq _ _)) by done. cbn [negb mbind res_bind]. rewrite Hq. do 2 f_equal. cbn. set_solver.
Qed.

(** The items of a table with its tags in key order. *)
Definition table_items (ks : list Z) : list item :=
  PInt (zlen ks) :: concat (tag_items (index_in section (sections_of section ks)) <$> ks) ++
  (if 0 <? zlen (section_names (sections_of section ks))
   then PInt (zlen (section_names (sections_of section ks))) :: (PString <$> section_names (sections_of section ks))
   else []).

Lemma write_table_spec ks p : has_room -> keys (mTagToNameMap (table section name ty ks)) = ks ->
  exists p', writeToParcel (table section name ty ks) (Some p) = Ok (OK, p') /\ written p' = written p ++ (stored <$> table_items ks).
Proof.
  intros Hroom Hks. unfold writeToParcel. cbn [mbind res_bind or_return mTagCount table].
  destruct (write_items_spec [PInt (zlen ks)] Hroom p) as (p0 & Hw & Hp0). cbn [write_items] in Hw.
  destruct (writeInt32 (zlen ks) p) as [st p1]. destruct st; try discriminate. injection Hw as ->. rewrite Hks.
  destruct (write_tags_spec (table section name ty ks) (index_in section (sections_of section ks)) ks Hroom) with (p := p0)
    as (p2 & -> & Hp2).
  { intros t Ht. cbn. by rewrite !fill_lookup, !decide_True by done. }
  cbn [mbind res_bind]. unfold table_items. cbn [mSections table]. case_match.
  - destruct (write_items_spec (PInt (zlen (section_names (sections_of section ks))) ::
      (PString <$> section_names (sections_of section ks))) Hroom p2) as (p3 & -> & Hp3).
    exists p3. split; [done|]. rewrite Hp3, Hp2, Hp0, <- !app_assoc. cbn. by rewrite fmap_app.
  - exists p2. split; [done|]. rewrite Hp2, Hp0, app_nil_r, <- app_assoc. done.
Qed.

(** The largest index that was read is the index of a section. *)
Lemma foldl_max_bound (f : Z -> Z) ts mx n : (forall t, t ∈ ts -> f t < n) -> mx < n -> foldl Z.max mx (f <$> ts) < n.
Proof.
  revert mx. induction ts as [|t ts IH]; intros mx Hf Hm; [done|]. cbn.
  apply IH; [intros u Hu; apply Hf; by right|]. specialize (Hf t ltac:(left)). lia.
Qed.
Lemma foldl_max_lower l : forall mx, mx <= foldl Z.max mx l.
Proof. induction l as [|z l IH]; intros mx; cbn; [done|]. specialize (IH (mx `max` z)). lia. Qed.

Lemma sections_proper ts : Forall (good_tag BOUNDARY NUM_TYPES section name ty) ts ->
  Forall (fun s => s <> "") (section_names (sections_of section ts)).
Proof.
  intros Hf. apply Forall_forall. intros s Hs. rewrite section_names_elem in Hs.
  apply elem_of_list_to_set, list_elem_of_fmap in Hs as (t & -> & Ht). rewrite Forall_forall in Hf. by apply (Hf t Ht).
Qed.

Context (capacity_ok : Z -> bool).

Lemma read_sections_table ks q rest mx : Forall (good_tag BOUNDARY NUM_TYPES section name ty) ks ->
  zlen ks <= INT_MAX -> (forall n, 0 < n <= zlen ks -> capacity_ok n = true) ->
  mx = foldl Z.max 0 (index_in section (sections_of section ks) <$> ks) ->
  unread q = (if 0 <? zlen (section_names (sections_of section ks))
    then PInt (zlen (section_names (sections_of section ks))) :: (PString <$> section_names (sections_of section ks)) else []) ++ rest ->
  exists q', unread q' = rest /\ read_all_sections capacity_ok (zlen ks) mx q = Ok (sections_of section ks, q').
Proof.
  intros Hf Hm Hcap -> Hq. unfold read_all_sections. pose proof (sections_of_size section ks) as Hs.
  rewrite <- section_names_length in Hs. destruct ks as [|t0 ks0]; [by exists q|]. set (ks := t0 :: ks0) in *.
  assert (Hpos : 0 < zlen (section_names (sections_of section ks))).
  { destruct (section_index section ks t0 ltac:(left)) as (i & _ & _ & _ & Hi).
    rewrite <- section_names_length in Hi. unfold zlen. lia. }
  rewrite (proj2 (Z.ltb_lt _ _) Hpos) in Hq. rewrite (proj2 (Z.ltb_lt 0 (zlen ks))) by (unfold ks; rewrite zlen_cons; pose proof (zlen_nonneg ks0); lia).
  destruct (read_int _ _ _ Hq) as (q1 & R1 & Hq1). unfold read_or_return. rewrite R1. cbn [mbind res_bind].
  assert (Hmax : foldl Z.max 0 (index_in section (sections_of section ks) <$> ks) < zlen (section_names (sections_of section ks))).
  { apply foldl_max_bound; [|done]. intros t Ht. destruct (section_index section ks t Ht) as (i & _ & -> & _ & Hi).
    unfold zlen. rewrite section_names_length. lia. }
  pose proof (foldl_max_lower (index_in section (sections_of section ks) <$> ks) 0). unfold zlen in *. unfold INT_MAX in *.
  rewrite !wrap_u32_id by lia. unfold require. rewrite (proj2 (Z.ltb_ge _ _)) by lia. cbn [negb mbind res_bind].
  rewrite (proj2 (Z.eqb_neq _ _)), Hcap by lia. cbn [negb orb]. rewrite Nat2Z.id.
  destruct (read_sections_spec _ (sections_proper ks Hf) q1 ∅ rest Hq1) as (q' & Hq' & ->).
  exists q'. split; [done|]. by rewrite section_names_set, (right_id_L ∅ _).
Qed.

Lemma read_table_spec ks q rest : Forall (good_tag BOUNDARY NUM_TYPES section name ty) ks -> zlen ks <= INT_MAX ->
  (forall n, 0 < n <= zlen ks -> capacity_ok n = true) -> unread q = (stored <$> table_items ks) ++ rest ->
  exists q', createFromParcel BOUNDARY NUM_TYPES capacity_ok (Some q) = Ok (table section name ty ks, q') /\ unread q' = rest.
Proof.
  intros Hf Hm Hcap Hq. unfold createFromParcel, table_items in *. cbn [mbind res_bind or_return fmap list_fmap app] in *.
  pose proof (zlen_nonneg ks) as Hnn. destruct (read_int _ _ _ Hq) as (q1 & R1 & Hq1). unfold read_or_return at 1. rewrite R1.
  cbn [mbind res_bind]. rewrite wrap_s32_id by (unfold is_int, INT_MIN in *; lia). unfold require.
  rewrite (proj2 (Z.ltb_ge _ _)) by done. cbn [negb mbind res_bind]. replace (Z.to_nat (zlen ks)) with (length ks) by (unfold zlen; lia).
  rewrite fmap_app, <- app_assoc in Hq1. pose proof (sections_of_size section ks) as Hss.
  assert (Hidx : forall t, t ∈ ks -> 0 <= index_in section (sections_of section ks) t < 2 ^ 32).
  { intros t Ht. destruct (section_index section ks t Ht) as (i & _ & -> & _ & Hi). unfold zlen, INT_MAX in *. lia. }
  destruct (read_tags_spec _ ks Hf Hidx q1 (set_count (zlen ks) new_descriptor) 0 [] _ Hq1) as (q2 & Hq2 & ->).
  cbn [mbind res_bind].
  destruct (read_sections_table ks q2 rest _ Hf Hm Hcap eq_refl) as (q3 & Hq3 & ->).
  { rewrite Hq2. f_equal. case_match; [|done]. rewrite fmap_cons. cbn [stored]. unfold zlen, INT_MAX in *.
    rewrite wrap_s32_id by (unfold is_int, INT_MIN, INT_MAX; rewrite section_names_length; lia). f_equal. by rewrite <- list_fmap_compose. }
  cbn [mbind res_bind app]. erewrite (reverse_tags_spec section name).
  - exists q3. split; [|done]. done.
  - intros t Ht. cbn. rewrite !fill_lookup, !decide_True by done. split; [done|].
    destruct (section_index section ks t Ht) as (i & _ & -> & Hl & _). eauto.
Qed.
End transport.

Section theorems.
Context {P : Type} `{HP : ParcelLaws P}.
Context (BOUNDARY NUM_TYPES : Z) (capacity_ok : Z -> bool).

(** C38. A table of distinct tags whose names are proper and unique in their sections is
    built from the vendor's answers, and a parcel it is written to is read back as the
    same descriptor, with what follows it left unread. *)
Theorem vendor_tags_transported ops section name :
  0 <= BOUNDARY -> NUM_TYPES <= 2 ^ 31 -> good_ops BOUNDARY NUM_TYPES section name ops ->
  (forall n, 0 < n <= get_tag_count ops -> capacity_ok n = true) -> has_room ->
  exists d, createDescriptorFromOps BOUNDARY NUM_TYPES (Some ops) = Ok d /\
    forall p, exists p' l, writeToParcel d (Some p) = Ok (OK, p') /\ written p' = written p ++ l /\
      forall q rest, unread q = l ++ rest ->
      exists q', createFromParcel BOUNDARY NUM_TYPES capacity_ok (Some q) = Ok (d, q') /\ unread q' = rest.
Proof.
  intros HB HN Hops Hcap Hroom. rewrite (created_table _ _ _ _ _ Hops). destruct Hops as [Hc Hm Hnd Ht Hu].
  set (ty := get_tag_type ops) in *. set (tags := get_all_tags ops) in *. eexists; split; [done|]. intros p.
  pose proof (table_keys section name ty tags Hnd) as Hks. set (ks := keys _) in Hks.
  rewrite <- (table_perm section name ty ks tags Hks) by
    (first [by rewrite Hks | intros t u; rewrite Hks; apply Hu]).
  assert (Hz : zlen ks = get_tag_count ops) by (rewrite Hc; unfold zlen; by rewrite Hks).
  destruct (write_table_spec section name ty ks p Hroom) as (p' & Hw & Hp').
  { change (keys (fill name ks ∅) = keys (fill name tags ∅)). by rewrite (fill_perm name _ _ _ Hks). }
  exists p', (stored <$> table_items section name ty ks). split_and!; [done|done|]. intros q rest Hq.
  refine (read_table_spec BOUNDARY NUM_TYPES HB HN section name ty capacity_ok ks q rest _ _ _ Hq).
  - rewrite Hks. eapply Forall_impl; [exact Ht|]. naive_solver.
  - by rewrite Hz.
  - by rewrite Hz.
Qed.

(** What a lookup by name finds is a tag with that name in that section. *)
Definition reverse_sound (section name : Z -> string) (m : gmap string (gmap string Z)) (tags : list Z) : Prop :=
  forall t, t ∈ tags -> exists u, u ∈ tags /\ section u = section t /\ name u = name t /\
    exists names, m !! section t = Some names /\ names !! name t = Some u.

Lemma put_reverse_lookup section name m t s n : exists names,
  (s = section t -> n = name t -> put_reverse section name m t !! s = Some names /\ names !! n = Some t) /\
  ((s, n) <> (section t, name t) -> forall names0 u, m !! s = Some names0 -> names0 !! n = Some u ->
     put_reverse section name m t !! s = Some names /\ names !! n = Some u).
Proof.
  unfold put_reverse. destruct (decide (s = section t)) as [->|Hs].
  - exists (<[name t := t]> (default ∅ (m !! section t))). rewrite lookup_insert_eq. split.
    + intros _ ->. by rewrite lookup_insert_eq.
    + intros Hne names0 u -> Hu. cbn. rewrite lookup_insert_ne by congruence. done.
  - exists (default ∅ (m !! s)). split; [done|]. intros _ names0 u Hm Hu. rewrite lookup_insert_ne by done. by rewrite Hm.
Qed.

Lemma reverse_of_sound section name tags : reverse_sound section name (reverse_of section name tags) tags.
Proof.
  unfold reverse_of. induction tags as [|t tags IH] using rev_ind; intros x Hx; [by apply not_elem_of_nil in Hx|].
  rewrite foldl_app. cbn [foldl]. apply elem_of_app in Hx.
  destruct (put_reverse_lookup section name (foldl (put_reverse section name) ∅ tags) t (section x) (name x)) as (names & Hsame & Hother).
  destruct (decide ((section x, name x) = (section t, name t))) as [[= Hs Hn]|Hne].
  - exists t. split_and!; [apply elem_of_app; right; left|done|done|]. exists names. by apply Hsame.
  - destruct Hx as [Hx|Hx]; [|apply list_elem_of_singleton in Hx; by subst].
    destruct (IH x Hx) as (u & Hu & He & Hn & names0 & Hm & Hl). exists u.
    split_and!; [apply elem_of_app; by left|done|done|]. exists names. by apply (Hother Hne names0).
Qed.

(** The queries on a table answer as the vendor did. *)
Lemma table_answers section name ty tags ERR : names_unique section name tags -> NoDup tags ->
  getTagArray (table section name ty tags) ≡ₚ tags /\
  forall t, t ∈ tags -> getTagName (table section name ty tags) t = Some (name t) /\
    getSectionName (table section name ty tags) t = Ok (Some (section t)) /\
    getTagType ERR (table section name ty tags) t = Ok (ty t) /\
    lookupTag (table section name ty tags) (name t) (section t) = Ok t.
Proof.
  intros Hu Hnd. split; [by apply table_keys|]. intros t Ht. unfold getTagName, getSectionName, getTagType, lookupTag. cbn.
  rewrite !fill_lookup, !decide_True by done. destruct (section_index section tags t Ht) as (i & _ & -> & -> & _).
  destruct (reverse_of_sound section name tags t Ht) as (u & Hin & Hs & Hn & names & -> & Hl). cbn. rewrite Hl.
  by rewrite (Hu u t Hin Ht Hs Hn).
Qed.

(** What reading tags establishes, whatever the parcel holds. *)
Record tags_read (d : descriptor) (all : list Z) : Prop := {
  read_all t : t ∈ all <-> is_Some (mTagToNameMap d !! t);
  read_section t : is_Some (mTagToNameMap d !! t) <-> is_Some (mTagToSectionMap d !! t);
  read_type t : is_Some (mTagToNameMap d !! t) -> exists ty, mTagToTypeMap d !! t = Some ty /\ 0 <= ty < NUM_TYPES;
  read_name t n : mTagToNameMap d !! t = Some n -> n <> "" /\ BOUNDARY <= t < 2 ^ 32;
}.

Lemma tags_read_new count : tags_read (set_count count new_descriptor) [].
Proof.
  split; cbn; intros t; rewrite ?lookup_empty; try done.
  split; [by intros ?%not_elem_of_nil|by intros []].
Qed.

Lemma require_ok b st {A} (k : () -> res A) a : (require b st ≫= k) = Ok a -> b = true /\ k () = Ok a.
Proof. unfold require. by destruct b. Qed.

Lemma tags_read_add t ty n i d all : tags_read d all -> BOUNDARY <= t < 2 ^ 32 -> 0 <= ty < NUM_TYPES -> n <> "" ->
  tags_read (add_type t ty (add_section_index t i (add_name t n d))) (all ++ [t]).
Proof.
  intros [H1 H2 H3 H4] Ht Hty Hn. split; cbn; intros u.
  - rewrite elem_of_app, list_elem_of_singleton, H1, lookup_insert_is_Some'. split; (intros [?|?]; subst; auto).
  - by rewrite !lookup_insert_is_Some', H2.
  - rewrite lookup_insert_is_Some'. intros Hu. destruct (decide (t = u)) as [->|Hne]; [rewrite lookup_insert_eq; eauto|].
    rewrite lookup_insert_ne by done. apply H3. by destruct Hu.
  - intros m. rewrite lookup_insert_Some. intros [[<- <-]|[_ Hm]]; [done|eauto].
Qed.

Lemma read_tags_inv n : forall p d mx all d' mx' all' p', tags_read d all ->
  read_tags BOUNDARY NUM_TYPES n p d mx all = Ok (d', mx', all', p') -> tags_read d' all' /\
  mReverseMapping d' = mReverseMapping d /\ mSections d' = mSections d.
Proof.
  induction n as [|n IH]; intros p d mx all d' mx' all' p' Hd; cbn [read_tags]; [by intros [= <- _ <- _]|].
  unfold read_or_return. destruct (readInt32 p) as [[st tag] p1]. destruct st; try done. cbn [mbind res_bind].
  intros (Htag & Hrun)%require_ok. destruct (readInt32 p1) as [[st ty] p2]. destruct st; try done. cbn [mbind res_bind] in Hrun.
  apply require_ok in Hrun as [Hty Hrun]. destruct (readString8 p2) as [name p3]. apply require_ok in Hrun as [Hn Hrun].
  destruct (readInt32 p3) as [[st i] p4]. destruct st; try done. cbn [mbind res_bind] in Hrun.
  unfold valid_type in Hty. breflect. assert (Hw : 0 <= wrap_u32 tag < 2 ^ 32) by (by apply Z.mod_pos_bound).
  destruct (IH _ _ _ _ _ _ _ _ (tags_read_add (wrap_u32 tag) ty name (wrap_u32 i) d all Hd
    ltac:(clear IH; lia) ltac:(clear IH; lia) ltac:(by apply String.eqb_neq)) Hrun) as (? & ? & ?). done.
Qed.

Lemma read_sections_inv n : forall p s s' p', Forall (fun x => x <> "") (elements s) ->
  read_sections n p s = Ok (s', p') -> Forall (fun x => x <> "") (elements s').
Proof.
  induction n as [|n IH]; intros p s s' p' Hs; cbn [read_sections]; [by intros [= <- _]|].
  destruct (readString8 p) as [x p1]. intros (Hx & Hrun)%require_ok. breflect. apply String.eqb_neq in Hx.
  refine (IH _ _ _ _ _ Hrun). rewrite <- set_Forall_elements in *. apply set_Forall_union; [by apply set_Forall_singleton|done].
Qed.

Lemma reverse_tags_ok tags : forall d d', reverse_tags tags d = Ok d' -> forall t, t ∈ tags ->
  exists i s n, mTagToSectionMap d !! t = Some i /\ item_at (section_names (mSections d)) i = Some s /\ mTagToNameMap d !! t = Some n.
Proof.
  induction tags as [|t tags IH]; intros d d' Hrun u Hu; [by apply not_elem_of_nil in Hu|]. cbn [reverse_tags] in Hrun.
  destruct (mTagToSectionMap d !! t) as [i|] eqn:Hi; [|done]. cbn [mbind res_bind or_fatal] in Hrun.
  destruct (item_at (section_names (mSections d)) i) as [s|] eqn:Hs; [|done]. cbn [mbind res_bind or_undefined] in Hrun.
  destruct (mTagToNameMap d !! t) as [n|] eqn:Hn; [|done]. cbn [mbind res_bind or_fatal] in Hrun.
  apply elem_of_cons in Hu as [->|Hu]; [by eauto 10|]. exact (IH _ _ Hrun u Hu).
Qed.

Lemma write_tags_total ts d : (forall t, t ∈ ts -> is_Some (mTagToNameMap d !! t) /\ is_Some (mTagToSectionMap d !! t) /\
  is_Some (mTagToTypeMap d !! t)) -> forall p, exists r, write_tags ts d p = Ok r.
Proof.
  induction ts as [|t ts IH]; intros Hf p; [by eexists|].
  destruct (Hf t) as ([n Hn] & [i Hi] & [ty Hty]); [left|]. cbn [write_tags]. rewrite Hn, Hi, Hty. cbn [mbind res_bind or_fatal].
  destruct (write_items _ p) as [[] p1]; eauto. apply IH. intros u Hu. apply Hf. by right.
Qed.

(** What a descriptor that was accepted answers. *)
Definition safe_descriptor (ERR : Z) (d : descriptor) : Prop :=
  (forall t, getTagName d t = None -> getSectionName d t = Ok None /\ getTagType ERR d t = Ok ERR) /\
  (forall t n, getTagName d t = Some n -> n <> "" /\ BOUNDARY <= t < 2 ^ 32 /\ exists s ty,
     getSectionName d t = Ok (Some s) /\ s <> "" /\ getTagType ERR d t = Ok ty /\ 0 <= ty < NUM_TYPES /\
     exists u, lookupTag d n s = Ok u /\ getTagName d u = Some n /\ getSectionName d u = Ok (Some s)) /\
  (forall p, exists r, writeToParcel d (Some p) = Ok r).

(** The sections of an accepted descriptor have names. *)
Lemma read_all_sections_inv count mx p s p' : read_all_sections capacity_ok count mx p = Ok (s, p') ->
  Forall (fun x => x <> "") (elements s).
Proof.
  unfold read_all_sections. case_match; [|by intros [= <- _]]. unfold read_or_return.
  destruct (readInt32 p) as [[[] z] p1]; try done. cbn [mbind res_bind]. intros (_ & Hrun)%require_ok.
  case_match; [done|]. exact (read_sections_inv _ _ ∅ _ _ (List.Forall_nil _) Hrun).
Qed.

(** What the three loops leave in a descriptor that is accepted. *)
Record accepted (section name : Z -> string) (all : list Z) (d : descriptor) : Prop := {
  accepted_read : tags_read d all;
  accepted_index t : t ∈ all -> mTagToNameMap d !! t = Some (name t) /\ exists i, mTagToSectionMap d !! t = Some i /\
    item_at (section_names (mSections d)) i = Some (section t);
  accepted_names : Forall (fun x => x <> "") (elements (mSections d));
  accepted_reverse : mReverseMapping d = reverse_of section name all;
}.

Lemma createFromParcel_accepted q d q' : createFromParcel BOUNDARY NUM_TYPES capacity_ok q = Ok (d, q') ->
  exists section name all, accepted section name all d.
Proof.
  unfold createFromParcel. destruct q as [q|]; [|done]. cbn [mbind res_bind or_return]. unfold read_or_return.
  destruct (readInt32 q) as [[[] count] q1]; try done. cbn [mbind res_bind]. intros (_ & Hrun)%require_ok.
  destruct (read_tags _ _ _ _ _ _ _) as [[[[d1 mx] all] q2]| | |] eqn:Hread; try done. cbn [mbind res_bind] in Hrun.
  destruct (read_all_sections _ _ _ _) as [[secs q3]| | |] eqn:Hsecs; try done. cbn [mbind res_bind] in Hrun.
  destruct (reverse_tags all _) as [d2| | |] eqn:Hrev; try done. injection Hrun as -> ->.
  apply read_tags_inv in Hread as ([H1 H2 H3 H4] & Hr0 & _); [|apply tags_read_new].
  set (section t := default "" (mTagToSectionMap d1 !! t ≫= item_at (section_names secs))).
  set (name t := default "" (mTagToNameMap d1 !! t)).
  assert (Hok : forall t, t ∈ all -> mTagToNameMap d1 !! t = Some (name t) /\ exists i, mTagToSectionMap d1 !! t = Some i /\
    item_at (section_names secs) i = Some (section t)).
  { intros t Ht. destruct (reverse_tags_ok _ _ _ Hrev t Ht) as (i & s & n & Hi & Hs & Hn). cbn in Hi, Hs, Hn.
    unfold section, name. rewrite Hi, Hn. cbn. rewrite Hs. eauto. }
  rewrite (reverse_tags_spec section name) in Hrev by exact Hok. injection Hrev as <-.
  exists section, name, all. split; [by split|done|by eapply read_all_sections_inv|].
  cbn. by rewrite Hr0.
Qed.

Section accepted.
Context (section name : Z -> string) (all : list Z) (d : descriptor) (Hd : accepted section name all d).

Lemma accepted_tag t n ERR : getTagName d t = Some n -> exists s ty,
  getSectionName d t = Ok (Some s) /\ s <> "" /\ getTagType ERR d t = Ok ty /\ 0 <= ty < NUM_TYPES /\
  exists u, lookupTag d n s = Ok u /\ getTagName d u = Some n /\ getSectionName d u = Ok (Some s).
Proof.
  destruct Hd as [[H1 H2 H3 H4] Hok Hsecs Hrev]. unfold getTagName, getSectionName, getTagType, lookupTag. intros Hn.
  assert (Ht : t ∈ all) by (rewrite H1; by eexists). destruct (Hok t Ht) as (Hn' & i & Hi & Hs).
  destruct (H3 t ltac:(by eexists)) as (ty & Hty & Htr). exists (section t), ty. rewrite Hi, Hn, Hs. cbn.
  split_and!; [done| |by rewrite Hty|lia|lia|].
  - rewrite Forall_forall in Hsecs. apply Hsecs. rewrite elem_of_elements, <- section_names_elem.
    by eapply item_at_elem.
  - destruct (reverse_of_sound section name all t Ht) as (u & Hu & Hsu & Hnu & names & Hm & Hl).
    assert (n = name t) as -> by congruence. exists u. rewrite Hrev, Hm. cbn. rewrite Hl.
    destruct (Hok u Hu) as (-> & j & -> & Hj). cbn. rewrite Hj. cbn. by rewrite Hsu, Hnu.
Qed.

Lemma accepted_writes p : exists r, writeToParcel d (Some p) = Ok r.
Proof.
  destruct Hd as [[H1 H2 H3 H4] _ _ _]. unfold writeToParcel. cbn [mbind res_bind or_return].
  destruct (writeInt32 _ p) as [[] p1]; try by eexists.
  destruct (write_tags_total (keys (mTagToNameMap d)) d) with (p := p1) as [[st p2] Hw].
  { intros t Ht. rewrite keys_elem in Ht. split_and!; [done|by apply H2|]. destruct (H3 t Ht) as (? & -> & _). by eexists. }
  rewrite Hw. cbn. case_match; by eexists.
Qed.

Lemma accepted_safe ERR : safe_descriptor ERR d.
Proof.
  pose proof Hd as [[H1 H2 H3 H4] _ _ _]. split_and!.
  - unfold getTagName, getSectionName, getTagType. intros t Hn. rewrite Hn. destruct (mTagToSectionMap d !! t) eqn:Hs; [|done].
    destruct (proj2 (H2 t)) as [? ?]; [by eexists|congruence].
  - intros t n Hn. destruct (H4 t n Hn) as [Hne Hrange]. split_and!; [done|lia|lia|]. by apply accepted_tag.
  - exact accepted_writes.
Qed.
End accepted.

(** ** What unpacking reads *)

(** The tags of a parcel have been read, [mx] being the largest index among them; what
    follows is the number [count] of sections and then, in [rest], their names. *)
Definition sections_follow (q : P) (mx count : Z) (rest : P) : Prop :=
  exists n q1 d all q2, read_or_return q = Ok (n, q1) /\ 0 < n /\
    read_tags BOUNDARY NUM_TYPES (Z.to_nat n) q1 (set_count n new_descriptor) 0 [] = Ok (d, mx, all, q2) /\
    exists z, read_or_return q2 = Ok (z, rest) /\ count = wrap_u32 z.

(** The parcels that are read outside a vector: an index is the largest [uint32_t], whose
    successor is 0, or the names of the sections are fewer than announced, because one is
    repeated. *)
Definition overread (q : P) : Prop := exists mx count rest, sections_follow q mx count rest /\
  (mx = 2 ^ 32 - 1 \/ exists secs rest', read_sections (Z.to_nat count) rest ∅ = Ok (secs, rest') /\ Z.of_nat (size secs) < count).

(** The parcels that end the process: no space can be reserved for the sections. *)
Definition no_capacity (q : P) : Prop := exists mx count rest, sections_follow q mx count rest /\
  (mx = 2 ^ 32 - 1 /\ count = 0 \/ capacity_ok count = false).

(** The outcome of a run that is neither fatal nor a read outside a vector. *)
Definition proper {A} (r : res A) : Prop := match r with Ok _ | Ret _ => True | _ => False end.

Lemma proper_bind {A B} (r : res A) (k : A -> res B) : proper r -> (forall a, r = Ok a -> proper (k a)) -> proper (r ≫= k).
Proof. destruct r; cbn; auto. Qed.

Lemma read_or_return_proper (p : P) : proper (read_or_return p).
Proof. unfold read_or_return. by destruct (readInt32 p) as [[[] z] p1]. Qed.

Lemma require_proper b st : proper (require b st).
Proof. by destruct b. Qed.

Lemma read_tags_proper n : forall p d mx all, proper (read_tags BOUNDARY NUM_TYPES n p d mx all).
Proof.
  induction n as [|n IH]; intros p d mx all; [done|]. cbn [read_tags].
  apply proper_bind; [apply read_or_return_proper|]. intros [tag p1] _. apply proper_bind; [apply require_proper|]. intros _ _.
  apply proper_bind; [apply read_or_return_proper|]. intros [ty p2] _. apply proper_bind; [apply require_proper|]. intros _ _.
  destruct (readString8 p2) as [name p3]. apply proper_bind; [apply require_proper|]. intros _ _.
  apply proper_bind; [apply read_or_return_proper|]. intros [i p4] _. apply IH.
Qed.

Lemma read_sections_proper n : forall (p : P) s, proper (read_sections n p s).
Proof.
  induction n as [|n IH]; intros p s; [done|]. cbn [read_sections]. destruct (readString8 p) as [x p1].
  apply proper_bind; [apply require_proper|]. intros _ _. apply IH.
Qed.

(** The indices that are stored are at most the largest that was read. *)
Definition indices_below (d : descriptor) (mx : Z) : Prop :=
  0 <= mx < 2 ^ 32 /\ forall t i, mTagToSectionMap d !! t = Some i -> 0 <= i <= mx.

Lemma indices_below_new n : indices_below (set_count n new_descriptor) 0.
Proof. split; [lia|]. intros t i. cbn. by rewrite lookup_empty. Qed.

Lemma read_tags_indices n : forall p d mx all d' mx' all' p', indices_below d mx ->
  read_tags BOUNDARY NUM_TYPES n p d mx all = Ok (d', mx', all', p') -> indices_below d' mx'.
Proof.
  induction n as [|n IH]; intros p d mx all d' mx' all' p' Hd; cbn [read_tags]; [by intros [= <- <- _ _]|].
  destruct (read_or_return p) as [[tag p1]| | |]; try done. cbn [mbind res_bind]. intros (_ & Hrun)%require_ok.
  destruct (read_or_return p1) as [[ty p2]| | |]; try done. cbn [mbind res_bind] in Hrun. apply require_ok in Hrun as [_ Hrun].
  destruct (readString8 p2) as [name p3]. apply require_ok in Hrun as [_ Hrun].
  destruct (read_or_return p3) as [[i p4]| | |]; try done. cbn [mbind res_bind] in Hrun. refine (IH _ _ _ _ _ _ _ _ _ Hrun).
  destruct Hd as [Hmx Hd]. assert (Hw : 0 <= wrap_u32 i < 2 ^ 32) by (by apply Z.mod_pos_bound). split; [case_match; lia|].
  cbn. intros u j. rewrite lookup_insert_Some. intros [[_ <-]|[_ Hj]]; [|apply Hd in Hj]; case_match; lia.
Qed.

Lemma read_sections_size n : forall (p : P) s s' p', read_sections n p s = Ok (s', p') -> (size s' <= size s + n)%nat.
Proof.
  induction n as [|n IH]; intros p s s' p'; cbn [read_sections]; [intros [= <- _]; lia|].
  destruct (readString8 p) as [x p1]. intros (_ & Hrun)%require_ok. apply IH in Hrun.
  assert (size ({[x]} ∪ s) <= S (size s))%nat as Hs; [|lia].
  rewrite size_union_alt, size_singleton. pose proof (subseteq_size (s ∖ {[x]}) s ltac:(set_solver)). lia.
Qed.

(** The reverse mapping is built unless an index is outside the sections. *)
Lemma reverse_tags_outcome tags : forall d, (forall t, t ∈ tags -> is_Some (mTagToNameMap d !! t) /\
    exists i, mTagToSectionMap d !! t = Some i /\ 0 <= i) ->
  match reverse_tags tags d with
  | Ok _ => True
  | Undefined => exists t i, mTagToSectionMap d !! t = Some i /\ Z.of_nat (size (mSections d)) <= i
  | _ => False
  end.
Proof.
  induction tags as [|t tags IH]; intros d Hd; [done|]. cbn [reverse_tags].
  destruct (Hd t) as ([n Hn] & i & Hi & Hb); [left|]. rewrite Hi. cbn [mbind res_bind or_fatal].
  destruct (item_at (section_names (mSections d)) i) as [s|] eqn:Hs; cbn [mbind res_bind or_undefined].
  - rewrite Hn. cbn [mbind res_bind or_fatal]. apply (IH (add_reverse s n t d)). intros u Hu. apply Hd. by right.
  - exists t, i. split; [done|]. unfold item_at, zlen in Hs. rewrite section_names_length in Hs.
    destruct (i <? Z.of_nat (size (mSections d))) eqn:Hlt; [|lia]. unfold zlookup in Hs.
    rewrite (proj2 (Z.ltb_ge _ _)) in Hs by lia. apply lookup_ge_None in Hs. rewrite section_names_length in Hs. lia.
Qed.

Lemma read_all_sections_outcome q q2 mx n all d1 q1 : read_or_return q = Ok (n, q1) ->
  read_tags BOUNDARY NUM_TYPES (Z.to_nat n) q1 (set_count n new_descriptor) 0 [] = Ok (d1, mx, all, q2) -> 0 < n -> 0 <= mx < 2 ^ 32 ->
  match read_all_sections capacity_ok n mx q2 with
  | Ok (secs, _) => mx < Z.of_nat (size secs) \/ overread q
  | Ret _ => True
  | Fatal => no_capacity q
  | Undefined => False
  end.
Proof.
  intros Hq Hread Hn Hmx. unfold read_all_sections. rewrite (proj2 (Z.ltb_lt _ _)) by done.
  pose proof (read_or_return_proper q2) as Hp. destruct (read_or_return q2) as [[z rest]| | |] eqn:Hz; try done. clear Hp.
  cbn [mbind res_bind]. assert (Hfollow : sections_follow q mx (wrap_u32 z) rest) by (do 5 eexists; split_and!; eauto).
  assert (Hw : 0 <= wrap_u32 z < 2 ^ 32) by (by apply Z.mod_pos_bound).
  destruct (wrap_u32 z <? wrap_u32 (mx + 1)) eqn:Hguard; [done|]. cbn [require negb mbind res_bind].
  assert (mx = 2 ^ 32 - 1 \/ mx + 1 <= wrap_u32 z) as Hbound.
  { destruct (decide (mx = 2 ^ 32 - 1)); [by left|right]. unfold wrap_u32 at 2 in Hguard. rewrite Z.mod_small in Hguard by lia. lia. }
  destruct ((wrap_u32 z =? 0) || negb (capacity_ok (wrap_u32 z))) eqn:Hcap.
  { do 3 eexists. split; [done|]. apply orb_true_iff in Hcap as [?|?]; [left; lia|right; by apply negb_true_iff]. }
  pose proof (read_sections_proper (Z.to_nat (wrap_u32 z)) rest ∅) as Hp.
  destruct (read_sections _ rest ∅) as [[secs rest']| | |] eqn:Hsecs; try done.
  pose proof (read_sections_size _ _ _ _ _ Hsecs) as Hsize. rewrite size_empty in Hsize.
  destruct (decide (mx < Z.of_nat (size secs))); [by left|right]. do 3 eexists. split; [done|].
  destruct Hbound; [by left|right]. do 2 eexists. split; [done|lia].
Qed.

Lemma createFromParcel_outcome q : match createFromParcel BOUNDARY NUM_TYPES capacity_ok (Some q) with
  | Undefined => overread q
  | Fatal => no_capacity q
  | _ => True
  end.
Proof.
  unfold createFromParcel. cbn [mbind res_bind or_return]. pose proof (read_or_return_proper q) as Hp.
  destruct (read_or_return q) as [[n q1]| | |] eqn:Hq; try done. clear Hp. cbn [mbind res_bind].
  destruct (n <? 0) eqn:Hneg; [done|]. cbn [require negb mbind res_bind].
  pose proof (read_tags_proper (Z.to_nat n) q1 (set_count n new_descriptor) 0 []) as Hp.
  destruct (read_tags _ _ _ _ _ _ _) as [[[[d1 mx] all] q2]| | |] eqn:Hread; try done. clear Hp. cbn [mbind res_bind].
  destruct (decide (0 < n)) as [Hn|Hn].
  2:{ assert (n = 0) as -> by lia. cbn in Hread. injection Hread as <- <- <- <-. done. }
  destruct (read_tags_indices _ _ _ _ _ _ _ _ _ (indices_below_new n) Hread) as [Hmx Hidx].
  pose proof (read_all_sections_outcome _ _ _ _ _ _ _ Hq Hread Hn Hmx) as Hout.
  destruct (read_all_sections _ _ _ _) as [[secs q3]| | |]; try done. cbn [mbind res_bind].
  apply read_tags_inv in Hread as ([H1 H2 _ _] & _ & _); [|apply tags_read_new].
  assert (Hall : forall t, t ∈ all -> is_Some (mTagToNameMap d1 !! t) /\ exists i, mTagToSectionMap d1 !! t = Some i /\ 0 <= i).
  { intros t Ht. apply H1 in Ht. split; [done|]. apply H2 in Ht as [i Hi]. exists i. split; [done|]. exact (proj1 (Hidx t i Hi)). }
  pose proof (reverse_tags_outcome all (set_sections secs d1) Hall) as Hrev.
  destruct (reverse_tags _ _) as [d2| | |]; try done. destruct Hrev as (t & i & Hi & Hlen). cbn in Hi, Hlen.
  apply Hidx in Hi. destruct Hout; [lia|done].
Qed.

(** C39. Whatever a parcel holds: a descriptor that is accepted answers every query without
    reading outside its vectors, a tag having a proper name and section and a valid type,
    and looking these names up finding a tag that has them.  Unpacking itself reads
    outside a vector only if an index in the parcel is the largest [uint32_t] or a section
    name is repeated, and ends the process only if no space can be reserved for the
    sections: every other parcel is accepted or refused with an error. *)
Theorem accepted_descriptor_safe ERR q :
  match createFromParcel BOUNDARY NUM_TYPES capacity_ok (Some q) with
  | Ok (d, _) => safe_descriptor ERR d
  | Ret _ => True
  | Fatal => no_capacity q
  | Undefined => overread q
  end.
Proof.
  pose proof (createFromParcel_outcome q) as Hout.
  destruct (createFromParcel _ _ _ _) as [[d q']| | |] eqn:Hrun; try done.
  apply createFromParcel_accepted in Hrun as (section & name & all & Hd). by eapply accepted_safe.
Qed.
End theorems.

(** ** Runs *)

(** A parcel as the list of what it holds. *)
#[export] Instance list_parcel : Parcel (list item) := {|
  readInt32 p := match p with PInt z :: l => (OK, z, l) | _ => (NOT_ENOUGH_DATA, 0, p) end;
  readString8 p := match p with PString s :: l => (s, l) | _ => ("", p) end;
  writeInt32 z p := (OK, p ++ [PInt (wrap_s32 z)]);
  writeString8 s p := (OK, p ++ [PString s]);
  written p := p;
  unread p := p;
|}.
#[export] Instance list_parcel_laws : ParcelLaws (list item).
Proof.
  split; cbn.
  - by intros z p p' [= <-].
  - by intros s p p' [= <-].
  - intros p z l ->. by eexists.
  - intros p s l ->. by eexists.
Qed.

Definition sample_boundary : Z := 2 ^ 31.
Definition sample_tag (i : Z) : Z := sample_boundary + i.
Definition sample_section (t : Z) : string := if t =? sample_tag 2 then "com.vendor.lens" else "com.vendor.control".
Definition sample_name (t : Z) : string := if t =? sample_tag 0 then "mode" else if t =? sample_tag 1 then "gain" else "mode".
Definition sample_ops (tags : list Z) : vendor_ops := {|
  get_tag_count := zlen tags;
  get_all_tags := tags;
  get_section_name t := Some (sample_section t);
  get_tag_name t := Some (sample_name t);
  get_tag_type _ := 1;
|}.
Definition sample_tags : list Z := [sample_tag 2; sample_tag 0; sample_tag 1].

Lemma sample_good : good_ops sample_boundary 6 sample_section sample_name (sample_ops sample_tags).
Proof.
  split; [done|done| | |].
  - by apply (bool_decide_eq_true_1 _).
  - repeat constructor; by apply (bool_decide_eq_true_1 _).
  - intros t u Ht Hu. cbn in Ht, Hu. unfold sample_tags in Ht, Hu. rewrite !elem_of_cons, elem_of_nil in Ht, Hu.
    destruct Ht as [->|[->|[->|[]]]], Hu as [->|[->|[->|[]]]]; done.
Qed.

Lemma sample_room : has_room (P := list item).
Proof. done. Qed.

Example vendor_tags_transported_witness :
  exists d, createDescriptorFromOps sample_boundary 6 (Some (sample_ops sample_tags)) = Ok d /\
    forall p : list item, exists p' l, writeToParcel d (Some p) = Ok (OK, p') /\ written p' = written p ++ l /\
      forall (q : list item) rest, unread q = l ++ rest ->
      exists q', createFromParcel sample_boundary 6 (fun _ => true) (Some q) = Ok (d, q') /\ unread q' = rest.
Proof.
  apply (vendor_tags_transported (P := list item) sample_boundary 6 (fun _ => true) (sample_ops sample_tags) sample_section sample_name);
    [done|done|exact sample_good|done|exact sample_room].
Defined.

(** A parcel with one tag, its section index, and sections. *)
Definition one_tag (index : Z) (names : list string) : list item :=
  [PInt 1; PInt (wrap_s32 (sample_tag 0)); PInt 1; PString "mode"; PInt index; PInt (zlen names)] ++ (PString <$> names).
Definition unpack (p : list item) : res (descriptor * list item) :=
  createFromParcel sample_boundary 6 (fun _ => true) (Some p).

Example accepted_descriptor_safe_witness : match unpack (one_tag 0 ["lens"]) with
  | Ok (d, _) => safe_descriptor (P := list item) sample_boundary 6 (-1) d
  | _ => False end /\ unpack (one_tag 1 ["lens"]) = Ret BAD_VALUE.
Proof.
  split; [|vm_compute; reflexivity].
  pose proof (accepted_descriptor_safe (P := list item) sample_boundary 6 (fun _ => true) (-1) (one_tag 0 ["lens"])) as Hsafe.
  unfold unpack. destruct (createFromParcel _ _ _ _) as [[d q']| | |] eqn:Hu; [exact Hsafe|vm_compute in Hu; discriminate ..].
Defined.

(** The largest index that is sent decides whether the sections suffice; its successor is
    0 for the largest [uint32_t], and two sections of one name count twice. *)
Example hostile_index : unpack (one_tag (-1) ["lens"]) = Undefined.
Proof. vm_compute. reflexivity. Qed.
Example repeated_section : unpack (one_tag 1 ["lens"; "lens"]) = Undefined.
Proof. vm_compute. reflexivity. Qed.

(** A vendor that lists a tag twice makes a descriptor whose parcel is refused: the count
    that is written includes both. *)
Example repeated_tag : match createDescriptorFromOps sample_boundary 6 (Some (sample_ops [sample_tag 0; sample_tag 0])) with
  | Ok d => match writeToParcel d (Some (@nil item)) with Ok (OK, p) => unpack p | _ => Fatal end
  | _ => Fatal end = Ret BAD_VALUE.
Proof. vm_compute. reflexivity. Qed.

(** A parcel that takes no string of four characters. *)
Record full_parcel := mk_full { held : list item }.
#[local] Instance full_is_parcel : Parcel full_parcel := {|
  readInt32 p := (NOT_ENOUGH_DATA, 0, p);
  readString8 p := ("", p);
  writeInt32 z p := (OK, mk_full (held p ++ [PInt (wrap_s32 z)]));
  writeString8 s p := if (String.length s =? 4)%nat then (PARCEL_ERROR (-12), p) else (OK, mk_full (held p ++ [PString s]));
  written p := held p;
  unread p := [];
|}.

(** The status of a tag that could not be written is replaced by that of the sections. *)
Example failed_write_masked : match unpack (one_tag 0 ["lenses"]) with
  | Ok (d, _) => writeToParcel d (Some (mk_full [])) | _ => Fatal end =
  Ok (OK, mk_full [PInt 1; PInt (wrap_s32 (sample_tag 0)); PInt 1; PInt 1; PString "lenses"]).
Proof. vm_compute. reflexivity. Qed.
