(* ===== verification/Binder.v ===== *)
(** * Parcels and stubs

    What the camera's binder interfaces (libmocha/camera/) use of the platform.  [Parcel]
    is the class [BinderParcel], with the laws [BinderLaws] of what is read of what was
    written; [writes] and [reads] say which items a piece of code packs and unpacks, and
    compose.  [stub] is what every [onTransact] does around its cases.  [list_parcel] is
    an instance of the class. *)

From S2P Require Import Prelude.

Definition OK : Z := 0.
Definition NO_ERROR : Z := 0.
Definition BAD_VALUE : Z := -22.
Definition INVALID_OPERATION : Z := -38.
Definition PERMISSION_DENIED : Z := -1.
Definition FAILED_TRANSACTION : Z := - 2 ^ 31 + 2.

(** A 64-bit integer. *)
Definition is_long (z : Z) : Prop := - 2 ^ 63 <= z < 2 ^ 63.

(** ** Parcels *)

(** What a parcel holds, over the binder objects and the metadata it can carry. *)
Inductive item {B M : Type} :=
| I32 (z : Z) | I64 (z : Z) | S16 (s : string) | S8 (s : string) | Obj (b : option B) | Fd (z : Z) | Bytes (l : list Z) | Ints (l : list Z)
| Meta (m : M) | Token (s : string) | NoException.
Arguments item : clear implicits.

(** The calls on [Parcel].  An integer read that fails leaves the caller's variable, so
    what it gives then is not used; a metadata object is emptied.  [written] is all that a
    parcel holds and [unread] what is after its position: a parcel is written at its end,
    so nothing of it can be read before it has been sent.  A descriptor stands for the
    open file. *)
Class BinderParcel (P B M : Type) := {
  empty_parcel : P;
  writeInt32 : Z -> P -> P;
  writeInt64 : Z -> P -> P;
  writeString16 : string -> P -> P;
  writeStrongBinder : option B -> P -> P;
  writeInterfaceToken : string -> P -> P;
  writeNoException : P -> P;
  writeMetadata : M -> P -> Z * P;
  writeString8 : string -> P -> P;
  writeFileDescriptor : Z -> P -> P;
  write : list Z -> P -> P;
  writeInt32Array : list Z -> P -> P;
  readInt32 : P -> Z * Z * P;
  readInt64 : P -> Z * Z * P;
  readString16Inplace : P -> option string * P;
  readStrongBinder : P -> option B * P;
  enforceInterface : string -> P -> bool * P;
  readExceptionCode : P -> Z * P;
  readMetadata : P -> Z * M * P;
  readString8 : P -> string * P;
  readFileDescriptor : P -> Z * P;
  readInplace : Z -> P -> option (list Z) * P;
  read_array : Z -> P -> Z * list Z * P;
  dataAvail : P -> Z;
  written : P -> list (item B M);
  unread : P -> list (item B M);
  sent : P -> P;
}.

Class BinderLaws (P B M : Type) `{BinderParcel P B M} := {
  empty_law : written empty_parcel = [];
  sent_law p : unread (sent p) = written p;
  w_int z p : is_int z -> written (writeInt32 z p) = written p ++ [I32 z];
  w_long z p : is_long z -> written (writeInt64 z p) = written p ++ [I64 z];
  w_string s p : written (writeString16 s p) = written p ++ [S16 s];
  w_binder b p : written (writeStrongBinder b p) = written p ++ [Obj b];
  w_token s p : written (writeInterfaceToken s p) = written p ++ [Token s];
  w_exception p : written (writeNoException p) = written p ++ [NoException];
  w_string8 s p : written (writeString8 s p) = written p ++ [S8 s];
  w_fd z p : written (writeFileDescriptor z p) = written p ++ [Fd z];
  w_bytes l p : written (write l p) = written p ++ [Bytes l];
  w_array l p : zlen l <= INT_MAX -> written (writeInt32Array l p) = written p ++ [I32 (zlen l); Ints l];
  w_metadata m p : (writeMetadata m p).1 = OK -> written (writeMetadata m p).2 = written p ++ [Meta m];
  r_int z l p : unread p = I32 z :: l -> exists p', readInt32 p = (OK, z, p') /\ unread p' = l;
  r_long z l p : unread p = I64 z :: l -> exists p', readInt64 p = (OK, z, p') /\ unread p' = l;
  r_string s l p : unread p = S16 s :: l -> exists p', readString16Inplace p = (Some s, p') /\ unread p' = l;
  r_binder b l p : unread p = Obj b :: l -> exists p', readStrongBinder p = (b, p') /\ unread p' = l;
  r_token s l p : unread p = Token s :: l -> exists p', enforceInterface s p = (true, p') /\ unread p' = l;
  r_exception l p : unread p = NoException :: l -> exists p', readExceptionCode p = (0, p') /\ unread p' = l;
  r_metadata m l p : unread p = Meta m :: l -> exists p', readMetadata p = (OK, m, p') /\ unread p' = l;
  r_string8 s l p : unread p = S8 s :: l -> exists p', readString8 p = (s, p') /\ unread p' = l;
  r_fd z l p : unread p = Fd z :: l -> exists p', readFileDescriptor p = (z, p') /\ unread p' = l;
  r_bytes k l p : unread p = Bytes k :: l -> exists p', readInplace (zlen k) p = (Some k, p') /\ unread p' = l;
  r_array k l p : unread p = Ints k :: l -> exists p', read_array (zlen k) p = (OK, k, p') /\ unread p' = l;
  avail_some z l p : unread p = I32 z :: l -> 0 < dataAvail p;
  avail_none p : unread p = [] -> dataAvail p = 0;
  end_empty : unread empty_parcel = [];
  end_token s p : unread p = [] -> unread (writeInterfaceToken s p) = [];
  end_int z p : unread p = [] -> unread (writeInt32 z p) = [];
  end_read p : unread p = [] -> (readInt32 p).1.1 <> OK /\ unread (readInt32 p).2 = [];
}.

(** ** Packing and unpacking *)

Section codec.
Context {P B M : Type} `{BinderParcel P B M}.

(** Code that reads a parcel. *)
Definition reader (A : Type) : Type := P -> A * P.
#[export] Instance reader_ret : MRet reader := fun A a p => (a, p).
#[export] Instance reader_bind : MBind reader := fun A C f r p => let '(a, p) := r p in f a p.

(** The reads without a status answer 0 on failure. *)
Definition read_int : reader Z := fun p => let '(st, v, p) := readInt32 p in (if st =? OK then v else 0, p).
Definition read_long : reader Z := fun p => let '(st, v, p) := readInt64 p in (if st =? OK then v else 0, p).

(** [w] appends the items [l]. *)
Definition writes (w : P -> P) (l : list (item B M)) : Prop := forall p, written (w p) = written p ++ l.
(** [r] gives [a] where the items [l] come next, and leaves what follows them. *)
Definition reads {A} (r : reader A) (l : list (item B M)) (a : A) : Prop :=
  forall p rest, unread p = l ++ rest -> exists p', r p = (a, p') /\ unread p' = rest.

Lemma writes_then w1 w2 l1 l2 : writes w1 l1 -> writes w2 l2 -> writes (fun p => w2 (w1 p)) (l1 ++ l2).
Proof. intros H1 H2 p. by rewrite H2, H1, app_assoc. Qed.
Lemma writes_id : writes (fun p => p) [].
Proof. intros p. by rewrite app_nil_r. Qed.

Lemma reads_ret {A} (a : A) : reads (mret a) [] a.
Proof. intros p rest Hp. by exists p. Qed.
Lemma reads_bind {A C} (r : reader A) (f : A -> reader C) l1 l2 a c : reads r l1 a -> reads (f a) l2 c -> reads (r ≫= f) (l1 ++ l2) c.
Proof.
  intros H1 H2 p rest Hp. rewrite <- app_assoc in Hp. destruct (H1 _ _ Hp) as (p1 & Hr & Hp1).
  destruct (H2 _ _ Hp1) as (p2 & Hf & Hp2). exists p2. split; [|done]. unfold mbind, reader_bind. by rewrite Hr.
Qed.

Context `{!BinderLaws P B M}.

Lemma reads_int z : reads read_int [I32 z] z.
Proof. intros p rest Hp. destruct (r_int z rest p Hp) as (p' & Hr & Hp'). exists p'. split; [|done]. unfold read_int. by rewrite Hr. Qed.
Lemma reads_long z : reads read_long [I64 z] z.
Proof. intros p rest Hp. destruct (r_long z rest p Hp) as (p' & Hr & Hp'). exists p'. split; [|done]. unfold read_long. by rewrite Hr. Qed.
Lemma reads_int_status z : reads readInt32 [I32 z] (OK, z).
Proof. intros p rest Hp. exact (r_int z rest p Hp). Qed.
Lemma reads_long_status z : reads readInt64 [I64 z] (OK, z).
Proof. intros p rest Hp. exact (r_long z rest p Hp). Qed.
Lemma reads_string s : reads readString16Inplace [S16 s] (Some s).
Proof. intros p rest Hp. exact (r_string s rest p Hp). Qed.
Lemma reads_binder b : reads readStrongBinder [Obj b] b.
Proof. intros p rest Hp. exact (r_binder b rest p Hp). Qed.
Lemma reads_exception : reads readExceptionCode [NoException] 0.
Proof. intros p rest Hp. exact (r_exception rest p Hp). Qed.
Lemma reads_metadata m : reads readMetadata [Meta m] (OK, m).
Proof. intros p rest Hp. exact (r_metadata m rest p Hp). Qed.
Lemma reads_string8 s : reads readString8 [S8 s] s.
Proof. intros p rest Hp. exact (r_string8 s rest p Hp). Qed.
Lemma reads_fd z : reads readFileDescriptor [Fd z] z.
Proof. intros p rest Hp. exact (r_fd z rest p Hp). Qed.
Lemma reads_bytes l : reads (readInplace (zlen l)) [Bytes l] (Some l).
Proof. intros p rest Hp. exact (r_bytes l rest p Hp). Qed.
Lemma reads_array l : reads (read_array (zlen l)) [Ints l] (OK, l).
Proof. intros p rest Hp. exact (r_array l rest p Hp). Qed.
Lemma reads_token s : reads (enforceInterface s) [Token s] true.
Proof. intros p rest Hp. exact (r_token s rest p Hp). Qed.

Lemma writes_int z : is_int z -> writes (writeInt32 z) [I32 z].
Proof. intros Hz p. by apply w_int. Qed.
Lemma writes_long z : is_long z -> writes (writeInt64 z) [I64 z].
Proof. intros Hz p. by apply w_long. Qed.
Lemma writes_string s : writes (writeString16 s) [S16 s].
Proof. intros p. apply w_string. Qed.
Lemma writes_binder b : writes (writeStrongBinder b) [Obj b].
Proof. intros p. apply w_binder. Qed.
Lemma writes_string8 s : writes (writeString8 s) [S8 s].
Proof. intros p. apply w_string8. Qed.
Lemma writes_fd z : writes (writeFileDescriptor z) [Fd z].
Proof. intros p. apply w_fd. Qed.
Lemma writes_bytes l : writes (write l) [Bytes l].
Proof. intros p. apply w_bytes. Qed.
Lemma writes_array l : zlen l <= INT_MAX -> writes (writeInt32Array l) [I32 (zlen l); Ints l].
Proof. intros Hl p. by apply w_array. Qed.
Lemma writes_token s : writes (writeInterfaceToken s) [Token s].
Proof. intros p. apply w_token. Qed.
Lemma writes_exception : writes writeNoException [NoException].
Proof. intros p. apply w_exception. Qed.

(** What arrives is what was packed. *)
Lemma sent_unread w l : writes w l -> unread (sent (w empty_parcel)) = l.
Proof. intros Hw. by rewrite sent_law, Hw, empty_law. Qed.
Lemma sent_reads {A} w (r : reader A) l rest a : writes w (l ++ rest) -> reads r l a -> (r (sent (w empty_parcel))).1 = a.
Proof. intros Hw Hr. destruct (Hr (sent (w empty_parcel)) rest) as (p' & He & _); [by apply sent_unread|]. by rewrite He. Qed.

(** A string copied out of the parcel is empty where the read fails. *)
Definition readString16 : reader string := s ← readString16Inplace; mret (default "" s).
Lemma reads_string16 s : reads readString16 [S16 s] s.
Proof. rewrite <- (app_nil_r [_]). eapply reads_bind; [apply reads_string|apply reads_ret]. Qed.

(** A flag. *)
Definition bit (b : bool) : Z := if b then 1 else 0.
Definition read_bool : reader bool := v ← read_int; mret (negb (v =? 0)).
Lemma reads_bool b : reads read_bool [I32 (bit b)] b.
Proof. unfold read_bool. rewrite <- (app_nil_r [_]). eapply reads_bind; [apply reads_int|]. destruct b; apply reads_ret. Qed.
Lemma bit_int b : is_int (bit b).
Proof. unfold is_int, INT_MIN, INT_MAX. destruct b; cbn; lia. Qed.

(** Reading what has only been written gives 0. *)
Lemma read_unsent p : unread p = [] -> (read_int p).1 = 0 /\ unread (read_int p).2 = [].
Proof.
  intros Hp. destruct (end_read p Hp) as [Hs Hu]. unfold read_int. destruct (readInt32 p) as [[st v] p']. cbn in *.
  by rewrite (proj2 (Z.eqb_neq st OK) Hs).
Qed.

(** ** Stubs *)

(** [onTransact] of an interface: a known code checks the interface's token and runs its
    case on the rest of the parcel; other codes go to the base class. *)
Section stub.
Context {R : Type} (descriptor : string) (handler : Z -> option (reader R)) (base : Z -> P -> R) (refused : R).

Definition stub (code : Z) (data : P) : R :=
  match handler code with
  | None => base code data
  | Some run =>
      let '(ok, data) := enforceInterface descriptor data in
      if ok then (run data).1 else refused
  end.

(** What is sent with the token and the items of a case reaches it, also where the case
    looks at whether anything is left. *)
Lemma stub_spec_all code w l run f : writes w ([Token descriptor] ++ l) -> handler code = Some run ->
  (forall p, unread p = l -> exists p', run p = (f, p')) -> stub code (sent (w empty_parcel)) = f.
Proof.
  intros Hw Hh Hr. unfold stub. rewrite Hh.
  destruct (r_token descriptor l (sent (w empty_parcel))) as (p1 & He & Hp1); [by rewrite sent_unread with (l := [Token descriptor] ++ l)|].
  rewrite He. destruct (Hr p1 Hp1) as (p2 & Hf). by rewrite Hf.
Qed.
Lemma stub_spec code w l run f : writes w ([Token descriptor] ++ l) -> handler code = Some run -> reads run l f ->
  stub code (sent (w empty_parcel)) = f.
Proof.
  intros Hw Hh Hr. apply (stub_spec_all code w l run f Hw Hh). intros p Hp. destruct (Hr p []) as (p' & Hf & _); [by rewrite app_nil_r|eauto].
Qed.
End stub.

Lemma writes_new d l w : writes w l -> writes (fun p => w (writeInterfaceToken d p)) ([Token d] ++ l).
Proof. intros Hw p. by rewrite Hw, w_token, app_assoc. Qed.
End codec.

#[export] Hint Resolve writes_long writes_string writes_binder writes_token writes_exception writes_id writes_int : mocha.
#[export] Hint Resolve reads_ret reads_int reads_long reads_int_status reads_long_status reads_string reads_binder
  reads_exception reads_metadata reads_token : mocha.
#[export] Hint Resolve writes_string8 writes_fd writes_bytes writes_array reads_string8 reads_fd reads_bytes reads_array reads_string16 : mocha.

(** ** A concrete parcel *)

(** What has been written, and what is left to read; a read of another kind of item fails
    and consumes nothing. *)
Definition put (i : item Z Z) (p : list (item Z Z) * list (item Z Z)) : list (item Z Z) * list (item Z Z) := (p.1 ++ [i], p.2).

#[export] Instance list_parcel : BinderParcel (list (item Z Z) * list (item Z Z)) Z Z := {
  empty_parcel := ([], []);
  writeInt32 z := put (I32 z);
  writeInt64 z := put (I64 z);
  writeString16 s := put (S16 s);
  writeStrongBinder b := put (Obj b);
  writeInterfaceToken s := put (Token s);
  writeNoException := put NoException;
  writeMetadata m p := (OK, put (Meta m) p);
  writeString8 s := put (S8 s);
  writeFileDescriptor z := put (Fd z);
  write l := put (Bytes l);
  writeInt32Array l p := put (Ints l) (put (I32 (zlen l)) p);
  readInt32 p := match p.2 with I32 z :: l => (OK, z, (p.1, l)) | _ => (BAD_VALUE, 0, p) end;
  readInt64 p := match p.2 with I64 z :: l => (OK, z, (p.1, l)) | _ => (BAD_VALUE, 0, p) end;
  readString16Inplace p := match p.2 with S16 s :: l => (Some s, (p.1, l)) | _ => (None, p) end;
  readStrongBinder p := match p.2 with Obj b :: l => (b, (p.1, l)) | _ => (None, p) end;
  enforceInterface s p := match p.2 with Token t :: l => (String.eqb s t, (p.1, l)) | _ => (false, p) end;
  readExceptionCode p := match p.2 with NoException :: l => (0, (p.1, l)) | _ => (BAD_VALUE, p) end;
  readMetadata p := match p.2 with Meta m :: l => (OK, m, (p.1, l)) | _ => (BAD_VALUE, 0, p) end;
  readString8 p := match p.2 with S8 s :: l => (s, (p.1, l)) | _ => (EmptyString, p) end;
  readFileDescriptor p := match p.2 with Fd z :: l => (z, (p.1, l)) | _ => (BAD_VALUE, p) end;
  readInplace n p := match p.2 with Bytes k :: l => (if n =? zlen k then (Some k, (p.1, l)) else (None, p)) | _ => (None, p) end;
  read_array n p := match p.2 with Ints k :: l => (if n =? zlen k then (OK, k, (p.1, l)) else (BAD_VALUE, [], p)) | _ => (BAD_VALUE, [], p) end;
  dataAvail p := zlen p.2;
  written p := p.1;
  unread p := p.2;
  sent p := (p.1, p.1);
}.
#[export] Instance list_parcel_laws : BinderLaws (list (item Z Z) * list (item Z Z)) Z Z.
Proof.
  split; intros; cbn in *; repeat match goal with H : unread _ = _ |- _ => cbn in H; rewrite H end; try match goal with H : _.2 = _ |- _ => rewrite H end;
    rewrite ?String.eqb_refl, ?Z.eqb_refl, <- ?app_assoc; cbn; eauto; try done; unfold zlen; cbn; lia.
Qed.
