(* ===== verification/CameraBinder.v ===== *)
(** * The camera device over binder (libmocha/camera/camera2/, CaptureResult.cpp)

    [ICameraDeviceUser.cpp] and [ICameraDeviceCallbacks.cpp] each hold a proxy ([Bp...]),
    which packs the arguments of a call into a parcel and unpacks the answer, and a stub
    ([onTransact]), which does the opposite around an implementation.  [CaptureRequest.cpp],
    [OutputConfiguration.cpp] and [CaptureResult.cpp] pack what the calls carry.

    Parcels and stubs are those of [Binder]; metadata is one item of a parcel, which
    [CameraMetadata.parcel_roundtrip] justifies.

    [remote_is_local]: over any implementation, and for every call whose arguments the
    parcel can carry, the proxy behaves as the call itself would, but for the codes
    [remote_answer] shows: errors become [FAILED_TRANSACTION], and so does success where
    the caller does not want the frame number.  [callbacks_delivered]: callbacks reach the
    client in order and with their arguments. *)

From S2P Require Import Prelude Binder.

(** ** What the calls carry *)

(** A surface: null, or an object with its buffer producer, which may be null. *)
Record CaptureRequest (B M : Type) := mk_request { mMetadata : M; mSurfaceList : list (option (option B)); mIsReprocess : bool }.
Arguments mk_request {B M}.
Arguments mMetadata {B M}.
Arguments mSurfaceList {B M}.
Arguments mIsReprocess {B M}.
Record OutputConfiguration (B : Type) := mk_output { mGbp : option B; mRotation : Z }.
Arguments mk_output {B}.
Arguments mGbp {B}.
Arguments mRotation {B}.

Record CaptureResultExtras := mk_extras {
  requestId : Z; burstId : Z; afTriggerId : Z; precaptureTriggerId : Z; frameNumber : Z; partialResultCount : Z }.
Record CaptureResult (M : Type) := mk_result { r_metadata_of : M; mResultExtras : CaptureResultExtras }.
Arguments mk_result {M}.
Arguments r_metadata_of {M}.
Arguments mResultExtras {M}.

Definition INVALID_ROTATION : Z := -1.
Definition new_extras : CaptureResultExtras := mk_extras (-1) 0 0 0 0 0.
Definition isValid (e : CaptureResultExtras) : bool := 0 <=? requestId e.

Section types.
Context {P B M : Type} `{BinderParcel P B M}.
#[local] Abbreviation reader := (reader (P:=P)).
#[local] Abbreviation readMetadata := (readMetadata (P:=P) (B:=B) (M:=M)).
#[local] Abbreviation readStrongBinder := (readStrongBinder (P:=P) (B:=B) (M:=M)).
#[local] Abbreviation readInt32 := (readInt32 (P:=P) (B:=B) (M:=M)).
#[local] Abbreviation readInt64 := (readInt64 (P:=P) (B:=B) (M:=M)).
#[local] Abbreviation readString16Inplace := (readString16Inplace (P:=P) (B:=B) (M:=M)).

(** *** Requests *)

(** The buffer producer sent for a surface, and the surface made of what arrives. *)
Definition producer_of (s : option (option B)) : option B := match s with Some producer => producer | None => None end.
Definition surface_of (binder : option B) : option (option B) := match binder with Some b => Some (Some b) | None => None end.

Definition write_surface (s : option (option B)) (p : P) : P :=
  writeStrongBinder (producer_of s) (writeString16 "unknown_name" (writeString16 "android.view.Surface" p)).
Fixpoint write_surfaces (l : list (option (option B))) (p : P) : P :=
  match l with [] => p | s :: l => write_surfaces l (write_surface s p) end.

Definition request_write (r : CaptureRequest B M) (p : P) : Z * P :=
  let '(err, p) := writeMetadata (mMetadata r) p in
  if negb (err =? OK) then (err, p)
  else
    let size := wrap_s32 (zlen (mSurfaceList r)) in
    let p := writeInt32 size p in
    let p := write_surfaces (take (Z.to_nat size) (mSurfaceList r)) p in
    (OK, writeInt32 (if mIsReprocess r then 1 else 0) p).

(** A null class name ends the round without a surface. *)
Fixpoint read_surfaces (n : nat) : reader (list (option (option B))) :=
  match n with
  | O => mret []
  | S n =>
      className ← readString16Inplace;
      match className with
      | None => read_surfaces n
      | Some _ =>
          _ ← readString16Inplace;
          binder ← readStrongBinder;
          l ← read_surfaces n;
          mret (surface_of binder :: l)
      end
  end.

(** The status and the object; [junk] is the flag a new request has. *)
Definition request_read (junk : bool) : reader (Z * CaptureRequest B M) :=
  '(err, m) ← readMetadata;
  if negb (err =? OK) then mret (err, mk_request m [] junk)
  else
    '(err, size) ← readInt32;
    if negb (err =? OK) then mret (err, mk_request m [] junk)
    else
      l ← read_surfaces (Z.to_nat size);
      '(err, isReprocess) ← readInt32;
      if negb (err =? OK) then mret (err, mk_request m l junk)
      else mret (OK, mk_request m l (negb (isReprocess =? 0))).

(** *** Output configurations *)

Definition output_write (o : OutputConfiguration B) (p : P) : P :=
  writeStrongBinder (mGbp o) (writeString16 "unknown_name" (writeInt32 (mRotation o) p)).

Definition readMaybeEmptyString16 : reader string := s ← readString16Inplace; mret (default "" s).

Definition output_read : reader (OutputConfiguration B) :=
  '(err, rotation) ← readInt32;
  if negb (err =? OK) then mret (mk_output None INVALID_ROTATION)
  else
    _ ← readMaybeEmptyString16;
    gbp ← readStrongBinder;
    mret (mk_output gbp rotation).

(** *** Results *)

Definition extras_write (e : CaptureResultExtras) (p : P) : P :=
  writeInt32 (partialResultCount e) (writeInt64 (frameNumber e) (writeInt32 (precaptureTriggerId e)
    (writeInt32 (afTriggerId e) (writeInt32 (burstId e) (writeInt32 (requestId e) p))))).

(** A field whose read fails keeps its value. *)
Definition read_field (r : reader (Z * Z)) (old : Z) : reader Z := '(st, v) ← r; mret (if st =? OK then v else old).
Definition extras_read (e : CaptureResultExtras) : reader CaptureResultExtras :=
  request ← read_field readInt32 (requestId e);
  burst ← read_field readInt32 (burstId e);
  af ← read_field readInt32 (afTriggerId e);
  precapture ← read_field readInt32 (precaptureTriggerId e);
  frame ← read_field readInt64 (frameNumber e);
  partial ← read_field readInt32 (partialResultCount e);
  mret (mk_extras request burst af precapture frame partial).

Definition result_write (r : CaptureResult M) (p : P) : Z * P :=
  let '(res, p) := writeMetadata (r_metadata_of r) p in
  if negb (res =? OK) then (res, p) else (OK, extras_write (mResultExtras r) p).

Definition result_read (e : CaptureResultExtras) : reader (Z * CaptureResult M) :=
  '(res, m) ← readMetadata;
  if negb (res =? OK) then mret (res, mk_result m e)
  else
    e ← extras_read e;
    mret (OK, mk_result m e).

(** *** Round trips *)

Context `{!BinderLaws P B M}.

(** Metadata that fits a parcel. *)
Definition fits (m : M) : Prop := forall p : P, (writeMetadata m p).1 = OK.

Definition surface_items (s : option (option B)) : list (item B M) := [S16 "android.view.Surface"; S16 "unknown_name"; Obj (producer_of s)].
Definition request_items (r : CaptureRequest B M) : list (item B M) :=
  [Meta (mMetadata r); I32 (zlen (mSurfaceList r))] ++ (mSurfaceList r ≫= surface_items) ++ [I32 (if mIsReprocess r then 1 else 0)].

(** What arrives: a surface without a producer becomes a null surface. *)
Definition received (r : CaptureRequest B M) : CaptureRequest B M :=
  mk_request (mMetadata r) ((fun s => surface_of (producer_of s)) <$> mSurfaceList r) (mIsReprocess r).

Lemma write_surfaces_items l : writes (write_surfaces l) (l ≫= surface_items).
Proof.
  induction l as [|s l IH]; [apply writes_id|]. cbn [write_surfaces]. intros p. rewrite IH. unfold write_surface.
  rewrite w_binder, !w_string. change ((s :: l) ≫= surface_items) with (surface_items s ++ (l ≫= surface_items)).
  by rewrite <- !app_assoc.
Qed.

Lemma request_writes r p : fits (mMetadata r) -> zlen (mSurfaceList r) <= INT_MAX ->
  (request_write r p).1 = OK /\ written (request_write r p).2 = written p ++ request_items r.
Proof.
  intros Hm Hl. unfold request_write. specialize (Hm p). pose proof (w_metadata (mMetadata r) p Hm) as Hw.
  destruct (writeMetadata _ p) as [err p1]. cbn in Hm, Hw. subst err. cbn. split; [done|]. pose proof (zlen_nonneg (mSurfaceList r)).
  rewrite w_int by (case_match; unfold is_int, INT_MIN, INT_MAX; lia).
  rewrite wrap_s32_id, take_ge by (unfold zlen, is_int, INT_MIN, INT_MAX in *; lia).
  rewrite write_surfaces_items, w_int, Hw by (unfold is_int, INT_MIN, INT_MAX in *; lia). unfold request_items. by rewrite <- !app_assoc.
Qed.

Lemma surfaces_read l : reads (read_surfaces (length l)) (l ≫= surface_items) ((fun s => surface_of (producer_of s)) <$> l).
Proof.
  induction l as [|s l IH]; [apply reads_ret|]. cbn [length read_surfaces].
  change ((s :: l) ≫= surface_items) with ([S16 (B:=B) (M:=M) "android.view.Surface"] ++ [S16 "unknown_name"] ++ [Obj (producer_of s)] ++ (l ≫= surface_items)).
  eapply reads_bind; [apply reads_string|]. eapply reads_bind; [apply reads_string|]. eapply reads_bind; [apply reads_binder|].
  rewrite <- (app_nil_r (l ≫= _)). eapply reads_bind; [apply IH|]. apply reads_ret.
Qed.

Lemma request_reads junk r : reads (request_read junk) (request_items r) (OK, received r).
Proof.
  unfold request_read, request_items. cbn [app]. change (Meta (mMetadata r) :: ?l) with ([Meta (B:=B) (mMetadata r)] ++ l).
  eapply reads_bind; [apply reads_metadata|]. cbn beta iota. cbn [negb Z.eqb OK].
  change (I32 ?z :: ?l) with ([I32 (B:=B) (M:=M) z] ++ l) at 1.
  eapply reads_bind; [apply reads_int_status|]. cbn beta iota. cbn [negb Z.eqb OK].
  replace (Z.to_nat (zlen (mSurfaceList r))) with (length (mSurfaceList r)) by (unfold zlen; lia).
  eapply reads_bind; [apply surfaces_read|]. rewrite <- (app_nil_r [_]).
  eapply reads_bind; [apply reads_int_status|]. cbn beta iota. cbn [negb Z.eqb OK]. unfold received.
  destruct (mIsReprocess r); apply reads_ret.
Qed.

Lemma output_writes o : is_int (mRotation o) -> writes (output_write o) [I32 (mRotation o); S16 "unknown_name"; Obj (mGbp o)].
Proof. intros Ho p. unfold output_write. rewrite w_binder, w_string, w_int by done. by rewrite <- !app_assoc. Qed.

Lemma output_reads o : reads output_read [I32 (mRotation o); S16 "unknown_name"; Obj (mGbp o)] o.
Proof.
  unfold output_read. change [I32 ?z; S16 ?n; Obj ?b] with ([I32 (B:=B) (M:=M) z] ++ ([S16 n] ++ []) ++ [Obj b] ++ []).
  eapply reads_bind; [apply reads_int_status|]. cbn beta iota. cbn [negb Z.eqb OK].
  eapply reads_bind; [eapply reads_bind; [apply reads_string|apply reads_ret]|]. eapply reads_bind; [apply reads_binder|].
  destruct o. apply reads_ret.
Qed.

Definition extras_items (e : CaptureResultExtras) : list (item B M) :=
  [I32 (requestId e); I32 (burstId e); I32 (afTriggerId e); I32 (precaptureTriggerId e); I64 (frameNumber e); I32 (partialResultCount e)].
Definition extras_ok (e : CaptureResultExtras) : Prop :=
  is_int (requestId e) /\ is_int (burstId e) /\ is_int (afTriggerId e) /\ is_int (precaptureTriggerId e) /\ is_long (frameNumber e) /\
  is_int (partialResultCount e).

Lemma extras_writes e : extras_ok e -> writes (extras_write e) (extras_items e).
Proof.
  intros (H1 & H2 & H3 & H4 & H5 & H6) p. unfold extras_write.
  rewrite (w_int (partialResultCount e)), (w_long (frameNumber e)), !w_int by done. by rewrite <- !app_assoc.
Qed.

Lemma field_int z old : reads (read_field readInt32 old) [I32 z] z.
Proof. rewrite <- (app_nil_r [_]). eapply reads_bind; [apply reads_int_status|]. apply reads_ret. Qed.
Lemma field_long z old : reads (read_field readInt64 old) [I64 z] z.
Proof. rewrite <- (app_nil_r [_]). eapply reads_bind; [apply reads_long_status|]. apply reads_ret. Qed.

Lemma extras_reads old e : reads (extras_read old) (extras_items e) e.
Proof.
  unfold extras_read. change (extras_items e) with ([I32 (B:=B) (M:=M) (requestId e)] ++ [I32 (burstId e)] ++ [I32 (afTriggerId e)] ++
    [I32 (precaptureTriggerId e)] ++ [I64 (frameNumber e)] ++ [I32 (partialResultCount e)] ++ []).
  repeat first [eapply reads_bind; [first [apply field_int|apply field_long]|]]. destruct e. apply reads_ret.
Qed.

(** A result is read as it was written, over whatever the object held. *)
Theorem capture_result_roundtrip old r p rest q : fits (r_metadata_of r) -> extras_ok (mResultExtras r) ->
  (result_write r p).1 = OK /\
  (unread q = drop (length (written p)) (written (result_write r p).2) ++ rest ->
   exists q', result_read old q = ((OK, r), q') /\ unread q' = rest).
Proof.
  intros Hm He. unfold result_write. specialize (Hm p). pose proof (w_metadata (r_metadata_of r) p Hm) as Hw.
  destruct (writeMetadata _ p) as [res p1]. cbn in Hm, Hw. subst res. cbn. split; [done|].
  rewrite (extras_writes _ He), Hw, <- !app_assoc, drop_app_length. intros Hq.
  assert (Hr : reads (result_read old) ([Meta (r_metadata_of r)] ++ extras_items (mResultExtras r) ++ []) (OK, r)).
  { unfold result_read. eapply reads_bind; [apply reads_metadata|]. cbn beta iota. cbn [negb Z.eqb OK].
    eapply reads_bind; [apply extras_reads|]. destruct r. apply reads_ret. }
  apply Hr. by rewrite Hq, app_nil_r, <- app_assoc.
Qed.
End types.

(** ** The device's interface ([ICameraDeviceUser]) *)

(** The operations over a state: what they answer, and what they leave in the variables
    their pointers lead to. *)
Record ICameraDeviceUser (B M S : Type) := mk_device {
  disconnect : S -> S;
  submitRequest : option (CaptureRequest B M) -> bool -> Z -> S -> Z * Z * S;
  submitRequestList : list (option (CaptureRequest B M)) -> bool -> Z -> S -> Z * Z * S;
  cancelRequest : Z -> Z -> S -> Z * Z * S;
  beginConfigure : S -> Z * S;
  endConfigure : bool -> S -> Z * S;
  deleteStream : Z -> S -> Z * S;
  createStream : OutputConfiguration B -> S -> Z * S;
  createInputStream : Z -> Z -> Z -> S -> Z * S;
  getInputBufferProducer : S -> Z * option B * S;
  createDefaultRequest : Z -> S -> Z * M * S;
  getCameraInfo : S -> Z * M * S;
  waitUntilIdle : S -> Z * S;
  flush : Z -> S -> Z * Z * S;
  prepare : Z -> S -> Z * S;
  prepare2 : Z -> Z -> S -> Z * S;
  tearDown : Z -> S -> Z * S;
}.
Arguments disconnect {B M S}.
Arguments submitRequest {B M S}.
Arguments submitRequestList {B M S}.
Arguments cancelRequest {B M S}.
Arguments beginConfigure {B M S}.
Arguments endConfigure {B M S}.
Arguments deleteStream {B M S}.
Arguments createStream {B M S}.
Arguments createInputStream {B M S}.
Arguments getInputBufferProducer {B M S}.
Arguments createDefaultRequest {B M S}.
Arguments getCameraInfo {B M S}.
Arguments waitUntilIdle {B M S}.
Arguments flush {B M S}.
Arguments prepare {B M S}.
Arguments prepare2 {B M S}.
Arguments tearDown {B M S}.

Definition DISCONNECT := 1.
Definition SUBMIT_REQUEST := 2.
Definition SUBMIT_REQUEST_LIST := 3.
Definition CANCEL_REQUEST := 4.
Definition BEGIN_CONFIGURE := 5.
Definition END_CONFIGURE := 6.
Definition DELETE_STREAM := 7.
Definition CREATE_STREAM := 8.
Definition CREATE_INPUT_STREAM := 9.
Definition GET_INPUT_SURFACE := 10.
Definition CREATE_DEFAULT_REQUEST := 11.
Definition GET_CAMERA_INFO := 12.
Definition WAIT_UNTIL_IDLE := 13.
Definition FLUSH := 14.
Definition PREPARE := 15.
Definition TEAR_DOWN := 16.
Definition PREPARE2 := 17.

Definition getInterfaceDescriptor : string := "android.hardware.camera2.ICameraDeviceUser".

Section device.
Context {P B M S : Type} `{BinderParcel P B M}.
#[local] Abbreviation reader := (reader (P:=P)).
#[local] Abbreviation readMetadata := (readMetadata (P:=P) (B:=B) (M:=M)).
#[local] Abbreviation readStrongBinder := (readStrongBinder (P:=P) (B:=B) (M:=M)).
#[local] Abbreviation read_int := (read_int (P:=P) (B:=B) (M:=M)).
#[local] Abbreviation readInt64 := (readInt64 (P:=P) (B:=B) (M:=M)).
#[local] Abbreviation readExceptionCode := (readExceptionCode (P:=P) (B:=B) (M:=M)).
#[local] Abbreviation empty_parcel := (empty_parcel (P:=P) (B:=B) (M:=M)).
#[local] Abbreviation writeInt32 := (writeInt32 (P:=P) (B:=B) (M:=M)).
#[local] Abbreviation writeInt64 := (writeInt64 (P:=P) (B:=B) (M:=M)).

(** *** The proxy ([BpCameraDeviceUser]) *)

Section proxy.
(** A transaction: its code and parcel; the reply, read from its start. *)
Context (transact : Z -> P -> S -> P * S).

Definition new_data : P := writeInterfaceToken getInterfaceDescriptor empty_parcel.

(** The status of the reply after its exception code. *)
Definition read_result : reader Z := _ ← readExceptionCode; read_int.

(** The frame number that may follow: the status of reading it, and the number where it is
    stored through the caller's pointer, if there is one ([want]). *)
Definition read_frame (want : bool) : reader (Z * option Z) :=
  present ← read_int;
  if negb (present =? 0) && want then ('(st, v) ← readInt64; mret (st, if st =? OK then Some v else None))
  else mret (BAD_VALUE, None).

Definition Bp_disconnect (s : S) : S := (transact DISCONNECT new_data s).2.

(** A status, and a frame number. *)
Definition with_frame (want : bool) (failed : Z -> bool) (reply : P) : Z * option Z :=
  ((res ← read_result; '(st, frame) ← read_frame want;
    mret (if failed res || negb (st =? NO_ERROR) then FAILED_TRANSACTION else res, frame)) reply).1.

Definition Bp_submitRequest (request : option (CaptureRequest B M)) (repeating want : bool) (s : S) : Z * option Z * S :=
  let data := match request with
              | Some r => (request_write r (writeInt32 1 new_data)).2
              | None => writeInt32 0 new_data
              end in
  let '(reply, s) := transact SUBMIT_REQUEST (writeInt32 (bit repeating) data) s in
  (with_frame want (fun res => res <? 0) reply, s).

Fixpoint write_requests (l : list (option (CaptureRequest B M))) (p : P) : Z * P :=
  match l with
  | [] => (OK, p)
  | Some r :: l => let '(st, p) := request_write r (writeInt32 1 p) in if negb (st =? OK) then (st, p) else write_requests l p
  | None :: l => write_requests l (writeInt32 0 p)
  end.

Definition Bp_submitRequestList (l : list (option (CaptureRequest B M))) (repeating want : bool) (s : S) : Z * option Z * S :=
  let '(st, data) := write_requests l (writeInt32 (wrap_s32 (zlen l)) new_data) in
  if negb (st =? OK) then (BAD_VALUE, None, s)
  else
    let '(reply, s) := transact SUBMIT_REQUEST_LIST (writeInt32 (bit repeating) data) s in
    (with_frame want (fun res => res <? 0) reply, s).

Definition Bp_cancelRequest (requestId : Z) (want : bool) (s : S) : Z * option Z * S :=
  let '(reply, s) := transact CANCEL_REQUEST (writeInt32 requestId new_data) s in
  (with_frame want (fun res => negb (res =? NO_ERROR)) reply, s).
Definition Bp_flush (want : bool) (s : S) : Z * option Z * S :=
  let '(reply, s) := transact FLUSH new_data s in (with_frame want (fun res => negb (res =? NO_ERROR)) reply, s).

(** A call whose answer is a status. *)
Definition status_call (code : Z) (data : P) (s : S) : Z * S :=
  let '(reply, s) := transact code data s in ((read_result reply).1, s).

Definition Bp_beginConfigure (s : S) : Z * S := status_call BEGIN_CONFIGURE new_data s.
Definition Bp_endConfigure (isConstrainedHighSpeed : bool) (s : S) : Z * S :=
  status_call END_CONFIGURE (writeInt32 (bit isConstrainedHighSpeed) new_data) s.
Definition Bp_deleteStream (streamId : Z) (s : S) : Z * S := status_call DELETE_STREAM (writeInt32 streamId new_data) s.
Definition Bp_createStream (o : OutputConfiguration B) (s : S) : Z * S :=
  status_call CREATE_STREAM
    (match mGbp o with Some _ => output_write o (writeInt32 1 new_data) | None => writeInt32 0 new_data end) s.
Definition Bp_createInputStream (width height format : Z) (s : S) : Z * S :=
  status_call CREATE_INPUT_STREAM (writeInt32 format (writeInt32 height (writeInt32 width new_data))) s.
Definition Bp_waitUntilIdle (s : S) : Z * S := status_call WAIT_UNTIL_IDLE new_data s.
Definition Bp_prepare (streamId : Z) (s : S) : Z * S := status_call PREPARE (writeInt32 streamId new_data) s.
Definition Bp_prepare2 (maxCount streamId : Z) (s : S) : Z * S := status_call PREPARE2 (writeInt32 streamId (writeInt32 maxCount new_data)) s.
Definition Bp_tearDown (streamId : Z) (s : S) : Z * S := status_call TEAR_DOWN (writeInt32 streamId new_data) s.

(** The producer stored through the caller's pointer ([given]), if one is. *)
Definition Bp_getInputBufferProducer (given : bool) (s : S) : Z * option (option B) * S :=
  if negb given then (BAD_VALUE, None, s)
  else
    let '(reply, s) := transact GET_INPUT_SURFACE new_data s in
    (((result ← read_result;
      if negb (result =? OK) then mret (result, None)
      else
        present ← read_int;
        bp ← (if negb (present =? 0) then (_ ← (readMaybeEmptyString16 (B:=B) (M:=M) : reader string); readStrongBinder) else mret None);
        mret (match bp with None => INVALID_OPERATION | Some _ => OK end, Some bp)) reply).1, s).

(** The metadata stored through the caller's pointer ([given]); [none] is an empty
    object, and a failed read leaves one. *)
Definition read_out_metadata (none : M) (given : bool) : reader (Z * option M) :=
  result ← read_result;
  present ← read_int;
  out ← (if negb (present =? 0) then ('(st, m) ← readMetadata; mret (if st =? OK then m else none)) else mret none);
  mret (result, if given then Some out else None).
Definition Bp_createDefaultRequest (none : M) (templateId : Z) (given : bool) (s : S) : Z * option M * S :=
  let '(reply, s) := transact CREATE_DEFAULT_REQUEST (writeInt32 templateId new_data) s in ((read_out_metadata none given reply).1, s).
Definition Bp_getCameraInfo (none : M) (given : bool) (s : S) : Z * option M * S :=
  let '(reply, s) := transact GET_CAMERA_INFO new_data s in ((read_out_metadata none given reply).1, s).
End proxy.

(** *** The stub ([BnCameraDeviceUser::onTransact]) *)

Section stub.
Context (D : ICameraDeviceUser B M S).
(** The flag of a new request, and what the base class does with other codes. *)
Context (junk : bool) (BBinder_onTransact : Z -> P -> S -> Z * P * S).

Definition reply_status (ret : Z) : P := writeInt32 ret (writeNoException empty_parcel).
Definition reply_frame (ret lastFrameNumber : Z) : P := writeInt64 lastFrameNumber (writeInt32 1 (reply_status ret)).
(** The status of writing the metadata is not looked at. *)
Definition reply_metadata (ret : Z) (m : M) : P := (writeMetadata m (writeInt32 1 (reply_status ret))).2.

Definition on_status (run : Z * S) : Z * P * S := let '(ret, s) := run in (NO_ERROR, reply_status ret, s).
Definition on_frame (run : Z * Z * S) : Z * P * S := let '(ret, last, s) := run in (NO_ERROR, reply_frame ret last, s).
Definition on_metadata (run : Z * M * S) : Z * P * S := let '(ret, m, s) := run in (NO_ERROR, reply_metadata ret m, s).

(** The status of reading a single request is not looked at. *)
Definition read_request : reader (option (CaptureRequest B M)) :=
  present ← read_int;
  if negb (present =? 0) then ('(_, r) ← request_read junk; mret (Some r)) else mret None.

Fixpoint read_requests (n : nat) : reader (Z * list (option (CaptureRequest B M))) :=
  match n with
  | O => mret (OK, [])
  | Datatypes.S n =>
      present ← read_int;
      if negb (present =? 0) then
        ('(st, r) ← request_read junk;
         if negb (st =? OK) then mret (BAD_VALUE, [])
         else '(st, l) ← read_requests n; mret (st, Some r :: l))
      else '(st, l) ← read_requests n; mret (st, None :: l)
  end.

(** What a code does with the rest of the parcel. *)
Definition handler (code : Z) : option (reader (S -> Z * P * S)) :=
  if code =? DISCONNECT then Some (mret (fun s => (NO_ERROR, writeNoException empty_parcel, disconnect D s)))
  else if code =? SUBMIT_REQUEST then Some (
    request ← read_request; repeating ← read_bool; mret (fun s => on_frame (submitRequest D request repeating (-1) s)))
  else if code =? SUBMIT_REQUEST_LIST then Some (
    n ← read_int;
    '(st, l) ← read_requests (Z.to_nat n);
    if negb (st =? OK) then mret (fun s => (BAD_VALUE, empty_parcel, s))
    else repeating ← read_bool; mret (fun s => on_frame (submitRequestList D l repeating (-1) s)))
  else if code =? CANCEL_REQUEST then Some (id ← read_int; mret (fun s => on_frame (cancelRequest D id (-1) s)))
  else if code =? DELETE_STREAM then Some (id ← read_int; mret (fun s => on_status (deleteStream D id s)))
  else if code =? CREATE_STREAM then Some (
    present ← read_int;
    if negb (present =? 0) then (o ← output_read (B:=B) (M:=M); mret (fun s => on_status (createStream D o s)))
    else mret (fun s => on_status (BAD_VALUE, s)))
  else if code =? CREATE_INPUT_STREAM then Some (
    width ← read_int; height ← read_int; format ← read_int; mret (fun s => on_status (createInputStream D width height format s)))
  else if code =? GET_INPUT_SURFACE then Some (mret (fun s =>
    let '(ret, bp, s) := getInputBufferProducer D s in
    (NO_ERROR, writeStrongBinder (if ret =? OK then bp else None) (writeString16 "camera input" (writeInt32 1 (reply_status ret))), s)))
  else if code =? CREATE_DEFAULT_REQUEST then Some (id ← read_int; mret (fun s => on_metadata (createDefaultRequest D id s)))
  else if code =? GET_CAMERA_INFO then Some (mret (fun s => on_metadata (getCameraInfo D s)))
  else if code =? WAIT_UNTIL_IDLE then Some (mret (fun s => on_status (waitUntilIdle D s)))
  else if code =? FLUSH then Some (mret (fun s => on_frame (flush D (-1) s)))
  else if code =? BEGIN_CONFIGURE then Some (mret (fun s => on_status (beginConfigure D s)))
  else if code =? END_CONFIGURE then Some (b ← read_bool; mret (fun s => on_status (endConfigure D b s)))
  else if code =? PREPARE then Some (id ← read_int; mret (fun s => on_status (prepare D id s)))
  else if code =? TEAR_DOWN then Some (id ← read_int; mret (fun s => on_status (tearDown D id s)))
  else if code =? PREPARE2 then Some (
    maxCount ← read_int; id ← read_int; mret (fun s => on_status (prepare2 D maxCount id s)))
  else None.

Definition onTransact (code : Z) (data : P) : S -> Z * P * S :=
  stub getInterfaceDescriptor handler BBinder_onTransact (fun s => (PERMISSION_DENIED, empty_parcel, s)) code data.

(** A transaction in the same process: both parcels are read from their start. *)
Definition transact (code : Z) (data : P) (s : S) : P * S :=
  let '(_, reply, s) := onTransact code (sent data) s in (sent reply, s).

(** *** Calls *)

(** A call, with whether the caller passes a pointer for what comes back. *)
Inductive call :=
| Disconnect
| Submit (r : option (CaptureRequest B M)) (repeating want : bool)
| SubmitList (l : list (option (CaptureRequest B M))) (repeating want : bool)
| Cancel (id : Z) (want : bool)
| BeginConfigure
| EndConfigure (b : bool)
| DeleteStream (id : Z)
| CreateStream (o : OutputConfiguration B)
| CreateInputStream (width height format : Z)
| GetInputBufferProducer (given : bool)
| CreateDefaultRequest (id : Z) (given : bool)
| GetCameraInfo (given : bool)
| WaitUntilIdle
| Flush (want : bool)
| Prepare (id : Z)
| Prepare2 (maxCount id : Z)
| TearDown (id : Z).

(** What a call gives: the answer, and what it stores through the caller's pointers. *)
Record outcome := mk_outcome { answer : Z; frame : option Z; producer : option (option B); metadata : option M }.

Definition status_outcome (r : Z * S) : outcome * S := (mk_outcome r.1 None None None, r.2).
Definition frame_outcome (r : Z * option Z * S) : outcome * S := let '(ret, f, s) := r in (mk_outcome ret f None None, s).
Definition metadata_outcome (r : Z * option M * S) : outcome * S := let '(ret, m, s) := r in (mk_outcome ret None None m, s).

(** The call through the proxy. *)
Definition remote (none : M) (c : call) (s : S) : outcome * S :=
  match c with
  | Disconnect => status_outcome (0, Bp_disconnect transact s)
  | Submit r rep want => frame_outcome (Bp_submitRequest transact r rep want s)
  | SubmitList l rep want => frame_outcome (Bp_submitRequestList transact l rep want s)
  | Cancel id want => frame_outcome (Bp_cancelRequest transact id want s)
  | BeginConfigure => status_outcome (Bp_beginConfigure transact s)
  | EndConfigure b => status_outcome (Bp_endConfigure transact b s)
  | DeleteStream id => status_outcome (Bp_deleteStream transact id s)
  | CreateStream o => status_outcome (Bp_createStream transact o s)
  | CreateInputStream w h f => status_outcome (Bp_createInputStream transact w h f s)
  | GetInputBufferProducer given =>
      let '(ret, p, s) := Bp_getInputBufferProducer transact given s in (mk_outcome ret None p None, s)
  | CreateDefaultRequest id given => metadata_outcome (Bp_createDefaultRequest transact none id given s)
  | GetCameraInfo given => metadata_outcome (Bp_getCameraInfo transact none given s)
  | WaitUntilIdle => status_outcome (Bp_waitUntilIdle transact s)
  | Flush want => frame_outcome (Bp_flush transact want s)
  | Prepare id => status_outcome (Bp_prepare transact id s)
  | Prepare2 n id => status_outcome (Bp_prepare2 transact n id s)
  | TearDown id => status_outcome (Bp_tearDown transact id s)
  end.

(** The call on the implementation itself. *)
Definition local (c : call) (s : S) : outcome * S :=
  let keep (want : bool) (r : Z * Z * S) := let '(ret, last, s) := r in (ret, if want then Some last else None, s) in
  let keep_metadata (given : bool) (r : Z * M * S) := let '(ret, m, s) := r in (ret, if given then Some m else None, s) in
  match c with
  | Disconnect => status_outcome (0, disconnect D s)
  | Submit r rep want => frame_outcome (keep want (submitRequest D r rep (-1) s))
  | SubmitList l rep want => frame_outcome (keep want (submitRequestList D l rep (-1) s))
  | Cancel id want => frame_outcome (keep want (cancelRequest D id (-1) s))
  | BeginConfigure => status_outcome (beginConfigure D s)
  | EndConfigure b => status_outcome (endConfigure D b s)
  | DeleteStream id => status_outcome (deleteStream D id s)
  | CreateStream o => status_outcome (createStream D o s)
  | CreateInputStream w h f => status_outcome (createInputStream D w h f s)
  | GetInputBufferProducer given =>
      let '(ret, p, s) := getInputBufferProducer D s in (mk_outcome ret None (Some p) None, s)
  | CreateDefaultRequest id given => metadata_outcome (keep_metadata given (createDefaultRequest D id s))
  | GetCameraInfo given => metadata_outcome (keep_metadata given (getCameraInfo D s))
  | WaitUntilIdle => status_outcome (waitUntilIdle D s)
  | Flush want => frame_outcome (keep want (flush D (-1) s))
  | Prepare id => status_outcome (prepare D id s)
  | Prepare2 n id => status_outcome (prepare2 D n id s)
  | TearDown id => status_outcome (tearDown D id s)
  end.

(** The call as it arrives: surfaces without a producer are null. *)
Definition arrives (c : call) : call :=
  match c with
  | Submit r rep want => Submit (option_map received r) rep want
  | SubmitList l rep want => SubmitList (map (option_map received) l) rep want
  | c => c
  end.

(** What the caller is told of an outcome. *)
Definition remote_answer (c : call) (o : outcome) : outcome :=
  match c with
  | Submit _ _ want | SubmitList _ _ want =>
      mk_outcome (if (answer o <? 0) || negb want then FAILED_TRANSACTION else answer o) (frame o) None None
  | Cancel _ want | Flush want =>
      mk_outcome (if negb (answer o =? NO_ERROR) || negb want then FAILED_TRANSACTION else answer o) (frame o) None None
  | GetInputBufferProducer _ =>
      if negb (answer o =? OK) then mk_outcome (answer o) None None None
      else mk_outcome (match producer o with Some (Some _) => OK | _ => INVALID_OPERATION end) None (producer o) None
  | _ => o
  end.

(** *** The proxy over the stub *)

Context `{!BinderLaws P B M}.

(** A parcel with the interface's token and the items of the arguments reaches the code's
    handler, and the reply comes back. *)
Lemma transact_spec code w l run f s : writes w ([Token getInterfaceDescriptor] ++ l) -> handler code = Some run -> reads run l f ->
  transact code (w empty_parcel) s = let '(_, reply, s') := f s in (sent reply, s').
Proof.
  intros Hw Hh Hr. unfold transact, onTransact. by rewrite (stub_spec _ _ _ _ code w l run f Hw Hh Hr).
Qed.

Lemma reads_result ret : reads read_result [NoException; I32 ret] ret.
Proof.
  unfold read_result. change [NoException; I32 ret] with ([NoException (B:=B) (M:=M)] ++ [I32 ret]).
  eapply reads_bind; [apply reads_exception|apply reads_int].
Qed.

Lemma writes_status ret : is_int ret -> writes (fun p => writeInt32 ret (writeNoException p)) [NoException; I32 ret].
Proof. intros Hr p. rewrite w_int, w_exception by done. by rewrite <- app_assoc. Qed.

Lemma status_reply ret : is_int ret -> (read_result (sent (reply_status ret))).1 = ret.
Proof.
  intros Hr. exact (sent_reads (fun p => writeInt32 ret (writeNoException p)) read_result [NoException; I32 ret] [] ret (writes_status ret Hr) (reads_result ret)).
Qed.

Lemma frame_reply want failed ret last : is_int ret -> is_long last ->
  with_frame want failed (sent (reply_frame ret last)) =
    (if failed ret || negb want then FAILED_TRANSACTION else ret, if want then Some last else None).
Proof.
  intros Hr Hl. unfold with_frame.
  assert (Hw : writes (fun p => writeInt64 last (writeInt32 1 (writeInt32 ret (writeNoException p)))) [NoException; I32 ret; I32 1; I64 last]).
  { intros p. rewrite w_long, !w_int, w_exception by (done || (unfold is_int, INT_MIN, INT_MAX; lia)). by rewrite <- !app_assoc. }
  destruct want.
  - refine (sent_reads (fun p => writeInt64 last (writeInt32 1 (writeInt32 ret (writeNoException p)))) _ [NoException; I32 ret; I32 1; I64 last] [] _ Hw _). change [NoException; I32 ret; I32 1; I64 last] with
      ([NoException (B:=B) (M:=M); I32 ret] ++ ([I32 1] ++ [I64 last] ++ []) ++ []).
    eapply reads_bind; [apply reads_result|]. eapply reads_bind.
    { unfold read_frame. eapply reads_bind; [apply reads_int|]. cbn [negb andb Z.eqb]. eapply reads_bind; [apply reads_long_status|]. apply reads_ret. }
    cbn beta iota. change (negb (OK =? NO_ERROR)) with false. rewrite orb_false_r. cbn [negb]. rewrite orb_false_r. apply reads_ret.
  - refine (sent_reads (fun p => writeInt64 last (writeInt32 1 (writeInt32 ret (writeNoException p)))) _ [NoException; I32 ret; I32 1] [I64 last] _ Hw _). change [NoException; I32 ret; I32 1] with
      ([NoException (B:=B) (M:=M); I32 ret] ++ ([I32 1] ++ []) ++ []).
    eapply reads_bind; [apply reads_result|]. eapply reads_bind.
    { unfold read_frame. eapply reads_bind; [apply reads_int|]. cbn [negb andb Z.eqb]. apply reads_ret. }
    cbn beta iota. change (negb (BAD_VALUE =? NO_ERROR)) with true. rewrite orb_true_r. cbn [negb]. rewrite orb_true_r. apply reads_ret.
Qed.

Lemma metadata_reply none given ret m : is_int ret -> fits (P:=P) (B:=B) m ->
  (read_out_metadata none given (sent (reply_metadata ret m))).1 = (ret, if given then Some m else None).
Proof.
  intros Hr Hm. unfold read_out_metadata.
  assert (Hw : writes (fun p => (writeMetadata m (writeInt32 1 (writeInt32 ret (writeNoException p)))).2) [NoException; I32 ret; I32 1; Meta m]).
  { intros p. rewrite w_metadata by apply Hm. rewrite !w_int, w_exception by (done || (unfold is_int, INT_MIN, INT_MAX; lia)). by rewrite <- !app_assoc. }
  refine (sent_reads (fun p => (writeMetadata m (writeInt32 1 (writeInt32 ret (writeNoException p)))).2) _ [NoException; I32 ret; I32 1; Meta m] [] _ Hw _). change [NoException; I32 ret; I32 1; Meta m] with
    ([NoException (B:=B) (M:=M); I32 ret] ++ [I32 1] ++ ([Meta m] ++ []) ++ []).
  eapply reads_bind; [apply reads_result|]. eapply reads_bind; [apply reads_int|]. cbn [negb Z.eqb].
  eapply reads_bind; [eapply reads_bind; [apply reads_metadata|apply reads_ret]|]. cbn beta iota. cbn [Z.eqb OK]. apply reads_ret.
Qed.

(** Requests and configurations a parcel can carry. *)
Definition request_ok (r : CaptureRequest B M) : Prop := fits (P:=P) (B:=B) (mMetadata r) /\ zlen (mSurfaceList r) <= INT_MAX.
Definition maybe_ok (r : option (CaptureRequest B M)) : Prop := match r with Some r => request_ok r | None => True end.

(** A call whose arguments a parcel can carry, with a producer where one is needed and a
    pointer where the proxy insists on one. *)
Definition call_ok (c : call) : Prop :=
  match c with
  | Submit r _ _ => maybe_ok r
  | SubmitList l _ _ => Forall maybe_ok l /\ zlen l <= INT_MAX
  | Cancel id _ | DeleteStream id | CreateDefaultRequest id _ | Prepare id | TearDown id => is_int id
  | CreateStream o => is_Some (mGbp o) /\ is_int (mRotation o)
  | CreateInputStream w h f => is_int w /\ is_int h /\ is_int f
  | GetInputBufferProducer given => given = true
  | Prepare2 n id => is_int n /\ is_int id
  | _ => True
  end.

(** An implementation whose answers are of their types and whose metadata a parcel can
    carry. *)
Definition implementation_ok : Prop := forall c s, let o := (local c s).1 in
  is_int (answer o) /\ (forall l, frame o = Some l -> is_long l) /\ (forall m, metadata o = Some m -> fits (P:=P) (B:=B) m).

Lemma status_spec code w l run f s : writes w l -> handler code = Some run -> reads run l (fun s => on_status (f s)) -> is_int (f s).1 ->
  status_call transact code (w new_data) s = f s.
Proof.
  intros Hw Hh Hr Hi. unfold status_call, new_data. rewrite (transact_spec code _ l run _ s (writes_new _ _ _ Hw) Hh Hr).
  destruct (f s) as [ret s']. cbn in *. by rewrite status_reply.
Qed.

Lemma frame_spec code w l run f s want failed : writes w l -> handler code = Some run -> reads run l (fun s => on_frame (f s)) ->
  is_int (f s).1.1 -> is_long (f s).1.2 ->
  (let '(reply, s) := transact code (w new_data) s in (with_frame want failed reply, s)) =
    let '(ret, last, s') := f s in ((if failed ret || negb want then FAILED_TRANSACTION else ret, if want then Some last else None), s').
Proof.
  intros Hw Hh Hr Hi Hl. unfold new_data. rewrite (transact_spec code _ l run _ s (writes_new _ _ _ Hw) Hh Hr).
  destruct (f s) as [[ret last] s']. cbn in *. by rewrite frame_reply.
Qed.

Lemma metadata_spec none given code w l run f s : writes w l -> handler code = Some run -> reads run l (fun s => on_metadata (f s)) ->
  is_int (f s).1.1 -> fits (P:=P) (B:=B) (f s).1.2 ->
  (let '(reply, s) := transact code (w new_data) s in ((read_out_metadata none given reply).1, s)) =
    let '(ret, m, s') := f s in ((ret, if given then Some m else None), s').
Proof.
  intros Hw Hh Hr Hi Hm. unfold new_data. rewrite (transact_spec code _ l run _ s (writes_new _ _ _ Hw) Hh Hr).
  destruct (f s) as [[ret m] s']. cbn in *. by rewrite metadata_reply.
Qed.

(** The requests of a list. *)
Definition maybe_items (r : option (CaptureRequest B M)) : list (item B M) :=
  match r with Some r => I32 1 :: request_items r | None => [I32 0] end.

Lemma maybe_reads r : reads read_request (maybe_items r) (option_map received r).
Proof.
  unfold read_request. destruct r as [r|]; cbn [maybe_items option_map].
  - change (I32 1 :: ?l) with ([I32 (B:=B) (M:=M) 1] ++ l). eapply reads_bind; [apply reads_int|]. cbn [negb Z.eqb].
    rewrite <- (app_nil_r (request_items r)). eapply reads_bind; [apply request_reads|]. apply reads_ret.
  - rewrite <- (app_nil_r [_]). eapply reads_bind; [apply reads_int|]. apply reads_ret.
Qed.

Lemma requests_write l p : Forall maybe_ok l -> (write_requests l p).1 = OK /\ written (write_requests l p).2 = written p ++ (l ≫= maybe_items).
Proof.
  intros Hl. revert p. induction Hl as [|r l Hr Hl IH]; intros p; [cbn; by rewrite app_nil_r|].
  change ((r :: l) ≫= maybe_items) with (maybe_items r ++ (l ≫= maybe_items)). destruct r as [r|]; cbn [write_requests maybe_items].
  - destruct Hr as [Hm Hn]. destruct (request_writes r (writeInt32 1 p) Hm Hn) as [Hok Hw].
    destruct (request_write r _) as [st p1]. cbn in Hok, Hw. subst st. cbn [negb Z.eqb OK].
    destruct (IH p1) as [IH1 IH2]. split; [done|]. rewrite IH2, Hw, w_int by (unfold is_int, INT_MIN, INT_MAX; lia). by rewrite <- !app_assoc.
  - destruct (IH (writeInt32 0 p)) as [IH1 IH2]. split; [done|]. rewrite IH2, w_int by (unfold is_int, INT_MIN, INT_MAX; lia). by rewrite <- !app_assoc.
Qed.

Lemma requests_read l : reads (read_requests (length l)) (l ≫= maybe_items) (OK, map (option_map received) l).
Proof.
  induction l as [|r l IH]; [apply reads_ret|]. change ((r :: l) ≫= maybe_items) with (maybe_items r ++ (l ≫= maybe_items)). cbn [length read_requests map].
  destruct r as [r|]; cbn [maybe_items option_map].
  - change ((I32 1 :: ?k) ++ ?j) with ([I32 (B:=B) (M:=M) 1] ++ k ++ j). eapply reads_bind; [apply reads_int|]. cbn [negb Z.eqb].
    eapply reads_bind; [apply request_reads|]. cbn beta iota. cbn [negb Z.eqb OK]. rewrite <- (app_nil_r (l ≫= _)).
    eapply reads_bind; [apply IH|]. apply reads_ret.
  - eapply reads_bind; [apply reads_int|]. cbn [negb Z.eqb]. rewrite <- (app_nil_r (l ≫= _)). eapply reads_bind; [apply IH|]. apply reads_ret.
Qed.

(** What an implementation gives is what a parcel carries. *)
Lemma ok_frame c s f : implementation_ok -> local c s = frame_outcome (let '(ret, last, s) := f in (ret, Some last, s)) ->
  is_int f.1.1 /\ is_long f.1.2.
Proof. intros Hi E. destruct (Hi c s) as (H1 & H2 & _). rewrite E in H1, H2. destruct f as [[ret last] s']. split; [done|]. by apply H2. Qed.
Lemma ok_metadata c s f : implementation_ok -> local c s = metadata_outcome (let '(ret, m, s) := f in (ret, Some m, s)) ->
  is_int f.1.1 /\ fits (P:=P) (B:=B) f.1.2.
Proof. intros Hi E. destruct (Hi c s) as (H1 & _ & H3). rewrite E in H1, H3. destruct f as [[ret m] s']. split; [done|]. by apply H3. Qed.
Lemma ok_status c s f : implementation_ok -> local c s = status_outcome f -> is_int f.1.
Proof. intros Hi E. destruct (Hi c s) as (H1 & _ & _). by rewrite E in H1. Qed.

(** The last argument. *)
#[local] Ltac read_last law := rewrite <- (app_nil_r [_]); eapply reads_bind; [apply law|apply reads_ret].

Lemma single_request r p : maybe_ok r ->
  written (match r with Some r => (request_write r (writeInt32 1 p)).2 | None => writeInt32 0 p end) = written p ++ maybe_items r.
Proof.
  intros Hr. destruct r as [r|]; cbn [maybe_items].
  - destruct Hr as [Hm Hn]. destruct (request_writes r (writeInt32 1 p) Hm Hn) as [_ Hw]. rewrite Hw, w_int by (unfold is_int, INT_MIN, INT_MAX; lia).
    by rewrite <- app_assoc.
  - apply w_int. unfold is_int, INT_MIN, INT_MAX. lia.
Qed.

Lemma remote_submit none r rep want s : implementation_ok -> maybe_ok r ->
  remote none (Submit r rep want) s =
    let '(o, s') := local (Submit (option_map received r) rep want) s in (remote_answer (Submit r rep want) o, s').
Proof.
  intros Hi Hr. destruct (ok_frame (Submit (option_map received r) rep true) s (submitRequest D (option_map received r) rep (-1) s) Hi eq_refl) as [H1 H2].
  cbn [remote local]. unfold Bp_submitRequest.
  erewrite (frame_spec SUBMIT_REQUEST
    (fun p => writeInt32 (bit rep) (match r with Some r => (request_write r (writeInt32 1 p)).2 | None => writeInt32 0 p end))
    (maybe_items r ++ [I32 (bit rep)]) _ (submitRequest D (option_map received r) rep (-1)) s want (fun res => res <? 0)); [| |reflexivity| |done|done].
  - by destruct (submitRequest D _ _ _ s) as [[ret last] s'].
  - intros p. rewrite w_int by apply bit_int. by rewrite single_request, app_assoc.
  - eapply reads_bind; [apply maybe_reads|]. rewrite <- (app_nil_r [_]). eapply reads_bind; [apply reads_bool|]. apply reads_ret.
Qed.

Lemma remote_submit_list none l rep want s : implementation_ok -> Forall maybe_ok l -> zlen l <= INT_MAX ->
  remote none (SubmitList l rep want) s =
    let '(o, s') := local (SubmitList (map (option_map received) l) rep want) s in (remote_answer (SubmitList l rep want) o, s').
Proof.
  intros Hi Hl Hn. set (l' := map (option_map received) l).
  destruct (ok_frame (SubmitList l' rep true) s (submitRequestList D l' rep (-1) s) Hi eq_refl) as [H1 H2].
  cbn [remote local]. unfold Bp_submitRequestList. pose proof (zlen_nonneg l).
  assert (Hw : forall p, (write_requests l p).1 = OK) by (intros p; by apply requests_write).
  specialize (Hw (writeInt32 (wrap_s32 (zlen l)) new_data)) as He.
  destruct (write_requests l _) as [st data] eqn:Ed in |- *. rewrite Ed in He. cbn in He. subst st. cbn [negb Z.eqb OK].
  replace data with ((fun p => (write_requests l (writeInt32 (wrap_s32 (zlen l)) p)).2) new_data) by (cbn beta; by rewrite Ed).
  erewrite (frame_spec SUBMIT_REQUEST_LIST
    (fun p => writeInt32 (bit rep) (write_requests l (writeInt32 (wrap_s32 (zlen l)) p)).2)
    ([I32 (zlen l)] ++ (l ≫= maybe_items) ++ [I32 (bit rep)]) _ (submitRequestList D l' rep (-1)) s want (fun res => res <? 0)); [| |reflexivity| |done|done].
  - by destruct (submitRequestList D _ _ _ s) as [[ret last] s'].
  - intros p. rewrite w_int by apply bit_int. rewrite (proj2 (requests_write l _ Hl)), wrap_s32_id, w_int by (unfold is_int, INT_MIN, INT_MAX in *; lia).
    by rewrite <- !app_assoc.
  - eapply reads_bind; [apply reads_int|]. replace (Z.to_nat (zlen l)) with (length l) by (unfold zlen; lia).
    eapply reads_bind; [apply requests_read|]. cbn beta iota. cbn [negb Z.eqb OK]. rewrite <- (app_nil_r [_]).
    eapply reads_bind; [apply reads_bool|]. apply reads_ret.
Qed.

Lemma remote_input_surface none s : implementation_ok ->
  remote none (GetInputBufferProducer true) s =
    let '(o, s') := local (GetInputBufferProducer true) s in (remote_answer (GetInputBufferProducer true) o, s').
Proof.
  intros Hi. destruct (Hi (GetInputBufferProducer true) s) as (H1 & _ & _). cbn [remote local] in *. unfold Bp_getInputBufferProducer, new_data. cbn [negb].
  erewrite (transact_spec GET_INPUT_SURFACE (writeInterfaceToken getInterfaceDescriptor) [] _ _ s (writes_token _) eq_refl (reads_ret _)).
  destruct (getInputBufferProducer D s) as [[ret bp] s']. cbn [fst snd answer] in H1.
  set (b := if ret =? OK then bp else None).
  assert (Hw : writes (fun p => writeStrongBinder b (writeString16 "camera input" (writeInt32 1 (writeInt32 ret (writeNoException p)))))
    [NoException; I32 ret; I32 1; S16 "camera input"; Obj b]).
  { intros p. rewrite w_binder, w_string, !w_int, w_exception by (done || (unfold is_int, INT_MIN, INT_MAX; lia)). by rewrite <- !app_assoc. }
  cbn [remote_answer answer producer]. destruct (Z.eqb_spec ret OK) as [->|Hne]; cbn [negb].
  - erewrite (sent_reads _ _ ([NoException; I32 OK] ++ [I32 1] ++ (([S16 "camera input"] ++ []) ++ [Obj b]) ++ []) [] _ Hw).
    2:{ eapply reads_bind; [apply reads_result|]. cbn [negb Z.eqb OK]. eapply reads_bind; [apply reads_int|]. cbn [negb Z.eqb].
        eapply reads_bind; [|apply reads_ret]. eapply reads_bind; [|apply reads_binder]. eapply reads_bind; [apply reads_string|apply reads_ret]. }
    cbn. by destruct bp.
  - erewrite (sent_reads _ _ ([NoException; I32 ret] ++ []) [I32 1; S16 "camera input"; Obj b] _ Hw).
    2:{ eapply reads_bind; [apply reads_result|]. apply Z.eqb_neq in Hne. rewrite Hne. cbn [negb]. apply reads_ret. }
    done.
Qed.

(** A call whose answer is a status, and one that gives a frame number or metadata, from
    the items of its arguments. *)
Lemma remote_status none c code w l run f s : implementation_ok -> remote none c s = status_outcome (status_call transact code (w new_data) s) ->
  local c s = status_outcome (f s) -> remote_answer c = (fun o => o) -> writes w l -> handler code = Some run ->
  reads run l (fun s => on_status (f s)) ->
  remote none c s = let '(o, s') := local c s in (remote_answer c o, s').
Proof.
  intros Hi -> Hl -> Hw Hh Hr. erewrite status_spec by (done || by eapply ok_status). rewrite Hl. by destruct (f s) as [ret s'].
Qed.

Lemma remote_create_stream none o s : implementation_ok -> is_Some (mGbp o) -> is_int (mRotation o) ->
  remote none (CreateStream o) s = let '(q, s') := local (CreateStream o) s in (remote_answer (CreateStream o) q, s').
Proof.
  intros Hi [g Hg] Hr. eapply (remote_status none _ CREATE_STREAM (fun p => output_write o (writeInt32 1 p))
    ([I32 1] ++ [I32 (mRotation o); S16 "unknown_name"; Obj (mGbp o)]) _ (createStream D o)); try done;
    [cbn [remote]; unfold Bp_createStream; by rewrite Hg| |].
  - apply writes_then; [apply writes_int; unfold is_int, INT_MIN, INT_MAX; lia|by apply output_writes].
  - eapply reads_bind; [apply reads_int|]. cbn [negb Z.eqb]. rewrite <- (app_nil_r [_; _; _]). eapply reads_bind; [apply output_reads|apply reads_ret].
Qed.

Lemma remote_create_input none w h f s : implementation_ok -> is_int w -> is_int h -> is_int f ->
  remote none (CreateInputStream w h f) s =
    let '(o, s') := local (CreateInputStream w h f) s in (remote_answer (CreateInputStream w h f) o, s').
Proof.
  intros Hi Hw Hh Hf. eapply (remote_status none _ CREATE_INPUT_STREAM (fun p => writeInt32 f (writeInt32 h (writeInt32 w p)))
    (([I32 w] ++ [I32 h]) ++ [I32 f]) _ (createInputStream D w h f)); try done; [|].
  - by repeat apply writes_then; apply writes_int.
  - rewrite <- app_assoc. eapply reads_bind; [apply reads_int|]. eapply reads_bind; [apply reads_int|].
    read_last reads_int.
Qed.

(** C21. The camera device over binder.  For any implementation of [ICameraDeviceUser] whose
    answers fit their types, and every one of the seventeen calls with arguments a parcel
    can carry, going through [BpCameraDeviceUser] and [BnCameraDeviceUser::onTransact]
    leaves the implementation in the state the call itself leaves it in, with the
    arguments as given (but that a surface without a producer arrives as null); the caller
    gets what the implementation answered, and the frame number, producer or metadata if
    it asked for one.  Only the code changes, as [remote_answer] says: a submission, a
    cancellation or a flush that failed gives [FAILED_TRANSACTION] whatever the error, and
    also where it succeeded but the caller did not ask for the frame number. *)
Theorem remote_is_local none c s : implementation_ok -> call_ok c ->
  remote none c s = let '(o, s') := local (arrives c) s in (remote_answer c o, s').
Proof.
  intros Hi Hc. destruct c as [| | |id want| |b|id|o|w h f|given|id given|given| |want|id|n id|id]; cbn [arrives].
  - cbn [remote local]. unfold Bp_disconnect, new_data.
    by rewrite (transact_spec DISCONNECT (writeInterfaceToken getInterfaceDescriptor) [] _ _ s (writes_token _) eq_refl (reads_ret _)).
  - by apply remote_submit.
  - destruct Hc. by apply remote_submit_list.
  - destruct (ok_frame (Cancel id true) s (cancelRequest D id (-1) s) Hi eq_refl). cbn [remote local]. unfold Bp_cancelRequest.
    erewrite (frame_spec CANCEL_REQUEST (writeInt32 id) [I32 id] _ (cancelRequest D id (-1)));
      [by destruct (cancelRequest D id (-1) s) as [[??]?]|by apply writes_int|reflexivity|read_last reads_int|done|done].
  - eapply (remote_status none _ BEGIN_CONFIGURE (fun p => p) [] _ (beginConfigure D)); try done; [apply writes_id|apply reads_ret].
  - eapply (remote_status none _ END_CONFIGURE (writeInt32 (bit b)) [I32 (bit b)] _ (endConfigure D b)); try done;
      [apply writes_int, bit_int|read_last reads_bool].
  - eapply (remote_status none _ DELETE_STREAM (writeInt32 id) [I32 id] _ (deleteStream D id)); try done; [by apply writes_int|read_last reads_int].
  - destruct Hc. by apply remote_create_stream.
  - destruct Hc as (? & ? & ?). by apply remote_create_input.
  - rewrite Hc. by apply remote_input_surface.
  - destruct (ok_metadata (CreateDefaultRequest id true) s (createDefaultRequest D id s) Hi eq_refl). cbn [remote local]. unfold Bp_createDefaultRequest.
    erewrite (metadata_spec none given CREATE_DEFAULT_REQUEST (writeInt32 id) [I32 id] _ (createDefaultRequest D id));
      [by destruct (createDefaultRequest D id s) as [[??]?]|by apply writes_int|reflexivity|read_last reads_int|done|done].
  - destruct (ok_metadata (GetCameraInfo true) s (getCameraInfo D s) Hi eq_refl). cbn [remote local]. unfold Bp_getCameraInfo.
    erewrite (metadata_spec none given GET_CAMERA_INFO (fun p => p) [] _ (getCameraInfo D));
      [by destruct (getCameraInfo D s) as [[??]?]|apply writes_id|reflexivity|apply reads_ret|done|done].
  - eapply (remote_status none _ WAIT_UNTIL_IDLE (fun p => p) [] _ (waitUntilIdle D)); try done; [apply writes_id|apply reads_ret].
  - destruct (ok_frame (Flush true) s (flush D (-1) s) Hi eq_refl). cbn [remote local]. unfold Bp_flush.
    erewrite (frame_spec FLUSH (fun p => p) [] _ (flush D (-1)));
      [by destruct (flush D (-1) s) as [[??]?]|apply writes_id|reflexivity|apply reads_ret|done|done].
  - eapply (remote_status none _ PREPARE (writeInt32 id) [I32 id] _ (prepare D id)); try done; [by apply writes_int|read_last reads_int].
  - destruct Hc as [Hn Hd]. eapply (remote_status none _ PREPARE2 (fun p => writeInt32 id (writeInt32 n p)) ([I32 n] ++ [I32 id]) _ (prepare2 D n id)); try done;
      [by apply writes_then; apply writes_int|].
    eapply reads_bind; [apply reads_int|]. read_last reads_int.
  - eapply (remote_status none _ TEAR_DOWN (writeInt32 id) [I32 id] _ (tearDown D id)); try done; [by apply writes_int|read_last reads_int].
Qed.

(** A configuration without a producer is refused by the stub: the device is not asked. *)
Lemma create_stream_without_producer none rotation s :
  remote none (CreateStream (mk_output None rotation)) s = (mk_outcome BAD_VALUE None None None, s).
Proof.
  cbn [remote]. unfold Bp_createStream, status_call, new_data. cbn [mGbp].
  erewrite (transact_spec CREATE_STREAM (fun p => writeInt32 0 (writeInterfaceToken getInterfaceDescriptor p)) ([I32 0] ++ []) _ (fun s => on_status (BAD_VALUE, s)) s);
    [|apply writes_new, writes_int; unfold is_int, INT_MIN, INT_MAX; lia|reflexivity|eapply reads_bind; [apply reads_int|apply reads_ret]].
  cbn. by rewrite status_reply by (unfold is_int, INT_MIN, INT_MAX, BAD_VALUE; lia).
Qed.
(** Without a place for the producer the proxy does not ask. *)
Lemma input_surface_without_place none s : remote none (GetInputBufferProducer false) s = (mk_outcome BAD_VALUE None None None, s).
Proof. done. Qed.
(** The codes the interface knows. *)
Lemma handler_known code : (1 <= code <= 17 /\ is_Some (handler code)) \/ (~ 1 <= code <= 17 /\ handler code = None).
Proof.
  unfold handler, DISCONNECT, SUBMIT_REQUEST, SUBMIT_REQUEST_LIST, CANCEL_REQUEST, BEGIN_CONFIGURE, END_CONFIGURE, DELETE_STREAM,
    CREATE_STREAM, CREATE_INPUT_STREAM, GET_INPUT_SURFACE, CREATE_DEFAULT_REQUEST, GET_CAMERA_INFO, WAIT_UNTIL_IDLE, FLUSH, PREPARE, TEAR_DOWN, PREPARE2.
  repeat (match goal with |- context [if code =? ?n then _ else _] => destruct (Z.eqb_spec code n); [left; split; [lia|by eexists]|] end).
  right. split; [lia|done].
Qed.
(** Codes that are none of the interface's go to the base class, and a parcel without the
    interface's token is refused, both without touching the device. *)
Lemma foreign_code code data s : ~ 1 <= code <= 17 -> onTransact code data s = BBinder_onTransact code data s.
Proof. intros Hc. unfold onTransact, stub. by destruct (handler_known code) as [[? _]|[_ ->]]. Qed.
Lemma wrong_interface code data s : 1 <= code <= 17 -> (enforceInterface getInterfaceDescriptor data).1 = false ->
  onTransact code data s = (PERMISSION_DENIED, empty_parcel, s).
Proof.
  intros Hc He. unfold onTransact, stub. destruct (handler_known code) as [[_ [run ->]]|[? _]]; [|done].
  destruct (enforceInterface _ data) as [ok d]. cbn in He. by subst.
Qed.
End stub.
End device.

(** ** The client's callbacks ([ICameraDeviceCallbacks]) *)

Record ICameraDeviceCallbacks (M S : Type) := mk_callbacks {
  onDeviceError : Z -> CaptureResultExtras -> S -> S;
  onDeviceIdle : S -> S;
  onCaptureStarted : CaptureResultExtras -> Z -> S -> S;
  onResultReceived : M -> CaptureResultExtras -> S -> S;
  onPrepared : Z -> S -> S;
}.
Arguments onDeviceError {M S}.
Arguments onDeviceIdle {M S}.
Arguments onCaptureStarted {M S}.
Arguments onResultReceived {M S}.
Arguments onPrepared {M S}.

Definition CAMERA_ERROR := 1.
Definition CAMERA_IDLE := 2.
Definition CAPTURE_STARTED := 3.
Definition RESULT_RECEIVED := 4.
Definition PREPARED := 5.

Definition callbacks_descriptor : string := "android.hardware.camera2.ICameraDeviceCallbacks".

Section callbacks.
Context {P B M S : Type} `{BinderParcel P B M}.
#[local] Abbreviation reader := (reader (P:=P)).
#[local] Abbreviation read_int := (read_int (P:=P) (B:=B) (M:=M)).
#[local] Abbreviation read_long := (read_long (P:=P) (B:=B) (M:=M)).
#[local] Abbreviation readMetadata := (readMetadata (P:=P) (B:=B) (M:=M)).
#[local] Abbreviation empty_parcel := (empty_parcel (P:=P) (B:=B) (M:=M)).
#[local] Abbreviation writeInt32 := (writeInt32 (P:=P) (B:=B) (M:=M)).
#[local] Abbreviation writeInt64 := (writeInt64 (P:=P) (B:=B) (M:=M)).
#[local] Abbreviation extras_write := (extras_write (P:=P) (B:=B) (M:=M)).

(** *** The proxy ([BpCameraDeviceCallbacks]) *)

Section callback_proxy.
(** A one-way transaction: no reply comes back. *)
Context (transact : Z -> P -> S -> S).

Definition callback_data : P := writeInterfaceToken callbacks_descriptor empty_parcel.
Definition write_extras (e : CaptureResultExtras) (p : P) : P := extras_write e (writeInt32 1 p).

Definition Bp_onDeviceError (errorCode : Z) (e : CaptureResultExtras) : S -> S :=
  transact CAMERA_ERROR (write_extras e (writeInt32 errorCode callback_data)).
Definition Bp_onDeviceIdle : S -> S := transact CAMERA_IDLE callback_data.
Definition Bp_onCaptureStarted (e : CaptureResultExtras) (timestamp : Z) : S -> S :=
  transact CAPTURE_STARTED (writeInt64 timestamp (write_extras e callback_data)).
Definition Bp_onResultReceived (m : M) (e : CaptureResultExtras) : S -> S :=
  transact RESULT_RECEIVED (write_extras e (writeMetadata m (writeInt32 1 callback_data)).2).
Definition Bp_onPrepared (streamId : Z) : S -> S := transact PREPARED (writeInt32 streamId callback_data).
End callback_proxy.

(** *** The stub ([BnCameraDeviceCallbacks::onTransact]) *)

Context (C : ICameraDeviceCallbacks M S) (none : M) (BBinder_onTransact : Z -> P -> S -> Z * S).

Definition read_extras : reader CaptureResultExtras :=
  present ← read_int;
  if negb (present =? 0) then extras_read (B:=B) (M:=M) new_extras else mret new_extras.
Definition read_metadata : reader M :=
  present ← read_int;
  if negb (present =? 0) then ('(st, m) ← readMetadata; mret (if st =? OK then m else none)) else mret none.

Definition callback_handler (code : Z) : option (reader (S -> S)) :=
  if code =? CAMERA_ERROR then Some (errorCode ← read_int; e ← read_extras; mret (onDeviceError C errorCode e))
  else if code =? CAMERA_IDLE then Some (mret (onDeviceIdle C))
  else if code =? CAPTURE_STARTED then Some (e ← read_extras; timestamp ← read_long; mret (onCaptureStarted C e timestamp))
  else if code =? RESULT_RECEIVED then Some (m ← read_metadata; e ← read_extras; mret (onResultReceived C m e))
  else if code =? PREPARED then Some (streamId ← read_int; mret (onPrepared C streamId))
  else None.

Definition callback_onTransact (code : Z) (data : P) : S -> Z * S :=
  stub callbacks_descriptor (fun code => option_map (fun run => f ← run; mret (fun s => (NO_ERROR, f s))) (callback_handler code)) BBinder_onTransact
    (fun s => (PERMISSION_DENIED, s)) code data.

(** A one-way transaction as it is delivered. *)
Definition deliver (code : Z) (data : P) (s : S) : S := (callback_onTransact code (sent data) s).2.

(** *** Events *)

Inductive event :=
| DeviceError (code : Z) (e : CaptureResultExtras)
| DeviceIdle
| CaptureStarted (e : CaptureResultExtras) (timestamp : Z)
| ResultReceived (m : M) (e : CaptureResultExtras)
| Prepared (id : Z).

Definition notify_remote (s : S) (v : event) : S :=
  match v with
  | DeviceError code e => Bp_onDeviceError deliver code e s
  | DeviceIdle => Bp_onDeviceIdle deliver s
  | CaptureStarted e t => Bp_onCaptureStarted deliver e t s
  | ResultReceived m e => Bp_onResultReceived deliver m e s
  | Prepared id => Bp_onPrepared deliver id s
  end.
Definition notify_local (s : S) (v : event) : S :=
  match v with
  | DeviceError code e => onDeviceError C code e s
  | DeviceIdle => onDeviceIdle C s
  | CaptureStarted e t => onCaptureStarted C e t s
  | ResultReceived m e => onResultReceived C m e s
  | Prepared id => onPrepared C id s
  end.

Definition event_ok (v : event) : Prop :=
  match v with
  | DeviceError code e => is_int code /\ extras_ok e
  | DeviceIdle => True
  | CaptureStarted e t => extras_ok e /\ is_long t
  | ResultReceived m e => fits (P:=P) (B:=B) m /\ extras_ok e
  | Prepared id => is_int id
  end.

Context `{!BinderLaws P B M}.

Lemma deliver_spec code w l run f s : writes w ([Token callbacks_descriptor] ++ l) -> callback_handler code = Some run -> reads run l f ->
  deliver code (w empty_parcel) s = f s.
Proof.
  intros Hw Hh Hr. unfold deliver, callback_onTransact.
  erewrite (stub_spec _ _ _ _ code w (l ++ []) _ (fun s => (NO_ERROR, f s))); [done|by rewrite app_nil_r|by rewrite Hh|].
  eapply reads_bind; [exact Hr|apply reads_ret].
Qed.

Definition present_extras (e : CaptureResultExtras) : list (item B M) := I32 1 :: extras_items e.
Lemma written_extras e p : extras_ok e -> written (write_extras e p) = written p ++ present_extras e.
Proof. intros He. unfold write_extras. rewrite (extras_writes e He), w_int by (unfold is_int, INT_MIN, INT_MAX; lia). by rewrite <- app_assoc. Qed.
Lemma read_extras_reads e : reads read_extras (present_extras e) e.
Proof.
  unfold read_extras, present_extras. change (I32 1 :: ?l) with ([I32 (B:=B) (M:=M) 1] ++ l).
  eapply reads_bind; [apply reads_int|]. apply extras_reads.
Qed.
Lemma read_metadata_reads m : reads read_metadata [I32 1; Meta m] m.
Proof.
  unfold read_metadata. change [I32 1; Meta m] with ([I32 (B:=B) (M:=M) 1] ++ [Meta m] ++ []).
  eapply reads_bind; [apply reads_int|]. cbn [negb Z.eqb]. eapply reads_bind; [apply reads_metadata|]. apply reads_ret.
Qed.

Lemma notify_once v s : event_ok v -> notify_remote s v = notify_local s v.
Proof.
  intros Hv. destruct v as [code e| |e t|m e|id]; cbn [notify_remote notify_local event_ok] in *.
  - destruct Hv as [Hc He]. eapply (deliver_spec CAMERA_ERROR (fun p => write_extras e (writeInt32 code (writeInterfaceToken callbacks_descriptor p)))
      ([I32 code] ++ present_extras e ++ []) _ (onDeviceError C code e) s); [|reflexivity|].
    + intros p. rewrite written_extras, w_int, w_token by done. by rewrite app_nil_r, <- !app_assoc.
    + eapply reads_bind; [apply reads_int|]. eapply reads_bind; [apply read_extras_reads|apply reads_ret].
  - eapply (deliver_spec CAMERA_IDLE (writeInterfaceToken callbacks_descriptor) [] _ (onDeviceIdle C) s); [apply writes_token|reflexivity|apply reads_ret].
  - destruct Hv as [He Ht]. eapply (deliver_spec CAPTURE_STARTED (fun p => writeInt64 t (write_extras e (writeInterfaceToken callbacks_descriptor p)))
      (present_extras e ++ [I64 t] ++ []) _ (onCaptureStarted C e t) s); [|reflexivity|].
    + intros p. rewrite w_long, written_extras, w_token by done. by rewrite <- !app_assoc.
    + eapply reads_bind; [apply read_extras_reads|]. eapply reads_bind; [apply reads_long|apply reads_ret].
  - destruct Hv as [Hm He]. eapply (deliver_spec RESULT_RECEIVED
      (fun p => write_extras e (writeMetadata m (writeInt32 1 (writeInterfaceToken callbacks_descriptor p))).2)
      ([I32 1; Meta m] ++ present_extras e ++ []) _ (onResultReceived C m e) s); [|reflexivity|].
    + intros p. rewrite written_extras, w_metadata, w_int, w_token by (done || apply Hm || (unfold is_int, INT_MIN, INT_MAX; lia)).
      by rewrite app_nil_r, <- !app_assoc.
    + eapply reads_bind; [apply read_metadata_reads|]. eapply reads_bind; [apply read_extras_reads|apply reads_ret].
  - eapply (deliver_spec PREPARED (fun p => writeInt32 id (writeInterfaceToken callbacks_descriptor p)) ([I32 id] ++ []) _ (onPrepared C id) s); [|reflexivity|].
    + intros p. by rewrite w_int, w_token, <- app_assoc by done.
    + eapply reads_bind; [apply reads_int|apply reads_ret].
Qed.

(** The callbacks reach the client one for one, with their arguments and in order. *)
Theorem callbacks_delivered l s : Forall event_ok l -> foldl notify_remote s l = foldl notify_local s l.
Proof. intros Hl. revert s. induction Hl as [|v l Hv Hl IH]; intros s; [done|]. cbn. by rewrite notify_once, IH. Qed.
End callbacks.

(** ** A concrete parcel, and calls over it *)

(** A device that logs what it is called with, and hands out request ids: a submission
    without a request is an error. *)
Definition logger : ICameraDeviceUser Z Z (list (string * list Z)) := mk_device Z Z _
  (fun s => ("disconnect", []) :: s)
  (fun r rep last s => match r with
     | Some r => (zlen s `mod` 100, 7, ("submit", [mMetadata r; zlen (mSurfaceList r); bit rep; bit (mIsReprocess r)]) :: s)
     | None => (BAD_VALUE, last, s)
     end)
  (fun l rep last s => (zlen s `mod` 100, 8, ("submitList", [zlen l `mod` 100; bit rep]) :: s))
  (fun id last s => (if id =? 0 then OK else BAD_VALUE, 9, ("cancel", [id]) :: s))
  (fun s => (OK, s))
  (fun b s => (OK, ("endConfigure", [bit b]) :: s))
  (fun id s => (OK, ("deleteStream", [id]) :: s))
  (fun o s => (3, ("createStream", [default 0 (mGbp o); mRotation o]) :: s))
  (fun w h f s => (4, ("createInputStream", [w; h; f]) :: s))
  (fun s => (OK, Some 5, s))
  (fun id s => (OK, id, s))
  (fun s => (OK, 6, s))
  (fun s => (OK, s))
  (fun last s => (OK, 10, ("flush", []) :: s))
  (fun id s => (OK, ("prepare", [id]) :: s))
  (fun n id s => (OK, ("prepare2", [n; id]) :: s))
  (fun id s => (OK, ("tearDown", [id]) :: s)).

Lemma logger_ok : implementation_ok (P:=list (item Z Z) * list (item Z Z)) logger.
Proof.
  intros c s. pose proof (Z.mod_pos_bound (zlen s) 100 ltac:(lia)). unfold is_int, is_long, INT_MIN, INT_MAX, fits. cbn [written writeMetadata list_parcel].
  destruct c; cbn; repeat (case_match; cbn); simplify_eq; unfold OK, BAD_VALUE; (split; [lia|split; [intros; simplify_eq; lia|done]]).
Qed.

(** A request with a surface whose producer is gone: the proxy, the stub and the device. *)
Definition gone_surface : CaptureRequest Z Z := mk_request 42 [Some None; Some (Some 5); None] true.

Lemma remote_is_local_witness :
  call_ok (P:=list (item Z Z) * list (item Z Z)) (Submit (Some gone_surface) true true) /\
  remote logger false (fun _ p s => (0, p, s)) 0 (Submit (Some gone_surface) true true) [] =
    let '(o, s') := local logger (Submit (Some (mk_request 42 [None; Some (Some 5); None] true)) true true) [] in
    (remote_answer (Submit (Some gone_surface) true true) o, s').
Proof.
  assert (H : call_ok (P:=list (item Z Z) * list (item Z Z)) (Submit (Some gone_surface) true true)) by (split; [done|by vm_compute]).
  split; [exact H|]. exact (remote_is_local logger false (fun _ p s => (0, p, s)) 0 (Submit (Some gone_surface) true true) [] logger_ok H).
Defined.

(** A flush that succeeded, whose frame number is not asked for, is told as a failure; and
    so is a cancellation of an unknown request, whatever its error. *)
Example flush_told_failed : remote logger false (fun _ p s => (0, p, s)) 0 (Flush false) [] =
  (mk_outcome FAILED_TRANSACTION None None None, [("flush", [])]).
Proof. reflexivity. Qed.
Example cancel_masks_error : remote logger false (fun _ p s => (0, p, s)) 0 (Cancel 1 true) [] =
  (mk_outcome FAILED_TRANSACTION (Some 9) None None, [("cancel", [1])]).
Proof. reflexivity. Qed.
(** A request cut off after its metadata is submitted all the same, with the flag the new
    object happened to have; in a list it is refused. *)
Example half_read_submitted :
  onTransact logger true (fun _ p s => (0, p, s)) SUBMIT_REQUEST ([], [Token getInterfaceDescriptor; I32 1; Meta 42]) [] =
  (NO_ERROR, ([NoException; I32 0; I32 1; I64 7], []), [("submit", [42; 0; 0; 1])]).
Proof. reflexivity. Qed.
Example half_read_list_refused :
  onTransact logger true (fun _ p s => (0, p, s)) SUBMIT_REQUEST_LIST ([], [Token getInterfaceDescriptor; I32 1; I32 1; Meta 42]) [] = (BAD_VALUE, ([], []), []).
Proof. reflexivity. Qed.

(** The callbacks over the same parcel. *)
Definition callback_logger : ICameraDeviceCallbacks Z (list (string * list Z)) := mk_callbacks Z _
  (fun code e s => ("error", [code; requestId e; frameNumber e]) :: s)
  (fun s => ("idle", []) :: s)
  (fun e t s => ("started", [frameNumber e; t]) :: s)
  (fun m e s => ("result", [m; frameNumber e; partialResultCount e]) :: s)
  (fun id s => ("prepared", [id]) :: s).
Example capture_told :
  foldl (notify_remote (P:=list (item Z Z) * list (item Z Z)) (B:=Z) callback_logger 0 (fun _ _ s => (0, s))) []
    [CaptureStarted (mk_extras 1 0 0 0 5 0) 777; ResultReceived 42 (mk_extras 1 0 0 0 5 2); DeviceIdle] =
  [("idle", []); ("result", [42; 5; 2]); ("started", [5; 777])].
Proof. reflexivity. Qed.
(** A result without its extras arrives with the values of a new object, which say that it
    belongs to no request. *)
Example result_without_extras :
  deliver (P:=list (item Z Z) * list (item Z Z)) (B:=Z) callback_logger 0 (fun _ _ s => (0, s)) RESULT_RECEIVED ([Token callbacks_descriptor; I32 1; Meta 42; I32 0], []) [] =
    [("result", [42; 0; 0])] /\ isValid new_extras = false.
Proof. split; reflexivity. Qed.
