(* ===== verification/CameraClient.v ===== *)
(** * The client side of the camera over binder (libmocha/camera/)

    [ICameraClient.cpp], [ICameraRecordingProxy.cpp], [ICameraRecordingProxyListener.cpp],
    [ICameraServiceListener.cpp] and [ICameraServiceProxy.cpp]: the callbacks of the older
    camera interface, the proxy a recorder gets, and what the camera service tells its
    listeners.  Each is a [Section] with the interface as a [Record], the proxy
    ([Bp...]), the cases of the stub and a theorem that what goes through both arrives. *)

From S2P Require Import Prelude Binder.

Definition FIRST_CALL_TRANSACTION : Z := 1.

(** ** One-way transactions and calls with a status *)

Section transactions.
Context {P B M S : Type} `{BinderParcel P B M}.
Context (descriptor : string).

(** A reply that the caller reads. *)
Definition call_stub (handler : Z -> option (reader (S -> Z * P * S))) (base : Z -> P -> S -> Z * P * S) (code : Z) (data : P) : S -> Z * P * S :=
  stub descriptor handler base (fun s => (PERMISSION_DENIED, empty_parcel, s)) code data.
(** The parcel of the call, its reply and the state after it, in the same process. *)
Definition call_transact handler base (code : Z) (data : P) (s : S) : Z * P * S :=
  let '(status, reply, s) := call_stub handler base code (sent data) s in (status, sent reply, s).

Definition token : P := writeInterfaceToken descriptor empty_parcel.

Context `{!BinderLaws P B M}.

Lemma call_spec handler base code w l run f s : writes w l -> handler code = Some run -> reads run l f ->
  call_transact handler base code (w token) s = let '(status, reply, s') := f s in (status, sent reply, s').
Proof.
  intros Hw Hh Hr. unfold call_transact, call_stub, token.
  by rewrite (stub_spec descriptor handler base _ code (fun p => w (writeInterfaceToken descriptor p)) l run f (writes_new _ _ _ Hw) Hh Hr).
Qed.

(** A reply that is only a number. *)
Lemma reply_int z : is_int z -> (read_int (sent (writeInt32 z empty_parcel))).1 = z.
Proof. intros Hz. exact (sent_reads (writeInt32 z) read_int [I32 z] [] z (writes_int z Hz) (reads_int z)). Qed.

(** An argument read last. *)
Lemma reads_last {A C} (r : reader A) (f : A -> C) l a : reads r l a -> reads (r ≫= (fun x => mret (f x))) l (f a).
Proof. intros Hr. rewrite <- (app_nil_r l). eapply reads_bind; [exact Hr|apply reads_ret]. Qed.
End transactions.

(** ** [ICameraClient] *)

(** The faces found in a frame: their number, and the bytes the pointer leads to, if it
    leads anywhere. *)
Record camera_frame_metadata := mk_frame_metadata { number_of_faces : Z; faces : option (list Z) }.

Record ICameraClient (B S : Type) := mk_client {
  notifyCallback : Z -> Z -> Z -> S -> S;
  dataCallback : Z -> option B -> option camera_frame_metadata -> S -> S;
  dataCallbackTimestamp : Z -> Z -> option B -> S -> S;
}.
Arguments mk_client {B S}.
Arguments notifyCallback {B S}.
Arguments dataCallback {B S}.
Arguments dataCallbackTimestamp {B S}.

Definition NOTIFY_CALLBACK := 1.
Definition DATA_CALLBACK := 2.
Definition DATA_CALLBACK_TIMESTAMP := 3.
Definition client_descriptor : string := "android.hardware.ICameraClient".

Section client.
Context {P B M S : Type} `{BinderParcel P B M}.
#[local] Abbreviation reader := (reader (P:=P)).
#[local] Abbreviation read_int := (read_int (P:=P) (B:=B) (M:=M)).
#[local] Abbreviation read_long := (read_long (P:=P) (B:=B) (M:=M)).
#[local] Abbreviation readStrongBinder := (readStrongBinder (P:=P) (B:=B) (M:=M)).
#[local] Abbreviation token := (token (P:=P) (B:=B) (M:=M)).

(** The message and the kind of frame whose last argument is a descriptor, and the size
    of a [camera_face_t], all from the platform. *)
Context (CAMERA_MSG_PREVIEW_FRAME CAMERA_FRAME_DATA_FD sizeof_face : Z).

Definition is_descriptor (msgType ext1 : Z) : bool := (msgType =? CAMERA_MSG_PREVIEW_FRAME) && (ext1 =? CAMERA_FRAME_DATA_FD).

Section client_proxy.
Context (transact : Z -> P -> S -> S).

Definition Bp_notifyCallback (msgType ext1 ext2 : Z) : S -> S :=
  let data := writeInt32 ext1 (writeInt32 msgType (token client_descriptor)) in
  transact NOTIFY_CALLBACK (if is_descriptor msgType ext1 then writeFileDescriptor ext2 data else writeInt32 ext2 data).

(** More than fits a parcel is not written. *)
Definition write_faces (m : camera_frame_metadata) (p : P) : P :=
  let size := sizeof_face * number_of_faces m in
  let p := writeInt32 (number_of_faces m) p in
  if (0 <=? size) && (size <=? INT_MAX) then write (take (Z.to_nat size) (default [] (faces m))) p else p.
Definition Bp_dataCallback (msgType : Z) (image : option B) (metadata : option camera_frame_metadata) : S -> S :=
  let data := writeStrongBinder image (writeInt32 msgType (token client_descriptor)) in
  transact DATA_CALLBACK (match metadata with Some m => write_faces m data | None => data end).
Definition Bp_dataCallbackTimestamp (timestamp msgType : Z) (image : option B) : S -> S :=
  transact DATA_CALLBACK_TIMESTAMP (writeStrongBinder image (writeInt32 msgType (writeInt64 timestamp (token client_descriptor)))).
End client_proxy.

Context (C : ICameraClient B S) (base : Z -> P -> S -> S).

Definition read_ext2 (msgType ext1 : Z) : reader Z := if is_descriptor msgType ext1 then readFileDescriptor else read_int.

(** Any bytes left are the faces. *)
Definition read_faces : reader (option camera_frame_metadata) := fun p =>
  if 0 <? dataAvail p then
    (n ← read_int; f ← readInplace (sizeof_face * n); mret (Some (mk_frame_metadata n f))) p
  else (None, p).

Definition client_handler (code : Z) : option (reader (S -> S)) :=
  if code =? NOTIFY_CALLBACK then Some (
    msgType ← read_int; ext1 ← read_int; ext2 ← read_ext2 msgType ext1; mret (notifyCallback C msgType ext1 ext2))
  else if code =? DATA_CALLBACK then Some (
    msgType ← read_int; image ← readStrongBinder; m ← read_faces; mret (dataCallback C msgType image m))
  else if code =? DATA_CALLBACK_TIMESTAMP then Some (
    timestamp ← read_long; msgType ← read_int; image ← readStrongBinder; mret (dataCallbackTimestamp C timestamp msgType image))
  else None.
Definition client_onTransact : Z -> P -> S -> S := stub client_descriptor client_handler base (fun s => s).
Definition client_deliver (code : Z) (data : P) : S -> S := client_onTransact code (sent data).

Inductive client_event :=
| Notify (msgType ext1 ext2 : Z)
| Data (msgType : Z) (image : option B) (metadata : option camera_frame_metadata)
| DataTimestamp (timestamp msgType : Z) (image : option B).

Definition client_remote (s : S) (v : client_event) : S :=
  match v with
  | Notify t e1 e2 => Bp_notifyCallback client_deliver t e1 e2 s
  | Data t i m => Bp_dataCallback client_deliver t i m s
  | DataTimestamp ts t i => Bp_dataCallbackTimestamp client_deliver ts t i s
  end.
Definition client_local (s : S) (v : client_event) : S :=
  match v with
  | Notify t e1 e2 => notifyCallback C t e1 e2 s
  | Data t i m => dataCallback C t i m s
  | DataTimestamp ts t i => dataCallbackTimestamp C ts t i s
  end.

(** Faces as many as said, that fit a parcel. *)
Definition faces_ok (m : camera_frame_metadata) : Prop :=
  is_int (number_of_faces m) /\ exists l, faces m = Some l /\ zlen l = sizeof_face * number_of_faces m /\ zlen l <= INT_MAX.
Definition client_event_ok (v : client_event) : Prop :=
  match v with
  | Notify t e1 e2 => is_int t /\ is_int e1 /\ is_int e2
  | Data t _ m => is_int t /\ match m with Some m => faces_ok m | None => True end
  | DataTimestamp ts t _ => is_long ts /\ is_int t
  end.

Context `{!BinderLaws P B M}.

Lemma client_spec code w l run f s : writes w l -> client_handler code = Some run ->
  (forall p, unread p = l -> exists p', run p = (f, p')) -> client_deliver code (w (token client_descriptor)) s = f s.
Proof.
  intros Hw Hh Hr. unfold client_deliver, client_onTransact, token.
  by rewrite (stub_spec_all _ _ base _ code (fun p => w (writeInterfaceToken client_descriptor p)) l run f (writes_new _ _ _ Hw) Hh Hr).
Qed.

Definition faces_items (m : option camera_frame_metadata) : list (item B M) :=
  match m with Some m => [I32 (number_of_faces m); Bytes (default [] (faces m))] | None => [] end.

Lemma faces_written m p : faces_ok m -> written (write_faces m p) = written p ++ faces_items (Some m).
Proof.
  intros [Hn (l & Hf & Hl & Hm)]. unfold write_faces. cbn [faces_items]. rewrite Hf, <- Hl. change (default [] (Some l)) with l. pose proof (zlen_nonneg l).
  rewrite (proj2 (Z.leb_le 0 (zlen l))), (proj2 (Z.leb_le (zlen l) INT_MAX)) by lia. cbn [andb].
  rewrite w_bytes, w_int by done. rewrite take_ge by (unfold zlen; lia). by rewrite <- app_assoc.
Qed.

(** The faces end the parcel. *)
Lemma faces_read m p : match m with Some m => faces_ok m | None => True end -> unread p = faces_items m ->
  exists p', read_faces p = (m, p').
Proof.
  intros Hm Hp. unfold read_faces. destruct m as [m|]; cbn [faces_items] in Hp.
  - destruct Hm as [Hn (l & Hf & Hl & _)]. rewrite (proj2 (Z.ltb_lt _ _) (avail_some _ _ _ Hp)).
    destruct (reads_int (number_of_faces m) p _ Hp) as (p1 & Hr1 & Hp1). unfold mbind, reader_bind at 1. rewrite Hr1.
    rewrite Hf in Hp1. change (default [] (Some l)) with l in Hp1. destruct (r_bytes _ _ _ Hp1) as (p2 & Hr2 & _). unfold reader_bind. rewrite <- Hl, Hr2. exists p2. unfold mret, reader_ret. destruct m as [n f]. cbn in *. by subst f.
  - rewrite (avail_none _ Hp). by exists p.
Qed.

(** Reading step by step what is left of a parcel. *)
Lemma then_read {A D} (r : reader A) (f : A -> reader D) l l2 a d : reads r l a ->
  (forall p, unread p = l2 -> exists p', f a p = (d, p')) -> forall p, unread p = l ++ l2 -> exists p', (r ≫= f) p = (d, p').
Proof. intros Hr Hf p Hp. destruct (Hr p l2 Hp) as (p1 & H1 & Hp1). unfold mbind, reader_bind. rewrite H1. by apply Hf. Qed.

Lemma client_once v s : client_event_ok v -> client_remote s v = client_local s v.
Proof.
  intros Hv. destruct v as [t e1 e2|t i m|ts t i]; cbn [client_remote client_local client_event_ok] in *.
  - destruct Hv as (Ht & H1 & H2). unfold Bp_notifyCallback.
    set (l := if is_descriptor t e1 then [Fd (B:=B) (M:=M) e2] else [I32 e2]).
    eapply (client_spec NOTIFY_CALLBACK (fun p => let data := writeInt32 e1 (writeInt32 t p) in
      if is_descriptor t e1 then writeFileDescriptor e2 data else writeInt32 e2 data) ([I32 t] ++ [I32 e1] ++ l ++ []) _ (notifyCallback C t e1 e2) s); [|reflexivity|].
    + intros p. cbn. subst l. destruct (is_descriptor t e1); [rewrite w_fd|rewrite (w_int e2) by done]; rewrite !w_int by done; by rewrite <- !app_assoc.
    + apply then_read with (1 := reads_int t), then_read with (1 := reads_int e1), then_read with (a := e2); [|intros p _; eauto].
      subst l. unfold read_ext2. destruct (is_descriptor t e1); [apply reads_fd|apply reads_int].
  - destruct Hv as [Ht Hm]. unfold Bp_dataCallback.
    eapply (client_spec DATA_CALLBACK (fun p => let data := writeStrongBinder i (writeInt32 t p) in
      match m with Some m => write_faces m data | None => data end) ([I32 t] ++ [Obj i] ++ faces_items m) _ (dataCallback C t i m) s); [|reflexivity|].
    + intros p. cbn. destruct m as [m|]; [rewrite faces_written by done|]; rewrite w_binder, w_int by done; by rewrite <- !app_assoc, ?app_nil_r.
    + apply then_read with (1 := reads_int t), then_read with (1 := reads_binder i). intros p Hp.
      destruct (faces_read m p Hm Hp) as (p' & Hr). exists p'. unfold mbind, reader_bind. by rewrite Hr.
  - destruct Hv as [Hts Ht]. unfold Bp_dataCallbackTimestamp.
    eapply (client_spec DATA_CALLBACK_TIMESTAMP (fun p => writeStrongBinder i (writeInt32 t (writeInt64 ts p))) ([I64 ts] ++ [I32 t] ++ [Obj i] ++ []) _
      (dataCallbackTimestamp C ts t i) s); [|reflexivity|].
    + intros p. rewrite w_binder, w_int, w_long by done. by rewrite <- !app_assoc.
    + apply then_read with (1 := reads_long ts), then_read with (1 := reads_int t), then_read with (1 := reads_binder i). intros p _. eauto.
Qed.

(** The callbacks of the service reach the client one for one, with their arguments: the
    descriptor of a frame as a descriptor, and the faces found in it. *)
Theorem client_callbacks_delivered l s : Forall client_event_ok l -> foldl client_remote s l = foldl client_local s l.
Proof. intros Hl. revert s. induction Hl as [|v l Hv Hl IH]; intros s; [done|]. cbn. by rewrite client_once, IH. Qed.

(** Faces cut off in the parcel: the client is given their number with no faces. *)
Lemma cut_off_faces t i n p : is_int t -> is_int n -> unread p = [Token client_descriptor; I32 t; Obj i; I32 n] ->
  (forall q, unread q = [] -> (readInplace (sizeof_face * n) q).1 = None) ->
  client_onTransact DATA_CALLBACK p = dataCallback C t i (Some (mk_frame_metadata n None)).
Proof.
  intros Ht Hn Hp Hend. unfold client_onTransact, stub. cbn [client_handler Z.eqb DATA_CALLBACK NOTIFY_CALLBACK].
  destruct (r_token _ _ _ Hp) as (p0 & He & H0). cbn. rewrite He.
  destruct (reads_int t p0 _ H0) as (p1 & Hr1 & H1). destruct (reads_binder i p1 _ H1) as (p2 & Hr2 & H2).
  destruct (reads_int n p2 [] H2) as (p3 & Hr3 & H3). specialize (Hend p3 H3). unfold mbind, reader_bind. rewrite Hr1, Hr2.
  unfold read_faces. rewrite (proj2 (Z.ltb_lt _ _) (avail_some _ _ _ H2)). unfold mbind, reader_bind. rewrite Hr3.
  destruct (readInplace _ p3) as [f p4]. cbn in *. by subst f.
Qed.
End client.

(** ** [ICameraRecordingProxyListener] *)

Record ICameraRecordingProxyListener (B S : Type) := mk_recording_listener { recordingFrame : Z -> Z -> option B -> S -> S }.
Arguments mk_recording_listener {B S}.
Arguments recordingFrame {B S}.

Definition RECORDING_FRAME := 1.
Definition recording_listener_descriptor : string := "android.hardware.ICameraRecordingProxyListener".

Section recording_listener.
Context {P B M S : Type} `{BinderParcel P B M}.
#[local] Abbreviation reader := (reader (P:=P)).
#[local] Abbreviation read_int := (read_int (P:=P) (B:=B) (M:=M)).
#[local] Abbreviation read_long := (read_long (P:=P) (B:=B) (M:=M)).
#[local] Abbreviation readStrongBinder := (readStrongBinder (P:=P) (B:=B) (M:=M)).

Definition Bp_recordingFrame (transact : Z -> P -> S -> S) (timestamp msgType : Z) (image : option B) : S -> S :=
  transact RECORDING_FRAME (writeStrongBinder image (writeInt32 msgType (writeInt64 timestamp (token (B:=B) (M:=M) recording_listener_descriptor)))).

Context (C : ICameraRecordingProxyListener B S) (base : Z -> P -> S -> S).

Definition recording_listener_handler (code : Z) : option (reader (S -> S)) :=
  if code =? RECORDING_FRAME then Some (
    timestamp ← read_long; msgType ← read_int; image ← readStrongBinder; mret (recordingFrame C timestamp msgType image))
  else None.
Definition recording_listener_onTransact : Z -> P -> S -> S := stub recording_listener_descriptor recording_listener_handler base (fun s => s).

Context `{!BinderLaws P B M}.

(** A frame reaches the recorder with its time, kind and memory. *)
Theorem recording_frame_delivered ts t i s : is_long ts -> is_int t ->
  Bp_recordingFrame (fun code data => recording_listener_onTransact code (sent data)) ts t i s = recordingFrame C ts t i s.
Proof.
  intros Hts Ht. unfold Bp_recordingFrame, recording_listener_onTransact, token.
  erewrite (stub_spec _ _ base _ RECORDING_FRAME (fun p => writeStrongBinder i (writeInt32 t (writeInt64 ts (writeInterfaceToken recording_listener_descriptor p))))
    ([I64 ts] ++ [I32 t] ++ [Obj i] ++ []) _ (recordingFrame C ts t i)); [done| |reflexivity|].
  - intros p. rewrite w_binder, w_int, w_long, w_token by done. by rewrite <- !app_assoc.
  - eapply reads_bind; [apply reads_long|]. eapply reads_bind; [apply reads_int|]. eapply reads_bind; [apply reads_binder|apply reads_ret].
Qed.
End recording_listener.

(** ** [ICameraRecordingProxy] *)

Record ICameraRecordingProxy (B S : Type) := mk_recording_proxy {
  rp_startRecording : option B -> S -> Z * S;
  rp_stopRecording : S -> S;
  rp_releaseRecordingFrame : option B -> S -> S;
}.
Arguments mk_recording_proxy {B S}.
Arguments rp_startRecording {B S}.
Arguments rp_stopRecording {B S}.
Arguments rp_releaseRecordingFrame {B S}.

Definition RP_START_RECORDING := 1.
Definition RP_STOP_RECORDING := 2.
Definition RP_RELEASE_RECORDING_FRAME := 3.
Definition recording_proxy_descriptor : string := "android.hardware.ICameraRecordingProxy".

Section recording_proxy.
Context {P B M S : Type} `{BinderParcel P B M}.
#[local] Abbreviation reader := (reader (P:=P)).
#[local] Abbreviation read_int := (read_int (P:=P) (B:=B) (M:=M)).
#[local] Abbreviation readStrongBinder := (readStrongBinder (P:=P) (B:=B) (M:=M)).
#[local] Abbreviation empty_parcel := (empty_parcel (P:=P) (B:=B) (M:=M)).
#[local] Abbreviation writeInt32 := (writeInt32 (P:=P) (B:=B) (M:=M)).
#[local] Abbreviation rp_token := (token (P:=P) (B:=B) (M:=M) recording_proxy_descriptor).

Section recording_proxy_calls.
Context (transact : Z -> P -> S -> Z * P * S).
Definition Bp_rp_startRecording (listener : option B) (s : S) : Z * S :=
  let '(_, reply, s) := transact RP_START_RECORDING (writeStrongBinder listener rp_token) s in ((read_int reply).1, s).
Definition Bp_rp_stopRecording (s : S) : S := (transact RP_STOP_RECORDING rp_token s).2.
Definition Bp_rp_releaseRecordingFrame (mem : option B) (s : S) : S :=
  (transact RP_RELEASE_RECORDING_FRAME (writeStrongBinder mem rp_token) s).2.
End recording_proxy_calls.

Context (C : ICameraRecordingProxy B S) (base : Z -> P -> S -> Z * P * S).

Definition recording_proxy_handler (code : Z) : option (reader (S -> Z * P * S)) :=
  if code =? RP_START_RECORDING then Some (
    listener ← readStrongBinder; mret (fun s => let '(ret, s) := rp_startRecording C listener s in (NO_ERROR, writeInt32 ret empty_parcel, s)))
  else if code =? RP_STOP_RECORDING then Some (mret (fun s => (NO_ERROR, empty_parcel, rp_stopRecording C s)))
  else if code =? RP_RELEASE_RECORDING_FRAME then Some (
    mem ← readStrongBinder; mret (fun s => (NO_ERROR, empty_parcel, rp_releaseRecordingFrame C mem s)))
  else None.
Definition recording_proxy_onTransact : Z -> P -> S -> Z * P * S := call_stub (M:=M) recording_proxy_descriptor recording_proxy_handler base.
Definition recording_proxy_transact : Z -> P -> S -> Z * P * S := call_transact (M:=M) recording_proxy_descriptor recording_proxy_handler base.

Context `{!BinderLaws P B M}.

(** The recorder's three calls reach the proxy's implementation, and the status comes
    back. *)
Theorem recording_proxy_remote listener mem s : is_int (rp_startRecording C listener s).1 ->
  Bp_rp_startRecording recording_proxy_transact listener s = rp_startRecording C listener s /\
  Bp_rp_stopRecording recording_proxy_transact s = rp_stopRecording C s /\
  Bp_rp_releaseRecordingFrame recording_proxy_transact mem s = rp_releaseRecordingFrame C mem s.
Proof.
  intros Hr. unfold Bp_rp_startRecording, Bp_rp_stopRecording, Bp_rp_releaseRecordingFrame, recording_proxy_transact. split_and!.
  - erewrite (call_spec _ _ base RP_START_RECORDING (writeStrongBinder listener) [Obj listener]);
      [|apply writes_binder|reflexivity|apply reads_last with (1 := reads_binder listener)].
    cbn beta. destruct (rp_startRecording C listener s) as [ret s']. cbn [fst snd] in *. by rewrite (reply_int (P:=P) (B:=B) (M:=M) ret Hr).
  - by erewrite (call_spec _ _ base RP_STOP_RECORDING (fun p => p) []); [|apply writes_id|reflexivity|apply reads_ret].
  - by erewrite (call_spec _ _ base RP_RELEASE_RECORDING_FRAME (writeStrongBinder mem) [Obj mem]);
      [|apply writes_binder|reflexivity|apply reads_last with (1 := reads_binder mem)].
Qed.
End recording_proxy.

(** ** [ICameraServiceListener] *)

(** The states of a camera and of its torch are unsigned. *)
Record ICameraServiceListener (S : Type) := mk_service_listener {
  onStatusChanged : Z -> Z -> S -> S;
  onTorchStatusChanged : Z -> string -> S -> S;
}.
Arguments mk_service_listener {S}.
Arguments onStatusChanged {S}.
Arguments onTorchStatusChanged {S}.

Definition STATUS_CHANGED := 1.
Definition TORCH_STATUS_CHANGED := 2.
Definition STATUS_NOT_AVAILABLE : Z := 2 ^ 31.
Definition STATUS_UNKNOWN : Z := 2 ^ 32 - 1.
Definition service_listener_descriptor : string := "android.hardware.ICameraServiceListener".

Section service_listener.
Context {P B M S : Type} `{BinderParcel P B M}.
#[local] Abbreviation reader := (reader (P:=P)).
#[local] Abbreviation read_int := (read_int (P:=P) (B:=B) (M:=M)).
#[local] Abbreviation writeInt32 := (writeInt32 (P:=P) (B:=B) (M:=M)).
#[local] Abbreviation writeString16 := (writeString16 (P:=P) (B:=B) (M:=M)).
#[local] Abbreviation readString16 := (readString16 (P:=P) (B:=B) (M:=M)).
#[local] Abbreviation sl_token := (token (P:=P) (B:=B) (M:=M) service_listener_descriptor).

Section service_listener_calls.
Context (transact : Z -> P -> S -> S).
Definition Bp_onStatusChanged (status cameraId : Z) : S -> S := transact STATUS_CHANGED (writeInt32 cameraId (writeInt32 (wrap_s32 status) sl_token)).
Definition Bp_onTorchStatusChanged (status : Z) (cameraId : string) : S -> S :=
  transact TORCH_STATUS_CHANGED (writeString16 cameraId (writeInt32 (wrap_s32 status) sl_token)).
End service_listener_calls.

Context (C : ICameraServiceListener S) (base : Z -> P -> S -> S).

Definition service_listener_handler (code : Z) : option (reader (S -> S)) :=
  if code =? STATUS_CHANGED then Some (status ← read_int; cameraId ← read_int; mret (onStatusChanged C (wrap_u32 status) cameraId))
  else if code =? TORCH_STATUS_CHANGED then Some (
    status ← read_int; cameraId ← readString16; mret (onTorchStatusChanged C (wrap_u32 status) cameraId))
  else None.
Definition service_listener_onTransact : Z -> P -> S -> S := stub service_listener_descriptor service_listener_handler base (fun s => s).

Context `{!BinderLaws P B M}.

Lemma status_cast z : 0 <= z < 2 ^ 32 -> wrap_u32 (wrap_s32 z) = z.
Proof.
  intros Hz. unfold wrap_u32, wrap_s32.
  destruct (Z.lt_ge_cases z (2 ^ 31)) as [Hl|Hl].
  - rewrite (Z.mod_small (z + 2 ^ 31)) by lia. rewrite Z.mod_small; lia.
  - replace (z + 2 ^ 31) with ((z - 2 ^ 31) + 1 * 2 ^ 32) by lia. rewrite Z.mod_add, (Z.mod_small (z - 2 ^ 31)) by lia.
    replace (z - 2 ^ 31 - 2 ^ 31) with (z + (-1) * 2 ^ 32) by lia. rewrite Z.mod_add, Z.mod_small; lia.
Qed.

(** Also the states above the signed range, such as [STATUS_NOT_AVAILABLE], arrive. *)
Theorem service_listener_told status cameraId name s : 0 <= status < 2 ^ 32 -> is_int cameraId ->
  Bp_onStatusChanged (fun code data => service_listener_onTransact code (sent data)) status cameraId s = onStatusChanged C status cameraId s /\
  Bp_onTorchStatusChanged (fun code data => service_listener_onTransact code (sent data)) status name s = onTorchStatusChanged C status name s.
Proof.
  intros Hs Hc. unfold Bp_onStatusChanged, Bp_onTorchStatusChanged, service_listener_onTransact, token. pose proof (wrap_s32_range status) as Hw. split.
  - erewrite (stub_spec _ _ base _ STATUS_CHANGED (fun p => writeInt32 cameraId (writeInt32 (wrap_s32 status) (writeInterfaceToken service_listener_descriptor p)))
      ([I32 (wrap_s32 status)] ++ [I32 cameraId] ++ []) _ (onStatusChanged C status cameraId)); [done| |reflexivity|].
    + intros p. rewrite !w_int, w_token by done. by rewrite <- !app_assoc.
    + eapply reads_bind; [apply reads_int|]. eapply reads_bind; [apply reads_int|]. rewrite status_cast by done. apply reads_ret.
  - erewrite (stub_spec _ _ base _ TORCH_STATUS_CHANGED (fun p => writeString16 name (writeInt32 (wrap_s32 status) (writeInterfaceToken service_listener_descriptor p)))
      ([I32 (wrap_s32 status)] ++ [S16 name] ++ []) _ (onTorchStatusChanged C status name)); [done| |reflexivity|].
    + intros p. rewrite w_string, w_int, w_token by done. by rewrite <- !app_assoc.
    + eapply reads_bind; [apply reads_int|]. eapply reads_bind; [apply reads_string16|]. rewrite status_cast by done. apply reads_ret.
Qed.
End service_listener.

(** ** [ICameraServiceProxy] *)

Inductive CameraState := CAMERA_STATE_OPEN | CAMERA_STATE_ACTIVE | CAMERA_STATE_IDLE | CAMERA_STATE_CLOSED.
Definition state_number (c : CameraState) : Z :=
  match c with CAMERA_STATE_OPEN => 0 | CAMERA_STATE_ACTIVE => 1 | CAMERA_STATE_IDLE => 2 | CAMERA_STATE_CLOSED => 3 end.

(** The stub casts any number to a [CameraState], so the implementation is given numbers. *)
Record ICameraServiceProxy (S : Type) := mk_service_proxy { pingForUserUpdate : S -> S; notifyCameraState : string -> Z -> S -> S }.
Arguments mk_service_proxy {S}.
Arguments pingForUserUpdate {S}.
Arguments notifyCameraState {S}.

Definition PING_FOR_USER_UPDATE := 1.
Definition NOTIFY_CAMERA_STATE := 2.
Definition service_proxy_descriptor : string := "android.hardware.ICameraServiceProxy".

Section service_proxy.
Context {P B M S : Type} `{BinderParcel P B M}.
#[local] Abbreviation reader := (reader (P:=P)).
#[local] Abbreviation read_int := (read_int (P:=P) (B:=B) (M:=M)).
#[local] Abbreviation writeInt32 := (writeInt32 (P:=P) (B:=B) (M:=M)).
#[local] Abbreviation writeString16 := (writeString16 (P:=P) (B:=B) (M:=M)).
#[local] Abbreviation readString16 := (readString16 (P:=P) (B:=B) (M:=M)).
#[local] Abbreviation sp_token := (token (P:=P) (B:=B) (M:=M) service_proxy_descriptor).

Section service_proxy_calls.
Context (transact : Z -> P -> S -> S).
Definition Bp_pingForUserUpdate : S -> S := transact PING_FOR_USER_UPDATE sp_token.
Definition Bp_notifyCameraState (cameraId : string) (newCameraState : CameraState) : S -> S :=
  transact NOTIFY_CAMERA_STATE (writeInt32 (state_number newCameraState) (writeString16 cameraId sp_token)).
End service_proxy_calls.

Context (C : ICameraServiceProxy S) (base : Z -> P -> S -> S).

Definition service_proxy_handler (code : Z) : option (reader (S -> S)) :=
  if code =? PING_FOR_USER_UPDATE then Some (mret (pingForUserUpdate C))
  else if code =? NOTIFY_CAMERA_STATE then Some (cameraId ← readString16; st ← read_int; mret (notifyCameraState C cameraId st))
  else None.
Definition service_proxy_onTransact : Z -> P -> S -> S := stub service_proxy_descriptor service_proxy_handler base (fun s => s).

Context `{!BinderLaws P B M}.

Theorem service_proxy_told cameraId st s :
  Bp_pingForUserUpdate (fun code data => service_proxy_onTransact code (sent data)) s = pingForUserUpdate C s /\
  Bp_notifyCameraState (fun code data => service_proxy_onTransact code (sent data)) cameraId st s = notifyCameraState C cameraId (state_number st) s.
Proof.
  unfold Bp_pingForUserUpdate, Bp_notifyCameraState, service_proxy_onTransact, token. split.
  - by erewrite (stub_spec _ _ base _ PING_FOR_USER_UPDATE (writeInterfaceToken service_proxy_descriptor) [] _ (pingForUserUpdate C)); [|apply writes_token|reflexivity|apply reads_ret].
  - erewrite (stub_spec _ _ base _ NOTIFY_CAMERA_STATE (fun p => writeInt32 (state_number st) (writeString16 cameraId (writeInterfaceToken service_proxy_descriptor p)))
      ([S16 cameraId] ++ [I32 (state_number st)] ++ []) _ (notifyCameraState C cameraId (state_number st))); [done| |reflexivity|].
    + intros p. rewrite w_int, w_string, w_token by (destruct st; unfold is_int, INT_MIN, INT_MAX; cbn; lia). by rewrite <- !app_assoc.
    + eapply reads_bind; [apply reads_string16|]. eapply reads_bind; [apply reads_int|apply reads_ret].
Qed.
End service_proxy.
