(* ===== verification/CameraProxy.v ===== *)
(** * The older camera interface (libmocha/camera/ICamera.cpp, Camera.cpp, CameraBase.cpp)

    [ICamera.cpp] holds the proxy and the stub of a camera: [camera_remote] says that each
    of its twenty-one calls, made through both, is the call itself.  [Camera.cpp] and
    [CameraBase.cpp] are the object an application holds: it looks the service up, connects
    to a camera, forwards calls to it while it has one, and hands what the service sends to
    its listeners. *)

From S2P Require Import Prelude Binder CameraClient.

Definition UNKNOWN_ERROR : Z := - 2 ^ 31.
Definition NO_INIT : Z := -19.

(** ** [ICamera] *)

(** Producers, frames in shared memory and clients are binder objects, which may be null. *)
Record ICamera (B S : Type) := mk_camera {
  c_disconnect : S -> S;
  c_setPreviewTarget : option B -> S -> Z * S;
  c_setPreviewCallbackFlag : Z -> S -> S;
  c_setPreviewCallbackTarget : option B -> S -> Z * S;
  c_startPreview : S -> Z * S;
  c_stopPreview : S -> S;
  c_autoFocus : S -> Z * S;
  c_cancelAutoFocus : S -> Z * S;
  c_takePicture : Z -> S -> Z * S;
  c_setParameters : string -> S -> Z * S;
  c_getParameters : S -> string * S;
  c_sendCommand : Z -> Z -> Z -> S -> Z * S;
  c_connect : option B -> S -> Z * S;
  c_lock : S -> Z * S;
  c_unlock : S -> Z * S;
  c_previewEnabled : S -> bool * S;
  c_startRecording : S -> Z * S;
  c_stopRecording : S -> S;
  c_recordingEnabled : S -> bool * S;
  c_releaseRecordingFrame : option B -> S -> S;
  c_storeMetaDataInBuffers : bool -> S -> Z * S;
}.
Arguments mk_camera {B S}.
Arguments c_disconnect {B S}.
Arguments c_setPreviewTarget {B S}.
Arguments c_setPreviewCallbackFlag {B S}.
Arguments c_setPreviewCallbackTarget {B S}.
Arguments c_startPreview {B S}.
Arguments c_stopPreview {B S}.
Arguments c_autoFocus {B S}.
Arguments c_cancelAutoFocus {B S}.
Arguments c_takePicture {B S}.
Arguments c_setParameters {B S}.
Arguments c_getParameters {B S}.
Arguments c_sendCommand {B S}.
Arguments c_connect {B S}.
Arguments c_lock {B S}.
Arguments c_unlock {B S}.
Arguments c_previewEnabled {B S}.
Arguments c_startRecording {B S}.
Arguments c_stopRecording {B S}.
Arguments c_recordingEnabled {B S}.
Arguments c_releaseRecordingFrame {B S}.
Arguments c_storeMetaDataInBuffers {B S}.

Definition DISCONNECT := 1.
Definition SET_PREVIEW_TARGET := 2.
Definition SET_PREVIEW_CALLBACK_FLAG := 3.
Definition SET_PREVIEW_CALLBACK_TARGET := 4.
Definition START_PREVIEW := 5.
Definition STOP_PREVIEW := 6.
Definition AUTO_FOCUS := 7.
Definition CANCEL_AUTO_FOCUS := 8.
Definition TAKE_PICTURE := 9.
Definition SET_PARAMETERS := 10.
Definition GET_PARAMETERS := 11.
Definition SEND_COMMAND := 12.
Definition CONNECT := 13.
Definition LOCK := 14.
Definition UNLOCK := 15.
Definition PREVIEW_ENABLED := 16.
Definition START_RECORDING := 17.
Definition STOP_RECORDING := 18.
Definition RECORDING_ENABLED := 19.
Definition RELEASE_RECORDING_FRAME := 20.
Definition STORE_META_DATA_IN_BUFFERS := 21.

Definition camera_descriptor : string := "android.hardware.ICamera".

Section camera_binder.
Context {P B M S : Type} `{BinderParcel P B M}.
#[local] Abbreviation reader := (reader (P:=P)).
#[local] Abbreviation read_int := (read_int (P:=P) (B:=B) (M:=M)).
#[local] Abbreviation read_bool := (read_bool (P:=P) (B:=B) (M:=M)).
#[local] Abbreviation readStrongBinder := (readStrongBinder (P:=P) (B:=B) (M:=M)).
#[local] Abbreviation readString8 := (readString8 (P:=P) (B:=B) (M:=M)).
#[local] Abbreviation writeInt32 := (writeInt32 (P:=P) (B:=B) (M:=M)).
#[local] Abbreviation writeString8 := (writeString8 (P:=P) (B:=B) (M:=M)).
#[local] Abbreviation empty_parcel := (empty_parcel (P:=P) (B:=B) (M:=M)).
#[local] Abbreviation data := (token (P:=P) (B:=B) (M:=M) camera_descriptor).

(** *** The proxy ([BpCamera]) *)

Section camera_proxy.
Context (transact : Z -> P -> S -> Z * P * S).

(** What a proxy reads of the reply; nothing checks that there was one. *)
Definition ask_status (code : Z) (p : P) (s : S) : Z * S := let '(_, reply, s) := transact code p s in ((read_int reply).1, s).
Definition ask_flag (code : Z) (p : P) (s : S) : bool * S := let '(_, reply, s) := transact code p s in ((read_bool reply).1, s).
Definition ask_text (code : Z) (p : P) (s : S) : string * S := let '(_, reply, s) := transact code p s in ((readString8 reply).1, s).
Definition tell (code : Z) (p : P) (s : S) : S := (transact code p s).2.

Definition Bp_disconnect : S -> S := tell DISCONNECT data.
Definition Bp_setPreviewTarget (bufferProducer : option B) : S -> Z * S := ask_status SET_PREVIEW_TARGET (writeStrongBinder bufferProducer data).
Definition Bp_setPreviewCallbackFlag (flag : Z) : S -> S := tell SET_PREVIEW_CALLBACK_FLAG (writeInt32 flag data).
Definition Bp_setPreviewCallbackTarget (callbackProducer : option B) : S -> Z * S := ask_status SET_PREVIEW_CALLBACK_TARGET (writeStrongBinder callbackProducer data).
Definition Bp_startPreview : S -> Z * S := ask_status START_PREVIEW data.
Definition Bp_stopPreview : S -> S := tell STOP_PREVIEW data.
Definition Bp_autoFocus : S -> Z * S := ask_status AUTO_FOCUS data.
Definition Bp_cancelAutoFocus : S -> Z * S := ask_status CANCEL_AUTO_FOCUS data.
Definition Bp_takePicture (msgType : Z) : S -> Z * S := ask_status TAKE_PICTURE (writeInt32 msgType data).
Definition Bp_setParameters (params : string) : S -> Z * S := ask_status SET_PARAMETERS (writeString8 params data).
Definition Bp_getParameters : S -> string * S := ask_text GET_PARAMETERS data.
Definition Bp_sendCommand (cmd : Z) (arg1 : Z) (arg2 : Z) : S -> Z * S := ask_status SEND_COMMAND (writeInt32 arg2 (writeInt32 arg1 (writeInt32 cmd data))).
Definition Bp_connect (cameraClient : option B) : S -> Z * S := ask_status CONNECT (writeStrongBinder cameraClient data).
Definition Bp_lock : S -> Z * S := ask_status LOCK data.
Definition Bp_unlock : S -> Z * S := ask_status UNLOCK data.
Definition Bp_previewEnabled : S -> bool * S := ask_flag PREVIEW_ENABLED data.
Definition Bp_startRecording : S -> Z * S := ask_status START_RECORDING data.
Definition Bp_stopRecording : S -> S := tell STOP_RECORDING data.
Definition Bp_recordingEnabled : S -> bool * S := ask_flag RECORDING_ENABLED data.
Definition Bp_releaseRecordingFrame (mem : option B) : S -> S := tell RELEASE_RECORDING_FRAME (writeStrongBinder mem data).
Definition Bp_storeMetaDataInBuffers (enabled : bool) : S -> Z * S := ask_status STORE_META_DATA_IN_BUFFERS (writeInt32 (bit enabled) data).
End camera_proxy.

(** *** The stub ([BnCamera::onTransact]) *)

Section camera_stub.
Context (C : ICamera B S) (base : Z -> P -> S -> Z * P * S).

Definition on_status (run : S -> Z * S) (s : S) : Z * P * S := let '(ret, s) := run s in (NO_ERROR, writeInt32 ret empty_parcel, s).
Definition on_flag (run : S -> bool * S) (s : S) : Z * P * S := let '(ret, s) := run s in (NO_ERROR, writeInt32 (bit ret) empty_parcel, s).
Definition on_text (run : S -> string * S) (s : S) : Z * P * S := let '(ret, s) := run s in (NO_ERROR, writeString8 ret empty_parcel, s).
Definition on_void (run : S -> S) (s : S) : Z * P * S := (NO_ERROR, empty_parcel, run s).

Definition handler (code : Z) : option (reader (S -> Z * P * S)) :=
  if code =? DISCONNECT then Some (mret (fun s => (NO_ERROR, writeNoException empty_parcel, c_disconnect C s)))
  else if code =? SET_PREVIEW_TARGET then Some (bufferProducer ← readStrongBinder; mret (on_status (c_setPreviewTarget C bufferProducer)))
  else if code =? SET_PREVIEW_CALLBACK_FLAG then Some (flag ← read_int; mret (on_void (c_setPreviewCallbackFlag C flag)))
  else if code =? SET_PREVIEW_CALLBACK_TARGET then Some (callbackProducer ← readStrongBinder; mret (on_status (c_setPreviewCallbackTarget C callbackProducer)))
  else if code =? START_PREVIEW then Some (mret (on_status (c_startPreview C)))
  else if code =? START_RECORDING then Some (mret (on_status (c_startRecording C)))
  else if code =? STOP_PREVIEW then Some (mret (on_void (c_stopPreview C)))
  else if code =? STOP_RECORDING then Some (mret (on_void (c_stopRecording C)))
  else if code =? RELEASE_RECORDING_FRAME then Some (mem ← readStrongBinder; mret (on_void (c_releaseRecordingFrame C mem)))
  else if code =? STORE_META_DATA_IN_BUFFERS then Some (enabled ← read_bool; mret (on_status (c_storeMetaDataInBuffers C enabled)))
  else if code =? PREVIEW_ENABLED then Some (mret (on_flag (c_previewEnabled C)))
  else if code =? RECORDING_ENABLED then Some (mret (on_flag (c_recordingEnabled C)))
  else if code =? AUTO_FOCUS then Some (mret (on_status (c_autoFocus C)))
  else if code =? CANCEL_AUTO_FOCUS then Some (mret (on_status (c_cancelAutoFocus C)))
  else if code =? TAKE_PICTURE then Some (msgType ← read_int; mret (on_status (c_takePicture C msgType)))
  else if code =? SET_PARAMETERS then Some (params ← readString8; mret (on_status (c_setParameters C params)))
  else if code =? GET_PARAMETERS then Some (mret (on_text (c_getParameters C)))
  else if code =? SEND_COMMAND then Some (cmd ← read_int; arg1 ← read_int; arg2 ← read_int; mret (on_status (c_sendCommand C cmd arg1 arg2)))
  else if code =? CONNECT then Some (cameraClient ← readStrongBinder; mret (on_status (c_connect C cameraClient)))
  else if code =? LOCK then Some (mret (on_status (c_lock C)))
  else if code =? UNLOCK then Some (mret (on_status (c_unlock C)))
  else None.

Definition onTransact : Z -> P -> S -> Z * P * S := call_stub (M:=M) camera_descriptor handler base.
Definition transact : Z -> P -> S -> Z * P * S := call_transact (M:=M) camera_descriptor handler base.

(** *** Calls *)

Inductive call :=
| Disconnect
| SetPreviewTarget (bufferProducer : option B)
| SetPreviewCallbackFlag (flag : Z)
| SetPreviewCallbackTarget (callbackProducer : option B)
| StartPreview
| StopPreview
| AutoFocus
| CancelAutoFocus
| TakePicture (msgType : Z)
| SetParameters (params : string)
| GetParameters
| SendCommand (cmd : Z) (arg1 : Z) (arg2 : Z)
| Connect (cameraClient : option B)
| Lock
| Unlock
| PreviewEnabled
| StartRecording
| StopRecording
| RecordingEnabled
| ReleaseRecordingFrame (mem : option B)
| StoreMetaDataInBuffers (enabled : bool).

Inductive answer := Void | Status (ret : Z) | Flag (ret : bool) | Text (ret : string).

Definition with_status (r : Z * S) : answer * S := (Status r.1, r.2).
Definition with_flag (r : bool * S) : answer * S := (Flag r.1, r.2).
Definition with_text (r : string * S) : answer * S := (Text r.1, r.2).
Definition with_void (s : S) : answer * S := (Void, s).

(** The call through the proxy and the stub, and on the camera itself. *)
Definition camera_remote (c : call) (s : S) : answer * S :=
  match c with
  | Disconnect => with_void (Bp_disconnect transact s)
  | SetPreviewTarget bufferProducer => with_status (Bp_setPreviewTarget transact bufferProducer s)
  | SetPreviewCallbackFlag flag => with_void (Bp_setPreviewCallbackFlag transact flag s)
  | SetPreviewCallbackTarget callbackProducer => with_status (Bp_setPreviewCallbackTarget transact callbackProducer s)
  | StartPreview => with_status (Bp_startPreview transact s)
  | StopPreview => with_void (Bp_stopPreview transact s)
  | AutoFocus => with_status (Bp_autoFocus transact s)
  | CancelAutoFocus => with_status (Bp_cancelAutoFocus transact s)
  | TakePicture msgType => with_status (Bp_takePicture transact msgType s)
  | SetParameters params => with_status (Bp_setParameters transact params s)
  | GetParameters => with_text (Bp_getParameters transact s)
  | SendCommand cmd arg1 arg2 => with_status (Bp_sendCommand transact cmd arg1 arg2 s)
  | Connect cameraClient => with_status (Bp_connect transact cameraClient s)
  | Lock => with_status (Bp_lock transact s)
  | Unlock => with_status (Bp_unlock transact s)
  | PreviewEnabled => with_flag (Bp_previewEnabled transact s)
  | StartRecording => with_status (Bp_startRecording transact s)
  | StopRecording => with_void (Bp_stopRecording transact s)
  | RecordingEnabled => with_flag (Bp_recordingEnabled transact s)
  | ReleaseRecordingFrame mem => with_void (Bp_releaseRecordingFrame transact mem s)
  | StoreMetaDataInBuffers enabled => with_status (Bp_storeMetaDataInBuffers transact enabled s)
  end.

(** On the camera itself. *)
Definition camera_local (c : call) (s : S) : answer * S :=
  match c with
  | Disconnect => with_void (c_disconnect C s)
  | SetPreviewTarget bufferProducer => with_status (c_setPreviewTarget C bufferProducer s)
  | SetPreviewCallbackFlag flag => with_void (c_setPreviewCallbackFlag C flag s)
  | SetPreviewCallbackTarget callbackProducer => with_status (c_setPreviewCallbackTarget C callbackProducer s)
  | StartPreview => with_status (c_startPreview C s)
  | StopPreview => with_void (c_stopPreview C s)
  | AutoFocus => with_status (c_autoFocus C s)
  | CancelAutoFocus => with_status (c_cancelAutoFocus C s)
  | TakePicture msgType => with_status (c_takePicture C msgType s)
  | SetParameters params => with_status (c_setParameters C params s)
  | GetParameters => with_text (c_getParameters C s)
  | SendCommand cmd arg1 arg2 => with_status (c_sendCommand C cmd arg1 arg2 s)
  | Connect cameraClient => with_status (c_connect C cameraClient s)
  | Lock => with_status (c_lock C s)
  | Unlock => with_status (c_unlock C s)
  | PreviewEnabled => with_flag (c_previewEnabled C s)
  | StartRecording => with_status (c_startRecording C s)
  | StopRecording => with_void (c_stopRecording C s)
  | RecordingEnabled => with_flag (c_recordingEnabled C s)
  | ReleaseRecordingFrame mem => with_void (c_releaseRecordingFrame C mem s)
  | StoreMetaDataInBuffers enabled => with_status (c_storeMetaDataInBuffers C enabled s)
  end.

(** Arguments that fit their types. *)
Definition call_ok (c : call) : Prop :=
  match c with
  | SetPreviewCallbackFlag z | TakePicture z => is_int z
  | SendCommand a b c => is_int a /\ is_int b /\ is_int c
  | _ => True
  end.
(** A camera whose statuses fit their type. *)
Definition camera_ok : Prop := forall c s z, (camera_local c s).1 = Status z -> is_int z.

Context `{!BinderLaws P B M}.

Lemma transact_status code w l run f s : writes w l -> handler code = Some run -> reads run l (on_status f) -> is_int (f s).1 ->
  ask_status transact code (w data) s = f s.
Proof.
  intros Hw Hh Hr Hi. unfold ask_status, transact. rewrite (call_spec _ _ base code w l run _ s Hw Hh Hr). unfold on_status.
  destruct (f s) as [ret s']. cbn [fst snd] in *. by rewrite (reply_int (P:=P) (B:=B) (M:=M) ret Hi).
Qed.
Lemma transact_flag code w l run f s : writes w l -> handler code = Some run -> reads run l (on_flag f) -> ask_flag transact code (w data) s = f s.
Proof.
  intros Hw Hh Hr. unfold ask_flag, transact. rewrite (call_spec _ _ base code w l run _ s Hw Hh Hr). unfold on_flag.
  destruct (f s) as [ret s']. pose proof (sent_reads (writeInt32 (bit ret)) read_bool [I32 (bit ret)] [] ret (writes_int _ (bit_int ret)) (reads_bool ret)) as E.
  by rewrite E.
Qed.
Lemma transact_text code w l run f s : writes w l -> handler code = Some run -> reads run l (on_text f) -> ask_text transact code (w data) s = f s.
Proof.
  intros Hw Hh Hr. unfold ask_text, transact. rewrite (call_spec _ _ base code w l run _ s Hw Hh Hr). unfold on_text.
  destruct (f s) as [ret s']. pose proof (sent_reads (writeString8 ret) readString8 [S8 ret] [] ret (writes_string8 ret) (reads_string8 ret)) as E.
  by rewrite E.
Qed.
Lemma transact_void code w l run f s : writes w l -> handler code = Some run -> reads run l (on_void f) -> tell transact code (w data) s = f s.
Proof. intros Hw Hh Hr. unfold tell, transact. by rewrite (call_spec _ _ base code w l run _ s Hw Hh Hr). Qed.

#[local] Ltac args := first [apply writes_id | apply writes_binder | apply writes_string8 | by apply writes_int | apply writes_int, bit_int].
#[local] Ltac takes :=
  first [apply reads_ret | 
    rewrite <- (app_nil_r [_]); eapply reads_bind;
      [first [apply reads_bool | apply reads_int | apply reads_binder | apply reads_string8]|apply reads_ret]].
(** A call whose arguments [w] packs. *)
#[local] Tactic Notation "camera_call" constr(law) uconstr(w) := eapply (law _ w); [args | reflexivity | takes | ..].

(** Over any camera whose statuses are integers, each of the twenty-one calls through the
    proxy and the stub does and answers what the call itself does. *)
Theorem camera_remote_is_local c s : camera_ok -> call_ok c -> camera_remote c s = camera_local c s.
Proof.
  intros Hok Hc. assert (Hst : forall f, camera_local c s = with_status (f s) -> is_int (f s).1).
  { intros f E. apply (Hok c s). by rewrite E. }
  destruct c; cbn [camera_remote camera_local call_ok] in *; f_equal.
  - unfold Bp_disconnect, tell, transact.
    by rewrite (call_spec _ _ base DISCONNECT (fun p => p) [] _ (fun s => (NO_ERROR, writeNoException empty_parcel, c_disconnect C s)) s (writes_id (B:=B) (M:=M)) eq_refl (reads_ret _)).
  - camera_call transact_status (writeStrongBinder bufferProducer). by eapply Hst.
  - camera_call transact_void (writeInt32 flag).
  - camera_call transact_status (writeStrongBinder callbackProducer). by eapply Hst.
  - camera_call transact_status (fun p => p). by eapply Hst.
  - camera_call transact_void (fun p => p).
  - camera_call transact_status (fun p => p). by eapply Hst.
  - camera_call transact_status (fun p => p). by eapply Hst.
  - camera_call transact_status (writeInt32 msgType). by eapply Hst.
  - camera_call transact_status (writeString8 params). by eapply Hst.
  - camera_call transact_text (fun p => p).
  - destruct Hc as (H1 & H2 & H3). eapply (transact_status SEND_COMMAND (fun p => writeInt32 arg2 (writeInt32 arg1 (writeInt32 cmd p)))
      ([I32 cmd] ++ [I32 arg1] ++ [I32 arg2]) _ (c_sendCommand C cmd arg1 arg2) s); [|reflexivity| |by apply (Hst (c_sendCommand C cmd arg1 arg2))].
    + intros p. rewrite !w_int by done. by rewrite <- !app_assoc.
    + eapply reads_bind; [apply reads_int|]. eapply reads_bind; [apply reads_int|]. takes.
  - camera_call transact_status (writeStrongBinder cameraClient). by eapply Hst.
  - camera_call transact_status (fun p => p). by eapply Hst.
  - camera_call transact_status (fun p => p). by eapply Hst.
  - camera_call transact_flag (fun p => p).
  - camera_call transact_status (fun p => p). by eapply Hst.
  - camera_call transact_void (fun p => p).
  - camera_call transact_flag (fun p => p).
  - camera_call transact_void (writeStrongBinder mem).
  - camera_call transact_status (writeInt32 (bit enabled)). by eapply Hst.
Qed.
End camera_stub.
End camera_binder.

(** ** A concrete camera *)

(** A camera that counts its calls, over parcels that are lists of items. *)
Definition counting_camera : ICamera Z Z := mk_camera Z.succ (fun b s => (match b with Some _ => 0 | None => -22 end, Z.succ s)) (fun _ => Z.succ)
  (fun _ s => (0, Z.succ s)) (fun s => (0, Z.succ s)) Z.succ (fun s => (0, Z.succ s)) (fun s => (0, Z.succ s)) (fun _ s => (0, Z.succ s)) (fun _ s => (0, Z.succ s))
  (fun s => ("rotation=90"%string, s)) (fun a b c s => (-38, Z.succ s)) (fun _ s => (0, Z.succ s)) (fun s => (0, Z.succ s)) (fun s => (0, Z.succ s))
  (fun s => (true, s)) (fun s => (0, Z.succ s)) Z.succ (fun s => (false, s)) (fun _ => Z.succ) (fun _ s => (0, Z.succ s)).

Lemma camera_remote_is_local_witness :
  camera_remote (P:=list (item Z Z) * list (item Z Z)) (M:=Z) counting_camera (fun _ p s => (0, p, s)) (SendCommand 1 2 3) 5 =
    camera_local counting_camera (SendCommand 1 2 3) 5 /\ camera_local counting_camera (SendCommand 1 2 3) 5 = (Status (-38), 6).
Proof.
  assert (Hok : camera_ok counting_camera).
  { intros c s z. unfold is_int, INT_MIN, INT_MAX. destruct c as [|[]| | | | | | | | | | | | | | | | | | |]; cbn; intros E; simplify_eq; lia. }
  assert (Hc : call_ok (B:=Z) (SendCommand 1 2 3)) by (unfold call_ok, is_int, INT_MIN, INT_MAX; lia).
  split; [|reflexivity]. exact (camera_remote_is_local counting_camera (fun _ p s => (0, p, s)) (SendCommand 1 2 3) 5 Hok Hc).
Defined.
