(* ===== verification/CameraService.v ===== *)
(** * The camera service over binder (libmocha/camera/ICameraService.cpp, CameraUtils.cpp)

    The proxy and the stub of the service that lists the cameras and connects to them.
    [service_remote_is_local]: each call through both is the call itself, but for two:
    [getLegacyParameters] and [supportsCameraApi] read their answer from the parcel they
    have sent, so that every camera supports every interface and has no parameters.
    [CameraUtils.cpp] computes the transform that shows a camera's image upright. *)

From S2P Require Import Prelude Binder CameraClient.

Definition EPROTO : Z := 71.

Definition GET_NUMBER_OF_CAMERAS := 1.
Definition GET_CAMERA_INFO := 2.
Definition CONNECT := 3.
Definition CONNECT_DEVICE := 4.
Definition ADD_LISTENER := 5.
Definition REMOVE_LISTENER := 6.
Definition GET_CAMERA_CHARACTERISTICS := 7.
Definition GET_CAMERA_VENDOR_TAG_DESCRIPTOR := 8.
Definition GET_LEGACY_PARAMETERS := 9.
Definition SUPPORTS_CAMERA_API := 10.
Definition CONNECT_LEGACY := 11.
Definition SET_TORCH_MODE := 12.
Definition NOTIFY_SYSTEM_EVENT := 13.

Definition CAMERA_TYPE_BACKWARD_COMPATIBLE : Z := 0.
Definition service_descriptor : string := "android.hardware.ICameraService".

(** Where a camera looks and how its image is turned. *)
Record CameraInfo := mk_info { facing : Z; orientation : Z }.

(** The operations over a state: what they answer, and what they leave in the variables
    they are given. *)
Record ICameraService (B M V S : Type) := mk_service {
  getNumberOfCameras : Z -> S -> Z * S;
  getCameraInfo : Z -> S -> Z * CameraInfo * S;
  getCameraCharacteristics : Z -> S -> Z * M * S;
  getCameraVendorTagDescriptor : S -> Z * option V * S;
  connect : option B -> Z -> string -> Z -> S -> Z * option B * S;
  connectLegacy : option B -> Z -> Z -> string -> Z -> S -> Z * option B * S;
  setTorchMode : string -> bool -> option B -> S -> Z * S;
  connectDevice : option B -> Z -> string -> Z -> S -> Z * option B * S;
  addListener : option B -> S -> Z * S;
  removeListener : option B -> S -> Z * S;
  getLegacyParameters : Z -> S -> Z * string * S;
  supportsCameraApi : Z -> Z -> S -> Z * S;
  notifySystemEvent : Z -> list Z -> S -> S;
}.
Arguments mk_service {B M V S}.
Arguments getNumberOfCameras {B M V S}.
Arguments getCameraInfo {B M V S}.
Arguments getCameraCharacteristics {B M V S}.
Arguments getCameraVendorTagDescriptor {B M V S}.
Arguments connect {B M V S}.
Arguments connectLegacy {B M V S}.
Arguments setTorchMode {B M V S}.
Arguments connectDevice {B M V S}.
Arguments addListener {B M V S}.
Arguments removeListener {B M V S}.
Arguments getLegacyParameters {B M V S}.
Arguments supportsCameraApi {B M V S}.
Arguments notifySystemEvent {B M V S}.

Section service.
Context {P B M V S : Type} `{BinderParcel P B M}.
#[local] Abbreviation reader := (reader (P:=P)).
#[local] Abbreviation read_int := (read_int (P:=P) (B:=B) (M:=M)).
#[local] Abbreviation readStrongBinder := (readStrongBinder (P:=P) (B:=B) (M:=M)).
#[local] Abbreviation readString16 := (readString16 (P:=P) (B:=B) (M:=M)).
#[local] Abbreviation readMetadata := (readMetadata (P:=P) (B:=B) (M:=M)).
#[local] Abbreviation readExceptionCode := (readExceptionCode (P:=P) (B:=B) (M:=M)).
#[local] Abbreviation read_array := (read_array (P:=P) (B:=B) (M:=M)).
#[local] Abbreviation writeInt32 := (writeInt32 (P:=P) (B:=B) (M:=M)).
#[local] Abbreviation writeString16 := (writeString16 (P:=P) (B:=B) (M:=M)).
#[local] Abbreviation writeNoException := (writeNoException (P:=P) (B:=B) (M:=M)).
#[local] Abbreviation empty_parcel := (empty_parcel (P:=P) (B:=B) (M:=M)).
#[local] Abbreviation data := (token (P:=P) (B:=B) (M:=M) service_descriptor).

(** The vendor tags in a parcel ([VendorTagDescriptor.cpp]). *)
Context (write_tags : V -> P -> P) (createFromParcel : reader (Z * option V)).

(** *** The proxy ([BpCameraService]) *)

(** Whether the reply holds an exception. *)
Definition exception_in_reply : reader bool := exceptionCode ← readExceptionCode; mret (negb (exceptionCode =? 0)).
Definition guarded {A} (failed : A) (rd : reader A) : reader A := bad ← exception_in_reply; if (bad : bool) then mret failed else rd.

Definition read_info : reader (Z * option CameraInfo) :=
  result ← read_int;
  present ← read_int;
  if negb (present =? 0) then (f ← read_int; o ← read_int; mret (result, Some (mk_info f o))) else mret (result, None).
Definition read_characteristics (none : M) (given : bool) : reader (Z * option M) :=
  result ← read_int;
  present ← read_int;
  out ← (if negb (present =? 0) then ('(st, m) ← readMetadata; mret (if st =? OK then m else none)) else mret none);
  mret (result, if given then Some out else None).
Definition read_descriptor : reader (Z * option V) :=
  result ← read_int;
  present ← read_int;
  if negb (present =? 0) then ('(st, d) ← createFromParcel; mret (result, if st =? OK then d else None)) else mret (result, None).
Definition read_device : reader (Z * option (option B)) :=
  status ← read_int;
  present ← read_int;
  if negb (present =? 0) then (b ← readStrongBinder; mret (status, Some b)) else mret (status, None).

Section service_proxy.
Context (transact : Z -> P -> S -> Z * P * S).

Definition ask {A} (failed : A) (rd : reader A) (code : Z) (p : P) (s : S) : A * S :=
  let '(_, reply, s) := transact code p s in ((guarded failed rd reply).1, s).
(** A connection also looks at the status of the transaction. *)
Definition ask_device (code : Z) (p : P) (s : S) : Z * option (option B) * S :=
  let '(status, reply, s) := transact code p s in
  if negb (status =? OK) then (status, None, s) else ((guarded (- EPROTO, None) read_device reply).1, s).

Definition Bp_getNumberOfCameras (type : Z) : S -> Z * S := ask 0 read_int GET_NUMBER_OF_CAMERAS (writeInt32 type data).
Definition Bp_getNumberOfCameras_compatible : S -> Z * S := Bp_getNumberOfCameras CAMERA_TYPE_BACKWARD_COMPATIBLE.
Definition Bp_getCameraInfo (cameraId : Z) : S -> Z * option CameraInfo * S :=
  ask (- EPROTO, None) read_info GET_CAMERA_INFO (writeInt32 cameraId data).
Definition Bp_getCameraCharacteristics (none : M) (cameraId : Z) (given : bool) : S -> Z * option M * S :=
  ask (- EPROTO, None) (read_characteristics none given) GET_CAMERA_CHARACTERISTICS (writeInt32 cameraId data).
Definition Bp_getCameraVendorTagDescriptor : S -> Z * option V * S :=
  ask (- EPROTO, None) read_descriptor GET_CAMERA_VENDOR_TAG_DESCRIPTOR data.
Definition Bp_connect (cameraClient : option B) (cameraId : Z) (clientPackageName : string) (clientUid : Z) : S -> Z * option (option B) * S :=
  ask_device CONNECT (writeInt32 clientUid (writeString16 clientPackageName (writeInt32 cameraId (writeStrongBinder cameraClient data)))).
Definition Bp_connectLegacy (cameraClient : option B) (cameraId halVersion : Z) (clientPackageName : string) (clientUid : Z)
  : S -> Z * option (option B) * S :=
  ask_device CONNECT_LEGACY
    (writeInt32 clientUid (writeString16 clientPackageName (writeInt32 halVersion (writeInt32 cameraId (writeStrongBinder cameraClient data))))).
Definition Bp_setTorchMode (cameraId : string) (enabled : bool) (clientBinder : option B) : S -> Z * S :=
  ask (- EPROTO) read_int SET_TORCH_MODE (writeStrongBinder clientBinder (writeInt32 (if enabled then 1 else 0) (writeString16 cameraId data))).
Definition Bp_connectDevice (cameraCb : option B) (cameraId : Z) (clientPackageName : string) (clientUid : Z) : S -> Z * option (option B) * S :=
  ask_device CONNECT_DEVICE (writeInt32 clientUid (writeString16 clientPackageName (writeInt32 cameraId (writeStrongBinder cameraCb data)))).
Definition Bp_addListener (listener : option B) : S -> Z * S := ask (- EPROTO) read_int ADD_LISTENER (writeStrongBinder listener data).
Definition Bp_removeListener (listener : option B) : S -> Z * S := ask (- EPROTO) read_int REMOVE_LISTENER (writeStrongBinder listener data).

(** The last two read the parcel that was sent, [p], not the reply. *)
Definition Bp_getLegacyParameters (cameraId : Z) (given : bool) (s : S) : Z * option string * S :=
  if negb given then (BAD_VALUE, None, s)
  else
    let p := writeInt32 cameraId data in
    let '(_, reply, s) := transact GET_LEGACY_PARAMETERS p s in
    if (exception_in_reply reply).1 then (- EPROTO, None, s)
    else
      (((res ← read_int; length ← read_int; text ← (if 0 <? length then readString16 else mret EmptyString); mret (res, Some text)) p).1, s).
Definition Bp_supportsCameraApi (cameraId apiVersion : Z) (s : S) : Z * S :=
  let p := writeInt32 apiVersion (writeInt32 cameraId data) in
  let '(_, reply, s) := transact SUPPORTS_CAMERA_API p s in
  if (exception_in_reply reply).1 then (- EPROTO, s) else ((read_int p).1, s).
Definition Bp_notifySystemEvent (eventId : Z) (args : list Z) (s : S) : S :=
  (transact NOTIFY_SYSTEM_EVENT (writeInt32Array args (writeInt32 eventId data)) s).2.
End service_proxy.

(** *** The stub ([BnCameraService::onTransact]) *)

Section service_stub.
Context (C : ICameraService B M V S) (base : Z -> P -> S -> Z * P * S).

Definition status_reply (status : Z) : P := writeInt32 status (writeNoException empty_parcel).
Definition device_reply (status : Z) (device : option B) : P :=
  match device with
  | Some b => writeStrongBinder (Some b) (writeInt32 1 (status_reply status))
  | None => writeInt32 0 (status_reply status)
  end.
Definition on_status (run : S -> Z * S) (s : S) : Z * P * S := let '(ret, s) := run s in (NO_ERROR, status_reply ret, s).
Definition on_device (run : S -> Z * option B * S) (s : S) : Z * P * S :=
  let '(status, device, s) := run s in (NO_ERROR, device_reply status device, s).
Definition on_info (run : S -> Z * CameraInfo * S) (s : S) : Z * P * S :=
  let '(result, i, s) := run s in
  (NO_ERROR, writeInt32 (orientation i) (writeInt32 (facing i) (writeInt32 1 (status_reply result))), s).
Definition on_characteristics (run : S -> Z * M * S) (s : S) : Z * P * S :=
  let '(result, m, s) := run s in (NO_ERROR, (writeMetadata m (writeInt32 1 (status_reply result))).2, s).
Definition on_descriptor (run : S -> Z * option V * S) (s : S) : Z * P * S :=
  let '(result, d, s) := run s in
  (NO_ERROR, match d with None => writeInt32 0 (status_reply result) | Some d => write_tags d (writeInt32 1 (status_reply result)) end, s).
Definition on_text (run : S -> Z * string * S) (s : S) : Z * P * S :=
  let '(ret, t, s) := run s in (NO_ERROR, writeString16 t (writeInt32 1 (status_reply ret)), s).

(** At most 512 arguments. *)
Definition read_event : reader (S -> Z * P * S) :=
  eventId ← read_int;
  len ← read_int;
  if (len <? 0) || (512 <? len) then mret (fun s => (FAILED_TRANSACTION, empty_parcel, s))
  else
    '(status, events) ← read_array len;
    if negb (status =? NO_ERROR) then mret (fun s => (FAILED_TRANSACTION, empty_parcel, s))
    else mret (fun s => (NO_ERROR, empty_parcel, notifySystemEvent C eventId events s)).

Definition handler (code : Z) : option (reader (S -> Z * P * S)) :=
  if code =? GET_NUMBER_OF_CAMERAS then Some (type ← read_int; mret (on_status (getNumberOfCameras C type)))
  else if code =? GET_CAMERA_INFO then Some (cameraId ← read_int; mret (on_info (getCameraInfo C cameraId)))
  else if code =? GET_CAMERA_CHARACTERISTICS then Some (cameraId ← read_int; mret (on_characteristics (getCameraCharacteristics C cameraId)))
  else if code =? GET_CAMERA_VENDOR_TAG_DESCRIPTOR then Some (mret (on_descriptor (getCameraVendorTagDescriptor C)))
  else if code =? CONNECT then Some (
    client ← readStrongBinder; cameraId ← read_int; clientName ← readString16; clientUid ← read_int;
    mret (on_device (connect C client cameraId clientName clientUid)))
  else if code =? CONNECT_DEVICE then Some (
    client ← readStrongBinder; cameraId ← read_int; clientName ← readString16; clientUid ← read_int;
    mret (on_device (connectDevice C client cameraId clientName clientUid)))
  else if code =? ADD_LISTENER then Some (listener ← readStrongBinder; mret (on_status (addListener C listener)))
  else if code =? REMOVE_LISTENER then Some (listener ← readStrongBinder; mret (on_status (removeListener C listener)))
  else if code =? GET_LEGACY_PARAMETERS then Some (cameraId ← read_int; mret (on_text (getLegacyParameters C cameraId)))
  else if code =? SUPPORTS_CAMERA_API then Some (
    cameraId ← read_int; apiVersion ← read_int; mret (on_status (supportsCameraApi C cameraId apiVersion)))
  else if code =? CONNECT_LEGACY then Some (
    client ← readStrongBinder; cameraId ← read_int; halVersion ← read_int; clientName ← readString16; clientUid ← read_int;
    mret (on_device (connectLegacy C client cameraId halVersion clientName clientUid)))
  else if code =? SET_TORCH_MODE then Some (
    cameraId ← readString16; enabled ← read_int; clientBinder ← readStrongBinder;
    mret (on_status (setTorchMode C cameraId (negb (enabled =? 0)) clientBinder)))
  else if code =? NOTIFY_SYSTEM_EVENT then Some read_event
  else None.

Definition onTransact : Z -> P -> S -> Z * P * S := call_stub (M:=M) service_descriptor handler base.
Definition transact : Z -> P -> S -> Z * P * S := call_transact (M:=M) service_descriptor handler base.

(** *** Calls *)

(** A call, with whether the caller passes a pointer for what comes back. *)
Inductive call :=
| GetNumberOfCameras (type : Z)
| GetCameraInfo (cameraId : Z)
| GetCameraCharacteristics (cameraId : Z) (given : bool)
| GetCameraVendorTagDescriptor
| Connect (cameraClient : option B) (cameraId : Z) (name : string) (uid : Z)
| ConnectLegacy (cameraClient : option B) (cameraId halVersion : Z) (name : string) (uid : Z)
| SetTorchMode (cameraId : string) (enabled : bool) (clientBinder : option B)
| ConnectDevice (cameraCb : option B) (cameraId : Z) (name : string) (uid : Z)
| AddListener (listener : option B)
| RemoveListener (listener : option B)
| GetLegacyParameters (cameraId : Z) (given : bool)
| SupportsCameraApi (cameraId apiVersion : Z)
| NotifySystemEvent (eventId : Z) (args : list Z).

(** The status, and what is stored for the caller: [None] where nothing is. *)
Record outcome := mk_outcome {
  status : Z; info : option CameraInfo; characteristics : option M; tags : option V; camera : option (option B); text : option string }.
Definition only_status (r : Z * S) : outcome * S := (mk_outcome r.1 None None None None None, r.2).

(** The call through the proxy and the stub. *)
Definition remote (none : M) (c : call) (s : S) : outcome * S :=
  match c with
  | GetNumberOfCameras type => only_status (Bp_getNumberOfCameras transact type s)
  | GetCameraInfo id => let '(ret, i, s) := Bp_getCameraInfo transact id s in (mk_outcome ret i None None None None, s)
  | GetCameraCharacteristics id given =>
      let '(ret, m, s) := Bp_getCameraCharacteristics transact none id given s in (mk_outcome ret None m None None None, s)
  | GetCameraVendorTagDescriptor => let '(ret, d, s) := Bp_getCameraVendorTagDescriptor transact s in (mk_outcome ret None None d None None, s)
  | Connect client id name uid => let '(ret, b, s) := Bp_connect transact client id name uid s in (mk_outcome ret None None None b None, s)
  | ConnectLegacy client id hal name uid =>
      let '(ret, b, s) := Bp_connectLegacy transact client id hal name uid s in (mk_outcome ret None None None b None, s)
  | SetTorchMode id enabled b => only_status (Bp_setTorchMode transact id enabled b s)
  | ConnectDevice cb id name uid => let '(ret, b, s) := Bp_connectDevice transact cb id name uid s in (mk_outcome ret None None None b None, s)
  | AddListener l => only_status (Bp_addListener transact l s)
  | RemoveListener l => only_status (Bp_removeListener transact l s)
  | GetLegacyParameters id given => let '(ret, t, s) := Bp_getLegacyParameters transact id given s in (mk_outcome ret None None None None t, s)
  | SupportsCameraApi id version => only_status (Bp_supportsCameraApi transact id version s)
  | NotifySystemEvent id args => only_status (0, Bp_notifySystemEvent transact id args s)
  end.

(** The call on the service itself. *)
Definition local (c : call) (s : S) : outcome * S :=
  let device (r : Z * option B * S) := let '(ret, b, s) := r in (mk_outcome ret None None None (Some <$> b) None, s) in
  match c with
  | GetNumberOfCameras type => only_status (getNumberOfCameras C type s)
  | GetCameraInfo id => let '(ret, i, s) := getCameraInfo C id s in (mk_outcome ret (Some i) None None None None, s)
  | GetCameraCharacteristics id given =>
      let '(ret, m, s) := getCameraCharacteristics C id s in (mk_outcome ret None (if given then Some m else None) None None None, s)
  | GetCameraVendorTagDescriptor => let '(ret, d, s) := getCameraVendorTagDescriptor C s in (mk_outcome ret None None d None None, s)
  | Connect client id name uid => device (connect C client id name uid s)
  | ConnectLegacy client id hal name uid => device (connectLegacy C client id hal name uid s)
  | SetTorchMode id enabled b => only_status (setTorchMode C id enabled b s)
  | ConnectDevice cb id name uid => device (connectDevice C cb id name uid s)
  | AddListener l => only_status (addListener C l s)
  | RemoveListener l => only_status (removeListener C l s)
  | GetLegacyParameters id given => let '(ret, t, s) := getLegacyParameters C id s in (mk_outcome ret None None None None (Some t), s)
  | SupportsCameraApi id version => only_status (supportsCameraApi C id version s)
  | NotifySystemEvent id args => only_status (0, notifySystemEvent C id args s)
  end.

(** What the caller is told: the two calls that read what they have sent always succeed,
    with nothing. *)
Definition remote_answer (c : call) (o : outcome) : outcome :=
  match c with
  | GetLegacyParameters _ _ => mk_outcome 0 None None None None (Some EmptyString)
  | SupportsCameraApi _ _ => mk_outcome 0 None None None None None
  | _ => o
  end.

(** Arguments a parcel can carry, and a pointer where the proxy insists on one. *)
Definition call_ok (c : call) : Prop :=
  match c with
  | GetNumberOfCameras z | GetCameraInfo z | GetCameraCharacteristics z _ => is_int z
  | GetLegacyParameters z given => is_int z /\ given = true
  | Connect _ id _ uid | ConnectDevice _ id _ uid => is_int id /\ is_int uid
  | ConnectLegacy _ id hal _ uid => is_int id /\ is_int hal /\ is_int uid
  | SupportsCameraApi id version => is_int id /\ is_int version
  | NotifySystemEvent id args => is_int id /\ zlen args <= 512
  | _ => True
  end.

(** The vendor tags a parcel can carry, and a service whose answers are of their types. *)
Context (tags_ok : V -> Prop) (tags_items : V -> list (item B M)).
Definition service_ok : Prop := forall c s, let o := (local c s).1 in
  is_int (status o) /\ (forall i, info o = Some i -> is_int (facing i) /\ is_int (orientation i)) /\
  (forall m, characteristics o = Some m -> forall p : P, (writeMetadata m p).1 = OK) /\ (forall d, tags o = Some d -> tags_ok d).

Context `{!BinderLaws P B M}.
Context (tags_written : forall d, tags_ok d -> writes (write_tags d) (tags_items d)).
Context (tags_read : forall d, tags_ok d -> reads createFromParcel (tags_items d) (OK, Some d)).

Lemma reads_guarded {A} failed (rd : reader A) l a : reads rd l a -> reads (guarded failed rd) (NoException :: l) a.
Proof.
  intros Hr. change (NoException :: l) with ([NoException (B:=B) (M:=M)] ++ l). unfold guarded, exception_in_reply.
  apply (reads_bind _ _ [NoException] l false); [|exact Hr]. rewrite <- (app_nil_r [_]). eapply reads_bind; [apply reads_exception|apply reads_ret].
Qed.

Lemma writes_reply ret : is_int ret -> writes (fun p => writeInt32 ret (writeNoException p)) [NoException; I32 ret].
Proof. intros Hr p. rewrite w_int, w_exception by done. by rewrite <- app_assoc. Qed.

(** A call from the items of its arguments and of its reply. *)
Lemma ask_spec {A} failed (rd : reader A) code w l run f s wr lr (a : A) s' : writes w l -> handler code = Some run -> reads run l f ->
  f s = (NO_ERROR, wr empty_parcel, s') -> writes wr (NoException :: lr) -> reads rd lr a ->
  ask transact failed rd code (w data) s = (a, s').
Proof.
  intros Hw Hh Hr Hf Hwr Hrd. unfold ask, transact. rewrite (call_spec _ _ base code w l run _ s Hw Hh Hr), Hf.
  assert (Hwr' : writes wr ((NoException :: lr) ++ [])) by (by rewrite app_nil_r).
  by rewrite (sent_reads wr (guarded failed rd) (NoException :: lr) [] a Hwr' (reads_guarded failed rd lr a Hrd)).
Qed.

Lemma ask_status code w l run f s : writes w l -> handler code = Some run -> reads run l (on_status f) -> is_int (f s).1 ->
  forall failed, ask transact failed read_int code (w data) s = f s.
Proof.
  intros Hw Hh Hr Hi failed. destruct (f s) as [ret s'] eqn:E.
  eapply (ask_spec failed read_int code w l run _ s (fun p => writeInt32 ret (writeNoException p)) [I32 ret]); [done..| |by apply writes_reply|apply reads_int].
  unfold on_status. by rewrite E.
Qed.

Lemma device_written ret b : is_int ret ->
  writes (fun p => match b with Some b => writeStrongBinder (Some b) (writeInt32 1 (writeInt32 ret (writeNoException p))) | None => writeInt32 0 (writeInt32 ret (writeNoException p)) end)
    (NoException :: [I32 ret] ++ match b with Some b => [I32 1] ++ [Obj (Some b)] | None => [I32 0] end).
Proof. intros Hr p. destruct b; rewrite ?w_binder, !w_int, w_exception by (done || (unfold is_int, INT_MIN, INT_MAX; lia)); by rewrite <- !app_assoc. Qed.
Lemma device_read ret b : reads read_device ([I32 ret] ++ match b with Some b => [I32 1] ++ [Obj (Some b)] | None => [I32 0] end) (ret, Some <$> b).
Proof.
  unfold read_device. eapply reads_bind; [apply reads_int|]. destruct b as [b|].
  - eapply reads_bind; [apply reads_int|]. cbn [negb Z.eqb]. rewrite <- (app_nil_r [_]). eapply reads_bind; [apply reads_binder|apply reads_ret].
  - rewrite <- (app_nil_r [_]). eapply reads_bind; [apply reads_int|apply reads_ret].
Qed.

Lemma ask_device_spec code w l run f s : writes w l -> handler code = Some run -> reads run l (on_device f) -> is_int (f s).1.1 ->
  ask_device transact code (w data) s = (let '(ret, b, s') := f s in (ret, Some <$> b, s')).
Proof.
  intros Hw Hh Hr Hi. unfold ask_device, transact. rewrite (call_spec _ _ base code w l run _ s Hw Hh Hr). unfold on_device.
  destruct (f s) as [[ret b] s']. cbn [fst snd] in Hi. cbn. pose proof (device_written ret b Hi) as Hd.
  pose proof (sent_reads _ (guarded (- EPROTO, None) read_device) _ [] (ret, Some <$> b) ltac:(rewrite app_nil_r; exact Hd) (reads_guarded _ _ _ _ (device_read ret b))) as E.
  unfold device_reply, status_reply. destruct b; by rewrite E.
Qed.

#[local] Ltac small := unfold is_int, INT_MIN, INT_MAX; lia.
(** Reads the arguments of a case one after another. *)
#[local] Ltac read_args :=
  repeat (eapply reads_bind; [first [apply reads_int | apply reads_binder | apply reads_string16]|]); apply reads_ret.

Lemma remote_info id s : service_ok -> is_int id ->
  Bp_getCameraInfo transact id s = let '(ret, i, s') := getCameraInfo C id s in (ret, Some i, s').
Proof.
  intros Hok Hid. destruct (Hok (GetCameraInfo id) s) as (Hi & Hinfo & _). cbn [local] in *. unfold Bp_getCameraInfo.
  destruct (getCameraInfo C id s) as [[ret i] s'] eqn:E. cbn in Hi, Hinfo. destruct (Hinfo i eq_refl) as [Hf Ho].
  eapply (ask_spec _ read_info GET_CAMERA_INFO (writeInt32 id) ([I32 id] ++ []) _ (on_info (getCameraInfo C id)) s
    (fun p => writeInt32 (orientation i) (writeInt32 (facing i) (writeInt32 1 (writeInt32 ret (writeNoException p)))))
    ([I32 ret] ++ [I32 1] ++ [I32 (facing i)] ++ [I32 (orientation i)] ++ [])); [by apply writes_int|reflexivity|read_args|unfold on_info; by rewrite E| |].
  - intros p. rewrite !w_int, w_exception by (done || small). by rewrite <- !app_assoc.
  - unfold read_info. do 2 (eapply reads_bind; [apply reads_int|]). cbn [negb Z.eqb]. destruct i. read_args.
Qed.

Lemma remote_characteristics none id given s : service_ok -> is_int id ->
  Bp_getCameraCharacteristics transact none id given s =
    let '(ret, m, s') := getCameraCharacteristics C id s in (ret, if given then Some m else None, s').
Proof.
  intros Hok Hid. destruct (Hok (GetCameraCharacteristics id true) s) as (Hi & _ & Hm & _). cbn [local] in *. unfold Bp_getCameraCharacteristics.
  destruct (getCameraCharacteristics C id s) as [[ret m] s'] eqn:E. cbn in Hi, Hm. specialize (Hm m eq_refl).
  eapply (ask_spec _ (read_characteristics none given) GET_CAMERA_CHARACTERISTICS (writeInt32 id) ([I32 id] ++ []) _
    (on_characteristics (getCameraCharacteristics C id)) s (fun p => (writeMetadata m (writeInt32 1 (writeInt32 ret (writeNoException p)))).2)
    ([I32 ret] ++ [I32 1] ++ ([Meta m] ++ []) ++ [])); [by apply writes_int|reflexivity|read_args|unfold on_characteristics; by rewrite E| |].
  - intros p. rewrite w_metadata by apply Hm. rewrite !w_int, w_exception by (done || small). by rewrite <- !app_assoc.
  - unfold read_characteristics. do 2 (eapply reads_bind; [apply reads_int|]). cbn [negb Z.eqb].
    eapply reads_bind; [eapply reads_bind; [apply reads_metadata|apply reads_ret]|]. cbn beta iota. cbn [Z.eqb OK]. apply reads_ret.
Qed.

Lemma remote_descriptor s : service_ok ->
  Bp_getCameraVendorTagDescriptor transact s = let '(ret, d, s') := getCameraVendorTagDescriptor C s in (ret, d, s').
Proof.
  intros Hok. destruct (Hok GetCameraVendorTagDescriptor s) as (Hi & _ & _ & Hd). cbn [local] in *. unfold Bp_getCameraVendorTagDescriptor.
  destruct (getCameraVendorTagDescriptor C s) as [[ret d] s'] eqn:E. cbn in Hi, Hd.
  eapply (ask_spec _ read_descriptor GET_CAMERA_VENDOR_TAG_DESCRIPTOR (fun p => p) [] _ (on_descriptor (getCameraVendorTagDescriptor C)) s
    (fun p => match d with None => writeInt32 0 (writeInt32 ret (writeNoException p)) | Some d => write_tags d (writeInt32 1 (writeInt32 ret (writeNoException p))) end)
    ([I32 ret] ++ match d with None => [I32 0] | Some d => [I32 1] ++ tags_items d ++ [] end));
    [apply writes_id|reflexivity|apply reads_ret|unfold on_descriptor; rewrite E; by destruct d| |].
  - intros p. destruct d as [d|]; [rewrite tags_written by by apply Hd|]; rewrite !w_int, w_exception by (done || small); by rewrite ?app_nil_r, <- !app_assoc.
  - unfold read_descriptor. eapply reads_bind; [apply reads_int|]. destruct d as [d|].
    + eapply reads_bind; [apply reads_int|]. cbn [negb Z.eqb]. eapply reads_bind; [by apply tags_read, Hd|]. apply reads_ret.
    + rewrite <- (app_nil_r [_]). eapply reads_bind; [apply reads_int|]. apply reads_ret.
Qed.

(** The parcel that was sent holds nothing to be read by its sender. *)
Lemma data_end : unread (P:=P) (B:=B) (M:=M) data = [].
Proof. unfold token. apply end_token, end_empty. Qed.

Lemma remote_legacy id s : service_ok -> is_int id ->
  Bp_getLegacyParameters transact id true s = (0, Some EmptyString, (getLegacyParameters C id s).2).
Proof.
  intros Hok Hid. destruct (Hok (GetLegacyParameters id true) s) as (Hi & _). cbn [local] in Hi. unfold Bp_getLegacyParameters, transact. cbn [negb].
  erewrite (call_spec _ _ base GET_LEGACY_PARAMETERS (writeInt32 id) ([I32 id] ++ []) _ (on_text (getLegacyParameters C id)) s);
    [|by apply writes_int|reflexivity|read_args].
  unfold on_text. destruct (getLegacyParameters C id s) as [[ret t] s']. cbn [fst snd status] in *.
  assert (Hw : writes (fun p => writeString16 t (writeInt32 1 (writeInt32 ret (writeNoException p)))) ([NoException] ++ [I32 ret; I32 1; S16 t])).
  { intros p. rewrite w_string, !w_int, w_exception by (done || small). by rewrite <- !app_assoc. }
  unfold status_reply. rewrite (sent_reads _ exception_in_reply [NoException] _ false Hw);
    [|unfold exception_in_reply; rewrite <- (app_nil_r [_]); eapply reads_bind; [apply reads_exception|apply reads_ret]].
  pose proof (end_int id data data_end) as H0. destruct (read_unsent _ H0) as [Hr1 H1]. unfold mbind, reader_bind.
  destruct (read_int (writeInt32 id data)) as [v1 p1]. cbn [fst snd] in *. subst v1. destruct (read_unsent _ H1) as [Hr2 H2].
  destruct (read_int p1) as [v2 p2]. cbn [fst snd] in *. subst v2. done.
Qed.

Lemma remote_api id version s : service_ok -> is_int id -> is_int version ->
  Bp_supportsCameraApi transact id version s = (0, (supportsCameraApi C id version s).2).
Proof.
  intros Hok Hid Hv. destruct (Hok (SupportsCameraApi id version) s) as (Hi & _). cbn [local only_status fst status] in Hi. unfold Bp_supportsCameraApi, transact.
  erewrite (call_spec _ _ base SUPPORTS_CAMERA_API (fun p => writeInt32 version (writeInt32 id p)) ([I32 id] ++ [I32 version] ++ []) _
    (on_status (supportsCameraApi C id version)) s);
    [|by apply (writes_then _ _ [I32 id] [I32 version]); apply writes_int|reflexivity|read_args].
  unfold on_status. destruct (supportsCameraApi C id version s) as [ret s']. cbn [fst snd] in *. unfold status_reply.
  rewrite (sent_reads (fun p => writeInt32 ret (writeNoException p)) exception_in_reply [NoException] [I32 ret] false (writes_reply ret Hi));
    [|unfold exception_in_reply; rewrite <- (app_nil_r [_]); eapply reads_bind; [apply reads_exception|apply reads_ret]].
  by rewrite (proj1 (read_unsent _ (end_int version _ (end_int id data data_end)))).
Qed.

Lemma remote_event id args s : is_int id -> zlen args <= 512 -> Bp_notifySystemEvent transact id args s = notifySystemEvent C id args s.
Proof.
  intros Hid Ha. unfold Bp_notifySystemEvent, transact. pose proof (zlen_nonneg args).
  erewrite (call_spec _ _ base NOTIFY_SYSTEM_EVENT (fun p => writeInt32Array args (writeInt32 id p)) ([I32 id] ++ [I32 (zlen args)] ++ [Ints args] ++ []) _
    (fun s => (NO_ERROR, empty_parcel, notifySystemEvent C id args s)) s); [done| |reflexivity|].
  - intros p. rewrite w_array, w_int by (done || unfold INT_MAX; lia). by rewrite app_nil_r, <- !app_assoc.
  - unfold read_event. do 2 (eapply reads_bind; [apply reads_int|]). cbn beta. rewrite (proj2 (Z.ltb_ge (zlen args) 0)), (proj2 (Z.ltb_ge 512 (zlen args))) by lia.
    cbn [orb]. eapply reads_bind; [apply reads_array|]. apply reads_ret.
Qed.

(** C22. The camera service over binder.  For any implementation of [ICameraService] whose
    answers fit their types, each of its thirteen calls made through [BpCameraService] and
    [BnCameraService::onTransact] reaches the implementation with its arguments and leaves
    it in the state the call leaves it in; the caller gets the status, and the
    information, metadata, vendor tags or connection that came with it.  Two calls do not
    answer: [getLegacyParameters] gives empty parameters and [supportsCameraApi] gives
    [OK] for every camera and every version, whatever the service said, because the proxy
    reads the parcel it has sent. *)
Theorem service_remote_is_local none c s : service_ok -> call_ok c ->
  remote none c s = let '(o, s') := local c s in (remote_answer c o, s').
Proof.
  intros Hok Hc. pose proof (Hok c s) as (Hi & _).
  destruct c as [type|id|id given| |client id name uid|client id hal name uid|id enabled b|cb id name uid|l|l|id given|id version|id args];
    cbn [remote local remote_answer call_ok] in *; try (cbn [only_status fst status] in Hi).
  - unfold Bp_getNumberOfCameras. by erewrite (ask_status _ (writeInt32 type) ([I32 type] ++ []) _ (getNumberOfCameras C type));
      [|by apply writes_int|reflexivity|read_args|].
  - rewrite remote_info by done. by destruct (getCameraInfo C id s) as [[??]?].
  - rewrite remote_characteristics by done. by destruct (getCameraCharacteristics C id s) as [[??]?].
  - rewrite remote_descriptor by done. by destruct (getCameraVendorTagDescriptor C s) as [[??]?].
  - destruct Hc. unfold Bp_connect. erewrite (ask_device_spec _ (fun p => writeInt32 uid (writeString16 name (writeInt32 id (writeStrongBinder client p))))
      ([Obj client] ++ [I32 id] ++ [S16 name] ++ [I32 uid] ++ []) _ (connect C client id name uid)); [| |reflexivity|read_args|].
    + by destruct (connect C client id name uid s) as [[??]?].
    + intros p. rewrite w_int, w_string, w_int, w_binder by done. by rewrite <- !app_assoc.
    + by destruct (connect C client id name uid s) as [[??]?].
  - destruct Hc as (? & ? & ?). unfold Bp_connectLegacy.
    erewrite (ask_device_spec _ (fun p => writeInt32 uid (writeString16 name (writeInt32 hal (writeInt32 id (writeStrongBinder client p)))))
      ([Obj client] ++ [I32 id] ++ [I32 hal] ++ [S16 name] ++ [I32 uid] ++ []) _ (connectLegacy C client id hal name uid)); [| |reflexivity|read_args|].
    + by destruct (connectLegacy C client id hal name uid s) as [[??]?].
    + intros p. rewrite w_int, w_string, !w_int, w_binder by done. by rewrite <- !app_assoc.
    + by destruct (connectLegacy C client id hal name uid s) as [[??]?].
  - unfold Bp_setTorchMode. erewrite (ask_status _ (fun p => writeStrongBinder b (writeInt32 (if enabled then 1 else 0) (writeString16 id p)))
      ([S16 id] ++ [I32 (if enabled then 1 else 0)] ++ [Obj b] ++ []) _ (setTorchMode C id enabled b)); [done| |reflexivity| |done].
    + intros p. rewrite w_binder, w_int, w_string by (destruct enabled; small). by rewrite <- !app_assoc.
    + destruct enabled; read_args.
  - destruct Hc. unfold Bp_connectDevice. erewrite (ask_device_spec _ (fun p => writeInt32 uid (writeString16 name (writeInt32 id (writeStrongBinder cb p))))
      ([Obj cb] ++ [I32 id] ++ [S16 name] ++ [I32 uid] ++ []) _ (connectDevice C cb id name uid)); [| |reflexivity|read_args|].
    + by destruct (connectDevice C cb id name uid s) as [[??]?].
    + intros p. rewrite w_int, w_string, w_int, w_binder by done. by rewrite <- !app_assoc.
    + by destruct (connectDevice C cb id name uid s) as [[??]?].
  - unfold Bp_addListener. by erewrite (ask_status _ (writeStrongBinder l) ([Obj l] ++ []) _ (addListener C l)); [|by apply writes_binder|reflexivity|read_args|].
  - unfold Bp_removeListener. by erewrite (ask_status _ (writeStrongBinder l) ([Obj l] ++ []) _ (removeListener C l)); [|by apply writes_binder|reflexivity|read_args|].
  - destruct Hc as [Hid ->]. rewrite remote_legacy by done. by destruct (getLegacyParameters C id s) as [[??]?].
  - destruct Hc. rewrite remote_api by done. by destruct (supportsCameraApi C id version s).
  - destruct Hc. by rewrite remote_event.
Qed.
End service_stub.
End service.

(** ** [CameraUtils::getRotationTransform] *)

(** What the function can do: answer a status, with the transform it has stored, or read
    through a null pointer. *)
Inductive rotation_result := Answers (status transform : Z) | ReadsNull.

Section rotation.
(** The platform's transforms, and the metadata's value for a front camera. *)
Context (FLIP_H ROT_90 ROT_180 ROT_270 INVERSE_DISPLAY ANDROID_LENS_FACING_FRONT : Z).

(** The rotation for an orientation, as it is for a camera at the back and mirrored. *)
Definition rotation_flags (mirror : bool) (orientation : Z) : option Z :=
  if negb mirror then
    if orientation =? 0 then Some 0
    else if orientation =? 90 then Some ROT_90
    else if orientation =? 180 then Some ROT_180
    else if orientation =? 270 then Some ROT_270
    else None
  else
    if orientation =? 0 then Some FLIP_H
    else if orientation =? 90 then Some (Z.lxor FLIP_H ROT_270)
    else if orientation =? 180 then Some (Z.lxor FLIP_H ROT_180)
    else if orientation =? 270 then Some (Z.lxor FLIP_H ROT_90)
    else None.

(** The entries of the static metadata: the orientation and where the lens looks.  The
    second check looks at the first entry again. *)
Definition getRotationTransform (given : bool) (entry entryFacing : list Z) : rotation_result :=
  if negb given then Answers BAD_VALUE 0
  else
    match entry with
    | [] => Answers INVALID_OPERATION 0
    | orientation :: _ =>
        match entryFacing with
        | [] => ReadsNull
        | f :: _ =>
            match rotation_flags (f =? ANDROID_LENS_FACING_FRONT) orientation with
            | None => Answers INVALID_OPERATION 0
            | Some flags => Answers OK (Z.lor flags INVERSE_DISPLAY)
            end
        end
    end.

(** With both entries the function answers, and it succeeds exactly for the four
    orientations; without the facing it reads through the null pointer of the entry it has
    not checked. *)
Theorem rotation_transform_cases o r f :
  getRotationTransform true (o :: r) [] = ReadsNull /\
  (forall f', exists st t, getRotationTransform true (o :: r) (f' :: f) = Answers st t /\ (st = OK <-> o = 0 \/ o = 90 \/ o = 180 \/ o = 270)).
Proof.
  split; [done|]. intros f'. cbn [getRotationTransform negb]. unfold rotation_flags.
  destruct (f' =? _); cbn [negb]; destruct (Z.eqb_spec o 0), (Z.eqb_spec o 90), (Z.eqb_spec o 180), (Z.eqb_spec o 270);
    eexists _, _; (split; [reflexivity|]); unfold OK, INVALID_OPERATION; lia.
Qed.
End rotation.

(** ** A concrete service *)

(** A service with two cameras that supports only the first interface version, over
    parcels that are lists of items; the vendor tags are a number. *)
Definition sample_service : ICameraService Z Z Z (list Z) := mk_service
  (fun type s => (2 - type `mod` 2, s))
  (fun id s => (if id =? 0 then OK else BAD_VALUE, mk_info 0 90, s))
  (fun id s => (OK, 42, s))
  (fun s => (OK, None, s))
  (fun client id name uid s => (if id =? 0 then (OK, Some 7, 1 :: s) else (BAD_VALUE, None, s)))
  (fun client id hal name uid s => (BAD_VALUE, None, s))
  (fun id enabled b s => (OK, bit enabled :: s))
  (fun cb id name uid s => (OK, Some 8, 2 :: s))
  (fun l s => (OK, s))
  (fun l s => (BAD_VALUE, s))
  (fun id s => (OK, "preview-size=640x480"%string, s))
  (fun id version s => (if version =? 1 then OK else -95, s))
  (fun id args s => 3 :: s).

Definition sample_write_tags (v : Z) := writeInt32 (P:=list (item Z Z) * list (item Z Z)) v.
Definition sample_read_tags : reader (P:=list (item Z Z) * list (item Z Z)) (Z * option Z) := '(st, v) ← readInt32; mret (st, Some v).

Lemma sample_service_ok : service_ok (P:=list (item Z Z) * list (item Z Z)) sample_service is_int.
Proof.
  intros c s. unfold is_int, INT_MIN, INT_MAX. cbn [written writeMetadata list_parcel].
  destruct c as [type| | | | | | | | | | | |]; cbn; repeat (case_match; cbn); simplify_eq; unfold OK, BAD_VALUE;
    try (pose proof (Z.mod_pos_bound type 2 ltac:(lia))); (split; [lia|split; [intros; simplify_eq; cbn; lia|split; intros; by simplify_eq]]).
Qed.

Lemma sample_tags_written d : is_int d -> writes (M:=Z) (B:=Z) (sample_write_tags d) [I32 d].
Proof. intros Hd. by apply writes_int. Qed.
Lemma sample_tags_read d : is_int d -> reads (M:=Z) (B:=Z) sample_read_tags [I32 d] (OK, Some d).
Proof. intros Hd. unfold sample_read_tags. rewrite <- (app_nil_r [_]). eapply reads_bind; [apply reads_int_status|apply reads_ret]. Qed.

(** The second interface is not supported by the service, and the caller is told it is. *)
Lemma service_remote_is_local_witness :
  remote sample_write_tags sample_read_tags sample_service (fun _ p s => (0, p, s)) 0 (SupportsCameraApi 0 2) [] =
    let '(o, s') := local sample_service (SupportsCameraApi 0 2) [] in (remote_answer (SupportsCameraApi 0 2) o, s').
Proof.
  apply (service_remote_is_local sample_write_tags sample_read_tags sample_service (fun _ p s => (0, p, s)) is_int (fun d => [I32 d])
    sample_tags_written sample_tags_read 0 (SupportsCameraApi 0 2) [] sample_service_ok).
  split; unfold is_int, INT_MIN, INT_MAX; lia.
Defined.

Example api_wrongly_supported :
  (local sample_service (SupportsCameraApi 0 2) []).1.(status) = -95 /\
  (remote sample_write_tags sample_read_tags sample_service (fun _ p s => (0, p, s)) 0 (SupportsCameraApi 0 2) []).1.(status) = OK.
Proof. split; reflexivity. Qed.
Example parameters_lost :
  (local sample_service (GetLegacyParameters 0 true) []).1.(text) = Some "preview-size=640x480"%string /\
  (remote sample_write_tags sample_read_tags sample_service (fun _ p s => (0, p, s)) 0 (GetLegacyParameters 0 true) []).1.(text) = Some EmptyString.
Proof. split; reflexivity. Qed.
(** An event with more than 512 arguments is dropped. *)
Example long_event_dropped :
  remote sample_write_tags sample_read_tags sample_service (fun _ p s => (0, p, s)) 0 (NotifySystemEvent 1 (replicate 513 0)) [] =
    (mk_outcome 0 None None None None None, []).
Proof. vm_compute. reflexivity. Qed.
