(* ===== verification/CameraObject.v ===== *)
(** * The camera an application holds (libmocha/camera/CameraBase.cpp, Camera.cpp)

    [CameraBase] looks up the camera service, keeps it until it dies, and connects;
    [Camera] forwards calls to the camera it is connected to and hands what comes back to
    its listeners; [RecordingProxy] lets a recorder use the camera of an application.

    Binder objects have the type [B]; what they do when called, over a world [W], are the
    interfaces of [CameraProxy], [CameraService] and [CameraClient].  [linkToDeath] and
    [unlinkToDeath] belong to the binder library: they are functions on its state [D] that
    answer a status, which the code never looks at, and may fail.

    [connected_is_watched]: an object is never told of another death than that of the
    camera it holds, nor twice; it is told of that one if [linkToDeath] did not fail.
    [unnoticed_death] shows the other case.  [frames_routed]: each recording frame that arrives
    goes to one place: the recorder while one records, else the listener, else back. *)

From S2P Require Import Prelude Binder CameraClient CameraProxy CameraService.

(** ** Listeners and objects *)

Record CameraListener (B W : Type) := mk_listener {
  notify : Z -> Z -> Z -> W -> W;
  postData : Z -> option B -> option camera_frame_metadata -> W -> W;
  postDataTimestamp : Z -> Z -> option B -> W -> W;
}.
Arguments mk_listener {B W}.
Arguments notify {B W}.
Arguments postData {B W}.
Arguments postDataTimestamp {B W}.

Record Camera (B W : Type) := mk_Camera {
  mCameraId : Z;
  mStatus : Z;
  mCamera : option B;
  mListener : option (CameraListener B W);
  mRecordingProxyListener : option (ICameraRecordingProxyListener B W);
}.
Arguments mk_Camera {B W}.
Arguments mCameraId {B W}.
Arguments mStatus {B W}.
Arguments mCamera {B W}.
Arguments mListener {B W}.
Arguments mRecordingProxyListener {B W}.

(** Who is told of a death: the process's notifier, or a camera object. *)
Inductive recipient {B : Type} := Notifier | Client (me : B).
Arguments recipient : clear implicits.
#[export] Instance recipient_eq_dec {B} `{EqDecision B} : EqDecision (recipient B).
Proof. solve_decision. Defined.

(** The globals of [CameraBase.cpp]; what objects act on, and the state of the binder
    library. *)
Record process (B W D : Type) := mk_process {
  gCameraService : option B;
  gDeathNotifier : bool;
  world : W;
  driver : D;
}.
Arguments mk_process {B W D}.
Arguments gCameraService {B W D}.
Arguments gDeathNotifier {B W D}.
Arguments world {B W D}.
Arguments driver {B W D}.

Section object.
Context {B M V W D : Type} `{EqDecision B}.
(** What objects do; the service manager and the wait between two lookups. *)
Context (camera_of : B -> ICamera B W) (service_of : B -> ICameraService B M V W).
Context (getService : W -> option B * W) (usleep : W -> W).
(** Asking to be told of a death, and taking that back; each answers a status. *)
Context (linkToDeath unlinkToDeath : B -> recipient B -> D -> Z * D).
(** The messages of the platform's camera interface. *)
Context (CAMERA_MSG_ERROR CAMERA_ERROR_SERVER_DIED : Z).

#[local] Abbreviation Camera := (Camera B W).
#[local] Abbreviation process := (process B W D).
#[local] Abbreviation recipient := (recipient B).

Definition with_world (w : W) (p : process) : process := mk_process (gCameraService p) (gDeathNotifier p) w (driver p).
Definition with_driver (d : D) (p : process) : process := mk_process (gCameraService p) (gDeathNotifier p) (world p) d.

(** The status is ignored at every call. *)
Definition watch (b : B) (r : recipient) (p : process) : process := with_driver (linkToDeath b r (driver p)).2 p.
Definition unwatch (b : B) (r : recipient) (p : process) : process := with_driver (unlinkToDeath b r (driver p)).2 p.

(** ** [CameraBase] *)

(** [DeathNotifier::binderDied]. *)
Definition service_binderDied (p : process) : process := mk_process None (gDeathNotifier p) (world p) (driver p).

(** Looks until the service is published. *)
Fixpoint poll_service (fuel : nat) (w : W) : option (B * W) :=
  match fuel with
  | O => None
  | S fuel => let '(binder, w) := getService w in match binder with Some b => Some (b, w) | None => poll_service fuel (usleep w) end
  end.
Definition getCameraService (fuel : nat) (p : process) : option (B * process) :=
  match gCameraService p with
  | Some b => Some (b, p)
  | None =>
      match poll_service fuel (world p) with
      | None => None
      | Some (b, w) => let p := watch b Notifier (mk_process (gCameraService p) true w (driver p)) in
                       Some (b, mk_process (Some b) true (world p) (driver p))
      end
  end.

Definition new_Camera (cameraId : Z) : Camera := mk_Camera cameraId UNKNOWN_ERROR None None None.
Definition set_camera (status : Z) (b : option B) (c : Camera) : Camera := mk_Camera (mCameraId c) status b (mListener c) (mRecordingProxyListener c).

(** The object [me] is made and connects; it is dropped unless it got a camera. *)
Definition connect (fuel : nat) (me : B) (cameraId : Z) (clientPackageName : string) (clientUid : Z) (p : process) : option (option Camera * process) :=
  let c := new_Camera cameraId in
  match getCameraService fuel p with
  | None => None
  | Some (cs, p) =>
      let '(status, camera, w) := CameraService.connect (service_of cs) (Some me) cameraId clientPackageName clientUid (world p) in
      let p := with_world w p in
      match camera with
      | Some b => if status =? OK then Some (Some (set_camera NO_ERROR (Some b) c), watch b (Client me) p) else Some (None, p)
      | None => Some (None, p)
      end
  end.

Definition disconnect (me : B) (c : Camera) (p : process) : Camera * process :=
  match mCamera c with
  | Some b =>
      let p := with_world (c_disconnect (camera_of b) (world p)) p in
      (set_camera (mStatus c) None c, unwatch b (Client me) p)
  | None => (c, p)
  end.

Definition remote (c : Camera) : option B := mCamera c.
Definition getStatus (c : Camera) : Z := mStatus c.
Definition setListener (l : option (CameraListener B W)) (c : Camera) : Camera :=
  mk_Camera (mCameraId c) (mStatus c) (mCamera c) l (mRecordingProxyListener c).
Definition notifyCallback (msgType ext1 ext2 : Z) (c : Camera) (w : W) : W :=
  match mListener c with Some l => notify l msgType ext1 ext2 w | None => w end.
Definition binderDied (c : Camera) (w : W) : W := notifyCallback CAMERA_MSG_ERROR CAMERA_ERROR_SERVER_DIED 0 c w.

(** The static calls ask the service. *)
Definition ask_service {A} (fuel : nat) (f : ICameraService B M V W -> W -> A * W) (p : process) : option (A * process) :=
  match getCameraService fuel p with
  | None => None
  | Some (cs, p) => let '(a, w) := f (service_of cs) (world p) in Some (a, with_world w p)
  end.
Definition getNumberOfCameras fuel := ask_service fuel (fun cs => CameraService.getNumberOfCameras cs CAMERA_TYPE_BACKWARD_COMPATIBLE).
Definition getCameraInfo fuel (cameraId : Z) := ask_service fuel (fun cs => CameraService.getCameraInfo cs cameraId).
Definition addServiceListener fuel (listener : option B) := ask_service fuel (fun cs => addListener cs listener).
Definition removeServiceListener fuel (listener : option B) := ask_service fuel (fun cs => removeListener cs listener).

(** ** [Camera] *)

(** An object for a camera that exists already. *)
Definition create (me : B) (camera : option B) (p : process) : option Camera * process :=
  match camera with
  | None => (None, p)
  | Some b =>
      let '(status, w) := c_connect (camera_of b) (Some me) (world p) in
      let p := with_world w p in
      if status =? NO_ERROR then (Some (set_camera NO_ERROR (Some b) (new_Camera (-1))), watch b (Client me) p) else (None, p)
  end.
Definition connectLegacy (fuel : nat) (me : B) (cameraId halVersion : Z) (clientPackageName : string) (clientUid : Z) (p : process)
  : option (Z * option Camera * process) :=
  match getCameraService fuel p with
  | None => None
  | Some (cs, p) =>
      let '(status, camera, w) := CameraService.connectLegacy (service_of cs) (Some me) cameraId halVersion clientPackageName clientUid (world p) in
      let p := with_world w p in
      match camera with
      | Some b =>
          if status =? OK then Some (status, Some (set_camera NO_ERROR (Some b) (new_Camera cameraId)), watch b (Client me) p)
          else Some (status, None, p)
      | None => Some (status, None, p)
      end
  end.

(** Calls go to the camera if there is one. *)
Definition forward {A} (none : A) (f : ICamera B W -> W -> A * W) (c : Camera) (w : W) : A * W :=
  match mCamera c with Some b => f (camera_of b) w | None => (none, w) end.
Definition forward_void (f : ICamera B W -> W -> W) (c : Camera) (w : W) : W :=
  match mCamera c with Some b => f (camera_of b) w | None => w end.

Definition reconnect (me : B) : Camera -> W -> Z * W := forward NO_INIT (fun k => c_connect k (Some me)).
Definition lock : Camera -> W -> Z * W := forward NO_INIT c_lock.
Definition unlock : Camera -> W -> Z * W := forward NO_INIT c_unlock.
Definition setPreviewTarget (bufferProducer : option B) : Camera -> W -> Z * W := forward NO_INIT (fun k => c_setPreviewTarget k bufferProducer).
Definition startPreview : Camera -> W -> Z * W := forward NO_INIT c_startPreview.
Definition storeMetaDataInBuffers (enabled : bool) : Camera -> W -> Z * W := forward NO_INIT (fun k => c_storeMetaDataInBuffers k enabled).
Definition startRecording : Camera -> W -> Z * W := forward NO_INIT c_startRecording.
Definition stopPreview : Camera -> W -> W := forward_void c_stopPreview.
Definition setRecordingProxyListener (l : option (ICameraRecordingProxyListener B W)) (c : Camera) : Camera :=
  mk_Camera (mCameraId c) (mStatus c) (mCamera c) (mListener c) l.
Definition stopRecording (c : Camera) (w : W) : Camera * W :=
  let c := setRecordingProxyListener None c in (c, forward_void c_stopRecording c w).
Definition releaseRecordingFrame (mem : option B) : Camera -> W -> W := forward_void (fun k => c_releaseRecordingFrame k mem).
Definition previewEnabled : Camera -> W -> bool * W := forward false c_previewEnabled.
Definition recordingEnabled : Camera -> W -> bool * W := forward false c_recordingEnabled.
Definition autoFocus : Camera -> W -> Z * W := forward NO_INIT c_autoFocus.
Definition cancelAutoFocus : Camera -> W -> Z * W := forward NO_INIT c_cancelAutoFocus.
Definition takePicture (msgType : Z) : Camera -> W -> Z * W := forward NO_INIT (fun k => c_takePicture k msgType).
Definition setParameters (params : string) : Camera -> W -> Z * W := forward NO_INIT (fun k => c_setParameters k params).
Definition getParameters : Camera -> W -> string * W := forward EmptyString c_getParameters.
Definition sendCommand (cmd arg1 arg2 : Z) : Camera -> W -> Z * W := forward NO_INIT (fun k => c_sendCommand k cmd arg1 arg2).
Definition setPreviewCallbackFlags (flag : Z) : Camera -> W -> W := forward_void (fun k => c_setPreviewCallbackFlag k flag).
Definition setPreviewCallbackTarget (callbackProducer : option B) : Camera -> W -> Z * W :=
  forward NO_INIT (fun k => c_setPreviewCallbackTarget k callbackProducer).

Definition dataCallback (msgType : Z) (dataPtr : option B) (metadata : option camera_frame_metadata) (c : Camera) (w : W) : W :=
  match mListener c with Some l => postData l msgType dataPtr metadata w | None => w end.
Definition dataCallbackTimestamp (timestamp msgType : Z) (dataPtr : option B) (c : Camera) (w : W) : W :=
  match mRecordingProxyListener c with
  | Some r => recordingFrame r timestamp msgType dataPtr w
  | None => match mListener c with
            | Some l => postDataTimestamp l timestamp msgType dataPtr w
            | None => releaseRecordingFrame dataPtr c w
            end
  end.

(** *** [Camera::RecordingProxy] *)

(** The status of [reconnect] is not looked at. *)
Definition proxy_startRecording (me : B) (listener : option (ICameraRecordingProxyListener B W)) (c : Camera) (w : W) : Z * Camera * W :=
  let c := setRecordingProxyListener listener c in
  let '(_, w) := reconnect me c w in
  let '(status, w) := startRecording c w in
  (status, c, w).
Definition proxy_stopRecording : Camera -> W -> Camera * W := stopRecording.
Definition proxy_releaseRecordingFrame : option B -> Camera -> W -> W := releaseRecordingFrame.

(** ** Looking the service up *)

(** The service is there at the lookup after [n] failed ones. *)
Inductive appears : nat -> W -> B -> W -> Prop :=
| appears_now w b w' : getService w = (Some b, w') -> appears 0 w b w'
| appears_later n w w1 b w' : getService w = (None, w1) -> appears n (usleep w1) b w' -> appears (S n) w b w'.

(** The loop ends exactly when the service appears, with what was found. *)
Lemma poll_service_spec fuel w b w' : poll_service fuel w = Some (b, w') <-> exists n, (n < fuel)%nat /\ appears n w b w'.
Proof.
  revert w. induction fuel as [|fuel IH]; intros w; cbn [poll_service]; [split; [done|intros (n & ? & _); lia]|].
  destruct (getService w) as [[b1|] w1] eqn:E; split.
  - intros [= -> ->]. exists O. split; [lia|]. by constructor.
  - intros (n & _ & Ha). inversion Ha; congruence.
  - intros Hp. apply IH in Hp as (n & Hn & Ha). exists (S n). split; [lia|]. by econstructor.
  - intros (n & Hn & Ha). inversion Ha as [|n1 ? w2 ? ? E1 Ha1]; subst; [congruence|]. assert (w2 = w1) as -> by congruence. apply IH. exists n1. split; [lia|done].
Qed.

(** ** Who is told of a death *)

(** The first of the links is removed. *)
Fixpoint remove_link (k : B * recipient) (l : list (B * recipient)) : list (B * recipient) :=
  match l with [] => [] | x :: l => if decide (x = k) then l else x :: remove_link k l end.

Section deaths.
(** What the binder library documents of its state: the links in place, and what becomes
    of them when an object dies.  A call that fails has registered nothing. *)
Context (links : D -> list (B * recipient)) (obituary : B -> D -> D).
Context (link_registered : forall b r d,
  links (linkToDeath b r d).2 = if (linkToDeath b r d).1 =? NO_ERROR then links d ++ [(b, r)] else links d).
Context (unlink_removed : forall b r d, links (unlinkToDeath b r d).2 = remove_link (b, r) (links d)).
Context (obituary_sent : forall b d, links (obituary b d) = filter (fun k => k.1 <> b) (links d)).

(** The service that is used is watched, where [linkToDeath] does not fail. *)
Definition service_watched (p : process) : Prop :=
  forall b, gCameraService p = Some b -> gDeathNotifier p = true /\ (b, Notifier) ∈ links (driver p).

Lemma getCameraService_watched fuel p b p' : (forall d, (linkToDeath b Notifier d).1 = NO_ERROR) ->
  service_watched p -> getCameraService fuel p = Some (b, p') -> service_watched p' /\ gCameraService p' = Some b.
Proof.
  intros Hl Hs. unfold getCameraService. destruct (gCameraService p) as [b1|] eqn:E; [by intros [= -> <-]|].
  destruct (poll_service fuel (world p)) as [[b1 w]|]; [|done]. intros [= -> <-]. split; [|done].
  intros b2 [= <-]. split; [done|]. cbn. rewrite link_registered, Hl. cbn. set_solver.
Qed.

(** When it is forgotten, the next call looks it up again. *)
Lemma looked_up_again fuel p : getCameraService fuel (service_binderDied p) =
  match poll_service fuel (world p) with
  | Some (b, w) => Some (b, mk_process (Some b) true w (linkToDeath b Notifier (driver p)).2)
  | None => None
  end.
Proof. done. Qed.

(** *** The links of an object *)

Definition own (me : B) (l : list (B * recipient)) : list (B * recipient) := filter (fun k => k.2 = Client me) l.
(** The link an object with this camera ought to have. *)
Definition held (me : B) (c : option Camera) : list (B * recipient) :=
  match c ≫= mCamera with Some b => [(b, Client me)] | None => [] end.
(** It has that link or none. *)
Definition watched (me : B) (c : option Camera) (p : process) : Prop :=
  own me (links (driver p)) `sublist_of` held me c.

Lemma own_app me l k : own me (l ++ k) = own me l ++ own me k.
Proof. apply filter_app. Qed.
Lemma own_client me b : own me [(b, Client me)] = [(b, Client me)].
Proof. unfold own. by rewrite filter_cons_True. Qed.
Lemma own_other me b r : r <> Client me -> own me [(b, r)] = [].
Proof. intros Hr. unfold own. by rewrite filter_cons_False. Qed.
Lemma own_remove me b l : own me (remove_link (b, Client me) l) = remove_link (b, Client me) (own me l).
Proof.
  induction l as [|x l IH]; [done|]. cbn [remove_link]. unfold own in *. destruct (decide (x = (b, Client me))) as [->|Hne].
  - rewrite filter_cons_True by done. cbn [remove_link]. by rewrite decide_True.
  - destruct (decide (x.2 = Client me)) as [Hx|Hx].
    + rewrite !filter_cons_True by done. cbn [remove_link]. by rewrite decide_False, IH.
    + by rewrite !filter_cons_False.
Qed.
Lemma own_dies me b l : own me (filter (fun k => k.1 <> b) l) = filter (fun k => k.1 <> b) (own me l).
Proof. unfold own. rewrite !list_filter_filter. apply list_filter_iff. tauto. Qed.

Lemma link_own me b r d : own me (links (linkToDeath b r d).2) =
  if decide (r = Client me) then (if (linkToDeath b r d).1 =? NO_ERROR then own me (links d) ++ [(b, r)] else own me (links d))
  else own me (links d).
Proof.
  rewrite link_registered. case_decide as Hr; [subst r|]; destruct (_ =? NO_ERROR); rewrite ?own_app, ?own_client, ?own_other, ?app_nil_r by done; done.
Qed.

Lemma own_service me fuel p cs p' : getCameraService fuel p = Some (cs, p') -> own me (links (driver p')) = own me (links (driver p)).
Proof.
  unfold getCameraService. destruct (gCameraService p); [by intros [= -> <-]|]. destruct (poll_service fuel (world p)) as [[b w]|]; [|done].
  intros [= -> <-]. cbn. rewrite link_own. by rewrite decide_False.
Qed.

(** What a link at the birth of an object leaves. *)
Lemma link_watched me b status c p : own me (links (driver p)) = [] ->
  watched me (Some (set_camera status (Some b) c)) (watch b (Client me) p) /\
  ((linkToDeath b (Client me) (driver p)).1 = NO_ERROR ->
   own me (links (driver (watch b (Client me) p))) = held me (Some (set_camera status (Some b) c))).
Proof.
  intros Hp. unfold watched. cbn [watch with_driver driver]. rewrite link_own, decide_True, Hp by done. cbn. destruct (Z.eqb_spec (linkToDeath b (Client me) (driver p)).1 NO_ERROR).
  - done.
  - split; [apply sublist_nil_l|done].
Qed.

(** How an object can come to be, and what happens to it afterwards: calls and callbacks
    that change the world, its listeners, its disconnection, what others link, and the
    death of objects, of which everyone linked to them is told. *)
Inductive birth :=
| Connected (fuel : nat) (cameraId : Z) (name : string) (uid : Z)
| ConnectedLegacy (fuel : nat) (cameraId halVersion : Z) (name : string) (uid : Z)
| Created (camera : option B).

Definition born (me : B) (b : birth) (p : process) : option (option Camera * process) :=
  match b with
  | Connected fuel id name uid => connect fuel me id name uid p
  | ConnectedLegacy fuel id hal name uid => '(_, c, p) ← connectLegacy fuel me id hal name uid p; mret (c, p)
  | Created camera => Some (create me camera p)
  end.

Inductive event :=
| Calls (f : Camera -> W -> W)
| Listens (l : option (CameraListener B W))
| RecorderStarts (l : option (ICameraRecordingProxyListener B W))
| RecorderStops
| Disconnects
| OthersLink (b : B) (r : recipient)
| Dies (b : B)
| LooksUp (fuel : nat).

(** How often an object is told of a death. *)
Definition times (me b : B) (d : D) : nat := length (filter (fun k => k = (b, Client me)) (links d)).

(** An object dies: the process and the object are told, as they are linked to it. *)
Definition dies (me b : B) (c : option Camera) (p : process) : process :=
  let told := driver p in
  let p := with_driver (obituary b told) p in
  let p := if decide ((b, Notifier) ∈ links told) then service_binderDied p else p in
  match c with Some c => with_world (Nat.iter (times me b told) (binderDied c) (world p)) p | None => p end.

Definition happens (me : B) (cp : option Camera * process) (e : event) : option Camera * process :=
  let '(oc, p) := cp in
  match e, oc with
  | Calls f, Some c => (Some c, with_world (f c (world p)) p)
  | Listens l, Some c => (Some (setListener l c), p)
  | RecorderStarts l, Some c => let '(_, c, w) := proxy_startRecording me l c (world p) in (Some c, with_world w p)
  | RecorderStops, Some c => let '(c, w) := proxy_stopRecording c (world p) in (Some c, with_world w p)
  | Disconnects, Some c => let '(c, p) := disconnect me c p in (Some c, p)
  | OthersLink b r, oc => (oc, if decide (r = Client me) then p else watch b r p)
  | Dies b, oc => (oc, dies me b oc p)
  | LooksUp fuel, oc => (oc, match getCameraService fuel p with Some (_, p) => p | None => p end)
  | _, None => (None, p)
  end.

(** Every way to make an object ends with no camera and no link, or with a link. *)
Lemma born_cases me b p c p' : own me (links (driver p)) = [] -> born me b p = Some (c, p') ->
  (c = None /\ own me (links (driver p')) = []) \/
  exists d k q, c = Some (set_camera NO_ERROR (Some d) k) /\ p' = watch d (Client me) q /\ own me (links (driver q)) = [].
Proof.
  intros Hp. destruct b as [fuel id name uid|fuel id hal name uid|camera]; cbn [born].
  - unfold connect. destruct (getCameraService fuel p) as [[cs p1]|] eqn:E; [|done]. apply (own_service me) in E. rewrite Hp in E.
    destruct (CameraService.connect _ _ _ _ _ _) as [[st dev] w]. destruct dev as [d|]; [|intros [= <- <-]; by left].
    destruct (st =? OK); intros [= <- <-]; [right; by eauto 10|by left].
  - unfold connectLegacy. destruct (getCameraService fuel p) as [[cs p1]|] eqn:E; [|done]. apply (own_service me) in E. rewrite Hp in E.
    destruct (CameraService.connectLegacy _ _ _ _ _ _ _) as [[st dev] w]. destruct dev as [d|]; [|intros [= <- <-]; by left].
    destruct (st =? OK); intros [= <- <-]; [right; by eauto 10|by left].
  - intros [= Hc]. unfold create in Hc. destruct camera as [d|]; [|simplify_eq; by left].
    destruct (c_connect _ _ _) as [st w]. destruct (st =? NO_ERROR); simplify_eq; [right; by eauto 10|by left].
Qed.

Lemma disconnect_own me c p : watched me (Some c) p ->
  mCamera (disconnect me c p).1 = None /\ own me (links (driver (disconnect me c p).2)) = [].
Proof.
  unfold watched, held, disconnect. cbn [mbind option_bind]. destruct (mCamera c) as [b|] eqn:E.
  - intros Hw. cbn. rewrite unlink_removed, own_remove. split; [done|].
    apply sublist_cons_r in Hw as [Hw|(l & -> & Hw)]; apply sublist_nil_r in Hw; [by rewrite Hw|]. subst l. cbn. by rewrite decide_True.
  - intros Hw. split; [done|]. by apply sublist_nil_r.
Qed.

Lemma dies_own me b c p : own me (links (driver (dies me b c p))) = filter (fun k => k.1 <> b) (own me (links (driver p))).
Proof. unfold dies. rewrite <- own_dies, <- obituary_sent. destruct c; case_decide; done. Qed.

(** The camera an object holds changes only when it disconnects. *)
Lemma happens_camera me c p e : match e with Disconnects => False | _ => True end -> held me (happens me (c, p) e).1 = held me c.
Proof.
  destruct c as [c|], e; cbn [happens]; try done. intros _.
  unfold proxy_startRecording. destruct (reconnect _ _ _) as [? w1], (startRecording _ _) as [? w2]. done.
Qed.

Lemma happens_own me c p e : match e with Disconnects | Dies _ => False | _ => True end ->
  own me (links (driver (happens me (c, p) e).2)) = own me (links (driver p)).
Proof.
  destruct c as [c|], e as [f|l|l| | |b r|b|fuel]; cbn [happens]; try done; intros _.
  - unfold proxy_startRecording. destruct (reconnect _ _ _) as [? w1], (startRecording _ _) as [? w2]. done.
  - case_decide as Hr; [done|]. cbn. rewrite link_own. by rewrite decide_False.
  - destruct (getCameraService fuel p) as [[b p']|] eqn:E; [|done]. exact (own_service me fuel p b p' E).
  - case_decide as Hr; [done|]. cbn. rewrite link_own. by rewrite decide_False.
  - destruct (getCameraService fuel p) as [[b p']|] eqn:E; [|done]. exact (own_service me fuel p b p' E).
Qed.

Lemma happens_watched me cp e : watched me cp.1 cp.2 -> watched me (happens me cp e).1 (happens me cp e).2.
Proof.
  destruct cp as [c p]. cbn [fst snd]. intros Hw. destruct e as [f|l|l| | |b r|b|fuel];
    try (unfold watched; rewrite happens_own, happens_camera by done; exact Hw).
  - destruct c as [c|]; [|done]. cbn [happens]. destruct (disconnect_own me c p Hw) as [Hc Ho].
    destruct (disconnect me c p) as [c1 p1]. cbn [fst snd] in *. unfold watched, held. cbn [mbind option_bind]. by rewrite Hc, Ho.
  - unfold watched. cbn [happens fst snd]. rewrite dies_own. etrans; [apply sublist_filter|exact Hw].
Qed.

(** The link stays until the object disconnects or its camera dies. *)
Lemma happens_linked me c p b e : match e with Dies x => x <> b | _ => True end ->
  (held me c = [(b, Client me)] -> own me (links (driver p)) = [(b, Client me)]) ->
  held me (happens me (c, p) e).1 = [(b, Client me)] -> own me (links (driver (happens me (c, p) e).2)) = [(b, Client me)].
Proof.
  intros He Hl. destruct e as [f|l|l| | |x r|x|fuel]; try (rewrite happens_own, happens_camera by done; exact Hl).
  - cbn [happens]. destruct c as [c|]; [|exact Hl]. unfold disconnect. destruct (mCamera c) as [x|] eqn:E; [done|]. cbn [fst snd]. exact Hl.
  - cbn [happens fst snd]. rewrite dies_own. intros Hh. rewrite (Hl Hh). by rewrite filter_cons_True, filter_nil by (cbn; congruence).
Qed.

(** An object is told of a death as often as it has a link to what dies. *)
Lemma times_own me b d : times me b d = length (filter (fun k => k = (b, Client me)) (own me (links d))).
Proof. unfold times, own. rewrite list_filter_filter. f_equal. apply list_filter_iff. intros k. split; [by intros ->|by intros []]. Qed.

Lemma dies_world me b c p : world (dies me b (Some c) p) = Nat.iter (times me b (driver p)) (binderDied c) (world p).
Proof. unfold dies. cbn. by case_decide. Qed.

Lemma life_watched me c p l : watched me c p -> let cp := foldl (happens me) (c, p) l in watched me cp.1 cp.2.
Proof.
  revert c p. induction l as [|e l IH]; intros c p Hw; [done|]. cbn [foldl].
  pose proof (happens_watched me (c, p) e Hw) as Hw1. destruct (happens me (c, p) e) as [c1 p1]. by apply IH.
Qed.

Lemma life_linked me b l : forall c p, Dies b ∉ l -> (held me c = [(b, Client me)] -> own me (links (driver p)) = [(b, Client me)]) ->
  let cp := foldl (happens me) (c, p) l in held me cp.1 = [(b, Client me)] -> own me (links (driver cp.2)) = [(b, Client me)].
Proof.
  induction l as [|e l IH]; intros c p Hn Hl; [done|]. cbn [foldl]. apply not_elem_of_cons in Hn as [Hne Hn].
  pose proof (happens_linked me c p b e ltac:(destruct e; [done..| |done]; intros ->; done) Hl) as Hl1.
  destruct (happens me (c, p) e) as [c1 p1]. by apply IH.
Qed.

Lemma born_watched me b p c p' : own me (links (driver p)) = [] -> born me b p = Some (c, p') -> watched me c p' /\
  forall x, (forall d, (linkToDeath x (Client me) d).1 = NO_ERROR) -> held me c = [(x, Client me)] -> own me (links (driver p')) = [(x, Client me)].
Proof.
  intros Hp Hb. destruct (born_cases me b p c p' Hp Hb) as [[-> Ho]|(d & k & q & -> & -> & Ho)].
  - split; [unfold watched; by rewrite Ho|done].
  - destruct (link_watched me d NO_ERROR k q Ho) as [Hw Hl]. split; [exact Hw|]. intros x Hx Hh.
    assert (d = x) as -> by (cbn in Hh; congruence). by rewrite Hl.
Qed.

End deaths.

(** Without a camera every call answers [NO_INIT], or does nothing. *)
Lemma disconnected_calls c w : mCamera c = None ->
  lock c w = (NO_INIT, w) /\ unlock c w = (NO_INIT, w) /\ startPreview c w = (NO_INIT, w) /\ startRecording c w = (NO_INIT, w) /\
  autoFocus c w = (NO_INIT, w) /\ cancelAutoFocus c w = (NO_INIT, w) /\ stopPreview c w = w /\ previewEnabled c w = (false, w) /\
  recordingEnabled c w = (false, w) /\ getParameters c w = (EmptyString, w) /\ (stopRecording c w).2 = w /\
  (forall m, takePicture m c w = (NO_INIT, w)) /\ (forall t, setParameters t c w = (NO_INIT, w)) /\ (forall m, releaseRecordingFrame m c w = w).
Proof. intros E. unfold lock, unlock, startPreview, startRecording, autoFocus, cancelAutoFocus, stopPreview, previewEnabled, recordingEnabled, getParameters, stopRecording, takePicture, setParameters, releaseRecordingFrame, forward, forward_void. cbn. by rewrite !E. Qed.

(** The status stays [NO_ERROR] after a disconnection. *)
Lemma status_kept me c p : mStatus (disconnect me c p).1 = mStatus c.
Proof. unfold disconnect. by destruct (mCamera c). Qed.

(** ** Where recording frames go *)

Section routing.
Inductive place := ToRecorder (k : nat) | ToListener (k : nat) | BackTo (b : B).
(** The recorders, the listeners, and what they and the cameras have been given. *)
Context (recorder : nat -> ICameraRecordingProxyListener B W) (listener : nat -> CameraListener B W) (given : W -> list (place * option B)).

Inductive action :=
| FrameArrives (timestamp msgType : Z) (frame : option B)
| StartsRecorder (k : nat)
| StopsRecorder
| SetsListener (k : option nat)
| CallsCamera (f : ICamera B W -> W -> W).

Definition acts (me : B) (cw : Camera * W) (a : action) : Camera * W :=
  let '(c, w) := cw in
  match a with
  | FrameArrives ts t m => (c, dataCallbackTimestamp ts t m c w)
  | StartsRecorder k => let '(_, c, w) := proxy_startRecording me (Some (recorder k)) c w in (c, w)
  | StopsRecorder => proxy_stopRecording c w
  | SetsListener k => (setListener (listener <$> k) c, w)
  | CallsCamera f => (c, forward_void f c w)
  end.

(** Who the frames go to, from the recorder and the listener that are set. *)
Fixpoint routes (b : B) (rec lis : option nat) (l : list action) : list (place * option B) :=
  match l with
  | [] => []
  | FrameArrives _ _ m :: l =>
      (match rec, lis with Some k, _ => ToRecorder k | None, Some k => ToListener k | None, None => BackTo b end, m) :: routes b rec lis l
  | StartsRecorder k :: l => routes b (Some k) lis l
  | StopsRecorder :: l => routes b None lis l
  | SetsListener k :: l => routes b rec k l
  | CallsCamera _ :: l => routes b rec lis l
  end.

Context (r_given : forall k ts t m w, given (recordingFrame (recorder k) ts t m w) = given w ++ [(ToRecorder k, m)]).
Context (l_given : forall k ts t m w, given (postDataTimestamp (listener k) ts t m w) = given w ++ [(ToListener k, m)]).
Context (c_given : forall b m w, given (c_releaseRecordingFrame (camera_of b) m w) = given w ++ [(BackTo b, m)]).
Context (connect_quiet : forall b k w, given (c_connect (camera_of b) k w).2 = given w).
Context (start_quiet : forall b w, given (c_startRecording (camera_of b) w).2 = given w).
Context (stop_quiet : forall b w, given (c_stopRecording (camera_of b) w) = given w).

(** Calls that give no frames. *)
Definition quiet (a : action) : Prop := match a with CallsCamera f => forall b w, given (f (camera_of b) w) = given w | _ => True end.

(** While an object is connected, each recording frame that arrives is given to
    exactly one place, in order: to the recorder from [RecordingProxy::startRecording] on
    until [stopRecording], otherwise to the listener that is set, and back to the camera
    where there is none; whatever other calls are made in between. *)
Theorem frames_routed me b rec lis l c w : mCamera c = Some b -> mRecordingProxyListener c = recorder <$> rec -> mListener c = listener <$> lis ->
  Forall quiet l -> given (foldl (acts me) (c, w) l).2 = given w ++ routes b rec lis l.
Proof.
  intros Hb Hr Hl Hq. revert c w rec lis Hb Hr Hl. induction Hq as [|a l Ha Hq IH]; intros c w rec lis Hb Hr Hl; [by rewrite app_nil_r|].
  cbn [foldl routes]. destruct a as [ts t m|k| |k|f]; cbn [acts].
  - rewrite (IH _ _ rec lis) by done. unfold dataCallbackTimestamp. rewrite Hr. destruct rec as [k|]; cbn [fmap option_fmap option_map].
    + by rewrite r_given, <- app_assoc.
    + rewrite Hl. destruct lis as [k|]; cbn [fmap option_fmap option_map]; [by rewrite l_given, <- app_assoc|].
      unfold releaseRecordingFrame, forward_void. by rewrite Hb, c_given, <- app_assoc.
  - unfold proxy_startRecording, reconnect, startRecording, forward. cbn [mCamera setRecordingProxyListener]. rewrite Hb.
    pose proof (connect_quiet b (Some me) w) as H1. destruct (c_connect _ _ w) as [? w1]. pose proof (start_quiet b w1) as H2.
    destruct (c_startRecording _ w1) as [? w2]. rewrite (IH _ _ (Some k) lis) by done. cbn [snd] in *. by rewrite H2, H1.
  - unfold proxy_stopRecording, stopRecording. rewrite (IH _ _ None lis) by done. unfold forward_void. cbn [mCamera setRecordingProxyListener]. by rewrite Hb, stop_quiet.
  - by rewrite (IH _ _ rec k).
  - rewrite (IH _ _ rec lis) by done. unfold forward_void. rewrite Hb. cbn in Ha. by rewrite Ha.
Qed.
End routing.

(** Without a camera, a recorder and a listener a frame is lost: nothing releases it. *)
Lemma frame_lost ts t m c w : mCamera c = None -> mRecordingProxyListener c = None -> mListener c = None -> dataCallbackTimestamp ts t m c w = w.
Proof. intros H1 H2 H3. unfold dataCallbackTimestamp, releaseRecordingFrame, forward_void. by rewrite H2, H3, H1. Qed.
End object.

(** ** A concrete camera *)

(** A camera that hands frames back, a recorder and a listener that keep them, and a
    service that connects camera 0 and is published at the third lookup. *)
#[local] Abbreviation log := (list (place (B:=Z) * option Z)).
Definition toy_camera (b : Z) : ICamera Z log := mk_camera (fun w => w) (fun _ w => (0, w)) (fun _ w => w) (fun _ w => (0, w)) (fun w => (0, w)) (fun w => w)
  (fun w => (0, w)) (fun w => (0, w)) (fun _ w => (0, w)) (fun _ w => (0, w)) (fun w => (EmptyString, w)) (fun _ _ _ w => (0, w)) (fun _ w => (0, w))
  (fun w => (0, w)) (fun w => (0, w)) (fun w => (true, w)) (fun w => (0, w)) (fun w => w) (fun w => (false, w)) (fun m w => w ++ [(BackTo b, m)])
  (fun _ w => (0, w)).
Definition toy_recorder (k : nat) : ICameraRecordingProxyListener Z log := mk_recording_listener (fun _ _ m w => w ++ [(ToRecorder k, m)]).
Definition toy_listener (k : nat) : CameraListener Z log := mk_listener (fun _ _ _ w => w) (fun _ _ _ w => w) (fun _ _ m w => w ++ [(ToListener k, m)]).
Definition toy_service (b : Z) : ICameraService Z Z Z log := mk_service (fun _ w => (1, w)) (fun _ w => (0, mk_info 0 0, w)) (fun _ w => (0, 0, w))
  (fun w => (0, None, w)) (fun _ id _ _ w => (if id =? 0 then (0, Some 70, w) else (-22, None, w))) (fun _ _ _ _ _ w => (-22, None, w)) (fun _ _ _ w => (0, w))
  (fun _ _ _ _ w => (0, None, w)) (fun _ w => (0, w)) (fun _ w => (0, w)) (fun _ w => (0, EmptyString, w)) (fun _ _ w => (0, w)) (fun _ _ w => w).
(** The log grows by one at each wait. *)
Definition toy_lookup (w : log) : option Z * log := (if 2 <=? zlen w then Some 60 else None, w).
Definition toy_sleep (w : log) : log := w ++ [(BackTo 0, None)].

(** Links in a list; on the machine [false] every link fails. *)
#[local] Abbreviation links_state := (bool * list (Z * recipient Z))%type.
Definition toy_link (b : Z) (r : recipient Z) (d : links_state) : Z * links_state := if d.1 then (0, (true, d.2 ++ [(b, r)])) else (-12, d).
Definition toy_unlink (b : Z) (r : recipient Z) (d : links_state) : Z * links_state := (0, (d.1, remove_link (b, r) d.2)).
Definition toy_obituary (b : Z) (d : links_state) : links_state := (d.1, filter (fun k => k.1 <> b) d.2).

Lemma toy_link_registered b r d : (toy_link b r d).2.2 = if (toy_link b r d).1 =? NO_ERROR then d.2 ++ [(b, r)] else d.2.
Proof. unfold toy_link. by destruct d as [[] l]. Qed.

Definition toy_start (works : bool) : process Z log links_state := mk_process None false [] (works, []).

(** Connected at the third lookup to camera 70. *)
Definition toy_object : Camera Z log := mk_Camera 0 NO_ERROR (Some 70) None None.
Definition toy_connected : process Z log links_state :=
  mk_process (Some 60) true [(BackTo 0, None); (BackTo 0, None)] (true, [(60, Notifier); (70, Client 5)]).
(** A recording, the death of the service, another lookup, and a link of another object. *)
Definition toy_life : list (event (B:=Z) (W:=log)) :=
  [RecorderStarts (Some (toy_recorder 1)); Dies 60; LooksUp 1; OthersLink 70 (Client 6)].
#[local] Abbreviation toy_happens := (happens toy_camera toy_lookup toy_sleep toy_link toy_unlink 1 100 snd toy_obituary 5).
#[local] Abbreviation toy_dies := (dies 1 100 snd toy_obituary 5).


(** The listener of an object is told once of the death of its camera, and of no other. *)
Definition toy_watcher : CameraListener Z log :=
  mk_listener (fun msg ext1 _ w => w ++ [(ToListener (Z.to_nat ext1), Some msg)]) (fun _ _ _ w => w) (fun _ _ _ w => w).
Definition toy_watched (works : bool) : option (option (Camera Z log) * process Z log links_state) :=
  cp ← born toy_camera toy_service toy_lookup toy_sleep toy_link 5 (Connected 3 0 EmptyString 1000) (toy_start works);
  Some (foldl toy_happens cp [Listens (Some toy_watcher); Dies 60; Dies 70]).
Example told_once : (fun cp => drop 2 (world cp.2)) <$> toy_watched true = Some [(ToListener 100, Some 1)].
Proof. vm_compute. reflexivity. Qed.
(** Where no link could be made the camera and the service that are gone are kept. *)
Example unnoticed_death : (fun cp => (c ← cp.1; mCamera c, gCameraService cp.2, drop 2 (world cp.2))) <$> toy_watched false =
  Some (Some 70, Some 60, []).
Proof. vm_compute. reflexivity. Qed.

(** A frame before, during and after a recording. *)
Lemma frames_routed_witness :
  (foldl (acts toy_camera toy_recorder toy_listener 5) (mk_Camera 0 NO_ERROR (Some 70) None None, [])
    [FrameArrives 1 16 (Some 9); SetsListener (Some 2%nat); StartsRecorder 3; FrameArrives 2 16 (Some 10); StopsRecorder; FrameArrives 3 16 (Some 11)]).2 =
  [] ++ routes (W:=log) 70 None None
    [FrameArrives 1 16 (Some 9); SetsListener (Some 2%nat); StartsRecorder 3; FrameArrives 2 16 (Some 10); StopsRecorder; FrameArrives 3 16 (Some 11)].
Proof.
  apply (frames_routed toy_camera toy_recorder toy_listener (fun w => w)
    ltac:(done) ltac:(done) ltac:(done) ltac:(done) ltac:(done) ltac:(done) 5 70 None None
    [FrameArrives 1 16 (Some 9); SetsListener (Some 2%nat); StartsRecorder 3; FrameArrives 2 16 (Some 10); StopsRecorder; FrameArrives 3 16 (Some 11)]
    (mk_Camera 0 NO_ERROR (Some 70) None None) [] eq_refl eq_refl eq_refl).
  by repeat constructor.
Defined.
Example frames_routed_values : routes (B:=Z) (W:=log) 70 None None
    [FrameArrives 1 16 (Some 9); SetsListener (Some 2%nat); StartsRecorder 3; FrameArrives 2 16 (Some 10); StopsRecorder; FrameArrives 3 16 (Some 11)] =
  [(BackTo 70, Some 9); (ToRecorder 3, Some 10); (ToListener 2, Some 11)].
Proof. reflexivity. Qed.
(** The object says that it is connected when it no longer is. *)
Example status_after_disconnect :
  let c := (disconnect toy_camera toy_unlink 5 (mk_Camera 0 NO_ERROR (Some 70) None None) (toy_start true)).1 in getStatus c = NO_ERROR /\ remote c = None.
Proof. split; reflexivity. Qed.
