(* ===== verification/PthreadCond.v ===== *)
(** * Condition variables (libmocha/bionic/pthread_cond.cpp, bionic_time_conversions.cpp)

    A condition variable is one 32-bit word: two flag bits and a counter that every signal
    or broadcast advances.  A waiter reads the word, releases its mutex, and asks the
    kernel to put it to sleep if the word is still what it read.  The functions on
    attributes and times are definitions on integers; threads, mutex and futex are the
    step relation [cond_step], with a step for every access another thread can see.

    The kernel's part is its documented behaviour: a futex wait compares the word and
    falls asleep in one step, may return for a signal or a timeout, and a wake finds the
    sleepers of the same kind of futex, private or shared.

    [no_lost_wakeup]: a thread that sleeps past a completed pulse either was passed over by
    a signal that woke another thread, or saw 2^30 pulses between reading the word and
    falling asleep; [wakeup_lost_after_wrap]: the latter happens, at a quarter of the
    count the comment at the head of the source gives. *)

From S2P Require Import Prelude.
From stdpp Require Import functions relations.

#[local] Open Scope Z_scope.

(** ** Attributes *)

Definition COND_SHARED_MASK : Z := 1.
Definition COND_CLOCK_MASK : Z := 2.
Definition COND_COUNTER_STEP : Z := 4.
Definition COND_FLAGS_MASK : Z := Z.lor COND_SHARED_MASK COND_CLOCK_MASK.
Definition COND_IS_SHARED (c : Z) : bool := negb (Z.land c COND_SHARED_MASK =? 0).
Definition COND_GET_CLOCK (c : Z) : Z := Z.shiftr (Z.land c COND_CLOCK_MASK) 1.
Definition COND_SET_CLOCK (attr c : Z) : Z := Z.lor attr (Z.shiftl c 1).

(** The kernel's numbers. *)
Definition PTHREAD_PROCESS_PRIVATE : Z := 0.
Definition PTHREAD_PROCESS_SHARED : Z := 1.
Definition CLOCK_REALTIME : Z := 0.
Definition CLOCK_MONOTONIC : Z := 1.
Definition EINVAL : Z := 22.
Definition ETIMEDOUT : Z := 110.

Definition pthread_condattr_init : Z := Z.lor (Z.lor 0 PTHREAD_PROCESS_PRIVATE) (Z.shiftl CLOCK_REALTIME 1).
Definition pthread_condattr_getpshared (attr : Z) : Z := if COND_IS_SHARED attr then 1 else 0.
Definition pthread_condattr_setpshared (attr pshared : Z) : Z * Z :=
  if negb (pshared =? PTHREAD_PROCESS_SHARED) && negb (pshared =? PTHREAD_PROCESS_PRIVATE) then (EINVAL, attr)
  else (0, Z.lor attr pshared).
Definition pthread_condattr_getclock (attr : Z) : Z := COND_GET_CLOCK attr.
Definition pthread_condattr_setclock (attr clock : Z) : Z * Z :=
  if negb (clock =? CLOCK_MONOTONIC) && negb (clock =? CLOCK_REALTIME) then (EINVAL, attr)
  else (0, COND_SET_CLOCK attr clock).

(** The word of a new condition variable. *)
Definition pthread_cond_init (attr : option Z) : Z :=
  match attr with None => 0 | Some a => Z.land a COND_FLAGS_MASK end.

(** [atomic_fetch_add] of the counter step. *)
Definition advance (state : Z) : Z := wrap_u32 (state + COND_COUNTER_STEP).

(** ** Times *)

Record timespec := mk_timespec { tv_sec : Z; tv_nsec : Z }.
Definition NS_PER_S : Z := 1000000000.

Definition timespec_from_ms (ms : Z) : timespec :=
  mk_timespec (c_div (wrap_s32 ms) 1000) (c_rem (wrap_s32 ms) 1000 * 1000000).

(** [None] where the function returns false.  The differences of two times since the
    epoch stay in range. *)
Definition timespec_from_absolute_timespec (now abs_ts : timespec) : option timespec :=
  let sec := tv_sec abs_ts - tv_sec now in
  let nsec := tv_nsec abs_ts - tv_nsec now in
  let '(sec, nsec) := if nsec <? 0 then (sec - 1, nsec + NS_PER_S) else (sec, nsec) in
  if (nsec <? 0) || (sec <? 0) then None else Some (mk_timespec sec nsec).

(** ** Threads *)

Inductive how_many := One | All.      (* the thread counts 1 and [INT_MAX] *)

(** Where a thread is: outside the functions, with the result of its last wait; in a wait,
    with the word it read; or in a pulse.  [k], [c] and [i] are history: the number of
    pulses when the word was read, when the thread fell asleep, and at its own pulse. *)
Inductive local :=
| Running (result : option Z)
| Sampled (old : Z) (k : Z)                       (* the word is read, the mutex still held *)
| Released (old : Z) (k : Z)                      (* the mutex is released, the kernel not yet entered *)
| Asleep (old : Z) (shared : bool) (k c : Z)
| Awake (timed_out : bool)                        (* out of the kernel, about to lock the mutex *)
| Pulsing (n : how_many) (i : Z).                 (* the counter is advanced, the wake still to come *)

(** What a completed pulse did. *)
Inductive effect := WokeAll | WokeOne (u : nat) | FoundNone.

Record cond_state := mk_cond {
  state : Z; owner : option nat; threads : nat -> local; pulses : Z; effects : list (Z * effect) }.

Definition set_local (t : nat) (l : local) (s : cond_state) : cond_state :=
  mk_cond (state s) (owner s) (<[t := l]> (threads s)) (pulses s) (effects s).
Definition set_owner (o : option nat) (s : cond_state) : cond_state :=
  mk_cond (state s) o (threads s) (pulses s) (effects s).
Definition log_effect (i : Z) (e : effect) (s : cond_state) : cond_state :=
  mk_cond (state s) (owner s) (threads s) (pulses s) ((i, e) :: effects s).

(** The sleepers a wake with this flag finds. *)
Definition found_by (shared : bool) (l : local) : bool :=
  match l with Asleep _ sh _ _ => bool_decide (sh = shared) | _ => false end.

(** [__futex_wake_ex(&state, shared, INT_MAX)]. *)
Definition wake_all (shared : bool) (s : cond_state) : cond_state :=
  mk_cond (state s) (owner s) (fun t => if found_by shared (threads s t) then Awake false else threads s t)
    (pulses s) (effects s).

(** [atomic_fetch_add_explicit] in [__pthread_cond_pulse]. *)
Definition add_counter (t : nat) (n : how_many) (s : cond_state) : cond_state :=
  mk_cond (advance (state s)) (owner s) (<[t := Pulsing n (pulses s + 1)]> (threads s)) (pulses s + 1) (effects s).

Inductive cond_step : cond_state -> cond_state -> Prop :=
(* the mutex, outside the functions *)
| step_lock s t r : threads s t = Running r -> owner s = None -> cond_step s (set_owner (Some t) s)
| step_unlock s t r : threads s t = Running r -> owner s = Some t -> cond_step s (set_owner None s)
(* [__pthread_cond_timedwait] with a time that has passed *)
| step_expired s t r : threads s t = Running r -> owner s = Some t ->
    cond_step s (set_local t (Running (Some ETIMEDOUT)) s)
(* [__pthread_cond_timedwait_relative] *)
| step_sample s t r : threads s t = Running r -> owner s = Some t ->
    cond_step s (set_local t (Sampled (state s) (pulses s)) s)
| step_release s t old k : threads s t = Sampled old k -> cond_step s (set_owner None (set_local t (Released old k) s))
| step_differs s t old k : threads s t = Released old k -> state s <> old -> cond_step s (set_local t (Awake false) s)
| step_sleep s t old k : threads s t = Released old k -> state s = old ->
    cond_step s (set_local t (Asleep old (COND_IS_SHARED (state s)) k (pulses s)) s)
| step_leave s t old sh k c timed_out : threads s t = Asleep old sh k c -> cond_step s (set_local t (Awake timed_out) s)
| step_relock s t timed_out : threads s t = Awake timed_out -> owner s = None ->
    cond_step s (set_owner (Some t) (set_local t (Running (Some (if timed_out then ETIMEDOUT else 0))) s))
(* [__pthread_cond_pulse] *)
| step_add s t r n : threads s t = Running r -> cond_step s (add_counter t n s)
| step_wake_all s t i : threads s t = Pulsing All i ->
    cond_step s (log_effect i WokeAll (wake_all (COND_IS_SHARED (state s)) (set_local t (Running None) s)))
| step_wake_one s t u i : threads s t = Pulsing One i -> found_by (COND_IS_SHARED (state s)) (threads s u) = true ->
    cond_step s (log_effect i (WokeOne u) (set_local u (Awake false) (set_local t (Running None) s)))
| step_wake_none s t i : threads s t = Pulsing One i ->
    (forall u, found_by (COND_IS_SHARED (state s)) (threads s u) = false) ->
    cond_step s (log_effect i FoundNone (set_local t (Running None) s)).

Definition initial (attr : option Z) : cond_state := mk_cond (pthread_cond_init attr) None (fun _ => Running None) 0 [].
Definition reachable (attr : option Z) : cond_state -> Prop := rtc cond_step (initial attr).

(** ** The word *)

(** The word after [n] pulses. *)
Definition word (flags n : Z) : Z := (flags + 4 * n) mod 2 ^ 32.

Lemma advance_word flags n : advance (word flags n) = word flags (n + 1).
Proof. unfold advance, word, wrap_u32, COND_COUNTER_STEP. rewrite Zplus_mod_idemp_l. f_equal. lia. Qed.

(** Two counts give the same word exactly when they are [2^30] pulses apart, or a
    multiple of it. *)
Lemma word_eq flags n m : word flags n = word flags m <-> (2 ^ 30 | m - n).
Proof.
  unfold word. split.
  - intros He. assert (Hd : ((flags + 4 * m) - (flags + 4 * n)) mod 2 ^ 32 = 0).
    { by rewrite Zminus_mod, He, Z.sub_diag. }
    apply Z.mod_divide in Hd as [q Hq]; [|done]. exists q. lia.
  - intros [q Hq]. replace m with (n + q * 2 ^ 30) by lia.
    replace (flags + 4 * (n + q * 2 ^ 30)) with (flags + 4 * n + q * 2 ^ 32) by lia. by rewrite Z.mod_add.
Qed.

Lemma land_flags z : Z.land z COND_FLAGS_MASK = z mod 4.
Proof. change COND_FLAGS_MASK with (Z.ones 2). by rewrite Z.land_ones. Qed.

Lemma init_flags attr : 0 <= pthread_cond_init attr < 4.
Proof. destruct attr as [a|]; cbn; [rewrite land_flags; by apply Z.mod_pos_bound|done]. Qed.

(** Overflow of the counter leaves the flags alone. *)
Lemma word_flags flags n : 0 <= flags < 4 -> Z.land (word flags n) COND_FLAGS_MASK = flags.
Proof.
  intros Hf. rewrite land_flags. unfold word. rewrite Z.mod_mod_divide by (by exists (2 ^ 30)).
  rewrite Z.mul_comm, Z.mod_add by done. by apply Z.mod_small.
Qed.

Lemma word_shared flags n : 0 <= flags < 4 -> COND_IS_SHARED (word flags n) = COND_IS_SHARED flags.
Proof.
  intros Hf. unfold COND_IS_SHARED. rewrite <- (word_flags flags n Hf) at 2. by rewrite <- Z.land_assoc.
Qed.

(** ** The invariant *)

Section invariant.
Context (flags : Z) (Hflags : 0 <= flags < 4).

Definition local_ok (p : Z) (eff : list (Z * effect)) (t : nat) (l : local) : Prop :=
  match l with
  | Running _ | Awake _ => True
  | Sampled old k | Released old k => k <= p /\ old = word flags k
  | Asleep old sh k c => k <= c <= p /\ old = word flags k /\ word flags k = word flags c /\ sh = COND_IS_SHARED flags /\
      forall i e, (i, e) ∈ eff -> c < i -> exists u, u <> t /\ e = WokeOne u
  | Pulsing _ i => i <= p
  end.

Record cond_inv (s : cond_state) : Prop := {
  inv_word : state s = word flags (pulses s);
  inv_effects : forall i e, (i, e) ∈ effects s -> i <= pulses s;
  inv_owner : forall t old k, threads s t = Sampled old k -> owner s = Some t;
  inv_locals : forall t, local_ok (pulses s) (effects s) t (threads s t);
}.

Lemma local_ok_more p eff t l : local_ok p eff t l -> local_ok (p + 1) eff t l.
Proof. destruct l; cbn; try lia. intros (? & ? & ? & ? & ?). split_and!; try done; lia. Qed.

(** A pulse that completes concerns a sleeper only if it was meant to wake it. *)
Lemma local_ok_log p eff t l i e : local_ok p eff t l -> (found_by (COND_IS_SHARED flags) l = true -> exists u, u <> t /\ e = WokeOne u) ->
  local_ok p ((i, e) :: eff) t l.
Proof.
  destruct l as [| | |old sh k c| |]; cbn; try done. intros (? & ? & ? & -> & Hl) Hf. split_and!; try done; try lia.
  intros j e' [[= -> ->]|Hin]%elem_of_cons Hc; [apply Hf; by rewrite bool_decide_eq_true_2|by eapply Hl].
Qed.

Lemma inv_shared s : cond_inv s -> COND_IS_SHARED (state s) = COND_IS_SHARED flags.
Proof. intros Hs. rewrite (inv_word _ Hs). by apply word_shared. Qed.

Lemma insert_cases t l (f : nat -> local) u : (<[t := l]> f) u = l /\ u = t \/ (<[t := l]> f) u = f u /\ u <> t.
Proof. destruct (decide (u = t)) as [->|Hn]; [left; by rewrite fn_lookup_insert|right; by rewrite fn_lookup_insert_ne]. Qed.

(** A step of one thread that leaves the word alone. *)
Lemma inv_set_local s t l : cond_inv s -> local_ok (pulses s) (effects s) t l ->
  (forall old k, l = Sampled old k -> owner s = Some t) -> cond_inv (set_local t l s).
Proof.
  intros [H1 H2 H3 H4] Hl Ho. split; cbn; try done.
  - intros u old k Hu. destruct (insert_cases t l (threads s) u) as [[He ->]|[He _]]; rewrite He in Hu; [by eapply Ho|by eapply H3].
  - intros u. by destruct (insert_cases t l (threads s) u) as [[-> ->]|[-> _]].
Qed.

Lemma inv_set_owner s o : cond_inv s -> (forall t old k, threads s t = Sampled old k -> o = Some t) -> cond_inv (set_owner o s).
Proof. by intros [H1 H2 H3 H4] Ho; split. Qed.

Lemma cond_inv_log s i e : cond_inv s -> i <= pulses s ->
  (forall t, found_by (COND_IS_SHARED flags) (threads s t) = true -> exists u, u <> t /\ e = WokeOne u) ->
  cond_inv (log_effect i e s).
Proof.
  intros [H1 H2 H3 H4] Hi He. split; cbn; try done.
  - intros j e' [[= -> ->]|Hin]%elem_of_cons; [done|eauto].
  - intros t. apply local_ok_log; [apply H4|apply He].
Qed.

Lemma inv_wake_all s sh : cond_inv s -> cond_inv (wake_all sh s).
Proof.
  intros [H1 H2 H3 H4]. split; cbn; try done.
  - intros t old k. case_match; [done|apply H3].
  - intros t. case_match; [done|apply H4].
Qed.

Lemma inv_add s t n : cond_inv s -> cond_inv (add_counter t n s).
Proof.
  intros [H1 H2 H3 H4]. split; cbn.
  - by rewrite H1, advance_word.
  - intros i e Hin. specialize (H2 i e Hin). lia.
  - intros u old k Hu. destruct (insert_cases t (Pulsing n (pulses s + 1)) (threads s) u) as [[He _]|[He _]]; rewrite He in Hu; [done|].
    by eapply H3.
  - intros u. destruct (insert_cases t (Pulsing n (pulses s + 1)) (threads s) u) as [[-> _]|[-> _]]; [cbn; lia|].
    apply local_ok_more, H4.
Qed.

Lemma inv_step s s' : cond_step s s' -> cond_inv s -> cond_inv s'.
Proof.
  intros Hstep Hs. pose proof Hs as [H1 H2 H3 H4].
  destruct Hstep as [s t r Ht Ho|s t r Ht Ho|s t r Ht Ho|s t r Ht Ho|s t old k Ht|s t old k Ht Hne|s t old k Ht He
    |s t old sh k c b Ht|s t b Ht Ho|s t r n Ht|s t i Ht|s t u i Ht Hu|s t i Ht Hnone];
    pose proof (H4 t) as Hok; rewrite Ht in Hok; cbn in Hok.
  - apply inv_set_owner; [done|]. intros u old k Hu. apply H3 in Hu. congruence.
  - apply inv_set_owner; [done|]. intros u old k Hu. pose proof (H3 u old k Hu). assert (u = t) as -> by congruence. congruence.
  - by apply inv_set_local.
  - apply inv_set_local; [done|cbn; split; [lia|done]|by intros ?? _].
  - apply inv_set_owner; [by apply inv_set_local|]. cbn. intros u old' k' Hu.
    destruct (insert_cases t (Released old k) (threads s) u) as [[He _]|[He Hn]]; rewrite He in Hu; [done|].
    pose proof (H3 _ _ _ Hu). pose proof (H3 _ _ _ Ht). congruence.
  - by apply inv_set_local.
  - apply inv_set_local; [done| |done]. destruct Hok as [Hk Hw]. cbn. rewrite inv_shared by done. split_and!; try done; try lia.
    intros i e Hin Hc. specialize (H2 i e Hin). lia.
  - by apply inv_set_local.
  - apply inv_set_owner; [by apply inv_set_local|]. cbn. intros u old k Hu.
    destruct (insert_cases t (Running (Some (if b then ETIMEDOUT else 0))) (threads s) u) as [[He _]|[He _]]; rewrite He in Hu; [done|].
    pose proof (H3 _ _ _ Hu). congruence.
  - by apply inv_add.
  - apply cond_inv_log; [by apply inv_wake_all, inv_set_local|done|]. cbn. intros u. rewrite inv_shared by done. case_match; [done|congruence].
  - apply cond_inv_log; [apply inv_set_local; [by apply inv_set_local|done|done]|done|]. cbn. intros v Hv. exists u. split; [|done].
    intros ->. by rewrite fn_lookup_insert in Hv.
  - apply cond_inv_log; [by apply inv_set_local|done|]. cbn. intros v Hv. rewrite <- (inv_shared s Hs) in Hv.
    destruct (insert_cases t (Running None) (threads s) v) as [[He _]|[He _]]; rewrite He in Hv; [done|]. by rewrite Hnone in Hv.
Qed.

End invariant.

Lemma cond_reachable_inv attr s : reachable attr s -> cond_inv (pthread_cond_init attr) s.
Proof.
  unfold reachable. intros Hr. assert (Hi : cond_inv (pthread_cond_init attr) (initial attr)).
  { split; cbn; try done; [|by intros i e ?%elem_of_nil]. unfold word. rewrite Z.mod_small; pose proof (init_flags attr); lia. }
  revert Hi. induction Hr as [|s s1 s2 Hstep _ IH]; intros Hi; [done|]. apply IH. by eapply inv_step, Hi; [apply init_flags|].
Qed.

(** The flags stay those of the attribute, however often the counter overflows, so that
    waiters and pulses use the same kind of futex. *)
Lemma flags_kept attr s : reachable attr s -> Z.land (state s) COND_FLAGS_MASK = pthread_cond_init attr.
Proof. intros Hr%cond_reachable_inv. rewrite (inv_word _ _ Hr). apply word_flags, init_flags. Qed.

(** C40. A thread that is asleep after a pulse that came after it had read the word has
    completed was passed over by a signal that woke another thread, unless a multiple of
    2^30 pulses, the pulse among them, separates reading the word from falling asleep. *)
Theorem no_lost_wakeup attr s t old sh k c i e :
  reachable attr s -> threads s t = Asleep old sh k c -> (i, e) ∈ effects s -> k < i ->
  (exists u, u <> t /\ e = WokeOne u) \/ (exists q, 0 < q /\ c = k + q * 2 ^ 30 /\ i <= c).
Proof.
  intros Hr%cond_reachable_inv Ht Hin Hi. pose proof (inv_locals _ _ Hr t) as Hok. rewrite Ht in Hok.
  destruct Hok as (Hk & _ & Hw & _ & Hl). destruct (decide (c < i)) as [Hc|Hc]; [left; eauto|right].
  apply word_eq in Hw as [q Hq]. exists q. split_and!; lia.
Qed.

(** ** A run in which a wake-up is lost *)

(** A thread broadcasts [n] times while another stands between unlocking and the kernel. *)
Lemma broadcasts t u (Htu : t <> u) old k n : forall s r, threads s t = Running r -> threads s u = Released old k ->
  exists s' r', rtc cond_step s s' /\ threads s' t = Running r' /\ threads s' u = Released old k /\
    owner s' = owner s /\ pulses s' = pulses s + Z.of_nat n /\ (forall x, x ∈ effects s -> x ∈ effects s') /\
    (forall i, pulses s < i <= pulses s + Z.of_nat n -> (i, WokeAll) ∈ effects s').
Proof.
  induction n as [|n IH]; intros s r Ht Hu.
  - exists s, r. split_and!; try done; try lia.
  - set (s1 := add_counter t All s).
    set (s2 := log_effect (pulses s + 1) WokeAll (wake_all (COND_IS_SHARED (state s1)) (set_local t (Running None) s1))).
    assert (Ht1 : threads s1 t = Pulsing All (pulses s + 1)) by (cbn; by rewrite fn_lookup_insert).
    assert (Ht2 : threads s2 t = Running None) by (cbn; by rewrite fn_lookup_insert).
    assert (Hu2 : threads s2 u = Released old k) by (cbn; by rewrite !fn_lookup_insert_ne, Hu by done).
    destruct (IH s2 None Ht2 Hu2) as (s' & r' & Hrun & Ht' & Hu' & Ho & Hp & He & Hall). cbn in Ho, Hp, He, Hall.
    exists s', r'. split_and!; [|done|done|done|lia| |].
    + eapply rtc_l; [by apply (step_add s t r All)|]. eapply rtc_l; [by apply (step_wake_all s1 t)|]. exact Hrun.
    + intros x Hx. apply He. by right.
    + intros i Hi. destruct (decide (i = pulses s + 1)) as [->|Hn]; [apply He; left|apply Hall; lia].
Qed.

(** Thread 0 has released its mutex in a wait; nobody has pulsed. *)
Definition before_sleep : cond_state :=
  set_owner None (set_local 0%nat (Released 0 0) (set_local 0%nat (Sampled 0 0) (set_owner (Some 0%nat) (initial None)))).
Lemma before_sleep_reachable : reachable None before_sleep.
Proof.
  eapply rtc_l; [by apply (step_lock _ 0%nat None)|].
  eapply rtc_l; [by apply (step_sample _ 0%nat None)|].
  eapply rtc_l; [by apply (step_release _ 0%nat 0 0)|]. apply rtc_refl.
Qed.

(** After 2^30 broadcasts the word is what it was, and the thread falls asleep. *)
Theorem wakeup_lost_after_wrap : exists s, reachable None s /\ owner s = None /\
  threads s 0%nat = Asleep 0 false 0 (2 ^ 30) /\ forall i, 0 < i <= 2 ^ 30 -> (i, WokeAll) ∈ effects s.
Proof.
  destruct (broadcasts 1 0 ltac:(lia) 0 0 (Z.to_nat (2 ^ 30)) before_sleep None eq_refl eq_refl)
    as (s & r & Hrun & _ & Hu & Ho & Hp & _ & Hall).
  rewrite Z2Nat.id in Hp, Hall by done. cbn [before_sleep pulses set_owner set_local initial] in Hp, Hall.
  assert (Hr : reachable None s).
  { unfold reachable in *; etrans; [apply before_sleep_reachable|done]. }
  pose proof (inv_word _ _ (cond_reachable_inv _ _ Hr)) as Hw. rewrite Hp in Hw. change (word _ _) with 0 in Hw.
  exists (set_local 0%nat (Asleep 0 (COND_IS_SHARED (state s)) 0 (pulses s)) s). split_and!.
  - unfold reachable in *; etrans; [exact Hr|]. apply rtc_once. by apply step_sleep.
  - done.
  - cbn. by rewrite fn_lookup_insert, Hw, Hp.
  - intros i Hi. apply Hall. lia.
Qed.

(** Two threads wait, and a signal of a third wakes the second. *)
Definition wait_begin (t : nat) (s : cond_state) : cond_state :=
  set_owner None (set_local t (Released (state s) (pulses s)) (set_local t (Sampled (state s) (pulses s)) (set_owner (Some t) s))).
Definition wait_sleep (t : nat) (s : cond_state) : cond_state :=
  let s := wait_begin t s in set_local t (Asleep (state s) (COND_IS_SHARED (state s)) (pulses s) (pulses s)) s.
Lemma wait_sleep_steps t s r : threads s t = Running r -> owner s = None -> rtc cond_step s (wait_sleep t s).
Proof.
  intros Ht Ho. eapply rtc_l; [by apply (step_lock s t r)|]. eapply rtc_l; [by apply (step_sample _ t r)|].
  eapply rtc_l; [apply (step_release _ t (state s) (pulses s)); cbn; by rewrite fn_lookup_insert|].
  apply rtc_once. apply step_sleep; [cbn; by rewrite fn_lookup_insert|done].
Qed.
Definition passed_over : cond_state :=
  let s := add_counter 2%nat One (wait_sleep 1%nat (wait_sleep 0%nat (initial None))) in
  log_effect 1 (WokeOne 1%nat) (set_local 1%nat (Awake false) (set_local 2%nat (Running None) s)).
Lemma passed_over_reachable : reachable None passed_over.
Proof.
  unfold reachable in *; etrans; [by apply (wait_sleep_steps 0%nat _ None)|]. etrans; [by apply (wait_sleep_steps 1%nat _ None)|].
  eapply rtc_l; [by apply (step_add _ 2%nat None One)|]. apply rtc_once. by apply (step_wake_one _ 2%nat 1%nat 1).
Qed.

Example no_lost_wakeup_witness :
  (exists u, u <> 0%nat /\ WokeOne 1%nat = WokeOne u) \/ (exists q, 0 < q /\ 0 = 0 + q * 2 ^ 30 /\ 1 <= 0).
Proof.
  apply (no_lost_wakeup None passed_over 0%nat 0 false 0 0 1 (WokeOne 1%nat));
    [exact passed_over_reachable|reflexivity|left|reflexivity].
Defined.

(** ** Attributes and times *)

(** A clock is read back from a new attribute. *)
Lemma clock_read_back clock : clock = CLOCK_REALTIME \/ clock = CLOCK_MONOTONIC ->
  let '(r, attr) := pthread_condattr_setclock pthread_condattr_init clock in r = 0 /\ pthread_condattr_getclock attr = clock.
Proof. by intros [->| ->]. Qed.

(** But neither flag can be taken back: the setters only add bits. *)
Example clock_stays_monotonic :
  let attr := (pthread_condattr_setclock pthread_condattr_init CLOCK_MONOTONIC).2 in
  let '(r, attr) := pthread_condattr_setclock attr CLOCK_REALTIME in (r, pthread_condattr_getclock attr) = (0, CLOCK_MONOTONIC).
Proof. reflexivity. Qed.
Example stays_shared :
  let attr := (pthread_condattr_setpshared pthread_condattr_init PTHREAD_PROCESS_SHARED).2 in
  let '(r, attr) := pthread_condattr_setpshared attr PTHREAD_PROCESS_PRIVATE in (r, pthread_condattr_getpshared attr) = (0, 1).
Proof. reflexivity. Qed.

Definition nanoseconds (t : timespec) : Z := tv_sec t * NS_PER_S + tv_nsec t.

(** The relative time is the difference, normalised, and there is none exactly when the
    absolute time has passed. *)
Lemma relative_time_correct now t : 0 <= tv_nsec now < NS_PER_S -> 0 <= tv_nsec t < NS_PER_S ->
  match timespec_from_absolute_timespec now t with
  | Some r => nanoseconds r = nanoseconds t - nanoseconds now /\ 0 <= tv_sec r /\ 0 <= tv_nsec r < NS_PER_S
  | None => nanoseconds t < nanoseconds now
  end.
Proof.
  unfold timespec_from_absolute_timespec, nanoseconds, NS_PER_S. intros Hn Ht.
  destruct (tv_nsec t - tv_nsec now <? 0) eqn:Hb; breflect.
  all: match goal with |- context [if ?b then None else _] => destruct b eqn:Hc end; breflect; cbn.
  all: try rewrite orb_true_iff, !Z.ltb_lt in Hc; lia.
Qed.

(** A timeout in milliseconds of 2^31 or more is a negative time for the kernel. *)
Example long_timeout_negative : timespec_from_ms (2 ^ 31) = mk_timespec (-2147483) (-648000000).
Proof. reflexivity. Qed.
