(* ===== verification/HidlServices.v ===== *)
(** * The vibrator and power services (hidl/vibrator/, hidl/power/)

    Two small services over sysfs nodes and properties.

    [Vibrator]: two output streams that stay open.  A stream whose write has failed ignores
    every later write, so after one error nothing reaches the node again
    ([enable_fails_for_good]).  The amplitude is scaled in double precision;
    [intensity_correct] compares it with exact rounding for every amplitude.

    [Power]: the profile property and the double-tap node. *)

From S2P Require Import Prelude CString Float32 Float64.
From Stdlib Require Import SpecFloat.

Module Vibrator.

Inductive Status := OK | UNKNOWN_ERROR | BAD_VALUE | UNSUPPORTED_OPERATION.

#[export] Instance status_eq_dec : EqDecision Status.
Proof. solve_decision. Defined.

(** A [std::ofstream] that is flushed after every line: what has been written, and whether
    the stream has failed. *)
Record ofstream := mk_stream { lines : list string; failed : bool }.

(** [stream << text << std::endl]; [ok] is whether the node takes the text. *)
Definition put_line (ok : bool) (text : string) (s : ofstream) : ofstream :=
  if failed s then s else if ok then mk_stream (lines s ++ [text]) false else mk_stream (lines s) true.

Record vibrator := mk_vibrator { mEnable : ofstream; mAmplitude : ofstream }.

Definition new_vibrator (enable_opens amplitude_opens : bool) : vibrator :=
  mk_vibrator (mk_stream [] (negb enable_opens)) (mk_stream [] (negb amplitude_opens)).

Definition MAX_INTENSITY : Z := 127.
Definition MIN_INTENSITY : Z := 1.
Definition CLICK_TIMING_MS : Z := 20.

Definition stream_status (s : ofstream) : Status := if failed s then UNKNOWN_ERROR else OK.

Definition on (ok : bool) (timeout_ms : Z) (v : vibrator) : Status * vibrator :=
  let s := put_line ok (print_int timeout_ms) (mEnable v) in (stream_status s, mk_vibrator s (mAmplitude v)).
Definition off (ok : bool) (v : vibrator) : Status * vibrator :=
  let s := put_line ok (print_int 0) (mEnable v) in (stream_status s, mk_vibrator s (mAmplitude v)).
Definition supportsAmplitudeControl : bool := true.

(** [lround] of a finite number: to the nearest integer, halves away from zero. *)
Definition lround (x : f64) : Z :=
  match x with
  | S754_finite s m e =>
      let r := if 0 <=? e then Zpos m * 2 ^ e else (Zpos m + 2 ^ (- e - 1)) / 2 ^ (- e) in
      if s then - r else r
  | _ => 0
  end.

Definition intensity (amplitude : Z) : Z :=
  lround (f64_add (f64_mul (f64_div (f64_of_Z (amplitude - 1)) (f64_of_Z 254)) (f64_of_Z (MAX_INTENSITY - MIN_INTENSITY)))
            (f64_of_Z MIN_INTENSITY)).

Definition setAmplitude (ok : bool) (amplitude : Z) (v : vibrator) : Status * vibrator :=
  if amplitude =? 0 then (BAD_VALUE, v)
  else
    let s := put_line ok (print_int (intensity amplitude)) (mAmplitude v) in
    (stream_status s, mk_vibrator (mEnable v) s).

(** The callback's arguments, and the vibrator. *)
Definition perform (ok : bool) (effect_is_click : bool) (v : vibrator) : (Status * Z) * vibrator :=
  if effect_is_click then ((OK, CLICK_TIMING_MS), (on ok CLICK_TIMING_MS v).2)
  else ((UNSUPPORTED_OPERATION, 0), v).

(** ** The calls *)

Inductive call := On (timeout_ms : Z) | Off | SetAmplitude (amplitude : Z) | Perform (effect_is_click : bool).

(** A call, and whether the node takes what it writes. *)
Definition run_call (c : call * bool) (v : vibrator) : Status * vibrator :=
  match c.1 with
  | On t => on c.2 t v
  | Off => off c.2 v
  | SetAmplitude a => setAmplitude c.2 a v
  | Perform click => let '((st, _), v) := perform c.2 click v in (st, v)
  end.
Definition run_calls (cs : list (call * bool)) (v : vibrator) : vibrator := foldl (fun v c => (run_call c v).2) v cs.

(** What a call that works writes to the enable node. *)
Definition enables (c : call) : list string :=
  match c with On t => [print_int t] | Off => [print_int 0] | Perform true => [print_int CLICK_TIMING_MS] | _ => [] end.

Lemma run_call_enable c v : mEnable (run_call c v).2 =
  match enables c.1 with [] => mEnable v | text :: _ => put_line c.2 text (mEnable v) end.
Proof. destruct c as [[t| |a|[]] ok]; cbn; try done. unfold setAmplitude. by case_match. Qed.

(** Until a write fails the node has received every text in order. *)
Lemma enable_in_order cs : forall v, failed (mEnable v) = false -> Forall (fun c => c.2 = true) cs ->
  mEnable (run_calls cs v) = mk_stream (lines (mEnable v) ++ concat (enables ∘ fst <$> cs)) false.
Proof.
  induction cs as [|c cs IH]; intros v Hv Hf; [cbn; rewrite app_nil_r; by destruct (mEnable v); cbn in *; subst|].
  apply Forall_cons in Hf as [Hc Hf]. cbn [run_calls foldl]. fold (run_calls cs (run_call c v).2).
  assert (He : mEnable (run_call c v).2 = mk_stream (lines (mEnable v) ++ enables c.1) false).
  { rewrite run_call_enable. destruct c as [[t| |a|[]] ok]; cbn in *; subst; unfold put_line; rewrite ?Hv; try done.
    all: destruct (mEnable v); cbn in *; by rewrite app_nil_r, Hv. }
  rewrite IH by (try done; by rewrite He). rewrite He. cbn. by rewrite <- app_assoc.
Qed.

(** After a write that failed nothing is written again, whatever the node would take: a
    vibration that is on cannot be turned off. *)
Theorem enable_fails_for_good cs v : failed (mEnable v) = true ->
  mEnable (run_calls cs v) = mEnable v /\ forall ok, (off ok (run_calls cs v)).1 = UNKNOWN_ERROR.
Proof.
  intros Hv. assert (He : mEnable (run_calls cs v) = mEnable v).
  { induction cs as [|c cs IH] using rev_ind; [done|]. unfold run_calls. rewrite foldl_app. cbn. rewrite run_call_enable.
    change (foldl _ v cs) with (run_calls cs v). rewrite IH. case_match; [done|]. unfold put_line. by rewrite Hv. }
  split; [done|]. intros ok. unfold off, stream_status, put_line. cbn. by rewrite He, Hv, Hv.
Qed.

(** ** The scale *)

(** The exact value rounded to the nearest integer; there are no halves. *)
Definition exact_intensity (amplitude : Z) : Z := ((amplitude - 1) * 126 + 254 + 127) / 254.

Definition amplitudes : list Z := Z.of_nat <$> seq 1 255.

Lemma intensities : Forall (fun a => intensity a = exact_intensity a) amplitudes.
Proof. apply (bool_decide_eq_true_1 _). vm_compute. reflexivity. Qed.

(** The double arithmetic rounds as exact arithmetic does, so that an intensity is from 1
    to 127. *)
Theorem intensity_correct a : 1 <= a <= 255 -> intensity a = exact_intensity a /\ MIN_INTENSITY <= intensity a <= MAX_INTENSITY.
Proof.
  intros Ha. pose proof intensities as Hf. rewrite Forall_forall in Hf. rewrite (Hf a).
  - split; [done|]. unfold exact_intensity, MIN_INTENSITY, MAX_INTENSITY.
    split; [apply Z.div_le_lower_bound|apply Z.lt_succ_r, Z.div_lt_upper_bound]; lia.
  - apply list_elem_of_fmap. exists (Z.to_nat a). split; [lia|]. apply elem_of_seq. lia.
Qed.

(** A click is reported as performed even when the node refuses it. *)
Example click_hides_failure : perform false true (new_vibrator true true) =
  ((OK, 20), mk_vibrator (mk_stream [] true) (mk_stream [] false)).
Proof. reflexivity. Qed.

End Vibrator.

Module Power.

(** The enumerations' cases the code tells apart. *)
Inductive PowerHint := POWER_HINT_SET_PROFILE | other_hint (n : Z).
Inductive Feature := POWER_FEATURE_DOUBLE_TAP_TO_WAKE | other_feature (n : Z).
Inductive LineageFeature := SUPPORTED_PROFILES | other_lineage_feature (n : Z).

Definition TAP_TO_WAKE_NODE : string := "/proc/touchpanel/double_tap_enable".
Definition POWER_PROFILE_PROPERTY : string := "sys.perf.profile".
Definition PROFILE_MAX : Z := 4.

(** The properties, and what was written to files. *)
Record power := mk_power { properties : gmap string string; writes : list (string * string) }.

Definition sysfs_write (path value : string) (p : power) : power := mk_power (properties p) (writes p ++ [(path, value)]).

Definition setInteractive (interactive : bool) (p : power) : power := p.
Definition powerHint (hint : PowerHint) (data : Z) (p : power) : power :=
  match hint with
  | POWER_HINT_SET_PROFILE => mk_power (<[POWER_PROFILE_PROPERTY := print_int data]> (properties p)) (writes p)
  | other_hint _ => p
  end.
Definition setFeature (feature : Feature) (activate : bool) (p : power) : power :=
  match feature with
  | POWER_FEATURE_DOUBLE_TAP_TO_WAKE => sysfs_write TAP_TO_WAKE_NODE (print_int (if activate then 1 else 0)) p
  | other_feature _ => p
  end.
Definition getPlatformLowPowerStats : list (string * Z) := [].
Definition getFeature (feature : LineageFeature) : Z :=
  match feature with SUPPORTED_PROFILES => PROFILE_MAX | other_lineage_feature _ => -1 end.

(** The interfaces are registered in turn, up to the first that fails. *)
Definition registerAsSystemService (register_power register_lineage : Z) : Z :=
  if negb (register_power =? 0) then register_power
  else if negb (register_lineage =? 0) then register_lineage else 0.

(** The number of a profile is not checked. *)
Example profile_unchecked : properties (powerHint POWER_HINT_SET_PROFILE 99 (mk_power ∅ [])) !! POWER_PROFILE_PROPERTY = Some "99".
Proof. reflexivity. Qed.

End Power.
