(* ===== verification/JpegEncoder.v ===== *)
(** * The JPEG encoder (camera/JpegEncoder.cpp)

    [encodeRGBA] hands the rows of a picture, without their alpha bytes, to libjpeg, whose
    output goes to a buffer of fixed size; a full buffer is reported by suspending the
    library.  The library is not in the repository: it is the record [libjpeg], whose
    documented behaviour is [libjpeg_ok].

    [encode_ends]: the loop over the rows ends, although it waits for the library's own
    row counter.  [encode_rows]: what the library is given.  [full_buffer_exits]: when the
    buffer fills up before the last row, finishing ends the process, so the error the
    function has for this case is not returned. *)

From S2P Require Import Prelude.

(** A compressor with its destination: the rows taken so far, the room left, and whether
    [dest_empty_output_buffer] has been called.  [None] is the library's error exit, which
    ends the process. *)
Record libjpeg (C : Type) := mk_libjpeg {
  jpeg_start : Z -> Z -> Z -> Z -> C;            (* width, height, quality, size of the buffer *)
  next_scanline : C -> Z;
  free_in_buffer : C -> Z;
  overflow : C -> bool;
  jpeg_write_scanlines : list Z -> C -> option C;
  jpeg_finish_compress : C -> option C;
  image_height : C -> Z;
}.
Arguments jpeg_start {C}. Arguments next_scanline {C}. Arguments free_in_buffer {C}. Arguments overflow {C}.
Arguments jpeg_write_scanlines {C}. Arguments jpeg_finish_compress {C}. Arguments image_height {C}.

(** What the documentation of libjpeg says: a row is taken unless the destination
    suspends, and it is an error to finish before all rows are taken. *)
Record libjpeg_ok {C} (L : libjpeg C) : Prop := {
  start_ok w h q size : next_scanline L (jpeg_start L w h q size) = 0 /\ overflow L (jpeg_start L w h q size) = false /\
    image_height L (jpeg_start L w h q size) = h;
  write_ok row c c' : jpeg_write_scanlines L row c = Some c' -> overflow L c = false -> image_height L c' = image_height L c /\
    (next_scanline L c' = next_scanline L c + 1 /\ overflow L c' = false \/
     next_scanline L c' = next_scanline L c /\ overflow L c' = true);
  finish_ok c : next_scanline L c < image_height L c -> jpeg_finish_compress L c = None;
}.

Definition ENOMEM : Z := 12.
Definition ENOSPC : Z := 28.

Section encoder.
Context {C : Type} (L : libjpeg C).

(** One pixel of a row: three of four bytes; [None] where the input ends too early. *)
Definition pixel (rgba : list Z) (src x : Z) : option (list Z) :=
  r ← zlookup rgba (src + x * 4 + 0); g ← zlookup rgba (src + x * 4 + 1); b ← zlookup rgba (src + x * 4 + 2);
  mret [r; g; b].
Definition rgb_row (rgba : list Z) (width y : Z) : option (list Z) :=
  pixels ← mapM (fun x => pixel rgba (y * (width * 4)) (Z.of_nat x)) (seq 0 (Z.to_nat width)); mret (concat pixels).

(** How the function ends: the process exits, the input is read past its end, or it
    returns, with the size it has stored, if any. *)
Inductive ending := Exits | ReadsPast | Returns (ret : Z) (jpegSize : option Z).

(** The loop; the rows handed over are collected.  [None] is out of fuel. *)
Fixpoint write_rows (fuel : nat) (rgba : list Z) (width height : Z) (rows : list (list Z)) (c : C)
    : option (list (list Z) * (ending + C)) :=
  match fuel with
  | O => None
  | S fuel =>
      if next_scanline L c <? height then
        match rgb_row rgba width (next_scanline L c) with
        | None => Some (rows, inl ReadsPast)
        | Some row =>
            match jpeg_write_scanlines L row c with
            | None => Some (rows ++ [row], inl Exits)
            | Some c => if overflow L c then Some (rows ++ [row], inr c) else write_rows fuel rgba width height (rows ++ [row]) c
            end
        end
      else Some (rows, inr c)
  end.

(** From [jpeg_finish_compress] on. *)
Definition finish (outputSize : Z) (c : C) : ending :=
  match jpeg_finish_compress L c with
  | None => Exits
  | Some c => Returns (if overflow L c then - ENOSPC else 0) (Some (outputSize - free_in_buffer L c))
  end.

Definition encodeRGBA (fuel : nat) (malloc_ok : bool) (rgba : list Z) (width height quality outputSize : Z)
    : option (list (list Z) * ending) :=
  let c := jpeg_start L width height quality outputSize in
  if negb malloc_ok then Some ([], Returns (- ENOMEM) None)
  else
    '(rows, e) ← write_rows fuel rgba width height [] c;
    Some (rows, match e with inl e => e | inr c => finish outputSize c end).

(** ** Proofs *)

Context (HL : libjpeg_ok L).

(** The invariant of the loop: a row for every line the library has taken, the last one
    perhaps refused. *)
Definition handed (rgba : list Z) (width : Z) (rows : list (list Z)) (n : nat) : Prop :=
  mapM (rgb_row rgba width) (Z.of_nat <$> seq 0 n) = Some rows.

Lemma handed_snoc rgba width rows n row : handed rgba width rows n -> rgb_row rgba width (Z.of_nat n) = Some row ->
  handed rgba width (rows ++ [row]) (S n).
Proof.
  unfold handed. intros Hr Hrow. rewrite seq_S, fmap_app. cbn. apply mapM_Some. apply mapM_Some in Hr.
  apply Forall2_app; [done|]. by repeat constructor.
Qed.

Lemma write_rows_spec rgba width height rows c n fuel :
  next_scanline L c = Z.of_nat n -> overflow L c = false -> image_height L c = height -> handed rgba width rows n ->
  Z.of_nat n <= height -> (Z.to_nat (height - Z.of_nat n) < fuel)%nat ->
  exists rows' e, write_rows fuel rgba width height rows c = Some (rows', e) /\
    (exists m, (n <= m)%nat /\ handed rgba width rows' m) /\
    match e with
    | inl Exits => True | inl ReadsPast => exists y, rgb_row rgba width y = None | inl (Returns _ _) => False
    | inr c' => image_height L c' = height /\ (if overflow L c' then next_scanline L c' < height else
        next_scanline L c' = height /\ handed rgba width rows' (Z.to_nat height))
    end.
Proof.
  revert rows c n. induction fuel as [|fuel IH]; intros rows c n Hn Ho Hh Hr Hle Hf; [lia|]. cbn [write_rows].
  destruct (next_scanline L c <? height) eqn:Hlt; breflect.
  2: { exists rows, (inr c). split; [done|]. split; [by exists n|]. rewrite Ho. split_and!; [done|lia|].
    by replace (Z.to_nat height) with n by lia. }
  rewrite Hn. destruct (rgb_row rgba width (Z.of_nat n)) as [row|] eqn:Hrow.
  2: { exists rows, (inl ReadsPast). split_and!; [done|by exists n|by eexists]. }
  pose proof (handed_snoc _ _ _ _ _ Hr Hrow) as Hr'.
  destruct (jpeg_write_scanlines L row c) as [c'|] eqn:Hw.
  2: { exists (rows ++ [row]), (inl Exits). split_and!; [done|exists (S n); split; [lia|done]|done]. }
  destruct (write_ok L HL row c c' Hw Ho) as [Hh' [[Hn' Ho']|[Hn' Ho']]]; rewrite Ho'.
  - destruct (IH (rows ++ [row]) c' (S n) ltac:(lia) Ho' ltac:(congruence) Hr' ltac:(lia) ltac:(lia))
      as (rows' & e & He & (m & Hm & Hd) & Hend).
    exists rows', e. split_and!; [done|exists m; split; [lia|done]|done].
  - exists (rows ++ [row]), (inr c'). split_and!; [done|exists (S n); split; [lia|done]|congruence|rewrite Ho'; lia].
Qed.

(** Fuel for one more than the rows is enough, whatever the library refuses. *)
Theorem encode_ends malloc_ok rgba width height quality outputSize : 0 <= height ->
  exists rows e, encodeRGBA (S (Z.to_nat height)) malloc_ok rgba width height quality outputSize = Some (rows, e).
Proof.
  intros Hh. unfold encodeRGBA. destruct malloc_ok; [|by eexists _, _]. cbn [negb].
  destruct (start_ok L HL width height quality outputSize) as (Hn & Ho & Hi).
  destruct (write_rows_spec rgba width height [] _ 0 (S (Z.to_nat height)) Hn Ho Hi eq_refl Hh ltac:(lia)) as (rows & e & -> & _ & _).
  by eexists _, _.
Qed.

(** Success means that every row was handed over, in order and without its alpha bytes,
    and the stored size is what the library wrote. *)
Theorem encode_rows rgba width height quality outputSize rows size : 0 <= height ->
  encodeRGBA (S (Z.to_nat height)) true rgba width height quality outputSize = Some (rows, Returns 0 size) ->
  handed rgba width rows (Z.to_nat height) /\ exists c, size = Some (outputSize - free_in_buffer L c) /\ overflow L c = false.
Proof.
  intros Hh. unfold encodeRGBA. cbn [negb].
  destruct (start_ok L HL width height quality outputSize) as (Hn & Ho & Hi).
  destruct (write_rows_spec rgba width height [] _ 0 (S (Z.to_nat height)) Hn Ho Hi eq_refl Hh ltac:(lia))
    as (rows' & e & -> & _ & Hend). cbn [mbind option_bind].
  destruct e as [[]|c']; intros [= -> He]; try done. destruct Hend as [Hi' Hend]. unfold finish in He.
  destruct (overflow L c') eqn:Ho'.
  - rewrite (finish_ok L HL) in He by lia. done.
  - destruct (jpeg_finish_compress L c') as [c2|]; [|done]. destruct (overflow L c2) eqn:Ho2; [done|].
    injection He as <-. split; [by destruct Hend|by exists c2].
Qed.

(** A buffer that is full before the last row ends the process. *)
Theorem full_buffer_exits rgba width height quality outputSize fuel rows c :
  write_rows fuel rgba width height [] (jpeg_start L width height quality outputSize) = Some (rows, inr c) ->
  0 <= height -> (Z.to_nat height < fuel)%nat -> overflow L c = true ->
  encodeRGBA fuel true rgba width height quality outputSize = Some (rows, Exits).
Proof.
  intros Hw Hh Hf Hc. unfold encodeRGBA. cbn [negb]. rewrite Hw. cbn [mbind option_bind].
  destruct (start_ok L HL width height quality outputSize) as (Hn & Ho & Hi).
  destruct (write_rows_spec rgba width height [] _ 0 fuel Hn Ho Hi eq_refl Hh ltac:(lia)) as (rows' & e & Hw' & _ & Hend).
  rewrite Hw in Hw'. injection Hw' as <- <-. rewrite Hc in Hend. destruct Hend as [Hi' Hlt].
  unfold finish. by rewrite (finish_ok L HL) by lia.
Qed.
End encoder.

(** ** A library that stores the rows as they are *)

Record store := mk_store { taken : Z; room : Z; full : bool; rows_left : Z }.
Definition storing : libjpeg store := {|
  jpeg_start w h q size := mk_store 0 size false h;
  next_scanline := taken;
  free_in_buffer := room;
  overflow := full;
  jpeg_write_scanlines row c :=
    Some (if zlen row <=? room c then mk_store (taken c + 1) (room c - zlen row) (full c) (rows_left c)
          else mk_store (taken c) (room c) true (rows_left c));
  jpeg_finish_compress c := if taken c <? rows_left c then None else Some c;
  image_height := rows_left;
|}.
Lemma storing_ok : libjpeg_ok storing.
Proof.
  split; cbn; try done.
  - intros row c c' [= <-] Ho. case_match; cbn; auto.
  - intros c Hc. by rewrite (proj2 (Z.ltb_lt _ _)).
Qed.

Definition two_by_two : list Z := [1; 2; 3; 255; 4; 5; 6; 255; 7; 8; 9; 255; 10; 11; 12; 255].

Example encode_sample : encodeRGBA storing 3 true two_by_two 2 2 90 20 =
  Some ([[1; 2; 3; 4; 5; 6]; [7; 8; 9; 10; 11; 12]], Returns 0 (Some 12)).
Proof. reflexivity. Qed.
Example encode_full : encodeRGBA storing 3 true two_by_two 2 2 90 10 =
  Some ([[1; 2; 3; 4; 5; 6]; [7; 8; 9; 10; 11; 12]], Exits).
Proof. reflexivity. Qed.
