(* ===== verification/SoftGateKeeper.v ===== *)
(** * The software gatekeeper (gatekeeper/)

    [SoftGateKeeper.h] supplies what the platform's [GateKeeper] class leaves open: keys,
    hashes, failure records, and a cache of fast hashes in front of the slow verification.
    [SoftGateKeeperDevice.cpp] translates the C interface, and [module.cpp] keeps the
    device in a static structure.  The class [GateKeeper], SHA-256 and scrypt are not in
    the repository and are parameters.

    [DoVerify_sound]: a password that is accepted is one that the slow verification
    accepted for the same user, up to collisions of the hash.  But the cache is kept by
    user alone: [stale_password_accepted] shows that a password stays valid after another
    one has been enrolled.  [gatekeeper_module_safe]: opened and closed in turn, the module uses and
    frees only objects that exist; the examples show what happens otherwise. *)

From S2P Require Import Prelude.

Definition SIGNATURE_LENGTH_BYTES : nat := 32.
Definition EINVAL : Z := 22.

Record failure_record := mk_failure {
  secure_user_id : Z; last_checked_timestamp : Z; failure_counter : Z }.
Record fast_hash := mk_fast_hash { salt : Z; digest : list Z }.

Record soft_gatekeeper := mk_keeper {
  key_ : list Z; failure_map_ : gmap Z failure_record; fast_hash_map_ : gmap Z fast_hash }.

Definition new_keeper : soft_gatekeeper := mk_keeper (replicate SIGNATURE_LENGTH_BYTES 0) ∅ ∅.

(** ** Keys and time *)

(** What the two key functions hand out: a copy, and its length; nothing for a null. *)
Definition GetAuthTokenKey (out_given : bool) (g : soft_gatekeeper) : option (list Z * Z) :=
  if out_given then Some (take SIGNATURE_LENGTH_BYTES (key_ g), Z.of_nat SIGNATURE_LENGTH_BYTES) else None.
Definition GetPasswordKey (out_given : bool) (g : soft_gatekeeper) : option (list Z * Z) :=
  GetAuthTokenKey out_given g.

(** The signature of a token: all zeros. *)
Definition ComputeSignature (signature_length : nat) : list Z := replicate signature_length 0.
Definition IsHardwareBacked : bool := false.

(** [time.tv_sec * 1000] is a [long] of 32 bits here; the sum becomes a [uint64_t]. *)
Definition GetMillisecondsSinceBoot (now : option (Z * Z)) : Z :=
  match now with
  | None => 0
  | Some (tv_sec, tv_nsec) => wrap_u64 (wrap_s32 (wrap_s32 (tv_sec * 1000) + c_div (c_div tv_nsec 1000) 1000))
  end.

(** Right up to 2^31 milliseconds, which is less than 25 days. *)
Lemma milliseconds_correct sec nsec : 0 <= sec -> 0 <= nsec < 1000000000 -> sec * 1000 + 999 <= INT_MAX ->
  GetMillisecondsSinceBoot (Some (sec, nsec)) = sec * 1000 + nsec / 1000000.
Proof.
  intros Hs Hn Hm. unfold GetMillisecondsSinceBoot. rewrite (c_div_div nsec) by lia.
  rewrite c_div_div by (first [apply Z.div_pos; lia | lia]).
  rewrite Z.div_div by lia. change (1000 * 1000) with 1000000.
  assert (0 <= nsec / 1000000 <= 999) by (split; [apply Z.div_pos; lia|apply Z.lt_succ_r, Z.div_lt_upper_bound; lia]).
  unfold INT_MAX in Hm. rewrite (wrap_s32_id (sec * 1000)), wrap_s32_id by (unfold is_int, INT_MIN, INT_MAX; lia). by rewrite wrap_u64_id by lia.
Qed.
Example milliseconds_wrap : GetMillisecondsSinceBoot (Some (2147484, 0)) = 2 ^ 64 - 2147483296.
Proof. reflexivity. Qed.

(** ** Failure records *)

(** [failure_map_[uid]] creates a record of zeros. *)
Definition stored_record (uid : Z) (g : soft_gatekeeper) : failure_record := default (mk_failure 0 0 0) (failure_map_ g !! uid).
Definition store_record (uid : Z) (r : failure_record) (g : soft_gatekeeper) : soft_gatekeeper :=
  mk_keeper (key_ g) (<[uid := r]> (failure_map_ g)) (fast_hash_map_ g).

Definition GetFailureRecord (uid user_id : Z) (g : soft_gatekeeper) : failure_record * soft_gatekeeper :=
  let stored := stored_record uid g in
  let stored := if negb (user_id =? secure_user_id stored) then mk_failure user_id 0 0 else stored in
  (stored, store_record uid stored g).
Definition ClearFailureRecord (uid user_id : Z) (g : soft_gatekeeper) : soft_gatekeeper :=
  store_record uid (mk_failure user_id 0 0) g.
Definition WriteFailureRecord (uid : Z) (r : failure_record) (g : soft_gatekeeper) : soft_gatekeeper := store_record uid r g.

(** A record is read back for the user it is about, whatever happens to other uids; for
    another user it starts again at zero. *)
Lemma failure_record_read_back uid r g v user : uid <> v ->
  (GetFailureRecord uid (secure_user_id r) (GetFailureRecord v user (WriteFailureRecord uid r g)).2).1 = r /\
  (user <> secure_user_id r -> (GetFailureRecord uid user (WriteFailureRecord uid r g)).1 = mk_failure user 0 0).
Proof.
  intros Hne. unfold GetFailureRecord, WriteFailureRecord, stored_record, store_record. cbn. split.
  - rewrite (lookup_insert_ne _ v uid) by done. rewrite lookup_insert_eq. cbn. by rewrite Z.eqb_refl.
  - intros Hu. rewrite lookup_insert_eq. cbn. by rewrite (proj2 (Z.eqb_neq _ _)).
Qed.

(** ** Verification *)

Section verification.
Context (SHA256 : list Z -> list Z).
(** Password handles of the library, the user in them, and [GateKeeper::DoVerify]. *)
Context {handle : Type} (user_id : handle -> Z) (GateKeeper_DoVerify : handle -> list Z -> bool).

Definition ComputeFastHash (password : list Z) (salt : Z) : fast_hash :=
  mk_fast_hash salt (SHA256 (le_bytes 8 salt ++ password)).

Definition VerifyFast (f : fast_hash) (password : list Z) : bool :=
  bool_decide (digest (ComputeFastHash password (salt f)) = digest f).

(** [random] is what [GetRandom] puts into the salt. *)
Definition DoVerify (random : Z) (expected : handle) (password : list Z) (g : soft_gatekeeper) : bool * soft_gatekeeper :=
  let user := user_id expected in
  if match fast_hash_map_ g !! user with Some f => VerifyFast f password | None => false end then (true, g)
  else if GateKeeper_DoVerify expected password
       then (true, mk_keeper (key_ g) (failure_map_ g) (<[user := ComputeFastHash password random]> (fast_hash_map_ g)))
       else (false, g).

(** A sequence of verifications: handle, password, random salt. *)
Definition attempt : Type := handle * list Z * Z.
Definition run_attempts (l : list attempt) (g : soft_gatekeeper) : soft_gatekeeper :=
  foldl (fun g a => (DoVerify a.2 a.1.1 a.1.2 g).2) g l.

(** Where the hashes of the cache come from. *)
Definition cached_from (l : list attempt) (g : soft_gatekeeper) : Prop :=
  forall u f, fast_hash_map_ g !! u = Some f -> exists h pw r, (h, pw, r) ∈ l /\ user_id h = u /\
    GateKeeper_DoVerify h pw = true /\ f = ComputeFastHash pw r.

Lemma DoVerify_cached l r h pw g : cached_from l g -> cached_from (l ++ [(h, pw, r)]) (DoVerify r h pw g).2.
Proof.
  intros Hg u f Hf.
  assert (Hold : fast_hash_map_ g !! u = Some f -> exists h0 pw0 r0, (h0, pw0, r0) ∈ l ++ [(h, pw, r)] /\ user_id h0 = u /\
    GateKeeper_DoVerify h0 pw0 = true /\ f = ComputeFastHash pw0 r0).
  { intros (h0 & pw0 & r0 & Hin & Hrest)%Hg. exists h0, pw0, r0. split; [apply elem_of_app; by left|done]. }
  unfold DoVerify in Hf. case_match; [by apply Hold|]. case_match eqn:Hv; cbn in Hf; [|by apply Hold].
  apply lookup_insert_Some in Hf as [[<- <-]|[_ Hf]]; [|by apply Hold].
  exists h, pw, r. split_and!; [apply elem_of_app; right; left|done|done|done].
Qed.

Lemma run_attempts_cached l : cached_from l (run_attempts l new_keeper).
Proof.
  induction l as [|[[h pw] r] l IH] using rev_ind; [by intros u f Hf; cbn in Hf; rewrite lookup_empty in Hf|].
  unfold run_attempts. rewrite foldl_app. cbn. by apply DoVerify_cached.
Qed.

(** C25. After any sequence of verifications a password is accepted only if the slow
    verification accepts it now or accepted, earlier and for the same user, a password
    with the same salted hash. *)
Theorem DoVerify_sound l r h pw : (DoVerify r h pw (run_attempts l new_keeper)).1 = true ->
  GateKeeper_DoVerify h pw = true \/
  exists h' pw' r', (h', pw', r') ∈ l /\ user_id h' = user_id h /\ GateKeeper_DoVerify h' pw' = true /\
    SHA256 (le_bytes 8 r' ++ pw) = SHA256 (le_bytes 8 r' ++ pw').
Proof.
  unfold DoVerify. destruct (fast_hash_map_ _ !! user_id h) as [f|] eqn:Hf.
  - destruct (run_attempts_cached l _ f Hf) as (h' & pw' & r' & Hin & Hu & Hv & ->).
    case_match eqn:Hfast; [|by case_match; auto]. intros _. right. exists h', pw', r'.
    split_and!; [done|done|done|]. by apply bool_decide_eq_true_1 in Hfast.
  - by case_match; auto.
Qed.

(** An attempt that is rejected, or about another user, leaves a user's hash alone. *)
Lemma DoVerify_other r h pw g u : (DoVerify r h pw g).1 = false \/ user_id h <> u ->
  fast_hash_map_ (DoVerify r h pw g).2 !! u = fast_hash_map_ g !! u.
Proof.
  unfold DoVerify. repeat case_match; cbn; intros [|Hne]; try done; by rewrite lookup_insert_ne.
Qed.

Definition harmless (u : Z) (g : soft_gatekeeper) (a : attempt) : Prop :=
  (DoVerify a.2 a.1.1 a.1.2 g).1 = false \/ user_id a.1.1 <> u.

(** A password that has been accepted is accepted again for every handle of its user,
    whatever the slow verification says of that handle, until another password of the
    user is accepted: also for the handle of a password enrolled in its place. *)
Theorem stale_password_accepted r1 h1 pw g l r2 h2 :
  (DoVerify r1 h1 pw g).1 = true -> user_id h2 = user_id h1 ->
  (forall k a, l !! k = Some a -> harmless (user_id h1) (run_attempts (take k l) (DoVerify r1 h1 pw g).2) a) ->
  (DoVerify r2 h2 pw (run_attempts l (DoVerify r1 h1 pw g).2)).1 = true.
Proof.
  intros Hacc Hu Hl. set (g1 := (DoVerify r1 h1 pw g).2) in *.
  assert (Hc : exists f, fast_hash_map_ g1 !! user_id h1 = Some f /\ VerifyFast f pw = true).
  { unfold g1. unfold DoVerify in *. case_match eqn:Hf.
    - cbn. destruct (fast_hash_map_ g !! user_id h1) as [f|]; [by exists f|done].
    - case_match; [|done]. cbn. rewrite lookup_insert_eq. eexists; split; [done|]. by apply bool_decide_eq_true_2. }
  assert (Hc' : exists f, fast_hash_map_ (run_attempts l g1) !! user_id h1 = Some f /\ VerifyFast f pw = true).
  { clearbody g1. clear Hacc. induction l as [|a l IH] using rev_ind; [done|]. unfold run_attempts. rewrite foldl_app. cbn.
    change (foldl _ g1 l) with (run_attempts l g1). rewrite DoVerify_other.
    - apply IH. intros k b Hk. specialize (Hl k b ltac:(by apply lookup_app_l_Some)).
      rewrite take_app_le in Hl by (apply Nat.lt_le_incl; by eapply lookup_lt_Some). done.
    - specialize (Hl (length l) a ltac:(by apply list_lookup_middle)). by rewrite take_app_length in Hl. }
  destruct Hc' as (f & Hf & Hv). unfold DoVerify. rewrite Hu, Hf, Hv. done.
Qed.
End verification.

(** ** The device ([SoftGateKeeperDevice]) *)

Inductive gatekeeper_error := ERROR_NONE | ERROR_RETRY | ERROR_OTHER.

Record enroll_request := mk_enroll_request {
  e_user : Z; current_password_handle : list Z; desired_password : list Z; current_password : list Z }.
Record enroll_response := mk_enroll_response {
  e_error : gatekeeper_error; e_retry_timeout : Z; enrolled_password_handle : list Z }.
Record verify_request := mk_verify_request {
  v_user : Z; challenge : Z; password_handle : list Z; provided_password : list Z }.
Record verify_response := mk_verify_response {
  v_error : gatekeeper_error; v_retry_timeout : Z; auth_token : list Z; request_reenroll : bool }.

Section device.
(** The messages of the library, and the flag [hardware_backed] in a handle. *)
Context (Enroll : enroll_request -> soft_gatekeeper -> enroll_response * soft_gatekeeper).
Context (Verify : verify_request -> soft_gatekeeper -> verify_response * soft_gatekeeper).
Context (set_hardware_backed : list Z -> list Z).

(** A pointer with its length: null or the bytes. *)
Definition given (p : option (list Z)) : bool := match p with Some (_ :: _) => true | _ => false end.

(** The result and what is stored through the two output pointers. *)
Definition enroll (uid : Z) (cur_handle cur_password desired : option (list Z)) (outputs_given : bool) (g : soft_gatekeeper)
    : Z * option (list Z) * soft_gatekeeper :=
  if negb outputs_given || negb (given desired) then (- EINVAL, None, g)
  else
    let both := given cur_handle && given cur_password in
    let '(response, g) := Enroll (mk_enroll_request uid (if both then default [] cur_handle else []) (default [] desired)
                                    (if both then default [] cur_password else [])) g in
    match e_error response with
    | ERROR_RETRY => (wrap_s32 (e_retry_timeout response), None, g)
    | ERROR_OTHER => (- EINVAL, None, g)
    | ERROR_NONE => (0, Some (set_hardware_backed (enrolled_password_handle response)), g)
    end.

(** The outputs: the token, if both its pointers are given, and the flag. *)
Definition verify (uid challenge : Z) (handle password : option (list Z)) (token_given reenroll_given : bool)
    (g : soft_gatekeeper) : Z * option (list Z) * option bool * soft_gatekeeper :=
  match handle, password with
  | Some handle, Some password =>
      let '(response, g) := Verify (mk_verify_request uid challenge handle password) g in
      match v_error response with
      | ERROR_RETRY => (wrap_s32 (v_retry_timeout response), None, None, g)
      | ERROR_OTHER => (- EINVAL, None, None, g)
      | ERROR_NONE => (0, if token_given then Some (auth_token response) else None,
                       if reenroll_given then Some (request_reenroll response) else None, g)
      end
  | _, _ => (- EINVAL, None, None, g)
  end.

(** An enrolled handle is stored exactly when the library enrolled the desired password. *)
Lemma enroll_outputs uid h c d o g : let '(ret, out, _) := enroll uid h c d o g in
  is_Some out <-> o = true /\ given d = true /\
    e_error (Enroll (mk_enroll_request uid (if given h && given c then default [] h else []) (default [] d)
               (if given h && given c then default [] c else [])) g).1 = ERROR_NONE.
Proof.
  unfold enroll. destruct o, (given d) eqn:Hd; cbn; try (split; [by intros []|by intros (? & ? & ?)]).
  destruct (Enroll _ g) as [response g']. cbn. destruct (e_error response); cbn.
  all: split; first [by intros [] | by intros (? & ? & ?) | by eexists | done].
Qed.

(** ** The module ([module.cpp]) *)

(** The static device: a pointer, and the objects that exist. *)
Record module_state := mk_module { s_gatekeeper : option positive; objects : gmap positive soft_gatekeeper; fresh : positive }.
Definition loaded : module_state := mk_module None ∅ 1%positive.

Inductive module_result (A : Type) := Val (a : A) (m : module_state) | Abort | Dangling.
Arguments Val {A}. Arguments Abort {A}. Arguments Dangling {A}.

Definition tegra_gatekeeper_open (name_ok : bool) (m : module_state) : module_result Z :=
  if negb name_ok then Abort
  else Val 0 (mk_module (Some (fresh m)) (<[fresh m := new_keeper]> (objects m)) (fresh m + 1)%positive).

(** The pointer that is set to null is a local variable. *)
Definition close_device (m : module_state) : module_result Z :=
  match s_gatekeeper m with
  | None => Val 0 m
  | Some p =>
      match objects m !! p with
      | None => Dangling
      | Some _ => Val 0 (mk_module (s_gatekeeper m) (delete p (objects m)) (fresh m))
      end
  end.

(** A call on the object behind the pointer. *)
Definition on_object {A} (f : soft_gatekeeper -> A * soft_gatekeeper) (null : module_result A) (m : module_state) : module_result A :=
  match s_gatekeeper m with
  | None => null
  | Some p =>
      match objects m !! p with
      | None => Dangling
      | Some g => let '(a, g) := f g in Val a (mk_module (s_gatekeeper m) (<[p := g]> (objects m)) (fresh m))
      end
  end.

Definition module_enroll (uid : Z) (h c d : option (list Z)) (o : bool) (m : module_state) : module_result (Z * option (list Z)) :=
  on_object (enroll uid h c d o) Abort m.
Definition module_verify (uid ch : Z) (h pw : option (list Z)) (t r : bool) (m : module_state)
    : module_result (Z * option (list Z) * option bool) :=
  on_object (verify uid ch h pw t r) (Val (- EINVAL, None, None) m) m.

Inductive module_call :=
| Open | Close
| CallEnroll (uid : Z) (h c d : option (list Z)) (o : bool)
| CallVerify (uid ch : Z) (h pw : option (list Z)) (t r : bool).

Definition run_call (c : module_call) (m : module_state) : module_result () :=
  let forget {A} (r : module_result A) : module_result () :=
    match r with Val _ m => Val () m | Abort => Abort | Dangling => Dangling end in
  match c with
  | Open => forget (tegra_gatekeeper_open true m)
  | Close => forget (close_device m)
  | CallEnroll uid h c d o => forget (module_enroll uid h c d o m)
  | CallVerify uid ch h pw t r => forget (module_verify uid ch h pw t r m)
  end.
Fixpoint run_calls (cs : list module_call) (m : module_state) : module_result () :=
  match cs with
  | [] => Val () m
  | c :: cs => match run_call c m with Val _ m => run_calls cs m | Abort => Abort | Dangling => Dangling end
  end.

(** Opened before it is used, closed before it is opened again.  The answer is whether it
    is open at the end; [None] is improper use. *)
Fixpoint proper (is_open : bool) (cs : list module_call) : option bool :=
  match cs with
  | [] => Some is_open
  | Open :: cs => if is_open then None else proper true cs
  | Close :: cs => if is_open then proper false cs else None
  | _ :: cs => if is_open then proper true cs else None
  end.

Definition module_inv (is_open : bool) (m : module_state) : Prop :=
  if is_open then exists p g, s_gatekeeper m = Some p /\ objects m = {[p := g]} else objects m = ∅.

Lemma on_object_inv {A} (f : soft_gatekeeper -> A * soft_gatekeeper) null m : module_inv true m ->
  exists a m', on_object f null m = Val a m' /\ module_inv true m'.
Proof.
  intros (p & g & Hp & Ho). unfold on_object. rewrite Hp, Ho, lookup_singleton_eq. destruct (f g) as [a g'].
  eexists _, _. split; [done|]. exists p, g'. cbn. by rewrite insert_singleton_eq.
Qed.

(** Opened and closed in turn, the module uses and frees only the object that exists, and
    after the last close there is none. *)
Theorem gatekeeper_module_safe cs : forall is_open m is_open', module_inv is_open m -> proper is_open cs = Some is_open' ->
  exists m', run_calls cs m = Val () m' /\ module_inv is_open' m'.
Proof.
  induction cs as [|c cs IH]; intros is_open m is_open' Hm Hp; [injection Hp as <-; by exists m|].
  assert (Hstep : exists o m', run_call c m = Val () m' /\ module_inv o m' /\ proper o cs = Some is_open').
  { destruct c as [| |uid h cp d o|uid ch h pw t r]; cbn [proper] in Hp; destruct is_open; try done.
    - exists true. eexists. split; [done|]. split; [|done]. exists (fresh m), new_keeper. cbn. split; [done|].
      unfold module_inv in Hm. by rewrite Hm.
    - destruct Hm as (p & g & Hp' & Ho). exists false. cbn. unfold close_device. rewrite Hp', Ho, lookup_singleton_eq.
      eexists; split; [done|]. split; [|done]. cbn. by rewrite delete_singleton_eq.
    - destruct (on_object_inv (enroll uid h cp d o) Abort m Hm) as (a & m' & He & Hm'). exists true, m'. cbn.
      unfold module_enroll. by rewrite He.
    - destruct (on_object_inv (verify uid ch h pw t r) (Val (- EINVAL, None, None) m) m Hm) as (a & m' & He & Hm').
      exists true, m'. cbn. unfold module_verify. by rewrite He. }
  destruct Hstep as (o & m' & Hr & Hm' & Hp'). cbn [run_calls]. rewrite Hr. by apply (IH o).
Qed.

(** Closing twice frees twice; opening twice loses an object, and closing one of the two
    devices frees what the other uses. *)
Example closed_twice : run_calls [Open; Close; Close] loaded = Dangling.
Proof. reflexivity. Qed.
Example opened_twice : match run_calls [Open; Open; Close] loaded with Val _ m => size (objects m) | _ => 0%nat end = 1%nat.
Proof. reflexivity. Qed.
Example shared_object uid h c d : run_calls [Open; Open; Close; CallEnroll uid h c d true] loaded = Dangling.
Proof. reflexivity. Qed.
End device.

(** ** A run *)

(** A stand-in for the hash that keeps its input, and handles that are a user and a
    password. *)
Definition plain_hash (l : list Z) : list Z := l.
Definition plain_verify (h : Z * list Z) (pw : list Z) : bool := bool_decide (h.2 = pw).

Example DoVerify_sound_witness :
  plain_verify (7, [1; 2]) [1; 2] = true \/
  exists h' pw' r', (h', pw', r') ∈ [((7, [1; 2]), [1; 2], 5)] /\ fst h' = fst (7, [1; 2]) /\ plain_verify h' pw' = true /\
    plain_hash (le_bytes 8 r' ++ [1; 2]) = plain_hash (le_bytes 8 r' ++ pw').
Proof. apply (DoVerify_sound plain_hash fst plain_verify [((7, [1; 2]), [1; 2], 5)] 6 (7, [1; 2]) [1; 2]). reflexivity. Defined.

(** The password 1 is enrolled and verified; after 2 has been enrolled for the same user,
    1 is still accepted for the new handle, which is of no other password. *)
Example old_password : let g := (DoVerify plain_hash fst plain_verify 5 (7, [1]) [1] new_keeper).2 in
  ((DoVerify plain_hash fst plain_verify 6 (7, [2]) [1] g).1, plain_verify (7, [2]) [1]) = (true, false).
Proof. reflexivity. Qed.
