(* ===== verification/TinyRing.v ===== *)
(** * The ring of a memory-mapped PCM (tinyalsa/src/pcm.c)

    A PCM opened with [PCM_MMAP] shares a ring of [buffer_size] frames with the driver.
    The driver's pointer [hw_ptr] and the application's [appl_ptr] count frames modulo
    [boundary], a multiple of the size; the application may leave its pointer at
    [boundary] itself.  The structures are refreshed by an ioctl that may fail.

    [committed] and [seen] are history: the frames the application has passed on, and the
    driver's count when [hw_ptr] was last refreshed.  [current_avail_spec]: the wrapped
    difference is the true one.  [transfer_in_ring]: a transfer touches nothing outside
    the ring and the caller's buffer, ends, and moves the pointer by what it has copied;
    for playback the ring then holds the caller's frames at the positions the pointer has
    passed, and elsewhere what it held.  [direct_status_fails]: where the kernel lets the
    status page be mapped, no transfer succeeds. *)

From S2P Require Import Prelude.

(** ** The boundary of the pointers ([pcm_set_config]) *)

(** [while (boundary * 2 <= INT_MAX - buffer_size) boundary *= 2;], all unsigned;
    [None] is out of fuel. *)
Fixpoint grow_boundary (fuel : nat) (buffer_size boundary : Z) : option Z :=
  if wrap_u32 (boundary * 2) <=? wrap_u32 (INT_MAX - buffer_size) then
    match fuel with O => None | S fuel => grow_boundary fuel buffer_size (wrap_u32 (boundary * 2)) end
  else Some boundary.

Lemma grow_boundary_spec buffer_size fuel : forall boundary k, 0 < buffer_size -> 0 <= k -> boundary = buffer_size * 2 ^ k ->
  boundary <= INT_MAX - buffer_size -> INT_MAX < boundary * 2 ^ Z.of_nat fuel ->
  exists b j, grow_boundary fuel buffer_size boundary = Some b /\ k <= j /\ b = buffer_size * 2 ^ j /\
    b <= INT_MAX - buffer_size < b * 2.
Proof.
  unfold INT_MAX. induction fuel as [|fuel IH]; intros boundary k Hb Hk He Hle Hf; cbn [grow_boundary]; unfold INT_MAX.
  - change (2 ^ Z.of_nat 0) with 1 in Hf. lia.
  - assert (0 < boundary) by (rewrite He; apply Z.mul_pos_pos; [done|by apply Z.pow_pos_nonneg]). rewrite !wrap_u32_id by lia.
    case_match; breflect.
    + destruct (IH (boundary * 2) (k + 1)) as (b & j & Hg & Hj & Hrest); [done|lia| |lia| |].
      { rewrite He, Z.pow_add_r by lia. ring. }
      { replace (Z.of_nat (S fuel)) with (Z.of_nat fuel + 1) in Hf by lia. rewrite Z.pow_add_r in Hf by lia.
        replace (boundary * 2 * 2 ^ Z.of_nat fuel) with (boundary * (2 ^ Z.of_nat fuel * 2 ^ 1)) by ring. done. }
      exists b, j. split; [done|]. split; [lia|done].
    + exists boundary, k. split; [done|]. split; [lia|]. split; [done|lia].
Qed.

(** For a ring of up to a third of the integers the loop ends within 31 rounds, with the
    largest multiple by a power of two that leaves room for the arithmetic below. *)
Lemma boundary_found buffer_size : 0 < buffer_size -> 3 * buffer_size <= INT_MAX -> exists b j,
  grow_boundary 31 buffer_size buffer_size = Some b /\ 0 < j /\ b = buffer_size * 2 ^ j /\ b <= INT_MAX - buffer_size < b * 2.
Proof.
  intros Hb Hm. destruct (grow_boundary_spec buffer_size 31 buffer_size 0) as (b & j & Hg & Hj & He & Hr); try done; try lia.
  { unfold INT_MAX. change (2 ^ Z.of_nat 31) with (2 ^ 31). lia. }
  exists b, j. split; [done|]. split; [|done]. destruct (decide (j = 0)) as [->|]; [|lia].
  change (2 ^ 0) with 1 in He. lia.
Qed.

(** A ring of no frames: the loop does not end. *)
Lemma empty_ring_hangs fuel : grow_boundary fuel 0 0 = None.
Proof. by induction fuel. Qed.

(** ** The ring *)

Record ring := mk_ring {
  hw_ptr : Z; appl_ptr : Z; mmap_buffer : list Z; user_buffer : list Z; syncs : nat; committed : Z; seen : Z }.

(** [memcpy]; [None] where it leaves a buffer. *)
Definition memcpy (dst : list Z) (doff : Z) (src : list Z) (soff n : Z) : option (list Z) :=
  if (0 <=? n) && (0 <=? doff) && (doff + n <=? zlen dst) && (0 <=? soff) && (soff + n <=? zlen src)
  then Some (zwrite doff (take (Z.to_nat n) (drop (Z.to_nat soff) src)) dst) else None.

Section ring.
(** Sizes of the ring, of the pointers' range and of a frame in bytes; the direction;
    whether the structures are refreshed by the ioctl, when it succeeds, and what the
    driver has then reached. *)
Context (buffer_size boundary frame_bytes : Z) (capture has_sync_ptr : bool).
Context (ioctl_ok : nat -> bool) (driver : nat -> Z -> Z -> Z).

Definition frames_to_bytes (frames : Z) : Z := wrap_u32 (frames * frame_bytes).

Definition pcm_sync_ptr (r : ring) : Z * ring :=
  if has_sync_ptr then
    if ioctl_ok (syncs r) then
      let h := driver (syncs r) (committed r) (seen r) in
      (0, mk_ring (h mod boundary) (appl_ptr r) (mmap_buffer r) (user_buffer r) (S (syncs r)) (committed r) h)
    else (-1, mk_ring (hw_ptr r) (appl_ptr r) (mmap_buffer r) (user_buffer r) (S (syncs r)) (committed r) (seen r))
  else (-1, r).

Definition pcm_mmap_playback_avail (r : ring) : Z :=
  let avail := wrap_s32 (hw_ptr r + buffer_size - appl_ptr r) in
  if avail <? 0 then wrap_s32 (avail + boundary)
  else if wrap_s32 boundary <=? avail then wrap_s32 (avail - boundary) else avail.
Definition pcm_mmap_capture_avail (r : ring) : Z :=
  let avail := wrap_s32 (hw_ptr r - appl_ptr r) in
  if avail <? 0 then wrap_s32 (avail + boundary) else avail.
Definition current_avail (r : ring) : Z := if capture then pcm_mmap_capture_avail r else pcm_mmap_playback_avail r.
Definition pcm_mmap_avail (r : ring) : Z * ring := let r := (pcm_sync_ptr r).2 in (current_avail r, r).

Definition pcm_mmap_appl_forward (frames : Z) (r : ring) : ring :=
  let appl := wrap_u32 (appl_ptr r + frames) in
  mk_ring (hw_ptr r) (if boundary <? appl then wrap_u32 (appl - boundary) else appl) (mmap_buffer r) (user_buffer r) (syncs r)
    (committed r + frames) (seen r).

Definition pcm_avail_update (r : ring) : Z * ring := pcm_mmap_avail (pcm_sync_ptr r).2.

(** The offset and the number of frames to copy. *)
Definition pcm_mmap_begin (frames : Z) (r : ring) : Z * Z * ring :=
  let offset := appl_ptr r mod buffer_size in
  let '(avail, r) := pcm_mmap_avail r in
  let avail := if buffer_size <? wrap_u32 avail then buffer_size else wrap_u32 avail in
  let continuous := wrap_u32 (buffer_size - offset) in
  let copy_frames := if avail <? frames then avail else frames in
  let copy_frames := if continuous <? copy_frames then continuous else copy_frames in
  (offset, copy_frames, r).

Definition pcm_mmap_commit (frames : Z) (r : ring) : Z * ring :=
  let '(ret, r) := pcm_sync_ptr (pcm_mmap_appl_forward frames r) in
  if negb (ret =? 0) then (ret, r) else (wrap_s32 frames, r).

Definition pcm_areas_copy (pcm_offset src_offset frames : Z) (r : ring) : option ring :=
  let size_bytes := wrap_s32 (frames_to_bytes frames) in
  let pcm_offset_bytes := wrap_s32 (frames_to_bytes pcm_offset) in
  let src_offset_bytes := wrap_s32 (frames_to_bytes src_offset) in
  if capture then
    user ← memcpy (user_buffer r) src_offset_bytes (mmap_buffer r) pcm_offset_bytes size_bytes;
    Some (mk_ring (hw_ptr r) (appl_ptr r) (mmap_buffer r) user (syncs r) (committed r) (seen r))
  else
    buffer ← memcpy (mmap_buffer r) pcm_offset_bytes (user_buffer r) src_offset_bytes size_bytes;
    Some (mk_ring (hw_ptr r) (appl_ptr r) buffer (user_buffer r) (syncs r) (committed r) (seen r)).

(** [None]: a copy leaves a buffer, or out of fuel. *)
Fixpoint pcm_mmap_transfer_areas (fuel : nat) (offset size count : Z) (r : ring) : option (Z * ring) :=
  if 0 <? size then
    match fuel with
    | O => None
    | S fuel =>
        let '(pcm_offset, frames, r) := pcm_mmap_begin size r in
        r ← pcm_areas_copy pcm_offset offset frames r;
        let '(commit, r) := pcm_mmap_commit frames r in
        if commit <? 0 then Some (commit, r)
        else pcm_mmap_transfer_areas fuel (wrap_u32 (offset + commit)) (wrap_u32 (size - commit)) (wrap_u32 (count + commit)) r
    end
  else Some (wrap_s32 count, r).

(** ** The invariant *)

(** What the driver can have reached when [a] frames are committed. *)
Definition in_window (a h : Z) : Prop := if capture then a <= h < a + boundary else a - buffer_size <= h <= a.

(** The frames available in truth. *)
Definition available (r : ring) : Z := if capture then seen r - committed r else seen r + buffer_size - committed r.

Record sizes_ok : Prop := {
  size_pos : 0 < buffer_size;
  boundary_multiple : (buffer_size | boundary);
  boundary_more : buffer_size < boundary;
  boundary_room : boundary <= INT_MAX - buffer_size;
  frame_pos : 0 < frame_bytes;
  ring_bytes : buffer_size * frame_bytes <= INT_MAX;
}.

(** The driver never goes back and stays in its window. *)
Definition driver_ok : Prop := forall i a h, in_window a h -> h <= driver i a h /\ in_window a (driver i a h).

Record ring_ok (r : ring) : Prop := {
  ok_window : in_window (committed r) (seen r);
  ok_hw : hw_ptr r = seen r mod boundary;
  ok_appl : 0 <= appl_ptr r <= boundary /\ appl_ptr r mod boundary = committed r mod boundary;
  ok_buffer : zlen (mmap_buffer r) = buffer_size * frame_bytes;
  ok_user : zlen (user_buffer r) <= INT_MAX;
}.

Context (Hsizes : sizes_ok) (Hdriver : driver_ok).

Lemma appl_offset r : ring_ok r -> appl_ptr r mod buffer_size = committed r mod buffer_size.
Proof.
  intros [_ _ [_ Ha] _ _]. destruct Hsizes. 
  rewrite <- (Z.mod_mod_divide (appl_ptr r) boundary buffer_size), <- (Z.mod_mod_divide (committed r) boundary buffer_size) by done.
  by rewrite Ha.
Qed.

(** Two numbers below [boundary] that agree modulo [boundary] are equal. *)
Lemma mod_unique_small x y : 0 <= x < boundary -> 0 <= y < boundary -> x mod boundary = y mod boundary -> x = y.
Proof. intros Hx Hy He. by rewrite !Z.mod_small in He. Qed.

(** The difference of the wrapped pointers is the number of frames that are available in
    truth, although each pointer has wrapped any number of times. *)
Lemma current_avail_spec r : ring_ok r -> current_avail r = available r.
Proof.
  intros [Hw Hh [Ha He] _ _]. destruct Hsizes as [Hb _ Hm Hr _ _]. unfold INT_MAX in Hr.
  assert (Hhw : 0 <= hw_ptr r < boundary) by (rewrite Hh; apply Z.mod_pos_bound; lia).
  unfold current_avail, available, in_window in *. destruct capture.
  - unfold pcm_mmap_capture_avail. rewrite (wrap_s32_id (hw_ptr r - appl_ptr r)) by (unfold is_int, INT_MIN, INT_MAX; lia).
    assert (Hc : (hw_ptr r - appl_ptr r) mod boundary = (seen r - committed r) mod boundary).
    { by rewrite Zminus_mod, He, Hh, Z.mod_mod, <- Zminus_mod by lia. }
    case_match; breflect.
    + rewrite wrap_s32_id by (unfold is_int, INT_MIN, INT_MAX; lia). apply mod_unique_small; [lia|lia|].
      rewrite <- Hc. replace (hw_ptr r - appl_ptr r + boundary) with (hw_ptr r - appl_ptr r + 1 * boundary) by lia.
      by rewrite Z.mod_add by lia.
    + apply mod_unique_small; [lia|lia|done].
  - unfold pcm_mmap_playback_avail.
    rewrite (wrap_s32_id (hw_ptr r + buffer_size - appl_ptr r)), (wrap_s32_id boundary) by (unfold is_int, INT_MIN, INT_MAX; lia).
    assert (Hc : (hw_ptr r + buffer_size - appl_ptr r) mod boundary = (seen r + buffer_size - committed r) mod boundary).
    { rewrite Zminus_mod, He, <- Zminus_mod. rewrite !(Z.add_sub_swap _ buffer_size).
      rewrite <- Zplus_mod_idemp_l, (Zminus_mod (hw_ptr r)), Hh, Z.mod_mod, <- Zminus_mod by lia. by rewrite Zplus_mod_idemp_l. }
    repeat case_match; breflect.
    + rewrite wrap_s32_id by (unfold is_int, INT_MIN, INT_MAX; lia). apply mod_unique_small; [lia|lia|].
      rewrite <- Hc. replace (hw_ptr r + buffer_size - appl_ptr r + boundary) with (hw_ptr r + buffer_size - appl_ptr r + 1 * boundary) by lia.
      by rewrite Z.mod_add by lia.
    + rewrite wrap_s32_id by (unfold is_int, INT_MIN, INT_MAX; lia). apply mod_unique_small; [lia|lia|].
      rewrite <- Hc. replace (hw_ptr r + buffer_size - appl_ptr r - boundary) with (hw_ptr r + buffer_size - appl_ptr r + (-1) * boundary) by lia.
      by rewrite Z.mod_add by lia.
    + apply mod_unique_small; [lia|lia|done].
Qed.

(** ** A transfer *)

Lemma driver_ge_seen r : ring_ok r -> ring_ok (pcm_sync_ptr r).2 /\ seen r <= seen (pcm_sync_ptr r).2.
Proof.
  intros [Hw Hh Ha Hb Hu]. unfold pcm_sync_ptr. destruct has_sync_ptr; [|by split; [split|cbn; lia]].
  destruct (ioctl_ok (syncs r)); cbn; [|by split; [split|lia]].
  destruct (Hdriver (syncs r) _ _ Hw) as [Hge Hw']. by split; [split|].
Qed.

(** What a refresh leaves alone. *)
Lemma sync_keeps r : committed (pcm_sync_ptr r).2 = committed r /\ appl_ptr (pcm_sync_ptr r).2 = appl_ptr r /\
  mmap_buffer (pcm_sync_ptr r).2 = mmap_buffer r /\ user_buffer (pcm_sync_ptr r).2 = user_buffer r /\
  ((pcm_sync_ptr r).1 = 0 \/ (pcm_sync_ptr r).1 = -1).
Proof. unfold pcm_sync_ptr. repeat case_match; cbn; auto 10. Qed.

Lemma available_range r : ring_ok r -> 0 <= available r < boundary.
Proof.
  intros [Hw _ _ _ _]. destruct Hsizes. unfold available, in_window in *. destruct capture; lia.
Qed.

Lemma forward_ok f r : ring_ok r -> 0 <= f <= buffer_size -> f <= available r -> ring_ok (pcm_mmap_appl_forward f r).
Proof.
  intros [Hw Hh [Ha He] Hb Hu] Hf Hav. destruct Hsizes as [Hs Hd Hm Hr _ _]. unfold INT_MAX in Hr.
  split; cbn; try done.
  - unfold in_window, available in *. destruct capture; lia.
  - rewrite (wrap_u32_id (appl_ptr r + f)) by lia.
    assert (Hc : (appl_ptr r + f) mod boundary = (committed r + f) mod boundary).
    { by rewrite <- Zplus_mod_idemp_l, He, Zplus_mod_idemp_l. }
    case_match; breflect; [|split; [lia|done]]. rewrite wrap_u32_id by lia. split; [lia|].
    replace (appl_ptr r + f - boundary) with (appl_ptr r + f + (-1) * boundary) by lia. by rewrite Z.mod_add by lia.
Qed.

Lemma begin_spec size r : ring_ok r -> 0 < size <= available r -> exists f r',
  pcm_mmap_begin size r = (committed r mod buffer_size, f, r') /\ ring_ok r' /\ r' = (pcm_sync_ptr r).2 /\
  0 < f <= size /\ committed r mod buffer_size + f <= buffer_size /\ size <= available r'.
Proof.
  intros Hr Hs. pose proof (driver_ge_seen r Hr) as [Hr' Hge]. destruct (sync_keeps r) as (Hc & _).
  set (r' := (pcm_sync_ptr r).2) in *. pose proof (available_range r' Hr') as Hav. pose proof Hsizes as [Hp _ Hm Hroom _ _].
  assert (Hmore : available r <= available r') by (unfold available; rewrite Hc; destruct capture; lia).
  pose proof (Z.mod_pos_bound (committed r) buffer_size Hp) as Hoff. unfold INT_MAX in Hroom.
  unfold pcm_mmap_begin, pcm_mmap_avail. fold r'. rewrite current_avail_spec, (appl_offset r Hr) by done.
  rewrite (wrap_u32_id (available r')), (wrap_u32_id (buffer_size - committed r mod buffer_size)) by lia.
  eexists _, r'. split; [done|]. split; [done|]. split; [done|]. split; [|split; [|lia]].
  - repeat case_match; breflect; lia.
  - repeat case_match; breflect; lia.
Qed.

(** The bytes a copy writes. *)
Definition copied (dst dst' src : list Z) (doff soff n : Z) : Prop := zlen dst' = zlen dst /\
  forall i, 0 <= i -> zlookup dst' i = if (doff <=? i) && (i <? doff + n) then zlookup src (soff + (i - doff)) else zlookup dst i.

Lemma memcpy_spec dst doff src soff n : 0 <= n -> 0 <= doff -> doff + n <= zlen dst -> 0 <= soff -> soff + n <= zlen src ->
  exists dst', memcpy dst doff src soff n = Some dst' /\ copied dst dst' src doff soff n.
Proof.
  intros Hn Hd Hdn Hs Hsn. unfold memcpy. rewrite !(proj2 (Z.leb_le _ _)) by done. cbn [andb]. eexists; split; [done|].
  assert (Hlen : zlen (take (Z.to_nat n) (drop (Z.to_nat soff) src)) = n).
  { unfold zlen in *. rewrite length_take, length_drop. lia. }
  split; [unfold zlen; by rewrite length_zwrite|]. intros i Hi. unfold zlookup. rewrite (proj2 (Z.ltb_ge i 0)) by lia.
  case_match eqn:Hin; breflect.
  - rewrite (proj2 (Z.ltb_ge (soff + (i - doff)) 0)) by lia. rewrite zwrite_lookup_in by lia.
    rewrite lookup_take_lt by lia. rewrite lookup_drop. f_equal. lia.
  - apply zwrite_lookup_out; [done|done|]. rewrite Hlen. apply andb_false_iff in Hin as [Hin|Hin]; breflect; lia.
Qed.

(** A chunk that lies in both buffers is copied. *)
Lemma areas_copy_spec po so f r : ring_ok r -> 0 <= po -> 0 < f -> po + f <= buffer_size -> 0 <= so ->
  (so + f) * frame_bytes <= zlen (user_buffer r) -> exists r', pcm_areas_copy po so f r = Some r' /\ ring_ok r' /\
    committed r' = committed r /\ seen r' = seen r /\ appl_ptr r' = appl_ptr r /\ zlen (user_buffer r') = zlen (user_buffer r) /\
    (capture = false -> user_buffer r' = user_buffer r /\
       copied (mmap_buffer r) (mmap_buffer r') (user_buffer r) (po * frame_bytes) (so * frame_bytes) (f * frame_bytes)).
Proof.
  intros [Hw Hh Ha Hb Hu] Hpo Hf Hpf Hso Hsf. destruct Hsizes as [Hs _ _ _ Hfb Hrb].
  unfold pcm_areas_copy, frames_to_bytes. unfold INT_MAX in *.
  assert (0 <= po * frame_bytes /\ 0 <= so * frame_bytes /\ 0 <= f * frame_bytes /\
          po * frame_bytes + f * frame_bytes <= buffer_size * frame_bytes /\
          so * frame_bytes + f * frame_bytes <= zlen (user_buffer r)) as (H1 & H2 & H3 & H4 & H5) by nia.
  rewrite !wrap_u32_id by lia. rewrite !wrap_s32_id by (unfold is_int, INT_MIN, INT_MAX; lia).
  destruct capture eqn:Hcap.
  - destruct (memcpy_spec (user_buffer r) (so * frame_bytes) (mmap_buffer r) (po * frame_bytes) (f * frame_bytes))
      as (u & -> & Hlen & _); try done; try lia.
    eexists; split; [done|]. split; [split; cbn; try done; unfold INT_MAX; lia|]. by split_and!.
  - destruct (memcpy_spec (mmap_buffer r) (po * frame_bytes) (user_buffer r) (so * frame_bytes) (f * frame_bytes))
      as (u & -> & Hc); try done; try lia.
    eexists; split; [done|]. split; [split; cbn; try done; destruct Hc; unfold INT_MAX; lia|]. by split_and!.
Qed.

(** The place in the ring of byte [b] of the [j]-th frame after [a]. *)
Definition ring_byte (a j b : Z) : Z := (a + j) mod buffer_size * frame_bytes + b.

(** The [n] frames after [a] are those of the user's buffer from [off] on; the rest of the
    ring is as it was. *)
Definition played (a off n : Z) (user m m' : list Z) : Prop :=
  (forall j b, 0 <= j < n -> 0 <= b < frame_bytes -> zlookup m' (ring_byte a j b) = zlookup user ((off + j) * frame_bytes + b)) /\
  (forall i, 0 <= i -> (forall j b, 0 <= j < n -> 0 <= b < frame_bytes -> i <> ring_byte a j b) -> zlookup m' i = zlookup m i).

Lemma ring_byte_range a j b : 0 <= b < frame_bytes -> 0 <= ring_byte a j b.
Proof.
  intros Hb. pose proof Hsizes as [Hp _ _ _ _ _]. pose proof (Z.mod_pos_bound (a + j) buffer_size Hp). unfold ring_byte. nia.
Qed.

(** Frames less than a ring apart have different places. *)
Lemma ring_byte_inj a j b j' b' : 0 <= b < frame_bytes -> 0 <= b' < frame_bytes -> Z.abs (j - j') < buffer_size ->
  ring_byte a j b = ring_byte a j' b' -> j = j'.
Proof.
  intros Hb Hb' Hj He. pose proof Hsizes as [Hp _ _ _ _ _]. unfold ring_byte in He.
  assert (Hm : (a + j) mod buffer_size = (a + j') mod buffer_size) by nia.
  pose proof (Z.div_mod (a + j) buffer_size ltac:(lia)). pose proof (Z.div_mod (a + j') buffer_size ltac:(lia)).
  assert ((a + j) / buffer_size = (a + j') / buffer_size) by nia. lia.
Qed.

Lemma played_chunk a off f user m m' : a mod buffer_size + f <= buffer_size ->
  copied m m' user (a mod buffer_size * frame_bytes) (off * frame_bytes) (f * frame_bytes) -> played a off f user m m'.
Proof.
  intros Hf [_ Hc]. pose proof Hsizes as [Hp _ _ _ Hfb _]. pose proof (Z.mod_pos_bound a buffer_size Hp) as Hr.
  assert (Hplace : forall j, 0 <= j < f -> (a + j) mod buffer_size = a mod buffer_size + j).
  { intros j Hj. rewrite <- Zplus_mod_idemp_l. apply Z.mod_small. lia. }
  split.
  - intros j b Hj Hb. rewrite Hc by (by apply ring_byte_range). unfold ring_byte. rewrite Hplace by done.
    rewrite (proj2 (Z.leb_le _ _)), (proj2 (Z.ltb_lt _ _)) by nia. cbn [andb]. f_equal. nia.
  - intros i Hi Hne. rewrite Hc by done. case_match eqn:Hin; [|done]. exfalso. breflect.
    set (d := i - a mod buffer_size * frame_bytes) in *.
    pose proof (Z.div_mod d frame_bytes ltac:(lia)). pose proof (Z.mod_pos_bound d frame_bytes Hfb).
    assert (0 <= d / frame_bytes < f) by (split; [apply Z.div_pos; lia|apply Z.div_lt_upper_bound; lia]).
    apply (Hne (d / frame_bytes) (d mod frame_bytes)); [done|done|]. unfold ring_byte. rewrite Hplace by done. nia.
Qed.

Lemma played_join a off f n user m m1 m2 : 0 <= f <= n -> n <= buffer_size -> played a off f user m m1 ->
  played (a + f) (off + f) (n - f) user m1 m2 -> played a off n user m m2.
Proof.
  intros Hf Hn [P1 P2] [Q1 Q2].
  assert (Hshift : forall j b, ring_byte (a + f) j b = ring_byte a (f + j) b) by (intros; unfold ring_byte; by rewrite Z.add_assoc).
  split.
  - intros j b Hj Hb. destruct (decide (j < f)) as [Hlt|Hge].
    + rewrite Q2; [apply P1; [lia|done]|by apply ring_byte_range|]. intros j' b' Hj' Hb'. rewrite Hshift.
      intros He%ring_byte_inj; lia.
    + specialize (Q1 (j - f) b ltac:(lia) Hb). rewrite Hshift in Q1. replace (f + (j - f)) with j in Q1 by lia.
      rewrite Q1. f_equal. f_equal. lia.
  - intros i Hi Hne. rewrite Q2; [apply P2; [done|]|done|].
    + intros j b Hj Hb. apply Hne; [lia|done].
    + intros j b Hj Hb. rewrite Hshift. apply Hne; [lia|done].
Qed.

(** What [k] frames of a transfer have done. *)
Definition progress (off k : Z) (r r' : ring) : Prop :=
  committed r' = committed r + k /\ zlen (user_buffer r') = zlen (user_buffer r) /\
  (capture = false -> user_buffer r' = user_buffer r /\
     played (committed r) off k (user_buffer r) (mmap_buffer r) (mmap_buffer r')).

(** One round of the loop. *)
Lemma round_spec off size r : ring_ok r -> 0 < size <= available r -> 0 <= off -> (off + size) * frame_bytes <= zlen (user_buffer r) ->
  exists f r1 r2 r3, pcm_mmap_begin size r = (committed r mod buffer_size, f, r1) /\
    pcm_areas_copy (committed r mod buffer_size) off f r1 = Some r2 /\
    (pcm_mmap_commit f r2 = (f, r3) \/ pcm_mmap_commit f r2 = (-1, r3)) /\
    0 < f <= size /\ f <= buffer_size /\ ring_ok r3 /\ size - f <= available r3 /\ progress off f r r3.
Proof.
  intros Hr Hs Ho Hu. pose proof Hsizes as [Hp _ Hmore Hroom Hfb _].
  destruct (begin_spec size r Hr Hs) as (f & r1 & Hb & Hr1 & -> & Hf & Hend & Hav). destruct (sync_keeps r) as (Hc & _ & Hm & Hub & _).
  set (r1 := (pcm_sync_ptr r).2) in *. pose proof (Z.mod_pos_bound (committed r) buffer_size Hp) as Hoff.
  destruct (areas_copy_spec (committed r mod buffer_size) off f r1 Hr1 ltac:(lia) ltac:(lia) ltac:(lia) Ho)
    as (r2 & Hcp & Hr2 & Hc2 & Hs2 & _ & Hz & Hcopy); [rewrite Hub; nia|].
  assert (Hav2 : available r2 = available r1) by (unfold available; by rewrite Hc2, Hs2).
  pose proof (forward_ok f r2 Hr2 ltac:(lia) ltac:(lia)) as Hfw. pose proof (driver_ge_seen _ Hfw) as [Hr3 Hge].
  destruct (sync_keeps (pcm_mmap_appl_forward f r2)) as (Hc3 & _ & Hm3 & Hu3 & Hret).
  set (r3 := (pcm_sync_ptr (pcm_mmap_appl_forward f r2)).2) in *. cbn in Hc3, Hm3, Hu3, Hge.
  exists f, r1, r2, r3. split; [done|]. split; [done|]. split.
  { unfold pcm_mmap_commit. destruct (pcm_sync_ptr (pcm_mmap_appl_forward f r2)) as [ret rr] eqn:Hsync. cbn in Hret. unfold r3.
    cbn. destruct Hret as [->| ->]; cbn; [left|by right]. rewrite wrap_s32_id by (unfold is_int, INT_MIN, INT_MAX in *; lia). done. }
  split; [done|]. split; [lia|]. split; [done|]. split.
  { unfold available in *. rewrite Hc3. destruct capture; lia. }
  split; [rewrite Hc3, Hc2; lia|]. split; [by rewrite Hu3, Hz, Hub|]. intros Hcap. destruct (Hcopy Hcap) as [Hu2 Hcopied].
  split; [by rewrite Hu3, Hu2, Hub|]. apply played_chunk; [done|]. rewrite Hm3. by rewrite Hm, Hub in Hcopied.
Qed.

Lemma progress_join off f k r r1 r2 : ring_ok r -> 0 <= f -> 0 <= k -> f + k <= available r ->
  progress off f r r1 -> progress (off + f) k r1 r2 -> progress off (f + k) r r2.
Proof.
  intros Hr Hf Hk Hav (H1 & H2 & H3) (K1 & K2 & K3). split; [lia|]. split; [congruence|]. intros Hcap.
  destruct (H3 Hcap) as [Hu P1]. destruct (K3 Hcap) as [Hu' P2]. split; [congruence|].
  assert (f + k <= buffer_size).
  { destruct Hr as [Hw _ _ _ _]. unfold in_window, available in *. rewrite Hcap in *. lia. }
  eapply (played_join _ _ f); [lia|done|exact P1|]. rewrite H1, Hu in P2. by replace (f + k - f) with k by lia.
Qed.

Lemma transfer_spec fuel : forall off size count r, ring_ok r -> 0 <= size <= available r -> 0 <= off ->
  (off + size) * frame_bytes <= zlen (user_buffer r) -> 0 <= count -> count + size <= INT_MAX -> (Z.to_nat size <= fuel)%nat ->
  exists ret r' k, pcm_mmap_transfer_areas fuel off size count r = Some (ret, r') /\ ring_ok r' /\ progress off k r r' /\
    (ret = count + size /\ k = size \/ ret = -1 /\ 0 < k <= size).
Proof.
  induction fuel as [|fuel IH]; intros off size count r Hr Hs Ho Hu Hc Hm Hf; cbn [pcm_mmap_transfer_areas].
  - assert (size = 0) as -> by lia. cbn. exists (wrap_s32 count), r, 0. rewrite wrap_s32_id by (unfold is_int, INT_MIN, INT_MAX in *; lia).
    split; [done|]. split; [done|]. split; [|left; lia]. split; [lia|]. split; [done|]. intros _. split; [done|]. split; [lia|done].
  - destruct (0 <? size) eqn:Hpos; breflect.
    2: { assert (size = 0) as -> by lia. exists (wrap_s32 count), r, 0. rewrite wrap_s32_id by (unfold is_int, INT_MIN, INT_MAX in *; lia).
      split; [done|]. split; [done|]. split; [|left; lia]. split; [lia|]. split; [done|]. intros _. split; [done|]. split; [lia|done]. }
    destruct (round_spec off size r Hr ltac:(lia) Ho Hu) as (f & r1 & r2 & r3 & -> & -> & Hcommit & Hf1 & Hf2 & Hr3 & Hav & Hp).
    cbn [mbind option_bind]. destruct Hcommit as [->| ->].
    + rewrite (proj2 (Z.ltb_ge f 0)) by lia. pose proof Hp as (_ & Hz & _). destruct Hr as [? ? ? ? Hzu].
      pose proof Hsizes as [_ _ _ _ Hfb _]. unfold INT_MAX in *.
      assert (off + size <= zlen (user_buffer r)) by nia. rewrite !wrap_u32_id by lia.
      destruct (IH (off + f) (size - f) (count + f) r3 Hr3 ltac:(lia) ltac:(lia) ltac:(rewrite Hz; by replace (off + f + (size - f)) with (off + size) by lia)
        ltac:(lia) ltac:(lia) ltac:(lia)) as (ret & r' & k & Ht & Hr' & Hp' & Hend).
      exists ret, r', (f + k). split; [done|]. split; [done|]. split.
      * eapply (progress_join off f k r r3); [by split|lia|lia|lia|done|done].
      * destruct Hend as [[-> ->]|[-> ?]]; [left; lia|right; lia].
    + cbn. exists (-1), r3, f. split; [done|]. split; [done|]. split; [done|]. right. lia.
Qed.

(** C36. A transfer of frames that are available, between the ring and a buffer of the
    caller that is large enough, leaves neither; it ends, after at most a round for each
    frame, with all frames passed on, or with -1 when a refresh fails after some of them;
    for playback the frames passed on are those of the caller, in order, at the places the
    pointer went over, and the rest of the ring is unchanged. *)
Theorem transfer_in_ring off size r : ring_ok r -> 0 <= size <= available r -> size <= INT_MAX -> 0 <= off ->
  (off + size) * frame_bytes <= zlen (user_buffer r) ->
  exists ret r' k, pcm_mmap_transfer_areas (Z.to_nat size) off size 0 r = Some (ret, r') /\ ring_ok r' /\ progress off k r r' /\
    (ret = size /\ k = size \/ ret = -1 /\ 0 < k <= size).
Proof. intros. by apply (transfer_spec (Z.to_nat size) off size 0 r). Qed.

(** Without the structure for the ioctl every refresh answers -1, so the first commit
    fails, after its frames have been copied and passed on. *)
Theorem direct_status_fails off size r fuel : has_sync_ptr = false -> ring_ok r -> 0 < size <= available r -> 0 <= off ->
  (off + size) * frame_bytes <= zlen (user_buffer r) ->
  exists r', pcm_mmap_transfer_areas (S fuel) off size 0 r = Some (-1, r') /\ committed r < committed r'.
Proof.
  intros Hsp Hr Hs Ho Hu. destruct (round_spec off size r Hr Hs Ho Hu) as (f & r1 & r2 & r3 & Hb & Hcp & Hcommit & Hf & _ & _ & _ & Hp & _).
  cbn [pcm_mmap_transfer_areas]. rewrite (proj2 (Z.ltb_lt _ _)), Hb, Hcp by lia. cbn [mbind option_bind].
  destruct Hcommit as [Hcm|Hcm]; [exfalso|rewrite Hcm; exists r3; split; [done|lia]].
  unfold pcm_mmap_commit, pcm_sync_ptr in Hcm. rewrite Hsp in Hcm. cbn in Hcm. injection Hcm as ? _. lia.
Qed.

(** ** Starting and waiting *)

Definition PCM_STATE_RUNNING := 3.
Definition PCM_STATE_XRUN := 4.
Definition PCM_STATE_DRAINING := 5.
Definition PCM_STATE_SUSPENDED := 7.
Definition PCM_STATE_DISCONNECTED := 8.

Record player := mk_player { running : bool; prepared : bool; pring : ring }.
Definition on_ring (f : ring -> ring) (p : player) : player := mk_player (running p) (prepared p) (f (pring p)).

(** The thresholds, the divisor of [PCM_NOIRQ] if that flag is set, the answers of the
    ioctls [PREPARE] and [START] and the [errno] after a failure, for each round of the
    loop; [state]: the state in the status page after so many refreshes. *)
Context (start_threshold avail_min : Z) (noirq_frames_per_msec : option Z).
Context (prepares starts : nat -> bool) (errno : nat -> Z) (state : nat -> Z).

Definition pcm_prepare (i : nat) (p : player) : Z * player :=
  if prepared p then (0, p) else if prepares i then (0, mk_player (running p) true (pring p)) else (-1, p).

(** With [PCM_MMAP]. *)
Definition pcm_start (i : nat) (p : player) : Z * player :=
  let '(err, p) := pcm_prepare i p in
  if negb (err =? 0) then (err, p)
  else
    let p := on_ring (fun r => (pcm_sync_ptr r).2) p in
    if starts i then (0, mk_player true (prepared p) (pring p)) else (-1, p).

(** The frames available, for a running stream with a timestamp; [ready]: the handle has a
    descriptor; [tstamp]: the time in the status page after so many refreshes. *)
Definition pcm_get_htimestamp (ready : bool) (tstamp : nat -> Z * Z) (r : ring) : option (Z * (Z * Z)) * ring :=
  if negb ready then (None, r)
  else
    let '(rc, r) := pcm_sync_ptr r in
    if rc <? 0 then (None, r)
    else if negb (state (syncs r) =? PCM_STATE_RUNNING) && negb (state (syncs r) =? PCM_STATE_DRAINING) then (None, r)
    else
      let '(sec, nsec) := tstamp (syncs r) in
      if (sec =? 0) && (nsec =? 0) then (None, r)
      else
        let frames := if capture then wrap_s32 (hw_ptr r - appl_ptr r) else wrap_s32 (hw_ptr r + buffer_size - appl_ptr r) in
        if frames <? 0 then (None, r) else (Some (frames, (sec, nsec)), r).

(** What one [poll] gives: an error with its [errno], nothing in time, or events, with the
    [errno] of whatever failed before. *)
Inductive polled := PollError (e : Z) | PollTimeout | Polled (e : Z) (error_event io_event : bool).

Definition EINTR := 4.
Definition EPIPE := 32.
Definition ESTRPIPE := 86.
Definition ENODEV := 19.
Definition EIO := 5.

Definition pcm_state (r : ring) : Z * ring :=
  let '(err, r) := pcm_sync_ptr r in if err <? 0 then (err, r) else (state (syncs r), r).

(** [None]: the polls are used up. *)
Fixpoint pcm_wait (polls : list polled) (r : ring) : option (Z * ring) :=
  match polls with
  | [] => None
  | PollError e :: _ => Some (- e, r)
  | PollTimeout :: _ => Some (0, r)
  | Polled e error_event io_event :: polls =>
      let again := if io_event then Some (1, r) else pcm_wait polls r in
      if e =? - EINTR then again
      else if error_event then
        let '(st, r) := pcm_state r in
        Some (if st =? PCM_STATE_XRUN then - EPIPE else if st =? PCM_STATE_SUSPENDED then - ESTRPIPE
              else if st =? PCM_STATE_DISCONNECTED then - ENODEV else - EIO, r)
      else again
  end.

(** ** The loop over the whole data ([pcm_mmap_transfer]) *)

(** How the loop ends: a copy leaves a buffer or a division by zero, out of fuel or of
    polls, or a result. *)
Inductive ending := Undefined | NoFuel | Ends (ret : Z) (p : player).

Context (polls : nat -> list polled).

Fixpoint transfer_loop (fuel i : nat) (err offset count : Z) (p : player) : ending :=
  if 0 <? count then
    match fuel with
    | O => NoFuel
    | S fuel =>
        let '(avail, r) := pcm_avail_update (pring p) in
        let p := mk_player (running p) (prepared p) r in
        if avail <? 0 then Ends err p
        else
          let '(start, p) :=
            if negb (running p) && (start_threshold <=? wrap_u32 (buffer_size - avail)) then pcm_start i p else (0, p) in
          if start <? 0 then Ends (- errno i) p
          else if running p && (avail <? avail_min) then
            if bool_decide (noirq_frames_per_msec = Some 0) then Undefined
            else
              match pcm_wait (polls i) (pring p) with
              | None => NoFuel
              | Some (err, r) =>
                  if err <? 0
                  then Ends err (mk_player false false
                         (mk_ring (hw_ptr r) 0 (mmap_buffer r) (user_buffer r) (syncs r) (committed r) (seen r)))
                  else transfer_loop fuel (S i) err offset count (mk_player (running p) (prepared p) r)
              end
          else
            let frames := if avail <? count then avail else count in
            if frames =? 0 then Ends 0 p
            else
              match pcm_mmap_transfer_areas (Z.to_nat frames) offset frames 0 (pring p) with
              | None => Undefined
              | Some (moved, r) =>
                  let p := mk_player (running p) (prepared p) r in
                  if moved <? 0 then Ends moved p
                  else transfer_loop fuel (S i) err (wrap_u32 (offset + moved)) (wrap_u32 (count - moved)) p
              end
    end
  else Ends 0 p.

Definition pcm_bytes_to_frames (bytes : Z) : Z := bytes / frame_bytes.

Definition ENOSYS := 38.

Definition pcm_mmap_transfer (fuel : nat) (bytes : Z) (p : player) : ending :=
  if bytes =? 0 then Ends 0 p else transfer_loop fuel 0 0 0 (pcm_bytes_to_frames bytes) p.

(** [mmap]: the flag [PCM_MMAP]; the one for playback is no bit, so writing to
    a capture stream is not refused. *)
Definition pcm_mmap_write (mmap : bool) (fuel : nat) (count : Z) (p : player) : ending :=
  if negb mmap then Ends (- ENOSYS) p else pcm_mmap_transfer fuel count p.
Definition pcm_mmap_read (mmap : bool) (fuel : nat) (count : Z) (p : player) : ending :=
  if negb (capture && mmap) then Ends (- ENOSYS) p else pcm_mmap_transfer fuel count p.

(** ** Its safety *)

(** The ring stays as it is, but for refreshes. *)
Definition refreshed (r r' : ring) : Prop := ring_ok r' /\ available r <= available r' /\ committed r' = committed r /\
  user_buffer r' = user_buffer r.

Lemma refreshed_refl r : ring_ok r -> refreshed r r.
Proof. intros. split_and!; [done|lia|done|done]. Qed.

Lemma refreshed_trans r1 r2 r3 : refreshed r1 r2 -> refreshed r2 r3 -> refreshed r1 r3.
Proof. intros (_ & ? & ? & ?) (? & ? & ? & ?). split_and!; [done|lia|congruence|congruence]. Qed.

Lemma sync_refreshed r : ring_ok r -> refreshed r (pcm_sync_ptr r).2.
Proof.
  intros Hr. destruct (driver_ge_seen _ Hr) as [Hr' Hge]. destruct (sync_keeps r) as (Hc & _ & _ & Hu & _).
  split_and!; [done| |done|done]. unfold available. rewrite Hc. destruct capture; lia.
Qed.

Lemma pcm_start_spec i p : ring_ok (pring p) -> refreshed (pring p) (pring (pcm_start i p).2) /\
  (0 <= (pcm_start i p).1 -> running (pcm_start i p).2 = true).
Proof.
  intros Hr. pose proof (refreshed_refl _ Hr). unfold pcm_start, pcm_prepare.
  repeat case_match; simplify_eq; cbn in *; simplify_eq; (split; [first [done|by apply sync_refreshed]|lia || done]).
Qed.

Lemma pcm_wait_spec ps r err r' : ring_ok r -> pcm_wait ps r = Some (err, r') -> refreshed r r'.
Proof.
  intros Hr. pose proof (refreshed_refl _ Hr). pose proof (sync_refreshed _ Hr) as Hs. induction ps as [|[e| |e ee io] ps IH]; cbn; try done.
  - by intros [= _ <-].
  - by intros [= _ <-].
  - unfold pcm_state. destruct (pcm_sync_ptr r) as [ret rr]. cbn in Hs. repeat case_match; intros; simplify_eq; try done; by apply IH.
Qed.

(** What a run of the loop guarantees: never undefined; if it answers 0, everything is
    passed on unless the stream is stopped with no frame available. *)
Definition loop_post (committed0 count : Z) (e : ending) : Prop :=
  match e with
  | Undefined => False
  | NoFuel => True
  | Ends ret p => exists k, 0 <= k <= count /\ committed (pring p) = committed0 + k /\
      (ret = 0 -> k = count \/ running p = false /\ available (pring p) = 0)
  end.

Lemma loop_post_more committed0 count k e : 0 <= k <= count -> loop_post (committed0 + k) (count - k) e -> loop_post committed0 count e.
Proof.
  destruct e as [| |ret p]; cbn; try done. intros Hk (j & Hj & Hc & Hret). exists (k + j). split_and!; [lia|lia|lia|].
  intros Hz. destruct (Hret Hz); [left; lia|by right].
Qed.

(** The frames reported with a timestamp: those available, or a whole range of the
    pointers more where only the application's pointer has wrapped. *)
Lemma htimestamp_frames ready tstamp r n t r' : ring_ok r -> pcm_get_htimestamp ready tstamp r = (Some (n, t), r') ->
  n = available r' \/ n = available r' + boundary.
Proof.
  unfold pcm_get_htimestamp. intros Hr. destruct (driver_ge_seen r Hr) as [Hr' _]. destruct (pcm_sync_ptr r) as [rc q]. cbn in Hr'.
  pose proof (current_avail_spec q Hr') as Hav. pose proof (available_range q Hr') as Hrange.
  destruct Hr' as [_ Hh [Ha _] _ _]. destruct Hsizes as [Hb _ _ Hroom _ _]. unfold INT_MAX in Hroom.
  pose proof (Z.mod_pos_bound (seen q) boundary ltac:(lia)) as Hm. rewrite <- Hh in Hm. revert Hav.
  destruct ready; cbn [negb]; [|done]. destruct (rc <? 0); [done|]. destruct (_ && _); [done|]. destruct (tstamp (syncs q)) as [sec nsec].
  destruct (_ && _); [done|]. unfold current_avail, pcm_mmap_capture_avail, pcm_mmap_playback_avail.
  destruct capture; rewrite !wrap_s32_id by (unfold is_int, INT_MIN, INT_MAX; first [lia|destruct (_ <? _); lia]).
  - destruct (_ <? 0); [done|]. intros Hav [= <- _ <-]. by left.
  - destruct (hw_ptr q + buffer_size - appl_ptr q <? 0); [done|]. intros Hav [= <- _ <-]. revert Hav.
    case_match; breflect; intros Hav; [right|by left].
    rewrite (wrap_s32_id boundary) in * by (unfold is_int, INT_MIN, INT_MAX; lia).
    rewrite (wrap_s32_id (_ - boundary)) in Hav by (unfold is_int, INT_MIN, INT_MAX; lia). lia.
Qed.

(** Nothing more is passed on, and the answer is an error. *)
Lemma loop_post_error c n ret p : 0 <= n -> ret < 0 -> committed (pring p) = c -> loop_post c n (Ends ret p).
Proof. intros ? ? ?. exists 0. split_and!; lia. Qed.

(** The thresholds and error numbers are positive, and the divisor is not zero. *)
Definition settings_ok : Prop := 0 < avail_min /\ (forall i, 0 < errno i) /\ noirq_frames_per_msec <> Some 0.
Context (Hset : settings_ok).

(** What the head of a round does before it waits or copies. *)
Lemma head_spec i p : ring_ok (pring p) -> exists avail p1 start p2,
  pcm_avail_update (pring p) = (avail, pring p1) /\ p1 = mk_player (running p) (prepared p) (pring p1) /\
  (if negb (running p1) && (start_threshold <=? wrap_u32 (buffer_size - avail)) then pcm_start i p1 else (0, p1)) = (start, p2) /\
  available (pring p) <= avail <= available (pring p2) /\ refreshed (pring p) (pring p2) /\
  (0 <= start -> running p2 = true \/ available (pring p2) = avail).
Proof.
  intros Hr. pose proof (sync_refreshed _ Hr) as H1. pose proof (sync_refreshed _ (proj1 H1)) as H2.
  pose proof (refreshed_trans _ _ _ H1 H2) as H3. set (r2 := (pcm_sync_ptr (pcm_sync_ptr (pring p)).2).2) in *.
  exists (available r2), (mk_player (running p) (prepared p) r2). cbn.
  pose proof (available_range r2 (proj1 H3)). unfold pcm_avail_update, pcm_mmap_avail. fold r2. rewrite current_avail_spec by apply H3.
  case_match.
  - destruct (pcm_start_spec i (mk_player (running p) (prepared p) r2) (proj1 H3)) as [Hs Hrun]. cbn in Hs.
    destruct (pcm_start i _) as [start p2]. exists start, p2. cbn in *. split_and!; try done; try (apply H3 || apply Hs || lia).
    + by eapply refreshed_trans.
    + intros ?. left. by apply Hrun.
  - eexists 0, _. split_and!; try done; cbn; try lia; apply H3.
Qed.

Lemma transfer_loop_safe fuel : forall i err offset count p, ring_ok (pring p) -> 0 <= offset -> 0 <= count ->
  (offset + count) * frame_bytes <= zlen (user_buffer (pring p)) ->
  loop_post (committed (pring p)) count (transfer_loop fuel i err offset count p).
Proof.
  destruct Hset as (Hmin & Herrno & Hnoirq).
  induction fuel as [|fuel IH]; intros i err offset count p Hr Ho Hc Hu; cbn [transfer_loop];
    (destruct (0 <? count) eqn:Hpos; breflect; [|exists 0; split_and!; try done; lia]); [done|].
  destruct (head_spec i p Hr) as (avail & p1 & start & p2 & -> & Hp1 & Hst & Hav & Href & Hrun). rewrite <- Hp1, Hst. clear Hst Hp1. pose proof (available_range _ Hr).
  rewrite (proj2 (Z.ltb_ge avail 0)) by lia. pose proof Href as (Hr2 & _ & Hc2 & Hu2).
  destruct (start <? 0) eqn:Hstart; breflect; [by apply loop_post_error; [| specialize (Herrno i); lia|]|].
  destruct (running p2 && (avail <? avail_min)) eqn:Hwait.
  - rewrite bool_decide_false by done. destruct (pcm_wait _ _) as [[e r3]|] eqn:Hw; [|done].
    apply pcm_wait_spec in Hw as (Hr3 & _ & Hc3 & Hu3); [|done].
    destruct (e <? 0) eqn:He; breflect; [apply loop_post_error; cbn; congruence || done|].
    rewrite <- Hc2, <- Hc3. apply (IH (S i) e offset count (mk_player (running p2) (prepared p2) r3)); try done. cbn. by rewrite Hu3, Hu2.
  - set (frames := if avail <? count then avail else count).
    assert (Hfr : 0 <= frames <= count /\ frames <= avail) by (unfold frames; case_match; breflect; lia).
    case_match eqn:Hz; breflect.
    + exists 0. split_and!; [lia|lia|lia|]. intros _. right. assert (avail = 0) as -> by (unfold frames in Hz; case_match; breflect; lia).
      apply andb_false_iff in Hwait as [Hw|Hw]; breflect; [|lia]. split; [done|]. destruct (Hrun Hstart); congruence.
    + destruct Hsizes as [_ _ _ _ Hfb _]. pose proof (ok_user _ Hr) as Hzu. unfold INT_MAX in *.
      assert (offset + count <= zlen (user_buffer (pring p))) by nia.
      destruct (transfer_spec (Z.to_nat frames) offset frames 0 (pring p2) Hr2) as (ret & r4 & k & -> & Hr4 & (Hc4 & Hz4 & _) & Hend);
        try lia; [rewrite Hu2; nia|unfold INT_MAX; lia|]. destruct Hend as [[-> ->]|[-> Hk]].
      * rewrite (proj2 (Z.ltb_ge (0 + frames) 0)) by lia. rewrite !wrap_u32_id by lia.
        apply (loop_post_more _ _ frames); [lia|]. rewrite <- Hc2, <- Hc4.
        apply (IH (S i) err (offset + (0 + frames)) (count - (0 + frames)) (mk_player (running p2) (prepared p2) r4)); cbn; try done; try lia.
        rewrite Hz4, Hu2. nia.
      * cbn. exists k. split_and!; lia.
Qed.

(** Where the ring has room for all frames and [avail_min] is what [pcm_hw_mmap_status]
    sets, one round does it: the transfer ends, with 0 and all frames passed on, or with
    the error of starting or of a refresh. *)
Theorem transfer_with_room bytes p : ring_ok (pring p) -> 0 <= bytes <= zlen (user_buffer (pring p)) -> avail_min = 1 ->
  pcm_bytes_to_frames bytes <= available (pring p) -> exists ret p', pcm_mmap_transfer 1 bytes p = Ends ret p' /\
    (ret = 0 /\ committed (pring p') = committed (pring p) + pcm_bytes_to_frames bytes \/ ret < 0).
Proof.
  destruct Hset as (_ & Herrno & _). pose proof Hsizes as [_ _ _ _ Hfb _]. intros Hr Hb Hmin Hroom. unfold pcm_mmap_transfer.
  destruct (bytes =? 0) eqn:Hz; breflect; [subst; exists 0, p; split; [done|]; left; split; [done|]; unfold pcm_bytes_to_frames; rewrite Z.div_0_l; lia|].
  unfold pcm_bytes_to_frames in *. set (count := bytes / frame_bytes) in *.
  assert (0 <= count) by (apply Z.div_pos; lia). pose proof (Z.mul_div_le bytes frame_bytes Hfb) as Hmul. fold count in Hmul.
  cbn [transfer_loop]. destruct (0 <? count) eqn:Hpos; breflect; [|exists 0, p; split; [done|]; left; lia].
  destruct (head_spec 0 p Hr) as (avail & p1 & start & p2 & -> & Hp1 & Hst & Hav & Href & Hrun). rewrite <- Hp1, Hst. clear Hst Hp1.
  pose proof (available_range _ Hr). rewrite (proj2 (Z.ltb_ge avail 0)) by lia. pose proof Href as (Hr2 & _ & Hc2 & Hu2).
  destruct (start <? 0) eqn:Hstart; breflect; [eexists _, p2; split; [done|right; specialize (Herrno 0%nat); lia]|].
  rewrite Hmin, (proj2 (Z.ltb_ge avail 1)), andb_false_r, (proj2 (Z.ltb_ge avail count)), (proj2 (Z.eqb_neq count 0)) by lia.
  pose proof (ok_user _ Hr) as Hzu. unfold INT_MAX in *.
  destruct (transfer_spec (Z.to_nat count) 0 count 0 (pring p2) Hr2) as (ret & r4 & k & -> & Hr4 & (Hc4 & _ & _) & Hend);
    try lia; [rewrite Hu2; nia|unfold INT_MAX; nia|]. destruct Hend as [[-> ->]|[-> Hk]].
  - rewrite (proj2 (Z.ltb_ge (0 + count) 0)) by lia. rewrite (wrap_u32_id (count - _)), Z.add_0_l, Z.sub_diag by nia.
    eexists 0, _. split; [done|]. left. cbn. split; [done|lia].
  - cbn. eexists _, _. split; [done|]. right. lia.
Qed.

(** For any driver, any outcomes of starting and waiting and any number of rounds, a
    transfer of the caller's bytes stays in both buffers and passes on a prefix of the
    frames; an answer of 0 means that all whole frames were passed on, unless the stream
    has not been started and the ring has no room: then the rest is lost silently. *)
Theorem mmap_transfer_safe fuel bytes p : ring_ok (pring p) -> 0 <= bytes <= zlen (user_buffer (pring p)) ->
  loop_post (committed (pring p)) (pcm_bytes_to_frames bytes) (pcm_mmap_transfer fuel bytes p).
Proof.
  intros Hr Hb. unfold pcm_mmap_transfer, pcm_bytes_to_frames. pose proof (frame_pos Hsizes) as Hfb. case_match; breflect.
  - subst. exists 0. split_and!; try done; try lia. by left.
  - pose proof (Z.mul_div_le bytes frame_bytes Hfb). apply transfer_loop_safe; [done|done|apply Z.div_pos; lia|lia].
Qed.
End ring.

(** ** A ring of four frames of two bytes, with pointers modulo 16 *)

Definition small_ring (h a : Z) : ring := mk_ring (h mod 16) (a mod 16) [10; 11; 12; 13; 14; 15; 16; 17] [1; 2; 3; 4; 5; 6] 0 a h.
Definition still (i : nat) (a h : Z) : Z := h.
Definition always (i : nat) : bool := true.

Lemma small_sizes : sizes_ok 4 16 2.
Proof. split; unfold INT_MAX; try lia. by exists 4. Qed.
Lemma still_ok capture : driver_ok 4 16 capture still.
Proof. intros i a h Hw. split; [unfold still; lia|done]. Qed.
Lemma small_ring_ok h a : a - 4 <= h <= a -> ring_ok 4 16 2 false (small_ring h a).
Proof.
  intros Hw. split; cbn; unfold INT_MAX; try done; try (by vm_compute). pose proof (Z.mod_pos_bound a 16). by rewrite Z.mod_mod by lia; split; [lia|].
Qed.

(** Three frames where the driver is at 13 and the application at 15: one at the end of the
    ring and two at its start. *)
Lemma transfer_in_ring_witness : exists ret r', pcm_mmap_transfer_areas 4 16 2 false true always still 2 0 2 0 (small_ring 13 15) = Some (ret, r') /\
  ret = 2 /\ mmap_buffer r' = [3; 4; 12; 13; 14; 15; 1; 2] /\ ring_ok 4 16 2 false r'.
Proof.
  destruct (transfer_in_ring 4 16 2 false true always still small_sizes (still_ok false) 0 2 (small_ring 13 15))
    as (ret & r' & k & Ht & Hr & _ & Hend); [apply small_ring_ok; lia|vm_compute; intuition congruence|unfold INT_MAX; lia|lia|vm_compute; congruence|].
  exists ret, r'. split; [exact Ht|]. vm_compute in Ht. injection Ht as <- <-. by split_and!.
Defined.

Definition no_waits (i : nat) : list polled := [].
Definition always_errno (i : nat) : Z := 11.

Lemma mmap_transfer_safe_witness : exists p, pcm_mmap_transfer 4 16 2 false true always still 1 1 None always always always_errno (fun _ => 3) no_waits 1 4
    (mk_player false false (small_ring 13 15)) = Ends 0 p /\ committed (pring p) = 17.
Proof.
  assert (Hset : settings_ok 1 None always_errno) by (by split_and!).
  pose proof (mmap_transfer_safe 4 16 2 false true always still small_sizes (still_ok false) 1 1 None always always always_errno
    (fun _ => 3) no_waits Hset 1 4 (mk_player false false (small_ring 13 15))) as Hpost.
  destruct (pcm_mmap_transfer _ _ _ _ _ _ _ _ _ _ _ _ _ _ _ _ _ _) as [| |ret p] eqn:Ht; try (vm_compute in Ht; discriminate).
  assert (ret = 0) as -> by (vm_compute in Ht; congruence). exists p. split; [done|].
  destruct Hpost as (k & _ & Hc & Hret); [apply small_ring_ok; lia|vm_compute; intuition congruence|].
  vm_compute in Ht. injection Ht as <-. vm_compute. reflexivity.
Defined.

(** The driver at 15, the application at 17, whose pointer has wrapped: 18 frames are
    reported in a ring of 4. *)
Example htimestamp_wrapped : available 4 false (small_ring 15 17) = 2 /\
  (pcm_get_htimestamp 4 16 false true always still (fun _ => 3) true (fun _ => (5, 0)) (small_ring 15 17)).1 = Some (18, (5, 0)).
Proof. done. Qed.

(** A stopped stream whose ring is full, below the threshold: the transfer answers 0 and
    drops the frames. *)
Example full_ring_drops : exists p, pcm_mmap_transfer 4 16 2 false true always still 5 1 None always always always_errno (fun _ => 3) no_waits 1 4
    (mk_player false false (small_ring 13 17)) = Ends 0 p /\ committed (pring p) = 17.
Proof. by eexists. Qed.
