(* ===== verification/TinyPcm.v ===== *)
(** * PCM handles (tinyalsa/src/pcm.c)

    What surrounds the ring of [TinyRing]: sample formats and sizes, the hardware
    parameters handed to the driver, the configuration of a handle, opening and closing it,
    and transfers by [WRITEI]/[READI].  The driver is a set of answers: which calls
    succeed, and what it makes of the parameters.  The numbers of the parameters and of
    the sample formats are those of the kernel's interface (sound/asound.h).

    [set_config_sizes]: where the driver takes the periods as asked for, a successful
    configuration establishes the sizes [TinyRing] relies on; [buffer_not_refined] shows
    what happens where it does not.  [open_close_releases]: whatever fails, closing gives
    everything back, once for a handle that was ready; [failed_open_unmaps_twice] is the
    exception.  [writei_ends]: a write ends after at most two rounds and what its answer
    means; [readi_spins]: a read need not end. *)

From S2P Require Import Prelude TinyRing.

(** ** Formats and sizes *)

Inductive pcm_format :=
| PCM_FORMAT_S16_LE | PCM_FORMAT_S8 | PCM_FORMAT_S16_BE | PCM_FORMAT_S24_LE | PCM_FORMAT_S24_BE
| PCM_FORMAT_S24_3LE | PCM_FORMAT_S24_3BE | PCM_FORMAT_S32_LE | PCM_FORMAT_S32_BE | PCM_FORMAT_MAX.

#[export] Instance pcm_format_eq_dec : EqDecision pcm_format.
Proof. solve_decision. Defined.

Definition pcm_format_to_alsa (format : pcm_format) : Z :=
  match format with
  | PCM_FORMAT_S8 => 0
  | PCM_FORMAT_S16_LE | PCM_FORMAT_MAX => 2
  | PCM_FORMAT_S16_BE => 3
  | PCM_FORMAT_S24_LE => 6
  | PCM_FORMAT_S24_BE => 7
  | PCM_FORMAT_S24_3LE => 32
  | PCM_FORMAT_S24_3BE => 33
  | PCM_FORMAT_S32_LE => 10
  | PCM_FORMAT_S32_BE => 11
  end.

Definition pcm_format_to_bits (format : pcm_format) : Z :=
  match format with
  | PCM_FORMAT_S32_LE | PCM_FORMAT_S32_BE | PCM_FORMAT_S24_LE | PCM_FORMAT_S24_BE => 32
  | PCM_FORMAT_S24_3LE | PCM_FORMAT_S24_3BE => 24
  | PCM_FORMAT_S16_LE | PCM_FORMAT_S16_BE | PCM_FORMAT_MAX => 16
  | PCM_FORMAT_S8 => 8
  end.

Record pcm_config := mk_config {
  channels : Z; rate : Z; period_size : Z; period_count : Z; format : pcm_format;
  start_threshold : Z; stop_threshold : Z; silence_threshold : Z }.

Definition sample_bytes (c : pcm_config) : Z := Z.shiftr (pcm_format_to_bits (format c)) 3.

(** [None]: a division by zero. *)
Definition pcm_bytes_to_frames (c : pcm_config) (bytes : Z) : option Z :=
  let size := wrap_u32 (channels c * sample_bytes c) in if size =? 0 then None else Some (bytes / size).
Definition pcm_frames_to_bytes (c : pcm_config) (frames : Z) : Z := wrap_u32 (wrap_u32 (frames * channels c) * sample_bytes c).

Lemma sample_bytes_range c : 1 <= sample_bytes c <= 4.
Proof. unfold sample_bytes. by destruct (format c). Qed.

(** The bytes of a frame, as [TinyRing] takes them. *)
Definition frame_size (c : pcm_config) : Z := channels c * sample_bytes c.

Lemma frames_to_bytes_eq c frames : pcm_frames_to_bytes c frames = frames_to_bytes (frame_size c) frames.
Proof.
  unfold pcm_frames_to_bytes, frames_to_bytes, frame_size, wrap_u32. rewrite Zmult_mod_idemp_l. f_equal. ring.
Qed.

(** [TINYALSA_FRAMES_MAX] of [limits.h], with the 32-bit [unsigned long] of the device. *)
Definition TINYALSA_CHANNELS_MAX := 32.
Definition TINYALSA_FRAMES_MAX := (2 ^ 32 - 1) / (TINYALSA_CHANNELS_MAX * 4).

(** The limits keep the byte counts within 32 bits, so they are read back. *)
Theorem frames_bytes_roundtrip c frames : 1 <= channels c <= TINYALSA_CHANNELS_MAX -> 0 <= frames <= TINYALSA_FRAMES_MAX ->
  pcm_frames_to_bytes c frames = frames * frame_size c /\ pcm_bytes_to_frames c (pcm_frames_to_bytes c frames) = Some frames.
Proof.
  unfold TINYALSA_CHANNELS_MAX. change TINYALSA_FRAMES_MAX with 33554431. intros Hc Hf. pose proof (sample_bytes_range c) as Hs.
  assert (Hsz : 1 <= frame_size c <= 128) by (unfold frame_size; nia).
  rewrite frames_to_bytes_eq. unfold frames_to_bytes. rewrite wrap_u32_id by nia. split; [done|].
  unfold pcm_bytes_to_frames. fold (frame_size c). rewrite wrap_u32_id by lia.
  rewrite (proj2 (Z.eqb_neq _ 0)), Z.div_mul by lia. done.
Qed.

(** ** Hardware parameters *)

Record snd_interval := mk_interval { imin : Z; imax : Z; integer : bool }.

(** A mask is eight words. *)
Record snd_pcm_hw_params := mk_hw_params { hflags : Z; masks : list (list Z); intervals : list snd_interval }.

Definition SNDRV_PCM_HW_PARAM_ACCESS := 0.
Definition SNDRV_PCM_HW_PARAM_FORMAT := 1.
Definition SNDRV_PCM_HW_PARAM_SUBFORMAT := 2.
Definition SNDRV_PCM_HW_PARAM_SAMPLE_BITS := 8.
Definition SNDRV_PCM_HW_PARAM_FRAME_BITS := 9.
Definition SNDRV_PCM_HW_PARAM_CHANNELS := 10.
Definition SNDRV_PCM_HW_PARAM_RATE := 11.
Definition SNDRV_PCM_HW_PARAM_PERIOD_TIME := 12.
Definition SNDRV_PCM_HW_PARAM_PERIOD_SIZE := 13.
Definition SNDRV_PCM_HW_PARAM_PERIOD_BYTES := 14.
Definition SNDRV_PCM_HW_PARAM_PERIODS := 15.
Definition SNDRV_PCM_HW_PARAM_BUFFER_TIME := 16.
Definition SNDRV_PCM_HW_PARAM_BUFFER_SIZE := 17.
Definition SNDRV_PCM_HW_PARAM_BUFFER_BYTES := 18.
Definition SNDRV_PCM_HW_PARAM_TICK_TIME := 19.
Definition SNDRV_MASK_MAX := 256.

Definition param_is_mask (p : Z) : bool := (SNDRV_PCM_HW_PARAM_ACCESS <=? p) && (p <=? SNDRV_PCM_HW_PARAM_SUBFORMAT).
Definition param_is_interval (p : Z) : bool := (SNDRV_PCM_HW_PARAM_SAMPLE_BITS <=? p) && (p <=? SNDRV_PCM_HW_PARAM_TICK_TIME).

(** The index of [n] among the masks, and among the intervals. *)
Definition mask_index (n : Z) : nat := Z.to_nat (n - SNDRV_PCM_HW_PARAM_ACCESS).
Definition interval_index (n : Z) : nat := Z.to_nat (n - SNDRV_PCM_HW_PARAM_SAMPLE_BITS).

Definition with_mask (n : Z) (m : list Z) (p : snd_pcm_hw_params) := mk_hw_params (hflags p) (<[mask_index n := m]> (masks p)) (intervals p).
Definition with_interval (n : Z) (i : snd_interval) (p : snd_pcm_hw_params) :=
  mk_hw_params (hflags p) (masks p) (<[interval_index n := i]> (intervals p)).

Definition set_bit (bit : Z) (m : list Z) : list Z :=
  alter (fun w => Z.lor w (Z.shiftl 1 (Z.land bit 31))) (Z.to_nat (Z.shiftr bit 5)) (<[1%nat := 0]> (<[0%nat := 0]> m)).

Definition param_set_mask (n bit : Z) (p : snd_pcm_hw_params) : snd_pcm_hw_params :=
  if SNDRV_MASK_MAX <=? bit then p
  else if param_is_mask n then with_mask n (set_bit bit (default [] (masks p !! mask_index n))) p else p.

Definition interval_of (n : Z) (p : snd_pcm_hw_params) : snd_interval := default (mk_interval 0 0 false) (intervals p !! interval_index n).

Definition param_set_min (n val : Z) (p : snd_pcm_hw_params) : snd_pcm_hw_params :=
  if param_is_interval n then with_interval n (mk_interval val (imax (interval_of n p)) (integer (interval_of n p))) p else p.
Definition param_get_min (p : snd_pcm_hw_params) (n : Z) : Z := if param_is_interval n then imin (interval_of n p) else 0.
Definition param_get_max (p : snd_pcm_hw_params) (n : Z) : Z := if param_is_interval n then imax (interval_of n p) else 0.
Definition param_set_int (n val : Z) (p : snd_pcm_hw_params) : snd_pcm_hw_params :=
  if param_is_interval n then with_interval n (mk_interval val val true) p else p.
Definition param_get_int (p : snd_pcm_hw_params) (n : Z) : Z :=
  if param_is_interval n then if integer (interval_of n p) then imax (interval_of n p) else 0 else 0.

Definition UINT_MAX := 2 ^ 32 - 1.
Definition param_init : snd_pcm_hw_params :=
  mk_hw_params 0 (replicate 3 [UINT_MAX; UINT_MAX; 0; 0; 0; 0; 0; 0]) (replicate 12 (mk_interval 0 UINT_MAX false)).

(** Well-formed parameters: all masks and intervals are there. *)
Definition hw_ok (p : snd_pcm_hw_params) : Prop := length (masks p) = 3%nat /\ length (intervals p) = 12%nat.

Lemma interval_index_inj n m : param_is_interval n = true -> param_is_interval m = true -> interval_index n = interval_index m -> n = m.
Proof. unfold param_is_interval, interval_index, SNDRV_PCM_HW_PARAM_SAMPLE_BITS, SNDRV_PCM_HW_PARAM_TICK_TIME. intros. breflect. lia. Qed.

Lemma interval_of_with n m i p : hw_ok p -> param_is_interval n = true -> param_is_interval m = true ->
  interval_of m (with_interval n i p) = if decide (m = n) then i else interval_of m p.
Proof.
  intros [_ Hl] Hn Hm. unfold interval_of, with_interval. cbn. case_decide as Heq.
  - subst. rewrite list_lookup_insert_eq; [done|]. rewrite Hl.
    unfold param_is_interval, interval_index, SNDRV_PCM_HW_PARAM_SAMPLE_BITS, SNDRV_PCM_HW_PARAM_TICK_TIME in *. breflect. lia.
  - rewrite list_lookup_insert_ne; [done|]. intros He. apply Heq. symmetry. by apply interval_index_inj.
Qed.

(** An integer parameter is read back, and the others stay. *)
Lemma get_set_int n m v p : hw_ok p -> param_is_interval n = true -> param_is_interval m = true ->
  param_get_int (param_set_int n v p) m = if decide (m = n) then v else param_get_int p m.
Proof.
  intros Hp Hn Hm. unfold param_get_int, param_set_int. rewrite Hn, Hm, interval_of_with by done. by case_decide.
Qed.

Lemma set_int_ok n v p : hw_ok p -> hw_ok (param_set_int n v p).
Proof. unfold param_set_int, hw_ok. case_match; cbn; [|done]. by rewrite length_insert. Qed.
Lemma set_min_ok n v p : hw_ok p -> hw_ok (param_set_min n v p).
Proof. unfold param_set_min, hw_ok. case_match; cbn; [|done]. by rewrite length_insert. Qed.
Lemma set_mask_ok n v p : hw_ok p -> hw_ok (param_set_mask n v p).
Proof. unfold param_set_mask, hw_ok. repeat case_match; cbn; try done. by rewrite length_insert. Qed.

(** ** Reading the parameters of a device *)

Inductive pcm_param :=
| PCM_PARAM_ACCESS | PCM_PARAM_FORMAT | PCM_PARAM_SUBFORMAT | PCM_PARAM_SAMPLE_BITS | PCM_PARAM_FRAME_BITS
| PCM_PARAM_CHANNELS | PCM_PARAM_RATE | PCM_PARAM_PERIOD_TIME | PCM_PARAM_PERIOD_SIZE | PCM_PARAM_PERIOD_BYTES
| PCM_PARAM_PERIODS | PCM_PARAM_BUFFER_TIME | PCM_PARAM_BUFFER_SIZE | PCM_PARAM_BUFFER_BYTES | PCM_PARAM_TICK_TIME.

Definition pcm_param_to_alsa (param : pcm_param) : Z :=
  match param with
  | PCM_PARAM_ACCESS => SNDRV_PCM_HW_PARAM_ACCESS
  | PCM_PARAM_FORMAT => SNDRV_PCM_HW_PARAM_FORMAT
  | PCM_PARAM_SUBFORMAT => SNDRV_PCM_HW_PARAM_SUBFORMAT
  | PCM_PARAM_SAMPLE_BITS => SNDRV_PCM_HW_PARAM_SAMPLE_BITS
  | PCM_PARAM_FRAME_BITS => SNDRV_PCM_HW_PARAM_FRAME_BITS
  | PCM_PARAM_CHANNELS => SNDRV_PCM_HW_PARAM_CHANNELS
  | PCM_PARAM_RATE => SNDRV_PCM_HW_PARAM_RATE
  | PCM_PARAM_PERIOD_TIME => SNDRV_PCM_HW_PARAM_PERIOD_TIME
  | PCM_PARAM_PERIOD_SIZE => SNDRV_PCM_HW_PARAM_PERIOD_SIZE
  | PCM_PARAM_PERIOD_BYTES => SNDRV_PCM_HW_PARAM_PERIOD_BYTES
  | PCM_PARAM_PERIODS => SNDRV_PCM_HW_PARAM_PERIODS
  | PCM_PARAM_BUFFER_TIME => SNDRV_PCM_HW_PARAM_BUFFER_TIME
  | PCM_PARAM_BUFFER_SIZE => SNDRV_PCM_HW_PARAM_BUFFER_SIZE
  | PCM_PARAM_BUFFER_BYTES => SNDRV_PCM_HW_PARAM_BUFFER_BYTES
  | PCM_PARAM_TICK_TIME => SNDRV_PCM_HW_PARAM_TICK_TIME
  end.

Definition pcm_params_get_mask (params : option snd_pcm_hw_params) (param : pcm_param) : option (list Z) :=
  p ← params; let n := pcm_param_to_alsa param in
  if (n <? 0) || negb (param_is_mask n) then None else masks p !! mask_index n.
Definition pcm_params_get_min (params : option snd_pcm_hw_params) (param : pcm_param) : Z :=
  match params with None => 0 | Some p => let n := pcm_param_to_alsa param in if n <? 0 then 0 else param_get_min p n end.
Definition pcm_params_get_max (params : option snd_pcm_hw_params) (param : pcm_param) : Z :=
  match params with None => 0 | Some p => let n := pcm_param_to_alsa param in if n <? 0 then 0 else param_get_max p n end.

(** Every parameter is a mask or an interval, and a mask is found where there is one. *)
Lemma param_sorts param : param_is_mask (pcm_param_to_alsa param) = negb (param_is_interval (pcm_param_to_alsa param)).
Proof. by destruct param. Qed.
Lemma get_mask_found p param : hw_ok p ->
  is_Some (pcm_params_get_mask (Some p) param) <-> param_is_mask (pcm_param_to_alsa param) = true.
Proof.
  intros [Hl _]. unfold pcm_params_get_mask. cbn [mbind option_bind].
  split; [intros [m Hm]; revert Hm; case_match; [done|]; by breflect; destruct (param_is_mask _)|].
  intros Hm. rewrite Hm. destruct param; try done; apply lookup_lt_is_Some; rewrite Hl; vm_compute; lia.
Qed.

(** ** The handle and what it holds *)

(** Where a pointer to the status page or to the control page leads. *)
Inductive page := NoPage | MappedPage | InSyncPtr.
(** The pointer to the ring's memory. *)
Inductive buffer_ptr := NoBuffer | MapFailed | RingBuffer.

#[export] Instance page_eq_dec : EqDecision page.
Proof. solve_decision. Defined.
#[export] Instance buffer_ptr_eq_dec : EqDecision buffer_ptr.
Proof. solve_decision. Defined.

Record pcm_flags := mk_flags { PCM_IN : bool; PCM_MMAP : bool; PCM_NOIRQ : bool; PCM_NORESTART : bool; PCM_MONOTONIC : bool; PCM_NONBLOCK : bool }.

Record pcm := mk_pcm {
  fd : Z; flags : pcm_flags; running : bool; prepared : bool; underruns : Z; buffer_size : Z; boundary : Z; config : pcm_config;
  mmap_status : page; mmap_control : page; sync_ptr : bool; mmap_buffer : buffer_ptr; noirq_frames_per_msec : Z; subdevice : Z }.

(** What the process holds on behalf of the handle, how often its descriptor has been
    closed, and how often the addresses of the ring have been unmapped without a mapping
    of the handle there. *)
Record held := mk_held {
  handle_alloc : bool; fd_open : bool; ring_mapped : bool; status_mapped : bool; control_mapped : bool; sync_alloc : bool;
  closes : nat; stale_unmaps : nat }.

Definition set_ring (b : bool) (h : held) := mk_held (handle_alloc h) (fd_open h) b (status_mapped h) (control_mapped h) (sync_alloc h) (closes h) (stale_unmaps h).
Definition set_status (b : bool) (h : held) := mk_held (handle_alloc h) (fd_open h) (ring_mapped h) b (control_mapped h) (sync_alloc h) (closes h) (stale_unmaps h).
Definition set_control (b : bool) (h : held) := mk_held (handle_alloc h) (fd_open h) (ring_mapped h) (status_mapped h) b (sync_alloc h) (closes h) (stale_unmaps h).
Definition set_sync (b : bool) (h : held) := mk_held (handle_alloc h) (fd_open h) (ring_mapped h) (status_mapped h) (control_mapped h) b (closes h) (stale_unmaps h).
Definition free_handle (h : held) := mk_held false (fd_open h) (ring_mapped h) (status_mapped h) (control_mapped h) (sync_alloc h) (closes h) (stale_unmaps h).

Definition close_fd (h : held) := mk_held (handle_alloc h) false (ring_mapped h) (status_mapped h) (control_mapped h) (sync_alloc h) (S (closes h)) (stale_unmaps h).

(** [munmap] of the ring: of null and of [MAP_FAILED] it has no effect; a second time it
    hits whatever has been mapped there since. *)
Definition munmap_buffer (b : buffer_ptr) (h : held) : held :=
  match b with
  | RingBuffer =>
      if ring_mapped h then set_ring false h
      else mk_held (handle_alloc h) (fd_open h) false (status_mapped h) (control_mapped h) (sync_alloc h) (closes h) (S (stale_unmaps h))
  | _ => h
  end.

(** ** Configuration ([pcm_set_config]) *)

Record snd_pcm_sw_params := mk_sw_params {
  avail_min : Z; xfer_align : Z; sw_start_threshold : Z; sw_stop_threshold : Z; sw_silence_threshold : Z; sw_boundary : Z }.

(** The driver's answers: the refined parameters or an [errno]; the mapping of the ring;
    the software parameters. *)
Record driver_answers := mk_answers {
  hw_params_ioctl : snd_pcm_hw_params -> snd_pcm_hw_params + Z;
  ring_mmap : option Z;
  sw_params_ioctl : snd_pcm_sw_params -> option Z }.

Definition EFAULT := 14.
Definition EINVAL := 22.
Definition ENOMEM := 12.

Definition default_config : pcm_config :=
  mk_config 2 48000 1024 4 PCM_FORMAT_S16_LE (4 * 1024) (4 * 1024) 0.

(** The handle with the configuration asked for. *)
Definition store_config (given : option pcm_config) (p : pcm) : pcm :=
  let c := match given with None => default_config | Some c => c end in
  mk_pcm (fd p) (flags p) (running p) (prepared p) (underruns p) (buffer_size p) (boundary p) c
    (mmap_status p) (mmap_control p) (sync_ptr p) (mmap_buffer p) (noirq_frames_per_msec p) (subdevice p).

Definition SNDRV_PCM_HW_PARAMS_NO_PERIOD_WAKEUP := 4.
Definition SNDRV_PCM_ACCESS_MMAP_INTERLEAVED := 0.
Definition SNDRV_PCM_ACCESS_RW_INTERLEAVED := 3.

(** The parameters asked for. *)
Definition asked_params (c : pcm_config) (f : pcm_flags) : snd_pcm_hw_params :=
  let p := param_init in
  let p := param_set_mask SNDRV_PCM_HW_PARAM_FORMAT (pcm_format_to_alsa (format c)) p in
  let p := param_set_mask SNDRV_PCM_HW_PARAM_SUBFORMAT 0 p in
  let p := param_set_min SNDRV_PCM_HW_PARAM_PERIOD_SIZE (period_size c) p in
  let p := param_set_int SNDRV_PCM_HW_PARAM_SAMPLE_BITS (pcm_format_to_bits (format c)) p in
  let p := param_set_int SNDRV_PCM_HW_PARAM_FRAME_BITS (wrap_u32 (pcm_format_to_bits (format c) * channels c)) p in
  let p := param_set_int SNDRV_PCM_HW_PARAM_CHANNELS (channels c) p in
  let p := param_set_int SNDRV_PCM_HW_PARAM_PERIODS (period_count c) p in
  let p := param_set_int SNDRV_PCM_HW_PARAM_RATE (rate c) p in
  let p := if PCM_NOIRQ f then mk_hw_params (Z.lor (hflags p) SNDRV_PCM_HW_PARAMS_NO_PERIOD_WAKEUP) (masks p) (intervals p) else p in
  param_set_mask SNDRV_PCM_HW_PARAM_ACCESS
    (if PCM_MMAP f then SNDRV_PCM_ACCESS_MMAP_INTERLEAVED else SNDRV_PCM_ACCESS_RW_INTERLEAVED) p.

(** The refined periods, and the size of the ring from the periods of [config]: the
    caller's, or the handle's own when the caller gave none. *)
Definition store_periods (size count : Z) (own : bool) (p : pcm) : pcm :=
  let c := config p in
  let c' := mk_config (channels c) (rate c) size count (format c) (start_threshold c) (stop_threshold c) (silence_threshold c) in
  let asked := if own then c' else c in
  mk_pcm (fd p) (flags p) (running p) (prepared p) (underruns p) (wrap_u32 (period_count asked * period_size asked)) (boundary p) c'
    (mmap_status p) (mmap_control p) (sync_ptr p) (mmap_buffer p) (noirq_frames_per_msec p) (subdevice p).

Definition with_buffer (b : buffer_ptr) (p : pcm) : pcm :=
  mk_pcm (fd p) (flags p) (running p) (prepared p) (underruns p) (buffer_size p) (boundary p) (config p)
    (mmap_status p) (mmap_control p) (sync_ptr p) b (noirq_frames_per_msec p) (subdevice p).

Definition with_noirq (n : Z) (p : pcm) : pcm :=
  mk_pcm (fd p) (flags p) (running p) (prepared p) (underruns p) (buffer_size p) (boundary p) (config p)
    (mmap_status p) (mmap_control p) (sync_ptr p) (mmap_buffer p) n (subdevice p).

(** The thresholds in use, from the periods of [size] frames by [count] of the
    configuration [config] points to. *)
Definition start_value (capture : bool) (asked count size : Z) : Z :=
  if asked =? 0 then if capture then 1 else wrap_u32 (count * size) / 2 else asked.
Definition stop_value (capture : bool) (asked count size : Z) : Z :=
  if asked =? 0 then if capture then wrap_u32 (wrap_u32 (count * size) * 10) else wrap_u32 (count * size) else asked.

Definition with_software (start stop bound : Z) (p : pcm) : pcm :=
  let c := config p in
  mk_pcm (fd p) (flags p) (running p) (prepared p) (underruns p) (buffer_size p) bound
    (mk_config (channels c) (rate c) (period_size c) (period_count c) (format c) start stop (silence_threshold c))
    (mmap_status p) (mmap_control p) (sync_ptr p) (mmap_buffer p) (noirq_frames_per_msec p) (subdevice p).

(** The software parameters; [None]: the loop for the boundary does not end. *)
Definition set_software (a : driver_answers) (asked : pcm_config) (p : pcm) : option (Z * pcm) :=
  let start := start_value (PCM_IN (flags p)) (start_threshold asked) (period_count asked) (period_size asked) in
  let stop := stop_value (PCM_IN (flags p)) (stop_threshold asked) (period_count asked) (period_size asked) in
  bound ← grow_boundary 31 (buffer_size p) (buffer_size p);
  let p := with_software start stop bound p in
  Some (match sw_params_ioctl a (mk_sw_params 1 (period_size asked / 2) start stop (silence_threshold asked) bound) with
        | Some e => (- e, p)
        | None => (0, p)
        end).

Definition configure_pcm (a : driver_answers) (given : option pcm_config) (p : pcm) (h : held) : option (Z * pcm * held) :=
  let own := bool_decide (given = None) in
  let p := store_config given p in
  let f := flags p in
  let asked := config p in
  if PCM_NOIRQ f && negb (PCM_MMAP f) then Some (- EINVAL, p, h)
  else
    let p := if PCM_NOIRQ f then with_noirq (rate asked / 1000) p else p in
    match hw_params_ioctl a (asked_params asked f) with
    | inr e => Some (- e, p, h)
    | inl params =>
        let p := store_periods (param_get_int params SNDRV_PCM_HW_PARAM_PERIOD_SIZE) (param_get_int params SNDRV_PCM_HW_PARAM_PERIODS) own p in
        match (if PCM_MMAP f then ring_mmap a else None) with
        | Some e => Some (- e, with_buffer MapFailed p, h)
        | None =>
            let '(p, h) := if PCM_MMAP f then (with_buffer RingBuffer p, set_ring true h) else (p, h) in
            '(ret, p) ← set_software a (if own then config p else asked) p;
            Some (ret, p, h)
        end
    end.

(** The handle may be null. *)
Definition pcm_set_config (a : driver_answers) (given : option pcm_config) (p : option pcm) (h : held) : option (Z * option pcm * held) :=
  match p with
  | None => Some (- EFAULT, None, h)
  | Some p => '(ret, p, h) ← configure_pcm a given p h; Some (ret, Some p, h)
  end.

#[export] Instance pcm_config_eq_dec : EqDecision pcm_config.
Proof. solve_decision. Defined.

(** The driver takes the periods as asked for. *)
Definition takes_periods (a : driver_answers) : Prop := forall c f params, hw_params_ioctl a (asked_params c f) = inl params ->
  param_get_int params SNDRV_PCM_HW_PARAM_PERIOD_SIZE = period_size c /\ param_get_int params SNDRV_PCM_HW_PARAM_PERIODS = period_count c.

Lemma asked_ok c f : hw_ok (asked_params c f).
Proof. unfold asked_params. destruct (PCM_NOIRQ f), (PCM_MMAP f), (format c); by vm_compute. Qed.

Lemma asked_periods c f : param_get_min (asked_params c f) SNDRV_PCM_HW_PARAM_PERIOD_SIZE = period_size c /\
  param_get_int (asked_params c f) SNDRV_PCM_HW_PARAM_PERIODS = period_count c.
Proof. unfold asked_params. destruct (PCM_NOIRQ f), (PCM_MMAP f), (format c); by vm_compute. Qed.

(** What is asked for can be read back. *)
Lemma asked_values c f : param_get_int (asked_params c f) SNDRV_PCM_HW_PARAM_CHANNELS = channels c /\
  param_get_int (asked_params c f) SNDRV_PCM_HW_PARAM_RATE = rate c /\
  param_get_int (asked_params c f) SNDRV_PCM_HW_PARAM_SAMPLE_BITS = pcm_format_to_bits (format c).
Proof. unfold asked_params. destruct (PCM_NOIRQ f), (PCM_MMAP f), (format c); by vm_compute. Qed.

(** ** What a successful configuration establishes *)

(** The sizes are those of the stored configuration, fit the ring and its pointers. *)
Definition sizes_agree (p : pcm) : Prop :=
  buffer_size p = period_count (config p) * period_size (config p) /\
  sizes_ok (buffer_size p) (boundary p) (frame_size (config p)).

(** A configuration whose sizes make sense. *)
Definition config_ok (c : pcm_config) : Prop :=
  1 <= channels c <= TINYALSA_CHANNELS_MAX /\ 0 < period_size c /\ 0 < period_count c /\
  period_count c * period_size c * frame_size c <= INT_MAX /\ 3 * (period_count c * period_size c) <= INT_MAX.

Lemma set_software_spec a asked p : 0 < buffer_size p -> 3 * buffer_size p <= INT_MAX -> exists ret bound start stop j,
  set_software a asked p = Some (ret, with_software start stop bound p) /\ 0 < j /\ bound = buffer_size p * 2 ^ j /\
  bound <= INT_MAX - buffer_size p.
Proof.
  intros Hb Hm. destruct (boundary_found _ Hb Hm) as (b & j & Hg & Hj & He & Hr & _). unfold set_software.
  rewrite Hg. cbn [mbind option_bind]. case_match; eexists _, b, _, _, j; split_and!; done.
Qed.

(** With the periods asked for nothing changes but the ring's size. *)
Lemma store_same_periods own p : period_count (config p) * period_size (config p) < 2 ^ 32 ->
  0 < period_size (config p) -> 0 < period_count (config p) ->
  let p' := store_periods (period_size (config p)) (period_count (config p)) own p in
  config p' = config p /\ buffer_size p' = period_count (config p) * period_size (config p).
Proof.
  intros Hlt Hs Hc. cbn. split; [by destruct (config p)|]. by case_match; cbn; rewrite wrap_u32_id by nia.
Qed.

Lemma sizes_agree_software c b start stop j q : config_ok c -> config q = c -> buffer_size q = period_count c * period_size c ->
  0 < j -> b = buffer_size q * 2 ^ j -> b <= INT_MAX - buffer_size q -> sizes_agree (with_software start stop b q).
Proof.
  intros (Hc & Hs & Hn & Hbytes & _) Hq Hb Hj -> Hle. pose proof (sample_bytes_range c) as Hsb.
  assert (Hf : 0 < frame_size c) by (unfold frame_size; nia). subst c. split; [by cbn; rewrite Hb|].
  change (frame_size (config (with_software start stop (buffer_size q * 2 ^ j) q))) with (frame_size (config q)).
  cbn. assert (0 < buffer_size q) by (rewrite Hb; nia).
  assert (2 <= 2 ^ j) by (change 2 with (2 ^ 1) at 1; apply Z.pow_le_mono_r; lia).
  split; [done|by apply Z.divide_factor_l|nia|done|done|by rewrite Hb].
Qed.

Definition errors_positive (a : driver_answers) : Prop :=
  (forall params e, hw_params_ioctl a params = inr e -> 0 < e) /\ (forall e, ring_mmap a = Some e -> 0 < e) /\
  (forall params e, sw_params_ioctl a params = Some e -> 0 < e).

(** Where the driver takes the periods as they are asked for, configuring ends and,
    when it succeeds, the handle's sizes are those of its configuration and are what the
    ring relies on: the boundary is a multiple of the ring's size by a power of two, above
    it and far enough from the largest integer. *)
Theorem set_config_sizes a c p h : takes_periods a -> errors_positive a -> config_ok (config (store_config c p)) ->
  exists ret p' h', configure_pcm a c p h = Some (ret, p', h') /\ (ret = 0 -> sizes_agree p').
Proof.
  intros Ha (He1 & He2 & _) Hok. pose proof Hok as (_ & Hs & Hn & _ & Hthree). unfold configure_pcm.
  set (own := bool_decide (c = None)). set (p0 := store_config c p) in *. unfold INT_MAX in Hthree.
  case_match; [by eexists _, _, _; split|].
  set (q := if PCM_NOIRQ (flags p0) then _ else p0). assert (Hq : config q = config p0) by (unfold q; by case_match).
  destruct (hw_params_ioctl a _) as [params|e] eqn:Hhw.
  2: { eexists _, _, _; split; [done|]. intros. apply He1 in Hhw. lia. }
  destruct (Ha _ _ _ Hhw) as [-> ->]. rewrite <- Hq in *.
  destruct (store_same_periods own q) as [Hc' Hb']; [lia|done|done|].
  set (q' := store_periods _ _ own q) in *.
  destruct (if PCM_MMAP (flags p0) then ring_mmap a else None) as [e|] eqn:Hmap.
  { eexists _, _, _; split; [done|]. case_match; [|done]. apply He2 in Hmap. lia. }
  assert (exists q2 h2, (if PCM_MMAP (flags p0) then (with_buffer RingBuffer q', set_ring true h) else (q', h)) = (q2, h2) /\
    config q2 = config q /\ buffer_size q2 = buffer_size q') as (q2 & h2 & -> & Hc2 & Hb2) by (case_match; by eexists _, _).
  rewrite Hb' in Hb2.
  destruct (set_software_spec a (if own then config q2 else config q) q2) as (ret & b & start & stop & j & -> & Hj & He & Hle); [nia|unfold INT_MAX; lia|].
  eexists _, _, _. split; [done|]. intros _. by eapply (sizes_agree_software (config q)).
Qed.

(** The driver makes the period 1200 frames where 1024 were asked for: the handle says 4
    periods of 1200 frames, but its ring is taken to have 4096. *)
Definition rounding_driver : driver_answers :=
  mk_answers (fun p => inl (param_set_int SNDRV_PCM_HW_PARAM_PERIOD_SIZE 1200 p)) None (fun _ => None).
Definition some_config : pcm_config := mk_config 2 48000 1024 4 PCM_FORMAT_S16_LE 0 0 0.
Definition no_flags : pcm_flags := mk_flags false false false false false false.
Definition mmap_flags : pcm_flags := mk_flags false true false false false false.
Definition fresh_pcm (f : pcm_flags) (fd : Z) : pcm :=
  mk_pcm fd f false false 0 0 0 (mk_config 0 0 0 0 PCM_FORMAT_S16_LE 0 0 0) NoPage NoPage false NoBuffer 0 0.
Definition just_allocated : held := mk_held true false false false false false 0 0.

Example buffer_not_refined : exists p h, configure_pcm rounding_driver (Some some_config) (fresh_pcm mmap_flags 3) just_allocated = Some (0, p, h) /\
  period_count (config p) * period_size (config p) = 4800 /\ buffer_size p = 4096.
Proof. by eexists _, _. Qed.
(** With no configuration given the refined periods are used. *)
Example own_config_refined : exists p h, configure_pcm rounding_driver None (fresh_pcm mmap_flags 3) just_allocated = Some (0, p, h) /\
  buffer_size p = 4800.
Proof. by eexists _, _. Qed.
(** The thresholds that stand for 0 are not the ones the header announces. *)
Example threshold_defaults : exists p h, configure_pcm rounding_driver (Some some_config) (fresh_pcm no_flags 3) just_allocated = Some (0, p, h) /\
  start_threshold (config p) = 2048 /\ start_value true 0 4 1024 = 1 /\ stop_value true 0 4 1024 = 40960.
Proof. by eexists _, _. Qed.
(** No periods: the loop for the boundary does not end. *)
Example no_periods_hangs : configure_pcm rounding_driver (Some (mk_config 2 48000 1024 0 PCM_FORMAT_S16_LE 0 0 0)) (fresh_pcm no_flags 3) just_allocated = None.
Proof. done. Qed.
(** A rate below 1000 leaves the divisor of [PCM_NOIRQ] zero. *)
Example slow_rate_divides_by_zero : exists p h, configure_pcm rounding_driver (Some (mk_config 2 800 1024 4 PCM_FORMAT_S16_LE 0 0 0))
  (fresh_pcm (mk_flags false true true false false false) 3) just_allocated = Some (0, p, h) /\ noirq_frames_per_msec p = 0.
Proof. by eexists _, _. Qed.

(** ** Opening and closing *)

Definition with_pages (st ct : page) (sync : bool) (p : pcm) : pcm :=
  mk_pcm (fd p) (flags p) (running p) (prepared p) (underruns p) (buffer_size p) (boundary p) (config p)
    st ct sync (mmap_buffer p) (noirq_frames_per_msec p) (subdevice p).
Definition with_fd (n : Z) (p : pcm) : pcm :=
  mk_pcm n (flags p) (running p) (prepared p) (underruns p) (buffer_size p) (boundary p) (config p)
    (mmap_status p) (mmap_control p) (sync_ptr p) (mmap_buffer p) (noirq_frames_per_msec p) (subdevice p).
Definition with_subdevice (n : Z) (p : pcm) : pcm :=
  mk_pcm (fd p) (flags p) (running p) (prepared p) (underruns p) (buffer_size p) (boundary p) (config p)
    (mmap_status p) (mmap_control p) (sync_ptr p) (mmap_buffer p) (noirq_frames_per_msec p) n.

(** The answers while a handle is opened: the allocation, the descriptor, the subdevice
    or failure of [INFO], the configuration's, the mappings of the status and control
    pages, the allocation of their replacement, and the [errno] of the timestamp ioctl. *)
Record open_answers := mk_open {
  calloc_ok : bool; open_result : Z; info_ioctl : option Z; configuring : driver_answers;
  status_mmap : bool; control_mmap : bool; sync_calloc : bool; tstamp_ioctl : bool }.

Definition pcm_hw_mmap_status (o : open_answers) (p : pcm) (h : held) : Z * pcm * held :=
  if sync_ptr p then (0, p, h)
  else if status_mmap o && control_mmap o then (0, with_pages MappedPage MappedPage false p, set_control true (set_status true h))
  else
    (* the status page is unmapped again where only the control page fails *)
    if sync_calloc o then (0, with_pages InSyncPtr InSyncPtr true p, set_sync true h)
    else (- ENOMEM, with_pages NoPage (if status_mmap o then NoPage else mmap_control p) false p, h).

Definition pcm_hw_munmap_status (p : pcm) (h : held) : pcm * held :=
  if sync_ptr p then (with_pages NoPage NoPage false p, set_sync false h)
  else
    let h := if decide (mmap_status p = MappedPage) then set_status false h else h in
    let h := if decide (mmap_control p = MappedPage) then set_control false h else h in
    (with_pages NoPage NoPage false p, h).

(** The handle, or [bad_pcm]. *)
Inductive handle := BadPcm | Handle (p : pcm).

Definition fail_close (p : pcm) (h : held) : handle * held := (Handle (with_fd (-1) p), close_fd h).
Definition fail (p : pcm) (h : held) : handle * held :=
  fail_close p (if PCM_MMAP (flags p) then munmap_buffer (mmap_buffer p) h else h).

Definition nothing_held : held := mk_held false false false false false false 0 0.

(** [None]: the configuration does not end. *)
Definition pcm_open (o : open_answers) (f : pcm_flags) (given : option pcm_config) : option (handle * held) :=
  if negb (calloc_ok o) then Some (BadPcm, nothing_held)
  else
    let h := just_allocated in
    let p := fresh_pcm f (open_result o) in
    if open_result o <? 0 then Some (Handle p, h)
    else
      let h := mk_held true true false false false false 0 0 in
      match info_ioctl o with
      | None => Some (fail_close p h)
      | Some sub =>
          '(ret, p, h) ← configure_pcm (configuring o) given (with_subdevice sub p) h;
          if negb (ret =? 0) then Some (fail_close p h)
          else
            let '(rc, p, h) := pcm_hw_mmap_status o p h in
            if rc <? 0 then Some (fail p h)
            else if PCM_MONOTONIC f && negb (tstamp_ioctl o) then Some (fail p h)
            else Some (Handle p, h)
      end.

Definition pcm_is_ready (p : option handle) : bool :=
  match p with None | Some BadPcm => false | Some (Handle p) => 0 <=? fd p end.

(** What is still held after [pcm_close]; the ioctl that stops the stream changes nothing
    here. *)
Definition pcm_close (p : handle) (h : held) : held :=
  match p with
  | BadPcm => h
  | Handle p =>
      let '(p, h) := pcm_hw_munmap_status p h in
      let h := if PCM_MMAP (flags p) then munmap_buffer (mmap_buffer p) h else h in
      let h := if 0 <=? fd p then close_fd h else h in
      free_handle h
  end.

(** The parts of the handle that configuring leaves alone. *)
Definition same_pages (p p' : pcm) : Prop :=
  fd p' = fd p /\ flags p' = flags p /\ mmap_status p' = mmap_status p /\ mmap_control p' = mmap_control p /\ sync_ptr p' = sync_ptr p.

(** What configuring does to the mapping of the ring. *)
Lemma set_config_held a c p h ret p' h' : configure_pcm a c p h = Some (ret, p', h') -> same_pages p p' /\
  (h' = h /\ (mmap_buffer p' = mmap_buffer p \/ mmap_buffer p' = MapFailed) \/
   h' = set_ring true h /\ mmap_buffer p' = RingBuffer /\ PCM_MMAP (flags p) = true).
Proof.
  unfold configure_pcm. set (own := bool_decide (c = None)). set (p0 := store_config c p). cbv zeta.
  destruct (_ && _); [intros [= <- <- <-]; by split; [|auto]|].
  set (q := if PCM_NOIRQ (flags p0) then _ else p0).
  assert (Hq : same_pages p q /\ mmap_buffer q = mmap_buffer p) by (unfold q; by case_match). destruct Hq as [Hq Hqb].
  destruct (hw_params_ioctl a _) as [params|e]; [|intros [= <- <- <-]; by split; [|auto]].
  set (q' := store_periods _ _ own q). assert (Hq' : same_pages p q' /\ mmap_buffer q' = mmap_buffer p) by done. clearbody q' q.
  change (flags p0) with (flags p). destruct (if PCM_MMAP (flags p) then ring_mmap a else None) as [e|] eqn:Hmap.
  { intros [= <- <- <-]. split; [exact (proj1 Hq')|auto]. }
  destruct (if PCM_MMAP (flags p) then (with_buffer RingBuffer q', set_ring true h) else (q', h)) as [q2 h2] eqn:H2.
  unfold set_software. destruct (grow_boundary _ _ _); cbn [mbind option_bind]; [|done].
  assert (H3 : same_pages p q2 /\ (h2 = h /\ mmap_buffer q2 = mmap_buffer p \/
    h2 = set_ring true h /\ mmap_buffer q2 = RingBuffer /\ PCM_MMAP (flags p) = true)).
  { destruct (PCM_MMAP (flags p)); injection H2 as <- <-; (split; [by apply Hq'|]); [by right|left]. by split; [|apply Hq']. }
  destruct H3 as [H3 H4]. destruct (sw_params_ioctl a _); intros [= <- <- <-]; (split; [exact H3|]); destruct H4 as [[-> ?]|[-> ?]]; auto.
Qed.

(** Everything is given back, the descriptor closed as often as it was opened, and the ring
    unmapped at most [n] times too often. *)
Definition released (opened : bool) (n : nat) (h : held) : Prop :=
  handle_alloc h = false /\ fd_open h = false /\ ring_mapped h = false /\ status_mapped h = false /\ control_mapped h = false /\
  sync_alloc h = false /\ closes h = (if opened then 1 else 0)%nat /\ (stale_unmaps h <= n)%nat.

(** C37. Whatever fails while a handle is opened, closing it gives back the memory, the
    mappings and the descriptor, the latter exactly once; the ring is unmapped a second
    time at most once, and not at all for a handle that was ready. *)
Theorem open_close_releases o f c hd h : pcm_open o f c = Some (hd, h) ->
  released (calloc_ok o && (0 <=? open_result o)) (if pcm_is_ready (Some hd) then 0 else 1) (pcm_close hd h).
Proof.
  unfold pcm_open. destruct (calloc_ok o); cbn [negb andb]; [|intros [= <- <-]; split_and!; cbn; auto].
  destruct (open_result o <? 0) eqn:Hopen; breflect.
  { intros [= <- <-]. cbn. rewrite !(proj2 (Z.leb_gt 0 _)) by lia. case_match; split_and!; cbn; auto. }
  rewrite (proj2 (Z.leb_le 0 _)) by lia. destruct (info_ioctl o) as [sub|]; [|intros [= <- <-]; cbn; case_match; split_and!; cbn; auto].
  destruct (configure_pcm _ _ _ _) as [[[ret p] h1]|] eqn:Hc; [|done]. cbn [mbind option_bind].
  apply set_config_held in Hc as ((Hfd & Hfl & Hst & Hct & Hsy) & Hh). cbn in *.
  assert (Hbuf : h1 = mk_held true true (ring_mapped h1) false false false 0 0 /\
    (ring_mapped h1 = true -> mmap_buffer p = RingBuffer /\ PCM_MMAP f = true) /\ (ring_mapped h1 = false -> mmap_buffer p <> RingBuffer)).
  { destruct Hh as [(-> & [Hb|Hb])|(-> & Hb & ?)]; cbn; rewrite Hb; by split_and!. }
  clear Hh. destruct h1 as [ha fo rm sm cm sa cl su], p. cbn in Hbuf, Hfd, Hfl, Hst, Hct, Hsy. destruct Hbuf as (Hh & Hr1 & Hr2). injection Hh as -> -> -> -> -> -> ->. subst.
  unfold pcm_hw_mmap_status. cbn [sync_ptr].
  destruct (ret =? 0); cbn [negb]; [destruct (status_mmap o), (control_mmap o), (sync_calloc o); cbn [andb]|].
  all: cbn; try (destruct (PCM_MONOTONIC f), (tstamp_ioctl o); cbn).
  all: intros [= <- <-]; cbn; rewrite ?(proj2 (Z.leb_le 0 _)) by lia; destruct rm, (PCM_MMAP f) eqn:?; cbn.
  all: try (destruct (Hr1 eq_refl) as [-> ?]; try done); cbn.
  all: try (destruct mmap_buffer0; cbn; try (by destruct Hr2)).
  all: split_and!; cbn; auto.
Qed.

(** A driver that takes everything but the clock asked for: the ring is unmapped while
    opening, and again when the handle is closed. *)
Definition taking_driver : driver_answers := mk_answers inl None (fun _ => None).
Definition no_clock : open_answers := mk_open true 5 (Some 0) taking_driver true true true false.
Definition all_well : open_answers := mk_open true 5 (Some 0) taking_driver true true true true.
Definition clock_flags : pcm_flags := mk_flags false true false false true false.

Example failed_open_unmaps_twice : exists p h, pcm_open no_clock clock_flags (Some some_config) = Some (Handle p, h) /\
  fd p = -1 /\ ring_mapped h = false /\ stale_unmaps (pcm_close (Handle p) h) = 1%nat.
Proof. by eexists _, _. Qed.
(** The same with the clock: the handle is ready and comes back clean. *)
Lemma open_close_releases_witness : exists p h, pcm_open all_well clock_flags (Some some_config) = Some (Handle p, h) /\
  released (calloc_ok all_well && (0 <=? open_result all_well)) (if pcm_is_ready (Some (Handle p)) then 0 else 1) (pcm_close (Handle p) h).
Proof. eexists _, _. split; [reflexivity|]. apply (open_close_releases all_well clock_flags (Some some_config)). reflexivity. Defined.

(** A driver that sets the minimum it is given. *)
Definition minimal_driver : driver_answers :=
  mk_answers (fun p => inl (param_set_int SNDRV_PCM_HW_PARAM_PERIOD_SIZE (param_get_min p SNDRV_PCM_HW_PARAM_PERIOD_SIZE) p)) None (fun _ => None).

Lemma minimal_takes : takes_periods minimal_driver.
Proof.
  intros c f params [= <-]. destruct (asked_periods c f) as [Hs Hc]. rewrite !get_set_int by (done || apply asked_ok). by rewrite Hc.
Qed.

Lemma set_config_sizes_witness : exists p h, configure_pcm minimal_driver (Some some_config) (fresh_pcm mmap_flags 3) just_allocated = Some (0, p, h) /\
  sizes_agree p.
Proof.
  assert (Herr : errors_positive minimal_driver) by (split_and!; intros; discriminate).
  assert (Hok : config_ok (config (store_config (Some some_config) (fresh_pcm mmap_flags 3)))) by (vm_compute; intuition congruence).
  destruct (set_config_sizes minimal_driver (Some some_config) (fresh_pcm mmap_flags 3) just_allocated minimal_takes Herr Hok)
    as (ret & p & h & Hp & Hs).
  exists p, h. assert (ret = 0) as -> by (vm_compute in Hp; congruence). split; [exact Hp|by apply Hs].
Defined.

(** ** Transfers through the driver ([pcm_writei], [pcm_readi]) *)

(** The answer of an ioctl: done, with the frames moved by a transfer, or an [errno]. *)
Inductive answer := Done (result : Z) | Failed (errno : Z).

(** What a transfer changes in the handle; [calls] counts the ioctls made, [moved] the
    frames the driver has moved. *)
Record stream := mk_stream { s_running : bool; s_prepared : bool; s_underruns : Z; calls : nat; moved : Z }.

Definition EPIPE := 32.

Section transfers.
(** The answers of the driver, in order. *)
Context (io : nat -> answer).

(** One ioctl; a transfer moves the frames of its result. *)
Definition ioctl (transfer : bool) (s : stream) : answer * stream :=
  let a := io (calls s) in
  (a, mk_stream (s_running s) (s_prepared s) (s_underruns s) (S (calls s))
        (moved s + match a with Done n => if transfer then n else 0 | Failed _ => 0 end)).

Definition set_state (r p : bool) (s : stream) : stream := mk_stream r p (s_underruns s) (calls s) (moved s).
Definition underrun (s : stream) : stream := mk_stream (s_running s) (s_prepared s) (s_underruns s + 1) (calls s) (moved s).

Definition prepare (s : stream) : Z * stream :=
  if s_prepared s then (0, s)
  else match ioctl false s with
       | (Done _, s) => (0, set_state (s_running s) true s)
       | (Failed _, s) => (-1, s)
       end.

(** Without [PCM_MMAP]; also the [errno] of the ioctl that failed. *)
Definition start (s : stream) : Z * Z * stream :=
  let failed := match io (calls s) with Failed e => e | Done _ => 0 end in
  match prepare s with
  | (0, s) =>
      match ioctl false s with
      | (Done _, s) => (0, 0, set_state true (s_prepared s) s)
      | (Failed e, s) => (-1, e, s)
      end
  | (err, s) => (err, failed, s)
  end.

Definition pcm_stop (s : stream) : Z * stream :=
  match ioctl false s with
  | (Done _, s) => (0, set_state false false s)
  | (Failed _, s) => (-1, s)
  end.

(** The loop; [None] is out of fuel. *)
Fixpoint write_loop (norestart : bool) (fuel : nat) (s : stream) : option (Z * stream) :=
  match fuel with
  | O => None
  | S fuel =>
      if negb (s_running s) then
        match prepare s with
        | (0, s) =>
            match ioctl true s with
            | (Done _, s) => Some (0, set_state true (s_prepared s) s)
            | (Failed _, s) => Some (-1, s)
            end
        | (err, s) => Some (err, s)
        end
      else
        match ioctl true s with
        | (Done n, s) => Some (n, s)
        | (Failed e, s) =>
            let s := set_state false false s in
            if e =? EPIPE then
              let s := underrun s in if norestart then Some (- EPIPE, s) else write_loop norestart fuel s
            else Some (-1, s)
        end
  end.

Definition frame_count_ok (frame_count : Z) : bool := negb (TINYALSA_FRAMES_MAX <? frame_count) && negb (INT_MAX <? frame_count).

Definition pcm_writei (fuel : nat) (f : pcm_flags) (frame_count : Z) (s : stream) : option (Z * stream) :=
  if PCM_IN f then Some (- EINVAL, s)
  else if negb (frame_count_ok frame_count) then Some (- EINVAL, s)
  else write_loop (PCM_NORESTART f) fuel s.

Fixpoint read_loop (fuel : nat) (s : stream) : option (Z * stream) :=
  match fuel with
  | O => None
  | S fuel =>
      let '(err, e, s) := if negb (s_running s) then start s else (0, 0, s) in
      if err <? 0 then Some (- e, s)
      else
        match ioctl true s with
        | (Done n, s) => Some (n, s)
        | (Failed e, s) =>
            let s := set_state false false s in
            if e =? EPIPE then read_loop fuel (underrun s) else Some (-1, s)
        end
  end.

Definition pcm_readi (fuel : nat) (f : pcm_flags) (frame_count : Z) (s : stream) : option (Z * stream) :=
  if negb (PCM_IN f) then Some (- EINVAL, s)
  else if negb (frame_count_ok frame_count) then Some (- EINVAL, s)
  else read_loop fuel s.

(** [pcm_write] and [pcm_read]: bytes instead of frames. *)
Definition pcm_write (fuel : nat) (f : pcm_flags) (c : pcm_config) (count : Z) (s : stream) : option (Z * stream) :=
  frames ← pcm_bytes_to_frames c count; pcm_writei fuel f frames s.
Definition pcm_read (fuel : nat) (f : pcm_flags) (c : pcm_config) (count : Z) (s : stream) : option (Z * stream) :=
  frames ← pcm_bytes_to_frames c count; pcm_readi fuel f frames s.

(** A running stream is prepared. *)
Definition stream_ok (s : stream) : Prop := s_running s = true -> s_prepared s = true.

(** The driver moves no negative number of frames, and error numbers are positive. *)
Definition answers_ok : Prop := forall i, match io i with Done n => 0 <= n | Failed e => 0 < e end.

(** A write ends after at most two rounds, whatever the driver answers.  A negative
    answer: nothing was moved, and the stream does not run, unless the arguments were
    refused.  Otherwise the stream runs and the answer is what was moved, or it is 0
    because this call had to start the stream, however much was moved. *)
Theorem writei_ends f frame_count s : answers_ok -> stream_ok s -> exists ret s', pcm_writei 2 f frame_count s = Some (ret, s') /\
  stream_ok s' /\ (calls s' <= calls s + 3)%nat /\ s_underruns s <= s_underruns s' <= s_underruns s + 1 /\
  (ret < 0 -> moved s' = moved s /\ (s_running s' = false \/ s' = s)) /\
  (0 <= ret -> s_running s' = true /\ moved s <= moved s' /\
     (ret = moved s' - moved s \/ ret = 0 /\ (s_running s = false \/ s_underruns s' = s_underruns s + 1))).
Proof.
  intros Hio Hs. unfold pcm_writei.
  destruct (PCM_IN f); [eexists _, s; split; [done|]; split_and!; try done; try lia; by auto|].
  destruct (frame_count_ok frame_count); cbn [negb]; [|eexists _, s; split; [done|]; split_and!; try done; try lia; by auto].
  destruct s as [r p u n m]. unfold stream_ok in *. cbn in Hs.
  pose proof (Hio n) as H0. pose proof (Hio (S n)) as H1. pose proof (Hio (S (S n))) as H2.
  cbn. destruct r; [destruct p; [|by discriminate Hs]|destruct p]; cbn; repeat (case_match; simplify_eq; cbn);
    try done; eexists _, _; (split; [done|]); cbn; split_and!; try done; try lia; auto.
Qed.

(** What starting does. *)
Lemma start_spec s : answers_ok -> exists err e s', start s = (err, e, s') /\ moved s' = moved s /\ s_underruns s' = s_underruns s /\
  (calls s <= calls s')%nat /\ (err = 0 /\ s_running s' = true /\ s_prepared s' = true \/ err = -1 /\ 0 < e /\ s_running s' = s_running s).
Proof.
  intros Hio. destruct s as [r p u n m]. pose proof (Hio n) as H0. pose proof (Hio (S n)) as H1. unfold start, prepare. cbn.
  destruct p; cbn; repeat (case_match; simplify_eq; cbn); eexists _, _, _; (split; [done|]); cbn; split_and!; try lia; auto.
Qed.

(** How a read ends: a negative answer leaves the stream stopped with nothing moved,
    another is what was moved. *)
Definition read_post (s : stream) (ret : Z) (s' : stream) : Prop := s_underruns s <= s_underruns s' /\
  (ret < 0 -> moved s' = moved s /\ s_running s' = false) /\ (0 <= ret -> s_running s' = true /\ ret = moved s' - moved s).

(** After the last overrun a read ends with the next round. *)
Lemma read_loop_ends m : answers_ok -> (forall i, (m <= i)%nat -> io i <> Failed EPIPE) -> forall fuel s, (m < calls s + fuel)%nat ->
  exists ret s', read_loop fuel s = Some (ret, s') /\ read_post s ret s' \/ fuel = 0%nat.
Proof.
  intros Hio Hlast. induction fuel as [|fuel IH]; intros s Hf; [by exists 0, s; right|]. cbn [read_loop].
  assert (exists err e s1, (if negb (s_running s) then start s else (0, 0, s)) = (err, e, s1) /\ moved s1 = moved s /\ s_underruns s1 = s_underruns s /\
    (calls s <= calls s1)%nat /\ (err = 0 /\ s_running s1 = true \/ err = -1 /\ 0 < e /\ s_running s1 = false))
    as (err & e & s1 & -> & Hm & Hu & Hc & Herr).
  { destruct (s_running s) eqn:Hr; cbn [negb]; [by eexists _, _, s; split_and!; auto|].
    destruct (start_spec s Hio) as (err & e & s' & -> & Hm & Hu & Hc & Herr). eexists _, _, _. split_and!; [done|done|done|done|].
    destruct Herr as [(-> & ? & _)|(-> & ? & He)]; [by left|right; by rewrite He]. }
  destruct Herr as [[-> Hrun]|(-> & He & Hstop)]; cbn [Z.ltb Z.compare].
  2: { eexists _, s1. left. split; [done|]. split; [lia|]. split; [done|lia]. }
  pose proof (Hio (calls s1)) as Hn. unfold ioctl. destruct (io (calls s1)) as [n|e'] eqn:Ha.
  { eexists _, _. left. split; [done|]. split; cbn; [lia|]. split; [lia|]. split; [done|lia]. }
  destruct (e' =? EPIPE) eqn:Hp; breflect; [subst|].
  2: { eexists _, _. left. split; [done|]. split; cbn; [lia|]. split; [by split; [lia|]|lia]. }
  assert (calls s1 < m)%nat by (destruct (decide (m <= calls s1)%nat) as [Hge|]; [by destruct (Hlast _ Hge)|lia]).
  destruct fuel as [|fuel]; [lia|]. edestruct IH as (ret & s' & [[Hl (Hu' & H1 & H2)]|]); [|exists ret, s'; left|done].
  2: { split; [exact Hl|]. cbn in *. split; [lia|]. split; [intros Hg; destruct (H1 Hg); split; [lia|done]|intros Hg; destruct (H2 Hg); split; [done|lia]]. }
  cbn. lia.
Qed.

(** A read ends once the overruns do. *)
Theorem readi_ends m f frame_count s : answers_ok -> (forall i, (m <= i)%nat -> io i <> Failed EPIPE) ->
  PCM_IN f = true -> frame_count_ok frame_count = true ->
  exists ret s', pcm_readi (S m) f frame_count s = Some (ret, s') /\ read_post s ret s'.
Proof.
  intros Hio Hlast Hin Hfr. unfold pcm_readi. rewrite Hin, Hfr. cbn [negb].
  destruct (read_loop_ends m Hio Hlast (S m) s) as (ret & s' & [H|]); [lia|by exists ret, s'|done].
Qed.
End transfers.

(** Every read overruns: the stream is prepared and started again and again. *)
Definition always_late (i : nat) : answer := if (i mod 3 =? 2)%nat then Failed EPIPE else Done 0.
Definition stopped (n : nat) (u : Z) : stream := mk_stream false false u n 0.

Theorem readi_spins fuel frame_count : frame_count_ok frame_count = true ->
  pcm_readi always_late fuel (mk_flags true false false false false false) frame_count (stopped 0 0) = None.
Proof.
  intros Hf. unfold pcm_readi. rewrite Hf. cbn [negb PCM_IN]. clear Hf.
  assert (H : forall k u, read_loop always_late fuel (stopped (3 * k) u) = None); [|apply (H 0%nat)].
  assert (Hm : forall k j, (j < 3)%nat -> ((3 * k + j) mod 3)%nat = j).
  { intros k j Hj. rewrite Nat.add_comm, Nat.mul_comm, Nat.Div0.mod_add. by apply Nat.mod_small. }
  induction fuel as [|fuel IH]; intros k u; [done|].
  assert (H0 : always_late (3 * k) = Done 0) by (unfold always_late; by rewrite <- (Nat.add_0_r (3 * k)), Hm by lia).
  assert (H1 : always_late (S (3 * k)) = Done 0) by (unfold always_late; by rewrite <- Nat.add_1_r, Hm by lia).
  assert (H2 : always_late (S (S (3 * k))) = Failed EPIPE).
  { unfold always_late. replace (S (S (3 * k))) with (3 * k + 2)%nat by lia. by rewrite Hm by lia. }
  remember (3 * k)%nat as n eqn:Hn. cbn [read_loop stopped s_running negb]. unfold start, prepare, ioctl. cbn. rewrite H0. cbn. rewrite H1. cbn.
  rewrite H2. cbn. change (mk_stream false false (u + 1) (S (S (S n))) 0) with (stopped (S (S (S n))) (u + 1)).
  replace (S (S (S n))) with (3 * S k)%nat by lia. apply IH.
Qed.

(** The first write moves 256 frames and answers 0, which the header calls the number of
    frames written; the second answers 256. *)
Definition moves_256 (i : nat) : answer := Done (if (i =? 0)%nat then 0 else 256).
Example first_write_unreported : exists s, pcm_writei moves_256 2 no_flags 256 (stopped 0 0) = Some (0, s) /\ moved s = 256 /\
  exists s', pcm_writei moves_256 2 no_flags 256 s = Some (256, s') /\ moved s' = 512.
Proof. eexists. split; [done|]. split; [done|]. by eexists. Qed.

Lemma writei_ends_witness : exists ret s', pcm_writei moves_256 2 no_flags 256 (stopped 0 0) = Some (ret, s') /\ s_running s' = true.
Proof.
  assert (Hio : answers_ok moves_256) by (intros [|i]; vm_compute; congruence).
  destruct (writei_ends moves_256 no_flags 256 (stopped 0 0) Hio) as (ret & s' & Hw & _ & _ & _ & _ & Hend); [discriminate|].
  exists ret, s'. split; [exact Hw|]. apply Hend. assert (ret = 0) by (vm_compute in Hw; congruence). lia.
Defined.
