(* ===== verification/TinyMixer.v ===== *)
(** * Mixer controls (tinyalsa/src/mixer.c)

    A mixer is a card's descriptor and a copy of the descriptions of its controls; the
    values stay in the kernel.  The class [Card] is what the kernel offers for values, and
    [CardLaws] what it promises: a value written is the value read.  The other answers of
    the kernel are arguments.

    [set_value_correct]: setting one value changes that value and no other, or nothing;
    [percent_to_int_spec], [percent_coarse]: percentages are mapped into the range, but
    reading gives 0 or 100 only; [lookup_by_name_correct]: finding the n-th control of a
    name; [add_controls_spec]: scanning keeps the controls known before;
    [set_enum_correct]: an enumeration is set by its string.  [open_closes_stdin],
    [enum_resets_others] and [bad_percent_written] show defects. *)

From stdpp Require Import strings gmap.
From S2P Require Import Prelude.

(** ** Data *)

Inductive elem_type := BOOLEAN | INTEGER | ENUMERATED | BYTES | IEC958 | INTEGER64 | OTHER_TYPE.

#[export] Instance elem_type_eq_dec : EqDecision elem_type.
Proof. solve_decision. Defined.

Record elem_info := mk_info {
  numid : Z; name : string; etype : elem_type; tlv_readwrite : bool; count : Z; emin : Z; emax : Z; items : Z }.
Record mixer_ctl := mk_ctl { info : elem_info; ename : option (list string) }.
(** The controls as far as they are counted. *)
Record mixer := mk_mixer { fd : Z; ctls : list mixer_ctl }.

Definition EINVAL := 22.
Definition ENOMEM := 12.
Definition EIO := 5.
(** [2 * sizeof(unsigned int)]. *)
Definition TLV_HEADER_SIZE := 8.
(** The values in [struct snd_ctl_elem_value], by type. *)
Definition slots (t : elem_type) : Z := match t with BYTES => 512 | _ => 128 end.

Inductive mixer_ctl_type :=
| MIXER_CTL_TYPE_BOOL | MIXER_CTL_TYPE_INT | MIXER_CTL_TYPE_ENUM | MIXER_CTL_TYPE_BYTE | MIXER_CTL_TYPE_IEC958
| MIXER_CTL_TYPE_INT64 | MIXER_CTL_TYPE_UNKNOWN.

Definition mixer_ctl_get_type (ctl : option mixer_ctl) : mixer_ctl_type :=
  match ctl with
  | None => MIXER_CTL_TYPE_UNKNOWN
  | Some ctl =>
      match etype (info ctl) with
      | BOOLEAN => MIXER_CTL_TYPE_BOOL
      | INTEGER => MIXER_CTL_TYPE_INT
      | ENUMERATED => MIXER_CTL_TYPE_ENUM
      | BYTES => MIXER_CTL_TYPE_BYTE
      | IEC958 => MIXER_CTL_TYPE_IEC958
      | INTEGER64 => MIXER_CTL_TYPE_INT64
      | OTHER_TYPE => MIXER_CTL_TYPE_UNKNOWN
      end
  end.
Definition mixer_ctl_get_type_string (ctl : option mixer_ctl) : string :=
  match ctl with
  | None => ""
  | Some ctl =>
      match etype (info ctl) with
      | BOOLEAN => "BOOL" | INTEGER => "INT" | ENUMERATED => "ENUM" | BYTES => "BYTE"
      | IEC958 => "IEC958" | INTEGER64 => "INT64" | OTHER_TYPE => "Unknown"
      end%string
  end.

Definition mixer_ctl_get_id (ctl : option mixer_ctl) : Z :=
  match ctl with None => 2 ^ 32 - 1 | Some ctl => wrap_u32 (numid (info ctl) - 1) end.
Definition mixer_ctl_get_name (ctl : option mixer_ctl) : option string := name ∘ info <$> ctl.
Definition mixer_ctl_get_num_values (ctl : option mixer_ctl) : Z := match ctl with None => 0 | Some ctl => count (info ctl) end.
Definition mixer_ctl_get_num_enums (ctl : option mixer_ctl) : Z := match ctl with None => 0 | Some ctl => items (info ctl) end.
Definition mixer_ctl_is_access_tlv_rw (ctl : mixer_ctl) : bool := tlv_readwrite (info ctl).

(** ** Finding controls *)

Definition mixer_get_num_ctls (m : option mixer) : Z := match m with None => 0 | Some m => zlen (ctls m) end.

Definition named (s : string) (ctl : mixer_ctl) : bool := bool_decide (s = name (info ctl)).

Fixpoint count_named (s : string) (l : list mixer_ctl) (n : Z) : Z :=
  match l with [] => n | ctl :: l => count_named s l (if named s ctl then wrap_u32 (n + 1) else n) end.
Definition mixer_get_num_ctls_by_name (m : option mixer) (s : string) : Z :=
  match m with None => 0 | Some m => count_named s (ctls m) 0 end.

(** The position of a control. *)
Definition mixer_get_ctl (m : option mixer) (id : Z) : option Z :=
  m ← m; if id <? zlen (ctls m) then Some id else None.

Fixpoint find_named (s : string) (index : Z) (l : list mixer_ctl) (n : Z) : option Z :=
  match l with
  | [] => None
  | ctl :: l =>
      if named s ctl then if index =? 0 then Some n else find_named s (wrap_u32 (index - 1)) l (n + 1)
      else find_named s index l (n + 1)
  end.
Definition mixer_get_ctl_by_name_and_index (m : option mixer) (s : string) (index : Z) : option Z :=
  m ← m; find_named s index (ctls m) 0.
Definition mixer_get_ctl_by_name (m : option mixer) (s : string) : option Z := mixer_get_ctl_by_name_and_index m s 0.

(** The number of controls of a name. *)
Definition occurrences (s : string) (l : list mixer_ctl) : Z := zlen (filter (fun c => named s c = true) l).

Lemma occurrences_nil s : occurrences s [] = 0.
Proof. done. Qed.
Lemma occurrences_cons s c l : occurrences s (c :: l) = (if named s c then 1 else 0) + occurrences s l.
Proof. unfold occurrences. rewrite filter_cons. case_decide as Hc; [rewrite Hc, zlen_cons; lia|by destruct (named s c)]. Qed.

Lemma count_named_spec s l : forall n, 0 <= n -> n + zlen l < 2 ^ 32 -> count_named s l n = n + occurrences s l.
Proof.
  induction l as [|c l IH]; intros n Hn Hl; [rewrite occurrences_nil; cbn; lia|]. rewrite zlen_cons in Hl. pose proof (zlen_nonneg l).
  cbn [count_named]. rewrite occurrences_cons. case_match; rewrite ?wrap_u32_id by lia; rewrite IH by lia; lia.
Qed.

Lemma find_named_spec s l : forall index n, 0 <= index < 2 ^ 32 -> 0 <= n ->
  match find_named s index l n with
  | Some p => n <= p /\ index < occurrences s l /\ occurrences s (take (Z.to_nat (p - n)) l) = index /\
              exists c, zlookup l (p - n) = Some c /\ name (info c) = s
  | None => occurrences s l <= index
  end.
Proof.
  induction l as [|c l IH]; intros index n Hi Hn; [rewrite occurrences_nil; cbn; lia|]. cbn [find_named]. rewrite occurrences_cons.
  assert (Hstep : forall index', 0 <= index' < 2 ^ 32 -> index = (if named s c then 1 else 0) + index' ->
    match find_named s index' l (n + 1) with
    | Some p => n <= p /\ index < (if named s c then 1 else 0) + occurrences s l /\ occurrences s (take (Z.to_nat (p - n)) (c :: l)) = index /\
                exists c', zlookup (c :: l) (p - n) = Some c' /\ name (info c') = s
    | None => (if named s c then 1 else 0) + occurrences s l <= index
    end).
  { intros index' Hi' ->. specialize (IH index' (n + 1) Hi' ltac:(lia)). destruct (find_named _ _ _ _) as [p|]; [|lia].
    destruct IH as (Hp & Hlt & Ho & d & Hd & Hname). split; [lia|]. split; [lia|].
    replace (p - n) with (Z.succ (p - (n + 1))) by lia. split.
    - rewrite Z2Nat.inj_succ by lia. cbn [take]. by rewrite occurrences_cons, Ho.
    - exists d. split; [|done]. unfold zlookup in *. rewrite (proj2 (Z.ltb_ge _ 0)) in Hd by lia. rewrite (proj2 (Z.ltb_ge _ 0)) by lia.
      by rewrite Z2Nat.inj_succ by lia. }
  destruct (named s c) eqn:Hnamed; [|apply Hstep; lia].
  destruct (index =? 0) eqn:Hz; breflect; [subst|rewrite wrap_u32_id by lia; apply Hstep; lia].
  split; [lia|]. rewrite Z.sub_diag. split; [unfold occurrences; pose proof (zlen_nonneg (filter (fun c => named s c = true) l)); lia|].
  split; [done|]. exists c. split; [done|]. by apply bool_decide_eq_true in Hnamed.
Qed.

(** The search by name and index finds a control exactly where the index is below the
    number of controls of that name, and then it is one of that name, with as many of them
    before it as the index says. *)
Theorem lookup_by_name_correct m s index : 0 <= index < 2 ^ 32 -> zlen (ctls m) < 2 ^ 32 ->
  match mixer_get_ctl_by_name_and_index (Some m) s index with
  | Some p => index < mixer_get_num_ctls_by_name (Some m) s /\ occurrences s (take (Z.to_nat p) (ctls m)) = index /\
              exists c, zlookup (ctls m) p = Some c /\ name (info c) = s
  | None => mixer_get_num_ctls_by_name (Some m) s <= index
  end.
Proof.
  intros Hi Hl. cbn. rewrite count_named_spec by lia. pose proof (find_named_spec s (ctls m) index 0 Hi ltac:(lia)) as H.
  destruct (find_named _ _ _ _) as [p|]; [|lia]. rewrite Z.sub_0_r in H. destruct H as (_ & H1 & H2 & H3). split; [lia|done].
Qed.

(** ** Percentages *)

(** An [int] operation: [None] where it overflows. *)
Definition checked (z : Z) : option Z := if bool_decide (is_int z) then Some z else None.

Definition percent_to_int (ei : elem_info) (percent : Z) : option Z :=
  if (100 <? percent) || (percent <? 0) then Some (- EINVAL)
  else range ← checked (emax ei - emin ei); product ← checked (range * percent); checked (emin ei + c_div product 100).

Definition int_to_percent (ei : elem_info) (value : Z) : option Z :=
  range ← checked (emax ei - emin ei);
  if range =? 0 then Some 0 else distance ← checked (value - emin ei); checked (c_div distance range * 100).

Lemma checked_ok z : is_int z -> checked z = Some z.
Proof. intros. unfold checked. by rewrite bool_decide_true. Qed.

(** A range that is in order and not too wide for the arithmetic. *)
Definition range_ok (ei : elem_info) : Prop :=
  emin ei <= emax ei /\ is_int (emin ei) /\ is_int (emax ei) /\ (emax ei - emin ei) * 100 <= INT_MAX.

Lemma percent_to_int_spec ei percent : range_ok ei -> 0 <= percent <= 100 -> exists v, percent_to_int ei percent = Some v /\
  v = emin ei + (emax ei - emin ei) * percent / 100 /\ emin ei <= v <= emax ei.
Proof.
  intros (Hle & Hmin & Hmax & Hr) Hp. unfold is_int, INT_MIN, INT_MAX in *. unfold percent_to_int.
  rewrite (proj2 (Z.ltb_ge 100 _)), (proj2 (Z.ltb_ge _ 0)) by lia. cbn [orb].
  rewrite checked_ok by (unfold is_int, INT_MIN, INT_MAX; lia). cbn [mbind option_bind].
  set (d := emax ei - emin ei) in *. assert (0 <= d * percent <= d * 100) by nia.
  rewrite checked_ok by (unfold is_int, INT_MIN, INT_MAX; lia). cbn [mbind option_bind]. rewrite c_div_div by lia.
  assert (0 <= d * percent / 100 <= d) by (split; [apply Z.div_pos; lia|apply Z.div_le_upper_bound; lia]).
  rewrite checked_ok by (unfold is_int, INT_MIN, INT_MAX; lia). eexists; split; [done|]. split; [done|lia].
Qed.

(** The division comes first: only the top of the range is not 0 percent. *)
Lemma int_to_percent_spec ei value : range_ok ei -> emin ei <= value <= emax ei ->
  int_to_percent ei value = Some (if bool_decide (emin ei < emax ei /\ value = emax ei) then 100 else 0).
Proof.
  intros (Hle & Hmin & Hmax & Hr) Hv. unfold is_int, INT_MIN, INT_MAX in *. unfold int_to_percent.
  rewrite (checked_ok (emax ei - emin ei)) by (unfold is_int, INT_MIN, INT_MAX; lia). cbn [mbind option_bind].
  destruct (emax ei - emin ei =? 0) eqn:Hz; breflect; [by rewrite bool_decide_false by lia|].
  rewrite (checked_ok (value - emin ei)) by (unfold is_int, INT_MIN, INT_MAX; lia). cbn [mbind option_bind]. rewrite c_div_div by lia.
  case_bool_decide as Hb.
  - destruct Hb as [_ ->]. rewrite Z.div_same by lia. by rewrite checked_ok by (unfold is_int, INT_MIN, INT_MAX; lia).
  - rewrite Z.div_small by lia. by rewrite checked_ok by (unfold is_int, INT_MIN, INT_MAX; lia).
Qed.

(** What is read after a percentage has been set. *)
Lemma percent_coarse ei percent : range_ok ei -> emin ei < emax ei -> 0 <= percent <= 100 ->
  (v ← percent_to_int ei percent; int_to_percent ei v) = Some (if percent =? 100 then 100 else 0).
Proof.
  intros Hr Hlt Hp. destruct (percent_to_int_spec ei percent Hr Hp) as (v & -> & Hv & Hrange). cbn [mbind option_bind].
  rewrite int_to_percent_spec by done. f_equal. destruct (percent =? 100) eqn:Hz; breflect.
  - rewrite bool_decide_true; [done|]. split; [done|]. subst. rewrite Z.div_mul by lia. lia.
  - rewrite bool_decide_false; [done|]. intros [_ He]. assert ((emax ei - emin ei) * percent / 100 < emax ei - emin ei); [|lia].
    apply Z.div_lt_upper_bound; nia.
Qed.

(** ** Values *)

(** What the kernel offers for the values of a card's elements: reading all values of an
    element, and writing them; [None]: the ioctl fails. *)
Class Card (card : Type) := {
  elem_read : card -> Z -> option (list Z);
  elem_write : card -> Z -> list Z -> option card;
}.

(** What it promises. *)
Class CardLaws (card : Type) `{Card card} := {
  read_written : forall c c' n vs, elem_write c n vs = Some c' -> elem_read c' n = Some vs;
  read_others : forall c c' n m vs, elem_write c n vs = Some c' -> m <> n -> elem_read c' m = elem_read c m;
}.

Section values.
Context {card : Type} `{Card card}.

(** A value in its slot: [long], [unsigned int] or [unsigned char]. *)
Definition slot_value (t : elem_type) (value : Z) : Z :=
  match t with
  | BOOLEAN => if value =? 0 then 0 else 1
  | ENUMERATED => wrap_u32 value
  | BYTES => value mod 2 ^ 8
  | _ => value
  end.
Definition has_values (t : elem_type) : bool := match t with BOOLEAN | INTEGER | ENUMERATED | BYTES => true | _ => false end.

(** The value of a slot as an [int]. *)
Definition int_value (t : elem_type) (v : Z) : Z :=
  match t with BOOLEAN => if v =? 0 then 0 else 1 | ENUMERATED => wrap_s32 v | _ => v end.

(** [None]: an index outside the slots. *)
Definition mixer_ctl_get_value (c : card) (ctl : option mixer_ctl) (id : Z) : option Z :=
  match ctl with
  | None => Some (- EINVAL)
  | Some ctl =>
      if count (info ctl) <=? id then Some (- EINVAL)
      else
        match elem_read c (numid (info ctl)) with
        | None => Some (-1)
        | Some ev => if has_values (etype (info ctl)) then int_value (etype (info ctl)) <$> zlookup ev id else Some (- EINVAL)
        end
  end.

Definition mixer_ctl_get_range_min (ctl : option mixer_ctl) : Z :=
  match ctl with None => - EINVAL | Some ctl => if decide (etype (info ctl) = INTEGER) then emin (info ctl) else - EINVAL end.
Definition mixer_ctl_get_range_max (ctl : option mixer_ctl) : Z :=
  match ctl with None => - EINVAL | Some ctl => if decide (etype (info ctl) = INTEGER) then emax (info ctl) else - EINVAL end.

Definition mixer_ctl_set_value (c : card) (ctl : option mixer_ctl) (id value : Z) : option (Z * card) :=
  match ctl with
  | None => Some (- EINVAL, c)
  | Some ctl =>
      if count (info ctl) <=? id then Some (- EINVAL, c)
      else
        match elem_read c (numid (info ctl)) with
        | None => Some (-1, c)
        | Some ev =>
            let t := etype (info ctl) in
            if negb (has_values t) then Some (- EINVAL, c)
            else if bool_decide (t = INTEGER) &&
                    ((value <? mixer_ctl_get_range_min (Some ctl)) || (mixer_ctl_get_range_max (Some ctl) <? value))
            then Some (- EINVAL, c)
            else if zlen ev <=? id then None
            else
              match elem_write c (numid (info ctl)) (<[Z.to_nat id := slot_value t value]> ev) with
              | None => Some (-1, c)
              | Some c => Some (0, c)
              end
        end
  end.

Definition mixer_ctl_get_percent (c : card) (ctl : option mixer_ctl) (id : Z) : option Z :=
  match ctl with
  | None => Some (- EINVAL)
  | Some ctl' =>
      if decide (etype (info ctl') = INTEGER) then v ← mixer_ctl_get_value c ctl id; int_to_percent (info ctl') v else Some (- EINVAL)
  end.
Definition mixer_ctl_set_percent (c : card) (ctl : option mixer_ctl) (id percent : Z) : option (Z * card) :=
  match ctl with
  | None => Some (- EINVAL, c)
  | Some ctl' =>
      if decide (etype (info ctl') = INTEGER) then v ← percent_to_int (info ctl') percent; mixer_ctl_set_value c ctl id v
      else Some (- EINVAL, c)
  end.

(** A control whose element is read with a slot for every value. *)
Definition readable (c : card) (ctl : mixer_ctl) : Prop := forall ev, elem_read c (numid (info ctl)) = Some ev -> count (info ctl) <= zlen ev.

(** What a value becomes when it is set and read again. *)
Definition read_back (t : elem_type) (value : Z) : Z := int_value t (slot_value t value).

Context `{!CardLaws card}.

(** The two outcomes of setting a value. *)
Lemma set_value_spec c ctl id value : readable c ctl -> 0 <= id -> exists ret c', mixer_ctl_set_value c (Some ctl) id value = Some (ret, c') /\
  (ret < 0 /\ c' = c \/
   ret = 0 /\ id < count (info ctl) /\ has_values (etype (info ctl)) = true /\
   (etype (info ctl) = INTEGER -> emin (info ctl) <= value <= emax (info ctl)) /\
   exists ev, elem_read c (numid (info ctl)) = Some ev /\ id < zlen ev /\
     elem_write c (numid (info ctl)) (<[Z.to_nat id := slot_value (etype (info ctl)) value]> ev) = Some c').
Proof.
  intros Hr Hid. unfold mixer_ctl_set_value. destruct (count (info ctl) <=? id) eqn:Hc; breflect; [eexists _, c; split; [done|by left]|].
  destruct (elem_read c _) as [ev|] eqn:Hread; [|eexists _, c; split; [done|by left]]. pose proof (Hr _ Hread) as Hlen.
  destruct (has_values _) eqn:Hh; cbn [negb]; [|eexists _, c; split; [done|by left]].
  destruct (_ && _) eqn:Hint; [eexists _, c; split; [done|by left]|]. rewrite (proj2 (Z.leb_gt (zlen ev) id)) by lia.
  destruct (elem_write c _ _) as [c'|] eqn:Hw; [|eexists _, c; split; [done|by left]]. eexists _, c'. split; [done|right].
  split; [done|]. split; [done|]. split; [done|]. split; [|by exists ev; split_and!; try lia].
  intros Ht. rewrite bool_decide_true in Hint by done. cbn [andb] in Hint. unfold mixer_ctl_get_range_min, mixer_ctl_get_range_max in Hint.
  rewrite !decide_True in Hint by done. breflect. lia.
Qed.

(** Setting a value of a control changes nothing, and the answer is negative; or the
    answer is 0, the value was in range, it is read back as it is (a boolean as 0 or 1, a
    byte modulo 256), and every other value of the card is read as before. *)
Theorem set_value_correct c ctl id value : readable c ctl -> 0 <= id -> exists ret c', mixer_ctl_set_value c (Some ctl) id value = Some (ret, c') /\
  (ret < 0 /\ c' = c \/
   ret = 0 /\ (etype (info ctl) = INTEGER -> emin (info ctl) <= value <= emax (info ctl)) /\
   mixer_ctl_get_value c' (Some ctl) id = Some (read_back (etype (info ctl)) value) /\
   forall other id', 0 <= id' -> numid (info other) <> numid (info ctl) \/ info other = info ctl /\ id' <> id ->
     mixer_ctl_get_value c' (Some other) id' = mixer_ctl_get_value c (Some other) id').
Proof.
  intros Hr Hid. destruct (set_value_spec c ctl id value Hr Hid) as (ret & c' & -> & Hend). eexists _, _. split; [done|].
  destruct Hend as [?|(-> & Hc & Hh & Hint & ev & Hread & Hlen & Hw)]; [by left|right]. pose proof (read_written _ _ _ _ Hw) as Hnew.
  split; [done|]. split; [done|]. split.
  - unfold mixer_ctl_get_value. rewrite (proj2 (Z.leb_gt _ id)), Hnew, Hh by lia. unfold zlookup.
    rewrite (proj2 (Z.ltb_ge id 0)), list_lookup_insert_eq by (unfold zlen in *; lia). done.
  - intros other id' Hid' [Hne|[He Hne]]; unfold mixer_ctl_get_value.
    + by rewrite (read_others _ _ _ _ _ Hw Hne).
    + rewrite He, Hnew, Hread. unfold zlookup. by rewrite (proj2 (Z.ltb_ge id' 0)), list_lookup_insert_ne by lia.
Qed.

(** A percentage is set within the control's range or nothing is; read again it is 100
    if it was 100 and 0 otherwise, whatever was set. *)
Theorem percent_set_and_read c ctl id percent : readable c ctl -> 0 <= id -> etype (info ctl) = INTEGER -> range_ok (info ctl) ->
  emin (info ctl) < emax (info ctl) -> 0 <= percent <= 100 -> exists ret c', mixer_ctl_set_percent c (Some ctl) id percent = Some (ret, c') /\
  (ret < 0 /\ c' = c \/
   ret = 0 /\ mixer_ctl_get_percent c' (Some ctl) id = Some (if percent =? 100 then 100 else 0) /\
   mixer_ctl_get_value c' (Some ctl) id = Some (emin (info ctl) + (emax (info ctl) - emin (info ctl)) * percent / 100)).
Proof.
  intros Hr Hid Ht Hok Hlt Hp. pose proof (percent_coarse _ _ Hok Hlt Hp) as Hcoarse.
  destruct (percent_to_int_spec _ _ Hok Hp) as (v & Hv & He & Hrange). rewrite Hv in Hcoarse. cbn [mbind option_bind] in Hcoarse.
  unfold mixer_ctl_set_percent, mixer_ctl_get_percent. rewrite !decide_True by done. rewrite Hv. cbn [mbind option_bind].
  destruct (set_value_spec c ctl id v Hr Hid) as (ret & c' & -> & Hend). eexists _, _. split; [done|].
  destruct Hend as [?|(-> & Hc & Hh & Hint & ev & Hread & Hlen & Hw)]; [by left|right]. pose proof (read_written _ _ _ _ Hw) as Hnew.
  assert (Hget : mixer_ctl_get_value c' (Some ctl) id = Some v).
  { unfold mixer_ctl_get_value. rewrite (proj2 (Z.leb_gt _ id)), Hnew, Hh by lia. unfold zlookup.
    rewrite (proj2 (Z.ltb_ge id 0)), list_lookup_insert_eq by (unfold zlen in *; lia). by rewrite Ht. }
  split; [done|]. rewrite decide_True, Hget by done. cbn [mbind option_bind]. split; [done|]. by rewrite He.
Qed.
End values.

(** ** Arrays *)

(** The calls for bytes with a header: length and contents. *)
Class TlvCard (card : Type) := {
  tlv_read : card -> Z -> Z -> Z * list Z;
  tlv_write : card -> Z -> list Z -> Z * card;
}.

Section arrays.
Context {card : Type} `{Card card} `{TlvCard card}.

Definition is_tlv (ctl : mixer_ctl) : bool := bool_decide (etype (info ctl) = BYTES) && mixer_ctl_is_access_tlv_rw ctl.
Definition total_count (ctl : mixer_ctl) : Z := if is_tlv ctl then count (info ctl) + TLV_HEADER_SIZE else count (info ctl).
Definition array_type (t : elem_type) : bool := match t with BOOLEAN | INTEGER | BYTES => true | _ => false end.

(** The answer and the first [count] items stored in the caller's array, if any are;
    [calloc_ok]: memory for the header. *)
Definition mixer_ctl_get_array (calloc_ok : bool) (c : card) (ctl : option mixer_ctl) (array : bool) (n : Z) : Z * option (list Z) :=
  match ctl with
  | None => (- EINVAL, None)
  | Some ctl =>
      if (n =? 0) || negb array then (- EINVAL, None)
      else if total_count ctl <? n then (- EINVAL, None)
      else if negb (array_type (etype (info ctl))) then (- EINVAL, None)
      else if is_tlv ctl then
        if 2 ^ 32 - 1 - TLV_HEADER_SIZE <? n then (- EINVAL, None)
        else if negb calloc_ok then (- ENOMEM, None)
        else let '(ret, bytes) := tlv_read c (numid (info ctl)) n in (ret, Some (take (Z.to_nat n) bytes))
      else
        match elem_read c (numid (info ctl)) with
        | None => (-1, None)
        | Some ev => (0, Some (take (Z.to_nat n) ev))
        end
  end.

Definition zeros (n : Z) : list Z := replicate (Z.to_nat n) 0.

Definition mixer_ctl_set_array (calloc_ok : bool) (c : card) (ctl : option mixer_ctl) (array : option (list Z)) (n : Z) : Z * card :=
  match ctl, array with
  | None, _ | _, None => (- EINVAL, c)
  | Some ctl, Some array =>
      if n =? 0 then (- EINVAL, c)
      else if total_count ctl <? n then (- EINVAL, c)
      else if negb (array_type (etype (info ctl))) then (- EINVAL, c)
      else if is_tlv ctl then
        if 2 ^ 32 - 1 - TLV_HEADER_SIZE <? n then (- EINVAL, c)
        else if negb calloc_ok then (- ENOMEM, c)
        else tlv_write c (numid (info ctl)) (take (Z.to_nat n) array)
      else
        match elem_write c (numid (info ctl)) (zwrite 0 (take (Z.to_nat n) array) (zeros (slots (etype (info ctl))))) with
        | None => (-1, c)
        | Some c => (0, c)
        end
  end.

Context `{!CardLaws card}.

(** An array that is set is read again, item by item. *)
Theorem array_roundtrip ok ok' c c' ctl array n : is_tlv ctl = false -> 0 < n <= zlen array -> count (info ctl) <= slots (etype (info ctl)) ->
  mixer_ctl_set_array ok c (Some ctl) (Some array) n = (0, c') -> mixer_ctl_get_array ok' c' (Some ctl) true n = (0, Some (take (Z.to_nat n) array)).
Proof.
  intros Htlv Hn Hslots. unfold mixer_ctl_set_array, mixer_ctl_get_array, total_count. rewrite Htlv, (proj2 (Z.eqb_neq n 0)) by lia. cbn [orb negb].
  destruct (count (info ctl) <? n) eqn:Hc; breflect; [by intros [=]|].
  destruct (array_type _) eqn:Ht; cbn [negb]; [|by intros [=]]. destruct (elem_write _ _ _) as [c2|] eqn:Hw; [|by intros [=]]. intros [= <-].
  rewrite (read_written _ _ _ _ Hw). f_equal. f_equal. apply list_eq. intros i. destruct (decide (i < Z.to_nat n)%nat) as [Hi|Hi].
  - rewrite lookup_take_lt by done.
    pose proof (zwrite_lookup_in 0 (take (Z.to_nat n) array) (zeros (slots (etype (info ctl)))) (Z.of_nat i)) as Hz.
    rewrite Z.sub_0_r, Nat2Z.id in Hz. rewrite Hz; [by rewrite lookup_take_lt by done|..].
    all: unfold zeros, zlen in *; rewrite ?length_take, ?length_replicate; lia.
  - rewrite !lookup_take_ge by lia. done.
Qed.
End arrays.

(** ** Enumerations *)

Section enums.
(** The name of an item of an element, or failure of the ioctl; memory for the array of
    names and for a copy of one. *)
Context (enum_name : Z -> Z -> option string) (calloc_ok : bool) (strdup_ok : Z -> bool).

Fixpoint enum_names (id : Z) (n : nat) (m : Z) : option (list string) :=
  match n with
  | O => Some []
  | S n => s ← enum_name id m; if strdup_ok m then cons s <$> enum_names id n (m + 1) else None
  end.

Definition mixer_ctl_fill_enum_string (ctl : mixer_ctl) : Z * mixer_ctl :=
  match ename ctl with
  | Some _ => (0, ctl)
  | None =>
      match (if calloc_ok then enum_names (numid (info ctl)) (Z.to_nat (items (info ctl))) 0 else None) with
      | None => (-1, ctl)
      | Some names => (0, mk_ctl (info ctl) (Some names))
      end
  end.

Definition mixer_ctl_get_enum_string (ctl : mixer_ctl) (enum_id : Z) : option string * mixer_ctl :=
  if negb (bool_decide (etype (info ctl) = ENUMERATED)) || (items (info ctl) <=? enum_id) then (None, ctl)
  else
    let '(ret, ctl) := mixer_ctl_fill_enum_string ctl in
    if negb (ret =? 0) then (None, ctl) else (names ← ename ctl; zlookup names enum_id, ctl).

(** The first item with the name. *)
Fixpoint find_name (s : string) (names : list string) (i : Z) : option Z :=
  match names with [] => None | s' :: names => if bool_decide (s = s') then Some i else find_name s names (i + 1) end.

(** All other values written are zero. *)
Definition mixer_ctl_set_enum_by_string {card} `{Card card} (c : card) (ctl : mixer_ctl) (s : string) : Z * mixer_ctl * card :=
  if negb (bool_decide (etype (info ctl) = ENUMERATED)) then (- EINVAL, ctl, c)
  else
    let '(ret, ctl) := mixer_ctl_fill_enum_string ctl in
    if negb (ret =? 0) then (- EINVAL, ctl, c)
    else
      match find_name s (take (Z.to_nat (items (info ctl))) (default [] (ename ctl))) 0 with
      | None => (- EINVAL, ctl, c)
      | Some i =>
          match elem_write c (numid (info ctl)) (<[0%nat := wrap_u32 i]> (zeros (slots ENUMERATED))) with
          | None => (-1, ctl, c)
          | Some c => (0, ctl, c)
          end
      end.

(** The names kept for a control are those of its items. *)
Definition names_ok (ctl : mixer_ctl) : Prop := match ename ctl with None => True | Some names => zlen names = items (info ctl) end.

Lemma enum_names_length id n : forall m names, enum_names id n m = Some names -> length names = n.
Proof.
  induction n as [|n IH]; intros m names; cbn; [by intros [= <-]|].
  destruct (enum_name id m); cbn; [|done]. destruct (strdup_ok m); [|done]. destruct (enum_names _ _ _) as [l|] eqn:Hl; cbn; [|done].
  intros [= <-]. cbn. f_equal. by eapply IH.
Qed.

Lemma fill_names_spec ctl ret ctl' : names_ok ctl -> 0 <= items (info ctl) -> mixer_ctl_fill_enum_string ctl = (ret, ctl') ->
  names_ok ctl' /\ info ctl' = info ctl /\ (ret = 0 /\ is_Some (ename ctl') \/ ret = -1 /\ ctl' = ctl).
Proof.
  unfold mixer_ctl_fill_enum_string, names_ok. intros Hok Hi. destruct (ename ctl) as [names|] eqn:He.
  { intros [= <- <-]. rewrite He. split_and!; [done|done|left]. by split; [|exists names]. }
  destruct (if calloc_ok then _ else _) as [names|] eqn:Hn; intros [= <- <-]; cbn; [|by rewrite He; split_and!; auto].
  destruct calloc_ok; [|done]. apply enum_names_length in Hn. split_and!; [unfold zlen; lia|done|left]. by split; [|exists names].
Qed.

Lemma find_name_spec s names : forall i, match find_name s names i with
  | Some j => i <= j < i + zlen names /\ zlookup names (j - i) = Some s
  | None => s ∉ names
  end.
Proof.
  induction names as [|s' names IH]; intros i; cbn [find_name]; [set_solver|]. rewrite zlen_cons. pose proof (zlen_nonneg names).
  case_bool_decide as Hs; [subst; rewrite Z.sub_diag; split; [lia|done]|]. specialize (IH (i + 1)). destruct (find_name _ _ _) as [j|].
  - destruct IH as [Hj Hl]. split; [lia|]. unfold zlookup in *. rewrite (proj2 (Z.ltb_ge _ 0)) in Hl by lia. rewrite (proj2 (Z.ltb_ge _ 0)) by lia.
    replace (j - i) with (Z.succ (j - (i + 1))) by lia. by rewrite Z2Nat.inj_succ by lia.
  - set_solver.
Qed.

(** Setting an enumeration by a string writes nothing, and the answer is negative; or
    the answer is 0, the control's first value is now an item, and that item's name is the
    string. *)
Theorem set_enum_correct {card} `{CardLaws card} (c : card) ctl s : names_ok ctl -> 0 < count (info ctl) -> 0 <= items (info ctl) < 2 ^ 31 ->
  let '(ret, ctl', c') := mixer_ctl_set_enum_by_string c ctl s in
  names_ok ctl' /\ info ctl' = info ctl /\
  (ret < 0 /\ c' = c \/
   ret = 0 /\ exists i, mixer_ctl_get_value c' (Some ctl') 0 = Some i /\ 0 <= i < items (info ctl) /\
     (mixer_ctl_get_enum_string ctl' i).1 = Some s).
Proof.
  intros Hok Hc Hi. unfold mixer_ctl_set_enum_by_string. case_bool_decide as Ht; cbn [negb]; [|by split_and!; auto; left].
  destruct (mixer_ctl_fill_enum_string ctl) as [ret ctl'] eqn:Hf. destruct (fill_names_spec _ _ _ Hok ltac:(lia) Hf) as (Hok' & Hinfo & Hend).
  destruct Hend as [[-> [names Hn]]|[-> ->]]; cbn [negb Z.eqb]; [|by split_and!; auto; left]. rewrite Hn. change (default [] (Some names)) with names.
  unfold names_ok in Hok'. rewrite Hn in Hok'. rewrite take_ge by (unfold zlen in *; lia).
  pose proof (find_name_spec s names 0) as Hfind. destruct (find_name s names 0) as [i|].
  2: { unfold names_ok. rewrite Hn. split_and!; auto. by left. }
  destruct Hfind as [Hrange Hlook]. rewrite Z.sub_0_r in Hlook. cbn [Z.add] in Hrange. destruct (elem_write c _ _) as [c'|] eqn:Hw.
  2: { unfold names_ok. rewrite Hn. split_and!; auto. by left. }
  unfold names_ok. rewrite Hn. split; [done|]. split; [done|]. right. split; [done|]. exists i. rewrite Hinfo in *.
  split; [|split; [lia|]].
  - unfold mixer_ctl_get_value. rewrite Hinfo, (proj2 (Z.leb_gt _ 0)), (read_written _ _ _ _ Hw), Ht by lia. cbn [has_values].
    change (zlookup _ 0) with ((<[0%nat := wrap_u32 i]> (zeros (slots ENUMERATED))) !! 0%nat). rewrite list_lookup_insert_eq by (vm_compute; lia).
    cbn. rewrite wrap_u32_id, wrap_s32_id by (unfold is_int, INT_MIN, INT_MAX; lia). done.
  - unfold mixer_ctl_get_enum_string, mixer_ctl_fill_enum_string. rewrite Hn, Hinfo, bool_decide_true, (proj2 (Z.leb_gt _ i)) by (done || lia).
    cbn. by rewrite Hn.
Qed.
End enums.

(** ** Scanning the controls *)

(** The answers during a scan: the number of elements, memory for the controls and for the
    ids, the ids of the new elements, and the description of an element. *)
Record scan := mk_scan {
  list_count : option Z; realloc_ok : bool; calloc_ids : bool; list_ids : option (list Z); elem_info_ioctl : Z -> option elem_info }.

(** The descriptions of the next [n] elements, up to the first failure; an id the kernel
    did not fill in is 0. *)
Fixpoint read_infos (a : scan) (n : nat) (ids : list Z) : list mixer_ctl * bool :=
  match n with
  | O => ([], true)
  | S n =>
      match elem_info_ioctl a (default 0 (head ids)) with
      | None => ([], false)
      | Some i => let '(l, ok) := read_infos a n (tail ids) in (mk_ctl i None :: l, ok)
      end
  end.

Definition add_controls (a : scan) (m : mixer) : Z * mixer :=
  match list_count a with
  | None => (-1, m)
  | Some n =>
      let old := zlen (ctls m) in
      if old =? n then (0, m)
      else if n <? old then (-1, m)
      else if negb (realloc_ok a) then (-1, m)
      else if negb (calloc_ids a) then (-1, m)
      else
        match list_ids a with
        | None => (-1, m)
        | Some ids =>
            let '(l, ok) := read_infos a (Z.to_nat (n - old)) ids in
            (if ok then 0 else -1, mk_mixer (fd m) (ctls m ++ l))
        end
  end.
Definition mixer_add_new_ctls (a : scan) (m : option mixer) : Z * option mixer :=
  match m with None => (0, None) | Some m => let '(ret, m) := add_controls a m in (ret, Some m) end.

(** Control [k] of a list describes element [k] of the ids. *)
Definition described (a : scan) (ids : list Z) (k : nat) (ctl : mixer_ctl) : Prop :=
  elem_info_ioctl a (default 0 (ids !! k)) = Some (info ctl) /\ ename ctl = None.

Lemma read_infos_spec a n : forall ids l ok, read_infos a n ids = (l, ok) ->
  (forall k ctl, l !! k = Some ctl -> described a ids k ctl) /\ (length l <= n)%nat /\
  (if ok then length l = n else (length l < n)%nat /\ elem_info_ioctl a (default 0 (ids !! length l)) = None).
Proof.
  induction n as [|n IH]; intros ids l ok; cbn [read_infos]; [intros [= <- <-]; split_and!; done|].
  assert (Hshift : forall k, tail ids !! k = ids !! S k) by (by destruct ids). assert (Hhead : head ids = ids !! 0%nat) by (by destruct ids).
  rewrite Hhead. destruct (elem_info_ioctl a _) as [i|] eqn:Hi; [|intros [= <- <-]; split; [done|]; split; [cbn; lia|]; split; [cbn; lia|done]].
  destruct (read_infos a n (tail ids)) as [l' ok'] eqn:Hr. intros [= <- <-]. destruct (IH _ _ _ Hr) as (Hd & Hlen & Hok). split_and!.
  - intros [|k] ctl Hk; [by injection Hk as <-|]. specialize (Hd k ctl Hk). unfold described in *. by rewrite Hshift in Hd.
  - cbn. lia.
  - destruct ok'; cbn; [lia|]. rewrite Hshift in Hok. split; [lia|apply Hok].
Qed.

(** A scan keeps the controls known before, in their places and with their strings;
    what it adds describes the kernel's new elements in order; it answers 0 exactly when the
    mixer then has as many controls as the kernel says. *)
Theorem add_controls_correct a m ret m' : add_controls a m = (ret, m') -> fd m' = fd m /\ exists l, ctls m' = ctls m ++ l /\
  (forall k ctl ids, list_ids a = Some ids -> l !! k = Some ctl -> described a ids k ctl) /\
  (ret = 0 <-> list_count a = Some (zlen (ctls m'))) /\ (ret = 0 \/ ret = -1).
Proof.
  unfold add_controls. intros H. assert (Hnil : forall k ctl ids, list_ids a = Some ids -> ([] : list mixer_ctl) !! k = Some ctl -> described a ids k ctl) by done.
  assert (Hkeep : ret = -1 -> m' = m -> list_count a <> Some (zlen (ctls m)) -> fd m' = fd m /\ exists l, ctls m' = ctls m ++ l /\
    (forall k ctl ids, list_ids a = Some ids -> l !! k = Some ctl -> described a ids k ctl) /\
    (ret = 0 <-> list_count a = Some (zlen (ctls m'))) /\ (ret = 0 \/ ret = -1)).
  { intros -> -> Hne. split; [done|]. exists []. rewrite app_nil_r. split_and!; auto. by split. }
  destruct (list_count a) as [n|] eqn:Hn; [|injection H as <- <-; by apply Hkeep].
  destruct (zlen (ctls m) =? n) eqn:He; breflect.
  { injection H as <- <-. split; [done|]. exists []. rewrite app_nil_r. split_and!; auto. by split; intros; subst. }
  assert (Hne : Some n <> Some (zlen (ctls m))) by congruence.
  destruct (n <? zlen (ctls m)) eqn:Hlt; breflect; [injection H as <- <-; by apply Hkeep|].
  destruct (realloc_ok a); cbn [negb] in H; [|injection H as <- <-; by apply Hkeep].
  destruct (calloc_ids a); cbn [negb] in H; [|injection H as <- <-; by apply Hkeep].
  destruct (list_ids a) as [ids|] eqn:Hids; [|injection H as <- <-; by apply Hkeep].
  destruct (read_infos a _ ids) as [l ok] eqn:Hr. injection H as <- <-. destruct (read_infos_spec _ _ _ _ _ Hr) as (Hd & Hlen & Hok).
  split; [done|]. exists l. cbn. split; [done|]. split; [intros k ctl ids' [= <-]; apply Hd|]. rewrite zlen_app. pose proof (zlen_nonneg (ctls m)).
  destruct ok; (split; [|by auto]); split; try done; intros Heq; [f_equal; unfold zlen in *; lia|exfalso].
  injection Heq. unfold zlen in *. lia.
Qed.

(** ** Opening and closing *)

(** The descriptors [mixer_close] closes. *)
Definition mixer_close (m : option mixer) : list Z := match m with None => [] | Some m => if 0 <=? fd m then [fd m] else [] end.

(** The mixer, and the descriptors closed on the way. *)
Definition mixer_open (opened : Z) (calloc_ok card_info : bool) (a : scan) : option mixer * list Z :=
  if opened <? 0 then (None, [])
  else if negb calloc_ok then (None, [opened])
  else
    (* zeroed by [calloc] *)
    let m := mk_mixer 0 [] in
    if negb card_info then (None, mixer_close (Some m))
    else
      let '(ret, m) := add_controls a (mk_mixer opened []) in
      if negb (ret =? 0) then (None, mixer_close (Some m)) else (Some m, []).

(** An open that gets as far as the card's description gives a mixer with all the kernel's
    controls and its own descriptor, or has closed that descriptor. *)
Theorem mixer_open_correct opened a m closed : 0 <= opened -> mixer_open opened true true a = (m, closed) ->
  match m with
  | Some m => fd m = opened /\ closed = [] /\ list_count a = Some (zlen (ctls m))
  | None => closed = [opened]
  end.
Proof.
  intros Ho. unfold mixer_open. rewrite (proj2 (Z.ltb_ge opened 0)) by lia. cbn [negb]. destruct (add_controls a _) as [ret m'] eqn:Ha.
  assert (Hspec : fd m' = opened /\ (ret = 0 -> list_count a = Some (zlen (ctls m')))).
  { revert Ha. unfold add_controls. cbn. rewrite !zlen_nil. destruct (list_count a) as [n|]; [|by intros [= <- <-]].
    destruct (0 =? n) eqn:Hz; breflect; [intros [= <- <-]; subst; by split|].
    destruct (n <? 0) eqn:Hlt; breflect; [by intros [= <- <-]|]. destruct (realloc_ok a), (calloc_ids a); cbn; try by intros [= <- <-].
    destruct (list_ids a) as [ids|]; [|by intros [= <- <-]]. destruct (read_infos a _ ids) as [l ok] eqn:Hr. intros [= <- <-].
    split; [done|]. destruct (read_infos_spec _ _ _ _ _ Hr) as (_ & _ & Hok). destruct ok; [|done]. intros _. cbn. f_equal. unfold zlen. lia. }
  destruct Hspec as [Hfd Hn]. destruct (ret =? 0) eqn:Hz; breflect; cbn [negb]; intros [= <- <-]; [by rewrite Hn|].
  cbn. rewrite Hfd. by rewrite (proj2 (Z.leb_le 0 opened)).
Qed.

(** Where the card's description cannot be read the mixer's descriptor is still the zero of
    [calloc]: standard input is closed, and the descriptor that was opened is kept. *)
Theorem open_closes_stdin opened a : 0 < opened -> mixer_open opened true false a = (None, [0]).
Proof. intros Ho. unfold mixer_open. by rewrite (proj2 (Z.ltb_ge opened 0)) by lia. Qed.

(** ** Waiting for events *)

(** What [poll] gives: an error, nothing in time, or events. *)
Inductive poll_result := PollFails (errno : Z) | PollTimeout | PollEvents (error_event io_event : bool).

(** [None]: the polls are used up. *)
Fixpoint mixer_wait_event (polls : list poll_result) : option Z :=
  match polls with
  | [] => None
  | PollFails e :: _ => Some (- e)
  | PollTimeout :: _ => Some 0
  | PollEvents error_event io_event :: polls =>
      if error_event then Some (- EIO) else if io_event then Some 1 else mixer_wait_event polls
  end.

(** ** A card whose values are kept in a map *)

#[export] Instance map_card : Card (gmap Z (list Z)) := {
  elem_read c n := c !! n;
  elem_write c n vs := Some (<[n := vs]> c);
}.
#[export] Instance map_card_laws : CardLaws (gmap Z (list Z)).
Proof.
  split; cbn; intros c c' n.
  - intros vs [= <-]. apply lookup_insert_eq.
  - intros m vs [= <-] ?. by apply lookup_insert_ne.
Qed.

Definition volume : mixer_ctl := mk_ctl (mk_info 1 "Volume" INTEGER false 2 (-100) 20 0) None.
Definition route : mixer_ctl := mk_ctl (mk_info 2 "Route" ENUMERATED false 2 0 0 3) None.
Definition some_card : gmap Z (list Z) := {[ 1 := [5; 7]; 2 := [1; 2] ]}.
Definition route_name (id m : Z) : option string := nth_error ["Off"; "Speaker"; "Headset"]%string (Z.to_nat m).
Definition small_mixer : mixer := mk_mixer 3 [volume; route; volume].

Lemma volume_readable : readable some_card volume.
Proof. intros ev Hev. vm_compute in Hev. injection Hev as <-. vm_compute. congruence. Qed.

(** 150 percent is refused by the conversion with -22, which is then set as a value. *)
Example bad_percent_written : exists c, mixer_ctl_set_percent some_card (Some volume) 0 150 = Some (0, c) /\
  mixer_ctl_get_value c (Some volume) 0 = Some (-22).
Proof. eexists. by split. Qed.

(** Setting the first value by a string resets the second. *)
Example enum_resets_others : exists ctl c, mixer_ctl_set_enum_by_string route_name true (fun _ => true) some_card route "Headset" = (0, ctl, c) /\
  mixer_ctl_get_value c (Some ctl) 0 = Some 2 /\ mixer_ctl_get_value some_card (Some route) 1 = Some 2 /\ mixer_ctl_get_value c (Some ctl) 1 = Some 0.
Proof. by eexists _, _. Qed.

Lemma lookup_by_name_correct_witness : mixer_get_ctl_by_name_and_index (Some small_mixer) "Volume" 1 = Some 2 /\
  1 < mixer_get_num_ctls_by_name (Some small_mixer) "Volume".
Proof.
  split; [reflexivity|]. pose proof (lookup_by_name_correct small_mixer "Volume" 1 ltac:(lia) ltac:(vm_compute; reflexivity)) as Hp.
  change (mixer_get_ctl_by_name_and_index (Some small_mixer) "Volume" 1) with (Some 2) in Hp. apply Hp.
Defined.

Lemma set_value_correct_witness : exists ret c', mixer_ctl_set_value some_card (Some volume) 1 (-3) = Some (ret, c') /\
  mixer_ctl_get_value c' (Some volume) 1 = Some (-3) /\ mixer_ctl_get_value c' (Some volume) 0 = Some 5.
Proof.
  destruct (set_value_correct some_card volume 1 (-3) volume_readable ltac:(lia)) as (ret & c' & Hs & Hend).
  exists ret, c'. split; [exact Hs|]. destruct Hend as [[Hneg ->]|(-> & _ & Hv & Hother)]; [vm_compute in Hs; injection Hs as <- _; vm_compute in Hneg; discriminate|].
  split; [exact Hv|]. rewrite (Hother volume 0) by (lia || (right; split; [reflexivity|lia])). reflexivity.
Defined.

Lemma percent_set_and_read_witness : exists ret c', mixer_ctl_set_percent some_card (Some volume) 0 99 = Some (ret, c') /\
  mixer_ctl_get_percent c' (Some volume) 0 = Some 0 /\ mixer_ctl_get_value c' (Some volume) 0 = Some 18.
Proof.
  assert (Hok : range_ok (info volume)) by (vm_compute; intuition congruence).
  destruct (percent_set_and_read some_card volume 0 99 volume_readable ltac:(lia) eq_refl Hok ltac:(reflexivity) ltac:(lia))
    as (ret & c' & Hs & Hend).
  exists ret, c'. split; [exact Hs|]. destruct Hend as [[Hneg ->]|(-> & Hp & Hv)]; [vm_compute in Hs; injection Hs as <- _; vm_compute in Hneg; discriminate|].
  split; [exact Hp|exact Hv].
Defined.

Lemma set_enum_correct_witness : exists ctl c, mixer_ctl_set_enum_by_string route_name true (fun _ => true) some_card route "Speaker" = (0, ctl, c) /\
  exists i, mixer_ctl_get_value c (Some ctl) 0 = Some i /\ (mixer_ctl_get_enum_string route_name true (fun _ => true) ctl i).1 = Some "Speaker"%string.
Proof.
  pose proof (set_enum_correct route_name true (fun _ => true) some_card route "Speaker" I ltac:(reflexivity) ltac:(vm_compute; intuition congruence)) as H.
  destruct (mixer_ctl_set_enum_by_string route_name true (fun _ => true) some_card route "Speaker") as [[ret ctl] c] eqn:Hs.
  assert (ret = 0) as -> by (vm_compute in Hs; congruence). exists ctl, c. split; [reflexivity|].
  destruct H as (_ & _ & [[Hneg _]|(_ & i & Hv & _ & Hn)]); [lia|]. exists i. split; [exact Hv|exact Hn].
Defined.

(** Two elements, of which the second cannot be described: the first is kept. *)
Definition half_scan : scan := mk_scan (Some 2) true true (Some [1; 2]) (fun id => if id =? 1 then Some (info volume) else None).
Lemma add_controls_correct_witness : exists l, ctls (add_controls half_scan (mk_mixer 3 [])).2 = [] ++ l /\ l = [volume].
Proof.
  destruct (add_controls_correct half_scan (mk_mixer 3 []) (-1) (mk_mixer 3 [volume]) eq_refl) as (_ & l & Hl & _).
  exists l. split; [exact Hl|]. cbn in Hl. congruence.
Defined.
