(* ===== verification/Light.v ===== *)
(** * The light service

    Models [hidl/light/Light.cpp]: the LCD and button backlights and the RGB LED shared
    by the notification, attention and battery lights.  The writes to the sysfs files
    and the pauses between them are the events a call produces; a call that would
    dereference a null colour produces [None].  [pow] is the C library's. *)

From S2P Require Import Prelude.
From S2P Require Import Float32.
From S2P Require Import Float64.

(** ** Interface types and effects *)

Inductive Flash := NONE | TIMED | HARDWARE.
#[export] Instance Flash_eq : EqDecision Flash.
Proof. solve_decision. Defined.

Inductive LightType :=
| BACKLIGHT | KEYBOARD | BUTTONS | BATTERY | NOTIFICATIONS | ATTENTION | BLUETOOTH | WIFI.
#[export] Instance LightType_eq : EqDecision LightType.
Proof. solve_decision. Defined.

Inductive Status := SUCCESS | LIGHT_NOT_SUPPORTED | BRIGHTNESS_NOT_SUPPORTED | UNKNOWN.

Record LightState := mk_light_state {
  color : Z; flashMode : Flash; flashOnMs : Z; flashOffMs : Z;
}.

Inductive light_file :=
| LcdBacklight | ButtonBacklight | RedLed | GreenLed | BlueLed | LedSelectEngine | LedRunEngine.

Inductive light_event := Put (f : light_file) (v : Z) | Pause (ms : Z).

(** The service: the largest value of each backlight, and the state last asked of each
    light that shares the LED. *)
Record light := mk_light {
  lcd_max : Z;
  button_max : Z;
  mAttentionState : LightState;
  mBatteryState : LightState;
  mNotificationState : LightState;
}.

(** ** Colours *)

Definition channel (shift : Z) (c : Z) : Z := Z.land (Z.shiftr c shift) 255.

Definition rgbToBrightness (state : LightState) : Z :=
  let c := Z.land (color state) 16777215 in
  Z.shiftr (wrap_u32 (77 * channel 16 c + 150 * channel 8 c + 29 * Z.land c 255)) 8.

Definition isLit (state : LightState) : bool := negb (Z.land (color state) 16777215 =? 0).

Record rgb := mk_rgb { r_ : Z; g_ : Z; b_ : Z }.

(** Red, yellow, green, cyan, blue, magenta, white, grey and black. *)
Definition colors : list rgb :=
  [mk_rgb 255 0 0; mk_rgb 255 255 0; mk_rgb 0 255 0; mk_rgb 0 255 255; mk_rgb 0 0 255;
   mk_rgb 255 0 255; mk_rgb 255 255 255; mk_rgb 127 127 127; mk_rgb 0 0 0].

Section Lab.
Variable pow : f64 -> f64 -> f64.

Definition widen : f32 -> f64 := f64_of_f32.
Definition narrow : f64 -> f32 := f32_of_f64.

(** One channel in 0..1, and its linear value. *)
Definition linear (v : Z) : f32 :=
  let r := f32_div (f32_of_Z v) (f32_of_Z 255) in
  if f64_le (widen r) (f64_lit 4045 100000)
  then f32_div r (f32_of_Z 12)
  else narrow (pow (f64_div (f64_add (widen r) (f64_lit 55 1000)) (f64_lit 1055 1000)) (f64_lit 24 10)).

Definition weigh (kr kg kb r g b : f32) : f32 :=
  f32_add (f32_add (f32_mul kr r) (f32_mul kg g)) (f32_mul kb b).

Definition eps : f32 := f32_div (f32_of_Z 216) (f32_of_Z 24389).
Definition kappa : f32 := f32_div (f32_of_Z 24389) (f32_of_Z 27).

Definition lab_curve (x : f32) : f32 :=
  if f32_lt eps x
  then narrow (pow (widen x) (f64_div (f64_of_Z 1) (f64_of_Z 3)))
  else narrow (f64_div (f64_add (widen (f32_mul kappa x)) (f64_of_Z 16)) (f64_of_Z 116)).

Definition rgb2lab (c : rgb) : f32 * f32 * f32 :=
  let r := linear (r_ c) in let g := linear (g_ c) in let b := linear (b_ c) in
  let X := weigh (f32_dec 436052025 1000000000) (f32_dec 385081593 1000000000)
                 (f32_dec 143087414 1000000000) r g b in
  let Y := weigh (f32_dec 222491598 1000000000) (f32_dec 71688606 100000000)
                 (f32_dec 60621486 1000000000) r g b in
  let Z := weigh (f32_dec 13929122 1000000000) (f32_dec 97097002 1000000000)
                 (f32_dec 71418547 100000000) r g b in
  let fx := lab_curve (f32_div X (f32_dec 964221 1000000)) in
  let fy := lab_curve (f32_div Y (f32_of_Z 1)) in
  let fz := lab_curve (f32_div Z (f32_dec 825211 1000000)) in
  let Ls := f32_sub (f32_mul (f32_of_Z 116) fy) (f32_of_Z 16) in
  let as_ := f32_mul (f32_of_Z 500) (f32_sub fx fy) in
  let bs := f32_mul (f32_of_Z 200) (f32_sub fy fz) in
  let half := f64_lit 1 2 in
  (narrow (f64_add (f64_mul (f64_lit 255 100) (widen Ls)) half),
   narrow (f64_add (widen as_) half), narrow (f64_add (widen bs) half)).

(** The distance of two colours in that space. *)
Definition colour_distance (c d : rgb) : f64 :=
  let '(L, a, b) := rgb2lab c in
  let '(L', a', b') := rgb2lab d in
  let sq x y := pow (widen (f32_sub x y)) (f64_of_Z 2) in
  f64_sqrt (f64_add (f64_add (sq L L') (sq a a')) (sq b b')).

(** One iteration of the search. *)
Definition nearer (c : rgb) (best : option rgb * f64) (d : rgb) : option rgb * f64 :=
  let total := colour_distance c d in
  if f64_lt total (snd best) then (Some d, total) else best.

Definition nearest_color (c : rgb) : option rgb :=
  fst (fold_left (nearer c) colors (None, f64_of_Z 765)).

(** ** The LED *)

Definition leds_off : list light_event :=
  [Put LedRunEngine 0; Put RedLed 0; Put GreenLed 0; Put BlueLed 0].

(** Programs the engine of a channel of a blinking colour. *)
Definition select_engine (v n : Z) : list light_event :=
  if v =? 0 then [] else [Put LedSelectEngine n; Pause 100].

Definition clamp_ms (ms : Z) : Z := if ms <? 1000 then 1000 else if 7000 <? ms then 7000 else ms.

Definition setSpeakerLightLocked (state : LightState) : option (list light_event) :=
  let pre := leds_off ++ [Pause 100] in
  let '(onMs, offMs) :=
    match flashMode state with TIMED => (flashOnMs state, flashOffMs state) | _ => (0, 0) end in
  let red := channel 16 (color state) in
  let green := channel 8 (color state) in
  let blue := Z.land (color state) 255 in
  let blink := (0 <? onMs) && (0 <? offMs) in
  if blink then
    match nearest_color (mk_rgb red green blue) with
    | None => None
    | Some nearest =>
        let onMs := clamp_ms onMs in
        let offMs := clamp_ms offMs in
        Some (pre ++ select_engine (r_ nearest) 1 ++ select_engine (g_ nearest) 2 ++
              select_engine (b_ nearest) 3 ++ [Put LedRunEngine 1])
    end
  else Some (pre ++ [Put RedLed red; Put GreenLed green; Put BlueLed blue]).

Definition setSpeakerBatteryLightLocked (l : light) : option (list light_event) :=
  if isLit (mNotificationState l) then setSpeakerLightLocked (mNotificationState l)
  else if isLit (mAttentionState l) then setSpeakerLightLocked (mAttentionState l)
  else if isLit (mBatteryState l) then setSpeakerLightLocked (mBatteryState l)
  else Some leds_off.

(** ** The calls *)

Definition DEFAULT_MAX_BRIGHTNESS : Z := 255.

Definition scaled (max : Z) (state : LightState) : Z :=
  let brightness := rgbToBrightness state in
  if negb (max =? DEFAULT_MAX_BRIGHTNESS)
  then wrap_u32 (brightness * max) / DEFAULT_MAX_BRIGHTNESS else brightness.

Definition setLcdBacklight (l : light) (state : LightState) : list light_event :=
  [Put LcdBacklight (scaled (lcd_max l) state)].
Definition setButtonsBacklight (l : light) (state : LightState) : list light_event :=
  [Put ButtonBacklight (scaled (button_max l) state)].

Definition with_led (l : light) : option (light * list light_event) :=
  evs ← setSpeakerBatteryLightLocked l; Some (l, evs).

Definition setAttentionLight (l : light) (state : LightState) : option (light * list light_event) :=
  with_led (mk_light (lcd_max l) (button_max l) state (mBatteryState l) (mNotificationState l)).
Definition setBatteryLight (l : light) (state : LightState) : option (light * list light_event) :=
  with_led (mk_light (lcd_max l) (button_max l) (mAttentionState l) state (mNotificationState l)).
Definition setNotificationLight (l : light) (state : LightState) : option (light * list light_event) :=
  with_led (mk_light (lcd_max l) (button_max l) (mAttentionState l) (mBatteryState l) state).

(** The table of handlers the constructor fills. *)
Definition mLights (l : light) (ty : LightType) :
  option (LightState -> option (light * list light_event)) :=
  match ty with
  | ATTENTION => Some (setAttentionLight l)
  | BACKLIGHT => Some (fun st => Some (l, setLcdBacklight l st))
  | BATTERY => Some (setBatteryLight l)
  | BUTTONS => Some (fun st => Some (l, setButtonsBacklight l st))
  | NOTIFICATIONS => Some (setNotificationLight l)
  | _ => None
  end.

Definition setLight (l : light) (ty : LightType) (state : LightState) :
  option (Status * light * list light_event) :=
  match mLights l ty with
  | None => Some (LIGHT_NOT_SUPPORTED, l, [])
  | Some handler => '(l', evs) ← handler state; Some (SUCCESS, l', evs)
  end.

(** A sequence of calls. *)
Fixpoint set_lights (l : light) (calls : list (LightType * LightState)) :
  option (light * list light_event) :=
  match calls with
  | [] => Some (l, [])
  | (ty, st) :: calls =>
      '(_, l', evs) ← setLight l ty st; '(l'', evs') ← set_lights l' calls; Some (l'', evs ++ evs')
  end.
End Lab.

(** ** Colour channels *)

Lemma land_255 z : Z.land z 255 = z mod 256.
Proof. change 255 with (Z.ones 8). by apply Z.land_ones. Qed.
Lemma land_rgb z : Z.land z 16777215 = z mod 2 ^ 24.
Proof. change 16777215 with (Z.ones 24). by apply Z.land_ones. Qed.
Lemma channel_eq n c : 0 <= n -> channel n c = c / 2 ^ n mod 256.
Proof. intros Hn. unfold channel. by rewrite land_255, Z.shiftr_div_pow2. Qed.
Lemma channel_range n c : 0 <= n -> 0 <= channel n c < 256.
Proof. intros Hn. rewrite channel_eq by done. apply Z.mod_pos_bound. lia. Qed.

(** The three channels are the low 24 bits of the colour. *)
Lemma channels_split c :
  Z.land c 16777215 = channel 16 c * 65536 + channel 8 c * 256 + Z.land c 255.
Proof.
  rewrite !channel_eq, land_255, land_rgb by lia.
  change (2 ^ 16) with (256 * 256). change (2 ^ 8) with 256. change (2 ^ 24) with (256 * (256 * 256)).
  rewrite (Z.rem_mul_r c 256 (256 * 256)), (Z.rem_mul_r (c / 256) 256 256) by lia.
  rewrite Z.div_div by lia. lia.
Qed.

Lemma land_sub c n : 0 <= n <= 16 -> Z.land (Z.shiftr (Z.land c 16777215) n) 255 = channel n c.
Proof.
  intros Hn. unfold channel. apply Z.bits_inj'. intros i Hi.
  rewrite !Z.land_spec, !Z.shiftr_spec, Z.land_spec by done.
  change 255 with (Z.ones 8). change 16777215 with (Z.ones 24). rewrite !Z.testbit_ones by lia.
  destruct (Z.ltb_spec i 8); [|by rewrite !andb_false_r].
  rewrite (proj2 (Z.ltb_lt (i + n) 24)), (proj2 (Z.leb_le 0 (i + n))) by lia. by rewrite andb_true_r.
Qed.

Lemma brightness_eq st :
  rgbToBrightness st =
  (77 * channel 16 (color st) + 150 * channel 8 (color st) + 29 * Z.land (color st) 255) / 256.
Proof.
  unfold rgbToBrightness. pose proof (land_sub (color st) 0 ltac:(lia)) as H0.
  unfold channel in H0 at 1. rewrite !Z.shiftr_0_r in H0.
  unfold channel at 1 2. rewrite !land_sub, H0 by lia.
  pose proof (channel_range 16 (color st)). pose proof (channel_range 8 (color st)).
  pose proof (channel_range 0 (color st)). unfold channel in *. rewrite !Z.shiftr_0_r in *.
  rewrite Z.shiftr_div_pow2 by lia. rewrite wrap_u32_id by lia. done.
Qed.

Lemma brightness_range st : 0 <= rgbToBrightness st <= 255.
Proof.
  rewrite brightness_eq. pose proof (channel_range 16 (color st)). pose proof (channel_range 8 (color st)).
  rewrite land_255. pose proof (Z.mod_pos_bound (color st) 256). split; [apply Z.div_pos; lia|].
  apply Z.lt_succ_r, Z.div_lt_upper_bound; lia.
Qed.

Lemma scaled_eq max st :
  0 <= max -> 255 * max < 2 ^ 32 -> scaled max st = rgbToBrightness st * max / 255.
Proof.
  intros H0 H1. pose proof (brightness_range st). unfold scaled, DEFAULT_MAX_BRIGHTNESS.
  destruct (Z.eqb_spec max 255) as [->|]; cbn [negb].
  - by rewrite Z.div_mul.
  - rewrite wrap_u32_id by nia. done.
Qed.

(** ** The nearest colour *)

Lemma search_spec pow c ds best dist seen :
  (forall d, d ∈ seen -> f64_lt (colour_distance pow c d) dist = false) ->
  let r := fold_left (nearer pow c) ds (best, dist) in
  (forall d, d ∈ seen ++ ds -> f64_lt (colour_distance pow c d) r.2 = false) /\
  (r = (best, dist) \/
   exists d, d ∈ ds /\ r = (Some d, colour_distance pow c d) /\ f64_lt (colour_distance pow c d) dist = true).
Proof.
  revert best dist seen. induction ds as [|d ds IH]; intros best dist seen Hseen; cbn [fold_left].
  { rewrite app_nil_r. split; [done|by left]. }
  change (nearer pow c (best, dist) d) with (if f64_lt (colour_distance pow c d) dist
    then (Some d, colour_distance pow c d) else (best, dist)).
  destruct (f64_lt (colour_distance pow c d) dist) eqn:E.
  - destruct (IH (Some d) (colour_distance pow c d) (seen ++ [d])) as [H1 H2].
    { intros d' [Hd'|Hd']%elem_of_app.
      - apply not_true_iff_false. intros Hlt. specialize (Hseen _ Hd').
        by rewrite (f64_lt_trans _ _ _ Hlt E) in Hseen.
      - apply list_elem_of_singleton in Hd' as ->. apply f64_lt_irrefl. }
    rewrite <- app_assoc in H1. split; [exact H1|]. right.
    destruct H2 as [->|(d' & Hin & -> & Hlt)].
    + exists d. split; [by left|done].
    + exists d'. split; [by right|]. split; [done|]. by apply (f64_lt_trans _ _ _ Hlt).
  - destruct (IH best dist (seen ++ [d])) as [H1 H2].
    { intros d' [Hd'|Hd']%elem_of_app; [by apply Hseen|].
      by apply list_elem_of_singleton in Hd' as ->. }
    rewrite <- app_assoc in H1. split; [exact H1|].
    destruct H2 as [->|(d' & Hin & -> & Hlt)]; [by left|right]. exists d'. split; [by right|done].
Qed.

Lemma nearest_spec pow c :
  match nearest_color pow c with
  | Some d => d ∈ colors /\ f64_lt (colour_distance pow c d) (f64_of_Z 765) = true /\
      forall d', d' ∈ colors -> f64_lt (colour_distance pow c d') (colour_distance pow c d) = false
  | None => forall d, d ∈ colors -> f64_lt (colour_distance pow c d) (f64_of_Z 765) = false
  end.
Proof.
  unfold nearest_color. destruct (search_spec pow c colors None (f64_of_Z 765) []) as [H1 H2].
  { by intros d ?%elem_of_nil. }
  destruct H2 as [E|(d & Hin & E & Hlt)]; rewrite E in *; cbn in *; [exact H1|done].
Qed.

(** ** The LED's state *)

Definition led_light (ty : LightType) : bool :=
  match ty with ATTENTION | BATTERY | NOTIFICATIONS => true | _ => false end.

(** The state last asked of a light. *)
Definition latest (ty : LightType) (st0 : LightState) (calls : list (LightType * LightState)) : LightState :=
  fold_left (fun st call => if bool_decide (fst call = ty) then snd call else st) calls st0.

(** The state the LED shows: the first that is lit, by priority. *)
Definition winner (l : light) : option LightState :=
  head (filter (fun st => isLit st = true) [mNotificationState l; mAttentionState l; mBatteryState l]).

Definition light_after (l : light) (calls : list (LightType * LightState)) : light :=
  mk_light (lcd_max l) (button_max l) (latest ATTENTION (mAttentionState l) calls)
    (latest BATTERY (mBatteryState l) calls) (latest NOTIFICATIONS (mNotificationState l) calls).

Lemma winner_eq pow l :
  setSpeakerBatteryLightLocked pow l =
  match winner l with Some st => setSpeakerLightLocked pow st | None => Some leds_off end.
Proof.
  unfold setSpeakerBatteryLightLocked, winner. rewrite !filter_cons.
  by destruct (isLit (mNotificationState l)), (isLit (mAttentionState l)), (isLit (mBatteryState l)).
Qed.

Lemma latest_app ty st calls calls' : latest ty st (calls ++ calls') = latest ty (latest ty st calls) calls'.
Proof. apply fold_left_app. Qed.

Lemma setLight_state pow l ty st s l' evs :
  setLight pow l ty st = Some (s, l', evs) -> l' = light_after l [(ty, st)].
Proof.
  unfold setLight. destruct l, ty; cbn; intros H; simplify_eq/=; try done;
    unfold setAttentionLight, setBatteryLight, setNotificationLight, with_led in H;
    destruct (setSpeakerBatteryLightLocked _ _); by simplify_eq/=.
Qed.

Lemma set_lights_state pow l calls l' evs :
  set_lights pow l calls = Some (l', evs) -> l' = light_after l calls.
Proof.
  revert l evs. induction calls as [|[ty st] calls IH]; intros l evs H; cbn [set_lights] in H.
  { simplify_eq. by destruct l'. }
  destruct (setLight pow l ty st) as [[[s l1] evs1]|] eqn:E; simplify_eq/=.
  destruct (set_lights pow l1 calls) as [[l2 evs2]|] eqn:E2; simplify_eq/=.
  apply IH in E2. apply setLight_state in E. by subst.
Qed.

(** ** Properties *)

(** After any sequence of calls, a call for one of the three lights that share the
    LED shows the notification light's latest state if that is lit, otherwise the
    attention light's, otherwise the battery light's, otherwise turns the LED off; no
    other call touches the LED or what it shows, and unknown lights are refused. *)
Theorem led_shows_priority (pow : f64 -> f64 -> f64) (l l' : light)
    (calls : list (LightType * LightState)) (log : list light_event) (ty : LightType) (st : LightState) :
  set_lights pow l calls = Some (l', log) ->
  (led_light ty = true ->
   setLight pow l' ty st =
     let now := light_after l (calls ++ [(ty, st)]) in
     evs ← (match winner now with Some w => setSpeakerLightLocked pow w | None => Some leds_off end);
     Some (SUCCESS, now, evs)) /\
  (led_light ty = false ->
   exists s evs, setLight pow l' ty st = Some (s, l', evs) /\
     light_after l (calls ++ [(ty, st)]) = l' /\
     match ty with
     | BACKLIGHT => s = SUCCESS /\ evs = [Put LcdBacklight (scaled (lcd_max l) st)]
     | BUTTONS => s = SUCCESS /\ evs = [Put ButtonBacklight (scaled (button_max l) st)]
     | _ => s = LIGHT_NOT_SUPPORTED /\ evs = []
     end).
Proof.
  intros H. apply set_lights_state in H as ->. unfold light_after. rewrite !latest_app.
  split; intros Hty; destruct ty; try done; cbn zeta; cbn [latest fold_left fst snd];
    repeat (rewrite bool_decide_true by done || rewrite bool_decide_false by done);
    rewrite <- ?winner_eq; try (do 2 eexists; done).
  all: unfold setLight; cbn; unfold setAttentionLight, setBatteryLight, setNotificationLight, with_led;
    cbn; by destruct (setSpeakerBatteryLightLocked _ _).
Qed.

(** A steady light is written as the three bytes of its colour; a blinking one
    depends on nothing but the colour, whatever positive durations are asked: it starts
    the engines of the channels of the closest of the nine colours, and none is closer;
    the call fails only if every one is 765 or more away. *)
Theorem led_program (pow : f64 -> f64 -> f64) (st : LightState) :
  let blinks := bool_decide (flashMode st = TIMED) && (0 <? flashOnMs st) && (0 <? flashOffMs st) in
  let r := channel 16 (color st) in let g := channel 8 (color st) in let b := channel 0 (color st) in
  let engines c := select_engine (r_ c) 1 ++ select_engine (g_ c) 2 ++ select_engine (b_ c) 3 in
  Z.land (color st) 16777215 = r * 65536 + g * 256 + b /\
  (blinks = false ->
   setSpeakerLightLocked pow st =
     Some (leds_off ++ [Pause 100; Put RedLed r; Put GreenLed g; Put BlueLed b])) /\
  (blinks = true ->
   match setSpeakerLightLocked pow st with
   | Some evs => exists c, evs = leds_off ++ Pause 100 :: engines c ++ [Put LedRunEngine 1] /\ c ∈ colors /\
       f64_lt (colour_distance pow (mk_rgb r g b) c) (f64_of_Z 765) = true /\
       forall c', c' ∈ colors ->
         f64_lt (colour_distance pow (mk_rgb r g b) c') (colour_distance pow (mk_rgb r g b) c) = false
   | None => forall c, c ∈ colors -> f64_lt (colour_distance pow (mk_rgb r g b) c) (f64_of_Z 765) = false
   end /\
   forall on off, 0 < on -> 0 < off ->
     setSpeakerLightLocked pow (mk_light_state (color st) TIMED on off) = setSpeakerLightLocked pow st).
Proof.
  intros blinks r g b engines.
  assert (Hb : Z.land (color st) 255 = b) by (unfold b, channel; by rewrite Z.shiftr_0_r).
  split; [by rewrite channels_split, Hb|].
  assert (Heq : forall on off c, 0 < on -> 0 < off ->
    setSpeakerLightLocked pow (mk_light_state c TIMED on off) =
    n ← nearest_color pow (mk_rgb (channel 16 c) (channel 8 c) (Z.land c 255));
    Some ((leds_off ++ [Pause 100]) ++ select_engine (r_ n) 1 ++ select_engine (g_ n) 2 ++
          select_engine (b_ n) 3 ++ [Put LedRunEngine 1])).
  { intros on off c Hon Hoff. unfold setSpeakerLightLocked. cbn [flashMode flashOnMs flashOffMs color].
    rewrite (proj2 (Z.ltb_lt 0 on)), (proj2 (Z.ltb_lt 0 off)) by done. cbn [andb].
    by destruct (nearest_color _ _). }
  destruct st as [c mode on off]. unfold blinks. cbn [color flashMode flashOnMs flashOffMs] in *.
  split.
  - intros Hbl. unfold setSpeakerLightLocked. cbn [flashMode flashOnMs flashOffMs color].
    rewrite Hb, <- app_assoc. destruct mode; [done| |done].
    rewrite bool_decide_true in Hbl by done. cbn in Hbl |- *. by rewrite Hbl.
  - intros Hbl. destruct mode; try done. rewrite bool_decide_true in Hbl by done.
    cbn [andb] in Hbl. breflect.
    split; [|intros; by rewrite !Heq].
    rewrite Heq, Hb by done. pose proof (nearest_spec pow (mk_rgb r g b)) as Hn.
    fold r g. destruct (nearest_color _ _) as [n|]; cbn [mbind option_bind]; [|exact Hn].
    destruct Hn as (Hin & Hlt & Hmin). exists n. split; [|done].
    unfold engines. by rewrite <- !app_assoc.
Qed.

(** A backlight is written the luma of its colour scaled to the panel's range,
    rounded down: never above the maximum, the maximum for white and 0 for black. *)
Theorem backlight_scaled (max : Z) (st : LightState) (Hmax : 0 <= max) (Hfit : 255 * max < 2 ^ 32) :
  let luma := (77 * channel 16 (color st) + 150 * channel 8 (color st) + 29 * channel 0 (color st)) / 256 in
  0 <= luma <= 255 /\ scaled max st = luma * max / 255 /\ 0 <= scaled max st <= max /\
  (isLit st = false -> scaled max st = 0) /\
  (Z.land (color st) 16777215 = 16777215 -> scaled max st = max).
Proof.
  assert (Hb : channel 0 (color st) = Z.land (color st) 255) by (unfold channel; by rewrite Z.shiftr_0_r).
  cbn zeta. rewrite Hb, <- brightness_eq, scaled_eq by done.
  pose proof (brightness_range st) as Hr. split; [done|]. split; [done|].
  assert (Hup : rgbToBrightness st * max / 255 <= max).
  { apply Z.div_le_upper_bound; [done|]. nia. }
  assert (Hlo : 0 <= rgbToBrightness st * max / 255) by (apply Z.div_pos; nia).
  pose proof (channels_split (color st)) as Hs. rewrite brightness_eq in *.
  pose proof (channel_range 16 (color st) ltac:(lia)). pose proof (channel_range 8 (color st) ltac:(lia)).
  pose proof (channel_range 0 (color st) ltac:(lia)). rewrite Hb in *.
  split; [done|]. split.
  - intros Hl. unfold isLit in Hl. apply negb_false_iff, Z.eqb_eq in Hl. rewrite Hl in Hs.
    assert (channel 16 (color st) = 0 /\ channel 8 (color st) = 0 /\ Z.land (color st) 255 = 0)
      as (-> & -> & ->) by lia. done.
  - intros Hw. rewrite Hw in Hs.
    assert (channel 16 (color st) = 255 /\ channel 8 (color st) = 255 /\ Z.land (color st) 255 = 255)
      as (-> & -> & ->) by lia.
    change ((77 * 255 + 150 * 255 + 29 * 255) / 256) with 255. by rewrite Z.mul_comm, Z.div_mul.
Qed.

(** ** Witnesses *)

Definition off_state : LightState := mk_light_state 4278190080 NONE 0 0.
Definition steady (c : Z) : LightState := mk_light_state c NONE 0 0.
Definition sample_light : light := mk_light 1023 255 off_state off_state off_state.

Definition sample_calls : list (LightType * LightState) :=
  [(BATTERY, steady 255); (NOTIFICATIONS, steady 65280); (ATTENTION, steady 16711680)].

Lemma led_shows_priority_witness :
  is_Some (set_lights (fun x _ => x) sample_light sample_calls) /\
  (evs ← (r ← set_lights (fun x _ => x) sample_light sample_calls;
          s ← setLight (fun x _ => x) r.1 NOTIFICATIONS off_state; Some s.2); Some evs) =
  Some (leds_off ++ [Pause 100; Put RedLed 255; Put GreenLed 0; Put BlueLed 0]).
Proof.
  split; [by eexists|].
  destruct (set_lights _ _ _) as [[l log]|] eqn:E; [|discriminate E].
  destruct (led_shows_priority _ _ _ _ _ NOTIFICATIONS off_state E) as [H _].
  cbn [mbind option_bind fst]. rewrite H by reflexivity. reflexivity.
Defined.

Lemma backlight_scaled_witness : 255 * 1023 < 2 ^ 32 /\ 0 <= scaled 1023 (steady 8421504) <= 1023.
Proof. split; [lia|]. apply (backlight_scaled 1023 (steady 8421504)); lia. Defined.

(** The brightest grey of a 10-bit panel, and a blinking red with a crude [pow]. *)
Example grey_backlight : scaled 1023 (steady 8421504) = 513.
Proof. reflexivity. Qed.
Example blinking_red :
  setSpeakerLightLocked (fun x y => if f64_lt y (f64_of_Z 1) then x else f64_mul x x)
    (mk_light_state 16716049 TIMED 500 9000) =
  Some (leds_off ++ [Pause 100; Put LedSelectEngine 1; Pause 100; Put LedRunEngine 1]).
Proof. vm_compute. reflexivity. Qed.
